(* ===== verification/_CoqProject ===== *)
-Q . S2P
Prelude.v
Misc.v
Bitmap.v
BitmapSpec.v
BitmapOps.v
BitmapTests.v
BitmapModel.v
CString.v
BitmapString.v
CStringOk.v
MaskTextOk.v
ListTextOk.v
Cpuset.v
Obj.v
ObjCmp.v
Insert.v
InsertOk.v
Clean.v
CleanOk.v
Restrict.v
Levels.v
LevelsOk.v
LevelsLoop.v
Connected.v
Sets.v
Samples.v
Synthetic.v
SyntheticOk.v
SyntheticParse.v
SyntheticThms.v
BitmapThms.v
TextThms.v
TreeThms.v
LevelThms.v
SetThms.v
Traversal.v
Loaded.v
Helper.v
HelperOk.v
TravThms.v
Bind.v
BindThms.v
Shape.v
Discover.v
DiscoverOk.v
CleanSets.v
DiscoverLoad.v
SyntheticLoad.v
DiscoverThms.v
LifeOk.v
LifeThms.v
Check.v
CheckOk.v
CheckThms.v
Float.v
Scan.v
CpusetText.v
XmlExport.v
XmlExportOk.v
XmlImport.v
XmlTokens.v
CpusetTextOk.v
XmlImportOk.v
XmlRound.v
XmlThms.v
Distances.v
Grouping.v
GroupsOk.v
Described.v
GroupRecOk.v
Latency.v
DistThms.v
LinuxFiles.v
LinuxCpus.v
LinuxNodes.v
LinuxCpusOk.v
LinuxSysfs.v
LinuxLoop.v
LinuxText.v
LinuxThms.v
