(* ===== verification/Prelude.v ===== *)
(** * hwloc: a verification development (root file)

    hwloc discovers the hierarchy of a machine (NUMA nodes, sockets, caches, cores,
    PUs, I/O devices), lets programs consult it, and binds processes and memory.
    This library models its portable core, written in C under [src/src/] and
    [src/include/], and proves it correct.

    ** Conventions

    A C function is a Rocq function of the same name.  [option] is undefined
    behaviour: [None] is a NULL dereference, a failed [assert], an [abort] or an
    access out of bounds, and a theorem that gives [Some] proves their absence.
    Machine integers are [Z] kept in range by [u32], [u64] and [s32] (LP64).  What
    the code mutates is threaded explicitly; objects carry the address they were
    allocated at ([o_addr]), and the pointers between objects of a connected
    topology are a finite map from addresses to links ([links_store]).  Errors are
    the int or the NULL that the code returns, with errno where callers see it.

    ** The parts and how they interact

    - Words: Misc.v, [include/private/misc.h] and [misc.c] (ffs, fls, weights).
    - Bitmaps: Bitmap.v is [cpuset.c], over an allocator that may refuse (class
      [Malloc]).  BitmapSpec.v gives the set a bitmap denotes and its invariant;
      BitmapOps.v, BitmapTests.v what each function does to it;
      BitmapModel.v is the abstract specification, a predicate on indexes, that any
      sequence of calls refines.  Claims in BitmapThms.v.
    - Text of bitmaps: CString.v ([printf], [strtoul], [hwloc_snprintf]),
      BitmapString.v (the printers and parsers of [cpuset.c]); proofs in CStringOk.v,
      MaskTextOk.v, ListTextOk.v; claims in TextThms.v.
    - The interface: Cpuset.v.  The class [CpusetOps] has the bitmap operations that
      the topology code calls and [Cpuset] their laws; the bitmaps of Bitmap.v are
      an instance, so everything below is proved against the interface only.
    - Objects: Obj.v (structures of [hwloc.h] and [private.h], types and orders),
      ObjCmp.v ([hwloc_type_cmp], [hwloc_obj_cmp]).  A hierarchy under construction
      is a tree of objects ([obj_tree]).
    - Insertion by cpuset and by parent: Insert.v, InsertOk.v ([topology.c]).
    - Passes that complete sets and memory: Sets.v; that remove objects,
      and [hwloc_topology_restrict]: Clean.v, CleanOk.v, Restrict.v,
      CleanSets.v.
    - Links and levels: Levels.v; LevelsOk.v (children, I/O lists), LevelsLoop.v (the
      loop of [hwloc_connect_levels]), Connected.v, Shape.v.
    - The synthetic backend: Synthetic.v ([topology-synthetic.c]); SyntheticParse.v,
      SyntheticOk.v; claims in SyntheticThms.v.
    - The life of a topology: Discover.v composes all of these as
      [hwloc_discover], with [hwloc_topology_init], [_set_synthetic], [_set_custom],
      [_load] and [_restrict]; DiscoverOk.v, DiscoverLoad.v and SyntheticLoad.v follow
      the objects through it; LifeOk.v is what loads and restrictions keep of any
      objects, and of their links; claims in DiscoverThms.v and LifeThms.v.
    - Consultation: Traversal.v and Helper.v ([traversal.c], [helper.h]) on the state
      that loading leaves; Loaded.v, HelperOk.v; claims
      in TravThms.v.
    - Checks: Check.v is [hwloc_topology_check] with its assertions; CheckOk.v;
      the claim is in CheckThms.v.
    - Floats by their bits, with their text and arithmetic: Float.v; what [sscanf] reads:
      Scan.v.
    - XML without libxml2 ([topology-xml.c]): XmlExport.v and XmlImport.v, and
      CpusetText.v (the text of sets, an interface whose laws are in CpusetTextOk.v).  XmlExportOk.v is the text written;
      XmlTokens.v, XmlImportOk.v, XmlRound.v read it back, from
      tags up to the whole document; claims in XmlThms.v.
    - Distances ([distances.c]): Distances.v (the matrices that users and the environment
      give, and the objects of their indexes) and the removal of lines and columns; Grouping.v (the search of groups and their insertion, at all
      levels), GroupsOk.v (the search), Described.v (hierarchies described in the
      environment), GroupRecOk.v (the hierarchy while groups
      are inserted); Latency.v (matrices attached to objects of a loaded
      topology); claims and examples of failures in DistThms.v.
    - The Linux backend ([topology-linux.c]), over a file system that is a parameter:
      LinuxFiles.v (opening files, lines, numbers, masks of CPUs, and the class
      [CpumapOps] of what it asks of bitmaps beside [CpusetOps]), LinuxCpus.v
      ([look_sysfscpu], the device tree of PowerPC, [/proc/cpuinfo]), LinuxNodes.v
      (memory, huge pages, NUMA nodes, mount points and cpusets, Kerrighed, DMI, and
      [hwloc_look_linuxfs]).  LinuxCpusOk.v has the invariant of the hierarchy while
      objects are inserted ([standing]), LinuxSysfs.v what each step of
      [look_sysfscpu] adds, LinuxLoop.v its loops, LinuxText.v the texts of the
      kernel; claims and examples of failures in LinuxThms.v.
    - Binding: Bind.v ([bind.c] and the dummy hooks of [topology.c]); BindThms.v.

    ** What the theorems show

    - Bitmaps: every call sequence refines operations on sets; tests, searches,
      comparisons and iteration decide what they are named after, with the exact
      cases where they do not; what is printed is read back, within the buffer.
    - Hierarchy: insertion keeps it included, disjoint and sorted; each removal pass
      is a filter or a normal form, given exactly; restriction leaves no dropped CPU.
    - Levels: the levels partition the objects, in order, ancestors above; links,
      ranks, cousins, logical indexes and depths agree with the arrays.
    - Discovery: from well-formed objects the passes complete and leave a topology
      that can be consulted; a regular synthetic description is loaded, and loaded
      again, as exactly the levels it describes, from any state that calls reach; in all
      states that calls reach, loaded topologies (without I/O objects, their root not a
      Misc object) can be consulted, and the others have a single fresh object.
    - Descriptions: each list of words and numbers gets the error or the levels that it
      reads as.
    - [hwloc_topology_check] passes exactly when the sets of the objects are in order.
    - XML: the text fits the buffer; a hierarchy whose strings need no escape is read
      back the same, but for what [reread_as] lists; an escape loses attributes.
    - Distances: arrays are never left; groups are made of linked objects, and exactly the
      classes when closeness is transitive; grouping keeps the hierarchy for objects
      aligned with it, and new groups have depths that no group had; a described hierarchy is found again; latencies are normalised.
    - Linux: for a directory of CPUs without a device tree, whose files fit the buffers and
      whose cache attributes divide by no 0, the hierarchy stands and is loaded, even when
      the sets of the files cross, if no object that the insertion freed is used (no CPU
      model for sockets, no empty cache map); when the sets in the files are nested or
      disjoint, every object that they describe is there; the masks, lists and
      processors that the kernel writes are read back; a cpuset restricts what is
      allowed to what it lists.
    - Queries return what they document on such a topology; binding hooks only get
      sets that are legal.

    ** Fuel

    Loops that are not structural take fuel.  Removal passes use the size of the tree,
    which no turn increases; the loop of the levels uses it too, since each turn takes
    an object.  The search of a group uses one more than
    the objects, as each turn adds one; the levels of grouping the number of objects,
    since there are less groups.  The XML parser uses the length of the text, and the escapes that of the
    value.  The readers of lines and masks of the Linux backend use the length of the file, since each
    turn takes a character, the visit of a set its weight.  The walk along the caches of
    the device tree uses one more than its entries; caches that lead back to themselves
    have no end ([cache_loop]).  Walks along links use one more than the number of live objects.
    [printf] of a number uses 64 digits; the list printer 64 turns per word and one;
    parsers the length of the text.  Each has a theorem that it is enough.

    ** Not modelled

    The backends of operating systems other than Linux, libpci and libxml2 only report
    what the system or the library answers; the backend is a parameter of
    [hwloc_discover].  Of the Linux backend the binding hooks are left out (they are
    calls of the kernel), and so are its messages; the theorems on [look_sysfscpu] are
    those of a machine without device tree, whose walk has its own.
    Failures of [malloc] outside of [cpuset.c] and [bind.c], [userdata], debug output,
    support flags and the environment variables (those of distances apart) are left out,
    and [hwloc_discover] in Discover.v is that of a topology without distances.  The drawing and
    printing of the tools is not modelled.  Of the XML code, the calls of libxml2, the
    reading of the file and [hwloc_xml__handle_distances] are left out.

    Neither are the insertion of Misc and Group objects by users, the text of objects
    ([traversal.c]) and the parsing of locations in [hwloc-calc.h] modelled: they print and
    parse around the functions above. *)

From stdpp Require Export base tactics list numbers option strings sets.
From Stdlib Require Export ZArith Lia.
From Stdlib Require Import ZifyBool.

#[global] Open Scope Z_scope.

(** ** Notations of the development *)

Declare Scope hwloc_scope.
Delimit Scope hwloc_scope with hwloc.

(** [None] at this level is undefined behaviour, a failed [assert] or an
    [abort]; a C function whose model returns [Some r] ran to completion. *)
Notation "'let!' x ':=' m 'in' k" := (mbind (fun x => k) m)
  (at level 10, x pattern, m at level 100, k at level 200,
   format "'[v' 'let!'  x  ':='  m  'in' '/' k ']'") : hwloc_scope.
Notation "'require!' b 'in' k" := (if b then k else None)
  (at level 10, b at level 100, k at level 200) : hwloc_scope.

#[global] Open Scope hwloc_scope.

(** ** C integers (LP64: int and unsigned on 32 bits, long on 64 bits) *)

Definition u32 (x : Z) : Z := x mod 2 ^ 32.
Definition u64 (x : Z) : Z := x mod 2 ^ 64.
Definition s32 (x : Z) : Z := (x + 2 ^ 31) mod 2 ^ 32 - 2 ^ 31.

Definition UINT_MAX : Z := 2 ^ 32 - 1.
Definition INT_MAX : Z := 2 ^ 31 - 1.

Lemma u32_small x : 0 <= x < 2 ^ 32 -> u32 x = x.
Proof. apply Z.mod_small. Qed.

Lemma u64_small x : 0 <= x < 2 ^ 64 -> u64 x = x.
Proof. apply Z.mod_small. Qed.

Lemma s32_small x : - 2 ^ 31 <= x < 2 ^ 31 -> s32 x = x.
Proof. intros H. unfold s32. rewrite Z.mod_small; lia. Qed.

Lemma u32_range x : 0 <= u32 x < 2 ^ 32.
Proof. by apply Z.mod_pos_bound. Qed.

Lemma u64_range x : 0 <= u64 x < 2 ^ 64.
Proof. by apply Z.mod_pos_bound. Qed.

Lemma s32_range x : - 2 ^ 31 <= s32 x < 2 ^ 31.
Proof.
  unfold s32. pose proof (Z.mod_pos_bound (x + 2 ^ 31) (2 ^ 32)). lia.
Qed.

(** ** Bits of machine words *)

Lemma testbit_u64 x k :
  0 <= k -> Z.testbit (u64 x) k = (k <? 64) && Z.testbit x k.
Proof.
  intros Hk. unfold u64. destruct (Z.ltb_spec k 64); simpl.
  - rewrite Z.mod_pow2_bits_low; auto.
  - rewrite Z.mod_pow2_bits_high; auto. lia.
Qed.

Lemma testbit_high x n k : 0 <= x < 2 ^ n -> n <= k -> Z.testbit x k = false.
Proof.
  intros Hx Hk. destruct (Z.eq_dec x 0) as [->|Hnz]; [by rewrite Z.testbit_0_l|].
  apply Z.bits_above_log2; [lia|].
  assert (0 <= n) by (destruct (Z.lt_ge_cases n 0); [rewrite Z.pow_neg_r in Hx|]; lia).
  assert (Z.log2 x < n) by (apply Z.log2_lt_pow2; lia). lia.
Qed.

Lemma range_of_high_bits x n :
  0 <= n -> 0 <= x -> (forall k, n <= k -> Z.testbit x k = false) -> 0 <= x < 2 ^ n.
Proof.
  intros Hn Hx Hhigh. split; [done|].
  destruct (Z.eq_dec x 0) as [->|Hnz]; [lia|].
  apply Z.log2_lt_pow2; [lia|].
  destruct (Z.lt_ge_cases (Z.log2 x) n) as [|Hge]; [done|].
  specialize (Hhigh (Z.log2 x) Hge). rewrite Z.bit_log2 in Hhigh; [done|lia].
Qed.

Lemma word_ext x y :
  0 <= x < 2 ^ 64 -> 0 <= y < 2 ^ 64 ->
  (forall k, 0 <= k < 64 -> Z.testbit x k = Z.testbit y k) -> x = y.
Proof.
  intros Hx Hy H. apply Z.bits_inj'. intros k Hk.
  destruct (Z.lt_ge_cases k 64); [auto|].
  by rewrite !(testbit_high _ 64).
Qed.

Lemma testbit_full k : 0 <= k -> Z.testbit (2 ^ 64 - 1) k = (k <? 64).
Proof.
  intros Hk. replace (2 ^ 64 - 1) with (Z.ones 64) by done.
  destruct (Z.ltb_spec k 64).
  - apply Z.ones_spec_low. lia.
  - apply Z.ones_spec_high. lia.
Qed.

Lemma land_eq_0_bits x y :
  Z.land x y = 0 <-> forall k, 0 <= k -> Z.testbit x k && Z.testbit y k = false.
Proof.
  split.
  - intros H k Hk. by rewrite <- Z.land_spec, H, Z.testbit_0_l.
  - intros H. apply Z.bits_inj'. intros k Hk.
    rewrite Z.land_spec, Z.testbit_0_l. auto.
Qed.

Lemma nonneg_has_bit x : 0 <= x -> x <> 0 -> exists k, 0 <= k /\ Z.testbit x k = true.
Proof.
  intros. exists (Z.log2 x). split; [apply Z.log2_nonneg|]. apply Z.bit_log2. lia.
Qed.

Lemma nonzero_has_bit x :
  0 <= x < 2 ^ 64 -> x <> 0 -> exists k, 0 <= k < 64 /\ Z.testbit x k = true.
Proof.
  intros Hx Hnz. exists (Z.log2 x).
  assert (Z.log2 x < 64) by (apply Z.log2_lt_pow2; lia).
  pose proof (Z.log2_nonneg x). split; [lia|]. apply Z.bit_log2. lia.
Qed.

(** Rewriting rules that push [Z.testbit] through the word operations. *)
Create Rewrite HintDb hwloc_bits.
#[export] Hint Rewrite testbit_u64 testbit_full Z.land_spec Z.lor_spec Z.lxor_spec
  Z.ldiff_spec Z.testbit_0_l Z.lnot_spec Z.shiftl_spec Z.shiftr_spec
  using lia : hwloc_bits.

(** ** Total correctness *)

(** [returns m Q]: the computation [m] completes, without undefined behaviour,
    and its result satisfies [Q]. *)
Definition returns {A} (m : option A) (Q : A -> Prop) : Prop :=
  exists r, m = Some r /\ Q r.

Lemma returns_ret {A} (a : A) (Q : A -> Prop) : Q a -> returns (Some a) Q.
Proof. intros. by exists a. Qed.

Lemma returns_bind {A B} (m : option A) (k : A -> option B) (P : A -> Prop) (Q : B -> Prop) :
  returns m P -> (forall a, P a -> returns (k a) Q) -> returns (mbind k m) Q.
Proof. intros (a & -> & Ha) Hk. exact (Hk a Ha). Qed.

Lemma returns_mono {A} (m : option A) (P Q : A -> Prop) :
  returns m P -> (forall a, P a -> Q a) -> returns m Q.
Proof. intros (a & -> & Ha) H. exists a. auto. Qed.

Lemma returns_eq {A} (m : option A) (a : A) : returns m (fun r => r = a) <-> m = Some a.
Proof. split; [by intros (r & -> & ->)|intros ->; by exists a]. Qed.

Create HintDb hwloc.

(** ** Loops *)

(** [for_up lo n f s] is [for (i = lo; i < lo + n; i++) s = f(i, s)]. *)
Fixpoint for_up {S : Type} (lo : Z) (n : nat) (f : Z -> S -> option S) (s : S) : option S :=
  match n with
  | O => Some s
  | Datatypes.S n' => let! s' := f lo s in for_up (lo + 1) n' f s'
  end.

(** [search_up lo n f] is a loop over [lo <= i < lo + n] whose body either
    returns from the function ([Some r]) or goes to the next iteration. *)
Fixpoint search_up {R : Type} (lo : Z) (n : nat) (f : Z -> option (option R)) : option (option R) :=
  match n with
  | O => Some None
  | Datatypes.S n' =>
      let! r := f lo in
      match r with
      | Some v => Some (Some v)
      | None => search_up (lo + 1) n' f
      end
  end.

(** [search_down n f] is the same for [i = n - 1, ..., 0]. *)
Fixpoint search_down {R : Type} (n : nat) (f : Z -> option (option R)) : option (option R) :=
  match n with
  | O => Some None
  | Datatypes.S n' =>
      let! r := f (Z.of_nat n') in
      match r with
      | Some v => Some (Some v)
      | None => search_down n' f
      end
  end.

(** The invariant rule for [for_up]: total correctness. *)
Lemma for_up_inv {S} (I : Z -> S -> Prop) lo n f (s : S) :
  I lo s ->
  (forall i s, lo <= i < lo + Z.of_nat n -> I i s -> exists s', f i s = Some s' /\ I (i + 1) s') ->
  exists s', for_up lo n f s = Some s' /\ I (lo + Z.of_nat n) s'.
Proof.
  revert lo s. induction n as [|n IH]; intros lo s HI Hstep; simpl.
  - exists s. by rewrite Z.add_0_r.
  - destruct (Hstep lo s) as (s1 & -> & H1); [lia|done|]. simpl.
    destruct (IH (lo + 1) s1 H1) as (s2 & Hs2 & H2).
    + intros i s' Hi HIi. apply Hstep; [lia|done].
    + exists s2. split; [done|].
      by replace (lo + Z.of_nat (Datatypes.S n)) with (lo + 1 + Z.of_nat n) by lia.
Qed.

(** What a search loop that runs to its end or returns tells. *)
Lemma search_up_total {R} lo n (f : Z -> option (option R)) :
  (forall i, lo <= i < lo + Z.of_nat n -> is_Some (f i)) ->
  exists o, search_up lo n f = Some o /\
  match o with
  | None => forall i, lo <= i < lo + Z.of_nat n -> f i = Some None
  | Some v => exists i, lo <= i < lo + Z.of_nat n /\ f i = Some (Some v) /\
      forall j, lo <= j < i -> f j = Some None
  end.
Proof.
  revert lo. induction n as [|n IH]; intros lo Hf; simpl.
  - exists None. split; [done|]. lia.
  - destruct (Hf lo) as [o Ho]; [lia|]. rewrite Ho. simpl. destruct o as [v|].
    + exists (Some v). split; [done|]. exists lo.
      repeat split; [lia..|done|lia].
    + destruct (IH (lo + 1)) as (o & -> & Hspec); [intros; apply Hf; lia|].
      exists o. split; [done|]. destruct o as [v|].
      * destruct Hspec as (i & Hi & Hfi & Hj). exists i. repeat split; [lia..|done|].
        intros j Hj'. destruct (Z.eq_dec j lo) as [->|]; [done|]. apply Hj. lia.
      * intros i Hi. destruct (Z.eq_dec i lo) as [->|]; [done|]. apply Hspec. lia.
Qed.

Lemma search_down_total {R} n (f : Z -> option (option R)) :
  (forall i, 0 <= i < Z.of_nat n -> is_Some (f i)) ->
  exists o, search_down n f = Some o /\
  match o with
  | None => forall i, 0 <= i < Z.of_nat n -> f i = Some None
  | Some v => exists i, 0 <= i < Z.of_nat n /\ f i = Some (Some v) /\
      forall j, i < j < Z.of_nat n -> f j = Some None
  end.
Proof.
  induction n as [|n IH]; intros Hf; simpl.
  - exists None. split; [done|]. lia.
  - destruct (Hf (Z.of_nat n)) as [o Ho]; [lia|]. rewrite Ho. simpl. destruct o as [v|].
    + exists (Some v). split; [done|]. exists (Z.of_nat n).
      repeat split; [lia..|done|lia].
    + destruct IH as (o & -> & Hspec); [intros; apply Hf; lia|].
      exists o. split; [done|]. destruct o as [v|].
      * destruct Hspec as (i & Hi & Hfi & Hj). exists i. repeat split; [lia..|done|].
        intros j Hj'. destruct (Z.eq_dec j (Z.of_nat n)) as [->|]; [done|]. apply Hj. lia.
      * intros i Hi. destruct (Z.eq_dec i (Z.of_nat n)) as [->|]; [done|]. apply Hspec. lia.
Qed.

(** ** Tactics *)

(** Case analysis on the boolean tests of the goal, as [lia] facts. *)
Ltac case_tests :=
  repeat match goal with
  | |- context [?a <? ?b] => destruct (Z.ltb_spec a b)
  | |- context [?a <=? ?b] => destruct (Z.leb_spec a b)
  | |- context [?a =? ?b] => destruct (Z.eqb_spec a b)
  end.

(** Splits a division by 64 into quotient and remainder facts. *)
Ltac divmod64 x :=
  let H := fresh "Hdm" in let H' := fresh "Hmb" in
  pose proof (Z.div_mod x 64 ltac:(lia)) as H;
  pose proof (Z.mod_pos_bound x 64 ltac:(lia)) as H'.
