(* ===== verification/Misc.v ===== *)
(** * Misc: the word-level helpers of [include/private/misc.h] and
      [src/misc.c]

    [hwloc_ffsl], [hwloc_flsl] and [hwloc_weight_long] are translated from the
    portable branches of misc.h (the branches taken without a compiler
    built-in; [hwloc_flsl] always takes it since the GCC branch tests
    [__GNUC_____]).  They are proved equal to the index of the lowest set bit
    plus one, the integer logarithm plus one and the number of set bits. *)

From S2P Require Import Prelude.

(** ** Translated code *)

(** One test of the binary search of [hwloc_ffsl]:
    [if (!(x & mask)) { x >>= sh; i += sh; }]. *)
Definition ffsl_step (mask sh : Z) (p : Z * Z) : Z * Z :=
  let '(x, i) := p in
  if Z.land x mask =? 0 then (Z.shiftr x sh, i + sh) else (x, i).

Definition hwloc_ffsl (x : Z) : Z :=
  if x =? 0 then 0 else
  let p := (x, 1) in
  let p := ffsl_step 0xffffffff 32 p in
  let p := ffsl_step 0xffff 16 p in
  let p := ffsl_step 0xff 8 p in
  let p := ffsl_step 0xf 4 p in
  let p := ffsl_step 0x3 2 p in
  let p := ffsl_step 0x1 1 p in
  snd p.

(** One test of the binary search of [hwloc_flsl]:
    [if ((x & mask)) { x >>= sh; i += sh; }]. *)
Definition flsl_step (mask sh : Z) (p : Z * Z) : Z * Z :=
  let '(x, i) := p in
  if Z.land x mask =? 0 then (x, i) else (Z.shiftr x sh, i + sh).

Definition hwloc_flsl (x : Z) : Z :=
  if x =? 0 then 0 else
  let p := (x, 1) in
  let p := flsl_step 0xffffffff00000000 32 p in
  let p := flsl_step 0xffff0000 16 p in
  let p := flsl_step 0xff00 8 p in
  let p := flsl_step 0xf0 4 p in
  let p := flsl_step 0xc 2 p in
  let p := flsl_step 0x2 1 p in
  snd p.

(** One line of the portable [hwloc_weight_long]:
    [res = (res & mask) + ((res >> sh) & mask)], at 64 bits. *)
Definition weight_step (mask sh res : Z) : Z :=
  u64 (Z.land res mask + Z.land (Z.shiftr res sh) mask).

Definition hwloc_weight_long (w : Z) : Z :=
  let res := weight_step 0x5555555555555555 1 w in
  let res := weight_step 0x3333333333333333 2 res in
  let res := weight_step 0x0F0F0F0F0F0F0F0F 4 res in
  let res := weight_step 0x00FF00FF00FF00FF 8 res in
  let res := weight_step 0x0000FFFF0000FFFF 16 res in
  s32 (weight_step 0x00000000FFFFFFFF 32 res).

(** ** Lowest set bit *)

(** The loop state of [hwloc_ffsl] for the argument [X]: [i - 1] low bits are
    known to be clear and a set bit is known among the next [n]. *)
Definition ffsl_inv (X n : Z) (p : Z * Z) : Prop :=
  1 <= snd p /\ fst p = Z.shiftr X (snd p - 1) /\
  (forall j, 0 <= j < snd p - 1 -> Z.testbit X j = false) /\
  exists k, 0 <= k < n /\ Z.testbit (fst p) k = true.

Lemma ffsl_step_inv X sh p :
  0 < sh -> ffsl_inv X (2 * sh) p -> ffsl_inv X sh (ffsl_step (Z.ones sh) sh p).
Proof.
  destruct p as [x i]. unfold ffsl_inv, ffsl_step. simpl.
  intros Hsh (Hi & -> & Hlow & k & Hk & Hbit).
  assert (Hland : forall j, 0 <= j ->
    Z.testbit (Z.land (Z.shiftr X (i - 1)) (Z.ones sh)) j =
    (j <? sh) && Z.testbit X (j + (i - 1))).
  { intros j Hj. rewrite Z.land_spec, Z.shiftr_spec by lia. rewrite andb_comm. f_equal.
    destruct (Z.ltb_spec j sh); [apply Z.ones_spec_low|apply Z.ones_spec_high]; lia. }
  rewrite Z.shiftr_spec in Hbit by lia.
  destruct (Z.eqb_spec (Z.land (Z.shiftr X (i - 1)) (Z.ones sh)) 0) as [H0|H0]; simpl.
  - assert (Hz : forall j, 0 <= j < sh -> Z.testbit X (j + (i - 1)) = false).
    { intros j Hj. specialize (Hland j ltac:(lia)). rewrite H0, Z.testbit_0_l in Hland.
      symmetry in Hland. destruct (Z.ltb_spec j sh); [done|lia]. }
    split_and!; [lia| | |].
    + rewrite Z.shiftr_shiftr by lia. f_equal. lia.
    + intros j Hj. destruct (Z.lt_ge_cases j (i - 1)); [apply Hlow; lia|].
      replace j with (j - (i - 1) + (i - 1)) by lia. apply Hz. lia.
    + exists (k - sh). destruct (Z.lt_ge_cases k sh).
      * rewrite Hz in Hbit by lia. done.
      * split; [lia|]. rewrite !Z.shiftr_spec by lia. rewrite <- Hbit. f_equal. lia.
  - split_and!; [lia|done|done|].
    destruct (nonneg_has_bit (Z.land (Z.shiftr X (i - 1)) (Z.ones sh))) as (j & Hj & Hb);
      [apply Z.land_nonneg; right; rewrite Z.ones_equiv; lia|done|].
    rewrite Hland in Hb by done. exists j. rewrite Z.shiftr_spec by done.
    destruct (Z.ltb_spec j sh); simpl in Hb; [split; [lia|done]|done].
Qed.

Lemma hwloc_ffsl_spec X :
  0 <= X < 2 ^ 64 -> X <> 0 ->
  1 <= hwloc_ffsl X <= 64 /\
  Z.testbit X (hwloc_ffsl X - 1) = true /\
  forall j, 0 <= j < hwloc_ffsl X - 1 -> Z.testbit X j = false.
Proof.
  intros HX Hnz. unfold hwloc_ffsl. rewrite (proj2 (Z.eqb_neq X 0) Hnz).
  assert (H0 : ffsl_inv X (2 * 32) (X, 1)).
  { split_and!; simpl; [lia| |lia|].
    - by rewrite Z.shiftr_0_r.
    - by apply nonzero_has_bit. }
  apply ffsl_step_inv, (ffsl_step_inv X 16), (ffsl_step_inv X 8), (ffsl_step_inv X 4),
    (ffsl_step_inv X 2), (ffsl_step_inv X 1) in H0; [|lia..].
  change (Z.ones 32) with 0xffffffff in H0. change (Z.ones 16) with 0xffff in H0.
  change (Z.ones 8) with 0xff in H0. change (Z.ones 4) with 0xf in H0.
  change (Z.ones 2) with 0x3 in H0. change (Z.ones 1) with 0x1 in H0. cbv zeta.
  match goal with |- context [snd ?p] => set (q := p) in * end.
  destruct H0 as (Hi & Hx & Hlow & k & Hk & Hbit).
  assert (k = 0) as -> by lia. rewrite Hx, Z.shiftr_spec in Hbit by lia.
  assert (snd q - 1 < 64).
  { destruct (Z.lt_ge_cases (snd q - 1) 64) as [|Hge]; [done|].
    rewrite (testbit_high X 64) in Hbit by lia. done. }
  split_and!; [lia|lia|done|done].
Qed.

Lemma hwloc_ffsl_zero : hwloc_ffsl 0 = 0.
Proof. done. Qed.

(** ** Highest set bit *)

Definition flsl_inv (X n : Z) (p : Z * Z) : Prop :=
  1 <= snd p /\ fst p = Z.shiftr X (snd p - 1) /\ 0 < fst p < 2 ^ n.

Lemma flsl_step_inv X sh p :
  0 < sh -> flsl_inv X (2 * sh) p ->
  flsl_inv X sh (flsl_step (Z.shiftl (Z.ones sh) sh) sh p).
Proof.
  destruct p as [x i]. unfold flsl_inv, flsl_step. simpl.
  intros Hsh (Hi & -> & Hx).
  set (x := Z.shiftr X (i - 1)) in *.
  assert (Hbits : forall j, 0 <= j -> Z.testbit (Z.land x (Z.shiftl (Z.ones sh) sh)) j =
    (sh <=? j) && Z.testbit x j).
  { intros j Hj. rewrite Z.land_spec, Z.shiftl_spec, andb_comm by lia.
    destruct (Z.leb_spec sh j).
    - destruct (Z.lt_ge_cases (j - sh) sh).
      + by rewrite Z.ones_spec_low by lia.
      + rewrite (testbit_high x (2 * sh) j) by lia. by rewrite !andb_false_r.
    - by rewrite Z.testbit_neg_r by lia. }
  destruct (Z.eqb_spec (Z.land x (Z.shiftl (Z.ones sh) sh)) 0) as [H0|H0]; simpl.
  - split_and!; [lia|done|lia|].
    apply range_of_high_bits; [lia..|]. intros k Hk.
    specialize (Hbits k ltac:(lia)). rewrite H0, Z.testbit_0_l in Hbits.
    destruct (Z.leb_spec sh k); [done|lia].
  - unfold x in *. rewrite Z.shiftr_shiftr in * by lia.
    split_and!; [lia|f_equal; lia| |].
    + destruct (nonneg_has_bit (Z.land (Z.shiftr X (i - 1)) (Z.shiftl (Z.ones sh) sh)))
        as (j & Hj & Hb); [apply Z.land_nonneg; lia|done|].
      rewrite Hbits in Hb by done. apply andb_true_iff in Hb as [Hge Hb].
      assert (0 <= Z.shiftr X (i - 1 + sh)).
      { rewrite <- Z.shiftr_shiftr by lia. apply Z.shiftr_nonneg. lia. }
      assert (Z.shiftr X (i - 1 + sh) <> 0); [|lia].
      intros Heq. apply (f_equal (fun z => Z.testbit z (j - sh))) in Heq.
      rewrite Z.testbit_0_l, Z.shiftr_spec in Heq by lia.
      rewrite Z.shiftr_spec in Hb by lia.
      replace (j - sh + (i - 1 + sh)) with (j + (i - 1)) in Heq by lia. congruence.
    + rewrite <- Z.shiftr_shiftr, (Z.shiftr_div_pow2 _ sh) by lia.
      apply Z.div_lt_upper_bound; [lia|]. rewrite <- Z.pow_add_r by lia.
      replace (sh + sh) with (2 * sh) by lia. lia.
Qed.

Lemma hwloc_flsl_spec X : 0 < X < 2 ^ 64 -> hwloc_flsl X = Z.log2 X + 1.
Proof.
  intros HX. unfold hwloc_flsl. rewrite (proj2 (Z.eqb_neq X 0)) by lia.
  assert (H0 : flsl_inv X (2 * 32) (X, 1)).
  { split_and!; simpl; [lia|by rewrite Z.shiftr_0_r|lia..]. }
  apply flsl_step_inv, (flsl_step_inv X 16), (flsl_step_inv X 8), (flsl_step_inv X 4),
    (flsl_step_inv X 2), (flsl_step_inv X 1) in H0; [|lia..].
  change (Z.shiftl (Z.ones 32) 32) with 0xffffffff00000000 in H0.
  change (Z.shiftl (Z.ones 16) 16) with 0xffff0000 in H0.
  change (Z.shiftl (Z.ones 8) 8) with 0xff00 in H0.
  change (Z.shiftl (Z.ones 4) 4) with 0xf0 in H0.
  change (Z.shiftl (Z.ones 2) 2) with 0xc in H0.
  change (Z.shiftl (Z.ones 1) 1) with 0x2 in H0. cbv zeta.
  destruct H0 as (Hi & Hx & Hrange).
  match goal with |- snd ?p = _ => set (q := p) in * end.
  assert (Hone : Z.shiftr X (snd q - 1) = 1) by lia.
  rewrite Z.shiftr_div_pow2 in Hone by lia.
  enough (Z.log2 X = snd q - 1) by lia.
  apply Z.log2_unique; [lia|].
  pose proof (Z.div_mod X (2 ^ (snd q - 1)) ltac:(lia)) as Hdm.
  pose proof (Z.mod_pos_bound X (2 ^ (snd q - 1)) ltac:(lia)) as Hmb.
  rewrite Hone in Hdm. rewrite Z.pow_succ_r by lia. lia.
Qed.

Lemma hwloc_flsl_zero : hwloc_flsl 0 = 0.
Proof. done. Qed.

(** ** Population count *)

(** The reference: how many of the [n] low bits of [w] are set. *)
Fixpoint popcount (n : nat) (w : Z) : Z :=
  match n with
  | O => 0
  | S n' => popcount n' w + Z.b2z (Z.testbit w (Z.of_nat n'))
  end.

(** A word as fields of [f] bits, the lowest first, and the sums of its
    pairs of adjacent fields: what one [weight_step] computes. *)
Fixpoint fields (f : Z) (l : list Z) : Z :=
  match l with
  | [] => 0
  | c :: l' => c + 2 ^ f * fields f l'
  end.

Fixpoint pair_sums (l : list Z) : list Z :=
  match l with
  | c0 :: c1 :: l' => (c0 + c1) :: pair_sums l'
  | _ => l
  end.

Fixpoint even_mask (f : Z) (n : nat) : Z :=
  match n with
  | O => 0
  | S n' => Z.ones f + 2 ^ (2 * f) * even_mask f n'
  end.

Lemma list_ind_pairs {A} (P : list A -> Prop) :
  P [] -> (forall a, P [a]) -> (forall a b l, P l -> P (a :: b :: l)) -> forall l, P l.
Proof.
  intros H0 H1 H2. fix IH 1. intros [|a [|b l]]; [done|apply H1|apply H2, IH].
Qed.

Lemma land_concat k a b c d :
  0 <= k -> 0 <= a < 2 ^ k -> 0 <= c < 2 ^ k ->
  Z.land (a + 2 ^ k * b) (c + 2 ^ k * d) = Z.land a c + 2 ^ k * Z.land b d.
Proof.
  intros Hk Ha Hc.
  assert (Hbit : forall x y, 0 <= x < 2 ^ k -> forall j, 0 <= j ->
    Z.testbit (x + 2 ^ k * y) j = if j <? k then Z.testbit x j else Z.testbit y (j - k)).
  { intros x y Hx j Hj. destruct (Z.ltb_spec j k).
    - rewrite <- (Z.mod_pow2_bits_low (x + 2 ^ k * y) k) by lia.
      rewrite Z.mul_comm, Z.mod_add, Z.mod_small by lia. done.
    - replace j with (j - k + k) at 1 by lia.
      rewrite <- Z.div_pow2_bits by lia.
      rewrite Z.mul_comm, Z.div_add, Z.div_small, Z.add_0_l by lia. done. }
  assert (Hl : 0 <= Z.land a c < 2 ^ k).
  { apply range_of_high_bits; [done|apply Z.land_nonneg; lia|].
    intros j Hj. rewrite Z.land_spec, (testbit_high a k) by lia. done. }
  apply Z.bits_inj'. intros j Hj. rewrite Z.land_spec, !Hbit by done.
  rewrite !Z.land_spec. by destruct (j <? k).
Qed.

Fixpoint evens (l : list Z) : list Z :=
  match l with
  | c0 :: _ :: l' => c0 :: evens l'
  | _ => l
  end.

Lemma evens_cons c l : evens (c :: l) = c :: evens (tl l).
Proof. by destruct l. Qed.

Lemma fields_land f m n l :
  0 < f -> Forall (fun c => 0 <= c <= m) l -> m < 2 ^ f -> (length l <= 2 * n)%nat ->
  Z.land (fields f l) (even_mask f n) = fields (2 * f) (evens l).
Proof.
  intros Hf Hl Hm. revert n Hl.
  induction l as [|a|a b l IH] using (@list_ind_pairs Z); intros n Hl Hn.
  - done.
  - destruct n as [|n]; simpl in *; [lia|].
    apply Forall_cons in Hl as [Ha _].
    replace (a + 2 ^ f * 0) with (a + 2 ^ (2 * f) * 0) by lia.
    assert (2 ^ f <= 2 ^ (2 * f)) by (apply Z.pow_le_mono_r; lia).
    rewrite land_concat by (rewrite ?Z.ones_equiv; lia).
    rewrite Z.land_ones, Z.mod_small by lia. by rewrite Z.land_0_l.
  - destruct n as [|n]; cbn [length] in *; [lia|].
    apply Forall_cons in Hl as [Ha Hl]. apply Forall_cons in Hl as [Hb Hl].
    cbn [fields even_mask evens].
    replace (a + 2 ^ f * (b + 2 ^ f * fields f l))
      with ((a + 2 ^ f * b) + 2 ^ (2 * f) * fields f l)
      by (replace (2 * f) with (f + f) by lia; rewrite Z.pow_add_r by lia; ring).
    assert (2 ^ (2 * f) = 2 ^ f * 2 ^ f)
      by (replace (2 * f) with (f + f) by lia; rewrite Z.pow_add_r by lia; ring).
    rewrite land_concat by (rewrite ?Z.ones_equiv; nia).
    rewrite IH by (done || lia). f_equal.
    rewrite Z.land_ones by lia. rewrite (Z.mul_comm (2 ^ f) b), Z.mod_add by lia.
    apply Z.mod_small. lia.
Qed.

Lemma fields_shiftr f m l :
  0 < f -> Forall (fun c => 0 <= c <= m) l -> m < 2 ^ f ->
  Z.shiftr (fields f l) f = fields f (tl l).
Proof.
  intros Hf Hl Hm. destruct l as [|c l]; simpl; [by apply Z.shiftr_0_l|].
  apply Forall_cons in Hl as [Hc _].
  rewrite Z.shiftr_div_pow2, Z.mul_comm, Z.div_add, Z.div_small by lia. lia.
Qed.

Lemma pair_sums_fields f l :
  fields f (evens l) + fields f (evens (tl l)) = fields f (pair_sums l).
Proof.
  induction l as [|a|a b l IH] using list_ind_pairs; [done|simpl; lia|].
  cbn [tl pair_sums]. rewrite !evens_cons. cbn [tl fields]. rewrite <- IH. ring.
Qed.

Lemma pair_sums_range m l :
  0 <= m -> Forall (fun c => 0 <= c <= m) l -> Forall (fun c => 0 <= c <= 2 * m) (pair_sums l).
Proof.
  intros Hm. induction l as [|a|a b l IH] using list_ind_pairs; intros Hl; simpl.
  - done.
  - apply Forall_cons in Hl as [Ha _]. constructor; [lia|done].
  - apply Forall_cons in Hl as [Ha Hl]. apply Forall_cons in Hl as [Hb Hl].
    constructor; [lia|auto].
Qed.

Lemma pair_sums_total l : foldr Z.add 0 (pair_sums l) = foldr Z.add 0 l.
Proof. induction l as [|a|a b l IH] using list_ind_pairs; simpl; lia. Qed.

(** One step halves the number of fields and keeps their total. *)
Lemma weight_step_fields f m n l :
  0 < f -> 0 <= m -> m < 2 ^ f -> (length l <= 2 * n)%nat ->
  Forall (fun c => 0 <= c <= m) l -> 0 <= fields (2 * f) (pair_sums l) < 2 ^ 64 ->
  weight_step (even_mask f n) f (fields f l) = fields (2 * f) (pair_sums l).
Proof.
  intros Hf Hm0 Hm Hn Hl Hrange. unfold weight_step.
  assert (Htl : Forall (fun c => 0 <= c <= m) (tl l)) by (by destruct Hl).
  assert (length (tl l) <= 2 * n)%nat by (destruct l; simpl in *; lia).
  rewrite (fields_shiftr f m), !(fields_land f m), pair_sums_fields by done.
  by apply u64_small.
Qed.

Lemma fields_range f m l :
  0 < f -> m < 2 ^ f -> Forall (fun c => 0 <= c <= m) l ->
  0 <= fields f l < 2 ^ (f * Z.of_nat (length l)).
Proof.
  intros Hf Hm Hl. induction Hl as [|c l Hc Hl IH]; cbn [fields length].
  - rewrite Z.mul_0_r. simpl. lia.
  - replace (f * Z.of_nat (S (length l))) with (f + f * Z.of_nat (length l)) by lia.
    rewrite Z.pow_add_r by lia. nia.
Qed.

(** The bits of a word, as fields of one bit. *)
Definition word_bits (n : nat) (w : Z) : list Z :=
  map (fun k => Z.b2z (Z.testbit w (Z.of_nat k))) (List.seq 0 n).

Lemma fields_word_bits n w : 0 <= w < 2 ^ Z.of_nat n -> fields 1 (word_bits n w) = w.
Proof.
  unfold word_bits. revert w. induction n as [|n IH]; intros w Hw.
  - simpl in *. lia.
  - cbn [List.seq map fields]. rewrite <- List.seq_shift, List.map_map.
    rewrite (List.map_ext _ (fun k => Z.b2z (Z.testbit (w / 2) (Z.of_nat k)))).
    + rewrite IH.
      * change (Z.of_nat 0) with 0. rewrite Z.bit0_mod. pose proof (Z.div_mod w 2 ltac:(lia)). lia.
      * replace (Z.of_nat (S n)) with (1 + Z.of_nat n) in Hw by lia.
        rewrite Z.pow_add_r in Hw by lia.
        split; [apply Z.div_pos; lia|apply Z.div_lt_upper_bound; lia].
    + intros k. f_equal. replace (Z.of_nat (S k)) with (Z.of_nat k + 1) by lia.
      change 2 with (2 ^ 1). by rewrite Z.div_pow2_bits by lia.
Qed.

Lemma foldr_add_init a l : foldr Z.add a l = foldr Z.add 0 l + a.
Proof. induction l as [|x l IH]; simpl; lia. Qed.

Lemma word_bits_total n w : foldr Z.add 0 (word_bits n w) = popcount n w.
Proof.
  unfold word_bits. induction n as [|n IH]; [done|].
  rewrite List.seq_S, List.map_app, foldr_app, foldr_add_init, IH.
  cbn [map foldr popcount]. by rewrite Z.add_0_r.
Qed.

Lemma popcount_range n w : 0 <= popcount n w <= Z.of_nat n.
Proof.
  induction n as [|n IH]; [simpl; lia|]. cbn [popcount].
  destruct (Z.testbit w (Z.of_nat n)); simpl Z.b2z; lia.
Qed.

Lemma length_pair_sums l n : length l = (2 * n)%nat -> length (pair_sums l) = n.
Proof.
  revert n. induction l as [|a|a b l IH] using list_ind_pairs; intros n Hl; simpl in *; [lia..|].
  destruct n; [lia|]. f_equal. apply IH. lia.
Qed.

(** What holds before each step, on fields of [f] bits; [k] fields are left. *)
Definition weight_inv (w f : Z) (k : nat) (res : Z) : Prop :=
  exists l, res = fields f l /\ length l = k /\ foldr Z.add 0 l = popcount 64 w /\
    Forall (fun c => 0 <= c <= f) l.

Lemma weight_step_inv w f n res :
  0 < f -> f * Z.of_nat (2 * n) = 64 -> weight_inv w f (2 * n) res ->
  weight_inv w (2 * f) n (weight_step (even_mask f n) f res).
Proof.
  intros Hf H64 (l & -> & Hlen & Hsum & Hl).
  assert (Hpow : forall g, 0 < g -> g < 2 ^ g) by (intros; apply Z.pow_gt_lin_r; lia).
  assert (Hl' : Forall (fun c => 0 <= c <= 2 * f) (pair_sums l))
    by (apply pair_sums_range; [lia|done]).
  exists (pair_sums l). split_and!.
  - apply (weight_step_fields f f); auto; [lia|lia|].
    pose proof (fields_range (2 * f) (2 * f) _ ltac:(lia) (Hpow (2 * f) ltac:(lia)) Hl') as Hr.
    rewrite (length_pair_sums l n Hlen) in Hr.
    replace (2 * f * Z.of_nat n) with 64 in Hr by nia. done.
  - by apply length_pair_sums.
  - by rewrite pair_sums_total.
  - done.
Qed.

Lemma hwloc_weight_long_spec w : 0 <= w < 2 ^ 64 -> hwloc_weight_long w = popcount 64 w.
Proof.
  intros Hw. unfold hwloc_weight_long.
  assert (H : weight_inv w 1 (2 * 32) w).
  { exists (word_bits 64 w). split_and!.
    - symmetry. by apply fields_word_bits.
    - unfold word_bits. by rewrite List.length_map, List.length_seq.
    - apply word_bits_total.
    - unfold word_bits. apply Forall_forall. intros c Hc.
      apply list_elem_of_In, List.in_map_iff in Hc as (k & <- & _).
      destruct (Z.testbit w (Z.of_nat k)); simpl; lia. }
  apply weight_step_inv, (weight_step_inv w _ 16), (weight_step_inv w _ 8),
    (weight_step_inv w _ 4), (weight_step_inv w _ 2), (weight_step_inv w _ 1) in H; [|lia..].
  change (even_mask 1 32) with 0x5555555555555555 in H.
  change (even_mask (2 * 1) 16) with 0x3333333333333333 in H.
  change (even_mask (2 * (2 * 1)) 8) with 0x0F0F0F0F0F0F0F0F in H.
  change (even_mask (2 * (2 * (2 * 1))) 4) with 0x00FF00FF00FF00FF in H.
  change (even_mask (2 * (2 * (2 * (2 * 1)))) 2) with 0x0000FFFF0000FFFF in H.
  change (even_mask (2 * (2 * (2 * (2 * (2 * 1))))) 1) with 0x00000000FFFFFFFF in H.
  destruct H as (l & Hres & Hlen & Hsum & _).
  destruct l as [|c [|]]; [done| |done]. cbn [foldr] in Hsum.
  cbv zeta. etransitivity; [exact (f_equal s32 Hres)|]. cbn [fields].
  pose proof (popcount_range 64 w). rewrite Z.mul_0_r, Z.add_0_r.
  rewrite s32_small; lia.
Qed.
