(* ===== verification/Bitmap.v ===== *)
(** * Bitmap: [src/cpuset.c], the bitmap type and its operations

    The translated code only; its theorems are in BitmapSpec.v and the files
    after it, the string conversions are in BitmapString.v.

    A [struct hwloc_bitmap_s] is a record whose [ulongs] is the allocated
    array, junk words included.  An access out of the allocated array and a
    failed [assert] are [None].  [malloc] and [realloc] are the class [Malloc]:
    whether an allocation succeeds and what a fresh word contains. *)

From S2P Require Import Prelude Misc.

(** ** The allocator *)

Class Malloc := {
  malloc_ok : Z -> bool;          (** [malloc(n)] does not return NULL *)
  fresh_word : Z -> Z -> Z;       (** word [i] of a fresh array of [n] words *)
}.

(** [n] words of uninitialised memory from index [lo] on. *)
Definition fresh_words `{Malloc} (size lo n : Z) : list Z :=
  map (fresh_word size) (seqZ lo n).

(** ** Data *)

Record hwloc_bitmap_s := mk_bitmap {
  ulongs_count : Z;      (** how many words are valid, >= 1 *)
  ulongs_allocated : Z;  (** how many words are allocated *)
  ulongs : list Z;       (** the allocated array *)
  infinite : bool;       (** whether all bits beyond the words are set *)
}.

Definition HWLOC_BITS_PER_LONG : Z := 64.
Definition SIZEOF_ULONG : Z := 8.
Definition SIZEOF_BITMAP : Z := 24.

Definition HWLOC_SUBBITMAP_INDEX (cpu : Z) : Z := cpu / HWLOC_BITS_PER_LONG.
Definition HWLOC_SUBBITMAP_CPU_ULBIT (cpu : Z) : Z := cpu mod HWLOC_BITS_PER_LONG.
Definition HWLOC_SUBBITMAP_ZERO : Z := 0.
Definition HWLOC_SUBBITMAP_FULL : Z := 2 ^ 64 - 1.
Definition HWLOC_SUBBITMAP_ULBIT (bit : Z) : Z := u64 (Z.shiftl 1 bit).
Definition HWLOC_SUBBITMAP_CPU (cpu : Z) : Z :=
  HWLOC_SUBBITMAP_ULBIT (HWLOC_SUBBITMAP_CPU_ULBIT cpu).
Definition HWLOC_SUBBITMAP_ULBIT_TO (bit : Z) : Z :=
  Z.shiftr HWLOC_SUBBITMAP_FULL (HWLOC_BITS_PER_LONG - 1 - bit).
Definition HWLOC_SUBBITMAP_ULBIT_FROM (bit : Z) : Z :=
  u64 (Z.shiftl HWLOC_SUBBITMAP_FULL bit).
Definition HWLOC_SUBBITMAP_ULBIT_FROMTO (begin end_ : Z) : Z :=
  Z.land (HWLOC_SUBBITMAP_ULBIT_TO end_) (HWLOC_SUBBITMAP_ULBIT_FROM begin).

(** [~w] on an unsigned long. *)
Definition ulnot (w : Z) : Z := u64 (Z.lnot w).

(** [set->ulongs[i]] read and written; out of the array is undefined. *)
Definition ulongs_get (s : hwloc_bitmap_s) (i : Z) : option Z :=
  require! (0 <=? i) in ulongs s !! Z.to_nat i.

Definition ulongs_set (s : hwloc_bitmap_s) (i v : Z) : option hwloc_bitmap_s :=
  require! (0 <=? i) && (i <? Z.of_nat (length (ulongs s))) in
  Some (mk_bitmap (ulongs_count s) (ulongs_allocated s)
          (<[Z.to_nat i := v]> (ulongs s)) (infinite s)).

(** [set->ulongs[i] = f(set->ulongs[i])] *)
Definition ulongs_upd (s : hwloc_bitmap_s) (i : Z) (f : Z -> Z) : option hwloc_bitmap_s :=
  let! w := ulongs_get s i in ulongs_set s i (f w).

Definition set_count (s : hwloc_bitmap_s) (n : Z) : hwloc_bitmap_s :=
  mk_bitmap n (ulongs_allocated s) (ulongs s) (infinite s).

Definition set_infinite (s : hwloc_bitmap_s) (b : bool) : hwloc_bitmap_s :=
  mk_bitmap (ulongs_count s) (ulongs_allocated s) (ulongs s) b.

Definition HWLOC_SUBBITMAP_READULONG (s : hwloc_bitmap_s) (x : Z) : option Z :=
  if x <? ulongs_count s then ulongs_get s x
  else if infinite s then Some HWLOC_SUBBITMAP_FULL else Some HWLOC_SUBBITMAP_ZERO.

(** Every [for(i=0; i<set->ulongs_count; i++) set->ulongs[i] = v(i)]. *)
Definition write_words (lo n : Z) (v : Z -> Z) (s : hwloc_bitmap_s) : option hwloc_bitmap_s :=
  for_up lo (Z.to_nat n) (fun i s => ulongs_set s i (v i)) s.

(** [set->ulongs_count * HWLOC_BITS_PER_LONG], an unsigned product. *)
Definition count_bits (s : hwloc_bitmap_s) : Z := u32 (ulongs_count s * HWLOC_BITS_PER_LONG).

Section Ops.
Context `{Malloc}.

(** ** Allocation *)

Definition hwloc_bitmap_alloc : option hwloc_bitmap_s :=
  if malloc_ok SIZEOF_BITMAP then
    if malloc_ok 64 then
      Some (mk_bitmap 1 (64 / SIZEOF_ULONG)
              (<[O := HWLOC_SUBBITMAP_ZERO]> (fresh_words 8 0 8)) false)
    else None
  else None.

Definition hwloc_bitmap_alloc_full : option hwloc_bitmap_s :=
  match hwloc_bitmap_alloc with
  | Some set =>
      let set := set_infinite set true in
      ulongs_set set 0 HWLOC_SUBBITMAP_FULL
  | None => None
  end.

(** [1 << hwloc_flsl(needed_count - 1)] is an int shift. *)
Definition hwloc_bitmap_enlarge_by_ulongs (set : hwloc_bitmap_s) (needed_count : Z)
  : option hwloc_bitmap_s :=
  let shift := hwloc_flsl (u64 (needed_count - 1)) in
  require! (shift <? 31) in
  let tmp := Z.shiftl 1 shift in
  if ulongs_allocated set <? tmp then
    require! (malloc_ok (tmp * SIZEOF_ULONG)) in
    Some (mk_bitmap (ulongs_count set) tmp
            (ulongs set ++ fresh_words tmp (ulongs_allocated set) (tmp - ulongs_allocated set))
            (infinite set))
  else Some set.

Definition hwloc_bitmap_realloc_by_ulongs (set : hwloc_bitmap_s) (needed_count : Z)
  : option hwloc_bitmap_s :=
  if needed_count <=? ulongs_count set then Some set else
  let! set := hwloc_bitmap_enlarge_by_ulongs set needed_count in
  let! set := write_words (ulongs_count set) (needed_count - ulongs_count set)
    (fun _ => if infinite set then HWLOC_SUBBITMAP_FULL else HWLOC_SUBBITMAP_ZERO) set in
  Some (set_count set needed_count).

Definition hwloc_bitmap_realloc_by_cpu_index (set : hwloc_bitmap_s) (cpu : Z) :=
  hwloc_bitmap_realloc_by_ulongs set (cpu / HWLOC_BITS_PER_LONG + 1).

Definition hwloc_bitmap_reset_by_ulongs (set : hwloc_bitmap_s) (needed_count : Z)
  : option hwloc_bitmap_s :=
  let! set := hwloc_bitmap_enlarge_by_ulongs set needed_count in
  Some (set_count set needed_count).

Definition hwloc_bitmap_reset_by_cpu_index (set : hwloc_bitmap_s) (cpu : Z) :=
  hwloc_bitmap_reset_by_ulongs set (cpu / HWLOC_BITS_PER_LONG + 1).

(** [memcpy] of the first [n] words of [from] over those of [to]. *)
Definition copy_words (to from : list Z) (n : Z) : option (list Z) :=
  require! (n <=? Z.of_nat (length to)) && (n <=? Z.of_nat (length from)) in
  Some (take (Z.to_nat n) from ++ drop (Z.to_nat n) to).

(** The outer option is undefined behaviour, the inner one NULL. *)
Definition hwloc_bitmap_dup (old : option hwloc_bitmap_s) : option (option hwloc_bitmap_s) :=
  match old with
  | None => Some None
  | Some old =>
      if negb (malloc_ok SIZEOF_BITMAP) then Some None else
      if negb (malloc_ok (ulongs_allocated old * SIZEOF_ULONG)) then Some None else
      let! w := copy_words (fresh_words (ulongs_allocated old) 0 (ulongs_allocated old))
                  (ulongs old) (ulongs_count old) in
      Some (Some (mk_bitmap (ulongs_count old) (ulongs_allocated old) w (infinite old)))
  end.

Definition hwloc_bitmap_copy (dst src : hwloc_bitmap_s) : option hwloc_bitmap_s :=
  let! dst := hwloc_bitmap_reset_by_ulongs dst (ulongs_count src) in
  let! w := copy_words (ulongs dst) (ulongs src) (ulongs_count src) in
  Some (mk_bitmap (ulongs_count dst) (ulongs_allocated dst) w (infinite src)).

(** ** Whole-set assignments *)

Definition hwloc_bitmap__zero (set : hwloc_bitmap_s) : option hwloc_bitmap_s :=
  let! set := write_words 0 (ulongs_count set) (fun _ => HWLOC_SUBBITMAP_ZERO) set in
  Some (set_infinite set false).

Definition hwloc_bitmap_zero (set : hwloc_bitmap_s) : option hwloc_bitmap_s :=
  let! set := hwloc_bitmap_reset_by_ulongs set 1 in hwloc_bitmap__zero set.

Definition hwloc_bitmap__fill (set : hwloc_bitmap_s) : option hwloc_bitmap_s :=
  let! set := write_words 0 (ulongs_count set) (fun _ => HWLOC_SUBBITMAP_FULL) set in
  Some (set_infinite set true).

Definition hwloc_bitmap_fill (set : hwloc_bitmap_s) : option hwloc_bitmap_s :=
  let! set := hwloc_bitmap_reset_by_ulongs set 1 in hwloc_bitmap__fill set.

Definition hwloc_bitmap_from_ulong (set : hwloc_bitmap_s) (mask : Z) : option hwloc_bitmap_s :=
  let! set := hwloc_bitmap_reset_by_ulongs set 1 in
  let! set := ulongs_set set 0 mask in
  Some (set_infinite set false).

Definition hwloc_bitmap_from_ith_ulong (set : hwloc_bitmap_s) (i mask : Z)
  : option hwloc_bitmap_s :=
  let! set := hwloc_bitmap_reset_by_ulongs set (u32 (i + 1)) in
  let! set := ulongs_set set i mask in
  let! set := write_words 0 i (fun _ => HWLOC_SUBBITMAP_ZERO) set in
  Some (set_infinite set false).

Definition hwloc_bitmap_to_ulong (set : hwloc_bitmap_s) : option Z := ulongs_get set 0.

Definition hwloc_bitmap_to_ith_ulong (set : hwloc_bitmap_s) (i : Z) : option Z :=
  HWLOC_SUBBITMAP_READULONG set i.

Definition hwloc_bitmap_only (set : hwloc_bitmap_s) (cpu : Z) : option hwloc_bitmap_s :=
  let index_ := HWLOC_SUBBITMAP_INDEX cpu in
  let! set := hwloc_bitmap_reset_by_cpu_index set cpu in
  let! set := hwloc_bitmap__zero set in
  ulongs_upd set index_ (fun w => Z.lor w (HWLOC_SUBBITMAP_CPU cpu)).

Definition hwloc_bitmap_allbut (set : hwloc_bitmap_s) (cpu : Z) : option hwloc_bitmap_s :=
  let index_ := HWLOC_SUBBITMAP_INDEX cpu in
  let! set := hwloc_bitmap_reset_by_cpu_index set cpu in
  let! set := hwloc_bitmap__fill set in
  ulongs_upd set index_ (fun w => Z.land w (ulnot (HWLOC_SUBBITMAP_CPU cpu))).

(** ** Single bits and ranges *)

Definition hwloc_bitmap_set (set : hwloc_bitmap_s) (cpu : Z) : option hwloc_bitmap_s :=
  let index_ := HWLOC_SUBBITMAP_INDEX cpu in
  if infinite set && (count_bits set <=? cpu) then Some set else
  let! set := hwloc_bitmap_realloc_by_cpu_index set cpu in
  ulongs_upd set index_ (fun w => Z.lor w (HWLOC_SUBBITMAP_CPU cpu)).

(** The end of [hwloc_bitmap_set_range] and of [hwloc_bitmap_clr_range]: the
    words strictly between the first and the last become [mid], the masks of
    the two ends are merged by [upd mask word]. *)
Definition range_words (set : hwloc_bitmap_s) (begincpu endcpu mid : Z) (upd : Z -> Z -> Z)
  : option hwloc_bitmap_s :=
  let beginset := HWLOC_SUBBITMAP_INDEX begincpu in
  let endset := HWLOC_SUBBITMAP_INDEX endcpu in
  let! set := write_words (beginset + 1) (endset - (beginset + 1)) (fun _ => mid) set in
  if beginset =? endset then
    ulongs_upd set beginset (upd (HWLOC_SUBBITMAP_ULBIT_FROMTO
      (HWLOC_SUBBITMAP_CPU_ULBIT begincpu) (HWLOC_SUBBITMAP_CPU_ULBIT endcpu)))
  else
    let! set := ulongs_upd set beginset
      (upd (HWLOC_SUBBITMAP_ULBIT_FROM (HWLOC_SUBBITMAP_CPU_ULBIT begincpu))) in
    ulongs_upd set endset (upd (HWLOC_SUBBITMAP_ULBIT_TO (HWLOC_SUBBITMAP_CPU_ULBIT endcpu))).

Definition hwloc_bitmap_set_range (set : hwloc_bitmap_s) (begincpu _endcpu : Z)
  : option hwloc_bitmap_s :=
  let endcpu := u32 _endcpu in
  let set := if _endcpu =? -1 then set_infinite set true else set in
  let endcpu := if infinite set && (count_bits set <=? endcpu)
                then u32 (count_bits set - 1) else endcpu in
  if infinite set && (count_bits set <=? begincpu) then Some set else
  if endcpu <? begincpu then Some set else
  let! set := hwloc_bitmap_realloc_by_cpu_index set endcpu in
  range_words set begincpu endcpu HWLOC_SUBBITMAP_FULL (fun m w => Z.lor w m).

Definition hwloc_bitmap_set_ith_ulong (set : hwloc_bitmap_s) (i mask : Z)
  : option hwloc_bitmap_s :=
  let! set := hwloc_bitmap_realloc_by_ulongs set (u32 (i + 1)) in
  ulongs_set set i mask.

Definition hwloc_bitmap_clr (set : hwloc_bitmap_s) (cpu : Z) : option hwloc_bitmap_s :=
  let index_ := HWLOC_SUBBITMAP_INDEX cpu in
  if negb (infinite set) && (count_bits set <=? cpu) then Some set else
  let! set := hwloc_bitmap_realloc_by_cpu_index set cpu in
  ulongs_upd set index_ (fun w => Z.land w (ulnot (HWLOC_SUBBITMAP_CPU cpu))).

Definition hwloc_bitmap_clr_range (set : hwloc_bitmap_s) (begincpu _endcpu : Z)
  : option hwloc_bitmap_s :=
  let endcpu := u32 _endcpu in
  let set := if _endcpu =? -1 then set_infinite set false else set in
  let endcpu := if negb (infinite set) && (count_bits set <=? endcpu)
                then u32 (count_bits set - 1) else endcpu in
  if negb (infinite set) && (count_bits set <=? begincpu) then Some set else
  if endcpu <? begincpu then Some set else
  let! set := hwloc_bitmap_realloc_by_cpu_index set endcpu in
  range_words set begincpu endcpu HWLOC_SUBBITMAP_ZERO (fun m w => Z.land w (ulnot m)).

Definition hwloc_bitmap_isset (set : hwloc_bitmap_s) (cpu : Z) : option bool :=
  let index_ := HWLOC_SUBBITMAP_INDEX cpu in
  let! w := HWLOC_SUBBITMAP_READULONG set index_ in
  Some (negb (Z.land w (HWLOC_SUBBITMAP_CPU cpu) =? 0)).

(** ** Tests *)

Definition hwloc_bitmap_iszero (set : hwloc_bitmap_s) : option bool :=
  if infinite set then Some false else
  let! r := search_up 0 (Z.to_nat (ulongs_count set)) (fun i =>
    let! w := ulongs_get set i in
    Some (if negb (w =? HWLOC_SUBBITMAP_ZERO) then Some false else None)) in
  Some (default true r).

Definition hwloc_bitmap_isfull (set : hwloc_bitmap_s) : option bool :=
  if negb (infinite set) then Some false else
  let! r := search_up 0 (Z.to_nat (ulongs_count set)) (fun i =>
    let! w := ulongs_get set i in
    Some (if negb (w =? HWLOC_SUBBITMAP_FULL) then Some false else None)) in
  Some (default true r).

(** [for(i=0; i<set1->ulongs_count || i<set2->ulongs_count; i++)] with a body
    that looks at word [i] of both sets. *)
Definition search_words {R} (set1 set2 : hwloc_bitmap_s) (n : Z) (body : Z -> Z -> option R)
  : option (option R) :=
  search_up 0 (Z.to_nat n) (fun i =>
    let! w1 := HWLOC_SUBBITMAP_READULONG set1 i in
    let! w2 := HWLOC_SUBBITMAP_READULONG set2 i in
    Some (body w1 w2)).

Definition max_count (set1 set2 : hwloc_bitmap_s) : Z :=
  Z.max (ulongs_count set1) (ulongs_count set2).

Definition hwloc_bitmap_isequal (set1 set2 : hwloc_bitmap_s) : option bool :=
  let! r := search_words set1 set2 (max_count set1 set2)
    (fun w1 w2 => if negb (w1 =? w2) then Some false else None) in
  match r with
  | Some v => Some v
  | None => if negb (eqb (infinite set1) (infinite set2)) then Some false else Some true
  end.

Definition hwloc_bitmap_intersects (set1 set2 : hwloc_bitmap_s) : option bool :=
  let! r := search_words set1 set2 (max_count set1 set2)
    (fun w1 w2 => if negb (Z.land w1 w2 =? HWLOC_SUBBITMAP_ZERO) then Some true else None) in
  match r with
  | Some v => Some v
  | None => if infinite set1 && infinite set2 then Some false else Some false
  end.

Definition hwloc_bitmap_isincluded (sub_set super_set : hwloc_bitmap_s) : option bool :=
  let! r := search_words sub_set super_set (ulongs_count sub_set)
    (fun wsub wsuper => if negb (wsuper =? Z.lor wsuper wsub) then Some false else None) in
  match r with
  | Some v => Some v
  | None => if infinite sub_set && negb (infinite super_set) then Some false else Some true
  end.

(** ** Combinations *)

(** An input of [hwloc_bitmap_or(res, set1, set2)] and its siblings: the object
    [res] itself, whose words change while the loop runs, or another one. *)
Inductive operand :=
  | Same
  | Other (s : hwloc_bitmap_s).

Definition deref (res : hwloc_bitmap_s) (o : operand) : hwloc_bitmap_s :=
  match o with Same => res | Other s => s end.

(** The common shape of [or], [and], [andnot] and [xor]: [f] on words, [g] on
    the infinite flags. *)
Definition bitmap_combine (f : Z -> Z -> Z) (g : bool -> bool -> bool)
    (res : hwloc_bitmap_s) (set1 set2 : operand) : option hwloc_bitmap_s :=
  let largest := if ulongs_count (deref res set2) <? ulongs_count (deref res set1)
                 then deref res set1 else deref res set2 in
  let! res := hwloc_bitmap_realloc_by_ulongs res (ulongs_count largest) in
  let! res := for_up 0 (Z.to_nat (ulongs_count res)) (fun i res =>
    let! w1 := HWLOC_SUBBITMAP_READULONG (deref res set1) i in
    let! w2 := HWLOC_SUBBITMAP_READULONG (deref res set2) i in
    ulongs_set res i (f w1 w2)) res in
  Some (set_infinite res (g (infinite (deref res set1)) (infinite (deref res set2)))).

Definition hwloc_bitmap_or (res : hwloc_bitmap_s) (set1 set2 : operand) :=
  bitmap_combine Z.lor orb res set1 set2.

Definition hwloc_bitmap_and (res : hwloc_bitmap_s) (set1 set2 : operand) :=
  bitmap_combine Z.land andb res set1 set2.

Definition hwloc_bitmap_andnot (res : hwloc_bitmap_s) (set1 set2 : operand) :=
  bitmap_combine (fun w1 w2 => Z.land w1 (ulnot w2)) (fun b1 b2 => b1 && negb b2)
    res set1 set2.

Definition hwloc_bitmap_xor (res : hwloc_bitmap_s) (set1 set2 : operand) :=
  bitmap_combine Z.lxor (fun b1 b2 => negb (eqb (negb b1) (negb b2))) res set1 set2.

Definition hwloc_bitmap_not (res : hwloc_bitmap_s) (set : operand) : option hwloc_bitmap_s :=
  let! res := hwloc_bitmap_realloc_by_ulongs res (ulongs_count (deref res set)) in
  let! res := for_up 0 (Z.to_nat (ulongs_count res)) (fun i res =>
    let! w := HWLOC_SUBBITMAP_READULONG (deref res set) i in
    ulongs_set res i (ulnot w)) res in
  Some (set_infinite res (negb (infinite (deref res set)))).

(** ** Searches and comparisons *)

(** [hwloc_ffsl(w) - 1 + HWLOC_BITS_PER_LONG*i] with [i] unsigned, as an int. *)
Definition word_first (w i : Z) : Z :=
  s32 (hwloc_ffsl w - 1 + u32 (HWLOC_BITS_PER_LONG * i)).

Definition hwloc_bitmap_first (set : hwloc_bitmap_s) : option Z :=
  let! r := search_up 0 (Z.to_nat (ulongs_count set)) (fun i =>
    let! w := ulongs_get set i in
    Some (if negb (w =? 0) then Some (word_first w i) else None)) in
  match r with
  | Some v => Some v
  | None => if infinite set then Some (s32 (count_bits set)) else Some (-1)
  end.

Definition hwloc_bitmap_last (set : hwloc_bitmap_s) : option Z :=
  if infinite set then Some (-1) else
  let! r := search_down (Z.to_nat (ulongs_count set)) (fun i =>
    let! w := ulongs_get set i in
    Some (if negb (w =? 0) then Some (hwloc_flsl w - 1 + HWLOC_BITS_PER_LONG * i) else None)) in
  Some (default (-1) r).

Definition hwloc_bitmap_next (set : hwloc_bitmap_s) (prev_cpu : Z) : option Z :=
  require! (prev_cpu <? INT_MAX) in
  let i := u32 (Z.quot (prev_cpu + 1) HWLOC_BITS_PER_LONG) in
  if ulongs_count set <=? i then
    (if infinite set then Some (prev_cpu + 1) else Some (-1))
  else
  let! r := search_up i (Z.to_nat (ulongs_count set - i)) (fun i =>
    let! w := ulongs_get set i in
    let w := if (0 <=? prev_cpu) && (HWLOC_SUBBITMAP_INDEX prev_cpu =? i)
             then Z.land w (ulnot (HWLOC_SUBBITMAP_ULBIT_TO (HWLOC_SUBBITMAP_CPU_ULBIT prev_cpu)))
             else w in
    Some (if negb (w =? 0) then Some (word_first w i) else None)) in
  match r with
  | Some v => Some v
  | None => if infinite set then Some (s32 (count_bits set)) else Some (-1)
  end.

Definition hwloc_bitmap_singlify (set : hwloc_bitmap_s) : option hwloc_bitmap_s :=
  let! (set, found) := for_up 0 (Z.to_nat (ulongs_count set)) (fun i '(set, found) =>
    if (found : bool) then
      let! set := ulongs_set set i HWLOC_SUBBITMAP_ZERO in Some (set, found)
    else
      let! w := ulongs_get set i in
      if negb (w =? 0) then
        let! set := ulongs_set set i (HWLOC_SUBBITMAP_CPU (hwloc_ffsl w - 1)) in
        Some (set, true)
      else Some (set, found)) (set, false) in
  if infinite set then
    if (found : bool) then Some (set_infinite set false)
    else
      let first := count_bits set in
      hwloc_bitmap_set (set_infinite set false) first
  else Some set.

(** [!!set1->infinite - !!set2->infinite] *)
Definition infinite_diff (set1 set2 : hwloc_bitmap_s) : Z :=
  Z.b2z (infinite set1) - Z.b2z (infinite set2).

Definition hwloc_bitmap_compare_first (set1 set2 : hwloc_bitmap_s) : option Z :=
  let! r := search_words set1 set2 (max_count set1 set2) (fun w1 w2 =>
    if negb (w1 =? 0) || negb (w2 =? 0) then
      let _ffs1 := hwloc_ffsl w1 in
      let _ffs2 := hwloc_ffsl w2 in
      Some (if negb (_ffs1 =? 0) && negb (_ffs2 =? 0) then _ffs1 - _ffs2 else _ffs2 - _ffs1)
    else None) in
  match r with
  | Some v => Some v
  | None => if negb (eqb (negb (infinite set1)) (negb (infinite set2)))
            then Some (infinite_diff set1 set2) else Some 0
  end.

Definition hwloc_bitmap_compare (set1 set2 : hwloc_bitmap_s) : option Z :=
  let largest := if ulongs_count set2 <? ulongs_count set1 then set1 else set2 in
  if negb (eqb (negb (infinite set1)) (negb (infinite set2)))
  then Some (infinite_diff set1 set2) else
  let! r := search_down (Z.to_nat (ulongs_count largest)) (fun i =>
    let! val1 := HWLOC_SUBBITMAP_READULONG set1 i in
    let! val2 := HWLOC_SUBBITMAP_READULONG set2 i in
    Some (if val1 =? val2 then None else Some (if val1 <? val2 then -1 else 1))) in
  Some (default 0 r).

Definition hwloc_bitmap_weight (set : hwloc_bitmap_s) : option Z :=
  if infinite set then Some (-1) else
  for_up 0 (Z.to_nat (ulongs_count set)) (fun i weight =>
    let! w := ulongs_get set i in
    Some (weight + hwloc_weight_long w)) 0.

End Ops.
