(* ===== verification/BitmapSpec.v ===== *)
(** * BitmapSpec: the set a bitmap denotes, its invariant, and the lemmas on
      words, allocation and single-bit updates

    A bitmap denotes the set of the [i >= 0] with [mem s i = true].  [wf] is
    the invariant the allocator and every operation maintain.  The lemmas here
    are total-correctness statements: on a well-formed bitmap the operation
    runs to completion ([Some r]), [r] is well formed and denotes the expected
    set. *)

From S2P Require Import Prelude Misc Bitmap.

(** ** Denotation and invariant *)

(** Word [x] of the array, and word [x] of the infinite sequence of words. *)
Definition nthw (s : hwloc_bitmap_s) (x : Z) : Z := default 0 (ulongs s !! Z.to_nat x).

Definition rd (s : hwloc_bitmap_s) (x : Z) : Z :=
  if x <? ulongs_count s then nthw s x
  else if infinite s then HWLOC_SUBBITMAP_FULL else HWLOC_SUBBITMAP_ZERO.

Definition mem (s : hwloc_bitmap_s) (i : Z) : bool := Z.testbit (rd s (i / 64)) (i mod 64).

(** The allocated array has the recorded length and holds the valid words. *)
Definition array_ok (s : hwloc_bitmap_s) : Prop :=
  0 <= ulongs_count s <= ulongs_allocated s /\
  Z.of_nat (length (ulongs s)) = ulongs_allocated s.

Definition word (w : Z) : Prop := 0 <= w < 2 ^ 64.

(** [count * 64] fits an unsigned int below [2^26] words. *)
Definition MAX_COUNT : Z := 2 ^ 26.
Definition MAX_CPU : Z := 64 * (MAX_COUNT - 1).

Record wf (s : hwloc_bitmap_s) : Prop := mk_wf {
  wf_array : array_ok s;
  wf_count : 1 <= ulongs_count s < MAX_COUNT;
  wf_words : forall x, 0 <= x < ulongs_count s -> word (nthw s x);
}.

(** A fact the allocator may provide: it never fails. *)
Class MallocTotal `{Malloc} : Prop := malloc_total : forall n, malloc_ok n = true.

(** Two bitmaps denote the same set. *)
Definition same_set (s t : hwloc_bitmap_s) : Prop := forall i, 0 <= i -> mem s i = mem t i.

#[export] Instance same_set_equiv : Equivalence same_set.
Proof.
  split; [by intros s i|intros s t Hst i Hi; symmetry; auto|].
  intros s t u Hst Htu i Hi. rewrite Hst by done. auto.
Qed.

(** ** Words and bits *)

Lemma word_full : word HWLOC_SUBBITMAP_FULL.
Proof. unfold word, HWLOC_SUBBITMAP_FULL. lia. Qed.

Lemma word_zero : word HWLOC_SUBBITMAP_ZERO.
Proof. unfold word, HWLOC_SUBBITMAP_ZERO. lia. Qed.

Lemma word_u64 x : word (u64 x).
Proof. apply u64_range. Qed.

Lemma word_of_bits x : 0 <= x -> (forall k, 64 <= k -> Z.testbit x k = false) -> word x.
Proof. intros. by apply range_of_high_bits. Qed.

Lemma word_lor x y : word x -> word y -> word (Z.lor x y).
Proof.
  unfold word. intros. apply word_of_bits; [apply Z.lor_nonneg; lia|].
  intros. by rewrite Z.lor_spec, !(testbit_high _ 64).
Qed.

Lemma word_land x y : word x -> word (Z.land x y).
Proof.
  unfold word. intros. apply word_of_bits; [apply Z.land_nonneg; lia|].
  intros. by rewrite Z.land_spec, !(testbit_high x 64).
Qed.

Lemma word_lxor x y : word x -> word y -> word (Z.lxor x y).
Proof.
  unfold word. intros. apply word_of_bits; [apply Z.lxor_nonneg; lia|].
  intros. by rewrite Z.lxor_spec, !(testbit_high _ 64).
Qed.

Lemma word_ulnot x : word (ulnot x).
Proof. apply word_u64. Qed.

Lemma word_ulbit b : word (HWLOC_SUBBITMAP_ULBIT b).
Proof. apply word_u64. Qed.

Lemma word_from b : word (HWLOC_SUBBITMAP_ULBIT_FROM b).
Proof. apply word_u64. Qed.

Lemma word_to b : b < 64 -> word (HWLOC_SUBBITMAP_ULBIT_TO b).
Proof.
  intros. unfold HWLOC_SUBBITMAP_ULBIT_TO, HWLOC_BITS_PER_LONG.
  unfold word, HWLOC_SUBBITMAP_FULL. rewrite Z.shiftr_div_pow2 by lia.
  split; [apply Z.div_pos; lia|]. apply Z.div_lt_upper_bound; nia.
Qed.

#[export] Hint Resolve word_full word_zero word_lor word_land word_lxor word_ulnot
  word_ulbit word_from : hwloc.

Lemma bit_ulnot w k : 0 <= k < 64 -> Z.testbit (ulnot w) k = negb (Z.testbit w k).
Proof.
  intros. unfold ulnot. rewrite testbit_u64, Z.lnot_spec by lia.
  by destruct (Z.ltb_spec k 64); [|lia].
Qed.

Lemma bit_full k : 0 <= k < 64 -> Z.testbit HWLOC_SUBBITMAP_FULL k = true.
Proof. intros. unfold HWLOC_SUBBITMAP_FULL. rewrite testbit_full by lia. lia. Qed.

Lemma bit_ulbit b k : 0 <= b < 64 -> 0 <= k -> Z.testbit (HWLOC_SUBBITMAP_ULBIT b) k = (k =? b).
Proof.
  intros. unfold HWLOC_SUBBITMAP_ULBIT.
  rewrite testbit_u64, Z.shiftl_1_l, Z.pow2_bits_eqb by lia. lia.
Qed.

Lemma bit_cpu cpu k : 0 <= k -> Z.testbit (HWLOC_SUBBITMAP_CPU cpu) k = (k =? cpu mod 64).
Proof.
  intros. unfold HWLOC_SUBBITMAP_CPU, HWLOC_SUBBITMAP_CPU_ULBIT, HWLOC_BITS_PER_LONG.
  divmod64 cpu. by apply bit_ulbit.
Qed.

Lemma bit_to b k : 0 <= b < 64 -> 0 <= k -> Z.testbit (HWLOC_SUBBITMAP_ULBIT_TO b) k = (k <=? b).
Proof.
  intros. unfold HWLOC_SUBBITMAP_ULBIT_TO, HWLOC_SUBBITMAP_FULL, HWLOC_BITS_PER_LONG.
  rewrite Z.shiftr_spec, testbit_full by lia. lia.
Qed.

Lemma bit_from b k :
  0 <= b -> 0 <= k < 64 -> Z.testbit (HWLOC_SUBBITMAP_ULBIT_FROM b) k = (b <=? k).
Proof.
  intros. unfold HWLOC_SUBBITMAP_ULBIT_FROM, HWLOC_SUBBITMAP_FULL.
  rewrite testbit_u64, Z.shiftl_spec by lia.
  destruct (Z.leb_spec b k); [rewrite testbit_full by lia; lia|].
  rewrite Z.testbit_neg_r by lia. lia.
Qed.

Lemma bit_fromto b e k : 0 <= b -> 0 <= e < 64 -> 0 <= k < 64 ->
  Z.testbit (HWLOC_SUBBITMAP_ULBIT_FROMTO b e) k = (b <=? k) && (k <=? e).
Proof.
  intros. unfold HWLOC_SUBBITMAP_ULBIT_FROMTO.
  rewrite Z.land_spec, bit_to, bit_from by lia. apply andb_comm.
Qed.

#[export] Hint Rewrite bit_ulnot bit_full bit_cpu bit_to bit_from bit_fromto
  using lia : hwloc_bits.

(** ** Reads and writes of the array *)

Lemma ulongs_get_ok s x :
  array_ok s -> 0 <= x < ulongs_allocated s -> ulongs_get s x = Some (nthw s x).
Proof.
  intros [_ Hlen] Hx. unfold ulongs_get, nthw.
  rewrite (proj2 (Z.leb_le 0 x)) by lia.
  destruct (lookup_lt_is_Some_2 (ulongs s) (Z.to_nat x)) as [w ->]; [lia|done].
Qed.

Lemma READULONG_ok s x : array_ok s -> 0 <= x -> HWLOC_SUBBITMAP_READULONG s x = Some (rd s x).
Proof.
  intros Hs Hx. unfold HWLOC_SUBBITMAP_READULONG, rd.
  destruct (Z.ltb_spec x (ulongs_count s)).
  - apply ulongs_get_ok; [done|]. destruct Hs. lia.
  - by destruct (infinite s).
Qed.

(** The parts of a bitmap that a word write keeps. *)
Definition same_shape (s s' : hwloc_bitmap_s) : Prop :=
  ulongs_count s' = ulongs_count s /\ ulongs_allocated s' = ulongs_allocated s /\
  infinite s' = infinite s /\ length (ulongs s') = length (ulongs s).

#[export] Instance same_shape_preorder : PreOrder same_shape.
Proof.
  split; [done|]. intros s t u (?&?&?&?) (?&?&?&?). repeat split; congruence.
Qed.

Lemma array_ok_shape s s' : same_shape s s' -> array_ok s -> array_ok s'.
Proof. intros (Hc & Ha & Hi & Hl). unfold array_ok. rewrite Hc, Ha, Hl. done. Qed.

Lemma ulongs_set_ok s x v :
  array_ok s -> 0 <= x < ulongs_allocated s ->
  exists s', ulongs_set s x v = Some s' /\ same_shape s s' /\
    forall j, 0 <= j -> nthw s' j = if j =? x then v else nthw s j.
Proof.
  intros [_ Hlen] Hx. unfold ulongs_set. rewrite Hlen.
  rewrite (proj2 (Z.leb_le 0 x)), (proj2 (Z.ltb_lt x _)) by lia. simpl.
  eexists. split; [done|]. split.
  - unfold same_shape. simpl. by rewrite length_insert.
  - intros j Hj. unfold nthw. simpl. rewrite list_lookup_insert.
    destruct (Z.eqb_spec j x) as [->|Hne].
    + rewrite decide_True by lia. done.
    + rewrite decide_False by lia. done.
Qed.

Lemma ulongs_upd_ok s x f :
  array_ok s -> 0 <= x < ulongs_allocated s ->
  exists s', ulongs_upd s x f = Some s' /\ same_shape s s' /\
    forall j, 0 <= j -> nthw s' j = if j =? x then f (nthw s x) else nthw s j.
Proof.
  intros Hs Hx. unfold ulongs_upd. rewrite ulongs_get_ok by done. simpl.
  by apply ulongs_set_ok.
Qed.

(** Loops that write one word per iteration. *)
Lemma for_up_writes lo n f v s0 :
  array_ok s0 -> 0 <= lo -> lo + Z.of_nat n <= ulongs_allocated s0 ->
  (forall i s, lo <= i < lo + Z.of_nat n -> same_shape s0 s ->
     (forall j, 0 <= j -> ~ (lo <= j < i) -> nthw s j = nthw s0 j) ->
     f i s = ulongs_set s i (v i)) ->
  exists s', for_up lo n f s0 = Some s' /\ same_shape s0 s' /\
    forall j, 0 <= j ->
      nthw s' j = if (lo <=? j) && (j <? lo + Z.of_nat n) then v j else nthw s0 j.
Proof.
  intros Hs0 Hlo Hhi Hf.
  destruct (for_up_inv (fun i s => same_shape s0 s /\ forall j, 0 <= j ->
      nthw s j = if (lo <=? j) && (j <? i) then v j else nthw s0 j) lo n f s0)
    as (s' & Hrun & Hshape & Hw).
  - split; [done|]. intros j Hj. destruct (Z.leb_spec lo j), (Z.ltb_spec j lo); simpl; done || lia.
  - intros i s Hi [Hshape Hw]. rewrite Hf; [|done|done|].
    + destruct (ulongs_set_ok s i (v i)) as (s' & -> & Hshape' & Hw').
      * by apply (array_ok_shape s0).
      * destruct Hshape as (_ & Ha & _). lia.
      * exists s'. split; [done|]. split; [by transitivity s|].
        intros j Hj. rewrite Hw', Hw by done.
        destruct (Z.eqb_spec j i); subst; case_tests; simpl; done || lia.
    + intros j Hj Hout. rewrite Hw by done. case_tests; simpl; done || lia.
  - exists s'. done.
Qed.

Lemma write_words_ok lo n v s :
  array_ok s -> 0 <= lo -> 0 <= n -> lo + n <= ulongs_allocated s ->
  exists s', write_words lo n v s = Some s' /\ same_shape s s' /\
    forall j, 0 <= j -> nthw s' j = if (lo <=? j) && (j <? lo + n) then v j else nthw s j.
Proof.
  intros Hs Hlo Hn Hhi. unfold write_words.
  destruct (for_up_writes lo (Z.to_nat n) (fun i s => ulongs_set s i (v i)) v s)
    as (s' & Hrun & Hshape & Hw); [done|done|lia|done|].
  exists s'. split; [done|]. split; [done|]. intros j Hj.
  rewrite Hw by done. by rewrite Z2Nat.id.
Qed.

(** ** The denotation, word by word *)

Lemma rd_word s x : wf s -> 0 <= x -> word (rd s x).
Proof.
  intros Hs Hx. unfold rd. destruct (Z.ltb_spec x (ulongs_count s)).
  - by apply wf_words.
  - destruct (infinite s); auto with hwloc.
Qed.

(** Two bitmaps with the same words denote the same set. *)
Lemma same_set_rd s t : (forall x, 0 <= x -> rd s x = rd t x) -> same_set s t.
Proof. intros H i Hi. unfold mem. rewrite H; [done|]. apply Z.div_pos; lia. Qed.

Lemma rd_same_set s t x : wf s -> wf t -> same_set s t -> 0 <= x -> rd s x = rd t x.
Proof.
  intros Hs Ht H Hx. apply word_ext; [by apply rd_word..|].
  intros k Hk. specialize (H (x * 64 + k) ltac:(lia)). unfold mem in H.
  rewrite Z.div_add_l, (Z.div_small k), Z.add_0_r in H by lia.
  rewrite Z.add_comm, Z.mod_add, Z.mod_small in H by lia. done.
Qed.

(** ** Allocation *)

Section Alloc.
Context `{MallocTotal}.

Lemma nthw_app s c a i junk x :
  array_ok s -> 0 <= x < ulongs_allocated s ->
  nthw (mk_bitmap c a (ulongs s ++ junk) i) x = nthw s x.
Proof. intros [_ Hlen] Hx. unfold nthw. simpl. rewrite lookup_app_l by lia. done. Qed.

Lemma enlarge_ok s n :
  array_ok s -> 1 <= n <= MAX_COUNT ->
  returns (hwloc_bitmap_enlarge_by_ulongs s n) (fun s' =>
    array_ok s' /\ n <= ulongs_allocated s' /\ ulongs_count s' = ulongs_count s /\
    infinite s' = infinite s /\
    forall x, 0 <= x < ulongs_allocated s -> nthw s' x = nthw s x).
Proof.
  intros Hs Hn. unfold MAX_COUNT in Hn. unfold hwloc_bitmap_enlarge_by_ulongs.
  rewrite u64_small by lia.
  assert (Hshift : 0 <= hwloc_flsl (n - 1) < 31 /\ n <= 2 ^ hwloc_flsl (n - 1)).
  { destruct (Z.eq_dec n 1) as [->|Hne]; [change (1 - 1) with 0; rewrite hwloc_flsl_zero; lia|].
    rewrite hwloc_flsl_spec by lia.
    pose proof (Z.log2_nonneg (n - 1)). pose proof (Z.log2_spec (n - 1) ltac:(lia)).
    assert (Z.log2 (n - 1) < 26) by (apply Z.log2_lt_pow2; lia).
    rewrite <- Z.add_1_r in *. lia. }
  destruct Hshift as [Hshift Hpow].
  rewrite (proj2 (Z.ltb_lt _ 31)), Z.shiftl_1_l by lia.
  destruct (Z.ltb_spec (ulongs_allocated s) (2 ^ hwloc_flsl (n - 1))) as [Hlt|Hge].
  - rewrite malloc_total. apply returns_ret. split_and!; simpl; try done.
    + destruct Hs as [Hc Hlen]. split; simpl; [lia|].
      rewrite length_app. unfold fresh_words. rewrite length_map, length_seqZ. lia.
    + intros. by apply nthw_app.
  - apply returns_ret. split_and!; [done|lia|done..].
Qed.

Lemma realloc_ok s n :
  wf s -> n < MAX_COUNT ->
  returns (hwloc_bitmap_realloc_by_ulongs s n) (fun s' =>
    wf s' /\ ulongs_count s' = Z.max (ulongs_count s) n /\ infinite s' = infinite s /\
    forall x, 0 <= x -> rd s' x = rd s x).
Proof.
  intros Hs Hn. unfold hwloc_bitmap_realloc_by_ulongs.
  destruct (Z.leb_spec n (ulongs_count s)) as [Hle|Hgt].
  { apply returns_ret. split_and!; [done|lia|done|done]. }
  assert (Hs' := Hs). destruct Hs' as [Harr Hc Hw].
  eapply returns_bind; [apply enlarge_ok; [done|lia]|].
  intros s1 (Harr1 & Hal & Hc1 & Hinf & Hw1).
  eapply returns_bind; [apply write_words_ok; [done|lia..]|].
  intros s2 (Hshape & Hw2). apply returns_ret.
  assert (Harr2 := array_ok_shape _ _ Hshape Harr1).
  destruct Hshape as (Hc2 & Ha2 & Hi2 & _).
  assert (Hrd : forall x, 0 <= x < n -> nthw s2 x = rd s x).
  { intros x Hx. rewrite Hw2 by lia. unfold rd. rewrite Hinf, Hc1.
    destruct (Z.ltb_spec x (ulongs_count s)).
    - rewrite (proj2 (Z.leb_gt _ _)) by lia. simpl. apply Hw1. destruct Harr. lia.
    - case_tests; simpl; done || lia. }
  split_and!; simpl; [|lia|congruence|].
  - constructor; simpl; [destruct Harr2; split; simpl; [lia|done]|lia|].
    intros x Hx. unfold nthw. simpl. fold (nthw s2 x). rewrite Hrd by done.
    apply rd_word; [done|lia].
  - intros x Hx. unfold rd at 1. simpl. destruct (Z.ltb_spec x n) as [Hlt|Hge].
    + unfold nthw. simpl. fold (nthw s2 x). auto.
    + unfold rd. rewrite (proj2 (Z.ltb_ge x _)) by lia. by rewrite Hi2, Hinf.
Qed.

(** After a reset the array holds [n] words of unknown contents. *)
Lemma reset_ok s n :
  array_ok s -> 1 <= n < MAX_COUNT ->
  returns (hwloc_bitmap_reset_by_ulongs s n) (fun s' =>
    array_ok s' /\ ulongs_count s' = n /\ infinite s' = infinite s).
Proof.
  intros Hs Hn. unfold hwloc_bitmap_reset_by_ulongs.
  eapply returns_bind; [apply enlarge_ok; [done|lia]|].
  intros s1 (Harr1 & Hal & Hc1 & Hinf & _). apply returns_ret. simpl. split_and!; [|done|done].
  destruct Harr1. split; simpl; [lia|done].
Qed.

(** Well-formedness from the words written: how every operation concludes. *)
Lemma wf_intro s (f : Z -> Z) :
  array_ok s -> 1 <= ulongs_count s < MAX_COUNT ->
  (forall x, 0 <= x < ulongs_count s -> nthw s x = f x /\ word (f x)) -> wf s.
Proof. intros Ha Hc Hw. constructor; [done..|]. intros x Hx. by destruct (Hw x Hx) as [-> ?]. Qed.

End Alloc.

(** ** From words to members *)

Lemma mem_word s x k : 0 <= k < 64 -> mem s (64 * x + k) = Z.testbit (rd s x) k.
Proof.
  intros Hk. unfold mem. rewrite (Z.mul_comm 64), Z.div_add_l, Z.div_small, Z.add_0_r by lia.
  by rewrite Z.add_comm, Z.mod_add, Z.mod_small by lia.
Qed.

Lemma mem_bit s i : 0 <= i -> mem s i = Z.testbit (rd s (i / 64)) (i mod 64).
Proof. done. Qed.

Lemma mem_infinite s i :
  64 * ulongs_count s <= i -> 0 <= ulongs_count s -> mem s i = infinite s.
Proof.
  intros Hi Hc. unfold mem, rd. divmod64 i.
  rewrite (proj2 (Z.ltb_ge _ _)) by lia.
  destruct (infinite s); [by rewrite bit_full|apply Z.testbit_0_l].
Qed.

(** How the set of a result is read off its words: [F] is its membership
    function, [w] gives its words. *)
Lemma set_intro s (w : Z -> Z) (F : Z -> bool) :
  array_ok s -> 1 <= ulongs_count s < MAX_COUNT ->
  (forall x, 0 <= x < ulongs_count s -> nthw s x = w x /\ word (w x)) ->
  (forall x k, 0 <= x < ulongs_count s -> 0 <= k < 64 -> Z.testbit (w x) k = F (64 * x + k)) ->
  (forall i, 64 * ulongs_count s <= i -> infinite s = F i) ->
  wf s /\ forall i, 0 <= i -> mem s i = F i.
Proof.
  intros Ha Hc Hw Hbits Hinf. split; [by apply (wf_intro s w)|].
  intros i Hi. divmod64 i. destruct (Z.lt_ge_cases i (64 * ulongs_count s)).
  - assert (i / 64 < ulongs_count s) by lia. assert (0 <= i / 64) by (apply Z.div_pos; lia).
    unfold mem, rd. rewrite (proj2 (Z.ltb_lt _ _)) by lia.
    destruct (Hw (i / 64)) as [-> _]; [lia|]. rewrite Hbits by lia. f_equal. lia.
  - rewrite mem_infinite by lia. by apply Hinf.
Qed.

(** The same when the words are those of another set changed at some bits:
    the result of every in-place update. *)
Lemma set_intro_update s s0 (w : Z -> Z) (F : Z -> bool) :
  array_ok s -> 1 <= ulongs_count s < MAX_COUNT -> wf s0 ->
  (forall x, 0 <= x < ulongs_count s -> nthw s x = w x) ->
  (forall x, 0 <= x < ulongs_count s -> word (rd s0 x) -> word (w x)) ->
  (forall x k, 0 <= x < ulongs_count s -> 0 <= k < 64 -> Z.testbit (w x) k = F (64 * x + k)) ->
  (forall i, 64 * ulongs_count s <= i -> infinite s = F i) ->
  wf s /\ forall i, 0 <= i -> mem s i = F i.
Proof.
  intros Ha Hc Hs0 Hw Hword Hbits Hinf. apply (set_intro s w); [done..| |done|done].
  intros x Hx. split; [auto|]. apply Hword; [done|]. apply rd_word; [done|lia].
Qed.

Lemma nthw_rd s x : x < ulongs_count s -> nthw s x = rd s x.
Proof. intros. unfold rd. by rewrite (proj2 (Z.ltb_lt _ _)). Qed.

Lemma count_bits_small s : wf s -> count_bits s = 64 * ulongs_count s.
Proof.
  intros Hs. pose proof (wf_count s Hs). unfold count_bits, HWLOC_BITS_PER_LONG, MAX_COUNT in *.
  rewrite u32_small; lia.
Qed.

(** ** The invariant is decidable *)

Definition wf_b (s : hwloc_bitmap_s) : bool :=
  (1 <=? ulongs_count s) && (ulongs_count s <? MAX_COUNT) &&
  (ulongs_count s <=? ulongs_allocated s) &&
  (Z.of_nat (length (ulongs s)) =? ulongs_allocated s) &&
  forallb (fun w => (0 <=? w) && (w <? 2 ^ 64)) (take (Z.to_nat (ulongs_count s)) (ulongs s)).

Lemma wf_b_spec s : wf_b s = true <-> wf s.
Proof.
  unfold wf_b. rewrite !andb_true_iff, !Z.leb_le, Z.ltb_lt, Z.eqb_eq, List.forallb_forall. split.
  - intros ((((Hc1 & Hc2) & Hca) & Hl) & Hw). constructor; [split; lia|lia|].
    intros x Hx. unfold nthw.
    destruct (lookup_lt_is_Some_2 (ulongs s) (Z.to_nat x)) as [w Hxw]; [lia|]. rewrite Hxw. simpl.
    specialize (Hw w). rewrite andb_true_iff, Z.leb_le, Z.ltb_lt in Hw. apply Hw.
    apply list_elem_of_In, (list_elem_of_lookup_2 _ (Z.to_nat x)).
    by rewrite lookup_take_lt by lia.
  - intros [[Hc Hl] Hn Hw]. split_and!; try lia. intros w Hin.
    apply list_elem_of_In, list_elem_of_lookup in Hin as [x Hx].
    apply lookup_take_Some in Hx as [Hx Hlt].
    specialize (Hw (Z.of_nat x) ltac:(lia)). unfold nthw in Hw. rewrite Nat2Z.id, Hx in Hw.
    unfold word in Hw. simpl in Hw. lia.
Qed.

#[export] Instance wf_dec s : Decision (wf s).
Proof. destruct (wf_b s) eqn:H; [left|right]; rewrite <- wf_b_spec; congruence. Defined.
