(* ===== verification/BitmapOps.v ===== *)
(** * BitmapOps: what the operations of [src/cpuset.c] do to the denoted set

    Every theorem is total: for a well-formed input and a bit index in range
    the operation completes without an out-of-bounds access, its result is
    well formed, and its members are given bit by bit. *)

From S2P Require Import Prelude Misc Bitmap BitmapSpec.

Section Ops.
Context `{MallocTotal}.

Implicit Types s t set : hwloc_bitmap_s.

(** ** Whole-set assignments *)

Lemma fresh_array_ok n lo : 0 <= n -> Z.of_nat (length (fresh_words n lo n)) = n.
Proof. intros. unfold fresh_words. rewrite length_map, length_seqZ. lia. Qed.

Lemma alloc_ok :
  exists s, hwloc_bitmap_alloc = Some s /\ wf s /\ ulongs_count s = 1 /\
    forall i, 0 <= i -> mem s i = false.
Proof.
  unfold hwloc_bitmap_alloc. rewrite !malloc_total. eexists. split; [done|].
  match goal with |- wf ?s /\ _ =>
    enough (wf s /\ forall i, 0 <= i -> mem s i = false) as [? ?] by done end.
  apply (set_intro _ (fun _ => 0)); cbn [ulongs_count infinite].
  - split; cbn [ulongs_count ulongs_allocated ulongs]; [change (64 / SIZEOF_ULONG) with 8; lia|].
    rewrite length_insert. by apply fresh_array_ok.
  - unfold MAX_COUNT. lia.
  - intros x Hx. assert (x = 0) as -> by lia. split; [done|apply word_zero].
  - intros. apply Z.testbit_0_l.
  - done.
Qed.

Lemma alloc_full_ok :
  exists s, hwloc_bitmap_alloc_full = Some s /\ wf s /\ ulongs_count s = 1 /\
    forall i, 0 <= i -> mem s i = true.
Proof.
  unfold hwloc_bitmap_alloc_full. destruct alloc_ok as (s & Hs & Hwf & _). rewrite Hs.
  unfold hwloc_bitmap_alloc in Hs. rewrite !malloc_total in Hs. injection Hs as <-.
  set (s0 := set_infinite _ true). assert (Harr : array_ok s0) by apply Hwf.
  destruct (ulongs_set_ok s0 0 HWLOC_SUBBITMAP_FULL Harr) as (r & -> & Hsh & Hw).
  { change (ulongs_allocated s0) with 8. lia. }
  exists r. split; [done|]. assert (Ha := array_ok_shape _ _ Hsh Harr).
  destruct Hsh as (Hc & _ & Hi & _). change (ulongs_count s0) with 1 in Hc.
  change (infinite s0) with true in Hi.
  enough (wf r /\ forall i, 0 <= i -> mem r i = true) as [? ?] by done.
  apply (set_intro _ (fun _ => HWLOC_SUBBITMAP_FULL)); rewrite ?Hc, ?Hi; try done.
  - intros x Hx. assert (x = 0) as -> by lia. split; [by rewrite Hw|apply word_full].
  - intros. by apply bit_full.
Qed.

(** Result of writing the same word everywhere and setting the flag. *)
Lemma constant_ok s n w b :
  array_ok s -> ulongs_count s = n -> 1 <= n < MAX_COUNT -> word w ->
  (forall k, 0 <= k < 64 -> Z.testbit w k = b) ->
  returns (write_words 0 n (fun _ => w) s) (fun s' =>
    same_shape s s' /\ wf (set_infinite s' b) /\
    forall i, 0 <= i -> mem (set_infinite s' b) i = b).
Proof.
  intros Hs <- Hn Hw Hb.
  destruct (write_words_ok 0 (ulongs_count s) (fun _ => w) s) as (s' & -> & Hshape & Hw');
    [done|lia|lia|destruct Hs; lia|].
  apply returns_ret. split; [done|].
  assert (Harr := array_ok_shape _ _ Hshape Hs). destruct Hshape as (Hc & Ha & Hi & Hl).
  apply (set_intro _ (fun _ => w)); simpl.
  - destruct Harr. split; simpl; [lia|done].
  - lia.
  - intros x Hx. split; [|done]. unfold nthw. simpl. fold (nthw s' x).
    rewrite Hw' by lia. case_tests; simpl; done || lia.
  - auto.
  - done.
Qed.

Lemma set_infinite_id s b : infinite s = b -> set_infinite s b = s.
Proof. destruct s. simpl. by intros ->. Qed.

Lemma zero_any_ok s :
  array_ok s -> returns (hwloc_bitmap_zero s) (fun r =>
    wf r /\ forall i, 0 <= i -> mem r i = false).
Proof.
  intros Hs. unfold hwloc_bitmap_zero.
  eapply returns_bind; [apply reset_ok; [done|unfold MAX_COUNT; lia]|].
  intros s1 (Ha1 & Hc1 & _). unfold hwloc_bitmap__zero.
  eapply returns_bind; [apply (constant_ok s1 _ _ false); [done|done| |apply word_zero|]|].
  - rewrite Hc1. unfold MAX_COUNT. lia.
  - intros. apply Z.testbit_0_l.
  - intros s2 (_ & Hwf & Hmem). by apply returns_ret.
Qed.

Lemma fill_sized_ok s :
  array_ok s -> returns (hwloc_bitmap_fill s) (fun r =>
    ulongs_count r = 1 /\ wf r /\ forall i, 0 <= i -> mem r i = true).
Proof.
  intros Hs. unfold hwloc_bitmap_fill.
  eapply returns_bind; [apply reset_ok; [done|unfold MAX_COUNT; lia]|].
  intros s1 (Ha1 & Hc1 & _). unfold hwloc_bitmap__fill.
  eapply returns_bind; [apply (constant_ok s1 _ _ true); [done|done| |apply word_full|]|].
  - rewrite Hc1. unfold MAX_COUNT. lia.
  - intros. by apply bit_full.
  - intros s2 ((Hc2 & _) & Hwf & Hmem). apply returns_ret. split; [simpl; lia|done].
Qed.

Lemma fill_any_ok s :
  array_ok s -> returns (hwloc_bitmap_fill s) (fun r =>
    wf r /\ forall i, 0 <= i -> mem r i = true).
Proof. intros Hs. eapply returns_mono; [by apply fill_sized_ok|]. by intros r (_ & Hr). Qed.

(** ** In-place updates of one word *)

(** A word update of a well-formed set, as a member function. *)
Lemma upd_ok s x f (F : Z -> bool) :
  wf s -> 0 <= x < ulongs_count s ->
  (forall w, word w -> word (f w)) ->
  (forall k, 0 <= k < 64 -> Z.testbit (f (rd s x)) k = F (64 * x + k)) ->
  (forall i, 0 <= i -> i / 64 <> x -> mem s i = F i) ->
  returns (ulongs_upd s x f) (fun r => wf r /\ infinite r = infinite s /\
    ulongs_count r = ulongs_count s /\ forall i, 0 <= i -> mem r i = F i).
Proof.
  intros Hs Hx Hword Hbits Hrest. assert (Harr := wf_array s Hs). assert (Hc := wf_count s Hs).
  destruct (ulongs_upd_ok s x f) as (s' & -> & Hshape & Hw); [done|destruct Harr; lia|].
  apply returns_ret. assert (Harr' := array_ok_shape _ _ Hshape Harr).
  destruct Hshape as (Hc' & _ & Hi' & _).
  enough (wf s' /\ forall i, 0 <= i -> mem s' i = F i) by tauto.
  apply (set_intro_update s' s (fun j => if j =? x then f (rd s x) else rd s j)); try done.
  - lia.
  - intros j Hj. rewrite Hw by lia. by rewrite !nthw_rd by lia.
  - intros j Hj Hwj. destruct (Z.eqb_spec j x); [|done]. apply Hword. apply rd_word; [done|lia].
  - intros j k Hj Hk. destruct (Z.eqb_spec j x) as [->|Hne]; [auto|].
    rewrite <- mem_word by done. apply Hrest; [lia|].
    rewrite (Z.mul_comm 64), Z.div_add_l, Z.div_small by lia. lia.
  - intros i Hi. rewrite Hi', <- (mem_infinite s i) by lia. apply Hrest; [lia|].
    assert (ulongs_count s <= i / 64) by (apply Z.div_le_lower_bound; lia). lia.
Qed.

Lemma index_bounds cpu : 0 <= cpu < MAX_CPU -> 0 <= cpu / 64 < MAX_COUNT - 1.
Proof.
  unfold MAX_CPU, MAX_COUNT. intros. split; [apply Z.div_pos; lia|].
  apply Z.div_lt_upper_bound; lia.
Qed.

Lemma eqb_split cpu x k : 0 <= k < 64 -> (64 * x + k =? cpu) = (x =? cpu / 64) && (k =? cpu mod 64).
Proof. intros Hk. divmod64 cpu. destruct (Z.eqb_spec x (cpu / 64)); simpl; lia. Qed.

Lemma realloc_cpu_ok s cpu :
  wf s -> 0 <= cpu < MAX_CPU ->
  returns (hwloc_bitmap_realloc_by_cpu_index s cpu) (fun s' =>
    wf s' /\ cpu / 64 < ulongs_count s' /\ infinite s' = infinite s /\
    ulongs_count s' = Z.max (ulongs_count s) (cpu / 64 + 1) /\
    forall x, 0 <= x -> rd s' x = rd s x).
Proof.
  intros Hs Hcpu. pose proof (index_bounds cpu Hcpu).
  unfold hwloc_bitmap_realloc_by_cpu_index, HWLOC_BITS_PER_LONG.
  eapply returns_mono; [apply realloc_ok; [done|lia]|].
  intros s' (Hwf & Hc & Hi & Hrd). split_and!; [done|lia|done|done|done].
Qed.

Lemma mem_of_rd s t : (forall x, 0 <= x -> rd s x = rd t x) -> same_set s t.
Proof. apply same_set_rd. Qed.

(** C-level correctness of [hwloc_bitmap_set]. *)
Lemma set_ok s cpu :
  wf s -> 0 <= cpu < MAX_CPU ->
  returns (hwloc_bitmap_set s cpu) (fun r => wf r /\ infinite r = infinite s /\
    ulongs_count r <= Z.max (ulongs_count s) (cpu / 64 + 1) /\
    forall i, 0 <= i -> mem r i = (i =? cpu) || mem s i).
Proof.
  intros Hs Hcpu. unfold hwloc_bitmap_set. rewrite count_bits_small by done.
  pose proof (wf_count s Hs) as Hc.
  destruct (infinite s && (64 * ulongs_count s <=? cpu)) eqn:Htest.
  { apply andb_true_iff in Htest as [Hinf Hle]. apply returns_ret.
    split_and!; [done|done|lia|]. intros i Hi.
    destruct (Z.eqb_spec i cpu) as [->|]; [|done]. rewrite mem_infinite by lia. done. }
  eapply returns_bind; [by apply realloc_cpu_ok|].
  intros s1 (Hs1 & Hidx & Hinf1 & Hcount & Hrd). pose proof (index_bounds cpu Hcpu).
  eapply returns_mono; [apply (upd_ok s1 _ _ (fun i => (i =? cpu) || mem s i)); [done| | | |]|].
  - unfold HWLOC_SUBBITMAP_INDEX, HWLOC_BITS_PER_LONG. lia.
  - intros. apply word_lor; [done|apply word_ulbit].
  - intros k Hk. unfold HWLOC_SUBBITMAP_INDEX, HWLOC_BITS_PER_LONG.
    rewrite Z.lor_spec, bit_cpu, eqb_split, Z.eqb_refl, Hrd, mem_word by lia.
    by rewrite orb_comm.
  - intros i Hi Hne. unfold HWLOC_SUBBITMAP_INDEX, HWLOC_BITS_PER_LONG in Hne.
    destruct (Z.eqb_spec i cpu) as [->|]; [done|]. by apply (mem_of_rd s1 s).
  - simpl. intros r (Hwf & Hi & Hcr & Hmem). split_and!; [done|congruence|lia|done].
Qed.

Lemma clr_ok s cpu :
  wf s -> 0 <= cpu < MAX_CPU ->
  returns (hwloc_bitmap_clr s cpu) (fun r => wf r /\ infinite r = infinite s /\
    ulongs_count r <= Z.max (ulongs_count s) (cpu / 64 + 1) /\
    forall i, 0 <= i -> mem r i = negb (i =? cpu) && mem s i).
Proof.
  intros Hs Hcpu. unfold hwloc_bitmap_clr. rewrite count_bits_small by done.
  pose proof (wf_count s Hs) as Hc.
  destruct (negb (infinite s) && (64 * ulongs_count s <=? cpu)) eqn:Htest.
  { apply andb_true_iff in Htest as [Hinf Hle]. apply returns_ret.
    split_and!; [done|done|lia|]. intros i Hi.
    destruct (Z.eqb_spec i cpu) as [->|]; [|done]. rewrite mem_infinite by lia.
    by destruct (infinite s). }
  eapply returns_bind; [by apply realloc_cpu_ok|].
  intros s1 (Hs1 & Hidx & Hinf1 & Hcount & Hrd). pose proof (index_bounds cpu Hcpu).
  eapply returns_mono; [apply (upd_ok s1 _ _ (fun i => negb (i =? cpu) && mem s i));
    [done| | | |]|].
  - unfold HWLOC_SUBBITMAP_INDEX, HWLOC_BITS_PER_LONG. lia.
  - intros. by apply word_land.
  - intros k Hk. unfold HWLOC_SUBBITMAP_INDEX, HWLOC_BITS_PER_LONG.
    rewrite Z.land_spec, bit_ulnot, bit_cpu, eqb_split, Z.eqb_refl, Hrd, mem_word by lia.
    by rewrite andb_comm.
  - intros i Hi Hne. unfold HWLOC_SUBBITMAP_INDEX, HWLOC_BITS_PER_LONG in Hne.
    destruct (Z.eqb_spec i cpu) as [->|]; [done|]. by apply (mem_of_rd s1 s).
  - simpl. intros r (Hwf & Hi & Hcr & Hmem). split_and!; [done|congruence|lia|done].
Qed.

(** ** Ranges *)

Definition in_range (b e i : Z) : bool := (b <=? i) && (i <=? e).

(** The masks of the first and the last word of a range. *)
Lemma in_range_one b e k :
  b / 64 = e / 64 -> 0 <= k < 64 ->
  in_range b e (64 * (b / 64) + k) = (b mod 64 <=? k) && (k <=? e mod 64).
Proof. intros. divmod64 b. divmod64 e. unfold in_range. f_equal; lia. Qed.

Lemma in_range_first b e k :
  b / 64 < e / 64 -> 0 <= k < 64 -> in_range b e (64 * (b / 64) + k) = (b mod 64 <=? k).
Proof. intros. divmod64 b. divmod64 e. unfold in_range. case_tests; simpl; done || lia. Qed.

Lemma in_range_last b e k :
  b / 64 < e / 64 -> 0 <= k < 64 -> in_range b e (64 * (e / 64) + k) = (k <=? e mod 64).
Proof. intros. divmod64 b. divmod64 e. unfold in_range. case_tests; simpl; done || lia. Qed.

Lemma in_range_middle b e x k :
  b / 64 < x < e / 64 -> 0 <= k < 64 -> in_range b e (64 * x + k) = true.
Proof. intros. divmod64 b. divmod64 e. unfold in_range. case_tests; simpl; done || lia. Qed.

Lemma in_range_out b e x k :
  x < b / 64 \/ e / 64 < x -> 0 <= k < 64 -> in_range b e (64 * x + k) = false.
Proof. intros. divmod64 b. divmod64 e. unfold in_range. case_tests; simpl; done || lia. Qed.

(** How [upd] (set: [lor], clear: [land ~]) acts on a word, [B] being the value
    the bits of the range get. *)
Definition updates_to (B : bool) (upd : Z -> Z -> Z) : Prop :=
  (forall m w, word m -> word w -> word (upd m w)) /\
  forall m w k, 0 <= k < 64 ->
    Z.testbit (upd m w) k = if Z.testbit m k then B else Z.testbit w k.

Lemma updates_to_lor : updates_to true (fun m w => Z.lor w m).
Proof.
  split; [auto using word_lor|]. intros m w k Hk. rewrite Z.lor_spec.
  by destruct (Z.testbit m k), (Z.testbit w k).
Qed.

Lemma updates_to_clear : updates_to false (fun m w => Z.land w (ulnot m)).
Proof.
  split; [auto using word_land|]. intros m w k Hk. rewrite Z.land_spec, bit_ulnot by done.
  by destruct (Z.testbit m k), (Z.testbit w k).
Qed.

Lemma word_fromto b e : e < 64 -> word (HWLOC_SUBBITMAP_ULBIT_FROMTO b e).
Proof. intros. apply word_land. by apply word_to. Qed.

(** The words after [range_words]. *)
Definition range_word (b e mid : Z) (upd : Z -> Z -> Z) (old : Z -> Z) (x : Z) : Z :=
  if (x =? b / 64) && (b / 64 =? e / 64) then
    upd (HWLOC_SUBBITMAP_ULBIT_FROMTO (b mod 64) (e mod 64)) (old x)
  else if x =? b / 64 then upd (HWLOC_SUBBITMAP_ULBIT_FROM (b mod 64)) (old x)
  else if x =? e / 64 then upd (HWLOC_SUBBITMAP_ULBIT_TO (e mod 64)) (old x)
  else if (b / 64 <? x) && (x <? e / 64) then mid else old x.

Lemma range_words_nthw s b e mid upd :
  array_ok s -> 0 <= b <= e -> e / 64 < ulongs_count s ->
  returns (range_words s b e mid upd) (fun s' => same_shape s s' /\
    forall x, 0 <= x -> nthw s' x = range_word b e mid upd (nthw s) x).
Proof.
  intros Hs Hbe He. unfold range_words, HWLOC_SUBBITMAP_INDEX, HWLOC_SUBBITMAP_CPU_ULBIT,
    HWLOC_BITS_PER_LONG.
  assert (0 <= b / 64) by (apply Z.div_pos; lia).
  assert (b / 64 <= e / 64) by (apply Z.div_le_mono; lia).
  assert (Hal : ulongs_count s <= ulongs_allocated s) by (destruct Hs; lia).
  set (bs := b / 64) in *. set (es := e / 64) in *.
  unfold write_words.
  eapply returns_bind; [apply (for_up_writes (bs + 1) _ _ (fun _ => mid) s); [done|lia|lia|done]|].
  intros s1 (Hsh1 & Hw1). assert (Ha1 := array_ok_shape _ _ Hsh1 Hs).
  assert (Hal1 : ulongs_allocated s1 = ulongs_allocated s) by apply Hsh1.
  destruct (Z.eqb_spec bs es) as [Heq|Hne].
  - eapply returns_mono; [apply ulongs_upd_ok; [done|lia]|].
    intros s2 (Hsh2 & Hw2). split; [by transitivity s1|].
    intros x Hx. rewrite Hw2, !Hw1 by lia. unfold range_word. fold bs es.
    rewrite <- Heq, Z.eqb_refl. case_tests; simpl; try lia; try done; by subst.
  - eapply returns_bind; [apply ulongs_upd_ok; [done|lia]|].
    intros s2 (Hsh2 & Hw2). assert (Ha2 := array_ok_shape _ _ Hsh2 Ha1).
    assert (Hal2 : ulongs_allocated s2 = ulongs_allocated s1) by apply Hsh2.
    eapply returns_mono; [apply ulongs_upd_ok; [done|lia]|].
    intros s3 (Hsh3 & Hw3). split; [by transitivity s2; [transitivity s1|]|].
    intros x Hx. rewrite Hw3, !Hw2, !Hw1 by lia. unfold range_word. fold bs es.
    case_tests; simpl; try lia; try done; by subst.
Qed.

Lemma range_word_bit b e mid upd B old x k :
  updates_to B upd -> (forall k, 0 <= k < 64 -> Z.testbit mid k = B) ->
  0 <= b <= e -> 0 <= k < 64 ->
  Z.testbit (range_word b e mid upd old x) k =
  if in_range b e (64 * x + k) then B else Z.testbit (old x) k.
Proof.
  intros [_ Hupd] Hmid Hbe Hk. divmod64 b. divmod64 e.
  assert (b / 64 <= e / 64) by (apply Z.div_le_mono; lia). unfold range_word.
  destruct (Z.eqb_spec x (b / 64)) as [->|Hxb]; simpl.
  - destruct (Z.eqb_spec (b / 64) (e / 64)); rewrite Hupd by done.
    + by rewrite bit_fromto, in_range_one by lia.
    + by rewrite bit_from, in_range_first by lia.
  - destruct (Z.eqb_spec x (e / 64)) as [->|Hxe].
    + by rewrite Hupd, bit_to, in_range_last by lia.
    + destruct (Z.ltb_spec (b / 64) x), (Z.ltb_spec x (e / 64)); simpl.
      * by rewrite Hmid, in_range_middle by lia.
      * by rewrite in_range_out by lia.
      * by rewrite in_range_out by lia.
      * by rewrite in_range_out by lia.
Qed.

Lemma range_word_word b e mid upd B old x :
  updates_to B upd -> word mid -> word (old x) -> word (range_word b e mid upd old x).
Proof.
  intros [Hw _] Hmid Hold. unfold range_word. divmod64 e.
  repeat match goal with |- context [if ?c then _ else _] => destruct c end;
    try done; apply Hw; try done; [apply word_fromto; lia|apply word_from|apply word_to; lia].
Qed.

Lemma range_words_ok s b e mid upd B :
  wf s -> 0 <= b <= e -> e / 64 < ulongs_count s ->
  updates_to B upd -> word mid -> (forall k, 0 <= k < 64 -> Z.testbit mid k = B) ->
  returns (range_words s b e mid upd) (fun r => wf r /\ infinite r = infinite s /\
    ulongs_count r = ulongs_count s /\
    forall i, 0 <= i -> mem r i = if in_range b e i then B else mem s i).
Proof.
  intros Hs Hbe He Hupd Hword Hmid. pose proof (wf_count s Hs).
  eapply returns_mono; [apply range_words_nthw; [by apply wf_array|done|done]|].
  intros r (Hsh & Hw). assert (Ha := array_ok_shape _ _ Hsh (wf_array s Hs)).
  destruct Hsh as (Hc & _ & Hi & _).
  enough (wf r /\ forall i, 0 <= i -> mem r i = if in_range b e i then B else mem s i) by tauto.
  apply (set_intro_update r s (range_word b e mid upd (rd s))); [done|lia|done| | | |].
  - intros x Hx. rewrite Hw by lia. unfold range_word. by rewrite nthw_rd by lia.
  - intros x Hx Hwx. by apply (range_word_word _ _ _ _ B).
  - intros x k Hx Hk. rewrite (range_word_bit _ _ _ _ B) by done. by rewrite mem_word.
  - intros i Hi'. rewrite Hi, <- (mem_infinite s i) by lia. unfold in_range.
    divmod64 e. destruct (Z.leb_spec b i), (Z.leb_spec i e); simpl; done || lia.
Qed.

Lemma wf_set_infinite s b : wf s -> wf (set_infinite s b).
Proof. intros [[Hc Hl] Hn Hw]. constructor; [split|..]; simpl; done. Qed.

Lemma mem_set_infinite s b i :
  wf s -> 0 <= i -> mem (set_infinite s b) i = if i <? 64 * ulongs_count s then mem s i else b.
Proof.
  intros Hs Hi. pose proof (wf_count s Hs). destruct (Z.ltb_spec i (64 * ulongs_count s)).
  - unfold mem, rd. simpl. assert (i / 64 < ulongs_count s) by (apply Z.div_lt_upper_bound; lia).
    by rewrite (proj2 (Z.ltb_lt _ _)) by lia.
  - rewrite mem_infinite; simpl; [done|lia|lia].
Qed.

(** [set_range] ([B = true]) and [clr_range] ([B = false]) share their control
    flow: the bits beyond the words already have the value [B] when [tail]. *)
Definition tail (B : bool) (s : hwloc_bitmap_s) : bool :=
  if B then infinite s else negb (infinite s).

Definition range_op (B : bool) (mid : Z) (upd : Z -> Z -> Z) s (b e_ : Z) :=
  let e := u32 e_ in
  let s := if e_ =? -1 then set_infinite s B else s in
  let e := if tail B s && (count_bits s <=? e) then u32 (count_bits s - 1) else e in
  if tail B s && (count_bits s <=? b) then Some s else
  if e <? b then Some s else
  let! s := hwloc_bitmap_realloc_by_cpu_index s e in
  range_words s b e mid upd.

Lemma tail_mem B s i : wf s -> tail B s = true -> 64 * ulongs_count s <= i -> mem s i = B.
Proof.
  intros Hs Ht Hi. pose proof (wf_count s Hs). rewrite mem_infinite by lia.
  unfold tail in Ht. destruct B, (infinite s); done.
Qed.

(** The part after the choice of the end of the range. *)
Lemma range_op_body B mid upd s b e :
  wf s -> 0 <= b -> 0 <= e < MAX_CPU -> updates_to B upd -> word mid ->
  (forall k, 0 <= k < 64 -> Z.testbit mid k = B) ->
  returns (if e <? b then Some s else
           let! s := hwloc_bitmap_realloc_by_cpu_index s e in range_words s b e mid upd)
    (fun r => wf r /\ infinite r = infinite s /\
     forall i, 0 <= i -> mem r i = if in_range b e i then B else mem s i).
Proof.
  intros Hs Hb He Hupd Hword Hmid. destruct (Z.ltb_spec e b).
  { apply returns_ret. split_and!; [done..|]. intros i Hi.
    unfold in_range. case_tests; simpl; done || lia. }
  eapply returns_bind; [apply realloc_cpu_ok; [done|lia]|].
  intros s1 (Hs1 & Hidx & Hinf1 & Hcount & Hrd).
  eapply returns_mono; [eapply (range_words_ok s1 b e _ _ B); try done; lia|].
  intros r (Hwf & Hi & _ & Hmem). split_and!; [done|congruence|].
  intros i Hi0. rewrite Hmem by done. by rewrite (mem_of_rd s1 s Hrd i).
Qed.

Lemma range_op_ok B mid upd s b e :
  wf s -> 0 <= b < MAX_CPU -> 0 <= e < MAX_CPU -> updates_to B upd -> word mid ->
  (forall k, 0 <= k < 64 -> Z.testbit mid k = B) ->
  returns (range_op B mid upd s b e) (fun r => wf r /\ infinite r = infinite s /\
    forall i, 0 <= i -> mem r i = if in_range b e i then B else mem s i).
Proof.
  intros Hs Hb He Hupd Hword Hmid. unfold MAX_CPU, MAX_COUNT in Hb, He.
  pose proof (wf_count s Hs) as Hc. unfold MAX_COUNT in Hc. unfold range_op.
  rewrite (proj2 (Z.eqb_neq e (-1))), !(u32_small e), !count_bits_small by (done || lia).
  rewrite (u32_small (64 * ulongs_count s - 1)) by lia.
  destruct (tail B s) eqn:Ht; cbn [andb]; [|apply range_op_body; unfold MAX_CPU, MAX_COUNT; done || lia].
  assert (Htail := fun i => tail_mem B s i Hs Ht).
  destruct (Z.leb_spec (64 * ulongs_count s) b).
  { apply returns_ret. split_and!; [done..|].
    intros i Hi0. unfold in_range. destruct (Z.leb_spec b i); simpl; [|done].
    rewrite Htail by lia. by destruct (i <=? e). }
  set (e' := if 64 * ulongs_count s <=? e then 64 * ulongs_count s - 1 else e).
  assert (He' : 0 <= e' < MAX_CPU) by (unfold e', MAX_CPU, MAX_COUNT; case_tests; lia).
  eapply returns_mono; [apply range_op_body; done || lia|].
  intros r (Hwf & Hi & Hmem). split_and!; [done..|]. intros i Hi0. rewrite Hmem by done.
  destruct (Z.lt_ge_cases i (64 * ulongs_count s)).
  - unfold e', in_range. destruct (Z.leb_spec (64 * ulongs_count s) e); [|done].
    by rewrite (proj2 (Z.leb_le i _)), (proj2 (Z.leb_le i e)) by lia.
  - rewrite Htail by lia. by destruct (in_range b e' i), (in_range b e i).
Qed.

(** With [_endcpu == -1]: the start is moved down to the end of the words. *)
Lemma range_op_inf B mid upd s b :
  wf s -> 0 <= b < MAX_CPU -> updates_to B upd -> word mid ->
  (forall k, 0 <= k < 64 -> Z.testbit mid k = B) ->
  returns (range_op B mid upd s b (-1)) (fun r => wf r /\ infinite r = B /\
    forall i, 0 <= i -> mem r i = if Z.min b (64 * ulongs_count s) <=? i then B else mem s i).
Proof.
  intros Hs Hb Hupd Hword Hmid. unfold MAX_CPU, MAX_COUNT in Hb.
  pose proof (wf_count s Hs) as Hc. unfold MAX_COUNT in Hc. unfold range_op.
  rewrite Z.eqb_refl. change (u32 (-1)) with (2 ^ 32 - 1).
  assert (Hs' := wf_set_infinite s B Hs).
  rewrite !count_bits_small by done. cbn [set_infinite ulongs_count].
  rewrite (u32_small (64 * ulongs_count s - 1)), (proj2 (Z.leb_le _ (2 ^ 32 - 1))) by lia.
  assert (Ht : tail B (set_infinite s B) = true) by (by destruct B). rewrite Ht. cbn [andb].
  destruct (Z.leb_spec (64 * ulongs_count s) b).
  { apply returns_ret. split_and!; [done..|]. intros i Hi0. rewrite mem_set_infinite by done.
    rewrite Z.min_r by lia. case_tests; done || lia. }
  eapply returns_mono; [apply range_op_body; unfold MAX_CPU, MAX_COUNT; done || lia|].
  intros r (Hwf & Hi & Hmem). split_and!; [done..|]. intros i Hi0.
  rewrite Hmem, mem_set_infinite by done. unfold in_range. rewrite Z.min_l by lia.
  case_tests; simpl; done || lia.
Qed.

Lemma set_range_ok s b e :
  wf s -> 0 <= b < MAX_CPU -> 0 <= e < MAX_CPU ->
  returns (hwloc_bitmap_set_range s b e) (fun r => wf r /\ infinite r = infinite s /\
    forall i, 0 <= i -> mem r i = in_range b e i || mem s i).
Proof.
  intros. eapply returns_mono; [apply (range_op_ok true _ _ s b e);
    auto using updates_to_lor, word_full, bit_full|done].
Qed.

Lemma set_range_inf_ok s b :
  wf s -> 0 <= b < MAX_CPU ->
  returns (hwloc_bitmap_set_range s b (-1)) (fun r => wf r /\ infinite r = true /\
    forall i, 0 <= i -> mem r i = (Z.min b (64 * ulongs_count s) <=? i) || mem s i).
Proof.
  intros. eapply returns_mono; [apply (range_op_inf true _ _ s b);
    auto using updates_to_lor, word_full, bit_full|done].
Qed.

Lemma clr_range_ok s b e :
  wf s -> 0 <= b < MAX_CPU -> 0 <= e < MAX_CPU ->
  returns (hwloc_bitmap_clr_range s b e) (fun r => wf r /\ infinite r = infinite s /\
    forall i, 0 <= i -> mem r i = negb (in_range b e i) && mem s i).
Proof.
  intros. eapply returns_mono; [apply (range_op_ok false _ _ s b e);
    auto using updates_to_clear, word_zero, Z.testbit_0_l|].
  intros r (? & ? & Hmem). split_and!; [done..|]. intros i Hi. rewrite Hmem by done.
  by destruct (in_range b e i).
Qed.

Lemma clr_range_inf_ok s b :
  wf s -> 0 <= b < MAX_CPU ->
  returns (hwloc_bitmap_clr_range s b (-1)) (fun r => wf r /\ infinite r = false /\
    forall i, 0 <= i -> mem r i = negb (Z.min b (64 * ulongs_count s) <=? i) && mem s i).
Proof.
  intros. eapply returns_mono; [apply (range_op_inf false _ _ s b);
    auto using updates_to_clear, word_zero, Z.testbit_0_l|].
  intros r (? & ? & Hmem). split_and!; [done..|]. intros i Hi. rewrite Hmem by done.
  by case_tests.
Qed.

(** ** Combinations, with the output allowed to be an input *)

(** Reading word [i] of an operand while the loop has written the words below
    [i] of [res]: the value from before the call. *)
Lemma deref_read res res1 cur o i :
  wf res -> wf (deref res o) ->
  ulongs_count cur = ulongs_count res1 -> ulongs_allocated cur = ulongs_allocated res1 ->
  length (ulongs cur) = length (ulongs res1) -> array_ok res1 ->
  (forall x, 0 <= x -> rd res1 x = rd res x) ->
  nthw cur i = nthw res1 i -> 0 <= i < ulongs_count res1 ->
  HWLOC_SUBBITMAP_READULONG (deref cur o) i = Some (rd (deref res o) i).
Proof.
  intros Hres Ho Hc Ha Hl Harr Hrd Hi Hrange. destruct o as [|t]; simpl in *.
  - rewrite READULONG_ok; [|unfold array_ok; rewrite Hc, Ha, Hl; done|lia].
    by rewrite <- nthw_rd, Hi, nthw_rd, Hrd by lia.
  - apply READULONG_ok; [by apply wf_array|lia].
Qed.

Lemma deref_infinite res cur o :
  infinite cur = infinite res -> infinite (deref cur o) = infinite (deref res o).
Proof. by destruct o. Qed.

Lemma deref_largest_count res o1 o2 :
  ulongs_count (if ulongs_count (deref res o2) <? ulongs_count (deref res o1)
                then deref res o1 else deref res o2)
  = max_count (deref res o1) (deref res o2).
Proof. unfold max_count. case_tests; lia. Qed.

(** [f] acts on words bit by bit as [h]. *)
Definition bitwise (h : bool -> bool -> bool) (f : Z -> Z -> Z) : Prop :=
  forall w1 w2, word w1 -> word w2 -> word (f w1 w2) /\
    forall k, 0 <= k < 64 -> Z.testbit (f w1 w2) k = h (Z.testbit w1 k) (Z.testbit w2 k).

Lemma combine_ok h f res o1 o2 :
  wf res -> wf (deref res o1) -> wf (deref res o2) -> bitwise h f ->
  returns (bitmap_combine f h res o1 o2) (fun r => wf r /\
    infinite r = h (infinite (deref res o1)) (infinite (deref res o2)) /\
    ulongs_count r = Z.max (ulongs_count res) (max_count (deref res o1) (deref res o2)) /\
    forall i, 0 <= i -> mem r i = h (mem (deref res o1) i) (mem (deref res o2) i)).
Proof.
  intros Hres H1 H2 Hf. unfold bitmap_combine. rewrite deref_largest_count.
  pose proof (wf_count _ Hres) as Hc. pose proof (wf_count _ H1) as Hc1.
  pose proof (wf_count _ H2) as Hc2.
  eapply returns_bind; [apply realloc_ok; [done|unfold max_count; lia]|].
  intros res1 (Hr1 & Hcr1 & Hinf1 & Hrd1). pose proof (wf_array _ Hr1) as Harr1.
  eapply returns_bind.
  { apply (for_up_writes 0 _ _ (fun i => f (rd (deref res o1) i) (rd (deref res o2) i)) res1);
      [done|lia|destruct Harr1; lia|].
    intros i cur Hi (Hcc & Hca & _ & Hcl) Hcw. assert (Hw := Hcw i ltac:(lia) ltac:(lia)).
    rewrite !(deref_read res res1 cur _ i) by (done || lia). done. }
  intros r (Hsh & Hw). apply returns_ret.
  assert (Harr := array_ok_shape _ _ Hsh Harr1). destruct Hsh as (Hcr & _ & Hir & _).
  rewrite (deref_infinite res r o1), (deref_infinite res r o2) by congruence.
  assert (Hset : wf (set_infinite r (h (infinite (deref res o1)) (infinite (deref res o2)))) /\
    forall i, 0 <= i -> mem (set_infinite r (h (infinite (deref res o1)) (infinite (deref res o2)))) i
      = h (mem (deref res o1) i) (mem (deref res o2) i)).
  { apply (set_intro _ (fun i => f (rd (deref res o1) i) (rd (deref res o2) i))); simpl.
    - destruct Harr; split; simpl; done.
    - unfold max_count in *. lia.
    - intros x Hx. split.
      + unfold nthw. simpl. fold (nthw r x). rewrite Hw by lia. case_tests; simpl; done || lia.
      + apply Hf; (apply rd_word; [done|lia]).
    - intros x k Hx Hk. destruct (Hf (rd (deref res o1) x) (rd (deref res o2) x)) as [_ Hb];
        [apply rd_word; [done|lia]..|]. by rewrite Hb, !mem_word.
    - intros i Hi. unfold max_count in *. by rewrite !mem_infinite by lia. }
  destruct Hset. split_and!; [done|done|simpl; lia|done].
Qed.

Lemma bitwise_lor : bitwise orb Z.lor.
Proof. intros w1 w2 H1 H2. split; [by apply word_lor|intros; apply Z.lor_spec]. Qed.

Lemma bitwise_land : bitwise andb Z.land.
Proof. intros w1 w2 H1 H2. split; [by apply word_land|intros; apply Z.land_spec]. Qed.

Lemma bitwise_andnot : bitwise (fun a b => a && negb b) (fun w1 w2 => Z.land w1 (ulnot w2)).
Proof.
  intros w1 w2 H1 H2. split; [by apply word_land|intros; by rewrite Z.land_spec, bit_ulnot].
Qed.

Lemma bitwise_lxor : bitwise (fun a b => negb (eqb (negb a) (negb b))) Z.lxor.
Proof.
  intros w1 w2 H1 H2. split; [by apply word_lxor|]. intros k Hk. rewrite Z.lxor_spec.
  by destruct (Z.testbit w1 k), (Z.testbit w2 k).
Qed.

Lemma not_ok res o :
  wf res -> wf (deref res o) ->
  returns (hwloc_bitmap_not res o) (fun r => wf r /\
    infinite r = negb (infinite (deref res o)) /\
    ulongs_count r = Z.max (ulongs_count res) (ulongs_count (deref res o)) /\
    forall i, 0 <= i -> mem r i = negb (mem (deref res o) i)).
Proof.
  intros Hres Ho. pose proof (wf_count _ Hres) as Hc. pose proof (wf_count _ Ho) as Hco.
  unfold hwloc_bitmap_not. eapply returns_bind; [apply realloc_ok; [done|lia]|].
  intros res1 (Hr1 & Hcr1 & Hinf1 & Hrd1). pose proof (wf_array _ Hr1) as Harr1.
  eapply returns_bind.
  { apply (for_up_writes 0 _ _ (fun i => ulnot (rd (deref res o) i)) res1);
      [done|lia|destruct Harr1; lia|].
    intros i cur Hi (Hcc & Hca & _ & Hcl) Hcw. assert (Hw := Hcw i ltac:(lia) ltac:(lia)).
    rewrite (deref_read res res1 cur _ i) by (done || lia). done. }
  intros r (Hsh & Hw). apply returns_ret.
  assert (Harr := array_ok_shape _ _ Hsh Harr1). destruct Hsh as (Hcr & _ & Hir & _).
  rewrite (deref_infinite res r o) by congruence.
  enough (wf (set_infinite r (negb (infinite (deref res o)))) /\
    forall i, 0 <= i -> mem (set_infinite r (negb (infinite (deref res o)))) i
      = negb (mem (deref res o) i)) as [??]
    by (split_and!; [done|done|simpl; lia|done]).
  apply (set_intro _ (fun i => ulnot (rd (deref res o) i))); simpl.
  - destruct Harr; split; simpl; done.
  - lia.
  - intros x Hx. split; [|apply word_ulnot].
    unfold nthw. simpl. fold (nthw r x). rewrite Hw by lia. case_tests; simpl; done || lia.
  - intros x k Hx Hk. by rewrite bit_ulnot, mem_word.
  - intros i Hi. by rewrite mem_infinite by lia.
Qed.

(** ** Copies *)

Lemma nthw_take l l' c a inf n x :
  0 <= x < n -> n <= Z.of_nat (length l) ->
  nthw (mk_bitmap c a (take (Z.to_nat n) l ++ l') inf) x = default 0 (l !! Z.to_nat x).
Proof.
  intros Hx Hn. unfold nthw. simpl. rewrite lookup_app_l by (rewrite length_take; lia).
  by rewrite lookup_take_lt by lia.
Qed.

Lemma copy_words_ok src to a :
  wf src -> ulongs_count src <= Z.of_nat (length to) -> Z.of_nat (length to) = a ->
  returns (copy_words to (ulongs src) (ulongs_count src)) (fun l =>
    wf (mk_bitmap (ulongs_count src) a l (infinite src)) /\
    forall i, 0 <= i -> mem (mk_bitmap (ulongs_count src) a l (infinite src)) i = mem src i).
Proof.
  intros Hs Hlen Ha. pose proof (wf_count _ Hs) as Hc. destruct (wf_array _ Hs) as [Hcs Hls].
  unfold copy_words. rewrite !(proj2 (Z.leb_le _ _)) by lia. simpl. apply returns_ret.
  apply (set_intro_update _ src (rd src)); cbn [ulongs_count infinite].
  - split; cbn [ulongs_count ulongs_allocated ulongs]; [lia|].
    rewrite length_app, length_take, length_drop. lia.
  - done.
  - done.
  - intros x Hx. rewrite nthw_take by lia. by rewrite <- nthw_rd by lia.
  - done.
  - intros. by rewrite mem_word.
  - intros i Hi. by rewrite mem_infinite by lia.
Qed.

Lemma dup_ok s :
  wf s -> returns (hwloc_bitmap_dup (Some s)) (fun o => exists r, o = Some r /\ wf r /\
    ulongs_count r = ulongs_count s /\ forall i, 0 <= i -> mem r i = mem s i).
Proof.
  intros Hs. unfold hwloc_bitmap_dup. rewrite !malloc_total. simpl.
  destruct (wf_array _ Hs) as [Hcs Hls]. pose proof (wf_count _ Hs).
  eapply returns_bind; [apply (copy_words_ok _ _ (ulongs_allocated s)); [done|..]|].
  - rewrite fresh_array_ok; lia.
  - apply fresh_array_ok. lia.
  - intros l [Hwf Hmem]. apply returns_ret. eauto.
Qed.

Lemma copy_ok dst src :
  array_ok dst -> wf src -> returns (hwloc_bitmap_copy dst src) (fun r => wf r /\
    ulongs_count r = ulongs_count src /\ forall i, 0 <= i -> mem r i = mem src i).
Proof.
  intros Hd Hs. unfold hwloc_bitmap_copy. pose proof (wf_count _ Hs).
  eapply returns_bind; [by apply reset_ok|]. intros d1 ([Hcd Hld] & Hc1 & _).
  eapply returns_bind; [apply (copy_words_ok src _ (ulongs_allocated d1)); [done|lia|done]|].
  intros l [Hwf Hmem]. apply returns_ret. rewrite Hc1. done.
Qed.

(** ** Assignments of single words and bits *)

Lemma only_ok s cpu :
  array_ok s -> 0 <= cpu < MAX_CPU ->
  returns (hwloc_bitmap_only s cpu) (fun r => wf r /\ infinite r = false /\
    ulongs_count r = cpu / 64 + 1 /\
    forall i, 0 <= i -> mem r i = (i =? cpu)).
Proof.
  intros Hs Hcpu. pose proof (index_bounds cpu Hcpu). unfold hwloc_bitmap_only.
  eapply returns_bind; [apply reset_ok; [done|unfold HWLOC_BITS_PER_LONG; lia]|].
  intros s1 (Ha1 & Hc1 & _). unfold HWLOC_BITS_PER_LONG in Hc1.
  eapply returns_bind with (P := fun r => wf r /\ infinite r = false /\
    ulongs_count r = cpu / 64 + 1 /\ forall i, 0 <= i -> mem r i = false).
  { unfold hwloc_bitmap__zero.
    eapply returns_bind; [apply (constant_ok s1 _ _ false); [done|done|lia|apply word_zero|]|].
    - intros. apply Z.testbit_0_l.
    - intros s2 ((Hc2 & _) & Hwf & Hmem). apply returns_ret.
      split_and!; [done|done|simpl; lia|done]. }
  intros s2 (Hs2 & Hi2 & Hc2 & Hm2).
  eapply returns_mono; [apply (upd_ok s2 _ _ (fun i => i =? cpu)); [done| | | |]|].
  - unfold HWLOC_SUBBITMAP_INDEX, HWLOC_BITS_PER_LONG. lia.
  - intros. apply word_lor; [done|apply word_ulbit].
  - intros k Hk. unfold HWLOC_SUBBITMAP_INDEX, HWLOC_BITS_PER_LONG.
    rewrite Z.lor_spec, bit_cpu, eqb_split, Z.eqb_refl, <- mem_word, Hm2 by lia. done.
  - intros i Hi Hne. rewrite Hm2 by done. symmetry. apply Z.eqb_neq.
    intros ->. apply Hne. done.
  - simpl. intros r (Hwf & Hi & Hc & Hmem). split_and!; [done|congruence|congruence|done].
Qed.

Lemma allbut_ok s cpu :
  array_ok s -> 0 <= cpu < MAX_CPU ->
  returns (hwloc_bitmap_allbut s cpu) (fun r => wf r /\ infinite r = true /\
    forall i, 0 <= i -> mem r i = negb (i =? cpu)).
Proof.
  intros Hs Hcpu. pose proof (index_bounds cpu Hcpu). unfold hwloc_bitmap_allbut.
  eapply returns_bind; [apply reset_ok; [done|unfold HWLOC_BITS_PER_LONG; lia]|].
  intros s1 (Ha1 & Hc1 & _). unfold HWLOC_BITS_PER_LONG in Hc1.
  eapply returns_bind with (P := fun r => wf r /\ infinite r = true /\
    ulongs_count r = cpu / 64 + 1 /\ forall i, 0 <= i -> mem r i = true).
  { unfold hwloc_bitmap__fill.
    eapply returns_bind; [apply (constant_ok s1 _ _ true); [done|done|lia|apply word_full|]|].
    - apply bit_full.
    - intros s2 ((Hc2 & _) & Hwf & Hmem). apply returns_ret.
      split_and!; [done|done|simpl; lia|done]. }
  intros s2 (Hs2 & Hi2 & Hc2 & Hm2).
  eapply returns_mono; [apply (upd_ok s2 _ _ (fun i => negb (i =? cpu))); [done| | | |]|].
  - unfold HWLOC_SUBBITMAP_INDEX, HWLOC_BITS_PER_LONG. lia.
  - intros. by apply word_land.
  - intros k Hk. unfold HWLOC_SUBBITMAP_INDEX, HWLOC_BITS_PER_LONG.
    rewrite Z.land_spec, bit_ulnot, bit_cpu, eqb_split, Z.eqb_refl, <- mem_word, Hm2 by lia. done.
  - intros i Hi Hne. rewrite Hm2 by done. symmetry. apply negb_true_iff, Z.eqb_neq.
    intros ->. apply Hne. done.
  - simpl. intros r (Hwf & Hi & _ & Hmem). split_and!; [done|congruence|done].
Qed.

(** Membership in a set that has a single word [w] at index [x]. *)
Definition word_mem (w x i : Z) : bool := (i / 64 =? x) && Z.testbit w (i mod 64).

Lemma from_ith_ulong_ok s x w :
  array_ok s -> 0 <= x < MAX_COUNT - 1 -> word w ->
  returns (hwloc_bitmap_from_ith_ulong s x w) (fun r => wf r /\ infinite r = false /\
    forall i, 0 <= i -> mem r i = word_mem w x i).
Proof.
  intros Hs Hx Hw. unfold hwloc_bitmap_from_ith_ulong.
  rewrite u32_small by (unfold MAX_COUNT in Hx; lia).
  eapply returns_bind; [apply reset_ok; [done|lia]|]. intros s1 (Ha1 & Hc1 & _).
  assert (Hal : x < ulongs_allocated s1) by (destruct Ha1; lia).
  eapply returns_bind; [apply ulongs_set_ok; [done|lia]|]. intros s2 (Hsh2 & Hw2).
  assert (Ha2 := array_ok_shape _ _ Hsh2 Ha1).
  eapply returns_bind; [apply write_words_ok; [done|lia|lia|]|].
  { destruct Hsh2 as (_ & -> & _). lia. }
  intros s3 (Hsh3 & Hw3). assert (Ha3 := array_ok_shape _ _ Hsh3 Ha2). apply returns_ret.
  destruct Hsh2 as (Hc2 & _), Hsh3 as (Hc3 & _).
  enough (wf (set_infinite s3 false) /\
    forall i, 0 <= i -> mem (set_infinite s3 false) i = word_mem w x i) by (simpl; tauto).
  apply (set_intro _ (fun j => if j =? x then w else 0)); simpl.
  - destruct Ha3; split; simpl; [lia|done].
  - lia.
  - intros j Hj. split; [|case_tests; [done|apply word_zero]].
    unfold nthw. simpl. fold (nthw s3 j). rewrite Hw3, Hw2 by lia. case_tests; simpl; done || lia.
  - intros j k Hj Hk. unfold word_mem.
    rewrite (Z.mul_comm 64), Z.div_add_l, Z.div_small, Z.add_0_r by lia.
    rewrite (Z.add_comm _ k), Z.mod_add, Z.mod_small by lia.
    destruct (j =? x); [done|apply Z.testbit_0_l].
  - intros i Hi. unfold word_mem. divmod64 i. destruct (Z.eqb_spec (i / 64) x); [lia|done].
Qed.

Lemma from_ulong_ok s w :
  array_ok s -> word w ->
  returns (hwloc_bitmap_from_ulong s w) (fun r => wf r /\ infinite r = false /\
    forall i, 0 <= i -> mem r i = word_mem w 0 i).
Proof.
  intros Hs Hw. pose proof (from_ith_ulong_ok s 0 w Hs ltac:(unfold MAX_COUNT; lia) Hw) as H1.
  unfold hwloc_bitmap_from_ith_ulong in H1. change (u32 (0 + 1)) with 1 in H1.
  unfold hwloc_bitmap_from_ulong. destruct (hwloc_bitmap_reset_by_ulongs s 1); [|done].
  simpl in *. destruct (ulongs_set h 0 w); done.
Qed.

Lemma set_ith_ulong_ok s x w :
  wf s -> 0 <= x < MAX_COUNT - 1 -> word w ->
  returns (hwloc_bitmap_set_ith_ulong s x w) (fun r => wf r /\ infinite r = infinite s /\
    forall i, 0 <= i -> mem r i = if i / 64 =? x then Z.testbit w (i mod 64) else mem s i).
Proof.
  intros Hs Hx Hw. unfold hwloc_bitmap_set_ith_ulong.
  rewrite u32_small by (unfold MAX_COUNT in Hx; lia).
  eapply returns_bind; [apply realloc_ok; [done|lia]|]. intros s1 (Hs1 & Hc1 & Hi1 & Hrd1).
  assert (Hupd := upd_ok s1 x (fun _ => w)
    (fun i => if i / 64 =? x then Z.testbit w (i mod 64) else mem s i)).
  unfold ulongs_upd in Hupd. rewrite ulongs_get_ok in Hupd;
    [|by apply wf_array|destruct (wf_array _ Hs1); lia].
  simpl in Hupd. eapply returns_mono; [apply Hupd; try done|]; clear Hupd.
  - lia.
  - intros k Hk. rewrite (Z.mul_comm 64), Z.div_add_l, Z.div_small, Z.add_0_r, Z.eqb_refl by lia.
    by rewrite Z.add_comm, Z.mod_add, Z.mod_small by lia.
  - intros i Hi Hne. rewrite (mem_of_rd s1 s Hrd1 i Hi). by rewrite (proj2 (Z.eqb_neq _ _)).
  - intros r (? & ? & _ & ?). split_and!; [done|congruence|done].
Qed.

Lemma to_ith_ulong_ok s x :
  wf s -> 0 <= x -> returns (hwloc_bitmap_to_ith_ulong s x) (fun w => word w /\
    forall k, 0 <= k < 64 -> Z.testbit w k = mem s (64 * x + k)).
Proof.
  intros Hs Hx. unfold hwloc_bitmap_to_ith_ulong. rewrite READULONG_ok; [|by apply wf_array|done].
  apply returns_ret. split; [by apply rd_word|]. intros. by rewrite mem_word.
Qed.

End Ops.

Lemma word_index x k : 0 <= k < 64 -> (64 * x + k) / 64 = x.
Proof. intros. rewrite (Z.mul_comm 64), Z.div_add_l, Z.div_small by lia. lia. Qed.

Lemma word_offset x k : 0 <= k < 64 -> (64 * x + k) mod 64 = k.
Proof. intros. by rewrite Z.add_comm, Z.mul_comm, Z.mod_add, Z.mod_small by lia. Qed.

(** The word read back is determined by its bits. *)
Lemma to_ith_ulong_bits s x w :
  wf s -> 0 <= x -> word w ->
  (forall k, 0 <= k < 64 -> mem s (64 * x + k) = Z.testbit w k) ->
  hwloc_bitmap_to_ith_ulong s x = Some w.
Proof.
  intros Hs Hx Hw Hb. destruct (to_ith_ulong_ok s x Hs Hx) as (v & -> & Hv & Hbv).
  f_equal. apply word_ext; [done|done|]. intros k Hk. by rewrite Hbv, Hb.
Qed.
