(* ===== verification/BitmapTests.v ===== *)
(** * BitmapTests: what the tests, searches and comparisons of [src/cpuset.c] decide

    [isset], [iszero], [isfull], [isequal], [intersects] and [isincluded] are
    characterised exactly.  [intersects] and [isincluded] decide intersection
    and inclusion when one side (the left one for inclusion) is finite; on
    infinite sets the code looks at too few words, and the exact statements
    say which.  Then first, last, next, weight, singlify and the two comparison
    functions. *)

From S2P Require Import Prelude Misc Bitmap BitmapSpec BitmapOps.

Implicit Types s t : hwloc_bitmap_s.

(** ** Searching words *)

Lemma search_words_ok {R} s t n (body : Z -> Z -> option R) :
  wf s -> wf t -> 0 <= n ->
  exists o, search_words s t n body = Some o /\
  match o with
  | None => forall x, 0 <= x < n -> body (rd s x) (rd t x) = None
  | Some v => exists x, 0 <= x < n /\ body (rd s x) (rd t x) = Some v /\
      forall y, 0 <= y < x -> body (rd s y) (rd t y) = None
  end.
Proof.
  intros Hs Ht Hn. unfold search_words.
  assert (Hbody : forall x, 0 <= x ->
    (let! w1 := HWLOC_SUBBITMAP_READULONG s x in
     let! w2 := HWLOC_SUBBITMAP_READULONG t x in Some (body w1 w2))
    = Some (body (rd s x) (rd t x))).
  { intros x Hx. rewrite (READULONG_ok s), (READULONG_ok t) by (by try apply wf_array). done. }
  match goal with |- context [search_up 0 (Z.to_nat n) ?f] =>
    destruct (search_up_total 0 (Z.to_nat n) f) as (o & -> & Ho) end.
  - intros x Hx. rewrite Hbody by lia. eauto.
  - exists o. split; [done|]. destruct o as [v|].
    + destruct Ho as (x & Hx & Hv & Hy). exists x. rewrite Hbody in Hv by lia.
      split_and!; [lia|lia|congruence|]. intros y Hy0. specialize (Hy y ltac:(lia)).
      rewrite Hbody in Hy by lia. congruence.
    + intros x Hx. specialize (Ho x ltac:(lia)). rewrite Hbody in Ho by lia. congruence.
Qed.

(** Searching the valid words of one set. *)
Lemma search_valid_ok {R} s (body : Z -> option R) :
  wf s ->
  exists o, search_up 0 (Z.to_nat (ulongs_count s))
      (fun i => let! w := ulongs_get s i in Some (body w)) = Some o /\
  match o with
  | None => forall x, 0 <= x < ulongs_count s -> body (rd s x) = None
  | Some v => exists x, 0 <= x < ulongs_count s /\ body (rd s x) = Some v /\
      forall y, 0 <= y < x -> body (rd s y) = None
  end.
Proof.
  intros Hs. pose proof (wf_count _ Hs) as Hc. destruct (wf_array _ Hs) as [Hcs Hls].
  assert (Hget : forall x, 0 <= x < ulongs_count s -> ulongs_get s x = Some (rd s x)).
  { intros. rewrite ulongs_get_ok; [by rewrite nthw_rd by lia|by split|lia]. }
  match goal with |- context [search_up _ _ ?f] =>
    destruct (search_up_total 0 (Z.to_nat (ulongs_count s)) f) as (o & -> & Ho) end.
  - intros x Hx. rewrite Hget by lia. simpl. eauto.
  - exists o. split; [done|]. destruct o as [v|].
    + destruct Ho as (x & Hx & Hv & Hy). exists x. rewrite Hget in Hv by lia. simpl in Hv.
      split_and!; [lia|lia|congruence|]. intros y Hy0. specialize (Hy y ltac:(lia)).
      rewrite Hget in Hy by lia. simpl in Hy. congruence.
    + intros x Hx. specialize (Ho x ltac:(lia)). rewrite Hget in Ho by lia. simpl in Ho. congruence.
Qed.

(** ** From words to members *)

(** A property of all the bits of the words below [n]. *)
Lemma all_bits (P : Z -> Prop) n :
  (forall x k, 0 <= x < n -> 0 <= k < 64 -> P (64 * x + k)) <->
  (forall i, 0 <= i < 64 * n -> P i).
Proof.
  split; intros Hall.
  - intros i Hi. divmod64 i. replace i with (64 * (i / 64) + i mod 64) by lia.
    apply Hall; [|lia]. split; [apply Z.div_pos|apply Z.div_lt_upper_bound]; lia.
  - intros x k Hx Hk. apply Hall. lia.
Qed.

Lemma word_zero_iff w : word w -> w = 0 <-> forall k, 0 <= k < 64 -> Z.testbit w k = false.
Proof.
  intros Hw. split; [intros -> k _; apply Z.testbit_0_l|].
  intros Hb. apply word_ext; [done|done|]. intros k Hk. rewrite Z.testbit_0_l. auto.
Qed.

Lemma word_full_iff w :
  word w -> w = HWLOC_SUBBITMAP_FULL <-> forall k, 0 <= k < 64 -> Z.testbit w k = true.
Proof.
  intros Hw. split; [intros ->; apply bit_full|].
  intros Hb. apply word_ext; [done|apply word_full|]. intros k Hk. rewrite Hb, bit_full; done.
Qed.

(** Extending a statement about the words to all members. *)
Lemma all_members s (b : bool) n :
  wf s -> ulongs_count s <= n -> infinite s = b ->
  (forall i, 0 <= i < 64 * n -> mem s i = b) <-> (forall i, 0 <= i -> mem s i = b).
Proof.
  intros Hs Hn Hb. pose proof (wf_count _ Hs). split; intros Hall i Hi; [|apply Hall; lia].
  destruct (Z.lt_ge_cases i (64 * n)); [apply Hall; lia|]. by rewrite mem_infinite by lia.
Qed.

Ltac case_bools := repeat match goal with
  | H : context [negb ?b] |- _ => destruct b; simpl in H
  | H : (if ?b then _ else _) = _ |- _ => destruct b eqn:?; simpl in H
  end.

(** ** The tests *)

Lemma isset_ok s cpu : wf s -> 0 <= cpu -> hwloc_bitmap_isset s cpu = Some (mem s cpu).
Proof.
  intros Hs Hcpu. unfold hwloc_bitmap_isset, HWLOC_SUBBITMAP_INDEX, HWLOC_BITS_PER_LONG.
  assert (0 <= cpu / 64) by (apply Z.div_pos; lia).
  rewrite READULONG_ok by (by try apply wf_array). simpl. f_equal.
  assert (Hw := rd_word s (cpu / 64) Hs ltac:(lia)). divmod64 cpu. unfold mem.
  destruct (Z.eqb_spec (Z.land (rd s (cpu / 64)) (HWLOC_SUBBITMAP_CPU cpu)) 0) as [H0|H0].
  - rewrite land_eq_0_bits in H0. specialize (H0 (cpu mod 64) ltac:(lia)).
    rewrite bit_cpu, Z.eqb_refl, andb_true_r in H0 by lia. by rewrite H0.
  - simpl. destruct (Z.testbit (rd s (cpu / 64)) (cpu mod 64)) eqn:Hb; [done|].
    exfalso. apply H0, land_eq_0_bits. intros k Hk. rewrite bit_cpu by done.
    destruct (Z.eqb_spec k (cpu mod 64)) as [->|]; [by rewrite Hb|apply andb_false_r].
Qed.

Lemma iszero_ok s :
  wf s -> returns (hwloc_bitmap_iszero s) (fun b => b = true <-> forall i, 0 <= i -> mem s i = false).
Proof.
  intros Hs. unfold hwloc_bitmap_iszero. pose proof (wf_count _ Hs) as Hc.
  destruct (infinite s) eqn:Hinf.
  { apply returns_ret. split; [done|]. intros Hall.
    rewrite <- (Hall (64 * ulongs_count s)), mem_infinite by lia. done. }
  destruct (search_valid_ok s (fun w => if negb (w =? HWLOC_SUBBITMAP_ZERO) then Some false else None))
    as (o & Ho & Hspec); [done|]. simpl in Ho. rewrite Ho. simpl. apply returns_ret.
  rewrite <- (all_members s false (ulongs_count s)) by (done || lia). rewrite <- all_bits.
  unfold HWLOC_SUBBITMAP_ZERO in Hspec. destruct o as [v|]; simpl.
  - destruct Hspec as (x & Hx & Hv & _). destruct (Z.eqb_spec (rd s x) 0) as [|Hne]; [done|].
    injection Hv as <-. split; [done|]. intros Hall. destruct Hne.
    apply word_zero_iff; [apply rd_word; [done|lia]|]. intros k Hk.
    rewrite <- mem_word by done. by apply Hall.
  - split; [|done]. intros _ x k Hx Hk. rewrite mem_word by done. specialize (Hspec x Hx).
    destruct (Z.eqb_spec (rd s x) 0) as [->|]; [apply Z.testbit_0_l|done].
Qed.

Lemma isfull_ok s :
  wf s -> returns (hwloc_bitmap_isfull s) (fun b => b = true <-> forall i, 0 <= i -> mem s i = true).
Proof.
  intros Hs. unfold hwloc_bitmap_isfull. pose proof (wf_count _ Hs) as Hc.
  destruct (infinite s) eqn:Hinf; simpl.
  2:{ apply returns_ret. split; [done|]. intros Hall.
    rewrite <- (Hall (64 * ulongs_count s)), mem_infinite by lia. done. }
  destruct (search_valid_ok s (fun w => if negb (w =? HWLOC_SUBBITMAP_FULL) then Some false else None))
    as (o & Ho & Hspec); [done|]. simpl in Ho. rewrite Ho. simpl. apply returns_ret.
  rewrite <- (all_members s true (ulongs_count s)) by (done || lia). rewrite <- all_bits.
  destruct o as [v|]; simpl.
  - destruct Hspec as (x & Hx & Hv & _).
    destruct (Z.eqb_spec (rd s x) HWLOC_SUBBITMAP_FULL) as [|Hne]; [done|].
    injection Hv as <-. split; [done|]. intros Hall. destruct Hne.
    apply word_full_iff; [apply rd_word; [done|lia]|]. intros k Hk.
    rewrite <- mem_word by done. by apply Hall.
  - split; [|done]. intros _ x k Hx Hk. rewrite mem_word by done. specialize (Hspec x Hx).
    destruct (Z.eqb_spec (rd s x) HWLOC_SUBBITMAP_FULL) as [->|]; [by apply bit_full|done].
Qed.

Lemma isequal_ok s t :
  wf s -> wf t -> returns (hwloc_bitmap_isequal s t) (fun b => b = true <-> same_set s t).
Proof.
  intros Hs Ht. unfold hwloc_bitmap_isequal.
  pose proof (wf_count _ Hs) as Hcs. pose proof (wf_count _ Ht) as Hct.
  set (m := max_count s t). assert (Hm : ulongs_count s <= m /\ ulongs_count t <= m)
    by (unfold m, max_count; lia).
  destruct (search_words_ok s t m (fun w1 w2 => if negb (w1 =? w2) then Some false else None))
    as (o & -> & Hspec); [done|done|lia|]. simpl. destruct o as [v|].
  - destruct Hspec as (x & Hx & Hv & _). apply returns_ret.
    destruct (Z.eqb_spec (rd s x) (rd t x)) as [|Hne]; [done|]. injection Hv as <-.
    split; [done|]. intros Heq. destruct Hne. apply rd_same_set; [done..|lia].
  - assert (Hwords : forall x, 0 <= x < m -> rd s x = rd t x).
    { intros x Hx. specialize (Hspec x Hx). by destruct (Z.eqb_spec (rd s x) (rd t x)). }
    destruct (eqb (infinite s) (infinite t)) eqn:Hinf; simpl; apply returns_ret.
    + split; [|done]. intros _. apply eqb_prop in Hinf. apply same_set_rd. intros x Hx.
      destruct (Z.lt_ge_cases x m); [apply Hwords; lia|]. unfold rd.
      rewrite !(proj2 (Z.ltb_ge x _)) by lia. by rewrite Hinf.
    + split; [done|]. intros Heq. specialize (Heq (64 * m) ltac:(lia)).
      rewrite !mem_infinite in Heq by lia. rewrite Heq, eqb_reflx in Hinf. done.
Qed.

(** Exactly which members [intersects] looks at: those of the words of the
    larger array. *)
Lemma intersects_exact s t :
  wf s -> wf t -> returns (hwloc_bitmap_intersects s t) (fun b => b = true <->
    exists i, 0 <= i < 64 * max_count s t /\ mem s i = true /\ mem t i = true).
Proof.
  intros Hs Ht. unfold hwloc_bitmap_intersects.
  pose proof (wf_count _ Hs) as Hcs. pose proof (wf_count _ Ht) as Hct.
  set (m := max_count s t). assert (Hm : ulongs_count s <= m /\ ulongs_count t <= m)
    by (unfold m, max_count; lia).
  destruct (search_words_ok s t m (fun w1 w2 =>
    if negb (Z.land w1 w2 =? HWLOC_SUBBITMAP_ZERO) then Some true else None))
    as (o & -> & Hspec); [done|done|lia|]. simpl. unfold HWLOC_SUBBITMAP_ZERO in Hspec.
  destruct o as [v|].
  - destruct Hspec as (x & Hx & Hv & _). apply returns_ret.
    destruct (Z.eqb_spec (Z.land (rd s x) (rd t x)) 0) as [|Hne]; [done|]. injection Hv as <-.
    split; [|done]. intros _.
    destruct (nonzero_has_bit (Z.land (rd s x) (rd t x))) as (k & Hk & Hb);
      [apply word_land, rd_word; [done|lia]|done|].
    rewrite Z.land_spec in Hb. apply andb_true_iff in Hb.
    exists (64 * x + k). rewrite !mem_word by done. split; [lia|done].
  - assert (Hnone : ~ exists i, 0 <= i < 64 * m /\ mem s i = true /\ mem t i = true).
    { intros (i & Hi & Hsi & Hti). divmod64 i.
      specialize (Hspec (i / 64) ltac:(split; [apply Z.div_pos|apply Z.div_lt_upper_bound]; lia)).
      destruct (Z.eqb_spec (Z.land (rd s (i / 64)) (rd t (i / 64))) 0) as [H0|]; [|done].
      rewrite land_eq_0_bits in H0. specialize (H0 (i mod 64) ltac:(lia)).
      unfold mem in Hsi, Hti. rewrite Hsi, Hti in H0. done. }
    destruct (infinite s && infinite t); apply returns_ret; split; done.
Qed.

Lemma intersects_ok s t :
  wf s -> wf t -> infinite s = false \/ infinite t = false ->
  returns (hwloc_bitmap_intersects s t) (fun b => b = true <->
    exists i, 0 <= i /\ mem s i = true /\ mem t i = true).
Proof.
  intros Hs Ht Hfin. eapply returns_mono; [by apply intersects_exact|].
  pose proof (wf_count _ Hs). pose proof (wf_count _ Ht).
  intros b ->. split; intros (i & Hi & Hsi & Hti); exists i; (split; [|done]); [lia|].
  split; [done|]. destruct (Z.lt_ge_cases i (64 * max_count s t)); [done|].
  unfold max_count in *. rewrite mem_infinite in Hsi by lia. rewrite mem_infinite in Hti by lia.
  destruct Hfin; congruence.
Qed.

(** Exactly what [isincluded] looks at: the words of the left set, then the
    infinite flags. *)
Lemma isincluded_exact s t :
  wf s -> wf t -> returns (hwloc_bitmap_isincluded s t) (fun b => b = true <->
    (forall i, 0 <= i < 64 * ulongs_count s -> mem s i = true -> mem t i = true) /\
    (infinite s = true -> infinite t = true)).
Proof.
  intros Hs Ht. unfold hwloc_bitmap_isincluded.
  pose proof (wf_count _ Hs) as Hcs. pose proof (wf_count _ Ht) as Hct.
  destruct (search_words_ok s t (ulongs_count s) (fun wsub wsuper =>
    if negb (wsuper =? Z.lor wsuper wsub) then Some false else None))
    as (o & -> & Hspec); [done|done|lia|]. simpl. destruct o as [v|].
  - destruct Hspec as (x & Hx & Hv & _). apply returns_ret.
    destruct (Z.eqb_spec (rd t x) (Z.lor (rd t x) (rd s x))) as [|Hne]; [done|].
    injection Hv as <-. split; [done|]. intros [Hincl _]. destruct Hne.
    assert (Hwt := rd_word t x Ht ltac:(lia)). assert (Hws := rd_word s x Hs ltac:(lia)).
    apply word_ext; [done|by apply word_lor|]. intros k Hk. rewrite Z.lor_spec.
    specialize (Hincl (64 * x + k) ltac:(lia)). rewrite !mem_word in Hincl by done.
    destruct (Z.testbit (rd s x) k); [rewrite Hincl; done|by rewrite orb_false_r].
  - assert (Hincl : forall i, 0 <= i < 64 * ulongs_count s -> mem s i = true -> mem t i = true).
    { intros i Hi Hsi. divmod64 i.
      specialize (Hspec (i / 64) ltac:(split; [apply Z.div_pos|apply Z.div_lt_upper_bound]; lia)).
      destruct (Z.eqb_spec (rd t (i / 64)) (Z.lor (rd t (i / 64)) (rd s (i / 64)))) as [Heq|];
        [|done]. unfold mem in *. rewrite Heq, Z.lor_spec, Hsi. apply orb_true_r. }
    destruct (infinite s), (infinite t); simpl; apply returns_ret; (split; [try done|try tauto]).
Qed.

Lemma isincluded_ok s t :
  wf s -> wf t -> infinite s = false \/ ulongs_count t <= ulongs_count s ->
  returns (hwloc_bitmap_isincluded s t) (fun b => b = true <->
    forall i, 0 <= i -> mem s i = true -> mem t i = true).
Proof.
  intros Hs Ht Hcond. eapply returns_mono; [by apply isincluded_exact|].
  pose proof (wf_count _ Hs). pose proof (wf_count _ Ht).
  intros b ->. split.
  - intros [Hincl Hinf] i Hi Hsi. destruct (Z.lt_ge_cases i (64 * ulongs_count s)); [auto|].
    rewrite mem_infinite in Hsi by lia. destruct Hcond as [Hfin|Hle]; [congruence|].
    rewrite mem_infinite by lia. auto.
  - intros Hall. split; [intros i Hi; apply Hall; lia|]. intros Hinf.
    rewrite <- (mem_infinite t (64 * max_count s t)) by (unfold max_count; lia).
    apply Hall; [unfold max_count; lia|]. by rewrite mem_infinite by (unfold max_count; lia).
Qed.

(** The bound under which every index of the valid words fits an int. *)
Definition int_sized s : Prop := ulongs_count s < 2 ^ 25.

(** ** Specifications *)

(** [r] is the smallest member of [s] that is [>= lo], or [-1] for none. *)
Definition is_first_from s (lo r : Z) : Prop :=
  (r = -1 /\ forall i, lo <= i -> mem s i = false) \/
  (lo <= r /\ mem s r = true /\ forall i, lo <= i < r -> mem s i = false).

Definition is_first s (r : Z) : Prop := is_first_from s 0 r.

(** [r] is the largest member, or [-1] for none. *)
Definition is_last s (r : Z) : Prop :=
  (r = -1 /\ forall i, 0 <= i -> mem s i = false) \/
  (0 <= r /\ mem s r = true /\ forall i, r < i -> mem s i = false).

Lemma is_first_from_unique s lo r1 r2 :
  0 <= lo -> is_first_from s lo r1 -> is_first_from s lo r2 -> r1 = r2.
Proof.
  intros Hlo [[-> H1]|(Hr1 & Hm1 & Hl1)] [[-> H2]|(Hr2 & Hm2 & Hl2)]; [done| | |].
  - rewrite H1 in Hm2; done.
  - rewrite H2 in Hm1; done.
  - destruct (Z.lt_trichotomy r1 r2) as [Hlt|[|Hlt]]; [|done|].
    + rewrite Hl2 in Hm1 by lia. done.
    + rewrite Hl1 in Hm2 by lia. done.
Qed.

(** ** Searching for the first set bit *)

(** The bit [i] of the sequence of words [v]. *)
Definition vbit (v : Z -> Z) (i : Z) : bool := Z.testbit (v (i / 64)) (i mod 64).

Lemma vbit_word v x k : 0 <= k < 64 -> vbit v (64 * x + k) = Z.testbit (v x) k.
Proof.
  intros Hk. unfold vbit.
  rewrite (Z.mul_comm 64), Z.div_add_l, Z.div_small, Z.add_0_r by lia.
  by rewrite Z.add_comm, Z.mod_add, Z.mod_small by lia.
Qed.

(** The lowest bit of a nonzero word, as a bit of the sequence. *)
Lemma word_first_ok v x :
  word (v x) -> 0 <= x -> 64 * x < 2 ^ 31 - 64 -> v x <> 0 ->
  let r := word_first (v x) x in
  64 * x <= r < 64 * x + 64 /\ vbit v r = true /\ forall i, 64 * x <= i < r -> vbit v i = false.
Proof.
  intros Hw Hx Hsize Hnz. destruct (hwloc_ffsl_spec (v x) Hw Hnz) as (Hr & Hb & Hl).
  set (k := hwloc_ffsl (v x) - 1) in *.
  assert (Heq : word_first (v x) x = 64 * x + k).
  { unfold word_first, HWLOC_BITS_PER_LONG. fold k. rewrite u32_small, s32_small by lia. lia. }
  simpl. rewrite Heq, vbit_word by lia. split_and!; [lia|lia|done|].
  intros i Hi. replace i with (64 * x + (i - 64 * x)) by lia. rewrite vbit_word by lia.
  apply Hl. lia.
Qed.

(** The search loop shared by [hwloc_bitmap_first] and [hwloc_bitmap_next]. *)
Lemma search_first_ok v lo n f :
  0 <= lo -> 64 * (lo + Z.of_nat n) < 2 ^ 31 ->
  (forall x, lo <= x < lo + Z.of_nat n -> word (v x) /\
     f x = Some (if negb (v x =? 0) then Some (word_first (v x) x) else None)) ->
  exists o, search_up lo n f = Some o /\
  match o with
  | Some r => 64 * lo <= r < 64 * (lo + Z.of_nat n) /\ vbit v r = true /\
      forall i, 64 * lo <= i < r -> vbit v i = false
  | None => forall i, 64 * lo <= i < 64 * (lo + Z.of_nat n) -> vbit v i = false
  end.
Proof.
  intros Hlo Hsize Hf.
  assert (Hzero : forall x y, lo <= x -> y <= lo + Z.of_nat n ->
    (forall z, x <= z < y -> f z = Some None) ->
    forall i, 64 * x <= i < 64 * y -> vbit v i = false).
  { intros x y Hx Hy Hall i Hi. divmod64 i. unfold vbit.
    assert (Hr : x <= i / 64 < y) by lia. destruct (Hf (i / 64)) as [_ Hfi]; [lia|].
    rewrite Hall in Hfi by lia. destruct (Z.eqb_spec (v (i / 64)) 0) as [->|]; [|done].
    apply Z.testbit_0_l. }
  destruct (search_up_total lo n f) as (o & -> & Ho).
  { intros x Hx. destruct (Hf x Hx) as [_ ->]. eauto. }
  exists o. split; [done|]. destruct o as [r|].
  - destruct Ho as (x & Hx & Hv & Hy). destruct (Hf x Hx) as [Hw Hfx]. rewrite Hfx in Hv.
    destruct (Z.eqb_spec (v x) 0) as [|Hnz]; [done|]. injection Hv as <-.
    destruct (word_first_ok v x) as (Hr & Hb & Hl); [done|lia|lia|done|].
    split_and!; [lia|lia|done|]. intros i Hi.
    destruct (Z.lt_ge_cases i (64 * x)); [|apply Hl; lia].
    apply (Hzero lo x); [lia|lia|done|lia].
  - apply Hzero; [lia|lia|done].
Qed.

(** ** first *)

Lemma ulongs_get_rd s x : wf s -> 0 <= x < ulongs_count s -> ulongs_get s x = Some (rd s x).
Proof.
  intros Hs Hx. rewrite ulongs_get_ok; [by rewrite nthw_rd by lia|by apply wf_array|].
  destruct (wf_array _ Hs). lia.
Qed.

Lemma first_ok s :
  wf s -> int_sized s -> returns (hwloc_bitmap_first s) (is_first s).
Proof.
  intros Hs Hsz. unfold hwloc_bitmap_first. pose proof (wf_count _ Hs) as Hc. unfold int_sized in Hsz.
  rewrite count_bits_small, s32_small by (done || lia).
  match goal with |- context [search_up _ _ ?f] =>
    destruct (search_first_ok (rd s) 0 (Z.to_nat (ulongs_count s)) f) as (o & -> & Ho) end;
    [lia|lia| |].
  { intros x Hx. rewrite ulongs_get_rd by (done || lia). split; [apply rd_word; [done|lia]|done]. }
  simpl. rewrite Z.add_0_l, Z2Nat.id in Ho by lia. destruct o as [r|].
  - destruct Ho as (Hr & Hb & Hl). apply returns_ret. right. split_and!; [lia|done|].
    intros i Hi. apply Hl. lia.
  - destruct (infinite s) eqn:Hinf; apply returns_ret; [right|left].
    + split_and!; [lia|by rewrite mem_infinite by lia|]. intros i Hi. apply Ho. lia.
    + split; [done|]. intros i Hi. destruct (Z.lt_ge_cases i (64 * ulongs_count s)); [apply Ho; lia|].
      by rewrite mem_infinite by lia.
Qed.

(** ** next *)

(** The words [next] searches: the bits up to [prev] of their word are masked. *)
Definition masked_rd s (prev x : Z) : Z :=
  if (0 <=? prev) && (prev / 64 =? x)
  then Z.land (rd s x) (ulnot (HWLOC_SUBBITMAP_ULBIT_TO (prev mod 64))) else rd s x.

Lemma masked_vbit s prev i :
  -1 <= prev -> prev / 64 <= i / 64 -> 0 <= i ->
  vbit (masked_rd s prev) i = (prev <? i) && mem s i.
Proof.
  intros Hp Hi Hi0. unfold vbit, masked_rd, mem. divmod64 i. divmod64 prev.
  destruct (Z.leb_spec 0 prev); simpl.
  - destruct (Z.eqb_spec (prev / 64) (i / 64)) as [Heq|Hne].
    + rewrite Z.land_spec, bit_ulnot, bit_to by lia. rewrite andb_comm. f_equal. lia.
    + rewrite (proj2 (Z.ltb_lt prev i)) by lia. done.
  - rewrite (proj2 (Z.ltb_lt prev i)) by lia. done.
Qed.

Lemma next_ok s prev :
  wf s -> int_sized s -> -1 <= prev < INT_MAX ->
  returns (hwloc_bitmap_next s prev) (is_first_from s (prev + 1)).
Proof.
  intros Hs Hsz Hp. unfold hwloc_bitmap_next, HWLOC_SUBBITMAP_INDEX, HWLOC_BITS_PER_LONG,
    HWLOC_SUBBITMAP_CPU_ULBIT, INT_MAX in *.
  pose proof (wf_count _ Hs) as Hc. unfold int_sized in Hsz. divmod64 (prev + 1).
  rewrite (proj2 (Z.ltb_lt _ _)), count_bits_small, (s32_small (64 * _)) by (done || lia).
  rewrite Z.quot_div_nonneg, u32_small by lia. set (i0 := (prev + 1) / 64) in *.
  destruct (Z.leb_spec (ulongs_count s) i0) as [Hge|Hlt].
  { destruct (infinite s) eqn:Hinf; apply returns_ret; [right|left]; split_and!; try done; try lia.
    - by rewrite mem_infinite by lia.
    - intros i Hi. by rewrite mem_infinite by lia. }
  assert (0 <= i0) by (apply Z.div_pos; lia).
  assert (Hvb : forall i, 64 * i0 <= i -> vbit (masked_rd s prev) i = (prev <? i) && mem s i).
  { intros i Hi. apply masked_vbit; [lia| |lia]. divmod64 i. divmod64 prev. lia. }
  match goal with |- context [search_up _ _ ?f] =>
    destruct (search_first_ok (masked_rd s prev) i0 (Z.to_nat (ulongs_count s - i0)) f)
      as (o & -> & Ho) end; [lia|lia| |].
  { intros x Hx. rewrite ulongs_get_rd by (done || lia).
    assert (word (rd s x)) by (apply rd_word; [done|lia]). split; [|done].
    unfold masked_rd. destruct (_ && _); [by apply word_land|done]. }
  simpl. rewrite Z2Nat.id in Ho by lia. replace (i0 + (ulongs_count s - i0)) with (ulongs_count s) in Ho by lia.
  assert (Hbelow : forall i, prev + 1 <= i -> 64 * i0 <= i) by lia.
  assert (Hconv : forall i, prev + 1 <= i -> vbit (masked_rd s prev) i = mem s i).
  { intros i Hi. rewrite Hvb by lia. by rewrite (proj2 (Z.ltb_lt prev i)) by lia. }
  destruct o as [r|].
  - destruct Ho as (Hr & Hb & Hl). apply returns_ret. right.
    assert (prev < r).
    { rewrite Hvb in Hb by lia. apply andb_true_iff in Hb as [Hb _]. lia. }
    rewrite Hconv in Hb by lia. split_and!; [lia|done|]. intros i Hi.
    rewrite <- Hconv by lia. apply Hl. lia.
  - destruct (infinite s) eqn:Hinf; apply returns_ret; [right|left].
    + split_and!; [lia|by rewrite mem_infinite by lia|]. intros i Hi.
      rewrite <- Hconv by lia. apply Ho. lia.
    + split; [done|]. intros i Hi. destruct (Z.lt_ge_cases i (64 * ulongs_count s)).
      * rewrite <- Hconv by lia. apply Ho. lia.
      * by rewrite mem_infinite by lia.
Qed.

(** ** last *)

Lemma word_last_ok w :
  word w -> w <> 0 ->
  let k := hwloc_flsl w - 1 in
  0 <= k < 64 /\ Z.testbit w k = true /\ forall j, k < j -> Z.testbit w j = false.
Proof.
  intros Hw Hnz. unfold word in Hw. rewrite hwloc_flsl_spec by lia.
  replace (Z.log2 w + 1 - 1) with (Z.log2 w) by lia. simpl.
  pose proof (Z.log2_nonneg w). assert (Z.log2 w < 64) by (apply Z.log2_lt_pow2; lia).
  split_and!; [done|done|apply Z.bit_log2; lia|]. intros j Hj. apply Z.bits_above_log2; lia.
Qed.

Lemma zero_word_mem s x i : rd s x = 0 -> 64 * x <= i < 64 * x + 64 -> mem s i = false.
Proof.
  intros Hz Hi. replace i with (64 * x + (i - 64 * x)) by lia.
  rewrite mem_word, Hz by lia. apply Z.testbit_0_l.
Qed.

Lemma zero_words_mem s lo hi :
  (forall x, lo <= x < hi -> rd s x = 0) -> forall i, 64 * lo <= i < 64 * hi -> mem s i = false.
Proof.
  intros Hz i Hi. divmod64 i. apply (zero_word_mem s (i / 64)); [apply Hz|]; lia.
Qed.

Lemma last_ok s :
  wf s -> returns (hwloc_bitmap_last s) (fun r =>
    if infinite s then r = -1 else is_last s r).
Proof.
  intros Hs. unfold hwloc_bitmap_last. pose proof (wf_count _ Hs) as Hc.
  destruct (infinite s) eqn:Hinf; [by apply returns_ret|].
  match goal with |- context [search_down ?n ?f] =>
    assert (Hf : forall x, 0 <= x < ulongs_count s -> f x =
      Some (if negb (rd s x =? 0) then Some (hwloc_flsl (rd s x) - 1 + 64 * x) else None));
    [intros x Hx; by rewrite ulongs_get_rd by done|];
    destruct (search_down_total n f) as (o & -> & Ho) end.
  { intros x Hx. rewrite Hf by lia. eauto. }
  simpl. apply returns_ret. rewrite Z2Nat.id in Ho by lia.
  destruct o as [r|]; simpl.
  - destruct Ho as (x & Hx & Hv & Hy). rewrite Hf in Hv by lia.
    destruct (Z.eqb_spec (rd s x) 0) as [|Hnz]; [done|]. injection Hv as <-.
    destruct (word_last_ok (rd s x)) as (Hk & Hb & Hh); [apply rd_word; [done|lia]|done|].
    right. set (k := hwloc_flsl (rd s x) - 1) in *.
    replace (k + 64 * x) with (64 * x + k) by lia. rewrite mem_word by done.
    split_and!; [lia|done|]. intros i Hi.
    destruct (Z.lt_ge_cases i (64 * x + 64)).
    + replace i with (64 * x + (i - 64 * x)) by lia. rewrite mem_word by lia. apply Hh. lia.
    + destruct (Z.lt_ge_cases i (64 * ulongs_count s)); [|by rewrite mem_infinite by lia].
      apply (zero_words_mem s (x + 1) (ulongs_count s)); [|lia]. intros y Hy0.
      specialize (Hy y ltac:(lia)). rewrite Hf in Hy by lia. by destruct (Z.eqb_spec (rd s y) 0).
  - left. split; [done|]. intros i Hi.
    destruct (Z.lt_ge_cases i (64 * ulongs_count s)); [|by rewrite mem_infinite by lia].
    apply (zero_words_mem s 0 (ulongs_count s)); [|lia]. intros y Hy0.
    specialize (Ho y ltac:(lia)). rewrite Hf in Ho by lia. by destruct (Z.eqb_spec (rd s y) 0).
Qed.

(** ** weight *)

(** The number of members of [s] in [lo, lo + n). *)
Definition count_members s (lo n : Z) : Z :=
  Z.of_nat (length (filter (fun i => mem s i = true) (seqZ lo n))).

Lemma count_members_app s lo n m :
  0 <= n -> 0 <= m -> count_members s lo (n + m) = count_members s lo n + count_members s (lo + n) m.
Proof. intros. unfold count_members. rewrite seqZ_app, filter_app, length_app by done. lia. Qed.

Lemma count_members_one s i : count_members s i 1 = Z.b2z (mem s i).
Proof.
  unfold count_members. rewrite seqZ_cons, seqZ_nil, filter_cons by lia.
  destruct (mem s i); done.
Qed.

Lemma popcount_members s x n :
  (n <= 64)%nat -> popcount n (rd s x) = count_members s (64 * x) (Z.of_nat n).
Proof.
  intros Hn. induction n as [|n IH]; [done|]. cbn [popcount]. rewrite IH by lia.
  replace (Z.of_nat (S n)) with (Z.of_nat n + 1) by lia.
  by rewrite count_members_app, count_members_one, mem_word by lia.
Qed.

Lemma weight_ok s :
  wf s -> returns (hwloc_bitmap_weight s) (fun r =>
    r = if infinite s then -1 else count_members s 0 (64 * ulongs_count s)).
Proof.
  intros Hs. unfold hwloc_bitmap_weight. pose proof (wf_count _ Hs) as Hc.
  destruct (infinite s); [by apply returns_ret|].
  eapply returns_mono; [apply (for_up_inv (fun i w => w = count_members s 0 (64 * i)))|].
  - done.
  - intros i w Hi ->. rewrite ulongs_get_rd by (done || lia). simpl. eexists. split; [done|].
    rewrite hwloc_weight_long_spec by (apply rd_word; [done|lia]).
    rewrite popcount_members by lia.
    replace (64 * (i + 1)) with (64 * i + 64) by lia. rewrite count_members_app by lia.
    by rewrite Z.add_0_l.
  - simpl. intros r ->. f_equal. lia.
Qed.

(** ** singlify *)

Section Singlify.
Context `{MallocTotal}.

(** After the words below [i]: either none had a bit, or the first member [f]
    is found and is the only one left below [64 * i]. *)
Definition singlify_inv s (i : Z) (p : hwloc_bitmap_s * bool) : Prop :=
  let '(set, found) := p in
  same_shape s set /\ (forall j, i <= j -> nthw set j = nthw s j) /\
  if (found : bool) then
    exists f, is_first s f /\ 0 <= f < 64 * i /\ forall j, 0 <= j < i ->
      word (nthw set j) /\ forall k, 0 <= k < 64 -> Z.testbit (nthw set j) k = (64 * j + k =? f)
  else forall j, 0 <= j < i -> nthw set j = 0 /\ rd s j = 0.

Lemma singlify_first s i :
  wf s -> 0 <= i -> rd s i <> 0 -> (forall j, 0 <= j < i -> rd s j = 0) ->
  is_first s (64 * i + (hwloc_ffsl (rd s i) - 1)).
Proof.
  intros Hs Hi Hnz Hz. destruct (hwloc_ffsl_spec (rd s i)) as (Hr & Hb & Hl);
    [by apply rd_word|done|]. right. rewrite mem_word by lia. split_and!; [lia|done|].
  intros j Hj. destruct (Z.lt_ge_cases j (64 * i)); [by apply (zero_words_mem s 0 i); [|lia]|].
  replace j with (64 * i + (j - 64 * i)) by lia. rewrite mem_word by lia. apply Hl. lia.
Qed.

Lemma singlify_step s i set found :
  wf s -> 0 <= i < ulongs_count s -> singlify_inv s i (set, found) ->
  returns (if (found : bool) then
             let! set := ulongs_set set i HWLOC_SUBBITMAP_ZERO in Some (set, found)
           else
             let! w := ulongs_get set i in
             if negb (w =? 0) then
               let! set := ulongs_set set i (HWLOC_SUBBITMAP_CPU (hwloc_ffsl w - 1)) in
               Some (set, true)
             else Some (set, found)) (singlify_inv s (i + 1)).
Proof.
  intros Hs Hi (Hsh & Hrest & Hfound). pose proof (wf_array _ Hs) as Harr.
  assert (Harr' := array_ok_shape _ _ Hsh Harr).
  assert (Hal : i < ulongs_allocated set) by (destruct Hsh as (?&->&?), Harr; lia).
  assert (Hnext : forall v set', same_shape set set' ->
    (forall j, 0 <= j -> nthw set' j = if j =? i then v else nthw set j) ->
    same_shape s set' /\ forall j, i + 1 <= j -> nthw set' j = nthw s j).
  { intros v set' Hsh' Hw. split; [by transitivity set|]. intros j Hj.
    rewrite Hw, (proj2 (Z.eqb_neq j i)) by lia. apply Hrest. lia. }
  destruct found.
  - eapply returns_bind; [apply ulongs_set_ok; [done|lia]|]. intros set' (Hsh' & Hw).
    apply returns_ret. destruct (Hnext _ _ Hsh' Hw) as [? ?]. split_and!; [done..|].
    destruct Hfound as (f & Hf & Hfi & Hj). exists f. split_and!; [done|lia|lia|].
    intros j Hj'. rewrite Hw by lia. destruct (Z.eqb_spec j i) as [->|]; [|apply Hj; lia].
    split; [apply word_zero|]. intros k Hk. rewrite Z.testbit_0_l. symmetry. apply Z.eqb_neq. lia.
  - rewrite ulongs_get_ok by (done || lia). simpl.
    rewrite (Hrest i), nthw_rd by lia. destruct (Z.eqb_spec (rd s i) 0) as [Hz|Hnz]; simpl.
    + apply returns_ret. split_and!; [done|intros; apply Hrest; lia|].
      intros j Hj. destruct (Z.eq_dec j i) as [->|]; [|apply Hfound; lia].
      by rewrite Hrest, nthw_rd by lia.
    + eapply returns_bind; [apply ulongs_set_ok; [done|lia]|]. intros set' (Hsh' & Hw).
      apply returns_ret. destruct (Hnext _ _ Hsh' Hw) as [? ?]. split_and!; [done..|].
      destruct (hwloc_ffsl_spec (rd s i)) as (Hr & _); [apply rd_word; [done|lia]|done|].
      exists (64 * i + (hwloc_ffsl (rd s i) - 1)).
      split_and!; [apply singlify_first; try done; [lia|]|lia|lia|].
      { intros j Hj. by apply Hfound. }
      intros j Hj. rewrite Hw by lia. destruct (Z.eqb_spec j i) as [->|].
      * split; [apply word_ulbit|]. intros k Hk.
        rewrite bit_cpu, Z.mod_small by lia. lia.
      * destruct (Hfound j) as [-> _]; [lia|]. split; [apply word_zero|].
        intros k Hk. rewrite Z.testbit_0_l. lia.
Qed.

Lemma singlify_ok s :
  wf s -> ulongs_count s < MAX_COUNT - 1 ->
  returns (hwloc_bitmap_singlify s) (fun r => wf r /\ infinite r = false /\
    exists f, is_first s f /\ forall i, 0 <= i -> mem r i = (i =? f)).
Proof.
  intros Hs Hmax. unfold hwloc_bitmap_singlify. pose proof (wf_count _ Hs) as Hc.
  eapply returns_bind.
  { apply (for_up_inv (singlify_inv s)).
    - split_and!; [done|done|lia].
    - intros i [set found] Hi Hinv. apply (singlify_step s i set found Hs); [lia|done]. }
  intros [set found]. rewrite Z.add_0_l, Z2Nat.id by lia. intros (Hsh & _ & Hfound).
  assert (Harr := array_ok_shape _ _ Hsh (wf_array _ Hs)).
  destruct Hsh as (Hcs & _ & Hinf & _).
  assert (Hfin : forall f, is_first s f -> f < 64 * ulongs_count s ->
    (forall j, 0 <= j < ulongs_count s -> word (nthw set j) /\
       forall k, 0 <= k < 64 -> Z.testbit (nthw set j) k = (64 * j + k =? f)) ->
    wf (set_infinite set false) /\
    forall i, 0 <= i -> mem (set_infinite set false) i = (i =? f)).
  { intros f Hf Hlt Hj. apply (set_intro _ (nthw set)); simpl.
    - destruct Harr; by split.
    - lia.
    - intros x Hx. split; [done|]. apply Hj. lia.
    - intros x k Hx Hk. apply Hj; lia.
    - intros i Hi. symmetry. apply Z.eqb_neq. lia. }
  rewrite Hinf. destruct found.
  - destruct Hfound as (f & Hf & Hfi & Hj).
    destruct (Hfin f Hf ltac:(lia) Hj) as [Hwf Hmem].
    destruct (infinite s) eqn:Hi; apply returns_ret.
    + split_and!; [done|done|eauto].
    + rewrite (set_infinite_id set false) in * by congruence. split_and!; [done|congruence|eauto].
  - assert (Hzero : forall i, 0 <= i < 64 * ulongs_count s -> mem s i = false)
      by (apply (zero_words_mem s 0); intros; by apply Hfound).
    destruct (infinite s) eqn:Hi.
    + assert (Hf : is_first s (64 * ulongs_count s)).
      { right. split_and!; [lia|by rewrite mem_infinite by lia|done]. }
      assert (Hset0 : wf (set_infinite set false) /\
        forall i, 0 <= i -> mem (set_infinite set false) i = false).
      { apply (set_intro _ (fun _ => 0)); simpl; [destruct Harr; by split|lia| | |done].
        - intros x Hx. split; [|apply word_zero]. destruct (Hfound x) as [Hz _]; [lia|done].
        - intros. apply Z.testbit_0_l. }
      destruct Hset0 as [Hwf0 Hm0]. unfold count_bits. rewrite Hcs.
      unfold HWLOC_BITS_PER_LONG, MAX_COUNT in *. rewrite u32_small by lia.
      eapply returns_mono; [apply set_ok; [done|unfold MAX_CPU, MAX_COUNT; lia]|].
      intros r (Hwf & Hir & _ & Hmem). split_and!; [done|done|].
      exists (64 * ulongs_count s). split; [done|]. intros i Hi0. rewrite Hmem, Hm0 by done.
      rewrite orb_false_r. f_equal. lia.
    + assert (Hf : is_first s (-1)).
      { left. split; [done|]. intros i Hi0. destruct (Z.lt_ge_cases i (64 * ulongs_count s)); [auto|].
        by rewrite mem_infinite by lia. }
      destruct (Hfin (-1) Hf ltac:(lia)) as [Hwf Hmem].
      { intros j Hj. destruct (Hfound j Hj) as [-> _]. split; [apply word_zero|].
        intros k Hk. rewrite Z.testbit_0_l. lia. }
      apply returns_ret. rewrite (set_infinite_id set false) in * by congruence.
      split_and!; [done|congruence|eauto].
Qed.

End Singlify.

(** ** The comparison functions *)

(** [s] comes before [t] by first member; an empty set comes last. *)
Definition first_before s t : Prop :=
  exists i, 0 <= i /\ mem s i = true /\ forall j, 0 <= j <= i -> mem t j = false.

(** The sign of a comparison result agrees with an order. *)
Definition sign_of (lt : hwloc_bitmap_s -> hwloc_bitmap_s -> Prop) s t (r : Z) : Prop :=
  (r < 0 <-> lt s t) /\ (0 < r <-> lt t s).

Lemma first_before_asym s t : first_before s t -> first_before t s -> False.
Proof.
  intros (i & Hi & Hsi & Hti) (j & Hj & Htj & Hsj).
  destruct (Z.le_ge_cases i j).
  - rewrite Hsj in Hsi by lia. done.
  - rewrite Hti in Htj by lia. done.
Qed.

(** The first word in which one of the two has a member decides. *)
Lemma compare_first_word s t x :
  wf s -> wf t -> 0 <= x ->
  (forall y, 0 <= y < x -> rd s y = 0 /\ rd t y = 0) ->
  let a := hwloc_ffsl (rd s x) in let b := hwloc_ffsl (rd t x) in
  rd s x <> 0 -> (rd t x = 0 \/ a < b) -> first_before s t.
Proof.
  intros Hs Ht Hx Hz. simpl. intros Hnz Hcmp.
  destruct (hwloc_ffsl_spec (rd s x)) as (Hr & Hb & Hl); [by apply rd_word|done|].
  exists (64 * x + (hwloc_ffsl (rd s x) - 1)). rewrite mem_word by lia.
  split_and!; [lia|done|]. intros j Hj.
  destruct (Z.lt_ge_cases j (64 * x)).
  { apply (zero_words_mem t 0 x); [|lia]. intros y Hy. by apply Hz. }
  destruct Hcmp as [Ht0|Hlt]; [apply (zero_word_mem t x); [done|lia]|].
  replace j with (64 * x + (j - 64 * x)) by lia. rewrite mem_word by lia.
  destruct (decide (rd t x = 0)) as [->|Hnzt]; [apply Z.testbit_0_l|].
  destruct (hwloc_ffsl_spec (rd t x)) as (_ & _ & Hlt'); [by apply rd_word|done|].
  apply Hlt'. lia.
Qed.

Lemma same_first_word s t x :
  wf s -> wf t -> 0 <= x -> rd s x <> 0 -> rd t x <> 0 ->
  (forall y, 0 <= y < x -> rd s y = 0 /\ rd t y = 0) ->
  hwloc_ffsl (rd s x) = hwloc_ffsl (rd t x) -> ~ first_before s t.
Proof.
  intros Hs Ht Hx Hnzs Hnzt Hz Heq (i & Hi & Hsi & Hti).
  destruct (hwloc_ffsl_spec (rd s x)) as (Hr & _ & Hl); [by apply rd_word|done|].
  destruct (hwloc_ffsl_spec (rd t x)) as (_ & Hb & _); [by apply rd_word|done|].
  rewrite <- Heq in Hb. set (k := hwloc_ffsl (rd s x) - 1) in *.
  destruct (Z.lt_ge_cases i (64 * x + k)).
  - enough (mem s i = false) by congruence. destruct (Z.lt_ge_cases i (64 * x)).
    + apply (zero_words_mem s 0 x); [|lia]. intros y Hy. by apply Hz.
    + replace i with (64 * x + (i - 64 * x)) by lia. rewrite mem_word by lia. apply Hl. lia.
  - specialize (Hti (64 * x + k) ltac:(lia)). rewrite mem_word in Hti by lia. congruence.
Qed.

Lemma ffsl_zero_iff w : word w -> hwloc_ffsl w = 0 <-> w = 0.
Proof.
  intros Hw. split; [|intros ->; done]. intros H0. destruct (decide (w = 0)); [done|].
  destruct (hwloc_ffsl_spec w Hw) as (Hr & _); [done|lia].
Qed.

(** [compare_first] orders by first member, empty last, when the infinite
    flags agree. *)
Lemma compare_first_ok s t :
  wf s -> wf t -> infinite s = infinite t ->
  returns (hwloc_bitmap_compare_first s t) (sign_of first_before s t).
Proof.
  intros Hs Ht Hinf. unfold hwloc_bitmap_compare_first.
  pose proof (wf_count _ Hs). pose proof (wf_count _ Ht).
  match goal with |- context [search_words s t ?n ?b] =>
    destruct (search_words_ok s t n b) as (o & -> & Hspec) end; [done|done|unfold max_count; lia|].
  simpl. destruct o as [v|].
  - destruct Hspec as (x & Hx & Hv & Hy). apply returns_ret.
    assert (Hz : forall y, 0 <= y < x -> rd s y = 0 /\ rd t y = 0).
    { intros y Hy0. specialize (Hy y Hy0).
      destruct (Z.eqb_spec (rd s y) 0), (Z.eqb_spec (rd t y) 0); done. }
    assert (Hz' : forall y, 0 <= y < x -> rd t y = 0 /\ rd s y = 0) by (intros y ?; by destruct (Hz y)).
    assert (Hws := rd_word s x Hs ltac:(lia)). assert (Hwt := rd_word t x Ht ltac:(lia)).
    pose proof (ffsl_zero_iff _ Hws) as Hzs. pose proof (ffsl_zero_iff _ Hwt) as Hzt.
    assert (Hpos : forall w, word w -> 0 <= hwloc_ffsl w).
    { intros w Hw. destruct (decide (w = 0)) as [->|]; [done|].
      destruct (hwloc_ffsl_spec w Hw) as (? & _); [done|lia]. }
    pose proof (Hpos _ Hws). pose proof (Hpos _ Hwt).
    assert (Hst := compare_first_word s t x Hs Ht ltac:(lia) Hz).
    assert (Hts := compare_first_word t s x Ht Hs ltac:(lia) Hz').
    assert (Heq1 := same_first_word s t x Hs Ht ltac:(lia)).
    assert (Heq2 := same_first_word t s x Ht Hs ltac:(lia)).
    assert (Hasym := first_before_asym s t). simpl in *.
    destruct (Z.eqb_spec (rd s x) 0) as [H0s|H0s], (Z.eqb_spec (rd t x) 0) as [H0t|H0t];
      simpl in Hv; try done; injection Hv as <-; unfold sign_of;
      destruct (Z.eqb_spec (hwloc_ffsl (rd s x)) 0), (Z.eqb_spec (hwloc_ffsl (rd t x)) 0);
      simpl; try tauto.
    + split; split; intros Hc; [lia| |tauto|lia]. exfalso. tauto.
    + split; split; intros Hc; [tauto|lia|lia|]. exfalso. tauto.
    + destruct (Z.lt_trichotomy (hwloc_ffsl (rd s x)) (hwloc_ffsl (rd t x))) as [Hlt|[Heq|Hgt]].
      * split; split; intros Hc; [tauto|lia|lia|]. exfalso. tauto.
      * split; split; intros Hc; [lia| |lia|]; exfalso; [by apply Heq1|by apply Heq2].
      * split; split; intros Hc; [lia| |tauto|lia]. exfalso. tauto.
  - rewrite Hinf, eqb_reflx. simpl. apply returns_ret.
    assert (Hsame : same_set s t).
    { apply same_set_rd. intros x Hx. destruct (Z.lt_ge_cases x (max_count s t)).
      - specialize (Hspec x ltac:(lia)).
        destruct (Z.eqb_spec (rd s x) 0), (Z.eqb_spec (rd t x) 0); try done. congruence.
      - unfold rd, max_count in *. rewrite !(proj2 (Z.ltb_ge x _)) by lia. by rewrite Hinf. }
    split; (split; [lia|]); intros (i & Hi & Hm & Hn); exfalso;
      specialize (Hn i ltac:(lia)); [rewrite Hsame in Hm by done|rewrite Hsame in Hn by done]; congruence.
Qed.

(** [s] is below [t]: they differ and [t] has the highest member that is not
    in both; the order of the sets read as binary numbers. *)
Definition numeric_below s t : Prop :=
  exists i, 0 <= i /\ mem s i = false /\ mem t i = true /\ forall j, i < j -> mem s j = mem t j.

Lemma numeric_below_asym s t : numeric_below s t -> numeric_below t s -> False.
Proof.
  intros (i & Hi & Hsi & Hti & Hs) (j & Hj & Htj & Hsj & Ht).
  destruct (Z.lt_trichotomy i j) as [Hlt|[->|Hlt]].
  - rewrite Hs in Hsj by done. congruence.
  - congruence.
  - rewrite Ht in Hti by done. congruence.
Qed.

Lemma numeric_below_ne s t : numeric_below s t -> same_set s t \/ same_set t s -> False.
Proof.
  intros (i & Hi & H1 & H2 & _) [Heq|Heq]; specialize (Heq i Hi); congruence.
Qed.

(** Comparison of two words by their highest differing bit. *)
Lemma word_lt_bit x y k :
  0 <= x -> 0 <= y -> 0 <= k -> Z.testbit x k = false -> Z.testbit y k = true ->
  (forall j, k < j -> Z.testbit x j = Z.testbit y j) -> x < y.
Proof.
  intros Hx Hy Hk Hbx Hby Hhigh.
  assert (Hq : x / 2 ^ (k + 1) = y / 2 ^ (k + 1)).
  { apply Z.bits_inj'. intros j Hj. rewrite !Z.div_pow2_bits by lia. apply Hhigh. lia. }
  assert (Hlow : forall z, 0 <= z ->
    z mod 2 ^ (k + 1) = z mod 2 ^ k + 2 ^ k * Z.b2z (Z.testbit z k)).
  { intros z Hz. rewrite Z.pow_add_r, Z.rem_mul_r by lia. f_equal. f_equal.
    rewrite <- Z.bit0_mod, Z.div_pow2_bits by lia. done. }
  pose proof (Z.div_mod x (2 ^ (k + 1)) ltac:(lia)) as Hdx.
  pose proof (Z.div_mod y (2 ^ (k + 1)) ltac:(lia)) as Hdy.
  rewrite (Hlow x Hx), Hbx in Hdx. rewrite (Hlow y Hy), Hby in Hdy. rewrite Hq in Hdx.
  pose proof (Z.mod_pos_bound x (2 ^ k) ltac:(lia)).
  pose proof (Z.mod_pos_bound y (2 ^ k) ltac:(lia)). simpl Z.b2z in *. lia.
Qed.

Lemma word_lt_highest x y :
  word x -> word y -> x < y -> exists k, 0 <= k < 64 /\ Z.testbit x k = false /\
    Z.testbit y k = true /\ forall j, k < j -> Z.testbit x j = Z.testbit y j.
Proof.
  intros Hx Hy Hlt. assert (Hd : word (Z.lxor x y)) by auto with hwloc.
  assert (Hnz : Z.lxor x y <> 0) by (rewrite Z.lxor_eq_0_iff; lia).
  destruct (word_last_ok _ Hd Hnz) as (Hk & Hb & Hh). set (k := hwloc_flsl (Z.lxor x y) - 1) in *.
  assert (Hhigh : forall j, k < j -> Z.testbit x j = Z.testbit y j).
  { intros j Hj. specialize (Hh j Hj). rewrite Z.lxor_spec in Hh.
    by destruct (Z.testbit x j), (Z.testbit y j). }
  rewrite Z.lxor_spec in Hb. exists k. split; [done|].
  destruct (Z.testbit x k) eqn:Hxk, (Z.testbit y k) eqn:Hyk; try done.
  assert (y < x); [|lia]. unfold word in *.
  apply (word_lt_bit y x k); try done; try lia. intros. by rewrite Hhigh.
Qed.

Lemma compare_word_below s t x :
  wf s -> wf t -> 0 <= x -> rd s x < rd t x -> (forall y, x < y -> rd s y = rd t y) ->
  numeric_below s t.
Proof.
  intros Hs Ht Hx Hlt Hhigh.
  destruct (word_lt_highest (rd s x) (rd t x)) as (k & Hk & Hbs & Hbt & Hh);
    [by apply rd_word..|done|].
  exists (64 * x + k). rewrite !mem_word by done. split_and!; [lia|done|done|].
  intros j Hj. destruct (Z.lt_ge_cases j (64 * x + 64)).
  - replace j with (64 * x + (j - 64 * x)) by lia. rewrite !mem_word by lia. apply Hh. lia.
  - unfold mem. divmod64 j. rewrite Hhigh by lia. done.
Qed.

(** [compare] orders the sets as binary numbers; an infinite set is above any
    finite one. *)
Lemma compare_ok s t :
  wf s -> wf t -> returns (hwloc_bitmap_compare s t) (fun r =>
    (if eqb (infinite s) (infinite t) then sign_of numeric_below s t r
     else r = if infinite s then 1 else -1) /\ (r = 0 <-> same_set s t)).
Proof.
  intros Hs Ht. unfold hwloc_bitmap_compare, infinite_diff.
  pose proof (wf_count _ Hs). pose proof (wf_count _ Ht).
  destruct (eqb (infinite s) (infinite t)) eqn:Hinf.
  2:{ assert (Hne : ~ same_set s t).
      { intros Heq. specialize (Heq (64 * max_count s t)). unfold max_count in Heq.
        rewrite !mem_infinite in Heq by lia. rewrite Heq, eqb_reflx in Hinf by lia. done. }
      destruct (infinite s), (infinite t); try done; by apply returns_ret. }
  apply eqb_prop in Hinf. rewrite Hinf, eqb_reflx. simpl.
  set (largest := if ulongs_count t <? ulongs_count s then s else t).
  assert (Hlargest : ulongs_count largest = max_count s t).
  { unfold largest, max_count. case_tests; lia. }
  match goal with |- context [search_down ?n ?f] =>
    assert (Hf : forall x, 0 <= x -> f x =
      Some (if rd s x =? rd t x then None else Some (if rd s x <? rd t x then -1 else 1)));
    [intros x Hx; by rewrite !READULONG_ok by (by try apply wf_array)|];
    destruct (search_down_total n f) as (o & -> & Ho) end.
  { intros x Hx. rewrite Hf by lia. eauto. }
  simpl. apply returns_ret. rewrite Hlargest, Z2Nat.id in Ho by (unfold max_count; lia).
  assert (Hrest : forall y, max_count s t <= y -> rd s y = rd t y).
  { intros y Hy. unfold rd, max_count in *. rewrite !(proj2 (Z.ltb_ge y _)) by lia. by rewrite Hinf. }
  assert (Heq : forall y, 0 <= y -> Some (if rd s y =? rd t y then None else
      Some (if rd s y <? rd t y then -1 else 1)) = Some None -> rd s y = rd t y).
  { intros y _ Hy. by destruct (Z.eqb_spec (rd s y) (rd t y)). }
  assert (Hasym := numeric_below_asym s t).
  destruct o as [v|]; simpl.
  - destruct Ho as (x & Hx & Hv & Hy). rewrite Hf in Hv by lia.
    assert (Hhigh : forall y, x < y -> rd s y = rd t y).
    { intros y Hxy. destruct (Z.lt_ge_cases y (max_count s t)); [|auto].
      apply Heq; [lia|]. rewrite <- Hf by lia. apply Hy. lia. }
    destruct (Z.eqb_spec (rd s x) (rd t x)); [done|]. injection Hv as <-.
    destruct (Z.ltb_spec (rd s x) (rd t x)).
    + assert (Hbelow : numeric_below s t) by (apply (compare_word_below s t x); done || lia).
      assert (~ same_set s t) by (intros Hst; eapply numeric_below_ne; eauto).
      split; [split; split; intros; try done; tauto|done].
    + assert (Hbelow : numeric_below t s).
      { apply (compare_word_below t s x); [done|done|lia|lia|]. intros. by rewrite Hhigh. }
      assert (~ same_set s t) by (intros Hst; eapply numeric_below_ne; eauto).
      split; [split; split; intros; try done; tauto|done].
  - assert (Hsame : same_set s t).
    { apply same_set_rd. intros y Hy. destruct (Z.lt_ge_cases y (max_count s t)); [|auto].
      apply Heq; [done|]. rewrite <- Hf by lia. apply Ho. lia. }
    split; [|done].
    split; (split; [lia|]); intros Hb; exfalso; eapply numeric_below_ne; eauto.
Qed.

(** An infinite set with clear words against an empty set. *)
Lemma compare_first_empty s t :
  wf s -> wf t -> infinite s = true -> infinite t = false ->
  (forall i, 0 <= i < 64 * max_count s t -> mem s i = false /\ mem t i = false) ->
  hwloc_bitmap_compare_first s t = Some 1.
Proof.
  intros Hs Ht His Hit Hnone. unfold hwloc_bitmap_compare_first.
  pose proof (wf_count _ Hs). pose proof (wf_count _ Ht).
  assert (Hz : forall x, 0 <= x < max_count s t -> rd s x = 0 /\ rd t x = 0).
  { intros x Hx. assert (word 0) by (unfold word; lia).
    split; (apply word_ext; [by apply rd_word; [|lia]|done|]); intros k Hk;
      rewrite Z.testbit_0_l, <- mem_word by done; apply Hnone; lia. }
  match goal with |- context [search_words s t ?n ?b] =>
    destruct (search_words_ok s t n b) as (o & -> & Hspec) end; [done|done|unfold max_count; lia|].
  destruct o as [v|].
  - destruct Hspec as (x & Hx & Hv & _). destruct (Hz x Hx) as [Hzs Hzt].
    by rewrite Hzs, Hzt in Hv.
  - simpl. unfold infinite_diff. by rewrite His, Hit.
Qed.
