(* ===== verification/BitmapModel.v ===== *)
(** * BitmapModel: the abstract specification of the bitmap API

    The promise of [include/hwloc/bitmap.h] is that a bitmap is a possibly
    infinite set of non-negative integers.  [bop] is the type of the calls that
    modify a bitmap, [bstep] runs the code of [src/cpuset.c], [astep] is the
    effect on the set.  [foreach] is the loop of [hwloc_bitmap_foreach_begin]. *)

From Stdlib Require Import Sorted.
From S2P Require Import Prelude Misc Bitmap BitmapSpec BitmapOps BitmapTests.

(** ** Calls *)

Inductive bop :=
  | OpZero
  | OpFill
  | OpOnly (cpu : Z)
  | OpAllbut (cpu : Z)
  | OpFromIth (i mask : Z)
  | OpSet (cpu : Z)
  | OpSetIth (i mask : Z)
  | OpSetRange (begincpu endcpu : Z)
  | OpClr (cpu : Z)
  | OpClrRange (begincpu endcpu : Z)
  | OpCopy (src : hwloc_bitmap_s)
  | OpOr (a b : operand)
  | OpAnd (a b : operand)
  | OpAndnot (a b : operand)
  | OpXor (a b : operand)
  | OpNot (a : operand).

Definition bstep `{Malloc} (op : bop) (s : hwloc_bitmap_s) : option hwloc_bitmap_s :=
  match op with
  | OpZero => hwloc_bitmap_zero s
  | OpFill => hwloc_bitmap_fill s
  | OpOnly cpu => hwloc_bitmap_only s cpu
  | OpAllbut cpu => hwloc_bitmap_allbut s cpu
  | OpFromIth i mask => hwloc_bitmap_from_ith_ulong s i mask
  | OpSet cpu => hwloc_bitmap_set s cpu
  | OpSetIth i mask => hwloc_bitmap_set_ith_ulong s i mask
  | OpSetRange b e => hwloc_bitmap_set_range s b e
  | OpClr cpu => hwloc_bitmap_clr s cpu
  | OpClrRange b e => hwloc_bitmap_clr_range s b e
  | OpCopy src => hwloc_bitmap_copy s src
  | OpOr a b => hwloc_bitmap_or s a b
  | OpAnd a b => hwloc_bitmap_and s a b
  | OpAndnot a b => hwloc_bitmap_andnot s a b
  | OpXor a b => hwloc_bitmap_xor s a b
  | OpNot a => hwloc_bitmap_not s a
  end.

Fixpoint brun `{Malloc} (ops : list bop) (s : hwloc_bitmap_s) : option hwloc_bitmap_s :=
  match ops with
  | [] => Some s
  | op :: ops => let! s := bstep op s in brun ops s
  end.

(** ** Their effect on the set *)

Definition aval (A : Z -> bool) (o : operand) : Z -> bool :=
  match o with Same => A | Other t => mem t end.

Definition astep (op : bop) (A : Z -> bool) : Z -> bool := fun i =>
  match op with
  | OpZero => false
  | OpFill => true
  | OpOnly cpu => i =? cpu
  | OpAllbut cpu => negb (i =? cpu)
  | OpFromIth x mask => word_mem mask x i
  | OpSet cpu => (i =? cpu) || A i
  | OpSetIth x mask => if i / 64 =? x then Z.testbit mask (i mod 64) else A i
  | OpSetRange b e => in_range b e i || A i
  | OpClr cpu => negb (i =? cpu) && A i
  | OpClrRange b e => negb (in_range b e i) && A i
  | OpCopy src => mem src i
  | OpOr a b => aval A a i || aval A b i
  | OpAnd a b => aval A a i && aval A b i
  | OpAndnot a b => aval A a i && negb (aval A b i)
  | OpXor a b => xorb (aval A a i) (aval A b i)
  | OpNot a => negb (aval A a i)
  end.

Definition arun (ops : list bop) (A : Z -> bool) : Z -> bool :=
  foldl (fun A op => astep op A) A ops.

(** The arguments a caller may pass: indexes below the last word, bounded
    ranges, other operands well formed. *)
Definition operand_ok (o : operand) : Prop :=
  match o with Same => True | Other t => wf t end.

Definition bop_ok (op : bop) : Prop :=
  match op with
  | OpZero | OpFill => True
  | OpOnly cpu | OpAllbut cpu | OpSet cpu | OpClr cpu => 0 <= cpu < MAX_CPU
  | OpFromIth i mask | OpSetIth i mask => 0 <= i < MAX_COUNT - 1 /\ word mask
  | OpSetRange b e | OpClrRange b e => 0 <= b < MAX_CPU /\ 0 <= e < MAX_CPU
  | OpCopy src => wf src
  | OpOr a b | OpAnd a b | OpAndnot a b | OpXor a b => operand_ok a /\ operand_ok b
  | OpNot a => operand_ok a
  end.

(** ** Simulation of one call *)

Lemma deref_wf s o : wf s -> operand_ok o -> wf (deref s o).
Proof. by destruct o. Qed.

Lemma deref_aval s o : mem (deref s o) = aval (mem s) o.
Proof. by destruct o. Qed.

Lemma xorb_negb_eqb a b : negb (eqb (negb a) (negb b)) = xorb a b.
Proof. by destruct a, b. Qed.

Lemma bstep_sim `{MallocTotal} op s :
  wf s -> bop_ok op ->
  returns (bstep op s) (fun r => wf r /\ forall i, 0 <= i -> mem r i = astep op (mem s) i).
Proof.
  intros Hs Hop. assert (Harr := wf_array s Hs).
  assert (Hcomb : forall h f a b, bitwise h f -> operand_ok a -> operand_ok b ->
    returns (bitmap_combine f h s a b) (fun r => wf r /\
      forall i, 0 <= i -> mem r i = h (aval (mem s) a i) (aval (mem s) b i))).
  { intros h f a b Hf Ha Hb.
    eapply returns_mono; [apply (combine_ok h f); auto using deref_wf|].
    intros r (? & _ & _ & Hm). rewrite <- !deref_aval. done. }
  destruct op; simpl in *.
  - by apply zero_any_ok.
  - by apply fill_any_ok.
  - eapply returns_mono; [by apply only_ok|]. intros r (? & _ & _ & ?); done.
  - eapply returns_mono; [by apply allbut_ok|]. intros r (? & _ & ?); done.
  - eapply returns_mono; [apply from_ith_ulong_ok; tauto|]. intros r (? & _ & ?); done.
  - eapply returns_mono; [by apply set_ok|]. intros r (? & _ & _ & ?); done.
  - eapply returns_mono; [apply set_ith_ulong_ok; tauto|]. intros r (? & _ & ?); done.
  - eapply returns_mono; [apply set_range_ok; tauto|]. intros r (? & _ & ?); done.
  - eapply returns_mono; [by apply clr_ok|]. intros r (? & _ & _ & ?); done.
  - eapply returns_mono; [apply clr_range_ok; tauto|]. intros r (? & _ & ?); done.
  - eapply returns_mono; [by apply copy_ok|]. intros r (? & _ & ?); done.
  - apply (Hcomb orb); [apply bitwise_lor|tauto..].
  - apply (Hcomb andb); [apply bitwise_land|tauto..].
  - apply (Hcomb (fun a b => a && negb b)); [apply bitwise_andnot|tauto..].
  - eapply returns_mono; [apply Hcomb; [apply bitwise_lxor|tauto..]|].
    intros r [? Hm]. split; [done|]. intros i Hi. by rewrite Hm, xorb_negb_eqb.
  - eapply returns_mono; [apply not_ok; auto using deref_wf|].
    intros r (? & _ & _ & Hm). rewrite <- deref_aval. done.
Qed.

Lemma aval_ext A B o i : (forall j, 0 <= j -> A j = B j) -> 0 <= i -> aval A o i = aval B o i.
Proof. intros HAB Hi. destruct o; [by apply HAB|done]. Qed.

Lemma astep_ext A B op :
  (forall i, 0 <= i -> A i = B i) -> forall i, 0 <= i -> astep op A i = astep op B i.
Proof.
  intros HAB i Hi. destruct op; simpl; try done; try (by rewrite HAB);
    by rewrite ?(aval_ext A B a i HAB Hi), ?(aval_ext A B b i HAB Hi).
Qed.

Lemma arun_ext ops A B :
  (forall i, 0 <= i -> A i = B i) -> forall i, 0 <= i -> arun ops A i = arun ops B i.
Proof.
  revert A B. induction ops as [|op ops IH]; intros A B HAB; [done|].
  apply IH. by apply astep_ext.
Qed.

(** ** Iteration *)

(** [hwloc_bitmap_foreach_begin(id, bitmap)]: the ids visited, [fuel] bounding
    the number of iterations. *)
Fixpoint foreach_from (fuel : nat) (s : hwloc_bitmap_s) (id : Z) : option (list Z) :=
  if u32 id =? UINT_MAX then Some [] else
  match fuel with
  | O => None
  | Datatypes.S fuel =>
      let! next := hwloc_bitmap_next s id in
      let! ids := foreach_from fuel s next in
      Some (id :: ids)
  end.

Definition hwloc_bitmap_foreach (fuel : nat) (s : hwloc_bitmap_s) : option (list Z) :=
  let! w := hwloc_bitmap_weight s in
  require! negb (w =? -1) in
  let! id := hwloc_bitmap_first s in
  foreach_from fuel s id.

(** The members in [lo, hi), in increasing order. *)
Definition members (s : hwloc_bitmap_s) (lo hi : Z) : list Z :=
  filter (fun i => mem s i = true) (seqZ lo (hi - lo)).

Lemma members_none s lo hi :
  (forall i, lo <= i < hi -> mem s i = false) -> members s lo hi = [].
Proof.
  intros Hn. unfold members. destruct (filter _ _) as [|x l] eqn:Hf; [done|].
  assert (Hx : x ∈ x :: l) by left. rewrite <- Hf in Hx.
  apply list_elem_of_filter in Hx as [Hm Hx]. apply elem_of_seqZ in Hx.
  rewrite Hn in Hm by lia. done.
Qed.

Lemma members_first s lo r hi :
  lo <= r < hi -> mem s r = true -> (forall i, lo <= i < r -> mem s i = false) ->
  members s lo hi = r :: members s (r + 1) hi.
Proof.
  intros Hr Hm Hlow. unfold members.
  replace (hi - lo) with ((r - lo) + (1 + (hi - (r + 1)))) by lia.
  rewrite seqZ_app, filter_app by lia.
  assert (Hnil := members_none s lo r Hlow). unfold members in Hnil. rewrite Hnil. simpl.
  replace (lo + (r - lo)) with r by lia. rewrite seqZ_app, seqZ_cons, seqZ_nil by lia. simpl.
  rewrite filter_cons. destruct (decide (mem s r = true)); done.
Qed.

Lemma length_members_le s lo hi : (length (members s lo hi) <= Z.to_nat (hi - lo))%nat.
Proof. unfold members. rewrite length_filter, length_seqZ. lia. Qed.

(** From a member [id] on, the loop visits the members above it. *)
Lemma foreach_from_ok s fuel id :
  wf s -> int_sized s -> infinite s = false ->
  0 <= id < 64 * ulongs_count s -> mem s id = true ->
  (length (members s id (64 * ulongs_count s)) <= fuel)%nat ->
  foreach_from fuel s id = Some (members s id (64 * ulongs_count s)).
Proof.
  intros Hs Hsz Hfin. pose proof (wf_count _ Hs) as Hc. unfold int_sized in Hsz.
  revert id. induction fuel as [|fuel IH]; intros id Hid Hm Hfuel;
    rewrite (members_first s id id) in * by (done || lia); simpl in Hfuel; [lia|].
  cbn [foreach_from]. unfold UINT_MAX in *. rewrite u32_small, (proj2 (Z.eqb_neq _ _)) by lia.
  destruct (next_ok s id Hs Hsz) as (r & -> & Hr); [unfold INT_MAX; lia|]. simpl.
  destruct Hr as [[-> Hnone]|(Hge & Hmr & Hlow)].
  - rewrite members_none by (intros; apply Hnone; lia). by destruct fuel.
  - assert (r < 64 * ulongs_count s).
    { destruct (Z.lt_ge_cases r (64 * ulongs_count s)) as [|Hr]; [done|].
      rewrite mem_infinite in Hmr by lia. congruence. }
    assert (Heq : members s (id + 1) (64 * ulongs_count s) = members s r (64 * ulongs_count s)).
    { rewrite (members_first s (id + 1) r), (members_first s r r) by (done || lia). done. }
    rewrite Heq in *. rewrite IH by (done || lia). done.
Qed.

Lemma foreach_ok s fuel :
  wf s -> int_sized s -> infinite s = false ->
  count_members s 0 (64 * ulongs_count s) <= Z.of_nat fuel ->
  hwloc_bitmap_foreach fuel s = Some (members s 0 (64 * ulongs_count s)).
Proof.
  intros Hs Hsz Hfin Hfuel. unfold hwloc_bitmap_foreach.
  pose proof (wf_count _ Hs) as Hc.
  destruct (weight_ok s Hs) as (w & -> & ->). rewrite Hfin. simpl.
  rewrite (proj2 (Z.eqb_neq _ _)) by (unfold count_members; lia). simpl.
  destruct (first_ok s Hs Hsz) as (r & -> & Hr). simpl.
  destruct Hr as [[-> Hnone]|(Hge & Hmr & Hlow)].
  - rewrite members_none by (intros; apply Hnone; lia). by destruct fuel.
  - assert (r < 64 * ulongs_count s).
    { destruct (Z.lt_ge_cases r (64 * ulongs_count s)) as [|Hr]; [done|].
      rewrite mem_infinite in Hmr by lia. congruence. }
    assert (Heq : members s 0 (64 * ulongs_count s) = members s r (64 * ulongs_count s)).
    { rewrite (members_first s 0 r), (members_first s r r) by (done || lia). done. }
    rewrite Heq. apply foreach_from_ok; try done. rewrite <- Heq.
    unfold count_members, members in *. rewrite Z.sub_0_r. lia.
Qed.

Lemma members_spec s lo hi i : i ∈ members s lo hi <-> lo <= i < hi /\ mem s i = true.
Proof.
  unfold members. rewrite list_elem_of_filter, elem_of_seqZ.
  replace (lo + (hi - lo)) with hi by lia. tauto.
Qed.

Lemma members_sorted s lo hi : StronglySorted Z.lt (members s lo hi).
Proof.
  unfold members. generalize (hi - lo). clear hi. intros n.
  destruct (Z.le_gt_cases n 0); [rewrite seqZ_nil by lia; constructor|].
  rewrite <- (Z2Nat.id n) by lia. generalize (Z.to_nat n). clear. intros n. revert lo.
  induction n as [|n IH]; intros lo; [constructor|].
  rewrite seqZ_cons, filter_cons by lia.
  replace (Z.pred (Z.of_nat (Datatypes.S n))) with (Z.of_nat n) by lia.
  destruct (decide _); [constructor|]; auto.
  apply Forall_forall. intros x Hx. apply list_elem_of_filter in Hx as [_ Hx].
  apply elem_of_seqZ in Hx. lia.
Qed.
