(* ===== verification/CString.v ===== *)
(** * CString: numbers as text, and [hwloc_snprintf]

    A C string is the list of its characters before the NUL; a buffer is a list of
    characters, NUL included.  [strtoul] and the conversions of [printf] are those
    of the C library, on 64 bits in the C locale; [hwloc_snprintf] is from
    [src/misc.c]. *)

From Stdlib Require Import Ascii String.
From S2P Require Import Prelude Misc Bitmap.

Notation chars := (list ascii).
Definition txt (s : string) : chars := list_ascii_of_string s.
Definition NUL : ascii := "000"%char.

(** ** Digits *)

Definition digit_char (d : Z) : ascii :=
  ascii_of_nat (Z.to_nat (if d <? 10 then 48 + d else 87 + d)).

Definition char_code (c : ascii) : Z := Z.of_nat (nat_of_ascii c).

(** The value of a digit, lower or upper case; [None] for another character. *)
Definition char_digit (c : ascii) : option Z :=
  let n := char_code c in
  if (48 <=? n) && (n <=? 57) then Some (n - 48)
  else if (97 <=? n) && (n <=? 122) then Some (n - 87)
  else if (65 <=? n) && (n <=? 90) then Some (n - 55)
  else None.

Definition is_digit (base : Z) (c : ascii) : option Z :=
  match char_digit c with Some d => if d <? base then Some d else None | None => None end.

(** ** [strtoul] *)

Definition ULONG_MAX : Z := 2 ^ 64 - 1.

Definition isspace (c : ascii) : bool :=
  let n := char_code c in (n =? 32) || ((9 <=? n) && (n <=? 13)).

Fixpoint skip_spaces (s : chars) : chars :=
  match s with c :: s' => if isspace c then skip_spaces s' else s | [] => [] end.

(** The digits at the front: their value added to [acc], and the rest. *)
Fixpoint read_digits (base acc : Z) (s : chars) : Z * chars :=
  match s with
  | c :: s' =>
      match is_digit base c with
      | Some d => read_digits base (acc * base + d) s'
      | None => (acc, s)
      end
  | [] => (acc, [])
  end.

Definition starts_digit (base : Z) (s : chars) : bool :=
  match s with c :: _ => bool_decide (is_Some (is_digit base c)) | [] => false end.

Definition is_x (c : ascii) : bool := (c =? "x")%char || (c =? "X")%char.

(** The base and what follows the prefix. *)
Definition number_base (base : Z) (s : chars) : Z * chars :=
  match s with
  | "0"%char :: c :: s' =>
      if ((base =? 16) || (base =? 0)) && is_x c && starts_digit 16 s' then (16, s')
      else (if base =? 0 then 8 else base, s)
  | "0"%char :: _ => (if base =? 0 then 8 else base, s)
  | _ => (if base =? 0 then 10 else base, s)
  end.

(** The value and the rest, which is [s] itself when there is no number. *)
Definition strtoul (s : chars) (base : Z) : Z * chars :=
  let s1 := skip_spaces s in
  let '(neg, s2) := match s1 with
                    | "-"%char :: s' => (true, s')
                    | "+"%char :: s' => (false, s')
                    | _ => (false, s1)
                    end in
  let '(b, s3) := number_base base s2 in
  if starts_digit b s3 then
    let '(v, rest) := read_digits b 0 s3 in
    ((if ULONG_MAX <? v then ULONG_MAX else if neg : bool then u64 (- v) else v), rest)
  else (0, s).

(** ** Conversions of [printf] *)

(** The digits of [n >= 0] before those of [acc]; 64 turns are enough for 64 bits. *)
Fixpoint print_digits (fuel : nat) (base n : Z) (acc : chars) : chars :=
  match fuel with
  | O => acc
  | S fuel =>
      let acc := digit_char (n mod base) :: acc in
      if n / base =? 0 then acc else print_digits fuel base (n / base) acc
  end.

Definition print_num (base n : Z) : chars := print_digits 64 base n [].

(** ["%lx"], ["%0<width>lx"], ["%d"] *)
Definition fmt_lx (n : Z) : chars := print_num 16 n.
Definition fmt_0lx (width : nat) (n : Z) : chars :=
  let d := print_num 16 n in replicate (width - length d) "0"%char ++ d.
Definition fmt_d (n : Z) : chars := if n <? 0 then "-"%char :: print_num 10 (- n) else print_num 10 n.

(** ** Buffers *)

(** Writes [cs] at [off]; out of the buffer is undefined. *)
Fixpoint write_chars (buf : chars) (off : nat) (cs : chars) : option chars :=
  match cs with
  | [] => Some buf
  | c :: cs =>
      require! (off <? length buf)%nat in write_chars (<[off := c]> buf) (S off) cs
  end.

(** [vsnprintf(buf + off, size, ...)] for a text: at most [size - 1] characters
    and a NUL are written, the length of the text is returned. *)
Definition vsnprintf (buf : chars) (off size : Z) (text : chars) : option (Z * chars) :=
  if size =? 0 then Some (Z.of_nat (length text), buf) else
  let! buf := write_chars buf (Z.to_nat off) (take (Z.to_nat (size - 1)) text ++ [NUL]) in
  Some (Z.of_nat (length text), buf).

Section Snprintf.
Context `{Malloc}.

(** The loop that tries larger buffers, on fresh memory. *)
Fixpoint fake_snprintf (fuel : nat) (fakesize : Z) (text : chars) : option (Z * chars) :=
  match fuel with
  | O => None
  | S fuel =>
      let fakesize := fakesize * 2 in
      if negb (malloc_ok fakesize) then Some (-1, []) else
      let! (ret, fakestr) := vsnprintf (replicate (Z.to_nat fakesize) NUL) 0 fakesize text in
      if ret =? fakesize - 1 then fake_snprintf fuel fakesize text else Some (ret, fakestr)
  end.

(** [hwloc_snprintf(buf + off, size, ...)]; the result is [int]. *)
Definition hwloc_snprintf (buf : chars) (off size : Z) (text : chars) : option (Z * chars) :=
  (* a static byte stands for an empty buffer *)
  let! (ret, buf', room) :=
    if size =? 0 then let! (ret, _) := vsnprintf [NUL] 0 1 text in Some (ret, buf, 1)
    else let! (ret, buf') := vsnprintf buf off size text in Some (ret, buf', size) in
  if (0 <=? ret) && negb (ret =? room - 1) then Some (ret, buf') else
  let! (ret, fakestr) := fake_snprintf 64 room text in
  if ret <? 0 then Some (-1, buf') else
  let room := if ret + 1 <? room then ret + 1 else room in
  if size =? 0 then Some (ret, buf') else
  let! buf' := write_chars buf' (Z.to_nat off) (take (Z.to_nat (room - 1)) fakestr ++ [NUL]) in
  Some (ret, buf').

(** ** Printing piece by piece *)

(** What the printing functions keep: the buffer, [tmp] in it, [size], [ret]. *)
Record out := mk_out { o_buf : chars; o_tmp : Z; o_size : Z; o_ret : Z }.

(** [res = hwloc_snprintf(tmp, size, ...); if (res < 0) return -1; ret += res;
    if (res >= size) res = size>0 ? size - 1 : 0; tmp += res; size -= res;] and the
    rest [k]; an overflow of [ret] is undefined. *)
Definition put (text : chars) (o : out) (k : out -> option (Z * chars)) : option (Z * chars) :=
  let! (res, buf) := hwloc_snprintf (o_buf o) (o_tmp o) (o_size o) text in
  if res <? 0 then Some (-1, buf) else
  require! (o_ret o + res <=? INT_MAX) in
  let adv := if o_size o <=? res then (if 0 <? o_size o then o_size o - 1 else 0) else res in
  k (mk_out buf (o_tmp o + adv) (o_size o - adv) (o_ret o + res)).

(** [size = buflen; tmp = buf; ret = 0; if (buflen > 0) tmp[0] = '\0';] *)
Definition start_out (buf : chars) (buflen : Z) : option out :=
  let! buf := if 0 <? buflen then write_chars buf 0 [NUL] else Some buf in
  Some (mk_out buf 0 buflen 0).

(** [len = print(NULL, 0, set); buf = malloc(len+1); print(buf, len+1, set)]: the
    result and the string. *)
Definition asprintf (print : chars -> Z -> option (Z * chars)) : option (Z * chars) :=
  let! (len, _) := print [] 0 in
  require! malloc_ok (len + 1) in
  print (replicate (Z.to_nat (len + 1)) NUL) (len + 1).

End Snprintf.
