(* ===== verification/BitmapString.v ===== *)
(** * BitmapString: bitmaps as text ([src/cpuset.c])

    The three formats of [hwloc_bitmap_*snprintf] and [hwloc_bitmap_*sscanf]: comma
    separated masks of 32 bits, lists of indexes and ranges, and one long mask. *)

From Stdlib Require Import Ascii String.
From S2P Require Import Prelude Misc Bitmap CString.

Definition HWLOC_BITMAP_SUBSTRING_SIZE : Z := 32.
Definition HWLOC_BITMAP_STRING_PER_LONG : Z := HWLOC_BITS_PER_LONG / HWLOC_BITMAP_SUBSTRING_SIZE.
Definition HWLOC_PRIxSUBBITMAP (n : Z) : chars := fmt_0lx 8 n.

Definition FULL_PREFIX : chars := txt "0xf...f".

(** [!strncmp(prefix, s, n)]: what follows the prefix. *)
Fixpoint after (prefix s : chars) : option chars :=
  match prefix, s with
  | [], _ => Some s
  | c :: prefix, d :: s => if (c =? d)%char then after prefix s else None
  | _ :: _, [] => None
  end.

Definition comma (needcomma : bool) (text : chars) : chars :=
  if needcomma then ","%char :: text else text.

Section Strings.
Context `{Malloc}.

(** ** Masks separated by commas *)

Definition accum_mask : Z := u64 (Z.shiftl (2 ^ 32 - 1) (64 - 32)).

(** The loop: [i], the accumulator and how many of its bits are left. *)
Fixpoint snprintf_loop (fuel : nat) (set : hwloc_bitmap_s) (i accum accumed : Z) (needcomma : bool) (o : out)
  : option (Z * chars) :=
  if (i <? 0) && (accumed =? 0) then Some (o_ret o, o_buf o) else
  match fuel with
  | O => None
  | S fuel =>
      let! (i, accum, accumed) :=
        if accumed =? 0 then let! w := ulongs_get set i in Some (i - 1, w, HWLOC_BITS_PER_LONG)
        else Some (i, accum, accumed) in
      let next accum accumed := snprintf_loop fuel set i
        (u64 (Z.shiftl accum HWLOC_BITMAP_SUBSTRING_SIZE)) (accumed - HWLOC_BITMAP_SUBSTRING_SIZE) in
      let sub := Z.land accum accum_mask in
      if negb (sub =? 0) then
        put (comma needcomma (txt "0x" ++ HWLOC_PRIxSUBBITMAP
               (Z.shiftr sub (HWLOC_BITS_PER_LONG - HWLOC_BITMAP_SUBSTRING_SIZE)))) o
          (next accum accumed true)
      else if (i =? -1) && (accumed =? HWLOC_BITMAP_SUBSTRING_SIZE) then
        put (comma needcomma (txt "0x0")) o (next accum accumed needcomma)
      else if needcomma then put (txt ",") o (next accum accumed needcomma)
      else next accum accumed needcomma o
  end.

(** [set->ulongs_count == 1 && set->ulongs[0] == HWLOC_SUBBITMAP_FULL] *)
Definition one_full_word (set : hwloc_bitmap_s) : option bool :=
  if ulongs_count set =? 1 then let! w := ulongs_get set 0 in Some (w =? HWLOC_SUBBITMAP_FULL)
  else Some false.

Definition hwloc_bitmap_snprintf (buf : chars) (buflen : Z) (set : hwloc_bitmap_s) : option (Z * chars) :=
  let! o := start_out buf buflen in
  let fuel := S (2 * Z.to_nat (ulongs_count set)) in
  if infinite set then
    put FULL_PREFIX o (fun o =>
      let! full := one_full_word set in
      if full : bool then Some (o_ret o, o_buf o)
      else snprintf_loop fuel set (ulongs_count set - 1) 0 0 true o)
  else snprintf_loop fuel set (ulongs_count set - 1) 0 0 false o.

Definition hwloc_bitmap_asprintf (set : hwloc_bitmap_s) : option (Z * chars) :=
  asprintf (fun buf buflen => hwloc_bitmap_snprintf buf buflen set).

(** The commas from the second character on, plus one. *)
Definition count_substrings (string : chars) : Z :=
  1 + Z.of_nat (length (filter (fun c => (c =? ",")%char = true) (tail string))).

(** A failure to parse: [hwloc_bitmap_zero(set); return -1]. *)
Definition parse_failed (set : hwloc_bitmap_s) : option (Z * hwloc_bitmap_s) :=
  let! set := hwloc_bitmap_zero set in Some (-1, set).

(** The loop; the fuel is the length of the string. *)
Fixpoint sscanf_loop (fuel : nat) (set : hwloc_bitmap_s) (current : chars) (count accum : Z)
  : option (bool * hwloc_bitmap_s) :=
  match current with
  | [] => Some (true, set)
  | _ =>
      match fuel with
      | O => None
      | S fuel =>
          let '(val, next) := strtoul current 16 in
          require! (0 <? count) in
          let count := count - 1 in
          let accum := Z.lor accum
            (u64 (Z.shiftl val ((count * HWLOC_BITMAP_SUBSTRING_SIZE) mod HWLOC_BITS_PER_LONG))) in
          let! (set, accum) :=
            if count mod HWLOC_BITMAP_STRING_PER_LONG =? 0 then
              let! set := ulongs_set set (count / HWLOC_BITMAP_STRING_PER_LONG) accum in Some (set, 0)
            else Some (set, accum) in
          match next with
          | ","%char :: current => sscanf_loop fuel set current count accum
          | [] => Some (negb (0 <? count), set)
          | _ => Some (false, set)
          end
      end
  end.

Definition hwloc_bitmap_sscanf (set : hwloc_bitmap_s) (string : chars) : option (Z * hwloc_bitmap_s) :=
  (* the search for commas starts after the first character *)
  require! negb (bool_decide (string = [])) in
  let count := count_substrings string in
  let parse current count infinite :=
    let! set := hwloc_bitmap_reset_by_ulongs set
      ((count + HWLOC_BITMAP_STRING_PER_LONG - 1) / HWLOC_BITMAP_STRING_PER_LONG) in
    let set := set_infinite set false in
    let! (ok, set) := sscanf_loop (length string) set current count 0 in
    if ok : bool then Some (0, set_infinite set infinite) else parse_failed set in
  match after FULL_PREFIX string with
  | Some (","%char :: current) => parse current (count - 1) true
  | Some _ => let! set := hwloc_bitmap_fill set in Some (0, set)
  | None => parse string count false
  end.

(** ** Lists of indexes *)

(** The loop; each turn prints a range, of which a bitmap has at most one per bit. *)
Fixpoint list_snprintf_loop (fuel : nat) (set reverse : hwloc_bitmap_s) (prev : Z) (needcomma : bool) (o : out)
  : option (Z * chars) :=
  match fuel with
  | O => None
  | S fuel =>
      let! begin := hwloc_bitmap_next set prev in
      if begin =? -1 then Some (o_ret o, o_buf o) else
      let! end_ := hwloc_bitmap_next reverse begin in
      let text :=
        if end_ =? begin + 1 then fmt_d begin
        else if end_ =? -1 then fmt_d begin ++ txt "-"
        else fmt_d begin ++ txt "-" ++ fmt_d (end_ - 1) in
      put (comma needcomma text) o (fun o =>
        if end_ =? -1 then Some (o_ret o, o_buf o)
        else list_snprintf_loop fuel set reverse (end_ - 1) true o)
  end.

Definition hwloc_bitmap_list_snprintf (buf : chars) (buflen : Z) (set : hwloc_bitmap_s) : option (Z * chars) :=
  let! reverse := hwloc_bitmap_alloc in
  let! reverse := hwloc_bitmap_not reverse (Other set) in
  let! o := start_out buf buflen in
  list_snprintf_loop (S (Z.to_nat (count_bits set))) set reverse (-1) false o.

Definition hwloc_bitmap_list_asprintf (set : hwloc_bitmap_s) : option (Z * chars) :=
  asprintf (fun buf buflen => hwloc_bitmap_list_snprintf buf buflen set).

Fixpoint skip_commas (s : chars) : chars :=
  match s with ","%char :: s' => skip_commas s' | _ => s end.

(** [val] is a [long] that holds the result of [strtoul]. *)
Definition to_long (x : Z) : Z := (x + 2 ^ 63) mod 2 ^ 64 - 2 ^ 63.

Fixpoint list_sscanf_loop (fuel : nat) (set : hwloc_bitmap_s) (current : chars) (begin : Z)
  : option (Z * hwloc_bitmap_s) :=
  match current with
  | [] => Some (0, set)
  | _ =>
      match fuel with
      | O => None
      | S fuel =>
          let current := skip_commas current in
          let '(val, next) := strtoul current 0 in
          let val := to_long val in
          if (length next =? length current)%nat then parse_failed set else
          (* the set, [begin], and whether the loop ends *)
          let! (set, begin, stop) :=
            if negb (begin =? -1) then
              let! set := hwloc_bitmap_set_range set (u32 begin) (s32 val) in Some (set, -1, false)
            else
              match next with
              | "-"%char :: [] =>
                  let! set := hwloc_bitmap_set_range set (u32 val) (-1) in Some (set, begin, true)
              | "-"%char :: _ => Some (set, val, false)
              | ","%char :: _ | [] => let! set := hwloc_bitmap_set set (u32 val) in Some (set, begin, false)
              | _ => Some (set, begin, false)
              end in
          match next with
          | [] => Some (0, set)
          | _ :: current => if stop : bool then Some (0, set) else list_sscanf_loop fuel set current begin
          end
      end
  end.

Definition hwloc_bitmap_list_sscanf (set : hwloc_bitmap_s) (string : chars) : option (Z * hwloc_bitmap_s) :=
  let! set := hwloc_bitmap_zero set in
  list_sscanf_loop (length string) set string (-1).

(** ** One mask, as taskset prints it *)

(** The words from index [n - 1] down. *)
Fixpoint taskset_loop (n : nat) (set : hwloc_bitmap_s) (started : bool) (o : out) : option (Z * chars) :=
  match n with
  | O => Some (o_ret o, o_buf o)
  | S n =>
      let! val := ulongs_get set (Z.of_nat n) in
      if started then put (fmt_0lx 16 val) o (taskset_loop n set true)
      else if negb (val =? 0) || (n =? 0)%nat then put (txt "0x" ++ fmt_lx val) o (taskset_loop n set true)
      else taskset_loop n set started o
  end.

Definition hwloc_bitmap_taskset_snprintf (buf : chars) (buflen : Z) (set : hwloc_bitmap_s) : option (Z * chars) :=
  let! o := start_out buf buflen in
  let n := Z.to_nat (ulongs_count set) in
  if infinite set then
    put FULL_PREFIX o (fun o =>
      let! full := one_full_word set in
      if full : bool then Some (o_ret o, o_buf o) else taskset_loop n set true o)
  else taskset_loop n set false o.

Definition hwloc_bitmap_taskset_asprintf (set : hwloc_bitmap_s) : option (Z * chars) :=
  asprintf (fun buf buflen => hwloc_bitmap_taskset_snprintf buf buflen set).

(** [chars] is the length of [current]; a chunk is at most 16 characters. *)
Fixpoint taskset_sscanf_loop (fuel : nat) (set : hwloc_bitmap_s) (current : chars) (nchars count : Z)
  : option (bool * hwloc_bitmap_s) :=
  match current with
  | [] => Some (true, set)
  | _ =>
      match fuel with
      | O => None
      | S fuel =>
          let tmpchars := nchars mod (HWLOC_BITS_PER_LONG / 4) in
          let tmpchars := if tmpchars =? 0 then HWLOC_BITS_PER_LONG / 4 else tmpchars in
          let ustr := take (Z.to_nat tmpchars) current in
          let '(val, next) := strtoul ustr 16 in
          if negb (bool_decide (next = [])) then Some (false, set) else
          let! set := ulongs_set set (count - 1) val in
          taskset_sscanf_loop fuel set (drop (Z.to_nat tmpchars) current) (nchars - tmpchars) (count - 1)
      end
  end.

Definition hwloc_bitmap_taskset_sscanf (set : hwloc_bitmap_s) (string : chars) : option (Z * hwloc_bitmap_s) :=
  let parse current infinite :=
    let nchars := Z.of_nat (length current) in
    let count := (nchars * 4 + HWLOC_BITS_PER_LONG - 1) / HWLOC_BITS_PER_LONG in
    let! set := hwloc_bitmap_reset_by_ulongs set count in
    let set := set_infinite set false in
    let! (ok, set) := taskset_sscanf_loop (length current) set current nchars count in
    if ok : bool then Some (0, set_infinite set infinite) else parse_failed set in
  match after FULL_PREFIX string with
  | Some [] => let! set := hwloc_bitmap_fill set in Some (0, set)
  | Some current => parse current true
  | None =>
      let current := default string (after (txt "0x") string) in
      match current with
      | [] => let! set := hwloc_bitmap_zero set in Some (0, set)
      | _ => parse current false
      end
  end.

End Strings.
