(* ===== verification/CStringOk.v ===== *)
(** * CStringOk: what is printed is read back, and nothing is written out of a buffer

    The digits of [printf] are read by [strtoul]; [hwloc_snprintf] and the printing
    steps [put] write the text cut to the size of the buffer and count all of it. *)

From Stdlib Require Import Ascii String.
From S2P Require Import Prelude Misc Bitmap BitmapSpec CString.

(** ** Digits *)

Definition is_digits (base : Z) (ds : chars) : Prop := Forall (fun c => is_Some (is_digit base c)) ds.

Lemma is_digit_digit_char base d : 0 <= d < base -> base <= 36 -> is_digit base (digit_char d) = Some d.
Proof.
  intros Hd Hb.
  assert (forallb (fun n => match char_digit (digit_char (Z.of_nat n)) with
                            | Some m => m =? Z.of_nat n | None => false end) (seq 0 36) = true) as H
    by (vm_compute; reflexivity).
  rewrite forallb_forall in H. specialize (H (Z.to_nat d)). rewrite in_seq, Z2Nat.id in H by lia.
  specialize (H ltac:(lia)). unfold is_digit. destruct (char_digit (digit_char d)) as [m|]; [|done].
  apply Z.eqb_eq in H as ->. by destruct (Z.ltb_spec d base); [|lia].
Qed.

(** Reading a run of digits adds its value to what was read before. *)
Definition reads (base n : Z) (ds : chars) : Prop :=
  forall a rest, read_digits base a (ds ++ rest) = read_digits base (a * base ^ Z.of_nat (length ds) + n) rest.

Lemma reads_nil base : reads base 0 [].
Proof. intros a rest. simpl. f_equal. lia. Qed.

Lemma reads_snoc base n ds d c :
  2 <= base -> is_digit base c = Some d -> reads base n ds -> reads base (n * base + d) (ds ++ [c]).
Proof.
  intros Hb Hc Hr a rest. rewrite <- app_assoc, Hr. cbn [app read_digits]. rewrite Hc. f_equal.
  rewrite length_app. cbn [length]. rewrite Nat2Z.inj_add, Z.pow_add_r by lia. lia.
Qed.

Lemma reads_app base n m ds es :
  2 <= base -> reads base n ds -> reads base m es ->
  reads base (n * base ^ Z.of_nat (length es) + m) (ds ++ es).
Proof.
  intros Hb Hn Hm a rest. rewrite <- app_assoc, Hn, Hm. f_equal.
  rewrite length_app, Nat2Z.inj_add, Z.pow_add_r by lia. lia.
Qed.

Lemma reads_zeros base k : 2 <= base -> reads base 0 (replicate k "0"%char).
Proof.
  intros Hb. induction k as [|k IH]; [apply reads_nil|]. rewrite replicate_S_end.
  change 0 with (0 * base + 0). apply reads_snoc; [done| |done].
  change (is_digit base "0") with (if 0 <? base then Some 0 else None).
  by destruct (Z.ltb_spec 0 base); [|lia].
Qed.

(** The digits of [n]. *)
Lemma print_digits_app fuel base n acc : print_digits fuel base n acc = print_digits fuel base n [] ++ acc.
Proof.
  revert n acc. induction fuel as [|fuel IH]; intros n acc; [done|]. cbn [print_digits].
  destruct (n / base =? 0); [done|]. rewrite IH, (IH _ [_]), <- app_assoc. done.
Qed.

Record number_text (base n : Z) (ds : chars) : Prop := {
  nt_digits : is_digits base ds;
  nt_reads : reads base n ds;
  nt_nonempty : ds <> [];
  nt_short : forall k, (1 <= k)%nat -> n < base ^ Z.of_nat k -> (length ds <= k)%nat;
  nt_head : n <> 0 -> exists d c ds', ds = c :: ds' /\ is_digit base c = Some d /\ 0 < d;
}.

Lemma print_digits_text fuel base n :
  2 <= base <= 36 -> 0 <= n < base ^ Z.of_nat fuel -> fuel <> O ->
  number_text base n (print_digits fuel base n []).
Proof.
  intros Hb. revert n. induction fuel as [|fuel IH]; intros n Hn Hf; [done|]. cbn [print_digits].
  pose proof (Z.mod_pos_bound n base ltac:(lia)) as Hmod.
  pose proof (Z.div_mod n base ltac:(lia)) as Hdm.
  pose proof (is_digit_digit_char base _ Hmod ltac:(lia)) as Hdig.
  destruct (Z.eqb_spec (n / base) 0) as [Hz|Hz].
  - assert (n mod base = n) as Hsame by lia. rewrite Hsame in *. split.
    + by apply Forall_singleton; eexists.
    + apply (reads_snoc base 0 [] n); [lia|done|apply reads_nil].
    + done.
    + intros k Hk _. simpl. lia.
    + intros Hne. exists n, (digit_char n), []. repeat split; [done|lia].
  - assert (0 <= n / base) by (apply Z.div_pos; lia).
    rewrite Nat2Z.inj_succ, Z.pow_succ_r in Hn by lia.
    assert (n / base < base ^ Z.of_nat fuel) as Hlt by (apply Z.div_lt_upper_bound; lia).
    destruct fuel as [|fuel]; [simpl in Hlt; lia|].
    rewrite print_digits_app. destruct (IH (n / base) ltac:(lia) ltac:(lia)) as [H1 H2 H3 H4 H5].
    set (ds := print_digits (S fuel) base (n / base) []) in *. split.
    + apply Forall_app. split; [done|]. by apply Forall_singleton; eexists.
    + replace n with (n / base * base + n mod base) at 1 by lia. apply reads_snoc; [lia|done|done].
    + by destruct ds.
    + intros k Hk Hlt'. rewrite length_app. simpl. destruct k as [|[|k]]; [lia| |].
      * rewrite Z.pow_1_r in Hlt'. rewrite Z.div_small in Hz by lia. lia.
      * assert (length ds <= S k)%nat; [|lia]. apply H4; [lia|]. apply Z.div_lt_upper_bound; [lia|].
        rewrite (Nat2Z.inj_succ (S k)), Z.pow_succ_r in Hlt' by lia. lia.
    + intros _. destruct (H5 ltac:(lia)) as (d & c & ds' & -> & Hc & Hd). by exists d, c, (ds' ++ [digit_char (n mod base)]).
Qed.

Lemma print_num_text base n : 2 <= base <= 36 -> 0 <= n < 2 ^ 64 -> number_text base n (print_num base n).
Proof.
  intros Hb Hn. apply print_digits_text; [done| |done]. split; [lia|].
  apply Z.lt_le_trans with (2 ^ 64); [lia|]. apply Z.pow_le_mono_l. lia.
Qed.

(** Words of a fixed width. *)
Lemma fmt_0lx_text width n :
  (1 <= width)%nat -> 0 <= n < 2 ^ 64 -> n < 16 ^ Z.of_nat width ->
  is_digits 16 (fmt_0lx width n) /\ reads 16 n (fmt_0lx width n) /\ length (fmt_0lx width n) = width.
Proof.
  intros Hw Hn Hlt. destruct (print_num_text 16 n ltac:(lia) Hn) as [H1 H2 _ H4 _].
  specialize (H4 width Hw Hlt). unfold fmt_0lx. repeat split.
  - apply Forall_app. split; [|done]. apply Forall_replicate. by eexists.
  - apply (reads_app 16 0 n); [lia| |done]. by apply reads_zeros.
  - rewrite length_app, length_replicate. lia.
Qed.

(** ** Reading a number *)

Definition digit_ends (base : Z) (rest : chars) : Prop := starts_digit base rest = false.

Lemma read_digits_stop base a rest : digit_ends base rest -> read_digits base a rest = (a, rest).
Proof.
  unfold digit_ends, starts_digit. destruct rest as [|c rest]; [done|]. cbn [read_digits].
  destruct (is_digit base c); [|done]. by rewrite bool_decide_true.
Qed.

Lemma read_number base n ds rest :
  reads base n ds -> digit_ends base rest -> read_digits base 0 (ds ++ rest) = (n, rest).
Proof. intros Hr He. rewrite Hr, read_digits_stop by done. done. Qed.

Lemma number_base_other base c s :
  c <> "0"%char -> number_base base (c :: s) = (if base =? 0 then 10 else base, c :: s).
Proof. intros Hc. destruct c as [[] [] [] [] [] [] [] []]; done. Qed.

Lemma number_base_no_x base s :
  head s <> Some "x"%char -> head s <> Some "X"%char ->
  number_base base ("0"%char :: s) = (if base =? 0 then 8 else base, "0"%char :: s).
Proof.
  intros H1 H2. destruct s as [|c s]; [done|]. unfold number_base. replace (is_x c) with false.
  - by rewrite andb_false_r.
  - unfold is_x. destruct (Ascii.eqb_spec c "x"), (Ascii.eqb_spec c "X"); by subst.
Qed.

(** A digit is neither a space nor a sign, and a hexadecimal one is no [x]. *)
Lemma digit_code base c : is_Some (is_digit base c) ->
  (48 <= char_code c <= 57) \/ (97 <= char_code c <= 122 /\ char_code c - 87 < base)
  \/ (65 <= char_code c <= 90 /\ char_code c - 55 < base).
Proof.
  unfold is_digit, char_digit. intros [d Hd].
  repeat match goal with H : context [if ?b then _ else _] |- _ => destruct b eqn:? end; simplify_eq;
    repeat match goal with H : _ && _ = true |- _ => apply andb_prop in H as [? ?] end; lia.
Qed.

Lemma digit_not base c d : is_Some (is_digit base c) -> is_digit base d = None -> c <> d.
Proof. intros [x Hx] Hd ->. by rewrite Hd in Hx. Qed.

Lemma strip_sign (A : Type) (c : ascii) (s : chars) (f g : chars -> A) (h : A) :
  c <> "-"%char -> c <> "+"%char ->
  match c :: s with "-"%char :: s' => f s' | "+"%char :: s' => g s' | _ => h end = h.
Proof. intros H1 H2. destruct c as [[] [] [] [] [] [] [] []]; done. Qed.

(** The number at the front of a text that starts with a digit. *)
Lemma strtoul_digit base c s b n s3 rest :
  is_Some (is_digit 16 c) -> number_base base (c :: s) = (b, s3) -> starts_digit b s3 = true ->
  read_digits b 0 s3 = (n, rest) -> 0 <= n < 2 ^ 64 -> strtoul (c :: s) base = (n, rest).
Proof.
  intros Hc Hb Hd Hr Hn. unfold strtoul.
  assert (skip_spaces (c :: s) = c :: s) as ->.
  { cbn [skip_spaces]. replace (isspace c) with false; [done|]. unfold isspace.
    apply digit_code in Hc. symmetry. apply orb_false_intro; [|apply andb_false_iff]; lia. }
  rewrite strip_sign by (apply (digit_not 16); done). rewrite Hb, Hd, Hr.
  unfold ULONG_MAX. by destruct (Z.ltb_spec (2 ^ 64 - 1) n); [lia|].
Qed.

Lemma starts_digits base ds rest : is_digits base ds -> ds <> [] -> starts_digit base (ds ++ rest) = true.
Proof. destruct ds; [done|]. intros Hds _. apply Forall_cons in Hds as [H _]. by apply bool_decide_true. Qed.

Lemma strtoul_0x n ds rest :
  is_digits 16 ds -> ds <> [] -> reads 16 n ds -> digit_ends 16 rest -> 0 <= n < 2 ^ 64 ->
  strtoul (txt "0x" ++ ds ++ rest) 16 = (n, rest).
Proof.
  intros H1 H2 H3 H4 Hn. eapply strtoul_digit; [by eexists| | |by apply read_number|done].
  - cbn. by rewrite starts_digits.
  - by apply starts_digits.
Qed.

Lemma strtoul_hex n ds :
  is_digits 16 ds -> ds <> [] -> reads 16 n ds -> 0 <= n < 2 ^ 64 -> strtoul ds 16 = (n, []).
Proof.
  intros H1 H2 H3 Hn. destruct ds as [|c ds]; [done|]. pose proof H1 as H1'. apply Forall_cons in H1' as [Hc Hds].
  assert (number_base 16 (c :: ds) = (16, c :: ds)) as Hb.
  { destruct (ascii_dec c "0") as [->|Hc0]; [|by rewrite number_base_other].
    apply number_base_no_x; destruct ds as [|d ds]; try done; apply Forall_cons in Hds as [Hd _];
      intros [= ->]; by destruct Hd. }
  eapply strtoul_digit; [done|done| | |done].
  - rewrite <- (app_nil_r (c :: ds)). by apply starts_digits.
  - rewrite <- (app_nil_r (c :: ds)). by apply read_number.
Qed.

(** A decimal number in base 0, before the end or what is no letter or digit. *)
Definition item_end (rest : chars) : Prop :=
  match rest with [] => True | c :: _ => char_digit c = None end.

Lemma item_end_digit base rest : item_end rest -> digit_ends base rest.
Proof.
  unfold item_end, digit_ends, starts_digit, is_digit. destruct rest as [|c rest]; [done|]. intros ->.
  by rewrite bool_decide_false by (by intros []).
Qed.

Lemma digit_mono base base' c d : base <= base' -> is_digit base c = Some d -> is_digit base' c = Some d.
Proof.
  unfold is_digit. destruct (char_digit c) as [m|]; [|done]. intros Hb.
  destruct (Z.ltb_spec m base), (Z.ltb_spec m base'); try done. lia.
Qed.

Lemma fmt_d_reads n rest :
  0 <= n < 2 ^ 31 -> item_end rest -> strtoul (fmt_d n ++ rest) 0 = (n, rest).
Proof.
  intros Hn Hrest. unfold fmt_d. destruct (Z.ltb_spec n 0) as [|_]; [lia|].
  destruct (Z.eq_dec n 0) as [->|Hne].
  - eapply (strtoul_digit 0 "0"%char rest 8 _ ("0"%char :: rest)); [by eexists| |done| |lia].
    + apply number_base_no_x; destruct rest as [|c rest]; try done; by intros [= ->].
    + apply (read_number 8 0 ["0"%char]); [|by apply item_end_digit]. exact (reads_zeros 8 1 ltac:(lia)).
  - destruct (print_num_text 10 n ltac:(lia) ltac:(lia)) as [H1 H2 _ _ H5].
    destruct (H5 Hne) as (d & c & ds & Hds & Hc & Hd). rewrite Hds in *.
    assert (c <> "0"%char) by (intros ->; cbv in Hc; simplify_eq; lia).
    eapply (strtoul_digit 0 c (ds ++ rest) 10 _ (c :: ds ++ rest)).
    + exists d. by apply (digit_mono 10).
    + by rewrite number_base_other.
    + by apply (starts_digits 10 (c :: ds)).
    + apply (read_number 10 n (c :: ds)); [done|by apply item_end_digit].
    + lia.
Qed.

Lemma fmt_d_short n : 0 <= n < 2 ^ 31 -> (1 <= length (fmt_d n) <= 10)%nat.
Proof.
  intros Hn. unfold fmt_d. destruct (Z.ltb_spec n 0) as [|_]; [lia|].
  destruct (print_num_text 10 n ltac:(lia) ltac:(lia)) as [_ _ H3 H4 _].
  split; [destruct (print_num 10 n); [done|simpl; lia]|]. apply H4; simpl; lia.
Qed.

(** ** Buffers *)

(** [cs] put in [buf] from [off] on. *)
Definition overwrite (buf : chars) (off : nat) (cs : chars) : chars :=
  take off buf ++ cs ++ drop (off + length cs) buf.

Lemma write_chars_ok cs buf off :
  (off + length cs <= length buf)%nat -> write_chars buf off cs = Some (overwrite buf off cs).
Proof.
  revert buf off. induction cs as [|c cs IH]; intros buf off Hlen; simpl in *.
  - unfold overwrite. simpl. by rewrite Nat.add_0_r, take_drop.
  - destruct (Nat.ltb_spec off (length buf)); [|lia]. rewrite IH by (rewrite length_insert; lia).
    f_equal. unfold overwrite. cbn [length]. rewrite (take_S_r _ _ c) by (apply list_lookup_insert_eq; lia).
    rewrite take_insert_ge, <- app_assoc, drop_insert_lt by lia. cbn [app]. do 4 f_equal. lia.
Qed.

Lemma overwrite_length cs buf off :
  (off + length cs <= length buf)%nat -> length (overwrite buf off cs) = length buf.
Proof. intros H. unfold overwrite. rewrite !length_app, length_take, length_drop. lia. Qed.

Lemma overwrite_0 buf cs : overwrite buf 0 cs = cs ++ drop (length cs) buf.
Proof. done. Qed.

Lemma take_overwrite cs buf off :
  (off <= length buf)%nat -> take off (overwrite buf off cs) = take off buf.
Proof.
  intros H. unfold overwrite. rewrite take_app_le, take_take by (rewrite length_take; lia).
  f_equal. lia.
Qed.

Lemma drop_overwrite cs buf off k :
  (off <= length buf)%nat ->
  drop (off + length cs + k) (overwrite buf off cs) = drop (off + length cs + k) buf.
Proof.
  intros H. unfold overwrite. rewrite app_assoc, drop_app_ge by (rewrite length_app, length_take; lia).
  rewrite drop_drop, length_app, length_take. f_equal. lia.
Qed.

Lemma overwrite_twice cs buf off :
  (off + length cs <= length buf)%nat -> overwrite (overwrite buf off cs) off cs = overwrite buf off cs.
Proof.
  intros H. pose proof (drop_overwrite cs buf off 0 ltac:(lia)) as Hd. rewrite Nat.add_0_r in Hd.
  unfold overwrite at 1. by rewrite take_overwrite, Hd by lia.
Qed.

(** ** Printing a piece *)

(** What a buffer of [size] characters holds once [text] was printed in it. *)
Definition stored (buf : chars) (size : nat) (text : chars) : chars :=
  if (size =? 0)%nat then buf else overwrite buf 0 (take (size - 1) text ++ [NUL]).

(** How far the printing went in the buffer. *)
Definition reached (size : nat) (text : chars) : nat := length text `min` (size - 1).

Lemma stored_length buf size text : (size <= length buf)%nat -> length (stored buf size text) = length buf.
Proof.
  intros H. unfold stored. destruct (Nat.eqb_spec size 0); [done|]. apply overwrite_length.
  rewrite length_app, length_take. simpl. lia.
Qed.

Lemma stored_app buf size text t :
  size <> O -> (size <= length buf)%nat ->
  overwrite (stored buf size text) (reached size text) (take (size - reached size text - 1) t ++ [NUL])
  = stored buf size (text ++ t).
Proof.
  intros Hs Hlen. unfold stored. destruct (Nat.eqb_spec size 0); [done|].
  assert (reached size text <= length (take (size - 1) text))%nat as Hr
    by (unfold reached; rewrite length_take; lia).
  assert (take (reached size text) (overwrite buf 0 (take (size - 1) text ++ [NUL])) = take (size - 1) text) as Ht.
  { rewrite overwrite_0, <- app_assoc, take_app_le by exact Hr. rewrite take_take.
    unfold reached. destruct (Nat.le_ge_cases (length text) (size - 1)).
    - by rewrite !take_ge by lia.
    - f_equal. lia. }
  set (piece := take (size - reached size text - 1) t ++ [NUL]).
  assert (length piece = S ((size - reached size text - 1) `min` length t)) as Hp
    by (unfold piece; rewrite length_app, length_take; simpl; lia).
  unfold overwrite at 1. rewrite Ht.
  replace (reached size text + length piece)%nat
    with (0 + length (take (size - 1) text ++ [NUL])
          + (reached size text + length piece - length (take (size - 1) text ++ [NUL])))%nat.
  2:{ rewrite length_app, length_take in *. simpl. unfold reached in *. lia. }
  rewrite drop_overwrite, overwrite_0 by lia. unfold piece.
  replace (size - reached size text - 1)%nat with (size - 1 - length text)%nat by (unfold reached; lia).
  rewrite take_app, <- !app_assoc. do 4 f_equal.
  rewrite !length_app, !length_take. simpl. unfold reached in *. lia.
Qed.

Section Printing.
Context `{MallocTotal}.

Lemma vsnprintf_ok buf off size text :
  0 <= off -> 0 < size -> off + size <= Z.of_nat (length buf) ->
  vsnprintf buf off size text =
    Some (Z.of_nat (length text), overwrite buf (Z.to_nat off) (take (Z.to_nat (size - 1)) text ++ [NUL])).
Proof.
  intros Ho Hs Hlen. unfold vsnprintf. destruct (Z.eqb_spec size 0); [lia|].
  rewrite write_chars_ok; [done|]. rewrite length_app, length_take. simpl. lia.
Qed.

(** When the text fills the buffer exactly, one larger buffer is enough. *)
Lemma fake_snprintf_ok fuel size text :
  0 < size -> Z.of_nat (length text) = size - 1 ->
  exists fake, fake_snprintf (S fuel) size text = Some (Z.of_nat (length text), fake)
    /\ take (Z.to_nat (size - 1)) fake = text.
Proof.
  intros Hs Hlen. cbn [fake_snprintf]. rewrite malloc_total. cbn [negb].
  rewrite vsnprintf_ok by (rewrite ?length_replicate; lia). cbn [mbind option_bind].
  destruct (Z.eqb_spec (Z.of_nat (length text)) (size * 2 - 1)); [lia|].
  eexists. split; [done|]. rewrite overwrite_0.
  rewrite (firstn_all2 text) by lia. rewrite <- app_assoc, take_app_le by lia. apply take_ge. lia.
Qed.

Lemma hwloc_snprintf_ok buf off size text :
  0 <= off -> 0 <= size -> off + size <= Z.of_nat (length buf) ->
  hwloc_snprintf buf off size text = Some (Z.of_nat (length text),
    if size =? 0 then buf else overwrite buf (Z.to_nat off) (take (Z.to_nat (size - 1)) text ++ [NUL])).
Proof.
  intros Ho Hs Hlen. unfold hwloc_snprintf.
  destruct (Z.leb_spec 0 (Z.of_nat (length text))) as [_|]; [|lia]. cbn [andb].
  destruct (Z.eqb_spec size 0) as [->|Hne].
  - rewrite vsnprintf_ok by (simpl; lia). cbn [mbind option_bind].
    destruct (Z.leb_spec 0 (Z.of_nat (length text))) as [_|]; [|lia]. cbn [andb].
    destruct (Z.eqb_spec (Z.of_nat (length text)) (1 - 1)) as [Heq|]; [|done]. cbn [negb].
    destruct (fake_snprintf_ok 63 1 text ltac:(lia) Heq) as (fake & -> & _). cbn [mbind option_bind].
    by destruct (Z.ltb_spec (Z.of_nat (length text)) 0); [lia|].
  - rewrite vsnprintf_ok by lia. cbn [mbind option_bind].
    destruct (Z.leb_spec 0 (Z.of_nat (length text))) as [_|]; [|lia]. cbn [andb].
    destruct (Z.eqb_spec (Z.of_nat (length text)) (size - 1)) as [Heq|]; [|done]. cbn [negb].
    destruct (fake_snprintf_ok 63 size text ltac:(lia) Heq) as (fake & -> & Hfake). cbn [mbind option_bind].
    destruct (Z.ltb_spec (Z.of_nat (length text)) 0); [lia|].
    destruct (Z.ltb_spec (Z.of_nat (length text) + 1) size); [lia|].
    rewrite Hfake, (firstn_all2 text) by lia.
    assert (Z.to_nat off + length (text ++ [NUL]) <= length buf)%nat by (rewrite length_app; simpl; lia).
    rewrite write_chars_ok by (rewrite overwrite_length; done). cbn [mbind option_bind].
    by rewrite overwrite_twice.
Qed.

(** The state of a printing function that has printed [text]. *)
Definition has_printed (buf : chars) (size : nat) (text : chars) (o : out) : Prop :=
  o = mk_out (stored buf size text) (Z.of_nat (reached size text))
        (Z.of_nat (size - reached size text)) (Z.of_nat (length text)).

(** The printing of [text] in all of [buf]: the result of a printing function. *)
Definition prints (buf : chars) (size : nat) (text : chars) : option (Z * chars) :=
  Some (Z.of_nat (length text), stored buf size text).

Lemma put_ok buf size text t o k :
  (size <= length buf)%nat -> Z.of_nat (length (text ++ t)) <= INT_MAX ->
  has_printed buf size text o ->
  exists o', put t o k = k o' /\ has_printed buf size (text ++ t) o'.
Proof.
  intros Hsize Hmax ->. unfold put. cbn [o_buf o_tmp o_size o_ret].
  assert (reached size text <= size)%nat by (unfold reached; lia).
  rewrite hwloc_snprintf_ok by (rewrite ?stored_length; lia). cbn [mbind option_bind].
  rewrite length_app in Hmax.
  destruct (Z.ltb_spec (Z.of_nat (length t)) 0); [lia|].
  destruct (Z.leb_spec (Z.of_nat (length text) + Z.of_nat (length t)) INT_MAX); [|lia].
  eexists. split; [done|]. unfold has_printed. rewrite length_app. f_equal.
  - destruct (Z.eqb_spec (Z.of_nat (size - reached size text)) 0).
    + unfold stored. destruct (Nat.eqb_spec size 0); [done|]. unfold reached in *. lia.
    + rewrite <- stored_app by (unfold reached in *; lia). f_equal; [lia|]. do 2 f_equal. lia.
  - unfold reached in *. rewrite length_app. case_tests; lia.
  - unfold reached in *. rewrite length_app. case_tests; lia.
  - lia.
Qed.

Lemma start_out_ok buf size :
  (size <= length buf)%nat ->
  exists o, start_out buf (Z.of_nat size) = Some o /\ has_printed buf size [] o.
Proof.
  intros Hsize. unfold start_out, has_printed, stored, reached. cbn [length Nat.min].
  destruct (Nat.eqb_spec size 0) as [->|Hne].
  - cbn [mbind option_bind]. by eexists.
  - destruct (Z.ltb_spec 0 (Z.of_nat size)); [|lia]. rewrite write_chars_ok by (simpl; lia).
    cbn [mbind option_bind]. eexists. split; [done|]. f_equal; [|lia].
    f_equal. by rewrite take_nil.
Qed.

(** [asprintf] gives the whole text. *)
Lemma asprintf_ok print text :
  (forall buf size, (size <= length buf)%nat -> print buf (Z.of_nat size) = prints buf size text) ->
  asprintf print = Some (Z.of_nat (length text), text ++ [NUL]).
Proof.
  intros Hp. unfold asprintf. change (print [] 0) with (print [] (Z.of_nat 0)).
  rewrite (Hp [] O) by (simpl; lia). unfold prints at 1. cbn [mbind option_bind]. rewrite malloc_total.
  replace (Z.of_nat (length text) + 1) with (Z.of_nat (S (length text))) by lia.
  rewrite Hp by (rewrite length_replicate; lia). unfold prints. do 2 f_equal.
  unfold stored. rewrite overwrite_0. cbn [Nat.eqb Nat.sub].
  rewrite Nat.sub_0_r, firstn_all, drop_ge; [by rewrite app_nil_r|].
  rewrite length_replicate, length_app. simpl. lia.
Qed.

End Printing.
