(* ===== verification/MaskTextOk.v ===== *)
(** * MaskTextOk: the text of masks and its reading

    What [hwloc_bitmap_snprintf] and [hwloc_bitmap_taskset_snprintf] print as a
    function of the words, and that [hwloc_bitmap_sscanf] and
    [hwloc_bitmap_taskset_sscanf] read it back. *)

From Stdlib Require Import Ascii String.
From S2P Require Import Prelude Misc Bitmap BitmapSpec BitmapOps BitmapTests CString BitmapString CStringOk.

(** ** Halves of words *)

(** Mask [k] of the words [w]: 32 bits. *)
Definition half (w : Z -> Z) (k : nat) : Z :=
  let x := w (Z.of_nat k / 2) in if Nat.odd k then Z.shiftr x 32 else x mod 2 ^ 32.

(** The masks below [c], from the highest. *)
Fixpoint masks (w : Z -> Z) (c : nat) : list Z :=
  match c with O => [] | S c => half w c :: masks w c end.

Lemma masks_length w c : length (masks w c) = c.
Proof. induction c; simpl; auto. Qed.

Lemma half_range w k : word (w (Z.of_nat k / 2)) -> 0 <= half w k < 2 ^ 32.
Proof.
  unfold word, half. intros Hw. destruct (Nat.odd k).
  - rewrite Z.shiftr_div_pow2 by lia. split; [apply Z.div_pos; lia|]. apply Z.div_lt_upper_bound; lia.
  - apply Z.mod_pos_bound. lia.
Qed.

Lemma half_double w n : half w (2 * n) = w (Z.of_nat n) mod 2 ^ 32.
Proof.
  unfold half. rewrite Nat.odd_mul. cbn [Nat.odd Nat.even negb andb].
  do 2 f_equal. rewrite Nat2Z.inj_mul, Z.mul_comm. apply Z.div_mul. lia.
Qed.

Lemma half_double_S w n : half w (S (2 * n)) = Z.shiftr (w (Z.of_nat n)) 32.
Proof.
  unfold half. rewrite Nat.odd_succ, Nat.even_mul. cbn [Nat.even orb].
  do 2 f_equal. rewrite Nat2Z.inj_succ, Nat2Z.inj_mul. change (Z.of_nat 2) with 2.
  replace (Z.succ (2 * Z.of_nat n)) with (1 + Z.of_nat n * 2) by lia. rewrite Z.div_add by lia. done.
Qed.

Lemma join_halves x : word x -> Z.lor (Z.shiftl (Z.shiftr x 32) 32) (x mod 2 ^ 32) = x.
Proof.
  intros _. rewrite <- Z.land_ones by lia. apply Z.bits_inj'. intros k Hk.
  rewrite Z.lor_spec, Z.land_spec. destruct (Z.lt_ge_cases k 32).
  - rewrite Z.shiftl_spec_low, Z.ones_spec_low by lia. by rewrite andb_true_r.
  - rewrite Z.shiftl_spec, Z.shiftr_spec, Z.ones_spec_high by lia.
    rewrite andb_false_r, orb_false_r. f_equal. lia.
Qed.

(** ** The text of masks *)

Definition mask_digits (m : Z) : chars := if m =? 0 then ["0"%char] else HWLOC_PRIxSUBBITMAP m.

(** One mask: nothing for an empty one that is not the last. *)
Definition mask_item (m : Z) (last : bool) : chars :=
  if negb (m =? 0) || last then txt "0x" ++ mask_digits m else [].

(** Nothing either for the empty ones in front. *)
Definition mask_piece (nc : bool) (m : Z) (last : bool) : chars :=
  if negb (m =? 0) || last || nc then comma nc (mask_item m last) else [].

Fixpoint mask_text (nc : bool) (l : list Z) : chars :=
  match l with
  | [] => []
  | m :: l => mask_piece nc m (bool_decide (l = [])) ++ mask_text (nc || negb (m =? 0)) l
  end.

Lemma mask_digits_ok m : 0 <= m < 2 ^ 32 ->
  is_digits 16 (mask_digits m) /\ reads 16 m (mask_digits m) /\ (1 <= length (mask_digits m) <= 8)%nat.
Proof.
  intros Hm. unfold mask_digits, HWLOC_PRIxSUBBITMAP. destruct (Z.eqb_spec m 0) as [->|].
  - split_and!; [apply Forall_singleton; by eexists|apply (reads_zeros 16 1); lia|simpl; lia..].
  - destruct (fmt_0lx_text 8 m) as (H1 & H2 & ->); [lia|lia|change (16 ^ Z.of_nat 8) with (2 ^ 32); lia|].
    split_and!; [done|done|lia..].
Qed.

Lemma mask_text_length nc l :
  Forall (fun m => 0 <= m < 2 ^ 32) l -> (length (mask_text nc l) <= 11 * length l)%nat.
Proof.
  intros Hl. revert nc. induction Hl as [|m l Hm Hl IH]; intros nc; [simpl; lia|].
  cbn [mask_text]. rewrite length_app. specialize (IH (nc || negb (m =? 0))).
  assert (length (mask_piece nc m (bool_decide (l = []))) <= 11)%nat; [|simpl; lia].
  destruct (mask_digits_ok m Hm) as (_ & _ & Hlen).
  unfold mask_piece, mask_item, comma.
  destruct nc, (negb (m =? 0)), (bool_decide (l = [])); simpl; lia.
Qed.

Lemma masks_in_range w c :
  (forall x, 0 <= x -> 2 * x < Z.of_nat c -> word (w x)) -> Forall (fun m => 0 <= m < 2 ^ 32) (masks w c).
Proof.
  intros Hw. induction c as [|c IH]; simpl; constructor.
  - apply half_range. pose proof (Z.div_mod (Z.of_nat c) 2 ltac:(lia)).
    pose proof (Z.mod_pos_bound (Z.of_nat c) 2 ltac:(lia)). apply Hw; lia.
  - apply IH. intros. apply Hw; lia.
Qed.

(** ** Printing *)

Section Print.
Context `{MallocTotal}.

(** One turn of the loop, its accumulator being full or half empty. *)
Lemma accum_turn a : word a -> let sub := Z.land a accum_mask in
  Z.shiftr sub 32 = Z.shiftr a 32 /\ (sub =? 0) = (Z.shiftr a 32 =? 0).
Proof.
  unfold word. intros Ha. cbv zeta.
  assert (Z.land a accum_mask = Z.shiftl (Z.shiftr a 32) 32) as ->.
  { apply Z.bits_inj'. intros k Hk. rewrite Z.land_spec. change accum_mask with (Z.shiftl (Z.ones 32) 32).
    destruct (Z.lt_ge_cases k 32).
    - by rewrite !Z.shiftl_spec_low, andb_false_r by lia.
    - rewrite !Z.shiftl_spec, Z.shiftr_spec by lia. replace (k - 32 + 32) with k by lia.
      destruct (Z.lt_ge_cases k 64).
      + rewrite Z.ones_spec_low by lia. apply andb_true_r.
      + by rewrite (testbit_high a 64) by lia. }
  rewrite Z.shiftr_shiftl_l by lia. rewrite Z.sub_diag, Z.shiftl_0_r. split; [done|].
  rewrite Z.shiftl_mul_pow2 by lia. destruct (Z.eqb_spec (Z.shiftr a 32) 0) as [->|]; [done|].
  apply Z.eqb_neq. lia.
Qed.

Lemma loop_turn fuel set i a accumed nc buf size text o :
  word a -> accumed = 64 \/ accumed = 32 -> (size <= length buf)%nat ->
  let m := Z.shiftr a 32 in
  let piece := mask_piece nc m ((i =? -1) && (accumed =? 32)) in
  Z.of_nat (length (text ++ piece)) <= INT_MAX ->
  has_printed buf size text o ->
  exists o', snprintf_loop (S fuel) set i a accumed nc o
      = snprintf_loop fuel set i (u64 (Z.shiftl a 32)) (accumed - 32) (nc || negb (m =? 0)) o'
    /\ has_printed buf size (text ++ piece) o'.
Proof.
  intros Ha Hacc Hsize m piece Hmax Ho. cbn [snprintf_loop].
  destruct (Z.eqb_spec accumed 0) as [|_]; [lia|]. rewrite andb_false_r. cbn [mbind option_bind].
  destruct (accum_turn a Ha) as [Hsub Hz]. unfold HWLOC_BITS_PER_LONG, HWLOC_BITMAP_SUBSTRING_SIZE.
  change (64 - 32) with 32. rewrite Hsub, Hz. fold m.
  unfold piece, mask_piece, mask_item, mask_digits in *. destruct (Z.eqb_spec m 0) as [Hm|Hm]; cbn [negb orb] in *.
  - rewrite orb_false_r. destruct ((i =? -1) && (accumed =? 32)); cbn [orb] in *.
    + apply put_ok; done.
    + destruct nc.
      * apply put_ok; done.
      * exists o. split; [done|]. by rewrite app_nil_r.
  - rewrite orb_true_r. apply put_ok; done.
Qed.

Lemma loop_refill fuel set i x nc o w :
  0 <= i -> ulongs_get set i = Some w ->
  snprintf_loop (S fuel) set i x 0 nc o = snprintf_loop (S fuel) set (i - 1) w 64 nc o.
Proof.
  intros Hi Hw. cbn [snprintf_loop]. destruct (Z.ltb_spec i 0); [lia|].
  change (64 =? 0) with false. change (0 =? 0) with true. rewrite andb_false_r. cbn [andb].
  rewrite Hw. done.
Qed.

Lemma shift_halves x : word x -> word (u64 (Z.shiftl x 32)) /\
  Z.shiftr (u64 (Z.shiftl x 32)) 32 = x mod 2 ^ 32.
Proof.
  intros Hx. split; [apply word_u64|]. unfold u64.
  rewrite <- !Z.land_ones by lia. apply Z.bits_inj'. intros k Hk.
  rewrite Z.shiftr_spec, !Z.land_spec, Z.shiftl_spec by lia. replace (k + 32 - 32) with k by lia.
  destruct (Z.lt_ge_cases k 32).
  - by rewrite !Z.ones_spec_low by lia.
  - by rewrite !Z.ones_spec_high by lia.
Qed.

Lemma snprintf_loop_ok set n buf size x nc text o :
  (forall j, 0 <= j < Z.of_nat n -> ulongs_get set j = Some (nthw set j) /\ word (nthw set j)) ->
  (size <= length buf)%nat ->
  Z.of_nat (length (text ++ mask_text nc (masks (nthw set) (2 * n)))) <= INT_MAX ->
  has_printed buf size text o ->
  snprintf_loop (S (2 * n)) set (Z.of_nat n - 1) x 0 nc o
  = prints buf size (text ++ mask_text nc (masks (nthw set) (2 * n))).
Proof.
  intros Hw Hsize. revert x nc text o. induction n as [|n IH]; intros x nc text o Hmax Ho.
  - rewrite app_nil_r. by rewrite Ho.
  - replace (2 * S n)%nat with (S (S (2 * n))) in * by lia.
    destruct (Hw (Z.of_nat n) ltac:(lia)) as [Hget Hwn].
    replace (Z.of_nat (S n) - 1) with (Z.of_nat n) by lia. rewrite (loop_refill _ set (Z.of_nat n) x nc o _ ltac:(lia) Hget).
    destruct (shift_halves _ Hwn) as [Hw2 Hlow]. set (a := nthw set (Z.of_nat n)) in *.
    cbn [masks] in *. rewrite half_double_S, half_double in *. fold a in Hmax. fold a.
    cbn [mask_text] in *. rewrite (bool_decide_false (_ :: _ = [])) in * by done.
    rewrite !app_assoc in *.
    destruct (loop_turn (S (S (2 * n))) set (Z.of_nat n - 1) a 64 nc buf size text o) as (o1 & -> & Ho1); [done|auto|done| |done|].
    { rewrite andb_false_r. rewrite !length_app in *. lia. }
    rewrite andb_false_r in Ho1. change (64 - 32) with 32.
    destruct (loop_turn (S (2 * n)) set (Z.of_nat n - 1) (u64 (Z.shiftl a 32)) 32
      (nc || negb (Z.shiftr a 32 =? 0)) buf size (text ++ mask_piece nc (Z.shiftr a 32) false) o1 Hw2 (or_intror eq_refl) Hsize) as (o2 & -> & Ho2); [|done|].
    all: rewrite Hlow, andb_true_r in *.
    all: assert ((Z.of_nat n - 1 =? -1) = bool_decide (masks (nthw set) (2 * n) = [])) as Hlast
      by (destruct n; [done|]; rewrite bool_decide_false by (by replace (2 * S n)%nat with (S (S (2 * n))) by lia);
          apply Z.eqb_neq; lia).
    all: rewrite Hlast in *.
    + rewrite !length_app in *. lia.
    + change (32 - 32) with 0. rewrite <- (app_assoc _ _ (mask_text _ _)) in Hmax. apply IH; [intros; apply Hw; lia| |done].
      rewrite <- !app_assoc in *. done.
Qed.

(** What the functions print for a set. *)
Definition set_masks (set : hwloc_bitmap_s) : list Z := masks (nthw set) (2 * Z.to_nat (ulongs_count set)).

Definition all_full (set : hwloc_bitmap_s) : bool :=
  (ulongs_count set =? 1) && (nthw set 0 =? HWLOC_SUBBITMAP_FULL).

Definition bitmap_text (set : hwloc_bitmap_s) : chars :=
  if infinite set then FULL_PREFIX ++ (if all_full set then [] else mask_text true (set_masks set))
  else mask_text false (set_masks set).

(** Sets whose texts fit an [int]. *)
Definition printable (set : hwloc_bitmap_s) : Prop := wf set /\ ulongs_count set <= 2 ^ 20.

Lemma words_get set j :
  wf set -> 0 <= j < ulongs_count set -> ulongs_get set j = Some (nthw set j) /\ word (nthw set j).
Proof. intros Hs Hj. rewrite nthw_rd, ulongs_get_rd by (done || lia). split; [done|]. apply rd_word; [done|lia]. Qed.

Lemma set_masks_range set : wf set -> Forall (fun m => 0 <= m < 2 ^ 32) (set_masks set).
Proof. intros Hs. apply masks_in_range. intros x Hx Hc. apply words_get; [done|lia]. Qed.

Lemma bitmap_text_length set : printable set -> Z.of_nat (length (bitmap_text set)) <= INT_MAX.
Proof.
  intros [Hs Hc]. pose proof (wf_count set Hs).
  assert (forall nc, length (mask_text nc (set_masks set)) <= 11 * length (set_masks set))%nat as Hlen
    by (intros; apply mask_text_length, set_masks_range, Hs).
  unfold set_masks in Hlen at 2. rewrite masks_length in Hlen.
  pose proof (Hlen true). pose proof (Hlen false). unfold bitmap_text, INT_MAX.
  destruct (infinite set), (all_full set); rewrite ?length_app; simpl length; lia.
Qed.

Lemma one_full_word_ok set : wf set -> one_full_word set = Some (all_full set).
Proof.
  intros Hs. unfold one_full_word, all_full. destruct (Z.eqb_spec (ulongs_count set) 1); [|done].
  by rewrite (proj1 (words_get set 0 Hs ltac:(lia))).
Qed.

Lemma hwloc_bitmap_snprintf_ok set buf size :
  printable set -> (size <= length buf)%nat ->
  hwloc_bitmap_snprintf buf (Z.of_nat size) set = prints buf size (bitmap_text set).
Proof.
  intros Hp Hsize. pose proof (bitmap_text_length set Hp) as Hlen. destruct Hp as [Hs Hc].
  pose proof (wf_count set Hs). unfold hwloc_bitmap_snprintf.
  destruct (start_out_ok buf size Hsize) as (o & -> & Ho). cbn [mbind option_bind].
  set (n := Z.to_nat (ulongs_count set)).
  assert (ulongs_count set - 1 = Z.of_nat n - 1) as -> by lia.
  assert (forall j, 0 <= j < Z.of_nat n -> ulongs_get set j = Some (nthw set j) /\ word (nthw set j)) as Hw
    by (intros; apply words_get; [done|lia]).
  unfold bitmap_text in *. destruct (infinite set).
  - destruct (put_ok buf size [] FULL_PREFIX o (fun o =>
      let! full := one_full_word set in
      if full : bool then Some (o_ret o, o_buf o)
      else snprintf_loop (S (2 * n)) set (Z.of_nat n - 1) 0 0 true o)) as (o' & -> & Ho').
    + done.
    + done.
    + done.
    + rewrite one_full_word_ok by done. cbn [mbind option_bind]. destruct (all_full set).
      * rewrite app_nil_r. by rewrite Ho'.
      * rewrite (snprintf_loop_ok _ _ buf size _ _ FULL_PREFIX); done.
  - rewrite (snprintf_loop_ok _ _ buf size _ _ []); done.
Qed.

Lemma hwloc_bitmap_asprintf_ok set : printable set ->
  hwloc_bitmap_asprintf set = Some (Z.of_nat (length (bitmap_text set)), bitmap_text set ++ [NUL]).
Proof. intros Hp. apply asprintf_ok. intros. by apply hwloc_bitmap_snprintf_ok. Qed.

End Print.

(** ** Reading *)

Lemma read_item m last rest :
  0 <= m < 2 ^ 32 -> (rest = [] -> negb (m =? 0) || last = true) ->
  rest = [] \/ (exists s, rest = ","%char :: s) ->
  strtoul (mask_item m last ++ rest) 16 = (m, rest) /\ mask_item m last ++ rest <> [].
Proof.
  intros Hm Hne Hrest. unfold mask_item.
  assert (digit_ends 16 rest) as He by (by destruct Hrest as [-> | [s ->]]).
  destruct (negb (m =? 0) || last) eqn:Hitem.
  - destruct (mask_digits_ok m Hm) as (H1 & H2 & H3). rewrite <- app_assoc. split; [|done].
    apply strtoul_0x; [done| |done|done|lia]. destruct (mask_digits m); [simpl in H3; lia|done].
  - apply orb_false_elim in Hitem as [Hz _]. apply negb_false_iff, Z.eqb_eq in Hz as ->.
    destruct Hrest as [-> | [s ->]]; [by specialize (Hne eq_refl)|done].
Qed.

Lemma mask_text_true m l : mask_text true (m :: l) = ","%char :: mask_item m (bool_decide (l = [])) ++ mask_text true l.
Proof. cbn [mask_text]. unfold mask_piece. by rewrite orb_true_r. Qed.

Lemma mask_text_ends l : mask_text true l = [] \/ exists s, mask_text true l = ","%char :: s.
Proof. destruct l as [|m l]; [by left|]. right. rewrite mask_text_true. by eexists. Qed.

Lemma mask_text_nil l : mask_text true l = [] -> l = [].
Proof. destruct l; [done|]. by rewrite mask_text_true. Qed.

(** The accumulator before mask [c] is read: the upper mask of its word, if any. *)
Definition upper (w : Z -> Z) (c : nat) : Z :=
  if Nat.odd c then 0 else Z.shiftl (half w (S c)) 32.

Lemma even_or_odd c : (exists k, c = 2 * k)%nat \/ (exists k, c = S (2 * k))%nat.
Proof. destruct (Nat.Even_or_Odd c) as [[k ->] | [k ->]]; [left|right]; exists k; lia. Qed.

Lemma sscanf_loop_ok w c set fuel :
  array_ok set -> (forall x, 0 <= x -> 2 * x <= Z.of_nat c -> word (w x)) ->
  (c < fuel)%nat -> Z.of_nat c / 2 < ulongs_allocated set ->
  exists set', sscanf_loop fuel set
      (mask_item (half w c) (bool_decide (masks w c = [])) ++ mask_text true (masks w c))
      (Z.of_nat (S c)) (upper w c) = Some (true, set')
    /\ same_shape set set'
    /\ forall j, 0 <= j -> nthw set' j = if 2 * j <=? Z.of_nat c then w j else nthw set j.
Proof.
  revert set fuel. induction c as [c IH] using lt_wf_ind. intros set fuel Harr Hw Hfuel Hal.
  destruct fuel as [|fuel]; [lia|].
  assert (0 <= half w c < 2 ^ 32) as Hm
    by (apply half_range, Hw; [apply Z.div_pos; lia|apply Z.mul_div_le; lia]).
  destruct (read_item (half w c) (bool_decide (masks w c = [])) (mask_text true (masks w c)) Hm) as [Hread Hne].
  { intros Hnil. apply mask_text_nil in Hnil. rewrite Hnil. apply orb_true_r. }
  { apply mask_text_ends. }
  cbn [sscanf_loop]. destruct (_ ++ _) as [|d s] eqn:Hcur; [done|]. rewrite Hread. clear Hread Hne Hcur d s.
  replace (Z.of_nat (S c) - 1) with (Z.of_nat c) by lia.
  destruct (Z.ltb_spec 0 (Z.of_nat (S c))) as [_|]; [|lia].
  unfold HWLOC_BITMAP_SUBSTRING_SIZE, HWLOC_BITS_PER_LONG.
  change (HWLOC_BITMAP_STRING_PER_LONG) with 2.
  destruct (even_or_odd c) as [[k ->] | [k ->]].
  - assert (Z.of_nat (2 * k) = 2 * Z.of_nat k) as Hck by lia. rewrite !Hck in *.
    rewrite (Z.mul_comm 2), <- Z.mul_assoc, Z.mod_mul by lia. change (2 * 32) with 64. rewrite Z.mod_mul by lia.
    rewrite Z.shiftl_0_r, u64_small by lia. cbn [Z.eqb]. rewrite Z.div_mul in * by lia.
    rewrite (Z.mul_comm 2), Z.div_mul in Hal by lia.
    assert (Z.lor (upper w (2 * k)) (half w (2 * k)) = w (Z.of_nat k)) as ->.
    { unfold upper. rewrite Nat.odd_mul. cbn [Nat.odd Nat.even negb andb].
      rewrite half_double_S, half_double. apply join_halves. apply Hw; lia. }
    destruct (ulongs_set_ok set (Z.of_nat k) (w (Z.of_nat k)) Harr ltac:(lia)) as (s1 & -> & Hsh & Hw1).
    cbn [mbind option_bind].
    destruct k as [|k].
    + cbn [masks mask_text]. exists s1. split; [done|]. split; [done|]. intros j Hj. rewrite Hw1 by done.
      case_tests; subst; try done; lia.
    + replace (2 * S k)%nat with (S (S (2 * k))) by lia. cbn [masks]. rewrite mask_text_true.
      destruct (IH (S (2 * k)) ltac:(lia) s1 fuel) as (s2 & Hs2 & Hsh2 & Hw2).
      * by apply (array_ok_shape set).
      * intros. apply Hw; lia.
      * lia.
      * replace (ulongs_allocated s1) with (ulongs_allocated set) by (symmetry; apply Hsh).
        apply Z.div_lt_upper_bound; lia.
      * unfold upper in Hs2. rewrite Nat.odd_succ, Nat.even_mul in Hs2. cbn [Nat.even orb] in Hs2.
        exists s2. split; [|split].
        -- replace (Z.of_nat (S k) * 2) with (Z.of_nat (S (S (2 * k)))) by lia. exact Hs2.
        -- by transitivity s1.
        -- intros j Hj. rewrite Hw2, Hw1 by done. case_tests; try lia; try done. by subst.
  - assert (Z.of_nat (S (2 * k)) = 1 + Z.of_nat k * 2) as Hck by lia. rewrite Hck in *.
    replace ((1 + Z.of_nat k * 2) * 32) with (32 + Z.of_nat k * 64) by lia.
    rewrite !Z.mod_add by lia. change (32 mod 64) with 32. change (1 mod 2 =? 0) with false.
    cbn [mbind option_bind masks].
    rewrite mask_text_true. unfold upper at 1. rewrite Nat.odd_succ, Nat.even_mul. cbn [Nat.even orb].
    rewrite Z.lor_0_l, u64_small.
    2:{ rewrite Z.shiftl_mul_pow2 by lia. lia. }
    destruct (IH (2 * k)%nat ltac:(lia) set fuel) as (s2 & Hs2 & Hsh2 & Hw2).
    + done.
    + intros. apply Hw; lia.
    + lia.
    + rewrite Nat2Z.inj_mul, Z.mul_comm, Z.div_mul by lia. rewrite Z.div_add in Hal by lia.
      change (1 / 2) with 0 in Hal. lia.
    + unfold upper in Hs2. rewrite Nat.odd_mul in Hs2. cbn [Nat.odd Nat.even negb andb] in Hs2.
      exists s2. split; [|split; [done|]].
      * replace (1 + Z.of_nat k * 2) with (Z.of_nat (S (2 * k))) by lia. exact Hs2.
      * intros j Hj. rewrite Hw2 by done. case_tests; try done; lia.
Qed.

(** ** Commas and prefixes *)

Definition commas (s : chars) : nat := length (filter (fun c => (c =? ",")%char = true) s).

Lemma commas_app s t : commas (s ++ t) = (commas s + commas t)%nat.
Proof. unfold commas. by rewrite filter_app, length_app. Qed.

Lemma commas_cons s : commas (","%char :: s) = S (commas s).
Proof. done. Qed.

Lemma digits_none base c ds : is_digit base c = None -> is_digits base ds -> ~ c ∈ ds.
Proof. intros Hc Hds Hin. eapply Forall_forall in Hds; [|done]. rewrite Hc in Hds. by destruct Hds. Qed.

Lemma commas_none s : ~ ","%char ∈ s -> commas s = O.
Proof.
  intros Hs. unfold commas. induction s as [|c s IH]; [done|]. rewrite filter_cons_False.
  - apply IH. intros Hin. apply Hs. by right.
  - intros Hc. apply Ascii.eqb_eq in Hc as ->. apply Hs. by left.
Qed.

Lemma commas_item m last : 0 <= m < 2 ^ 32 -> commas (mask_item m last) = O.
Proof.
  intros Hm. unfold mask_item. destruct (_ || _); [|done]. rewrite commas_app.
  destruct (mask_digits_ok m Hm) as (H1 & _). by rewrite (commas_none (mask_digits m)) by (by apply (digits_none 16)).
Qed.

Lemma commas_masks l : Forall (fun m => 0 <= m < 2 ^ 32) l -> commas (mask_text true l) = length l.
Proof.
  induction 1 as [|m l Hm Hl IH]; [done|]. rewrite mask_text_true.
  rewrite commas_cons, commas_app, commas_item, IH by done. done.
Qed.

Lemma after_app p s : after p (p ++ s) = Some s.
Proof. induction p as [|c p IH]; [done|]. cbn. by rewrite Ascii.eqb_refl. Qed.

Lemma after_no_dots s : ~ "."%char ∈ s -> after FULL_PREFIX (txt "0x" ++ s) = None.
Proof.
  intros Hs. unfold FULL_PREFIX. cbn -[Ascii.eqb]. destruct s as [|c [|d s]]; [done| |].
  - by destruct (Ascii.eqb "f" c).
  - destruct (Ascii.eqb "f" c); [|done]. destruct (Ascii.eqb_spec "." d) as [<-|]; [|done].
    exfalso. apply Hs. right. by left.
Qed.

Lemma mask_item_no_dots m last : 0 <= m < 2 ^ 32 -> ~ "."%char ∈ mask_item m last.
Proof.
  intros Hm. unfold mask_item. destruct (_ || _); [|by apply not_elem_of_nil].
  destruct (mask_digits_ok m Hm) as (H1 & _). apply (digits_none 16 ".") in H1; [|done].
  cbn [txt list_ascii_of_string app]. by rewrite !not_elem_of_cons.
Qed.

Lemma mask_text_no_dots l : Forall (fun m => 0 <= m < 2 ^ 32) l -> ~ "."%char ∈ mask_text true l.
Proof.
  induction 1 as [|m l Hm Hl IH]; [by apply not_elem_of_nil|]. rewrite mask_text_true.
  rewrite not_elem_of_cons, elem_of_app. split; [done|].
  intros [Hin|Hin]; [by apply mask_item_no_dots in Hin|done].
Qed.

Lemma mask_text_longer l : l <> [] -> (length l < length (mask_text true l))%nat.
Proof.
  induction l as [|m l IH]; [done|]. intros _. rewrite mask_text_true. cbn [length].
  rewrite length_app. destruct (decide (l = [])) as [->|Hl].
  - rewrite bool_decide_true by done. unfold mask_item. rewrite orb_true_r, length_app. simpl. lia.
  - specialize (IH Hl). lia.
Qed.

(** ** Round trip *)

Lemma zero_word w k n :
  (forall x, 0 <= x < n -> word (w x)) -> 0 <= k < n ->
  half w (2 * Z.to_nat k) = 0 -> half w (S (2 * Z.to_nat k)) = 0 -> w k = 0.
Proof.
  intros Hw Hk. rewrite half_double, half_double_S, Z2Nat.id by lia. intros Hlo Hhi.
  rewrite <- (join_halves (w k)) by auto. by rewrite Hlo, Hhi.
Qed.

(** The text starts with the first mask that is not empty. *)
Lemma mask_text_start w N : N <> O -> exists c, (c < N)%nat /\
  mask_text false (masks w N) = mask_item (half w c) (bool_decide (masks w c = [])) ++ mask_text true (masks w c)
  /\ (half w c <> 0 \/ c = O) /\ forall k, (c < k < N)%nat -> half w k = 0.
Proof.
  induction N as [|N IH]; [done|]. intros _. cbn [masks mask_text]. unfold mask_piece.
  rewrite orb_false_r. cbn [orb comma]. destruct (Z.eqb_spec (half w N) 0) as [Hz|Hne]; cbn [negb orb].
  - destruct N as [|N].
    + exists O. cbn [masks mask_text]. split_and!; [lia|done|by right|lia].
    + destruct (IH ltac:(lia)) as (c & Hc & Heq & Hnz & Hzero). exists c.
      rewrite (bool_decide_false (masks w (S N) = [])) by done. split_and!; [lia|done|done|].
      intros k Hk. destruct (decide (k = S N)) as [->|]; [done|]. apply Hzero. lia.
  - exists N. split_and!; [lia|done|by left|lia].
Qed.

(** A set whose words are those of another one, up to words without members. *)
Lemma words_same_set s set n :
  array_ok s -> wf set -> ulongs_count s = n -> 1 <= n <= ulongs_count set ->
  (forall x, 0 <= x < n -> nthw s x = nthw set x) ->
  (forall x, n <= x < ulongs_count set -> infinite set = false /\ nthw set x = 0) ->
  wf (set_infinite s (infinite set)) /\ same_set (set_infinite s (infinite set)) set.
Proof.
  intros Ha Hset Hn Hle Hw Hrest. pose proof (wf_count set Hset).
  apply (set_intro (set_infinite s (infinite set)) (nthw set) (mem set)); simpl.
  - destruct Ha. by split.
  - lia.
  - intros x Hx. change (nthw (set_infinite s (infinite set)) x) with (nthw s x). rewrite Hw by lia.
    split; [done|]. apply words_get; [done|lia].
  - intros x k Hx Hk. rewrite mem_word, nthw_rd by lia. done.
  - intros i Hi. divmod64 i. destruct (Z.lt_ge_cases i (64 * ulongs_count set)) as [Hlt|Hge].
    + assert (i / 64 < ulongs_count set) by (apply Z.div_lt_upper_bound; lia).
      assert (n <= i / 64) by (apply Z.div_le_lower_bound; lia).
      destruct (Hrest (i / 64) ltac:(lia)) as [Hinf Hz]. rewrite Hinf. unfold mem.
      by rewrite <- nthw_rd, Hz, Z.testbit_0_l by done.
    + by rewrite mem_infinite by lia.
Qed.

Section Read.
Context `{MallocTotal}.

(** Reading the masks from [c] down into a bitmap. *)
Lemma parse_masks w c dst fuel inf set :
  wf dst -> wf set -> w = nthw set -> Z.of_nat c / 2 < ulongs_count set -> upper w c = 0 ->
  (c < fuel)%nat -> inf = infinite set ->
  (forall x, Z.of_nat c / 2 < x < ulongs_count set -> infinite set = false /\ w x = 0) ->
  exists s1 s2, hwloc_bitmap_reset_by_ulongs dst (Z.of_nat c / 2 + 1) = Some s1 /\
    sscanf_loop fuel (set_infinite s1 false)
      (mask_item (half w c) (bool_decide (masks w c = [])) ++ mask_text true (masks w c)) (Z.of_nat (S c)) 0
      = Some (true, s2)
    /\ wf (set_infinite s2 inf) /\ same_set (set_infinite s2 inf) set
    /\ ulongs_count (set_infinite s2 inf) <= ulongs_count set.
Proof.
  intros Hdst Hset -> Hc Hup Hfuel -> Hrest. pose proof (wf_count set Hset).
  assert (0 <= Z.of_nat c / 2) by (apply Z.div_pos; lia).
  destruct (reset_ok dst (Z.of_nat c / 2 + 1) (wf_array dst Hdst) ltac:(lia)) as (s1 & -> & Ha1 & Hc1 & _).
  assert (forall x, 0 <= x -> 2 * x <= Z.of_nat c -> word (nthw set x)) as Hw.
  { intros x Hx Hle. apply words_get; [done|]. split; [done|].
    assert (x <= Z.of_nat c / 2) by (apply Z.div_le_lower_bound; lia). lia. }
  destruct (sscanf_loop_ok (nthw set) c (set_infinite s1 false) fuel) as (s2 & Hs2 & Hsh & Hw2).
  - destruct Ha1. by split.
  - done.
  - done.
  - destruct Ha1. simpl. lia.
  - rewrite Hup in Hs2. exists s1, s2. split; [done|]. split; [done|].
    assert (array_ok (set_infinite s1 false)) as Ha1' by (destruct Ha1; by split).
    pose proof (array_ok_shape _ _ Hsh Ha1') as Ha2. destruct Hsh as (Hc2 & _ & _ & _). simpl in Hc2.
    assert (forall X Y, X /\ Y -> X /\ Y /\ ulongs_count (set_infinite s2 (infinite set)) <= ulongs_count set) as Hsz
      by (intros X Y [HX HY]; split_and!; [done|done|simpl; lia]).
    apply Hsz, (words_same_set s2 set (Z.of_nat c / 2 + 1)); [done|done|lia|lia| |].
    + intros x Hx.
      assert (2 * x <= Z.of_nat c) by (pose proof (Z.mul_div_le (Z.of_nat c) 2); lia).
      rewrite Hw2 by lia. by destruct (Z.leb_spec (2 * x) (Z.of_nat c)); [|lia].
    + intros x Hx. apply Hrest. lia.
Qed.

Lemma all_full_mem set i : wf set -> infinite set = true -> all_full set = true -> 0 <= i -> mem set i = true.
Proof.
  intros Hs Hinf Hfull Hi. apply andb_prop in Hfull as [Hc Hw]. apply Z.eqb_eq in Hc, Hw. divmod64 i.
  destruct (Z.lt_ge_cases i 64).
  - unfold mem. rewrite Z.div_small, <- nthw_rd, Hw by lia. by apply bit_full.
  - by rewrite mem_infinite by lia.
Qed.

Lemma count_substrings_commas s : count_substrings s = 1 + Z.of_nat (commas (tl s)).
Proof. done. Qed.

Lemma count_finite m last l :
  0 <= m < 2 ^ 32 -> negb (m =? 0) || last = true -> Forall (fun m => 0 <= m < 2 ^ 32) l ->
  count_substrings (mask_item m last ++ mask_text true l) = Z.of_nat (S (length l)).
Proof.
  intros Hm Hitem Hl. destruct (mask_digits_ok m Hm) as (H1 & _). apply (digits_none 16 ",") in H1; [|done].
  unfold mask_item. rewrite Hitem, count_substrings_commas.
  change (tl ((txt "0x" ++ mask_digits m) ++ ?s)) with (["x"%char] ++ mask_digits m ++ s).
  rewrite !commas_app, (commas_none (mask_digits m)), commas_masks by done.
  change (commas ["x"%char]) with O. lia.
Qed.

Lemma sscanf_infinite dst set : wf dst -> wf set -> infinite set = true ->
  exists dst', hwloc_bitmap_sscanf dst (FULL_PREFIX ++ mask_text true (set_masks set)) = Some (0, dst')
    /\ wf dst' /\ same_set dst' set /\ ulongs_count dst' <= ulongs_count set.
Proof.
  intros Hdst Hset Hinf. pose proof (wf_count set Hset) as Hcnt. pose proof (set_masks_range set Hset) as Hrange.
  unfold set_masks, hwloc_bitmap_sscanf in *. set (n := Z.to_nat (ulongs_count set)) in *.
  rewrite after_app. destruct n as [|k] eqn:Hn; [lia|].
  replace (2 * S k)%nat with (S (S (2 * k))) in * by lia.
  remember (S (2 * k)) as c eqn:Hc. cbn [masks] in *. rewrite mask_text_true in *.
  apply Forall_cons in Hrange as [Hm Hrange].
  assert (count_substrings (FULL_PREFIX ++ ","%char :: mask_item (half (nthw set) c) (bool_decide (masks (nthw set) c = []))
    ++ mask_text true (masks (nthw set) c)) - 1 = Z.of_nat (S c)) as ->.
  { rewrite count_substrings_commas. change (tl (FULL_PREFIX ++ ?s)) with (txt "xf...f" ++ s).
    rewrite commas_app, commas_cons, commas_app, commas_item, commas_masks, masks_length by done.
    change (commas (txt "xf...f")) with O. lia. }
  rewrite bool_decide_false by done. cbn [negb].
  change HWLOC_BITMAP_STRING_PER_LONG with 2.
  assert (Z.of_nat c / 2 = Z.of_nat k) as Hck
    by (rewrite Hc; replace (Z.of_nat (S (2 * k))) with (1 + Z.of_nat k * 2) by lia; by rewrite Z.div_add).
  assert ((Z.of_nat (S c) + 2 - 1) / 2 = Z.of_nat c / 2 + 1) as ->
    by (replace (Z.of_nat (S c) + 2 - 1) with (Z.of_nat c + 1 * 2) by lia; by rewrite Z.div_add).
  edestruct (parse_masks (nthw set) c dst) as (s1 & s2 & -> & Hloop & Hwf & Hsame); cycle -1.
  { cbn [mbind option_bind]. rewrite Hloop. cbn [mbind option_bind]. eexists. split; [done|]. split; [exact Hwf|exact Hsame]. }
  - done.
  - done.
  - done.
  - lia.
  - unfold upper. by rewrite Hc, Nat.odd_succ, Nat.even_mul.
  - rewrite !length_app. cbn [length]. rewrite length_app. change (length FULL_PREFIX) with 7%nat.
    destruct c as [|c]; [lia|]. pose proof (mask_text_longer (masks (nthw set) (S c)) ltac:(done)) as Hlong.
    rewrite masks_length in Hlong. lia.
  - done.
  - intros x Hx. lia.
Qed.

Lemma sscanf_finite dst set : wf dst -> wf set -> infinite set = false ->
  exists dst', hwloc_bitmap_sscanf dst (mask_text false (set_masks set)) = Some (0, dst')
    /\ wf dst' /\ same_set dst' set /\ ulongs_count dst' <= ulongs_count set.
Proof.
  intros Hdst Hset Hinf. pose proof (wf_count set Hset) as Hcnt. pose proof (set_masks_range set Hset) as Hrange.
  unfold set_masks, hwloc_bitmap_sscanf in *. set (n := Z.to_nat (ulongs_count set)) in *.
  assert (forall x, 0 <= x < ulongs_count set -> word (nthw set x)) as Hw by (intros; by apply words_get).
  destruct (mask_text_start (nthw set) (2 * n) ltac:(lia)) as (c & Hc & Htext & Hnz & Hzero). rewrite Htext.
  assert (Forall (fun m => 0 <= m < 2 ^ 32) (masks (nthw set) c)) as Hl
    by (apply masks_in_range; intros; apply Hw; lia).
  assert (0 <= half (nthw set) c < 2 ^ 32) as Hm.
  { apply half_range, Hw. split; [apply Z.div_pos; lia|]. apply Z.div_lt_upper_bound; lia. }
  assert (negb (half (nthw set) c =? 0) || bool_decide (masks (nthw set) c = []) = true) as Hitem.
  { destruct Hnz as [Hnz | ->]; [by rewrite (proj2 (Z.eqb_neq _ _) Hnz)|apply orb_true_r]. }
  assert (after FULL_PREFIX (mask_item (half (nthw set) c) (bool_decide (masks (nthw set) c = [])) ++
    mask_text true (masks (nthw set) c)) = None) as Hafter.
  { pose proof (mask_item_no_dots _ (bool_decide (masks (nthw set) c = [])) Hm) as Hd1.
    pose proof (mask_text_no_dots _ Hl) as Hd2. unfold mask_item in *. rewrite Hitem in *.
    rewrite <- app_assoc. apply after_no_dots. rewrite elem_of_app. intros [Hin|Hin]; [|done].
    apply Hd1. rewrite elem_of_app. by right. }
  rewrite Hafter, count_finite, masks_length by done. rewrite bool_decide_false.
  2:{ unfold mask_item. by rewrite Hitem. }
  cbn [negb]. change HWLOC_BITMAP_STRING_PER_LONG with 2.
  assert ((Z.of_nat (S c) + 2 - 1) / 2 = Z.of_nat c / 2 + 1) as ->
      by (replace (Z.of_nat (S c) + 2 - 1) with (Z.of_nat c + 1 * 2) by lia; by rewrite Z.div_add).
  assert (upper (nthw set) c = 0) as Hup.
  { unfold upper. destruct (even_or_odd c) as [[k ->] | [k ->]].
    - rewrite Nat.odd_mul. cbn [Nat.odd Nat.even negb andb]. rewrite Hzero by lia. done.
    - by rewrite Nat.odd_succ, Nat.even_mul. }
  edestruct (parse_masks (nthw set) c dst) as (s1 & s2 & -> & Hloop & Hwf & Hsame); cycle -1.
  { cbn [mbind option_bind]. rewrite Hloop. cbn [mbind option_bind]. eexists. split; [done|].
    split; [exact Hwf|exact Hsame]. }
  - done.
  - done.
  - done.
  - apply Z.div_lt_upper_bound; lia.
  - done.
  - rewrite length_app. destruct c as [|c].
    + unfold mask_item. rewrite Hitem. simpl. lia.
    + pose proof (mask_text_longer (masks (nthw set) (S c)) ltac:(done)) as Hlong.
      rewrite masks_length in Hlong. lia.
  - done.
  - intros x Hx. split; [done|]. assert (Z.of_nat c < 2 * x) by (pose proof (Z.div_mod (Z.of_nat c) 2 ltac:(lia)); pose proof (Z.mod_pos_bound (Z.of_nat c) 2 ltac:(lia)); lia).
    assert (0 <= Z.of_nat c / 2) by (apply Z.div_pos; lia).
    apply (zero_word _ _ (ulongs_count set)); [done|lia|apply Hzero; lia..].
Qed.

Lemma hwloc_bitmap_sscanf_ok dst set : wf dst -> wf set ->
  exists dst', hwloc_bitmap_sscanf dst (bitmap_text set) = Some (0, dst') /\ wf dst' /\ same_set dst' set
    /\ ulongs_count dst' <= ulongs_count set.
Proof.
  intros Hdst Hset. unfold bitmap_text. destruct (infinite set) eqn:Hinf; [|by apply sscanf_finite].
  destruct (all_full set) eqn:Hfull; [|by apply sscanf_infinite].
  rewrite app_nil_r. destruct (fill_sized_ok dst (wf_array dst Hdst)) as (r & Hr & Hsz & Hwf & Hmem).
  unfold hwloc_bitmap_sscanf. cbn -[hwloc_bitmap_fill]. rewrite Hr. exists r. split; [done|]. split; [done|].
  pose proof (wf_count set Hset). split; [|lia].
  intros i Hi. rewrite Hmem by done. by rewrite all_full_mem.
Qed.

End Read.

(** ** The text *)

Definition word_at (w : Z -> Z) (n : nat) : Z := w (Z.of_nat n).

(** Sixteen digits for each of the words below [n]. *)
Fixpoint words_text (w : Z -> Z) (n : nat) : chars :=
  match n with O => [] | S n => fmt_0lx 16 (word_at w n) ++ words_text w n end.

(** Nothing for the empty words in front. *)
Fixpoint words_text_start (w : Z -> Z) (n : nat) : chars :=
  match n with
  | O => []
  | S n => if negb (word_at w n =? 0) || (n =? 0)%nat then (txt "0x" ++ fmt_lx (word_at w n)) ++ words_text w n
           else words_text_start w n
  end.

Definition taskset_text (set : hwloc_bitmap_s) : chars :=
  let n := Z.to_nat (ulongs_count set) in
  if infinite set then FULL_PREFIX ++ (if all_full set then [] else words_text (nthw set) n)
  else words_text_start (nthw set) n.

Definition words_ok (w : Z -> Z) (n : nat) : Prop := forall k, (k < n)%nat -> word (word_at w k).

Lemma words_ok_S w n : words_ok w (S n) -> word (word_at w n) /\ words_ok w n.
Proof. intros H. split; [apply H; lia|]. intros k Hk. apply H. lia. Qed.

Lemma word_text_ok x : word x ->
  is_digits 16 (fmt_0lx 16 x) /\ reads 16 x (fmt_0lx 16 x) /\ length (fmt_0lx 16 x) = 16%nat.
Proof. intros Hx. apply fmt_0lx_text; [lia|done|exact (proj2 Hx)]. Qed.

Lemma lx_text_ok x : word x ->
  is_digits 16 (fmt_lx x) /\ reads 16 x (fmt_lx x) /\ (1 <= length (fmt_lx x) <= 16)%nat.
Proof.
  intros Hx. destruct (print_num_text 16 x ltac:(lia) Hx) as [H1 H2 H3 H4 _]. unfold fmt_lx.
  split_and!; [done|done| |apply H4; [lia|exact (proj2 Hx)]]. destruct (print_num 16 x); [done|simpl; lia].
Qed.

Lemma words_text_length w n : words_ok w n -> length (words_text w n) = (16 * n)%nat.
Proof.
  induction n as [|n IH]; intros Hw; [done|]. apply words_ok_S in Hw as [Hx Hw]. cbn [words_text].
  rewrite length_app, IH by done. destruct (word_text_ok _ Hx) as (_ & _ & ->). lia.
Qed.

Lemma words_text_digits w n : words_ok w n -> is_digits 16 (words_text w n).
Proof.
  induction n as [|n IH]; intros Hw; [by constructor|]. apply words_ok_S in Hw as [Hx Hw]. cbn [words_text].
  apply Forall_app. split; [by apply word_text_ok|by apply IH].
Qed.

Lemma words_text_start_eq w n : n <> O -> exists c, (c < n)%nat /\
  words_text_start w n = (txt "0x" ++ fmt_lx (word_at w c)) ++ words_text w c /\
  forall k, (c < k < n)%nat -> word_at w k = 0.
Proof.
  induction n as [|n IH]; [done|]. intros _. cbn [words_text_start].
  destruct (negb (word_at w n =? 0) || (n =? 0)%nat) eqn:Hn.
  - exists n. split_and!; [lia|done|lia].
  - apply orb_false_elim in Hn as [Hz Hn]. apply negb_false_iff, Z.eqb_eq in Hz. apply Nat.eqb_neq in Hn.
    destruct (IH Hn) as (c & Hc & Heq & Hzero). exists c. split_and!; [lia|done|].
    intros k Hk. destruct (decide (k = n)) as [->|]; [done|]. apply Hzero. lia.
Qed.

Lemma nthw_words_ok set : wf set -> words_ok (nthw set) (Z.to_nat (ulongs_count set)).
Proof. intros Hs k Hk. apply words_get; [done|lia]. Qed.

Lemma words_ok_le w m n : (m <= n)%nat -> words_ok w n -> words_ok w m.
Proof. intros Hle H k Hk. apply H. lia. Qed.

Lemma taskset_text_length set : printable set -> Z.of_nat (length (taskset_text set)) <= INT_MAX.
Proof.
  intros [Hs Hc]. pose proof (wf_count set Hs). pose proof (nthw_words_ok set Hs) as Hw.
  unfold taskset_text, INT_MAX. set (n := Z.to_nat (ulongs_count set)) in *.
  destruct (infinite set).
  - destruct (all_full set); rewrite length_app; [simpl; lia|]. rewrite words_text_length by done. simpl length. lia.
  - destruct (words_text_start_eq (nthw set) n ltac:(lia)) as (c & Hcn & -> & _).
    rewrite !length_app, words_text_length by (by apply (words_ok_le _ c n); [lia|]).
    destruct (lx_text_ok (word_at (nthw set) c) (Hw c Hcn)) as (_ & _ & Hlen). simpl length. lia.
Qed.

(** ** Printing *)

Section Print.
Context `{MallocTotal}.

Lemma taskset_loop_started set n buf size text o :
  (forall j, 0 <= j < Z.of_nat n -> ulongs_get set j = Some (nthw set j)) ->
  (size <= length buf)%nat -> Z.of_nat (length (text ++ words_text (nthw set) n)) <= INT_MAX ->
  has_printed buf size text o ->
  taskset_loop n set true o = prints buf size (text ++ words_text (nthw set) n).
Proof.
  intros Hw Hsize. revert text o. induction n as [|n IH]; intros text o Hmax Ho.
  - rewrite app_nil_r. by rewrite Ho.
  - cbn [taskset_loop words_text] in *. rewrite Hw by lia. cbn [mbind option_bind].
    rewrite app_assoc in *.
    destruct (put_ok buf size text (fmt_0lx 16 (nthw set (Z.of_nat n))) o (taskset_loop n set true)) as (o' & -> & Ho').
    + done.
    + rewrite length_app in Hmax. unfold word_at in Hmax. lia.
    + done.
    + apply IH; [intros; apply Hw; lia|done|done].
Qed.

Lemma taskset_loop_start set n buf size o :
  (forall j, 0 <= j < Z.of_nat n -> ulongs_get set j = Some (nthw set j)) ->
  (size <= length buf)%nat -> Z.of_nat (length (words_text_start (nthw set) n)) <= INT_MAX ->
  has_printed buf size [] o ->
  taskset_loop n set false o = prints buf size (words_text_start (nthw set) n).
Proof.
  intros Hw Hsize. induction n as [|n IH]; intros Hmax Ho; [by rewrite Ho|].
  cbn [taskset_loop words_text_start] in *. rewrite Hw by lia. cbn [mbind option_bind]. unfold word_at in *.
  destruct (negb (nthw set (Z.of_nat n) =? 0) || (n =? 0)%nat).
  - destruct (put_ok buf size [] (txt "0x" ++ fmt_lx (nthw set (Z.of_nat n))) o (taskset_loop n set true)) as (o' & -> & Ho').
    + done.
    + rewrite length_app in Hmax. cbn [app]. lia.
    + done.
    + apply taskset_loop_started; [intros; apply Hw; lia|done|done|done].
  - apply IH; [intros; apply Hw; lia|done|done].
Qed.

Lemma hwloc_bitmap_taskset_snprintf_ok set buf size :
  printable set -> (size <= length buf)%nat ->
  hwloc_bitmap_taskset_snprintf buf (Z.of_nat size) set = prints buf size (taskset_text set).
Proof.
  intros Hp Hsize. pose proof (taskset_text_length set Hp) as Hlen. destruct Hp as [Hs Hc].
  unfold hwloc_bitmap_taskset_snprintf.
  destruct (start_out_ok buf size Hsize) as (o & -> & Ho). cbn [mbind option_bind].
  assert (forall j, 0 <= j < Z.of_nat (Z.to_nat (ulongs_count set)) -> ulongs_get set j = Some (nthw set j)) as Hw
    by (intros; apply words_get; [done|lia]).
  unfold taskset_text in *. destruct (infinite set); [|by apply taskset_loop_start].
  destruct (put_ok buf size [] FULL_PREFIX o (fun o =>
    let! full := one_full_word set in
    if full : bool then Some (o_ret o, o_buf o)
    else taskset_loop (Z.to_nat (ulongs_count set)) set true o)) as (o' & -> & Ho'); [done|done|done|].
  rewrite one_full_word_ok by done. cbn [mbind option_bind]. destruct (all_full set).
  - rewrite app_nil_r. by rewrite Ho'.
  - by rewrite (taskset_loop_started _ _ buf size FULL_PREFIX).
Qed.

Lemma hwloc_bitmap_taskset_asprintf_ok set : printable set ->
  hwloc_bitmap_taskset_asprintf set = Some (Z.of_nat (length (taskset_text set)), taskset_text set ++ [NUL]).
Proof. intros Hp. apply asprintf_ok. intros. by apply hwloc_bitmap_taskset_snprintf_ok. Qed.

(** ** Reading *)

(** One chunk of digits [ds] for word [c] and the rest of the words. *)
Lemma taskset_sscanf_loop_ok w c set fuel ds :
  array_ok set -> words_ok w (S c) -> is_digits 16 ds -> reads 16 (word_at w c) ds ->
  (1 <= length ds <= 16)%nat -> (c < fuel)%nat -> Z.of_nat c < ulongs_allocated set ->
  exists set', taskset_sscanf_loop fuel set (ds ++ words_text w c)
      (Z.of_nat (length ds + 16 * c)) (Z.of_nat (S c)) = Some (true, set')
    /\ same_shape set set'
    /\ forall j, 0 <= j -> nthw set' j = if j <=? Z.of_nat c then w j else nthw set j.
Proof.
  revert set fuel ds. induction c as [|c IH]; intros set fuel ds Harr Hw Hds Hreads Hlen Hfuel Hal;
    (destruct fuel as [|fuel]; [lia|]); cbn [taskset_sscanf_loop];
    (destruct (ds ++ _) as [|d s] eqn:Hcur; [by destruct ds; [simpl in Hlen; lia|]|]); rewrite <- Hcur; clear Hcur d s;
    apply words_ok_S in Hw as [Hx Hw].
  all: change (HWLOC_BITS_PER_LONG / 4) with 16.
  all: match goal with |- context [if ?t mod 16 =? 0 then 16 else ?t mod 16] =>
    assert ((if t mod 16 =? 0 then 16 else t mod 16) = Z.of_nat (length ds)) as -> end.
  1, 3: rewrite Nat2Z.inj_add, Nat2Z.inj_mul, (Z.mul_comm (Z.of_nat 16)), Z.mod_add by lia;
    destruct (decide (length ds = 16%nat)) as [->|]; [done|]; rewrite Z.mod_small by lia;
    destruct (Z.eqb_spec (Z.of_nat (length ds)) 0); lia.
  all: rewrite Nat2Z.id, take_app_length, (strtoul_hex (word_at w _) ds) by (done || by destruct ds; [simpl in Hlen; lia|]).
  all: rewrite bool_decide_true by done; cbn [negb].
  all: match goal with |- context [Z.of_nat (S ?c) - 1] => replace (Z.of_nat (S c) - 1) with (Z.of_nat c) by lia end.
  all: match goal with Ha : array_ok ?s |- context [ulongs_set ?s (Z.of_nat ?c) ?v] =>
    destruct (ulongs_set_ok s (Z.of_nat c) v Ha ltac:(lia)) as (s1 & -> & Hsh & Hw1) end.
  all: cbn [mbind option_bind]; rewrite drop_app_length.
  - exists s1. split; [by destruct fuel|]. split; [done|]. intros j Hj. rewrite Hw1 by done.
    unfold word_at. case_tests; subst; try done; lia.
  - cbn [words_text]. destruct (word_text_ok (word_at w c)) as (H1 & H2 & H3); [by apply Hw; lia|].
    destruct (IH s1 fuel (fmt_0lx 16 (word_at w c))) as (s2 & Hs2 & Hsh2 & Hw2).
    + by apply (array_ok_shape set).
    + done.
    + done.
    + done.
    + lia.
    + lia.
    + replace (ulongs_allocated s1) with (ulongs_allocated set) by (symmetry; apply Hsh). lia.
    + exists s2. split; [|split].
      * rewrite H3 in Hs2.
        replace (Z.of_nat (length ds + 16 * S c) - Z.of_nat (length ds)) with (Z.of_nat (16 + 16 * c)) by lia. done.
      * by transitivity s1.
      * intros j Hj. rewrite Hw2, Hw1 by done. unfold word_at. case_tests; subst; try done; lia.
Qed.

Lemma taskset_count k c : (1 <= k <= 16)%nat ->
  (Z.of_nat (k + 16 * c) * 4 + HWLOC_BITS_PER_LONG - 1) / HWLOC_BITS_PER_LONG = Z.of_nat (S c).
Proof.
  intros Hk. unfold HWLOC_BITS_PER_LONG.
  replace (Z.of_nat (k + 16 * c) * 4 + 64 - 1) with (4 * Z.of_nat k - 1 + (1 + Z.of_nat c) * 64) by lia.
  rewrite Z.div_add by lia. rewrite Z.div_small by lia. lia.
Qed.

(** Reading the words from [c] down into a bitmap. *)
Lemma parse_words c dst fuel set ds :
  wf dst -> wf set -> Z.of_nat c < ulongs_count set ->
  is_digits 16 ds -> reads 16 (word_at (nthw set) c) ds -> (1 <= length ds <= 16)%nat -> (c < fuel)%nat ->
  (forall x, Z.of_nat c < x < ulongs_count set -> infinite set = false /\ nthw set x = 0) ->
  exists s1 s2, hwloc_bitmap_reset_by_ulongs dst (Z.of_nat (S c)) = Some s1 /\
    taskset_sscanf_loop fuel (set_infinite s1 false) (ds ++ words_text (nthw set) c)
      (Z.of_nat (length ds + 16 * c)) (Z.of_nat (S c)) = Some (true, s2)
    /\ wf (set_infinite s2 (infinite set)) /\ same_set (set_infinite s2 (infinite set)) set.
Proof.
  intros Hdst Hset Hc Hds Hreads Hlen Hfuel Hrest. pose proof (wf_count set Hset).
  destruct (reset_ok dst (Z.of_nat (S c)) (wf_array dst Hdst) ltac:(lia)) as (s1 & -> & Ha1 & Hc1 & _).
  assert (array_ok (set_infinite s1 false)) as Ha1' by (destruct Ha1; by split).
  destruct (taskset_sscanf_loop_ok (nthw set) c (set_infinite s1 false) fuel ds) as (s2 & Hs2 & Hsh & Hw2); try done.
  - apply (words_ok_le _ _ (Z.to_nat (ulongs_count set))); [lia|by apply nthw_words_ok].
  - destruct Ha1. simpl. lia.
  - exists s1, s2. split; [done|]. split; [done|].
    pose proof (array_ok_shape _ _ Hsh Ha1') as Ha2. destruct Hsh as (Hc2 & _ & _ & _). simpl in Hc2.
    apply (words_same_set s2 set (Z.of_nat (S c))); [done|done|lia|lia| |].
    + intros x Hx. rewrite Hw2 by lia. by destruct (Z.leb_spec x (Z.of_nat c)); [|lia].
    + intros x Hx. apply Hrest. lia.
Qed.

Lemma hwloc_bitmap_taskset_sscanf_ok dst set : wf dst -> wf set ->
  exists dst', hwloc_bitmap_taskset_sscanf dst (taskset_text set) = Some (0, dst') /\ wf dst' /\ same_set dst' set.
Proof.
  intros Hdst Hset. pose proof (wf_count set Hset) as Hcnt. pose proof (nthw_words_ok set Hset) as Hw.
  unfold taskset_text, hwloc_bitmap_taskset_sscanf. set (n := Z.to_nat (ulongs_count set)) in *.
  destruct (infinite set) eqn:Hinf; [destruct (all_full set) eqn:Hfull|].
  - rewrite app_nil_r. destruct (fill_any_ok dst (wf_array dst Hdst)) as (r & Hr & Hwf & Hmem).
    cbn -[hwloc_bitmap_fill]. rewrite Hr. exists r. split; [done|]. split; [done|].
    intros i Hi. rewrite Hmem by done. by rewrite all_full_mem.
  - rewrite after_app. destruct n as [|c] eqn:Hn; [lia|]. cbn [words_text].
    apply words_ok_S in Hw as [Hx Hw]. destruct (word_text_ok _ Hx) as (H1 & H2 & H3).
    destruct (fmt_0lx 16 (word_at (nthw set) c) ++ words_text (nthw set) c) as [|d s] eqn:Htext.
    { apply app_eq_nil in Htext as [Hnil _]. by rewrite Hnil in H3. }
    rewrite <- Htext. rewrite length_app, words_text_length, taskset_count by (done || lia).
    edestruct (parse_words c dst) as (s1 & s2 & -> & Hloop & Hwf & Hsame); cycle -1.
    { cbn [mbind option_bind]. rewrite Hloop. cbn [mbind option_bind]. rewrite Hinf in *. by eexists. }
    all: done || lia.
  - destruct (words_text_start_eq (nthw set) n ltac:(lia)) as (c & Hc & Htext & Hzero). rewrite Htext.
    destruct (lx_text_ok (word_at (nthw set) c) (Hw c Hc)) as (H1 & H2 & H3).
    pose proof (words_ok_le _ c n ltac:(lia) Hw) as Hwc.
    rewrite <- app_assoc, after_no_dots, after_app. cbn [default from_option id].
    2:{ apply (digits_none 16); [done|]. apply Forall_app. split; [done|by apply words_text_digits]. }
    destruct (fmt_lx (word_at (nthw set) c) ++ words_text (nthw set) c) as [|d s] eqn:Heq.
    { apply app_eq_nil in Heq as [Hnil _]. rewrite Hnil in H3. simpl in H3. lia. }
    cbv beta iota zeta delta [id]. rewrite <- Heq. rewrite length_app, words_text_length, taskset_count by (done || lia).
    edestruct (parse_words c dst) as (s1 & s2 & -> & Hloop & Hwf & Hsame); cycle -1.
    { cbn [mbind option_bind]. rewrite Hloop. cbn [mbind option_bind]. rewrite Hinf in *. by eexists. }
    all: try done; try lia.
    intros x Hx. split; [done|]. rewrite <- (Z2Nat.id x) by lia. apply Hzero. lia.
Qed.

End Print.
