(* ===== verification/ListTextOk.v ===== *)
(** * ListTextOk: lists of indexes as text, and their reading

    [hwloc_bitmap_list_snprintf] and [hwloc_bitmap_list_sscanf]. *)

From Stdlib Require Import Ascii String.
From S2P Require Import Prelude Misc Bitmap BitmapSpec BitmapOps BitmapTests CString BitmapString CStringOk MaskTextOk.

(** ** The ranges of a set *)

(** The maximal ranges of the members after [prev]; the last one may be infinite. *)
Inductive ranges (set : hwloc_bitmap_s) : Z -> list (Z * option Z) -> Prop :=
  | ranges_none prev :
      (forall i, prev < i -> mem set i = false) -> ranges set prev []
  | ranges_one prev b e l :
      prev < b <= e -> (forall i, prev < i < b -> mem set i = false) ->
      (forall i, b <= i <= e -> mem set i = true) -> mem set (e + 1) = false ->
      ranges set e l -> ranges set prev ((b, Some e) :: l)
  | ranges_tail prev b :
      prev < b -> (forall i, prev < i < b -> mem set i = false) ->
      (forall i, b <= i -> mem set i = true) -> ranges set prev [(b, None)].

Definition item_text (r : Z * option Z) : chars :=
  match r with
  | (b, Some e) => if e =? b then fmt_d b else fmt_d b ++ txt "-" ++ fmt_d e
  | (b, None) => fmt_d b ++ txt "-"
  end.

Definition tail_text (l : list (Z * option Z)) : chars := flat_map (fun r => ","%char :: item_text r) l.

Definition list_text (nc : bool) (l : list (Z * option Z)) : chars :=
  match l with [] => [] | r :: l => comma nc (item_text r) ++ tail_text l end.

Lemma tail_text_list l : tail_text l = list_text true l.
Proof. by destruct l. Qed.

(** Indexes below [2 ^ 26]. *)
Definition small_range (r : Z * option Z) : Prop :=
  0 <= fst r < 2 ^ 26 + 1 /\ forall e, snd r = Some e -> 0 <= e < 2 ^ 26.

Lemma item_text_length r : small_range r -> (length (item_text r) <= 21)%nat.
Proof.
  destruct r as [b [e|]]; intros [Hb He]; simpl in Hb, He; unfold item_text.
  - specialize (He e eq_refl). pose proof (fmt_d_short b ltac:(lia)). pose proof (fmt_d_short e ltac:(lia)).
    destruct (e =? b); rewrite ?length_app; simpl length; lia.
  - pose proof (fmt_d_short b ltac:(lia)). rewrite length_app. simpl length. lia.
Qed.

Lemma tail_text_length l : Forall small_range l -> (length (tail_text l) <= 22 * length l)%nat.
Proof.
  induction 1 as [|r l Hr Hl IH]; [simpl; lia|]. unfold tail_text in *. cbn [flat_map length app].
  rewrite length_app. pose proof (item_text_length r Hr). lia.
Qed.

Lemma list_text_length nc l : Forall small_range l -> (length (list_text nc l) <= 22 * length l)%nat.
Proof.
  intros Hl. pose proof (tail_text_length l Hl) as Ht. destruct l as [|r l]; [simpl; lia|]. destruct nc; [done|].
  unfold tail_text in Ht. cbn [list_text flat_map comma length app] in *. unfold tail_text. lia.
Qed.

(** ** Printing *)

Section Print.
Context `{MallocTotal}.

Lemma finite_last set i : wf set -> infinite set = false -> mem set i = true -> i < 64 * ulongs_count set.
Proof.
  intros Hs Hinf Hi. destruct (Z.lt_ge_cases i (64 * ulongs_count set)); [done|].
  pose proof (wf_count set Hs). rewrite mem_infinite in Hi by lia. congruence.
Qed.

(** The first member after [prev], and the end of its range. *)
Lemma next_range set reverse prev :
  wf set -> int_sized set -> wf reverse -> int_sized reverse ->
  (forall i, 0 <= i -> mem reverse i = negb (mem set i)) -> -1 <= prev < 64 * ulongs_count set ->
  (hwloc_bitmap_next set prev = Some (-1) /\ forall i, prev < i -> mem set i = false) \/
  exists b, hwloc_bitmap_next set prev = Some b /\ prev < b /\ b <= 64 * ulongs_count set /\
    (forall i, prev < i < b -> mem set i = false) /\
    ((hwloc_bitmap_next reverse b = Some (-1) /\ forall i, b <= i -> mem set i = true) \/
     exists e, hwloc_bitmap_next reverse b = Some (e + 1) /\ b <= e /\ e + 1 <= 64 * ulongs_count set /\
       (forall i, b <= i <= e -> mem set i = true) /\ mem set (e + 1) = false).
Proof.
  intros Hs Hsz Hr Hrsz Hrev Hprev. pose proof (wf_count set Hs). unfold int_sized in Hsz.
  destruct (next_ok set prev Hs Hsz ltac:(unfold INT_MAX; lia)) as (b & Hb & [[-> Hnone]|(Hle & Hmem & Hfirst)]).
  { left. split; [done|]. intros i Hi. apply Hnone. lia. }
  right. exists b. split; [done|]. split; [lia|].
  assert (b <= 64 * ulongs_count set) as Hbc.
  { destruct (Z.le_gt_cases b (64 * ulongs_count set)) as [|Hgt]; [done|].
    assert (mem set (64 * ulongs_count set) = false) as Hfalse by (apply Hfirst; lia).
    rewrite !mem_infinite in * by lia. congruence. }
  split; [done|]. split; [intros; apply Hfirst; lia|].
  destruct (next_ok reverse b Hr Hrsz ltac:(unfold INT_MAX; lia)) as (e & He & [[-> Hnone]|(Hle' & Hmem' & Hfirst')]).
  - left. split; [done|]. intros i Hi. destruct (Z.eq_dec i b) as [->|]; [done|].
    specialize (Hnone i ltac:(lia)). rewrite Hrev in Hnone by lia. by apply negb_false_iff in Hnone.
  - right. exists (e - 1). replace (e - 1 + 1) with e by lia. split; [done|]. split; [lia|].
    rewrite Hrev in Hmem' by lia. apply negb_true_iff in Hmem'.
    assert (forall i, b <= i < e -> mem set i = true) as Hin.
    { intros i Hi. destruct (Z.eq_dec i b) as [->|]; [done|].
      specialize (Hfirst' i ltac:(lia)). rewrite Hrev in Hfirst' by lia. by apply negb_false_iff in Hfirst'. }
    split_and!; [|intros; apply Hin; lia|done].
    destruct (Z.le_gt_cases e (64 * ulongs_count set)) as [|Hgt]; [done|].
    assert (mem set (64 * ulongs_count set) = true) as Htrue by (apply Hin; lia).
    rewrite !mem_infinite in * by lia. congruence.
Qed.

Lemma list_loop_ok set reverse fuel prev :
  wf set -> ulongs_count set <= 2 ^ 20 -> wf reverse -> int_sized reverse ->
  (forall i, 0 <= i -> mem reverse i = negb (mem set i)) -> -1 <= prev < 64 * ulongs_count set ->
  64 * ulongs_count set - prev <= Z.of_nat fuel ->
  exists l, ranges set prev l /\ Forall small_range l /\ (length l <= fuel)%nat /\
    forall nc buf size text o, (size <= length buf)%nat -> has_printed buf size text o ->
      Z.of_nat (length (text ++ list_text nc l)) <= INT_MAX ->
      list_snprintf_loop fuel set reverse prev nc o = prints buf size (text ++ list_text nc l).
Proof.
  intros Hs Hsz Hr Hrsz Hrev. revert prev. induction fuel as [|fuel IH]; intros prev Hprev Hfuel; [lia|].
  assert (int_sized set) as Hint by (unfold int_sized; lia).
  destruct (next_range set reverse prev Hs Hint Hr Hrsz Hrev Hprev)
    as [[Hn Hnone]|(b & Hn & Hpb & Hbc & Hgap & [[He Hin]|(e & He & Hbe & Hec & Hin & Hout)])].
  - exists []. split_and!; [by constructor|done|simpl; lia|]. intros nc buf size text o Hsize Ho _.
    cbn [list_snprintf_loop]. rewrite Hn. cbn [mbind option_bind Z.eqb]. by rewrite app_nil_r, Ho.
  - exists [(b, None)]. split_and!; [by apply ranges_tail| |simpl; lia|].
    { apply Forall_singleton. split; simpl; [lia|done]. }
    intros nc buf size text o Hsize Ho Hmax. cbn [list_snprintf_loop]. rewrite Hn. cbn [mbind option_bind].
    destruct (Z.eqb_spec b (-1)); [lia|]. rewrite He. cbn [mbind option_bind].
    destruct (Z.eqb_spec (-1) (b + 1)); [lia|]. change (-1 =? -1) with true.
    unfold list_text, tail_text in *. cbn [flat_map item_text] in *. rewrite app_nil_r in *.
    destruct (put_ok buf size text (comma nc (fmt_d b ++ txt "-")) o (fun o => Some (o_ret o, o_buf o)))
      as (o' & -> & ->); done.
  - destruct (IH e ltac:(lia) ltac:(lia)) as (l & Hl & Hsmall & Hlen & Hloop).
    exists ((b, Some e) :: l). split_and!; [by apply ranges_one| |simpl; lia|].
    { constructor; [|done]. split; simpl; [lia|]. intros ? [= <-]. lia. }
    intros nc buf size text o Hsize Ho Hmax. cbn [list_snprintf_loop]. rewrite Hn. cbn [mbind option_bind].
    destruct (Z.eqb_spec b (-1)); [lia|]. rewrite He. cbn [mbind option_bind].
    destruct (Z.eqb_spec (e + 1) (-1)); [lia|]. replace (e + 1 - 1) with e by lia.
    assert ((if e + 1 =? b + 1 then fmt_d b else fmt_d b ++ txt "-" ++ fmt_d e) = item_text (b, Some e)) as ->
      by (unfold item_text; case_tests; done || lia).
    cbn [list_text] in *. rewrite app_assoc in *. rewrite tail_text_list in *.
    destruct (put_ok buf size text (comma nc (item_text (b, Some e))) o
      (fun o => list_snprintf_loop fuel set reverse e true o))
      as (o' & -> & Ho'); [done| |done|by apply Hloop].
    rewrite length_app in Hmax. lia.
Qed.

(** The text of a set. *)
Definition has_list_text (set : hwloc_bitmap_s) (text : chars) : Prop :=
  exists l, ranges set (-1) l /\ Forall small_range l /\ text = list_text false l.

Lemma hwloc_bitmap_list_snprintf_ok set : printable set ->
  exists text, has_list_text set text /\ forall buf size, (size <= length buf)%nat ->
    hwloc_bitmap_list_snprintf buf (Z.of_nat size) set = prints buf size text.
Proof.
  intros [Hs Hc]. pose proof (wf_count set Hs).
  destruct (alloc_ok) as (r0 & Hr0 & Hwf0 & Hc0 & _).
  destruct (not_ok r0 (Other set) Hwf0 Hs) as (reverse & Hrev & Hwf & _ & Hcr & Hmem).
  cbn [deref] in *. rewrite Hc0 in Hcr.
  destruct (list_loop_ok set reverse (S (Z.to_nat (64 * ulongs_count set))) (-1))
    as (l & Hl & Hsmall & Hlen & Hloop); try done; try lia.
  { unfold int_sized. lia. }
  exists (list_text false l). split; [by exists l|]. intros buf size Hsize.
  unfold hwloc_bitmap_list_snprintf. rewrite Hr0. cbn [mbind option_bind]. rewrite Hrev. cbn [mbind option_bind].
  destruct (start_out_ok buf size Hsize) as (o & -> & Ho). cbn [mbind option_bind].
  rewrite count_bits_small by done. rewrite (Hloop false buf size [] o); [done|done|done|].
  cbn [app]. pose proof (list_text_length false l Hsmall). unfold INT_MAX. lia.
Qed.

End Print.

(** ** Reading *)

Section Read.
Context `{MallocTotal}.

(** A finite range only adds the words it needs. *)
Lemma set_range_count s b e r :
  wf s -> 0 <= b <= e -> e < MAX_CPU -> infinite s = false -> hwloc_bitmap_set_range s b e = Some r ->
  ulongs_count r <= Z.max (ulongs_count s) (e / 64 + 1).
Proof.
  intros Hs Hbe He Hinf. unfold hwloc_bitmap_set_range. cbv zeta.
  unfold MAX_CPU, MAX_COUNT in He. destruct (Z.eqb_spec e (-1)); [lia|]. rewrite u32_small, Hinf by lia. cbn [andb].
  destruct (Z.ltb_spec e b); [lia|].
  destruct (realloc_cpu_ok s e Hs ltac:(unfold MAX_CPU, MAX_COUNT; lia)) as (s1 & -> & Hs1 & Hidx & _ & Hc & _).
  cbn [mbind option_bind]. intros Hr.
  destruct (range_words_nthw s1 b e HWLOC_SUBBITMAP_FULL (fun m w => Z.lor w m)) as (r' & Hr' & Hsh & _);
    [apply Hs1|lia|lia|].
  rewrite Hr' in Hr. injection Hr as <-. destruct Hsh as (-> & _). lia.
Qed.

Lemma zero_count s : wf s -> exists r, hwloc_bitmap_zero s = Some r /\ wf r /\ infinite r = false /\
  ulongs_count r = 1 /\ forall i, 0 <= i -> mem r i = false.
Proof.
  intros Hs. destruct (zero_any_ok s (wf_array s Hs)) as (r & Hr & Hwf & Hmem). exists r. split; [done|].
  unfold hwloc_bitmap_zero in Hr.
  destruct (reset_ok s 1 (wf_array s Hs) ltac:(unfold MAX_COUNT; lia)) as (s1 & Hs1 & Ha1 & Hc1 & _).
  rewrite Hs1 in Hr. cbn [mbind option_bind] in Hr. unfold hwloc_bitmap__zero in Hr.
  destruct (write_words_ok 0 (ulongs_count s1) (fun _ => HWLOC_SUBBITMAP_ZERO) s1 Ha1) as (s2 & Hs2 & Hsh & _);
    [lia|lia|destruct Ha1; lia|].
  rewrite Hs2 in Hr. injection Hr as <-. destruct Hsh as (Hc2 & _). split_and!; [done|done|simpl; lia|done].
Qed.

(** What was read up to [prev]. *)
Record read_upto (set dst : hwloc_bitmap_s) (prev : Z) : Prop := {
  ru_wf : wf dst;
  ru_inf : infinite dst = false;
  ru_count : ulongs_count dst = Z.max 0 prev / 64 + 1;
  ru_mem : forall i, 0 <= i -> mem dst i = (i <=? prev) && mem set i;
}.

Lemma read_upto_count dst e c :
  wf dst -> infinite dst = false -> 0 <= e -> mem dst e = true -> c <= e / 64 + 1 ->
  ulongs_count dst <= c -> ulongs_count dst = Z.max 0 e / 64 + 1.
Proof.
  intros Hd Hinf He Hm Hc Hle. pose proof (finite_last dst e Hd Hinf Hm). rewrite Z.max_r by lia.
  assert (e / 64 < ulongs_count dst) by (apply Z.div_lt_upper_bound; lia). lia.
Qed.

Lemma read_upto_range set dst prev b e :
  read_upto set dst prev -> -1 <= prev < b -> b <= e -> e < 2 ^ 26 ->
  (forall i, prev < i < b -> mem set i = false) -> (forall i, b <= i <= e -> mem set i = true) ->
  exists dst', hwloc_bitmap_set_range dst b e = Some dst' /\ read_upto set dst' e.
Proof.
  intros [Hwf Hinf Hc Hmem] Hpb Hbe He Hgap Hin.
  destruct (set_range_ok dst b e Hwf) as (r & Hr & Hwf' & Hinf' & Hmem'); [unfold MAX_CPU, MAX_COUNT; lia..|].
  exists r. split; [done|].
  pose proof (set_range_count dst b e r Hwf ltac:(lia) ltac:(unfold MAX_CPU, MAX_COUNT; lia) Hinf Hr) as Hcr.
  assert (forall i, 0 <= i -> mem r i = (i <=? e) && mem set i) as Hm.
  { intros i Hi. rewrite Hmem', Hmem by done. unfold in_range. case_tests; cbn [andb orb]; try done; try lia.
    - by rewrite Hin by lia.
    - by rewrite Hgap by lia. }
  split; [done|congruence| |done].
  assert (Z.max 0 prev / 64 <= e / 64) by (apply Z.div_le_mono; lia).
  eapply (read_upto_count r e); [done|congruence|lia| |reflexivity|lia].
  rewrite Hm, Hin by lia. destruct (Z.leb_spec e e); [done|lia].
Qed.

Lemma read_upto_one set dst prev b :
  read_upto set dst prev -> -1 <= prev < b -> b < 2 ^ 26 ->
  (forall i, prev < i < b -> mem set i = false) -> mem set b = true ->
  exists dst', hwloc_bitmap_set dst b = Some dst' /\ read_upto set dst' b.
Proof.
  intros [Hwf Hinf Hc Hmem] Hpb Hb Hgap Hin.
  destruct (set_ok dst b Hwf) as (r & Hr & Hwf' & Hinf' & Hcr & Hmem'); [unfold MAX_CPU, MAX_COUNT; lia|].
  exists r. split; [done|].
  assert (forall i, 0 <= i -> mem r i = (i <=? b) && mem set i) as Hm.
  { intros i Hi. rewrite Hmem', Hmem by done. case_tests; subst; cbn [andb orb]; try done; try lia.
    by rewrite Hgap by lia. }
  split; [done|congruence| |done].
  assert (Z.max 0 prev / 64 <= b / 64) by (apply Z.div_le_mono; lia).
  eapply (read_upto_count r b); [done|congruence|lia| |reflexivity|lia].
  rewrite Hm, Hin by lia. destruct (Z.leb_spec b b); [done|lia].
Qed.

(** ** The items of a list *)

Lemma fmt_d_cons b : 0 <= b < 2 ^ 31 -> exists c s, fmt_d b = c :: s /\ c <> ","%char.
Proof.
  intros Hb. unfold fmt_d. destruct (Z.ltb_spec b 0); [lia|].
  destruct (print_num_text 10 b ltac:(lia) ltac:(lia)) as [Hds _ Hne _ _].
  destruct (print_num 10 b) as [|c s]; [done|].
  exists c, s. split; [done|]. apply Forall_cons in Hds as [Hc _]. by apply (digit_not 10).
Qed.

Lemma skip_commas_id c s : c <> ","%char -> skip_commas (c :: s) = c :: s.
Proof. intros Hc. destruct c as [[] [] [] [] [] [] [] []]; done. Qed.

Lemma to_long_small x : 0 <= x < 2 ^ 31 -> to_long x = x.
Proof. intros Hx. unfold to_long. rewrite Z.mod_small; lia. Qed.

(** One turn of the loop on a number. *)
Lemma list_sscanf_turn fuel set b rest begin :
  0 <= b < 2 ^ 31 -> item_end rest ->
  list_sscanf_loop (S fuel) set (fmt_d b ++ rest) begin =
    let! (set, begin, stop) :=
      if negb (begin =? -1) then
        let! set := hwloc_bitmap_set_range set (u32 begin) b in Some (set, -1, false)
      else
        match rest with
        | "-"%char :: [] => let! set := hwloc_bitmap_set_range set b (-1) in Some (set, begin, true)
        | "-"%char :: _ => Some (set, b, false)
        | ","%char :: _ | [] => let! set := hwloc_bitmap_set set b in Some (set, begin, false)
        | _ => Some (set, begin, false)
        end in
    match rest with
    | [] => Some (0, set)
    | _ :: current => if stop : bool then Some (0, set) else list_sscanf_loop fuel set current begin
    end.
Proof.
  intros Hb Hrest. destruct (fmt_d_cons b Hb) as (c & s & Hfmt & Hc).
  pose proof (fmt_d_reads b rest Hb Hrest) as Hread. pose proof (fmt_d_short b Hb) as Hlen.
  rewrite Hfmt in *. cbn [app] in *. cbn [list_sscanf_loop]. rewrite skip_commas_id, Hread by done.
  rewrite to_long_small, s32_small, (u32_small b) by lia.
  destruct (Nat.eqb_spec (length rest) (length (c :: s ++ rest))) as [Heq|]; [|done].
  simpl in Heq. rewrite length_app in Heq. lia.
Qed.

(** The result of reading: bits can be added before the infinite range. *)
Definition list_read (set dst : hwloc_bitmap_s) : Prop :=
  wf dst /\ (infinite set = false -> same_set dst set) /\
  forall p b, infinite set = true -> -1 <= p < b -> (p = -1 \/ mem set p = true) ->
    (forall i, p < i < b -> mem set i = false) -> (forall i, b <= i -> mem set i = true) ->
    b = 0 \/ mem set (b - 1) = false ->
    forall i, 0 <= i -> mem dst i = mem set i || (64 * (Z.max 0 p / 64 + 1) <=? i).

Lemma tail_end l : item_end (tail_text l).
Proof. by destruct l as [|r l]. Qed.

Lemma read_none set dst prev : wf set -> read_upto set dst prev -> 
  (forall i, prev < i -> mem set i = false) -> list_read set dst.
Proof.
  intros Hs [Hwf Hinf Hc Hmem] Hnone. pose proof (wf_count set Hs).
  assert (infinite set = false) as Hset.
  { rewrite <- (mem_infinite set (Z.max (prev + 1) (64 * ulongs_count set))) by lia. apply Hnone. lia. }
  split; [done|]. split; [|congruence]. intros _ i Hi. rewrite Hmem by done.
  destruct (Z.leb_spec i prev); [done|]. by rewrite Hnone by lia.
Qed.

Lemma read_tail set dst prev b : wf set -> read_upto set dst prev -> -1 <= prev < b -> b < 2 ^ 26 + 1 ->
  (prev = -1 \/ mem set prev = true) -> (b = 0 \/ mem set (b - 1) = false) ->
  (forall i, prev < i < b -> mem set i = false) -> (forall i, b <= i -> mem set i = true) ->
  exists dst', hwloc_bitmap_set_range dst b (-1) = Some dst' /\ list_read set dst'.
Proof.
  intros Hs [Hwf Hinf Hc Hmem] Hpb Hb Hprev Hbm Hgap Hin. pose proof (wf_count set Hs).
  destruct (set_range_inf_ok dst b Hwf) as (r & Hr & Hwf' & Hinf' & Hmem'); [unfold MAX_CPU, MAX_COUNT; lia|].
  exists r. split; [done|]. split; [done|].
  assert (infinite set = true) as Hset.
  { rewrite <- (mem_infinite set (Z.max b (64 * ulongs_count set))) by lia. apply Hin. lia. }
  split; [congruence|]. intros p b' _ Hpb' Hp Hgap' Hin' Hbm' i Hi.
  assert (b' = b) as ->.
  { destruct (Z.lt_trichotomy b' b) as [Hlt|[|Hlt]]; [|done|].
    - destruct Hbm as [|Hbm]; [lia|]. rewrite Hin' in Hbm by lia. done.
    - destruct Hbm' as [|Hbm']; [lia|]. rewrite Hin in Hbm' by lia. done. }
  assert (p = prev) as ->.
  { destruct (Z.lt_trichotomy p prev) as [Hlt|[|Hlt]]; [|done|].
    - destruct Hprev as [|Hprev]; [lia|]. rewrite Hgap' in Hprev by lia. done.
    - destruct Hp as [|Hp]; [lia|]. rewrite Hgap in Hp by lia. done. }
  rewrite Hmem', Hmem, Hc by done.
  assert (prev < 64 * (Z.max 0 prev / 64 + 1)) as Hlast.
  { divmod64 (Z.max 0 prev). lia. }
  destruct (Z.leb_spec b i).
  - rewrite (Hin i), (proj2 (Z.leb_le _ i)) by lia. done.
  - destruct (Z.leb_spec i prev).
    + rewrite (proj2 (Z.leb_gt (Z.min _ _) i)), (proj2 (Z.leb_gt (64 * _) i)) by lia. by rewrite orb_false_r.
    + rewrite (Hgap i) by lia. cbn [andb]. rewrite orb_false_r. cbn [orb]. case_tests; done || lia.
Qed.

Lemma tail_text_cons r l : tail_text (r :: l) = ","%char :: list_text false (r :: l).
Proof. done. Qed.

Lemma list_sscanf_ranges set l prev : wf set -> ranges set prev l -> Forall small_range l ->
  forall dst fuel, read_upto set dst prev -> -1 <= prev -> prev = -1 \/ (mem set prev = true /\ mem set (prev + 1) = false) ->
  (length (list_text false l) <= fuel)%nat ->
  exists dst', list_sscanf_loop fuel dst (list_text false l) (-1) = Some (0, dst') /\ list_read set dst'.
Proof.
  intros Hs Hr. induction Hr as [prev Hnone|prev b e l Hpbe Hgap Hin Hout Hl IH|prev b Hpb Hgap Hin];
    intros Hsmall dst fuel Hdst Hprev Hmem Hfuel.
  - exists dst. split; [by destruct fuel|]. by apply (read_none set dst prev).
  - apply Forall_cons in Hsmall as [[Hb He] Hsmall]. specialize (He e eq_refl). simpl in Hb.
    (* what follows the item *)
    assert (forall dst' fuel', read_upto set dst' e -> (length (tail_text l) <= fuel')%nat -> exists dst'',
      match tail_text l with [] => Some (0, dst') | _ :: current => list_sscanf_loop fuel' dst' current (-1) end
        = Some (0, dst'') /\ list_read set dst'') as Hnext.
    { intros dst' fuel' Hdst' Hfuel'. destruct l as [|r l].
      - exists dst'. split; [done|]. inversion Hl. by apply (read_none set dst' e).
      - rewrite tail_text_cons in *. simpl in Hfuel'.
        apply IH; [done|done|lia| |simpl; lia]. right. split; [apply Hin; lia|done]. }
    cbn [list_text comma item_text] in *. rewrite length_app in Hfuel.
    destruct (Z.eqb_spec e b) as [->|Hne].
    + pose proof (fmt_d_short b ltac:(lia)) as Hlen. destruct fuel as [|fuel]; [lia|].
      rewrite list_sscanf_turn by (lia || apply tail_end). change (negb (-1 =? -1)) with false. cbv iota.
      destruct (read_upto_one set dst prev b Hdst) as (dst' & Hset & Hdst'); [lia|lia|done|apply Hin; lia|].
      destruct (Hnext dst' fuel Hdst' ltac:(lia)) as (dst'' & Hrun & Hread). exists dst''. split; [|done].
      destruct l as [|r l]; cbn [tail_text flat_map app] in *; rewrite Hset; exact Hrun.
    + rewrite !length_app in Hfuel. simpl length in Hfuel.
      pose proof (fmt_d_short b ltac:(lia)) as Hlb. pose proof (fmt_d_short e ltac:(lia)) as Hle.
      destruct fuel as [|[|fuel]]; [lia|lia|]. rewrite <- !app_assoc. change (txt "-" ++ ?s) with ("-"%char :: s).
      rewrite list_sscanf_turn by (lia || done). change (negb (-1 =? -1)) with false. cbv iota.
      destruct (fmt_d e ++ tail_text l) as [|c s] eqn:Htext.
      { apply app_eq_nil in Htext as [Hnil _]. rewrite Hnil in Hle. simpl in Hle. lia. }
      cbn [mbind option_bind]. rewrite <- Htext.
      rewrite list_sscanf_turn by (lia || apply tail_end). destruct (Z.eqb_spec b (-1)); [lia|]. cbn [negb].
      destruct (read_upto_range set dst prev b e Hdst) as (dst' & Hset & Hdst'); [lia..|done|done|].
      rewrite u32_small, Hset by lia. cbn [mbind option_bind]. apply Hnext; [done|lia].
  - apply Forall_cons in Hsmall as [[Hb _] _]. simpl in Hb.
    destruct (read_tail set dst prev b Hs Hdst) as (dst' & Hset & Hread); [lia|lia| | |done|done|].
    { by destruct Hmem as [|[? _]]; [left|right]. }
    { destruct (Z.eq_dec b 0); [by left|right]. destruct (Z.eq_dec prev (b - 1)) as [->|].
      - destruct Hmem as [|[_ Hm]]; [lia|]. replace (b - 1 + 1) with b in Hm by lia. rewrite Hin in Hm by lia. done.
      - apply Hgap. lia. }
    exists dst'. split; [|done]. cbn [list_text comma item_text tail_text flat_map] in *. rewrite app_nil_r in *.
    rewrite length_app in Hfuel. pose proof (fmt_d_short b ltac:(lia)). destruct fuel as [|fuel]; [lia|].
    change (txt "-") with ["-"%char]. rewrite list_sscanf_turn by (lia || done).
    change (negb (-1 =? -1)) with false. cbv iota. rewrite Hset. done.
Qed.

Lemma hwloc_bitmap_list_sscanf_ok dst set text : wf dst -> wf set -> has_list_text set text ->
  exists dst', hwloc_bitmap_list_sscanf dst text = Some (0, dst') /\ list_read set dst'.
Proof.
  intros Hdst Hs (l & Hl & Hsmall & ->). unfold hwloc_bitmap_list_sscanf.
  destruct (zero_count dst Hdst) as (r & -> & Hwf & Hinf & Hc & Hmem). cbn [mbind option_bind].
  apply (list_sscanf_ranges set l (-1)); [done|done|done| |lia|by left|lia].
  split; [done|done|done|]. intros i Hi. rewrite Hmem by done. by destruct (Z.leb_spec i (-1)); [lia|].
Qed.

End Read.
