(* ===== verification/Cpuset.v ===== *)
(** * Cpuset: what the topology code relies on of the bitmaps

    [CpusetOps] are the operations of [include/hwloc/bitmap.h] that the rest of
    the library calls, on an abstract type; [Cpuset] states their laws in terms
    of the denoted set [bm] and of finiteness [bfin].  The components on top are
    proved against the class; [bitmap_cpuset] discharges it with the code of
    Bitmap.v.  The laws of [b_isincluded], [b_intersects] and [b_compare_first]
    carry the finiteness conditions under which the code keeps them. *)

From S2P Require Import Prelude Misc Bitmap BitmapSpec BitmapOps BitmapTests BitmapModel.

(** ** The interface *)

Class CpusetOps (B : Type) := {
  bm : B -> Z -> bool;             (** membership *)
  bfin : B -> bool;                (** finitely many members *)
  b_alloc : B;
  b_alloc_full : B;
  b_only : Z -> B;
  b_set : B -> Z -> B;
  b_clr : B -> Z -> B;
  b_or : B -> B -> B;
  b_and : B -> B -> B;
  b_andnot : B -> B -> B;
  b_not : B -> B;
  b_isset : B -> Z -> bool;
  b_iszero : B -> bool;
  b_isequal : B -> B -> bool;
  b_isincluded : B -> B -> bool;
  b_intersects : B -> B -> bool;
  b_compare_first : B -> B -> Z;
  b_first : B -> Z;
  b_next : B -> Z -> Z;
  b_weight : B -> Z;
}.

(** Indexes that fit the arrays of a cpuset. *)
Definition CPU_MAX : Z := 64 * (2 ^ 25 - 2).

Section Spec.
Context {B : Type} `{CpusetOps B}.
Implicit Types a b : B.

Definition bsub a b : Prop := forall i, 0 <= i -> bm a i = true -> bm b i = true.
Definition bdisj a b : Prop := forall i, 0 <= i -> bm a i = true -> bm b i = true -> False.
Definition bempty a : Prop := forall i, 0 <= i -> bm a i = false.
Definition beq a b : Prop := forall i, 0 <= i -> bm a i = bm b i.
(** [r] is the least member from [lo] on, -1 for none. *)
Definition bfirst_from a (lo r : Z) : Prop :=
  (r = -1 /\ forall i, lo <= i -> bm a i = false) \/
  (lo <= r /\ bm a r = true /\ forall i, lo <= i < r -> bm a i = false).
(** The least member of [a] comes before every member of [b]. *)
Definition bbefore a b : Prop :=
  exists i, 0 <= i /\ bm a i = true /\ forall j, 0 <= j <= i -> bm b j = false.

#[export] Instance beq_equiv : Equivalence beq.
Proof.
  split; [by intros a i|intros a b Hab i Hi; symmetry; auto|].
  intros a b c Hab Hbc i Hi. rewrite Hab by done. auto.
Qed.

#[export] Instance bsub_preorder : PreOrder bsub.
Proof. split; [by intros a i|intros a b c Hab Hbc i Hi Hm; auto]. Qed.

#[export] Instance bsub_proper : Proper (beq ==> beq ==> iff) bsub.
Proof.
  intros a a' Ha b b' Hb. unfold bsub. split; intros Hs i Hi; specialize (Hs i Hi);
    rewrite Ha, Hb in * by done; done.
Qed.

#[export] Instance bdisj_proper : Proper (beq ==> beq ==> iff) bdisj.
Proof.
  intros a a' Ha b b' Hb. unfold bdisj. split; intros Hs i Hi; specialize (Hs i Hi);
    rewrite Ha, Hb in * by done; done.
Qed.

#[export] Instance bdisj_sym : Symmetric bdisj.
Proof. intros a b Hd i Hi Ha Hb. by apply (Hd i). Qed.

Lemma bdisj_sub a a' b b' : bdisj a b -> bsub a' a -> bsub b' b -> bdisj a' b'.
Proof. intros Hd Ha Hb i Hi Hma Hmb. apply (Hd i); auto. Qed.

(** A non-empty set does not lie in two disjoint ones. *)
Lemma bsub_disj_empty a b c : bsub a b -> bsub a c -> bdisj b c -> bempty a.
Proof.
  intros Hb Hc Hd i Hi. destruct (bm a i) eqn:Hm; [|done]. exfalso. apply (Hd i); auto.
Qed.

Lemma bbefore_asym a b : bbefore a b -> bbefore b a -> False.
Proof.
  intros (i & Hi & Hai & Hbi) (j & Hj & Hbj & Haj).
  destruct (Z.le_ge_cases i j); [rewrite Haj in Hai by lia|rewrite Hbi in Hbj by lia]; done.
Qed.

Lemma bbefore_trans a b c : bbefore a b -> bbefore b c -> bbefore a c.
Proof.
  intros (i & Hi & Hai & Hbi) (j & Hj & Hbj & Hcj). exists i. split_and!; [done..|].
  intros k Hk. apply Hcj. destruct (Z.le_gt_cases i j); [lia|]. rewrite Hbi in Hbj by lia. done.
Qed.

End Spec.

Class Cpuset (B : Type) `{CpusetOps B} : Prop := {
  bm_alloc : bempty b_alloc;
  bm_alloc_full : forall i, 0 <= i -> bm b_alloc_full i = true;
  bm_only : forall c, 0 <= c < CPU_MAX -> forall i, 0 <= i -> bm (b_only c) i = (i =? c);
  bm_set : forall a c, 0 <= c < CPU_MAX -> forall i, 0 <= i -> bm (b_set a c) i = (i =? c) || bm a i;
  bm_clr : forall a c, 0 <= c < CPU_MAX -> forall i, 0 <= i ->
    bm (b_clr a c) i = negb (i =? c) && bm a i;
  bm_or : forall a b i, 0 <= i -> bm (b_or a b) i = bm a i || bm b i;
  bm_and : forall a b i, 0 <= i -> bm (b_and a b) i = bm a i && bm b i;
  bm_andnot : forall a b i, 0 <= i -> bm (b_andnot a b) i = bm a i && negb (bm b i);
  bm_not : forall a i, 0 <= i -> bm (b_not a) i = negb (bm a i);
  bfin_alloc : bfin b_alloc = true;
  bfin_alloc_full : bfin b_alloc_full = false;
  bfin_only : forall c, 0 <= c < CPU_MAX -> bfin (b_only c) = true;
  bfin_set : forall a c, 0 <= c < CPU_MAX -> bfin (b_set a c) = bfin a;
  bfin_clr : forall a c, 0 <= c < CPU_MAX -> bfin (b_clr a c) = bfin a;
  bfin_or : forall a b, bfin (b_or a b) = bfin a && bfin b;
  bfin_and : forall a b, bfin (b_and a b) = bfin a || bfin b;
  bfin_andnot : forall a b, bfin (b_andnot a b) = bfin a || negb (bfin b);
  bfin_not : forall a, bfin (b_not a) = negb (bfin a);
  b_isset_spec : forall a i, 0 <= i -> b_isset a i = bm a i;
  b_iszero_spec : forall a, b_iszero a = true <-> bempty a;
  b_isequal_spec : forall a b, b_isequal a b = true <-> beq a b;
  b_isincluded_spec : forall a b, bfin a = true -> b_isincluded a b = true <-> bsub a b;
  b_intersects_spec : forall a b, bfin a = true \/ bfin b = true ->
    b_intersects a b = false <-> bdisj a b;
  b_compare_first_spec : forall a b, bfin a = bfin b ->
    (b_compare_first a b < 0 <-> bbefore a b) /\ (0 < b_compare_first a b <-> bbefore b a);
  b_first_spec : forall a, bfirst_from a 0 (b_first a);
  b_next_spec : forall a p, -1 <= p < INT_MAX -> bfirst_from a (p + 1) (b_next a p);
  b_weight_infinite : forall a, bfin a = false -> b_weight a = -1;
  b_weight_spec : forall a, bfin a = true -> exists l, b_weight a = Z.of_nat (length l) /\
    NoDup l /\ forall i, i ∈ l <-> 0 <= i /\ bm a i = true;
  bfin_empty : forall a, bempty a -> bfin a = true;
}.

(** ** The bitmaps implement it *)

Definition cpuset_ok (s : hwloc_bitmap_s) : bool := wf_b s && (ulongs_count s <? 2 ^ 25).

Definition wbitmap : Type := { s : hwloc_bitmap_s | cpuset_ok s = true }.

Definition empty_bitmap : hwloc_bitmap_s := mk_bitmap 1 8 (replicate 8 0) false.

Lemma empty_bitmap_ok : cpuset_ok empty_bitmap = true.
Proof. by vm_compute. Qed.

(** The result of an operation of Bitmap.v as a [wbitmap]; the laws below show
    that the fallback is never taken. *)
Definition as_wbitmap (m : option hwloc_bitmap_s) : wbitmap :=
  match m with
  | Some s => match decide (cpuset_ok s = true) with
              | left H => exist _ s H
              | right _ => exist _ empty_bitmap empty_bitmap_ok
              end
  | None => exist _ empty_bitmap empty_bitmap_ok
  end.

Definition w (a : wbitmap) : hwloc_bitmap_s := proj1_sig a.

#[export] Instance bitmap_cpuset_ops `{Malloc} : CpusetOps wbitmap := {
  bm a := mem (w a);
  bfin a := negb (infinite (w a));
  b_alloc := as_wbitmap hwloc_bitmap_alloc;
  b_alloc_full := as_wbitmap hwloc_bitmap_alloc_full;
  b_only c := as_wbitmap (let! s := hwloc_bitmap_alloc in hwloc_bitmap_only s c);
  b_set a c := as_wbitmap (hwloc_bitmap_set (w a) c);
  b_clr a c := as_wbitmap (hwloc_bitmap_clr (w a) c);
  b_or a b := as_wbitmap (hwloc_bitmap_or (w a) Same (Other (w b)));
  b_and a b := as_wbitmap (hwloc_bitmap_and (w a) Same (Other (w b)));
  b_andnot a b := as_wbitmap (hwloc_bitmap_andnot (w a) Same (Other (w b)));
  b_not a := as_wbitmap (hwloc_bitmap_not (w a) Same);
  b_isset a i := default false (hwloc_bitmap_isset (w a) i);
  b_iszero a := default false (hwloc_bitmap_iszero (w a));
  b_isequal a b := default false (hwloc_bitmap_isequal (w a) (w b));
  b_isincluded a b := default false (hwloc_bitmap_isincluded (w a) (w b));
  b_intersects a b := default false (hwloc_bitmap_intersects (w a) (w b));
  b_compare_first a b := default 0 (hwloc_bitmap_compare_first (w a) (w b));
  b_first a := default 0 (hwloc_bitmap_first (w a));
  b_next a p := default 0 (hwloc_bitmap_next (w a) p);
  b_weight a := default 0 (hwloc_bitmap_weight (w a));
}.

Lemma cpuset_ok_spec s : cpuset_ok s = true <-> wf s /\ int_sized s.
Proof. unfold cpuset_ok, int_sized. rewrite andb_true_iff, wf_b_spec, Z.ltb_lt. done. Qed.

Lemma w_ok a : wf (w a) /\ int_sized (w a).
Proof. apply cpuset_ok_spec. exact (proj2_sig a). Qed.

Lemma as_wbitmap_ok m Q :
  returns m (fun r => wf r /\ int_sized r /\ Q r) -> Q (w (as_wbitmap m)).
Proof.
  intros (r & -> & Hwf & Hsz & HQ). unfold as_wbitmap.
  destruct (decide (cpuset_ok r = true)) as [Hok|Hno]; [done|].
  destruct Hno. by apply cpuset_ok_spec.
Qed.

Lemma default_ok {A} (d : A) m Q : returns m Q -> Q (default d m).
Proof. by intros (r & -> & HQ). Qed.

Lemma small_cpu c : 0 <= c < CPU_MAX -> 0 <= c < MAX_CPU /\ c / 64 + 1 < 2 ^ 25.
Proof.
  unfold CPU_MAX, MAX_CPU, MAX_COUNT. intros Hc. split; [lia|].
  assert (c / 64 < 2 ^ 25 - 2) by (apply Z.div_lt_upper_bound; lia). lia.
Qed.

Section Implementation.
Context `{MallocTotal}.
Implicit Types a b : wbitmap.

Ltac wbm a := let H := fresh "Hw" in destruct (w_ok a) as [H ?]; pose proof (wf_count _ H).
Ltac op_intro := simpl; apply as_wbitmap_ok; eapply returns_mono.

Lemma alloc_law :
  let r := w (as_wbitmap hwloc_bitmap_alloc) in
  infinite r = false /\ forall i, 0 <= i -> mem r i = false.
Proof.
  apply (as_wbitmap_ok _ (fun r => infinite r = false /\ forall i, 0 <= i -> mem r i = false)).
  destruct alloc_ok as (r & Hr & Hwf & Hc & Hm). exists r. split; [done|]. split_and!; [done| | |done].
  - unfold int_sized. lia.
  - rewrite <- (mem_infinite r 64), Hm by lia. done.
Qed.

Lemma alloc_full_law :
  let r := w (as_wbitmap hwloc_bitmap_alloc_full) in
  infinite r = true /\ forall i, 0 <= i -> mem r i = true.
Proof.
  apply (as_wbitmap_ok _ (fun r => infinite r = true /\ forall i, 0 <= i -> mem r i = true)).
  destruct alloc_full_ok as (r & Hr & Hwf & Hc & Hm). exists r. split; [done|].
  split_and!; [done| | |done].
  - unfold int_sized. lia.
  - rewrite <- (mem_infinite r 64), Hm by lia. done.
Qed.

Lemma only_law c :
  0 <= c < CPU_MAX ->
  let r := w (b_only (B := wbitmap) c) in
  infinite r = false /\ forall i, 0 <= i -> mem r i = (i =? c).
Proof.
  intros Hc. destruct (small_cpu c Hc).
  apply (as_wbitmap_ok _ (fun r => infinite r = false /\ forall i, 0 <= i -> mem r i = (i =? c))).
  eapply returns_bind with (P := wf).
  { destruct alloc_ok as (r & -> & Hwf & _). by exists r. }
  intros s Hs. eapply returns_mono; [apply only_ok; [by apply wf_array|done]|].
  intros r (Hwf & Hi & Hcnt & Hm). split_and!; [done| |done|done]. unfold int_sized. lia.
Qed.

Lemma set_law a c :
  0 <= c < CPU_MAX ->
  let r := w (b_set a c) in
  infinite r = infinite (w a) /\ forall i, 0 <= i -> mem r i = (i =? c) || mem (w a) i.
Proof.
  intros Hc. destruct (small_cpu c Hc). wbm a.
  apply (as_wbitmap_ok _ (fun r => infinite r = infinite (w a) /\
    forall i, 0 <= i -> mem r i = (i =? c) || mem (w a) i)).
  eapply returns_mono; [by apply set_ok|].
  intros r (Hwf & Hi & Hcnt & Hm). split_and!; [done| |done|done]. unfold int_sized in *. lia.
Qed.

Lemma clr_law a c :
  0 <= c < CPU_MAX ->
  let r := w (b_clr a c) in
  infinite r = infinite (w a) /\ forall i, 0 <= i -> mem r i = negb (i =? c) && mem (w a) i.
Proof.
  intros Hc. destruct (small_cpu c Hc). wbm a.
  apply (as_wbitmap_ok _ (fun r => infinite r = infinite (w a) /\
    forall i, 0 <= i -> mem r i = negb (i =? c) && mem (w a) i)).
  eapply returns_mono; [by apply clr_ok|].
  intros r (Hwf & Hi & Hcnt & Hm). split_and!; [done| |done|done]. unfold int_sized in *. lia.
Qed.

Lemma combine_law h f a b :
  bitwise h f ->
  let r := w (as_wbitmap (bitmap_combine f h (w a) Same (Other (w b)))) in
  infinite r = h (infinite (w a)) (infinite (w b)) /\
  forall i, 0 <= i -> mem r i = h (mem (w a) i) (mem (w b) i).
Proof.
  intros Hf. wbm a. wbm b.
  apply (as_wbitmap_ok _ (fun r => infinite r = h (infinite (w a)) (infinite (w b)) /\
    forall i, 0 <= i -> mem r i = h (mem (w a) i) (mem (w b) i))).
  eapply returns_mono; [by apply (combine_ok h f)|].
  intros r (Hwf & Hi & Hcnt & Hm). split_and!; [done| |done|done].
  simpl in Hcnt. unfold int_sized, max_count in *. lia.
Qed.

Lemma not_law a :
  let r := w (b_not a) in
  infinite r = negb (infinite (w a)) /\ forall i, 0 <= i -> mem r i = negb (mem (w a) i).
Proof.
  wbm a. apply (as_wbitmap_ok _ (fun r => infinite r = negb (infinite (w a)) /\
    forall i, 0 <= i -> mem r i = negb (mem (w a) i))).
  eapply returns_mono; [by apply not_ok|].
  intros r (Hwf & Hi & Hcnt & Hm). split_and!; [done| |done|done].
  simpl in Hcnt. unfold int_sized in *. lia.
Qed.

(** The code of Bitmap.v keeps the promises of the interface. *)
#[export] Instance bitmap_cpuset : Cpuset wbitmap.
Proof.
  assert (Hor := fun a b => combine_law orb Z.lor a b bitwise_lor).
  assert (Hand := fun a b => combine_law andb Z.land a b bitwise_land).
  assert (Handnot := fun a b => combine_law _ _ a b bitwise_andnot).
  constructor; simpl; try (intros; by apply only_law || by apply set_law || by apply clr_law).
  - exact (proj2 alloc_law).
  - exact (proj2 alloc_full_law).
  - intros. by apply Hor.
  - intros. by apply Hand.
  - intros. by apply Handnot.
  - intros. by apply not_law.
  - by rewrite (proj1 alloc_law).
  - by rewrite (proj1 alloc_full_law).
  - intros c Hc. exact (f_equal negb (proj1 (only_law c Hc))).
  - intros a c Hc. exact (f_equal negb (proj1 (set_law a c Hc))).
  - intros a c Hc. exact (f_equal negb (proj1 (clr_law a c Hc))).
  - intros a b. unfold hwloc_bitmap_or. rewrite (proj1 (Hor a b)). apply negb_orb.
  - intros a b. unfold hwloc_bitmap_and. rewrite (proj1 (Hand a b)). apply negb_andb.
  - intros a b. unfold hwloc_bitmap_andnot. rewrite (proj1 (Handnot a b)).
    by destruct (infinite (w a)), (infinite (w b)).
  - intros a. exact (f_equal negb (proj1 (not_law a))).
  - intros a i Hi. wbm a. by rewrite isset_ok.
  - intros a. wbm a. exact (default_ok false _ _ (iszero_ok (w a) Hw)).
  - intros a b. wbm a. wbm b. exact (default_ok false _ _ (isequal_ok (w a) (w b) Hw Hw0)).
  - intros a b Hfin. wbm a. wbm b. apply negb_true_iff in Hfin.
    exact (default_ok false _ _ (isincluded_ok (w a) (w b) Hw Hw0 (or_introl Hfin))).
  - intros a b Hfin. wbm a. wbm b. rewrite !negb_true_iff in Hfin.
    assert (Hd := default_ok false _ _ (intersects_ok (w a) (w b) Hw Hw0 Hfin)).
    rewrite <- not_true_iff_false. simpl in Hd. rewrite Hd. unfold bdisj. simpl. split.
    + intros Hn i Hi Ha Hb. apply Hn. eauto.
    + intros Hn (i & Hi & Ha & Hb). by apply (Hn i).
  - intros a b Hfin. wbm a. wbm b. assert (Hinf : infinite (w a) = infinite (w b))
      by (by destruct (infinite (w a)), (infinite (w b))).
    exact (default_ok 0 _ _ (compare_first_ok (w a) (w b) Hw Hw0 Hinf)).
  - intros a. destruct (w_ok a) as [Hw Hsz]. exact (default_ok 0 _ _ (first_ok (w a) Hw Hsz)).
  - intros a p Hp. destruct (w_ok a) as [Hw Hsz].
    exact (default_ok 0 _ _ (next_ok (w a) p Hw Hsz Hp)).
  - intros a Hfin. wbm a. destruct (weight_ok (w a) Hw) as (r & -> & ->).
    by destruct (infinite (w a)).
  - intros a Hfin. wbm a. destruct (weight_ok (w a) Hw) as (r & -> & ->).
    apply negb_true_iff in Hfin. rewrite Hfin. simpl.
    exists (members (w a) 0 (64 * ulongs_count (w a))). split_and!.
    + unfold count_members, members. by rewrite Z.sub_0_r.
    + apply NoDup_filter, NoDup_seqZ.
    + intros i. rewrite members_spec. split; [intros [? ?]; split; [lia|done]|]. intros [Hi Hm].
      split; [|done]. destruct (Z.lt_ge_cases i (64 * ulongs_count (w a))); [lia|].
      rewrite mem_infinite in Hm by lia. congruence.
  - intros a He. wbm a. specialize (He (64 * ulongs_count (w a)) ltac:(lia)). simpl in He.
    rewrite mem_infinite in He by lia. by rewrite He.
Qed.

End Implementation.
