(* ===== verification/Obj.v ===== *)
(** * Obj: topology objects, their types and how they compare

    From [include/hwloc.h] (the object structure), [include/private/private.h]
    (allocation), [src/traversal.c] (type names) and the comparison functions
    of [src/topology.c].  During discovery only [first_child] and
    [next_sibling] are kept up to date, so a hierarchy under construction is a
    tree [Node obj children], the children in the order of the sibling list. *)

From Stdlib Require Import Ascii String.
From S2P Require Import Prelude Cpuset.

(** ** Types *)

Inductive hwloc_obj_type_t :=
  | HWLOC_OBJ_SYSTEM | HWLOC_OBJ_MACHINE | HWLOC_OBJ_NODE | HWLOC_OBJ_SOCKET
  | HWLOC_OBJ_CACHE | HWLOC_OBJ_CORE | HWLOC_OBJ_PU | HWLOC_OBJ_GROUP
  | HWLOC_OBJ_MISC | HWLOC_OBJ_BRIDGE | HWLOC_OBJ_PCI_DEVICE | HWLOC_OBJ_OS_DEVICE.

#[export] Instance obj_type_eq_dec : EqDecision hwloc_obj_type_t.
Proof. solve_decision. Defined.

(** The values of the C enumeration, in order. *)
Definition obj_types : list hwloc_obj_type_t :=
  [HWLOC_OBJ_SYSTEM; HWLOC_OBJ_MACHINE; HWLOC_OBJ_NODE; HWLOC_OBJ_SOCKET;
   HWLOC_OBJ_CACHE; HWLOC_OBJ_CORE; HWLOC_OBJ_PU; HWLOC_OBJ_GROUP;
   HWLOC_OBJ_MISC; HWLOC_OBJ_BRIDGE; HWLOC_OBJ_PCI_DEVICE; HWLOC_OBJ_OS_DEVICE].

Definition obj_type_value (t : hwloc_obj_type_t) : nat :=
  match t with
  | HWLOC_OBJ_SYSTEM => 0 | HWLOC_OBJ_MACHINE => 1 | HWLOC_OBJ_NODE => 2
  | HWLOC_OBJ_SOCKET => 3 | HWLOC_OBJ_CACHE => 4 | HWLOC_OBJ_CORE => 5
  | HWLOC_OBJ_PU => 6 | HWLOC_OBJ_GROUP => 7 | HWLOC_OBJ_MISC => 8
  | HWLOC_OBJ_BRIDGE => 9 | HWLOC_OBJ_PCI_DEVICE => 10 | HWLOC_OBJ_OS_DEVICE => 11
  end.

Definition obj_type_order : list Z := [0; 1; 3; 4; 5; 6; 10; 2; 11; 7; 8; 9].

Definition obj_order_type : list hwloc_obj_type_t :=
  [HWLOC_OBJ_SYSTEM; HWLOC_OBJ_MACHINE; HWLOC_OBJ_GROUP; HWLOC_OBJ_NODE;
   HWLOC_OBJ_SOCKET; HWLOC_OBJ_CACHE; HWLOC_OBJ_CORE; HWLOC_OBJ_BRIDGE;
   HWLOC_OBJ_PCI_DEVICE; HWLOC_OBJ_OS_DEVICE; HWLOC_OBJ_PU; HWLOC_OBJ_MISC].

Definition hwloc_get_type_order (type : hwloc_obj_type_t) : Z :=
  default 0 (obj_type_order !! obj_type_value type).

Definition hwloc_get_order_type (order : Z) : option hwloc_obj_type_t :=
  require! (0 <=? order) in obj_order_type !! Z.to_nat order.

Definition hwloc_obj_type_is_io (type : hwloc_obj_type_t) : bool :=
  match type with
  | HWLOC_OBJ_BRIDGE | HWLOC_OBJ_PCI_DEVICE | HWLOC_OBJ_OS_DEVICE => true
  | _ => false
  end.

Definition HWLOC_TYPE_UNORDERED : Z := INT_MAX.

Definition hwloc_compare_types (type1 type2 : hwloc_obj_type_t) : Z :=
  let order1 := hwloc_get_type_order type1 in
  let order2 := hwloc_get_type_order type2 in
  let top t := bool_decide (t = HWLOC_OBJ_SYSTEM) || bool_decide (t = HWLOC_OBJ_MACHINE) in
  if hwloc_obj_type_is_io type1 && negb (hwloc_obj_type_is_io type2) && negb (top type2)
  then HWLOC_TYPE_UNORDERED else
  if hwloc_obj_type_is_io type2 && negb (hwloc_obj_type_is_io type1) && negb (top type1)
  then HWLOC_TYPE_UNORDERED else
  s32 (u32 (order1 - order2)).

(** ** Type names *)

Definition hwloc_obj_type_string (obj : hwloc_obj_type_t) : string :=
  match obj with
  | HWLOC_OBJ_SYSTEM => "System"
  | HWLOC_OBJ_MACHINE => "Machine"
  | HWLOC_OBJ_MISC => "Misc"
  | HWLOC_OBJ_GROUP => "Group"
  | HWLOC_OBJ_NODE => "NUMANode"
  | HWLOC_OBJ_SOCKET => "Socket"
  | HWLOC_OBJ_CACHE => "Cache"
  | HWLOC_OBJ_CORE => "Core"
  | HWLOC_OBJ_BRIDGE => "Bridge"
  | HWLOC_OBJ_PCI_DEVICE => "PCIDev"
  | HWLOC_OBJ_OS_DEVICE => "OSDev"
  | HWLOC_OBJ_PU => "PU"
  end%string.

Definition tolower (c : ascii) : ascii :=
  let n := nat_of_ascii c in
  if (65 <=? n)%nat && (n <=? 90)%nat then ascii_of_nat (n + 32) else c.

Fixpoint lowercase (s : string) : string :=
  match s with
  | EmptyString => EmptyString
  | String c s => String (tolower c) (lowercase s)
  end.

(** [!strcasecmp(a, b)] in the C locale. *)
Definition strcaseeq (a b : string) : bool := String.eqb (lowercase a) (lowercase b).

(** [None] is [(hwloc_obj_type_t) -1]. *)
Definition hwloc_obj_type_of_string (s : string) : option hwloc_obj_type_t :=
  if strcaseeq s "System" then Some HWLOC_OBJ_SYSTEM else
  if strcaseeq s "Machine" then Some HWLOC_OBJ_MACHINE else
  if strcaseeq s "Misc" then Some HWLOC_OBJ_MISC else
  if strcaseeq s "Group" then Some HWLOC_OBJ_GROUP else
  if strcaseeq s "NUMANode" || strcaseeq s "Node" then Some HWLOC_OBJ_NODE else
  if strcaseeq s "Socket" then Some HWLOC_OBJ_SOCKET else
  if strcaseeq s "Cache" then Some HWLOC_OBJ_CACHE else
  if strcaseeq s "Core" then Some HWLOC_OBJ_CORE else
  if strcaseeq s "PU" || strcaseeq s "proc" then Some HWLOC_OBJ_PU else
  if strcaseeq s "Bridge" then Some HWLOC_OBJ_BRIDGE else
  if strcaseeq s "PCIDev" then Some HWLOC_OBJ_PCI_DEVICE else
  if strcaseeq s "OSDev" then Some HWLOC_OBJ_OS_DEVICE else
  None.

(** The sign of [strcmp]: by unsigned bytes, a prefix first. *)
Definition strcmp (a b : string) : Z :=
  match String.compare a b with Lt => -1 | Eq => 0 | Gt => 1 end.

(** ** Objects *)

(** A [float] is its 32 bits. *)
Record hwloc_pcidev_attr_s := mk_pcidev {
  domain : Z;
  bus : Z;
  dev : Z;
  func : Z;
  class_id : Z;
  vendor_id : Z;
  device_id : Z;
  subvendor_id : Z;
  subdevice_id : Z;
  revision : Z;
  linkspeed : Z;
}.

(** [hwloc_obj_bridge_type_t] *)
Definition HWLOC_OBJ_BRIDGE_HOST : Z := 0.
Definition HWLOC_OBJ_BRIDGE_PCI : Z := 1.

Record hwloc_bridge_attr_s := mk_bridge {
  upstream : hwloc_pcidev_attr_s;
  upstream_type : Z;
  downstream_domain : Z;
  secondary_bus : Z;
  subordinate_bus : Z;
  downstream_type : Z;
  b_depth : Z;
}.

Definition zero_pcidev : hwloc_pcidev_attr_s := mk_pcidev 0 0 0 0 0 0 0 0 0 0 0.
Definition zero_bridge : hwloc_bridge_attr_s := mk_bridge zero_pcidev 0 0 0 0 0 0.

Definition with_b_depth (b : hwloc_bridge_attr_s) (d : Z) : hwloc_bridge_attr_s :=
  mk_bridge (upstream b) (upstream_type b) (downstream_domain b) (secondary_bus b) (subordinate_bus b)
    (downstream_type b) d.

(** The attribute union: the member its object's type selects. *)
Inductive hwloc_obj_attr_u :=
  | AttrNone
  | AttrCache (size depth linesize associativity : Z)
  | AttrGroup (depth : Z)
  | AttrPcidev (pcidev : hwloc_pcidev_attr_s)
  | AttrBridge (bridge : hwloc_bridge_attr_s)
  | AttrOsdev (type : Z).

(** A distance matrix, by lines. *)
Record hwloc_distances_s := mk_distances {
  relative_depth : Z;
  nbobjs : Z;
  latency : list Z;
  latency_max : Z;
  latency_base : Z;
}.

Record hwloc_obj_memory_s := mk_memory {
  total_memory : Z;
  local_memory : Z;
  page_types : list (Z * Z);     (** size and count *)
}.

Section Objects.
Context (B : Type).

(** The seven sets of an object; [None] is a NULL pointer. *)
Record obj_sets := mk_sets {
  cpuset : option B;
  complete_cpuset : option B;
  online_cpuset : option B;
  allowed_cpuset : option B;
  nodeset : option B;
  complete_nodeset : option B;
  allowed_nodeset : option B;
}.

(** [o_addr] is the object's address, its identity.  An element [None] of
    [infos] or [distances] is an uninitialised array slot. *)
Record hwloc_obj := mk_obj {
  o_addr : Z;
  o_type : hwloc_obj_type_t;
  os_index : Z;
  os_level : Z;
  o_name : option string;
  memory : hwloc_obj_memory_s;
  attr : hwloc_obj_attr_u;
  sets : obj_sets;
  distances : list (option hwloc_distances_s);
  infos : list (option (string * string));
}.

Inductive obj_tree := Node (o : hwloc_obj) (children : list obj_tree).

End Objects.

Arguments mk_sets {B}.
Arguments cpuset {B}.
Arguments complete_cpuset {B}.
Arguments online_cpuset {B}.
Arguments allowed_cpuset {B}.
Arguments nodeset {B}.
Arguments complete_nodeset {B}.
Arguments allowed_nodeset {B}.
Arguments mk_obj {B}.
Arguments o_addr {B}.
Arguments o_type {B}.
Arguments os_index {B}.
Arguments os_level {B}.
Arguments o_name {B}.
Arguments memory {B}.
Arguments attr {B}.
Arguments sets {B}.
Arguments distances {B}.
Arguments infos {B}.
Arguments Node {B}.

Definition ocpuset {B} (o : hwloc_obj B) : option B := cpuset (sets o).
Definition onodeset {B} (o : hwloc_obj B) : option B := nodeset (sets o).

Definition no_sets {B} : obj_sets B := mk_sets None None None None None None None.

(** [(unsigned) -1] *)
Definition UNSET : Z := UINT_MAX.

Definition empty_attr (type : hwloc_obj_type_t) : hwloc_obj_attr_u :=
  match type with
  | HWLOC_OBJ_CACHE => AttrCache 0 0 0 0
  | HWLOC_OBJ_GROUP => AttrGroup 0
  | HWLOC_OBJ_PCI_DEVICE => AttrPcidev zero_pcidev
  | HWLOC_OBJ_BRIDGE => AttrBridge zero_bridge
  | HWLOC_OBJ_OS_DEVICE => AttrOsdev 0
  | _ => AttrNone
  end.

Definition hwloc_alloc_setup_object {B} (addr : Z) (type : hwloc_obj_type_t) (idx : Z)
  : hwloc_obj B :=
  mk_obj addr type (u32 idx) (-1) None (mk_memory 0 0 []) (empty_attr type) no_sets [] [].

(** Field updates. *)
Section Updates.
Context {B : Type}.
Implicit Types o : hwloc_obj B.

Definition with_sets o s : hwloc_obj B := mk_obj (o_addr o) (o_type o) (os_index o) (os_level o) (o_name o)
  (memory o) (attr o) s (distances o) (infos o).
Definition with_memory o m : hwloc_obj B := mk_obj (o_addr o) (o_type o) (os_index o) (os_level o) (o_name o)
  m (attr o) (sets o) (distances o) (infos o).
Definition with_attr o a : hwloc_obj B := mk_obj (o_addr o) (o_type o) (os_index o) (os_level o) (o_name o)
  (memory o) a (sets o) (distances o) (infos o).
Definition with_name o n : hwloc_obj B := mk_obj (o_addr o) (o_type o) (os_index o) (os_level o) n
  (memory o) (attr o) (sets o) (distances o) (infos o).
Definition with_os_index o i : hwloc_obj B := mk_obj (o_addr o) (o_type o) i (os_level o) (o_name o)
  (memory o) (attr o) (sets o) (distances o) (infos o).
Definition with_os_level o l : hwloc_obj B := mk_obj (o_addr o) (o_type o) (os_index o) l (o_name o)
  (memory o) (attr o) (sets o) (distances o) (infos o).
Definition with_distances o d : hwloc_obj B := mk_obj (o_addr o) (o_type o) (os_index o) (os_level o) (o_name o)
  (memory o) (attr o) (sets o) d (infos o).
Definition with_infos o i : hwloc_obj B := mk_obj (o_addr o) (o_type o) (os_index o) (os_level o) (o_name o)
  (memory o) (attr o) (sets o) (distances o) i.

Definition with_cpuset o c : hwloc_obj B := with_sets o (mk_sets c (complete_cpuset (sets o))
  (online_cpuset (sets o)) (allowed_cpuset (sets o)) (nodeset (sets o))
  (complete_nodeset (sets o)) (allowed_nodeset (sets o))).
Definition with_complete_cpuset o c : hwloc_obj B := with_sets o (mk_sets (cpuset (sets o)) c
  (online_cpuset (sets o)) (allowed_cpuset (sets o)) (nodeset (sets o))
  (complete_nodeset (sets o)) (allowed_nodeset (sets o))).
Definition with_online_cpuset o c : hwloc_obj B := with_sets o (mk_sets (cpuset (sets o))
  (complete_cpuset (sets o)) c (allowed_cpuset (sets o)) (nodeset (sets o))
  (complete_nodeset (sets o)) (allowed_nodeset (sets o))).
Definition with_allowed_cpuset o c : hwloc_obj B := with_sets o (mk_sets (cpuset (sets o))
  (complete_cpuset (sets o)) (online_cpuset (sets o)) c (nodeset (sets o))
  (complete_nodeset (sets o)) (allowed_nodeset (sets o))).
Definition with_nodeset o c : hwloc_obj B := with_sets o (mk_sets (cpuset (sets o))
  (complete_cpuset (sets o)) (online_cpuset (sets o)) (allowed_cpuset (sets o)) c
  (complete_nodeset (sets o)) (allowed_nodeset (sets o))).
Definition with_complete_nodeset o c : hwloc_obj B := with_sets o (mk_sets (cpuset (sets o))
  (complete_cpuset (sets o)) (online_cpuset (sets o)) (allowed_cpuset (sets o)) (nodeset (sets o))
  c (allowed_nodeset (sets o))).
Definition with_allowed_nodeset o c : hwloc_obj B := with_sets o (mk_sets (cpuset (sets o))
  (complete_cpuset (sets o)) (online_cpuset (sets o)) (allowed_cpuset (sets o)) (nodeset (sets o))
  (complete_nodeset (sets o)) c).
End Updates.

Definition cache_depth (a : hwloc_obj_attr_u) : Z :=
  match a with AttrCache _ d _ _ => d | _ => 0 end.
Definition group_depth (a : hwloc_obj_attr_u) : Z :=
  match a with AttrGroup d => d | _ => 0 end.
Definition bridge_depth (a : hwloc_obj_attr_u) : Z :=
  match a with AttrBridge b => b_depth b | _ => 0 end.

(** ** Trees *)

Section Trees.
Context {B : Type}.

Definition t_obj (t : obj_tree B) : hwloc_obj B := let 'Node o _ := t in o.
Definition t_children (t : obj_tree B) : list (obj_tree B) := let 'Node _ ch := t in ch.

(** All objects, a parent before its children. *)
Fixpoint tree_objs (t : obj_tree B) : list (hwloc_obj B) :=
  let 'Node o ch := t in o :: concat (map tree_objs ch).
Definition forest_objs (ts : list (obj_tree B)) : list (hwloc_obj B) := concat (map tree_objs ts).

Fixpoint tree_height (t : obj_tree B) : nat :=
  let 'Node _ ch := t in S (foldr (fun c n => Nat.max (tree_height c) n) 0%nat ch).

Fixpoint tree_size (t : obj_tree B) : nat :=
  let 'Node _ ch := t in S (foldr (fun c n => (tree_size c + n)%nat) 0%nat ch).
Definition forest_size (ts : list (obj_tree B)) : nat :=
  foldr (fun c n => (tree_size c + n)%nat) 0%nat ts.

(** Induction that reaches every child. *)
Lemma obj_tree_ind' (P : obj_tree B -> Prop) :
  (forall o ch, Forall P ch -> P (Node o ch)) -> forall t, P t.
Proof.
  intros Hnode. fix IH 1. intros [o ch]. apply Hnode.
  induction ch as [|c ch IHch]; constructor; [apply IH|exact IHch].
Qed.

Lemma forest_objs_cons t ts : forest_objs (t :: ts) = tree_objs t ++ forest_objs ts.
Proof. done. Qed.

Lemma forest_objs_app ts us : forest_objs (ts ++ us) = forest_objs ts ++ forest_objs us.
Proof. unfold forest_objs. by rewrite List.map_app, List.concat_app. Qed.

Lemma tree_objs_node o ch : tree_objs (Node o ch) = o :: forest_objs ch.
Proof. done. Qed.

Lemma elem_of_forest_objs o ts :
  o ∈ forest_objs ts <-> exists t, t ∈ ts /\ o ∈ tree_objs t.
Proof.
  induction ts as [|t ts IH]; [set_solver|].
  rewrite forest_objs_cons, elem_of_app, IH. set_solver.
Qed.

Lemma forest_size_app ts us : forest_size (ts ++ us) = (forest_size ts + forest_size us)%nat.
Proof. induction ts as [|t ts IH]; simpl; [done|]. fold forest_size. unfold forest_size in *. lia. Qed.

Lemma height_child o ch c :
  c ∈ ch -> (tree_height c < tree_height (Node o ch))%nat.
Proof.
  intros Hin. simpl. induction Hin as [c ch|c d ch Hin IH]; simpl in *; lia.
Qed.

End Trees.

(** ** Comparing objects *)

Inductive hwloc_type_cmp_e := HWLOC_TYPE_HIGHER | HWLOC_TYPE_DEEPER | HWLOC_TYPE_EQUAL.

#[export] Instance type_cmp_eq_dec : EqDecision hwloc_type_cmp_e.
Proof. solve_decision. Defined.

Inductive hwloc_obj_cmp_e :=
  | HWLOC_OBJ_EQUAL | HWLOC_OBJ_INCLUDED | HWLOC_OBJ_CONTAINS | HWLOC_OBJ_INTERSECTS
  | HWLOC_OBJ_DIFFERENT.

#[export] Instance obj_cmp_eq_dec : EqDecision hwloc_obj_cmp_e.
Proof. solve_decision. Defined.

Section Compare.
Context {B : Type} `{CpusetOps B}.
Implicit Types obj : hwloc_obj B.

(** The depth test that [hwloc_type_cmp] repeats for caches, groups and
    bridges; [None] falls through. *)
Definition depth_cmp (type : hwloc_obj_type_t) (depth : hwloc_obj_attr_u -> Z) obj1 obj2
  : option hwloc_type_cmp_e :=
  if bool_decide (o_type obj1 = type) then
    if depth (attr obj1) <? depth (attr obj2) then Some HWLOC_TYPE_DEEPER
    else if depth (attr obj2) <? depth (attr obj1) then Some HWLOC_TYPE_HIGHER
    else None
  else None.

Definition hwloc_type_cmp obj1 obj2 : hwloc_type_cmp_e :=
  if 0 <? hwloc_compare_types (o_type obj1) (o_type obj2) then HWLOC_TYPE_DEEPER else
  if hwloc_compare_types (o_type obj1) (o_type obj2) <? 0 then HWLOC_TYPE_HIGHER else
  match depth_cmp HWLOC_OBJ_CACHE cache_depth obj1 obj2 with
  | Some r => r
  | None =>
  match depth_cmp HWLOC_OBJ_GROUP group_depth obj1 obj2 with
  | Some r => r
  | None =>
  match depth_cmp HWLOC_OBJ_BRIDGE bridge_depth obj1 obj2 with
  | Some r => r
  | None => HWLOC_TYPE_EQUAL
  end end end.

(** [set && !hwloc_bitmap_iszero(set)] *)
Definition nonzero (s : option B) : option B :=
  match s with
  | Some b => if b_iszero b then None else Some b
  | None => None
  end.

(** What [hwloc_obj_cmp] compares: the cpusets if possible, or the nodesets. *)
Definition sets_compared obj1 obj2 : option (B * B) :=
  match nonzero (ocpuset obj1), nonzero (ocpuset obj2) with
  | Some c1, Some c2 => Some (c1, c2)
  | _, _ =>
    match nonzero (onodeset obj1), nonzero (onodeset obj2) with
    | Some n1, Some n2 => Some (n1, n2)
    | _, _ => None
    end
  end.

(** [None] is a [strcmp] on a NULL name. *)
Definition hwloc_obj_cmp obj1 obj2 : option hwloc_obj_cmp_e :=
  match sets_compared obj1 obj2 with
  | None => Some HWLOC_OBJ_DIFFERENT
  | Some (set1, set2) =>
    if b_isequal set1 set2 then
      match hwloc_type_cmp obj1 obj2 with
      | HWLOC_TYPE_DEEPER => Some HWLOC_OBJ_INCLUDED
      | HWLOC_TYPE_HIGHER => Some HWLOC_OBJ_CONTAINS
      | HWLOC_TYPE_EQUAL =>
          if bool_decide (o_type obj1 = HWLOC_OBJ_MISC) then
            let! n1 := o_name obj1 in
            let! n2 := o_name obj2 in
            let res := strcmp n1 n2 in
            Some (if res <? 0 then HWLOC_OBJ_INCLUDED
                  else if 0 <? res then HWLOC_OBJ_CONTAINS
                  else HWLOC_OBJ_EQUAL)
          else Some HWLOC_OBJ_EQUAL
      end
    else if b_isincluded set1 set2 then Some HWLOC_OBJ_INCLUDED
    else if b_isincluded set2 set1 then Some HWLOC_OBJ_CONTAINS
    else if b_intersects set1 set2 then Some HWLOC_OBJ_INTERSECTS
    else Some HWLOC_OBJ_DIFFERENT
  end.

End Compare.
