(* ===== verification/ObjCmp.v ===== *)
(** * ObjCmp: the orders on types and objects

    [hwloc_type_cmp] and [hwloc_obj_cmp] are characterised: on objects that are
    not I/O and have a finite, non-empty cpuset, [hwloc_obj_cmp] compares the
    sets and breaks ties by a total order on (type order, attribute depth,
    name). *)

From Stdlib Require Import String OrdersEx.
From S2P Require Import Prelude Cpuset Obj.

(** ** Types *)

Lemma order_type_inverse t :
  hwloc_get_order_type (hwloc_get_type_order t) = Some t.
Proof. by destruct t. Qed.

Lemma type_order_inverse n t :
  hwloc_get_order_type n = Some t -> hwloc_get_type_order t = n.
Proof.
  unfold hwloc_get_order_type. destruct (Z.leb_spec 0 n); [|done]. intros Hn.
  assert (Hlt : (Z.to_nat n < 12)%nat) by (apply lookup_lt_Some in Hn; exact Hn).
  rewrite <- (Z2Nat.id n) by done. revert Hn Hlt. generalize (Z.to_nat n). intros k Hk Hlt.
  do 12 (destruct k as [|k]; [injection Hk as <-; reflexivity|]). lia.
Qed.

Lemma type_order_inj t u : hwloc_get_type_order t = hwloc_get_type_order u -> t = u.
Proof. by destruct t, u. Qed.

Lemma type_order_range t : 0 <= hwloc_get_type_order t <= 11.
Proof. destruct t; cbv; split; discriminate. Qed.

Lemma compare_types_diff t u :
  hwloc_obj_type_is_io t = hwloc_obj_type_is_io u ->
  hwloc_compare_types t u = hwloc_get_type_order t - hwloc_get_type_order u.
Proof. destruct t, u; try done. Qed.

(** ** The tie-breaking key *)

Definition attr_depth (t : hwloc_obj_type_t) (a : hwloc_obj_attr_u) : Z :=
  match t with
  | HWLOC_OBJ_CACHE => cache_depth a
  | HWLOC_OBJ_GROUP => group_depth a
  | HWLOC_OBJ_BRIDGE => bridge_depth a
  | _ => 0
  end.

Definition okey : Type := Z * Z * string.

Definition okey_compare (k1 k2 : okey) : comparison :=
  let '(t1, d1, n1) := k1 in
  let '(t2, d2, n2) := k2 in
  match t1 ?= t2 with
  | Eq => match d2 ?= d1 with Eq => String.compare n2 n1 | c => c end
  | c => c
  end.

Lemma okey_compare_antisym k1 k2 : okey_compare k2 k1 = CompOpp (okey_compare k1 k2).
Proof.
  destruct k1 as [[t1 d1] n1], k2 as [[t2 d2] n2]. simpl.
  rewrite (Z.compare_antisym t2 t1), (Z.compare_antisym d2 d1), (String.compare_antisym n1 n2).
  by destruct (t2 ?= t1), (d2 ?= d1), (String.compare n1 n2).
Qed.

Lemma okey_compare_eq k1 k2 : okey_compare k1 k2 = Eq <-> k1 = k2.
Proof.
  split.
  - destruct k1 as [[t1 d1] n1], k2 as [[t2 d2] n2]. simpl.
    destruct (Z.compare_spec t1 t2) as [->| |]; [|done..].
    destruct (Z.compare_spec d2 d1) as [->| |]; [|done..].
    intros Hn%String.compare_eq_iff. by subst.
  - intros ->. assert (H := okey_compare_antisym k2 k2). by destruct (okey_compare k2 k2).
Qed.

Lemma okey_lt_trans k1 k2 k3 :
  okey_compare k1 k2 = Lt -> okey_compare k2 k3 = Lt -> okey_compare k1 k3 = Lt.
Proof.
  destruct k1 as [[t1 d1] n1], k2 as [[t2 d2] n2], k3 as [[t3 d3] n3]. simpl.
  assert (Hs : String.compare n2 n1 = Lt -> String.compare n3 n2 = Lt -> String.compare n3 n1 = Lt).
  { intros H12 H23. exact (@StrictOrder_Transitive _ _ String_as_OT.lt_strorder n3 n2 n1 H23 H12). }
  destruct (Z.compare_spec t1 t2), (Z.compare_spec t2 t3); try done; subst;
    destruct (Z.compare_spec d2 d1), (Z.compare_spec d3 d2); try done; subst;
    rewrite ?Z.compare_refl;
    repeat match goal with |- context [?a ?= ?b] => destruct (Z.compare_spec a b); try lia end;
    auto.
Qed.

Section Compare.
Context {B : Type} `{Cpuset B}.
Implicit Types a b : hwloc_obj B.

Definition obj_key a : okey :=
  (hwloc_get_type_order (o_type a), attr_depth (o_type a) (attr a),
   if bool_decide (o_type a = HWLOC_OBJ_MISC) then default "" (o_name a) else ""%string).

(** What the comparison functions are meant for: a finite, non-empty cpuset,
    no I/O type, a name if Misc. *)
Record obj_ok a : Prop := mk_obj_ok {
  ok_cpuset : exists c, ocpuset a = Some c /\ bfin c = true /\ ~ bempty c;
  ok_not_io : hwloc_obj_type_is_io (o_type a) = false;
  ok_named : o_type a = HWLOC_OBJ_MISC -> is_Some (o_name a);
}.

(** The cpuset of an object, empty if NULL. *)
Definition cs a : B := default b_alloc (ocpuset a).

Lemma ok_cs a : obj_ok a -> ocpuset a = Some (cs a) /\ bfin (cs a) = true /\ ~ bempty (cs a).
Proof. intros [(c & Hc & ?) _ _]. unfold cs. rewrite Hc. done. Qed.

Lemma iszero_false (c : B) : ~ bempty c -> b_iszero c = false.
Proof. intros Hne. apply not_true_iff_false. by rewrite b_iszero_spec. Qed.

Lemma ok_sets_compared a b : obj_ok a -> obj_ok b -> sets_compared a b = Some (cs a, cs b).
Proof.
  intros Ha Hb. destruct (ok_cs a Ha) as (Ha1 & _ & Ha2), (ok_cs b Hb) as (Hb1 & _ & Hb2).
  unfold sets_compared, nonzero. by rewrite Ha1, Hb1, !iszero_false.
Qed.

Lemma depth_cmp_eq t depth a b :
  o_type a = t ->
  depth_cmp t depth a b = match depth (attr b) ?= depth (attr a) with
    | Lt => Some HWLOC_TYPE_HIGHER | Gt => Some HWLOC_TYPE_DEEPER | Eq => None end.
Proof.
  intros <-. unfold depth_cmp. rewrite bool_decide_true by done.
  destruct (Z.compare_spec (depth (attr b)) (depth (attr a))); case_tests; (done || lia).
Qed.

Lemma depth_cmp_ne t depth a b : o_type a <> t -> depth_cmp t depth a b = None.
Proof. intros Hne. unfold depth_cmp. by rewrite bool_decide_false. Qed.

(** [hwloc_type_cmp] compares the type orders, then the attribute depths the
    other way round. *)
Lemma type_cmp_eq a b :
  hwloc_obj_type_is_io (o_type a) = hwloc_obj_type_is_io (o_type b) ->
  hwloc_type_cmp a b =
    match hwloc_get_type_order (o_type a) ?= hwloc_get_type_order (o_type b) with
    | Lt => HWLOC_TYPE_HIGHER
    | Gt => HWLOC_TYPE_DEEPER
    | Eq => match attr_depth (o_type b) (attr b) ?= attr_depth (o_type a) (attr a) with
            | Lt => HWLOC_TYPE_HIGHER | Gt => HWLOC_TYPE_DEEPER | Eq => HWLOC_TYPE_EQUAL end
    end.
Proof.
  intros Hio. unfold hwloc_type_cmp. rewrite compare_types_diff by done.
  destruct (Z.compare_spec (hwloc_get_type_order (o_type a)) (hwloc_get_type_order (o_type b)))
    as [Heq|Hlt|Hgt]; case_tests; try (done || lia).
  apply type_order_inj in Heq. rewrite <- Heq.
  destruct (o_type a) eqn:Ht; simpl attr_depth;
    repeat first [rewrite depth_cmp_eq by done | rewrite depth_cmp_ne by congruence];
    rewrite ?Z.compare_refl; try done; by destruct (_ ?= _).
Qed.

(** The exact meaning of [hwloc_obj_cmp]. *)
Definition cmp_spec a b (r : hwloc_obj_cmp_e) : Prop :=
  match r with
  | HWLOC_OBJ_EQUAL => beq (cs a) (cs b) /\ obj_key a = obj_key b
  | HWLOC_OBJ_INCLUDED => bsub (cs a) (cs b) /\
      (beq (cs a) (cs b) -> okey_compare (obj_key b) (obj_key a) = Lt)
  | HWLOC_OBJ_CONTAINS => bsub (cs b) (cs a) /\
      (beq (cs a) (cs b) -> okey_compare (obj_key a) (obj_key b) = Lt)
  | HWLOC_OBJ_INTERSECTS => ~ bdisj (cs a) (cs b) /\ ~ bsub (cs a) (cs b) /\ ~ bsub (cs b) (cs a)
  | HWLOC_OBJ_DIFFERENT => bdisj (cs a) (cs b)
  end.

(** Objects with equal cpusets: the key decides. *)
Lemma tie_break a b :
  obj_ok a -> obj_ok b ->
  match hwloc_type_cmp a b with
  | HWLOC_TYPE_DEEPER => Some HWLOC_OBJ_INCLUDED
  | HWLOC_TYPE_HIGHER => Some HWLOC_OBJ_CONTAINS
  | HWLOC_TYPE_EQUAL =>
      if bool_decide (o_type a = HWLOC_OBJ_MISC) then
        let! n1 := o_name a in
        let! n2 := o_name b in
        Some (if strcmp n1 n2 <? 0 then HWLOC_OBJ_INCLUDED
              else if 0 <? strcmp n1 n2 then HWLOC_OBJ_CONTAINS else HWLOC_OBJ_EQUAL)
      else Some HWLOC_OBJ_EQUAL
  end = Some match okey_compare (obj_key a) (obj_key b) with
             | Lt => HWLOC_OBJ_CONTAINS | Gt => HWLOC_OBJ_INCLUDED | Eq => HWLOC_OBJ_EQUAL end.
Proof.
  intros [_ Hia Hna] [_ Hib Hnb]. rewrite type_cmp_eq by congruence. unfold obj_key. simpl.
  destruct (Z.compare_spec (hwloc_get_type_order (o_type a)) (hwloc_get_type_order (o_type b)))
    as [Heq| |]; [|done..].
  apply type_order_inj in Heq. destruct (_ ?= _); [|done..]. rewrite <- Heq in *.
  destruct (decide (o_type a = HWLOC_OBJ_MISC)) as [Hm|Hm].
  - rewrite bool_decide_true by done. destruct (Hna Hm) as [n1 ->], (Hnb Hm) as [n2 ->]. simpl.
    unfold strcmp. rewrite (String.compare_antisym n2 n1). by destruct (String.compare n1 n2).
  - by rewrite bool_decide_false.
Qed.

Lemma cmp_ok a b : obj_ok a -> obj_ok b -> returns (hwloc_obj_cmp a b) (cmp_spec a b).
Proof.
  intros Ha Hb. unfold hwloc_obj_cmp. rewrite ok_sets_compared by done. cbv zeta.
  destruct (ok_cs a Ha) as (_ & Hfa & _), (ok_cs b Hb) as (_ & Hfb & _).
  pose proof (b_isequal_spec (cs a) (cs b)) as Heq.
  pose proof (b_isincluded_spec (cs a) (cs b) Hfa) as Hab.
  pose proof (b_isincluded_spec (cs b) (cs a) Hfb) as Hba.
  pose proof (b_intersects_spec (cs a) (cs b) (or_introl Hfa)) as Hi.
  destruct (b_isequal (cs a) (cs b)).
  - assert (Hbeq : beq (cs a) (cs b)) by tauto. rewrite tie_break by done. apply returns_ret.
    assert (Hanti := okey_compare_antisym (obj_key a) (obj_key b)).
    destruct (okey_compare (obj_key a) (obj_key b)) eqn:Hc; simpl.
    + by rewrite <- okey_compare_eq.
    + by rewrite Hbeq.
    + by rewrite Hbeq.
  - assert (Hne : ~ beq (cs a) (cs b)) by (intros Hx; by apply Heq in Hx).
    destruct (b_isincluded (cs a) (cs b)); [apply returns_ret; simpl; tauto|].
    destruct (b_isincluded (cs b) (cs a)); [apply returns_ret; simpl; tauto|].
    destruct (b_intersects (cs a) (cs b)); apply returns_ret; simpl; [|tauto].
    split_and!; [intros Hd; by apply Hi in Hd|intros Hd; by apply Hab in Hd|intros Hd; by apply Hba in Hd].
Qed.

Lemma beq_sub (c d : B) : beq c d <-> bsub c d /\ bsub d c.
Proof.
  split; [intros Heq; split; by rewrite Heq|]. intros [Hcd Hdc] i Hi.
  destruct (bm c i) eqn:Hc, (bm d i) eqn:Hd; try done.
  - by rewrite Hcd in Hd.
  - by rewrite Hdc in Hc.
Qed.

Lemma ok_overlap a b : obj_ok a -> bsub (cs a) (cs b) -> ~ bdisj (cs a) (cs b).
Proof.
  intros Ha Hs Hd. destruct (ok_cs a Ha) as (_ & _ & Hne). apply Hne.
  by apply (bsub_disj_empty _ (cs a) (cs b)).
Qed.

(** At most one outcome fits. *)
Lemma cmp_spec_unique a b r1 r2 :
  obj_ok a -> obj_ok b -> cmp_spec a b r1 -> cmp_spec a b r2 -> r1 = r2.
Proof.
  intros Ha Hb. pose proof (ok_overlap a b Ha) as Hab. pose proof (ok_overlap b a Hb) as Hba.
  assert (Hsym : bdisj (cs a) (cs b) -> bdisj (cs b) (cs a)) by (by intros ?; symmetry).
  pose proof (beq_sub (cs a) (cs b)) as Heq.
  pose proof (okey_compare_antisym (obj_key a) (obj_key b)) as Hanti.
  pose proof (okey_compare_eq (obj_key a) (obj_key b)) as Hkey.
  destruct r1, r2; cbn [cmp_spec]; try done; rewrite <- ?Hkey, ?Hanti;
    destruct (okey_compare (obj_key a) (obj_key b)); cbn [CompOpp]; intros H1 H2; exfalso;
    try tauto; try (destruct H1; done); try (destruct H2; done);
    assert (Hlt : Eq = Lt \/ Gt = Lt) by tauto; by destruct Hlt.
Qed.

Lemma cmp_iff a b r : obj_ok a -> obj_ok b -> hwloc_obj_cmp a b = Some r <-> cmp_spec a b r.
Proof.
  intros Ha Hb. destruct (cmp_ok a b Ha Hb) as (r' & -> & Hr'). split; [by intros [= <-]|].
  intros Hr. f_equal. by apply (cmp_spec_unique a b).
Qed.

(** The outcomes seen from the other side. *)
Lemma cmp_spec_sym a b r :
  cmp_spec a b r -> cmp_spec b a match r with
    | HWLOC_OBJ_INCLUDED => HWLOC_OBJ_CONTAINS | HWLOC_OBJ_CONTAINS => HWLOC_OBJ_INCLUDED
    | r => r end.
Proof.
  destruct r; simpl.
  - intros [Heq Hk]. by split; symmetry.
  - intros [Hs Hk]. split; [done|]. intros Heq. apply Hk. by symmetry.
  - intros [Hs Hk]. split; [done|]. intros Heq. apply Hk. by symmetry.
  - intros (Hd & H1 & H2). split_and!; [|done..]. intros Hx. apply Hd. by symmetry.
  - intros Hd. by symmetry.
Qed.

Lemma contains_trans a b c :
  cmp_spec a b HWLOC_OBJ_CONTAINS -> cmp_spec b c HWLOC_OBJ_CONTAINS ->
  cmp_spec a c HWLOC_OBJ_CONTAINS.
Proof.
  cbn [cmp_spec]. intros [Hba Hk1] [Hcb Hk2]. split; [by transitivity (cs b)|]. intros Heq.
  assert (beq (cs a) (cs b)).
  { apply beq_sub. split; [|done]. rewrite Heq. done. }
  assert (beq (cs b) (cs c)).
  { apply beq_sub. split; [|done]. rewrite <- Heq. done. }
  apply (okey_lt_trans _ (obj_key b)); auto.
Qed.

Lemma different_below a b c :
  cmp_spec a b HWLOC_OBJ_DIFFERENT -> cmp_spec b c HWLOC_OBJ_CONTAINS ->
  cmp_spec a c HWLOC_OBJ_DIFFERENT.
Proof. simpl. intros Hd [Hs _]. by apply (bdisj_sub (cs a) _ (cs b)). Qed.

End Compare.
