(* ===== verification/Insert.v ===== *)
(** * Insert: how objects enter the hierarchy ([src/topology.c])

    [hwloc___insert_object_by_cpuset] finds the place of an object by its
    cpuset, [hwloc_insert_object_by_parent] appends it below a given parent.
    The tree invariant is [tree_wf]: the children of an object are included in
    it, pairwise disjoint, sorted by first CPU, and come before the children
    that have no cpuset.  Failures of [realloc] are not modelled. *)

From Stdlib Require Import String Sorted.
From S2P Require Import Prelude Cpuset Obj ObjCmp.

(** ** Translated code *)

Inductive insert_failure :=
  | TooDeep              (** "recursion has gone too deep?!" *)
  | DifferentOSLevel
  | DifferentOSIndexes
  | AlreadyPresent       (** merged into an equal object *)
  | IncludedInSeveral    (** "object included in several different objects!" *)
  | IntersectsWithout.   (** "object intersection without inclusion!" *)

Inductive insert_result := Inserted | NotInserted (why : insert_failure).

(** The int returned. *)
Definition insert_ret (r : insert_result) : Z :=
  match r with Inserted => 0 | NotInserted _ => -1 end.

(** Merging of the [infos] and [distances] arrays of [obj] into those of
    [child]: the array grows by [obj]'s count and [obj]'s elements are copied
    at the offset of [obj]'s own count; out of the array is undefined. *)
Definition merge_array {A} (obj child : list (option A)) : option (list (option A)) :=
  match obj with
  | [] => Some child
  | _ =>
    match child with
    | [] => Some obj
    | _ =>
      let n := length obj in
      let grown := child ++ replicate n None in
      require! (n + n <=? length grown)%nat in
      Some (take n grown ++ obj ++ drop (n + n) grown)
    end
  end.

Definition merge_size (new old : Z) : Z := if old =? 0 then new else old.

Definition merge_memory (obj child : hwloc_obj_memory_s) : hwloc_obj_memory_s :=
  mk_memory (merge_size (total_memory obj) (total_memory child))
    (merge_size (local_memory obj) (local_memory child))
    (if (length (page_types obj) <? length (page_types child))%nat
     then page_types child else page_types obj).

Definition merge_cache (obj child : hwloc_obj_attr_u) : hwloc_obj_attr_u :=
  match obj, child with
  | AttrCache s _ l _, AttrCache s' d' l' a' => AttrCache (merge_size s s') d' (merge_size l l') a'
  | _, _ => child
  end.

Section Insert.
Context {B : Type} `{CpusetOps B}.
Implicit Types obj : hwloc_obj B.

(** The case [HWLOC_OBJ_EQUAL] of the scan: what becomes of [child], and why
    the insertion stops. *)
Definition merge_equal obj (child : hwloc_obj B) : option (insert_failure * hwloc_obj B) :=
  let child := with_os_level child
    (if os_level child =? -1 then os_level obj else os_level child) in
  if negb (os_level obj =? os_level child) then Some (DifferentOSLevel, child) else
  let child := with_os_index child
    (if os_index child =? UNSET then os_index obj else os_index child) in
  if negb (os_index obj =? os_index child) then Some (DifferentOSIndexes, child) else
  let! d := merge_array (distances obj) (distances child) in
  let child := with_distances child d in
  let! i := merge_array (infos obj) (infos child) in
  let child := with_infos child i in
  let child := match o_name obj with Some n => with_name child (Some n) | None => child end in
  let child :=
    match o_type obj with
    | HWLOC_OBJ_NODE => with_memory child (merge_memory (memory obj) (memory child))
    | HWLOC_OBJ_CACHE => with_attr child (merge_cache (attr obj) (attr child))
    | _ => child
    end in
  Some (AlreadyPresent, child).

Inductive scan_result :=
  | ScanMerged (i : nat) (why : insert_failure) (child : hwloc_obj B)
  | ScanFailed (why : insert_failure)
  | ScanDone (container : option nat).

(** The first loop: is OBJ equal to, included in, or intersecting a child? *)
Fixpoint scan_children obj (i : nat) (container : option nat) (children : list (obj_tree B))
  : option scan_result :=
  match children with
  | [] => Some (ScanDone container)
  | child :: children =>
      let! c := hwloc_obj_cmp obj (t_obj child) in
      match c with
      | HWLOC_OBJ_EQUAL =>
          let! (why, child') := merge_equal obj (t_obj child) in
          Some (ScanMerged i why child')
      | HWLOC_OBJ_INCLUDED =>
          match container with
          | Some _ => Some (ScanFailed IncludedInSeveral)
          | None => scan_children obj (S i) (Some i) children
          end
      | HWLOC_OBJ_INTERSECTS => Some (ScanFailed IntersectsWithout)
      | HWLOC_OBJ_CONTAINS | HWLOC_OBJ_DIFFERENT => scan_children obj (S i) container children
      end
  end.

(** The second loop: the children left in CUR before OBJ, those left after it,
    and those that move below OBJ.  [put] tells whether OBJ is put already. *)
Fixpoint place_children obj (ocs : B) (put : bool) (children : list (obj_tree B))
  : option (list (obj_tree B) * list (obj_tree B) * list (obj_tree B)) :=
  match children with
  | [] => Some ([], [], [])
  | child :: children =>
      let! c := hwloc_obj_cmp obj (t_obj child) in
      match c with
      | HWLOC_OBJ_DIFFERENT =>
          let before := match ocpuset (t_obj child) with
                        | None => true
                        | Some ccs => b_compare_first ocs ccs <? 0
                        end in
          let put := put || before in
          let! (l, r, below) := place_children obj ocs put children in
          if put then Some (l, child :: r, below) else Some (child :: l, r, below)
      | HWLOC_OBJ_CONTAINS =>
          let! (l, r, below) := place_children obj ocs put children in
          Some (l, r, child :: below)
      | HWLOC_OBJ_EQUAL | HWLOC_OBJ_INCLUDED | HWLOC_OBJ_INTERSECTS => None
      end
  end.

(** [fuel] bounds the depth of the recursion. *)
Fixpoint hwloc___insert_object_by_cpuset (fuel : nat) (cur : obj_tree B) obj
  : option (insert_result * obj_tree B) :=
  match fuel with
  | O => None
  | S fuel =>
      let 'Node cur_obj children := cur in
      let! ocs := ocpuset obj in
      let! ccs := ocpuset cur_obj in
      if negb (b_isincluded ocs ccs) then Some (NotInserted TooDeep, cur) else
      let! s := scan_children obj 0 None children in
      match s with
      | ScanMerged i why child' =>
          let! child := children !! i in
          Some (NotInserted why, Node cur_obj (<[i := Node child' (t_children child)]> children))
      | ScanFailed why => Some (NotInserted why, cur)
      | ScanDone (Some i) =>
          let! container := children !! i in
          let! (r, container') := hwloc___insert_object_by_cpuset fuel container obj in
          Some (r, Node cur_obj (<[i := container']> children))
      | ScanDone None =>
          let! (l, r, below) := place_children obj ocs false children in
          Some (Inserted, Node cur_obj (l ++ Node obj below :: r))
      end
  end.

(** [hwloc_bitmap_or(x, x, y)] on pointers: NULL is undefined. *)
Definition or_into (x y : option B) : option (option B) :=
  let! a := x in let! b := y in Some (Some (b_or a b)).

(** [levels[0][0]] is the root of the tree. *)
Definition hwloc__insert_object_by_cpuset (root : obj_tree B) obj
  : option (insert_result * obj_tree B) :=
  let 'Node ro ch := root in
  let! cc := or_into (complete_cpuset (sets ro)) (ocpuset obj) in
  let ro := with_complete_cpuset ro cc in
  let! ro := match onodeset obj with
             | Some _ => let! cn := or_into (complete_nodeset (sets ro)) (onodeset obj) in
                         Some (with_complete_nodeset ro cn)
             | None => Some ro
             end in
  hwloc___insert_object_by_cpuset (tree_height root) (Node ro ch) obj.

(** Objects are appended to the children of the parent, then the former
    children of the new object are inserted below it one by one. *)
Fixpoint hwloc_insert_object_by_parent (obj : obj_tree B) (parent : list (obj_tree B))
  : list (obj_tree B) :=
  let 'Node o ch := obj in
  parent ++ [Node o (foldl (fun below child => hwloc_insert_object_by_parent child below) [] ch)].

End Insert.

(** ** The invariant *)

Section Invariant.
Context {B : Type} `{Cpuset B}.
Implicit Types o obj : hwloc_obj B.
Implicit Types c t : obj_tree B.

Definition setless o : Prop := ocpuset o = None /\ onodeset o = None.

(** The order of siblings. *)
Definition sib_before c1 c2 : Prop :=
  setless (t_obj c2) \/
  (~ setless (t_obj c1) /\ bdisj (cs (t_obj c1)) (cs (t_obj c2)) /\
   bbefore (cs (t_obj c1)) (cs (t_obj c2))).

Inductive tree_wf : obj_tree B -> Prop :=
  | tree_wf_node o ch :
      Forall (fun c => Forall setless (tree_objs c) \/
        (obj_ok (t_obj c) /\ cmp_spec o (t_obj c) HWLOC_OBJ_CONTAINS /\ tree_wf c)) ch ->
      StronglySorted sib_before ch ->
      tree_wf (Node o ch).

Definition child_wf o c : Prop :=
  Forall setless (tree_objs c) \/
  (obj_ok (t_obj c) /\ cmp_spec o (t_obj c) HWLOC_OBJ_CONTAINS /\ tree_wf c).

Lemma tree_wf_inv o ch : tree_wf (Node o ch) -> Forall (child_wf o) ch /\ StronglySorted sib_before ch.
Proof. by inversion 1. Qed.

Lemma ok_not_setless o : obj_ok o -> ~ setless o.
Proof. intros [(c & Hc & _) _ _] [Hn _]. congruence. Qed.

Lemma setless_head c : Forall setless (tree_objs c) -> setless (t_obj c).
Proof. destruct c. by inversion 1. Qed.

Lemma child_wf_head o c : child_wf o c -> setless (t_obj c) \/ obj_ok (t_obj c).
Proof. intros [Hs|(Hok & _)]; [left; by apply setless_head|by right]. Qed.

Lemma cmp_setless obj o : setless o -> hwloc_obj_cmp obj o = Some HWLOC_OBJ_DIFFERENT.
Proof.
  intros [Hc Hn]. unfold hwloc_obj_cmp, sets_compared. rewrite Hc, Hn.
  by destruct (nonzero (ocpuset obj)), (nonzero (onodeset obj)).
Qed.

(** Everything below an object of the tree has no sets or is contained in it. *)
Definition below o d : Prop := setless d \/ (obj_ok d /\ cmp_spec o d HWLOC_OBJ_CONTAINS).

Lemma tree_wf_below t : tree_wf t -> Forall (below (t_obj t)) (forest_objs (t_children t)).
Proof.
  induction t as [o ch IH] using obj_tree_ind'. intros [Hch _]%tree_wf_inv. simpl.
  apply Forall_forall. intros d (c & Hc & Hd)%elem_of_forest_objs.
  rewrite Forall_forall in IH, Hch. specialize (IH c Hc). specialize (Hch c Hc).
  destruct Hch as [Hs|(Hok & Hcon & Hwf)].
  - left. rewrite Forall_forall in Hs. auto.
  - destruct c as [oc chc]. rewrite tree_objs_node in Hd.
    apply elem_of_cons in Hd as [->|Hd]; [right; done|].
    specialize (IH Hwf). rewrite Forall_forall in IH. destruct (IH d Hd) as [|[Hokd Hcd]]; [by left|].
    right. split; [done|]. by apply (contains_trans o oc d).
Qed.

(** No object equal to OBJ, none that intersects it without inclusion. *)
Definition no_conflict obj o : Prop :=
  hwloc_obj_cmp obj o <> Some HWLOC_OBJ_EQUAL /\ hwloc_obj_cmp obj o <> Some HWLOC_OBJ_INTERSECTS.

Lemma no_conflict_of obj o r :
  hwloc_obj_cmp obj o = Some r -> r <> HWLOC_OBJ_EQUAL -> r <> HWLOC_OBJ_INTERSECTS ->
  no_conflict obj o.
Proof. intros Hc ? ?. unfold no_conflict. rewrite Hc. split; congruence. Qed.

(** Below a child that is different from OBJ or contained in it, nothing
    conflicts with OBJ. *)
Lemma no_conflict_tree obj o c r :
  obj_ok obj -> child_wf o c -> hwloc_obj_cmp obj (t_obj c) = Some r ->
  r = HWLOC_OBJ_DIFFERENT \/ r = HWLOC_OBJ_CONTAINS ->
  Forall (no_conflict obj) (tree_objs c).
Proof.
  intros Hobj Hc Hcmp Hr. apply Forall_forall. intros d Hd.
  destruct Hc as [Hs|(Hok & _ & Hwf)].
  { rewrite Forall_forall in Hs. eapply no_conflict_of; [by apply cmp_setless, Hs|done|done]. }
  assert (Hspec := proj1 (cmp_iff obj (t_obj c) r Hobj Hok) Hcmp).
  assert (Hb := tree_wf_below c Hwf). destruct c as [oc ch]. rewrite tree_objs_node in Hd. simpl in *.
  apply elem_of_cons in Hd as [->|Hd]; [destruct Hr; by eapply no_conflict_of; [done|subst..]|].
  rewrite Forall_forall in Hb. destruct (Hb d Hd) as [Hs|[Hokd Hcd]].
  { eapply no_conflict_of; [by apply cmp_setless|done|done]. }
  destruct Hr as [->| ->].
  - eapply no_conflict_of; [apply cmp_iff; [done..|]; by apply (different_below obj oc d)|done|done].
  - eapply no_conflict_of; [apply cmp_iff; [done..|]; by apply (contains_trans obj oc d)|done|done].
Qed.

End Invariant.
