(* ===== verification/InsertOk.v ===== *)
(** * InsertOk: insertion by cpuset keeps the hierarchy *)

From Stdlib Require Import String Sorted.
From S2P Require Import Prelude Cpuset Obj ObjCmp Insert.

(** ** Sorted lists *)

Lemma ss_sublist {A} (R : A -> A -> Prop) l k :
  sublist k l -> StronglySorted R l -> StronglySorted R k.
Proof.
  induction 1 as [|x k l Hs IH|x k l Hs IH]; intros Hl; [done| |].
  - inversion Hl as [|? ? Hss Hall]; subst. constructor; [auto|].
    rewrite Forall_forall in *. intros y Hy. apply Hall. by eapply elem_of_sublist.
  - inversion Hl; subst. auto.
Qed.

Lemma ss_insert {A} (R : A -> A -> Prop) l x r :
  StronglySorted R (l ++ r) -> Forall (fun y => R y x) l -> Forall (R x) r ->
  StronglySorted R (l ++ x :: r).
Proof.
  intros Hs Hl Hr. induction l as [|y l IH]; simpl in *.
  - by constructor.
  - inversion Hs as [|? ? Hss Hall]; subst. apply Forall_cons in Hl as [Hyx Hl].
    constructor; [auto|]. rewrite Forall_app in *. destruct Hall.
    split; [done|by constructor].
Qed.

(** Pointwise change of the elements. *)
Lemma ss_alter {A} (R : A -> A -> Prop) l i x y :
  l !! i = Some x -> (forall z, R z x -> R z y) -> (forall z, R x z -> R y z) ->
  StronglySorted R l -> StronglySorted R (<[i:=y]> l).
Proof.
  revert i. induction l as [|z l IH]; intros i Hi Hl Hr Hs; [done|].
  inversion Hs as [|? ? Hss Hall]; subst. destruct i as [|i]; simpl in *.
  - injection Hi as ->. constructor; [done|]. eapply Forall_impl; [done|auto].
  - constructor; [by apply IH|]. apply Forall_insert; [done|].
    apply Hl. rewrite Forall_forall in Hall. apply Hall. by eapply list_elem_of_lookup_2.
Qed.

Lemma ss_lookup {A} (R : A -> A -> Prop) l i j x y :
  StronglySorted R l -> l !! i = Some x -> l !! j = Some y -> (i < j)%nat -> R x y.
Proof.
  intros Hs. revert i j. induction Hs as [|z l Hs IH Hall]; intros i j Hi Hj Hlt; [done|].
  destruct i as [|i], j as [|j]; simpl in *; try lia.
  - injection Hi as ->. rewrite Forall_forall in Hall. apply Hall. by eapply list_elem_of_lookup_2.
  - apply (IH i j); [done|done|lia].
Qed.

Section InsertOk.
Context {B : Type} `{Cpuset B}.
Implicit Types o obj : hwloc_obj B.
Implicit Types c t : obj_tree B.

(** ** Order of disjoint sets *)

Lemma disjoint_ordered (a b : B) :
  bdisj a b -> ~ bempty a -> ~ bempty b -> bbefore a b \/ bbefore b a.
Proof.
  intros Hd Ha Hb.
  destruct (b_first_spec a) as [[_ Hn]|(Ha0 & Hma & Hla)]; [by destruct Ha|].
  destruct (b_first_spec b) as [[_ Hn]|(Hb0 & Hmb & Hlb)]; [by destruct Hb|].
  destruct (Z.lt_trichotomy (b_first a) (b_first b)) as [Hlt|[Heq|Hgt]].
  - left. exists (b_first a). split_and!; [done|done|]. intros j Hj. apply Hlb. lia.
  - exfalso. apply (Hd (b_first a)); [done|done|]. by rewrite Heq.
  - right. exists (b_first b). split_and!; [done|done|]. intros j Hj. apply Hla. lia.
Qed.

(** ** Merging *)

(** The parts of an object the invariant looks at are the same. *)
Definition rank_eq o1 o2 : Prop :=
  ocpuset o2 = ocpuset o1 /\ onodeset o2 = onodeset o1 /\ o_type o2 = o_type o1 /\
  obj_key o2 = obj_key o1 /\
  (is_Some (o_name o1) -> is_Some (o_name o2)).

Lemma rank_cs o1 o2 : rank_eq o1 o2 -> cs o2 = cs o1.
Proof. intros (Hs & _). unfold cs. by rewrite Hs. Qed.

Lemma rank_ok o1 o2 : rank_eq o1 o2 -> obj_ok o1 -> obj_ok o2.
Proof.
  intros (Hs & _ & Ht & Hk & Hn) [Hc Hio Hname].
  constructor; [by rewrite Hs|by rewrite Ht|]. rewrite Ht. auto.
Qed.

Lemma rank_cmp o1 o2 d r : rank_eq o1 o2 -> cmp_spec o1 d r -> cmp_spec o2 d r.
Proof.
  intros Hr. destruct (Hr) as (_ & _ & _ & Hk & _). unfold cmp_spec. by rewrite (rank_cs _ _ Hr), Hk.
Qed.

Lemma rank_cmp_r o1 o2 d r : rank_eq o1 o2 -> cmp_spec d o1 r -> cmp_spec d o2 r.
Proof.
  intros Hr. destruct (Hr) as (_ & _ & _ & Hk & _). unfold cmp_spec. by rewrite (rank_cs _ _ Hr), Hk.
Qed.

Lemma rank_setless o1 o2 : rank_eq o1 o2 -> setless o1 <-> setless o2.
Proof. intros (Hs & Hn & _). unfold setless. by rewrite Hs, Hn. Qed.

(** [obj] brings no arrays of its own. *)
Definition no_arrays obj : Prop := distances obj = [] /\ infos obj = [].

Lemma merge_equal_ok obj o :
  no_arrays obj -> obj_key obj = obj_key o ->
  returns (merge_equal obj o) (fun '(why, o') => rank_eq o o' /\
    (why = AlreadyPresent \/ why = DifferentOSLevel \/ why = DifferentOSIndexes)).
Proof.
  intros [Hd Hi] Hkey. unfold merge_equal. rewrite Hd, Hi.
  assert (Ht : o_type obj = o_type o) by (apply type_order_inj; unfold obj_key in Hkey; congruence).
  destruct (negb _); [apply returns_ret; split; [done|tauto]|].
  destruct (negb _); [apply returns_ret; split; [done|tauto]|].
  cbn [merge_array mbind option_bind]. apply returns_ret. split; [|tauto].
  unfold obj_key in Hkey. rewrite Ht in Hkey.
  destruct o as [a ty oi ol nm mem at_ st di inf]. simpl in *. unfold rank_eq, obj_key in *.
  destruct (o_name obj) as [n|]; [|by destruct ty, (o_type obj), (attr obj), at_].
  assert (Hn : ty = HWLOC_OBJ_MISC -> n = default ""%string nm).
  { intros ->. simpl in Hkey. congruence. }
  destruct ty, (o_type obj); simpl; try done; try (split_and!; [done..|by exists n]).
  destruct (attr obj), at_; split_and!; try done; by exists n.
Qed.

(** ** The first loop *)

Definition cmp_is obj c r : Prop := hwloc_obj_cmp obj (t_obj c) = Some r.

Definition apart obj c : Prop := cmp_is obj c HWLOC_OBJ_DIFFERENT \/ cmp_is obj c HWLOC_OBJ_CONTAINS.

(** What the first loop finds, from index [i0] on, knowing [cont]. *)
Definition scan_post obj ch (i0 : nat) (cont : option nat) (s : scan_result) : Prop :=
  match s with
  | ScanMerged i why o' => exists k c, i = (i0 + k)%nat /\ ch !! k = Some c /\
      obj_ok (t_obj c) /\ cmp_is obj c HWLOC_OBJ_EQUAL /\ rank_eq (t_obj c) o' /\
      (why = AlreadyPresent \/ why = DifferentOSLevel \/ why = DifferentOSIndexes)
  | ScanFailed IntersectsWithout => exists c, c ∈ ch /\ cmp_is obj c HWLOC_OBJ_INTERSECTS
  | ScanFailed why => why = IncludedInSeveral /\ exists k c, ch !! k = Some c /\
      cmp_is obj c HWLOC_OBJ_INCLUDED /\ (is_Some cont \/
        exists j d, (j < k)%nat /\ ch !! j = Some d /\ cmp_is obj d HWLOC_OBJ_INCLUDED)
  | ScanDone None => cont = None /\ Forall (apart obj) ch
  | ScanDone (Some i) => (cont = Some i /\ Forall (apart obj) ch) \/
      (cont = None /\ exists k c, i = (i0 + k)%nat /\ ch !! k = Some c /\
         cmp_is obj c HWLOC_OBJ_INCLUDED /\
         forall k' d, k' <> k -> ch !! k' = Some d -> apart obj d)
  end.

Lemma scan_ok obj ch i0 cont :
  obj_ok obj -> no_arrays obj ->
  Forall (fun c => setless (t_obj c) \/ obj_ok (t_obj c)) ch ->
  returns (scan_children obj i0 cont ch) (scan_post obj ch i0 cont).
Proof.
  intros Hobj Harr. revert i0 cont. induction ch as [|c ch IH]; intros i0 cont Hch.
  { apply returns_ret. destruct cont; [by left|done]. }
  apply Forall_cons in Hch as [Hc Hch]. cbn [scan_children].
  assert (Hcmp : exists r, hwloc_obj_cmp obj (t_obj c) = Some r).
  { destruct Hc as [Hs|Hok]; [rewrite cmp_setless; eauto|].
    destruct (cmp_ok obj (t_obj c) Hobj Hok) as (r & ? & _). eauto. }
  destruct Hcmp as [r Hr]. rewrite Hr. cbn [mbind option_bind].
  assert (Hgo : r = HWLOC_OBJ_DIFFERENT \/ r = HWLOC_OBJ_CONTAINS ->
    returns (scan_children obj (S i0) cont ch) (scan_post obj (c :: ch) i0 cont)).
  { intros Hdc. assert (Hap : apart obj c) by (destruct Hdc as [->| ->]; [by left|by right]).
    eapply returns_mono; [by apply IH|]. intros [i why o'|why|[i|]]; simpl.
    - intros (k & d & -> & Hk & Hrest). exists (S k), d. split; [lia|done].
    - destruct why; try (intros [Hw _]; discriminate Hw).
      + intros (_ & k & d & Hk & Hinc & Hor). split; [done|]. exists (S k), d.
        split_and!; [done|done|]. destruct Hor as [|(j & e & Hj & He)]; [by left|].
        right. exists (S j), e. split; [lia|done].
      + intros (d & Hd & Hi). exists d. split; [by right|done].
    - intros [[-> Hall]|(-> & k & d & -> & Hk & Hinc & Hall)].
      + left. split; [done|by constructor].
      + right. split; [done|]. exists (S k), d. split_and!; [lia|done|done|].
        intros [|k'] e Hne He; [by injection He as <-|]. by apply (Hall k'); [lia|].
    - intros [-> Hall]. split; [done|by constructor]. }
  destruct r; [| | |apply returns_ret|].
  - assert (Hok : obj_ok (t_obj c)).
    { destruct Hc as [Hs|]; [|done]. by rewrite cmp_setless in Hr. }
    destruct (proj1 (cmp_iff obj _ _ Hobj Hok) Hr) as [_ Hk].
    eapply returns_bind; [by apply merge_equal_ok|]. intros [why o'] [Hrank Hwhy].
    apply returns_ret. exists 0%nat, c. rewrite Nat.add_0_r. done.
  - destruct cont as [j|].
    { apply returns_ret. split; [done|]. exists 0%nat, c. split_and!; [done|done|]. left. by exists j. }
    eapply returns_mono; [by apply IH|]. intros [i why o'|why|[i|]]; simpl.
    + intros (k & d & -> & Hk & Hrest). exists (S k), d. split; [lia|done].
    + destruct why; try (intros [Hw _]; discriminate Hw).
      * intros (_ & k & d & Hk & Hinc & Hor). split; [done|]. exists (S k), d.
        split_and!; [done|done|]. right. destruct Hor as [_|(j & e & Hj & He & Hinc')].
        -- exists 0%nat, c. split_and!; [lia|done|done].
        -- exists (S j), e. split_and!; [lia|done|done].
      * intros (d & Hd & Hi). exists d. split; [by right|done].
    + intros [[[= ->] Hall]|[Hn _]]; [|done]. right. split; [done|]. exists 0%nat, c.
      split_and!; [lia|done|done|]. intros [|k'] d Hne Hd; [done|].
      rewrite Forall_forall in Hall. apply Hall. by eapply list_elem_of_lookup_2.
    + intros [Hn _]. done.
  - apply Hgo. by right.
  - exists c. split; [by left|done].
  - apply Hgo. by left.
Qed.
(** ** The second loop *)

Lemma sib_before_trans_obj obj c d :
  ~ bempty (cs (t_obj c)) -> setless (t_obj c) \/ bbefore (cs obj) (cs (t_obj c)) ->
  sib_before c d -> setless (t_obj d) \/ bbefore (cs obj) (cs (t_obj d)).
Proof.
  intros Hne Hc [Hd|(Hnc & Hdis & Hbef)]; [by left|]. destruct Hc as [|Hc]; [done|].
  right. by apply (bbefore_trans _ (cs (t_obj c))).
Qed.

(** OBJ comes before [c] among the children. *)
Definition goes_before obj c : Prop := setless (t_obj c) \/ bbefore (cs obj) (cs (t_obj c)).

Lemma goes_before_mono obj c d : goes_before obj c -> sib_before c d -> goes_before obj d.
Proof.
  intros Hc [Hd|(Hnc & _ & Hbef)]; [by left|]. destruct Hc as [|Hc]; [done|].
  right. by apply (bbefore_trans _ (cs (t_obj c))).
Qed.

(** The test of the second loop. *)
Lemma before_test obj c :
  obj_ok obj -> setless (t_obj c) \/ obj_ok (t_obj c) ->
  match ocpuset (t_obj c) with
  | None => true
  | Some ccs => b_compare_first (cs obj) ccs <? 0
  end = true <-> goes_before obj c.
Proof.
  intros Ho [Hs|Hok].
  - destruct (Hs) as [-> _]. split; [by left|done].
  - destruct (ok_cs _ Hok) as (-> & Hfc & _), (ok_cs _ Ho) as (_ & Hfo & _).
    destruct (b_compare_first_spec (cs obj) (cs (t_obj c))) as [Hlt _]; [congruence|].
    rewrite Z.ltb_lt, Hlt. split; [by right|]. intros [Hs|]; [by apply ok_not_setless in Hok|done].
Qed.

Lemma place_ok obj ch put :
  obj_ok obj ->
  Forall (fun c => setless (t_obj c) \/ obj_ok (t_obj c)) ch ->
  StronglySorted sib_before ch -> Forall (apart obj) ch ->
  (put = true -> Forall (goes_before obj) ch) ->
  returns (place_children obj (cs obj) put ch) (fun '(l, r, k) =>
    sublist (l ++ r) ch /\ sublist k ch /\ (l ++ r) ++ k ≡ₚ ch /\
    (put = true -> l = []) /\
    Forall (fun c => cmp_is obj c HWLOC_OBJ_DIFFERENT) (l ++ r) /\
    Forall (fun c => cmp_is obj c HWLOC_OBJ_CONTAINS) k /\
    Forall (fun c => ~ goes_before obj c) l /\ Forall (goes_before obj) r).
Proof.
  intros Hobj. revert put. induction ch as [|c ch IH]; intros put Hch Hsort Hap Hput.
  { apply returns_ret. split_and!; try done. }
  apply Forall_cons in Hch as [Hc Hch]. apply Forall_cons in Hap as [Hca Hap].
  inversion Hsort as [|? ? Hsort' Hall]; subst. cbn [place_children].
  destruct Hca as [Hd|Hcon]; unfold cmp_is in *.
  - rewrite Hd. cbn [mbind option_bind].
    pose proof (before_test obj c Hobj Hc) as Htest. revert Htest.
    destruct (match ocpuset (t_obj c) with Some _ => _ | None => _ end) eqn:Hb; intros Htest.
    + rewrite orb_true_r. assert (Hg : goes_before obj c) by tauto.
      assert (Hgs : Forall (goes_before obj) ch).
      { eapply Forall_impl; [exact Hall|]. intros d. by apply goes_before_mono. }
      eapply returns_bind; [by apply (IH true)|].
      intros [[l r] k] (Hs1 & Hs2 & Hp & Hl & Hdif & Hk & _ & Hr). rewrite Hl in * by done.
      apply returns_ret. simpl in *. split_and!; first [done|by constructor].
    + rewrite orb_false_r. assert (Hng : ~ goes_before obj c) by (intros Hg; apply Htest in Hg; done).
      assert (put = false) as -> by (destruct put; [|done]; apply Forall_cons in Hput as [? _]; done).
      eapply returns_bind; [by apply (IH false)|].
      intros [[l r] k] (Hs1 & Hs2 & Hp & _ & Hdif & Hk & Hl & Hr). apply returns_ret. simpl.
      split_and!; first [done|by constructor].
  - rewrite Hcon. cbn [mbind option_bind].
    eapply returns_bind; [apply (IH put); try done|].
    { intros Hp. by apply Hput, Forall_cons in Hp as [_ ?]. }
    intros [[l r] k] (Hs1 & Hs2 & Hp & Hl & Hdif & Hk & Hl' & Hr). apply returns_ret.
    split_and!; first [done|by constructor|by rewrite <- Permutation_middle, Hp].
Qed.

(** ** Insertion *)

(** Exactly one object of the tree is replaced. *)
Inductive tree_update (o o' : hwloc_obj B) : obj_tree B -> obj_tree B -> Prop :=
  | update_here ch : tree_update o o' (Node o ch) (Node o' ch)
  | update_below p ch i c c' : ch !! i = Some c -> tree_update o o' c c' ->
      tree_update o o' (Node p ch) (Node p (<[i:=c']> ch)).

(** What an insertion does to a tree. *)
Definition insert_post obj t (out : insert_result * obj_tree B) : Prop :=
  let '(r, t') := out in
  tree_wf t' /\ t_obj t' = t_obj t /\
  match r with
  | Inserted => tree_objs t' ≡ₚ obj :: tree_objs t /\
      Forall (no_conflict obj) (forest_objs (t_children t))
  | NotInserted IntersectsWithout => t' = t /\
      exists o, o ∈ forest_objs (t_children t) /\ hwloc_obj_cmp obj o = Some HWLOC_OBJ_INTERSECTS
  | NotInserted TooDeep | NotInserted IncludedInSeveral => False
  | NotInserted _ => exists o o', hwloc_obj_cmp obj o = Some HWLOC_OBJ_EQUAL /\
      o ∈ forest_objs (t_children t) /\ rank_eq o o' /\ tree_update o o' t t'
  end.

Lemma child_heads o ch : Forall (child_wf o) ch ->
  Forall (fun c => setless (t_obj c) \/ obj_ok (t_obj c)) ch.
Proof. intros Hch. eapply Forall_impl; [done|]. intros c. apply child_wf_head. Qed.

Lemma forest_objs_perm ts us : ts ≡ₚ us -> forest_objs (B := B) ts ≡ₚ forest_objs us.
Proof.
  induction 1 as [|t ts us _ IH|t u ts|ts us vs _ IH1 _ IH2]; [done| | |by etrans].
  - by rewrite !forest_objs_cons, IH.
  - rewrite !forest_objs_cons, !(assoc_L (++)). by rewrite (Permutation_app_comm (tree_objs u)).
Qed.

Lemma forest_objs_insert ts i c c' :
  ts !! i = Some c ->
  forest_objs (B := B) (<[i:=c']> ts) ++ tree_objs c ≡ₚ tree_objs c' ++ forest_objs ts.
Proof.
  revert i. induction ts as [|t ts IH]; intros [|i] Hi; simplify_eq/=.
  - rewrite !forest_objs_cons. rewrite <- (assoc_L (++)). f_equiv. apply Permutation_app_comm.
  - rewrite !forest_objs_cons, <- (assoc_L (++)), (IH i) by done.
    rewrite !(assoc_L (++)). f_equiv. apply Permutation_app_comm.
Qed.

(** Replacing a child by one of the same place keeps the parent well formed. *)
Lemma replace_child o ch i c c' :
  tree_wf (Node o ch) -> ch !! i = Some c -> obj_ok (t_obj c) ->
  rank_eq (t_obj c) (t_obj c') -> tree_wf c' ->
  tree_wf (Node o (<[i:=c']> ch)).
Proof.
  intros [Hch Hs]%tree_wf_inv Hi Hok Hrank Hwf. constructor.
  - apply Forall_insert; [done|]. right. rewrite Forall_forall in Hch.
    destruct (Hch c) as [Hsl|(_ & Hcmp & _)]; [by eapply list_elem_of_lookup_2| |].
    + apply setless_head in Hsl. by apply ok_not_setless in Hok.
    + split_and!; [by eapply rank_ok|by eapply rank_cmp_r|done].
  - assert (Hse := rank_setless _ _ Hrank). assert (Hcs := rank_cs _ _ Hrank).
    eapply ss_alter; [done| | |done]; intros z; unfold sib_before; rewrite Hcs; tauto.
Qed.

Lemma rank_refl o : rank_eq o o.
Proof. done. Qed.

(** The objects below a replaced root. *)
Lemma update_root_wf o o' ch : rank_eq o o' -> tree_wf (Node o ch) -> tree_wf (Node o' ch).
Proof.
  intros Hr [Hch Hs]%tree_wf_inv. constructor; [|done].
  eapply Forall_impl; [exact Hch|]. intros c [|(? & ? & ?)]; [by left|right].
  split_and!; [done|by eapply rank_cmp|done].
Qed.

(** OBJ takes its place among the children of CUR. *)
Lemma insert_here obj o ch l r k :
  obj_ok obj -> tree_wf (Node o ch) -> cmp_spec o obj HWLOC_OBJ_CONTAINS ->
  sublist (l ++ r) ch -> sublist k ch -> (l ++ r) ++ k ≡ₚ ch ->
  Forall (fun c => cmp_is obj c HWLOC_OBJ_DIFFERENT) (l ++ r) ->
  Forall (fun c => cmp_is obj c HWLOC_OBJ_CONTAINS) k ->
  Forall (fun c => ~ goes_before obj c) l -> Forall (goes_before obj) r ->
  tree_wf (Node o (l ++ Node obj k :: r)).
Proof.
  intros Hobj [Hch Hs]%tree_wf_inv Hcmp Hlr Hk Hperm Hdif Hcon Hl Hr.
  assert (Hin : forall c, c ∈ (l ++ r) ++ k -> child_wf o c).
  { intros c Hc. rewrite Forall_forall in Hch. apply Hch. by rewrite <- Hperm. }
  rewrite Forall_forall in Hdif, Hcon, Hl, Hr.
  assert (Hsep : forall c, c ∈ l ++ r -> setless (t_obj c) \/
    (obj_ok (t_obj c) /\ bdisj (cs obj) (cs (t_obj c)))).
  { intros c Hc. assert (Hcw := Hin c ltac:(apply elem_of_app; by left)).
    destruct (child_wf_head _ _ Hcw) as [|Hok]; [by left|]. right. split; [done|].
    exact (proj1 (cmp_iff obj (t_obj c) _ Hobj Hok) (Hdif c Hc)). }
  constructor.
  - apply Forall_app. split; [|constructor].
    + apply Forall_forall. intros c Hc. apply Hin. rewrite !elem_of_app. tauto.
    + right. split_and!; [done|done|]. constructor; [|by eapply ss_sublist].
      apply Forall_forall. intros c Hc. assert (Hcw := Hin c ltac:(apply elem_of_app; by right)).
      destruct Hcw as [|(Hok & _ & Hwf)]; [by left|]. right. split_and!; [done| |done].
      exact (proj1 (cmp_iff obj (t_obj c) _ Hobj Hok) (Hcon c Hc)).
    + apply Forall_forall. intros c Hc. apply Hin. rewrite !elem_of_app. tauto.
  - apply ss_insert; [by eapply ss_sublist|..]; apply Forall_forall; intros c Hc.
    + right. assert (Hng := Hl c Hc).
      destruct (Hsep c ltac:(apply elem_of_app; by left)) as [Hsl|[Hok Hd]];
        [destruct Hng; by left|]. simpl.
      split_and!; [by apply ok_not_setless|by symmetry|].
      destruct (disjoint_ordered (cs obj) (cs (t_obj c))) as [Hb|]; [done|..|done].
      * apply ok_cs, Hobj.
      * apply ok_cs, Hok.
      * destruct Hng. by right.
    + assert (Hg := Hr c Hc).
      destruct (Hsep c ltac:(apply elem_of_app; by right)) as [Hsl|[Hok Hd]]; [by left|].
      right. simpl. split_and!; [by apply ok_not_setless|done|].
      destruct Hg as [Hsl|]; [by apply ok_not_setless in Hok|done].
Qed.

(** The three ends of an insertion at one level. *)
Lemma insert_merged obj o ch k c o' why :
  tree_wf (Node o ch) -> ch !! k = Some c -> obj_ok (t_obj c) ->
  cmp_is obj c HWLOC_OBJ_EQUAL -> rank_eq (t_obj c) o' ->
  why = AlreadyPresent \/ why = DifferentOSLevel \/ why = DifferentOSIndexes ->
  insert_post obj (Node o ch)
    (NotInserted why, Node o (<[k := Node o' (t_children c)]> ch)).
Proof.
  intros Hwf Hk Hok Hcmp Hrank Hwhy. assert (Hin := list_elem_of_lookup_2 _ _ _ Hk).
  assert (Hupd : exists o1 o2, hwloc_obj_cmp obj o1 = Some HWLOC_OBJ_EQUAL /\ o1 ∈ forest_objs ch /\
    rank_eq o1 o2 /\ tree_update o1 o2 (Node o ch) (Node o (<[k := Node o' (t_children c)]> ch))).
  { exists (t_obj c), o'. split_and!; [done| |done|].
    - apply elem_of_forest_objs. exists c. split; [done|]. destruct c. by left.
    - apply (update_below _ _ _ _ _ c); [done|]. destruct c. apply update_here. }
  split_and!; [|done|by destruct Hwhy as [->|[->| ->]]].
  eapply replace_child; [done..|].
  destruct (tree_wf_inv _ _ Hwf) as [Hch _]. rewrite Forall_forall in Hch.
  destruct (Hch c Hin) as [Hs|(_ & _ & Hc)]; [by apply setless_head, ok_not_setless in Hs|].
  destruct c as [oc chc]. by apply (update_root_wf oc).
Qed.

(** OBJ went below the child [c]; everything beside it is apart. *)
Lemma insert_deeper obj o ch k c r c' :
  obj_ok obj -> tree_wf (Node o ch) -> ch !! k = Some c -> obj_ok (t_obj c) -> tree_wf c ->
  cmp_is obj c HWLOC_OBJ_INCLUDED ->
  (forall k' d, k' <> k -> ch !! k' = Some d -> apart obj d) ->
  insert_post obj c (r, c') -> insert_post obj (Node o ch) (r, Node o (<[k := c']> ch)).
Proof.
  intros Hobj Hwf Hk Hok Hc Hinc Hap (Hc' & Hroot & Hpost).
  assert (Hin := list_elem_of_lookup_2 _ _ _ Hk).
  assert (Hsub : forall d, d ∈ forest_objs (t_children c) -> d ∈ forest_objs ch).
  { intros d Hd. apply elem_of_forest_objs. exists c. split; [done|]. destruct c. by right. }
  split_and!; [by eapply replace_child; try done; rewrite Hroot|done|].
  destruct r as [|why].
  - destruct Hpost as [Hperm Hnc]. split.
    + assert (Hp := forest_objs_insert ch k c c' Hk). rewrite Hperm in Hp.
      rewrite !tree_objs_node, Permutation_swap. f_equiv.
      apply (Permutation_app_inv_r (tree_objs c)). rewrite Hp. simpl. f_equiv.
      apply Permutation_app_comm.
    + apply Forall_forall. intros d (e & He & Hd)%elem_of_forest_objs.
      apply list_elem_of_lookup in He as [k' He].
      destruct (decide (k' = k)) as [->|Hne].
      * simpl in He. rewrite Hk in He. injection He as <-. rewrite Forall_forall in Hnc.
        destruct c as [oc chc]. rewrite tree_objs_node in Hd.
        apply elem_of_cons in Hd as [->|Hd]; [by eapply no_conflict_of|by apply Hnc].
      * destruct (tree_wf_inv _ _ Hwf) as [Hch _]. rewrite Forall_forall in Hch.
        assert (Hew := Hch e ltac:(by eapply list_elem_of_lookup_2)).
        assert (Hnce : Forall (no_conflict obj) (tree_objs e)).
        { destruct (Hap k' e Hne He) as [Hcmp|Hcmp]; eapply no_conflict_tree; eauto. }
        rewrite Forall_forall in Hnce. by apply Hnce.
  - assert (Hupd : (exists o1 o2, hwloc_obj_cmp obj o1 = Some HWLOC_OBJ_EQUAL /\
        o1 ∈ forest_objs (t_children c) /\ rank_eq o1 o2 /\ tree_update o1 o2 c c') ->
      exists o1 o2, hwloc_obj_cmp obj o1 = Some HWLOC_OBJ_EQUAL /\ o1 ∈ forest_objs ch /\
        rank_eq o1 o2 /\ tree_update o1 o2 (Node o ch) (Node o (<[k := c']> ch))).
    { intros (o1 & o2 & ? & Ho1 & ? & Hu). exists o1, o2. split_and!; [done|by apply Hsub|done|].
      by eapply update_below. }
    destruct why; try done; try (by apply Hupd).
    destruct Hpost as [-> (d & Hd & Hcmp)]. split; [by rewrite list_insert_id|].
    exists d. split; [by apply Hsub|done].
Qed.

(** Insertion with enough fuel: it completes, the tree stays well formed, and
    the object is in the tree unless it conflicts with an object there. *)
Lemma insert_ok fuel t obj :
  (tree_height t <= fuel)%nat -> tree_wf t -> is_Some (ocpuset (t_obj t)) -> obj_ok obj ->
  no_arrays obj -> cmp_spec (t_obj t) obj HWLOC_OBJ_CONTAINS ->
  returns (hwloc___insert_object_by_cpuset fuel t obj) (insert_post obj t).
Proof.
  intros Hfuel Hwf Hroot Hobj Harr. revert t Hfuel Hwf Hroot.
  induction fuel as [|fuel IH]; intros [o ch] Hfuel Hwf Hroot Hcon; [simpl in Hfuel; lia|].
  simpl t_obj in *. cbn [hwloc___insert_object_by_cpuset].
  destruct (ok_cs _ Hobj) as (Hoc & Hfo & _). rewrite Hoc.
  destruct Hroot as [cr Hroot]. assert (cs o = cr) as <- by (unfold cs; by rewrite Hroot). rewrite Hroot.
  cbn [mbind option_bind].
  rewrite (proj2 (b_isincluded_spec (cs obj) (cs o) Hfo)) by apply Hcon. simpl negb.
  destruct (tree_wf_inv _ _ Hwf) as [Hch Hsort]. assert (Hheads := child_heads _ _ Hch).
  eapply returns_bind; [by apply scan_ok|]. intros [i why o'|why|[i|]]; cbn [scan_post].
  - intros (k & c & -> & Hk & Hok & Hcmp & Hrank & Hwhy). rewrite Nat.add_0_l, Hk.
    apply returns_ret. by apply insert_merged.
  - destruct why; try (intros [Hw _]; discriminate Hw); intros Hw; apply returns_ret.
    + exfalso. destruct Hw as (_ & k & c & Hk & Hinc & [[? ?]|(j & d & Hj & Hd & Hdinc)]); [done|].
      assert (Hok : forall e n, ch !! n = Some e -> cmp_is obj e HWLOC_OBJ_INCLUDED ->
        obj_ok (t_obj e) /\ bsub (cs obj) (cs (t_obj e))).
      { intros e n He Hi. assert (He' := list_elem_of_lookup_2 _ _ _ He). rewrite Forall_forall in Hheads.
        destruct (Hheads e He') as [Hs|Hok]; [unfold cmp_is in Hi; by rewrite cmp_setless in Hi|].
        split; [done|]. exact (proj1 (proj1 (cmp_iff obj (t_obj e) _ Hobj Hok) Hi)). }
      destruct (Hok c k Hk Hinc) as [Hokc Hsc], (Hok d j Hd Hdinc) as [_ Hsd].
      destruct (ss_lookup _ _ _ _ _ _ Hsort Hd Hk Hj) as [Hs|(_ & Hdis & _)];
        [by apply ok_not_setless in Hokc|].
      destruct (ok_cs _ Hobj) as (_ & _ & Hne). apply Hne. by apply (bsub_disj_empty _ (cs (t_obj d)) (cs (t_obj c))).
    + destruct Hw as (c & Hc & Hcmp). split_and!; [done|done|done|]. exists (t_obj c).
      split; [|done]. apply elem_of_forest_objs. exists c. split; [done|]. destruct c. by left.
  - intros [[? _]|(_ & k & c & -> & Hk & Hinc & Hap)]; [done|]. rewrite Nat.add_0_l, Hk.
    assert (Hin := list_elem_of_lookup_2 _ _ _ Hk). cbn [mbind option_bind].
    rewrite Forall_forall in Hch. destruct (Hch c Hin) as [Hs|(Hok & _ & Hwc)].
    { unfold cmp_is in Hinc. by rewrite cmp_setless in Hinc by (by apply setless_head). }
    eapply returns_bind; [apply (IH c); [|done|by rewrite (proj1 (ok_cs _ Hok))|]|].
    + pose proof (height_child o ch c Hin). lia.
    + apply (cmp_spec_sym obj (t_obj c) HWLOC_OBJ_INCLUDED). by apply cmp_iff.
    + intros [r c'] Hpost. apply returns_ret. by apply (insert_deeper obj o ch k c).
  - intros [_ Hap]. eapply returns_bind; [by apply (place_ok obj ch false)|].
    intros [[l r] below] (Hs1 & Hs2 & Hperm & _ & Hdif & Hk & Hl & Hr). apply returns_ret.
    split_and!; [by eapply insert_here|done| |].
    + rewrite !tree_objs_node, Permutation_swap. f_equiv.
      rewrite forest_objs_app, forest_objs_cons, tree_objs_node.
      rewrite <- (forest_objs_perm _ _ Hperm), !forest_objs_app.
      simpl. rewrite <- Permutation_middle. f_equiv.
      rewrite <- !(assoc_L (++)). f_equiv. apply Permutation_app_comm.
    + apply Forall_forall. intros d (e & He & Hd)%elem_of_forest_objs.
      rewrite Forall_forall in Hap, Hch.
      assert (Hnce : Forall (no_conflict obj) (tree_objs e)).
      { destruct (Hap e He) as [Hcmp|Hcmp]; eapply no_conflict_tree; eauto. }
      rewrite Forall_forall in Hnce. by apply Hnce.
Qed.

(** It succeeds exactly when no object of the tree conflicts with OBJ. *)
Lemma insert_post_iff obj t r t' :
  insert_post obj t (r, t') ->
  r = Inserted <-> Forall (no_conflict obj) (forest_objs (t_children t)).
Proof.
  intros (_ & _ & Hpost). destruct r as [|why]; [tauto|]. split; [done|]. intros Hall. exfalso.
  rewrite Forall_forall in Hall. destruct why; try done.
  1-3: destruct Hpost as (o & _ & Hcmp & Hin & _); by destruct (Hall o Hin).
  destruct Hpost as (_ & o & Hin & Hcmp). by destruct (Hall o Hin).
Qed.

(** ** By parent *)

Lemma insert_by_parent_ok t parent :
  hwloc_insert_object_by_parent t parent = parent ++ [t].
Proof.
  revert parent. induction t as [o ch IH] using obj_tree_ind'. intros parent. simpl.
  f_equal. f_equal. f_equal. change ch with ([] ++ ch) at 2. generalize (@nil (obj_tree B)).
  induction IH as [|c ch Hc Hch IHch]; intros acc; simpl; [by rewrite app_nil_r|].
  rewrite Hc, IHch. by rewrite <- app_assoc.
Qed.

End InsertOk.
