(* ===== verification/Clean.v ===== *)
(** * Clean: the passes of [src/topology.c] that remove objects

    [remove_ignored], [remove_empty], [merge_useless_child],
    [hwloc_drop_useless_io] and the restriction of a loaded topology.  They walk
    the children with [for_each_child_safe], which looks again at the same
    sibling pointer when the current child was unlinked: objects promoted in its
    place are visited in turn. *)

From S2P Require Import Prelude Cpuset Obj.

(** ** The macro [for_each_child_safe] *)

(** What a visit did to the sibling pointer it was given: the child is still
    there, or [*pchild] now starts with these objects, followed by the former
    next sibling. *)
Inductive visit (B : Type) :=
  | Kept (child : obj_tree B)
  | Replaced (objs : list (obj_tree B)).
Arguments Kept {B}.
Arguments Replaced {B}.

(** [fuel] bounds the number of iterations; [s] is the state the body threads. *)
Fixpoint for_each_child_safe {B S : Type} (fuel : nat)
    (body : S -> obj_tree B -> option (S * visit B)) (s : S) (children : list (obj_tree B))
  : option (S * list (obj_tree B)) :=
  match children with
  | [] => Some (s, [])
  | child :: next =>
      match fuel with
      | O => None
      | Datatypes.S fuel =>
          let! (s, v) := body s child in
          match v with
          | Kept child =>
              let! (s, next) := for_each_child_safe fuel body s next in
              Some (s, child :: next)
          | Replaced objs => for_each_child_safe fuel body s (objs ++ next)
          end
      end
  end.

(** A body without state. *)
Definition stateless {B} (body : obj_tree B -> option (visit B)) (s : unit) (child : obj_tree B)
  : option (unit * visit B) := let! v := body child in Some (s, v).

Definition each_child {B} (fuel : nat) (body : obj_tree B -> option (visit B))
    (children : list (obj_tree B)) : option (list (obj_tree B)) :=
  let! (_, children) := for_each_child_safe fuel (stateless body) tt children in Some children.

(** The objects a pointer leads to after a visit. *)
Definition visited {B} (v : visit B) : list (obj_tree B) :=
  match v with Kept c => [c] | Replaced ts => ts end.

(** ** Which types to ignore *)

Inductive hwloc_ignore_type_e :=
  | HWLOC_IGNORE_TYPE_NEVER | HWLOC_IGNORE_TYPE_KEEP_STRUCTURE | HWLOC_IGNORE_TYPE_ALWAYS.

#[export] Instance ignore_type_eq_dec : EqDecision hwloc_ignore_type_e.
Proof. solve_decision. Defined.

Definition ignored_types : Type := hwloc_obj_type_t -> hwloc_ignore_type_e.

Definition set_ignored (ign : ignored_types) (type : hwloc_obj_type_t) (e : hwloc_ignore_type_e)
  : ignored_types := fun t => if bool_decide (t = type) then e else ign t.

(** [None] for the type is a value out of the enumeration; the result is the
    int returned, errno being EINVAL on -1, and the new table. *)
Definition ignore_call (e : hwloc_ignore_type_e) (ign : ignored_types)
    (type : option hwloc_obj_type_t) : Z * ignored_types :=
  match type with
  | None => (-1, ign)
  | Some type =>
      if bool_decide (type = HWLOC_OBJ_PU) then (-1, ign)
      else if hwloc_obj_type_is_io type then (-1, ign)
      else (0, set_ignored ign type e)
  end.

Definition hwloc_topology_ignore_type := ignore_call HWLOC_IGNORE_TYPE_ALWAYS.
Definition hwloc_topology_ignore_type_keep_structure := ignore_call HWLOC_IGNORE_TYPE_KEEP_STRUCTURE.

Definition hwloc_topology_ignore_all_keep_structure (ign : ignored_types) : Z * ignored_types :=
  (0, foldl (fun ign type =>
         if negb (bool_decide (type = HWLOC_OBJ_PU)) && negb (hwloc_obj_type_is_io type)
         then set_ignored ign type HWLOC_IGNORE_TYPE_KEEP_STRUCTURE else ign) ign obj_types).

(** Any sequence of these calls before the topology is loaded. *)
Inductive ignore_op :=
  | IgnoreType (type : option hwloc_obj_type_t)
  | KeepStructure (type : option hwloc_obj_type_t)
  | KeepAllStructure.

Definition ignore_step (ign : ignored_types) (op : ignore_op) : ignored_types :=
  match op with
  | IgnoreType type => snd (hwloc_topology_ignore_type ign type)
  | KeepStructure type => snd (hwloc_topology_ignore_type_keep_structure ign type)
  | KeepAllStructure => snd (hwloc_topology_ignore_all_keep_structure ign)
  end.

(** The table after [hwloc_topology_init]: every type kept but groups, which are
    kept if they bring structure. *)
Definition default_ignored : ignored_types := fun t =>
  if bool_decide (t = HWLOC_OBJ_GROUP) then HWLOC_IGNORE_TYPE_KEEP_STRUCTURE
  else HWLOC_IGNORE_TYPE_NEVER.

(** ** Flags *)

Definition HWLOC_TOPOLOGY_FLAG_WHOLE_SYSTEM : Z := 1.
Definition HWLOC_TOPOLOGY_FLAG_IO_DEVICES : Z := 4.
Definition HWLOC_TOPOLOGY_FLAG_IO_BRIDGES : Z := 8.
Definition HWLOC_TOPOLOGY_FLAG_WHOLE_IO : Z := 16.
Definition HWLOC_RESTRICT_FLAG_ADAPT_MISC : Z := 2.
Definition HWLOC_RESTRICT_FLAG_ADAPT_IO : Z := 4.

(** [flags & mask] as a condition. *)
Definition has_flag (flags mask : Z) : bool := negb (Z.land flags mask =? 0).

Section Clean.
Context {B : Type} `{CpusetOps B}.
Implicit Types t : obj_tree B.

(** ** Ignored and empty objects *)

(** The children take the place of the object. *)
Definition unlink_and_free_single_object (t : obj_tree B) : visit B := Replaced (t_children t).

Fixpoint remove_ignored (fuel : nat) (ign : ignored_types) (is_root : bool) t : option (visit B) :=
  match fuel with
  | O => None
  | S fuel =>
      let 'Node o ch := t in
      let! ch := each_child fuel (remove_ignored fuel ign false) ch in
      if negb is_root && bool_decide (ign (o_type o) = HWLOC_IGNORE_TYPE_ALWAYS)
      then Some (unlink_and_free_single_object (Node o ch))
      else Some (Kept (Node o ch))
  end.

Definition null_or {A} (p : option A) (b : A -> bool) : bool :=
  match p with Some a => b a | None => false end.

Fixpoint remove_empty (fuel : nat) t : option (visit B) :=
  match fuel with
  | O => None
  | S fuel =>
      let 'Node o ch := t in
      let! ch := each_child fuel (remove_empty fuel) ch in
      if negb (bool_decide (o_type o = HWLOC_OBJ_NODE))
         && match ch with [] => true | _ => false end
         && negb (hwloc_obj_type_is_io (o_type o))
         && null_or (ocpuset o) b_iszero
      then Some (unlink_and_free_single_object (Node o ch))
      else Some (Kept (Node o ch))
  end.

(** ** Merging an object with its only child *)

Fixpoint merge_useless_child (fuel : nat) (ign : ignored_types) t : option (visit B) :=
  match fuel with
  | O => None
  | S fuel =>
      let 'Node parent ch := t in
      let! ch := each_child fuel (merge_useless_child fuel ign) ch in
      match ch with
      | [child] =>
          if bool_decide (ign (o_type parent) = HWLOC_IGNORE_TYPE_KEEP_STRUCTURE)
          then Some (Replaced [child])
          else if bool_decide (ign (o_type (t_obj child)) = HWLOC_IGNORE_TYPE_KEEP_STRUCTURE)
          then Some (Kept (Node parent (t_children child)))
          else Some (Kept (Node parent ch))
      | _ => Some (Kept (Node parent ch))
      end
  end.

(** ** I/O objects *)

(** Everything below goes first, then the object itself. *)
Fixpoint unlink_and_free_object_and_children (fuel : nat) t : option (visit B) :=
  match fuel with
  | O => None
  | S fuel =>
      let 'Node _ ch := t in
      let! _ := each_child fuel (unlink_and_free_object_and_children fuel) ch in
      Some (Replaced [])
  end.

Definition pci_class_id (a : hwloc_obj_attr_u) : Z :=
  match a with AttrPcidev p => class_id p | _ => 0 end.

Definition upstream_is_host (a : hwloc_obj_attr_u) : bool :=
  match a with AttrBridge b => upstream_type b =? HWLOC_OBJ_BRIDGE_HOST | _ => true end.

(** Display, network, storage, processor and InfiniBand devices are kept. *)
Definition interesting_pci (a : hwloc_obj_attr_u) : bool :=
  let classid := pci_class_id a in
  let baseclass := Z.shiftr classid 8 in
  (baseclass =? 0x03) || (baseclass =? 0x02) || (baseclass =? 0x01) || (baseclass =? 0x0b) ||
  (classid =? 0x0c06).

(** The children of [root] after the call. *)
Fixpoint hwloc_drop_useless_io (fuel : nat) (flags : Z) (root : list (obj_tree B))
  : option (list (obj_tree B)) :=
  match fuel with
  | O => None
  | S fuel =>
      if negb (has_flag flags (HWLOC_TOPOLOGY_FLAG_IO_DEVICES + HWLOC_TOPOLOGY_FLAG_WHOLE_IO)) then
        each_child fuel (fun child =>
          if hwloc_obj_type_is_io (o_type (t_obj child))
          then unlink_and_free_object_and_children fuel child
          else Some (Kept child)) root
      else
        let! root :=
          if negb (has_flag flags HWLOC_TOPOLOGY_FLAG_WHOLE_IO) then
            each_child fuel (fun child =>
              if bool_decide (o_type (t_obj child) = HWLOC_OBJ_PCI_DEVICE)
                 && negb (interesting_pci (attr (t_obj child)))
              then unlink_and_free_object_and_children fuel child
              else Some (Kept child)) root
          else Some root in
        each_child fuel (fun child =>
          let 'Node o ch := child in
          let! ch := hwloc_drop_useless_io fuel flags ch in
          let child := Node o ch in
          if bool_decide (o_type o = HWLOC_OBJ_BRIDGE) then
            match ch with
            | [] =>
                if negb (has_flag flags HWLOC_TOPOLOGY_FLAG_WHOLE_IO) then Some (Replaced [])
                else Some (Kept child)
            | _ =>
                if negb (upstream_is_host (attr o))
                   && negb (has_flag flags (HWLOC_TOPOLOGY_FLAG_IO_BRIDGES + HWLOC_TOPOLOGY_FLAG_WHOLE_IO))
                then Some (Replaced ch) else Some (Kept child)
            end
          else Some (Kept child)) root
  end.

Definition set_bridge_depth (o : hwloc_obj B) (depth : Z) : hwloc_obj B :=
  match attr o with
  | AttrBridge b => with_attr o (AttrBridge (with_b_depth b depth))
  | _ => with_attr o (AttrBridge (with_b_depth zero_bridge depth))
  end.

(** Recursion through the bridges of the children. *)
Fixpoint hwloc_propagate_bridge_depth t (depth : Z) : obj_tree B :=
  let 'Node root ch := t in
  Node root (map (fun child =>
    if bool_decide (o_type (t_obj child) = HWLOC_OBJ_BRIDGE) then
      let 'Node o ch := hwloc_propagate_bridge_depth child (depth + 1) in
      Node (set_bridge_depth o depth) ch
    else child) ch).

(** ** Restricting *)

Definition andnot_opt (s : option B) (dropped : B) : option B :=
  match s with Some b => Some (b_andnot b dropped) | None => None end.

Definition drop_cpus (o : hwloc_obj B) (dropped : B) : hwloc_obj B :=
  with_sets (with_distances o []) (mk_sets (andnot_opt (cpuset (sets o)) dropped)
    (andnot_opt (complete_cpuset (sets o)) dropped) (andnot_opt (online_cpuset (sets o)) dropped)
    (andnot_opt (allowed_cpuset (sets o)) dropped)
    (nodeset (sets o)) (complete_nodeset (sets o)) (allowed_nodeset (sets o))).

(** The state is the set of dropped NUMA nodes. *)
Fixpoint restrict_object (fuel : nat) (flags : Z) (droppedcpuset : B) (droppingparent : bool)
    (droppednodeset : B) t : option (B * visit B) :=
  match fuel with
  | O => None
  | S fuel =>
      let 'Node o ch := t in
      let modified := null_or (complete_cpuset (sets o)) (fun c => b_intersects c droppedcpuset) in
      let o := drop_cpus o droppedcpuset in
      let dropping :=
        if bool_decide (o_type o = HWLOC_OBJ_MISC) then
          droppingparent && negb (has_flag flags HWLOC_RESTRICT_FLAG_ADAPT_MISC)
        else if hwloc_obj_type_is_io (o_type o) then
          droppingparent && negb (has_flag flags HWLOC_RESTRICT_FLAG_ADAPT_IO)
        else droppingparent || null_or (ocpuset o) b_iszero in
      let! (droppednodeset, ch) :=
        if modified
        then for_each_child_safe fuel (restrict_object fuel flags droppedcpuset dropping)
               droppednodeset ch
        else Some (droppednodeset, ch) in
      if dropping then
        let droppednodeset :=
          if bool_decide (o_type o = HWLOC_OBJ_NODE) then b_set droppednodeset (os_index o)
          else droppednodeset in
        Some (droppednodeset, unlink_and_free_single_object (Node o ch))
      else Some (droppednodeset, Kept (Node o ch))
  end.

Definition drop_nodes (o : hwloc_obj B) (dropped : B) : hwloc_obj B :=
  with_sets o (mk_sets (cpuset (sets o)) (complete_cpuset (sets o)) (online_cpuset (sets o))
    (allowed_cpuset (sets o)) (andnot_opt (nodeset (sets o)) dropped)
    (andnot_opt (complete_nodeset (sets o)) dropped)
    (andnot_opt (allowed_nodeset (sets o)) dropped)).

Fixpoint restrict_object_nodeset (droppednodeset : B) t : obj_tree B :=
  let 'Node o ch := t in
  if match complete_nodeset (sets o) with
     | Some c => negb (b_intersects c droppednodeset)
     | None => false
     end
  then t
  else Node (drop_nodes o droppednodeset) (map (restrict_object_nodeset droppednodeset) ch).

(** The part of [hwloc_topology_restrict] that changes the tree; [None] inside
    is the error EINVAL.  [restrict_object] may replace the root pointer. *)
Definition hwloc_topology_restrict (root : obj_tree B) (set : B) (flags : Z)
  : option (option (visit B)) :=
  let! rc := ocpuset (t_obj root) in
  if negb (b_intersects set rc) then Some None else
  let droppedcpuset := b_not set in
  let! (droppednodeset, v) :=
    restrict_object (S (tree_size root)) flags droppedcpuset false b_alloc root in
  match v with
  | Kept root => Some (Some (Kept (restrict_object_nodeset droppednodeset root)))
  | Replaced ts => Some (Some (Replaced ts))
  end.

End Clean.
