(* ===== verification/CleanOk.v ===== *)
(** * CleanOk: the removal passes compute simple one-pass functions

    The loops revisit promoted objects; the lemmas here show that this changes
    nothing: each pass equals a structural function on trees ([strip], [merge],
    [io_strip]), from which the properties of its result follow. *)

From S2P Require Import Prelude Cpuset Obj Clean.

(** ** The table of ignored types *)

Definition essential (t : hwloc_obj_type_t) : Prop :=
  t = HWLOC_OBJ_PU \/ hwloc_obj_type_is_io t = true.

Lemma ignore_call_essential e ign type t :
  essential t -> snd (ignore_call e ign type) t = ign t.
Proof.
  intros Ht. destruct type as [type|]; [|done]. unfold ignore_call.
  destruct (bool_decide _) eqn:Hpu; [done|]. destruct (hwloc_obj_type_is_io type) eqn:Hio; [done|].
  simpl. unfold set_ignored. rewrite bool_decide_eq_false_2; [done|]. intros ->.
  apply bool_decide_eq_false in Hpu. destruct Ht; congruence.
Qed.

Lemma keep_all_essential ign t :
  essential t -> snd (hwloc_topology_ignore_all_keep_structure ign) t = ign t.
Proof. intros [->|Hio]; [done|]. by destruct t. Qed.

Lemma ignore_steps_essential ops ign t :
  essential t -> foldl ignore_step ign ops t = ign t.
Proof.
  intros Ht. revert ign. induction ops as [|op ops IH]; intros ign; [done|]. simpl. rewrite IH.
  destruct op; simpl; [by apply ignore_call_essential..|by apply keep_all_essential].
Qed.

Section CleanOk.
Context {B : Type} `{CpusetOps B}.
Implicit Types t c : obj_tree B.
Implicit Types ts ch : list (obj_tree B).

(** ** Sizes and nodes *)

Fixpoint tree_nodes t : list (obj_tree B) :=
  let 'Node _ ch := t in t :: concat (map tree_nodes ch).
Definition forest_nodes ts : list (obj_tree B) := concat (map tree_nodes ts).

Lemma tree_size_node o ch : tree_size (Node (B := B) o ch) = S (forest_size ch).
Proof. done. Qed.

Lemma forest_size_cons c ch : forest_size (c :: ch) = (tree_size c + forest_size ch)%nat.
Proof. done. Qed.

Lemma tree_size_pos t : (0 < tree_size t)%nat.
Proof. destruct t. simpl. lia. Qed.

Lemma forest_size_elem c ch : c ∈ ch -> (tree_size c <= forest_size ch)%nat.
Proof. induction 1 as [c ch|c d ch Hin IH]; rewrite forest_size_cons; lia. Qed.

Lemma objs_size t : length (tree_objs t) = tree_size t.
Proof.
  induction t as [o ch IH] using obj_tree_ind'. rewrite tree_objs_node, tree_size_node. simpl. f_equal.
  induction IH as [|c ch Hc _ IHch]; [done|]. rewrite forest_objs_cons, forest_size_cons, length_app. lia.
Qed.

Lemma forest_size_concat_map (g : obj_tree B -> list (obj_tree B)) ch :
  (forall c, c ∈ ch -> (forest_size (g c) <= tree_size c)%nat) ->
  (forest_size (concat (map g ch)) <= forest_size ch)%nat.
Proof.
  induction ch as [|c ch IH]; intros Hg; [done|]. simpl concat.
  rewrite forest_size_app, forest_size_cons.
  assert (forest_size (g c) <= tree_size c)%nat by (apply Hg; left).
  assert (forest_size (concat (map g ch)) <= forest_size ch)%nat by (apply IH; intros; apply Hg; by right).
  lia.
Qed.

Lemma tree_nodes_node o ch : tree_nodes (Node o ch) = Node o ch :: forest_nodes ch.
Proof. done. Qed.

Lemma forest_nodes_cons c ch : forest_nodes (c :: ch) = tree_nodes c ++ forest_nodes ch.
Proof. done. Qed.

Lemma forest_nodes_app ts us : forest_nodes (ts ++ us) = forest_nodes ts ++ forest_nodes us.
Proof. unfold forest_nodes. by rewrite List.map_app, List.concat_app. Qed.

Lemma forest_nodes_concat (tss : list (list (obj_tree B))) :
  forest_nodes (concat tss) = concat (map forest_nodes tss).
Proof. induction tss as [|ts tss IH]; [done|]. simpl. by rewrite forest_nodes_app, IH. Qed.

Lemma forest_objs_concat (tss : list (list (obj_tree B))) :
  forest_objs (concat tss) = concat (map forest_objs tss).
Proof. induction tss as [|ts tss IH]; [done|]. simpl. by rewrite forest_objs_app, IH. Qed.

(** ** The loop *)

(** A body that computes [g] and promotes only objects that [g] leaves alone. *)
Definition computes (g : obj_tree B -> list (obj_tree B)) (c : obj_tree B)
    (m : option (visit B)) : Prop :=
  returns m (fun v => visited v = g c /\
    forall ts, v = Replaced ts -> (forest_size ts < tree_size c)%nat /\ concat (map g ts) = ts).

Lemma each_child_ok g n fuel body ch :
  (forall c, (tree_size c <= n)%nat -> computes g c (body c)) ->
  (forest_size ch <= n)%nat -> (forest_size ch <= fuel)%nat ->
  each_child fuel body ch = Some (concat (map g ch)).
Proof.
  intros Hbody. unfold each_child. revert ch.
  induction fuel as [|fuel IH]; intros [|c ch] Hn Hfuel; try done;
    rewrite forest_size_cons in *; pose proof (tree_size_pos c); [lia|].
  cbn [for_each_child_safe].
  change (stateless body tt c) with (let! v := body c in Some (tt, v)).
  destruct (Hbody c ltac:(lia)) as (v & -> & Hv & Hrep). cbn [mbind option_bind].
  destruct v as [c'|ts]; simpl in Hv.
  - assert (Hrest := IH ch ltac:(lia) ltac:(lia)).
    destruct (for_each_child_safe fuel (stateless body) tt ch) as [[s ch']|]; [|done].
    simpl in *. injection Hrest as ->. by rewrite <- Hv.
  - destruct (Hrep ts eq_refl) as [Hsize Hidem].
    rewrite IH by (rewrite forest_size_app; lia).
    by rewrite List.map_app, List.concat_app, Hidem, Hv.
Qed.

(** ** Removing single objects *)

(** Objects for which [drop] holds give way to their children. *)
Fixpoint strip (drop : hwloc_obj B -> list (obj_tree B) -> bool) t : list (obj_tree B) :=
  let 'Node o ch := t in
  let ch := concat (map (strip drop) ch) in
  if drop o ch then ch else [Node o ch].

Lemma strip_size drop t : (forest_size (strip drop t) <= tree_size t)%nat.
Proof.
  induction t as [o ch IH] using obj_tree_ind'. cbn [strip]. rewrite tree_size_node.
  assert (Hle : (forest_size (concat (map (strip drop) ch)) <= forest_size ch)%nat).
  { apply forest_size_concat_map. rewrite Forall_forall in IH. done. }
  destruct (drop _ _); [lia|]. rewrite forest_size_cons, tree_size_node. simpl forest_size at 2. lia.
Qed.

Lemma concat_map_idem (g : obj_tree B -> list (obj_tree B)) ch :
  (forall c, c ∈ ch -> concat (map g (g c)) = g c) ->
  concat (map g (concat (map g ch))) = concat (map g ch).
Proof.
  induction ch as [|c ch IH]; intros Hg; [done|]. simpl.
  rewrite List.map_app, List.concat_app, IH, Hg; [done|left|]. intros d Hd. apply Hg. by right.
Qed.

Lemma strip_idem drop t : concat (map (strip drop) (strip drop t)) = strip drop t.
Proof.
  induction t as [o ch IH] using obj_tree_ind'. cbn [strip].
  assert (Hidem := concat_map_idem (strip drop) ch). rewrite Forall_forall in IH.
  specialize (Hidem IH). destruct (drop o _) eqn:Hd; [done|].
  simpl. by rewrite Hidem, Hd.
Qed.

(** The visit of an object whose children were stripped. *)
Lemma strip_computes drop o ch (is_dropped : bool) :
  is_dropped = drop o (concat (map (strip drop) ch)) ->
  computes (strip drop) (Node o ch)
    (if is_dropped then Some (Replaced (concat (map (strip drop) ch)))
     else Some (Kept (Node o (concat (map (strip drop) ch))))).
Proof.
  intros ->. destruct (drop o _) eqn:Hd.
  - apply returns_ret. cbn [visited strip]. rewrite Hd. split; [done|]. intros ts [= <-]. split.
    + rewrite tree_size_node. apply Nat.lt_succ_r, forest_size_concat_map. intros. apply strip_size.
    + apply concat_map_idem. intros. apply strip_idem.
  - apply returns_ret. cbn [visited strip]. by rewrite Hd.
Qed.

Definition drop_ignored (ign : ignored_types) (o : hwloc_obj B) (_ : list (obj_tree B)) : bool :=
  bool_decide (ign (o_type o) = HWLOC_IGNORE_TYPE_ALWAYS).

Lemma remove_ignored_child ign fuel t :
  (tree_size t <= fuel)%nat -> computes (strip (drop_ignored ign)) t (remove_ignored fuel ign false t).
Proof.
  revert t. induction fuel as [|fuel IH]; intros [o ch] Hfuel; rewrite tree_size_node in Hfuel; [lia|].
  cbn [remove_ignored].
  rewrite (each_child_ok (strip (drop_ignored ign)) fuel) by (auto || lia).
  cbn [mbind option_bind negb andb]. by apply strip_computes.
Qed.

Lemma remove_ignored_root ign fuel o ch :
  (tree_size (Node o ch) <= fuel)%nat ->
  remove_ignored fuel ign true (Node o ch) =
    Some (Kept (Node o (concat (map (strip (drop_ignored ign)) ch)))).
Proof.
  destruct fuel as [|fuel]; rewrite tree_size_node; intros Hfuel; [lia|].
  cbn [remove_ignored].
  rewrite (each_child_ok (strip (drop_ignored ign)) fuel) by (auto using remove_ignored_child || lia).
  done.
Qed.

(** Stripping by a test on the object filters the list of objects. *)
Lemma strip_objs (d : hwloc_obj B -> bool) t :
  forest_objs (strip (fun o _ => d o) t) = filter (fun o => d o = false) (tree_objs t).
Proof.
  induction t as [o ch IH] using obj_tree_ind'. cbn [strip]. rewrite tree_objs_node, filter_cons.
  assert (Hch : forest_objs (concat (map (strip (fun o _ => d o)) ch)) =
    filter (fun o => d o = false) (forest_objs ch)).
  { induction IH as [|c ch Hc Hch IHch]; [done|]. simpl concat.
    by rewrite forest_objs_app, forest_objs_cons, filter_app, Hc, IHch. }
  destruct (d o) eqn:Hd.
  - rewrite decide_False by done. done.
  - rewrite decide_True by done. rewrite forest_objs_cons, tree_objs_node, Hch.
    simpl. by rewrite app_nil_r.
Qed.

(** ** Empty objects *)

Definition removable (o : hwloc_obj B) : bool :=
  negb (bool_decide (o_type o = HWLOC_OBJ_NODE)) && negb (hwloc_obj_type_is_io (o_type o)) &&
  null_or (ocpuset o) b_iszero.

Definition drop_empty (o : hwloc_obj B) (ch : list (obj_tree B)) : bool :=
  match ch with [] => removable o | _ => false end.

Lemma remove_empty_ok fuel t :
  (tree_size t <= fuel)%nat -> computes (strip drop_empty) t (remove_empty fuel t).
Proof.
  revert t. induction fuel as [|fuel IH]; intros [o ch] Hfuel; rewrite tree_size_node in Hfuel; [lia|].
  cbn [remove_empty].
  rewrite (each_child_ok (strip drop_empty) fuel) by (auto || lia).
  cbn [mbind option_bind]. apply strip_computes. unfold drop_empty, removable.
  destruct (concat _); [|by rewrite !andb_false_r]. rewrite andb_true_r. done.
Qed.

(** No removable leaf is left. *)
Lemma strip_no_leaf drop t :
  Forall (fun n => drop (t_obj n) (t_children n) = false) (forest_nodes (strip drop t)).
Proof.
  induction t as [o ch IH] using obj_tree_ind'. cbn [strip].
  assert (Hch : Forall (fun n => drop (t_obj n) (t_children n) = false)
    (forest_nodes (concat (map (strip drop) ch)))).
  { rewrite forest_nodes_concat. apply Forall_concat. rewrite List.map_map.
    induction IH; constructor; done. }
  destruct (drop o _) eqn:Hd; [done|]. rewrite forest_nodes_cons. apply Forall_app.
  split; [|constructor]. by constructor.
Qed.

(** The objects that cannot be dropped stay, in order; the others stay in
    order too. *)
Lemma strip_keeps drop (k : hwloc_obj B -> bool) t :
  (forall o ch, drop o ch = true -> k o = false) ->
  filter (fun o => k o = true) (forest_objs (strip drop t)) =
    filter (fun o => k o = true) (tree_objs t) /\
  sublist (forest_objs (strip drop t)) (tree_objs t).
Proof.
  intros Hk. induction t as [o ch IH] using obj_tree_ind'. cbn [strip].
  rewrite tree_objs_node.
  assert (Hch : filter (fun o => k o = true) (forest_objs (concat (map (strip drop) ch))) =
      filter (fun o => k o = true) (forest_objs ch) /\
    sublist (forest_objs (concat (map (strip drop) ch))) (forest_objs ch)).
  { induction IH as [|c ch [Hc1 Hc2] Hch [IH1 IH2]]; [done|]. simpl concat.
    rewrite forest_objs_app, forest_objs_cons, !filter_app, Hc1, IH1.
    split; [done|]. by apply sublist_app. }
  destruct Hch as [Hf Hs]. destruct (drop o _) eqn:Hd.
  - rewrite filter_cons, decide_False by (rewrite (Hk _ _ Hd); done).
    split; [done|]. by apply sublist_cons.
  - rewrite forest_objs_cons, tree_objs_node, app_nil_r, !filter_cons, Hf.
    split; [done|]. by apply sublist_skip.
Qed.

(** ** Useless levels *)

Definition keeps_structure (ign : ignored_types) (o : hwloc_obj B) : bool :=
  bool_decide (ign (o_type o) = HWLOC_IGNORE_TYPE_KEEP_STRUCTURE).

Fixpoint merge (ign : ignored_types) t : obj_tree B :=
  let 'Node o ch := t in
  match map (merge ign) ch with
  | [c] => if keeps_structure ign o then c
           else if keeps_structure ign (t_obj c) then Node o (t_children c)
           else Node o [c]
  | ch => Node o ch
  end.

(** No only child whose type, or whose parent's type, may be ignored. *)
Definition useful (ign : ignored_types) (n : obj_tree B) : Prop :=
  match t_children n with
  | [c] => keeps_structure ign (t_obj n) = false /\ keeps_structure ign (t_obj c) = false
  | _ => True
  end.

Lemma forest_useful_children ign c :
  Forall (useful ign) (tree_nodes c) -> Forall (useful ign) (forest_nodes (t_children c)).
Proof. destruct c. by inversion 1. Qed.

Lemma merge_useful ign t : Forall (useful ign) (tree_nodes (merge ign t)).
Proof.
  induction t as [o ch IH] using obj_tree_ind'. cbn [merge].
  assert (Hch : Forall (useful ign) (forest_nodes (map (merge ign) ch))).
  { unfold forest_nodes. apply Forall_concat. rewrite List.map_map. induction IH; constructor; done. }
  destruct (map (merge ign) ch) as [|c [|d l]]; [by constructor| |by constructor].
  assert (Hc : Forall (useful ign) (tree_nodes c)).
  { rewrite forest_nodes_cons in Hch. apply Forall_app in Hch as [? _]. done. }
  destruct (keeps_structure ign o) eqn:Ho; [done|].
  destruct (keeps_structure ign (t_obj c)) eqn:Hkc; [|by constructor].
  constructor; [|by apply forest_useful_children]. destruct c as [oc chc]. cbn [t_children t_obj] in *.
  unfold useful at 1. cbn [t_children].
  apply Forall_cons in Hc as [Hu _]. unfold useful in Hu. cbn [t_children t_obj] in Hu.
  destruct chc as [|g [|]]; try done. destruct Hu. congruence.
Qed.

(** A useful tree is left alone. *)
Lemma merge_id ign t : Forall (useful ign) (tree_nodes t) -> merge ign t = t.
Proof.
  induction t as [o ch IH] using obj_tree_ind'. rewrite tree_nodes_node. intros Hu. cbn [merge].
  assert (Hch : map (merge ign) ch = ch).
  { apply Forall_cons in Hu as [_ Hu].
    induction IH as [|c ch Hc _ IHch]; [done|]. rewrite forest_nodes_cons in Hu.
    apply Forall_app in Hu as [? ?]. simpl. by rewrite Hc, IHch. }
  rewrite Hch. apply Forall_cons in Hu as [Hu _]. unfold useful in Hu. cbn [t_children t_obj] in Hu.
  destruct ch as [|c [|]]; try done. by destruct Hu as [-> ->].
Qed.

Lemma merge_size ign t : (tree_size (merge ign t) <= tree_size t)%nat.
Proof.
  induction t as [o ch IH] using obj_tree_ind'. cbn [merge]. rewrite tree_size_node.
  assert (Hch : (forest_size (map (merge ign) ch) <= forest_size ch)%nat).
  { induction IH as [|c ch Hc _ IHch]; [done|]. simpl map. rewrite !forest_size_cons. lia. }
  destruct (map (merge ign) ch) as [|c [|d l]]; [rewrite tree_size_node; lia| |rewrite tree_size_node; lia].
  rewrite forest_size_cons in Hch. simpl forest_size in Hch.
  destruct (keeps_structure ign o); [lia|]. destruct c as [oc chc].
  destruct (keeps_structure ign _); rewrite !tree_size_node in *; [simpl t_children; lia|].
  rewrite forest_size_cons, tree_size_node. simpl forest_size. lia.
Qed.

Lemma merge_computes ign fuel t :
  (tree_size t <= fuel)%nat ->
  computes (fun t => [merge ign t]) t (merge_useless_child fuel ign t).
Proof.
  revert t. induction fuel as [|fuel IH]; intros [o ch] Hfuel; rewrite tree_size_node in Hfuel; [lia|].
  cbn [merge_useless_child].
  rewrite (each_child_ok (fun t => [merge ign t]) fuel) by (auto || lia).
  assert (Hmap : concat (map (fun t => [merge ign t]) ch) = map (merge ign) ch).
  { clear. induction ch as [|c ch IHch]; simpl; [done|by rewrite IHch]. }
  rewrite Hmap. cbn [mbind option_bind].
  assert (Hid : forall c, c ∈ map (merge ign) ch -> merge ign c = c).
  { intros c (t & -> & _)%list_elem_of_fmap. apply merge_id, merge_useful. }
  assert (Hsz : (forest_size (map (merge ign) ch) <= forest_size ch)%nat).
  { clear. induction ch as [|c ch IHch]; [done|]. simpl map. rewrite !forest_size_cons.
    pose proof (merge_size ign c). lia. }
  unfold computes. cbn [merge].
  destruct (map (merge ign) ch) as [|c [|d l]]; [by apply returns_ret| |by apply returns_ret].
  unfold keeps_structure.
  destruct (bool_decide (ign (o_type o) = _)).
  - apply returns_ret. split; [done|]. intros ts [= <-]. split; [rewrite tree_size_node; lia|].
    simpl. rewrite Hid; [done|left].
  - by destruct (bool_decide (ign (o_type (t_obj c)) = _)); apply returns_ret.
Qed.

(** The objects of the other types stay, in order. *)
Lemma merge_keeps ign t :
  filter (fun o => keeps_structure ign o = false) (tree_objs (merge ign t)) =
    filter (fun o => keeps_structure ign o = false) (tree_objs t) /\
  sublist (tree_objs (merge ign t)) (tree_objs t).
Proof.
  induction t as [o ch IH] using obj_tree_ind'. rewrite tree_objs_node.
  assert (Hch : filter (fun o => keeps_structure ign o = false) (forest_objs (map (merge ign) ch)) =
      filter (fun o => keeps_structure ign o = false) (forest_objs ch) /\
    sublist (forest_objs (map (merge ign) ch)) (forest_objs ch)).
  { induction IH as [|c ch [Hc1 Hc2] Hch [IH1 IH2]]; [done|]. simpl map.
    rewrite !forest_objs_cons, !filter_app, Hc1, IH1. split; [done|]. by apply sublist_app. }
  cbn [merge]. destruct (map (merge ign) ch) as [|c [|d l]]; destruct Hch as [Hf Hs].
  - rewrite tree_objs_node, !filter_cons, Hf. split; [done|]. by apply sublist_skip.
  - rewrite forest_objs_cons, app_nil_r in Hf, Hs.
    destruct (keeps_structure ign o) eqn:Ho.
    { rewrite filter_cons, decide_False by congruence. split; [done|]. by apply sublist_cons. }
    rewrite (filter_cons _ o), decide_True by done.
    destruct c as [oc chc]. rewrite tree_objs_node in Hf, Hs.
    destruct (keeps_structure ign (t_obj (Node oc chc))) eqn:Hc; cbn [t_obj t_children] in *;
      rewrite tree_objs_node, filter_cons, decide_True by done.
    + rewrite filter_cons, decide_False in Hf by congruence. rewrite Hf. split; [done|].
      apply sublist_skip. etrans; [|done]. by apply sublist_cons.
    + rewrite forest_objs_cons, tree_objs_node, app_nil_r, Hf. split; [done|]. by apply sublist_skip.
  - rewrite tree_objs_node, !filter_cons, Hf. split; [done|]. by apply sublist_skip.
Qed.

End CleanOk.

Section IoClean.
Context {B : Type} `{CpusetOps B}.
Implicit Types t c : obj_tree B.
Implicit Types ts ch : list (obj_tree B).

(** ** Dropping whole subtrees *)

Lemma unlink_all_ok fuel t :
  (tree_size t <= fuel)%nat ->
  unlink_and_free_object_and_children fuel t = Some (Replaced []).
Proof.
  revert t. induction fuel as [|fuel IH]; intros [o ch] Hfuel; rewrite tree_size_node in Hfuel; [lia|].
  cbn [unlink_and_free_object_and_children].
  rewrite (each_child_ok (fun _ => []) fuel); [done| |lia|lia].
  intros c Hc. rewrite IH by lia. apply returns_ret. split; [done|]. intros ts [= <-].
  pose proof (tree_size_pos c). done.
Qed.

(** A loop that drops the children that fail a test. *)
Lemma drop_children_ok fuel (p : hwloc_obj B -> bool) ch :
  (forest_size ch <= fuel)%nat ->
  each_child fuel (fun c => if p (t_obj c) then unlink_and_free_object_and_children fuel c
                            else Some (Kept c)) ch =
    Some (filter (fun c => p (t_obj c) = false) ch).
Proof.
  intros Hfuel. rewrite (each_child_ok (fun c => if p (t_obj c) then [] else [c]) fuel); [|..|lia|lia].
  - f_equal. clear Hfuel. induction ch as [|c ch IH]; [done|]. simpl. rewrite IH, filter_cons.
    by destruct (p (t_obj c)).
  - intros c Hc. destruct (p (t_obj c)) eqn:Hp.
    + rewrite unlink_all_ok by done. apply returns_ret. cbn [visited]. rewrite Hp.
      split; [done|]. intros ts [= <-]. pose proof (tree_size_pos c). done.
    + apply returns_ret. cbn [visited]. by rewrite Hp.
Qed.

(** ** Filtering devices and bridges *)

Definition uninteresting (o : hwloc_obj B) : bool :=
  bool_decide (o_type o = HWLOC_OBJ_PCI_DEVICE) && negb (interesting_pci (attr o)).

Definition whole_io (flags : Z) : bool := has_flag flags HWLOC_TOPOLOGY_FLAG_WHOLE_IO.
Definition bridges_io (flags : Z) : bool :=
  has_flag flags (HWLOC_TOPOLOGY_FLAG_IO_BRIDGES + HWLOC_TOPOLOGY_FLAG_WHOLE_IO).

Definition io_dropped (flags : Z) (o : hwloc_obj B) : bool := negb (whole_io flags) && uninteresting o.

Definition drop_bridge (flags : Z) (o : hwloc_obj B) (ch : list (obj_tree B)) : bool :=
  bool_decide (o_type o = HWLOC_OBJ_BRIDGE) &&
  match ch with
  | [] => negb (whole_io flags)
  | _ => negb (upstream_is_host (attr o)) && negb (bridges_io flags)
  end.

(** The objects in the place of [t] in the end. *)
Fixpoint io_strip (flags : Z) t : list (obj_tree B) :=
  let 'Node o ch := t in
  let ch := concat (map (fun c => if io_dropped flags (t_obj c) then [] else io_strip flags c) ch) in
  if drop_bridge flags o ch then ch else [Node o ch].

Definition io_children (flags : Z) ch : list (obj_tree B) :=
  concat (map (io_strip flags) (filter (fun c => io_dropped flags (t_obj c) = false) ch)).

Lemma io_strip_node flags o ch :
  io_strip flags (Node o ch) =
    if drop_bridge flags o (io_children flags ch) then io_children flags ch
    else [Node o (io_children flags ch)].
Proof.
  cbn [io_strip].
  enough (concat (map (fun c => if io_dropped flags (t_obj c) then [] else io_strip flags c) ch) =
    io_children flags ch) as -> by done.
  unfold io_children. induction ch as [|c ch IH]; [done|]. simpl. rewrite IH, filter_cons.
  by destruct (io_dropped flags (t_obj c)).
Qed.

Lemma io_children_cons flags c ch :
  io_children flags (c :: ch) =
    (if io_dropped flags (t_obj c) then [] else io_strip flags c) ++ io_children flags ch.
Proof.
  unfold io_children. rewrite filter_cons. by destruct (io_dropped flags (t_obj c)).
Qed.

Lemma io_children_app flags ts us :
  io_children flags (ts ++ us) = io_children flags ts ++ io_children flags us.
Proof. unfold io_children. by rewrite filter_app, List.map_app, List.concat_app. Qed.

(** Nothing dropped is left at the top; what is left is left for good. *)
Lemma io_strip_stable flags t :
  io_dropped flags (t_obj t) = false ->
  Forall (fun c => io_dropped flags (t_obj c) = false /\ io_strip flags c = [c]) (io_strip flags t).
Proof.
  induction t as [o ch IH] using obj_tree_ind'. intros Ho. cbn [t_obj] in Ho. rewrite io_strip_node.
  assert (Hch : Forall (fun c => io_dropped flags (t_obj c) = false /\ io_strip flags c = [c])
    (io_children flags ch)).
  { induction IH as [|c ch Hc _ IHch]; [constructor|]. rewrite io_children_cons. apply Forall_app.
    split; [|done]. destruct (io_dropped flags (t_obj c)); auto. }
  assert (Hid : io_children flags (io_children flags ch) = io_children flags ch).
  { generalize (io_children flags ch) Hch. clear. intros ts Hts.
    induction Hts as [|c ts [Hc1 Hc2] _ IH]; [done|]. by rewrite io_children_cons, Hc1, Hc2, IH. }
  destruct (drop_bridge flags o _) eqn:Hd; [done|]. constructor; [|constructor].
  split; [done|]. by rewrite io_strip_node, Hid, Hd.
Qed.

Lemma io_strip_size flags t : (forest_size (io_strip flags t) <= tree_size t)%nat.
Proof.
  induction t as [o ch IH] using obj_tree_ind'. rewrite io_strip_node, tree_size_node.
  assert (Hch : (forest_size (io_children flags ch) <= forest_size ch)%nat).
  { induction IH as [|c ch Hc _ IHch]; [done|].
    rewrite io_children_cons, forest_size_app, forest_size_cons.
    destruct (io_dropped flags (t_obj c)); simpl forest_size at 1; lia. }
  destruct (drop_bridge _ _ _); [lia|]. rewrite forest_size_cons, tree_size_node.
  simpl forest_size at 2. lia.
Qed.

Lemma io_children_size flags ch : (forest_size (io_children flags ch) <= forest_size ch)%nat.
Proof.
  induction ch as [|c ch IH]; [done|]. rewrite io_children_cons, forest_size_app, forest_size_cons.
  pose proof (io_strip_size flags c).
  destruct (io_dropped flags (t_obj c)); simpl forest_size at 1; lia.
Qed.

Lemma io_children_stable flags ch :
  concat (map (io_strip flags) (io_children flags ch)) = io_children flags ch.
Proof.
  assert (Hst : Forall (fun c => io_strip flags c = [c]) (io_children flags ch)).
  { induction ch as [|c ch IH]; [constructor|]. rewrite io_children_cons. apply Forall_app.
    split; [|done]. destruct (io_dropped flags (t_obj c)) eqn:Hc; [constructor|].
    eapply Forall_impl; [by apply io_strip_stable|]. by intros d [_ ?]. }
  induction Hst as [|c ts Hc _ IH]; [done|]. simpl. by rewrite Hc, IH.
Qed.

(** The body of the last loop. *)
Lemma drop_bridge_body flags o ch :
  let child := Node o (io_children flags ch) in
  computes (io_strip flags) (Node o ch)
    (if bool_decide (o_type o = HWLOC_OBJ_BRIDGE) then
       match io_children flags ch with
       | [] => if negb (whole_io flags) then Some (Replaced []) else Some (Kept child)
       | _ => if negb (upstream_is_host (attr o)) && negb (bridges_io flags)
              then Some (Replaced (io_children flags ch)) else Some (Kept child)
       end
     else Some (Kept child)).
Proof.
  cbv zeta. pose proof (io_children_size flags ch) as Hsz.
  pose proof (io_children_stable flags ch) as Hst.
  unfold computes. rewrite io_strip_node, tree_size_node. unfold drop_bridge.
  destruct (bool_decide _); [|by apply returns_ret]. cbn [andb].
  destruct (io_children flags ch) as [|c l].
  - destruct (negb (whole_io flags)); apply returns_ret; [|done]. split; [done|].
    intros ts [= <-]. split; [simpl; lia|done].
  - destruct (negb _ && negb _); apply returns_ret; [|done]. split; [done|].
    intros ts [= <-]. split; [lia|done].
Qed.

(** [hwloc_drop_useless_io] without any I/O flag looks at the children of the
    root only; with one it computes [io_children]. *)
Lemma drop_useless_io_ok fuel flags ch :
  (forest_size ch < fuel)%nat ->
  hwloc_drop_useless_io fuel flags ch = Some
    (if has_flag flags (HWLOC_TOPOLOGY_FLAG_IO_DEVICES + HWLOC_TOPOLOGY_FLAG_WHOLE_IO)
     then io_children flags ch
     else filter (fun c => hwloc_obj_type_is_io (o_type (t_obj c)) = false) ch).
Proof.
  revert ch. induction fuel as [|fuel IH]; intros ch Hfuel; [lia|].
  cbn [hwloc_drop_useless_io].
  destruct (has_flag flags (HWLOC_TOPOLOGY_FLAG_IO_DEVICES + HWLOC_TOPOLOGY_FLAG_WHOLE_IO)) eqn:Hflag;
    cbn [negb].
  2:{ apply (drop_children_ok fuel (fun o => hwloc_obj_type_is_io (o_type o))). lia. }
  set (kept := filter (fun c => io_dropped flags (t_obj c) = false) ch).
  assert (Hkept : (forest_size kept <= forest_size ch)%nat).
  { unfold kept. clear. induction ch as [|c ch IH]; [done|]. rewrite filter_cons.
    destruct (decide _); rewrite !forest_size_cons; lia. }
  assert (Hloop : (if negb (has_flag flags HWLOC_TOPOLOGY_FLAG_WHOLE_IO) then
      each_child fuel (fun child =>
        if bool_decide (o_type (t_obj child) = HWLOC_OBJ_PCI_DEVICE)
           && negb (interesting_pci (attr (t_obj child)))
        then unlink_and_free_object_and_children fuel child else Some (Kept child)) ch
      else Some ch) = Some kept).
  { unfold kept, io_dropped, whole_io. destruct (has_flag flags HWLOC_TOPOLOGY_FLAG_WHOLE_IO); cbn [negb andb].
    - f_equal. clear. induction ch as [|c ch IH]; [done|].
      rewrite filter_cons, decide_True by done. by f_equal.
    - apply (drop_children_ok fuel uninteresting). lia. }
  rewrite Hloop. cbn [mbind option_bind].
  rewrite (each_child_ok (io_strip flags) fuel); [done| |lia|lia].
  intros [o och] Hc. rewrite tree_size_node in Hc. rewrite IH by lia.
  apply drop_bridge_body.
Qed.

(** ** What is left *)

(** The conditions on the objects left by the filter. *)
Definition io_useful (flags : Z) (n : obj_tree B) : Prop :=
  (whole_io flags = false -> uninteresting (t_obj n) = false) /\
  (o_type (t_obj n) = HWLOC_OBJ_BRIDGE ->
     (whole_io flags = false -> t_children n <> []) /\
     (bridges_io flags = false -> upstream_is_host (attr (t_obj n)) = true)).

Lemma whole_bridges flags : bridges_io flags = false -> whole_io flags = false.
Proof.
  unfold bridges_io, whole_io, has_flag.
  change (HWLOC_TOPOLOGY_FLAG_IO_BRIDGES + HWLOC_TOPOLOGY_FLAG_WHOLE_IO) with (Z.lor 8 16).
  change HWLOC_TOPOLOGY_FLAG_WHOLE_IO with 16. rewrite Z.land_lor_distr_r.
  rewrite !negb_false_iff, !Z.eqb_eq, Z.lor_eq_0_iff. tauto.
Qed.

Lemma io_children_useful flags ch : Forall (io_useful flags) (forest_nodes (io_children flags ch)).
Proof.
  assert (Ht : forall t, io_dropped flags (t_obj t) = false ->
    Forall (io_useful flags) (forest_nodes (io_strip flags t))).
  { intros t. induction t as [o ch' IH] using obj_tree_ind'. intros Ho. cbn [t_obj] in Ho.
    rewrite io_strip_node.
    assert (Hch : Forall (io_useful flags) (forest_nodes (io_children flags ch'))).
    { induction IH as [|c ch'' Hc _ IHch]; [constructor|]. rewrite io_children_cons, forest_nodes_app.
      apply Forall_app. split; [|done]. destruct (io_dropped flags (t_obj c)) eqn:Hd; [constructor|auto]. }
    destruct (drop_bridge flags o _) eqn:Hd; [done|].
    rewrite forest_nodes_cons, tree_nodes_node, app_nil_r. constructor; [|done].
    split; cbn [t_obj t_children].
    - intros Hw. unfold io_dropped in Ho. rewrite Hw in Ho. exact Ho.
    - intros Hb. unfold drop_bridge in Hd. rewrite bool_decide_true in Hd by done. cbn [andb] in Hd.
      split.
      + intros Hw Hnil. rewrite Hnil, Hw in Hd. done.
      + intros Hbr. pose proof (whole_bridges _ Hbr) as Hw.
        destruct (io_children flags ch'); [rewrite Hw in Hd; done|]. rewrite Hbr in Hd.
        by destruct (upstream_is_host (attr o)). }
  induction ch as [|c ch IH]; [constructor|]. rewrite io_children_cons, forest_nodes_app.
  apply Forall_app. split; [|done]. destruct (io_dropped flags (t_obj c)) eqn:Hd; [constructor|auto].
Qed.

Lemma io_children_sublist flags ch : sublist (forest_objs (io_children flags ch)) (forest_objs ch).
Proof.
  assert (Ht : forall t, sublist (forest_objs (io_strip flags t)) (tree_objs t)).
  { intros t. induction t as [o ch' IH] using obj_tree_ind'. rewrite io_strip_node, tree_objs_node.
    assert (Hch : sublist (forest_objs (io_children flags ch')) (forest_objs ch')).
    { induction IH as [|c ch'' Hc _ IHch]; [done|]. rewrite io_children_cons, forest_objs_app,
        forest_objs_cons. apply sublist_app; [|done].
      destruct (io_dropped flags (t_obj c)); [apply sublist_nil_l|done]. }
    destruct (drop_bridge flags o _); [by apply sublist_cons|].
    rewrite forest_objs_cons, tree_objs_node, app_nil_r. by apply sublist_skip. }
  induction ch as [|c ch IH]; [done|]. rewrite io_children_cons, forest_objs_app, forest_objs_cons.
  apply sublist_app; [|done]. destruct (io_dropped flags (t_obj c)); [apply sublist_nil_l|apply Ht].
Qed.

End IoClean.
