(* ===== verification/Restrict.v ===== *)
(** * Restrict: what [hwloc_topology_restrict] does to a hierarchy

    Under [nested] (the sets of a child lie in those of its parent, cpusets of
    normal objects are not empty), [restrict_object] removes the dropped CPUs
    from every set, keeps in order exactly the normal objects that still have
    CPUs, each with its cpuset minus the dropped CPUs, and leaves no normal
    object with an empty cpuset. *)

From S2P Require Import Prelude Cpuset Obj Clean CleanOk.

Section Restrict.
Context {B : Type} `{Cpuset B}.
Context (dropped : B).
Implicit Types o : hwloc_obj B.
Implicit Types t c : obj_tree B.
Implicit Types ts ch : list (obj_tree B).

(** ** Inclusions between optional sets *)

Definition opt_sub (a b : option B) : Prop :=
  match a, b with
  | None, _ => True
  | Some a, Some b => bsub a b
  | Some _, None => False
  end.

Definition opt_fin (a : option B) : Prop := match a with Some a => bfin a = true | None => True end.

Definition opt_clean (a : option B) : Prop := match a with Some a => bdisj a dropped | None => True end.

Definition cpusets o : list (option B) :=
  [cpuset (sets o); complete_cpuset (sets o); online_cpuset (sets o); allowed_cpuset (sets o)].

Lemma opt_sub_trans (a b d : option B) : opt_sub a b -> opt_sub b d -> opt_sub a d.
Proof. destruct a, b, d; simpl; try done. intros H1 H2 i Hi Hm. auto. Qed.

Lemma andnot_sub a b : opt_sub a b -> opt_sub (andnot_opt a dropped) (andnot_opt b dropped).
Proof.
  destruct a, b; simpl; try done. intros Hs i Hi. rewrite !bm_andnot, !andb_true_iff by done.
  intros [? ?]. auto.
Qed.

Lemma andnot_le a : opt_sub (andnot_opt a dropped) a.
Proof. destruct a; [|done]. intros i Hi. rewrite bm_andnot, andb_true_iff by done. tauto. Qed.

Lemma clean_sub a b : opt_sub a b -> opt_clean b -> opt_sub a (andnot_opt b dropped).
Proof.
  destruct a, b; simpl; try done. intros Hs Hd i Hi Hm. rewrite bm_andnot by done.
  apply andb_true_iff. split; [by apply Hs|]. apply negb_true_iff, not_true_iff_false.
  intros Hdr. apply (Hd i); auto.
Qed.

Lemma clean_of_sub a b : opt_sub a b -> opt_clean b -> opt_clean a.
Proof.
  destruct a, b; simpl; try done. intros Hs Hd i Hi Hm Hdr. apply (Hd i); auto.
Qed.

Lemma andnot_clean a : opt_clean (andnot_opt a dropped).
Proof.
  destruct a; [|done]. intros i Hi. rewrite bm_andnot, andb_true_iff, negb_true_iff by done.
  intros [_ ?]. congruence.
Qed.

Lemma andnot_fin a : opt_fin a -> opt_fin (andnot_opt a dropped).
Proof. destruct a; [|done]. simpl. by rewrite bfin_andnot; intros ->. Qed.

(** ** Invariants *)

Definition normal_type (ty : hwloc_obj_type_t) : bool :=
  negb (bool_decide (ty = HWLOC_OBJ_MISC)) && negb (hwloc_obj_type_is_io ty).

Definition not_empty o : Prop :=
  normal_type (o_type o) = true -> forall c : B, ocpuset o = Some c -> ~ bempty c.

(** The sets of [o] lie in those of its parent [p]. *)
Definition inside (p o : hwloc_obj B) : Prop :=
  opt_sub (ocpuset o) (ocpuset p) /\ Forall (fun a => opt_sub a (complete_cpuset (sets p))) (cpusets o).

Inductive nested : obj_tree B -> Prop :=
  | nested_node o ch : Forall opt_fin (cpusets o) -> not_empty o ->
      Forall (fun c => inside o (t_obj c) /\ nested c) ch -> nested (Node o ch).

Lemma nested_inv o ch : nested (Node o ch) ->
  Forall opt_fin (cpusets o) /\ not_empty o /\ Forall (fun c => inside o (t_obj c) /\ nested c) ch.
Proof. by inversion 1. Qed.

(** None of the CPUs in the cpusets of [o] is dropped. *)
Definition clean o : Prop := Forall opt_clean (cpusets o).

(** [o] is a normal object that keeps some CPU. *)
Definition alive o : bool :=
  normal_type (o_type o) &&
  match ocpuset o with Some c => negb (b_iszero (b_andnot c dropped)) | None => false end.

Definition living (os : list (hwloc_obj B)) : list (hwloc_obj B) := filter (fun o => alive o = true) os.

(** [o'] is [o] after the restriction. *)
Definition restricted o o' : Prop :=
  o_addr o' = o_addr o /\ o_type o' = o_type o /\
  match ocpuset o, ocpuset o' with
  | Some c, Some c' => beq c' (b_andnot c dropped)
  | None, None => True
  | _, _ => False
  end.

Lemma restricted_trans o1 o2 o3 : restricted o1 o2 -> restricted o2 o3 -> restricted o1 o3.
Proof.
  intros (Ha1 & Ht1 & Hc1) (Ha2 & Ht2 & Hc2). split_and!; [congruence..|].
  destruct (ocpuset o1), (ocpuset o2), (ocpuset o3); try done.
  intros i Hi. rewrite Hc2, !bm_andnot, Hc1, bm_andnot by done.
  by destruct (bm b i), (bm dropped i).
Qed.

Lemma restricted_clean o : clean o -> restricted o o.
Proof.
  intros Hc. split_and!; [done..|]. apply Forall_cons in Hc as [Hc _]. unfold ocpuset.
  destruct (cpuset (sets o)) as [c|]; [|done]. intros i Hi. rewrite bm_andnot by done.
  destruct (bm c i) eqn:Hm; [|done]. simpl. symmetry. apply negb_true_iff, not_true_iff_false.
  intros Hd. by apply (Hc i).
Qed.

Lemma drop_restricted o : restricted o (drop_cpus o dropped).
Proof.
  split_and!; [done..|]. unfold ocpuset, drop_cpus. simpl. by destruct (cpuset (sets o)).
Qed.

Lemma restricted_alive o o' : restricted o o' -> alive o' = alive o.
Proof.
  intros (_ & Ht & Hc). unfold alive. rewrite Ht. f_equal.
  destruct (ocpuset o) as [c|], (ocpuset o') as [c'|]; try done. f_equal.
  apply eq_true_iff_eq. rewrite !b_iszero_spec. unfold bempty.
  split; intros Hz i Hi; specialize (Hz i Hi); rewrite !bm_andnot in *; try done;
    specialize (Hc i Hi); rewrite bm_andnot in Hc by done;
    destruct (bm c i), (bm c' i), (bm dropped i); done.
Qed.

Lemma restricted_forall2_trans os1 os2 os3 :
  Forall2 restricted os1 os2 -> Forall2 restricted os2 os3 -> Forall2 restricted os1 os3.
Proof.
  intros H12. revert os3. induction H12 as [|o1 o2 os1 os2 Ho _ IH]; intros os3 H23;
    inversion H23; subst; constructor; [by eapply restricted_trans|auto].
Qed.

Definition survive (os os' : list (hwloc_obj B)) : Prop :=
  Forall2 restricted (living os) (living os').

Lemma survive_trans os1 os2 os3 : survive os1 os2 -> survive os2 os3 -> survive os1 os3.
Proof. apply restricted_forall2_trans. Qed.

Lemma survive_app os1 os2 us1 us2 :
  survive os1 us1 -> survive os2 us2 -> survive (os1 ++ os2) (us1 ++ us2).
Proof. unfold survive, living. rewrite !filter_app. apply Forall2_app. Qed.

Lemma survive_cons o o' os os' : restricted o o' -> survive os os' -> survive (o :: os) (o' :: os').
Proof.
  intros Hr Hs. unfold survive, living. rewrite !filter_cons, (restricted_alive o o' Hr).
  destruct (decide _); [by constructor|done].
Qed.

Lemma survive_drop o os os' : alive o = false -> survive os os' -> survive (o :: os) os'.
Proof. intros Ha Hs. unfold survive, living. by rewrite filter_cons, decide_False by congruence. Qed.

Lemma survive_clean os : Forall clean os -> survive os os.
Proof.
  unfold survive, living. induction 1 as [|o os Ho _ IH]; [done|].
  rewrite filter_cons. destruct (decide _); [constructor; [by apply restricted_clean|done]|done].
Qed.

Lemma survive_dead os os' :
  survive os os' -> Forall (fun o => alive o = false) os -> Forall (fun o => alive o = false) os'.
Proof.
  intros Hs Hd. assert (Hnil : living os = []).
  { unfold living. induction Hd as [|o os Ho _ IH]; [done|]. rewrite filter_cons, decide_False by congruence.
    apply IH. unfold survive, living in *. by rewrite filter_cons, decide_False in Hs by congruence. }
  unfold survive in Hs. rewrite Hnil in Hs. apply Forall2_nil_inv_l in Hs.
  apply Forall_forall. intros o Ho. destruct (alive o) eqn:Ha; [|done].
  assert (Hin : o ∈ living os') by (apply list_elem_of_filter; done). rewrite Hs in Hin.
  by apply not_elem_of_nil in Hin.
Qed.

(** ** The loop *)

(** Children of [p] before their visit; [dead] if the parent is dropped. *)
Definition pre (p : hwloc_obj B) (dead : bool) c : Prop :=
  nested c /\ inside p (t_obj c) /\
  (dead = true -> Forall (fun o => alive o = false) (tree_objs c)).

(** The objects put in their place. *)
Definition post (p : hwloc_obj B) (dead : bool) c : Prop :=
  pre p dead c /\ inside (drop_cpus p dropped) (t_obj c) /\ Forall clean (tree_objs c).

Lemma restrict_loop p dead n fuel body (s : B) ch :
  (forall s c, (tree_size c <= n)%nat -> pre p dead c ->
     returns (body s c) (fun '(_, v) => Forall (post p dead) (visited v) /\
       survive (tree_objs c) (forest_objs (visited v)) /\
       (forest_size (visited v) <= tree_size c)%nat /\
       forall ts, v = Replaced ts -> (forest_size ts < tree_size c)%nat)) ->
  (forest_size ch <= n)%nat -> (forest_size ch <= fuel)%nat -> Forall (pre p dead) ch ->
  returns (for_each_child_safe fuel body s ch) (fun '(_, ch') => Forall (post p dead) ch' /\
    survive (forest_objs ch) (forest_objs ch') /\ (forest_size ch' <= forest_size ch)%nat).
Proof.
  intros Hbody. revert s ch.
  induction fuel as [|fuel IH]; intros s [|c ch] Hn Hfuel Hpre;
    try (apply returns_ret; split_and!; [constructor|constructor|done]);
    rewrite forest_size_cons in *; pose proof (tree_size_pos c); [lia|].
  apply Forall_cons in Hpre as [Hc Hpre]. cbn [for_each_child_safe].
  eapply returns_bind; [apply Hbody; [lia|done]|].
  intros [s' [c'|ts]] (Hpost & Hsurv & Hsz & Hlt); cbn [visited] in *.
  - eapply returns_bind; [apply (IH s' ch); [lia|lia|done]|].
    intros [s2 ch'] (Hpost' & Hsurv' & Hsz'). apply returns_ret.
    rewrite !forest_objs_cons, forest_size_cons in *. rewrite app_nil_r in Hsurv.
    simpl forest_size in Hsz. split_and!; [|by apply survive_app|lia].
    apply Forall_cons in Hpost as [? _]. by constructor.
  - specialize (Hlt ts eq_refl). eapply returns_mono.
    + apply (IH s' (ts ++ ch)); rewrite ?forest_size_app; [lia|lia|]. apply Forall_app.
      split; [|done]. eapply Forall_impl; [done|]. by intros ? [? _].
    + intros [s2 ch'] (Hpost' & Hsurv' & Hsz'). rewrite forest_size_app in Hsz'.
      split_and!; [done| |lia]. rewrite forest_objs_cons.
      rewrite forest_objs_app in Hsurv'. unfold survive, living in *. rewrite !filter_app in *.
      apply Forall2_app_inv_l in Hsurv' as (l1 & l2 & Hl1 & Hl2 & ->). apply Forall2_app; [|done].
      by eapply restricted_forall2_trans.
Qed.

(** ** The visit of one object *)

Lemma andnot_inside p o : inside p o -> inside (drop_cpus p dropped) (drop_cpus o dropped).
Proof.
  intros [Hc Hs]. split; [by apply andnot_sub|]. unfold cpusets in *.
  repeat (apply Forall_cons in Hs as [? Hs]).
  repeat (apply Forall_cons; split; [by apply andnot_sub|]). constructor.
Qed.

Lemma inside_le p p' o : inside p o ->
  opt_sub (ocpuset p) (ocpuset p') ->
  opt_sub (complete_cpuset (sets p)) (complete_cpuset (sets p')) -> inside p' o.
Proof.
  intros [Hc Hs] Hpc Hpk. split; [exact (opt_sub_trans _ _ _ Hc Hpc)|].
  eapply Forall_impl; [exact Hs|]. intros a Ha. exact (opt_sub_trans _ _ _ Ha Hpk).
Qed.

Lemma inside_undrop p o : inside (drop_cpus p dropped) o -> inside p o.
Proof. intros Hi. eapply inside_le; [exact Hi|apply andnot_le|apply andnot_le]. Qed.

Lemma drop_fin o : Forall opt_fin (cpusets o) -> Forall opt_fin (cpusets (drop_cpus o dropped)).
Proof.
  unfold cpusets. intros Hs. repeat (apply Forall_cons in Hs as [? Hs]).
  repeat (apply Forall_cons; split; [by apply andnot_fin|]). constructor.
Qed.

Lemma drop_clean o : clean (drop_cpus o dropped).
Proof. unfold clean, cpusets. repeat (apply Forall_cons; split; [apply andnot_clean|]). constructor. Qed.

(** Below an object whose complete cpuset meets no dropped CPU, nothing does. *)
Lemma unmodified_clean o ch :
  nested (Node o ch) -> opt_clean (complete_cpuset (sets o)) ->
  Forall clean (forest_objs ch).
Proof.
  revert o. induction ch as [ch IHt] using (induction_ltof1 _ forest_size).
  intros o (_ & _ & Hch)%nested_inv Hcl. apply Forall_forall.
  intros d (c & Hc & Hd)%elem_of_forest_objs. rewrite Forall_forall in Hch.
  destruct (Hch c Hc) as [[_ Hin] Hn]. destruct c as [oc chc]. cbn [t_obj] in Hin.
  assert (Hoc : clean oc).
  { eapply Forall_impl; [exact Hin|]. intros a Ha. exact (clean_of_sub _ _ Ha Hcl). }
  rewrite tree_objs_node in Hd. apply elem_of_cons in Hd as [->|Hd]; [done|].
  assert (Hlt : ltof _ forest_size chc ch).
  { unfold ltof. pose proof (forest_size_elem _ _ Hc) as Hle. rewrite tree_size_node in Hle. lia. }
  specialize (IHt chc Hlt oc Hn).
  assert (Hcc : opt_clean (complete_cpuset (sets oc))).
  { unfold clean, cpusets in Hoc. repeat (apply Forall_cons in Hoc as [? Hoc]). done. }
  specialize (IHt Hcc). rewrite Forall_forall in IHt. auto.
Qed.

(** What decides whether an object is dropped. *)
Definition dropping flags (dp : bool) o : bool :=
  if bool_decide (o_type o = HWLOC_OBJ_MISC) then dp && negb (has_flag flags HWLOC_RESTRICT_FLAG_ADAPT_MISC)
  else if hwloc_obj_type_is_io (o_type o) then dp && negb (has_flag flags HWLOC_RESTRICT_FLAG_ADAPT_IO)
  else dp || null_or (ocpuset (drop_cpus o dropped)) b_iszero.

(** A dropped object and what lies below keep no CPU. *)
Lemma dropping_dead flags dp o ch :
  nested (Node o ch) -> (dp = true -> Forall (fun o => alive o = false) (tree_objs (Node o ch))) ->
  dropping flags dp o = true -> Forall (fun o => alive o = false) (tree_objs (Node o ch)).
Proof.
  intros Hn Hdp. destruct dp; [auto|]. unfold dropping. cbn [andb orb].
  destruct (bool_decide _); [done|]. destruct (hwloc_obj_type_is_io (o_type o)) eqn:Hio; [done|].
  intros Hz. unfold null_or, ocpuset, drop_cpus in Hz. simpl in Hz.
  destruct (cpuset (sets o)) as [k|] eqn:Hk; [|done]. apply b_iszero_spec in Hz.
  assert (Hz' : forall a, opt_sub a (Some k) -> forall b, a = Some b -> bempty (b_andnot b dropped)).
  { intros a Ha b -> i Hi. specialize (Hz i Hi). specialize (Ha i Hi).
    rewrite bm_andnot in * by done. destruct (bm b i), (bm k i), (bm dropped i); try done.
    by specialize (Ha eq_refl). }
  assert (Hall : forall t, nested t -> opt_sub (ocpuset (t_obj t)) (Some k) ->
    Forall (fun o => alive o = false) (tree_objs t)).
  { intros t. induction t as [u cu IH] using obj_tree_ind'. intros (_ & _ & Hcu)%nested_inv Hu.
    rewrite tree_objs_node. constructor.
    - unfold alive. destruct (ocpuset u) as [b|] eqn:Hb; [|apply andb_false_r].
      cbn [t_obj] in Hu. rewrite Hb in Hu.
      rewrite (proj2 (b_iszero_spec _)), andb_false_r by (by apply (Hz' (Some b))). done.
    - apply Forall_forall. intros d (c & Hc & Hd)%elem_of_forest_objs.
      rewrite Forall_forall in IH, Hcu. destruct (Hcu c Hc) as [[Hin _] Hnc].
      specialize (IH c Hc Hnc). rewrite Forall_forall in IH. apply IH; [|done].
      eapply opt_sub_trans; [exact Hin|done]. }
  apply Hall; [done|]. cbn [t_obj]. unfold ocpuset. rewrite Hk. simpl. done.
Qed.

Lemma restrict_object_unfold fuel flags dp s o ch :
  restrict_object (S fuel) flags dropped dp s (Node o ch) =
  let! (s, ch) :=
    if null_or (complete_cpuset (sets o)) (fun k : B => b_intersects k dropped)
    then for_each_child_safe fuel (restrict_object fuel flags dropped (dropping flags dp o)) s ch
    else Some (s, ch) in
  if dropping flags dp o then
    Some (if bool_decide (o_type o = HWLOC_OBJ_NODE) then b_set s (os_index o) else s, Replaced ch)
  else Some (s, Kept (Node (drop_cpus o dropped) ch)).
Proof. done. Qed.

(** The children after the visit of their parent [o], visited or not. *)
Lemma restrict_children flags fuel o dead (s : B) ch :
  (forall s c, (tree_size c <= fuel)%nat -> pre o dead c ->
     returns (restrict_object fuel flags dropped dead s c) (fun '(_, v) =>
       Forall (post o dead) (visited v) /\ survive (tree_objs c) (forest_objs (visited v)) /\
       (forest_size (visited v) <= tree_size c)%nat /\
       forall ts, v = Replaced ts -> (forest_size ts < tree_size c)%nat)) ->
  (forest_size ch <= fuel)%nat -> nested (Node o ch) ->
  (dead = true -> Forall (fun d => alive d = false) (forest_objs ch)) ->
  returns (if null_or (complete_cpuset (sets o)) (fun k : B => b_intersects k dropped)
           then for_each_child_safe fuel (restrict_object fuel flags dropped dead) s ch
           else Some (s, ch))
    (fun '(_, ch') => Forall (post o dead) ch' /\ survive (forest_objs ch) (forest_objs ch') /\
       (forest_size ch' <= forest_size ch)%nat).
Proof.
  intros IH Hsz Hn Hdead. assert (Hn' := Hn). apply nested_inv in Hn' as (Hfin & Hne & Hch).
  assert (Hpre : Forall (pre o dead) ch).
  { rewrite Forall_forall in Hch. apply Forall_forall. intros c Hc. destruct (Hch c Hc). split_and!; [done..|].
    intros Hd. specialize (Hdead Hd). rewrite Forall_forall in Hdead. apply Forall_forall. intros d Hd'.
    apply Hdead, elem_of_forest_objs. eauto. }
  destruct (null_or _ _) eqn:Hmod; [by eapply restrict_loop|].
  assert (Hcl : opt_clean (complete_cpuset (sets o))).
  { unfold null_or in Hmod. destruct (complete_cpuset (sets o)) as [k|] eqn:Hk; [|done].
    apply b_intersects_spec; [|done]. left. unfold cpusets in Hfin. rewrite Hk in Hfin.
    by do 2 (apply Forall_cons in Hfin as [? Hfin]). }
  assert (Hclean := unmodified_clean o ch Hn Hcl). apply returns_ret.
  split_and!; [|by apply survive_clean|done]. rewrite Forall_forall in Hclean. rewrite Forall_forall in Hpre. apply Forall_forall.
  intros c Hc. assert (Hcc : Forall clean (tree_objs c)).
  { apply Forall_forall. intros d Hd. apply Hclean, elem_of_forest_objs. eauto. }
  split_and!; [by apply Hpre| |done]. destruct (Hpre c Hc) as (_ & [Hi1 Hi2] & _).
  assert (Hc0 : clean (t_obj c)) by (destruct c; by inversion Hcc).
  split; [|eapply Forall_impl; [exact Hi2|]; intros a Ha; by apply clean_sub].
  destruct (ocpuset (t_obj c)) as [k|] eqn:Hk; [|done].
  unfold clean, cpusets in Hc0. apply Forall_cons in Hc0 as [Hk0 _].
  unfold ocpuset in Hk. rewrite Hk in Hk0. unfold drop_cpus, ocpuset in *. simpl.
  destruct (cpuset (sets o)) as [ko|]; [|done]. simpl in *. intros i Hi Hm.
  rewrite bm_andnot, andb_true_iff, negb_true_iff by done. split; [by apply Hi1|].
  apply not_true_iff_false. intros Hdr. by apply (Hk0 i).
Qed.

Lemma restrict_object_ok flags fuel p dp s t :
  (tree_size t <= fuel)%nat -> pre p dp t ->
  returns (restrict_object fuel flags dropped dp s t) (fun '(_, v) =>
    Forall (post p dp) (visited v) /\ survive (tree_objs t) (forest_objs (visited v)) /\
    (forest_size (visited v) <= tree_size t)%nat /\
    forall ts, v = Replaced ts -> (forest_size ts < tree_size t)%nat).
Proof.
  revert p dp s t. induction fuel as [|fuel IH]; intros p dp s [o ch] Hsz (Hn & Hin & Hdead);
    rewrite tree_size_node in Hsz; [lia|]. cbn [t_obj] in Hin.
  rewrite restrict_object_unfold.
  assert (Hd := dropping_dead flags dp o ch Hn Hdead). set (dead := dropping flags dp o) in *.
  eapply returns_bind; [apply (restrict_children flags fuel o dead s ch); [|lia|done|]|].
  { intros s' c Hc Hpre. by apply IH. }
  { intros Hde. specialize (Hd Hde). rewrite tree_objs_node in Hd. by apply Forall_cons in Hd as [_ ?]. }
  intros [s' ch'] (Hpost & Hsurv & Hle). rewrite tree_objs_node, tree_size_node.
  apply nested_inv in Hn as (Hfin & Hne & _).
  destruct dead eqn:Hdd; apply returns_ret; cbn [visited].
  - specialize (Hd eq_refl). rewrite tree_objs_node in Hd. apply Forall_cons in Hd as [Ho Hd].
    split_and!; [|by apply survive_drop|lia|intros ts [= <-]; lia].
    assert (Hd' := survive_dead _ _ Hsurv Hd). rewrite Forall_forall in Hd'. rewrite Forall_forall in Hpost. apply Forall_forall.
    intros c Hc. destruct (Hpost c Hc) as ((Hnc & _ & _) & Hic & Hcc).
    assert (Hp' : inside (drop_cpus p dropped) (t_obj c)).
    { destruct (andnot_inside p o Hin) as [H1 H2]. eapply inside_le; [exact Hic|done|].
      unfold cpusets in H2. do 2 (apply Forall_cons in H2 as [? H2]). done. }
    split_and!; [split_and!|done|done]; [done|by apply inside_undrop|].
    intros _. apply Forall_forall. intros d Hdc. apply Hd', elem_of_forest_objs. eauto.
  - assert (Hrest := survive_cons o _ _ _ (drop_restricted o) Hsurv).
    assert (Hin' := andnot_inside p o Hin).
    rewrite forest_objs_cons, tree_objs_node, forest_size_cons, tree_size_node, app_nil_r.
    split_and!; [|done|simpl forest_size at 2; lia|done]. constructor; [|constructor].
    split_and!; [split_and!| |].
    + constructor; [by apply drop_fin| |].
      * intros Hnt k Hk. unfold dead, dropping in Hdd. cbn [o_type drop_cpus with_sets] in Hnt.
        change (o_type (with_distances o [])) with (o_type o) in Hnt.
        unfold normal_type in Hnt. apply andb_true_iff in Hnt as [Hm Hio].
        apply negb_true_iff in Hm, Hio. rewrite Hm, Hio in Hdd. apply orb_false_iff in Hdd as [_ Hz].
        rewrite Hk in Hz. simpl in Hz. intros He. apply b_iszero_spec in He. congruence.
      * eapply Forall_impl; [exact Hpost|]. by intros c ((? & _) & ? & _).
    + by apply inside_undrop.
    + intros Hdp. specialize (Hdead Hdp). rewrite tree_objs_node in Hdead |- *.
      by apply (survive_dead _ _ Hrest).
    + done.
    + rewrite tree_objs_node. constructor; [apply drop_clean|].
      apply Forall_forall. intros d (c & Hc & Hd')%elem_of_forest_objs.
      rewrite Forall_forall in Hpost. destruct (Hpost c Hc) as (_ & _ & Hcc).
      rewrite Forall_forall in Hcc. auto.
Qed.

(** ** Dropped NUMA nodes *)

(** The cpusets, the address and the type are those of before. *)
Definition same_cpus o o' : Prop :=
  o_addr o' = o_addr o /\ o_type o' = o_type o /\ cpusets o' = cpusets o.

Lemma drop_nodes_cpus o (nodes : B) : same_cpus o (drop_nodes o nodes).
Proof. done. Qed.

Lemma same_cpus_cpuset o o' : same_cpus o o' -> ocpuset o' = ocpuset o.
Proof. intros (_ & _ & Hc). unfold ocpuset. unfold cpusets in Hc. congruence. Qed.

Lemma same_cpus_inside p p' o o' : same_cpus p p' -> same_cpus o o' -> inside p o -> inside p' o'.
Proof.
  intros Hp Ho. unfold inside. rewrite (same_cpus_cpuset _ _ Hp), (same_cpus_cpuset _ _ Ho).
  destruct Hp as (_ & _ & Hp), Ho as (_ & _ & ->).
  assert (complete_cpuset (sets p') = complete_cpuset (sets p)) as -> by (unfold cpusets in Hp; congruence).
  done.
Qed.

Lemma restrict_nodeset_ok (nodes : B) t :
  same_cpus (t_obj t) (t_obj (restrict_object_nodeset nodes t)) /\
  Forall2 same_cpus (tree_objs t) (tree_objs (restrict_object_nodeset nodes t)) /\
  (nested t -> nested (restrict_object_nodeset nodes t)).
Proof.
  induction t as [o ch IH] using obj_tree_ind'. cbn [restrict_object_nodeset].
  assert (Hrefl : forall os : list (hwloc_obj B), Forall2 same_cpus os os)
    by (induction os; constructor; done).
  destruct (match complete_nodeset (sets o) with Some _ => _ | None => _ end); [done|].
  split_and!; [done| |].
  - rewrite !tree_objs_node. constructor; [done|].
    induction IH as [|c ch (_ & Hc & _) _ IHch]; [constructor|]. simpl map. rewrite !forest_objs_cons.
    by apply Forall2_app.
  - intros (Hfin & Hne & Hch)%nested_inv. constructor; [done|done|].
    apply Forall_map. rewrite Forall_forall in IH, Hch. apply Forall_forall. intros c Hc.
    destruct (IH c Hc) as (Hs & _ & Hn), (Hch c Hc) as [Hin Hnc]. split; [|auto].
    by apply (same_cpus_inside o _ (t_obj c)).
Qed.

Lemma same_cpus_survive os os1 os2 :
  survive os os1 -> Forall2 same_cpus os1 os2 -> survive os os2.
Proof.
  intros Hs H12. unfold survive in *. assert (Hl : Forall2 same_cpus (living os1) (living os2)).
  { unfold living. clear Hs. induction H12 as [|o1 o2 os1 os2 Ho _ IH]; [constructor|].
    assert (Ha : alive o2 = alive o1).
    { unfold alive. rewrite (same_cpus_cpuset _ _ Ho). by destruct Ho as (_ & -> & _). }
    rewrite !filter_cons, Ha. destruct (decide _); [by constructor|done]. }
  clear H12. revert Hl. generalize (living os2). induction Hs as [|o o1 l l1 Ho _ IH]; intros l2 Hl;
    inversion Hl as [|? o2 ? l2' Ho2 Hl2]; subst; constructor; [|auto].
  destruct Ho as (Ha & Ht & Hc). rewrite <- (same_cpus_cpuset _ _ Ho2) in Hc.
  destruct Ho2 as (Ha2 & Ht2 & _). split_and!; [congruence..|done].
Qed.

Lemma same_cpus_clean os1 os2 : Forall2 same_cpus os1 os2 -> Forall clean os1 -> Forall clean os2.
Proof.
  induction 1 as [|o1 o2 os1 os2 Ho _ IH]; [done|]. intros [Hc Hcs]%Forall_cons. constructor; [|auto].
  unfold clean in *. by destruct Ho as (_ & _ & ->).
Qed.

End Restrict.
