(* ===== verification/Levels.v ===== *)
(** * Levels: connecting a hierarchy ([src/topology.c])

    After the removal passes the hierarchy only has its [first_child] and
    [next_sibling] pointers, the tree of Obj.v.  [hwloc_connect_children] sets
    the parent and sibling links; [hwloc_connect_levels] sorts the objects into
    horizontal levels, numbers them and links cousins, queues I/O objects into
    their own lists, and [hwloc_propagate_symmetric_subtree] marks the symmetric
    subtrees.  The links live in a store indexed by the address of the object:
    an address that is not in the store is not a live object.  The arrays
    [children] that [hwloc_connect_levels] reads are those that
    [hwloc_connect_children], which every caller runs first, has just built from
    the tree.  Failures of malloc are not modelled. *)

From stdpp Require Import gmap functions.
From S2P Require Import Prelude Cpuset Obj.

(** ** The store of links *)

Record obj_links := mk_links {
  depth : Z;
  logical_index : Z;
  next_cousin : option Z;
  prev_cousin : option Z;
  parent : option Z;
  sibling_rank : Z;
  prev_sibling : option Z;
  arity : Z;
  children : list Z;
  last_child : option Z;
  symmetric_subtree : bool;
}.

(** As the [memset] of [hwloc_alloc_setup_object] leaves them. *)
Definition null_links : obj_links := mk_links 0 0 None None None 0 None 0 [] None false.

Notation links_store := (gmap Z obj_links).

Definition links (st : links_store) (a : Z) : obj_links := default null_links (st !! a).
Definition upd (a : Z) (f : obj_links -> obj_links) (st : links_store) : links_store :=
  <[a := f (links st a)]> st.

Definition set_depth d k := mk_links d (logical_index k) (next_cousin k) (prev_cousin k)
  (parent k) (sibling_rank k) (prev_sibling k) (arity k) (children k) (last_child k) (symmetric_subtree k).
Definition set_logical_index i k := mk_links (depth k) i (next_cousin k) (prev_cousin k)
  (parent k) (sibling_rank k) (prev_sibling k) (arity k) (children k) (last_child k) (symmetric_subtree k).
Definition set_next_cousin n k := mk_links (depth k) (logical_index k) n (prev_cousin k)
  (parent k) (sibling_rank k) (prev_sibling k) (arity k) (children k) (last_child k) (symmetric_subtree k).
Definition set_prev_cousin p k := mk_links (depth k) (logical_index k) (next_cousin k) p
  (parent k) (sibling_rank k) (prev_sibling k) (arity k) (children k) (last_child k) (symmetric_subtree k).
Definition set_sibling (p : Z) (rank : Z) (prev : option Z) k :=
  mk_links (depth k) (logical_index k) (next_cousin k) (prev_cousin k)
  (Some p) rank prev (arity k) (children k) (last_child k) (symmetric_subtree k).
Definition set_arity (n : Z) (last : option Z) k :=
  mk_links (depth k) (logical_index k) (next_cousin k) (prev_cousin k)
  (parent k) (sibling_rank k) (prev_sibling k) n (children k) last (symmetric_subtree k).
Definition set_children (l : list Z) k :=
  mk_links (depth k) (logical_index k) (next_cousin k) (prev_cousin k)
  (parent k) (sibling_rank k) (prev_sibling k) (arity k) l (last_child k) (symmetric_subtree k).
Definition set_symmetric (b : bool) k :=
  mk_links (depth k) (logical_index k) (next_cousin k) (prev_cousin k)
  (parent k) (sibling_rank k) (prev_sibling k) (arity k) (children k) (last_child k) b.

(** ** Parents and siblings *)

Section Connect.
Context {B : Type} `{CpusetOps B}.
Implicit Types t : obj_tree B.
Implicit Types ch objs : list (obj_tree B).

Definition t_addr t : Z := o_addr (t_obj t).
Definition t_type t : hwloc_obj_type_t := o_type (t_obj t).
Definition t_arity t : Z := Z.of_nat (length (t_children t)).

(** The first loop of [hwloc_connect_children], from child number [n] on:
    gives the number of children and the last one. *)
Fixpoint link_siblings (par : Z) (n : Z) (prev : option Z) ch (st : links_store)
  : Z * option Z * links_store :=
  match ch with
  | [] => (n, prev, st)
  | child :: ch =>
      let st := upd (t_addr child) (set_sibling par n prev) st in
      link_siblings par (n + 1) (Some (t_addr child)) ch st
  end.

Fixpoint hwloc_connect_children t (st : links_store) : links_store :=
  let 'Node o ch := t in
  let '(n, prev_child, st) := link_siblings (o_addr o) 0 None ch st in
  let st := upd (o_addr o) (set_arity n prev_child) st in
  let st := upd (o_addr o) (set_children (map t_addr ch)) st in
  foldl (fun st connect => connect st) st (map hwloc_connect_children ch).

(** ** I/O lists *)

Definition HWLOC_TYPE_DEPTH_UNKNOWN : Z := -1.
Definition HWLOC_TYPE_DEPTH_MULTIPLE : Z := -2.
Definition HWLOC_TYPE_DEPTH_BRIDGE : Z := -3.
Definition HWLOC_TYPE_DEPTH_PCI_DEVICE : Z := -4.
Definition HWLOC_TYPE_DEPTH_OS_DEVICE : Z := -5.
Definition HWLOC_DEPTH_MAX : Z := 128.

(** The virtual depth of the I/O types. *)
Definition io_depth (type : hwloc_obj_type_t) : option Z :=
  match type with
  | HWLOC_OBJ_BRIDGE => Some HWLOC_TYPE_DEPTH_BRIDGE
  | HWLOC_OBJ_PCI_DEVICE => Some HWLOC_TYPE_DEPTH_PCI_DEVICE
  | HWLOC_OBJ_OS_DEVICE => Some HWLOC_TYPE_DEPTH_OS_DEVICE
  | _ => None
  end.

(** [io_ends HWLOC_OBJ_BRIDGE] holds [first_bridge] and [last_bridge], the
    other I/O types likewise; [None] for NULL. *)
Record io_state := mk_io {
  io_links : links_store;
  io_ends : hwloc_obj_type_t -> option (Z * Z);
}.

(** The body of [append_iodevs] for one object. *)
Definition append_iodev (o : hwloc_obj B) (s : io_state) : io_state :=
  match io_depth (o_type o) with
  | Some d =>
      let st := upd (o_addr o) (set_depth (u32 d)) (io_links s) in
      match io_ends s (o_type o) with
      | Some (first, last) =>
          let st := upd (o_addr o) (set_prev_cousin (Some last)) st in
          let st := upd last (set_next_cousin (Some (o_addr o))) st in
          mk_io st (<[o_type o := Some (first, o_addr o)]> (io_ends s))
      | None => mk_io st (<[o_type o := Some (o_addr o, o_addr o)]> (io_ends s))
      end
  | None => s
  end.

Fixpoint append_iodevs t (s : io_state) : io_state :=
  let 'Node o ch := t in
  foldl (fun s append => append s) (append_iodev o s) (map append_iodevs ch).

(** [hwloc_build_level_from_list]: the objects met following [next_cousin] from
    [first], numbered on the way; reading an object that is not live, or
    running through more objects than there are, is undefined. *)
Fixpoint hwloc_build_level_from_list (fuel : nat) (first : option Z) (i : Z) (st : links_store)
  : option (list Z * links_store) :=
  match first with
  | None => Some ([], st)
  | Some obj =>
      match fuel with
      | O => None
      | S fuel =>
          let! k := st !! obj in
          let st := upd obj (set_logical_index i) st in
          let! (level, st) := hwloc_build_level_from_list fuel (next_cousin k) (i + 1) st in
          Some (obj :: level, st)
      end
  end.

(** ** Filtering the candidates of a level *)

(** [hwloc_level_filter_object] with a NULL output: counting. *)
Fixpoint level_count_object t : nat :=
  let 'Node o ch := t in
  if hwloc_obj_type_is_io (o_type o) then 0
  else if negb (bool_decide (o_type o = HWLOC_OBJ_MISC)) then 1
  else list_sum (map level_count_object ch).

(** The same with an output array: the objects written to it. *)
Fixpoint hwloc_level_filter_object t (s : io_state) : list (obj_tree B) * io_state :=
  let 'Node o ch := t in
  if hwloc_obj_type_is_io (o_type o) then ([], append_iodevs t s)
  else if negb (bool_decide (o_type o = HWLOC_OBJ_MISC)) then ([t], s)
  else
    foldl (fun '(new, s) filter_child =>
             let '(objs, s) := filter_child s in
             (new ++ objs,
              mk_io (upd (o_addr o) (set_depth (u32 HWLOC_TYPE_DEPTH_UNKNOWN)) (io_links s)) (io_ends s)))
          ([], s) (map hwloc_level_filter_object ch).

Definition filtered_out t : bool :=
  hwloc_obj_type_is_io (t_type t) || bool_decide (t_type t = HWLOC_OBJ_MISC).

(** [None] is a write past the end of the new array. *)
Definition hwloc_level_filter_objects objs (s : io_state)
  : option (list (obj_tree B) * io_state) :=
  if negb (existsb filtered_out objs) then Some (objs, s) else
  let nnew := list_sum (map level_count_object objs) in
  let '(new, s) := foldl (fun '(new, s) old =>
                            let '(objs, s) := hwloc_level_filter_object old s in (new ++ objs, s))
                         ([], s) objs in
  require! (length new <=? nnew)%nat in
  Some (new, s).

(** ** Building levels *)

Fixpoint find_same_type (root : obj_tree B) (obj : hwloc_obj B) : bool :=
  let 'Node o ch := root in
  if bool_decide (hwloc_type_cmp o obj = HWLOC_TYPE_EQUAL) then true
  else existsb (fun child => find_same_type child obj) ch.

Definition same_type t (u : obj_tree B) : bool :=
  bool_decide (hwloc_type_cmp (t_obj t) (t_obj u) = HWLOC_TYPE_EQUAL).

(** The object whose type makes the next level; [None] reads [objs[0]] of an
    empty array. *)
Definition topmost_object objs : option (obj_tree B) :=
  let! top_obj := match find (fun t => negb (bool_decide (t_type t = HWLOC_OBJ_PU))) objs with
                  | Some t => Some t
                  | None => head objs
                  end in
  Some (foldl (fun top_obj t =>
                 if negb (same_type top_obj t) then
                   if find_same_type t (t_obj top_obj) then t else top_obj
                 else top_obj) top_obj objs).

(** The objects taken and the remaining ones. *)
Fixpoint hwloc_level_take_objects (top_obj : obj_tree B) (current_objs : list (obj_tree B))
  : list (obj_tree B) * list (obj_tree B) :=
  match current_objs with
  | [] => ([], [])
  | t :: objs =>
      let '(taken, remaining) := hwloc_level_take_objects top_obj objs in
      if same_type top_obj t then (t :: taken, t_children t ++ remaining)
      else (taken, t :: remaining)
  end.

(** Numbers the objects of a level from [i] on and links cousins. *)
Fixpoint number_level (d : Z) (i : Z) (prev : option Z) (taken : list (obj_tree B)) (st : links_store)
  : links_store :=
  match taken with
  | [] => match prev with Some p => upd p (set_next_cousin None) st | None => st end
  | t :: taken =>
      let st := upd (t_addr t) (set_depth d) st in
      let st := upd (t_addr t) (set_logical_index i) st in
      let st := upd (t_addr t) (set_prev_cousin prev) st in
      let st := match prev with
                | Some p => upd p (set_next_cousin (Some (t_addr t))) st
                | None => st
                end in
      number_level d (i + 1) (Some (t_addr t)) taken st
  end.

Record level_state := mk_levels {
  ls_io : io_state;
  levels : list (list (obj_tree B));
  type_depth : hwloc_obj_type_t -> Z;
}.

Definition nb_levels (ls : level_state) : Z := Z.of_nat (length (levels ls)).

(** One turn of the loop of [hwloc_connect_levels]: [None] when [levels] is
    full ([HWLOC_DEPTH_MAX]) and a write would go past its end. *)
Definition build_level objs (ls : level_state) : option (list (obj_tree B) * level_state) :=
  let! top_obj := topmost_object objs in
  let '(taken_objs, new_objs) := hwloc_level_take_objects top_obj objs in
  let st := number_level (nb_levels ls) 0 None taken_objs (io_links (ls_io ls)) in
  let type := t_type top_obj in
  let type_depth :=
    if type_depth ls type =? HWLOC_TYPE_DEPTH_UNKNOWN
    then <[type := nb_levels ls]> (type_depth ls)
    else <[type := HWLOC_TYPE_DEPTH_MULTIPLE]> (type_depth ls) in
  require! (nb_levels ls <? HWLOC_DEPTH_MAX) in
  let levels := levels ls ++ [taken_objs] in
  let! (objs, s) := hwloc_level_filter_objects new_objs (mk_io st (io_ends (ls_io ls))) in
  Some (objs, mk_levels s levels type_depth).

(** Each turn takes at least one object of the tree: its size is enough fuel. *)
Fixpoint build_levels (fuel : nat) objs (ls : level_state) : option level_state :=
  match objs with
  | [] => Some ls
  | _ =>
      match fuel with
      | O => None
      | S fuel =>
          let! (objs, ls) := build_level objs ls in
          build_levels fuel objs ls
      end
  end.

(** ** Symmetric subtrees *)

Definition first_child t : option (obj_tree B) := head (t_children t).

(** The loop that walks down the first children of the array, whose first
    element is [t]: do all have the same depth and arity at each step? *)
Fixpoint same_shape (st : links_store) t (others : list (obj_tree B)) : option bool :=
  let 'Node o ch := t in
  if existsb (fun u => negb (depth (links st (t_addr u)) =? depth (links st (o_addr o)))
                       || negb (t_arity u =? Z.of_nat (length ch))) others
  then Some false
  else
    match ch with
    | [] => Some true
    | c :: _ => let! others := mapM first_child others in same_shape st c others
    end.

Fixpoint hwloc_propagate_symmetric_subtree t (st : links_store) : option links_store :=
  let 'Node o ch := t in
  let st := upd (o_addr o) (set_symmetric false) st in
  match ch with
  | [] => Some (upd (o_addr o) (set_symmetric true) st)
  | c :: cs =>
      let! st := foldl (fun r propagate => let! st := r in propagate st) (Some st)
                   (map hwloc_propagate_symmetric_subtree ch) in
      if existsb (fun c => negb (symmetric_subtree (links st (t_addr c)))) ch then Some st else
      let! same := same_shape st c cs in
      Some (if same : bool then upd (o_addr o) (set_symmetric true) st else st)
  end.

(** ** The whole of [hwloc_connect_levels] *)

Record topology_levels := mk_topology_levels {
  tl_levels : level_state;
  bridge_level : list Z;
  pcidev_level : list Z;
  osdev_level : list Z;
}.

Definition initial_type_depth (root_type : hwloc_obj_type_t) : hwloc_obj_type_t -> Z :=
  let td := fun _ => HWLOC_TYPE_DEPTH_UNKNOWN in
  let td := <[root_type := 0]> td in
  let td := <[HWLOC_OBJ_BRIDGE := HWLOC_TYPE_DEPTH_BRIDGE]> td in
  let td := <[HWLOC_OBJ_PCI_DEVICE := HWLOC_TYPE_DEPTH_PCI_DEVICE]> td in
  <[HWLOC_OBJ_OS_DEVICE := HWLOC_TYPE_DEPTH_OS_DEVICE]> td.

Definition hwloc_connect_levels (root : obj_tree B) (st : links_store) : option topology_levels :=
  let! (objs, s) := hwloc_level_filter_objects (t_children root) (mk_io st (fun _ => None)) in
  let! ls := build_levels (tree_size root) objs
               (mk_levels s [[root]] (initial_type_depth (t_type root))) in
  let ends := io_ends (ls_io ls) in
  let st := io_links (ls_io ls) in
  let list_of type st := hwloc_build_level_from_list (S (size st)) (fst <$> ends type) 0 st in
  let! (bridges, st) := list_of HWLOC_OBJ_BRIDGE st in
  let! (pcidevs, st) := list_of HWLOC_OBJ_PCI_DEVICE st in
  let! (osdevs, st) := list_of HWLOC_OBJ_OS_DEVICE st in
  let! st := hwloc_propagate_symmetric_subtree root st in
  Some (mk_topology_levels (mk_levels (mk_io st ends) (levels ls) (type_depth ls))
          bridges pcidevs osdevs).

End Connect.
