(* ===== verification/LevelsOk.v ===== *)
(** * LevelsOk: the links of a connected hierarchy

    Facts on the store of links; what [hwloc_connect_children] sets; the lists
    of I/O objects and [hwloc_build_level_from_list]; the symmetric subtrees. *)

From stdpp Require Import gmap functions.
From S2P Require Import Prelude Cpuset Obj CleanOk Levels.

(** ** The store *)

Lemma links_upd a f st : links (upd a f st) a = f (links st a).
Proof. unfold links, upd. by rewrite lookup_insert_eq. Qed.

Lemma links_upd_ne a b f st : a <> b -> links (upd b f st) a = links st a.
Proof. intros. unfold links, upd. by rewrite lookup_insert_ne. Qed.

Lemma upd_live a b f st : is_Some (st !! a) -> is_Some (upd b f st !! a).
Proof.
  intros Ha. unfold upd. destruct (decide (b = a)) as [->|Hne].
  - by rewrite lookup_insert_eq.
  - by rewrite lookup_insert_ne.
Qed.

Lemma upd_live_eq a f st : is_Some (upd a f st !! a).
Proof. unfold upd. by rewrite lookup_insert_eq. Qed.

Lemma links_live st a : is_Some (st !! a) -> st !! a = Some (links st a).
Proof. intros [k Hk]. unfold links. by rewrite Hk. Qed.

(** [st'] differs from [st] only at addresses of [l], and keeps objects live. *)
Definition writes (l : list Z) (st st' : links_store) : Prop :=
  (forall a, a ∉ l -> links st' a = links st a) /\
  (forall a, is_Some (st !! a) -> is_Some (st' !! a)).

Lemma writes_refl l st : writes l st st.
Proof. done. Qed.

Lemma writes_upd a f st l : a ∈ l -> writes l st (upd a f st).
Proof.
  intros Ha. split; [|intros b; apply upd_live].
  intros b Hb. apply links_upd_ne. by intros ->.
Qed.

Lemma writes_trans l st1 st2 st3 : writes l st1 st2 -> writes l st2 st3 -> writes l st1 st3.
Proof.
  intros [Ha La] [Hb Lb]. split; [|by auto]. intros a Hna. by rewrite Hb, Ha.
Qed.

Lemma writes_mono l l' st st' : l ⊆ l' -> writes l st st' -> writes l' st st'.
Proof. intros Hl [Ha La]. split; [|done]. intros a Hna. apply Ha. set_solver. Qed.

Lemma writes_upd_then a f st st' l : a ∈ l -> writes l (upd a f st) st' -> writes l st st'.
Proof. intros. eapply writes_trans; [by apply writes_upd|done]. Qed.

Create HintDb links.
#[export] Hint Resolve writes_refl : links.

(** Rewrites [links (upd ..)] where the addresses are equal or known different. *)
Ltac links_simpl :=
  repeat first [rewrite links_upd | rewrite links_upd_ne by (congruence || set_solver)].

Section Ok.
Context {B : Type} `{CpusetOps B}.
Implicit Types t : obj_tree B.
Implicit Types ch objs : list (obj_tree B).
Implicit Types o : hwloc_obj B.

(** Every object has an address of its own. *)
Definition distinct (os : list (hwloc_obj B)) : Prop := NoDup (map o_addr os).

Lemma distinct_inj os o o' :
  distinct os -> o ∈ os -> o' ∈ os -> o_addr o = o_addr o' -> o = o'.
Proof.
  unfold distinct. induction os as [|x os IH]; [set_solver|]. simpl.
  rewrite NoDup_cons. intros [Hx Hos] Ho Ho' Heq.
  assert (Hin : forall y, y ∈ os -> o_addr y ∈ map o_addr os)
    by (intros y Hy; by apply list_elem_of_fmap_2).
  apply elem_of_cons in Ho as [->|Ho], Ho' as [->|Ho']; auto.
  - destruct Hx. rewrite Heq. auto.
  - destruct Hx. rewrite <- Heq. auto.
Qed.

Lemma distinct_app os os' :
  distinct (os ++ os') <->
  distinct os /\ (forall o o', o ∈ os -> o' ∈ os' -> o_addr o <> o_addr o') /\ distinct os'.
Proof.
  unfold distinct. rewrite List.map_app, NoDup_app.
  split; (intros (H1 & H2 & H3); split_and!; [done| |done]).
  - intros o o' Ho Ho' Heq. apply (H2 (o_addr o)); [by apply list_elem_of_fmap_2|].
    rewrite Heq. by apply list_elem_of_fmap_2.
  - intros a Ha Ha'. apply list_elem_of_fmap in Ha as (o & -> & Ho).
    apply list_elem_of_fmap in Ha' as (o' & Heq & Ho'). by apply (H2 o o').
Qed.

Lemma distinct_sublist os os' : sublist os os' -> distinct os' -> distinct os.
Proof.
  intros Hs Hd. eapply sublist_NoDup; [exact Hd|]. exact (fmap_sublist o_addr _ _ Hs).
Qed.

Lemma distinct_perm os os' : os ≡ₚ os' -> distinct os -> distinct os'.
Proof. intros Hp. unfold distinct. by rewrite (Permutation_map o_addr Hp). Qed.

(** ** [hwloc_connect_children] *)

(** The links that a node and its children must have. *)
Definition children_linked (st : links_store) (n : obj_tree B) : Prop :=
  let k := links st (t_addr n) in
  let addrs := map t_addr (t_children n) in
  arity k = Z.of_nat (length addrs) /\ Levels.children k = addrs /\ last_child k = last addrs /\
  forall i a, addrs !! i = Some a ->
    parent (links st a) = Some (t_addr n) /\ sibling_rank (links st a) = Z.of_nat i /\
    prev_sibling (links st a) = (if decide (i = 0%nat) then None else addrs !! (i - 1)%nat).

Lemma link_siblings_ok par ch n prev st :
  NoDup (map t_addr ch) ->
  let '(n', last', st') := link_siblings par n prev ch st in
  n' = n + Z.of_nat (length ch) /\ last' = (if ch is [] then prev else last (map t_addr ch)) /\
  writes (map t_addr ch) st st' /\
  (forall i a, map t_addr ch !! i = Some a ->
     links st' a = set_sibling par (n + Z.of_nat i)
       (if decide (i = 0%nat) then prev else map t_addr ch !! (i - 1)%nat) (links st a)).
Proof.
  revert n prev st. induction ch as [|c ch IH]; intros n prev st Hnd; simpl.
  { split_and!; [lia|done|apply writes_refl|done]. }
  rewrite map_cons, NoDup_cons in Hnd. destruct Hnd as [Hc Hnd].
  specialize (IH (n + 1) (Some (t_addr c)) (upd (t_addr c) (set_sibling par n prev) st) Hnd).
  destruct (link_siblings _ _ _ _ _) as [[n' last'] st']. destruct IH as (-> & -> & Hw & Hl).
  split_and!; [lia|by destruct ch| |].
  - apply (writes_upd_then (t_addr c) (set_sibling par n prev)); [set_solver|].
    eapply writes_mono; [|done]. set_solver.
  - intros [|i] a Ha; simpl in *.
    + injection Ha as <-. rewrite (proj1 Hw) by done. rewrite links_upd. f_equal. lia.
    + rewrite (Hl i a Ha). rewrite links_upd_ne by
        (intros ->; apply Hc; by eapply list_elem_of_lookup_2).
      f_equal; [lia|]. destruct i; simpl; [done|]. by rewrite Nat.sub_0_r.
Qed.

(** What [hwloc_connect_children] leaves alone. *)
Definition same_levels (st st' : links_store) : Prop :=
  forall a, depth (links st' a) = depth (links st a) /\
    logical_index (links st' a) = logical_index (links st a) /\
    next_cousin (links st' a) = next_cousin (links st a) /\
    prev_cousin (links st' a) = prev_cousin (links st a) /\
    symmetric_subtree (links st' a) = symmetric_subtree (links st a).

Definition same_place (st st' : links_store) (a : Z) : Prop :=
  parent (links st' a) = parent (links st a) /\
  sibling_rank (links st' a) = sibling_rank (links st a) /\
  prev_sibling (links st' a) = prev_sibling (links st a).

Lemma same_levels_trans st1 st2 st3 :
  same_levels st1 st2 -> same_levels st2 st3 -> same_levels st1 st3.
Proof.
  intros H1 H2 a. destruct (H2 a) as (-> & -> & -> & -> & ->). apply H1.
Qed.

Lemma addr_in_tree t : t_addr t ∈ map o_addr (tree_objs t).
Proof. destruct t. set_solver. Qed.

Lemma forest_roots ch : map t_addr ch ⊆ map o_addr (forest_objs ch).
Proof.
  induction ch as [|c ch IH]; [done|]. rewrite forest_objs_cons, List.map_app. simpl.
  pose proof (addr_in_tree c). set_solver.
Qed.

Lemma distinct_roots ch : distinct (forest_objs ch) -> NoDup (map t_addr ch).
Proof.
  induction ch as [|c ch IH]; intros Hd; [constructor|]. rewrite forest_objs_cons in Hd.
  unfold distinct in Hd. rewrite List.map_app, NoDup_app in Hd. destruct Hd as (_ & Hne & Hd).
  rewrite map_cons. constructor; [|by apply IH]. intros Hin. apply (Hne (t_addr c)); [apply addr_in_tree|].
  by apply forest_roots.
Qed.

Lemma node_objs n t : n ∈ tree_nodes t -> sublist (tree_objs n) (tree_objs t).
Proof.
  induction t as [o ch IH] using obj_tree_ind'. rewrite tree_nodes_node, tree_objs_node.
  intros [->|Hn]%elem_of_cons; [done|]. apply sublist_cons.
  induction IH as [|c ch Hc _ IHch]; [by apply not_elem_of_nil in Hn|].
  rewrite forest_nodes_cons in Hn. rewrite forest_objs_cons.
  apply elem_of_app in Hn as [Hn|Hn]; [apply sublist_inserts_r|apply sublist_inserts_l]; auto.
Qed.

Lemma forest_node_objs n ch : n ∈ forest_nodes ch -> sublist (tree_objs n) (forest_objs ch).
Proof.
  induction ch as [|c ch IH]; [by intros ?%not_elem_of_nil|].
  rewrite forest_nodes_cons, forest_objs_cons. intros [Hn|Hn]%elem_of_app.
  - apply sublist_inserts_r. by apply node_objs.
  - apply sublist_inserts_l. auto.
Qed.

Lemma addrs_sublist (os os' : list (hwloc_obj B)) a :
  sublist os os' -> a ∈ map o_addr os -> a ∈ map o_addr os'.
Proof. intros Hs Ha. eapply elem_of_sublist; [done|]. exact (fmap_sublist o_addr _ _ Hs). Qed.

Lemma node_addrs (n : obj_tree B) : t_addr n ∈ map o_addr (tree_objs n) /\
  forall c, c ∈ t_children n -> t_addr c ∈ map o_addr (tree_objs n).
Proof.
  split; [apply addr_in_tree|]. intros c Hc. destruct n as [o ch]. simpl in *.
  apply elem_of_cons. right. apply forest_roots. by apply list_elem_of_fmap_2.
Qed.

Lemma children_linked_writes l st st' n :
  writes l st st' -> (forall a, a ∈ map o_addr (tree_objs n) -> a ∉ l) ->
  children_linked st n -> children_linked st' n.
Proof.
  intros Hw Hl (Ha & Hc & Hlast & Hch). unfold children_linked.
  destruct (node_addrs n) as [Hn Hcs].
  rewrite !(proj1 Hw (t_addr n)) by auto. split_and!; [done..|].
  intros i a Hi. rewrite !(proj1 Hw a); [by apply Hch|].
  apply Hl. apply list_elem_of_lookup_2 in Hi. apply list_elem_of_fmap in Hi as (c & -> & Hc').
  auto.
Qed.

(** What connecting [t], or all of [ch], does to the store. *)
Definition tree_connected (os : list (hwloc_obj B)) (nodes roots : list (obj_tree B)) st st' : Prop :=
  writes (map o_addr os) st st' /\ same_levels st st' /\
  (forall r, r ∈ roots -> same_place st st' (t_addr r)) /\
  (forall n, n ∈ nodes -> children_linked st' n).

Lemma connect_forest ch st :
  Forall (fun t => forall st, distinct (tree_objs t) ->
    tree_connected (tree_objs t) (tree_nodes t) [t] st (hwloc_connect_children t st)) ch ->
  distinct (forest_objs ch) ->
  tree_connected (forest_objs ch) (forest_nodes ch) ch st
    (foldl (fun st connect => connect st) st (map hwloc_connect_children ch)).
Proof.
  intros Hch. revert st. induction Hch as [|c ch Hc _ IH]; intros st Hd; simpl.
  { split_and!; [done|done|by intros ? ?%not_elem_of_nil|by intros ? ?%not_elem_of_nil]. }
  rewrite forest_objs_cons in Hd. apply distinct_app in Hd as (Hdc & Hne & Hdch).
  destruct (Hc st Hdc) as (Hw & Hl & Hp & Hn).
  destruct (IH (hwloc_connect_children c st) Hdch) as (Hw' & Hl' & Hp' & Hn').
  assert (Hsep : forall a, a ∈ map o_addr (tree_objs c) -> a ∉ map o_addr (forest_objs ch)).
  { intros a (o & -> & Ho)%list_elem_of_fmap (o' & Heq & Ho')%list_elem_of_fmap.
    by apply (Hne o o'). }
  unfold tree_connected. rewrite forest_objs_cons, forest_nodes_cons, List.map_app. split_and!.
  - eapply writes_trans; eapply writes_mono; [|exact Hw| |exact Hw']; set_solver.
  - by eapply same_levels_trans.
  - intros r [->|Hr]%elem_of_cons; unfold same_place.
    + rewrite !(proj1 Hw' (t_addr c)) by auto using addr_in_tree. by apply Hp, list_elem_of_singleton.
    + specialize (Hp' r Hr). unfold same_place in Hp'. rewrite !(proj1 Hw (t_addr r)) in Hp'; [done|].
      intros Hr'. apply (Hsep _ Hr'). apply forest_roots. by apply list_elem_of_fmap_2.
  - intros n [Hin|Hin]%elem_of_app; [|auto].
    eapply children_linked_writes; [done| |by apply Hn]. intros a Ha. apply Hsep.
    by eapply addrs_sublist; [apply node_objs|].
Qed.

Lemma connect_tree t st :
  distinct (tree_objs t) ->
  tree_connected (tree_objs t) (tree_nodes t) [t] st (hwloc_connect_children t st).
Proof.
  revert st. induction t as [o ch IH] using obj_tree_ind'. intros st Hd. cbn [hwloc_connect_children].
  rewrite tree_objs_node in *. unfold distinct in Hd. rewrite map_cons, NoDup_cons in Hd.
  destruct Hd as [Ho Hd].
  pose proof (link_siblings_ok (o_addr o) ch 0 None st (distinct_roots ch Hd)) as Hs.
  destruct (link_siblings _ _ _ _ _) as [[n last'] st1]. destruct Hs as (-> & -> & Hw1 & Hs).
  set (st2 := upd (o_addr o) (set_arity _ _) st1). set (st3 := upd (o_addr o) (set_children _) st2).
  destruct (connect_forest ch st3 IH Hd) as (Hw & Hl & Hp & Hn). set (st4 := foldl _ _ _) in *.
  assert (Hroots : o_addr o ∉ map t_addr ch) by (intros Hin; apply Ho; by apply forest_roots).
  assert (Ho4 : links st4 (o_addr o) =
    set_children (map t_addr ch) (set_arity (Z.of_nat (length ch)) (last (map t_addr ch)) (links st (o_addr o)))).
  { rewrite (proj1 Hw) by done. unfold st3, st2. rewrite !links_upd, (proj1 Hw1) by done.
    by destruct ch. }
  split_and!.
  - rewrite map_cons. eapply writes_trans; [|eapply writes_mono; [|exact Hw]; set_solver].
    eapply writes_trans; [eapply writes_mono; [|exact Hw1]|].
    { intros a Ha. apply elem_of_cons. right. by apply forest_roots. }
    eapply writes_trans; apply writes_upd; set_solver.
  - eapply same_levels_trans; [|exact Hl]. intros a. unfold st3, st2.
    destruct (decide (a = o_addr o)) as [->|Hne].
    { rewrite !links_upd. simpl. by rewrite (proj1 Hw1) by done. }
    rewrite !links_upd_ne by done. destruct (decide (a ∈ map t_addr ch)) as [Hin|Hnin].
    + apply list_elem_of_lookup in Hin as [i Hi]. by rewrite (Hs i a Hi).
    + by rewrite (proj1 Hw1).
  - intros r ->%list_elem_of_singleton. unfold same_place, t_addr. simpl. by rewrite Ho4.
  - intros n' [->|Hin]%elem_of_cons; [|by apply Hn].
    unfold children_linked. change (t_addr (Node o ch)) with (o_addr o). rewrite Ho4. simpl.
    rewrite List.length_map. split_and!; [done..|]. intros i a Hi.
    assert (Hin : a ∈ map t_addr ch) by by eapply list_elem_of_lookup_2.
    apply list_elem_of_fmap in Hin as Hin'. destruct Hin' as (c & -> & Hc).
    destruct (Hp c Hc) as (-> & -> & ->). unfold st3, st2.
    rewrite !links_upd_ne by (intros Heq; apply Hroots; by rewrite <- Heq).
    by rewrite (Hs i _ Hi).
Qed.

(** ** I/O lists *)

Definition is_io o : bool := hwloc_obj_type_is_io (o_type o).

(** The addresses of the objects of a type. *)
Definition addrs_of (ty : hwloc_obj_type_t) (os : list (hwloc_obj B)) : list Z :=
  map o_addr (filter (fun o => o_type o = ty) os).

Definition ends_of (l : list Z) : option (Z * Z) :=
  match l with [] => None | a :: _ => (fun z => (a, z)) <$> last l end.

(** The objects at [l] are live and linked as cousins in this order. *)
Definition cousins (st : links_store) (l : list Z) : Prop :=
  forall i a, l !! i = Some a ->
    is_Some (st !! a) /\ next_cousin (links st a) = l !! S i /\
    prev_cousin (links st a) = (if decide (i = 0%nat) then None else l !! (i - 1)%nat).

(** [os] have been queued, and those of [pend] are not linked yet. *)
Definition io_queued (os pend : list (hwloc_obj B)) (s : io_state) : Prop :=
  (forall ty d, io_depth ty = Some d ->
     io_ends s ty = ends_of (addrs_of ty os) /\ cousins (io_links s) (addrs_of ty os)) /\
  (forall o d, o ∈ os -> io_depth (o_type o) = Some d -> depth (links (io_links s) (o_addr o)) = u32 d) /\
  (forall o, o ∈ pend -> next_cousin (links (io_links s) (o_addr o)) = None /\
     prev_cousin (links (io_links s) (o_addr o)) = None).

Lemma addrs_of_snoc ty os o :
  addrs_of ty (os ++ [o]) = addrs_of ty os ++ (if decide (o_type o = ty) then [o_addr o] else []).
Proof.
  unfold addrs_of. rewrite filter_app, List.map_app. f_equal.
  rewrite filter_cons, filter_nil. by destruct (decide (o_type o = ty)).
Qed.

Lemma addrs_of_in ty os a : a ∈ addrs_of ty os -> exists o, a = o_addr o /\ o ∈ os /\ o_type o = ty.
Proof.
  unfold addrs_of. intros (o & -> & Ho)%list_elem_of_fmap. apply list_elem_of_filter in Ho.
  exists o. tauto.
Qed.

Lemma ends_of_snoc l a : ends_of (l ++ [a]) = Some (match l with [] => a | x :: _ => x end, a).
Proof. destruct l as [|x l]; [done|]. change (ends_of ((x :: l) ++ [a])) with ((fun z => (x, z)) <$> last ((x :: l) ++ [a])). by rewrite last_snoc. Qed.

Lemma cousins_writes w st st' l :
  writes w st st' -> (forall a, a ∈ l -> a ∉ w) -> cousins st l -> cousins st' l.
Proof.
  intros [Hw Hl] Hd Hc i a Hi. destruct (Hc i a Hi) as (H1 & H2 & H3).
  rewrite Hw by (apply Hd; by eapply list_elem_of_lookup_2). auto.
Qed.

(** A new last cousin. *)
Lemma cousins_snoc st l a :
  cousins st l -> a ∉ l -> NoDup l -> is_Some (st !! a) ->
  next_cousin (links st a) = None -> prev_cousin (links st a) = last l ->
  (forall x, last l = Some x -> cousins (upd x (set_next_cousin (Some a)) st) (l ++ [a])) /\
  (l = [] -> cousins st [a]).
Proof.
  intros Hc Ha Hnd Hlive Hn Hp. split; cycle 1.
  { intros ->. intros [|i] b Hb; [|done]. injection Hb as <-. done. }
  intros x Hx i b Hb. apply lookup_app_Some in Hb as [Hb|[Hi Hb]].
  - destruct (Hc i b Hb) as (H1 & H2 & H3). split; [by apply upd_live|].
    assert (Hlt := lookup_lt_Some _ _ _ Hb).
    rewrite (lookup_app_l l [a] (i - 1)) by lia.
    destruct (decide (b = x)) as [->|Hne].
    + rewrite links_upd. simpl. split; [|done]. rewrite last_lookup in Hx.
      assert (i = Init.Nat.pred (length l)) as -> by (eapply NoDup_lookup; eauto).
      rewrite lookup_app_r by lia.
      by replace (S (Init.Nat.pred (length l)) - length l)%nat with 0%nat by lia.
    + rewrite links_upd_ne by done. split; [|done]. rewrite H2. rewrite lookup_app_l; [done|].
      destruct (decide (S i = length l)) as [Hl|]; [|lia]. exfalso. apply Hne.
      rewrite last_lookup, <- Hl in Hx. simpl in Hx. congruence.
  - assert (Hne : a <> x) by (intros ->; apply Ha; by apply last_Some_elem_of).
    destruct (i - length l)%nat as [|j] eqn:Hj; [|done]. injection Hb as <-.
    assert (i = length l) as -> by lia. split; [by apply upd_live|].
    rewrite links_upd_ne by done. split.
    + rewrite Hn. symmetry. apply lookup_ge_None. rewrite length_app. simpl. lia.
    + rewrite Hp, Hx. destruct l as [|y l]; [done|]. simpl decide.
      rewrite lookup_app_l by (simpl; lia). rewrite last_lookup in Hx. rewrite <- Hx. simpl.
      by rewrite Nat.sub_0_r.
Qed.

Lemma addrs_of_distinct ty os : distinct os -> NoDup (addrs_of ty os).
Proof.
  intros Hd. unfold addrs_of. eapply distinct_sublist; [|exact Hd]. apply sublist_filter.
Qed.

(** What appending [a] to the list [l] writes. *)
Definition queue_links (d : Z) (l : list Z) (a : Z) (st : links_store) : links_store :=
  let st := upd a (set_depth d) st in
  match last l with
  | Some x => upd x (set_next_cousin (Some a)) (upd a (set_prev_cousin (Some x)) st)
  | None => st
  end.

Lemma append_iodev_eq o s d l :
  io_depth (o_type o) = Some d -> io_ends s (o_type o) = ends_of l ->
  append_iodev o s = mk_io (queue_links (u32 d) l (o_addr o) (io_links s))
    (<[o_type o := ends_of (l ++ [o_addr o])]> (io_ends s)).
Proof.
  intros Hd He. unfold append_iodev, queue_links. rewrite Hd, He, ends_of_snoc.
  destruct l as [|x l]; [done|]. unfold ends_of.
  by destruct (last (x :: l)) eqn:Hl; [|apply last_None in Hl].
Qed.

Lemma queue_links_depth d l a st b :
  depth (links (queue_links d l a st) b) = if decide (b = a) then d else depth (links st b).
Proof.
  unfold queue_links.
  assert (H1 : depth (links (upd a (set_depth d) st) b) = if decide (b = a) then d else depth (links st b)).
  { destruct (decide (b = a)) as [->|]; [by rewrite links_upd|by rewrite links_upd_ne]. }
  assert (Hk : forall x f (st : links_store), (forall k, depth (f k) = depth k) ->
    depth (links (upd x f st) b) = depth (links st b)).
  { intros x f st' Hf. destruct (decide (b = x)) as [->|]; [by rewrite links_upd|by rewrite links_upd_ne]. }
  destruct (last l); [|done]. rewrite Hk, Hk by done; done.
Qed.

Lemma queue_links_writes d l a st : writes (a :: l) st (queue_links d l a st).
Proof.
  unfold queue_links. destruct (last l) as [x|] eqn:Hx; [|apply writes_upd; set_solver].
  apply last_Some_elem_of in Hx.
  eapply writes_trans; [eapply writes_trans|]; apply writes_upd; set_solver.
Qed.

Lemma queue_links_cousins d l a st :
  cousins st l -> a ∉ l -> NoDup l ->
  next_cousin (links st a) = None -> prev_cousin (links st a) = None ->
  cousins (queue_links d l a st) (l ++ [a]).
Proof.
  intros Hc Ha Hnd Hn Hp. unfold queue_links.
  assert (Hk : forall f st, cousins st l -> cousins (upd a f st) l).
  { intros f st'. apply (cousins_writes [a]); [apply writes_upd; set_solver|].
    intros x Hx ->%list_elem_of_singleton. done. }
  destruct (last l) as [x|] eqn:Hx.
  - apply (cousins_snoc (upd a (set_prev_cousin (Some x)) (upd a (set_depth d) st)));
      [by apply Hk, Hk|done|done|apply upd_live_eq|by rewrite !links_upd|rewrite !links_upd; by symmetry|done].
  - apply last_None in Hx as ->.
    apply (cousins_snoc (upd a (set_depth d) st) []); try done; [apply upd_live_eq|by rewrite links_upd..].
Qed.

Lemma append_iodev_ok os pend o s :
  is_io o = true -> distinct (os ++ o :: pend) -> io_queued os (o :: pend) s ->
  io_queued (os ++ [o]) pend (append_iodev o s) /\
  writes (map o_addr (os ++ [o])) (io_links s) (io_links (append_iodev o s)).
Proof.
  intros Hio Hd (Hends & Hdepth & Hpend).
  destruct (io_depth (o_type o)) as [d|] eqn:Hiod; [|unfold is_io in Hio; by destruct (o_type o)].
  destruct (Hends _ d Hiod) as [Hend Hcs]. rewrite (append_iodev_eq o s d _ Hiod Hend). simpl.
  set (l := addrs_of (o_type o) os) in *.
  apply distinct_app in Hd as (Hdos & Hne & Hdp). unfold distinct in Hdp.
  rewrite map_cons, NoDup_cons in Hdp. destruct Hdp as [Hop _].
  destruct (Hpend o) as [Hn Hp]; [set_solver|].
  assert (Hl : forall a, a ∈ o_addr o :: l -> exists o', a = o_addr o' /\ o' ∈ os ++ [o] /\ o_type o' = o_type o).
  { intros a [->|(o' & ? & ? & ?)%addrs_of_in]%elem_of_cons; [exists o|exists o']; set_solver. }
  assert (Hol : o_addr o ∉ l) by (intros (o' & Heq & Ho' & _)%addrs_of_in; by apply (Hne o' o); [|set_solver|]).
  assert (Hw := queue_links_writes (u32 d) l (o_addr o) (io_links s)).
  split; cycle 1.
  { eapply writes_mono; [|exact Hw]. intros a (o' & -> & ? & _)%Hl. by apply list_elem_of_fmap_2. }
  assert (Hinj : forall o1 o2, o1 ∈ os ++ [o] -> o2 ∈ os -> o_addr o1 = o_addr o2 -> o1 = o2).
  { intros o1 o2 Ho1 Ho2 Heq. apply elem_of_app in Ho1 as [Ho1|Ho1]; [by apply (distinct_inj os)|].
    apply list_elem_of_singleton in Ho1 as ->. exfalso. apply (Hne o2 o); [done|set_solver|done]. }
  split_and!.
  - intros ty' d' Hd'. simpl. rewrite addrs_of_snoc. destruct (decide (o_type o = ty')) as [<-|Hty].
    + rewrite fn_lookup_insert. split; [done|]. apply queue_links_cousins; try done.
      by apply addrs_of_distinct.
    + rewrite fn_lookup_insert_ne, app_nil_r by done. destruct (Hends ty' d' Hd') as [He Hc].
      split; [done|]. eapply cousins_writes; [exact Hw| |exact Hc].
      intros a (o2 & -> & Ho2 & Ht2)%addrs_of_in (o1 & Heq & Ho1 & Ht1)%Hl.
      rewrite (Hinj o1 o2) in Ht1 by done. congruence.
  - intros o' d' Ho' Hd'. simpl. rewrite queue_links_depth.
    apply elem_of_app in Ho' as [Ho'|Ho'%list_elem_of_singleton].
    + rewrite decide_False; [by apply Hdepth|]. intros Heq. apply (Hne o' o); [done|set_solver|done].
    + subst o'. rewrite decide_True by done. congruence.
  - intros o' Ho'. simpl. rewrite (proj1 Hw); [apply Hpend; set_solver|].
    intros [Heq|(o2 & Heq & Ho2 & _)%addrs_of_in]%elem_of_cons.
    + apply Hop. rewrite <- Heq. by apply list_elem_of_fmap_2.
    + apply (Hne o2 o'); [done|set_solver|done].
Qed.

Lemma io_queued_writes w os pend s st :
  writes w (io_links s) st -> (forall o, o ∈ os ++ pend -> o_addr o ∉ w) ->
  io_queued os pend s -> io_queued os pend (mk_io st (io_ends s)).
Proof.
  intros Hw Hn (Hends & Hdepth & Hpend). split_and!.
  - intros ty d Hd. destruct (Hends ty d Hd) as [He Hc]. split; [done|].
    eapply cousins_writes; [exact Hw| |exact Hc].
    intros a (o & -> & Ho & _)%addrs_of_in. apply Hn. set_solver.
  - intros o d Ho Hd. simpl. rewrite (proj1 Hw) by (apply Hn; set_solver). by apply Hdepth.
  - intros o Ho. simpl. rewrite (proj1 Hw) by (apply Hn; set_solver). by apply Hpend.
Qed.

Definition ios (os : list (hwloc_obj B)) : list (hwloc_obj B) := filter (fun o => is_io o = true) os.

Lemma ios_cons o os : ios (o :: os) = if is_io o then o :: ios os else ios os.
Proof. unfold ios. rewrite filter_cons. by destruct (is_io o). Qed.

Lemma ios_app os os' : ios (os ++ os') = ios os ++ ios os'.
Proof. apply filter_app. Qed.

Lemma append_iodevs_flat t s :
  append_iodevs t s = foldl (fun s o => append_iodev o s) s (tree_objs t).
Proof.
  revert s. induction t as [o ch IH] using obj_tree_ind'. intros s. rewrite tree_objs_node.
  cbn [append_iodevs foldl]. generalize (append_iodev o s). clear s.
  induction IH as [|c ch Hc _ IH]; intros s; [done|].
  rewrite forest_objs_cons, foldl_app. simpl. by rewrite Hc, IH.
Qed.

(** Objects that no level holds. *)
Definition aside o : bool := is_io o || bool_decide (o_type o = HWLOC_OBJ_MISC).

(** Which of them [hwloc_level_filter_object] queues, and what it returns. *)
Fixpoint queued t : list (hwloc_obj B) :=
  let 'Node o ch := t in
  if hwloc_obj_type_is_io (o_type o) then ios (tree_objs t)
  else if negb (bool_decide (o_type o = HWLOC_OBJ_MISC)) then []
  else concat (map queued ch).

Fixpoint candidates t : list (obj_tree B) :=
  let 'Node o ch := t in
  if hwloc_obj_type_is_io (o_type o) then []
  else if negb (bool_decide (o_type o = HWLOC_OBJ_MISC)) then [t]
  else concat (map candidates ch).

Lemma level_count_candidates t : level_count_object t = length (candidates t).
Proof.
  induction t as [o ch IH] using obj_tree_ind'. simpl.
  destruct (hwloc_obj_type_is_io (o_type o)); [done|].
  destruct (bool_decide (o_type o = HWLOC_OBJ_MISC)); [|done]. simpl.
  induction IH as [|c ch Hc _ IH]; [done|]. simpl. by rewrite length_app, Hc, IH.
Qed.

Section Queue.
Context (all : list (hwloc_obj B)) (Hall : distinct all).

(** The addresses that queueing I/O objects writes to. *)
Definition aside_addrs : list Z := map o_addr (filter (fun o => aside o = true) all).

Definition queue_inv (os pend : list (hwloc_obj B)) (s : io_state) : Prop :=
  io_queued os pend s /\ distinct (os ++ pend) /\
  forall o, o ∈ os ++ pend -> o ∈ all /\ is_io o = true.

Lemma queue_inv_perm os pend pend' s : pend ≡ₚ pend' -> queue_inv os pend s -> queue_inv os pend' s.
Proof.
  intros Hp ((H1 & H2 & H3) & Hd & Hin). split_and!; [split_and!; [done..|]| |].
  - intros o Ho. apply H3. by rewrite Hp.
  - eapply distinct_perm; [|exact Hd]. by rewrite Hp.
  - intros o Ho. apply Hin. by rewrite Hp.
Qed.

Lemma aside_addr o : o ∈ all -> aside o = true -> o_addr o ∈ aside_addrs.
Proof. intros Ho Ha. apply list_elem_of_fmap_2, list_elem_of_filter. done. Qed.

Lemma append_iodev_inv os pend o s :
  queue_inv os (o :: pend) s ->
  queue_inv (os ++ [o]) pend (append_iodev o s) /\
  writes aside_addrs (io_links s) (io_links (append_iodev o s)).
Proof.
  intros (Hq & Hd & Hin). destruct (Hin o) as [_ Hio]; [set_solver|].
  destruct (append_iodev_ok os pend o s Hio Hd Hq) as [Hq' Hw]. split_and!.
  - split_and!; [done|by rewrite <- app_assoc|]. intros o' Ho'. apply Hin. set_solver.
  - eapply writes_mono; [|exact Hw]. intros a (o' & -> & Ho')%list_elem_of_fmap.
    destruct (Hin o') as [? Hio']; [set_solver|]. apply aside_addr; [done|]. unfold aside. by rewrite Hio'.
Qed.

Lemma append_objs_inv l os pend s :
  queue_inv os (ios l ++ pend) s ->
  let s' := foldl (fun s o => append_iodev o s) s l in
  queue_inv (os ++ ios l) pend s' /\ writes aside_addrs (io_links s) (io_links s').
Proof.
  revert os s. induction l as [|o l IH]; intros os s Hq; simpl.
  { unfold ios. rewrite filter_nil, app_nil_r. done. }
  rewrite ios_cons in *. destruct (is_io o) eqn:Hio.
  - destruct (append_iodev_inv os (ios l ++ pend) o s Hq) as [Hq1 Hw1].
    destruct (IH _ _ Hq1) as [Hq2 Hw2]. rewrite <- app_assoc in Hq2. split; [done|].
    by eapply writes_trans.
  - assert (append_iodev o s = s) as ->; [|by apply IH].
    unfold append_iodev. unfold is_io in Hio. by destruct (o_type o).
Qed.

Lemma aside_write_inv os pend o f s :
  o ∈ all -> o_type o = HWLOC_OBJ_MISC -> queue_inv os pend s ->
  let s' := mk_io (upd (o_addr o) f (io_links s)) (io_ends s) in
  queue_inv os pend s' /\ writes aside_addrs (io_links s) (io_links s').
Proof.
  intros Ho Hm (Hq & Hd & Hin). split; cycle 1.
  { apply writes_upd, aside_addr; [done|]. unfold aside. rewrite Hm. by destruct (is_io o). }
  split_and!; [|done|done]. eapply io_queued_writes; [by apply (writes_upd (o_addr o) _ _ [o_addr o]); set_solver| |done].
  intros o' Ho' Heq%list_elem_of_singleton. destruct (Hin o' Ho') as [Hall' Hio].
  assert (o' = o) as -> by by apply (distinct_inj all). unfold is_io in Hio. by rewrite Hm in Hio.
Qed.

(** [f] on [s] returns [new] and queues [q]. *)
Definition filters (f : io_state -> list (obj_tree B) * io_state)
    (new : list (obj_tree B)) (q : list (hwloc_obj B)) : Prop :=
  forall os pend s, queue_inv os (q ++ pend) s ->
  exists s', f s = (new, s') /\ queue_inv (os ++ q) pend s' /\
    writes aside_addrs (io_links s) (io_links s').

Lemma filters_fold {X} (step : list (obj_tree B) -> io_state -> X -> list (obj_tree B) * io_state)
    (new : X -> list (obj_tree B)) (q : X -> list (hwloc_obj B)) (xs : list X) acc :
  (forall x acc, x ∈ xs -> filters (fun s => step acc s x) (acc ++ new x) (q x)) ->
  filters (fun s => foldl (fun '(acc, s) x => step acc s x) (acc, s) xs)
    (acc ++ concat (map new xs)) (concat (map q xs)).
Proof.
  revert acc. induction xs as [|x xs IH]; intros acc Hstep os pend s Hq; simpl.
  { exists s. by rewrite !app_nil_r. }
  simpl in Hq. rewrite <- app_assoc in Hq.
  destruct (Hstep x acc (list_elem_of_here _ _) os _ s Hq) as (s1 & -> & Hq1 & Hw1).
  destruct (IH (acc ++ new x) (fun y a Hy => Hstep y a (list_elem_of_further _ _ _ Hy)) _ _ s1 Hq1)
    as (s2 & -> & Hq2 & Hw2).
  exists s2. rewrite <- !app_assoc in *. split_and!; [done|done|]. by eapply writes_trans.
Qed.

Lemma filter_object_ok t :
  tree_objs t ⊆ all -> filters (hwloc_level_filter_object t) (candidates t) (queued t).
Proof.
  induction t as [o ch IH] using obj_tree_ind'. intros Hsub.
  unfold filters. intros os pend s. cbn [queued candidates hwloc_level_filter_object].
  destruct (hwloc_obj_type_is_io (o_type o)).
  { intros Hq. rewrite append_iodevs_flat. eexists. split; [done|]. by apply append_objs_inv. }
  destruct (bool_decide (o_type o = HWLOC_OBJ_MISC)) eqn:Hm; cbn [negb].
  2: { intros Hq. exists s. rewrite app_nil_r. done. }
  apply bool_decide_eq_true in Hm. rewrite tree_objs_node in Hsub.
  assert (Ho : o ∈ all) by (apply Hsub; set_solver).
  pose (step := fun (acc : list (obj_tree B)) s c => let '(objs, s) := hwloc_level_filter_object c s in
    (acc ++ objs, mk_io (upd (o_addr o) (set_depth (u32 HWLOC_TYPE_DEPTH_UNKNOWN)) (io_links s)) (io_ends s))).
  assert (Heq : forall (acc : list (obj_tree B)) s, foldl (fun '(new, s) filter_child =>
      let '(objs, s) := filter_child s in
      (new ++ objs, mk_io (upd (o_addr o) (set_depth (u32 HWLOC_TYPE_DEPTH_UNKNOWN)) (io_links s)) (io_ends s)))
      (acc, s) (map hwloc_level_filter_object ch) = foldl (fun '(acc, s) c => step acc s c) (acc, s) ch).
  { clear. induction ch as [|c ch IHc]; intros acc s; [done|]. simpl. unfold step at 2.
    destruct (hwloc_level_filter_object c s). apply IHc. }
  rewrite Heq. apply (filters_fold step candidates queued ch []).
  intros c acc Hc os' pend' s' Hq. unfold step.
  destruct (proj1 (Forall_forall _ _) IH c Hc) with (os := os') (pend := pend') (s := s')
    as (s1 & -> & Hq1 & Hw1); [|done|].
  { intros x Hx. apply Hsub. apply elem_of_cons. right. apply elem_of_forest_objs. eauto. }
  destruct (aside_write_inv _ _ o (set_depth (u32 HWLOC_TYPE_DEPTH_UNKNOWN)) s1 Ho Hm Hq1) as [Hq2 Hw2].
  eexists. split_and!; [done|done|]. by eapply writes_trans.
Qed.

Lemma not_filtered objs :
  existsb filtered_out objs = false ->
  concat (map candidates objs) = objs /\ concat (map queued objs) = [].
Proof.
  induction objs as [|[o ch] objs IH]; [done|]. cbn [existsb map concat].
  rewrite orb_false_iff. intros [Hf Hfs]. destruct (IH Hfs) as [-> ->].
  unfold filtered_out, t_type in Hf. simpl in Hf. apply orb_false_iff in Hf as [Hio Hm].
  cbn [candidates queued]. by rewrite Hio, Hm.
Qed.

Lemma filter_objects_ok objs os pend s :
  forest_objs objs ⊆ all -> queue_inv os (concat (map queued objs) ++ pend) s ->
  exists s', hwloc_level_filter_objects objs s = Some (concat (map candidates objs), s') /\
    queue_inv (os ++ concat (map queued objs)) pend s' /\
    writes aside_addrs (io_links s) (io_links s').
Proof.
  intros Hsub Hq. unfold hwloc_level_filter_objects.
  destruct (existsb filtered_out objs) eqn:Hf; simpl.
  2: { apply not_filtered in Hf as [Hc Hn]. rewrite Hc, Hn in *. exists s. rewrite app_nil_r. done. }
  pose (step := fun (acc : list (obj_tree B)) s c => let '(os, s) := hwloc_level_filter_object c s in
                               (acc ++ os, s)).
  destruct (filters_fold step candidates queued objs []) with (os := os) (pend := pend) (s := s)
    as (s' & Heq & Hq' & Hw); [|done|].
  { intros t acc Ht os' pend' s1 Hq1. unfold step.
    destruct (filter_object_ok t) with (os := os') (pend := pend') (s := s1) as (s2 & -> & ?); [|done|eauto].
    intros x Hx. apply Hsub, elem_of_forest_objs. eauto. }
  exists s'. unfold step in Heq. rewrite Heq. split; [|done]. simpl app.
  assert ((length (concat (map candidates objs)) <=? list_sum (map level_count_object objs))%nat = true) as ->; [|done].
  apply Nat.leb_le. clear. induction objs as [|t objs IH]; [done|]. simpl.
  rewrite length_app, level_count_candidates. lia.
Qed.

End Queue.
(** ** [hwloc_build_level_from_list] *)

Lemma build_list_ok fuel l i st :
  (forall j a, l !! j = Some a -> is_Some (st !! a) /\ next_cousin (links st a) = l !! S j) ->
  NoDup l -> (length l <= fuel)%nat ->
  exists st', hwloc_build_level_from_list fuel (head l) i st = Some (l, st') /\ writes l st st' /\
    forall j a, l !! j = Some a -> links st' a = set_logical_index (i + Z.of_nat j) (links st a).
Proof.
  revert l i st. induction fuel as [|fuel IH]; intros [|a l] i st Hc Hnd Hf; simpl in Hf;
    [eexists; done|lia|eexists; done|].
  apply NoDup_cons in Hnd as [Ha Hnd]. destruct (Hc 0%nat a eq_refl) as [Hlive Hnext].
  destruct (IH l (i + 1) (upd a (set_logical_index i) st)) as (st' & Hb & Hw & Hl).
  - intros j b Hb. destruct (Hc (S j) b Hb) as [? Hn]. split; [by apply upd_live|].
    rewrite links_upd_ne; [done|]. intros ->. apply Ha. by eapply list_elem_of_lookup_2.
  - done.
  - lia.
  - exists st'. simpl. rewrite (links_live st a Hlive). simpl. rewrite Hnext. change ((a :: l) !! 1%nat) with (l !! 0%nat).
    rewrite <- head_lookup, Hb. split_and!; [done| |].
    + apply (writes_upd_then a (set_logical_index i)); [set_solver|]. eapply writes_mono; [|done]. set_solver.
    + intros [|j] b Hj; simpl in Hj.
      * injection Hj as <-. rewrite (proj1 Hw) by done. rewrite links_upd. f_equal. lia.
      * rewrite (Hl j b Hj). rewrite links_upd_ne; [f_equal; lia|].
        intros ->. apply Ha. by eapply list_elem_of_lookup_2.
Qed.

Lemma live_length (st : links_store) (l : list Z) :
  NoDup l -> (forall a, a ∈ l -> is_Some (st !! a)) -> (length l <= size st)%nat.
Proof.
  intros Hnd Hl. rewrite <- (size_dom (D := gset Z) st).
  replace (length l) with (size (list_to_set l : gset Z)) by by apply size_list_to_set.
  apply subseteq_size. intros a Ha. apply elem_of_dom, Hl. by apply elem_of_list_to_set in Ha.
Qed.

End Ok.
