(* ===== verification/LevelsLoop.v ===== *)
(** * LevelsLoop: the levels partition the hierarchy

    The loop of [hwloc_connect_levels]: its invariant [loop_inv], that a turn
    keeps it, and what holds when no candidate object is left. *)

From stdpp Require Import gmap functions.
From S2P Require Import Prelude Cpuset Obj ObjCmp CleanOk Levels LevelsOk.

(** ** What the levels hold *)

Section Spec.
Context {B : Type} `{CpusetOps B}.
Implicit Types t u : obj_tree B.
Implicit Types objs : list (obj_tree B).

(** The objects that belong to levels, parents first: neither I/O, nor Misc,
    nor below an I/O object. *)
Fixpoint level_nodes t : list (obj_tree B) :=
  let 'Node o ch := t in
  if hwloc_obj_type_is_io (o_type o) then []
  else (if bool_decide (o_type o = HWLOC_OBJ_MISC) then [] else [t]) ++ concat (map level_nodes ch).
Definition forest_level_nodes objs : list (obj_tree B) := concat (map level_nodes objs).

(** Objects of one level: same type, and same attribute depth for the caches
    and the groups. *)
Definition level_kind t : hwloc_obj_type_t * Z := (t_type t, attr_depth (t_type t) (attr (t_obj t))).

Definition homogeneous (l : list (obj_tree B)) : Prop :=
  l <> [] /\ forall t u, t ∈ l -> u ∈ l -> level_kind t = level_kind u.

(** The depths of the levels of a type, and what [type_depth] must tell. *)
Definition level_is (ty : hwloc_obj_type_t) (l : list (obj_tree B)) : bool :=
  match l with [] => false | t :: _ => bool_decide (t_type t = ty) end.

Fixpoint depths_from (d : Z) (ty : hwloc_obj_type_t) (lv : list (list (obj_tree B))) : list Z :=
  match lv with
  | [] => []
  | l :: lv => (if level_is ty l then [d] else []) ++ depths_from (d + 1) ty lv
  end.

Definition type_depth_spec (ty : hwloc_obj_type_t) (lv : list (list (obj_tree B))) : Z :=
  match depths_from 0 ty lv with
  | [] => HWLOC_TYPE_DEPTH_UNKNOWN
  | [d] => d
  | _ => HWLOC_TYPE_DEPTH_MULTIPLE
  end.

(** The objects of a level as the links describe it. *)
Definition level_linked (st : links_store) (d : Z) (l : list (obj_tree B)) : Prop :=
  forall i t, l !! i = Some t ->
    let k := links st (t_addr t) in
    depth k = d /\ logical_index k = Z.of_nat i /\
    next_cousin k = t_addr <$> l !! S i /\
    prev_cousin k = (if decide (i = 0%nat) then None else t_addr <$> l !! (i - 1)%nat).

Definition placed t : Prop := filtered_out t = false.

Lemma level_nodes_placed o ch :
  placed (Node o ch) -> level_nodes (Node o ch) = Node o ch :: forest_level_nodes ch.
Proof.
  unfold placed, filtered_out, t_type. simpl. rewrite orb_false_iff. by intros [-> ->].
Qed.

Lemma forest_level_nodes_app ts us :
  forest_level_nodes (ts ++ us) = forest_level_nodes ts ++ forest_level_nodes us.
Proof. unfold forest_level_nodes. by rewrite List.map_app, List.concat_app. Qed.

Lemma forest_level_nodes_cons t ts :
  forest_level_nodes (t :: ts) = level_nodes t ++ forest_level_nodes ts.
Proof. done. Qed.

Lemma forest_level_nodes_concat tss :
  forest_level_nodes (concat tss) = concat (map forest_level_nodes tss).
Proof. induction tss as [|ts tss IH]; [done|]. simpl. by rewrite forest_level_nodes_app, IH. Qed.

Lemma concat_map_ext {X Y} (f g : X -> list Y) (xs : list X) :
  Forall (fun x => f x = g x) xs -> concat (map f xs) = concat (map g xs).
Proof. induction 1 as [|x xs Hx _ IH]; [done|]. simpl. by rewrite Hx, IH. Qed.

(** Filtering loses no object of a level. *)
Lemma candidates_level_nodes t : forest_level_nodes (candidates t) = level_nodes t.
Proof.
  induction t as [o ch IH] using obj_tree_ind'. simpl.
  destruct (hwloc_obj_type_is_io (o_type o)) eqn:Hio; [done|].
  destruct (bool_decide (o_type o = HWLOC_OBJ_MISC)) eqn:Hm; simpl.
  - rewrite forest_level_nodes_concat, List.map_map. by apply concat_map_ext.
  - unfold forest_level_nodes at 1. simpl. by rewrite Hio, Hm, app_nil_r.
Qed.

Lemma candidates_placed t : Forall placed (candidates t).
Proof.
  induction t as [o ch IH] using obj_tree_ind'. simpl.
  destruct (hwloc_obj_type_is_io (o_type o)) eqn:Hio; [constructor|].
  destruct (bool_decide (o_type o = HWLOC_OBJ_MISC)) eqn:Hm; simpl.
  - apply Forall_concat. rewrite Forall_map. exact IH.
  - constructor; [|constructor]. unfold placed, filtered_out, t_type. simpl. by rewrite Hio, Hm.
Qed.

Lemma concat_map_perm_app {X Y} (f g h : X -> list Y) (xs : list X) :
  Forall (fun x => f x ≡ₚ g x ++ h x) xs ->
  concat (map f xs) ≡ₚ concat (map g xs) ++ concat (map h xs).
Proof.
  induction 1 as [|x xs Hx _ IH]; [done|]. simpl. rewrite Hx, IH, <- !app_assoc.
  apply Permutation_app_head. rewrite !app_assoc. apply Permutation_app_tail, Permutation_app_comm.
Qed.

Lemma ios_concat (oss : list (list (hwloc_obj B))) : ios (concat oss) = concat (map ios oss).
Proof. induction oss as [|os oss IH]; [done|]. simpl. by rewrite ios_app, IH. Qed.

Lemma ios_forest objs : ios (forest_objs objs) = concat (map (fun t => ios (tree_objs t)) objs).
Proof. unfold forest_objs. by rewrite ios_concat, List.map_map. Qed.

(** Nor an I/O object. *)
Lemma candidates_ios t : ios (tree_objs t) ≡ₚ queued t ++ ios (forest_objs (candidates t)).
Proof.
  induction t as [o ch IH] using obj_tree_ind'. cbn [queued candidates].
  destruct (hwloc_obj_type_is_io (o_type o)) eqn:Hio.
  { change (ios (forest_objs [])) with (@nil (hwloc_obj B)). by rewrite app_nil_r. }
  destruct (bool_decide (o_type o = HWLOC_OBJ_MISC)) eqn:Hm; simpl negb; cbv iota.
  2: { rewrite forest_objs_cons. change (forest_objs []) with (@nil (hwloc_obj B)). by rewrite app_nil_r. }
  rewrite tree_objs_node, ios_cons. unfold is_io. rewrite Hio, ios_forest, forest_objs_concat, ios_concat,
    !List.map_map. by apply concat_map_perm_app.
Qed.

Lemma candidates_ios_forest objs :
  ios (forest_objs objs) ≡ₚ
  concat (map queued objs) ++ ios (forest_objs (concat (map candidates objs))).
Proof.
  rewrite ios_forest, forest_objs_concat, ios_concat, !List.map_map.
  apply concat_map_perm_app, Forall_forall. intros t _. apply candidates_ios.
Qed.

Lemma candidates_forest objs :
  forest_level_nodes (concat (map candidates objs)) = forest_level_nodes objs /\
  Forall placed (concat (map candidates objs)).
Proof.
  split.
  - rewrite forest_level_nodes_concat, List.map_map. apply concat_map_ext, Forall_forall.
    intros t _. apply candidates_level_nodes.
  - apply Forall_concat. rewrite Forall_map. apply Forall_forall. intros t _. apply candidates_placed.
Qed.

(** ** Taking a level *)

Lemma same_type_kind t u : placed t -> placed u -> same_type t u = true <-> level_kind t = level_kind u.
Proof.
  unfold placed, filtered_out, same_type, level_kind, t_type. rewrite !orb_false_iff.
  intros [Ht _] [Hu _]. rewrite bool_decide_eq_true, type_cmp_eq by congruence.
  destruct (Z.compare_spec (hwloc_get_type_order (o_type (t_obj t))) (hwloc_get_type_order (o_type (t_obj u))))
    as [Heq|Hlt|Hgt].
  - apply type_order_inj in Heq. rewrite Heq. split.
    + destruct (Z.compare_spec (attr_depth (o_type (t_obj u)) (attr (t_obj u)))
        (attr_depth (o_type (t_obj u)) (attr (t_obj t)))); [congruence|done..].
    + intros [= ->]. by rewrite Z.compare_refl.
  - split; [done|]. intros [= Heq _]. rewrite Heq in Hlt. lia.
  - split; [done|]. intros [= Heq _]. rewrite Heq in Hgt. lia.
Qed.

Lemma topmost_object_in objs :
  objs <> [] -> exists top, topmost_object objs = Some top /\ top ∈ objs.
Proof.
  intros Hne. unfold topmost_object.
  assert (Hfirst : exists t, match find (fun t => negb (bool_decide (t_type t = HWLOC_OBJ_PU))) objs with
                  | Some t => Some t | None => head objs end = Some t /\ t ∈ objs).
  { destruct (find _ objs) as [t|] eqn:Hf.
    - exists t. split; [done|]. apply List.find_some in Hf as [Hf _]. by apply list_elem_of_In.
    - destruct objs as [|t objs']; [done|]. exists t. split; [done|set_solver]. }
  destruct Hfirst as (t & -> & Ht). simpl. eexists. split; [done|]. revert t Ht.
  assert (Hgen : forall xs t, xs ⊆ objs -> t ∈ objs -> foldl (fun top_obj t =>
      if negb (same_type top_obj t) then if find_same_type t (t_obj top_obj) then t else top_obj
      else top_obj) t xs ∈ objs).
  { induction xs as [|x xs IH]; intros t Hx Ht; [done|]. simpl. apply IH; [set_solver|].
    destruct (negb (same_type t x)); [|done]. destruct (find_same_type x (t_obj t)); [set_solver|done]. }
  intros. by apply Hgen.
Qed.

Lemma take_ok top objs :
  Forall placed objs -> placed top ->
  let '(taken, remaining) := hwloc_level_take_objects top objs in
  (forall t, t ∈ taken <-> t ∈ objs /\ level_kind top = level_kind t) /\
  forest_level_nodes objs ≡ₚ taken ++ forest_level_nodes remaining /\
  sublist taken (forest_level_nodes objs) /\
  sublist (forest_level_nodes remaining) (forest_level_nodes objs) /\
  ios (forest_objs remaining) = ios (forest_objs objs) /\
  sublist (forest_objs remaining) (forest_objs objs) /\
  (forall t m, t ∈ taken -> m ∈ forest_level_nodes (t_children t) -> m ∈ forest_level_nodes remaining).
Proof.
  intros Hpl Htop. induction Hpl as [|t objs Ht _ IH]; simpl.
  { split_and!; try done; intros t; [|by intros m ?%not_elem_of_nil].
    split; [by intros ?%not_elem_of_nil|by intros [?%not_elem_of_nil _]]. }
  destruct (hwloc_level_take_objects top objs) as [taken remaining].
  destruct IH as (Hin & Hp & Hs & Hr & Hio & Hso & Hm).
  assert (Hkind := same_type_kind top t Htop Ht). destruct t as [o ch].
  rewrite !forest_level_nodes_cons, level_nodes_placed by done.
  destruct (same_type top (Node o ch)).
  - cbn [t_children]. rewrite forest_level_nodes_app, forest_objs_app, !forest_objs_cons, tree_objs_node.
    split_and!.
    + intros u. rewrite !elem_of_cons, Hin. pose proof (proj1 Hkind eq_refl).
      split; [intros [->|[? ?]]; auto|intros [[->|?] ?]; auto].
    + rewrite Hp. simpl. apply Permutation_cons; [done|]. rewrite !app_assoc.
      apply Permutation_app_tail, Permutation_app_comm.
    + simpl. apply sublist_skip. by apply sublist_inserts_l.
    + simpl. apply sublist_cons. by apply sublist_app.
    + simpl. rewrite ios_cons, !ios_app, Hio. unfold is_io.
      unfold placed, filtered_out, t_type in Ht. simpl in Ht. apply orb_false_iff in Ht as [-> _]. done.
    + simpl. apply sublist_cons. by apply sublist_app.
    + intros u m [->|Hu]%elem_of_cons Hmu; apply elem_of_app; [by left|right; eauto].
  - rewrite !forest_level_nodes_cons, level_nodes_placed, !forest_objs_cons by done. split_and!.
    + intros u. rewrite Hin, elem_of_cons. split; [intros [? ?]; auto|]. intros [[->|?] ?]; [|done].
      exfalso. enough (false = true) by done. by apply Hkind.
    + rewrite Hp. rewrite !app_assoc. by rewrite (Permutation_app_comm taken).
    + by apply sublist_inserts_l.
    + by apply sublist_app.
    + by rewrite !ios_app, Hio.
    + by apply sublist_app.
    + intros u m Hu Hmu. apply elem_of_app. right. eauto.
Qed.

(** ** Numbering a level *)

Lemma number_level_ok d i prev (taken : list (obj_tree B)) st :
  NoDup (map t_addr taken) -> (forall p, prev = Some p -> p ∉ map t_addr taken) ->
  let st' := number_level d i prev taken st in
  (forall j t, taken !! j = Some t ->
     let k := links st' (t_addr t) in
     depth k = d /\ logical_index k = i + Z.of_nat j /\ next_cousin k = t_addr <$> taken !! S j /\
     prev_cousin k = (if decide (j = 0%nat) then prev else t_addr <$> taken !! (j - 1)%nat)) /\
  writes (option_list prev ++ map t_addr taken) st st' /\
  (forall p, prev = Some p -> links st' p = set_next_cousin (t_addr <$> head taken) (links st p)).
Proof.
  revert i prev st. induction taken as [|t taken IH]; intros i prev st Hnd Hprev; cbn [number_level].
  { split_and!; [done| |].
    - destruct prev; [apply writes_upd; set_solver|apply writes_refl].
    - intros p ->. by rewrite links_upd. }
  rewrite map_cons, NoDup_cons in Hnd. destruct Hnd as [Ht Hnd].
  set (a := t_addr t) in *. set (st1 := upd a (set_prev_cousin prev) _).
  set (st2 := match prev with Some p => _ | None => st1 end).
  destruct (IH (i + 1) (Some a) st2 Hnd) as (Hl & Hw & Hp); [by intros p [= <-]|].
  specialize (Hp a eq_refl). set (st' := number_level d (i + 1) (Some a) taken st2) in *.
  assert (Hne : forall p, prev = Some p -> p <> a /\ p ∉ map t_addr taken).
  { intros p Hpp. specialize (Hprev p Hpp). rewrite map_cons, not_elem_of_cons in Hprev. done. }
  assert (Ha2 : links st2 a = links st1 a).
  { unfold st2. destruct prev as [p|]; [|done]. rewrite links_upd_ne; [done|]. intros ->. by destruct (Hne p). }
  split_and!.
  - intros [|j] u Hu; simpl in Hu.
    + injection Hu as <-. fold a. rewrite Hp, Ha2. unfold st1. rewrite !links_upd. simpl.
      rewrite head_lookup. split_and!; [done|lia|done|done].
    + destruct (Hl j u Hu) as (-> & -> & -> & ->). split_and!; [done|lia|done|].
      destruct j; simpl; [done|]. by rewrite Nat.sub_0_r.
  - rewrite map_cons. apply (writes_trans _ _ st2); [|eapply writes_mono; [|exact Hw]; fold a; simpl; set_solver].
    apply (writes_trans _ _ st1).
    + assert (Ha : a ∈ option_list prev ++ a :: map t_addr taken) by set_solver.
      apply (writes_upd_then a (set_depth d)), (writes_upd_then a (set_logical_index i)), writes_upd; done.
    + unfold st2. destruct prev; [apply writes_upd; set_solver|apply writes_refl].
  - intros p Hpp. destruct (Hne p Hpp) as [Hpa Hpt]. rewrite (proj1 Hw) by (simpl; set_solver).
    unfold st2. rewrite Hpp, links_upd. unfold st1. by rewrite !links_upd_ne by done.
Qed.

Lemma level_linked_writes w st st' d l :
  writes w st st' -> (forall t, t ∈ l -> t_addr t ∉ w) -> level_linked st d l -> level_linked st' d l.
Proof.
  intros Hw Hn Hl i t Hi. rewrite (proj1 Hw) by (apply Hn; by eapply list_elem_of_lookup_2).
  by apply Hl.
Qed.

(** ** Depths of types *)

Lemma depths_from_snoc d ty lv l :
  depths_from d ty (lv ++ [l]) =
  depths_from d ty lv ++ (if level_is ty l then [d + Z.of_nat (length lv)] else []).
Proof.
  revert d. induction lv as [|x lv IH]; intros d; simpl.
  - rewrite app_nil_r. by destruct (level_is ty l); rewrite ?Z.add_0_r.
  - rewrite IH, <- app_assoc. do 3 f_equal. destruct (level_is ty l); [|done]. f_equal. lia.
Qed.

Lemma depths_from_nonneg d ty lv x : 0 <= d -> x ∈ depths_from d ty lv -> 0 <= x.
Proof.
  revert d. induction lv as [|l lv IH]; intros d Hd; simpl; [by intros ?%not_elem_of_nil|].
  intros [Hx|Hx]%elem_of_app; [|apply (IH (d + 1)); [lia|done]].
  destruct (level_is ty l); [apply list_elem_of_singleton in Hx; lia|by apply not_elem_of_nil in Hx].
Qed.

Lemma type_depth_snoc ty lv l :
  type_depth_spec ty (lv ++ [l]) =
  if level_is ty l then
    if type_depth_spec ty lv =? HWLOC_TYPE_DEPTH_UNKNOWN then Z.of_nat (length lv)
    else HWLOC_TYPE_DEPTH_MULTIPLE
  else type_depth_spec ty lv.
Proof.
  unfold type_depth_spec. rewrite depths_from_snoc.
  destruct (level_is ty l); [|by rewrite app_nil_r].
  destruct (depths_from 0 ty lv) as [|x [|y ds]] eqn:Hd; [done| |done].
  assert (Hx : 0 <= x) by (apply (depths_from_nonneg 0 ty lv); [lia|rewrite Hd; set_solver]).
  simpl. destruct (Z.eqb_spec x HWLOC_TYPE_DEPTH_UNKNOWN) as [->|]; [|done].
  unfold HWLOC_TYPE_DEPTH_UNKNOWN in Hx. lia.
Qed.

End Spec.

(** ** The loop *)

Section Loop.
Context {B : Type} `{CpusetOps B} (root : obj_tree B).
Implicit Types t u : obj_tree B.
Implicit Types objs : list (obj_tree B).

(** What the levels built so far and the candidates left make together. *)
Record levels_partial (lv : list (list (obj_tree B))) (rest : list (obj_tree B)) : Prop := {
  part_perm : concat lv ++ rest ≡ₚ level_nodes root;
  part_order : Forall (fun l => sublist l (level_nodes root)) lv;
  part_homogeneous : Forall homogeneous lv;
  (** an object is above the objects below it *)
  part_below : forall d l n m, lv !! d = Some l -> n ∈ l -> m ∈ forest_level_nodes (t_children n) ->
    m ∈ rest \/ exists d' l', (d < d')%nat /\ lv !! d' = Some l' /\ m ∈ l';
}.

Record loop_inv objs (ls : level_state (B := B)) : Prop := {
  inv_placed : Forall placed objs;
  inv_partial : levels_partial (levels ls) (forest_level_nodes objs);
  inv_head : head (levels ls) = Some [root];
  inv_rest : sublist (forest_level_nodes objs) (level_nodes root);
  inv_objs : forest_objs objs ⊆ tree_objs root;
  inv_types : forall ty, io_depth ty = None -> type_depth ls ty = type_depth_spec ty (levels ls);
  inv_io_types : forall ty d, io_depth ty = Some d -> type_depth ls ty = d;
  inv_io : exists os, queue_inv (tree_objs root) os (ios (forest_objs objs)) (ls_io ls) /\
    os ++ ios (forest_objs objs) ≡ₚ ios (tree_objs root);
  inv_links : forall d l, levels ls !! d = Some l ->
    level_linked (io_links (ls_io ls)) (Z.of_nat d) l;
}.

Context (Hdistinct : distinct (tree_objs root)).

Lemma level_nodes_in t u : u ∈ level_nodes t -> placed u /\ t_obj u ∈ tree_objs t.
Proof.
  induction t as [o ch IH] using obj_tree_ind'. simpl.
  destruct (hwloc_obj_type_is_io (o_type o)) eqn:Hio; [by intros ?%not_elem_of_nil|].
  intros [Hu|Hu]%elem_of_app.
  - destruct (bool_decide (o_type o = HWLOC_OBJ_MISC)) eqn:Hm; [by apply not_elem_of_nil in Hu|].
    apply list_elem_of_singleton in Hu as ->. split; [|set_solver].
    unfold placed, filtered_out, t_type. simpl. by rewrite Hio, Hm.
  - apply list_elem_of_In, in_concat in Hu as (l & (c & <- & Hc)%in_map_iff & Hu).
    apply list_elem_of_In in Hu, Hc. destruct (proj1 (Forall_forall _ _) IH c Hc Hu). split; [done|].
    apply elem_of_cons. right. apply elem_of_forest_objs. eauto.
Qed.

(** Objects of levels have distinct addresses. *)
Lemma level_addrs l : sublist l (level_nodes root) -> NoDup (map t_addr l).
Proof.
  intros Hs. change t_addr with (fun t => o_addr (B := B) (t_obj t)).
  rewrite <- (List.map_map t_obj o_addr). change (distinct (map t_obj l)).
  eapply distinct_sublist; [|exact Hdistinct]. etrans; [exact (fmap_sublist t_obj _ _ Hs)|].
  clear. induction root as [o ch IH] using obj_tree_ind'. simpl.
  destruct (hwloc_obj_type_is_io (o_type o)); [apply sublist_nil_l|]. rewrite fmap_app.
  assert (Hch : sublist (t_obj <$> concat (map level_nodes ch)) (concat (map tree_objs ch))).
  { induction IH as [|c ch Hc _ IHch]; [done|]. simpl. rewrite fmap_app. by apply sublist_app. }
  destruct (bool_decide _); [by apply sublist_cons|by apply sublist_skip].
Qed.

Lemma level_addr_inj t u :
  t ∈ level_nodes root -> u ∈ level_nodes root -> t_addr t = t_addr u -> t = u.
Proof.
  intros Ht Hu Heq. apply list_elem_of_lookup in Ht as [i Hi], Hu as [j Hj].
  assert (Hnd := level_addrs _ (reflexivity (level_nodes root))).
  change (NoDup (t_addr <$> level_nodes root)) in Hnd.
  assert (i = j) as ->; [|congruence].
  eapply NoDup_lookup; [exact Hnd| |]; rewrite list_lookup_fmap; [by rewrite Hi|rewrite Hj; simpl; by f_equal].
Qed.

Lemma level_not_aside t : t ∈ level_nodes root -> t_addr t ∉ aside_addrs (tree_objs root).
Proof.
  intros Ht (o & Heq & Ho)%list_elem_of_fmap. apply list_elem_of_filter in Ho as [Ha Ho].
  destruct (level_nodes_in root t Ht) as [Hp Hin].
  assert (o = t_obj t) as -> by by apply (distinct_inj (tree_objs root)).
  unfold placed, filtered_out, t_type in Hp. unfold aside, is_io in Ha. congruence.
Qed.

Lemma partial_in lv rest l t : levels_partial lv rest -> l ∈ lv -> t ∈ l -> t ∈ level_nodes root.
Proof.
  intros Hp Hl Ht. eapply elem_of_sublist; [exact Ht|].
  by apply (proj1 (Forall_forall _ _) (part_order _ _ Hp)).
Qed.

Lemma candidates_objs objs : sublist (forest_objs (concat (map candidates objs))) (forest_objs objs).
Proof.
  assert (Ht : forall t, sublist (forest_objs (candidates t)) (tree_objs t)).
  { intros t. induction t as [o ch IH] using obj_tree_ind'. cbn [candidates].
    destruct (hwloc_obj_type_is_io (o_type o)); [apply sublist_nil_l|].
    destruct (negb (bool_decide (o_type o = HWLOC_OBJ_MISC))).
    - rewrite forest_objs_cons. change (forest_objs []) with (@nil (hwloc_obj B)). rewrite app_nil_r. reflexivity.
    - rewrite tree_objs_node. apply sublist_cons. rewrite forest_objs_concat, List.map_map.
      unfold forest_objs. clear -IH. induction IH as [|c ch Hc _ IHch]; [done|]. simpl. by apply sublist_app. }
  rewrite forest_objs_concat, List.map_map. unfold forest_objs.
  induction objs as [|t objs IH]; [done|]. simpl. apply sublist_app; [apply Ht|done].
Qed.

(** A level is taken. *)
Lemma partial_step lv objs taken remaining :
  levels_partial lv (forest_level_nodes objs) ->
  sublist (forest_level_nodes objs) (level_nodes root) -> homogeneous taken ->
  forest_level_nodes objs ≡ₚ taken ++ forest_level_nodes remaining ->
  sublist taken (forest_level_nodes objs) ->
  (forall t m, t ∈ taken -> m ∈ forest_level_nodes (t_children t) -> m ∈ forest_level_nodes remaining) ->
  levels_partial (lv ++ [taken]) (forest_level_nodes remaining).
Proof.
  intros [Hperm Hord Hhom Hbelow] Hrest Ht Hp Hs Hm. constructor.
  - rewrite List.concat_app. simpl. by rewrite app_nil_r, <- app_assoc, <- Hp.
  - apply Forall_app. split; [done|]. constructor; [by etrans|constructor].
  - apply Forall_app. split; [done|]. by constructor.
  - intros d l n m Hd Hn Hmn. apply lookup_app_Some in Hd as [Hd|[Hlen Hd]].
    + destruct (Hbelow d l n m Hd Hn Hmn) as [Hin|(d' & l' & Hlt & Hl' & Hin)].
      * rewrite Hp in Hin. apply elem_of_app in Hin as [Hin|Hin]; [right|by left].
        exists (length lv), taken. split_and!; [by apply lookup_lt_Some in Hd| |done].
        by rewrite lookup_app_r, Nat.sub_diag by lia.
      * right. exists d', l'. split_and!; [done| |done]. by apply lookup_app_l_Some.
    + apply list_lookup_singleton_Some in Hd as [_ <-]. left. eauto.
Qed.

(** What numbering does to the links. *)
Lemma links_step lv (taken : list (obj_tree B)) rest st w st' :
  levels_partial (lv ++ [taken]) rest ->
  (forall d l, lv !! d = Some l -> level_linked st (Z.of_nat d) l) ->
  writes w (number_level (Z.of_nat (length lv)) 0 None taken st) st' ->
  (forall t, t ∈ level_nodes root -> t_addr t ∉ w) ->
  forall d l, (lv ++ [taken]) !! d = Some l -> level_linked st' (Z.of_nat d) l.
Proof.
  intros Hpart Hold Hw Haside d l Hl.
  assert (Hin : forall t, t ∈ l -> t ∈ level_nodes root).
  { intros t. apply (partial_in _ _ _ _ Hpart). by eapply list_elem_of_lookup_2. }
  assert (Hsub := part_order _ _ Hpart). apply Forall_app in Hsub as [_ Hsub]. rewrite Forall_singleton in Hsub.
  destruct (number_level_ok (Z.of_nat (length lv)) 0 None taken st (level_addrs _ Hsub))
    as (Hnum & Hwn & _); [done|]. simpl in Hwn.
  eapply level_linked_writes; [exact Hw|by auto|].
  apply lookup_app_Some in Hl as [Hl|[Hlen Hl]].
  - eapply level_linked_writes; [exact Hwn| |by apply Hold].
    intros t Ht (u & Heq & Hu)%list_elem_of_fmap.
    assert (Htu : t = u).
    { apply (level_addr_inj); [by auto| |done]. by eapply elem_of_sublist. }
    subst u. assert (Hnd : NoDup (concat (lv ++ [taken]) ++ rest)).
    { rewrite (part_perm _ _ Hpart). eapply NoDup_fmap_1. exact (level_addrs _ (reflexivity _)). }
    rewrite List.concat_app in Hnd. simpl in Hnd. rewrite app_nil_r, <- app_assoc in Hnd.
    apply NoDup_app in Hnd as (_ & Hnd & _). apply (Hnd t); [|set_solver].
    apply list_elem_of_In, in_concat. exists l. split; apply list_elem_of_In; [by eapply list_elem_of_lookup_2|done].
  - apply list_lookup_singleton_Some in Hl as [Heq <-].
    replace d with (length lv) by lia. intros i t Hi. exact (Hnum i t Hi).
Qed.

(** What the level takes leaves the queued I/O objects alone. *)
Lemma queue_step os objs (taken : list (obj_tree B)) s d :
  sublist taken (level_nodes root) ->
  queue_inv (tree_objs root) os (ios (forest_objs objs)) s ->
  queue_inv (tree_objs root) os (ios (forest_objs objs))
    (mk_io (number_level d 0 None taken (io_links s)) (io_ends s)).
Proof.
  intros Hs (Hq & Hd & Hin). split_and!; [|done|done].
  destruct (number_level_ok d 0 None taken (io_links s) (level_addrs _ Hs)) as (_ & Hw & _); [done|].
  eapply io_queued_writes; [exact Hw| |done]. simpl.
  intros o Ho (t & Heq & Ht)%list_elem_of_fmap. destruct (Hin o Ho) as [Hall Hio].
  assert (Htl : t ∈ level_nodes root) by by eapply elem_of_sublist.
  destruct (level_nodes_in root t Htl) as [Hp Hto].
  assert (o = t_obj t) as -> by by apply (distinct_inj (tree_objs root)).
  unfold placed, filtered_out, t_type in Hp. unfold is_io in Hio. rewrite Hio in Hp. done.
Qed.

Lemma type_depth_step (ls : level_state (B := B)) (top : obj_tree B) (taken : list (obj_tree B)) ty :
  homogeneous taken -> (forall t, t ∈ taken -> level_kind top = level_kind t) ->
  placed top -> io_depth ty = None -> type_depth ls ty = type_depth_spec ty (levels ls) ->
  (if type_depth ls (t_type top) =? HWLOC_TYPE_DEPTH_UNKNOWN
   then <[t_type top := nb_levels ls]> (type_depth ls)
   else <[t_type top := HWLOC_TYPE_DEPTH_MULTIPLE]> (type_depth ls)) ty =
  type_depth_spec ty (levels ls ++ [taken]).
Proof.
  intros [Hne _] Hk Hp Hty Heq. rewrite type_depth_snoc. destruct taken as [|t taken]; [done|].
  assert (Ht : t_type t = t_type top).
  { specialize (Hk t (list_elem_of_here _ _)). unfold level_kind in Hk. congruence. }
  unfold level_is. rewrite Ht. unfold nb_levels.
  destruct (decide (t_type top = ty)) as [<-|Hne'].
  - rewrite bool_decide_true, <- Heq by done.
    destruct (_ =? _); by rewrite fn_lookup_insert.
  - rewrite bool_decide_false, <- Heq by done.
    destruct (_ =? _); by rewrite fn_lookup_insert_ne.
Qed.

Lemma build_level_ok objs ls :
  objs <> [] -> loop_inv objs ls ->
  if nb_levels ls <? HWLOC_DEPTH_MAX then
    exists objs' ls', build_level objs ls = Some (objs', ls') /\ loop_inv objs' ls' /\
      (length (forest_level_nodes objs') < length (forest_level_nodes objs))%nat
  else build_level objs ls = None.
Proof.
  intros Hne [Hpl Hpart Hhead Hrest Hobjs Hty Hioty (os & Hq & Hos) Hlinks]. unfold build_level.
  destruct (topmost_object_in objs Hne) as (top & -> & Htop). simpl.
  assert (Hptop : placed top) by by apply (proj1 (Forall_forall _ _) Hpl).
  pose proof (take_ok top objs Hpl Hptop) as Htake.
  destruct (hwloc_level_take_objects top objs) as [taken remaining].
  destruct Htake as (Htk & Hperm & Hs & Hsr & Hio & Hso & Hbelow).
  destruct (Z.ltb_spec (nb_levels ls) HWLOC_DEPTH_MAX) as [Hnb|Hnb]; [|done].
  assert (Hhom : homogeneous taken).
  { split; [intros ->; exact (not_elem_of_nil _ (proj2 (Htk top) (conj Htop eq_refl)))|].
    intros t u [_ Ht]%Htk [_ Hu]%Htk. congruence. }
  assert (Hpart' := partial_step _ objs taken remaining Hpart Hrest Hhom Hperm Hs Hbelow).
  rewrite <- Hio in Hq, Hos.
  assert (Hq1 := queue_step os remaining taken (ls_io ls) (nb_levels ls) (transitivity Hs Hrest) Hq).
  apply (queue_inv_perm _ _ _ _ _ (candidates_ios_forest remaining)) in Hq1.
  assert (Hsub : forest_objs remaining ⊆ tree_objs root).
  { intros o Ho. apply Hobjs. by eapply elem_of_sublist. }
  destruct (filter_objects_ok _ Hdistinct remaining os _ _ Hsub Hq1)
    as (s' & -> & Hq' & Hw).
  destruct (candidates_forest remaining) as [Hln Hpl'].
  do 2 eexists. split; [done|]. rewrite Hln. split.
  - constructor; simpl; rewrite ?Hln; try done.
    + by destruct (levels ls).
    + by etrans.
    + intros o Ho. apply Hobjs. eapply elem_of_sublist; [|exact Hso].
      eapply elem_of_sublist; [exact Ho|apply candidates_objs].
    + intros ty Hio'. apply type_depth_step; try done; [|by apply Hty]. by intros t [_ ?]%Htk.
    + intros ty d Hd. rewrite <- (Hioty ty d Hd).
      assert (t_type top <> ty).
      { intros <-. revert Hptop. unfold placed, filtered_out. by destruct (t_type top). }
      destruct (_ =? _); by rewrite fn_lookup_insert_ne.
    + eexists. split; [exact Hq'|]. rewrite <- app_assoc, <- candidates_ios_forest. done.
    + intros d l. apply (links_step _ _ _ _ _ _ Hpart' Hlinks Hw).
      intros t Ht. by apply level_not_aside.
  - rewrite Hperm, length_app. destruct taken; [by destruct Hhom|]. simpl. lia.
Qed.

(** The loop ends with all the objects placed, or finds [levels] full. *)
Lemma build_levels_ok fuel objs ls :
  loop_inv objs ls -> (length (forest_level_nodes objs) <= fuel)%nat ->
  (exists ls', build_levels fuel objs ls = Some ls' /\ loop_inv [] ls') \/
  (build_levels fuel objs ls = None /\
   exists lv rest, levels_partial lv rest /\ HWLOC_DEPTH_MAX <= Z.of_nat (length lv) /\ rest <> []).
Proof.
  revert objs ls. induction fuel as [|fuel IH]; intros [|t objs] ls Hinv Hfuel;
    try (left; exists ls; done).
  { exfalso. assert (Hp := inv_placed _ _ Hinv). apply Forall_cons in Hp as [Hp _]. destruct t as [o ch].
    rewrite forest_level_nodes_cons, level_nodes_placed in Hfuel by done. simpl in Hfuel. lia. }
  pose proof (build_level_ok (t :: objs) ls ltac:(done) Hinv) as Hstep. cbn [build_levels].
  destruct (Z.ltb_spec (nb_levels ls) HWLOC_DEPTH_MAX) as [Hnb|Hnb].
  - destruct Hstep as (objs' & ls' & -> & Hinv' & Hlen). simpl. apply IH; [done|lia].
  - rewrite Hstep. right. split; [done|]. exists (levels ls), (forest_level_nodes (t :: objs)).
    split_and!; [by apply inv_partial|done|].
    assert (Hp := inv_placed _ _ Hinv). apply Forall_cons in Hp as [Hp _]. destruct t as [o ch].
    by rewrite forest_level_nodes_cons, level_nodes_placed.
Qed.

Lemma level_nodes_size objs : (length (forest_level_nodes objs) <= forest_size objs)%nat.
Proof.
  assert (Ht : forall t, (length (level_nodes t) <= tree_size t)%nat).
  { intros t. induction t as [o ch IH] using obj_tree_ind'. rewrite tree_size_node. simpl.
    destruct (hwloc_obj_type_is_io (o_type o)); [simpl; lia|]. rewrite length_app.
    assert (length (concat (map level_nodes ch)) <= forest_size ch)%nat.
    { induction IH as [|c ch Hc _ IHch]; [done|]. rewrite forest_size_cons. simpl. rewrite length_app. lia. }
    destruct (bool_decide _); simpl; lia. }
  induction objs as [|t objs IH]; [done|].
  rewrite forest_level_nodes_cons, forest_size_cons, length_app. specialize (Ht t). lia.
Qed.

(** The links that [connect_levels] relies on: no I/O object has cousins yet. *)
Definition no_io_cousins (st : links_store) : Prop :=
  forall o, o ∈ tree_objs root -> is_io o = true ->
    next_cousin (links st (o_addr o)) = None /\ prev_cousin (links st (o_addr o)) = None.

Lemma level_nodes_root t : placed t -> level_nodes t = t :: forest_level_nodes (t_children t).
Proof. destruct t. apply level_nodes_placed. Qed.

Lemma tree_objs_root t : tree_objs t = t_obj t :: forest_objs (t_children t).
Proof. by destruct t. Qed.

Lemma tree_size_root t : tree_size t = S (forest_size (t_children t)).
Proof. destruct t. apply tree_size_node. Qed.

Lemma initial_type_depth_spec t ty :
  placed t -> io_depth ty = None -> initial_type_depth (t_type t) ty = type_depth_spec ty [[t]].
Proof.
  unfold placed, filtered_out, initial_type_depth, type_depth_spec. simpl.
  destruct (t_type t), ty; done.
Qed.

Lemma loop_start st :
  placed root -> no_io_cousins st -> level_linked st 0 [root] ->
  exists objs s, hwloc_level_filter_objects (t_children root) (mk_io st (fun _ => None)) = Some (objs, s) /\
    (length (forest_level_nodes objs) <= tree_size root)%nat /\
    loop_inv objs (mk_levels s [[root]] (initial_type_depth (t_type root))).
Proof.
  intros Hroot Hio Hlinked. assert (Hln0 := level_nodes_root root Hroot).
  assert (Htr := tree_objs_root root). set (ch := t_children root) in *.
  assert (Hios : ios (tree_objs root) ≡ₚ
    concat (map queued ch) ++ ios (forest_objs (concat (map candidates ch)))).
  { rewrite Htr, ios_cons. assert (is_io (t_obj root) = false) as ->; [|apply candidates_ios_forest].
    unfold placed, filtered_out in Hroot. by apply orb_false_iff in Hroot as [? _]. }
  destruct (filter_objects_ok (tree_objs root) Hdistinct ch []
    (ios (forest_objs (concat (map candidates ch)))) (mk_io st (fun _ => None)))
    as (s & Heq & Hq & Hw).
  { rewrite Htr. set_solver. }
  { apply (queue_inv_perm _ _ _ _ _ Hios). split_and!.
    - split_and!; [by intros ty d _; split; [|intros i a]|by intros ? ? ?%not_elem_of_nil|].
      intros o' [Ho' Hin]%list_elem_of_filter. exact (Hio o' Hin Ho').
    - eapply distinct_sublist; [apply sublist_filter|done].
    - intros o' [Ho' ?]%list_elem_of_filter. done. }
  destruct (candidates_forest ch) as [Hln Hpl].
  do 2 eexists. split; [exact Heq|]. rewrite Hln. split.
  { rewrite tree_size_root. fold ch. pose proof (level_nodes_size ch). lia. }
  constructor; simpl; rewrite ?Hln; try done.
  - constructor.
    + simpl. by rewrite Hln0.
    + constructor; [|constructor]. rewrite Hln0. apply sublist_skip, sublist_nil_l.
    + constructor; [|constructor]. split; [done|].
      by intros t u ->%list_elem_of_singleton ->%list_elem_of_singleton.
    + intros d l n m Hd Hn Hm. left. apply list_lookup_singleton_Some in Hd as [_ <-].
      apply list_elem_of_singleton in Hn as ->. done.
  - rewrite Hln0. apply sublist_cons. reflexivity.
  - intros o' Ho'. rewrite Htr. apply elem_of_cons. right.
    eapply elem_of_sublist; [exact Ho'|apply candidates_objs].
  - intros ty Hty. apply initial_type_depth_spec; done.
  - intros ty d Hd. unfold initial_type_depth. destruct ty; try done; by injection Hd as <-.
  - exists (concat (map queued ch)). by rewrite <- Hios.
  - intros d l Hl. apply list_lookup_singleton_Some in Hl as [-> <-].
    eapply level_linked_writes; [exact Hw| |exact Hlinked].
    intros t ->%list_elem_of_singleton. apply level_not_aside. rewrite Hln0. by left.
Qed.

End Loop.
