(* ===== verification/Connected.v ===== *)
(** * Connected: the state that [hwloc_connect_levels] leaves

    Which subtrees [hwloc_propagate_symmetric_subtree] marks: the code compares the
    children of an object along their first children only; on trees whose own children
    are symmetric that is enough to tell that the whole subtrees are identical.  Then
    the loop of LevelsLoop.v, the I/O lists of LevelsOk.v and the marks together. *)

From stdpp Require Import gmap functions.
From S2P Require Import Prelude Cpuset Obj ObjCmp CleanOk Levels LevelsOk LevelsLoop.

Section Sym.
Context {B : Type} `{CpusetOps B}.
Implicit Types t u : obj_tree B.

(** ** Shapes *)

(** A subtree with only the depths of its objects left. *)
Inductive shape := Shape (d : Z) (children : list shape).

Fixpoint shape_of (st : links_store) t : shape :=
  let 'Node o ch := t in Shape (depth (links st (o_addr o))) (map (shape_of st) ch).

(** All the objects of the subtree have identical children subtrees. *)
Definition balanced (st : links_store) t : Prop :=
  forall n c c', n ∈ tree_nodes t -> c ∈ t_children n -> c' ∈ t_children n ->
  shape_of st c = shape_of st c'.

(** Depths and arities along the first children. *)
Fixpoint profile (st : links_store) t : list (Z * Z) :=
  let 'Node o ch := t in
  (depth (links st (o_addr o)), Z.of_nat (length ch)) ::
  match ch with [] => [] | c :: _ => profile st c end.

Lemma child_node t c n : c ∈ t_children t -> n ∈ tree_nodes c -> n ∈ tree_nodes t.
Proof.
  destruct t as [o ch]. simpl. intros Hc Hn. apply elem_of_cons. right.
  induction Hc as [c ch|c d ch _ IH]; simpl; [set_solver|]. apply elem_of_app. right. auto.
Qed.

Lemma balanced_child st t c : balanced st t -> c ∈ t_children t -> balanced st c.
Proof. intros Hb Hc n x y Hn. apply Hb. by eapply child_node. Qed.

Lemma root_node t : t ∈ tree_nodes t.
Proof. destruct t. simpl. set_solver. Qed.

Lemma balanced_node st o ch :
  balanced st (Node o ch) <->
  Forall (balanced st) ch /\ forall c c', c ∈ ch -> c' ∈ ch -> shape_of st c = shape_of st c'.
Proof.
  split.
  - intros Hb. split; [|intros c c' Hc Hc'; by apply (Hb (Node o ch)); [apply root_node| |]].
    apply Forall_forall. intros c Hc. by apply (balanced_child st (Node o ch)).
  - intros [Hch Hs] n c c' [->|Hn]%elem_of_cons Hc Hc'; [by apply Hs|].
    apply list_elem_of_In, in_concat in Hn as (l & (x & <- & Hx)%in_map_iff & Hn).
    apply list_elem_of_In in Hx, Hn. by apply (proj1 (Forall_forall _ _) Hch x Hx n).
Qed.

Lemma shapes_replicate st (s : shape) ch :
  (forall c, c ∈ ch -> shape_of st c = s) -> map (shape_of st) ch = replicate (length ch) s.
Proof.
  induction ch as [|c ch IH]; intros Hs; [done|]. simpl.
  rewrite (Hs c), IH; [done| |]; [intros; apply Hs|]; set_solver.
Qed.

Lemma profile_shape st t u :
  balanced st t -> balanced st u -> profile st t = profile st u -> shape_of st t = shape_of st u.
Proof.
  revert u. induction t as [o ch IH] using obj_tree_ind'. intros [p ch'] Hb Hb'. simpl.
  intros [= Hd Hlen Hp]. rewrite Hd. f_equal.
  apply balanced_node in Hb as [Hb Hs], Hb' as [Hb' Hs'].
  destruct ch as [|c ch], ch' as [|c' ch']; [done|simpl in Hlen; lia..|].
  assert (Hcc : shape_of st c = shape_of st c').
  { apply Forall_inv in IH, Hb, Hb'. by apply IH. }
  rewrite (shapes_replicate st (shape_of st c) (c :: ch)) by (intros; apply Hs; set_solver).
  rewrite (shapes_replicate st (shape_of st c') (c' :: ch')) by (intros; apply Hs'; set_solver).
  rewrite Hcc. f_equal. lia.
Qed.

Lemma shape_profile st t u : shape_of st t = shape_of st u -> profile st t = profile st u.
Proof.
  revert u. induction t as [o ch IH] using obj_tree_ind'. intros [p ch']. simpl.
  intros [= -> Hm]. assert (Hlen := f_equal length Hm). rewrite !List.length_map in Hlen.
  rewrite Hlen. f_equal. destruct ch, ch'; try done. injection Hm as Hc _.
  apply Forall_inv in IH. by apply IH.
Qed.

(** ** The comparison loop *)

Lemma same_shape_ok st t others :
  exists b, same_shape st t others = Some b /\
    (b = true <-> Forall (fun u => profile st u = profile st t) others).
Proof.
  revert others. induction t as [o ch IH] using obj_tree_ind'. intros others. cbn [same_shape].
  destruct (existsb _ others) eqn:He.
  - exists false. split; [done|]. split; [done|]. intros Hall. exfalso.
    apply existsb_exists in He as ([p cp] & Hu & Hne). apply list_elem_of_In in Hu.
    apply (proj1 (Forall_forall _ _) Hall) in Hu. simpl in Hu. injection Hu as Hd Hlen _.
    unfold t_addr, t_arity in Hne. simpl in Hne. apply orb_true_iff in Hne as [Hne|Hne]; lia.
  - assert (Hsame : Forall (fun u => depth (links st (t_addr u)) = depth (links st (o_addr o)) /\
                                     length (t_children u) = length ch) others).
    { apply Forall_forall. intros u Hu%list_elem_of_In. apply not_true_iff_false in He.
      rewrite existsb_exists in He. unfold t_arity in He.
      destruct (Z.eqb_spec (depth (links st (t_addr u))) (depth (links st (o_addr o)))) as [Hd|Hd].
      - split; [done|]. destruct (decide (length (t_children u) = length ch)); [done|].
        destruct He. exists u. split; [done|]. apply orb_true_iff. right. lia.
      - destruct He. exists u. split; [done|]. apply orb_true_iff. left. lia. }
    destruct ch as [|c ch].
    + exists true. split; [done|]. split; [intros _|done]. eapply Forall_impl; [exact Hsame|].
      intros [p cp] [Hd Hlen]. unfold t_addr in Hd. simpl in *. destruct cp; [|done]. simpl. congruence.
    + assert (Hf : exists firsts, mapM first_child others = Some firsts /\
        (Forall (fun u => profile st u = profile st c) firsts <->
         Forall (fun u => profile st u = profile st (Node o (c :: ch))) others)).
      { clear He IH. induction Hsame as [|[p cp] others [Hd Hlen] _ (firsts & Hm & Hiff)].
        - exists []. split; [done|]. split; constructor.
        - destruct cp as [|cp cps]; [done|]. exists (cp :: firsts). split; [simpl; by rewrite Hm|].
          rewrite !Forall_cons, Hiff. unfold t_addr in Hd. simpl in *. rewrite Hd.
          assert (length cps = length ch) as -> by lia. split; intros [H1 H2]; split; congruence. }
      destruct Hf as (firsts & -> & Hiff). apply Forall_inv in IH.
      destruct (IH firsts) as (b & Hb & Hbiff). exists b. split; [exact Hb|]. by rewrite Hbiff.
Qed.

(** ** The marks *)

(** Only the marks of the objects at [l] change. *)
Definition marks (l : list Z) (st st' : links_store) : Prop :=
  writes l st st' /\
  forall a, links st' a = set_symmetric (symmetric_subtree (links st' a)) (links st a).

Lemma marks_refl l st : marks l st st.
Proof. split; [done|]. intros a. by destruct (links st a). Qed.

Lemma marks_upd l a b st : a ∈ l -> marks l st (upd a (set_symmetric b) st).
Proof.
  intros Ha. split; [by apply writes_upd|]. intros x. destruct (decide (x = a)) as [->|].
  - by rewrite links_upd.
  - rewrite links_upd_ne by done. by destruct (links st x).
Qed.

Lemma marks_trans l st1 st2 st3 : marks l st1 st2 -> marks l st2 st3 -> marks l st1 st3.
Proof.
  intros [H1 E1] [H2 E2]. split; [by eapply writes_trans|]. intros a. by rewrite E2, E1.
Qed.

Lemma marks_mono l l' st st' : l ⊆ l' -> marks l st st' -> marks l' st st'.
Proof. intros Hl [Hw E]. split; [by eapply writes_mono|done]. Qed.

Lemma marks_depth l st st' a : marks l st st' -> depth (links st' a) = depth (links st a).
Proof. intros [_ E]. by rewrite E. Qed.

Lemma marks_shape l st st' t : marks l st st' -> shape_of st' t = shape_of st t.
Proof.
  intros Hm. induction t as [o ch IH] using obj_tree_ind'. simpl.
  rewrite (marks_depth _ _ _ _ Hm). f_equal.
  induction IH as [|c ch Hc _ IHch]; [done|]. simpl. by rewrite Hc, IHch.
Qed.

Lemma marks_balanced l st st' t : marks l st st' -> balanced st' t <-> balanced st t.
Proof.
  intros Hm. unfold balanced. split; intros Hb n c c' Hn Hc Hc'; specialize (Hb n c c' Hn Hc Hc').
  - by rewrite !(marks_shape _ _ _ _ Hm) in Hb.
  - by rewrite !(marks_shape _ _ _ _ Hm).
Qed.

(** The nodes of a list carry the right marks. *)
Definition marked (st : links_store) (ns : list (obj_tree B)) : Prop :=
  forall n, n ∈ ns -> symmetric_subtree (links st (t_addr n)) = true <-> balanced st n.

Lemma propagate_forest ch st :
  Forall (fun t => forall st, distinct (tree_objs t) ->
    exists st', hwloc_propagate_symmetric_subtree t st = Some st' /\
      marks (map o_addr (tree_objs t)) st st' /\ marked st' (tree_nodes t)) ch ->
  distinct (forest_objs ch) ->
  exists st', foldl (fun r propagate => let! st := r in propagate st) (Some st)
      (map hwloc_propagate_symmetric_subtree ch) = Some st' /\
    marks (map o_addr (forest_objs ch)) st st' /\ marked st' (forest_nodes ch).
Proof.
  intros Hch. revert st. induction Hch as [|c ch Hc _ IH]; intros st Hd; simpl.
  { exists st. split_and!; [done|apply marks_refl|by intros ? ?%not_elem_of_nil]. }
  rewrite forest_objs_cons in Hd. apply distinct_app in Hd as (Hdc & Hne & Hdch).
  destruct (Hc st Hdc) as (st1 & -> & Hm1 & Hk1). destruct (IH st1 Hdch) as (st2 & -> & Hm2 & Hk2).
  exists st2. rewrite forest_objs_cons, forest_nodes_cons, List.map_app. split_and!; [done| |].
  - eapply marks_trans; eapply marks_mono; [|exact Hm1| |exact Hm2]; set_solver.
  - intros n [Hn|Hn]%elem_of_app; [|by apply Hk2]. rewrite (marks_balanced _ _ _ _ Hm2), <- (Hk1 n Hn).
    rewrite (proj1 (proj1 Hm2)); [done|]. intros (o & Heq & Ho)%list_elem_of_fmap.
    apply (Hne (t_obj n) o); [|done|done]. destruct n as [p cp]. apply node_objs in Hn.
    eapply elem_of_sublist; [|exact Hn]. set_solver.
Qed.

Lemma forest_root_node (x : obj_tree B) ch : x ∈ ch -> x ∈ forest_nodes ch.
Proof.
  induction ch as [|c ch IH]; [by intros ?%not_elem_of_nil|].
  intros [->|Hx]%elem_of_cons; rewrite forest_nodes_cons; apply elem_of_app;
    [left; apply root_node|right; auto].
Qed.

Lemma same_shapes st c cs :
  Forall (balanced st) (c :: cs) -> (forall x, x ∈ cs -> profile st x = profile st c) ->
  forall x y, x ∈ c :: cs -> y ∈ c :: cs -> shape_of st x = shape_of st y.
Proof.
  intros Hb Hp. rewrite Forall_forall in Hb.
  assert (Hx : forall x, x ∈ c :: cs -> shape_of st x = shape_of st c).
  { intros x Hx. apply profile_shape; [by apply Hb|apply Hb; set_solver|].
    apply elem_of_cons in Hx as [->|Hx]; auto. }
  intros x y Hxi Hyi. by rewrite (Hx x Hxi), (Hx y Hyi).
Qed.

Lemma propagate_tree t st :
  distinct (tree_objs t) ->
  exists st', hwloc_propagate_symmetric_subtree t st = Some st' /\
    marks (map o_addr (tree_objs t)) st st' /\ marked st' (tree_nodes t).
Proof.
  revert st. induction t as [o ch IH] using obj_tree_ind'. intros st Hd.
  cbn [hwloc_propagate_symmetric_subtree]. rewrite tree_objs_node in *.
  unfold distinct in Hd. rewrite map_cons, NoDup_cons in Hd. destruct Hd as [Ho Hd].
  set (st1 := upd (o_addr o) (set_symmetric false) st).
  assert (Hup : forall b st, marks (map o_addr (o :: forest_objs ch)) st (upd (o_addr o) (set_symmetric b) st))
    by (intros; apply marks_upd; set_solver).
  assert (Hroot : forall n, n ∈ forest_nodes ch -> t_addr n <> o_addr o).
  { intros n Hn Heq. apply Ho. rewrite <- Heq.
    apply (addrs_sublist (tree_objs n) _ _ (forest_node_objs n ch Hn)), addr_in_tree. }
  destruct ch as [|c cs].
  { eexists. split; [done|]. split; [by eapply marks_trans; apply Hup|].
    intros n [->|Hn]%elem_of_cons; [|by apply not_elem_of_nil in Hn].
    unfold t_addr. simpl. rewrite links_upd. split; [|done]. intros _.
    apply balanced_node. split; [constructor|]. by intros ? ? ?%not_elem_of_nil. }
  destruct (propagate_forest (c :: cs) st1 IH Hd) as (st2 & -> & Hm2 & Hk2).
  assert (Hm : marks (map o_addr (o :: forest_objs (c :: cs))) st st2).
  { eapply marks_trans; [apply Hup|]. eapply marks_mono; [|exact Hm2]. set_solver. }
  assert (Hmark : symmetric_subtree (links st2 (o_addr o)) = false).
  { rewrite (proj1 (proj1 Hm2)) by done. unfold st1. by rewrite links_upd. }
  assert (Hchild : forall x, x ∈ c :: cs -> symmetric_subtree (links st2 (t_addr x)) = true <-> balanced st2 x)
    by (intros x Hx; by apply Hk2, forest_root_node).
  cbn [mbind option_bind]. destruct (existsb _ (c :: cs)) eqn:He.
  - (* a child is not symmetric *)
    exists st2. split_and!; [done|done|]. intros n [->|Hn]%elem_of_cons; [|by apply Hk2].
    change (t_addr (Node o (c :: cs))) with (o_addr o). rewrite Hmark. split; [done|]. intros [Hb _]%balanced_node.
    apply existsb_exists in He as (x & Hx%list_elem_of_In & Hn). apply negb_true_iff in Hn.
    rewrite Forall_forall in Hb. specialize (Hb x Hx). apply Hchild in Hb; [congruence|done].
  - assert (Hb : Forall (balanced st2) (c :: cs)).
    { apply Forall_forall. intros x Hx. apply Hchild; [done|]. apply not_true_iff_false in He.
      destruct (symmetric_subtree (links st2 (t_addr x))) eqn:Hs; [done|]. destruct He. apply existsb_exists. exists x.
      split; [by apply list_elem_of_In|by rewrite Hs]. }
    destruct (same_shape_ok st2 c cs) as (b & -> & Hb'). simpl.
    assert (Hbal : b = true <-> balanced st2 (Node o (c :: cs))).
    { rewrite Hb', balanced_node. split.
      - intros Hp. split; [done|]. apply same_shapes; [done|]. intros x Hx. by apply (proj1 (Forall_forall _ _) Hp).
      - intros [_ Hs]. apply Forall_forall. intros x Hx. apply shape_profile, Hs; set_solver. }
    exists (if b then upd (o_addr o) (set_symmetric true) st2 else st2).
    assert (Hm3 : marks (map o_addr (o :: forest_objs (c :: cs))) st2
              (if b then upd (o_addr o) (set_symmetric true) st2 else st2)).
    { destruct b; [apply Hup|apply marks_refl]. }
    split_and!; [by destruct b|by eapply marks_trans|].
    intros n Hn. rewrite (marks_balanced _ _ _ _ Hm3). apply elem_of_cons in Hn as [->|Hn].
    + rewrite <- Hbal. change (t_addr (Node o (c :: cs))) with (o_addr o).
      destruct b; [by rewrite links_upd|]. by rewrite Hmark.
    + rewrite <- (Hk2 n Hn). destruct b; [|done]. rewrite links_upd_ne; [done|]. by apply Hroot.
Qed.

End Sym.

Section Connected.
Context {B : Type} `{CpusetOps B}.

(** Only the logical indexes of the objects at [l] change. *)
Definition renumbers (l : list Z) (st st' : links_store) : Prop :=
  writes l st st' /\
  forall a, links st' a = set_logical_index (logical_index (links st' a)) (links st a).

Lemma renumbers_cousins l l' st st' : renumbers l st st' -> cousins st l' -> cousins st' l'.
Proof.
  intros [Hw E] Hc i a Hi. destruct (Hc i a Hi) as (H1 & H2 & H3).
  split; [by apply Hw|]. rewrite E. done.
Qed.

(** An I/O level: its objects in the order of the list, linked, numbered. *)
Definition io_level_linked (st : links_store) (d : Z) (l : list Z) : Prop :=
  cousins st l /\ forall i a, l !! i = Some a ->
    logical_index (links st a) = Z.of_nat i /\ depth (links st a) = u32 d.

Lemma build_io_level (l : list Z) d st :
  cousins st l -> NoDup l -> (forall a, a ∈ l -> depth (links st a) = u32 d) ->
  exists st', hwloc_build_level_from_list (S (size st)) (head l) 0 st = Some (l, st') /\
    renumbers l st st' /\ io_level_linked st' d l.
Proof.
  intros Hc Hnd Hd. destruct (build_list_ok (S (size st)) l 0 st) as (st' & Hb & Hw & Hl).
  - intros j a Hj. destruct (Hc j a Hj) as (? & ? & _). done.
  - done.
  - assert (length l <= size st)%nat; [|lia]. apply live_length; [done|].
    intros a Ha. apply list_elem_of_lookup in Ha as [j Hj]. by apply (Hc j a Hj).
  - exists st'. assert (Hr : renumbers l st st').
    { split; [done|]. intros a. destruct (decide (a ∈ l)) as [Ha|Ha].
      - apply list_elem_of_lookup in Ha as [j Hj]. by rewrite (Hl j a Hj).
      - rewrite (proj1 Hw) by done. by destruct (links st a). }
    split_and!; [done|done|]. split; [by eapply renumbers_cousins|].
    intros i a Hi. rewrite (Hl i a Hi). simpl. split; [lia|]. apply Hd. by eapply list_elem_of_lookup_2.
Qed.

Lemma ends_head l : fst <$> ends_of l = head l.
Proof.
  destruct l as [|a l]; [done|]. unfold ends_of.
  destruct (last (a :: l)) eqn:Hl; [done|]. by apply last_None in Hl.
Qed.

Lemma io_linked_keep l d st st' :
  (forall a, a ∈ l -> next_cousin (links st' a) = next_cousin (links st a) /\
     prev_cousin (links st' a) = prev_cousin (links st a) /\
     logical_index (links st' a) = logical_index (links st a) /\
     depth (links st' a) = depth (links st a) /\ (is_Some (st !! a) -> is_Some (st' !! a))) ->
  io_level_linked st d l -> io_level_linked st' d l.
Proof.
  intros Hk [Hc Hn]. split.
  - intros i a Hi. destruct (Hc i a Hi) as (H1 & H2 & H3).
    destruct (Hk a) as (-> & -> & _ & _ & Hs); [by eapply list_elem_of_lookup_2|]. auto.
  - intros i a Hi. destruct (Hk a) as (_ & _ & -> & -> & _); [by eapply list_elem_of_lookup_2|]. auto.
Qed.

Lemma io_linked_renumbers l l' d st st' :
  renumbers l' st st' -> (forall a, a ∈ l -> a ∉ l') -> io_level_linked st d l -> io_level_linked st' d l.
Proof.
  intros [Hw E] Hd. apply io_linked_keep. intros a Ha. rewrite (proj1 Hw) by auto.
  split_and!; [done..|]. apply Hw.
Qed.

Lemma io_linked_marks l l' d st st' :
  marks l' st st' -> io_level_linked st d l -> io_level_linked st' d l.
Proof.
  intros [Hw E]. apply io_linked_keep. intros a Ha. rewrite E. split_and!; [done..|]. apply Hw.
Qed.

Lemma level_linked_marks l' st st' d (l : list (obj_tree B)) :
  marks l' st st' -> level_linked st d l -> level_linked st' d l.
Proof. intros [_ E] Hl i t Hi. rewrite E. by apply Hl. Qed.

(** The three I/O levels of a topology. *)
Definition io_level (tl : topology_levels (B := B)) (ty : hwloc_obj_type_t) : list Z :=
  match ty with
  | HWLOC_OBJ_BRIDGE => bridge_level tl
  | HWLOC_OBJ_PCI_DEVICE => pcidev_level tl
  | HWLOC_OBJ_OS_DEVICE => osdev_level tl
  | _ => []
  end.

(** The levels, the links and the depths of types agree with the tree. *)
Record connected (root : obj_tree B) (tl : topology_levels) : Prop := {
  con_levels : levels_partial root (levels (tl_levels tl)) [];
  con_root : head (levels (tl_levels tl)) = Some [root];
  con_links : forall d l, levels (tl_levels tl) !! d = Some l ->
    level_linked (io_links (ls_io (tl_levels tl))) (Z.of_nat d) l;
  con_types : forall ty, type_depth (tl_levels tl) ty =
    default (type_depth_spec ty (levels (tl_levels tl))) (io_depth ty);
  con_io : forall ty d, io_depth ty = Some d ->
    io_level tl ty ≡ₚ addrs_of ty (tree_objs root) /\
    io_level_linked (io_links (ls_io (tl_levels tl))) d (io_level tl ty);
  con_marks : marked (io_links (ls_io (tl_levels tl))) (tree_nodes root);
}.

(** From the end of the loop on: the I/O levels. *)
Lemma finish_io (os : list (hwloc_obj B)) (s : io_state) all :
  queue_inv all os [] s ->
  exists st1 st2 st3, let l ty := addrs_of ty os in
    hwloc_build_level_from_list (S (size (io_links s))) (fst <$> io_ends s HWLOC_OBJ_BRIDGE) 0 (io_links s)
      = Some (l HWLOC_OBJ_BRIDGE, st1) /\
    hwloc_build_level_from_list (S (size st1)) (fst <$> io_ends s HWLOC_OBJ_PCI_DEVICE) 0 st1
      = Some (l HWLOC_OBJ_PCI_DEVICE, st2) /\
    hwloc_build_level_from_list (S (size st2)) (fst <$> io_ends s HWLOC_OBJ_OS_DEVICE) 0 st2
      = Some (l HWLOC_OBJ_OS_DEVICE, st3) /\
    writes (map o_addr os) (io_links s) st3 /\
    forall ty d, io_depth ty = Some d -> io_level_linked st3 d (l ty).
Proof.
  intros ((Hends & Hdepth & _) & Hd & _). rewrite app_nil_r in Hd. set (l := fun ty => addrs_of ty os).
  assert (Hnd : forall ty, NoDup (l ty)) by (intros; by apply addrs_of_distinct).
  assert (Hin : forall ty, l ty ⊆ map o_addr os).
  { intros ty a (o & -> & Ho & _)%addrs_of_in. by apply list_elem_of_fmap_2. }
  assert (Hsep : forall ty ty' a, ty <> ty' -> a ∈ l ty -> a ∉ l ty').
  { intros ty ty' a Hne (o & -> & Ho & Ht)%addrs_of_in (o' & Heq & Ho' & Ht')%addrs_of_in.
    assert (o = o') as -> by by apply (distinct_inj os). congruence. }
  assert (Hio : forall ty d st, io_depth ty = Some d -> (forall a, links st a = set_logical_index
      (logical_index (links st a)) (links (io_links s) a)) ->
      forall a, a ∈ l ty -> depth (links st a) = u32 d).
  { intros ty d st Hty E a (o & -> & Ho & Ht)%addrs_of_in. rewrite E. simpl. apply Hdepth; [done|by rewrite Ht]. }
  assert (E0 : forall a, links (io_links s) a =
    set_logical_index (logical_index (links (io_links s) a)) (links (io_links s) a))
    by (intros a; by destruct (links (io_links s) a)).
  destruct (Hends HWLOC_OBJ_BRIDGE _ eq_refl) as [-> Hc1], (Hends HWLOC_OBJ_PCI_DEVICE _ eq_refl) as [-> Hc2],
    (Hends HWLOC_OBJ_OS_DEVICE _ eq_refl) as [-> Hc3]. rewrite !ends_head.
  destruct (build_io_level _ _ _ Hc1 (Hnd _) (Hio HWLOC_OBJ_BRIDGE _ _ eq_refl E0)) as (st1 & H1 & R1 & L1).
  assert (E1 := proj2 R1).
  destruct (build_io_level _ _ st1 (renumbers_cousins _ _ _ _ R1 Hc2) (Hnd _) (Hio HWLOC_OBJ_PCI_DEVICE _ _ eq_refl E1))
    as (st2 & H2 & R2 & L2).
  assert (E2 : forall a, links st2 a = set_logical_index (logical_index (links st2 a)) (links (io_links s) a))
    by (intros a; by rewrite (proj2 R2), (proj2 R1)).
  destruct (build_io_level _ _ st2 (renumbers_cousins _ _ _ _ R2 (renumbers_cousins _ _ _ _ R1 Hc3)) (Hnd _)
    (Hio HWLOC_OBJ_OS_DEVICE _ _ eq_refl E2)) as (st3 & H3 & R3 & L3).
  exists st1, st2, st3. split_and!; [done..| |].
  - eapply writes_trans; [eapply writes_trans|]; eapply writes_mono;
      [|apply R1| |apply R2| |apply R3]; apply Hin.
  - intros ty d Hty. destruct ty; try done; injection Hty as <-; [|eapply io_linked_renumbers; [exact R3| |]..|done].
    + eapply io_linked_renumbers; [exact R3|intros a; by apply Hsep|].
      eapply io_linked_renumbers; [exact R2|intros a; by apply Hsep|done].
    + intros a. by apply Hsep.
    + done.
Qed.

Lemma addrs_of_perm ty os os' : os ≡ₚ os' -> addrs_of (B := B) ty os ≡ₚ addrs_of ty os'.
Proof. intros Hp. unfold addrs_of. by rewrite Hp. Qed.

Lemma addrs_of_ios ty os : is_Some (io_depth ty) -> addrs_of (B := B) ty (ios os) = addrs_of ty os.
Proof.
  intros [d Hty]. unfold addrs_of, ios. rewrite list_filter_filter. f_equal.
  apply list_filter_iff. intros o. split; [tauto|]. intros <-. split; [done|].
  unfold is_io. by destruct (o_type o).
Qed.

Lemma connect_levels_ok root st :
  placed root -> distinct (tree_objs root) -> no_io_cousins root st -> level_linked st 0 [root] ->
  match hwloc_connect_levels root st with
  | Some tl => connected root tl
  | None => exists lv rest, levels_partial root lv rest /\
              HWLOC_DEPTH_MAX <= Z.of_nat (length lv) /\ rest <> []
  end.
Proof.
  intros Hroot Hdist Hio Hlinked. unfold hwloc_connect_levels.
  destruct (loop_start root Hdist st Hroot Hio Hlinked) as (objs & s & -> & Hfuel & Hinv).
  cbn [mbind option_bind].
  destruct (build_levels_ok root Hdist (tree_size root) objs _ Hinv Hfuel) as [(ls & -> & Hend)|(-> & Hfull)];
    [|exact Hfull].
  destruct Hend as [_ Hpart Hhead _ _ Hty Hioty (os & Hq & Hos) Hlinks].
  change (ios (forest_objs [])) with (@nil (hwloc_obj B)) in *. rewrite app_nil_r in Hos.
  destruct (finish_io os (ls_io ls) _ Hq) as (st1 & st2 & st3 & H1 & H2 & H3 & Hw & Hlv).
  cbn [mbind option_bind]. rewrite H1. cbn [mbind option_bind]. rewrite H2. cbn [mbind option_bind].
  rewrite H3. cbn [mbind option_bind].
  destruct (propagate_tree root st3 Hdist) as (st4 & -> & Hm & Hmarked). simpl.
  assert (Hperm : forall ty, is_Some (io_depth ty) -> addrs_of ty os ≡ₚ addrs_of ty (tree_objs root)).
  { intros ty Hs. rewrite (addrs_of_perm ty _ _ Hos). by rewrite addrs_of_ios. }
  constructor; simpl; try done.
  - intros d l Hl. eapply level_linked_marks; [exact Hm|].
    eapply level_linked_writes; [exact Hw| |by apply Hlinks].
    intros t Ht Hin. apply (level_not_aside root Hdist t).
    + eapply (partial_in root); [exact Hpart|by eapply list_elem_of_lookup_2|done].
    + apply list_elem_of_fmap in Hin as (o & -> & Ho). destruct Hq as (_ & _ & Hq).
      destruct (Hq o) as [Hall Hoio]; [by rewrite app_nil_r|]. apply aside_addr; [done|].
      unfold aside. by rewrite Hoio.
  - intros ty. destruct (io_depth ty) as [d|] eqn:Hd; simpl; auto.
  - intros ty d Hd. assert (io_level (mk_topology_levels (mk_levels (mk_io st4 (io_ends (ls_io ls))) (levels ls)
      (type_depth ls)) (addrs_of HWLOC_OBJ_BRIDGE os) (addrs_of HWLOC_OBJ_PCI_DEVICE os)
      (addrs_of HWLOC_OBJ_OS_DEVICE os)) ty = addrs_of ty os) as -> by by destruct ty.
    split; [by apply Hperm|]. eapply io_linked_marks; [exact Hm|]. by apply Hlv.
Qed.

End Connected.
