(* ===== verification/Sets.v ===== *)
(** * Sets: the passes that complete the sets and the memory of the objects

    The part of [hwloc_discover] ([src/topology.c]) that runs on the objects a
    backend has inserted: cpusets are reduced to the PUs found, offline and
    disallowed CPUs go down and up, nodesets go down and up, memory is summed.
    A NULL set that the code dereferences, and a failed [assert], is [None].

    A pass that updates an ancestor while it visits its descendants threads the
    sets of that ancestor through the visit. *)

From Stdlib Require Import Sorting.Sorted.
From S2P Require Import Prelude Cpuset Obj CleanOk.

(** [thread f s xs]: [f] on each of [xs], the state passed from one to the next. *)
Definition thread {S X Y} (f : S -> X -> option (S * Y)) : S -> list X -> option (S * list Y) :=
  fix go s xs :=
    match xs with
    | [] => Some (s, [])
    | x :: xs =>
        let! (s, y) := f s x in
        let! (s, ys) := go s xs in
        Some (s, y :: ys)
    end.

Section Sets.
Context {B : Type} `{CpusetOps B}.
Implicit Types t : obj_tree B.
Implicit Types o : hwloc_obj B.

(** ** Memory *)

(** [hwloc_memory_page_type_compare], on pairs of a size and a count. *)
Definition hwloc_memory_page_type_compare (a b : Z * Z) : Z :=
  if fst b =? 0 then -1
  else if fst b =? fst a then 0
  else if fst a <? fst b then -1 else 1.

(** Drops the 0-size page types at the end. *)
Fixpoint trim_page_types (l : list (Z * Z)) : list (Z * Z) :=
  match l with
  | [] => []
  | p :: l =>
      match trim_page_types l with
      | [] => if fst p =? 0 then [] else [p]
      | l' => p :: l'
      end
  end.

(** [qsort] is the C library's. *)
Section Memory.
Context (qsort : (Z * Z -> Z * Z -> Z) -> list (Z * Z) -> list (Z * Z)).

Fixpoint propagate_total_memory t : obj_tree B :=
  let 'Node o ch := t in
  let ch := map propagate_total_memory ch in
  let total := foldl (fun sum c => u64 (sum + total_memory (memory (t_obj c)))) 0 ch in
  let total := u64 (total + local_memory (memory o)) in
  let types := trim_page_types (qsort hwloc_memory_page_type_compare (page_types (memory o))) in
  Node (with_memory o (mk_memory total (local_memory (memory o)) types)) ch.
End Memory.

(** ** CPU sets *)

(** [sys] is the cpuset of the machine root being filled, if any. *)
Fixpoint collect_proc_cpuset t (sys : option B) : option (option B * obj_tree B) :=
  let 'Node o ch := t in
  match sys with
  | Some s =>
      let! s := if bool_decide (o_type o = HWLOC_OBJ_PU)
                then let! c := ocpuset o in Some (b_or s c) else Some s in
      let! (sys, ch) := thread (fun sys c => collect_proc_cpuset c sys) (Some s) ch in
      Some (sys, Node o ch)
  | None =>
      match ocpuset o with
      | Some _ =>
          let! (own, ch) := thread (fun sys c => collect_proc_cpuset c sys) (Some b_alloc) ch in
          Some (None, Node (with_cpuset o own) ch)
      | None =>
          let! (sys, ch) := thread (fun sys c => collect_proc_cpuset c sys) None ch in
          Some (sys, Node o ch)
      end
  end.

(** The sets of the object [sys] that the pass reads and updates. *)
Record sys_sets := mk_sys {
  sys_cpuset : B;
  sys_complete : B;
  sys_online : B;
  sys_allowed : B;
}.

(** "Update ours" and "update the given cpuset, but only what we know", or take
    the set of [sys] as such: our new set and that of [sys]. *)
Definition update_unused (ours : option B) (c : B) (sys : B) : B * B :=
  match ours with
  | Some x =>
      let x := b_and x sys in
      (x, b_and sys (b_or (b_not c) x))
  | None => (b_and sys c, sys)
  end.

Definition set_cpusets o (c complete online allowed : B) : hwloc_obj B :=
  with_sets o (mk_sets (Some c) (Some complete) (Some online) (Some allowed)
    (nodeset (sets o)) (complete_nodeset (sets o)) (allowed_nodeset (sets o))).

Fixpoint propagate_unused_cpuset t (sys : option sys_sets) : option (option sys_sets * obj_tree B) :=
  let 'Node o ch := t in
  let below := thread (fun sys c => propagate_unused_cpuset c sys) in
  match ocpuset o with
  | None =>
      let! (sys, ch) := below sys ch in
      Some (sys, Node o ch)
  | Some c =>
      match sys with
      | Some s =>
          let c := b_and c (sys_cpuset s) in
          let complete := match complete_cpuset (sets o) with
                          | Some x => b_and x (sys_complete s)
                          | None => b_and (sys_complete s) c
                          end in
          let '(online, sys_on) := update_unused (online_cpuset (sets o)) c (sys_online s) in
          let '(allowed, sys_al) := update_unused (allowed_cpuset (sets o)) c (sys_allowed s) in
          let s := mk_sys (sys_cpuset s) (sys_complete s) sys_on sys_al in
          let! (sys, ch) := below (Some s) ch in
          Some (sys, Node (set_cpusets o c complete online allowed) ch)
      | None =>
          let c' := match complete_cpuset (sets o) with Some x => b_and c x | None => c end in
          let complete := default c (complete_cpuset (sets o)) in
          let online := match online_cpuset (sets o) with Some x => b_and x complete | None => complete end in
          let allowed := match allowed_cpuset (sets o) with Some x => b_and x complete | None => complete end in
          let! (own, ch) := below (Some (mk_sys c' complete online allowed)) ch in
          let! own := own in
          Some (None, Node (set_cpusets o c' complete (sys_online own) (sys_allowed own)) ch)
      end
  end.

Fixpoint remove_unused_cpusets t : option (obj_tree B) :=
  let 'Node o ch := t in
  let! o :=
    match ocpuset o with
    | Some c =>
        let! online := online_cpuset (sets o) in
        let! allowed := allowed_cpuset (sets o) in
        Some (with_cpuset o (Some (b_and (b_and c online) allowed)))
    | None => Some o
    end in
  let! (_, ch) := thread (fun _ c => let! c := remove_unused_cpusets c in Some (tt, c)) tt ch in
  Some (Node o ch).

(** ** Node sets *)

(** The first part: a nodeset for this object, and its weight if it comes from
    above or from a backend. *)
Definition start_nodeset o (has_sys : bool) : bool * Z * hwloc_obj B :=
  let '(has_sys, o) :=
    match has_sys, onodeset o with
    | false, Some n =>
        let complete := default n (complete_nodeset (sets o)) in
        let allowed := default complete (allowed_nodeset (sets o)) in
        (true, with_allowed_nodeset (with_complete_nodeset o (Some complete)) (Some allowed))
    | _, _ => (has_sys, o)
    end in
  if has_sys : bool then
    match onodeset o with
    | Some n => (true, b_weight n, o)
    | None => (true, 0, with_nodeset o (Some b_alloc))
    end
  else (false, 0, o).

(** The nodeset of a child, below a parent whose nodeset [n] had one element. *)
Definition singleton_down (n : option B) (child : hwloc_obj B) : option (hwloc_obj B) :=
  let! p := n in
  match onodeset child with
  | None => Some (with_nodeset child (Some p))
  | Some x => Some (if b_isequal x p then child else with_nodeset child (Some p))
  end.

(** [o] stands for the object of [t] with the sets its parent has just given
    it.  The loop over the children ends at the first I/O child: the state tells
    whether it has; [n] is the nodeset of the parent. *)
Fixpoint propagate_nodeset t o (has_sys : bool) : option (obj_tree B) :=
  let 'Node _ ch := t in
  let '(has_sys, parent_weight, o) := start_nodeset o has_sys in
  let! ((n, _), ch) := thread (fun '(n, stopped) (c : obj_tree B) =>
    if stopped || hwloc_obj_type_is_io (o_type (t_obj c)) then Some ((n, true), c) else
    let! co := if parent_weight =? 1 then singleton_down n (t_obj c) else Some (t_obj c) in
    let! c := propagate_nodeset c co has_sys in
    let! n :=
      match has_sys, onodeset (t_obj c) with
      | true, Some x => let! p := n in Some (Some (b_or p x))
      | _, _ => Some n
      end in
    Some ((n, false), c)) (onodeset o, false) ch in
  Some (Node (with_nodeset o n) ch).

(** What a child's complete or allowed nodeset becomes below a parent whose one
    is [par]. *)
Definition nodeset_down (par ours n : option B) : option (option B) :=
  match ours, n with
  | Some x, _ => let! p := par in Some (Some (b_and x p))
  | None, Some n => let! p := par in Some (Some (b_and p n))
  | None, None => Some None
  end.

(** The parent's allowed nodeset after a child: what the child holds but is not
    allowed goes. *)
Definition allowed_up (allowed : option B) (child : hwloc_obj B) : option (option B) :=
  match onodeset child, allowed_nodeset (sets child) with
  | Some n, Some a => let! p := allowed in Some (Some (b_andnot p (b_andnot n a)))
  | _, _ => Some allowed
  end.

(** The end of [propagate_nodesets]. *)
Definition apply_complete_nodeset o : hwloc_obj B :=
  match onodeset o with
  | Some n =>
      let '(n, complete) := match complete_nodeset (sets o) with
                            | Some x => (b_and n x, x)
                            | None => (n, n)
                            end in
      let allowed := match allowed_nodeset (sets o) with Some a => b_and a complete | None => complete end in
      with_allowed_nodeset (with_complete_nodeset (with_nodeset o (Some n)) (Some complete)) (Some allowed)
  | None => o
  end.

Fixpoint propagate_nodesets t o : option (obj_tree B) :=
  let 'Node _ ch := t in
  let! (allowed, ch) := thread (fun allowed (c : obj_tree B) =>
    let co := t_obj c in
    if hwloc_obj_type_is_io (o_type co) then Some (allowed, c) else
    let! co :=
      match onodeset o with
      | Some _ =>
          let! complete := nodeset_down (complete_nodeset (sets o)) (complete_nodeset (sets co)) (onodeset co) in
          let! allowed := nodeset_down allowed (allowed_nodeset (sets co)) (onodeset co) in
          Some (with_allowed_nodeset (with_complete_nodeset co complete) allowed)
      | None => Some co
      end in
    let! c := propagate_nodesets c co in
    let! allowed := match onodeset o with Some _ => allowed_up allowed (t_obj c) | None => Some allowed end in
    Some (allowed, c)) (allowed_nodeset (sets o)) ch in
  Some (Node (apply_complete_nodeset (with_allowed_nodeset o allowed)) ch).

(** [apply_nodeset]: [sys] is the allowed nodeset of the first object that has one. *)
Fixpoint apply_nodeset t (sys : option B) : obj_tree B :=
  let 'Node o ch := t in
  match sys with
  | Some a =>
      let o :=
        if bool_decide (o_type o = HWLOC_OBJ_NODE) && negb (os_index o =? UNSET) && negb (b_isset a (os_index o))
        then with_memory o (mk_memory 0 0 (map (fun p => (fst p, 0)) (page_types (memory o))))
        else o in
      Node o (map (fun c => apply_nodeset c sys) ch)
  | None => Node o (map (fun c => apply_nodeset c (allowed_nodeset (sets o))) ch)
  end.

Definition is_Some_b {A} (x : option A) : bool := match x with Some _ => true | None => false end.

(** [None] is a failed [assert]. *)
Fixpoint add_default_object_sets t (parent_has_sets : bool) : option (obj_tree B) :=
  let 'Node o ch := t in
  if hwloc_obj_type_is_io (o_type o) then Some t else
  let s := sets o in
  let! o :=
    if parent_has_sets || is_Some_b (cpuset s) then
      require! is_Some_b (cpuset s) && is_Some_b (online_cpuset s) && is_Some_b (complete_cpuset s)
               && is_Some_b (allowed_cpuset s) in
      Some (with_sets o (mk_sets (cpuset s) (complete_cpuset s) (online_cpuset s) (allowed_cpuset s)
        (Some (default b_alloc_full (nodeset s))) (Some (default b_alloc_full (complete_nodeset s)))
        (Some (default b_alloc_full (allowed_nodeset s)))))
    else
      require! negb (is_Some_b (nodeset s)) && negb (is_Some_b (complete_nodeset s))
               && negb (is_Some_b (allowed_nodeset s)) in
      Some o in
  let! (_, ch) := thread (fun _ c => let! c := add_default_object_sets c (is_Some_b (ocpuset o)) in Some (tt, c)) tt ch in
  Some (Node o ch).

(** [alloc_cpusets]: the sets the root starts with. *)
Definition alloc_cpusets o : hwloc_obj B :=
  with_sets o (mk_sets (Some b_alloc_full) (Some b_alloc) (Some b_alloc_full) (Some b_alloc_full)
    (Some b_alloc) (Some b_alloc) (Some b_alloc_full)).

(** "No nodeset, drop all of them". *)
Definition drop_empty_nodesets o : hwloc_obj B :=
  match complete_nodeset (sets o) with
  | Some c => if b_iszero c
              then with_allowed_nodeset (with_complete_nodeset (with_nodeset o None) None) None
              else o
  | None => o
  end.

End Sets.

Lemma thread_cons {S X Y} (f : S -> X -> option (S * Y)) s x xs :
  thread f s (x :: xs) =
  let! (s1, y) := f s x in let! (s2, ys) := thread f s1 xs in Some (s2, y :: ys).
Proof. done. Qed.

(** The rule for [thread]: an invariant on the state and a relation between the
    elements and their results. *)
Lemma thread_ok {S X Y} (f : S -> X -> option (S * Y)) (I : S -> list X -> list Y -> Prop) s xs :
  I s [] [] ->
  (forall s done ys x, I s done ys -> x ∈ xs -> exists s' y, f s x = Some (s', y) /\ I s' (done ++ [x]) (ys ++ [y])) ->
  exists s' ys, thread f s xs = Some (s', ys) /\ I s' xs ys.
Proof.
  intros H0 Hstep.
  assert (Hgen : forall done ys0 s, I s done ys0 ->
    (forall s done ys x, I s done ys -> x ∈ xs -> exists s' y, f s x = Some (s', y) /\ I s' (done ++ [x]) (ys ++ [y])) ->
    exists s' ys, thread f s xs = Some (s', ys) /\ I s' (done ++ xs) (ys0 ++ ys)).
  { clear H0 Hstep s. induction xs as [|x xs IH]; intros done ys0 s HI Hstep.
    - exists s, []. by rewrite !app_nil_r.
    - rewrite thread_cons. destruct (Hstep s done ys0 x HI) as (s1 & y & -> & HI1); [by left|]. simpl.
      destruct (IH (done ++ [x]) (ys0 ++ [y]) s1 HI1) as (s2 & ys & -> & HI2).
      { intros. apply Hstep; [done|by right]. }
      exists s2, (y :: ys). rewrite <- !app_assoc in HI2. done. }
  exact (Hgen [] [] s H0 Hstep).
Qed.

Section SetsOk.
Context {B : Type} `{Cpuset B}.
Implicit Types t : obj_tree B.
Implicit Types o : hwloc_obj B.

(** ** Memory *)

Definition local_sum (os : list (hwloc_obj B)) : Z := foldr (fun o n => local_memory (memory o) + n) 0 os.

Lemma local_sum_app os os' : local_sum (os ++ os') = local_sum os + local_sum os'.
Proof. induction os as [|o os IH]; simpl; [lia|]. unfold local_sum in *. simpl. lia. Qed.

Section Memory.
Context (qsort : (Z * Z -> Z * Z -> Z) -> list (Z * Z) -> list (Z * Z)).

Definition total_right (n : obj_tree B) : Prop :=
  total_memory (memory (t_obj n)) = u64 (local_sum (tree_objs n)).

Lemma u64_add_l a b : u64 (u64 a + b) = u64 (a + b).
Proof. unfold u64. by rewrite Zplus_mod_idemp_l. Qed.

Lemma u64_add_r a b : u64 (a + u64 b) = u64 (a + b).
Proof. unfold u64. by rewrite Zplus_mod_idemp_r. Qed.

Lemma sum_totals (ch : list (obj_tree B)) acc :
  Forall total_right ch ->
  u64 (foldl (fun sum c => u64 (sum + total_memory (memory (t_obj c)))) acc ch) =
  u64 (acc + local_sum (forest_objs ch)).
Proof.
  intros Hch. revert acc. induction Hch as [|c ch Hc _ IH]; intros acc; simpl.
  - by rewrite Z.add_0_r.
  - rewrite IH, forest_objs_cons, local_sum_app, Hc. rewrite u64_add_l.
    rewrite <- Z.add_assoc, (Z.add_comm (u64 _)), Z.add_assoc, u64_add_r. f_equal. lia.
Qed.

(** Only the total and the page types of an object change. *)
Definition memory_done o o' : Prop :=
  o' = with_memory o (mk_memory (total_memory (memory o')) (local_memory (memory o))
         (trim_page_types (qsort hwloc_memory_page_type_compare (page_types (memory o))))).

Lemma forest_objs_map (R : hwloc_obj B -> hwloc_obj B -> Prop) (f : obj_tree B -> obj_tree B) ch :
  Forall (fun t => Forall2 R (tree_objs t) (tree_objs (f t))) ch ->
  Forall2 R (forest_objs ch) (forest_objs (map f ch)).
Proof.
  induction 1 as [|c ch Hc _ IH]; [constructor|]. simpl. rewrite !forest_objs_cons. by apply Forall2_app.
Qed.

Lemma memory_done_ok t : Forall2 memory_done (tree_objs t) (tree_objs (propagate_total_memory qsort t)).
Proof.
  induction t as [o ch IH] using obj_tree_ind'. cbn [propagate_total_memory]. rewrite !tree_objs_node.
  constructor; [done|]. by apply forest_objs_map.
Qed.

Lemma local_sum_done os os' : Forall2 memory_done os os' -> local_sum os' = local_sum os.
Proof.
  induction 1 as [|o o' os os' Ho _ IH]; [done|].
  change (local_memory (memory o') + local_sum os' = local_memory (memory o) + local_sum os).
  rewrite IH. f_equal. by rewrite Ho.
Qed.

Lemma total_memory_ok t : Forall total_right (tree_nodes (propagate_total_memory qsort t)).
Proof.
  induction t as [o ch IH] using obj_tree_ind'. cbn [propagate_total_memory].
  set (ch' := map (propagate_total_memory qsort) ch). rewrite tree_nodes_node.
  assert (Hnodes : Forall total_right (forest_nodes ch')).
  { unfold ch', forest_nodes. apply Forall_concat. rewrite !Forall_map. exact IH. }
  constructor; [|done]. unfold total_right. rewrite tree_objs_node. simpl.
  rewrite <- u64_add_l, sum_totals, u64_add_l; [f_equal; unfold local_sum; lia|].
  clear -Hnodes. induction ch' as [|c ch' IH]; [constructor|]. rewrite forest_nodes_cons in Hnodes.
  apply Forall_app in Hnodes as [Hc Hch]. constructor; [|auto]. destruct c. by apply Forall_inv in Hc.
Qed.

(** Sorted by size, without 0-size types at the end. *)
Lemma trim_last l p : last (trim_page_types l) = Some p -> fst p <> 0.
Proof.
  induction l as [|q l IH]; [done|]. simpl. destruct (trim_page_types l) as [|r l'].
  - destruct (Z.eqb_spec (fst q) 0); [done|]. by intros [= <-].
  - intros Hl. apply IH. exact Hl.
Qed.

Lemma trim_id l : Forall (fun p => fst p <> 0) l -> trim_page_types l = l.
Proof.
  induction 1 as [|p l Hp _ IH]; [done|]. simpl. rewrite IH. destruct l; [|done].
  by destruct (Z.eqb_spec (fst p) 0).
Qed.

End Memory.
(** ** PUs *)

Definition is_pu_obj o : bool := bool_decide (o_type o = HWLOC_OBJ_PU).

Definition in_set (s : option B) (i : Z) : bool := match s with Some c => bm c i | None => false end.

(** Is CPU [i] in a PU of the list? *)
Definition pu_member (i : Z) (os : list (hwloc_obj B)) : bool :=
  existsb (fun o => is_pu_obj o && in_set (ocpuset o) i) os.

Definition pus_have_cpusets (os : list (hwloc_obj B)) : Prop :=
  forall o, o ∈ os -> o_type o = HWLOC_OBJ_PU -> is_Some (ocpuset o).

Lemma pu_member_app i os os' : pu_member i (os ++ os') = pu_member i os || pu_member i os'.
Proof. apply existsb_app. Qed.

Lemma collect_thread ch s :
  Forall (fun t => forall s, pus_have_cpusets (tree_objs t) ->
    exists s', collect_proc_cpuset t (Some s) = Some (Some s', t) /\
      forall i, 0 <= i -> bm s' i = bm s i || pu_member i (tree_objs t)) ch ->
  pus_have_cpusets (forest_objs ch) ->
  exists s', thread (fun sys c => collect_proc_cpuset c sys) (Some s) ch = Some (Some s', ch) /\
    forall i, 0 <= i -> bm s' i = bm s i || pu_member i (forest_objs ch).
Proof.
  intros Hch. revert s. induction Hch as [|c ch Hc _ IH]; intros s Hp.
  { exists s. split; [done|]. intros i _. by rewrite orb_false_r. }
  rewrite thread_cons, forest_objs_cons in *.
  destruct (Hc s) as (s1 & -> & H1); [intros o Ho; apply Hp; set_solver|]. simpl.
  destruct (IH s1) as (s2 & -> & H2); [intros o Ho; apply Hp; set_solver|]. exists s2. split; [done|].
  intros i Hi. rewrite H2, H1, pu_member_app by done. by rewrite orb_assoc.
Qed.

Lemma collect_ok t s :
  pus_have_cpusets (tree_objs t) ->
  exists s', collect_proc_cpuset t (Some s) = Some (Some s', t) /\
    forall i, 0 <= i -> bm s' i = bm s i || pu_member i (tree_objs t).
Proof.
  revert s. induction t as [o ch IH] using obj_tree_ind'. intros s Hp. rewrite tree_objs_node in *.
  cbn [collect_proc_cpuset].
  assert (Hs : exists s1, (if bool_decide (o_type o = HWLOC_OBJ_PU) then
      let! c := ocpuset o in Some (b_or s c) else Some s) = Some s1 /\
      forall i, 0 <= i -> bm s1 i = bm s i || (is_pu_obj o && in_set (ocpuset o) i)).
  { unfold is_pu_obj. destruct (bool_decide (o_type o = HWLOC_OBJ_PU)) eqn:Hpu.
    - apply bool_decide_eq_true in Hpu. destruct (Hp o) as [c Hc]; [set_solver|done|]. rewrite Hc.
      eexists. split; [done|]. intros i Hi. by rewrite bm_or.
    - exists s. split; [done|]. intros i _. by rewrite orb_false_r. }
  destruct Hs as (s1 & -> & H1). cbn [mbind option_bind].
  destruct (collect_thread ch s1 IH) as (s2 & -> & H2); [intros x Hx; apply Hp; set_solver|].
  exists s2. split; [done|]. intros i Hi. rewrite H2, H1 by done. simpl. by rewrite orb_assoc.
Qed.

(** ** Offline and disallowed CPUs *)

(** What the pass makes of the sets of an object below [sys]. *)
Definition unused_done (C M O A : B) o o' : Prop :=
  match ocpuset o with
  | None => o' = o
  | Some c => exists c' m on al, o' = set_cpusets o c' m on al /\
      (forall i, 0 <= i -> bm c' i = bm c i && bm C i) /\
      (forall i, 0 <= i -> bm m i = (match complete_cpuset (sets o) with Some x => bm x i | None => bm c' i end) && bm M i) /\
      bsub on O /\ bsub al A /\
      (forall x, online_cpuset (sets o) = Some x -> bsub on x) /\
      (forall x, allowed_cpuset (sets o) = Some x -> bsub al x)
  end.

(** [set o'] has all the CPUs of [s] that are in the cpuset of [o']. *)
Definition keeps_known (proj : obj_sets B -> option B) (os : list (hwloc_obj B)) (i : Z) : Prop :=
  forall o c x, o ∈ os -> ocpuset o = Some c -> proj (sets o) = Some x -> bm c i = true -> bm x i = true.

Lemma keeps_known_app proj os os' i :
  keeps_known proj (os ++ os') i <-> keeps_known proj os i /\ keeps_known proj os' i.
Proof.
  unfold keeps_known. split.
  - intros Hk. split; intros o c x Ho; apply Hk; set_solver.
  - intros [H1 H2] o c x [Ho|Ho]%elem_of_app; [by apply H1|by apply H2].
Qed.

Lemma update_unused_ok ours c sys :
  let '(x, sys') := update_unused ours c sys in
  bsub x sys /\ (forall y, ours = Some y -> bsub x y) /\
  forall i, 0 <= i -> (bm sys' i = true <-> bm sys i = true /\ (bm c i = true -> bm x i = true)).
Proof.
  unfold update_unused. destruct ours as [y|].
  - split_and!.
    + intros i Hi. rewrite bm_and by done. by intros [? ?]%andb_true_iff.
    + intros y' [= <-] i Hi. rewrite bm_and by done. by intros [? ?]%andb_true_iff.
    + intros i Hi. rewrite !bm_and, bm_or, bm_not, bm_and by done.
      destruct (bm sys i), (bm c i), (bm y i); simpl; naive_solver.
  - split_and!; [|done|].
    + intros i Hi. rewrite bm_and by done. by intros [? ?]%andb_true_iff.
    + intros i Hi. rewrite bm_and by done. destruct (bm sys i), (bm c i); simpl; naive_solver.
Qed.

(** The visit of [os] turns [sys] from [s] into [s'] and the objects into [os']. *)
Definition unused_visit (s s' : sys_sets (B := B)) (os os' : list (hwloc_obj B)) : Prop :=
  sys_cpuset s' = sys_cpuset s /\ sys_complete s' = sys_complete s /\
  Forall2 (unused_done (sys_cpuset s) (sys_complete s) (sys_online s) (sys_allowed s)) os os' /\
  (forall i, 0 <= i -> bm (sys_online s') i = true <->
     bm (sys_online s) i = true /\ keeps_known online_cpuset os' i) /\
  (forall i, 0 <= i -> bm (sys_allowed s') i = true <->
     bm (sys_allowed s) i = true /\ keeps_known allowed_cpuset os' i).

Lemma unused_done_mono C M O A O' A' o o' :
  bsub O O' -> bsub A A' -> unused_done C M O A o o' -> unused_done C M O' A' o o'.
Proof.
  intros HO HA. unfold unused_done. destruct (ocpuset o); [|done].
  intros (c' & m & on & al & Heq & Hc & Hm & Hon & Hal & Hx & Hy).
  exists c', m, on, al. split_and!; try done; by etrans.
Qed.

Lemma keeps_known_nil proj i : keeps_known proj [] i.
Proof. by intros o c x ?%not_elem_of_nil. Qed.

Lemma unused_visit_nil s : unused_visit s s [] [].
Proof. split_and!; [done|done|constructor| |]; intros i _; split; [|tauto| |tauto]; auto using keeps_known_nil. Qed.

Lemma unused_visit_app s1 s2 s3 os1 os1' os2 os2' :
  unused_visit s1 s2 os1 os1' -> unused_visit s2 s3 os2 os2' ->
  unused_visit s1 s3 (os1 ++ os2) (os1' ++ os2').
Proof.
  intros (C1 & M1 & F1 & O1 & A1) (C2 & M2 & F2 & O2 & A2). rewrite C1, M1 in *.
  split_and!; [by rewrite C2|by rewrite M2| | |].
  - apply Forall2_app; [done|]. eapply Forall2_impl; [exact F2|]. intros o o'.
    apply unused_done_mono; intros i Hi Hb; [by apply O1|by apply A1].
  - intros i Hi. rewrite O2, O1, keeps_known_app by done. tauto.
  - intros i Hi. rewrite A2, A1, keeps_known_app by done. tauto.
Qed.

Definition unused_below (t : obj_tree B) : Prop := forall s,
  exists s' t', propagate_unused_cpuset t (Some s) = Some (Some s', t') /\
    unused_visit s s' (tree_objs t) (tree_objs t').

Lemma unused_thread ch s :
  Forall unused_below ch ->
  exists s' ch', thread (fun sys c => propagate_unused_cpuset c sys) (Some s) ch = Some (Some s', ch') /\
    unused_visit s s' (forest_objs ch) (forest_objs ch').
Proof.
  intros Hch. revert s. induction Hch as [|c ch Hc _ IH]; intros s.
  { exists s, []. split; [done|]. apply unused_visit_nil. }
  rewrite thread_cons. destruct (Hc s) as (s1 & c' & -> & H1). simpl.
  destruct (IH s1) as (s2 & ch' & -> & H2). exists s2, (c' :: ch'). split; [done|].
  rewrite !forest_objs_cons. by eapply unused_visit_app.
Qed.

Lemma keeps_known_one proj o i :
  keeps_known proj [o] i <->
  forall c x, ocpuset o = Some c -> proj (sets o) = Some x -> bm c i = true -> bm x i = true.
Proof.
  unfold keeps_known. split.
  - intros Hk c x. apply Hk. by apply list_elem_of_singleton.
  - intros Hk o' c x ->%list_elem_of_singleton. apply Hk.
Qed.

Lemma unused_ok t : unused_below t.
Proof.
  induction t as [o ch IH] using obj_tree_ind'. intros s. cbn [propagate_unused_cpuset].
  rewrite tree_objs_node. destruct (ocpuset o) as [c|] eqn:Hc.
  - set (c' := b_and c (sys_cpuset s)).
    pose proof (update_unused_ok (online_cpuset (sets o)) c' (sys_online s)) as Hon.
    destruct (update_unused (online_cpuset (sets o)) c' (sys_online s)) as [on son].
    pose proof (update_unused_ok (allowed_cpuset (sets o)) c' (sys_allowed s)) as Hal.
    destruct (update_unused (allowed_cpuset (sets o)) c' (sys_allowed s)) as [al sal].
    destruct Hon as (Hon1 & Hon2 & Hon3), Hal as (Hal1 & Hal2 & Hal3).
    set (s1 := mk_sys (sys_cpuset s) (sys_complete s) son sal).
    destruct (unused_thread ch s1 IH) as (s2 & ch' & -> & Hv). cbn [mbind option_bind].
    do 2 eexists. split; [done|]. rewrite tree_objs_node.
    apply (unused_visit_app s s1 s2 [o] [_]); [|exact Hv].
    split_and!; [done|done| |intros i Hi; rewrite keeps_known_one|intros i Hi; rewrite keeps_known_one].
    + constructor; [|constructor]. unfold unused_done. rewrite Hc. do 4 eexists. split; [done|].
      split_and!; try done.
      * intros i Hi. unfold c'. by rewrite bm_and.
      * intros i Hi. destruct (complete_cpuset (sets o)); rewrite bm_and by done; [done|].
        by rewrite andb_comm.
    + simpl. rewrite Hon3 by done. apply and_iff_compat_l.
      split; [by intros Hk ? ? [= <-] [= <-]|intros Hk; by apply Hk].
    + simpl. rewrite Hal3 by done. apply and_iff_compat_l.
      split; [by intros Hk ? ? [= <-] [= <-]|intros Hk; by apply Hk].
  - destruct (unused_thread ch s IH) as (s2 & ch' & -> & Hv). cbn [mbind option_bind].
    do 2 eexists. split; [done|]. rewrite tree_objs_node.
    apply (unused_visit_app s s s2 [o] [o]); [|exact Hv].
    split_and!; [done|done| |intros i Hi; rewrite keeps_known_one, Hc..];
      [|split; [intros Hb; split; [done|by intros ? ? [=]]|tauto]..].
    constructor; [|constructor]. unfold unused_done. by rewrite Hc.
Qed.

Lemma unused_root o ch c :
  ocpuset o = Some c ->
  exists c' m on al sys' ch',
    propagate_unused_cpuset (Node o ch) None = Some (None, Node (set_cpusets o c' m on al) ch') /\
    (forall i, 0 <= i -> bm c' i = bm c i && bm m i) /\ m = default c (complete_cpuset (sets o)) /\
    unused_visit (mk_sys c' m (match online_cpuset (sets o) with Some x => b_and x m | None => m end)
                              (match allowed_cpuset (sets o) with Some x => b_and x m | None => m end))
      sys' (forest_objs ch) (forest_objs ch') /\ on = sys_online sys' /\ al = sys_allowed sys'.
Proof.
  intros Hc. cbn [propagate_unused_cpuset]. rewrite Hc.
  set (s := mk_sys _ _ _ _).
  destruct (unused_thread ch s (proj2 (Forall_forall _ _) (fun t _ => unused_ok t))) as (s' & ch' & -> & Hv).
  cbn [mbind option_bind]. do 6 eexists. split; [done|]. split_and!; [|done|exact Hv|done|done].
  intros i Hi. destruct (complete_cpuset (sets o)); simpl; [by rewrite bm_and|]. by rewrite andb_diag.
Qed.

(** The objects with a cpuset have an online and an allowed cpuset. *)
Definition has_unused o : Prop :=
  is_Some (ocpuset o) -> is_Some (online_cpuset (sets o)) /\ is_Some (allowed_cpuset (sets o)).

Lemma unused_done_has C M O A os os' : Forall2 (unused_done C M O A) os os' -> Forall has_unused os'.
Proof.
  induction 1 as [|o o' os os' Ho _ IH]; constructor; [|done]. unfold unused_done in Ho.
  destruct (ocpuset o) as [c|] eqn:Hc.
  - destruct Ho as (c' & m & on & al & -> & _). intros _. split; by eexists.
  - subst o'. intros [c Hc']. congruence.
Qed.

Definition used_only o o' : Prop :=
  match ocpuset o, online_cpuset (sets o), allowed_cpuset (sets o) with
  | Some c, Some on, Some al => o' = with_cpuset o (Some (b_and (b_and c on) al))
  | _, _, _ => o' = o
  end.

Lemma remove_unused_ok t :
  Forall has_unused (tree_objs t) ->
  exists t', remove_unused_cpusets t = Some t' /\ Forall2 used_only (tree_objs t) (tree_objs t').
Proof.
  induction t as [o ch IH] using obj_tree_ind'. rewrite tree_objs_node.
  intros [Ho Hch]%Forall_cons. cbn [remove_unused_cpusets].
  assert (Hone : exists o', match ocpuset o with
    | Some c => let! online := online_cpuset (sets o) in let! allowed := allowed_cpuset (sets o) in
                Some (with_cpuset o (Some (b_and (b_and c online) allowed)))
    | None => Some o end = Some o' /\ used_only o o').
  { unfold used_only. destruct (ocpuset o) as [c|] eqn:Hc; [|by exists o].
    destruct Ho as [[on ->] [al ->]]; [by eexists|]. by eexists. }
  destruct Hone as (o' & -> & Ho'). cbn [mbind option_bind].
  assert (Hth : exists ch', thread (fun (_ : unit) c => let! c := remove_unused_cpusets c in Some (tt, c)) tt ch
      = Some (tt, ch') /\ Forall2 used_only (forest_objs ch) (forest_objs ch')).
  { clear Ho Ho' o o'. induction IH as [|c ch Hc _ IHch]; [by exists []|].
    rewrite forest_objs_cons in Hch. apply Forall_app in Hch as [H1 H2].
    destruct (Hc H1) as (c' & Heq & Hc'), (IHch H2) as (ch' & Heq' & Hch').
    exists (c' :: ch'). rewrite thread_cons, Heq. simpl. rewrite Heq'. split; [done|].
    rewrite !forest_objs_cons. by apply Forall2_app. }
  destruct Hth as (ch' & -> & Hch'). cbn [mbind option_bind]. eexists. split; [done|].
  rewrite tree_objs_node. by constructor.
Qed.

(** ** Node sets *)

(** [P] holds of the objects that are not I/O and [R] between them and their
    parents; nothing is said below I/O objects. *)
Fixpoint edges (P : hwloc_obj B -> Prop) (R : hwloc_obj B -> hwloc_obj B -> Prop) t : Prop :=
  let 'Node o ch := t in
  P o /\ foldr (fun c rest => (hwloc_obj_type_is_io (o_type (t_obj c)) = true \/
                              R o (t_obj c) /\ edges P R c) /\ rest) True ch.

Lemma edges_node P R o ch :
  edges P R (Node o ch) <->
  P o /\ Forall (fun c => hwloc_obj_type_is_io (o_type (t_obj c)) = true \/ R o (t_obj c) /\ edges P R c) ch.
Proof.
  simpl. apply and_iff_compat_l. induction ch as [|c ch IH]; [done|]. simpl. by rewrite Forall_cons, IH.
Qed.

Definition io_child (c : obj_tree B) : bool := hwloc_obj_type_is_io (o_type (t_obj c)).

(** I/O children come after the others. *)
Fixpoint io_children_last (ch : list (obj_tree B)) : bool :=
  match ch with
  | [] => true
  | c :: ch => if io_child c then forallb io_child ch else io_children_last ch
  end.

Definition io_last t : Prop :=
  Forall (fun n => io_children_last (t_children n) = true) (tree_nodes t).

Definition has_nodeset o : Prop := is_Some (onodeset o).

(** The nodeset of the second object is in that of the first. *)
Definition nodeset_in o o' : Prop :=
  exists n n', onodeset o = Some n /\ onodeset o' = Some n' /\ bsub n' n.

(** The body of the loop of [propagate_nodeset] below an object with a nodeset. *)
Definition nodeset_child (parent_weight : Z) : option B * bool -> obj_tree B -> option ((option B * bool) * obj_tree B) :=
  fun '(n, stopped) c =>
    if stopped || hwloc_obj_type_is_io (o_type (t_obj c)) then Some ((n, true), c) else
    let! co := if parent_weight =? 1 then singleton_down n (t_obj c) else Some (t_obj c) in
    let! c := propagate_nodeset c co true in
    let! n :=
      match onodeset (t_obj c) with
      | Some x => let! p := n in Some (Some (b_or p x))
      | None => Some n
      end in
    Some ((n, false), c).

Definition nodeset_done (o o' : hwloc_obj B) (t' : obj_tree B) : Prop :=
  t_obj t' = o' /\ edges has_nodeset nodeset_in t' /\ o_type o' = o_type o /\
  exists n', onodeset o' = Some n' /\ forall n, onodeset o = Some n -> bsub n n'.

Definition propagates (t : obj_tree B) : Prop := forall o,
  io_last t -> exists o' t', propagate_nodeset t o true = Some t' /\ nodeset_done o o' t'.

Lemma singleton_down_ok x co :
  exists co', singleton_down (Some x) co = Some co' /\ o_type co' = o_type co.
Proof.
  unfold singleton_down. simpl. destruct (onodeset co); [destruct (b_isequal _ _)|]; eexists; done.
Qed.

Lemma bm_or_l (a b : B) : bsub a (b_or a b).
Proof. intros i Hi Ha. rewrite bm_or by done. by rewrite Ha. Qed.

Lemma bm_or_r (a b : B) : bsub b (b_or a b).
Proof. intros i Hi Hb. rewrite bm_or by done. rewrite Hb. apply orb_true_r. Qed.

Lemma nodeset_thread w ch x stopped :
  Forall propagates ch -> Forall io_last ch ->
  (if stopped : bool then forallb io_child ch else io_children_last ch) = true ->
  exists x' stopped' ch', thread (nodeset_child w) (Some x, stopped) ch = Some ((Some x', stopped'), ch') /\
    bsub x x' /\
    Forall (fun c => hwloc_obj_type_is_io (o_type (t_obj c)) = true \/
                     (exists n, onodeset (t_obj c) = Some n /\ bsub n x') /\ edges has_nodeset nodeset_in c) ch'.
Proof.
  intros Hch. revert x stopped. induction Hch as [|c ch Hc _ IH]; intros x stopped Hlast Hio.
  { exists x, stopped, []. done. }
  apply Forall_cons in Hlast as [Hlc Hlast]. rewrite thread_cons. unfold nodeset_child at 2.
  destruct (stopped || hwloc_obj_type_is_io (o_type (t_obj c))) eqn:Hs.
  - assert (Hrest : forallb io_child ch = true /\ io_child c = true).
    { unfold io_child at 2. destruct stopped; simpl in *; [by apply andb_true_iff in Hio as [? ?]|].
      unfold io_child in Hio at 1. by rewrite Hs in Hio. }
    destruct Hrest as [Hrest Hioc]. cbn [mbind option_bind].
    destruct (IH x true Hlast Hrest) as (x' & st' & ch' & -> & Hx & Hall). cbn [mbind option_bind].
    exists x', st', (c :: ch'). split_and!; [done|done|]. constructor; [by left|done].
  - apply orb_false_iff in Hs as [-> Hnio]. simpl in Hio. unfold io_child in Hio at 1. rewrite Hnio in Hio.
    assert (Hco : exists co, (if w =? 1 then singleton_down (Some x) (t_obj c) else Some (t_obj c)) = Some co /\
                  o_type co = o_type (t_obj c)).
    { destruct (w =? 1); [apply singleton_down_ok|by eexists]. }
    destruct Hco as (co & -> & Hty). cbn [mbind option_bind].
    destruct (Hc co Hlc) as (co' & c' & -> & <- & He & Hty' & n' & Hn' & _). cbn [mbind option_bind].
    rewrite Hn'. cbn [mbind option_bind].
    destruct (IH (b_or x n') false Hlast Hio) as (x' & st' & ch' & -> & Hx & Hall). cbn [mbind option_bind].
    exists x', st', (c' :: ch'). split_and!; [done|etrans; [apply bm_or_l|done]|].
    constructor; [|done]. right. split; [|done]. exists n'. split; [done|]. etrans; [apply bm_or_r|done].
Qed.

(** The complete and allowed nodesets of the first object with a nodeset. *)
Definition first_complete o : option B := Some (default (default b_alloc (onodeset o)) (complete_nodeset (sets o))).
Definition first_allowed o : option B := Some (default (default b_alloc (first_complete o)) (allowed_nodeset (sets o))).

Lemma start_nodeset_ok o has_sys :
  has_sys = true \/ is_Some (onodeset o) ->
  exists w o1 n1, start_nodeset o has_sys = (true, w, o1) /\ onodeset o1 = Some n1 /\
    (forall n, onodeset o = Some n -> n1 = n) /\ o_type o1 = o_type o /\
    complete_nodeset (sets o1) = (if has_sys then complete_nodeset (sets o) else first_complete o) /\
    allowed_nodeset (sets o1) = (if has_sys then allowed_nodeset (sets o) else first_allowed o).
Proof.
  intros Hs. unfold start_nodeset, first_allowed, first_complete.
  destruct has_sys; [|destruct Hs as [|[n Hn]]; [done|]].
  - destruct (onodeset o) as [n|] eqn:Hn.
    + do 3 eexists. split_and!; [done|exact Hn|by intros ? [= <-]|done..].
    + do 3 eexists. split_and!; [done|done|done|done..].
  - rewrite Hn. simpl. unfold onodeset in *. simpl. rewrite Hn.
    do 3 eexists. split_and!; [done|exact Hn|by intros ? [= <-]|done..].
Qed.

Lemma propagate_nodeset_ok t o has_sys :
  has_sys = true \/ is_Some (onodeset o) -> io_last t ->
  exists o' t', propagate_nodeset t o has_sys = Some t' /\ nodeset_done o o' t' /\
    complete_nodeset (sets o') = (if has_sys then complete_nodeset (sets o) else first_complete o) /\
    allowed_nodeset (sets o') = (if has_sys then allowed_nodeset (sets o) else first_allowed o).
Proof.
  revert o has_sys. induction t as [ot ch IH] using obj_tree_ind'. intros o has_sys Hs Hlast.
  unfold io_last in Hlast. rewrite tree_nodes_node in Hlast. apply Forall_cons in Hlast as [Hio Hlast].
  assert (Hlch : Forall io_last ch).
  { clear -Hlast. induction ch as [|c ch IHch]; [constructor|]. rewrite forest_nodes_cons in Hlast.
    apply Forall_app in Hlast as [Hc Hch]. by constructor; [|apply IHch]. }
  assert (Hprop : Forall propagates ch).
  { eapply Forall_impl; [exact IH|]. intros c Hc co Hl.
    destruct (Hc co true (or_introl eq_refl) Hl) as (o' & t' & ? & ? & _). eauto. }
  destruct (start_nodeset_ok o has_sys Hs) as (w & o1 & n1 & Hst & Hn1 & Hkeep & Hty & Hc & Ha).
  cbn [propagate_nodeset]. rewrite Hst, Hn1.
  destruct (nodeset_thread w ch n1 false Hprop Hlch Hio) as (x' & st' & ch' & Hth & Hx & Hall).
  change (thread _ (Some n1, false) ch) with (thread (nodeset_child w) (Some n1, false) ch).
  rewrite Hth. cbn [mbind option_bind]. exists (with_nodeset o1 (Some x')), (Node (with_nodeset o1 (Some x')) ch').
  split_and!; [done| |by rewrite <- Hc|by rewrite <- Ha].
  split_and!; [done| |done|exists x'; split; [done|]; intros n Hn; by rewrite <- (Hkeep n Hn)].
  apply edges_node. split; [by exists x'|]. eapply Forall_impl; [exact Hall|].
  intros c [?|[(n & Hn & Hsub) He]]; [by left|right]. split; [|done]. exists x', n. done.
Qed.

(** Nodeset and allowed nodeset within the complete one. *)
Definition nodesets_inside o : Prop :=
  exists n c a, onodeset o = Some n /\ complete_nodeset (sets o) = Some c /\
    allowed_nodeset (sets o) = Some a /\ bsub n c /\ bsub a c.

Definition nodesets_in o o' : Prop :=
  nodeset_in o o' /\
  exists c c', complete_nodeset (sets o) = Some c /\ complete_nodeset (sets o') = Some c' /\ bsub c' c.

Lemma edges_same_nodeset o o' ch :
  onodeset o' = onodeset o -> edges has_nodeset nodeset_in (Node o ch) -> edges has_nodeset nodeset_in (Node o' ch).
Proof.
  intros Heq. rewrite !edges_node. unfold has_nodeset, nodeset_in. by rewrite Heq.
Qed.

Lemma bm_and_l (a b : B) : bsub (b_and a b) a.
Proof. intros i Hi. rewrite bm_and by done. by intros [? ?]%andb_true_iff. Qed.

Lemma bm_and_r (a b : B) : bsub (b_and a b) b.
Proof. intros i Hi. rewrite bm_and by done. by intros [? ?]%andb_true_iff. Qed.

Lemma nodeset_down_ok p ours n :
  exists x, nodeset_down (Some p) ours (Some n) = Some (Some x) /\ bsub x p.
Proof.
  unfold nodeset_down. destruct ours; simpl; eexists; (split; [done|]); [apply bm_and_r|apply bm_and_l].
Qed.

Lemma allowed_up_ok p co : exists p', allowed_up (Some p) co = Some (Some p').
Proof. unfold allowed_up. destruct (onodeset co), (allowed_nodeset (sets co)); by eexists. Qed.

Lemma apply_complete_ok o n c a :
  onodeset o = Some n -> complete_nodeset (sets o) = Some c -> allowed_nodeset (sets o) = Some a ->
  let o' := apply_complete_nodeset o in
  nodesets_inside o' /\ onodeset o' = Some (b_and n c) /\ complete_nodeset (sets o') = Some c /\
  o_type o' = o_type o.
Proof.
  intros Hn Hc Ha. unfold apply_complete_nodeset. rewrite Hn, Hc, Ha. split_and!; [|done..].
  do 3 eexists. split_and!; [done|done|done|apply bm_and_r|apply bm_and_r].
Qed.

(** The result of [propagate_nodesets] on an object with nodesets [n] and [c]. *)
Definition nodesets_done o (n c : B) (t' : obj_tree B) : Prop :=
  edges nodesets_inside nodesets_in t' /\ o_type (t_obj t') = o_type o /\
  onodeset (t_obj t') = Some (b_and n c) /\ complete_nodeset (sets (t_obj t')) = Some c.

Definition completes (t : obj_tree B) : Prop := forall o n c a,
  edges has_nodeset nodeset_in (Node o (t_children t)) ->
  onodeset o = Some n -> complete_nodeset (sets o) = Some c -> allowed_nodeset (sets o) = Some a ->
  exists t', propagate_nodesets t o = Some t' /\ nodesets_done o n c t'.

(** The body of its loop below an object with nodesets. *)
Definition nodesets_child (c : B) (allowed : option B) (child : obj_tree B) : option (option B * obj_tree B) :=
  let co := t_obj child in
  if hwloc_obj_type_is_io (o_type co) then Some (allowed, child) else
  let! co :=
    let! complete := nodeset_down (Some c) (complete_nodeset (sets co)) (onodeset co) in
    let! allowed := nodeset_down allowed (allowed_nodeset (sets co)) (onodeset co) in
    Some (with_allowed_nodeset (with_complete_nodeset co complete) allowed) in
  let! child := propagate_nodesets child co in
  let! allowed := allowed_up allowed (t_obj child) in
  Some (allowed, child).

Lemma nodesets_thread n c a ch :
  Forall completes ch ->
  Forall (fun x => hwloc_obj_type_is_io (o_type (t_obj x)) = true \/
     (exists m, onodeset (t_obj x) = Some m /\ bsub m n) /\ edges has_nodeset nodeset_in x) ch ->
  exists a' ch', thread (nodesets_child c) (Some a) ch = Some (Some a', ch') /\
    Forall (fun x => hwloc_obj_type_is_io (o_type (t_obj x)) = true \/
      (exists m cm, onodeset (t_obj x) = Some m /\ complete_nodeset (sets (t_obj x)) = Some cm /\
         bsub m (b_and n c) /\ bsub cm c) /\ edges nodesets_inside nodesets_in x) ch'.
Proof.
  intros Hch. revert a. induction Hch as [|x ch Hx _ IH]; intros a Hall.
  { by exists a, []. }
  apply Forall_cons in Hall as [Hxe Hall]. rewrite thread_cons. unfold nodesets_child at 2.
  destruct (hwloc_obj_type_is_io (o_type (t_obj x))) eqn:Hio.
  - cbn [mbind option_bind]. destruct (IH a Hall) as (a' & ch' & -> & Hch'). cbn [mbind option_bind].
    exists a', (x :: ch'). split; [done|]. constructor; [by left|done].
  - destruct Hxe as [|[(m & Hm & Hsub) He]]; [done|]. rewrite Hm.
    destruct (nodeset_down_ok c (complete_nodeset (sets (t_obj x))) m) as (cx & -> & Hcx).
    destruct (nodeset_down_ok a (allowed_nodeset (sets (t_obj x))) m) as (ax & -> & Hax).
    cbn [mbind option_bind]. set (co := with_allowed_nodeset _ _).
    destruct (Hx co m cx ax) as (x' & -> & He' & Hty & Hn' & Hc'); [|done..|].
    { apply (edges_same_nodeset (t_obj x)); [done|]. by destruct x. }
    cbn [mbind option_bind]. destruct (allowed_up_ok a (t_obj x')) as (a1 & ->). cbn [mbind option_bind].
    destruct (IH a1 Hall) as (a' & ch' & -> & Hch'). cbn [mbind option_bind].
    exists a', (x' :: ch'). split; [done|]. constructor; [|done]. right. split; [|done].
    exists (b_and m cx), cx. split_and!; [done|done| |done].
    intros i Hi. rewrite !bm_and by done. intros [H1 H2]%andb_true_iff.
    rewrite (Hsub i Hi H1), (Hcx i Hi H2). done.
Qed.

Lemma propagate_nodesets_ok t : completes t.
Proof.
  induction t as [ot ch IH] using obj_tree_ind'. intros o n c a He Hn Hc Ha.
  cbn [propagate_nodesets t_children] in *. rewrite Ha, Hn, Hc. apply edges_node in He as [_ He].
  change (thread _ (Some a) ch) with (thread (nodesets_child c) (Some a) ch).
  destruct (nodesets_thread n c a ch IH) as (a' & ch' & -> & Hch').
  { eapply Forall_impl; [exact He|]. intros x [?|[(n0 & m & Hn0 & Hm & Hs) Hx]]; [by left|right].
    split; [|done]. exists m. split; [done|]. assert (n0 = n) as <- by congruence. done. }
  cbn [mbind option_bind]. set (o1 := with_allowed_nodeset o (Some a')).
  destruct (apply_complete_ok o1 n c a' Hn Hc eq_refl) as (Hin & Hn' & Hc' & Hty).
  eexists. split; [done|]. split_and!; [|done|done|done].
  apply edges_node. split; [done|]. eapply Forall_impl; [exact Hch'|].
  intros x [?|[(m & cm & Hm & Hcm & Hs & Hsc) Hx]]; [by left|right]. split; [|done]. split.
  - do 2 eexists. split_and!; [exact Hn'|exact Hm|exact Hs].
  - do 2 eexists. split_and!; [exact Hc'|exact Hcm|exact Hsc].
Qed.

End SetsOk.
