(* ===== verification/Samples.v ===== *)
(** * Samples: concrete bitmaps and objects the witnesses use *)

From Stdlib Require Import String.
From S2P Require Import Prelude Misc Bitmap BitmapSpec Cpuset Obj ObjCmp.

(** ** Bitmaps *)

(** An allocator that never fails and fills memory with a pattern. *)
Definition sample_malloc : Malloc := {| malloc_ok _ := true; fresh_word n i := 0xA5A5 + n + i |}.

Lemma sample_malloc_total : @MallocTotal sample_malloc.
Proof. done. Qed.

Definition sample_array (ws : list Z) : list Z := ws ++ replicate (8 - length ws) 0xDEAD.

Definition finite_bitmap (ws : list Z) : hwloc_bitmap_s :=
  mk_bitmap (Z.of_nat (length ws)) 8 (sample_array ws) false.
Definition infinite_bitmap (ws : list Z) : hwloc_bitmap_s :=
  mk_bitmap (Z.of_nat (length ws)) 8 (sample_array ws) true.

Ltac wf_sample := apply wf_b_spec; vm_compute; reflexivity.


(** ** Cpusets and objects *)

#[export] Existing Instance sample_malloc.
#[export] Existing Instance sample_malloc_total.

(** The set of the listed indexes. *)
Definition cset (l : list Z) : wbitmap := foldr (fun i s => b_set s i) b_alloc l.

Definition sample_sets (cpus nodes : option wbitmap) : obj_sets wbitmap :=
  mk_sets cpus cpus cpus cpus nodes nodes nodes.

Definition sample_obj (addr : Z) (type : hwloc_obj_type_t) (idx : Z) (cpus : option wbitmap)
  : hwloc_obj wbitmap :=
  with_sets (hwloc_alloc_setup_object addr type idx) (sample_sets cpus None).

(** Decision by evaluation of the facts on samples. *)
Lemma ok_sample (o : hwloc_obj wbitmap) :
  match ocpuset o with Some c => bfin c && negb (b_iszero c) | None => false end
  && negb (hwloc_obj_type_is_io (o_type o))
  && (negb (bool_decide (o_type o = HWLOC_OBJ_MISC)) || bool_decide (is_Some (o_name o))) = true ->
  obj_ok o.
Proof.
  rewrite !andb_true_iff, orb_true_iff, !negb_true_iff, bool_decide_eq_true, bool_decide_eq_false.
  intros [[Hc Hio] Hn]. constructor; [|done|tauto].
  destruct (ocpuset o) as [c|]; [|done]. apply andb_true_iff in Hc as [Hf Hz]. exists c.
  split_and!; [done|done|]. rewrite <- b_iszero_spec. by apply negb_true_iff, not_true_iff_false in Hz.
Qed.

Lemma sub_sample (a b : wbitmap) : bfin a = true -> b_isincluded a b = true -> bsub a b.
Proof. intros Hf. by rewrite b_isincluded_spec. Qed.

Lemma not_eq_sample (a b : wbitmap) : b_isequal a b = false -> ~ beq a b.
Proof. intros Hb. rewrite <- b_isequal_spec. by rewrite Hb. Qed.

(** Evaluates a closed boolean fact. *)
Ltac by_eval := vm_compute; reflexivity.

(** A strict inclusion of cpusets. *)
Ltac contains_sample :=
  split; [apply sub_sample; by_eval|intros Hbeq; exfalso; revert Hbeq; apply not_eq_sample; by_eval].
