(* ===== verification/Synthetic.v ===== *)
(** * Synthetic: topologies described by a string ([src/topology-synthetic.c])

    [hwloc_backend_synthetic_init] parses a description ("node:2 core:4 pu:2" or
    only numbers) into levels; [hwloc_look_synthetic] builds the objects.  The three
    arrays of [backend_params.synthetic] are one list of levels; an entry of [depth]
    that is never written is [None], and reading it is undefined. *)

From Stdlib Require Import Ascii String.
From S2P Require Import Prelude Misc Bitmap CString Cpuset Obj Insert.

(** ** Parsing *)

Definition HWLOC_SYNTHETIC_MAX_DEPTH : Z := 128.

(** [tolower] on characters, [hwloc_namecoloncmp] of misc.c: 0 when the name before
    the colon begins [needle] with at least [n] characters. *)
Fixpoint namecolon_loop (haystack needle : chars) (i : nat) : option nat :=
  match haystack with
  | [] => Some i
  | h :: haystack =>
      if (h =? ":")%char then Some i else
      let ne := match needle with c :: _ => c | [] => NUL end in
      if negb (tolower h =? tolower ne)%char then None
      else namecolon_loop haystack (List.tl needle) (S i)
  end.

Definition hwloc_namecoloncmp (haystack : chars) (needle : string) (n : nat) : bool :=
  match namecolon_loop haystack (txt needle) 0 with
  | None => true
  | Some i => (i <? n)%nat
  end.

Inductive synthetic_error :=
  | NoColon | NoNumber | TooManyLevels | TooBigArity | SeveralPULevels | MissingPULevel
  | SeveralNodeLevels | SeveralMachineLevels.

(** A level while parsing; [None] is [HWLOC_OBJ_TYPE_UNKNOWN]. *)
Record level_item := mk_item { i_type : option hwloc_obj_type_t; i_arity : Z }.

Definition level_type (pos : chars) : option hwloc_obj_type_t :=
  let named needle n := negb (hwloc_namecoloncmp pos needle n) in
  if named "machines" 2%nat then Some HWLOC_OBJ_MACHINE
  else if named "nodes" 1%nat then Some HWLOC_OBJ_NODE
  else if named "sockets" 1%nat then Some HWLOC_OBJ_SOCKET
  else if named "cores" 2%nat then Some HWLOC_OBJ_CORE
  else if named "caches" 2%nat then Some HWLOC_OBJ_CACHE
  else if named "pus" 1%nat || named "procs" 1%nat then Some HWLOC_OBJ_PU
  else if named "misc" 2%nat then Some HWLOC_OBJ_MISC
  else if named "group" 2%nat then Some HWLOC_OBJ_GROUP
  else None.

Fixpoint skip_blanks (s : chars) : chars :=
  match s with " "%char :: s' => skip_blanks s' | _ => s end.

(** [strchr(s, c)] *)
Fixpoint strchr (s : chars) (c : ascii) : option chars :=
  match s with
  | [] => None
  | d :: s' => if (d =? c)%char then Some s else strchr s' c
  end.

Definition is_decimal (c : ascii) : bool := (48 <=? char_code c) && (char_code c <=? 57).

(** The loop on the levels; the items are in order, [count] is their number plus one. *)
Fixpoint parse_levels (fuel : nat) (pos : chars) (items : list level_item) (count : Z)
  : option (synthetic_error + list level_item) :=
  match pos with
  | [] => Some (inr items)
  | _ =>
      match fuel with
      | O => None
      | S fuel =>
          match skip_blanks pos with
          | [] => Some (inr items)
          | (c :: _) as pos =>
              let after_type :=
                if is_decimal c then inr (None, pos)
                else match strchr pos ":" with
                     | None => inl NoColon
                     | Some next_pos => inr (level_type pos, List.tl next_pos)
                     end in
              match after_type with
              | inl e => Some (inl e)
              | inr (type, pos) =>
                  let '(item, next_pos) := strtoul pos 0 in
                  if (length next_pos =? length pos)%nat then Some (inl NoNumber) else
                  if HWLOC_SYNTHETIC_MAX_DEPTH <=? count + 1 then Some (inl TooManyLevels) else
                  if UINT_MAX <? item then Some (inl TooBigArity) else
                  parse_levels fuel next_pos (items ++ [mk_item type item]) (count + 1)
              end
          end
      end
  end.

(** The type of a level without one, from the type of the level below; [None] is a
    failed assertion. *)
Definition default_type (below : option hwloc_obj_type_t) : option hwloc_obj_type_t :=
  match below with
  | None => Some HWLOC_OBJ_PU
  | Some HWLOC_OBJ_PU => Some HWLOC_OBJ_CORE
  | Some HWLOC_OBJ_CORE => Some HWLOC_OBJ_CACHE
  | Some HWLOC_OBJ_CACHE => Some HWLOC_OBJ_SOCKET
  | Some HWLOC_OBJ_SOCKET => Some HWLOC_OBJ_NODE
  | Some HWLOC_OBJ_NODE | Some HWLOC_OBJ_GROUP => Some HWLOC_OBJ_GROUP
  | Some HWLOC_OBJ_MACHINE | Some HWLOC_OBJ_MISC => Some HWLOC_OBJ_MISC
  | Some _ => None
  end.

(** [nb_pu_levels], [nb_node_levels], [nb_machine_levels], [cache_depth], [group_depth]. *)
Record level_counts := mk_counts { nb_pu : Z; nb_node : Z; nb_machine : Z; n_cache : Z; n_group : Z }.

(** Levels [count - 1] down to 1: their types, from the last to the first. *)
Fixpoint resolve_types (items : list level_item) (below : option hwloc_obj_type_t) (n : level_counts)
  : option (synthetic_error + list hwloc_obj_type_t * level_counts) :=
  match items with
  | [] => Some (inr ([], n))
  | item :: items =>
      let! type := match i_type item with Some t => Some t | None => default_type below end in
      let bad := bool_decide (type = HWLOC_OBJ_PU) && negb (nb_pu n =? 0) in
      if bad then Some (inl SeveralPULevels) else
      let n := match type with
               | HWLOC_OBJ_PU => mk_counts (nb_pu n + 1) (nb_node n) (nb_machine n) (n_cache n) (n_group n)
               | HWLOC_OBJ_CACHE => mk_counts (nb_pu n) (nb_node n) (nb_machine n) (n_cache n + 1) (n_group n)
               | HWLOC_OBJ_GROUP => mk_counts (nb_pu n) (nb_node n) (nb_machine n) (n_cache n) (n_group n + 1)
               | HWLOC_OBJ_NODE => mk_counts (nb_pu n) (nb_node n + 1) (nb_machine n) (n_cache n) (n_group n)
               | HWLOC_OBJ_MACHINE => mk_counts (nb_pu n) (nb_node n) (nb_machine n + 1) (n_cache n) (n_group n)
               | _ => n
               end in
      let! r := resolve_types items (Some type) n in
      match r with
      | inl e => Some (inl e)
      | inr (types, n) => Some (inr (type :: types, n))
      end
  end.

(** Depths of the groups and caches, from the top; the counters are [int]s. *)
Fixpoint level_depths (types : list hwloc_obj_type_t) (cache group : Z) : list (option Z) :=
  match types with
  | [] => []
  | HWLOC_OBJ_GROUP :: types => Some (u32 group) :: level_depths types cache (group - 1)
  | HWLOC_OBJ_CACHE :: types => Some (u32 cache) :: level_depths types (cache - 1) group
  | _ :: types => None :: level_depths types cache group
  end.

(** [type[i]], [arity[i]] and [depth[i]]; level 0 is the root. *)
Record synthetic_level := mk_level { l_type : hwloc_obj_type_t; l_arity : Z; l_depth : option Z }.

Fixpoint mk_levels (types : list hwloc_obj_type_t) (arities : list Z) (depths : list (option Z))
  : list synthetic_level :=
  match types, arities, depths with
  | t :: types, a :: arities, d :: depths => mk_level t a d :: mk_levels types arities depths
  | _, _, _ => []
  end.

Definition hwloc_backend_synthetic_init (description : chars)
  : option (synthetic_error + list synthetic_level) :=
  let! r := parse_levels (length description) description [] 1 in
  match r with
  | inl e => Some (inl e)
  | inr items =>
      let! r := resolve_types (rev items) None (mk_counts 0 0 0 0 0) in
      match r with
      | inl e => Some (inl e)
      | inr (types, n) =>
          if nb_pu n =? 0 then Some (inl MissingPULevel) else
          if 1 <? nb_pu n then Some (inl SeveralPULevels) else
          if 1 <? nb_node n then Some (inl SeveralNodeLevels) else
          if 1 <? nb_machine n then Some (inl SeveralMachineLevels) else
          let root := if negb (nb_machine n =? 0) then HWLOC_OBJ_SYSTEM else HWLOC_OBJ_MACHINE in
          let cache := if n_cache n =? 1 then 2 else n_cache n in
          let types := root :: rev types in
          Some (inr (mk_levels types (map i_arity items ++ [0]) (level_depths types cache (n_group n))))
      end
  end.

(** ** Building *)

Definition hwloc_obj_add_info {B} (o : hwloc_obj B) (name value : string) : hwloc_obj B :=
  with_infos o (infos o ++ [Some (name, value)]).

Section Look.
Context {B : Type} `{CpusetOps B}.

Record look_state := mk_look {
  k_root : obj_tree B;       (** [levels[0][0]] *)
  k_ids : list Z;            (** [id[]]: what is in the list was set *)
  k_next : Z;                (** the next address *)
}.

(** A memory node has 1GB. *)
Definition synthetic_memory : hwloc_obj_memory_s :=
  mk_memory 0 (1024 * 1024 * 1024) [(4096, 256 * 1024)].

(** The size is an int shift. *)
Definition synthetic_cache (depth : Z) : option hwloc_obj_attr_u :=
  if depth =? 1 then Some (AttrCache (32 * 1024) depth 64 0) else
  let size := Z.shiftl (256 * 1024) (u32 (2 * depth)) in
  require! (u32 (2 * depth) <? 32) && (size <=? INT_MAX) in
  Some (AttrCache size depth 64 0).

(** The post-hooks: what the type of the level adds to the object. *)
Definition post_hook (lv : synthetic_level) (obj : hwloc_obj B) : option (hwloc_obj B) :=
  match l_type lv with
  | HWLOC_OBJ_GROUP => let! d := l_depth lv in Some (with_attr obj (AttrGroup d))
  | HWLOC_OBJ_NODE => Some (with_memory obj synthetic_memory)
  | HWLOC_OBJ_CACHE => let! d := l_depth lv in let! a := synthetic_cache d in Some (with_attr obj a)
  | HWLOC_OBJ_SYSTEM | HWLOC_OBJ_BRIDGE | HWLOC_OBJ_PCI_DEVICE | HWLOC_OBJ_OS_DEVICE => None
  | _ => Some obj
  end.

(** The pre-hooks only abort on these. *)
Definition pre_hook (type : hwloc_obj_type_t) : bool :=
  match type with
  | HWLOC_OBJ_SYSTEM | HWLOC_OBJ_BRIDGE | HWLOC_OBJ_PCI_DEVICE | HWLOC_OBJ_OS_DEVICE => false
  | _ => true
  end.

(** [for (i = 0; i < n; i++) s = f(s)] *)
Fixpoint repeat_times {S} (n : nat) (f : S -> option S) (s : S) : option S :=
  match n with
  | O => Some s
  | Datatypes.S n => let! s := f s in repeat_times n f s
  end.

(** State, [first_cpu] and [parent_cpuset] after the call; the fuel bounds the levels. *)
Fixpoint hwloc__look_synthetic (fuel : nat) (levels : list synthetic_level) (level : nat)
    (s : look_state * Z * B) : option (look_state * Z * B) :=
  match fuel with
  | O => None
  | S fuel =>
      let '(st, first_cpu, parent_cpuset) := s in
      let! lv := levels !! level in
      require! pre_hook (l_type lv) in
      let! id := k_ids st !! level in
      let obj := hwloc_alloc_setup_object (k_next st) (l_type lv) id in
      let st := mk_look (k_root st) (<[level := u32 (id + 1)]> (k_ids st)) (k_next st + 1) in
      let! (st, first_cpu, cpuset) :=
        if l_arity lv =? 0 then Some (st, u32 (first_cpu + 1), b_set b_alloc first_cpu)
        else repeat_times (Z.to_nat (l_arity lv)) (hwloc__look_synthetic fuel levels (S level))
               (st, first_cpu, b_alloc) in
      let obj := with_cpuset obj (Some cpuset) in
      let obj := if bool_decide (l_type lv = HWLOC_OBJ_NODE)
                 then with_nodeset obj (Some (b_set b_alloc (os_index obj))) else obj in
      let parent_cpuset := b_or parent_cpuset cpuset in
      let! obj := post_hook lv obj in
      let! (_, root) := hwloc__insert_object_by_cpuset (k_root st) obj in
      Some (mk_look root (k_ids st) (k_next st), first_cpu, parent_cpuset)
  end.

(** The ids set to 0: those of the levels up to the first arity 0. *)
Fixpoint zero_ids (levels : list synthetic_level) : option (list Z) :=
  match levels with
  | [] => None
  | lv :: levels => if 0 <? l_arity lv then let! ids := zero_ids levels in Some (0 :: ids) else Some [0]
  end.

Definition with_type (o : hwloc_obj B) (type : hwloc_obj_type_t) : hwloc_obj B :=
  mk_obj (o_addr o) type (os_index o) (os_level o) (o_name o) (memory o) (attr o) (sets o) (distances o) (infos o).

(** On the root object and the next address; [text] is the saved description. *)
Definition hwloc_look_synthetic (levels : list synthetic_level) (text : string) (root : obj_tree B) (next : Z)
  : option (obj_tree B * Z) :=
  let! ids := zero_ids levels in
  let! top := levels !! O in
  let 'Node ro ch := root in
  let st := mk_look (Node (with_type ro (l_type top)) ch) ids next in
  let! (st, _, _) := repeat_times (Z.to_nat (l_arity top))
    (hwloc__look_synthetic (length levels) levels 1) (st, 0, b_alloc) in
  let 'Node ro ch := k_root st in
  let ro := hwloc_obj_add_info ro "Backend" "Synthetic" in
  let ro := hwloc_obj_add_info ro "SyntheticDescription" text in
  Some (Node ro ch, k_next st).

End Look.

Arguments look_state B : clear implicits.
