(* ===== verification/SyntheticOk.v ===== *)
(** * SyntheticOk: the objects built from a description

    The levels of a description give a regular tree: object [k] of a level covers
    the CPUs from [k * width] on.  Each object is inserted after its children; it
    takes the last objects of the root and becomes the last one itself. *)

From Stdlib Require Import Ascii String Sorted.
From S2P Require Import Prelude Cpuset Obj ObjCmp Insert InsertOk Synthetic.

Lemma repeat_times_app {S} m n (f : S -> option S) s :
  repeat_times (m + n) f s = let! s := repeat_times m f s in repeat_times n f s.
Proof.
  revert s. induction m as [|m IH]; intros s; [done|]. cbn [Nat.add repeat_times].
  destruct (f s) as [s'|]; [|done]. cbn [mbind option_bind]. apply IH.
Qed.

(** ** Levels *)

(** How many CPUs an object of the first level has. *)
Fixpoint width (levels : list synthetic_level) : Z :=
  match levels with
  | [] => 1
  | lv :: levels => if l_arity lv =? 0 then 1 else l_arity lv * width levels
  end.

(** The next index of each level once [k] objects of the first one are built. *)
Fixpoint ids_at (levels : list synthetic_level) (k : Z) : list Z :=
  match levels with
  | [] => []
  | lv :: levels => k :: (if l_arity lv =? 0 then [] else ids_at levels (k * l_arity lv))
  end.

Definition level_depth (lv : synthetic_level) : Z :=
  match l_type lv with HWLOC_OBJ_CACHE | HWLOC_OBJ_GROUP => default 0 (l_depth lv) | _ => 0 end.

Definition level_key (lv : synthetic_level) : okey := (hwloc_get_type_order (l_type lv), level_depth lv, ""%string).

(** A level whose objects can be built: no I/O or Misc object, its depth set. *)
Definition buildable (lv : synthetic_level) : bool :=
  match l_type lv with
  | HWLOC_OBJ_GROUP => bool_decide (is_Some (l_depth lv))
  | HWLOC_OBJ_CACHE => match l_depth lv with Some d => (1 <=? d) && (d <=? 6) | None => false end
  | HWLOC_OBJ_MACHINE | HWLOC_OBJ_NODE | HWLOC_OBJ_SOCKET | HWLOC_OBJ_CORE | HWLOC_OBJ_PU => true
  | _ => false
  end.

(** Buildable levels down to one of arity 0; an only child is of a deeper kind. *)
Fixpoint regular (levels : list synthetic_level) : bool :=
  match levels with
  | [] => false
  | lv :: levels =>
      buildable lv &&
      match levels with
      | [] => l_arity lv =? 0
      | lv' :: _ => (1 <=? l_arity lv) &&
          (negb (l_arity lv =? 1) || match okey_compare (level_key lv) (level_key lv') with Lt => true | _ => false end) &&
          regular levels
      end
  end.

Lemma regular_inv lv levels : regular (lv :: levels) = true ->
  buildable lv = true /\
  match levels with
  | [] => l_arity lv = 0
  | lv' :: _ => 1 <= l_arity lv /\ (l_arity lv = 1 -> okey_compare (level_key lv) (level_key lv') = Lt) /\
      regular levels = true
  end.
Proof.
  destruct levels as [|lv' levels]; cbn [regular]; rewrite !andb_true_iff.
  - intros [? Ha]. by apply Z.eqb_eq in Ha.
  - intros (? & (Ha & Hk) & Hr). apply Z.leb_le in Ha. split; [done|]. split; [done|]. split; [|done].
    intros H1. rewrite H1 in Hk. cbn [Z.eqb Pos.eqb negb orb] in Hk. by destruct (okey_compare _ _).
Qed.

Lemma width_pos levels : regular levels = true -> 1 <= width levels.
Proof.
  induction levels as [|lv levels IH]; [done|]. intros (_ & Hr)%regular_inv. cbn [width].
  destruct levels as [|lv' levels]; [by rewrite Hr|]. destruct Hr as (Ha & _ & Hr). specialize (IH Hr).
  destruct (Z.eqb_spec (l_arity lv) 0); [lia|]. nia.
Qed.

Lemma width_cons lv lv' levels : regular (lv :: lv' :: levels) = true ->
  width (lv :: lv' :: levels) = l_arity lv * width (lv' :: levels).
Proof. intros (_ & Ha & _)%regular_inv. cbn [width]. by destruct (Z.eqb_spec (l_arity lv) 0); [lia|]. Qed.

Section Shape.
Context {B : Type} `{Cpuset B}.

(** The set of the indexes from [lo] to [hi - 1]. *)
Definition is_range (c : B) (lo hi : Z) : Prop :=
  bfin c = true /\ forall i, 0 <= i -> bm c i = (lo <=? i) && (i <? hi).

Definition level_attr (lv : synthetic_level) : option hwloc_obj_attr_u :=
  match l_type lv with
  | HWLOC_OBJ_GROUP => let! d := l_depth lv in Some (AttrGroup d)
  | HWLOC_OBJ_CACHE => let! d := l_depth lv in synthetic_cache d
  | t => Some (empty_attr t)
  end.

(** Object [k] of a level. *)
Record is_object (lv : synthetic_level) (k w : Z) (o : hwloc_obj B) : Prop := {
  io_type : o_type o = l_type lv;
  io_index : os_index o = k;
  io_name : o_name o = None;
  io_cpuset : exists c, ocpuset o = Some c /\ is_range c (k * w) ((k + 1) * w);
  io_nodeset : if bool_decide (l_type lv = HWLOC_OBJ_NODE)
    then exists n, onodeset o = Some n /\ is_range n k (k + 1) else onodeset o = None;
  io_attr : Some (attr o) = level_attr lv;
  io_bare : complete_cpuset (sets o) = None /\ online_cpuset (sets o) = None /\ allowed_cpuset (sets o) = None;
  io_memory : memory o = if bool_decide (l_type lv = HWLOC_OBJ_NODE) then synthetic_memory else mk_memory 0 0 [];
}.

(** Object [k] of the first level with all that is below it. *)
Fixpoint is_subtree (levels : list synthetic_level) (k : Z) (t : obj_tree B) : Prop :=
  match levels with
  | [] => False
  | lv :: below =>
      let 'Node o ch := t in
      is_object lv k (width levels) o /\
      Z.of_nat (length ch) = l_arity lv /\
      forall j c, ch !! j = Some c -> is_subtree below (k * l_arity lv + Z.of_nat j) c
  end.

(** What the attribute of an object tells. *)
Lemma object_key lv k w o : is_object lv k w o -> buildable lv = true -> obj_key o = level_key lv.
Proof.
  intros [Ht _ Hn _ _ Ha _ _] Hb. unfold obj_key, level_key, level_depth, buildable, level_attr in *.
  rewrite Ht, Hn. destruct (l_type lv); try done; destruct (l_depth lv) as [d|]; try done; cbn [mbind option_bind] in Ha.
  - unfold synthetic_cache in Ha. destruct (d =? 1); [by injection Ha as ->|].
    destruct (_ && _); [|done]. by injection Ha as ->.
  - by injection Ha as ->.
Qed.

Lemma object_cs lv k w o : is_object lv k w o -> is_range (cs o) (k * w) ((k + 1) * w).
Proof. intros [_ _ _ (c & Hc & Hr) _ _ _ _]. unfold cs. by rewrite Hc. Qed.

Lemma object_ok lv k w o : is_object lv k w o -> buildable lv = true -> 0 <= k -> 1 <= w -> obj_ok o.
Proof.
  intros [Ht _ _ (c & Hc & Hfin & Hr) _ _ _ _] Hb Hk Hw. constructor.
  - exists c. split; [done|]. split; [done|]. intros He. specialize (He (k * w) ltac:(nia)).
    rewrite Hr in He by nia. apply andb_false_iff in He as [He|He]; [apply Z.leb_gt in He|apply Z.ltb_ge in He]; nia.
  - rewrite Ht. unfold buildable in Hb. by destruct (l_type lv).
  - rewrite Ht. unfold buildable in Hb. by destruct (l_type lv).
Qed.

Lemma subtree_head lv levels k t : is_subtree (lv :: levels) k t -> is_object lv k (width (lv :: levels)) (t_obj t).
Proof. destruct t as [o ch]. cbn [is_subtree t_obj]. tauto. Qed.

(** ** Inserting an object above the last ones *)

(** [t] comes before the object of cpuset [c]. *)
Definition apart_before (c : B) (t : obj_tree B) : Prop :=
  obj_ok (t_obj t) /\ bdisj c (cs (t_obj t)) /\ bbefore (cs (t_obj t)) c.

Definition contained (obj : hwloc_obj B) (t : obj_tree B) : Prop :=
  obj_ok (t_obj t) /\ cmp_spec obj (t_obj t) HWLOC_OBJ_CONTAINS.

Definition grow (ro : hwloc_obj B) (cc cn : B) (obj : hwloc_obj B) : hwloc_obj B :=
  let ro := with_complete_cpuset ro (Some (b_or cc (cs obj))) in
  match onodeset obj with Some n => with_complete_nodeset ro (Some (b_or cn n)) | None => ro end.

Lemma scan_apart obj ts i :
  Forall (fun t => hwloc_obj_cmp obj (t_obj t) = Some HWLOC_OBJ_DIFFERENT \/
                   hwloc_obj_cmp obj (t_obj t) = Some HWLOC_OBJ_CONTAINS) ts ->
  scan_children obj i None ts = Some (ScanDone None).
Proof.
  intros Hts. revert i. induction Hts as [|t ts Ht Hts IH]; intros i; [done|]. cbn [scan_children].
  destruct Ht as [-> | ->]; cbn [mbind option_bind]; apply IH.
Qed.

Lemma place_last obj c front kids :
  obj_ok obj -> cs obj = c -> Forall (apart_before c) front -> Forall (contained obj) kids ->
  place_children obj c false (front ++ kids) = Some (front, [], kids).
Proof.
  intros Hobj Hc Hfront Hkids. pose proof (ok_cs _ Hobj) as (_ & Hfc & _). rewrite Hc in Hfc.
  induction Hfront as [|t front (Hok & Hd & Hb) Hfront IH]; cbn [app place_children].
  - induction Hkids as [|t kids [Hok Hcon] Hkids IH]; [done|]. cbn [place_children].
    rewrite (proj2 (cmp_iff obj (t_obj t) HWLOC_OBJ_CONTAINS Hobj Hok)) by done. cbn [mbind option_bind].
    by rewrite IH.
  - rewrite (proj2 (cmp_iff obj (t_obj t) HWLOC_OBJ_DIFFERENT Hobj Hok)) by (simpl; by rewrite Hc).
    cbn [mbind option_bind]. pose proof (ok_cs _ Hok) as (Hcs & Hft & _). rewrite Hcs.
    destruct (Z.ltb_spec (b_compare_first c (cs (t_obj t))) 0) as [Hlt|_].
    { apply b_compare_first_spec in Hlt; [|by rewrite Hfc, Hft]. by destruct (bbefore_asym c (cs (t_obj t))). }
    cbn [orb]. by rewrite IH.
Qed.

Lemma insert_last ro u cc cn obj front kids :
  ocpuset ro = Some u -> (forall i, 0 <= i -> bm u i = true) ->
  complete_cpuset (sets ro) = Some cc -> complete_nodeset (sets ro) = Some cn ->
  obj_ok obj -> Forall (apart_before (cs obj)) front -> Forall (contained obj) kids ->
  hwloc__insert_object_by_cpuset (Node ro (front ++ kids)) obj
  = Some (Inserted, Node (grow ro cc cn obj) (front ++ [Node obj kids])).
Proof.
  intros Hu Hfull Hcc Hcn Hobj Hfront Hkids. pose proof (ok_cs _ Hobj) as (Hc & Hfin & _).
  unfold hwloc__insert_object_by_cpuset. rewrite Hcc, Hc. cbn [or_into mbind option_bind].
  assert ((match onodeset obj with
    | Some _ => let! cn := or_into (complete_nodeset (sets (with_complete_cpuset ro (Some (b_or cc (cs obj)))))) (onodeset obj) in
                Some (with_complete_nodeset (with_complete_cpuset ro (Some (b_or cc (cs obj)))) cn)
    | None => Some (with_complete_cpuset ro (Some (b_or cc (cs obj)))) end) = Some (grow ro cc cn obj)) as ->.
  { unfold grow. destruct (onodeset obj) as [n|]; [|done]. simpl. by rewrite Hcn. }
  cbn [mbind option_bind]. cbn [tree_height hwloc___insert_object_by_cpuset]. rewrite Hc. cbn [mbind option_bind].
  assert (ocpuset (grow ro cc cn obj) = Some u) as -> by (unfold grow; by destruct (onodeset obj)).
  cbn [mbind option_bind]. rewrite (proj2 (b_isincluded_spec (cs obj) u Hfin)) by (intros i Hi _; auto).
  cbn [negb]. rewrite scan_apart; [|].
  - cbn [mbind option_bind]. rewrite (place_last obj (cs obj)) by done. done.
  - apply Forall_app. split.
    + eapply Forall_impl; [exact Hfront|]. intros t (Hok & Hd & _). left. by apply cmp_iff.
    + eapply Forall_impl; [exact Hkids|]. intros t (Hok & Hcon). right. by apply cmp_iff.
Qed.

(** The tree stays well formed. *)
Lemma insert_last_wf ro u cc cn obj front kids k :
  tree_wf (Node ro (front ++ kids)) ->
  ocpuset ro = Some u -> (forall i, 0 <= i -> bm u i = true) -> 0 <= k -> bm (cs obj) k = false ->
  complete_cpuset (sets ro) = Some cc -> complete_nodeset (sets ro) = Some cn ->
  obj_ok obj -> no_arrays obj -> Forall (apart_before (cs obj)) front -> Forall (contained obj) kids ->
  tree_wf (Node (grow ro cc cn obj) (front ++ [Node obj kids])).
Proof.
  intros Hwf Hu Hfull Hk0 Hk Hcc Hcn Hobj Harr Hfront Hkids. pose proof (ok_cs _ Hobj) as (Hc & Hfin & _).
  assert (ocpuset (grow ro cc cn obj) = Some u) as Hu' by (unfold grow; by destruct (onodeset obj)).
  assert (rank_eq ro (grow ro cc cn obj)) as Hrank.
  { unfold grow, rank_eq, obj_key. by destruct (onodeset obj). }
  destruct (insert_ok (tree_height (Node ro (front ++ kids))) (Node (grow ro cc cn obj) (front ++ kids)) obj)
    as ([r t'] & Hrun & Hpost); [done|by apply (update_root_wf ro)|cbn [t_obj]; by rewrite Hu'|done|done| |].
  { cbn [t_obj]. split.
    - unfold cs at 2. rewrite Hu'. intros i Hi _. by apply Hfull.
    - intros Heq. specialize (Heq k Hk0). unfold cs at 1 in Heq. rewrite Hu' in Heq. cbn [default] in Heq.
      rewrite Hk in Heq. simpl in Heq. by rewrite Hfull in Heq. }
  pose proof (insert_last ro u cc cn obj front kids Hu Hfull Hcc Hcn Hobj Hfront Hkids) as Hins.
  unfold hwloc__insert_object_by_cpuset in Hins. rewrite Hcc, Hc in Hins. cbn [or_into mbind option_bind] in Hins.
  assert (hwloc___insert_object_by_cpuset (tree_height (Node ro (front ++ kids))) (Node (grow ro cc cn obj) (front ++ kids)) obj
    = Some (Inserted, Node (grow ro cc cn obj) (front ++ [Node obj kids]))) as Heq.
  { rewrite <- Hins. unfold grow. destruct (onodeset obj) as [n|]; [|done]. simpl. by rewrite Hcn. }
  rewrite Heq in Hrun. injection Hrun as <- <-. apply Hpost.
Qed.

(** ** The state while building *)

Definition in_nodeset (i : Z) (o : hwloc_obj B) : Prop := exists n, onodeset o = Some n /\ bm n i = true.

(** [front] has been built for the CPUs below [n], from the root [ro0]. *)
Record building (ro0 : hwloc_obj B) (root : obj_tree B) (front : list (obj_tree B)) (n : Z) : Prop := {
  bd_root : exists cc cn, root = Node (with_complete_nodeset (with_complete_cpuset ro0 (Some cc)) (Some cn)) front /\
    is_range cc 0 n /\
    forall i, 0 <= i -> bm cn i = true <-> exists o, o ∈ forest_objs front /\ in_nodeset i o;
  bd_wf : tree_wf root;
  bd_front : Forall (fun t => obj_ok (t_obj t) /\ forall i, 0 <= i -> bm (cs (t_obj t)) i = true -> i < n) front;
}.

Definition full_root (ro0 : hwloc_obj B) : Prop := exists u, ocpuset ro0 = Some u /\ forall i, 0 <= i -> bm u i = true.

Lemma range_apart front n c hi :
  Forall (fun t => obj_ok (t_obj t) /\ forall i, 0 <= i -> bm (cs (t_obj t)) i = true -> i < n) front ->
  is_range c n hi -> Forall (apart_before c) front.
Proof.
  intros Hfront [_ Hc]. eapply Forall_impl; [exact Hfront|]. intros t (Hok & Hlt). split; [done|].
  assert (forall i, 0 <= i -> bm (cs (t_obj t)) i = true -> bm c i = false) as Hout.
  { intros i Hi Hm. rewrite Hc by done. specialize (Hlt i Hi Hm). case_tests; done || lia. }
  split; [intros i Hi Hci Hti; by rewrite Hout in Hci|].
  destruct (ok_cs _ Hok) as (_ & _ & Hne). pose proof (b_first_spec (cs (t_obj t))) as [[_ Hnone]|(Hle & Hm & _)].
  { exfalso. apply Hne. intros i Hi. auto. }
  exists (b_first (cs (t_obj t))). split_and!; [done|done|]. intros j Hj. rewrite Hc by lia.
  specialize (Hlt _ Hle Hm). case_tests; done || lia.
Qed.

(** Inserting [obj] above [kids], the last ones. *)
Lemma building_insert ro0 root front kids obj lo m hi :
  full_root ro0 -> building ro0 root (front ++ kids) m -> 0 <= lo <= m -> m <= hi ->
  Forall (fun t => obj_ok (t_obj t) /\ forall i, 0 <= i -> bm (cs (t_obj t)) i = true -> i < lo) front ->
  is_range (cs obj) lo hi -> obj_ok obj -> no_arrays obj -> Forall (contained obj) kids ->
  exists root', hwloc__insert_object_by_cpuset root obj = Some (Inserted, root') /\
    building ro0 root' (front ++ [Node obj kids]) hi.
Proof.
  intros (u & Hu & Hfull) [(cc & cn & -> & Hcc & Hcn) Hwf Hall] Hlm Hmh Hfront Hr Hobj Harr Hkids.
  set (ro := with_complete_nodeset (with_complete_cpuset ro0 (Some cc)) (Some cn)) in *.
  pose proof (range_apart front lo (cs obj) hi Hfront Hr) as Hapart. destruct (Hr) as [Hfin Hm].
  eexists. split; [by apply (insert_last ro u cc cn)|]. split.
  - exists (b_or cc (cs obj)), (match onodeset obj with Some n => b_or cn n | None => cn end). split; [|split].
    + unfold grow, ro. by destruct (onodeset obj).
    + destruct Hcc as [Hfc Hcc]. split; [by rewrite bfin_or, Hfc, Hfin|]. intros i Hi.
      rewrite bm_or, Hcc, Hm by done. case_tests; done || lia.
    + intros i Hi. assert (forall P : hwloc_obj B -> Prop, (exists o, o ∈ forest_objs (front ++ [Node obj kids]) /\ P o) <->
        P obj \/ exists o, o ∈ forest_objs (front ++ kids) /\ P o) as Hsplit.
      { intros P. rewrite !forest_objs_app, forest_objs_cons, tree_objs_node. cbn [app].
        change (forest_objs []) with (@nil (hwloc_obj B)). setoid_rewrite elem_of_app. setoid_rewrite elem_of_cons.
        setoid_rewrite elem_of_app. setoid_rewrite elem_of_nil. naive_solver. }
      rewrite Hsplit, <- Hcn by done. unfold in_nodeset. destruct (onodeset obj) as [n|]; [|naive_solver].
      rewrite bm_or, orb_true_iff by done. naive_solver.
  - apply (insert_last_wf ro u cc cn obj front kids hi); try done; [lia|].
    rewrite Hm by lia. case_tests; done || lia.
  - apply Forall_app. split.
    { eapply Forall_impl; [exact Hfront|]. intros t (Hok & Hlt). split; [done|]. intros i Hi Hmi.
      specialize (Hlt i Hi Hmi). lia. }
    apply Forall_singleton. cbn [t_obj]. split; [done|]. intros i Hi. rewrite Hm by done. case_tests; done || lia.
Qed.

(** ** Building a level *)

Lemma synthetic_cache_ok d : 1 <= d <= 6 -> is_Some (synthetic_cache d).
Proof.
  intros Hd. assert (d = 1 \/ d = 2 \/ d = 3 \/ d = 4 \/ d = 5 \/ d = 6) as Hcases by lia.
  by destruct Hcases as [-> | [-> | [-> | [-> | [-> | ->]]]]]; eexists.
Qed.

(** The object as it is made: [c] its cpuset. *)
Definition new_object (addr : Z) (lv : synthetic_level) (k : Z) (c : B) : hwloc_obj B :=
  let obj := with_cpuset (hwloc_alloc_setup_object addr (l_type lv) k) (Some c) in
  if bool_decide (l_type lv = HWLOC_OBJ_NODE) then with_nodeset obj (Some (b_set b_alloc (os_index obj))) else obj.

Lemma post_hook_ok addr lv k w c :
  buildable lv = true -> 0 <= k < CPU_MAX -> is_range c (k * w) ((k + 1) * w) ->
  exists obj, post_hook lv (new_object addr lv k c) = Some obj /\ is_object lv k w obj /\ no_arrays obj /\ cs obj = c /\
    o_addr obj = addr.
Proof.
  intros Hb Hk Hc. unfold CPU_MAX in Hk. pose proof (u32_small k ltac:(lia)) as Hu.
  assert (is_range (b_set b_alloc (u32 k)) k (k + 1)) as Hn.
  { rewrite Hu. split; [by rewrite bfin_set, bfin_alloc by (unfold CPU_MAX; lia)|]. intros i Hi.
    rewrite bm_set, bm_alloc by (unfold CPU_MAX; lia || done). case_tests; done || lia. }
  unfold post_hook, new_object. pose proof Hb as Hb'. unfold buildable in Hb'.
  destruct (l_type lv) eqn:Ht; try done.
  all: try (destruct (l_depth lv) as [d|] eqn:Hd; [|done]; cbn [mbind option_bind]).
  all: try (apply andb_prop in Hb' as [H1%Z.leb_le H2%Z.leb_le];
            destruct (synthetic_cache_ok d (conj H1 H2)) as [a Ha]; rewrite Ha; cbn [mbind option_bind]).
  all: eexists; split; [reflexivity|]; split; [|done]; split; rewrite ?Ht; try done; try (by eexists).
  all: unfold level_attr; rewrite Ht, ?Hd; try done; by rewrite <- Ha.
Qed.

(** The children of an object lie in it. *)
Lemma kid_contained lv lv' below k j c obj :
  regular (lv :: lv' :: below) = true -> 0 <= k -> 0 <= j < l_arity lv ->
  is_object lv k (width (lv :: lv' :: below)) obj -> is_subtree (lv' :: below) (k * l_arity lv + j) c ->
  contained obj c.
Proof.
  intros Hreg Hk Hj Hobj Hc%subtree_head. pose proof (width_cons lv lv' below Hreg) as Hw.
  destruct (regular_inv lv (lv' :: below) Hreg) as (Hb & Ha & Hkey & Hreg').
  pose proof (width_pos _ Hreg') as Hpos. destruct (regular_inv lv' below Hreg') as (Hb' & _).
  pose proof (object_cs _ _ _ _ Hobj) as [_ Ho]. pose proof (object_cs _ _ _ _ Hc) as [_ Hm].
  rewrite Hw in Ho. set (w := width (lv' :: below)) in *. set (a := l_arity lv) in *.
  split; [by apply (object_ok lv' _ _ _ Hc); [|nia|]|]. split.
  - intros i Hi. rewrite Hm, Ho, !andb_true_iff, !Z.leb_le, !Z.ltb_lt by done. nia.
  - intros Heq. rewrite (object_key lv _ _ _ Hobj Hb), (object_key lv' _ _ _ Hc Hb'). apply Hkey.
    pose proof (Heq (k * (a * w)) ltac:(nia)) as H1. pose proof (Heq ((k + 1) * (a * w) - 1) ltac:(nia)) as H2.
    rewrite Ho, Hm in H1, H2 by nia.
    rewrite (proj2 (Z.leb_le (k * (a * w)) (k * (a * w)))), (proj2 (Z.ltb_lt (k * (a * w)) _)) in H1 by nia.
    rewrite (proj2 (Z.leb_le (k * (a * w)) _)), (proj2 (Z.ltb_lt _ ((k + 1) * (a * w)))) in H2 by nia.
    symmetry in H1, H2. apply andb_prop in H1 as [H1%Z.leb_le _], H2 as [_ H2%Z.ltb_lt]. nia.
Qed.

(** The objects have distinct addresses from [lo] to [hi - 1]. *)
Definition addresses (lo hi : Z) (ts : list (obj_tree B)) : Prop :=
  NoDup (map o_addr (forest_objs ts)) /\ Forall (fun o => lo <= o_addr o < hi) (forest_objs ts).

Lemma addresses_app lo mid hi ts us :
  lo <= mid <= hi -> addresses lo mid ts -> addresses mid hi us -> addresses lo hi (ts ++ us).
Proof.
  intros Hle [Hn1 Hf1] [Hn2 Hf2]. unfold addresses. rewrite forest_objs_app, List.map_app. split.
  - apply NoDup_app. split; [done|]. split; [|done]. intros x (o & -> & Ho)%list_elem_of_fmap (o' & He & Ho')%list_elem_of_fmap.
    rewrite Forall_forall in Hf1, Hf2. specialize (Hf1 o Ho). specialize (Hf2 o' Ho'). lia.
  - apply Forall_app. split; (eapply Forall_impl; [eassumption|]; simpl; lia).
Qed.

Lemma addresses_node o lo hi ts : o_addr o = lo -> lo < hi -> addresses (lo + 1) hi ts -> addresses lo hi [Node o ts].
Proof.
  intros Ho Hlt [Hn Hf]. unfold addresses. rewrite forest_objs_cons, tree_objs_node.
  change (forest_objs []) with (@nil (hwloc_obj B)). rewrite app_nil_r. split.
  - cbn [map]. constructor; [|done]. intros (o' & He & Ho')%list_elem_of_fmap.
    rewrite Forall_forall in Hf. specialize (Hf o' Ho'). lia.
  - constructor; [lia|]. eapply Forall_impl; [exact Hf|]. simpl. lia.
Qed.

(** What building [n] objects of [lvs], the first of index [k], does. *)
Definition builds (ro0 : hwloc_obj B) (levels lvs : list synthetic_level) (level : nat) (k : Z) (n : nat)
    (front : list (obj_tree B)) (st : look_state B) (parent : B)
    (out : look_state B * Z * B) : Prop :=
  let '(st', first', parent') := out in
  exists ts, length ts = n /\ (forall j t, ts !! j = Some t -> is_subtree lvs (k + Z.of_nat j) t) /\
    building ro0 (k_root st') (front ++ ts) (first') /\ first' = (k + Z.of_nat n) * width lvs /\
    drop level (k_ids st') = ids_at lvs (k + Z.of_nat n) /\ take level (k_ids st') = take level (k_ids st) /\
    bfin parent' = bfin parent /\ k_next st <= k_next st' /\ addresses (k_next st) (k_next st') ts /\
    (forall i, 0 <= i -> bm parent' i = bm parent i || ((k * width lvs <=? i) && (i <? first'))).

(** If one object can be built, so can [n] in a row. *)
Lemma builds_many ro0 levels lvs level fuel a :
  regular lvs = true ->
  (forall k st front parent, 0 <= k -> (k + 1) * width lvs <= a -> drop level (k_ids st) = ids_at lvs k ->
    building ro0 (k_root st) front (k * width lvs) ->
    returns (hwloc__look_synthetic fuel levels level (st, k * width lvs, parent)) (builds ro0 levels lvs level k 1 front st parent)) ->
  forall n k st front parent, 0 <= k -> (k + Z.of_nat n) * width lvs <= a -> drop level (k_ids st) = ids_at lvs k ->
    building ro0 (k_root st) front (k * width lvs) ->
    returns (repeat_times n (hwloc__look_synthetic fuel levels level) (st, k * width lvs, parent))
      (builds ro0 levels lvs level k n front st parent).
Proof.
  intros Hreg Hone. pose proof (width_pos lvs Hreg) as Hw. induction n as [|n IH]; intros k st front parent Hk Ha Hids Hb.
  - apply returns_ret. exists []. rewrite app_nil_r, Z.add_0_r. split_and!; try done; [by split; constructor|]. intros i Hi.
    replace ((k * width lvs <=? i) && (i <? k * width lvs)) with false by (case_tests; done || lia). by rewrite orb_false_r.
  - cbn [repeat_times]. eapply returns_bind; [apply Hone; [done|nia|done|exact Hb]|].
    intros [[st1 first1] parent1] (ts1 & Hlen1 & Hts1 & Hb1 & -> & Hids1 & Htake1 & Hfin1 & Hn1 & Had1 & Hm1).
    destruct ts1 as [|t [|]]; try done. change (Z.of_nat 1) with 1 in *.
    eapply returns_mono; [apply (IH (k + 1) st1 (front ++ [t]) parent1); [lia|nia|done|done]|].
    intros [[st2 first2] parent2] (ts2 & Hlen2 & Hts2 & Hb2 & -> & Hids2 & Htake2 & Hfin2 & Hn2 & Had2 & Hm2).
    replace (k + 1 + Z.of_nat n) with (k + Z.of_nat (S n)) in * by lia.
    exists (t :: ts2). split; [simpl; lia|]. split; [|split; [|split; [|split; [|split; [|split; [|split; [|split]]]]]]]; try done.
    + intros [|j] c Hc; simpl in Hc; [injection Hc as <-; by apply (Hts1 O)|].
      replace (k + Z.of_nat (S j)) with (k + 1 + Z.of_nat j) by lia. by apply Hts2.
    + by rewrite <- app_assoc in Hb2.
    + congruence.
    + congruence.
    + lia.
    + apply (addresses_app _ (k_next st1) _ [t]); [lia|done|done].
    + intros i Hi. rewrite Hm2, Hm1 by done. destruct (bm parent i); [done|]. case_tests; done || nia.
Qed.

Lemma drop_cons_lookup {A} (l : list A) n x l' : drop n l = x :: l' -> l !! n = Some x /\ drop (S n) l = l'.
Proof.
  intros Hd. split.
  - rewrite <- (Nat.add_0_r n), <- lookup_drop, Hd. done.
  - by rewrite <- Nat.add_1_r, <- drop_drop, Hd.
Qed.

(** The end of a level: the object is made and inserted above [kids]. *)
Lemma look_end ro0 root front kids lv k w m addr c :
  full_root ro0 -> buildable lv = true -> 0 <= k < CPU_MAX -> 1 <= w -> k * w <= m <= (k + 1) * w ->
  building ro0 root (front ++ kids) m -> is_range c (k * w) ((k + 1) * w) ->
  Forall (fun t => obj_ok (t_obj t) /\ forall i, 0 <= i -> bm (cs (t_obj t)) i = true -> i < k * w) front ->
  (forall obj, is_object lv k w obj -> Forall (contained obj) kids) ->
  exists obj root', post_hook lv (new_object addr lv k c) = Some obj /\
    hwloc__insert_object_by_cpuset root obj = Some (Inserted, root') /\
    is_object lv k w obj /\ building ro0 root' (front ++ [Node obj kids]) ((k + 1) * w) /\ o_addr obj = addr.
Proof.
  intros Hfull Hb Hk Hw Hm Hbuild Hc Hfront Hkids.
  destruct (post_hook_ok addr lv k w c Hb Hk Hc) as (obj & Hpost & Hobj & Harr & Hcs & Haddr).
  assert (obj_ok obj) as Hok by (apply (object_ok lv k w); [done|done|lia|done]).
  destruct (building_insert ro0 root front kids obj (k * w) m ((k + 1) * w)) as (root' & Hins & Hbuild');
    [done|done|nia|lia|done|by rewrite Hcs|done|done|by apply Hkids|].
  exists obj, root'. done.
Qed.

Lemma front_below ro0 root front n : building ro0 root front n ->
  Forall (fun t => obj_ok (t_obj t) /\ forall i, 0 <= i -> bm (cs (t_obj t)) i = true -> i < n) front.
Proof. by intros [_ _ Hf]. Qed.

Lemma look_one ro0 levels lvs : full_root ro0 -> regular lvs = true ->
  forall level fuel, drop level levels = lvs -> (length lvs <= fuel)%nat ->
  forall k st front parent, 0 <= k -> (k + 1) * width lvs <= CPU_MAX -> drop level (k_ids st) = ids_at lvs k ->
  building ro0 (k_root st) front (k * width lvs) ->
  returns (hwloc__look_synthetic fuel levels level (st, k * width lvs, parent)) (builds ro0 levels lvs level k 1 front st parent).
Proof.
  intros Hfull. induction lvs as [|lv lvs IH]; [done|]. intros Hreg level fuel Hdrop Hfuel k st front parent Hk Hmax Hids Hbuild.
  destruct fuel as [|fuel]; [simpl in Hfuel; lia|]. simpl in Hfuel.
  pose proof (width_pos _ Hreg) as Hpos. destruct (regular_inv _ _ Hreg) as (Hb & Hrest).
  destruct (drop_cons_lookup _ _ _ _ Hdrop) as [Hlv Hdrop']. cbn [ids_at] in Hids.
  destruct (drop_cons_lookup _ _ _ _ Hids) as [Hid Hids']. cbn [hwloc__look_synthetic].
  assert (k < CPU_MAX) as Hkmax by nia. unfold CPU_MAX in Hkmax.
  rewrite Hlv. cbn [mbind option_bind].
  assert (pre_hook (l_type lv) = true) as -> by (unfold buildable in Hb; by destruct (l_type lv)).
  rewrite Hid. cbn [mbind option_bind k_root k_ids k_next]. rewrite (u32_small (k + 1)) by lia.
  assert (level < length (k_ids st))%nat as Hlt by (by apply lookup_lt_Some in Hid).
  destruct lvs as [|lv' below].
  - (* a leaf *)
    assert (width [lv] = 1) as Hw1 by (cbn [width]; by rewrite Hrest). rewrite Hw1, ?Z.mul_1_r in *.
    rewrite Hrest. change (0 =? 0) with true. rewrite Hrest in Hids'. change (0 =? 0) with true in Hids'.
    cbn [mbind option_bind]. rewrite (u32_small (k + 1)) by lia.
    assert (is_range (b_set b_alloc k) (k * 1) ((k + 1) * 1)) as Hc.
    { split; [by rewrite bfin_set, bfin_alloc by (unfold CPU_MAX; lia)|]. intros i Hi.
      rewrite bm_set, bm_alloc by (unfold CPU_MAX; lia || done). case_tests; done || lia. }
    pose proof (front_below _ _ _ _ Hbuild) as Hfront. rewrite <- (app_nil_r front) in Hbuild.
    destruct (look_end ro0 (k_root st) front [] lv k 1 k (k_next st) (b_set b_alloc k)) as (obj & root' & Hpost & Hins & Hobj & Hbuild' & Haddr);
      [done|done|unfold CPU_MAX; lia|lia|lia|done|done|by rewrite Z.mul_1_r|done|].
    unfold new_object in Hpost. rewrite Hpost. cbn [mbind option_bind k_root k_ids k_next]. rewrite Hins. cbn [mbind option_bind].
    apply returns_ret. exists [Node obj []]. rewrite Hw1, !Z.mul_1_r in *. change (Z.of_nat 1) with 1 in *.
    split; [done|]. split; [|split; [|split; [|split; [|split; [|split; [|split; [|split]]]]]]]; try done.
    + intros [|j] t Ht; [|done]. injection Ht as <-. rewrite Z.add_0_r. cbn [is_subtree]. rewrite Hw1, Hrest. done.
    + cbn [k_ids]. rewrite drop_insert_ge, Nat.sub_diag, Hids by lia. cbn [ids_at list_insert insert]. rewrite Hrest. done.
    + cbn [k_ids]. by apply take_insert_ge.
    + rewrite bfin_or. destruct Hc as [-> _]. apply andb_true_r.
    + cbn [k_next]. lia.
    + cbn [k_next]. apply addresses_node; [done|lia|]. by split; constructor.
    + intros i Hi. destruct Hc as [_ Hc]. by rewrite bm_or, Hc by done.
  - (* a level with levels below *)
    destruct Hrest as (Ha & Hkey & Hreg'). pose proof (width_cons _ _ _ Hreg) as Hw. pose proof (width_pos _ Hreg') as Hpos'.
    remember (lv' :: below) as lvs' eqn:Hlvs'. set (w := width lvs') in *. set (a := l_arity lv) in *.
    destruct (Z.eqb_spec a 0) as [|_]; [lia|].
    set (st1 := mk_look (k_root st) (<[level := k + 1]> (k_ids st)) (k_next st + 1)).
    replace (k * width (lv :: lvs')) with (k * a * w) by (rewrite Hw; lia).
    assert (drop (S level) (k_ids st1) = ids_at lvs' (k * a)) as Hids1
      by (cbn [k_ids st1]; by rewrite drop_insert_lt by lia).
    rewrite Hw in Hbuild, Hmax. replace (k * (a * w)) with (k * a * w) in Hbuild by lia.
    eapply returns_bind; [apply (builds_many ro0 levels lvs' (S level) fuel CPU_MAX Hreg'
      (IH Hreg' (S level) fuel Hdrop' ltac:(lia)) (Z.to_nat a) (k * a) st1 front b_alloc); [nia|fold w; nia|done|done]|].
    intros [[st2 first2] c] (kids & Hlen & Hkids & Hbuild2 & -> & Hids2 & Htake2 & Hfin2 & Hn2 & Had2 & Hm2). fold w in Hbuild2, Hm2 |- *.
    replace ((k * a + Z.of_nat (Z.to_nat a)) * w) with ((k + 1) * (a * w)) in * by nia.
    assert (is_range c (k * (a * w)) ((k + 1) * (a * w))) as Hc.
    { split; [by rewrite Hfin2, bfin_alloc|]. intros i Hi. rewrite Hm2, bm_alloc by done.
      replace (k * a * w) with (k * (a * w)) by lia. done. }
    pose proof (front_below _ _ _ _ Hbuild) as Hfront. replace (k * a * w) with (k * (a * w)) in Hfront by lia.
    destruct (look_end ro0 (k_root st2) front kids lv k (a * w) ((k + 1) * (a * w)) (k_next st) c)
      as (obj & root' & Hpost & Hins & Hobj & Hbuild' & Haddr); [done|done|unfold CPU_MAX; lia|nia|nia|done|done|done| |].
    { intros obj Hobj. rewrite <- Hw in Hobj. apply Forall_forall. intros t [j Hj]%list_elem_of_lookup.
      pose proof (lookup_lt_Some _ _ _ Hj). rewrite Hlvs' in Hobj, Hreg.
      apply (kid_contained lv lv' below k (Z.of_nat j)); [done|done|fold a; lia|done|].
      rewrite <- Hlvs'. by apply Hkids. }
    unfold new_object in Hpost. rewrite Hpost. cbn [mbind option_bind k_root k_ids k_next]. rewrite Hins. cbn [mbind option_bind].
    apply returns_ret. exists [Node obj kids]. rewrite Hw. change (Z.of_nat 1) with 1.
    split; [done|]. split; [|split; [|split; [|split; [|split; [|split; [|split; [|split]]]]]]]; try done.
    + intros [|j] t Ht; [|done]. injection Ht as <-. rewrite Z.add_0_r. cbn [is_subtree]. rewrite Hw. fold a.
      split; [done|]. split; [lia|]. intros j c' Hj. by apply Hkids.
    + cbn [k_ids ids_at]. fold a. destruct (Z.eqb_spec a 0) as [|_]; [lia|].
      assert (k_ids st2 !! level = Some (k + 1)) as Hk1.
      { rewrite <- (lookup_take_lt (k_ids st2) (S level)), Htake2, lookup_take_lt by lia. cbn [k_ids st1].
        by apply list_lookup_insert_eq. }
      rewrite (drop_S _ (k + 1)) by done. rewrite Hids2. do 2 f_equal. lia.
    + cbn [k_ids]. assert (forall l l' : list Z, take (S level) l = take (S level) l' -> take level l = take level l') as Htk.
      { intros l l' Heq. apply (f_equal (take level)) in Heq. rewrite !take_take in Heq.
        by replace (level `min` S level)%nat with level in Heq by lia. }
      rewrite (Htk _ _ Htake2). cbn [k_ids st1]. by apply take_insert_ge.
    + rewrite bfin_or. destruct Hc as [-> _]. apply andb_true_r.
    + cbn [k_next st1] in *. lia.
    + cbn [k_next st1] in *. apply addresses_node; [done|lia|done].
    + intros i Hi. destruct Hc as [_ Hc]. by rewrite bm_or, Hc by done.
Qed.

Lemma zero_ids_regular lvs : regular lvs = true -> zero_ids lvs = Some (ids_at lvs 0).
Proof.
  induction lvs as [|lv lvs IH]; [done|]. intros (_ & Hr)%regular_inv. cbn [zero_ids ids_at].
  destruct lvs as [|lv' lvs].
  - by rewrite Hr.
  - destruct Hr as (Ha & _ & Hreg). destruct (Z.ltb_spec 0 (l_arity lv)); [|lia].
    destruct (Z.eqb_spec (l_arity lv) 0); [lia|]. by rewrite IH.
Qed.

(** The root before the backend builds: every CPU allowed, nothing complete yet. *)
Record fresh_root (ro : hwloc_obj B) : Prop := {
  fr_full : full_root ro;
  fr_complete : exists c, complete_cpuset (sets ro) = Some c /\ bempty c /\ bfin c = true;
  fr_nodes : exists c, complete_nodeset (sets ro) = Some c /\ bempty c;
}.

Lemma fresh_building ro : fresh_root ro -> building ro (Node ro []) [] 0.
Proof.
  intros [_ (cc & Hcc & He & Hf) (cn & Hcn & Hen)]. split.
  - exists cc, cn. split; [|split].
    + f_equal. destruct ro as [? ? ? ? ? ? ? st ? ?]. unfold with_complete_nodeset, with_complete_cpuset, with_sets. simpl in *.
      f_equal. destruct st. simpl in *. by rewrite Hcc, Hcn.
    + split; [done|]. intros i Hi. rewrite He by done. case_tests; done || lia.
    + intros i Hi. rewrite Hen by done. split; [done|]. intros (o & Ho & _). by apply not_elem_of_nil in Ho.
  - constructor; constructor.
  - constructor.
Qed.

(** What [hwloc_look_synthetic] makes of a fresh root. *)
Lemma look_synthetic_ok top lvs text ro next :
  1 <= l_arity top -> regular lvs = true -> l_arity top * width lvs <= CPU_MAX -> fresh_root ro ->
  exists ro' ts next', hwloc_look_synthetic (top :: lvs) text (Node ro []) next = Some (Node ro' ts, next') /\
    tree_wf (Node ro' ts) /\ Z.of_nat (length ts) = l_arity top /\
    (forall j t, ts !! j = Some t -> is_subtree lvs (Z.of_nat j) t) /\
    addresses next next' ts /\ o_type ro' = l_type top /\ (o_addr ro' = o_addr ro /\ os_index ro' = os_index ro) /\
    (ocpuset ro' = ocpuset ro /\ online_cpuset (sets ro') = online_cpuset (sets ro) /\
     allowed_cpuset (sets ro') = allowed_cpuset (sets ro) /\ onodeset ro' = onodeset ro) /\
    (exists cc, complete_cpuset (sets ro') = Some cc /\ is_range cc 0 (l_arity top * width lvs)) /\
    (exists cn, complete_nodeset (sets ro') = Some cn /\
       forall i, 0 <= i -> bm cn i = true <-> exists o, o ∈ forest_objs ts /\ in_nodeset i o).
Proof.
  intros Ha Hreg Hmax Hro. pose proof (width_pos _ Hreg) as Hpos.
  set (ro0 := with_type ro (l_type top)). set (n := Z.to_nat (l_arity top)).
  assert (Z.of_nat n = l_arity top) as Hn by lia.
  assert (fresh_root ro0) as Hro0 by (destruct Hro; by split).
  unfold hwloc_look_synthetic. cbn [zero_ids]. destruct (Z.ltb_spec 0 (l_arity top)); [|lia].
  rewrite zero_ids_regular by done. cbn [mbind option_bind lookup list_lookup]. fold ro0 n.
  set (st := mk_look (Node ro0 []) (0 :: ids_at lvs 0) next).
  destruct (builds_many ro0 (top :: lvs) lvs 1 (length (top :: lvs)) CPU_MAX Hreg
    (look_one ro0 (top :: lvs) lvs (fr_full _ Hro0) Hreg 1 (length (top :: lvs)) eq_refl (Nat.le_succ_diag_r (length lvs))) n 0 st [] b_alloc)
    as ([[st' first'] parent'] & Hrun & ts & Hlen & Hts & Hbuild & Hfirst & _ & _ & _ & _ & Haddr & _);
    [lia|by rewrite Z.add_0_l, Hn|done|by apply fresh_building|].
  cbn [app] in Hbuild. rewrite Z.mul_0_l in Hrun. rewrite Hrun. cbn [mbind option_bind].
  destruct Hbuild as [(cc & cn & Hroot & Hcc & Hcn) Hwf _]. rewrite Hroot in *.
  eexists _, ts, _. split; [reflexivity|]. split.
  { eapply update_root_wf; [|exact Hwf]. unfold rank_eq, obj_key. simpl. done. }
  split; [lia|]. split; [done|]. split; [done|]. split; [done|]. split; [done|]. split; [done|]. split.
  - exists cc. split; [done|]. by rewrite Hfirst, Z.add_0_l, Hn in Hcc.
  - by exists cn.
Qed.

End Shape.
