(* ===== verification/SyntheticParse.v ===== *)
(** * SyntheticParse: what the parser of descriptions gives

    The parser completes on every string, and what it accepts is described.  A string
    of numbers ("2 4 2" and the like) is parsed, typed from the PUs up, and gives
    levels that can be built.  A list of words and numbers is parsed as [outcome] says. *)

From Stdlib Require Import Ascii String.
From S2P Require Import Prelude Misc Bitmap BitmapSpec CString CStringOk Cpuset Obj ObjCmp Insert Synthetic SyntheticOk.

(** ** Every string is accepted or refused *)

Lemma skip_spaces_length s : (length (skip_spaces s) <= length s)%nat.
Proof. induction s as [|c s IH]; [done|]. cbn [skip_spaces]. destruct (isspace c); simpl in *; lia. Qed.

Lemma read_digits_length base a s : (length (snd (read_digits base a s)) <= length s)%nat.
Proof.
  revert a. induction s as [|c s IH]; intros a; [done|]. cbn [read_digits]. destruct (is_digit base c); [|done].
  specialize (IH (a * base + z)). simpl. lia.
Qed.

Lemma number_base_length base s : (length (snd (number_base base s)) <= length s)%nat.
Proof.
  destruct s as [|c s]; [done|]. destruct (ascii_dec c "0") as [->|Hc]; [|by rewrite number_base_other].
  destruct s as [|d s]; [done|]. unfold number_base. destruct (_ && _ && _); simpl; lia.
Qed.

(** The rest is shorter, or the string itself when there was no number. *)
Lemma strtoul_rest s base : snd (strtoul s base) = s \/ (length (snd (strtoul s base)) < length s)%nat.
Proof.
  unfold strtoul. pose proof (skip_spaces_length s) as Hs. set (s1 := skip_spaces s) in *.
  assert (forall neg s2, (length s2 <= length s1)%nat ->
    snd (let '(b, s3) := number_base base s2 in
      if starts_digit b s3 then
        let '(v, rest) := read_digits b 0 s3 in
        ((if ULONG_MAX <? v then ULONG_MAX else if neg : bool then u64 (- v) else v), rest)
      else (0, s)) = s \/
    (length (snd (let '(b, s3) := number_base base s2 in
      if starts_digit b s3 then
        let '(v, rest) := read_digits b 0 s3 in
        ((if (ULONG_MAX <? v)%Z then ULONG_MAX else if neg : bool then u64 (- v) else v), rest)
      else (0%Z, s))) < length s)%nat) as Hnum.
  { intros neg s2 Hs2. pose proof (number_base_length base s2) as Hb. destruct (number_base base s2) as [b s3]. simpl in Hb.
    destruct (starts_digit b s3) eqn:Hd; [|by left]. right.
    destruct s3 as [|c s3]; [done|]. simpl in Hd. apply bool_decide_eq_true in Hd as [d Hd].
    cbn [read_digits]. rewrite Hd. pose proof (read_digits_length b (0 * b + d) s3) as Hr.
    destruct (read_digits b _ s3) as [v rest]. simpl in *. lia. }
  destruct s1 as [|c s2]; [by apply (Hnum false)|].
  destruct c as [[] [] [] [] [] [] [] []]; first [apply (Hnum false); simpl; lia | apply (Hnum true); simpl; lia].
Qed.

Lemma skip_blanks_length s : (length (skip_blanks s) <= length s)%nat.
Proof.
  induction s as [|c s IH]; [done|]. destruct c as [[] [] [] [] [] [] [] []]; cbn [skip_blanks]; simpl in *; lia.
Qed.

Lemma strchr_length s c t : strchr s c = Some t -> (length t <= length s)%nat.
Proof.
  induction s as [|d s IH]; [done|]. cbn [strchr]. destruct (d =? c)%char; [by intros [= <-]|].
  intros Ht. specialize (IH Ht). simpl. lia.
Qed.

(** Items that were accepted. *)
Definition item_types : list hwloc_obj_type_t :=
  [HWLOC_OBJ_MACHINE; HWLOC_OBJ_NODE; HWLOC_OBJ_SOCKET; HWLOC_OBJ_CORE; HWLOC_OBJ_CACHE; HWLOC_OBJ_PU;
   HWLOC_OBJ_MISC; HWLOC_OBJ_GROUP].

Definition item_ok (it : level_item) : Prop :=
  0 <= i_arity it <= UINT_MAX /\ match i_type it with Some t => t ∈ item_types | None => True end.

Lemma level_type_ok pos : match level_type pos with Some t => t ∈ item_types | None => True end.
Proof.
  unfold level_type. repeat match goal with |- context [if ?b then _ else _] => destruct b end; try done;
    apply list_elem_of_In; simpl; tauto.
Qed.

Lemma strtoul_nonneg s base : 0 <= base -> 0 <= fst (strtoul s base).
Proof.
  intros Hb. assert (forall b, 0 <= b -> forall a t, 0 <= a -> 0 <= fst (read_digits b a t)) as Hread.
  { intros b Hb' a t. revert a. induction t as [|c t IH]; intros a Ha; [done|]. cbn [read_digits].
    destruct (is_digit b c) as [d|] eqn:Hd; [|done]. apply IH.
    assert (0 <= d); [|nia]. unfold is_digit, char_digit in Hd.
    repeat match goal with H : context [if ?b then _ else _] |- _ => destruct b eqn:? end; simplify_eq;
      repeat match goal with H : _ && _ = true |- _ => apply andb_prop in H as [? ?] end; lia. }
  assert (forall t, 0 <= fst (number_base base t)) as Hbase.
  { intros t. destruct t as [|c t]; [simpl; destruct (base =? 0); simpl; lia|].
    destruct (ascii_dec c "0") as [->|Hc].
    - destruct t as [|d t]; unfold number_base; [|destruct (_ && _ && _)]; simpl; try lia; destruct (base =? 0); simpl; lia.
    - rewrite number_base_other by done. simpl. destruct (base =? 0); lia. }
  unfold strtoul. match goal with |- context [let '(neg, s2) := ?m in _] => destruct m as [neg s2] end.
  specialize (Hbase s2). destruct (number_base base s2) as [b s3]. simpl in Hbase. destruct (starts_digit b s3); [|done].
  specialize (Hread b Hbase 0 s3 ltac:(lia)). destruct (read_digits b 0 s3) as [v rest]. simpl in *.
  destruct (Z.ltb_spec ULONG_MAX v); [done|]. destruct neg; [apply u64_range|done].
Qed.

Lemma parse_levels_ok fuel pos items count :
  (length pos <= fuel)%nat -> Forall item_ok items -> count = Z.of_nat (length items) + 1 -> count < HWLOC_SYNTHETIC_MAX_DEPTH ->
  exists r, parse_levels fuel pos items count = Some r /\
    match r with
    | inl e => e = NoColon \/ e = NoNumber \/ e = TooManyLevels \/ e = TooBigArity
    | inr items' => Forall item_ok items' /\ Z.of_nat (length items') + 1 < HWLOC_SYNTHETIC_MAX_DEPTH
    end.
Proof.
  revert pos items count. induction fuel as [|fuel IH]; intros pos items count Hfuel Hitems Hcount Hmax.
  { destruct pos; [|simpl in Hfuel; lia]. exists (inr items). split; [done|]. split; [done|lia]. }
  cbn [parse_levels]. destruct pos as [|c0 pos0]; [exists (inr items); split; [done|]; split; [done|lia]|].
  set (pos := c0 :: pos0) in *. pose proof (skip_blanks_length pos) as Hskip.
  destruct (skip_blanks pos) as [|c pos1] eqn:Hblank; [exists (inr items); split; [done|]; split; [done|lia]|].
  match goal with |- context [match ?m with inl e => Some (inl e) | inr p => _ end] => set (after_type := m) end.
  assert (match after_type with inl e => e = NoColon
    | inr (ty, p) => match ty with Some t => t ∈ item_types | None => True end /\ (length p <= length pos)%nat end) as Haft.
  { subst after_type. destruct (is_decimal c); [split; [done|lia]|].
    destruct (strchr (c :: pos1) ":") as [t|] eqn:Ht; [|done]. split; [apply level_type_ok|].
    apply strchr_length in Ht. destruct t; simpl in *; lia. }
  destruct after_type as [e|[ty p]]; [exists (inl e); split; [done|]; by left|]. destruct Haft as [Hty Hp].
  pose proof (strtoul_rest p 0) as Hrest. pose proof (strtoul_nonneg p 0 ltac:(lia)) as Hnn.
  destruct (strtoul p 0) as [v rest]. simpl in Hrest, Hnn.
  destruct (Nat.eqb_spec (length rest) (length p)); [exists (inl NoNumber); split; [done|tauto]|].
  destruct (Z.leb_spec HWLOC_SYNTHETIC_MAX_DEPTH (count + 1)); [exists (inl TooManyLevels); split; [done|tauto]|].
  destruct (Z.ltb_spec UINT_MAX v); [exists (inl TooBigArity); split; [done|tauto]|].
  destruct Hrest as [->|Hrest]; [done|].
  apply IH; [lia| |rewrite length_app; simpl; lia|lia].
  apply Forall_app. split; [done|]. apply Forall_singleton. by split.
Qed.

(** More fuel changes nothing. *)
Lemma parse_more fuel pos items count r :
  parse_levels fuel pos items count = Some r -> parse_levels (S fuel) pos items count = Some r.
Proof.
  revert pos items count. induction fuel as [|fuel IH]; intros pos items count Hr; [by destruct pos|].
  cbn [parse_levels] in Hr. change (parse_levels (S (S fuel)) pos items count) with
    (match pos with [] => Some (inr items) | _ => match skip_blanks pos with
      | [] => Some (inr items)
      | (c :: _) as pos =>
        match (if is_decimal c then inr (None, pos)
               else match strchr pos ":" with None => inl NoColon | Some next_pos => inr (level_type pos, List.tl next_pos) end) with
        | inl e => Some (inl e)
        | inr (type, pos) => let '(item, next_pos) := strtoul pos 0 in
          if (length next_pos =? length pos)%nat then Some (inl NoNumber) else
          if HWLOC_SYNTHETIC_MAX_DEPTH <=? count + 1 then Some (inl TooManyLevels) else
          if UINT_MAX <? item then Some (inl TooBigArity) else
          parse_levels (S fuel) next_pos (items ++ [mk_item type item]) (count + 1)
        end end end).
  destruct pos as [|c0 pos]; [exact Hr|]. destruct (skip_blanks (c0 :: pos)) as [|c s]; [exact Hr|].
  revert Hr. cbv zeta.
  match goal with |- match ?m with inl e => Some (inl e) | inr p => _ end = _ -> _ => destruct m as [e|[ty p]]; [done|] end.
  destruct (strtoul p 0) as [v rest]. destruct (length rest =? length p)%nat; [done|]. destruct (_ <=? _); [done|].
  destruct (UINT_MAX <? v); [done|]. apply IH.
Qed.

(** ** The types of the levels *)

Definition count_type (t : hwloc_obj_type_t) (types : list hwloc_obj_type_t) : Z :=
  Z.of_nat (length (filter (fun u => u = t) types)).

Lemma count_type_cons t u types : count_type t (u :: types) = (if bool_decide (u = t) then 1 else 0) + count_type t types.
Proof.
  unfold count_type. destruct (decide (u = t)) as [->|Hne].
  - rewrite filter_cons_True, bool_decide_true by done. simpl length. lia.
  - rewrite filter_cons_False, bool_decide_false by done. lia.
Qed.

(** [n'] is [n] with the levels of [types] counted. *)
Definition counted (n n' : level_counts) (types : list hwloc_obj_type_t) : Prop :=
  nb_pu n' = nb_pu n + count_type HWLOC_OBJ_PU types /\
  nb_node n' = nb_node n + count_type HWLOC_OBJ_NODE types /\
  nb_machine n' = nb_machine n + count_type HWLOC_OBJ_MACHINE types /\
  n_cache n' = n_cache n + count_type HWLOC_OBJ_CACHE types /\
  n_group n' = n_group n + count_type HWLOC_OBJ_GROUP types.

Lemma default_type_ok below : match below with Some t => t ∈ item_types | None => True end ->
  exists t, default_type below = Some t /\ t ∈ item_types.
Proof.
  intros Hb. destruct below as [t|]; [|exists HWLOC_OBJ_PU; split; [done|apply list_elem_of_In; simpl; tauto]].
  destruct t; try (by apply list_elem_of_In in Hb; simpl in Hb; naive_solver);
    eexists; (split; [done|apply list_elem_of_In; simpl; tauto]).
Qed.

Lemma resolve_types_ok items below n :
  Forall item_ok items -> match below with Some t => t ∈ item_types | None => True end ->
  exists r, resolve_types items below n = Some r /\
    match r with
    | inl e => e = SeveralPULevels
    | inr (types, n') => length types = length items /\ Forall (fun t => t ∈ item_types) types /\ counted n n' types
    end.
Proof.
  intros Hitems. revert below n. induction Hitems as [|it items [Ha Ht] Hitems IH]; intros below n Hb.
  { exists (inr ([], n)). split; [done|]. split; [done|]. split; [done|]. unfold counted, count_type. simpl. lia. }
  cbn [resolve_types].
  assert (exists t, match i_type it with Some t => Some t | None => default_type below end = Some t /\ t ∈ item_types)
    as (t & -> & Hin) by (destruct (i_type it) as [t|]; [by exists t|by apply default_type_ok]).
  cbn [mbind option_bind]. destruct (_ && _); [by exists (inl SeveralPULevels)|].
  match goal with |- context [resolve_types items (Some t) ?m] => set (n1 := m) end.
  destruct (IH (Some t) n1 Hin) as ([e|[types n']] & -> & Hr); cbn [mbind option_bind]; [by exists (inl e)|].
  destruct Hr as (Hlen & Htypes & Hc). exists (inr (t :: types, n')). split; [done|]. split; [simpl; lia|].
  split; [by constructor|]. unfold counted in *. rewrite !count_type_cons. subst n1.
  destruct t; cbn [bool_decide decide nb_pu nb_node nb_machine n_cache n_group] in *; simpl; lia.
Qed.

Lemma count_type_rev t types : count_type t (rev types) = count_type t types.
Proof. unfold count_type. by rewrite (Permutation_length (filter_Permutation _ _ _ (Permutation_rev types))). Qed.

Lemma level_depths_length types c g : length (level_depths types c g) = length types.
Proof. revert c g. induction types as [|t types IH]; intros c g; [done|]. destruct t; simpl; by rewrite IH. Qed.

Lemma mk_levels_map types arities depths :
  length arities = length types -> length depths = length types ->
  map l_type (mk_levels types arities depths) = types /\ map l_arity (mk_levels types arities depths) = arities /\
  map l_depth (mk_levels types arities depths) = depths.
Proof.
  revert arities depths. induction types as [|t types IH]; intros [|a arities] [|d depths] Ha Hd; try done.
  simpl in *. destruct (IH arities depths ltac:(lia) ltac:(lia)) as (-> & -> & ->). done.
Qed.

Lemma level_depths_some types c g :
  Forall2 (fun t d => is_Some d <-> t = HWLOC_OBJ_CACHE \/ t = HWLOC_OBJ_GROUP) types (level_depths types c g).
Proof.
  revert c g. induction types as [|t types IH]; intros c g; [constructor|].
  destruct t; cbn [level_depths]; (constructor; [|apply IH]); split; try done; try (by intros [? ?]);
    try (intros _; naive_solver); naive_solver.
Qed.

(** What is known of accepted levels. *)
Record accepted (levels : list synthetic_level) : Prop := {
  ac_levels : exists top lvs, levels = top :: lvs /\
    Forall (fun lv => l_type lv ∈ item_types) lvs /\
    l_type top = (if count_type HWLOC_OBJ_MACHINE (map l_type lvs) =? 0 then HWLOC_OBJ_MACHINE else HWLOC_OBJ_SYSTEM) /\
    count_type HWLOC_OBJ_PU (map l_type lvs) = 1 /\ count_type HWLOC_OBJ_NODE (map l_type lvs) <= 1 /\
    count_type HWLOC_OBJ_MACHINE (map l_type lvs) <= 1;
  ac_length : Z.of_nat (length levels) < HWLOC_SYNTHETIC_MAX_DEPTH;
  ac_arity : Forall (fun lv => 0 <= l_arity lv <= UINT_MAX) levels;
  ac_last : l_arity <$> last levels = Some 0;
  ac_depth : Forall (fun lv => is_Some (l_depth lv) <-> l_type lv = HWLOC_OBJ_CACHE \/ l_type lv = HWLOC_OBJ_GROUP) levels;
}.

Lemma mk_levels_depth types arities depths :
  length arities = length types -> Forall2 (fun t d => is_Some d <-> t = HWLOC_OBJ_CACHE \/ t = HWLOC_OBJ_GROUP) types depths ->
  Forall (fun lv => is_Some (l_depth lv) <-> l_type lv = HWLOC_OBJ_CACHE \/ l_type lv = HWLOC_OBJ_GROUP)
    (mk_levels types arities depths).
Proof.
  intros Ha Hd. revert arities Ha. induction Hd as [|t d types depths Htd Hd IH]; intros [|a arities] Ha; try done; [constructor..|].
  simpl in *. constructor; [done|]. apply IH. lia.
Qed.

Lemma map_last {A B} (f : A -> B) l : last (map f l) = f <$> last l.
Proof. apply fmap_last. Qed.

Lemma synthetic_init_ok description :
  exists r, hwloc_backend_synthetic_init description = Some r /\ match r with inl _ => True | inr levels => accepted levels end.
Proof.
  unfold hwloc_backend_synthetic_init.
  destruct (parse_levels_ok (length description) description [] 1) as ([e|items] & -> & Hitems);
    [done|constructor|done|done|by exists (inl e)|]. cbn [mbind option_bind]. destruct Hitems as [Hitems Hlen].
  destruct (resolve_types_ok (rev items) None (mk_counts 0 0 0 0 0)) as ([e|[types n]] & -> & Hr);
    [by apply Forall_rev|done|by exists (inl e)|]. cbn [mbind option_bind]. destruct Hr as (Htl & Htypes & Hc).
  rewrite length_rev in Htl. unfold counted in Hc. cbn [nb_pu nb_node nb_machine n_cache n_group] in Hc.
  destruct (Z.eqb_spec (nb_pu n) 0); [by exists (inl MissingPULevel)|].
  destruct (Z.ltb_spec 1 (nb_pu n)); [by exists (inl SeveralPULevels)|].
  destruct (Z.ltb_spec 1 (nb_node n)); [by exists (inl SeveralNodeLevels)|].
  destruct (Z.ltb_spec 1 (nb_machine n)); [by exists (inl SeveralMachineLevels)|].
  match goal with |- context [mk_levels (?r :: rev types) ?a ?d] => set (root := r); set (arities := a); set (depths := d) end.
  eexists. split; [reflexivity|].
  assert (length arities = length (root :: rev types)) as Hla
    by (unfold arities; rewrite length_app, length_map; simpl; rewrite length_rev; lia).
  assert (length depths = length (root :: rev types)) as Hld by (unfold depths; by rewrite level_depths_length).
  destruct (mk_levels_map (root :: rev types) arities depths Hla Hld) as (Hmt & Hma & _).
  pose proof (mk_levels_depth (root :: rev types) arities depths Hla (level_depths_some _ _ _)) as Hdep.
  set (levels := mk_levels (root :: rev types) arities depths) in *.
  assert (0 <= count_type HWLOC_OBJ_PU types) by (unfold count_type; lia).
  change (accepted levels). split.
  - destruct levels as [|top lvs] eqn:Hlv; [done|]. exists top, lvs. simpl in Hmt. injection Hmt as Htop Hmt.
    rewrite Hmt, !count_type_rev. split; [done|]. split.
    { apply (Forall_fmap l_type (fun t => t ∈ item_types) lvs). change (l_type <$> lvs) with (map l_type lvs).
      rewrite Hmt. by apply Forall_rev. }
    split_and!; [|lia..]. rewrite Htop. unfold root.
    destruct (Z.eqb_spec (nb_machine n) 0), (Z.eqb_spec (count_type HWLOC_OBJ_MACHINE types) 0); try done; lia.
  - assert (length levels = length arities) as -> by (rewrite <- Hma; by rewrite length_map).
    unfold arities. rewrite length_app, length_map. simpl. lia.
  - apply (Forall_fmap l_arity (fun a => 0 <= a <= UINT_MAX) levels). change (l_arity <$> levels) with (map l_arity levels).
    rewrite Hma. unfold arities. apply Forall_app. split.
    + apply (Forall_fmap i_arity (fun a => 0 <= a <= UINT_MAX) items). eapply Forall_impl; [exact Hitems|]. by intros it [? _].
    + apply Forall_singleton. unfold UINT_MAX. lia.
  - rewrite <- map_last, Hma. unfold arities. by rewrite last_snoc.
  - exact Hdep.
Qed.

Fixpoint numbers_text (ns : list Z) : chars :=
  match ns with
  | [] => []
  | n :: ns => fmt_d n ++ match ns with [] => [] | _ => " "%char :: numbers_text ns end
  end.

Definition numbers_ok (ns : list Z) : Prop := Forall (fun n => 1 <= n < 2 ^ 31) ns.

(** ** Parsing *)

Lemma fmt_d_digit n : 0 <= n < 2 ^ 31 -> exists c s, fmt_d n = c :: s /\ is_decimal c = true /\ c <> " "%char.
Proof.
  intros Hn. unfold fmt_d. destruct (Z.ltb_spec n 0); [lia|].
  destruct (print_num_text 10 n ltac:(lia) ltac:(lia)) as [Hds _ Hne _ _]. destruct (print_num 10 n) as [|c s]; [done|].
  apply Forall_cons in Hds as [Hc _]. exists c, s. split; [done|]. split; [|by apply (digit_not 10)].
  apply digit_code in Hc. unfold is_decimal. apply andb_true_iff. rewrite !Z.leb_le. lia.
Qed.

Lemma skip_blanks_id c s : c <> " "%char -> skip_blanks (c :: s) = c :: s.
Proof. intros Hc. destruct c as [[] [] [] [] [] [] [] []]; done. Qed.

(** One number is an item without a type. *)
Lemma parse_number fuel n rest items count blank :
  0 <= n < 2 ^ 31 -> item_end rest -> count + 1 < HWLOC_SYNTHETIC_MAX_DEPTH ->
  parse_levels (S fuel) ((if blank : bool then [" "%char] else []) ++ fmt_d n ++ rest) items count
  = parse_levels fuel rest (items ++ [mk_item None n]) (count + 1).
Proof.
  intros Hn Hrest Hcount. destruct (fmt_d_digit n Hn) as (c & s & Hfmt & Hdec & Hc).
  pose proof (fmt_d_reads n rest Hn Hrest) as Hread. rewrite Hfmt in *. cbn [app] in *.
  assert (forall b : bool, skip_blanks ((if b then [" "%char] else []) ++ c :: s ++ rest) = c :: s ++ rest) as Hskip
    by (intros []; exact (skip_blanks_id c (s ++ rest) Hc)).
  specialize (Hskip blank). cbn [parse_levels].
  destruct ((if blank then [" "%char] else []) ++ c :: s ++ rest) as [|d t] eqn:Hcur; [by destruct blank|].
  rewrite Hskip, Hdec. cbv iota beta. rewrite Hread.
  destruct (Nat.eqb_spec (length rest) (length (c :: s ++ rest))) as [Heq|_].
  { simpl in Heq. rewrite length_app in Heq. lia. }
  destruct (Z.leb_spec HWLOC_SYNTHETIC_MAX_DEPTH (count + 1)); [lia|].
  by destruct (Z.ltb_spec UINT_MAX n); [unfold UINT_MAX in *; lia|].
Qed.

Lemma parse_numbers ns fuel items count blank :
  numbers_ok ns -> count + Z.of_nat (length ns) < HWLOC_SYNTHETIC_MAX_DEPTH ->
  (length (numbers_text ns) < fuel)%nat ->
  parse_levels fuel ((if blank : bool then [" "%char] else []) ++ numbers_text ns) items count
  = Some (inr (items ++ map (mk_item None) ns)).
Proof.
  intros Hns. revert fuel items count blank. induction Hns as [|n ns Hn Hns IH]; intros fuel items count blank Hcount Hfuel.
  - destruct fuel as [|fuel]; [simpl in Hfuel; lia|]. destruct blank; cbn; by rewrite app_nil_r.
  - destruct fuel as [|fuel]; [lia|]. cbn [numbers_text] in *. simpl length in Hcount.
    pose proof (fmt_d_short n ltac:(lia)). rewrite length_app in Hfuel.
    rewrite parse_number; [|lia|by destruct ns|lia].
    cbn [map]. replace (items ++ mk_item None n :: map (mk_item None) ns)
      with ((items ++ [mk_item None n]) ++ map (mk_item None) ns) by (by rewrite <- app_assoc).
    destruct ns as [|n' ns].
    + rewrite app_nil_r. by destruct fuel.
    + change (" "%char :: ?s) with ((if true then [" "%char] else []) ++ s).
      apply IH; [lia|]. simpl length in Hfuel |- *. lia.
Qed.

(** ** Types *)

Definition next_type (t : hwloc_obj_type_t) : hwloc_obj_type_t :=
  match t with
  | HWLOC_OBJ_PU => HWLOC_OBJ_CORE | HWLOC_OBJ_CORE => HWLOC_OBJ_CACHE | HWLOC_OBJ_CACHE => HWLOC_OBJ_SOCKET
  | HWLOC_OBJ_SOCKET => HWLOC_OBJ_NODE | _ => HWLOC_OBJ_GROUP
  end.

Fixpoint types_from (t : hwloc_obj_type_t) (k : nat) : list hwloc_obj_type_t :=
  match k with O => [] | S k => t :: types_from (next_type t) k end.

Definition chain_type (t : hwloc_obj_type_t) : bool :=
  match t with
  | HWLOC_OBJ_PU | HWLOC_OBJ_CORE | HWLOC_OBJ_CACHE | HWLOC_OBJ_SOCKET | HWLOC_OBJ_NODE | HWLOC_OBJ_GROUP => true
  | _ => false
  end.

Lemma resolve_numbers ns below t n :
  default_type below = Some t -> chain_type t = true -> t <> HWLOC_OBJ_PU \/ nb_pu n = 0 ->
  exists n', resolve_types (map (mk_item None) ns) below n = Some (inr (types_from t (length ns), n')).
Proof.
  revert below t n. induction ns as [|a ns IH]; intros below t n Hd Ht Hpu; [by exists n|].
  cbn [map resolve_types i_type]. rewrite Hd. cbn [mbind option_bind].
  assert (bool_decide (t = HWLOC_OBJ_PU) && negb (nb_pu n =? 0) = false) as ->.
  { destruct Hpu as [Hne | ->]; [by rewrite bool_decide_false|by rewrite andb_false_r]. }
  match goal with |- context [resolve_types _ (Some t) ?m] => destruct (IH (Some t) (next_type t) m) as [n' ->] end.
  - by destruct t.
  - by destruct t.
  - left. by destruct t.
  - by exists n'.
Qed.

Lemma groups_from k : types_from HWLOC_OBJ_GROUP k = replicate k HWLOC_OBJ_GROUP.
Proof. induction k as [|k IH]; [done|]. cbn [types_from next_type replicate]. by rewrite IH. Qed.

Definition bottom_types : list hwloc_obj_type_t :=
  [HWLOC_OBJ_NODE; HWLOC_OBJ_SOCKET; HWLOC_OBJ_CACHE; HWLOC_OBJ_CORE; HWLOC_OBJ_PU].

Lemma rev_replicate {A} (x : A) k : rev (replicate k x) = replicate k x.
Proof. rewrite <- reverse_replicate at 1. unfold reverse. by rewrite rev_append_rev, app_nil_r, rev_involutive. Qed.

(** From the top: groups, then the last of the usual levels. *)
Definition numeric_types (k : nat) : list hwloc_obj_type_t :=
  replicate (k - 5) HWLOC_OBJ_GROUP ++ drop (5 - k) bottom_types.

Lemma types_from_numeric k : rev (types_from HWLOC_OBJ_PU k) = numeric_types k.
Proof.
  unfold numeric_types. destruct k as [|[|[|[|[|k]]]]]; try done. cbn [types_from next_type rev Nat.sub].
  rewrite groups_from, rev_replicate, Nat.sub_0_r, <- !app_assoc. done.
Qed.

Lemma count_groups t k : t <> HWLOC_OBJ_GROUP -> count_type t (replicate k HWLOC_OBJ_GROUP) = 0.
Proof. intros Ht. induction k as [|k IH]; [done|]. cbn [replicate]. rewrite count_type_cons, bool_decide_false, IH by done. done. Qed.

Lemma count_numbers k : (1 <= k)%nat ->
  count_type HWLOC_OBJ_PU (types_from HWLOC_OBJ_PU k) = 1 /\
  0 <= count_type HWLOC_OBJ_NODE (types_from HWLOC_OBJ_PU k) <= 1 /\
  count_type HWLOC_OBJ_MACHINE (types_from HWLOC_OBJ_PU k) = 0 /\
  count_type HWLOC_OBJ_CACHE (types_from HWLOC_OBJ_PU k) = (if (3 <=? k)%nat then 1 else 0) /\
  count_type HWLOC_OBJ_GROUP (types_from HWLOC_OBJ_PU k) = Z.of_nat (k - 5).
Proof.
  intros Hk. destruct k as [|[|[|[|[|k]]]]]; try lia; try (cbv; repeat split; done || lia).
  cbn [types_from next_type]. rewrite groups_from, !count_type_cons, !count_groups by done. cbn [bool_decide decide].
  assert (count_type HWLOC_OBJ_GROUP (replicate k HWLOC_OBJ_GROUP) = Z.of_nat k) as ->.
  { induction k as [|k IH]; [done|]. cbn [replicate]. rewrite count_type_cons, bool_decide_true, IH by (done || lia). lia. }
  repeat split; simpl; lia.
Qed.

(** ** Levels *)

Definition product (ns : list Z) : Z := foldr Z.mul 1 ns.

Lemma product_pos ns : numbers_ok ns -> 1 <= product ns.
Proof. induction 1 as [|n ns Hn Hns IH]; simpl in *; [lia|nia]. Qed.

Lemma width_levels types ns depths :
  numbers_ok ns -> length types = S (length ns) -> length depths = S (length ns) ->
  width (mk_levels types (ns ++ [0]) depths) = product ns.
Proof.
  intros Hns. revert types depths. induction Hns as [|n ns Hn Hns IH]; intros [|t types] [|d depths] Ht Hd; try done.
  simpl in *. destruct (Z.eqb_spec n 0); [lia|]. rewrite IH by lia. done.
Qed.

Lemma regular_bottom k ns c : (1 <= k <= 5)%nat -> numbers_ok ns -> S (length ns) = k -> ((3 <= k)%nat -> c = 2) ->
  regular (mk_levels (drop (5 - k) bottom_types) (ns ++ [0]) (level_depths (drop (5 - k) bottom_types) c 0)) = true.
Proof.
  intros Hk Hns Hlen Hc.
  assert (forall n, 1 <= n < 2 ^ 31 -> (1 <=? n) = true) as Hone by (intros; apply Z.leb_le; lia).
  destruct k as [|[|[|[|[|[|k]]]]]]; try lia; destruct ns as [|n1 [|n2 [|n3 [|n4 [|]]]]]; try done;
    unfold numbers_ok in Hns; rewrite ?Forall_cons in Hns; try (rewrite (Hc ltac:(lia))); cbn -[Z.leb Z.eqb u32];
    rewrite ?Hone by tauto; change (u32 2) with 2; cbn -[Z.eqb]; rewrite ?orb_true_r, ?Hone by tauto; done.
Qed.

Lemma regular_groups g gs T As c :
  numbers_ok gs -> length gs = g -> Z.of_nat g < 2 ^ 32 -> head T = Some HWLOC_OBJ_NODE -> As <> [] ->
  regular (mk_levels T As (level_depths T c 0)) = true ->
  regular (mk_levels (replicate g HWLOC_OBJ_GROUP ++ T) (gs ++ As) (level_depths (replicate g HWLOC_OBJ_GROUP ++ T) c (Z.of_nat g))) = true.
Proof.
  intros Hgs Hlen Hg HT HAs Hreg. revert g Hlen Hg. induction Hgs as [|a gs Ha Hgs IH]; intros g Hlen Hg; subst g; [done|].
  cbn [length replicate app level_depths mk_levels].
  replace (Z.of_nat (S (length gs)) - 1) with (Z.of_nat (length gs)) by lia.
  specialize (IH (length gs) eq_refl ltac:(simpl in Hg; lia)). simpl in Hg.
  set (rest := mk_levels (replicate (length gs) HWLOC_OBJ_GROUP ++ T) (gs ++ As) _) in *.
  assert (exists lv' below, rest = lv' :: below /\
    okey_compare (level_key (mk_level HWLOC_OBJ_GROUP a (Some (u32 (Z.of_nat (S (length gs))))))) (level_key lv') = Lt) as (lv' & below & Hrest & Hkey).
  { subst rest. destruct gs as [|b gs].
    - destruct T as [|t T]; [done|]. destruct As as [|x As]; [done|]. simpl in HT. injection HT as ->.
      cbn [length replicate app level_depths mk_levels]. by eexists _, _.
    - cbn [length replicate app level_depths mk_levels]. eexists _, _. split; [done|].
      unfold level_key, level_depth. cbn [l_type l_depth default]. simpl in Hg. rewrite !u32_small by lia.
      cbn [okey_compare]. rewrite Z.compare_refl.
      unfold id. by rewrite (proj2 (Z.compare_lt_iff (Z.of_nat (S (length gs))) (Z.of_nat (S (S (length gs)))))) by lia. }
  cbn [regular]. rewrite Hrest in *. rewrite Hkey. cbn [l_arity]. rewrite IH.
  unfold buildable. cbn [l_type l_depth]. rewrite bool_decide_true by (by eexists).
  rewrite (proj2 (Z.leb_le 1 a)) by lia. by rewrite orb_true_r.
Qed.

Lemma level_depths_app gs T c g :
  level_depths (replicate gs HWLOC_OBJ_GROUP ++ T) c g =
    map (fun i => Some (u32 (g - Z.of_nat i))) (seq 0 gs) ++ level_depths T c (g - Z.of_nat gs).
Proof.
  revert g. induction gs as [|gs IH]; intros g; [by rewrite Z.sub_0_r|]. cbn [replicate app level_depths seq map].
  rewrite Z.sub_0_r, IH. f_equal. rewrite <- seq_shift, map_map. f_equal; [|f_equal; lia].
  apply map_ext. intros i. do 2 f_equal. lia.
Qed.

(** The levels of a list of numbers. *)
Definition numeric_levels (ns : list Z) : list synthetic_level :=
  let k := length ns in
  let types := HWLOC_OBJ_MACHINE :: numeric_types k in
  mk_levels types (ns ++ [0]) (level_depths types (if (3 <=? k)%nat then 2 else 0) (Z.of_nat (k - 5))).

Lemma numbers_parse ns :
  ns <> [] -> numbers_ok ns -> Z.of_nat (length ns) + 1 < HWLOC_SYNTHETIC_MAX_DEPTH ->
  hwloc_backend_synthetic_init (numbers_text ns) = Some (inr (numeric_levels ns)).
Proof.
  intros Hne Hns Hlen. set (k := length ns). assert (1 <= k)%nat as Hk by (unfold k; destruct ns; [done|simpl; lia]).
  unfold hwloc_backend_synthetic_init.
  assert (parse_levels (length (numbers_text ns)) (numbers_text ns) [] 1 = Some (inr (map (mk_item None) ns))) as ->.
  { destruct (parse_levels_ok (length (numbers_text ns)) (numbers_text ns) [] 1) as (r & Hr & _);
      [done|constructor|done|done|].
    rewrite Hr. pose proof (parse_numbers ns (S (length (numbers_text ns))) [] 1 false Hns ltac:(lia) ltac:(lia)) as Hp.
    cbn [app] in Hp. by rewrite (parse_more _ _ _ _ _ Hr) in Hp. }
  cbn [mbind option_bind]. rewrite <- map_rev.
  destruct (resolve_numbers (rev ns) None HWLOC_OBJ_PU (mk_counts 0 0 0 0 0)) as [n Hres]; [done|done|by right|].
  destruct (resolve_types_ok (map (mk_item None) (rev ns)) None (mk_counts 0 0 0 0 0)) as (r & Hr & Hc).
  { apply (Forall_fmap (mk_item None) item_ok). apply Forall_rev. eapply Forall_impl; [exact Hns|].
    intros a Ha. cbv beta in Ha. split; simpl; [unfold UINT_MAX; lia|done]. }
  { done. }
  rewrite Hres in Hr. injection Hr as <-. rewrite Hres. cbn [mbind option_bind]. rewrite length_rev in Hc |- *. fold k in Hc |- *.
  destruct Hc as (_ & _ & Hpu & Hnode & Hmach & Hcache & Hgroup). simpl in Hpu, Hnode, Hmach, Hcache, Hgroup.
  destruct (count_numbers k Hk) as (C1 & C2 & C3 & C4 & C5). rewrite C1, C3, C4, C5 in *.
  destruct (Z.eqb_spec (nb_pu n) 0); [lia|]. destruct (Z.ltb_spec 1 (nb_pu n)); [lia|].
  destruct (Z.ltb_spec 1 (nb_node n)); [lia|]. destruct (Z.ltb_spec 1 (nb_machine n)); [lia|].
  destruct (Z.eqb_spec (nb_machine n) 0); [|lia]. cbn [negb]. rewrite types_from_numeric, map_map. cbn [i_arity]. rewrite map_id.
  unfold numeric_levels. fold k. rewrite Hgroup, Hcache. by destruct (3 <=? k)%nat.
Qed.

Lemma numeric_regular n ns : numbers_ok (n :: ns) -> Z.of_nat (length (n :: ns)) + 1 < HWLOC_SYNTHETIC_MAX_DEPTH ->
  exists top lvs, numeric_levels (n :: ns) = top :: lvs /\ l_arity top = n /\ l_type top = HWLOC_OBJ_MACHINE /\
    regular lvs = true /\ width lvs = product ns /\ map l_type lvs = numeric_types (length (n :: ns)).
Proof.
  intros Hns Hlen. apply Forall_cons in Hns as [Hn Hns]. unfold numeric_levels. cbn [app mk_levels level_depths].
  set (k := length (n :: ns)) in *. assert (k = S (length ns)) as Hk by done.
  unfold HWLOC_SYNTHETIC_MAX_DEPTH in Hlen. eexists _, _. split; [done|]. split; [done|]. split; [done|].
  assert (length (numeric_types k) = k) as Hl
    by (unfold numeric_types; rewrite length_app, length_replicate, length_drop; simpl; lia).
  split; [|split].
  - unfold numeric_types. destruct (Nat.le_gt_cases k 5) as [Hle|Hgt].
    + replace (k - 5)%nat with O by lia. cbn [replicate app]. apply regular_bottom; [lia|done|done|].
      intros H3. by destruct (Nat.leb_spec 3 k); [|lia].
    + replace (5 - k)%nat with O by lia. destruct (Nat.leb_spec 3 k); [|lia]. rewrite drop_0.
      rewrite <- (take_drop (k - 5) ns), <- app_assoc. apply regular_groups.
      * by apply Forall_take.
      * rewrite length_take. lia.
      * lia.
      * done.
      * by destruct (drop (k - 5) ns).
      * apply (regular_bottom 5); [lia|by apply Forall_drop|rewrite length_drop; lia|done].
  - apply width_levels; [done|lia|]. rewrite level_depths_length. lia.
  - apply mk_levels_map; [rewrite length_app; simpl; lia|]. by rewrite level_depths_length.
Qed.

(** ** The leaves of a regular tree *)

Section Leaves.
Context {B : Type} `{Cpuset B}.

Fixpoint leaf_objs (t : obj_tree B) : list (hwloc_obj B) :=
  let 'Node o ch := t in match ch with [] => [o] | _ => flat_map leaf_objs ch end.

Definition leaf_type (levels : list synthetic_level) : option hwloc_obj_type_t := l_type <$> last levels.

(** A leaf of type [ty] has one CPU: its index. *)
Definition one_cpu (ty : option hwloc_obj_type_t) (o : hwloc_obj B) : Prop :=
  Some (o_type o) = ty /\ exists c, ocpuset o = Some c /\ is_range c (os_index o) (os_index o + 1).

Lemma leaves_concat ty w k (ts : list (obj_tree B)) : 0 <= w ->
  (forall j t, ts !! j = Some t -> map os_index (leaf_objs t) = seqZ ((k + Z.of_nat j) * w) w /\
                                   Forall (one_cpu ty) (leaf_objs t)) ->
  map os_index (flat_map leaf_objs ts) = seqZ (k * w) (Z.of_nat (length ts) * w) /\
  Forall (one_cpu ty) (flat_map leaf_objs ts).
Proof.
  intros Hw. revert k. induction ts as [|t ts IH]; intros k Hts; [by rewrite seqZ_nil|].
  destruct (Hts O t eq_refl) as [Hi Hall]. rewrite Z.add_0_r in Hi.
  destruct (IH (k + 1)) as [Hi' Hall'].
  { intros j t' Hj. destruct (Hts (S j) t' Hj) as [Hj1 Hj2]. split; [|done]. rewrite Hj1. f_equal. lia. }
  cbn [flat_map]. rewrite map_app, Hi, Hi'. split; [|by apply Forall_app].
  cbn [length]. replace (Z.of_nat (S (length ts)) * w) with (w + Z.of_nat (length ts) * w) by lia.
  rewrite seqZ_app by lia. do 2 f_equal. lia.
Qed.

Lemma subtree_leaves lvs k t : regular lvs = true -> is_subtree lvs k t ->
  map os_index (leaf_objs t) = seqZ (k * width lvs) (width lvs) /\ Forall (one_cpu (leaf_type lvs)) (leaf_objs t).
Proof.
  revert k t. induction lvs as [|lv lvs IH]; intros k t Hreg Hsub; [done|].
  destruct t as [o ch]. destruct Hsub as (Hobj & Hlen & Hch). pose proof (regular_inv _ _ Hreg) as (_ & Hinv).
  destruct lvs as [|lv' lvs].
  - rewrite Hinv in Hlen. destruct ch; [|simpl in Hlen; lia]. cbn [leaf_objs map].
    destruct Hobj as [Ht Hi _ (c & Hc & Hr) _ _ _ _]. cbn [width] in *. rewrite Hinv in *. cbn [Z.eqb] in *.
    rewrite !Z.mul_1_r in Hr. rewrite Z.mul_1_r, Hi. split; [done|]. apply Forall_singleton. split; [by rewrite Ht|].
    exists c. by rewrite Hi.
  - destruct Hinv as (Ha & _ & Hreg'). rewrite (width_cons lv lv' lvs Hreg).
    pose proof (width_pos _ Hreg') as Hw.
    assert (leaf_objs (Node o ch) = flat_map leaf_objs ch) as -> by (destruct ch; [simpl in Hlen; lia|done]).
    replace (leaf_type (lv :: lv' :: lvs)) with (leaf_type (lv' :: lvs)) by done.
    rewrite <- Hlen at 2. rewrite Z.mul_assoc. apply leaves_concat; [lia|].
    intros j c Hj. apply IH; [done|]. by apply Hch.
Qed.

Lemma forest_leaves lvs (ts : list (obj_tree B)) : regular lvs = true ->
  (forall j t, ts !! j = Some t -> is_subtree lvs (Z.of_nat j) t) ->
  map os_index (flat_map leaf_objs ts) = seqZ 0 (Z.of_nat (length ts) * width lvs) /\
  Forall (one_cpu (leaf_type lvs)) (flat_map leaf_objs ts).
Proof.
  intros Hreg Hts. pose proof (width_pos _ Hreg). apply (leaves_concat _ (width lvs) 0); [lia|].
  intros j t Hj. apply subtree_leaves; [done|]. by apply Hts.
Qed.

End Leaves.

Lemma numeric_leaf_type k : (1 <= k)%nat -> last (numeric_types k) = Some HWLOC_OBJ_PU.
Proof.
  intros Hk. unfold numeric_types. rewrite last_app.
  destruct k as [|[|[|[|[|k]]]]]; [lia|done..].
Qed.

(** ** Descriptions, item by item *)

(** A level of a description: a word before a colon, or none, and a number. *)
Definition item_text (it : chars * Z) : chars :=
  match fst it with [] => [] | w => w ++ [":"%char] end ++ fmt_d (snd it).

Fixpoint items_text (items : list (chars * Z)) : chars :=
  match items with
  | [] => []
  | it :: items => item_text it ++ match items with [] => [] | _ => " "%char :: items_text items end
  end.

(** The word has no colon and starts neither with a digit nor with a space. *)
Record item_written (it : chars * Z) : Prop := {
  iw_number : 0 <= snd it < 2 ^ 31;
  iw_colon : Forall (fun c => c <> ":"%char) (fst it);
  iw_first : match fst it with [] => True | c :: _ => c <> " "%char /\ is_decimal c = false end;
}.

(** The type that the word names, if any. *)
Definition word_type (w : chars) : option hwloc_obj_type_t :=
  match w with [] => None | _ => level_type (w ++ [":"%char]) end.

(** The type of a level that names none, above a level of type [below]. *)
Definition type_above (below : option hwloc_obj_type_t) : hwloc_obj_type_t :=
  match below with
  | None => HWLOC_OBJ_PU
  | Some HWLOC_OBJ_PU => HWLOC_OBJ_CORE
  | Some HWLOC_OBJ_CORE => HWLOC_OBJ_CACHE
  | Some HWLOC_OBJ_CACHE => HWLOC_OBJ_SOCKET
  | Some HWLOC_OBJ_SOCKET => HWLOC_OBJ_NODE
  | Some HWLOC_OBJ_NODE | Some HWLOC_OBJ_GROUP => HWLOC_OBJ_GROUP
  | Some _ => HWLOC_OBJ_MISC
  end.

Definition type_on (named : option hwloc_obj_type_t) (below : list hwloc_obj_type_t) : list hwloc_obj_type_t :=
  default (type_above (head below)) named :: below.

(** The types of the levels, from the top. *)
Definition described_types (items : list (chars * Z)) : list hwloc_obj_type_t :=
  foldr type_on [] (map (fun it => word_type (fst it)) items).

(** Caches and groups are numbered from the bottom, but a single cache level is L2. *)
Definition described_depth (single : bool) (types : list hwloc_obj_type_t) : option Z :=
  match types with
  | HWLOC_OBJ_CACHE :: _ => Some (if single then 2 else count_type HWLOC_OBJ_CACHE types)
  | HWLOC_OBJ_GROUP :: _ => Some (count_type HWLOC_OBJ_GROUP types)
  | _ => None
  end.

Fixpoint levels_of (single : bool) (types : list hwloc_obj_type_t) (arities : list Z) : list synthetic_level :=
  match types, arities with
  | t :: types', a :: arities => mk_level t a (described_depth single types) :: levels_of single types' arities
  | _, _ => []
  end.

(** What a description is worth: the number of a level is the arity of the one above. *)
Definition outcome (items : list (chars * Z)) : synthetic_error + list synthetic_level :=
  let types := described_types items in
  if HWLOC_SYNTHETIC_MAX_DEPTH <=? Z.of_nat (length items) + 1 then inl TooManyLevels
  else if count_type HWLOC_OBJ_PU types =? 0 then inl MissingPULevel
  else if 1 <? count_type HWLOC_OBJ_PU types then inl SeveralPULevels
  else if 1 <? count_type HWLOC_OBJ_NODE types then inl SeveralNodeLevels
  else if 1 <? count_type HWLOC_OBJ_MACHINE types then inl SeveralMachineLevels
  else inr (levels_of (count_type HWLOC_OBJ_CACHE types =? 1)
    ((if count_type HWLOC_OBJ_MACHINE types =? 0 then HWLOC_OBJ_MACHINE else HWLOC_OBJ_SYSTEM) :: types)
    (map snd items ++ [0])).

Lemma strchr_skip p c rest : Forall (fun d => d <> c) p -> strchr (p ++ c :: rest) c = Some (c :: rest).
Proof.
  induction 1 as [|d p Hd _ IH]; cbn [app strchr]; [by rewrite Ascii.eqb_refl|].
  by rewrite (proj2 (Ascii.eqb_neq d c) Hd).
Qed.

Lemma namecolon_word w needle i rest : Forall (fun c => c <> ":"%char) w ->
  namecolon_loop (w ++ ":"%char :: rest) needle i = namecolon_loop (w ++ [":"%char]) needle i.
Proof.
  intros Hw. revert needle i. induction Hw as [|c w Hc _ IH]; intros needle i; [done|]. cbn [app namecolon_loop].
  destruct (c =? ":")%char; [done|]. destruct (negb _); [done|]. apply IH.
Qed.

Lemma level_type_word w rest : Forall (fun c => c <> ":"%char) w ->
  level_type (w ++ ":"%char :: rest) = level_type (w ++ [":"%char]).
Proof. intros Hw. unfold level_type, hwloc_namecoloncmp. by rewrite !(namecolon_word w _ _ rest). Qed.

Lemma parse_item fuel it rest items count blank :
  item_written it -> item_end rest ->
  parse_levels (S fuel) ((if blank : bool then [" "%char] else []) ++ item_text it ++ rest) items count
  = if HWLOC_SYNTHETIC_MAX_DEPTH <=? count + 1 then Some (inl TooManyLevels)
    else parse_levels fuel rest (items ++ [mk_item (word_type (fst it)) (snd it)]) (count + 1).
Proof.
  destruct it as [w n]. intros [Hn Hcol Hfirst] Hrest. cbn [fst snd] in *.
  pose proof (fmt_d_reads n rest Hn Hrest) as Hread. pose proof (fmt_d_short n Hn) as Hshort.
  assert (exists c s, item_text (w, n) ++ rest = c :: s /\ c <> " "%char /\
    (if is_decimal c then inr (None, c :: s)
     else match strchr (c :: s) ":" with None => inl NoColon | Some next_pos => inr (level_type (c :: s), List.tl next_pos) end)
    = inr (word_type w, fmt_d n ++ rest)) as (c & s & Htext & Hc & Hafter).
  { unfold item_text. cbn [fst snd]. destruct w as [|c w].
    - destruct (fmt_d_digit n Hn) as (c & s & Hfmt & Hdec & Hc). exists c, (s ++ rest). cbn [app]. rewrite Hfmt. by rewrite Hdec.
    - destruct Hfirst as [Hc Hdec]. exists c, (w ++ ":"%char :: fmt_d n ++ rest).
      split; [by rewrite <- !app_assoc|]. split; [done|]. rewrite Hdec.
      change (c :: w ++ ":"%char :: fmt_d n ++ rest) with ((c :: w) ++ ":"%char :: fmt_d n ++ rest).
      rewrite strchr_skip, level_type_word by done. done. }
  rewrite Htext. cbn [parse_levels].
  assert (skip_blanks ((if blank then [" "%char] else []) ++ c :: s) = c :: s) as Hskip by (destruct blank; exact (skip_blanks_id c s Hc)).
  destruct ((if blank then [" "%char] else []) ++ c :: s) as [|d t] eqn:Hcur; [by destruct blank|].
  rewrite Hskip, Hafter. cbv iota beta. rewrite Hread.
  destruct (Nat.eqb_spec (length rest) (length (fmt_d n ++ rest))) as [Heq|_]; [rewrite length_app in Heq; lia|].
  destruct (_ <=? _); [done|]. by destruct (Z.ltb_spec UINT_MAX n); [unfold UINT_MAX in *; lia|].
Qed.

Definition read_item (it : chars * Z) : level_item := mk_item (word_type (fst it)) (snd it).

Lemma parse_items its fuel items count blank :
  Forall item_written its -> count = Z.of_nat (length items) + 1 -> count < HWLOC_SYNTHETIC_MAX_DEPTH ->
  (length (items_text its) < fuel)%nat ->
  parse_levels fuel ((if blank : bool then [" "%char] else []) ++ items_text its) items count
  = Some (if HWLOC_SYNTHETIC_MAX_DEPTH <=? Z.of_nat (length items + length its) + 1 then inl TooManyLevels
          else inr (items ++ map read_item its)).
Proof.
  intros Hits. revert fuel items count blank. induction Hits as [|it its Hit Hits IH]; intros fuel items count blank Hcount Hmax Hfuel.
  - destruct fuel as [|fuel]; [simpl in Hfuel; lia|]. simpl length. rewrite Nat.add_0_r, (proj2 (Z.leb_gt _ _)) by lia.
    cbn [map items_text]. by destruct blank; cbn; rewrite app_nil_r.
  - destruct fuel as [|fuel]; [lia|]. cbn [items_text] in *. pose proof (fmt_d_short (snd it) (iw_number _ Hit)) as Hshort.
    rewrite length_app in Hfuel. unfold item_text at 1 in Hfuel. rewrite length_app in Hfuel.
    rewrite parse_item; [|done|by destruct its]. simpl length.
    destruct (Z.leb_spec HWLOC_SYNTHETIC_MAX_DEPTH (count + 1)); [by rewrite (proj2 (Z.leb_le _ _)) by lia|].
    cbn [map]. change (mk_item (word_type (fst it)) (snd it)) with (read_item it).
    replace (items ++ read_item it :: map read_item its) with ((items ++ [read_item it]) ++ map read_item its)
      by (by rewrite <- app_assoc).
    assert (length (items ++ [read_item it]) = S (length items)) as Hl by (rewrite length_app; simpl; lia).
    destruct its as [|it' its].
    + simpl length. rewrite (proj2 (Z.leb_gt _ _)) by lia. cbn [map]. rewrite app_nil_r. by destruct fuel.
    + etrans; [apply (IH fuel (items ++ [read_item it]) (count + 1) true); [lia|lia|simpl length in Hfuel |- *; lia]|].
      rewrite Hl. simpl length. by rewrite Nat.add_succ_comm.
Qed.

(** ** Their types and depths *)

Definition counts_of (ts : list hwloc_obj_type_t) : level_counts :=
  mk_counts (count_type HWLOC_OBJ_PU ts) (count_type HWLOC_OBJ_NODE ts) (count_type HWLOC_OBJ_MACHINE ts)
    (count_type HWLOC_OBJ_CACHE ts) (count_type HWLOC_OBJ_GROUP ts).

Lemma default_type_above below : match below with Some t => t ∈ item_types | None => True end ->
  default_type below = Some (type_above below).
Proof.
  destruct below as [t|]; [|done]. intros Hin%list_elem_of_In. destruct t; try done; simpl in Hin; naive_solver.
Qed.

Lemma type_above_item below : type_above below ∈ item_types.
Proof. apply list_elem_of_In. destruct below as [[]|]; simpl; tauto. Qed.

Lemma word_type_item w : match word_type w with Some t => t ∈ item_types | None => True end.
Proof. unfold word_type. destruct w; [done|]. apply level_type_ok. Qed.

Lemma count_type_mono t items ts :
  count_type t ts <= count_type t (foldr type_on ts items).
Proof.
  induction items as [|n items IH]; [done|]. cbn [foldr]. unfold type_on at 1. rewrite count_type_cons.
  destruct (bool_decide _); lia.
Qed.

Lemma typed_above l ts : foldr type_on ts l = take (length l) (foldr type_on ts l) ++ ts.
Proof. induction l as [|n l IH]; [done|]. cbn [foldr length]. unfold type_on at 1 3. cbn [take app]. by rewrite <- IH. Qed.

(** The levels are typed from the last to the first: [ts] are those done. *)
Lemma resolve_described its ts :
  Forall (fun it => match i_type it with Some t => t ∈ item_types | None => True end) its ->
  match head ts with Some t => t ∈ item_types | None => True end -> count_type HWLOC_OBJ_PU ts <= 1 ->
  let full := foldr type_on ts (map i_type (rev its)) in
  resolve_types its (head ts) (counts_of ts)
  = Some (if 1 <? count_type HWLOC_OBJ_PU full then inl SeveralPULevels
          else inr (rev (take (length its) full), counts_of full)).
Proof.
  intros Hits. revert ts. induction Hits as [|it its Hit Hits IH]; intros ts Hts Hpu full.
  { unfold full. cbn [rev map foldr resolve_types]. by rewrite (proj2 (Z.ltb_ge _ _)) by lia. }
  assert (full = foldr type_on (type_on (i_type it) ts) (map i_type (rev its))) as Hfull
    by (unfold full; cbn [rev]; by rewrite map_app, foldr_app).
  cbn [resolve_types].
  assert (match i_type it with Some t => Some t | None => default_type (head ts) end
    = Some (default (type_above (head ts)) (i_type it))) as -> by (destruct (i_type it); [done|by apply default_type_above]).
  cbn [mbind option_bind]. unfold type_on at 2 in Hfull. set (t := default _ _) in *.
  assert (t ∈ item_types) as Ht by (unfold t; destruct (i_type it); [done|apply type_above_item]).
  pose proof (count_type_mono HWLOC_OBJ_PU (map i_type (rev its)) (t :: ts)) as Hmono. rewrite <- Hfull, count_type_cons in Hmono.
  assert (0 <= count_type HWLOC_OBJ_PU ts) by (unfold count_type; lia).
  destruct (bool_decide (t = HWLOC_OBJ_PU) && negb (nb_pu (counts_of ts) =? 0)) eqn:Hbad.
  - apply andb_true_iff in Hbad as [Hb Hz]. rewrite Hb in Hmono. cbn [nb_pu counts_of] in Hz.
    destruct (Z.eqb_spec (count_type HWLOC_OBJ_PU ts) 0); [done|]. by rewrite (proj2 (Z.ltb_lt _ _)) by lia.
  - match goal with |- context [resolve_types its (Some t) ?m] => assert (m = counts_of (t :: ts)) as -> end.
    { unfold counts_of. rewrite !count_type_cons. destruct t; cbn [bool_decide decide nb_pu nb_node nb_machine n_cache n_group];
        f_equal; simpl; lia. }
    change (Some t) with (head (t :: ts)). rewrite IH, <- Hfull; [|done|].
    2: { rewrite count_type_cons. cbn [nb_pu counts_of] in Hbad. destruct (bool_decide _); [|lia].
         destruct (Z.eqb_spec (count_type HWLOC_OBJ_PU ts) 0); [lia|done]. }
    cbn [mbind option_bind]. destruct (1 <? _); [done|]. do 3 f_equal.
    pose proof (typed_above (map i_type (rev its)) (t :: ts)) as Happ. rewrite <- Hfull, length_map, length_rev in Happ.
    assert (length (take (length its) full) = length its) as Hl.
    { apply length_take_le. apply (f_equal length) in Happ. rewrite length_app, length_take in Happ. simpl in Happ. lia. }
    assert (take (length (it :: its)) full = take (length its) full ++ [t]) as ->; [|by rewrite rev_unit].
    set (k := take (length its) full) in *. clearbody k. rewrite Happ, take_app, Hl.
    rewrite take_ge by (rewrite Hl; simpl; lia). by replace (length (it :: its) - length its)%nat with 1%nat by (simpl; lia).
Qed.

Lemma count_type_nonneg t ts : 0 <= count_type t ts <= Z.of_nat (length ts).
Proof. unfold count_type. pose proof (length_filter (fun u => u = t) ts). lia. Qed.

Lemma depths_described single ts ns c g :
  length ns = length ts -> Z.of_nat (length ts) < 2 ^ 31 -> g = count_type HWLOC_OBJ_GROUP ts ->
  (0 < count_type HWLOC_OBJ_CACHE ts -> c = if single : bool then 2 else count_type HWLOC_OBJ_CACHE ts) ->
  (single = true -> count_type HWLOC_OBJ_CACHE ts <= 1) ->
  mk_levels ts ns (level_depths ts c g) = levels_of single ts ns.
Proof.
  revert ns c g. induction ts as [|t ts IH]; intros [|n ns] c g Hl Hlen -> Hc Hs; try done. simpl in Hl, Hlen.
  pose proof (count_type_nonneg HWLOC_OBJ_CACHE ts). pose proof (count_type_nonneg HWLOC_OBJ_GROUP ts).
  assert (forall t' : hwloc_obj_type_t, t <> t' -> count_type t' (t :: ts) = count_type t' ts) as Hother
    by (intros t' Hne; rewrite count_type_cons, bool_decide_false; done).
  assert (count_type t (t :: ts) = 1 + count_type t ts) as Hown by (rewrite count_type_cons, bool_decide_true; done).
  destruct (decide (t = HWLOC_OBJ_CACHE)) as [->|Hnc]; [|destruct (decide (t = HWLOC_OBJ_GROUP)) as [->|Hng]].
  - cbn [level_depths mk_levels levels_of described_depth]. rewrite (Hother HWLOC_OBJ_GROUP) by done. rewrite Hown in *.
    rewrite Hc by lia. f_equal.
    + f_equal. f_equal. apply u32_small. destruct single; lia.
    + destruct single; [specialize (Hs eq_refl)|]; apply IH; (lia || done).
  - cbn [level_depths mk_levels levels_of described_depth]. rewrite (Hother HWLOC_OBJ_CACHE) in * by done. rewrite Hown in *.
    f_equal; [f_equal; f_equal; apply u32_small; lia|]. apply IH; (lia || done).
  - rewrite !(Hother _) in * by done.
    assert (mk_levels (t :: ts) (n :: ns) (level_depths (t :: ts) c (count_type HWLOC_OBJ_GROUP ts))
      = mk_level t n None :: mk_levels ts ns (level_depths ts c (count_type HWLOC_OBJ_GROUP ts))) as -> by (by destruct t).
    rewrite (IH _ _ _) by (done || lia). cbn [levels_of]. by destruct t.
Qed.

(** Every description is parsed as it reads. *)
Lemma synthetic_init_outcome items : Forall item_written items ->
  hwloc_backend_synthetic_init (items_text items) = Some (outcome items).
Proof.
  intros Hits. unfold hwloc_backend_synthetic_init, outcome.
  assert (parse_levels (length (items_text items)) (items_text items) [] 1
    = Some (if HWLOC_SYNTHETIC_MAX_DEPTH <=? Z.of_nat (length items) + 1 then inl TooManyLevels else inr (map read_item items))) as ->.
  { destruct (parse_levels_ok (length (items_text items)) (items_text items) [] 1) as (r & Hr & _); [done|constructor|done|done|].
    rewrite Hr. pose proof (parse_items items (S (length (items_text items))) [] 1 false Hits eq_refl eq_refl ltac:(lia)) as Hp.
    cbn [app length Nat.add] in Hp. by rewrite (parse_more _ _ _ _ _ Hr) in Hp. }
  cbn [mbind option_bind]. destruct (Z.leb_spec HWLOC_SYNTHETIC_MAX_DEPTH (Z.of_nat (length items) + 1)) as [|Hlen]; [done|].
  assert (map i_type (rev (rev (map read_item items))) = map (fun it => word_type (fst it)) items) as Hmap
    by (rewrite rev_involutive, map_map; done).
  pose proof (resolve_described (rev (map read_item items)) []) as Hres. cbv zeta in Hres.
  rewrite Hmap, length_rev, length_map in Hres. fold (described_types items) in Hres.
  change (counts_of []) with (mk_counts 0 0 0 0 0) in Hres. change (head []) with (@None hwloc_obj_type_t) in Hres.
  rewrite Hres; [|apply Forall_rev; apply Forall_fmap; apply Forall_forall; intros it _; apply word_type_item|done|by unfold count_type; simpl].
  clear Hres. pose proof (typed_above (map (fun it => word_type (fst it)) items) []) as Happ. fold (described_types items) in Happ.
  rewrite length_map, app_nil_r in Happ. rewrite <- Happ.
  set (types := described_types items) in *.
  assert (length types = length items) as Hl.
  { unfold types, described_types. clear. induction items as [|it items IH]; [done|]. cbn [map foldr length]. unfold type_on at 1.
    cbn [length]. by rewrite IH. }
  cbn [mbind option_bind].
  destruct (Z.ltb_spec 1 (count_type HWLOC_OBJ_PU types)) as [Hpu|Hpu].
  { rewrite (proj2 (Z.eqb_neq _ _)) by lia. done. }
  cbn [nb_pu nb_node nb_machine n_cache n_group counts_of].
  destruct (_ =? 0) eqn:Hz; [done|]. rewrite (proj2 (Z.ltb_ge _ _)) by lia.
  destruct (1 <? count_type HWLOC_OBJ_NODE types); [done|]. destruct (1 <? count_type HWLOC_OBJ_MACHINE types); [done|].
  rewrite rev_involutive, map_map. change (map (fun x => i_arity (read_item x)) items) with (map snd items).
  set (root := if negb _ then _ else _).
  assert (root = if count_type HWLOC_OBJ_MACHINE types =? 0 then HWLOC_OBJ_MACHINE else HWLOC_OBJ_SYSTEM) as <-
    by (unfold root; by destruct (count_type HWLOC_OBJ_MACHINE types =? 0)).
  do 2 f_equal. pose proof (count_type_nonneg HWLOC_OBJ_CACHE types).
  assert (count_type HWLOC_OBJ_CACHE (root :: types) = count_type HWLOC_OBJ_CACHE types /\
    count_type HWLOC_OBJ_GROUP (root :: types) = count_type HWLOC_OBJ_GROUP types) as [Hcc Hcg]
    by (rewrite !count_type_cons; unfold root; by destruct (negb _)).
  unfold HWLOC_SYNTHETIC_MAX_DEPTH in Hlen. apply depths_described.
  - rewrite length_app, length_map. simpl. lia.
  - simpl. lia.
  - done.
  - intros _. rewrite Hcc. done.
  - rewrite Hcc. lia.
Qed.
