(* ===== verification/SyntheticThms.v ===== *)
(** * SyntheticThms: what the synthetic backend accepts and builds *)

From Stdlib Require Import Ascii String.
From S2P Require Import Prelude Misc Bitmap BitmapSpec CString Cpuset Obj ObjCmp Insert InsertOk Sets Synthetic SyntheticOk SyntheticParse Samples.

(** C36. [hwloc_backend_synthetic_init] terminates on every string without a failed
    assertion: it reports one of its errors, or gives fewer than 128 levels under a
    Machine (a System when a Machine level is described), with exactly one PU level,
    at most one Node and one Machine level, no I/O level, arities that fit in an
    unsigned, 0 at the end, and a depth exactly for the caches and groups.  On levels
    written with spaces in between, each a number (below [2 ^ 31]) or a word, a colon and
    a number, the result is exactly [outcome]: too many levels, no PU level or several, several Node
    or Machine levels are refused, and all the rest is accepted, with the types that the
    words name (or else the one that goes above the level below), the numbers as the
    arities of the levels above, caches and groups numbered from the bottom, and a
    single cache level as L2. *)
Theorem synthetic_init_decides :
  (forall description, exists r, hwloc_backend_synthetic_init description = Some r /\
     match r with inl _ => True | inr levels => accepted levels end) /\
  (forall items, Forall item_written items -> hwloc_backend_synthetic_init (items_text items) = Some (outcome items)).
Proof. split; [apply synthetic_init_ok|apply synthetic_init_outcome]. Qed.

Definition worded (items : list (string * Z)) : list (chars * Z) := map (fun it => (txt (fst it), snd it)) items.

(** Words, numbers alone, unknown words and refused descriptions. *)
Example outcomes : map (fun items => outcome (worded items))
    [ [("node", 2); ("cores", 2); ("P", 2)]; [("", 2); ("", 4); ("", 2)]; [("gr", 3); ("group", 2); ("board", 2); ("pu", 1)];
      [("cache", 2); ("cache", 2); ("", 2); ("", 2)];
      [("core", 2)]; [("pu", 2); ("pu", 2)]; [("node", 1); ("node", 2); ("pu", 1)]; [("machine", 2); ("machine", 1); ("pu", 1)] ]%string =
  [ inr [mk_level HWLOC_OBJ_MACHINE 2 None; mk_level HWLOC_OBJ_NODE 2 None; mk_level HWLOC_OBJ_CORE 2 None; mk_level HWLOC_OBJ_PU 0 None];
    inr [mk_level HWLOC_OBJ_MACHINE 2 None; mk_level HWLOC_OBJ_CACHE 4 (Some 2); mk_level HWLOC_OBJ_CORE 2 None; mk_level HWLOC_OBJ_PU 0 None];
    inr [mk_level HWLOC_OBJ_MACHINE 3 None; mk_level HWLOC_OBJ_GROUP 2 (Some 2); mk_level HWLOC_OBJ_GROUP 2 (Some 1);
         mk_level HWLOC_OBJ_CORE 1 None; mk_level HWLOC_OBJ_PU 0 None];
    inr [mk_level HWLOC_OBJ_MACHINE 2 None; mk_level HWLOC_OBJ_CACHE 2 (Some 2); mk_level HWLOC_OBJ_CACHE 2 (Some 1);
         mk_level HWLOC_OBJ_CORE 2 None; mk_level HWLOC_OBJ_PU 0 None];
    inl MissingPULevel; inl SeveralPULevels; inl SeveralNodeLevels; inl SeveralMachineLevels ].
Proof. by_eval. Qed.

Section Built.
Context {B : Type} `{Cpuset B}.

Lemma alloc_cpusets_fresh (o : hwloc_obj B) : fresh_root (alloc_cpusets o).
Proof.
  split.
  - exists b_alloc_full. split; [done|]. intros i Hi. by apply bm_alloc_full.
  - exists b_alloc. split; [done|]. split; [intros i Hi; by apply bm_alloc|apply bfin_alloc].
  - exists b_alloc. split; [done|]. intros i Hi. by apply bm_alloc.
Qed.

(** The root object of [hwloc_topology_setup_defaults], with its sets. *)
Definition new_root (addr : Z) : hwloc_obj B := alloc_cpusets (hwloc_alloc_setup_object addr HWLOC_OBJ_MACHINE 0).

(** C27. Levels whose arities are positive down to the last, where an only child is
    of a deeper kind, are built as described: the root has [l_arity top] children,
    object [k] of a level of width [w] has index [k], the type, depth, cache size
    and memory of its level, the CPUs [k * w] to [k * w + w - 1], and the objects
    [k * arity] on of the level below as children.  The tree is well formed, its
    root knows all the CPUs and the indexes of the Node objects. *)
Theorem look_synthetic_builds_levels top lvs text (ro : hwloc_obj B) next :
  1 <= l_arity top -> regular lvs = true -> l_arity top * width lvs <= CPU_MAX -> fresh_root ro ->
  exists ro' ts next', hwloc_look_synthetic (top :: lvs) text (Node ro []) next = Some (Node ro' ts, next') /\
    tree_wf (Node ro' ts) /\ Z.of_nat (length ts) = l_arity top /\
    (forall j t, ts !! j = Some t -> is_subtree lvs (Z.of_nat j) t) /\
    o_type ro' = l_type top /\
    (exists cc, complete_cpuset (sets ro') = Some cc /\ is_range cc 0 (l_arity top * width lvs)) /\
    (exists cn, complete_nodeset (sets ro') = Some cn /\
       forall i, 0 <= i -> bm cn i = true <-> exists o, o ∈ forest_objs ts /\ in_nodeset i o).
Proof.
  intros Ha Hreg Hmax Hro.
  destruct (look_synthetic_ok top lvs text ro next Ha Hreg Hmax Hro)
    as (ro' & ts & next' & Hrun & Hwf & Hlen & Hts & _ & Hty & _ & _ & Hcc & Hcn).
  by exists ro', ts, next'.
Qed.

(** C35. A description made of positive numbers, "2 4 2", is read back as these
    numbers, typed PU, Core, Cache, Socket, Node from the bottom and Group above,
    and built: as many PUs as their product, which from left to right have the
    indexes 0, 1, ... and one CPU each. *)
Theorem numbers_describe_pus n ns text addr next :
  numbers_ok (n :: ns) -> Z.of_nat (length (n :: ns)) + 1 < HWLOC_SYNTHETIC_MAX_DEPTH -> product (n :: ns) <= CPU_MAX ->
  exists levels ro ts next',
    hwloc_backend_synthetic_init (numbers_text (n :: ns)) = Some (inr levels) /\
    map l_type levels = HWLOC_OBJ_MACHINE :: numeric_types (length (n :: ns)) /\
    hwloc_look_synthetic levels text (Node (new_root addr) []) next = Some (Node ro ts, next') /\
    tree_wf (Node ro ts) /\ Z.of_nat (length ts) = n /\
    map os_index (flat_map leaf_objs ts) = seqZ 0 (product (n :: ns)) /\
    Forall (one_cpu (Some HWLOC_OBJ_PU)) (flat_map leaf_objs ts).
Proof.
  intros Hns Hlen Hmax. destruct (numeric_regular n ns Hns Hlen) as (top & lvs & Hlv & Ha & Htop & Hreg & Hw & Hty).
  pose proof (Forall_inv Hns) as Hn. cbv beta in Hn.
  destruct (look_synthetic_ok top lvs text (new_root addr) next) as (ro & ts & next' & Hrun & Hwf & Hl & Hts & _);
    [lia|done|by rewrite Ha, Hw|apply alloc_cpusets_fresh|].
  destruct (forest_leaves lvs ts Hreg Hts) as [Hidx Hall].
  exists (top :: lvs), ro, ts, next'. split; [by rewrite (numbers_parse (n :: ns)), Hlv|].
  split; [by cbn [map]; rewrite Htop, Hty|]. split; [done|]. split; [done|]. split; [by rewrite Hl|].
  split; [by rewrite Hidx, Hl, Ha, Hw|].
  unfold leaf_type in Hall. rewrite <- fmap_last in Hall. change (l_type <$> lvs) with (map l_type lvs) in Hall.
  by rewrite Hty, numeric_leaf_type in Hall by (simpl; lia).
Qed.

End Built.

(** ** Witnesses *)

Definition sample_description : chars := txt "node:2 core:2 pu:2".

Definition sample_levels : list synthetic_level :=
  [mk_level HWLOC_OBJ_MACHINE 2 None; mk_level HWLOC_OBJ_NODE 2 None; mk_level HWLOC_OBJ_CORE 2 None; mk_level HWLOC_OBJ_PU 0 None].

Lemma synthetic_init_decides_witness :
  hwloc_backend_synthetic_init sample_description = Some (inr sample_levels) /\
  hwloc_backend_synthetic_init (txt "core:2 socket:2") = Some (inl MissingPULevel).
Proof.
  destruct synthetic_init_decides as [_ Hd].
  assert (forall items, Forall (fun it => item_written it) (worded items) ->
    hwloc_backend_synthetic_init (items_text (worded items)) = Some (outcome (worded items))) as H by (intros; by apply Hd).
  split.
  - apply (H [("node", 2); ("core", 2); ("pu", 2)]%string). repeat constructor; simpl; (lia || done).
  - apply (H [("core", 2); ("socket", 2)]%string). repeat constructor; simpl; (lia || done).
Defined.

Lemma look_synthetic_builds_levels_witness :
  hwloc_backend_synthetic_init sample_description = Some (inr sample_levels) /\
  exists (ro : hwloc_obj wbitmap) ts next',
    hwloc_look_synthetic sample_levels "node:2 core:2 pu:2" (Node (new_root 0) []) 1 = Some (Node ro ts, next') /\
    length ts = 2%nat /\ exists cc, complete_cpuset (sets ro) = Some cc /\ is_range cc 0 8.
Proof.
  split; [by_eval|].
  destruct (look_synthetic_builds_levels (B := wbitmap) (mk_level HWLOC_OBJ_MACHINE 2 None) (tl sample_levels)
    "node:2 core:2 pu:2" (new_root 0) 1) as (ro & ts & next' & Hrun & _ & Hlen & _ & _ & Hcc & _);
    [simpl; lia|by_eval|unfold CPU_MAX; simpl; lia|apply alloc_cpusets_fresh|].
  exists ro, ts, next'. split; [exact Hrun|]. split; [simpl in Hlen; lia|exact Hcc].
Defined.

Lemma numbers_describe_pus_witness :
  exists levels (ro : hwloc_obj wbitmap) ts next',
    hwloc_backend_synthetic_init (txt "2 4 2") = Some (inr levels) /\
    map l_type levels = [HWLOC_OBJ_MACHINE; HWLOC_OBJ_CACHE; HWLOC_OBJ_CORE; HWLOC_OBJ_PU] /\
    hwloc_look_synthetic levels "2 4 2" (Node (new_root 0) []) 1 = Some (Node ro ts, next') /\
    map os_index (flat_map leaf_objs ts) = seqZ 0 16.
Proof.
  destruct (numbers_describe_pus (B := wbitmap) 2 [4; 2] "2 4 2" 0 1)
    as (levels & ro & ts & next' & Hinit & Hty & Hrun & _ & _ & Hidx & _);
    [repeat constructor; lia|by_eval|unfold CPU_MAX; simpl; lia|].
  exists levels, ro, ts, next'. split; [exact Hinit|]. split; [exact Hty|]. split; [exact Hrun|exact Hidx].
Defined.
