(* ===== verification/BitmapThms.v ===== *)
(** * BitmapThms: the properties of [src/cpuset.c] and [include/private/misc.h]

    Each theorem is a claim about the bitmap API; its witness applies it to a
    concrete bitmap. *)

From Stdlib Require Import Sorted.
From S2P Require Import Prelude Misc Bitmap BitmapSpec BitmapOps BitmapTests BitmapModel Samples.

Section Claims.
Context `{MallocTotal}.

(** C3. Any sequence of calls with arguments in range, started on a well-formed
    bitmap, completes without undefined behaviour (no access out of the array,
    no failed assertion), keeps the bitmap well formed, and denotes the set that
    the same sequence of operations on sets gives; an output that is also an
    input is allowed. *)
Theorem calls_refine_sets ops s :
  wf s -> Forall bop_ok ops ->
  exists r, brun ops s = Some r /\ wf r /\ forall i, 0 <= i -> mem r i = arun ops (mem s) i.
Proof.
  revert s. induction ops as [|op ops IH]; intros s Hs Hops; [by exists s|].
  apply Forall_cons in Hops as [Hop Hops]. cbn [brun].
  destruct (bstep_sim op s Hs Hop) as (r & -> & Hr & Hm). simpl.
  destruct (IH r Hr Hops) as (r' & -> & Hr' & Hm'). exists r'. split_and!; [done..|].
  intros i Hi. rewrite Hm' by done. by apply (arun_ext ops).
Qed.

(** [hwloc_bitmap_set_range(s, b, -1)] and [hwloc_bitmap_clr_range(s, b, -1)]
    set (clear) every bit from [min(b, 64 * ulongs_count)] on: when [b] lies
    beyond the valid words of the bitmap, the bits between the last word and [b]
    are changed as well although they are outside the requested range. *)
Theorem range_to_infinity s b :
  wf s -> 0 <= b < MAX_CPU ->
  returns (hwloc_bitmap_set_range s b (-1)) (fun r => wf r /\ infinite r = true /\
    (forall i, 0 <= i -> mem r i = (Z.min b (64 * ulongs_count s) <=? i) || mem s i) /\
    (forall i, 64 * ulongs_count s <= i < b -> mem r i = true)) /\
  returns (hwloc_bitmap_clr_range s b (-1)) (fun r => wf r /\ infinite r = false /\
    (forall i, 0 <= i -> mem r i = negb (Z.min b (64 * ulongs_count s) <=? i) && mem s i) /\
    (forall i, 64 * ulongs_count s <= i < b -> mem r i = false)).
Proof.
  intros Hs Hb. pose proof (wf_count s Hs). split.
  - eapply returns_mono; [by apply set_range_inf_ok|]. intros r (Hwf & Hi & Hm).
    split_and!; [done..|]. intros i Hr. rewrite Hm, (proj2 (Z.leb_le _ i)) by lia. done.
  - eapply returns_mono; [by apply clr_range_inf_ok|]. intros r (Hwf & Hi & Hm).
    split_and!; [done..|]. intros i Hr. rewrite Hm, (proj2 (Z.leb_le _ i)) by lia. done.
Qed.

(** The word helpers of misc.h: [hwloc_ffsl] is the index of the lowest set
    bit plus one, [hwloc_flsl] the integer logarithm plus one, both 0 on 0, and
    [hwloc_weight_long] counts the set bits; every shift and mask included. *)
Theorem word_helpers_exact w :
  0 <= w < 2 ^ 64 ->
  (w = 0 -> hwloc_ffsl w = 0 /\ hwloc_flsl w = 0) /\
  (w <> 0 -> 1 <= hwloc_ffsl w <= 64 /\ Z.testbit w (hwloc_ffsl w - 1) = true /\
     (forall j, 0 <= j < hwloc_ffsl w - 1 -> Z.testbit w j = false) /\
     hwloc_flsl w = Z.log2 w + 1) /\
  hwloc_weight_long w = popcount 64 w.
Proof.
  intros Hw. split_and!.
  - by intros ->.
  - intros Hnz. destruct (hwloc_ffsl_spec w Hw Hnz) as (? & ? & ?).
    rewrite hwloc_flsl_spec by lia. done.
  - by apply hwloc_weight_long_spec.
Qed.

(** [isset], [iszero], [isfull] and [isequal] decide membership, emptiness,
    fullness and set equality, of finite and infinite sets of any word counts. *)
Theorem tests_decide s t cpu :
  wf s -> wf t -> 0 <= cpu ->
  hwloc_bitmap_isset s cpu = Some (mem s cpu) /\
  returns (hwloc_bitmap_iszero s) (fun b => b = true <-> forall i, 0 <= i -> mem s i = false) /\
  returns (hwloc_bitmap_isfull s) (fun b => b = true <-> forall i, 0 <= i -> mem s i = true) /\
  returns (hwloc_bitmap_isequal s t) (fun b => b = true <-> same_set s t).
Proof.
  intros. split_and!; [by apply isset_ok|by apply iszero_ok|by apply isfull_ok|by apply isequal_ok].
Qed.

(** [hwloc_bitmap_intersects] decides intersection when one of the sets is
    finite.  On two infinite sets, which always intersect, it answers whether
    they meet within the words of the larger array: the final
    [return 0] under [set1->infinite && set2->infinite] is wrong.
    [hwloc_bitmap_isincluded] decides inclusion when the left set is finite
    or has at least as many words as the right one; in general it compares only
    the words of the left set and the infinite flags. *)
Theorem pairs_decide s t :
  wf s -> wf t ->
  (infinite s = false \/ infinite t = false ->
     returns (hwloc_bitmap_intersects s t) (fun b => b = true <->
       exists i, 0 <= i /\ mem s i = true /\ mem t i = true)) /\
  (infinite s = true -> infinite t = true ->
     (exists i, 0 <= i /\ mem s i = true /\ mem t i = true) /\
     returns (hwloc_bitmap_intersects s t) (fun b => b = true <->
       exists i, 0 <= i < 64 * max_count s t /\ mem s i = true /\ mem t i = true)) /\
  (infinite s = false \/ ulongs_count t <= ulongs_count s ->
     returns (hwloc_bitmap_isincluded s t) (fun b => b = true <->
       forall i, 0 <= i -> mem s i = true -> mem t i = true)) /\
  returns (hwloc_bitmap_isincluded s t) (fun b => b = true <->
    (forall i, 0 <= i < 64 * ulongs_count s -> mem s i = true -> mem t i = true) /\
    (infinite s = true -> infinite t = true)).
Proof.
  intros Hs Ht. split; [by apply intersects_ok|].
  split; [|split; [by apply isincluded_ok|by apply isincluded_exact]]. intros His Hit.
  split; [|by apply intersects_exact]. pose proof (wf_count _ Hs). pose proof (wf_count _ Ht).
  exists (64 * max_count s t). unfold max_count. rewrite !mem_infinite by lia. split; [lia|done].
Qed.

(** [hwloc_bitmap_singlify] keeps exactly the first member, of a finite or an
    infinite set, and leaves an empty set empty. *)
Lemma singlify_keeps_first s :
  wf s -> ulongs_count s < MAX_COUNT - 1 ->
  returns (hwloc_bitmap_singlify s) (fun r => wf r /\ infinite r = false /\
    ((forall i, 0 <= i -> mem s i = false) /\ (forall i, 0 <= i -> mem r i = false) \/
     exists f, 0 <= f /\ mem s f = true /\ (forall i, 0 <= i < f -> mem s i = false) /\
       forall i, 0 <= i -> mem r i = (i =? f))).
Proof.
  intros Hs Hmax. eapply returns_mono; [by apply singlify_ok|].
  intros r (Hwf & Hi & f & Hf & Hm). split_and!; [done|done|].
  destruct Hf as [[-> Hnone]|(Hf & Hmf & Hlow)].
  - left. split; [done|]. intros i Hi0. rewrite Hm by done. lia.
  - right. exists f. split_and!; [lia|done|done|done].
Qed.

(** [hwloc_bitmap_first], [hwloc_bitmap_last] and [hwloc_bitmap_next] return
    the smallest member, the largest member of a finite set, and the smallest
    member above [prev]; -1 when there is none, and [last] is -1 on an infinite
    set.  The sets have less than [2^25] words so that indexes fit an int.
    [hwloc_bitmap_singlify] keeps exactly the first member, of a finite or an
    infinite set, and leaves an empty set empty. *)
Theorem searches_are_extrema s prev :
  wf s -> int_sized s -> -1 <= prev < INT_MAX ->
  returns (hwloc_bitmap_first s) (is_first s) /\
  returns (hwloc_bitmap_last s) (fun r => if infinite s then r = -1 else is_last s r) /\
  returns (hwloc_bitmap_next s prev) (is_first_from s (prev + 1)) /\
  (ulongs_count s < MAX_COUNT - 1 ->
   returns (hwloc_bitmap_singlify s) (fun r => wf r /\ infinite r = false /\
    ((forall i, 0 <= i -> mem s i = false) /\ (forall i, 0 <= i -> mem r i = false) \/
     exists f, 0 <= f /\ mem s f = true /\ (forall i, 0 <= i < f -> mem s i = false) /\
       forall i, 0 <= i -> mem r i = (i =? f)))).
Proof.
  intros. split_and!; [by apply first_ok|by apply last_ok|by apply next_ok|by apply singlify_keeps_first].
Qed.

(** [hwloc_bitmap_foreach_begin] terminates on a finite set and visits
    exactly its members, each once and in increasing order, and
    [hwloc_bitmap_weight] is their number (-1 for an infinite set); as many
    iterations as members are enough. *)
Theorem foreach_visits_members s fuel :
  wf s -> int_sized s -> infinite s = false ->
  hwloc_bitmap_weight s = Some (Z.of_nat fuel) ->
  returns (hwloc_bitmap_foreach fuel s) (fun l =>
    (forall i, i ∈ l <-> 0 <= i /\ mem s i = true) /\ NoDup l /\
    StronglySorted Z.lt l /\ length l = fuel).
Proof.
  intros Hs Hsz Hfin Hw. pose proof (wf_count _ Hs).
  destruct (weight_ok s Hs) as (w & Hw' & Hcount). rewrite Hw in Hw'. injection Hw' as <-.
  rewrite Hfin in Hcount. eexists. split; [apply foreach_ok; [done..|lia]|]. split_and!.
  - intros i. rewrite members_spec. split; [intros ?; split; [lia|tauto]|]. intros [Hi Hm].
    split; [|done]. destruct (Z.lt_ge_cases i (64 * ulongs_count s)); [lia|].
    rewrite mem_infinite in Hm by lia. congruence.
  - apply NoDup_filter, NoDup_seqZ.
  - apply members_sorted.
  - unfold count_members in Hcount. unfold members. rewrite Z.sub_0_r. lia.
Qed.

(** [hwloc_bitmap_compare_first] orders sets by their first member, the
    empty set last, when both are finite or both infinite; with one infinite set
    whose words are all clear, and one empty set, the answer has the wrong sign:
    the empty set is reported as the lower one.  [hwloc_bitmap_compare] orders
    sets as binary numbers, an infinite set above any finite one, and returns 0
    exactly on equal sets. *)
Theorem comparisons_order s t :
  wf s -> wf t ->
  (infinite s = infinite t ->
     returns (hwloc_bitmap_compare_first s t) (sign_of first_before s t)) /\
  (infinite s = true -> infinite t = false ->
     (forall i, 0 <= i < 64 * max_count s t -> mem s i = false /\ mem t i = false) ->
     first_before s t /\ hwloc_bitmap_compare_first s t = Some 1) /\
  returns (hwloc_bitmap_compare s t) (fun r =>
    (if eqb (infinite s) (infinite t) then sign_of numeric_below s t r
     else r = if infinite s then 1 else -1) /\ (r = 0 <-> same_set s t)).
Proof.
  intros Hs Ht. split; [by apply compare_first_ok|]. split; [|by apply compare_ok]. intros His Hit Hnone.
  pose proof (wf_count _ Hs). pose proof (wf_count _ Ht).
  assert (Ht0 : forall i, 0 <= i -> mem t i = false).
  { intros i Hi. destruct (Z.lt_ge_cases i (64 * max_count s t)); [by apply Hnone|].
    unfold max_count in *. by rewrite mem_infinite by lia. }
  split.
  - exists (64 * max_count s t). unfold max_count in *. rewrite mem_infinite by lia.
    split_and!; [lia|done|]. intros. apply Ht0. lia.
  - by apply compare_first_empty.
Qed.

(** [hwloc_bitmap_to_ith_ulong] and [hwloc_bitmap_from_ith_ulong] are
    inverse: reading word [i] back gives the mask, every other word is 0, and
    [hwloc_bitmap_set_ith_ulong] changes word [i] only. *)
Theorem ith_ulong_roundtrip s i j w :
  wf s -> 0 <= i < MAX_COUNT - 1 -> 0 <= j -> word w ->
  returns (hwloc_bitmap_from_ith_ulong s i w) (fun r =>
    hwloc_bitmap_to_ith_ulong r j = Some (if j =? i then w else 0)) /\
  returns (hwloc_bitmap_set_ith_ulong s i w) (fun r =>
    hwloc_bitmap_to_ith_ulong r j =
      if j =? i then Some w else hwloc_bitmap_to_ith_ulong s j).
Proof.
  intros Hs Hi Hj Hw. assert (Harr := wf_array _ Hs). split.
  - eapply returns_mono; [by apply from_ith_ulong_ok|]. intros r (Hr & _ & Hm).
    apply to_ith_ulong_bits; [done|done|by case_tests; [|split]|]. intros k Hk. rewrite Hm by lia.
    unfold word_mem. rewrite word_index, word_offset by lia.
    case_tests; simpl; done || (by rewrite Z.testbit_0_l).
  - eapply returns_mono; [by apply set_ith_ulong_ok|]. intros r (Hr & _ & Hm).
    destruct (to_ith_ulong_ok s j Hs Hj) as (v & Hv & Hwv & Hbv). rewrite Hv.
    replace (if j =? i then Some w else Some v) with (Some (if j =? i then w else v))
      by (by case_tests).
    apply to_ith_ulong_bits; [done|done|by case_tests|]. intros k Hk. rewrite Hm by lia.
    rewrite word_index, word_offset by lia. case_tests; [done|]. by rewrite Hbv.
Qed.

End Claims.

(** Allocation and duplication: when the allocator refuses, the functions
    return NULL; otherwise [hwloc_bitmap_alloc] gives the empty set,
    [hwloc_bitmap_alloc_full] the full one and [hwloc_bitmap_dup] a set equal to
    its argument, all well formed whatever the fresh memory contains. *)
Theorem alloc_and_dup (M : Malloc) s :
  wf s ->
  (malloc_ok SIZEOF_BITMAP = false \/ malloc_ok 64 = false ->
     hwloc_bitmap_alloc = None /\ hwloc_bitmap_alloc_full = None) /\
  (malloc_ok SIZEOF_BITMAP = false \/ malloc_ok (ulongs_allocated s * SIZEOF_ULONG) = false ->
     hwloc_bitmap_dup (Some s) = Some None) /\
  ((forall n, malloc_ok n = true) ->
     (exists r, hwloc_bitmap_alloc = Some r /\ wf r /\ forall i, 0 <= i -> mem r i = false) /\
     (exists r, hwloc_bitmap_alloc_full = Some r /\ wf r /\ forall i, 0 <= i -> mem r i = true) /\
     (exists r, hwloc_bitmap_dup (Some s) = Some (Some r) /\ wf r /\
        forall i, 0 <= i -> mem r i = mem s i)).
Proof.
  intros Hs. split_and!.
  - intros Hf. unfold hwloc_bitmap_alloc_full, hwloc_bitmap_alloc.
    destruct (malloc_ok SIZEOF_BITMAP), (malloc_ok 64); by destruct Hf.
  - intros Hf. unfold hwloc_bitmap_dup.
    destruct (malloc_ok SIZEOF_BITMAP); simpl; [|done]. by destruct Hf as [| ->].
  - intros Hok. assert (Htot : @MallocTotal M) by done. split_and!.
    + destruct alloc_ok as (r & Hr & Hwf & _ & Hm). eauto.
    + destruct alloc_full_ok as (r & Hr & Hwf & _ & Hm). eauto.
    + destruct (dup_ok s Hs) as (o & Ho & r & -> & Hwf & _ & Hm). eauto.
Qed.

(** ** Witnesses *)

(** Discharges the side conditions of a claim on a sample. *)
Ltac side := first
  [ wf_sample | reflexivity | exact sample_malloc_total
  | cbv [int_sized MAX_COUNT MAX_CPU INT_MAX word]; simpl; lia ].

Definition sample_calls : list bop :=
  [OpSet 70; OpClrRange 0 1; OpOr Same (Other (infinite_bitmap [0; 8])); OpNot Same;
   OpAndnot (Other (finite_bitmap [255])) Same; OpOnly 200; OpXor Same Same].

Lemma calls_refine_sets_witness :
  exists r, @brun sample_malloc sample_calls (finite_bitmap [5]) = Some r /\ wf r /\
    forall i, 0 <= i -> mem r i = arun sample_calls (mem (finite_bitmap [5])) i.
Proof.
  apply (@calls_refine_sets sample_malloc sample_malloc_total); [wf_sample|].
  unfold sample_calls. repeat apply Forall_cons_2; try apply Forall_nil_2;
    simpl; unfold MAX_CPU, MAX_COUNT; first [lia|done|split; first [done|lia|wf_sample]].
Defined.

Lemma range_to_infinity_witness :
  returns (@hwloc_bitmap_set_range sample_malloc (finite_bitmap [1]) 100 (-1)) (fun r =>
    wf r /\ infinite r = true /\
    (forall i, 0 <= i -> mem r i = (Z.min 100 (64 * 1) <=? i) || mem (finite_bitmap [1]) i) /\
    (forall i, 64 * 1 <= i < 100 -> mem r i = true)).
Proof. apply (@range_to_infinity sample_malloc sample_malloc_total (finite_bitmap [1]) 100); side. Defined.

Lemma tests_decide_witness :
  hwloc_bitmap_isset (infinite_bitmap [2]) 77 = Some (mem (infinite_bitmap [2]) 77).
Proof. apply (tests_decide (infinite_bitmap [2]) (finite_bitmap [2]) 77); side. Defined.

(** Two bitmaps that share every index from 64 on: the code answers 0; and a
    finite one, whose inclusion is decided. *)
Lemma pairs_decide_witness :
  hwloc_bitmap_intersects (infinite_bitmap [2]) (infinite_bitmap [1]) = Some false /\
  (exists i, 0 <= i /\ mem (infinite_bitmap [2]) i = true /\ mem (infinite_bitmap [1]) i = true) /\
  hwloc_bitmap_isincluded (infinite_bitmap [0]) (infinite_bitmap [0; 0]) = Some true /\
  returns (hwloc_bitmap_isincluded (finite_bitmap [2]) (finite_bitmap [3; 1])) (fun b => b = true <->
    forall i, 0 <= i -> mem (finite_bitmap [2]) i = true -> mem (finite_bitmap [3; 1]) i = true).
Proof.
  split; [reflexivity|]. split; [|split; [reflexivity|]].
  - apply (pairs_decide (infinite_bitmap [2]) (infinite_bitmap [1])); side.
  - destruct (pairs_decide (finite_bitmap [2]) (finite_bitmap [3; 1])) as (_ & _ & Hinc & _); [side..|].
    apply Hinc. left; side.
Defined.

Lemma searches_are_extrema_witness :
  returns (hwloc_bitmap_next (finite_bitmap [5; 1]) 2) (is_first_from (finite_bitmap [5; 1]) 3) /\
  returns (@hwloc_bitmap_singlify sample_malloc (infinite_bitmap [0])) (fun r => infinite r = false).
Proof.
  split.
  - apply (@searches_are_extrema sample_malloc sample_malloc_total (finite_bitmap [5; 1]) 2); side.
  - destruct (@searches_are_extrema sample_malloc sample_malloc_total (infinite_bitmap [0]) 2)
      as (_ & _ & _ & (r & Hr & _ & Hi & _)); [side..|]. by exists r.
Defined.

Lemma foreach_visits_members_witness :
  returns (hwloc_bitmap_foreach 3 (finite_bitmap [5; 1])) (fun l =>
    (forall i, i ∈ l <-> 0 <= i /\ mem (finite_bitmap [5; 1]) i = true) /\ NoDup l /\
    StronglySorted Z.lt l /\ length l = 3%nat).
Proof. apply foreach_visits_members; side. Defined.

Lemma comparisons_order_witness :
  first_before (infinite_bitmap [0]) (finite_bitmap [0]) /\
  hwloc_bitmap_compare_first (infinite_bitmap [0]) (finite_bitmap [0]) = Some 1.
Proof.
  apply (comparisons_order (infinite_bitmap [0]) (finite_bitmap [0])); [side..|].
  intros i Hi. assert (Hi' : 0 <= i < 64) by exact Hi. unfold mem.
  rewrite (Z.div_small i 64) by lia. split; apply Z.testbit_0_l.
Defined.

Lemma alloc_and_dup_witness :
  exists r, @hwloc_bitmap_dup sample_malloc (Some (finite_bitmap [3])) = Some (Some r) /\ wf r /\
    forall i, 0 <= i -> mem r i = mem (finite_bitmap [3]) i.
Proof. apply (alloc_and_dup sample_malloc (finite_bitmap [3])); [wf_sample|done]. Defined.
