(* ===== verification/TextThms.v ===== *)
(** * TextThms: the properties of the text formats of bitmaps

    Each theorem is a claim about the string functions of [src/cpuset.c]; its
    witness applies it to a concrete bitmap. *)

From Stdlib Require Import Ascii String.
From S2P Require Import Prelude Misc Bitmap BitmapSpec BitmapOps CString BitmapString CStringOk MaskTextOk ListTextOk Samples.

(** A printing function writes [text] in a buffer of [size] characters: the whole
    length is returned, the text is cut to leave room for the NUL, and nothing is
    written from the buffer's [size] on. *)
Definition fits_buffer (print : chars -> Z -> option (Z * chars)) (text : chars) : Prop :=
  forall buf size, (size <= length buf)%nat -> exists buf',
    print buf (Z.of_nat size) = Some (Z.of_nat (length text), buf') /\
    length buf' = length buf /\ drop size buf' = drop size buf /\
    ((0 < size)%nat -> take (S (length text `min` (size - 1))) buf' = take (size - 1) text ++ [NUL]).

Lemma prints_fits print text :
  (forall buf size, (size <= length buf)%nat -> print buf (Z.of_nat size) = prints buf size text) ->
  fits_buffer print text.
Proof.
  intros Hp buf size Hsize. exists (stored buf size text). split; [by apply Hp|].
  split; [by apply stored_length|]. unfold stored. destruct (Nat.eqb_spec size 0) as [->|Hne].
  - split; [done|lia].
  - rewrite overwrite_0. assert (length (take (size - 1) text ++ [NUL]) = S (length text `min` (size - 1))) as Hlen
      by (rewrite length_app, length_take; simpl; lia).
    split.
    + rewrite drop_app_ge, drop_drop by lia. f_equal. lia.
    + intros _. rewrite take_app_le, firstn_all2 by lia. done.
Qed.

Section Claims.
Context `{MallocTotal}.

(** C34. The three printing functions have a text for every bitmap, and in a buffer
    of any size they write exactly its beginning and a NUL, return its whole
    length and keep the rest of the buffer; the allocating variants return the
    whole text. *)
Theorem printing_fits_buffer set :
  printable set -> exists masks_ taskset_ list_,
    fits_buffer (fun buf n => hwloc_bitmap_snprintf buf n set) masks_ /\
    hwloc_bitmap_asprintf set = Some (Z.of_nat (length masks_), masks_ ++ [NUL]) /\
    fits_buffer (fun buf n => hwloc_bitmap_taskset_snprintf buf n set) taskset_ /\
    hwloc_bitmap_taskset_asprintf set = Some (Z.of_nat (length taskset_), taskset_ ++ [NUL]) /\
    fits_buffer (fun buf n => hwloc_bitmap_list_snprintf buf n set) list_ /\
    hwloc_bitmap_list_asprintf set = Some (Z.of_nat (length list_), list_ ++ [NUL]).
Proof.
  intros Hset. destruct (hwloc_bitmap_list_snprintf_ok set Hset) as (list_ & _ & Hlist).
  exists (bitmap_text set), (taskset_text set), list_. split_and!.
  - apply prints_fits. intros. by apply hwloc_bitmap_snprintf_ok.
  - by apply hwloc_bitmap_asprintf_ok.
  - apply prints_fits. intros. by apply hwloc_bitmap_taskset_snprintf_ok.
  - by apply hwloc_bitmap_taskset_asprintf_ok.
  - by apply prints_fits.
  - by apply asprintf_ok.
Qed.

(** C33. [hwloc_bitmap_sscanf] and [hwloc_bitmap_taskset_sscanf] read what
    [hwloc_bitmap_asprintf] and [hwloc_bitmap_taskset_asprintf] print back to the
    same set, finite or infinite, into any bitmap. *)
Theorem mask_texts_read_back set dst :
  printable set -> wf dst ->
  (exists text r, hwloc_bitmap_asprintf set = Some (Z.of_nat (length text), text ++ [NUL]) /\
     hwloc_bitmap_sscanf dst text = Some (0, r) /\ wf r /\ same_set r set) /\
  (exists text r, hwloc_bitmap_taskset_asprintf set = Some (Z.of_nat (length text), text ++ [NUL]) /\
     hwloc_bitmap_taskset_sscanf dst text = Some (0, r) /\ wf r /\ same_set r set).
Proof.
  intros Hset Hdst. destruct Hset as [Hwf Hc]. split.
  - destruct (hwloc_bitmap_sscanf_ok dst set Hdst Hwf) as (r & Hr1 & Hr2 & Hr3 & _).
    exists (bitmap_text set), r. split; [by apply hwloc_bitmap_asprintf_ok|done].
  - destruct (hwloc_bitmap_taskset_sscanf_ok dst set Hdst Hwf) as (r & Hr).
    exists (taskset_text set), r. split; [by apply hwloc_bitmap_taskset_asprintf_ok|done].
Qed.

(** C37. [hwloc_bitmap_list_sscanf] reads what [hwloc_bitmap_list_asprintf] prints
    back to the same set when it is finite.  For an infinite set whose last range
    starts at [b], after a last member [p], every index from the end of the word of
    [p] on is in the result: the gap before [b] is lost beyond that word. *)
Theorem list_text_read_back set dst :
  printable set -> wf dst ->
  exists text r, hwloc_bitmap_list_asprintf set = Some (Z.of_nat (length text), text ++ [NUL]) /\
    hwloc_bitmap_list_sscanf dst text = Some (0, r) /\ wf r /\
    (infinite set = false -> same_set r set) /\
    forall p b, infinite set = true -> -1 <= p < b -> (p = -1 \/ mem set p = true) ->
      (forall i, p < i < b -> mem set i = false) -> (forall i, b <= i -> mem set i = true) ->
      b = 0 \/ mem set (b - 1) = false ->
      forall i, 0 <= i -> mem r i = mem set i || (64 * (Z.max 0 p / 64 + 1) <=? i).
Proof.
  intros Hset Hdst. destruct (hwloc_bitmap_list_snprintf_ok set Hset) as (text & Htext & Hprint).
  destruct (hwloc_bitmap_list_sscanf_ok dst set text Hdst (proj1 Hset) Htext) as (r & Hr & Hread).
  exists text, r. split; [by apply asprintf_ok|]. split; [done|exact Hread].
Qed.

End Claims.

(** ** Witnesses *)

Lemma printable_sample set : wf_b set && (ulongs_count set <=? 2 ^ 20) = true -> printable set.
Proof. rewrite andb_true_iff, wf_b_spec, Z.leb_le. done. Qed.

Lemma same_text n m a t :
  Some (n, a ++ [NUL]) = Some (m, t ++ [NUL]) :> option (Z * chars) -> a = t.
Proof. intros [= _ Heq]. by apply app_inj_tail in Heq as [-> _]. Qed.

(** The members of a bitmap of four words, by evaluation. *)
Lemma members_sample set (f : Z -> bool) :
  ulongs_count set = 4 -> forallb (fun i => eqb (mem set i) (f i)) (seqZ 0 256) = true ->
  forall i, 0 <= i -> mem set i = if i <? 256 then f i else infinite set.
Proof.
  intros Hc Hf i Hi. destruct (Z.ltb_spec i 256); [|by rewrite mem_infinite by lia].
  rewrite forallb_forall in Hf. apply eqb_prop, Hf. apply list_elem_of_In, elem_of_seqZ. lia.
Qed.

Lemma printing_fits_buffer_witness :
  exists text, fits_buffer (fun buf n => hwloc_bitmap_list_snprintf buf n (finite_bitmap [14; 64])) text /\
    hwloc_bitmap_list_asprintf (finite_bitmap [14; 64]) = Some (Z.of_nat (length text), text ++ [NUL]).
Proof.
  destruct (printing_fits_buffer (finite_bitmap [14; 64])) as (_ & _ & t & _ & _ & _ & _ & Hfit & Ht).
  - apply printable_sample. vm_compute. reflexivity.
  - exists t. split; assumption.
Defined.

Lemma mask_texts_read_back_witness :
  exists r, hwloc_bitmap_sscanf (infinite_bitmap [3]) (txt "0xf...f,,0x00000005,0x00000001,0x0") = Some (0, r) /\
    same_set r (infinite_bitmap [2 ^ 32; 5]).
Proof.
  destruct (mask_texts_read_back (infinite_bitmap [2 ^ 32; 5]) (infinite_bitmap [3])) as [(t & r & Ht & Hr & _ & Hsame) _].
  - apply printable_sample. vm_compute. reflexivity.
  - wf_sample.
  - exists r. split; [|exact Hsame].
    assert (hwloc_bitmap_asprintf (infinite_bitmap [2 ^ 32; 5])
      = Some (34, txt "0xf...f,,0x00000005,0x00000001,0x0" ++ [NUL])) as E by (vm_compute; reflexivity).
    rewrite E in Ht. apply same_text in Ht as <-. exact Hr.
Defined.

(** The set of the indexes 5, 200 and above: read back, it has 64 to 199 as well. *)
Lemma list_text_read_back_witness :
  exists r, hwloc_bitmap_list_sscanf (finite_bitmap [0]) (txt "5,200-") = Some (0, r) /\
    mem r 64 = true /\ mem (infinite_bitmap [32; 0; 0; 2 ^ 64 - 2 ^ 8]) 64 = false.
Proof.
  destruct (list_text_read_back (infinite_bitmap [32; 0; 0; 2 ^ 64 - 2 ^ 8]) (finite_bitmap [0]))
    as (t & r & Ht & Hr & _ & _ & Hm).
  - apply printable_sample. vm_compute. reflexivity.
  - wf_sample.
  - assert (hwloc_bitmap_list_asprintf (infinite_bitmap [32; 0; 0; 2 ^ 64 - 2 ^ 8]) = Some (6, txt "5,200-" ++ [NUL])) as E
      by (vm_compute; reflexivity).
    rewrite E in Ht. apply same_text in Ht as <-.
    exists r. split; [exact Hr|]. split; [|reflexivity].
    pose proof (members_sample (infinite_bitmap [32; 0; 0; 2 ^ 64 - 2 ^ 8]) (fun i => (i =? 5) || (200 <=? i))
      eq_refl ltac:(vm_compute; reflexivity)) as Hmem.
    rewrite (Hm 5 200); [reflexivity|reflexivity|lia|right; reflexivity| | |right; reflexivity|lia].
    + intros i Hi. rewrite Hmem by (clear -Hi; lia). clear -Hi.
      by rewrite (proj2 (Z.ltb_lt i 256)), (proj2 (Z.eqb_neq i 5)), (proj2 (Z.leb_gt 200 i)) by lia.
    + intros i Hi. rewrite Hmem by (clear -Hi; lia). clear -Hi.
      rewrite (proj2 (Z.leb_le 200 i)), orb_true_r by lia. by destruct (i <? 256).
Defined.
