(* ===== verification/TreeThms.v ===== *)
(** * TreeThms: the properties of the hierarchy under construction

    Claims about types and comparisons (Obj.v), insertion (Insert.v), the
    removal passes and restriction (Clean.v), each with its witness. *)

From Stdlib Require Import String.
From S2P Require Import Prelude Misc Bitmap BitmapSpec Cpuset Obj ObjCmp Insert InsertOk.
From S2P Require Import Clean CleanOk Restrict Samples.

(** ** Types *)

(** The two order tables are inverse of each other, as the comment above
    them demands.  [hwloc_compare_types] is the difference of the orders, except
    between an I/O type and a type that is neither I/O nor System nor Machine,
    which it reports as unordered from both sides.  PU is deeper than every other
    type except Misc, which is deeper than PU although hwloc.h says that PU is
    always the deepest. *)
Theorem type_orders_consistent :
  (forall t, hwloc_get_order_type (hwloc_get_type_order t) = Some t) /\
  (forall t u, hwloc_compare_types t u =
     if bool_decide (hwloc_obj_type_is_io t = hwloc_obj_type_is_io u)
        || bool_decide (hwloc_get_type_order t <= 1) || bool_decide (hwloc_get_type_order u <= 1)
     then hwloc_get_type_order t - hwloc_get_type_order u else HWLOC_TYPE_UNORDERED) /\
  Forall (fun t => 0 < hwloc_compare_types HWLOC_OBJ_PU t)
    (filter (fun t => t <> HWLOC_OBJ_PU /\ t <> HWLOC_OBJ_MISC) obj_types) /\
  hwloc_compare_types HWLOC_OBJ_PU HWLOC_OBJ_MISC < 0.
Proof.
  split_and!.
  - intros t. apply order_type_inverse.
  - by intros [] [].
  - repeat constructor.
  - done.
Qed.

(** Parsing the name of a type gives the type back, whatever the case of its
    letters. *)
Theorem type_string_roundtrip t s :
  lowercase s = lowercase (hwloc_obj_type_string t) -> hwloc_obj_type_of_string s = Some t.
Proof.
  intros Hs. unfold hwloc_obj_type_of_string, strcaseeq. rewrite Hs. by destruct t.
Qed.

Section Claims.
Context {B : Type} `{Cpuset B}.
Implicit Types o obj : hwloc_obj B.
Implicit Types t root : obj_tree B.

(** [hwloc_obj_cmp] on two non-I/O objects with finite, non-empty cpusets:
    DIFFERENT iff the sets are disjoint, INTERSECTS iff they meet without
    inclusion, INCLUDED and CONTAINS iff one lies in the other, ties being
    broken by type order, then depth attribute, then name, EQUAL iff all agree;
    and the comparison is antisymmetric. *)
Theorem obj_cmp_decides o1 o2 r :
  obj_ok o1 -> obj_ok o2 ->
  (hwloc_obj_cmp o1 o2 = Some r <-> cmp_spec o1 o2 r) /\
  (hwloc_obj_cmp o1 o2 = Some r -> hwloc_obj_cmp o2 o1 = Some match r with
     | HWLOC_OBJ_INCLUDED => HWLOC_OBJ_CONTAINS | HWLOC_OBJ_CONTAINS => HWLOC_OBJ_INCLUDED
     | r => r end).
Proof.
  intros H1 H2. split; [by apply cmp_iff|]. intros Hr%cmp_iff; [|done..].
  apply cmp_iff; [done..|]. by apply cmp_spec_sym.
Qed.

(** C6. Inserting an object by cpuset into a well-formed hierarchy: the call
    completes; the tree stays well formed (children included in their parent,
    disjoint, sorted by first CPU, those without cpuset last); the root's
    complete cpuset grows by the object's cpuset; the object is inserted, next
    to all the former objects, exactly when no object of the tree is equal to it
    or intersects it without inclusion; otherwise nothing but the equal object
    changes, and the messages "recursion has gone too deep" and "object included
    in several different objects" never occur. *)
Theorem insert_by_cpuset_keeps_hierarchy root obj cc :
  tree_wf root -> is_Some (ocpuset (t_obj root)) -> obj_ok obj -> no_arrays obj ->
  cmp_spec (t_obj root) obj HWLOC_OBJ_CONTAINS ->
  complete_cpuset (sets (t_obj root)) = Some cc ->
  (is_Some (onodeset obj) -> is_Some (complete_nodeset (sets (t_obj root)))) ->
  returns (hwloc__insert_object_by_cpuset root obj) (fun '(r, root') =>
    exists ro, rank_eq (t_obj root) ro /\
      complete_cpuset (sets ro) = Some (b_or cc (cs obj)) /\
      insert_post obj (Node ro (t_children root)) (r, root') /\
      (r = Inserted <-> Forall (no_conflict obj) (forest_objs (t_children root)))).
Proof.
  destruct root as [ro0 ch]. intros Hwf Hroot Hobj Harr Hcmp Hcc Hcn. cbn [t_obj t_children] in *.
  unfold hwloc__insert_object_by_cpuset. rewrite Hcc. destruct (ok_cs _ Hobj) as (Hoc & _). rewrite Hoc.
  cbn [or_into mbind option_bind].
  set (ro1 := with_complete_cpuset ro0 (Some (b_or cc (cs obj)))).
  assert (Hfin : forall ro', rank_eq ro0 ro' -> complete_cpuset (sets ro') = Some (b_or cc (cs obj)) ->
    returns (hwloc___insert_object_by_cpuset (tree_height (Node ro0 ch)) (Node ro' ch) obj)
      (fun '(r, root') => exists ro1, rank_eq ro0 ro1 /\
        complete_cpuset (sets ro1) = Some (b_or cc (cs obj)) /\
        insert_post obj (Node ro1 ch) (r, root') /\
        (r = Inserted <-> Forall (no_conflict obj) (forest_objs ch)))).
  { intros ro' Hrank Hcc'. eapply returns_mono.
    - apply insert_ok; [done|by eapply update_root_wf| |done|done|by eapply rank_cmp].
      cbn [t_obj]. destruct Hrank as (-> & _). done.
    - intros [r root'] Hpost. exists ro'. split_and!; [done|done|done|].
      exact (insert_post_iff obj (Node ro' ch) r root' Hpost). }
  destruct (onodeset obj) as [n|] eqn:Hn.
  - destruct (Hcn ltac:(by eexists)) as [cn Hcn']. unfold ro1. simpl. rewrite Hcn'. simpl. by apply Hfin.
  - by apply Hfin.
Qed.

(** [hwloc_insert_object_by_parent] appends the object, with everything
    below it, after the children its parent has. *)
Theorem insert_by_parent_appends t (siblings : list (obj_tree B)) :
  hwloc_insert_object_by_parent t siblings = siblings ++ [t].
Proof. apply insert_by_parent_ok. Qed.

(** Merging the info (or distance) arrays of an object into those of the
    equal object found in the tree is right when one of them is empty or both
    have the same length.  Otherwise the copy goes to the wrong offset: a longer
    new array is written beyond the end of the block, a shorter one overwrites
    elements of the old array and leaves uninitialised slots. *)
Theorem merge_arrays_offset {A} (new old : list A) :
  let merged := merge_array (map Some new) (map Some old) in
  (new = [] \/ old = [] \/ length new = length old -> merged = Some (map Some (old ++ new))) /\
  (new <> [] -> (0 < length old < length new)%nat -> merged = None) /\
  (new <> [] -> (length new < length old)%nat ->
     returns merged (fun r => length r = (length old + length new)%nat /\ None ∈ r /\
       r <> map Some (old ++ new))).
Proof.
  cbv zeta. split_and!.
  - destruct new as [|n new]; [by rewrite app_nil_r|].
    destruct old as [|m old]; [done|]. intros [|[|Hlen]]; [done..|]. unfold merge_array.
    cbn [map]. rewrite List.length_app. cbn [length] in *. rewrite !List.length_map, length_replicate.
    rewrite (proj2 (Nat.leb_le _ _)) by lia. f_equal.
    rewrite take_app_length', drop_ge by (rewrite ?List.length_app, ?length_replicate; cbn [length];
      rewrite ?List.length_map; lia).
    by rewrite app_nil_r, List.map_app.
  - intros Hn Hlen. destruct new as [|n new]; [done|]. destruct old as [|m old]; [simpl in Hlen; lia|].
    unfold merge_array. cbn [map]. rewrite List.length_app, length_replicate. cbn [length] in *.
    rewrite !List.length_map. by rewrite (proj2 (Nat.leb_gt _ _)) by lia.
  - intros Hn Hlen. destruct new as [|n new]; [done|]. destruct old as [|m old]; [simpl in Hlen; lia|].
    unfold merge_array. change (map Some (n :: new)) with (Some n :: map Some new).
    change (map Some (m :: old)) with (Some m :: map Some old).
    set (old' := Some m :: map Some old). set (new' := Some n :: map Some new).
    assert (Hl : (length new' < length old')%nat) by (unfold old', new'; cbn [length] in *; by rewrite !List.length_map).
    rewrite List.length_app, length_replicate, (proj2 (Nat.leb_le _ _)) by lia.
    apply returns_ret.
    assert (Hin : None ∈ drop (length new' + length new') (old' ++ replicate (length new') None)).
    { rewrite drop_app. apply elem_of_app. right. rewrite drop_replicate.
      destruct (length new' - (length new' + length new' - length old'))%nat eqn:Hk; [|left].
      unfold new' in *. cbn [length] in *. lia. }
    split_and!.
    + rewrite !List.length_app, length_take, length_drop, List.length_app, length_replicate.
      unfold old', new' in *. cbn [length] in *. rewrite !List.length_map in *. lia.
    + rewrite !elem_of_app. tauto.
    + intros Heq. assert (Hbad : None ∈ map Some ((m :: old) ++ n :: new)) by (rewrite <- Heq, !elem_of_app; tauto).
      apply list_elem_of_fmap in Hbad as (x & ? & _). done.
Qed.

(** After [remove_ignored], the objects are those whose type is not ignored
    always, in the same order, and the root; the visits of promoted children
    change nothing: the result is that of removing each object once. *)
Theorem remove_ignored_filters ign (o : hwloc_obj B) ch :
  let t := Node o ch in
  returns (remove_ignored (tree_size t) ign true t) (fun v => exists ch',
    v = Kept (Node o ch') /\
    ch' = concat (map (strip (drop_ignored ign)) ch) /\
    forest_objs ch' =
      filter (fun o => bool_decide (ign (o_type o) = HWLOC_IGNORE_TYPE_ALWAYS) = false) (forest_objs ch)).
Proof.
  cbv zeta. rewrite remove_ignored_root by done. apply returns_ret. eexists. split_and!; [done|done|].
  unfold drop_ignored. rewrite forest_objs_concat, List.map_map. induction ch as [|c ch IH]; [done|].
  simpl. rewrite IH, forest_objs_cons, filter_app. f_equal.
  exact (strip_objs (fun o => bool_decide (ign (o_type o) = HWLOC_IGNORE_TYPE_ALWAYS)) c).
Qed.

(** After [remove_empty], no leaf is left that is neither a NUMA node nor an
    I/O object and has an empty cpuset; every object that is not of this kind
    stays, in the same order. *)
Theorem remove_empty_prunes t :
  returns (remove_empty (tree_size t) t) (fun v =>
    Forall (fun n => t_children n = [] -> removable (t_obj n) = false) (forest_nodes (visited v)) /\
    filter (fun o => removable o = false) (forest_objs (visited v)) =
      filter (fun o => removable o = false) (tree_objs t) /\
    sublist (forest_objs (visited v)) (tree_objs t)).
Proof.
  eapply returns_mono; [by apply remove_empty_ok|]. intros v [-> _].
  assert (Hd : forall (o : hwloc_obj B) ch, drop_empty o ch = true -> negb (removable o) = false).
  { intros o [|c ch]; [|done]. simpl. by intros ->. }
  destruct (strip_keeps drop_empty (fun o => negb (removable o)) t Hd) as [Hf Hs].
  split_and!; [| |done].
  - eapply Forall_impl; [apply strip_no_leaf|]. intros [o ch]. simpl. by intros Hdrop ->.
  - assert (Heq : forall os : list (hwloc_obj B), filter (fun o => removable o = false) os =
      filter (fun o => negb (removable o) = true) os).
    { intros os. apply list_filter_iff. intros o. by destruct (removable o). }
    by rewrite !Heq.
Qed.

(** Runs of only children: each object of [os] has the next one as its only child, and
    the last one has the children [ch]. *)
Fixpoint stack (os : list (hwloc_obj B)) (ch : list (obj_tree B)) : list (obj_tree B) :=
  match os with [] => ch | o :: os => [Node o (stack os ch)] end.

(** The objects of a run that stay: those whose type is not ignored, or the last one
    when there are none. *)
Definition run_left (ign : ignored_types) (os : list (hwloc_obj B)) : list (hwloc_obj B) :=
  match filter (fun o => keeps_structure ign o = false) os with
  | [] => match last os with Some o => [o] | None => [] end
  | l => l
  end.

(** The second tree is the first one with each of its longest runs reduced. *)
Inductive contracted (ign : ignored_types) : obj_tree B -> obj_tree B -> Prop :=
  | contracted_run t t' os ch ch' :
      os <> [] -> length ch <> 1%nat -> [t] = stack os ch -> [t'] = stack (run_left ign os) ch' ->
      Forall2 (contracted ign) ch ch' -> contracted ign t t'.

Lemma run_left_cons ign o os : os <> [] ->
  run_left ign (o :: os) = if keeps_structure ign o then run_left ign os
    else match filter (fun o => keeps_structure ign o = false) os with [] => [o] | _ => o :: run_left ign os end.
Proof.
  intros Hos. unfold run_left. rewrite filter_cons. destruct (keeps_structure ign o) eqn:Ho.
  - rewrite decide_False by done. destruct (filter _ os); [|done]. by destruct os.
  - rewrite decide_True by done. by destruct (filter _ os).
Qed.

Lemma merge_contracts ign t : contracted ign t (merge ign t).
Proof.
  enough (exists os ch ch', os <> [] /\ length ch <> 1%nat /\ [t] = stack os ch /\ [merge ign t] = stack (run_left ign os) ch' /\
    Forall2 (contracted ign) ch ch') as (os & ch & ch' & ? & ? & ? & ? & ?) by by econstructor.
  induction t as [o ch IH] using obj_tree_ind'. cbn [merge].
  assert (length ch <> 1%nat -> Forall2 (contracted ign) ch (map (merge ign) ch)) as Hmany.
  { intros _. induction IH as [|c ch (os & ch0 & ch0' & ? & ? & ? & ? & ?) _ IHch]; constructor; [by econstructor|done]. }
  assert (length ch <> 1%nat -> exists os ch0 ch0', os <> [] /\ length ch0 <> 1%nat /\ [Node o ch] = stack os ch0 /\
    [Node o (map (merge ign) ch)] = stack (run_left ign os) ch0' /\ Forall2 (contracted ign) ch0 ch0') as Hone.
  { intros Hl. exists [o], ch, (map (merge ign) ch). split_and!; [done|done|done| |by apply Hmany].
    unfold run_left. rewrite filter_cons. by destruct (decide _). }
  destruct ch as [|c [|c2 ch]]; [by apply Hone| |by apply Hone]. clear Hmany Hone. cbn [map].
  apply Forall_cons in IH as [(os & ch & ch' & Hos & Hl & Hc & Hm & Hf) _].
  exists (o :: os), ch, ch'. split; [done|]. split; [done|]. split; [cbn [stack]; by rewrite Hc|]. split; [|done].
  rewrite run_left_cons by done. destruct (keeps_structure ign o) eqn:Ho; [exact Hm|].
  unfold run_left in *. destruct (filter _ os) as [|p ps] eqn:Hfil.
  - destruct (last os) as [q|] eqn:Hlast; [|by apply last_None in Hlast]. cbn [stack] in Hm. injection Hm as ->.
    cbn [t_obj t_children stack]. assert (keeps_structure ign q = true) as ->; [|done].
    destruct (keeps_structure ign q) eqn:Hq; [done|]. assert (q ∈ filter (fun o => keeps_structure ign o = false) os) as Hin.
    { apply list_elem_of_filter. split; [done|]. apply last_Some in Hlast as (os' & ->). apply elem_of_app. right. by left. }
    rewrite Hfil in Hin. by apply not_elem_of_nil in Hin.
  - cbn [stack] in Hm. injection Hm as ->. cbn [t_obj stack].
    assert (p ∈ filter (fun o => keeps_structure ign o = false) os) as Hin by (rewrite Hfil; by left).
    apply list_elem_of_filter in Hin as [-> _]. done.
Qed.

(** C40. [merge_useless_child] reduces each longest run of only children to its objects
    whose type is not to be ignored, or to its last object when all are, and changes
    nothing else: an object to be ignored unless it brings structure stays exactly when
    it has not one child, and the run that it ends has no other object to stay
    ([contracted]).  So afterwards no object has an only child such that its type or the
    child's is to be ignored, objects of the other types all stay, and the order of the
    objects is kept. *)
Theorem merge_useless_child_normalises ign t :
  returns (merge_useless_child (tree_size t) ign t) (fun v => exists t', visited v = [t'] /\
    contracted ign t t' /\
    Forall (useful ign) (tree_nodes t') /\
    filter (fun o => keeps_structure ign o = false) (tree_objs t') =
      filter (fun o => keeps_structure ign o = false) (tree_objs t) /\
    sublist (tree_objs t') (tree_objs t)).
Proof.
  eapply returns_mono; [by apply merge_computes|]. intros v [-> _]. exists (merge ign t).
  split; [done|]. split; [apply merge_contracts|]. split; [apply merge_useful|apply merge_keeps].
Qed.

(** [hwloc_drop_useless_io]: with an I/O flag, no uninteresting PCI device
    and no bridge without children is left unless WHOLE_IO is given, and only
    host bridges unless IO_BRIDGES or WHOLE_IO is given; without any I/O flag,
    only the I/O children of the root itself are dropped, deeper ones stay. *)
Theorem drop_useless_io_filters flags (ch : list (obj_tree B)) :
  returns (hwloc_drop_useless_io (S (forest_size ch)) flags ch) (fun ch' =>
    (has_flag flags (HWLOC_TOPOLOGY_FLAG_IO_DEVICES + HWLOC_TOPOLOGY_FLAG_WHOLE_IO) = true ->
       Forall (io_useful flags) (forest_nodes ch') /\ sublist (forest_objs ch') (forest_objs ch)) /\
    (has_flag flags (HWLOC_TOPOLOGY_FLAG_IO_DEVICES + HWLOC_TOPOLOGY_FLAG_WHOLE_IO) = false ->
       ch' = filter (fun c => hwloc_obj_type_is_io (o_type (t_obj c)) = false) ch)).
Proof.
  rewrite drop_useless_io_ok by lia. apply returns_ret.
  destruct (has_flag flags _); split; try done. intros _.
  split; [apply io_children_useful|apply io_children_sublist].
Qed.

(** C10. [hwloc_topology_restrict] fails with EINVAL exactly when the set does
    not meet the root's cpuset.  Otherwise the root stays, no cpuset of any
    object keeps a CPU out of the set, the inclusions between parents and
    children still hold, no normal object is left with an empty cpuset, and the
    normal objects that keep some CPU are all there, in order, each with its
    former cpuset minus the dropped CPUs. *)
Theorem restrict_drops_cpus root set flags rc :
  nested root -> inside (t_obj root) (t_obj root) -> ocpuset (t_obj root) = Some rc ->
  returns (hwloc_topology_restrict root set flags) (fun res =>
    match res with
    | None => bdisj set rc
    | Some v => exists root', v = Kept root' /\ ~ bdisj set rc /\ nested root' /\
        Forall (clean (b_not set)) (tree_objs root') /\
        survive (b_not set) (tree_objs root) (tree_objs root')
    end).
Proof.
  intros Hn Hin Hrc. unfold hwloc_topology_restrict. rewrite Hrc. cbn [mbind option_bind].
  assert (Hfin : bfin rc = true).
  { destruct root as [o ch]. apply nested_inv in Hn as (Hf & _). unfold cpusets in Hf.
    apply Forall_cons in Hf as [Hf _]. cbn [t_obj] in Hrc. unfold ocpuset in Hrc. by rewrite Hrc in Hf. }
  assert (Hspec := b_intersects_spec set rc (or_intror Hfin)).
  destruct (b_intersects set rc) eqn:Hint; cbn [negb].
  2:{ apply returns_ret. tauto. }
  assert (Hnd : ~ bdisj set rc) by (intros Hd; apply Hspec in Hd; done).
  set (D := b_not set).
  destruct (restrict_object_ok D flags (S (tree_size root)) (t_obj root) false b_alloc root)
    as ([s v] & Heq & Hpost & Hsurv & Hsz & Hrep); [lia|done|].
  fold D. rewrite Heq. cbn [mbind option_bind].
  assert (Hkept : exists root', v = Kept root').
  { destruct root as [o ch]. rewrite restrict_object_unfold in Heq. cbn [t_obj] in Hrc.
    assert (Hdrop : dropping D flags false o = false).
    { unfold dropping. destruct (bool_decide (o_type o = HWLOC_OBJ_MISC)); [done|].
      destruct (hwloc_obj_type_is_io (o_type o)); [done|]. cbn [orb]. unfold ocpuset in *. unfold drop_cpus. simpl. rewrite Hrc. simpl.
      apply not_true_iff_false. rewrite b_iszero_spec. intros He. apply Hnd. intros i Hi Hs Hr.
      specialize (He i Hi). rewrite bm_andnot in He by done. unfold D in He.
      rewrite bm_not, Hs, Hr in He by done. done. }
    rewrite Hdrop in Heq. destruct (if null_or _ _ then _ else _) as [[s' ch']|]; [|done].
    simpl in Heq. injection Heq as <- <-. eauto. }
  destruct Hkept as [root' ->]. apply returns_ret. cbn [visited] in *.
  apply Forall_cons in Hpost as [((Hn' & _) & _ & Hcl) _].
  destruct (restrict_nodeset_ok s root') as (_ & Hsame & Hnest).
  eexists. split_and!; [done|done|auto|by eapply same_cpus_clean|].
  eapply same_cpus_survive; [|done]. by rewrite forest_objs_cons, app_nil_r in Hsurv.
Qed.

End Claims.

(** The PUs of a list of objects. *)
Definition is_pu {B : Type} (o : hwloc_obj B) : Prop := o_type o = HWLOC_OBJ_PU.

#[export] Instance is_pu_dec {B : Type} (o : hwloc_obj B) : Decision (is_pu o).
Proof. unfold is_pu. apply _. Defined.

(** Whatever calls configure the types to ignore before loading, PU and I/O
    types are never ignored; so no PU is ever removed by [remove_ignored] or
    merged away by [merge_useless_child]. *)
Theorem pu_never_ignored {B : Type} ops (t : obj_tree B) ch o :
  let ign := foldl ignore_step default_ignored ops in
  (forall ty, essential ty -> ign ty = HWLOC_IGNORE_TYPE_NEVER) /\
  returns (remove_ignored (tree_size (Node o ch)) ign true (Node o ch)) (fun v =>
    filter (is_pu (B := B)) (forest_objs (visited v)) = filter (is_pu (B := B)) (tree_objs (Node o ch))) /\
  returns (merge_useless_child (tree_size t) ign t) (fun v =>
    filter (is_pu (B := B)) (forest_objs (visited v)) = filter (is_pu (B := B)) (tree_objs t)).
Proof.
  intros ign.
  assert (Hign : forall ty, essential ty -> ign ty = HWLOC_IGNORE_TYPE_NEVER).
  { intros ty Hty. unfold ign. rewrite ignore_steps_essential by done.
    destruct Hty as [->|Hio]; [done|]. by destruct ty. }
  assert (Hsub : forall (q : hwloc_obj B -> bool) os (us : list (hwloc_obj B)),
    (forall o, o_type o = HWLOC_OBJ_PU -> q o = true) ->
    filter (fun o => q o = true) os = filter (fun o => q o = true) us ->
    filter (is_pu (B := B)) os = filter (is_pu (B := B)) us).
  { intros q os us Hq Heq.
    assert (Hf : forall l : list (hwloc_obj B), filter (is_pu (B := B)) l = filter (is_pu (B := B)) (filter (fun o => q o = true) l)).
    { intros l. rewrite list_filter_filter_l; [done|]. intros x Hx. by apply Hq. }
    by rewrite (Hf os), (Hf us), Heq. }
  split_and!; [done| |].
  - rewrite remove_ignored_root by done. apply returns_ret. cbn [visited].
    rewrite forest_objs_cons, app_nil_r, !tree_objs_node, !filter_cons.
    assert (Hrest : filter (is_pu (B := B)) (forest_objs (concat (map (strip (drop_ignored ign)) ch))) =
      filter (is_pu (B := B)) (forest_objs ch)).
    { rewrite forest_objs_concat, List.map_map. induction ch as [|c ch IH]; [done|].
      simpl. rewrite filter_app, IH, forest_objs_cons, filter_app. f_equal.
      unfold drop_ignored. rewrite (strip_objs (fun o => bool_decide (ign (o_type o) = HWLOC_IGNORE_TYPE_ALWAYS)) c).
      rewrite list_filter_filter_l; [done|]. intros x Hx.
      apply bool_decide_eq_false. rewrite Hx, Hign by (by left). done. }
    by rewrite Hrest.
  - eapply returns_mono; [by apply merge_computes|]. intros v [-> _].
    rewrite forest_objs_cons, app_nil_r.
    apply (Hsub (fun o => negb (keeps_structure ign o))).
    + intros x Hx. apply negb_true_iff, bool_decide_eq_false. rewrite Hx, Hign by (by left). done.
    + assert (Heq : forall os : list (hwloc_obj B), filter (fun o => negb (keeps_structure ign o) = true) os =
        filter (fun o => keeps_structure ign o = false) os).
      { intros os. apply list_filter_iff. intros x. by destruct (keeps_structure ign x). }
      rewrite !Heq. apply merge_keeps.
Qed.

(** ** Witnesses *)

Definition machine : hwloc_obj wbitmap :=
  sample_obj 1 HWLOC_OBJ_MACHINE 0 (Some (cset [0; 1; 2; 3])).
Definition socket : hwloc_obj wbitmap := sample_obj 2 HWLOC_OBJ_SOCKET 0 (Some (cset [0; 1])).
Definition core : hwloc_obj wbitmap := sample_obj 3 HWLOC_OBJ_CORE 0 (Some (cset [1])).
Definition sample_tree : obj_tree wbitmap := Node machine [Node socket []].

Lemma obj_cmp_decides_witness : cmp_spec core socket HWLOC_OBJ_INCLUDED.
Proof.
  apply (proj1 (obj_cmp_decides core socket HWLOC_OBJ_INCLUDED
    ltac:(apply ok_sample; by_eval) ltac:(apply ok_sample; by_eval))).
  by_eval.
Defined.

Lemma sample_tree_wf : tree_wf sample_tree.
Proof.
  constructor; [|repeat constructor]. constructor; [|constructor]. right. split_and!.
  - apply ok_sample. by_eval.
  - contains_sample.
  - repeat constructor.
Qed.

Lemma insert_by_cpuset_keeps_hierarchy_witness :
  tree_wf sample_tree /\
  returns (hwloc__insert_object_by_cpuset sample_tree core) (fun '(r, root') =>
    exists ro, rank_eq machine ro /\
      complete_cpuset (sets ro) = Some (b_or (cset [0; 1; 2; 3]) (cs core)) /\
      insert_post core (Node ro [Node socket []]) (r, root') /\
      (r = Inserted <-> Forall (no_conflict core) (forest_objs [Node socket []]))).
Proof.
  split; [apply sample_tree_wf|].
  apply (insert_by_cpuset_keeps_hierarchy sample_tree core (cset [0; 1; 2; 3])).
  - apply sample_tree_wf.
  - by eexists.
  - apply ok_sample. by_eval.
  - done.
  - contains_sample.
  - reflexivity.
  - by intros [? ?].
Defined.

Lemma merge_arrays_offset_witness :
  merge_array (map Some [1; 2; 3]) (map Some [4; 5]) = None.
Proof. apply (merge_arrays_offset [1; 2; 3] [4; 5]); [done|simpl; lia]. Defined.

Definition host_bridge : hwloc_obj wbitmap := sample_obj 7 HWLOC_OBJ_BRIDGE 0 None.

(** An I/O object below a group stays although no I/O flag is set. *)
Lemma drop_useless_io_filters_witness :
  hwloc_drop_useless_io 5 0 [Node socket [Node host_bridge []]; Node host_bridge []] =
    Some [Node socket [Node host_bridge []]].
Proof.
  destruct (drop_useless_io_filters 0 [Node socket [Node host_bridge []]; Node host_bridge []])
    as (ch' & Heq & _ & Hnone).
  rewrite (Hnone eq_refl) in Heq. exact Heq.
Defined.

Lemma not_empty_sample (o : hwloc_obj wbitmap) :
  match ocpuset o with Some c => negb (b_iszero c) | None => true end = true -> not_empty o.
Proof.
  intros Hz _ c Hc. rewrite Hc in Hz. rewrite <- b_iszero_spec. by destruct (b_iszero c).
Qed.

Lemma sample_nested : nested sample_tree /\ inside machine machine.
Proof.
  assert (Hself : inside machine machine).
  { split; [apply sub_sample; by_eval|].
    repeat (apply Forall_cons; split; [apply sub_sample; by_eval|]). constructor. }
  split; [|done]. constructor.
  - repeat (apply Forall_cons; split; [by_eval|]). constructor.
  - apply not_empty_sample. by_eval.
  - constructor; [|constructor]. split.
    + split; [apply sub_sample; by_eval|].
      repeat (apply Forall_cons; split; [apply sub_sample; by_eval|]). constructor.
    + constructor; [repeat (apply Forall_cons; split; [by_eval|]); constructor| |constructor].
      apply not_empty_sample. by_eval.
Qed.

Lemma restrict_drops_cpus_witness :
  returns (hwloc_topology_restrict sample_tree (cset [2; 3]) 0) (fun res =>
    match res with
    | None => bdisj (cset [2; 3]) (cset [0; 1; 2; 3])
    | Some v => exists root', v = Kept root' /\ ~ bdisj (cset [2; 3]) (cset [0; 1; 2; 3]) /\
        nested root' /\ Forall (clean (b_not (cset [2; 3]))) (tree_objs root') /\
        survive (b_not (cset [2; 3])) (tree_objs sample_tree) (tree_objs root')
    end).
Proof.
  apply restrict_drops_cpus; [apply sample_nested|apply sample_nested|reflexivity].
Defined.
