(* ===== verification/LevelThms.v ===== *)
(** * LevelThms: the properties of a connected hierarchy

    Claims about Levels.v: the links of the children, the levels and their
    depths, the I/O lists, the symmetric subtrees, each with its witness. *)

From stdpp Require Import gmap functions.
From S2P Require Import Prelude Misc Bitmap Cpuset Obj ObjCmp Clean CleanOk Levels LevelsOk LevelsLoop Connected Samples.

(** After [hwloc_connect_children] every object of the hierarchy knows its
    arity, its array of children and its last child, and every child its parent,
    its rank and its previous sibling; the place of the root itself and the
    cousins, depths and logical indexes of all objects are as before, and nothing
    outside the hierarchy is written. *)
Theorem connect_children_links {B} `{CpusetOps B} (t : obj_tree B) st :
  distinct (tree_objs t) ->
  let st' := hwloc_connect_children t st in
  Forall (children_linked st') (tree_nodes t) /\ same_place st st' (t_addr t) /\
  same_levels st st' /\ writes (map o_addr (tree_objs t)) st st'.
Proof.
  intros Hd st'. destruct (connect_tree t st Hd) as (Hw & Hl & Hp & Hn).
  split_and!; [by apply Forall_forall|by apply Hp, list_elem_of_singleton|done|done].
Qed.

(** C7. [hwloc_connect_levels] sorts a hierarchy into levels: the root alone at
    depth 0, then levels of objects of one type (and one attribute depth for
    caches and groups), each in the order of the tree, every object above those
    below it, and every object that is neither I/O, nor Misc, nor below an I/O
    object in exactly one level.  Objects know their depth, their logical index
    and their cousins, and [type_depth] tells the depth of a type, or that it has
    no level or several.  The links of the root
    are those its allocation has left.  The only way to fail is to run out of the
    [HWLOC_DEPTH_MAX] slots, which the code does not check. *)
Theorem connect_levels_partition {B} `{CpusetOps B} (root : obj_tree B) st :
  placed root -> distinct (tree_objs root) -> no_io_cousins root st -> level_linked st 0 [root] ->
  match hwloc_connect_levels root st with
  | Some tl =>
      let lv := levels (tl_levels tl) in
      levels_partial root lv [] /\ head lv = Some [root] /\
      (forall d l, lv !! d = Some l ->
         level_linked (io_links (ls_io (tl_levels tl))) (Z.of_nat d) l) /\
      (forall ty, type_depth (tl_levels tl) ty = default (type_depth_spec ty lv) (io_depth ty))
  | None => exists lv rest, levels_partial root lv rest /\
              HWLOC_DEPTH_MAX <= Z.of_nat (length lv) /\ rest <> []
  end.
Proof.
  intros Hr Hd Hio Hl. pose proof (connect_levels_ok root st Hr Hd Hio Hl) as Hc.
  destruct (hwloc_connect_levels root st) as [tl|]; [|done].
  split_and!; [apply (con_levels _ _ Hc)|apply (con_root _ _ Hc)|apply (con_links _ _ Hc)|apply (con_types _ _ Hc)].
Qed.

(** ** Sample hierarchies *)

Definition io_attr (class_id : Z) : hwloc_obj_attr_u := AttrPcidev (mk_pcidev 0 0 0 0 class_id 0 0 0 0 0 0).

Definition machine0 : hwloc_obj wbitmap := hwloc_alloc_setup_object 1 HWLOC_OBJ_MACHINE 0.
Definition socket0 : hwloc_obj wbitmap := hwloc_alloc_setup_object 2 HWLOC_OBJ_SOCKET 0.
Definition socket1 : hwloc_obj wbitmap := hwloc_alloc_setup_object 3 HWLOC_OBJ_SOCKET 1.
Definition core0 : hwloc_obj wbitmap := hwloc_alloc_setup_object 4 HWLOC_OBJ_CORE 0.
Definition core1 : hwloc_obj wbitmap := hwloc_alloc_setup_object 5 HWLOC_OBJ_CORE 1.
Definition display : hwloc_obj wbitmap :=
  with_attr (hwloc_alloc_setup_object 6 HWLOC_OBJ_PCI_DEVICE 0) (io_attr 0x0300).
Definition sata : hwloc_obj wbitmap :=
  with_attr (hwloc_alloc_setup_object 7 HWLOC_OBJ_PCI_DEVICE 1) (io_attr 0x0c03).
Definition bridge0 : hwloc_obj wbitmap := hwloc_alloc_setup_object 8 HWLOC_OBJ_BRIDGE 0.

(** Two sockets of a core each, a bridge with two devices. *)
Definition sample_machine : obj_tree wbitmap :=
  Node machine0 [Node socket0 [Node core0 []]; Node socket1 [Node core1 []];
    Node bridge0 [Node display []; Node sata []]].

Lemma sample_distinct : distinct (tree_objs sample_machine).
Proof. apply (bool_decide_unpack _). by_eval. Qed.

Lemma sample_no_io_cousins : no_io_cousins sample_machine ∅.
Proof. intros o _ _. split; by_eval. Qed.

Lemma sample_root_linked : level_linked ∅ 0 [sample_machine].
Proof. intros i t Hi. apply list_lookup_singleton_Some in Hi as [-> <-]. split_and!; by_eval. Qed.

Lemma connect_children_links_witness :
  distinct (tree_objs sample_machine) /\
  Forall (children_linked (hwloc_connect_children sample_machine ∅)) (tree_nodes sample_machine).
Proof.
  split; [apply sample_distinct|]. apply (connect_children_links sample_machine ∅ sample_distinct).
Defined.

(** The depth of each type in [sample_machine]: the machine, sockets and cores
    have one level, PUs none, devices their virtual level. *)
Lemma connect_levels_partition_witness :
  match hwloc_connect_levels sample_machine ∅ with
  | Some tl => levels_partial sample_machine (levels (tl_levels tl)) [] /\
      map (type_depth (tl_levels tl)) [HWLOC_OBJ_MACHINE; HWLOC_OBJ_SOCKET; HWLOC_OBJ_CORE;
        HWLOC_OBJ_PU; HWLOC_OBJ_PCI_DEVICE] = [0; 1; 2; -1; -4]
  | None => False
  end.
Proof.
  pose proof (connect_levels_partition sample_machine ∅ eq_refl sample_distinct sample_no_io_cousins sample_root_linked) as Hc.
  assert (Hs : match hwloc_connect_levels sample_machine ∅ with
    | Some tl => map (type_depth (tl_levels tl)) [HWLOC_OBJ_MACHINE; HWLOC_OBJ_SOCKET; HWLOC_OBJ_CORE;
        HWLOC_OBJ_PU; HWLOC_OBJ_PCI_DEVICE] = [0; 1; 2; -1; -4]
    | None => False end) by by_eval.
  destruct (hwloc_connect_levels sample_machine ∅); [|done]. split; [apply Hc|exact Hs].
Defined.

(** ** I/O levels *)

Definition is_some {A} (x : option A) : bool := match x with Some _ => true | None => false end.

(** What a second connection finds after [hwloc_drop_useless_io] has freed the
    object at address [freed]. *)
Definition reconnect (flags : Z) (freed : Z) (root : obj_tree wbitmap) (st : links_store)
  : option (topology_levels (B := wbitmap)) :=
  let! ch := hwloc_drop_useless_io (S (tree_size root)) flags (t_children root) in
  let root := Node (t_obj root) ch in
  hwloc_connect_levels root (hwloc_connect_children root (delete freed st)).

(** C39. If the I/O objects of a hierarchy have no cousins yet, then after
    [hwloc_connect_levels] the bridge, PCI and OS device levels hold exactly the objects
    of their type, linked as cousins in this order and numbered, at their virtual depth;
    it only fails when there are more levels than [HWLOC_DEPTH_MAX]. *)
Theorem connect_levels_io {B} `{CpusetOps B} (root : obj_tree B) st :
  placed root -> distinct (tree_objs root) -> no_io_cousins root st -> level_linked st 0 [root] ->
  match hwloc_connect_levels root st with
  | Some tl => forall ty d, io_depth ty = Some d ->
      io_level tl ty ≡ₚ addrs_of ty (tree_objs root) /\
      io_level_linked (io_links (ls_io (tl_levels tl))) d (io_level tl ty)
  | None => exists lv rest, levels_partial root lv rest /\
              HWLOC_DEPTH_MAX <= Z.of_nat (length lv) /\ rest <> []
  end.
Proof.
  intros Hr Hd Hio Hl. pose proof (connect_levels_ok root st Hr Hd Hio Hl) as Hc.
  destruct (hwloc_connect_levels root st) as [tl|]; [|done]. apply (con_io _ _ Hc).
Qed.

Lemma connect_levels_io_witness :
  match hwloc_connect_levels sample_machine ∅ with
  | Some tl => io_level tl HWLOC_OBJ_PCI_DEVICE ≡ₚ [o_addr display; o_addr sata]
  | None => False
  end.
Proof.
  pose proof (connect_levels_io sample_machine ∅ eq_refl sample_distinct
    sample_no_io_cousins sample_root_linked) as Hc.
  assert (Hs : is_some (hwloc_connect_levels sample_machine ∅) = true) by by_eval.
  destruct (hwloc_connect_levels sample_machine ∅); [|done].
  exact (proj1 (Hc HWLOC_OBJ_PCI_DEVICE _ eq_refl)).
Defined.

(** The code never resets the cousins of I/O objects: when the last device of a level is
    dropped after a first connection, as [hwloc_discover] does for topologies imported
    with I/O objects, connecting this machine again follows the stale link and reads the
    freed object. *)
Lemma stale_io_cousin :
  exists tl, hwloc_connect_levels sample_machine (hwloc_connect_children sample_machine ∅) = Some tl /\
    io_level tl HWLOC_OBJ_PCI_DEVICE = [o_addr display; o_addr sata] /\
    reconnect HWLOC_TOPOLOGY_FLAG_IO_DEVICES (o_addr sata) sample_machine
      (io_links (ls_io (tl_levels tl))) = None.
Proof.
  assert (Hc : match hwloc_connect_levels sample_machine (hwloc_connect_children sample_machine ∅) with
    | Some tl => bool_decide (io_level tl HWLOC_OBJ_PCI_DEVICE = [o_addr display; o_addr sata]) &&
        negb (is_some (reconnect HWLOC_TOPOLOGY_FLAG_IO_DEVICES (o_addr sata) sample_machine
          (io_links (ls_io (tl_levels tl)))))
    | None => false end = true) by by_eval.
  destruct (hwloc_connect_levels sample_machine _) as [tl|]; [|done]. exists tl. split; [done|].
  apply andb_true_iff in Hc as [Hl Hr]. split; [by apply bool_decide_eq_true in Hl|].
  destruct (reconnect _ _ _ _); done.
Qed.

(** ** Symmetric subtrees *)

(** [hwloc_propagate_symmetric_subtree] marks exactly the objects all of
    whose descendants, themselves included, have children subtrees of one shape
    (same depths, same arities), and changes nothing but the marks. *)
Theorem symmetric_subtree_marks {B} `{CpusetOps B} (root : obj_tree B) st :
  distinct (tree_objs root) ->
  returns (hwloc_propagate_symmetric_subtree root st) (fun st' =>
    marked st' (tree_nodes root) /\ marks (map o_addr (tree_objs root)) st st').
Proof. intros Hd. destruct (propagate_tree root st Hd) as (st' & -> & Hm & Hk). by exists st'. Qed.

(** The two sockets are symmetric; the machine, which also has the bridge, is not. *)
Lemma symmetric_subtree_marks_witness :
  distinct (tree_objs sample_machine) /\
  match hwloc_propagate_symmetric_subtree sample_machine (hwloc_connect_children sample_machine ∅) with
  | Some st' => ~ balanced st' sample_machine
  | None => False
  end.
Proof.
  split; [apply sample_distinct|].
  destruct (symmetric_subtree_marks sample_machine (hwloc_connect_children sample_machine ∅) sample_distinct)
    as (st' & Heq & Hk & _).
  rewrite Heq. intros Hb. apply (Hk sample_machine (list_elem_of_here _ _)) in Hb.
  assert (Hs : match hwloc_propagate_symmetric_subtree sample_machine (hwloc_connect_children sample_machine ∅) with
    | Some st' => symmetric_subtree (links st' (t_addr sample_machine)) = false | None => True end) by by_eval.
  rewrite Heq in Hs. congruence.
Defined.

(** In an asymmetric hierarchy a type may be split over two levels although
    none of its objects is below another: [topmost_object] looks at each
    candidate once, so it takes the cache right of the socket before the cache
    below it. *)
Lemma asymmetric_levels_split :
  let cache a := hwloc_alloc_setup_object a HWLOC_OBJ_CACHE 0 : hwloc_obj wbitmap in
  let core a := hwloc_alloc_setup_object a HWLOC_OBJ_CORE 0 : hwloc_obj wbitmap in
  let root := Node machine0 [Node (core 10) []; Node socket0 [Node (cache 11) []];
                             Node (cache 12) [Node (core 13) []]] in
  match hwloc_connect_levels root ∅ with
  | Some tl => map (map t_addr) (levels (tl_levels tl)) = [[1]; [12]; [10; 13]; [2]; [11]] /\
               type_depth (tl_levels tl) HWLOC_OBJ_CACHE = HWLOC_TYPE_DEPTH_MULTIPLE
  | None => False
  end.
Proof. by vm_compute. Qed.
