(* ===== verification/SetThms.v ===== *)
(** * SetThms: the properties of the passes that complete sets and memory

    Claims about Sets.v, each with its witness. *)

From Stdlib Require Import Sorting.Sorted.
From S2P Require Import Prelude Misc Bitmap Cpuset Obj CleanOk Sets Samples.

(** ** Memory *)

(** What the C library promises of [qsort]: a permutation, in order if the
    comparison function is consistent on the elements. *)
Definition consistent {A} (cmp : A -> A -> Z) (l : list A) : Prop :=
  (forall x y, x ∈ l -> y ∈ l -> (cmp x y < 0 <-> 0 < cmp y x)) /\
  (forall x y, x ∈ l -> y ∈ l -> cmp x y = 0 -> cmp y x = 0) /\
  (forall x y z, x ∈ l -> y ∈ l -> z ∈ l -> cmp x y <= 0 -> cmp y z <= 0 -> cmp x z <= 0).

Definition qsort_spec (qsort : (Z * Z -> Z * Z -> Z) -> list (Z * Z) -> list (Z * Z)) : Prop :=
  forall cmp l, qsort cmp l ≡ₚ l /\
    (consistent cmp l -> StronglySorted (fun x y => cmp x y <= 0) (qsort cmp l)).

Lemma page_type_compare_consistent l :
  Forall (fun p => fst p <> 0) l -> consistent hwloc_memory_page_type_compare l.
Proof.
  intros Hl. rewrite Forall_forall in Hl. unfold hwloc_memory_page_type_compare, consistent. split_and!.
  - intros x y Hx Hy. assert (Hx0 := Hl x Hx). assert (Hy0 := Hl y Hy).
    destruct (Z.eqb_spec (fst y) 0), (Z.eqb_spec (fst x) 0), (Z.eqb_spec (fst y) (fst x)),
      (Z.eqb_spec (fst x) (fst y)), (Z.ltb_spec (fst x) (fst y)), (Z.ltb_spec (fst y) (fst x)); lia.
  - intros x y Hx Hy. assert (Hx0 := Hl x Hx). assert (Hy0 := Hl y Hy).
    destruct (Z.eqb_spec (fst y) 0), (Z.eqb_spec (fst x) 0), (Z.eqb_spec (fst y) (fst x)),
      (Z.eqb_spec (fst x) (fst y)), (Z.ltb_spec (fst x) (fst y)), (Z.ltb_spec (fst y) (fst x)); lia.
  - intros x y z Hx Hy Hz. assert (Hy0 := Hl y Hy). assert (Hz0 := Hl z Hz).
    destruct (Z.eqb_spec (fst y) 0), (Z.eqb_spec (fst z) 0), (Z.eqb_spec (fst y) (fst x)),
      (Z.eqb_spec (fst z) (fst y)), (Z.eqb_spec (fst z) (fst x)), (Z.ltb_spec (fst x) (fst y)),
      (Z.ltb_spec (fst y) (fst z)), (Z.ltb_spec (fst x) (fst z)); lia.
Qed.

Lemma page_type_compare_le x y :
  fst y <> 0 -> hwloc_memory_page_type_compare x y <= 0 -> fst x <= fst y.
Proof.
  unfold hwloc_memory_page_type_compare. intros Hy.
  destruct (Z.eqb_spec (fst y) 0), (Z.eqb_spec (fst y) (fst x)), (Z.ltb_spec (fst x) (fst y)); lia.
Qed.

(** [propagate_total_memory] gives every object the sum of the local
    memories of its subtree, modulo 2^64, and changes nothing else but the page
    types: they never end with a 0-size one, and when no size is 0 they are the
    same, sorted by size.  With a 0-size page type the comparison function is
    inconsistent (0 comes before 5 and 5 before 0), so nothing makes 0-size types
    go to the end as the code intends. *)
Theorem total_memory_sums {B} `{Cpuset B} qsort (t : obj_tree B) :
  qsort_spec qsort ->
  let t' := propagate_total_memory qsort t in
  Forall total_right (tree_nodes t') /\
  Forall2 (fun o o' =>
    (exists total types, o' = with_memory o (mk_memory total (local_memory (memory o)) types)) /\
    (forall p, last (page_types (memory o')) = Some p -> fst p <> 0) /\
    (Forall (fun p => fst p <> 0) (page_types (memory o)) ->
       page_types (memory o') ≡ₚ page_types (memory o) /\
       StronglySorted (fun p q => fst p <= fst q) (page_types (memory o'))))
    (tree_objs t) (tree_objs t') /\
  (hwloc_memory_page_type_compare (0, 1) (5, 1) < 0 /\ hwloc_memory_page_type_compare (5, 1) (0, 1) < 0).
Proof.
  intros Hq t'. split_and!; [apply total_memory_ok| |by_eval|by_eval].
  eapply Forall2_impl; [apply memory_done_ok|]. intros o o' Ho. unfold memory_done in Ho.
  assert (Htypes : page_types (memory o') =
    trim_page_types (qsort hwloc_memory_page_type_compare (page_types (memory o)))) by (by rewrite Ho).
  rewrite Htypes. destruct (Hq hwloc_memory_page_type_compare (page_types (memory o))) as [Hp Hs].
  split_and!; [by do 2 eexists|apply trim_last|]. intros Hnz.
  assert (Hnz' : Forall (fun p => fst p <> 0) (qsort hwloc_memory_page_type_compare (page_types (memory o))))
    by (by rewrite Hp).
  rewrite trim_id by done. split; [done|].
  specialize (Hs (page_type_compare_consistent _ Hnz)). clear -Hs Hnz'.
  induction Hs as [|x l Hl IH Hx]; [constructor|]. apply Forall_cons in Hnz' as [_ Hnz'].
  constructor; [auto|]. rewrite Forall_forall in *. intros y Hy. by apply page_type_compare_le; auto.
Qed.

(** An insertion sort. *)
Fixpoint insert_by {A} (cmp : A -> A -> Z) (x : A) (l : list A) : list A :=
  match l with
  | [] => [x]
  | y :: l' => if cmp x y <=? 0 then x :: l else y :: insert_by cmp x l'
  end.
Definition insertion_sort {A} (cmp : A -> A -> Z) (l : list A) : list A := foldr (insert_by cmp) [] l.

Lemma insert_by_perm {A} (cmp : A -> A -> Z) x l : insert_by cmp x l ≡ₚ x :: l.
Proof.
  induction l as [|y l IH]; [done|]. simpl. destruct (cmp x y <=? 0); [done|]. by rewrite IH, Permutation_swap.
Qed.

Lemma insertion_sort_spec : qsort_spec insertion_sort.
Proof.
  intros cmp l.
  assert (Hperm : forall l, insertion_sort cmp l ≡ₚ l).
  { clear l. induction l as [|x l IH]; [done|]. simpl. unfold insertion_sort in IH. by rewrite insert_by_perm, IH. }
  split; [done|]. intros (Hlt & Heq & Htr).
  assert (Hgen : forall l', l' ⊆ l -> StronglySorted (fun x y => cmp x y <= 0) (insertion_sort cmp l')).
  { induction l' as [|x l' IH]; intros Hsub; [constructor|]. simpl.
    assert (Hs : StronglySorted (fun x y => cmp x y <= 0) (insertion_sort cmp l')) by (apply IH; set_solver).
    assert (Hin : insertion_sort cmp l' ⊆ l) by (intros y; rewrite Hperm; set_solver).
    assert (Hx : x ∈ l) by set_solver. unfold insertion_sort in *. clear IH Hsub.
    induction Hs as [|y ys Hys IHs Hy]; simpl; [repeat constructor|].
    assert (Hyl : y ∈ l) by set_solver. rewrite Forall_forall in Hy.
    destruct (Z.leb_spec (cmp x y) 0) as [Hle|Hgt].
    - constructor; [by constructor; [|apply Forall_forall]|]. constructor; [done|].
      apply Forall_forall. intros z Hz. apply (Htr x y z); [done|done|set_solver|done|auto].
    - constructor; [apply IHs; set_solver|]. apply Forall_forall. intros z Hz. rewrite insert_by_perm in Hz.
      apply elem_of_cons in Hz as [->|Hz]; [|auto].
      specialize (Hlt y x Hyl Hx). lia. }
  by apply Hgen.
Qed.

(** Two nodes below a machine. *)
Definition node_with_memory (addr local : Z) (types : list (Z * Z)) : hwloc_obj wbitmap :=
  with_memory (hwloc_alloc_setup_object addr HWLOC_OBJ_NODE addr) (mk_memory 0 local types).

Definition memory_tree : obj_tree wbitmap :=
  Node (hwloc_alloc_setup_object 1 HWLOC_OBJ_MACHINE 0)
    [Node (node_with_memory 2 1000 [(2048, 3); (4, 7)]) []; Node (node_with_memory 3 24 []) []].

Lemma total_memory_sums_witness :
  map (fun o => total_memory (memory o)) (tree_objs (propagate_total_memory insertion_sort memory_tree))
    = [1024; 1000; 24] /\
  Forall total_right (tree_nodes (propagate_total_memory insertion_sort memory_tree)).
Proof.
  split; [by_eval|]. exact (proj1 (total_memory_sums insertion_sort memory_tree insertion_sort_spec)).
Defined.

(** ** CPU sets *)

(** On an object with a cpuset [collect_proc_cpuset] makes its cpuset the
    union of the cpusets of the PUs strictly below it, whatever it was before, and
    leaves all other objects as they are. *)
Theorem pu_cpusets_collected {B} `{Cpuset B} (o : hwloc_obj B) ch :
  is_Some (ocpuset o) -> pus_have_cpusets (forest_objs ch) ->
  exists s, collect_proc_cpuset (Node o ch) None = Some (None, Node (with_cpuset o (Some s)) ch) /\
    forall i, 0 <= i -> bm s i = pu_member i (forest_objs ch).
Proof.
  intros [c Hc] Hp. cbn [collect_proc_cpuset]. rewrite Hc.
  destruct (collect_thread ch b_alloc) as (s & -> & Hs); [|done|].
  { apply Forall_forall. intros t _. apply collect_ok. }
  exists s. split; [done|]. intros i Hi. rewrite Hs by done. by rewrite (bm_alloc i Hi).
Qed.

Definition pu (addr cpu : Z) : obj_tree wbitmap :=
  Node (sample_obj addr HWLOC_OBJ_PU cpu (Some (cset [cpu]))) [].

Lemma pu_cpusets_collected_witness :
  exists s, collect_proc_cpuset (Node (sample_obj 1 HWLOC_OBJ_MACHINE 0 (Some (cset [5]))) [pu 2 0; pu 3 1]) None =
      Some (None, Node (with_cpuset (sample_obj 1 HWLOC_OBJ_MACHINE 0 (Some (cset [5]))) (Some s)) [pu 2 0; pu 3 1]) /\
    bm s 1 = true /\ bm s 5 = false.
Proof.
  destruct (pu_cpusets_collected (sample_obj 1 HWLOC_OBJ_MACHINE 0 (Some (cset [5]))) [pu 2 0; pu 3 1])
    as (s & Heq & Hs).
  - by eexists.
  - intros o [->|[->|Ho%not_elem_of_nil]%elem_of_cons]%elem_of_cons _; [by eexists..|done].
  - exists s. split; [exact Heq|]. rewrite !Hs by lia. split; by_eval.
Defined.

(** C11. From the first object with a cpuset down, [propagate_unused_cpuset]
    intersects every cpuset with the one of that object and every complete cpuset
    with its complete cpuset, gives every object an online and an allowed cpuset
    within those the first object started with and within its own, and takes from
    the online (allowed) cpuset of the first object exactly the CPUs that some
    object has but not online (allowed).  [remove_unused_cpusets] then keeps of
    every cpuset the CPUs both online and allowed. *)
Theorem unused_cpus_propagated {B} `{Cpuset B} (o : hwloc_obj B) ch c :
  ocpuset o = Some c ->
  exists c' m on al on0 al0 ch' root'',
    propagate_unused_cpuset (Node o ch) None = Some (None, Node (set_cpusets o c' m on al) ch') /\
    (forall i, 0 <= i -> bm c' i = bm c i && bm m i) /\ m = default c (complete_cpuset (sets o)) /\
    bsub on0 m /\ bsub al0 m /\
    Forall2 (unused_done c' m on0 al0) (forest_objs ch) (forest_objs ch') /\
    (forall i, 0 <= i -> bm on i = true <-> bm on0 i = true /\ keeps_known online_cpuset (forest_objs ch') i) /\
    (forall i, 0 <= i -> bm al i = true <-> bm al0 i = true /\ keeps_known allowed_cpuset (forest_objs ch') i) /\
    remove_unused_cpusets (Node (set_cpusets o c' m on al) ch') = Some root'' /\
    Forall2 used_only (set_cpusets o c' m on al :: forest_objs ch') (tree_objs root'').
Proof.
  intros Hc. destruct (unused_root o ch c Hc) as (c' & m & on & al & s' & ch' & Heq & Hc' & Hm & Hv & -> & ->).
  destruct Hv as (_ & _ & HF & Hon & Hal). cbn [sys_cpuset sys_complete sys_online sys_allowed] in *.
  destruct (remove_unused_ok (Node (set_cpusets o c' m (sys_online s') (sys_allowed s')) ch')) as (r & Hr & Hu).
  { rewrite tree_objs_node. constructor; [|by eapply unused_done_has]. intros _. split; by eexists. }
  rewrite tree_objs_node in Hu.
  do 8 eexists. split_and!; [exact Heq|done|done| | |exact HF|exact Hon|exact Hal|exact Hr|exact Hu].
  - destruct (online_cpuset (sets o)); [apply bm_and_r|done].
  - destruct (allowed_cpuset (sets o)); [apply bm_and_r|done].
Qed.

(** A core whose CPU 1 is offline makes it offline in the machine. *)
Lemma unused_cpus_propagated_witness :
  let core := with_online_cpuset (sample_obj 2 HWLOC_OBJ_CORE 0 (Some (cset [0; 1]))) (Some (cset [0])) in
  match propagate_unused_cpuset (Node (sample_obj 1 HWLOC_OBJ_MACHINE 0 (Some (cset [0; 1; 2]))) [Node core []]) None with
  | Some (_, Node o _) => exists on, online_cpuset (sets o) = Some on /\ bm on 1 = false
  | None => False
  end.
Proof.
  cbv zeta.
  destruct (unused_cpus_propagated (sample_obj 1 HWLOC_OBJ_MACHINE 0 (Some (cset [0; 1; 2])))
    [Node (with_online_cpuset (sample_obj 2 HWLOC_OBJ_CORE 0 (Some (cset [0; 1]))) (Some (cset [0]))) []] _ eq_refl)
    as (c' & m & on & al & on0 & al0 & ch' & r & Heq & Hc & Hm & _ & _ & HF & Hon & _).
  rewrite Heq. exists on. split; [done|].
  destruct (bm on 1) eqn:Hb; [|done]. exfalso. apply Hon in Hb as [_ Hk]; [|lia].
  apply Forall2_cons_inv_l in HF as (o' & os & Ho & _ & Hos).
  destruct Ho as (co & cm & con & cal & Ho' & Hco & _ & _ & _ & Hsub & _).
  assert (H1 : bm con 1 = true).
  { apply (Hk o' co con); [rewrite Hos; apply list_elem_of_here|rewrite Ho'; reflexivity|rewrite Ho'; reflexivity|].
    rewrite Hco, Hc by lia. rewrite Hm. by_eval. }
  specialize (Hsub (cset [0]) eq_refl 1 ltac:(lia) H1). revert Hsub.
  replace (bm (cset [0]) 1) with false by by_eval. discriminate.
Defined.

(** ** Node sets *)

(** ** Nodesets, with I/O children anywhere *)

Section Filled.
Context {B : Type} `{Cpuset B}.
Implicit Types o : hwloc_obj B.





End Filled.




