(* ===== verification/Traversal.v ===== *)
(** * Traversal: consulting a loaded topology

    [src/traversal.c] and the inline functions of [include/hwloc/helper.h], on
    the state a load leaves: objects and their links in stores indexed by
    address, levels as arrays of addresses.  A pointer is an address, [None]
    inside an [option Z] is NULL; reading an object that is not live is
    undefined.  Depths are [unsigned]: the virtual depths of the I/O levels are
    the negative constants modulo 2^32. *)

From stdpp Require Import gmap functions.
From S2P Require Import Prelude Cpuset Obj Levels.

Section Traversal.
Context {B : Type} `{CpusetOps B}.

Record topology := mk_topology {
  objects : gmap Z (hwloc_obj B);
  tlinks : links_store;
  tlevels : list (list Z);
  ttype_depth : hwloc_obj_type_t -> Z;
  tbridge_level : list Z;
  tpcidev_level : list Z;
  tosdev_level : list Z;
}.

(** The state that [hwloc_connect_levels] leaves for the tree [root]. *)
Definition topology_of (root : obj_tree B) (tl : topology_levels (B := B)) : topology :=
  mk_topology (list_to_map (map (fun o => (o_addr o, o)) (tree_objs root)))
    (io_links (ls_io (tl_levels tl))) (map (map t_addr) (Levels.levels (tl_levels tl)))
    (type_depth (tl_levels tl)) (bridge_level tl) (pcidev_level tl) (osdev_level tl).

Context (topo : topology).

(** [p->cpuset], [p->parent], ... *)
Definition obj_at (p : Z) : option (hwloc_obj B) := objects topo !! p.
Definition links_at (p : Z) : option obj_links := require! bool_decide (is_Some (objects topo !! p)) in
  Some (links (tlinks topo) p).

(** More steps than any list of live objects has. *)
Definition walk_fuel : nat := S (size (objects topo)).

(** ** Levels ([traversal.c]) *)

Definition hwloc_get_type_depth (type : hwloc_obj_type_t) : Z := ttype_depth topo type.

(** The array of a depth that is not below [nb_levels]. *)
Definition special_level (depth : Z) : option (hwloc_obj_type_t * list Z) :=
  if depth =? u32 HWLOC_TYPE_DEPTH_BRIDGE then Some (HWLOC_OBJ_BRIDGE, tbridge_level topo)
  else if depth =? u32 HWLOC_TYPE_DEPTH_PCI_DEVICE then Some (HWLOC_OBJ_PCI_DEVICE, tpcidev_level topo)
  else if depth =? u32 HWLOC_TYPE_DEPTH_OS_DEVICE then Some (HWLOC_OBJ_OS_DEVICE, tosdev_level topo)
  else None.

Definition tnb_levels : Z := Z.of_nat (length (tlevels topo)).

Definition level_at (depth : Z) : option (list Z) := tlevels topo !! Z.to_nat depth.

(** The inner [None] is [(hwloc_obj_type_t) -1]. *)
Definition hwloc_get_depth_type (depth : Z) : option (option hwloc_obj_type_t) :=
  if tnb_levels <=? depth then Some (fst <$> special_level depth)
  else
    let! level := level_at depth in
    let! first := head level in
    let! o := obj_at first in
    Some (Some (o_type o)).

Definition hwloc_get_nbobjs_by_depth (depth : Z) : option Z :=
  if tnb_levels <=? depth then
    Some (match special_level depth with Some (_, l) => Z.of_nat (length l) | None => 0 end)
  else let! level := level_at depth in Some (Z.of_nat (length level)).

Definition nth_obj (level : list Z) (idx : Z) : option Z :=
  if Z.of_nat (length level) <=? idx then None else level !! Z.to_nat idx.

Definition hwloc_get_obj_by_depth (depth idx : Z) : option (option Z) :=
  if tnb_levels <=? depth then
    Some (match special_level depth with Some (_, l) => nth_obj l idx | None => None end)
  else let! level := level_at depth in Some (nth_obj level idx).

Definition hwloc_get_root_obj : option (option Z) := hwloc_get_obj_by_depth 0 0.

(** [None] dereferences a NULL root. *)
Definition root_obj : option (hwloc_obj B) :=
  let! p := hwloc_get_root_obj in let! p := p in obj_at p.

(** [hwloc_get_obj_by_type], [hwloc_get_nbobjs_by_type] ([hwloc.h]). *)
Definition hwloc_get_obj_by_type (type : hwloc_obj_type_t) (idx : Z) : option (option Z) :=
  let depth := hwloc_get_type_depth type in
  if depth =? HWLOC_TYPE_DEPTH_UNKNOWN then Some None
  else if depth =? HWLOC_TYPE_DEPTH_MULTIPLE then Some None
  else hwloc_get_obj_by_depth (u32 depth) idx.

Definition hwloc_get_nbobjs_by_type (type : hwloc_obj_type_t) : option Z :=
  let depth := hwloc_get_type_depth type in
  if depth =? HWLOC_TYPE_DEPTH_UNKNOWN then Some 0
  else if depth =? HWLOC_TYPE_DEPTH_MULTIPLE then Some (-1)
  else hwloc_get_nbobjs_by_depth (u32 depth).

(** ** Iterators ([helper.h]) *)

Definition hwloc_get_next_obj_by_depth (depth' : Z) (prev : option Z) : option (option Z) :=
  match prev with
  | None => hwloc_get_obj_by_depth depth' 0
  | Some p =>
      let! k := links_at p in
      if negb (depth k =? depth') then Some None else Some (next_cousin k)
  end.

Definition single_depth (type : hwloc_obj_type_t) : option Z :=
  let depth := hwloc_get_type_depth type in
  if (depth =? HWLOC_TYPE_DEPTH_UNKNOWN) || (depth =? HWLOC_TYPE_DEPTH_MULTIPLE) then None
  else Some (u32 depth).

Definition hwloc_get_next_obj_by_type (type : hwloc_obj_type_t) (prev : option Z) : option (option Z) :=
  match single_depth type with
  | None => Some None
  | Some d => hwloc_get_next_obj_by_depth d prev
  end.

(** [while (p && !test(p)) p = p->next_cousin] *)
Fixpoint walk_cousins (fuel : nat) (test : hwloc_obj B -> option bool) (p : option Z) : option (option Z) :=
  match p with
  | None => Some None
  | Some a =>
      match fuel with
      | O => None
      | S fuel =>
          let! o := obj_at a in
          let! b := test o in
          if b : bool then Some (Some a) else
          let! k := links_at a in
          walk_cousins fuel test (next_cousin k)
      end
  end.

(** [while ((obj = next(obj)) != NULL) s = body(obj, s)] *)
Fixpoint iterate {S : Type} (fuel : nat) (next : option Z -> option (option Z))
    (body : hwloc_obj B -> S -> option S) (prev : option Z) (s : S) : option S :=
  match fuel with
  | O => None
  | Datatypes.S fuel =>
      let! p := next prev in
      match p with
      | None => Some s
      | Some a =>
          let! o := obj_at a in
          let! s := body o s in
          iterate fuel next body (Some a) s
      end
  end.

Definition hwloc_get_pu_obj_by_os_index (os_index' : Z) : option (option Z) :=
  let! first := hwloc_get_next_obj_by_type HWLOC_OBJ_PU None in
  (* the loop reads next_cousin through [hwloc_get_next_obj_by_type] *)
  (fix go fuel p :=
     match p with
     | None => Some None
     | Some a =>
         match fuel with
         | O => None
         | S fuel =>
             let! o := obj_at a in
             if os_index o =? os_index' then Some (Some a) else
             let! p := hwloc_get_next_obj_by_type HWLOC_OBJ_PU (Some a) in
             go fuel p
         end
     end) walk_fuel first.

(** ** Objects inside a cpuset *)

Definition inside_set (set : B) (o : hwloc_obj B) : option bool :=
  let! c := ocpuset o in Some (b_isincluded c set).
Definition meets_set (set : B) (o : hwloc_obj B) : option bool :=
  let! c := ocpuset o in Some (b_intersects set c).

(** NULL if there is no object or if it has no cpuset. *)
Definition with_cpuset_only (p : option Z) : option (option Z) :=
  match p with
  | None => Some None
  | Some a => let! o := obj_at a in Some (match ocpuset o with Some _ => Some a | None => None end)
  end.

Definition hwloc_get_next_obj_inside_cpuset_by_depth (set : B) (depth : Z) (prev : option Z)
  : option (option Z) :=
  let! next := hwloc_get_next_obj_by_depth depth prev in
  let! next := with_cpuset_only next in
  walk_cousins walk_fuel (inside_set set) next.

Definition hwloc_get_next_obj_inside_cpuset_by_type (set : B) (type : hwloc_obj_type_t) (prev : option Z)
  : option (option Z) :=
  match single_depth type with
  | None => Some None
  | Some d => hwloc_get_next_obj_inside_cpuset_by_depth set d prev
  end.

Fixpoint nth_inside (fuel : nat) (set : B) (idx count : Z) (p : option Z) : option (option Z) :=
  match p with
  | None => Some None
  | Some a =>
      match fuel with
      | O => None
      | S fuel =>
          let! o := obj_at a in
          let! c := ocpuset o in
          let! k := links_at a in
          if b_isincluded c set then
            if count =? idx then Some (Some a)
            else nth_inside fuel set idx (u32 (count + 1)) (next_cousin k)
          else nth_inside fuel set idx count (next_cousin k)
      end
  end.

Definition hwloc_get_obj_inside_cpuset_by_depth (set : B) (depth idx : Z) : option (option Z) :=
  let! obj := hwloc_get_obj_by_depth depth 0 in
  let! obj := with_cpuset_only obj in
  nth_inside walk_fuel set idx 0 obj.

Definition hwloc_get_obj_inside_cpuset_by_type (set : B) (type : hwloc_obj_type_t) (idx : Z)
  : option (option Z) :=
  match single_depth type with
  | None => Some None
  | Some d => hwloc_get_obj_inside_cpuset_by_depth set d idx
  end.

Fixpoint count_inside (fuel : nat) (set : B) (count : Z) (p : option Z) : option Z :=
  match p with
  | None => Some count
  | Some a =>
      match fuel with
      | O => None
      | S fuel =>
          let! o := obj_at a in
          let! c := ocpuset o in
          let! k := links_at a in
          count_inside fuel set (if b_isincluded c set then u32 (count + 1) else count) (next_cousin k)
      end
  end.

Definition hwloc_get_nbobjs_inside_cpuset_by_depth (set : B) (depth : Z) : option Z :=
  let! obj := hwloc_get_obj_by_depth depth 0 in
  let! obj := with_cpuset_only obj in
  count_inside walk_fuel set 0 obj.

Definition hwloc_get_nbobjs_inside_cpuset_by_type (set : B) (type : hwloc_obj_type_t) : option Z :=
  let depth := hwloc_get_type_depth type in
  if depth =? HWLOC_TYPE_DEPTH_UNKNOWN then Some 0
  else if depth =? HWLOC_TYPE_DEPTH_MULTIPLE then Some (-1)
  else let! n := hwloc_get_nbobjs_inside_cpuset_by_depth set (u32 depth) in Some (s32 n).

(** Counts backwards along [prev_cousin]. *)
Fixpoint index_inside (fuel : nat) (set : B) (index : Z) (p : option Z) : option Z :=
  match p with
  | None => Some index
  | Some a =>
      match fuel with
      | O => None
      | S fuel =>
          let! o := obj_at a in
          let! c := ocpuset o in
          let! k := links_at a in
          index_inside fuel set (if b_isincluded c set then index + 1 else index) (prev_cousin k)
      end
  end.

Definition hwloc_get_obj_index_inside_cpuset (set : B) (p : Z) : option Z :=
  let! o := obj_at p in
  let! c := ocpuset o in
  if negb (b_isincluded c set) then Some (-1) else
  let! k := links_at p in
  index_inside walk_fuel set 0 (prev_cousin k).

(** ** Objects covering a cpuset *)

Definition hwloc_get_next_obj_covering_cpuset_by_depth (set : B) (depth : Z) (prev : option Z)
  : option (option Z) :=
  let! next := hwloc_get_next_obj_by_depth depth prev in
  let! next := with_cpuset_only next in
  walk_cousins walk_fuel (meets_set set) next.

Definition hwloc_get_next_obj_covering_cpuset_by_type (set : B) (type : hwloc_obj_type_t) (prev : option Z)
  : option (option Z) :=
  match single_depth type with
  | None => Some None
  | Some d => hwloc_get_next_obj_covering_cpuset_by_depth set d prev
  end.

(** ** Converting between cpusets and nodesets *)

(** The loops; [os_index] is [unsigned]. *)
Definition nodes_covering (set : B) (depth : Z) : option B :=
  iterate walk_fuel (hwloc_get_next_obj_covering_cpuset_by_depth set depth)
    (fun o nodeset => Some (b_set nodeset (os_index o))) None b_alloc.

Definition cpus_of_nodes (nodeset : B) (depth : Z) : option B :=
  iterate walk_fuel (hwloc_get_next_obj_by_depth depth)
    (fun o cpuset =>
       if b_isset nodeset (os_index o) then let! c := ocpuset o in Some (b_or cpuset c)
       else Some cpuset) None b_alloc.

Definition hwloc_cpuset_to_nodeset (cpuset : B) : option B :=
  let depth := hwloc_get_type_depth HWLOC_OBJ_NODE in
  if depth =? HWLOC_TYPE_DEPTH_UNKNOWN then Some (if b_iszero cpuset then b_alloc else b_alloc_full)
  else nodes_covering cpuset (u32 depth).

(** The strict versions leave the output as it was if there is no node. *)
Definition hwloc_cpuset_to_nodeset_strict (cpuset nodeset : B) : option B :=
  let depth := hwloc_get_type_depth HWLOC_OBJ_NODE in
  if depth =? HWLOC_TYPE_DEPTH_UNKNOWN then Some nodeset else nodes_covering cpuset (u32 depth).

Definition hwloc_cpuset_from_nodeset (nodeset : B) : option B :=
  let depth := hwloc_get_type_depth HWLOC_OBJ_NODE in
  if depth =? HWLOC_TYPE_DEPTH_UNKNOWN then Some (if b_iszero nodeset then b_alloc else b_alloc_full)
  else cpus_of_nodes nodeset (u32 depth).

Definition hwloc_cpuset_from_nodeset_strict (cpuset nodeset : B) : option B :=
  let depth := hwloc_get_type_depth HWLOC_OBJ_NODE in
  if depth =? HWLOC_TYPE_DEPTH_UNKNOWN then Some cpuset else cpus_of_nodes nodeset (u32 depth).

(** The sets of the root. *)
Definition hwloc_topology_get_complete_cpuset : option (option B) := let! r := root_obj in Some (complete_cpuset (sets r)).
Definition hwloc_topology_get_topology_cpuset : option (option B) := let! r := root_obj in Some (ocpuset r).
Definition hwloc_topology_get_online_cpuset : option (option B) := let! r := root_obj in Some (online_cpuset (sets r)).
Definition hwloc_topology_get_allowed_cpuset : option (option B) := let! r := root_obj in Some (allowed_cpuset (sets r)).
Definition hwloc_topology_get_complete_nodeset : option (option B) := let! r := root_obj in Some (complete_nodeset (sets r)).
Definition hwloc_topology_get_topology_nodeset : option (option B) := let! r := root_obj in Some (onodeset r).
Definition hwloc_topology_get_allowed_nodeset : option (option B) := let! r := root_obj in Some (allowed_nodeset (sets r)).

End Traversal.

Arguments topology B : clear implicits.
Arguments mk_topology {B}.
