(* ===== verification/Loaded.v ===== *)
(** * Loaded: from a connected hierarchy to a topology that can be consulted

    [consultable] is what the queries rely on: live objects, cousins that follow the
    arrays of levels; the loops of Traversal.v on such a topology.
    [hwloc_connect_levels] keeps the links that [hwloc_connect_children] has set, and
    the levels it builds are what the queries rely on. *)

From stdpp Require Import gmap functions.
From S2P Require Import Prelude Cpuset Obj ObjCmp CleanOk Levels LevelsOk LevelsLoop Connected Traversal.

Section TraversalOk.
Context {B : Type} `{CpusetOps B}.
Implicit Types topo : topology B.

(** The array of objects of a depth, empty where there is none. *)
Definition level_of topo (depth : Z) : list Z :=
  if tnb_levels topo <=? depth then default [] (snd <$> special_level topo depth)
  else default [] (level_at topo depth).

(** The links of the object at index [i] of the level [l]. *)
Record cousin_links (k : obj_links) (d : Z) (l : list Z) (i : nat) : Prop := {
  cl_depth : depth k = d;
  cl_index : logical_index k = Z.of_nat i;
  cl_next : next_cousin k = l !! S i;
  cl_prev : prev_cousin k = match i with O => None | S j => l !! j end;
}.

Record consultable topo : Prop := {
  cs_live : forall d a, 0 <= d < 2 ^ 32 -> a ∈ level_of topo d -> is_Some (obj_at topo a);
  cs_links : forall d i a, 0 <= d < 2 ^ 32 -> level_of topo d !! i = Some a ->
    cousin_links (links (tlinks topo) a) d (level_of topo d) i;
  cs_nodup : forall d, 0 <= d < 2 ^ 32 -> NoDup (level_of topo d);
  cs_nonempty : forall l, l ∈ tlevels topo -> l <> [];
  cs_types : forall d l o p a b, tlevels topo !! d = Some l -> a ∈ l -> b ∈ l ->
    obj_at topo a = Some o -> obj_at topo b = Some p -> o_type o = o_type p;
}.

(** The element before index [i], [None] at the start. *)
Definition before (l : list Z) (i : nat) : option Z := match i with O => None | S j => l !! j end.

Context topo (Hok : consultable topo).

Lemma obj_by_depth d idx :
  0 <= d -> 0 <= idx -> hwloc_get_obj_by_depth topo d idx = Some (level_of topo d !! Z.to_nat idx).
Proof.
  intros Hd Hi. unfold hwloc_get_obj_by_depth, level_of.
  assert (Hnth : forall l, nth_obj l idx = l !! Z.to_nat idx).
  { intros l. unfold nth_obj. destruct (Z.leb_spec (Z.of_nat (length l)) idx); [|done].
    symmetry. apply lookup_ge_None. lia. }
  destruct (Z.leb_spec (tnb_levels topo) d) as [_|Hlt].
  - destruct (special_level topo d) as [[ty l]|]; simpl; by rewrite ?Hnth.
  - unfold level_at, tnb_levels in *.
    destruct (lookup_lt_is_Some_2 (tlevels topo) (Z.to_nat d)) as [l ->]; [lia|].
    cbn [mbind option_bind]. by rewrite Hnth.
Qed.

Lemma nbobjs_by_depth d :
  0 <= d -> hwloc_get_nbobjs_by_depth topo d = Some (Z.of_nat (length (level_of topo d))).
Proof.
  intros Hd. unfold hwloc_get_nbobjs_by_depth, level_of.
  destruct (Z.leb_spec (tnb_levels topo) d) as [_|Hlt].
  - by destruct (special_level topo d) as [[ty l]|].
  - unfold level_at, tnb_levels in *.
    by destruct (lookup_lt_is_Some_2 (tlevels topo) (Z.to_nat d)) as [l ->]; [lia|].
Qed.

(** ** One level *)

Section Level.
Context (d : Z) (Hd : 0 <= d < 2 ^ 32).
Notation l := (level_of topo d).

Lemma level_obj a : a ∈ l -> exists o, obj_at topo a = Some o.
Proof. intros Ha. by destruct (cs_live topo Hok d a Hd Ha) as [o Ho]; exists o. Qed.

Lemma level_link i a : l !! i = Some a ->
  exists k, links_at topo a = Some k /\ cousin_links k d l i.
Proof.
  intros Hi. exists (links (tlinks topo) a). split; [|by apply (cs_links topo Hok)].
  unfold links_at. rewrite bool_decide_true; [done|].
  apply (cs_live topo Hok d a Hd). by eapply list_elem_of_lookup_2.
Qed.

Lemma level_size : (length l < walk_fuel topo)%nat.
Proof.
  unfold walk_fuel. rewrite <- size_dom, <- (size_list_to_set (C := gset Z) l) by by apply (cs_nodup topo Hok).
  apply Nat.lt_succ_r, subseteq_size. intros a Ha%elem_of_list_to_set.
  apply elem_of_dom. by apply (cs_live topo Hok d).
Qed.

Lemma next_obj i : (i <= length l)%nat ->
  hwloc_get_next_obj_by_depth topo d (before l i) = Some (l !! i).
Proof.
  intros Hi. unfold hwloc_get_next_obj_by_depth. destruct i as [|j]; cbn [before].
  - apply (obj_by_depth d 0); lia.
  - destruct (lookup_lt_is_Some_2 l j) as [a Ha]; [lia|]. rewrite Ha.
    destruct (level_link j a Ha) as (k & -> & Hk). cbn [mbind option_bind].
    rewrite (cl_depth _ _ _ _ Hk), Z.eqb_refl. simpl. by rewrite (cl_next _ _ _ _ Hk).
Qed.

(** A test that is defined on all the objects of the level. *)
Definition tests (test : hwloc_obj B -> option bool) (t : Z -> bool) : Prop :=
  forall a o, a ∈ l -> obj_at topo a = Some o -> test o = Some (t a).

Lemma walk_cousins_find test t fuel i :
  tests test t -> (length l < fuel + i)%nat ->
  walk_cousins topo fuel test (l !! i) = Some (find t (drop i l)).
Proof.
  intros Ht. revert i. induction fuel as [|fuel IH]; intros i Hf; destruct (l !! i) as [a|] eqn:Hi.
  - apply lookup_lt_Some in Hi. lia.
  - apply lookup_ge_None in Hi. by rewrite drop_ge.
  - assert (Ha : a ∈ l) by by eapply list_elem_of_lookup_2.
    rewrite (drop_S _ _ _ Hi). cbn [walk_cousins find]. destruct (level_obj a Ha) as [o Ho].
    destruct (level_link i a Hi) as (k & Hk & Hl).
    rewrite Ho. cbn [mbind option_bind]. rewrite (Ht a o Ha Ho). cbn [mbind option_bind].
    destruct (t a); [done|]. rewrite Hk. cbn [mbind option_bind].
    rewrite (cl_next _ _ _ _ Hl). apply IH. lia.
  - apply lookup_ge_None in Hi. by rewrite drop_ge.
Qed.

(** The fold of a body along a list of objects. *)
Fixpoint fold_objs {S : Type} (body : hwloc_obj B -> S -> option S) (as' : list Z) (s : S) : option S :=
  match as' with
  | [] => Some s
  | a :: as' => let! o := obj_at topo a in let! s := body o s in fold_objs body as' s
  end.

(** An iterator that gives the elements of a sublist one after the other. *)
Definition enumerates (next : option Z -> option (option Z)) (fl : list Z) : Prop :=
  forall i, (i <= length fl)%nat -> next (before fl i) = Some (fl !! i).

Lemma iterate_fold {S} next fl (body : hwloc_obj B -> S -> option S) fuel i s :
  enumerates next fl -> (i <= length fl)%nat -> (length fl < fuel + i)%nat ->
  iterate topo fuel next body (before fl i) s = fold_objs body (drop i fl) s.
Proof.
  intros Hn. revert i s. induction fuel as [|fuel IH]; intros i s Hi Hf; [lia|].
  cbn [iterate]. rewrite (Hn i Hi). cbn [mbind option_bind]. destruct (fl !! i) as [a|] eqn:Ha.
  - rewrite (drop_S _ _ _ Ha). cbn [fold_objs]. destruct (obj_at topo a) as [o|]; [|done].
    cbn [mbind option_bind]. destruct (body o s) as [s'|]; [|done]. cbn [mbind option_bind].
    assert (Some a = before fl (Datatypes.S i)) as -> by by simpl.
    apply lookup_lt_Some in Ha. apply IH; lia.
  - apply lookup_ge_None in Ha. by rewrite drop_ge.
Qed.

Lemma level_enumerated : enumerates (hwloc_get_next_obj_by_depth topo d) l.
Proof. intros i Hi. by apply next_obj. Qed.

(** ** The objects of a level that pass a test *)

Definition passing (t : Z -> bool) : list Z := filter (fun a => t a = true) l.

Lemma find_head t (as' : list Z) : find t as' = head (filter (fun a => t a = true) as').
Proof.
  induction as' as [|a as' IH]; [done|]. cbn [find]. rewrite filter_cons.
  destruct (t a) eqn:Ha; [by rewrite decide_True|]. by rewrite decide_False by congruence.
Qed.

Lemma head_drop (as' : list Z) i : head (drop i as') = as' !! i.
Proof. revert i. induction as' as [|a as' IH]; intros [|i]; simpl; auto. Qed.

Lemma filter_cursor t (as' fl : list Z) a : filter (fun x => t x = true) as' = a :: fl ->
  exists j, as' !! j = Some a /\ filter (fun x => t x = true) (drop (S j) as') = fl.
Proof.
  induction as' as [|x as' IH]; [done|]. rewrite filter_cons.
  destruct (decide (t x = true)).
  - intros [= -> <-]. by exists 0%nat.
  - intros (j & Hj & Hf)%IH. by exists (S j).
Qed.

(** Where in the level the element before index [i] of the filtered list is. *)
Lemma passing_cursor t i : (i <= length (passing t))%nat ->
  exists j, (j <= length l)%nat /\ before l j = before (passing t) i /\
    filter (fun a => t a = true) (drop j l) = drop i (passing t).
Proof.
  induction i as [|i IH]; intros Hi; [exists 0%nat; split; [lia|done]|].
  destruct IH as (j & Hj & _ & Hf); [lia|].
  destruct (lookup_lt_is_Some_2 (passing t) i) as [a Ha]; [lia|].
  rewrite (drop_S _ _ _ Ha) in Hf. apply filter_cursor in Hf as (j' & Hj' & Hf).
  rewrite lookup_drop in Hj'. exists (S (j + j')). apply lookup_lt_Some in Hj' as Hlt.
  split; [lia|]. cbn [before]. rewrite Hj', Ha. split; [done|].
  by rewrite drop_drop, Nat.add_succ_r in Hf.
Qed.

(** Every object of the level has a cpuset. *)
Definition has_cpusets : Prop :=
  forall a o, a ∈ l -> obj_at topo a = Some o -> exists c, ocpuset o = Some c.

Lemma with_cpuset_level i : has_cpusets -> with_cpuset_only topo (l !! i) = Some (l !! i).
Proof.
  intros Hc. destruct (l !! i) as [a|] eqn:Hi; [|done].
  assert (Ha : a ∈ l) by by eapply list_elem_of_lookup_2.
  destruct (level_obj a Ha) as [o Ho]. destruct (Hc a o Ha Ho) as [c Hs].
  unfold with_cpuset_only. rewrite Ho. cbn [mbind option_bind]. by rewrite Hs.
Qed.

Lemma passing_enumerated test t : has_cpusets -> tests test t ->
  enumerates (fun prev =>
    let! next := hwloc_get_next_obj_by_depth topo d prev in
    let! next := with_cpuset_only topo next in
    walk_cousins topo (walk_fuel topo) test next) (passing t).
Proof.
  intros Hc Ht i Hi. destruct (passing_cursor t i Hi) as (j & Hj & <- & Hf).
  rewrite next_obj by done. cbn [mbind option_bind]. rewrite with_cpuset_level by done.
  cbn [mbind option_bind]. rewrite (walk_cousins_find test t) by (pose proof level_size; done || lia).
  by rewrite find_head, Hf, head_drop.
Qed.

Lemma passing_fuel t : (length (passing t) < walk_fuel topo)%nat.
Proof. pose proof level_size. pose proof (length_filter (fun a => t a = true) l). unfold passing. lia. Qed.

(** ** Inside and covering *)

(** Applies a test on cpusets at an address. *)
Definition on_cpuset (f : B -> bool) (a : Z) : bool :=
  match obj_at topo a with
  | Some o => match ocpuset o with Some c => f c | None => false end
  | None => false
  end.

Lemma inside_tests set : has_cpusets -> tests (inside_set set) (on_cpuset (fun c => b_isincluded c set)).
Proof.
  intros Hc a o Ha Ho. destruct (Hc a o Ha Ho) as [c Hs].
  unfold inside_set, on_cpuset. by rewrite Ho, Hs.
Qed.

Lemma meets_tests set : has_cpusets -> tests (meets_set set) (on_cpuset (fun c => b_intersects set c)).
Proof.
  intros Hc a o Ha Ho. destruct (Hc a o Ha Ho) as [c Hs].
  unfold meets_set, on_cpuset. by rewrite Ho, Hs.
Qed.

(** What the loops read at index [i] of the level. *)
Lemma level_read i a set : has_cpusets -> l !! i = Some a ->
  exists o c k, obj_at topo a = Some o /\ ocpuset o = Some c /\ links_at topo a = Some k /\
    cousin_links k d l i /\ on_cpuset (fun c => b_isincluded c set) a = b_isincluded c set.
Proof.
  intros Hc Hi. assert (Ha : a ∈ l) by by eapply list_elem_of_lookup_2.
  destruct (level_obj a Ha) as [o Ho], (Hc a) with (1 := Ha) (o := o) as [c Hs]; [done|].
  destruct (level_link i a Hi) as (k & Hk & Hl). exists o, c, k. split_and!; try done.
  unfold on_cpuset. by rewrite Ho, Hs.
Qed.

Section Inside.
Context (set : B) (Hcs : has_cpusets).
Notation inside := (on_cpuset (fun c => b_isincluded c set)).

Lemma count_inside_ok fuel i n :
  (length l < fuel + i)%nat -> 0 <= n -> n + Z.of_nat (length (filter (fun a => inside a = true) (drop i l))) < 2 ^ 32 ->
  count_inside topo fuel set n (l !! i) =
    Some (n + Z.of_nat (length (filter (fun a => inside a = true) (drop i l)))).
Proof.
  revert i n. induction fuel as [|fuel IH]; intros i n Hf Hn Hmax; destruct (l !! i) as [a|] eqn:Hi;
    try (apply lookup_lt_Some in Hi; lia);
    try (apply lookup_ge_None in Hi; rewrite drop_ge by done; simpl; f_equal; lia).
  destruct (level_read i a set Hcs Hi) as (o & c & k & Ho & Hc & Hk & Hl & Hin).
  cbn [count_inside]. rewrite Ho. cbn [mbind option_bind]. rewrite Hc. cbn [mbind option_bind].
  rewrite Hk. cbn [mbind option_bind]. rewrite (cl_next _ _ _ _ Hl).
  rewrite (drop_S _ _ _ Hi), filter_cons, Hin in Hmax |- *.
  destruct (b_isincluded c set); simpl in Hmax |- *; [|by rewrite IH by lia].
  rewrite u32_small by lia. rewrite IH by lia. f_equal. lia.
Qed.

Lemma nth_inside_ok fuel i idx n :
  (length l < fuel + i)%nat -> 0 <= n <= idx -> idx < 2 ^ 32 ->
  nth_inside topo fuel set idx n (l !! i) =
    Some (filter (fun a => inside a = true) (drop i l) !! Z.to_nat (idx - n)).
Proof.
  revert i n. induction fuel as [|fuel IH]; intros i n Hf Hn Hmax; destruct (l !! i) as [a|] eqn:Hi;
    try (apply lookup_lt_Some in Hi; lia);
    try (apply lookup_ge_None in Hi; by rewrite drop_ge).
  destruct (level_read i a set Hcs Hi) as (o & c & k & Ho & Hc & Hk & Hl & Hin).
  cbn [nth_inside]. rewrite Ho. cbn [mbind option_bind]. rewrite Hc. cbn [mbind option_bind].
  rewrite Hk. cbn [mbind option_bind]. rewrite (cl_next _ _ _ _ Hl).
  rewrite (drop_S _ _ _ Hi), filter_cons, Hin.
  destruct (b_isincluded c set); simpl; [|by rewrite IH by lia].
  destruct (Z.eqb_spec n idx) as [->|Hne]; [by rewrite Z.sub_diag|].
  rewrite u32_small by lia. rewrite IH by lia.
  replace (Z.to_nat (idx - n)) with (S (Z.to_nat (idx - (n + 1)))) by lia. done.
Qed.

Lemma index_inside_ok fuel i n :
  (i < fuel)%nat -> (i <= length l)%nat ->
  index_inside topo fuel set n (before l i) =
    Some (n + Z.of_nat (length (filter (fun a => inside a = true) (take i l)))).
Proof.
  revert i n. induction fuel as [|fuel IH]; intros i n Hf Hi; [lia|]. destruct i as [|j]; cbn [before].
  { simpl. f_equal. lia. }
  destruct (lookup_lt_is_Some_2 l j) as [a Ha]; [lia|]. rewrite Ha.
  destruct (level_read j a set Hcs Ha) as (o & c & k & Ho & Hc & Hk & Hl & Hin).
  cbn [index_inside]. rewrite Ho. cbn [mbind option_bind]. rewrite Hc. cbn [mbind option_bind].
  rewrite Hk. cbn [mbind option_bind]. rewrite (cl_prev _ _ _ _ Hl). fold (before l j).
  rewrite (take_S_r _ _ _ Ha), filter_app, length_app, filter_cons, Hin.
  rewrite IH by lia. destruct (b_isincluded c set); simpl; f_equal; lia.
Qed.

Lemma passing_split i a t : passing t !! i = Some a ->
  exists j, l !! j = Some a /\ length (filter (fun x => t x = true) (take j l)) = i.
Proof.
  unfold passing. generalize (level_of topo d). intros as'. revert i.
  induction as' as [|x as' IH]; intros i; [done|]. rewrite filter_cons. destruct (decide (t x = true)) as [Hx|Hx].
  - destruct i as [|i]; simpl; [intros [= ->]; by exists 0%nat|].
    intros (j & Hj & Hn)%IH. exists (S j). simpl. rewrite filter_cons, decide_True by done. simpl. auto.
  - intros (j & Hj & Hn)%IH. exists (S j). simpl. by rewrite filter_cons, decide_False by done.
Qed.

End Inside.
End Level.
End TraversalOk.

(** ** The place of an object in the hierarchy *)

(** The links that [hwloc_connect_children] sets. *)
Definition places (k : obj_links) := (parent k, sibling_rank k, prev_sibling k, arity k, children k, last_child k).

Definition keeps_places (st st' : links_store) : Prop := forall a, places (links st' a) = places (links st a).

#[export] Instance keeps_places_preorder : PreOrder keeps_places.
Proof. split; [by intros st a|]. intros st1 st2 st3 H1 H2 a. by rewrite H2, H1. Qed.

Lemma keeps_upd a f st : (forall k, places (f k) = places k) -> keeps_places st (upd a f st).
Proof.
  intros Hf b. destruct (decide (b = a)) as [->|Hne]; [by rewrite links_upd|by rewrite links_upd_ne].
Qed.

Lemma keeps_upd_after a f st st' :
  (forall k, places (f k) = places k) -> keeps_places st st' -> keeps_places st (upd a f st').
Proof. intros Hf Hk. etrans; [done|by apply (keeps_upd a f)]. Qed.

Ltac keeps := repeat first [assumption | apply keeps_upd_after; [done|]]; try reflexivity.

(** A fold of steps each of which keeps a relation. *)
Lemma foldl_related {A X} (R : relation A) `{PreOrder A R} (f : A -> X -> A) (xs : list X) a :
  Forall (fun x => forall a, R a (f a x)) xs -> R a (foldl f a xs).
Proof.
  intros Hf. revert a. induction Hf as [|x xs Hx _ IH]; intros a; [reflexivity|].
  simpl. etrans; [apply Hx|apply IH].
Qed.

Section Loaded.
Context {B : Type} `{CpusetOps B}.

Lemma children_linked_keeps st st' (n : obj_tree B) :
  keeps_places st st' -> children_linked st n -> children_linked st' n.
Proof.
  intros Hk. unfold children_linked.
  assert (Hf : forall a, parent (links st' a) = parent (links st a) /\
    sibling_rank (links st' a) = sibling_rank (links st a) /\ prev_sibling (links st' a) = prev_sibling (links st a) /\
    arity (links st' a) = arity (links st a) /\ Levels.children (links st' a) = Levels.children (links st a) /\
    last_child (links st' a) = last_child (links st a)).
  { intros a. specialize (Hk a). unfold places in Hk. by injection Hk. }
  destruct (Hf (t_addr n)) as (_ & _ & _ & -> & -> & ->). intros (Ha & Hc & Hl & Hi). split_and!; [done..|].
  intros i a Hia. destruct (Hf a) as (-> & -> & -> & _). by apply Hi.
Qed.

Definition io_keeps (s s' : io_state) : Prop := keeps_places (io_links s) (io_links s').

#[local] Instance io_keeps_preorder : PreOrder io_keeps.
Proof. split; [by intros s|]. intros s1 s2 s3. unfold io_keeps. apply transitivity. Qed.

Lemma append_iodev_keeps (o : hwloc_obj B) s : io_keeps s (append_iodev o s).
Proof.
  unfold io_keeps, append_iodev. destruct (io_depth (o_type o)); [|done].
  destruct (io_ends s (o_type o)) as [[first last]|]; simpl; keeps.
Qed.

Lemma append_iodevs_keeps (t : obj_tree B) s : io_keeps s (append_iodevs t s).
Proof.
  revert s. induction t as [o ch IH] using obj_tree_ind'. intros s. cbn [append_iodevs].
  etrans; [apply append_iodev_keeps|]. apply foldl_related; [apply _|].
  apply Forall_map. eapply Forall_impl; [exact IH|]. intros t Ht a. apply Ht.
Qed.

Definition pair_keeps (p p' : list (obj_tree B) * io_state) : Prop := io_keeps p.2 p'.2.

#[local] Instance pair_keeps_preorder : PreOrder pair_keeps.
Proof. split; [by intros s|]. intros s1 s2 s3. unfold pair_keeps. apply transitivity. Qed.

Lemma filter_object_keeps (t : obj_tree B) s : io_keeps s (hwloc_level_filter_object t s).2.
Proof.
  revert s. induction t as [o ch IH] using obj_tree_ind'. intros s. cbn [hwloc_level_filter_object].
  destruct (hwloc_obj_type_is_io (o_type o)); [apply append_iodevs_keeps|].
  destruct (negb (bool_decide (o_type o = HWLOC_OBJ_MISC))); [done|].
  apply (foldl_related pair_keeps _ _ ([], s)). apply Forall_map. eapply Forall_impl; [exact IH|].
  intros t Ht [new s']. specialize (Ht s'). unfold compose. destruct (hwloc_level_filter_object t s') as [objs s''].
  unfold pair_keeps, io_keeps in *. simpl in *. keeps.
Qed.

Lemma filter_objects_keeps (objs : list (obj_tree B)) s r s' :
  hwloc_level_filter_objects objs s = Some (r, s') -> io_keeps s s'.
Proof.
  unfold hwloc_level_filter_objects. destruct (negb (existsb filtered_out objs)); [by intros [= <- <-]|].
  assert (Hf := foldl_related pair_keeps (fun '(new, s) old =>
     let '(objs, s) := hwloc_level_filter_object old s in (new ++ objs, s)) objs ([], s)).
  destruct (foldl _ ([], s) objs) as [new s1]. destruct (_ <=? _)%nat; [|done]. intros [= <- <-].
  apply Hf. apply Forall_forall. intros t _ [new' s2]. pose proof (filter_object_keeps t s2).
  by destruct (hwloc_level_filter_object t s2).
Qed.

Lemma number_level_keeps d i prev (taken : list (obj_tree B)) st :
  keeps_places st (number_level d i prev taken st).
Proof.
  revert i prev st. induction taken as [|t taken IH]; intros i prev st; cbn [number_level].
  - destruct prev; keeps.
  - etrans; [|apply IH]. destruct prev; keeps.
Qed.

Definition ls_keeps (ls ls' : level_state (B := B)) : Prop := io_keeps (ls_io ls) (ls_io ls').

Lemma build_level_keeps objs ls objs' ls' :
  build_level objs ls = Some (objs', ls') -> ls_keeps ls ls'.
Proof.
  unfold build_level. destruct (topmost_object objs) as [top|]; [|done]. cbn [mbind option_bind].
  destruct (hwloc_level_take_objects top objs) as [taken new].
  destruct (nb_levels ls <? HWLOC_DEPTH_MAX); [|done].
  destruct (hwloc_level_filter_objects new _) as [[objs2 s]|] eqn:Hf; [|done]. cbn [mbind option_bind].
  intros [= <- <-]. apply filter_objects_keeps in Hf. unfold ls_keeps. simpl.
  etrans; [|exact Hf]. apply number_level_keeps.
Qed.

Lemma build_levels_keeps fuel objs ls ls' : build_levels fuel objs ls = Some ls' -> ls_keeps ls ls'.
Proof.
  revert objs ls. induction fuel as [|fuel IH]; intros [|t objs] ls; cbn [build_levels];
    [by intros [= <-]|done|by intros [= <-]|].
  destruct (build_level (t :: objs) ls) as [[objs1 ls1]|] eqn:Hb; [|done]. cbn [mbind option_bind].
  intros Hr. apply build_level_keeps in Hb. apply IH in Hr. unfold ls_keeps in *. by etrans.
Qed.

Lemma build_list_keeps fuel first i st l st' :
  hwloc_build_level_from_list fuel first i st = Some (l, st') -> keeps_places st st'.
Proof.
  revert first i st l. induction fuel as [|fuel IH]; intros [a|] i st l; cbn [hwloc_build_level_from_list];
    [done|by intros [= <- <-]| |by intros [= <- <-]].
  destruct (st !! a) as [k|]; [|done]. cbn [mbind option_bind].
  destruct (hwloc_build_level_from_list fuel _ _ _) as [[l' st1]|] eqn:Hb; [|done]. cbn [mbind option_bind].
  intros [= <- <-]. apply IH in Hb. etrans; [|exact Hb]. keeps.
Qed.

Lemma propagate_keeps (t : obj_tree B) st st' :
  hwloc_propagate_symmetric_subtree t st = Some st' -> keeps_places st st'.
Proof.
  revert st st'. induction t as [o ch IH] using obj_tree_ind'. intros st st'.
  cbn [hwloc_propagate_symmetric_subtree]. destruct ch as [|c cs].
  { intros [= <-]. keeps. }
  assert (Hfold : forall fs r r', Forall (fun f => forall st st', f st = Some st' -> keeps_places st st') fs ->
    foldl (fun r (f : links_store -> option links_store) => let! st := r in f st) (Some r) fs = Some r' ->
    keeps_places r r').
  { intros fs. induction fs as [|f fs IHf]; intros r r' Hfs; cbn [foldl mbind option_bind]; [by intros [= <-]|].
    apply Forall_cons in Hfs as [Hf Hfs]. destruct (f r) as [r1|] eqn:Hr.
    - intros Hr'. etrans; [by apply Hf|by apply IHf].
    - clear. induction fs; [done|exact IHfs]. }
  destruct (foldl _ _ _) as [st1|] eqn:Hf; [|done]. cbn [mbind option_bind].
  apply Hfold in Hf; [|apply Forall_map; eapply Forall_impl; [exact IH|]; intros t Ht; exact Ht].
  assert (Hk : keeps_places st st1) by (etrans; [|exact Hf]; keeps).
  destruct (existsb _ _); [by intros [= <-]|].
  destruct (same_shape st1 c cs) as [b|]; [|done]. cbn [mbind option_bind]. intros [= <-].
  destruct b; keeps.
Qed.

Lemma connect_levels_keeps (root : obj_tree B) st tl :
  hwloc_connect_levels root st = Some tl -> keeps_places st (io_links (ls_io (tl_levels tl))).
Proof.
  unfold hwloc_connect_levels.
  destruct (hwloc_level_filter_objects _ _) as [[objs s]|] eqn:Hf; [|done]. cbn [mbind option_bind].
  destruct (build_levels _ _ _) as [ls|] eqn:Hb; [|done]. cbn [mbind option_bind].
  destruct (hwloc_build_level_from_list _ _ _ _) as [[l1 st1]|] eqn:H1; [|done]. cbn [mbind option_bind].
  destruct (hwloc_build_level_from_list _ (fst <$> io_ends (ls_io ls) HWLOC_OBJ_PCI_DEVICE) _ _) as [[l2 st2]|] eqn:H2; [|done]. cbn [mbind option_bind].
  destruct (hwloc_build_level_from_list _ (fst <$> io_ends (ls_io ls) HWLOC_OBJ_OS_DEVICE) _ _) as [[l3 st3]|] eqn:H3; [|done]. cbn [mbind option_bind].
  destruct (hwloc_propagate_symmetric_subtree root st3) as [st4|] eqn:H4; [|done]. cbn [mbind option_bind].
  intros [= <-]. simpl.
  apply filter_objects_keeps in Hf. apply build_levels_keeps in Hb.
  apply build_list_keeps in H1, H2, H3. apply propagate_keeps in H4.
  unfold ls_keeps, io_keeps in *. simpl in *. do 4 (etrans; [eassumption|]). by etrans.
Qed.

(** ** The topology *)

(** The objects of a topology form the hierarchy [root]. *)
Record hierarchy (topo : topology B) (root : obj_tree B) : Prop := {
  h_live : forall o, o ∈ tree_objs root -> obj_at topo (o_addr o) = Some o;
  h_dom : forall a, is_Some (obj_at topo a) -> a ∈ map o_addr (tree_objs root);
  h_links : forall n, n ∈ tree_nodes root -> children_linked (tlinks topo) n;
  h_root : hwloc_get_root_obj topo = Some (Some (t_addr root));
  h_parent : parent (links (tlinks topo) (t_addr root)) = None;
}.

Context (root : obj_tree B) (tl : topology_levels (B := B)).
Context (Hdistinct : distinct (tree_objs root)) (Hcon : connected root tl).
Notation topo := (topology_of root tl).

Lemma topology_obj o : o ∈ tree_objs root -> obj_at topo (o_addr o) = Some o.
Proof.
  intros Ho. unfold obj_at. cbn [objects topology_of]. apply elem_of_list_to_map.
  - change (NoDup (map fst (map (fun o : hwloc_obj B => (o_addr o, o)) (tree_objs root)))).
    rewrite List.map_map. exact Hdistinct.
  - apply list_elem_of_fmap. by exists o.
Qed.

Lemma topology_dom a : is_Some (obj_at topo a) -> a ∈ map o_addr (tree_objs root).
Proof.
  intros [o Ho]. unfold obj_at in Ho. cbn [objects topology_of] in Ho.
  apply elem_of_list_to_map_2 in Ho. apply list_elem_of_fmap in Ho as (p & [= -> ->] & Hp).
  by apply list_elem_of_fmap_2.
Qed.

(** A level is one of the array or an I/O level. *)
Lemma level_cases d : 0 <= d ->
  (exists lv, Levels.levels (tl_levels tl) !! Z.to_nat d = Some lv /\ level_of topo d = map t_addr lv) \/
  (exists ty d', io_depth ty = Some d' /\ d = u32 d' /\ level_of topo d = io_level tl ty) \/
  level_of topo d = [].
Proof.
  intros Hd. unfold level_of, tnb_levels. cbn [tlevels topology_of].
  destruct (Z.leb_spec (Z.of_nat (length (map (map t_addr) (Levels.levels (tl_levels tl))))) d) as [_|Hlt].
  - right. unfold special_level. cbn [tbridge_level tpcidev_level tosdev_level topology_of].
    destruct (Z.eqb_spec d (u32 HWLOC_TYPE_DEPTH_BRIDGE)) as [->|];
      [left; by exists HWLOC_OBJ_BRIDGE, HWLOC_TYPE_DEPTH_BRIDGE|].
    destruct (Z.eqb_spec d (u32 HWLOC_TYPE_DEPTH_PCI_DEVICE)) as [->|];
      [left; by exists HWLOC_OBJ_PCI_DEVICE, HWLOC_TYPE_DEPTH_PCI_DEVICE|].
    destruct (Z.eqb_spec d (u32 HWLOC_TYPE_DEPTH_OS_DEVICE)) as [->|];
      [left; by exists HWLOC_OBJ_OS_DEVICE, HWLOC_TYPE_DEPTH_OS_DEVICE|by right].
  - left. rewrite List.length_map in Hlt.
    destruct (lookup_lt_is_Some_2 (Levels.levels (tl_levels tl)) (Z.to_nat d)) as [lv Hlv]; [lia|].
    exists lv. split; [done|]. unfold level_at. cbn [tlevels topology_of].
    change (map (map t_addr) (Levels.levels (tl_levels tl))) with (map t_addr <$> Levels.levels (tl_levels tl)).
    by rewrite list_lookup_fmap, Hlv.
Qed.

Lemma array_level lv : lv ∈ Levels.levels (tl_levels tl) ->
  NoDup (map t_addr lv) /\ forall t, t ∈ lv -> t_obj t ∈ tree_objs root.
Proof.
  intros Hlv. assert (Hs := part_order _ _ _ (con_levels _ _ Hcon)). rewrite Forall_forall in Hs.
  split; [by apply (level_addrs root Hdistinct), Hs|]. intros t Ht. apply (level_nodes_in root Hdistinct root).
  eapply elem_of_sublist; [exact Ht|by apply Hs].
Qed.

Lemma io_level_objs ty d : io_depth ty = Some d ->
  NoDup (io_level tl ty) /\ forall a, a ∈ io_level tl ty -> exists o, a = o_addr o /\ o ∈ tree_objs root.
Proof.
  intros Hd. destruct (con_io _ _ Hcon ty d Hd) as [Hp _]. split.
  - rewrite Hp. by apply addrs_of_distinct.
  - intros a Ha. rewrite Hp in Ha. apply addrs_of_in in Ha as (o & -> & Ho & _). by exists o.
Qed.

Lemma connected_links d i a : 0 <= d -> level_of topo d !! i = Some a ->
  cousin_links (links (tlinks topo) a) d (level_of topo d) i.
Proof.
  intros Hd. destruct (level_cases d Hd) as [(lv & Hlv & ->)|[(ty & d' & Hty & -> & ->)| ->]]; [| |done].
  - change (map t_addr lv) with (t_addr <$> lv). rewrite list_lookup_fmap.
    destruct (lv !! i) as [t|] eqn:Hi; [|done]. intros [= <-].
    destruct (con_links _ _ Hcon _ _ Hlv i t Hi) as (H1 & H2 & H3 & H4).
    constructor; cbn [tlinks topology_of].
    + rewrite H1. lia.
    + done.
    + by rewrite H3, list_lookup_fmap.
    + rewrite H4. destruct i as [|i]; [done|].
      by rewrite list_lookup_fmap, Nat.sub_1_r.
  - intros Hi. destruct (con_io _ _ Hcon ty d' Hty) as (_ & Hc & Hn).
    destruct (Hc i a Hi) as (_ & H1 & H2), (Hn i a Hi) as [H3 H4]. constructor; try done.
    cbn [tlinks topology_of]. rewrite H2. destruct i as [|i]; [done|]. by rewrite Nat.sub_1_r.
Qed.

Lemma connected_consultable : consultable topo.
Proof.
  constructor.
  - intros d a Hd. destruct (level_cases d (proj1 Hd)) as [(lv & Hlv & ->)|[(ty & d' & Hty & -> & ->)| ->]].
    + intros (t & -> & Ht)%list_elem_of_fmap. exists (t_obj t). apply topology_obj.
      apply (array_level lv); [by eapply list_elem_of_lookup_2|done].
    + intros Ha. destruct (io_level_objs ty d' Hty) as [_ Hl]. destruct (Hl a Ha) as (o & -> & Ho).
      exists o. by apply topology_obj.
    + by intros ?%not_elem_of_nil.
  - intros d i a Hd. apply connected_links, Hd.
  - intros d Hd. destruct (level_cases d (proj1 Hd)) as [(lv & Hlv & ->)|[(ty & d' & Hty & -> & ->)| ->]].
    + apply array_level. by eapply list_elem_of_lookup_2.
    + exact (proj1 (io_level_objs ty d' Hty)).
    + constructor.
  - intros l (lv & -> & Hlv)%list_elem_of_fmap Hnil. apply map_eq_nil in Hnil as ->.
    assert (Hh := part_homogeneous _ _ _ (con_levels _ _ Hcon)). rewrite Forall_forall in Hh.
    by destruct (Hh [] Hlv).
  - intros d l o p a b Hl Ha Hb Ho Hp. cbn [tlevels topology_of] in Hl.
    change (map (map t_addr) (Levels.levels (tl_levels tl))) with (map t_addr <$> Levels.levels (tl_levels tl)) in Hl.
    rewrite list_lookup_fmap in Hl. destruct (Levels.levels (tl_levels tl) !! d) as [lv|] eqn:Hlv; [|done].
    injection Hl as <-.
    apply list_elem_of_lookup_2 in Hlv.
    apply list_elem_of_fmap in Ha as (t & -> & Ht), Hb as (u & -> & Hu).
    destruct (array_level lv Hlv) as [_ Hin]. unfold t_addr in *.
    rewrite topology_obj in Ho, Hp by auto. injection Ho as <-. injection Hp as <-.
    assert (Hh := part_homogeneous _ _ _ (con_levels _ _ Hcon)). rewrite Forall_forall in Hh.
    destruct (Hh lv Hlv) as [_ Hk]. specialize (Hk t u Ht Hu). unfold level_kind in Hk. by injection Hk.
Qed.

Lemma connected_root : hwloc_get_root_obj topo = Some (Some (t_addr root)).
Proof.
  unfold hwloc_get_root_obj. rewrite obj_by_depth by done. unfold level_of, tnb_levels.
  cbn [tlevels topology_of]. assert (Hr := con_root _ _ Hcon).
  unfold level_at. cbn [tlevels topology_of]. destruct (Levels.levels (tl_levels tl)) as [|l lv]; [done|].
  injection Hr as ->. done.
Qed.

End Loaded.

(** The links of a hierarchy whose objects have just been allocated. *)
Lemma fresh_links a : links ∅ a = null_links.
Proof. done. Qed.

Lemma load_ok {B} `{CpusetOps B} (root : obj_tree B) tl :
  placed root -> distinct (tree_objs root) ->
  hwloc_connect_levels root (hwloc_connect_children root ∅) = Some tl ->
  connected root tl /\ consultable (topology_of root tl) /\ hierarchy (topology_of root tl) root.
Proof.
  intros Hr Hd Htl. set (st := hwloc_connect_children root ∅) in *.
  destruct (connect_tree root ∅ Hd) as (_ & Hsame & Hplace & Hch). fold st in Hsame, Hplace, Hch.
  pose proof (connect_levels_ok root st Hr Hd) as Hok. rewrite Htl in Hok.
  assert (Hcon : connected root tl).
  { apply Hok.
    - intros o _ _. destruct (Hsame (o_addr o)) as (_ & _ & -> & -> & _). done.
    - intros i t Hi. apply list_lookup_singleton_Some in Hi as [-> <-].
      destruct (Hsame (t_addr root)) as (H1 & H2 & H3 & H4 & _). cbv zeta. by rewrite H1, H2, H3, H4. }
  assert (Hk := connect_levels_keeps root st tl Htl).
  split_and!; [done|by apply connected_consultable|]. constructor.
  - by apply topology_obj.
  - apply topology_dom.
  - intros n Hn. eapply children_linked_keeps; [exact Hk|by apply Hch].
  - by apply connected_root.
  - specialize (Hk (t_addr root)). unfold places in Hk. injection Hk as Hp _.
    cbn [tlinks topology_of]. rewrite Hp. destruct (Hplace root) as (-> & _); [by left|done].
Qed.
