(* ===== verification/Helper.v ===== *)
(** * Helper: walking the tree of a loaded topology

    The functions of [helper.h] and [traversal.c] that go up and down the
    hierarchy: ancestors, objects covering or inside a cpuset, closest objects,
    distribution.  [first_child] and [next_sibling] are read through the array of
    children, which holds the same objects in the same order. *)

From stdpp Require Import gmap functions.
From S2P Require Import Prelude Cpuset Obj Levels Traversal.

Section Helper.
Context {B : Type} `{CpusetOps B} (topo : topology B).

Notation obj_at := (obj_at topo).
Notation links_at := (links_at topo).
Notation walk_fuel := (walk_fuel topo).

(** ** Depths of missing types *)

Fixpoint below_depth (fuel : nat) (type : hwloc_obj_type_t) (depth : Z) : option Z :=
  match fuel with
  | O => None
  | S fuel =>
      let! t := hwloc_get_depth_type topo (u32 depth) in
      let! t := t in
      if hwloc_compare_types t type <? 0 then Some (depth + 1) else below_depth fuel type (depth - 1)
  end.

(** Comparing [(hwloc_obj_type_t) -1] reads past the order table: [None]. *)
Definition hwloc_get_type_or_below_depth (type : hwloc_obj_type_t) : option Z :=
  let depth := hwloc_get_type_depth topo type in
  if negb (depth =? HWLOC_TYPE_DEPTH_UNKNOWN) then Some depth
  else below_depth (S (length (tlevels topo))) type (hwloc_get_type_depth topo HWLOC_OBJ_PU).

Fixpoint above_depth (fuel : nat) (type : hwloc_obj_type_t) (depth : Z) : option Z :=
  match fuel with
  | O => None
  | S fuel =>
      let! t := hwloc_get_depth_type topo (u32 depth) in
      let! t := t in
      if 0 <? hwloc_compare_types t type then Some (depth - 1) else above_depth fuel type (depth + 1)
  end.

Definition hwloc_get_type_or_above_depth (type : hwloc_obj_type_t) : option Z :=
  let depth := hwloc_get_type_depth topo type in
  if negb (depth =? HWLOC_TYPE_DEPTH_UNKNOWN) then Some depth
  else above_depth (S (length (tlevels topo))) type 0.

(** ** Ancestors *)

(** [while (p && test(p)) p = p->parent] *)
Fixpoint climb (fuel : nat) (test : hwloc_obj B -> obj_links -> option bool) (p : option Z) : option (option Z) :=
  match p with
  | None => Some None
  | Some a =>
      match fuel with
      | O => None
      | S fuel =>
          let! o := obj_at a in
          let! k := links_at a in
          let! b := test o k in
          if b : bool then climb fuel test (parent k) else Some (Some a)
      end
  end.

Definition hwloc_get_ancestor_obj_by_depth (depth' : Z) (obj : Z) : option (option Z) :=
  let! k := links_at obj in
  if depth k <? depth' then Some None
  else climb walk_fuel (fun _ k => Some (depth' <? depth k)) (Some obj).

Definition hwloc_get_ancestor_obj_by_type (type : hwloc_obj_type_t) (obj : Z) : option (option Z) :=
  let! k := links_at obj in
  climb walk_fuel (fun o _ => Some (negb (bool_decide (o_type o = type)))) (parent k).

(** [while (p->depth > depth) p = p->parent]; a NULL parent is dereferenced. *)
Fixpoint climb_to (fuel : nat) (depth' : Z) (p : Z) : option Z :=
  match fuel with
  | O => None
  | S fuel =>
      let! k := links_at p in
      if depth' <? depth k then let! q := parent k in climb_to fuel depth' q else Some p
  end.

Definition depth_at (p : Z) : option Z := let! k := links_at p in Some (depth k).

Fixpoint common_ancestor (fuel : nat) (obj1 obj2 : Z) : option Z :=
  if obj1 =? obj2 then Some obj1 else
  match fuel with
  | O => None
  | S fuel =>
      let! d2 := depth_at obj2 in
      let! obj1 := climb_to walk_fuel d2 obj1 in
      let! d1 := depth_at obj1 in
      let! obj2 := climb_to walk_fuel d1 obj2 in
      let! d2 := depth_at obj2 in
      if negb (obj1 =? obj2) && (d1 =? d2) then
        let! k1 := links_at obj1 in
        let! k2 := links_at obj2 in
        let! obj1 := parent k1 in
        let! obj2 := parent k2 in
        common_ancestor fuel obj1 obj2
      else common_ancestor fuel obj1 obj2
  end.

Definition hwloc_get_common_ancestor_obj (obj1 obj2 : Z) : option Z :=
  common_ancestor walk_fuel obj1 obj2.

Definition hwloc_obj_is_in_subtree (obj subtree_root : Z) : option bool :=
  let! o := obj_at obj in
  let! r := obj_at subtree_root in
  let! c := ocpuset o in
  let! d := ocpuset r in
  Some (b_isincluded c d).

(** ** Children *)

Definition next_sibling (p : Z) : option (option Z) :=
  let! k := links_at p in
  match parent k with
  | None => Some None
  | Some q => let! kq := links_at q in Some (children kq !! S (Z.to_nat (sibling_rank k)))
  end.

Definition hwloc_get_next_child (parent' : Z) (prev : option Z) : option (option Z) :=
  match prev with
  | None => let! k := links_at parent' in Some (head (children k))
  | Some p =>
      let! k := links_at p in
      if negb (bool_decide (parent k = Some parent')) then Some None else next_sibling p
  end.

(** The first of the objects that passes a test. *)
Fixpoint find_child (test : hwloc_obj B -> bool) (cs : list Z) : option (option Z) :=
  match cs with
  | [] => Some None
  | c :: cs => let! o := obj_at c in if test o then Some (Some c) else find_child test cs
  end.

Definition child_meets (set : B) (o : hwloc_obj B) : bool :=
  match ocpuset o with Some c => b_intersects c set | None => false end.
Definition child_covers (set : B) (o : hwloc_obj B) : bool :=
  match ocpuset o with Some c => b_isincluded set c | None => false end.

(** ** Objects inside and covering a cpuset *)

Fixpoint first_largest (fuel : nat) (set : B) (p : Z) : option Z :=
  match fuel with
  | O => None
  | S fuel =>
      let! o := obj_at p in
      let! c := ocpuset o in
      if b_isincluded c set then Some p else
      let! k := links_at p in
      let! child := find_child (child_meets set) (children k) in
      match child with
      | None => Some p
      | Some c => first_largest fuel set c
      end
  end.

Definition hwloc_get_first_largest_obj_inside_cpuset (set : B) : option (option Z) :=
  let! r := hwloc_get_root_obj topo in
  let! r := r in
  let! o := obj_at r in
  match ocpuset o with
  | Some c => if b_intersects c set then let! p := first_largest walk_fuel set r in Some (Some p)
              else Some None
  | None => Some None
  end.

Definition hwloc_get_child_covering_cpuset (set : B) (p : Z) : option (option Z) :=
  let! o := obj_at p in
  match ocpuset o with
  | Some _ =>
      if b_iszero set then Some None else
      let! k := links_at p in find_child (child_covers set) (children k)
  | None => Some None
  end.

Fixpoint descend_covering (fuel : nat) (set : B) (p : Z) : option Z :=
  match fuel with
  | O => None
  | S fuel =>
      let! child := hwloc_get_child_covering_cpuset set p in
      match child with
      | None => Some p
      | Some c => descend_covering fuel set c
      end
  end.

Definition hwloc_get_obj_covering_cpuset (set : B) : option (option Z) :=
  let! r := hwloc_get_root_obj topo in
  let! r := r in
  let! o := obj_at r in
  if b_iszero set then Some None else
  match ocpuset o with
  | Some c => if b_isincluded set c then let! p := descend_covering walk_fuel set r in Some (Some p)
              else Some None
  | None => Some None
  end.

Definition is_cache (o : hwloc_obj B) : bool := bool_decide (o_type o = HWLOC_OBJ_CACHE).

Definition hwloc_get_cache_covering_cpuset (set : B) : option (option Z) :=
  let! p := hwloc_get_obj_covering_cpuset set in
  climb walk_fuel (fun o _ => Some (negb (is_cache o))) p.

(** The loop of [hwloc_get_shared_cache_covering_obj]. *)
Fixpoint shared_cache (fuel : nat) (set : B) (p : option Z) : option (option Z) :=
  match p with
  | None => Some None
  | Some a =>
      match fuel with
      | O => None
      | S fuel =>
          let! o := obj_at a in
          match ocpuset o with
          | None => Some None
          | Some c =>
              if negb (b_isequal c set) && is_cache o then Some (Some a) else
              let! k := links_at a in shared_cache fuel set (parent k)
          end
      end
  end.

Definition hwloc_get_shared_cache_covering_obj (obj : Z) : option (option Z) :=
  let! o := obj_at obj in
  let! k := links_at obj in
  match ocpuset o with
  | None => Some None
  | Some c => shared_cache walk_fuel c (parent k)
  end.

(** ** Largest objects inside a cpuset ([traversal.c]) *)

(** The loop on the children, with [inside child subset max] the recursive call:
    the objects stored and the room left. *)
Fixpoint largest_in_children (inside : Z -> B -> Z -> option (list Z * Z)) (set : B) (cs : list Z) (max : Z)
  : option (list Z * Z) :=
  match cs with
  | [] => Some ([], max)
  | child :: cs =>
      let! co := obj_at child in
      let subset := match ocpuset co with Some cc => b_and set cc | None => set end in
      if (match ocpuset co with Some _ => b_iszero subset | None => false end)
      then largest_in_children inside set cs max
      else
        let! (res, max) := inside child subset max in
        if max =? 0 then Some (res, max) else
        let! (res', max) := largest_in_children inside set cs max in
        Some (res ++ res', max)
  end.

(** [hwloc__get_largest_objs_inside_cpuset]: a child without cpuset gets the
    whole set, and [hwloc_bitmap_isequal] then dereferences its NULL cpuset. *)
Fixpoint largest_objs_inside (fuel : nat) (current : Z) (set : B) (max : Z) : option (list Z * Z) :=
  match fuel with
  | O => None
  | S fuel =>
      if max <=? 0 then Some ([], max) else
      let! o := obj_at current in
      let! c := ocpuset o in
      if b_isequal c set then Some ([current], max - 1) else
      let! k := links_at current in
      largest_in_children (largest_objs_inside fuel) set (children k) max
  end.

(** The array filled, or [-1]. *)
Definition hwloc_get_largest_objs_inside_cpuset (set : B) (max : Z) : option (option (list Z)) :=
  let! r := hwloc_get_root_obj topo in
  let! r := r in
  let! o := obj_at r in
  match ocpuset o with
  | None => Some None
  | Some c =>
      if negb (b_isincluded set c) then Some None
      else if max <=? 0 then Some (Some [])
      else let! (res, _) := largest_objs_inside walk_fuel r set max in Some (Some res)
  end.

(** ** Closest objects ([traversal.c]) *)

(** The inner loop: the first ancestor whose cpuset differs, as ([parent], [nextparent]). *)
Fixpoint next_larger (fuel : nat) (p : Z) : option (option (Z * Z)) :=
  match fuel with
  | O => None
  | S fuel =>
      let! k := links_at p in
      match parent k with
      | None => Some None
      | Some q =>
          let! op := obj_at p in
          let! oq := obj_at q in
          match ocpuset oq with
          | None => Some (Some (p, q))
          | Some cq =>
              let! cp := ocpuset op in
              if negb (b_isequal cp cq) then Some (Some (p, q)) else next_larger fuel q
          end
      end
  end.

(** The objects of the level that are in [outer] and not in [inner], at most [max]. *)
Fixpoint between (outer inner : B) (max : nat) (level : list Z) : option (list Z) :=
  match level, max with
  | [], _ | _, O => Some []
  | a :: level, S max' =>
      let! o := obj_at a in
      let! c := ocpuset o in
      if b_isincluded c outer && negb (b_isincluded c inner) then
        let! rest := between outer inner max' level in Some (a :: rest)
      else between outer inner max level
  end.

Fixpoint closest_loop (fuel : nat) (level : list Z) (p : Z) (max : nat) : option (list Z) :=
  match max, fuel with
  | O, _ => Some []
  | _, O => None
  | _, S fuel =>
      let! next := next_larger walk_fuel p in
      match next with
      | None => Some []
      | Some (p, q) =>
          let! op := obj_at p in
          let! oq := obj_at q in
          match ocpuset oq with
          | None => Some []
          | Some outer =>
              let! inner := ocpuset op in
              let! found := between outer inner max level in
              let! rest := closest_loop fuel level q (max - length found) in
              Some (found ++ rest)
          end
      end
  end.

(** [level_nbobjects] and [levels] are read at the depth of [src], in the array. *)
Definition hwloc_get_closest_objs (src : Z) (max : Z) : option (list Z) :=
  let! o := obj_at src in
  match ocpuset o with
  | None => Some []
  | Some _ =>
      let! k := links_at src in
      let! level := level_at topo (depth k) in
      closest_loop walk_fuel level src (Z.to_nat max)
  end.

(** ** Objects below others *)

Definition hwloc_get_obj_below_by_type (type1 : hwloc_obj_type_t) (idx1 : Z) (type2 : hwloc_obj_type_t) (idx2 : Z)
  : option (option Z) :=
  let! p := hwloc_get_obj_by_type topo type1 idx1 in
  match p with
  | None => Some None
  | Some a =>
      let! o := obj_at a in
      match ocpuset o with
      | None => Some None
      | Some c => hwloc_get_obj_inside_cpuset_by_type topo c type2 idx2
      end
  end.

Fixpoint below_array (path : list (hwloc_obj_type_t * Z)) (p : option Z) : option (option Z) :=
  match path with
  | [] => Some p
  | (type, idx) :: path =>
      match p with
      | None => Some None
      | Some a =>
          let! o := obj_at a in
          match ocpuset o with
          | None => Some None
          | Some c =>
              let! p := hwloc_get_obj_inside_cpuset_by_type topo c type idx in
              below_array path p
          end
      end
  end.

Definition hwloc_get_obj_below_array_by_type (path : list (hwloc_obj_type_t * Z)) : option (option Z) :=
  let! r := hwloc_get_root_obj topo in below_array path r.

(** ** Distribution *)

(** [weight] of a root: 0 without cpuset; [unsigned], so infinite sets weigh 2^32 - 1. *)
Definition root_weight (a : Z) : option Z :=
  let! o := obj_at a in
  Some (match ocpuset o with Some c => u32 (b_weight c) | None => 0 end).

(** The loop of [hwloc_distributev] with [give root chunk] the recursive call:
    the cpusets written, in order. *)
Fixpoint distribute_loop (give : Z -> Z -> option (list B)) (roots : list Z) (n tot_weight : Z)
  : option (list B) :=
  match roots with
  | [] => Some []
  | a :: roots =>
      if tot_weight =? 0 then Some [] else
      let! weight := root_weight a in
      let chunk := u32 (u32 (n * weight) + tot_weight - 1) / tot_weight in
      let! l := give a chunk in
      let! rest := distribute_loop give roots (u32 (n - chunk)) (u32 (tot_weight - weight)) in
      Some (l ++ rest)
  end.

Fixpoint total_weight (roots : list Z) (acc : Z) : option Z :=
  match roots with
  | [] => Some acc
  | a :: roots => let! w := root_weight a in total_weight roots (u32 (acc + w))
  end.

Fixpoint hwloc_distribute (fuel : nat) (root : Z) (n until : Z) : option (list B) :=
  match fuel with
  | O => None
  | S fuel =>
      let! k := links_at root in
      let! o := obj_at root in
      if (arity k =? 0) || (n =? 1) || (until <=? depth k) then
        if n =? 0 then Some [] else
        let! c := ocpuset o in Some (replicate (Z.to_nat n) c)
      else
        let! tot := total_weight (children k) 0 in
        distribute_loop (fun a chunk => hwloc_distribute fuel a chunk until) (children k) n tot
  end.

Definition hwloc_distributev (fuel : nat) (roots : list Z) (n until : Z) : option (list B) :=
  let! tot := total_weight roots 0 in
  distribute_loop (fun a chunk => hwloc_distribute fuel a chunk until) roots n tot.

End Helper.
