(* ===== verification/HelperOk.v ===== *)
(** * HelperOk: walking down a loaded hierarchy

    The children read through the links are those of the tree; what the
    descents of Helper.v find in a hierarchy with nested cpusets; how
    [hwloc_distribute] splits its slots: weights of disjoint cpusets add up, so the
    chunks given to the children of an object add up to the number of slots. *)

From stdpp Require Import gmap functions.
From S2P Require Import Prelude Cpuset Obj ObjCmp Insert CleanOk Levels LevelsOk Connected Traversal Loaded Helper.

Section HelperOk.
Context {B : Type} `{Cpuset B}.
Implicit Types t n c : obj_tree B.

(** ** Nested cpusets *)

(** No object of the subtree has a cpuset. *)
Definition cpuless t : Prop := Forall (fun o => ocpuset o = None) (tree_objs t).

(** Below an object the cpusets are finite, included in its own and disjoint
    from those of the siblings. *)
Inductive cpus_nested : obj_tree B -> Prop :=
  | cpus_nested_node o ch :
      Forall (fun c => cpuless c \/ (exists s, ocpuset (t_obj c) = Some s /\ bfin s = true /\
        bsub s (cs o) /\ cpus_nested c)) ch ->
      ForallOrdPairs (fun c d => bdisj (cs (t_obj c)) (cs (t_obj d))) ch ->
      cpus_nested (Node o ch).

Lemma cpus_nested_inv o ch : cpus_nested (Node o ch) ->
  Forall (fun c => cpuless c \/ (exists s, ocpuset (t_obj c) = Some s /\ bfin s = true /\
    bsub s (cs o) /\ cpus_nested c)) ch /\
  ForallOrdPairs (fun c d => bdisj (cs (t_obj c)) (cs (t_obj d))) ch.
Proof. by inversion 1. Qed.

Lemma setless_cs (o : hwloc_obj B) : ocpuset o = None -> bempty (cs o).
Proof. unfold cs. intros ->. apply bm_alloc. Qed.

Lemma bdisj_empty_r (a b : B) : bempty b -> bdisj a b.
Proof. intros He i Hi _ Hb. by rewrite He in Hb. Qed.

(** The hierarchies that the insertions build have nested cpusets. *)
Lemma tree_wf_nested t : tree_wf t -> cpus_nested t.
Proof.
  induction t as [o ch IH] using obj_tree_ind'. intros [Hch Hs]%tree_wf_inv. constructor.
  - rewrite Forall_forall in IH, Hch |- *. intros c Hc. destruct (Hch c Hc) as [Hl|(Hok & [Hsub _] & Hwf)].
    + left. eapply Forall_impl; [exact Hl|]. by intros p [? _].
    + right. destruct (ok_cs _ Hok) as (Heq & Hf & _). exists (cs (t_obj c)). auto.
  - clear IH Hch. induction Hs as [|c ch _ IH Hc]; constructor; [|done].
    eapply Forall_impl; [exact Hc|]. intros d [[Hd _]|(_ & Hd & _)]; [|done].
    by apply bdisj_empty_r, setless_cs.
Qed.

Lemma cpuless_head t : cpuless t -> ocpuset (t_obj t) = None.
Proof. destruct t. by inversion 1. Qed.

Lemma cpuless_node t n : cpuless t -> n ∈ tree_nodes t -> ocpuset (t_obj n) = None.
Proof.
  intros Hl Hn. unfold cpuless in Hl. rewrite Forall_forall in Hl. apply Hl.
  eapply elem_of_sublist; [|by apply node_objs]. destruct n. by left.
Qed.

Lemma nested_child o ch c : cpus_nested (Node o ch) -> c ∈ ch ->
  cpuless c \/ (exists s, ocpuset (t_obj c) = Some s /\ bfin s = true /\ bsub s (cs o) /\ cpus_nested c).
Proof. intros [Hc _]%cpus_nested_inv Hin. rewrite Forall_forall in Hc. auto. Qed.

(** A node with a cpuset lies in the one of the root. *)
Lemma nested_node_sub t n s : cpus_nested t -> n ∈ tree_nodes t -> ocpuset (t_obj n) = Some s ->
  bsub s (cs (t_obj t)).
Proof.
  induction t as [o ch IH] using obj_tree_ind'. intros Hw Hn Hs. rewrite tree_nodes_node in Hn.
  apply elem_of_cons in Hn as [->|Hn]; [by unfold cs; rewrite Hs|].
  apply list_elem_of_In, in_concat in Hn as (l & (c & <- & Hc)%in_map_iff & Hn).
  apply list_elem_of_In in Hc, Hn. rewrite Forall_forall in IH.
  destruct (nested_child _ _ _ Hw Hc) as [Hl|(s' & Hs' & _ & Hsub & Hwc)].
  - by rewrite (cpuless_node _ _ Hl Hn) in Hs.
  - etrans; [by apply (IH c)|]. unfold cs at 1. by rewrite Hs'.
Qed.

(** Two siblings have disjoint cpusets. *)
Lemma nested_siblings o ch c d : cpus_nested (Node o ch) -> c ∈ ch -> d ∈ ch ->
  c = d \/ bdisj (cs (t_obj c)) (cs (t_obj d)).
Proof.
  intros [_ Hp]%cpus_nested_inv Hc Hd. apply list_elem_of_In in Hc, Hd.
  destruct (ForallOrdPairs_In Hp c d Hc Hd) as [|[|]]; auto. right. by apply bdisj_sym.
Qed.

(** ** Reading the tree through the links *)

Context (topo : topology B) (root : obj_tree B).
Context (Hh : hierarchy topo root) (Hdist : distinct (tree_objs root)).

Lemma node_obj_in n : n ∈ tree_nodes root -> t_obj n ∈ tree_objs root.
Proof. intros Hn. eapply elem_of_sublist; [|by apply node_objs]. destruct n. by left. Qed.

Lemma node_obj_at n : n ∈ tree_nodes root -> obj_at topo (t_addr n) = Some (t_obj n).
Proof. intros Hn. by apply (h_live _ _ Hh), node_obj_in. Qed.

Lemma node_links n : n ∈ tree_nodes root ->
  exists k, links_at topo (t_addr n) = Some k /\ children k = map t_addr (t_children n) /\
    arity k = Z.of_nat (length (t_children n)).
Proof.
  intros Hn. destruct (h_links _ _ Hh n Hn) as (Ha & Hc & _).
  exists (links (tlinks topo) (t_addr n)). split_and!; [|done|by rewrite Ha, List.length_map].
  unfold links_at. rewrite bool_decide_true; [done|]. exists (t_obj n). by apply node_obj_at.
Qed.

Lemma children_nodes n c : n ∈ tree_nodes root -> c ∈ t_children n -> c ∈ tree_nodes root.
Proof.
  assert (Htr : forall t, n ∈ tree_nodes t -> c ∈ t_children n -> c ∈ tree_nodes t).
  { intros t. induction t as [o ch IH] using obj_tree_ind'. rewrite tree_nodes_node.
    intros [->|Hn]%elem_of_cons Hc; right.
    - apply list_elem_of_In, in_concat. exists (tree_nodes c). split.
      + by apply in_map, list_elem_of_In.
      + apply list_elem_of_In, root_node.
    - apply list_elem_of_In, in_concat in Hn as (l & (d & <- & Hd)%in_map_iff & Hn).
      apply list_elem_of_In in Hn, Hd. rewrite Forall_forall in IH.
      apply list_elem_of_In, in_concat. exists (tree_nodes d). split; [by apply in_map, list_elem_of_In|].
      apply list_elem_of_In. by apply IH. }
  apply Htr.
Qed.

Lemma tree_fuel : (tree_size root < walk_fuel topo)%nat.
Proof.
  unfold walk_fuel. rewrite <- objs_size, <- (List.length_map o_addr (tree_objs root)).
  rewrite <- size_dom, <- (size_list_to_set (C := gset Z) (map o_addr (tree_objs root))) by exact Hdist.
  apply Nat.lt_succ_r, subseteq_size. intros a Ha%elem_of_list_to_set.
  apply list_elem_of_fmap in Ha as (o & -> & Ho). apply elem_of_dom. exists o. by apply (h_live _ _ Hh).
Qed.

Lemma node_size n c : c ∈ t_children n -> (tree_size c < tree_size n)%nat.
Proof. destruct n as [o ch]. simpl. intros Hc. pose proof (forest_size_elem c ch Hc). unfold forest_size in *. lia. Qed.

Lemma find_child_tree test (ch : list (obj_tree B)) :
  (forall c, c ∈ ch -> c ∈ tree_nodes root) ->
  find_child topo test (map t_addr ch) = Some (t_addr <$> find (fun c => test (t_obj c)) ch).
Proof.
  induction ch as [|c ch IH]; intros Hch; [done|]. cbn [map find_child find].
  rewrite node_obj_at by (apply Hch; by left). cbn [mbind option_bind].
  destruct (test (t_obj c)); [done|]. apply IH. intros d Hd. apply Hch. by right.
Qed.

(** ** The lowest object covering a set *)

Lemma node_cases o ch n : n ∈ tree_nodes (Node o ch) ->
  n = Node o ch \/ exists c, c ∈ ch /\ n ∈ tree_nodes c.
Proof.
  rewrite tree_nodes_node. intros [->|Hn]%elem_of_cons; [by left|right].
  apply list_elem_of_In, in_concat in Hn as (l & (c & <- & Hc)%in_map_iff & Hn).
  exists c. by rewrite !list_elem_of_In.
Qed.

(** [n] has a cpuset that includes [set]. *)
Definition covers (set : B) n : Prop := exists s, ocpuset (t_obj n) = Some s /\ bsub set s.

Lemma child_covers_spec set n : bfin set = true -> child_covers set (t_obj n) = true <-> covers set n.
Proof.
  intros Hf. unfold child_covers, covers. destruct (ocpuset (t_obj n)) as [s|].
  - rewrite b_isincluded_spec by done. split; [by exists s|by intros (s' & [= <-] & ?)].
  - split; [done|]. by intros (s & ? & _).
Qed.

(** An object that covers [set] in the subtree of a child makes the child cover it. *)
Lemma covers_up set o ch c k : cpus_nested (Node o ch) -> c ∈ ch -> k ∈ tree_nodes c -> covers set k ->
  covers set c /\ cpus_nested c.
Proof.
  intros Hw Hc Hk (s & Hs & Hsub). destruct (nested_child _ _ _ Hw Hc) as [Hl|(s' & Hs' & _ & _ & Hwc)].
  - by rewrite (cpuless_node _ _ Hl Hk) in Hs.
  - split; [|done]. exists s'. split; [done|]. etrans; [exact Hsub|].
    pose proof (nested_node_sub c k s Hwc Hk Hs) as Hcs. unfold cs in Hcs. by rewrite Hs' in Hcs.
Qed.

Lemma covers_one set o ch c d : cpus_nested (Node o ch) -> ~ bempty set -> c ∈ ch -> d ∈ ch ->
  covers set c -> covers set d -> c = d.
Proof.
  intros Hw Hne Hc Hd (s & Hs & Hss) (s' & Hs' & Hss').
  destruct (nested_siblings _ _ _ _ Hw Hc Hd) as [|Hdis]; [done|]. destruct Hne.
  unfold cs in Hdis. rewrite Hs, Hs' in Hdis. by apply (bsub_disj_empty set s s').
Qed.

(** [m] is in the subtree of every object of [n] that covers [set]. *)
Definition lowest (set : B) n m : Prop :=
  m ∈ tree_nodes n /\ covers set m /\ forall k, k ∈ tree_nodes n -> covers set k -> m ∈ tree_nodes k.

Lemma descend_ok set fuel n :
  bfin set = true -> ~ bempty set -> n ∈ tree_nodes root -> cpus_nested n -> covers set n ->
  (tree_size n <= fuel)%nat ->
  exists m, descend_covering topo fuel set (t_addr n) = Some (t_addr m) /\ lowest set n m.
Proof.
  intros Hf Hne. revert n. induction fuel as [|fuel IH]; intros n Hn Hw Hcov Hsz.
  { pose proof (tree_size_pos n). lia. }
  cbn [descend_covering]. unfold hwloc_get_child_covering_cpuset. rewrite node_obj_at by done.
  cbn [mbind option_bind]. destruct Hcov as (s & Hs & Hsub). rewrite Hs, (iszero_false set Hne).
  destruct (node_links n Hn) as (kl & Hkl & Hch & _). rewrite Hkl. cbn [mbind option_bind]. rewrite Hch.
  rewrite find_child_tree by (intros; by eapply children_nodes). cbn [mbind option_bind].
  destruct n as [o ch]. cbn [t_children] in *. destruct (find _ ch) as [c|] eqn:Hfind; cbn [fmap option_fmap option_map].
  - apply find_some in Hfind as [Hc Hcc]. apply list_elem_of_In in Hc. apply child_covers_spec in Hcc; [|done].
    destruct (covers_up set o ch c c Hw Hc (root_node c) Hcc) as [_ Hwc].
    destruct (IH c) as (m & -> & Hm & Hcm & Hlow); [by eapply children_nodes|done..| |].
    { pose proof (node_size (Node o ch) c Hc). lia. }
    exists m. unfold lowest. split_and!; [done|by eapply child_node|done|]. intros k Hk Hck.
    apply node_cases in Hk as [->|(d & Hd & Hk)]; [by eapply child_node|].
    destruct (covers_up set o ch d k Hw Hd Hk Hck) as [Hcd _].
    rewrite <- (covers_one set o ch c d Hw Hne Hc Hd Hcc Hcd) in Hk. auto.
  - exists (Node o ch). unfold lowest. split_and!; [done|apply root_node|by exists s|]. intros k Hk Hck.
    apply node_cases in Hk as [->|(d & Hd & Hk)]; [apply root_node|].
    destruct (covers_up set o ch d k Hw Hd Hk Hck) as [Hcd _]. apply list_elem_of_In in Hd.
    assert (Hff := find_none _ _ Hfind d Hd). apply child_covers_spec in Hcd; [|done]. congruence.
Qed.

(** ** The largest objects inside a set *)

(** Every object has a finite, non-empty cpuset. *)
Definition populated t : Prop :=
  Forall (fun o => exists s, ocpuset o = Some s /\ bfin s = true /\ ~ bempty s) (tree_objs t).

Lemma populated_child o ch c : populated (Node o ch) -> c ∈ ch -> populated c.
Proof.
  intros Hp Hc. unfold populated in *. rewrite Forall_forall in Hp |- *. intros p Hin. apply Hp.
  rewrite tree_objs_node. right. apply elem_of_forest_objs. by exists c.
Qed.

Lemma populated_head t : populated t ->
  exists s, ocpuset (t_obj t) = Some s /\ bfin s = true /\ ~ bempty s /\ cs (t_obj t) = s.
Proof.
  destruct t as [o ch]. intros [(s & Hs & Hf & Hne) _]%Forall_cons. exists s. unfold cs. simpl. by rewrite Hs.
Qed.

Lemma populated_nested o ch c : cpus_nested (Node o ch) -> populated (Node o ch) -> c ∈ ch ->
  exists s, ocpuset (t_obj c) = Some s /\ bfin s = true /\ bsub s (cs o) /\ cpus_nested c.
Proof.
  intros Hw Hp Hc. destruct (nested_child _ _ _ Hw Hc) as [Hl|Hr]; [|done].
  destruct (populated_head c) as (s & Hs & _); [by eapply populated_child|].
  by rewrite (cpuless_head _ Hl) in Hs.
Qed.

(** The topmost objects whose cpuset is included in [set], in order. *)
Fixpoint maximal_inside (set : B) t : list (obj_tree B) :=
  let 'Node o ch := t in
  if b_isincluded (cs o) set then [t] else concat (map (maximal_inside set) ch).

(** A subtree that does not meet [set] has none. *)
Lemma maximal_disjoint set t : cpus_nested t -> populated t -> bdisj set (cs (t_obj t)) -> maximal_inside set t = [].
Proof.
  induction t as [o ch IH] using obj_tree_ind'. intros Hw Hp Hd. cbn [maximal_inside t_obj] in *.
  destruct (populated_head _ Hp) as (s & Hs & Hf & Hne & Hcs). cbn [t_obj] in *. rewrite Hcs in *.
  destruct (b_isincluded s set) eqn:Hi.
  { apply b_isincluded_spec in Hi; [|done]. destruct Hne. by apply (bsub_disj_empty s set s). }
  assert (Hch : forall c, c ∈ ch -> maximal_inside set c = []).
  { intros c Hc. rewrite Forall_forall in IH. destruct (populated_nested _ _ _ Hw Hp Hc) as (s' & Hs' & _ & Hsub & Hwc).
    apply IH; [done..|by eapply populated_child|]. unfold cs. rewrite Hs'. simpl. rewrite Hcs in Hsub.
    by eapply bdisj_sub. }
  clear -Hch. induction ch as [|c ch IH]; [done|]. simpl. rewrite Hch by by left.
  apply IH. intros d Hd. apply Hch. by right.
Qed.

(** What a call must give: the first of them, and the room left. *)
Definition largest_post (r : list (obj_tree B)) (max : Z) : option (list Z * Z) :=
  Some (map t_addr (take (Z.to_nat max) r), max - Z.of_nat (length (take (Z.to_nat max) r))).

Lemma largest_children_ok inside set sub p ch max :
  (forall c, c ∈ ch -> c ∈ tree_nodes root /\ populated c /\ cpus_nested c /\ bsub (cs (t_obj c)) p) ->
  (forall i, 0 <= i -> bm sub i = bm set i && bm p i) -> 0 < max ->
  (forall c s m, c ∈ ch -> 0 < m -> (forall i, 0 <= i -> bm s i = bm set i && bm (cs (t_obj c)) i) ->
     inside (t_addr c) s m = largest_post (maximal_inside set c) m) ->
  largest_in_children topo inside sub (map t_addr ch) max =
    largest_post (concat (map (maximal_inside set) ch)) max.
Proof.
  intros Hch Hsub Hmax Hin. revert max Hmax. induction ch as [|c ch IH]; intros max Hmax.
  { unfold largest_post. simpl. rewrite take_nil. simpl. do 2 f_equal. lia. }
  assert (Htail : forall d, d ∈ ch -> d ∈ c :: ch) by (intros; by right).
  specialize (IH (fun d Hd => Hch d (Htail d Hd)) (fun d s m Hd => Hin d s m (Htail d Hd))).
  destruct (Hch c) as (Hn & Hp & Hw & Hs); [by left|]. destruct (populated_head c Hp) as (s & Hcs & Hf & Hne & Heq).
  cbn [map largest_in_children concat]. rewrite node_obj_at by done. cbn [mbind option_bind]. rewrite Hcs.
  assert (Hand : forall i, 0 <= i -> bm (b_and sub s) i = bm set i && bm (cs (t_obj c)) i).
  { intros i Hi. rewrite bm_and, Hsub, Heq by done. rewrite Heq in Hs. specialize (Hs i Hi).
    destruct (bm set i), (bm s i), (bm p i); try done; by specialize (Hs eq_refl). }
  destruct (b_iszero (b_and sub s)) eqn:Hz.
  - apply b_iszero_spec in Hz. rewrite (maximal_disjoint set c Hw Hp); [by apply IH|].
    intros i Hi H1 H2. specialize (Hz i Hi). rewrite Hand, H1, H2 in Hz by done. done.
  - rewrite (Hin c _ max) by (by left || done). unfold largest_post at 1. cbn [mbind option_bind].
    set (r := maximal_inside set c). set (rs := concat (map (maximal_inside set) ch)) in *.
    pose proof (length_take r (Z.to_nat max)) as Hlen.
    destruct (Z.eqb_spec (max - Z.of_nat (length (take (Z.to_nat max) r))) 0) as [Hz0|Hz0].
    + unfold largest_post. rewrite (take_app_le r rs) by lia. done.
    + rewrite IH by lia. unfold largest_post. cbn [mbind option_bind].
      rewrite (take_ge r) by lia. rewrite take_app_ge by lia. rewrite List.map_app, length_app.
      replace (Z.to_nat max - length r)%nat with (Z.to_nat (max - Z.of_nat (length r))) by lia.
      do 2 f_equal. lia.
Qed.

Lemma largest_ok set fuel n sub max :
  n ∈ tree_nodes root -> cpus_nested n -> populated n -> (tree_size n <= fuel)%nat -> 0 < max ->
  (forall i, 0 <= i -> bm sub i = bm set i && bm (cs (t_obj n)) i) ->
  largest_objs_inside topo fuel (t_addr n) sub max = largest_post (maximal_inside set n) max.
Proof.
  revert n sub max. induction fuel as [|fuel IH]; intros n sub max Hn Hw Hp Hsz Hmax Hsub.
  { pose proof (tree_size_pos n). lia. }
  cbn [largest_objs_inside]. destruct (Z.leb_spec max 0); [lia|]. rewrite node_obj_at by done.
  destruct (populated_head n Hp) as (s & Hs & Hf & Hne & Hcs). cbn [mbind option_bind]. rewrite Hs.
  cbn [mbind option_bind]. destruct n as [o ch]. cbn [maximal_inside t_obj] in *. rewrite Hcs in *.
  assert (Heq : b_isequal s sub = b_isincluded s set).
  { apply eq_true_iff_eq. rewrite b_isequal_spec, b_isincluded_spec by done. split.
    - intros E i Hi Hm. specialize (E i Hi). rewrite Hsub, Hm in E by done. by destruct (bm set i).
    - intros Hi i Hi0. rewrite Hsub by done. specialize (Hi i Hi0). destruct (bm s i), (bm set i); try done.
      by specialize (Hi eq_refl). }
  rewrite Heq. destruct (b_isincluded s set).
  - unfold largest_post. destruct (Z.to_nat max) as [|m] eqn:Hm; [lia|]. simpl. by rewrite take_nil.
  - destruct (node_links _ Hn) as (kl & Hkl & Hch & _). rewrite Hkl. cbn [mbind option_bind]. rewrite Hch.
    apply (largest_children_ok _ set sub s); [|done..|].
    + intros c Hc. destruct (populated_nested _ _ _ Hw Hp Hc) as (s' & Hs' & _ & Hsub' & Hwc).
      split_and!; [by eapply children_nodes|by eapply populated_child|done|].
      rewrite Hcs in Hsub'. unfold cs. by rewrite Hs'.
    + intros c s' m Hc Hm Hs'. destruct (populated_nested _ _ _ Hw Hp Hc) as (_ & _ & _ & _ & Hwc).
      apply IH; [by eapply children_nodes|done|by eapply populated_child| |done..].
      pose proof (node_size (Node o ch) c Hc). lia.
Qed.

End HelperOk.

Section Weights.
Context {B : Type} `{Cpuset B}.

(** Disjoint sets inside [p] weigh at most as much as [p]. *)
Lemma weights_sum (p : B) (l : list B) :
  bfin p = true -> Forall (fun s => bfin s = true /\ bsub s p) l -> ForallOrdPairs bdisj l ->
  foldr (fun s n => b_weight s + n) 0 l <= b_weight p.
Proof.
  intros Hp Hl Hd. destruct (b_weight_spec p Hp) as (lp & -> & Hndp & Hmp).
  assert (Hu : exists u, NoDup u /\ Z.of_nat (length u) = foldr (fun s n => b_weight s + n) 0 l /\
    forall i, i ∈ u -> 0 <= i /\ exists s, s ∈ l /\ bm s i = true).
  { clear Hmp Hndp. induction Hd as [|s l Hs _ IH].
    { exists []. split_and!; [constructor|done|by intros i ?%not_elem_of_nil]. }
    apply Forall_cons in Hl as [[Hf _] Hl]. destruct (IH Hl) as (u & Hnd & Hlen & Hu).
    destruct (b_weight_spec s Hf) as (ls & Hw & Hnds & Hms). exists (ls ++ u).
    split_and!.
    - apply NoDup_app. split_and!; [done| |done]. intros i Hi Hiu. apply Hms in Hi as [Hi0 Hi].
      apply Hu in Hiu as (_ & s' & Hs' & Hm'). rewrite Forall_forall in Hs. by apply (Hs s' Hs' i).
    - rewrite length_app. simpl. lia.
    - intros i [Hi|Hi]%elem_of_app.
      + apply Hms in Hi as [? ?]. split; [done|]. exists s. split; [by left|done].
      + apply Hu in Hi as (? & s' & ? & ?). split; [done|]. exists s'. split; [by right|done]. }
  destruct Hu as (u & Hnd & <- & Hu). apply Nat2Z.inj_le, submseteq_length, NoDup_submseteq; [done|].
  intros i Hi. apply Hmp. destruct (Hu i Hi) as (Hi0 & s & Hs & Hm). split; [done|].
  rewrite Forall_forall in Hl. by apply (proj2 (Hl s Hs)).
Qed.

Lemma weight_pos (s : B) : bfin s = true -> ~ bempty s -> 0 < b_weight s.
Proof.
  intros Hf Hne. destruct (b_weight_spec s Hf) as ([|i l] & -> & _ & Hm); [|simpl; lia].
  destruct Hne. intros i Hi. apply not_true_iff_false. intros Hb.
  by apply (not_elem_of_nil i), Hm.
Qed.
End Weights.

(** ** Chunks *)

Lemma chunk_bounds n w tot : 0 <= n -> 0 < w <= tot ->
  0 <= (n * w + tot - 1) / tot <= n /\ (w = tot -> (n * w + tot - 1) / tot = n).
Proof.
  intros Hn Hw. split; [split|].
  - apply Z.div_pos; nia.
  - apply Z.lt_succ_r, Z.div_lt_upper_bound; nia.
  - intros ->. symmetry. apply (Z.div_unique_pos _ _ _ (tot - 1)); nia.
Qed.

Section Distribute.
Context {B : Type} `{Cpuset B} (topo : topology B) (root : obj_tree B).
Context (Hh : hierarchy topo root).
Implicit Types n c : obj_tree B.

Definition tree_weight n : Z := b_weight (cs (t_obj n)).
Definition sum_weights (ch : list (obj_tree B)) : Z := foldr (fun c w => tree_weight c + w) 0 ch.

Lemma root_weight_ok n : n ∈ tree_nodes root -> populated n -> tree_weight n < 2 ^ 32 ->
  root_weight topo (t_addr n) = Some (tree_weight n) /\ 0 < tree_weight n.
Proof.
  intros Hn Hp Hlt. destruct (populated_head n Hp) as (s & Hs & Hf & Hne & Hcs).
  pose proof (weight_pos s Hf Hne). unfold root_weight, tree_weight in *.
  rewrite (node_obj_at topo root Hh) by done. cbn [mbind option_bind]. rewrite Hs, Hcs in *.
  split; [|done]. by rewrite u32_small by lia.
Qed.

(** Children that can be given slots. *)
Definition good (ch : list (obj_tree B)) : Prop := Forall (fun c => c ∈ tree_nodes root /\ populated c) ch.

Lemma sum_weights_pos ch : good ch -> 0 <= sum_weights ch /\ (ch <> [] -> 0 < sum_weights ch).
Proof.
  induction 1 as [|c ch [Hc Hp] _ IH]; [done|]. cbn [sum_weights foldr]. fold (sum_weights ch).
  destruct (populated_head c Hp) as (s & _ & Hf & Hne & Hcs).
  pose proof (weight_pos s Hf Hne). unfold tree_weight. rewrite Hcs. lia.
Qed.

Lemma weight_le_sum ch c : good ch -> c ∈ ch -> tree_weight c <= sum_weights ch.
Proof.
  intros Hg Hc. induction Hg as [|d ch [_ Hp] Hg IH]; [by apply not_elem_of_nil in Hc|].
  cbn [sum_weights foldr]. fold (sum_weights ch). destruct (sum_weights_pos ch Hg).
  destruct (populated_head d Hp) as (s & _ & Hf & Hne & Hcs).
  pose proof (weight_pos s Hf Hne). assert (tree_weight d = b_weight s) by (unfold tree_weight; by rewrite Hcs).
  apply elem_of_cons in Hc as [->|Hc]; [lia|]. specialize (IH Hc). lia.
Qed.

Lemma total_weight_ok ch acc : good ch -> 0 <= acc -> acc + sum_weights ch < 2 ^ 32 ->
  total_weight topo (map t_addr ch) acc = Some (acc + sum_weights ch).
Proof.
  intros Hg. revert acc. induction Hg as [|c ch [Hc Hp] Hch IH]; intros acc Ha Hlt; cbn [map total_weight].
  { cbn. by rewrite Z.add_0_r. }
  pose proof (sum_weights_pos ch Hch). cbn [sum_weights foldr] in *. fold (sum_weights ch) in *.
  destruct (populated_head c Hp) as (s & _ & Hf & Hne & Hcs).
  pose proof (weight_pos s Hf Hne) as Hpos. assert (Hw : tree_weight c = b_weight s) by (unfold tree_weight; by rewrite Hcs).
  destruct (root_weight_ok c Hc Hp) as [-> _]; [lia|]. cbn [mbind option_bind].
  rewrite u32_small by lia. rewrite IH by lia. f_equal. lia.
Qed.

(** What a call gives for [n] slots: [n] cpusets of objects of the subtree. *)
Definition filled (t : obj_tree B) (n : Z) (l : list B) : Prop :=
  Z.of_nat (length l) = n /\
  Forall (fun s => exists m, m ∈ tree_nodes t /\ ocpuset (t_obj m) = Some s) l.

Lemma distribute_loop_ok give (t : obj_tree B) ch (n : Z) :
  good ch -> (forall c, c ∈ ch -> c ∈ t_children t) -> 0 <= n -> (ch = [] -> n = 0) ->
  (n + 1) * sum_weights ch < 2 ^ 32 ->
  (forall c m, c ∈ ch -> 0 <= m <= n -> exists l, give (t_addr c) m = Some l /\ filled c m l) ->
  exists l, distribute_loop topo give (map t_addr ch) n (sum_weights ch) = Some l /\ filled t n l.
Proof.
  intros Hg Hsub. revert n. induction Hg as [|c ch [Hc Hp] Hch IH]; intros n Hn Hnil Hmax Hgive.
  { exists []. split; [done|]. split; [by rewrite Hnil|constructor]. }
  cbn [map distribute_loop]. pose proof (sum_weights_pos ch Hch) as [Hs0 Hspos].
  cbn [sum_weights foldr] in *. fold (sum_weights ch) in *.
  destruct (populated_head c Hp) as (s & Hs & Hf & Hne & Hcs).
  pose proof (weight_pos s Hf Hne) as Hpos. assert (Hw : tree_weight c = b_weight s) by (unfold tree_weight; by rewrite Hcs).
  destruct (Z.eqb_spec (tree_weight c + sum_weights ch) 0); [lia|].
  destruct (root_weight_ok c Hc Hp) as [-> _]; [nia|]. cbn [mbind option_bind].
  set (wc := tree_weight c) in *. set (tot := wc + sum_weights ch) in *.
  destruct (chunk_bounds n wc tot Hn) as [Hchunk Hlast]; [lia|].
  assert (Hle : 0 <= n * wc <= n * tot /\ tot = wc + sum_weights ch) by (split; [nia|done]).
  assert (Hn32 : n <= n * tot) by nia. clearbody tot.
  rewrite (u32_small (n * wc)) by lia. rewrite (u32_small (n * wc + tot - 1)) by lia.
  set (chunk := (n * wc + tot - 1) / tot) in *.
  destruct (Hgive c chunk) as (l1 & -> & Hlen1 & Hin1); [by left|lia|]. cbn [mbind option_bind].
  rewrite (u32_small (n - chunk)) by lia. rewrite (u32_small (tot - wc)) by lia.
  replace (tot - wc) with (sum_weights ch) by lia.
  assert (Htail : forall d, d ∈ ch -> d ∈ c :: ch) by (intros; by right).
  destruct (IH (fun d Hd => Hsub d (Htail d Hd)) (n - chunk)) as (l2 & -> & Hlen2 & Hin2).
  - lia.
  - intros ->. cbn [sum_weights foldr] in *. lia.
  - nia.
  - intros d m Hd Hm. apply Hgive; [by right|lia].
  - exists (l1 ++ l2). split; [done|]. split; [rewrite length_app; lia|].
    apply Forall_app. split; [|done]. eapply Forall_impl; [exact Hin1|].
    intros x (m & Hm & Hx). exists m. split; [|done]. eapply Connected.child_node; [|done]. apply Hsub. by left.
Qed.

Lemma distribute_ok until fuel (t : obj_tree B) (n : Z) :
  t ∈ tree_nodes root -> cpus_nested t -> populated t -> (tree_size t <= fuel)%nat ->
  0 <= n -> (n + 1) * tree_weight t < 2 ^ 32 ->
  exists l, hwloc_distribute topo fuel (t_addr t) n until = Some l /\ filled t n l.
Proof.
  revert t n. induction fuel as [|fuel IH]; intros t n Ht Hw Hp Hsz Hn Hmax.
  { pose proof (tree_size_pos t). lia. }
  cbn [hwloc_distribute]. destruct (node_links topo root Hh t Ht) as (k & Hk & Hch & Har).
  rewrite Hk. cbn [mbind option_bind]. rewrite (node_obj_at topo root Hh) by done. cbn [mbind option_bind].
  destruct (populated_head t Hp) as (s & Hs & Hf & Hne & Hcs).
  destruct ((arity k =? 0) || (n =? 1) || (until <=? depth k)) eqn:Hstop.
  - destruct (Z.eqb_spec n 0) as [->|Hn0]; [exists []; split; [done|split; [done|constructor]]|].
    rewrite Hs. cbn [mbind option_bind]. exists (replicate (Z.to_nat n) s). split; [done|].
    split; [rewrite length_replicate; lia|]. apply Forall_replicate. exists t. split; [apply Connected.root_node|done].
  - apply orb_false_iff in Hstop as [[Har0 _]%orb_false_iff _]. rewrite Har in Har0. rewrite Hch.
    destruct t as [o ch]. cbn [t_children t_obj] in *. assert (Hg : good ch).
    { apply Forall_forall. intros c Hc. split; [by eapply children_nodes|by eapply populated_child]. }
    assert (Hsum : sum_weights ch <= tree_weight (Node o ch)).
    { unfold tree_weight. cbn [t_obj]. rewrite Hcs. etrans; [|apply (weights_sum s (map (fun c => cs (t_obj c)) ch) Hf)].
      - clear. induction ch as [|c ch IH]; [done|]. cbn [map foldr sum_weights]. fold (sum_weights ch).
        unfold tree_weight in *. lia.
      - apply Forall_map, Forall_forall. intros c Hc. unfold compose.
        destruct (populated_nested _ _ _ Hw Hp Hc) as (s' & Hs' & Hf' & Hsub & _).
        unfold cs at 1 2. rewrite Hs'. simpl. by rewrite Hcs in Hsub.
      - apply cpus_nested_inv in Hw as [_ Hpairs]. clear -Hpairs.
        induction Hpairs as [|c ch Hc _ IH]; constructor; [by apply Forall_map|done]. }
    destruct (sum_weights_pos ch Hg) as [Hs0 Hspos].
    assert (Hne' : ch <> []) by (by intros ->). specialize (Hspos Hne').
    rewrite total_weight_ok by (done || nia). cbn [mbind option_bind]. rewrite Z.add_0_l.
    apply distribute_loop_ok; [done|done|done|by intros ->|nia|].
    intros c m Hc Hm. destruct (populated_nested _ _ _ Hw Hp Hc) as (_ & _ & _ & _ & Hwc).
    pose proof (weight_le_sum ch c Hg Hc) as Hwle.
    apply IH; [by eapply children_nodes|done|by eapply populated_child| |lia|nia].
    pose proof (node_size (Node o ch) c Hc). lia.
Qed.

End Distribute.
