(* ===== verification/TravThms.v ===== *)
(** * TravThms: what the queries on a loaded topology return *)

From stdpp Require Import gmap functions.
From S2P Require Import Prelude Cpuset Obj ObjCmp CleanOk Levels LevelsOk LevelsLoop Connected Traversal Loaded Helper HelperOk Samples.

Section Queries.
Context {B : Type} `{Cpuset B}.
Implicit Types topo : topology B.

(** The objects of a level, in order. *)
Definition level_objs topo (d : Z) : list (hwloc_obj B) := omap (obj_at topo) (level_of topo d).

Lemma level_objs_in topo d o :
  o ∈ level_objs topo d <-> exists a, a ∈ level_of topo d /\ obj_at topo a = Some o.
Proof. unfold level_objs. apply list_elem_of_omap. Qed.

Lemma fold_objs_total {S} topo (body : hwloc_obj B -> S -> option S) (f : hwloc_obj B -> S -> S) as' s :
  (forall a, a ∈ as' -> is_Some (obj_at topo a)) ->
  (forall a o s, a ∈ as' -> obj_at topo a = Some o -> body o s = Some (f o s)) ->
  fold_objs topo body as' s = Some (foldl (fun s o => f o s) s (omap (obj_at topo) as')).
Proof.
  revert s. induction as' as [|a as' IH]; intros s Hl Hb; [done|].
  destruct (Hl a) as [o Ho]; [by left|]. cbn [fold_objs omap list_omap]. rewrite Ho. cbn [mbind option_bind].
  rewrite (Hb a o s) by (by left || done). cbn [mbind option_bind foldl].
  apply IH; intros; [apply Hl|eapply Hb; [|done]]; by right.
Qed.

(** The nodes of a level: finite cpusets, indexes that fit. *)
Record node_level topo (d : Z) : Prop := {
  nl_cpuset : forall o, o ∈ level_objs topo d -> exists c, ocpuset o = Some c /\ bfin c = true;
  nl_index : forall o, o ∈ level_objs topo d -> 0 <= os_index o < CPU_MAX;
}.

Lemma node_level_has_cpusets topo d : node_level topo d -> has_cpusets topo d.
Proof.
  intros Hn a o Ha Ho. destruct (nl_cpuset _ _ Hn o) as (c & Hc & _); [|by exists c].
  apply level_objs_in. by exists a.
Qed.

(** The union of [f] over the objects that pass [p]. *)
Lemma foldl_set_index (os : list (hwloc_obj B)) s i :
  (forall o, o ∈ os -> 0 <= os_index o < CPU_MAX) -> 0 <= i ->
  bm (foldl (fun s o => b_set s (os_index o)) s os) i = true <->
  bm s i = true \/ exists o, o ∈ os /\ os_index o = i.
Proof.
  revert s. induction os as [|o os IH]; intros s Hr Hi; cbn [foldl].
  { split; [by left|]. intros [?|(o & ?%not_elem_of_nil & _)]; done. }
  rewrite IH by (done || (intros; apply Hr; by right)). rewrite bm_set by (done || (apply Hr; by left)).
  rewrite orb_true_iff, Z.eqb_eq. split.
  - intros [[->|Hs]|(p & Hp & <-)]; [right; exists o; split; [by left|done]|by left|].
    right. exists p. split; [by right|done].
  - intros [Hs|(p & [->|Hp]%elem_of_cons & <-)]; [by left; right|by left; left|]. right. by exists p.
Qed.

Lemma foldl_or_cpusets nodes (os : list (hwloc_obj B)) s i :
  (forall o, o ∈ os -> exists c, ocpuset o = Some c) -> 0 <= i ->
  bm (foldl (fun s o => if b_isset nodes (os_index o) then b_or s (default b_alloc (ocpuset o)) else s) s os) i = true <->
  bm s i = true \/ exists o c, o ∈ os /\ ocpuset o = Some c /\ b_isset nodes (os_index o) = true /\ bm c i = true.
Proof.
  revert s. induction os as [|o os IH]; intros s Hr Hi; cbn [foldl].
  { split; [by left|]. intros [?|(o & c & ?%not_elem_of_nil & _)]; done. }
  rewrite IH by (done || (intros; apply Hr; by right)). destruct (Hr o) as [c Hc]; [by left|].
  rewrite Hc. simpl. split.
  - intros [Hs|(p & c' & Hp & Hr')]; [|right; exists p, c'; split; [by right|done]].
    destruct (b_isset nodes (os_index o)) eqn:Hb; [|by left].
    rewrite bm_or in Hs by done. apply orb_true_iff in Hs as [Hs|Hs]; [by left|].
    right. exists o, c. split_and!; [by left|done..].
  - intros [Hs|(p & c' & [->|Hp]%elem_of_cons & Hc' & Hb & Hm)].
    + left. destruct (b_isset nodes (os_index o)); [|done]. by rewrite bm_or, Hs.
    + left. rewrite Hb, bm_or by done. rewrite Hc in Hc'. injection Hc' as <-. by rewrite Hm, orb_true_r.
    + right. by exists p, c'.
Qed.

(** What the two loops compute. *)
Lemma nodes_covering_ok topo d set :
  consultable topo -> 0 <= d < 2 ^ 32 -> node_level topo d ->
  exists n, nodes_covering topo set d = Some n /\ forall i, 0 <= i ->
    (bm n i = true <-> exists o c, o ∈ level_objs topo d /\ ocpuset o = Some c /\
       os_index o = i /\ ~ bdisj set c).
Proof.
  intros Hok Hd Hn. assert (Hcs := node_level_has_cpusets _ _ Hn). unfold nodes_covering.
  set (t := on_cpuset topo (fun c => b_intersects set c)).
  change None with (before (passing topo d t) 0). rewrite (iterate_fold topo _ (passing topo d t));
    [|apply (passing_enumerated topo Hok d Hd _ _ Hcs (meets_tests topo d set Hcs))|lia|
      pose proof (passing_fuel topo Hok d Hd t); lia].
  rewrite drop_0, (fold_objs_total topo _ (fun o s => b_set s (os_index o))); [|intros a Ha..|done].
  2:{ apply (level_obj topo Hok d Hd a). apply list_elem_of_filter in Ha. tauto. }
  eexists. split; [done|]. intros i Hi. rewrite foldl_set_index; [|intros o Ho|done].
  2:{ apply (nl_index _ _ Hn), level_objs_in. apply list_elem_of_omap in Ho as (a & [_ Ha]%list_elem_of_filter & Ho).
      by exists a. }
  rewrite bm_alloc by done. split.
  - intros [?|(o & (a & [Hta Ha]%list_elem_of_filter & Ho)%list_elem_of_omap & <-)]; [done|].
    assert (Hin : o ∈ level_objs topo d) by (apply level_objs_in; eauto).
    destruct (nl_cpuset _ _ Hn o Hin) as (c & Hc & Hf). exists o, c. split_and!; try done.
    intros Hdis. unfold t, on_cpuset in Hta. rewrite Ho, Hc in Hta.
    apply (b_intersects_spec set c) in Hdis; [congruence|auto].
  - intros (o & c & Hin & Hc & <- & Hdis). right. exists o. split; [|done].
    apply level_objs_in in Hin as Hin'. destruct Hin' as (a & Ha & Ho). apply list_elem_of_omap.
    exists a. split; [|done]. apply list_elem_of_filter. split; [|done].
    unfold t, on_cpuset. rewrite Ho, Hc. destruct (nl_cpuset _ _ Hn o Hin) as (c' & Hc' & Hf).
    rewrite Hc in Hc'. injection Hc' as <-. apply not_false_iff_true. intros Hfalse. apply Hdis.
    apply (b_intersects_spec set c); auto.
Qed.

Lemma cpus_of_nodes_ok topo d nodes :
  consultable topo -> 0 <= d < 2 ^ 32 -> node_level topo d ->
  exists s, cpus_of_nodes topo nodes d = Some s /\ forall i, 0 <= i ->
    (bm s i = true <-> exists o c, o ∈ level_objs topo d /\ ocpuset o = Some c /\
       bm nodes (os_index o) = true /\ bm c i = true).
Proof.
  intros Hok Hd Hn. unfold cpus_of_nodes.
  change None with (before (level_of topo d) 0). rewrite (iterate_fold topo _ (level_of topo d));
    [|by apply level_enumerated|lia|pose proof (level_size topo Hok d Hd); lia].
  rewrite drop_0, (fold_objs_total topo _ (fun o s =>
    if b_isset nodes (os_index o) then b_or s (default b_alloc (ocpuset o)) else s)).
  2:{ intros a Ha. by apply (cs_live topo Hok d). }
  2:{ intros a o s Ha Ho. destruct (b_isset nodes (os_index o)); [|done].
      by destruct (node_level_has_cpusets _ _ Hn a o Ha Ho) as [c ->]. }
  eexists. split; [done|]. intros i Hi. rewrite foldl_or_cpusets; [|intros o Ho|done].
  2:{ destruct (nl_cpuset _ _ Hn o Ho) as (c & ? & _). by exists c. }
  rewrite bm_alloc by done. split.
  - intros [?|(o & c & Ho & Hc & Hb & Hm)]; [done|]. exists o, c. split_and!; try done.
    rewrite <- b_isset_spec; [done|]. apply (nl_index _ _ Hn o Ho).
  - intros (o & c & Ho & Hc & Hb & Hm). right. exists o, c. split_and!; try done.
    rewrite b_isset_spec; [done|]. apply (nl_index _ _ Hn o Ho).
Qed.

(** C32. Queries on the objects of a level inside a cpuset agree with the list of
    those objects, in the order of the level: [hwloc_get_nbobjs_inside_cpuset_by_depth]
    is its length, [hwloc_get_obj_inside_cpuset_by_depth] its element,
    [hwloc_get_obj_index_inside_cpuset] the position of an element, and
    [hwloc_get_next_obj_inside_cpuset_by_depth] enumerates it from NULL to NULL. *)
Theorem inside_cpuset_queries topo (set : B) d :
  consultable topo -> 0 <= d < 2 ^ 32 -> has_cpusets topo d ->
  Z.of_nat (length (level_of topo d)) < 2 ^ 32 ->
  let found := passing topo d (on_cpuset topo (fun c => b_isincluded c set)) in
  hwloc_get_nbobjs_inside_cpuset_by_depth topo set d = Some (Z.of_nat (length found)) /\
  (forall idx, 0 <= idx < 2 ^ 32 ->
     hwloc_get_obj_inside_cpuset_by_depth topo set d idx = Some (found !! Z.to_nat idx)) /\
  (forall i a, found !! i = Some a ->
     hwloc_get_obj_index_inside_cpuset topo set a = Some (Z.of_nat i)) /\
  (forall i, (i <= length found)%nat ->
     hwloc_get_next_obj_inside_cpuset_by_depth topo set d (before found i) = Some (found !! i)).
Proof.
  intros Hok Hd Hcs Hlen found. pose proof (level_size topo Hok d Hd) as Hsz.
  pose proof (length_filter (fun a => on_cpuset topo (fun c => b_isincluded c set) a = true) (level_of topo d)).
  assert (Hfirst : (let! p := hwloc_get_obj_by_depth topo d 0 in with_cpuset_only topo p)
    = Some (level_of topo d !! 0%nat)).
  { rewrite obj_by_depth by lia. cbn [mbind option_bind]. by apply with_cpuset_level. }
  split_and!.
  - unfold hwloc_get_nbobjs_inside_cpuset_by_depth. rewrite obj_by_depth in Hfirst |- * by lia.
    cbn [mbind option_bind] in Hfirst |- *. rewrite Hfirst. cbn [mbind option_bind].
    rewrite (count_inside_ok topo Hok d Hd) by (rewrite ?drop_0; done || lia). by rewrite drop_0.
  - intros idx Hidx. unfold hwloc_get_obj_inside_cpuset_by_depth. rewrite obj_by_depth in Hfirst |- * by lia.
    cbn [mbind option_bind] in Hfirst |- *. rewrite Hfirst. cbn [mbind option_bind].
    rewrite (nth_inside_ok topo Hok d Hd) by (done || lia). by rewrite drop_0, Z.sub_0_r.
  - intros i a Ha. unfold hwloc_get_obj_index_inside_cpuset.
    assert (Hin : on_cpuset topo (fun c => b_isincluded c set) a = true).
    { eapply list_elem_of_lookup_2, list_elem_of_filter in Ha. tauto. }
    destruct (passing_split topo d i a _ Ha) as (j & Hj & <-).
    destruct (level_read topo Hok d Hd j a set Hcs Hj) as (o & c & k & Ho & Hc & Hk & Hl & Heq).
    rewrite Ho. cbn [mbind option_bind]. rewrite Hc. cbn [mbind option_bind].
    rewrite <- Heq, Hin. cbn [negb]. rewrite Hk. cbn [mbind option_bind].
    rewrite (cl_prev _ _ _ _ Hl). apply lookup_lt_Some in Hj. fold (before (level_of topo d) j).
    rewrite (index_inside_ok topo Hok d Hd) by (done || lia). done.
  - intros i Hi. apply (passing_enumerated topo Hok d Hd _ _ Hcs (inside_tests topo d set Hcs) i Hi).
Qed.

(** C29. With NUMA nodes at one depth, [hwloc_cpuset_to_nodeset] gives the indexes
    of the nodes whose cpuset meets the given one, [hwloc_cpuset_from_nodeset] the
    union of the cpusets of the nodes of a set, and the strict variants the same.
    Going back and forth loses nothing: CPUs that belong to nodes are found again,
    and so is a set of nodes with CPUs when no two nodes share an index or CPUs. *)
Theorem nodeset_conversions topo (set nodes : B) d :
  consultable topo -> hwloc_get_type_depth topo HWLOC_OBJ_NODE = d -> 0 <= d < 2 ^ 32 -> node_level topo d ->
  let os := level_objs topo d in
  exists n s,
    hwloc_cpuset_to_nodeset topo set = Some n /\ hwloc_cpuset_from_nodeset topo nodes = Some s /\
    (forall out, hwloc_cpuset_to_nodeset_strict topo set out = Some n /\
                 hwloc_cpuset_from_nodeset_strict topo out nodes = Some s) /\
    (forall i, 0 <= i -> bm n i = true <->
       exists o c, o ∈ os /\ ocpuset o = Some c /\ os_index o = i /\ ~ bdisj set c) /\
    (forall i, 0 <= i -> bm s i = true <->
       exists o c, o ∈ os /\ ocpuset o = Some c /\ bm nodes (os_index o) = true /\ bm c i = true) /\
    ((forall i, 0 <= i -> bm set i = true -> exists o c, o ∈ os /\ ocpuset o = Some c /\ bm c i = true) ->
     exists s', hwloc_cpuset_from_nodeset topo n = Some s' /\ bsub set s') /\
    ((forall i, 0 <= i -> bm nodes i = true ->
        exists o c j, o ∈ os /\ ocpuset o = Some c /\ os_index o = i /\ 0 <= j /\ bm c j = true) ->
     (forall o p c c', o ∈ os -> p ∈ os -> ocpuset o = Some c -> ocpuset p = Some c' ->
        os_index o = os_index p \/ bdisj c c') ->
     exists n', hwloc_cpuset_to_nodeset topo s = Some n' /\ beq n' nodes).
Proof.
  intros Hok Hty Hd Hn os.
  assert (Hne : (d =? HWLOC_TYPE_DEPTH_UNKNOWN) = false) by (unfold HWLOC_TYPE_DEPTH_UNKNOWN; lia).
  assert (Hto : forall x, hwloc_cpuset_to_nodeset topo x = nodes_covering topo x d).
  { intros x. unfold hwloc_cpuset_to_nodeset. rewrite Hty, u32_small by done.
    by rewrite Hne. }
  assert (Hfrom : forall x, hwloc_cpuset_from_nodeset topo x = cpus_of_nodes topo x d).
  { intros x. unfold hwloc_cpuset_from_nodeset. rewrite Hty, u32_small by done.
    by rewrite Hne. }
  destruct (nodes_covering_ok topo d set Hok Hd Hn) as (n & Hcov & Hnm).
  destruct (cpus_of_nodes_ok topo d nodes Hok Hd Hn) as (s & Hcpus & Hsm).
  exists n, s. rewrite Hto, Hfrom. split_and!; try done.
  - intros out. unfold hwloc_cpuset_to_nodeset_strict, hwloc_cpuset_from_nodeset_strict.
    rewrite Hty, u32_small by done. by rewrite Hne.
  - intros Hsub. rewrite Hfrom. destruct (cpus_of_nodes_ok topo d n Hok Hd Hn) as (s' & Hs' & Hsm').
    exists s'. split; [done|]. intros i Hi Hm. destruct (Hsub i Hi Hm) as (o & c & Ho & Hc & Hmc).
    apply Hsm'; [done|]. exists o, c. split_and!; try done.
    apply Hnm; [apply (nl_index _ _ Hn o Ho)|]. exists o, c. split_and!; try done.
    intros Hdis. by apply (Hdis i).
  - intros Hsub Hsep. rewrite Hto. destruct (nodes_covering_ok topo d s Hok Hd Hn) as (n' & Hn' & Hnm').
    exists n'. split; [done|]. intros i Hi. apply eq_true_iff_eq. rewrite Hnm' by done. split.
    + intros (o & c & Ho & Hc & <- & Hdis). apply not_false_iff_true. intros Hf. apply Hdis.
      intros j Hj Hs Hmc. apply Hsm in Hs as (p & c' & Hp & Hc' & Hb & Hm); [|done].
      destruct (Hsep o p c c') as [Heq|Hdj]; try done; [congruence|]. by apply (Hdj j).
    + intros Hm. destruct (Hsub i Hi Hm) as (o & c & j & Ho & Hc & <- & Hj & Hmc).
      exists o, c. split_and!; try done. intros Hdis. apply (Hdis j Hj); [|done].
      apply Hsm; [done|]. by exists o, c.
Qed.

End Queries.

(** ** Loading *)

(** C8. Connecting a freshly built hierarchy, [hwloc_connect_children] then
    [hwloc_connect_levels], leaves a topology that the queries can consult: every
    array of a level holds live objects of one type, without repetition, whose
    depth, logical index and cousins agree with the array, I/O levels included; and
    the parents, children and ranks that the first step has set are still there. *)
Theorem loaded_topology_consultable {B} `{CpusetOps B} (root : obj_tree B) tl :
  placed root -> distinct (tree_objs root) ->
  hwloc_connect_levels root (hwloc_connect_children root ∅) = Some tl ->
  consultable (topology_of root tl) /\ hierarchy (topology_of root tl) root /\
  (forall ty, hwloc_get_type_depth (topology_of root tl) ty =
     default (type_depth_spec ty (Levels.levels (tl_levels tl))) (io_depth ty)).
Proof.
  intros Hr Hd Htl. destruct (load_ok root tl Hr Hd Htl) as (Hc & Hcs & Hh).
  split_and!; [done|done|]. exact (con_types _ _ Hc).
Qed.

(** ** Descents *)

Section Descents.
Context {B : Type} `{Cpuset B}.

(** C30. In a hierarchy with nested cpusets, [hwloc_get_obj_covering_cpuset]
    terminates; it gives NULL for an empty set and for one that the root does not
    cover, and otherwise the lowest object that covers the set: one that lies below
    every object covering it. *)
Theorem covering_object_lowest (topo : topology B) root (set : B) :
  hierarchy topo root -> distinct (tree_objs root) -> cpus_nested root -> bfin set = true ->
  (bempty set \/ ~ covers set root -> hwloc_get_obj_covering_cpuset topo set = Some None) /\
  (~ bempty set -> covers set root ->
     exists m, hwloc_get_obj_covering_cpuset topo set = Some (Some (t_addr m)) /\ lowest set root m).
Proof.
  intros Hh Hd Hw Hf. unfold hwloc_get_obj_covering_cpuset. rewrite (h_root _ _ Hh). cbn [mbind option_bind].
  rewrite (node_obj_at topo root Hh) by apply Connected.root_node. cbn [mbind option_bind].
  assert (Hcov : covers set root <-> match ocpuset (t_obj root) with Some c => b_isincluded set c = true | None => False end).
  { unfold covers. destruct (ocpuset (t_obj root)) as [c|]; [rewrite b_isincluded_spec by done|].
    - split; [by intros (s & [= <-] & ?)|by exists c].
    - split; [by intros (s & ? & _)|done]. }
  split.
  - intros [He|Hn]; [by rewrite (proj2 (b_iszero_spec set) He)|].
    destruct (b_iszero set); [done|]. destruct (ocpuset (t_obj root)) as [c|]; [|done].
    destruct (b_isincluded set c); [|done]. by destruct Hn; apply Hcov.
  - intros Hne Hc. rewrite (iszero_false set Hne).
    destruct (descend_ok topo root Hh set (walk_fuel topo) root Hf Hne (Connected.root_node root) Hw Hc) as (m & Hm & Hl).
    { pose proof (tree_fuel topo root Hh Hd). lia. }
    exists m. split; [|done]. apply Hcov in Hc. destruct (ocpuset (t_obj root)) as [c|]; [|done].
    by rewrite Hc, Hm.
Qed.

Lemma largest_unfold (topo : topology B) fuel a set max : 0 < max ->
  largest_objs_inside topo (S fuel) a set max =
    let! o := obj_at topo a in
    let! c := ocpuset o in
    if b_isequal c set then Some ([a], max - 1) else
    let! k := links_at topo a in
    largest_in_children topo (largest_objs_inside topo fuel) set (children k) max.
Proof. intros Hm. cbn [largest_objs_inside]. by destruct (Z.leb_spec max 0); [lia|]. Qed.

(** C31. When every object has CPUs, [hwloc_get_largest_objs_inside_cpuset] gives
    the first [max] of the topmost objects whose cpuset is included in the set, in
    the order of the tree, although it cuts the set along the way; it gives -1 for
    a set that the root does not cover. When it reaches an object without cpuset,
    an I/O child for instance, the code dereferences a NULL cpuset. *)
Theorem largest_objs_are_maximal (topo : topology B) root (set : B) max :
  hierarchy topo root -> distinct (tree_objs root) -> bfin set = true ->
  (cpus_nested root -> populated root ->
   (~ bsub set (cs (t_obj root)) -> hwloc_get_largest_objs_inside_cpuset topo set max = Some None) /\
   (bsub set (cs (t_obj root)) -> hwloc_get_largest_objs_inside_cpuset topo set max =
      Some (Some (map t_addr (take (Z.to_nat max) (maximal_inside set root)))))) /\
  (forall c ch, t_children root = c :: ch -> ocpuset (t_obj c) = None -> covers set root ->
     ~ beq (cs (t_obj root)) set -> 0 < max -> hwloc_get_largest_objs_inside_cpuset topo set max = None).
Proof.
  intros Hh Hd Hf. unfold hwloc_get_largest_objs_inside_cpuset. rewrite (h_root _ _ Hh). cbn [mbind option_bind].
  assert (Hr := Connected.root_node root). rewrite (node_obj_at topo root Hh) by done. cbn [mbind option_bind].
  split.
  - intros Hw Hp. destruct (populated_head root Hp) as (s & Hs & Hfs & Hne & Hcs). rewrite Hs, Hcs.
    rewrite <- (b_isincluded_spec set s Hf). split; [by intros ->%not_true_iff_false|]. intros Hi. rewrite Hi. cbn [negb].
    destruct (Z.leb_spec max 0); [by rewrite Z2Nat.nonpos by lia|].
    rewrite (largest_ok topo root Hh set) with (n := root); try done.
    + pose proof (tree_fuel topo root Hh Hd). lia.
    + intros i Hi0. rewrite Hcs. apply (b_isincluded_spec set s Hf) in Hi. specialize (Hi i Hi0).
      destruct (bm set i); [by rewrite Hi|done].
  - intros c ch Hch Hnone (s & Hs & Hsub) Hneq Hmax. rewrite Hs.
    rewrite (proj2 (b_isincluded_spec set s Hf) Hsub). cbn [negb].
    destruct (Z.leb_spec max 0); [lia|]. unfold cs in Hneq. rewrite Hs in Hneq. cbn [default] in Hneq.
    assert (Heq : b_isequal s set = false) by (apply not_true_iff_false; by rewrite b_isequal_spec).
    pose proof (tree_fuel topo root Hh Hd). pose proof (node_size root c) as Hsz. rewrite Hch in Hsz.
    specialize (Hsz ltac:(by left)). pose proof (tree_size_pos c).
    assert (Hcn : c ∈ tree_nodes root) by (eapply children_nodes; [done|rewrite Hch; by left]).
    destruct (node_links topo root Hh root Hr) as (k & Hk & Hc & _).
    destruct (walk_fuel topo) as [|fuel]; [lia|]. rewrite largest_unfold, (node_obj_at topo root Hh) by done.
    cbn [mbind option_bind]. rewrite Hs. cbn [mbind option_bind]. rewrite Heq, Hk. cbn [mbind option_bind].
    rewrite Hc, Hch. cbn [map largest_in_children].
    rewrite (node_obj_at topo root Hh) by done. cbn [mbind option_bind]. rewrite Hnone.
    destruct fuel as [|fuel]; [lia|]. rewrite largest_unfold, (node_obj_at topo root Hh) by done.
    cbn [mbind option_bind]. by rewrite Hnone.
Qed.

(** C28. When every object has CPUs and [n + 1] times the weight of the root fits in
    32 bits, [hwloc_distribute] terminates and fills exactly its [n] slots with cpusets
    of objects below the root, whatever the depth given. Below a root whose children
    have no cpuset it fills none of several slots. *)
Theorem distribute_fills (topo : topology B) root t n until :
  hierarchy topo root -> distinct (tree_objs root) -> t ∈ tree_nodes root ->
  (cpus_nested t -> populated t -> 0 <= n -> (n + 1) * b_weight (cs (t_obj t)) < 2 ^ 32 ->
   exists l, hwloc_distribute topo (walk_fuel topo) (t_addr t) n until = Some l /\ filled t n l) /\
  (t_children t <> [] -> Forall (fun c => ocpuset (t_obj c) = None) (t_children t) -> 1 < n ->
   depth (links (tlinks topo) (t_addr t)) < until ->
   hwloc_distribute topo (walk_fuel topo) (t_addr t) n until = Some []).
Proof.
  intros Hh Hd Ht. pose proof (tree_fuel topo root Hh Hd) as Hfuel. split.
  - intros Hw Hp Hn Hmax. apply (distribute_ok topo root Hh); try done.
    rewrite <- objs_size in *. pose proof (sublist_length _ _ (node_objs t root Ht)). lia.
  - intros Hne Hnone Hn Hdepth. unfold walk_fuel. cbn [hwloc_distribute].
    destruct (node_links topo root Hh t Ht) as (k & Hk & Hch & Har). rewrite Hk. cbn [mbind option_bind].
    assert (Hkk : depth k < until).
    { unfold links_at in Hk. destruct (bool_decide _); [|done]. by injection Hk as <-. }
    rewrite (node_obj_at topo root Hh) by done. cbn [mbind option_bind]. rewrite Har, Hch.
    destruct (Z.eqb_spec (Z.of_nat (length (t_children t))) 0); [by destruct (t_children t)|].
    destruct (Z.eqb_spec n 1); [lia|]. destruct (Z.leb_spec until (depth k)); [lia|]. cbn [orb].
    assert (Htot : total_weight topo (map t_addr (t_children t)) 0 = Some 0).
    { assert (Hin : forall c, c ∈ t_children t -> c ∈ tree_nodes root) by (intros; by eapply children_nodes).
      clear -Hnone Hin Hh. induction Hnone as [|c ch Hc _ IH]; [done|]. cbn [map total_weight].
      unfold root_weight. rewrite (node_obj_at topo root Hh) by (apply Hin; by left). cbn [mbind option_bind].
      rewrite Hc. apply IH. intros d Hd. apply Hin. by right. }
    rewrite Htot. cbn [mbind option_bind]. by destruct (t_children t).
Qed.

End Descents.

(** ** Witnesses *)

Definition sample_load (root : obj_tree wbitmap) : option (topology wbitmap) :=
  topology_of root <$> hwloc_connect_levels root (hwloc_connect_children root ∅).

Lemma sample_load_some root topo : sample_load root = Some topo ->
  exists tl, topo = topology_of root tl /\ hwloc_connect_levels root (hwloc_connect_children root ∅) = Some tl.
Proof.
  unfold sample_load. destruct (hwloc_connect_levels _ _) as [tl|]; [|done]. intros [= <-]. by exists tl.
Qed.

(** A machine with two NUMA nodes of two cores. *)
Definition numa_core (addr cpu : Z) : obj_tree wbitmap :=
  Node (sample_obj addr HWLOC_OBJ_CORE cpu (Some (cset [cpu]))) [].
Definition numa_node (addr idx : Z) (cpus : list Z) (ch : list (obj_tree wbitmap)) : obj_tree wbitmap :=
  Node (sample_obj addr HWLOC_OBJ_NODE idx (Some (cset cpus))) ch.
Definition sample_numa : obj_tree wbitmap :=
  Node (sample_obj 1 HWLOC_OBJ_MACHINE 0 (Some (cset [0; 1; 2; 3])))
    [numa_node 2 0 [0; 1] [numa_core 4 0; numa_core 5 1];
     numa_node 3 1 [2; 3] [numa_core 6 2; numa_core 7 3]].

(** A machine whose only child is a bridge. *)
Definition sample_bridge : obj_tree wbitmap :=
  Node (sample_obj 1 HWLOC_OBJ_MACHINE 0 (Some (cset [0; 1])))
    [Node (sample_obj 2 HWLOC_OBJ_BRIDGE 0 None) []].

Lemma sample_numa_distinct : distinct (tree_objs sample_numa).
Proof. apply (bool_decide_unpack _). by_eval. Qed.

Lemma sample_bridge_distinct : distinct (tree_objs sample_bridge).
Proof. apply (bool_decide_unpack _). by_eval. Qed.

Definition populated_b (o : hwloc_obj wbitmap) : bool :=
  match ocpuset o with Some c => bfin c && negb (b_iszero c) | None => false end.

Lemma populated_sample (os : list (hwloc_obj wbitmap)) : forallb populated_b os = true ->
  Forall (fun o => exists s, ocpuset o = Some s /\ bfin s = true /\ ~ bempty s) os.
Proof.
  rewrite forallb_forall. intros Hb. apply Forall_forall. intros o Ho. specialize (Hb o (proj1 (list_elem_of_In _ _) Ho)).
  unfold populated_b in Hb. destruct (ocpuset o) as [c|]; [|done]. apply andb_true_iff in Hb as [Hf Hz].
  exists c. split_and!; [done|done|]. rewrite <- b_iszero_spec. by apply negb_true_iff, not_true_iff_false in Hz.
Qed.

Fixpoint disjoint_b (l : list wbitmap) : bool :=
  match l with [] => true | s :: l => forallb (fun x => negb (b_intersects s x)) l && disjoint_b l end.

Fixpoint nested_b (t : obj_tree wbitmap) : bool :=
  let 'Node o ch := t in
  forallb (fun c => populated_b (t_obj c) && b_isincluded (cs (t_obj c)) (cs o)) ch &&
  forallb nested_b ch && disjoint_b (map (fun c => cs (t_obj c)) ch).

Lemma nested_sample t : nested_b t = true -> cpus_nested t.
Proof.
  induction t as [o ch IH] using obj_tree_ind'. cbn [nested_b].
  rewrite !andb_true_iff, !forallb_forall. intros [[Hc Hn] Hd]. rewrite Forall_forall in IH.
  assert (Hfin : forall c, c ∈ ch -> exists s, ocpuset (t_obj c) = Some s /\ bfin s = true /\ cs (t_obj c) = s).
  { intros c Hin. specialize (Hc c (proj1 (list_elem_of_In _ _) Hin)). apply andb_true_iff in Hc as [Hp _].
    unfold populated_b in Hp. unfold cs. destruct (ocpuset (t_obj c)) as [s|]; [|done].
    apply andb_true_iff in Hp as [Hf _]. by exists s. }
  constructor.
  - apply Forall_forall. intros c Hin. right. destruct (Hfin c Hin) as (s & Hs & Hf & Hcs).
    apply list_elem_of_In in Hin as Hin'. specialize (Hc c Hin'). apply andb_true_iff in Hc as [_ Hi].
    exists s. split_and!; [done|done|rewrite Hcs in Hi; by apply b_isincluded_spec in Hi|by apply IH, Hn].
  - clear -Hd Hfin. induction ch as [|c ch IH]; [constructor|]. cbn [map disjoint_b] in Hd.
    apply andb_true_iff in Hd as [Hd Hr]. constructor; [|apply IH; [done|intros d Hd'; apply Hfin; by right]].
    apply Forall_forall. intros d Hin. rewrite forallb_forall in Hd.
    specialize (Hd (cs (t_obj d))). destruct (Hfin c) as (s & _ & Hf & Hs); [by left|].
    apply b_intersects_spec; [left; by rewrite Hs|]. apply negb_true_iff, Hd. apply (in_map (fun c => cs (t_obj c))). by apply list_elem_of_In.
Qed.

Lemma sample_numa_nested : cpus_nested sample_numa.
Proof. apply nested_sample. by_eval. Qed.

Lemma sample_numa_populated : populated sample_numa.
Proof. apply populated_sample. by_eval. Qed.

Definition sample_facts (topo : topology wbitmap) : Prop :=
  hwloc_get_type_depth topo HWLOC_OBJ_NODE = 1 /\
  forallb (fun o => populated_b o && (0 <=? os_index o) && (os_index o <? CPU_MAX)) (level_objs topo 1) = true /\
  level_of topo 1 = [2; 3] /\
  on_cpuset topo (fun c => b_isincluded c (cset [2; 3; 4])) 2 = false /\
  on_cpuset topo (fun c => b_isincluded c (cset [2; 3; 4])) 3 = true.

Lemma sample_numa_facts : match sample_load sample_numa with Some topo => sample_facts topo | None => False end.
Proof. vm_compute. repeat split. Qed.

Lemma loaded_topology_consultable_witness :
  match sample_load sample_numa with
  | Some topo => consultable topo /\ hierarchy topo sample_numa
  | None => False
  end.
Proof.
  assert (Hs := sample_numa_facts). destruct (sample_load sample_numa) as [topo|] eqn:Hl; [|exact Hs]. clear Hs.
  destruct (sample_load_some _ _ Hl) as (tl & -> & Htl).
  destruct (loaded_topology_consultable sample_numa tl eq_refl sample_numa_distinct Htl) as (Hc & Hh & _).
  exact (conj Hc Hh).
Defined.

(** The loaded sample, as the other witnesses use it. *)
Lemma sample_numa_load : match sample_load sample_numa with
  | Some topo => consultable topo /\ hierarchy topo sample_numa /\ sample_facts topo
  | None => False
  end.
Proof.
  assert (Hs := sample_numa_facts). destruct (sample_load sample_numa) as [topo|] eqn:Hl; [|exact Hs].
  destruct (sample_load_some _ _ Hl) as (tl & -> & Htl).
  destruct (load_ok sample_numa tl eq_refl sample_numa_distinct Htl) as (_ & Hc & Hh).
  exact (conj Hc (conj Hh Hs)).
Qed.

Lemma inside_cpuset_queries_witness :
  match sample_load sample_numa with
  | Some topo =>
      hwloc_get_nbobjs_inside_cpuset_by_depth topo (cset [2; 3; 4]) 1 = Some 1 /\
      hwloc_get_obj_inside_cpuset_by_depth topo (cset [2; 3; 4]) 1 0 = Some (Some 3) /\
      hwloc_get_obj_index_inside_cpuset topo (cset [2; 3; 4]) 3 = Some 0
  | None => False
  end.
Proof.
  assert (Hs := sample_numa_load). destruct (sample_load sample_numa) as [topo|]; [|exact Hs].
  destruct Hs as (Hc & _ & _ & Hn & Hl & Ht2 & Ht3).
  assert (Hcs : has_cpusets topo 1).
  { intros a o Ha Ho. rewrite forallb_forall in Hn. specialize (Hn o). unfold populated_b in Hn.
    destruct (ocpuset o) as [c|]; [by exists c|]. discriminate Hn.
    apply list_elem_of_In, level_objs_in. by exists a. }
  destruct (inside_cpuset_queries topo (cset [2; 3; 4]) 1 Hc ltac:(done) Hcs) as (H1 & H2 & H3 & _); [by rewrite Hl|].
  assert (Hp : passing topo 1 (on_cpuset topo (fun c => b_isincluded c (cset [2; 3; 4]))) = [3]).
  { unfold passing. rewrite Hl, !filter_cons, Ht2, Ht3. done. }
  rewrite Hp in *. split_and!; [exact H1|exact (H2 0 ltac:(done))|exact (H3 0%nat 3 eq_refl)].
Defined.

Lemma nodeset_conversions_witness :
  match sample_load sample_numa with
  | Some topo => exists n, hwloc_cpuset_to_nodeset topo (cset [1]) = Some n
  | None => False
  end.
Proof.
  assert (Hs := sample_numa_load). destruct (sample_load sample_numa) as [topo|]; [|exact Hs].
  destruct Hs as (Hc & _ & Ht & Hn & _).
  rewrite forallb_forall in Hn.
  assert (Hnode : node_level topo 1).
  { constructor; intros o Ho%list_elem_of_In; specialize (Hn o Ho); rewrite !andb_true_iff in Hn.
    - destruct Hn as [[Hp _] _]. unfold populated_b in Hp. destruct (ocpuset o) as [c|]; [|done].
      apply andb_true_iff in Hp as [Hf _]. by exists c.
    - lia. }
  destruct (nodeset_conversions topo (cset [1]) (cset [1]) 1 Hc Ht ltac:(done) Hnode) as (n & s & Hto & _).
  by exists n.
Defined.

Lemma covering_object_lowest_witness :
  match sample_load sample_numa with
  | Some topo => hwloc_get_obj_covering_cpuset topo b_alloc = Some None
  | None => False
  end.
Proof.
  assert (Hs := sample_numa_load). destruct (sample_load sample_numa) as [topo|]; [|exact Hs].
  destruct Hs as (_ & Hh & _).
  assert (Hf : bfin (b_alloc (B := wbitmap)) = true) by by_eval.
  exact (proj1 (covering_object_lowest topo sample_numa b_alloc Hh sample_numa_distinct sample_numa_nested Hf)
    (or_introl bm_alloc)).
Defined.

Lemma largest_objs_are_maximal_witness :
  match sample_load sample_numa with
  | Some topo => hwloc_get_largest_objs_inside_cpuset topo (cset [1; 2; 3]) 2 =
      Some (Some [5; 3])
  | None => False
  end.
Proof.
  assert (Hs := sample_numa_load). destruct (sample_load sample_numa) as [topo|]; [|exact Hs].
  destruct Hs as (_ & Hh & _).
  assert (Hf : bfin (cset [1; 2; 3]) = true) by by_eval.
  assert (Hsub : bsub (cset [1; 2; 3]) (cs (t_obj sample_numa))) by (apply sub_sample; by_eval).
  rewrite (proj2 (proj1 (largest_objs_are_maximal topo sample_numa (cset [1; 2; 3]) 2 Hh sample_numa_distinct Hf)
    sample_numa_nested sample_numa_populated) Hsub).
  by_eval.
Defined.

Lemma distribute_fills_witness :
  match sample_load sample_numa with
  | Some topo => exists l, hwloc_distribute topo (walk_fuel topo) 1 3 128
      = Some l /\ filled sample_numa 3 l
  | None => False
  end.
Proof.
  assert (Hs := sample_numa_load). destruct (sample_load sample_numa) as [topo|]; [|exact Hs].
  destruct Hs as (_ & Hh & _).
  assert (Hw : (3 + 1) * b_weight (cs (t_obj sample_numa)) < 2 ^ 32) by by_eval.
  exact (proj1 (distribute_fills topo sample_numa sample_numa 3 128 Hh sample_numa_distinct
    (Connected.root_node sample_numa)) sample_numa_nested sample_numa_populated ltac:(done) Hw).
Defined.
