(* ===== verification/Bind.v ===== *)
(** * Bind: binding processes and memory ([src/bind.c])

    The calls check and complete the sets they are given, then go through the
    hooks that [hwloc_topology_setup_defaults] clears and the end of
    [hwloc_discover] installs: those of the operating system, or the dummy ones of
    [src/topology.c] when the topology is not that of this system.  A call runs in
    a state with [errno], the blocks of memory that are live and the rest of the
    system; the hooks of the operating systems are not modelled, they are
    functions of the same type.  The configuration is that of Linux
    ([posix_memalign], [MAP_ANONYMOUS], [hwloc_thread_t]).  Failures of the
    allocations of bitmaps are not modelled. *)

From stdpp Require Import gmap.
From S2P Require Import Prelude Cpuset Obj Traversal.

(** ** The state *)

Definition EINVAL : Z := 22.
Definition ENODEV : Z := 19.
Definition EXDEV : Z := 18.
Definition ENOSYS : Z := 38.
Definition ENOMEM : Z := 12.

Inductive block_kind := Heap | Mapped (len : Z).

#[export] Instance block_kind_eq_dec : EqDecision block_kind.
Proof. solve_decision. Defined.

Record world (OS : Type) := mk_world {
  errno : Z;
  blocks : gmap Z block_kind;
  system : OS;
}.
Arguments mk_world {OS}.
Arguments errno {OS}.
Arguments blocks {OS}.
Arguments system {OS}.

(** A computation on the state; [None] is undefined behaviour. *)
Definition M (OS A : Type) : Type := world OS -> option (A * world OS).

Definition mret {OS A} (x : A) : M OS A := fun w => Some (x, w).
Definition mthen {OS A C} (m : M OS A) (f : A -> M OS C) : M OS C := fun w => let! (x, w) := m w in f x w.
Definition mfail {OS A} : M OS A := fun _ => None.
Definition mget {OS A} (x : option A) : M OS A := fun w => let! x := x in Some (x, w).

Notation "'do!' x ':=' m 'in' k" := (mthen m (fun x => k))
  (at level 10, x pattern, m at level 100, k at level 200,
   format "'[v' 'do!'  x  ':='  m  'in' '/' k ']'") : hwloc_scope.

Definition set_errno {OS} (e : Z) : M OS unit := fun w => Some (tt, mk_world e (blocks w) (system w)).
Definition get_errno {OS} : M OS Z := fun w => Some (errno w, w).
Definition set_blocks {OS} (b : gmap Z block_kind) : M OS unit := fun w => Some (tt, mk_world (errno w) b (system w)).
Definition get_blocks {OS} : M OS (gmap Z block_kind) := fun w => Some (blocks w, w).

(** The pointers NULL and [MAP_FAILED]. *)
Definition NULL : Z := 0.
Definition MAP_FAILED : Z := 2 ^ 64 - 1.

(** Where the C library puts a new block, [None] if it cannot. *)
Class Libc (OS : Type) := place : world OS -> Z -> option Z.

(** ** The C library *)

Section Libc.
Context {OS : Type} `{Libc OS}.

(** The error number and the pointer. *)
Definition posix_memalign (len : Z) : M OS (Z * Z) := fun w =>
  match place w len with
  | Some p => (do! _ := set_blocks (<[p := Heap]> (blocks w)) in mret (0, p)) w
  | None => mret (ENOMEM, NULL) w
  end.

Definition malloc (len : Z) : M OS Z :=
  do! (e, p) := posix_memalign len in
  if e =? 0 then mret p else do! _ := set_errno ENOMEM in mret NULL.

Definition free (p : Z) : M OS unit :=
  if p =? NULL then mret tt else
  do! b := get_blocks in
  match b !! p with
  | Some Heap => set_blocks (delete p b)
  | _ => mfail
  end.

Definition mmap (len : Z) : M OS Z := fun w =>
  if len =? 0 then (do! _ := set_errno EINVAL in mret MAP_FAILED) w else
  match place w len with
  | Some p => (do! _ := set_blocks (<[p := Mapped len]> (blocks w)) in mret p) w
  | None => (do! _ := set_errno ENOMEM in mret MAP_FAILED) w
  end.

(** Unmapping anything but a whole mapping is not modelled. *)
Definition munmap (p len : Z) : M OS Z :=
  if p =? MAP_FAILED then do! _ := set_errno EINVAL in mret (-1) else
  do! b := get_blocks in
  match b !! p with
  | Some (Mapped len') => if len =? len' then do! _ := set_blocks (delete p b) in mret 0 else mfail
  | _ => mfail
  end.

(** [memset(p, 0, len)] on a whole block. *)
Definition touch (p : Z) : M OS unit :=
  do! b := get_blocks in if bool_decide (is_Some (b !! p)) then mret tt else mfail.

End Libc.

(** ** Flags and hooks *)

Definition HWLOC_CPUBIND_PROCESS : Z := 1.
Definition HWLOC_CPUBIND_THREAD : Z := 2.
Definition HWLOC_MEMBIND_PROCESS : Z := 1.
Definition HWLOC_MEMBIND_THREAD : Z := 2.
Definition HWLOC_MEMBIND_STRICT : Z := 4.
Definition HWLOC_MEMBIND_MIGRATE : Z := 8.

Inductive hwloc_membind_policy_t :=
  | HWLOC_MEMBIND_DEFAULT | HWLOC_MEMBIND_FIRSTTOUCH | HWLOC_MEMBIND_BIND | HWLOC_MEMBIND_INTERLEAVE
  | HWLOC_MEMBIND_REPLICATE | HWLOC_MEMBIND_NEXTTOUCH | HWLOC_MEMBIND_MIXED.

#[export] Instance membind_policy_eq_dec : EqDecision hwloc_membind_policy_t.
Proof. solve_decision. Defined.

(** [flags & f] for one bit. *)
Definition has_flag (flags f : Z) : bool := negb (Z.land flags f =? 0).

Section Hooks.
Context (OS B : Type).

(** A getter takes the content of its output arguments and gives it back, changed or not. *)
Definition cpu_setter : Type := B -> Z -> M OS Z.
Definition cpu_getter : Type := B -> Z -> M OS (Z * B).
Definition mem_setter : Type := B -> hwloc_membind_policy_t -> Z -> M OS Z.
Definition mem_getter : Type := B -> hwloc_membind_policy_t -> Z -> M OS (Z * B * hwloc_membind_policy_t).

(** [None] is a NULL function pointer. *)
Record hooks := mk_hooks {
  set_thisproc_cpubind : option cpu_setter;
  get_thisproc_cpubind : option cpu_getter;
  set_thisthread_cpubind : option cpu_setter;
  get_thisthread_cpubind : option cpu_getter;
  set_proc_cpubind : option (Z -> cpu_setter);
  get_proc_cpubind : option (Z -> cpu_getter);
  set_thread_cpubind : option (Z -> cpu_setter);
  get_thread_cpubind : option (Z -> cpu_getter);
  get_thisproc_last_cpu_location : option cpu_getter;
  get_thisthread_last_cpu_location : option cpu_getter;
  get_proc_last_cpu_location : option (Z -> cpu_getter);
  set_thisproc_membind : option mem_setter;
  get_thisproc_membind : option mem_getter;
  set_thisthread_membind : option mem_setter;
  get_thisthread_membind : option mem_getter;
  set_proc_membind : option (Z -> mem_setter);
  get_proc_membind : option (Z -> mem_getter);
  set_area_membind : option (Z -> Z -> mem_setter);
  get_area_membind : option (Z -> Z -> mem_getter);
  alloc : option (Z -> M OS Z);
  alloc_membind : option (Z -> B -> hwloc_membind_policy_t -> Z -> M OS Z);
  free_membind : option (Z -> Z -> M OS Z);
}.

(** What [hwloc_topology_setup_defaults] leaves from the hooks [h] of a former
    load: the three last-location hooks are not cleared. *)
Definition reset_hooks (h : hooks) : hooks :=
  mk_hooks None None None None None None None None
    (get_thisproc_last_cpu_location h) (get_thisthread_last_cpu_location h) (get_proc_last_cpu_location h)
    None None None None None None None None None None None.

End Hooks.

Arguments mk_hooks {OS B}.
Arguments reset_hooks {OS B}.
Arguments set_thisproc_cpubind {OS B}.
Arguments get_thisproc_cpubind {OS B}.
Arguments set_thisthread_cpubind {OS B}.
Arguments get_thisthread_cpubind {OS B}.
Arguments set_proc_cpubind {OS B}.
Arguments get_proc_cpubind {OS B}.
Arguments set_thread_cpubind {OS B}.
Arguments get_thread_cpubind {OS B}.
Arguments get_thisproc_last_cpu_location {OS B}.
Arguments get_thisthread_last_cpu_location {OS B}.
Arguments get_proc_last_cpu_location {OS B}.
Arguments set_thisproc_membind {OS B}.
Arguments get_thisproc_membind {OS B}.
Arguments set_thisthread_membind {OS B}.
Arguments get_thisthread_membind {OS B}.
Arguments set_proc_membind {OS B}.
Arguments get_proc_membind {OS B}.
Arguments set_area_membind {OS B}.
Arguments get_area_membind {OS B}.
Arguments alloc {OS B}.
Arguments alloc_membind {OS B}.
Arguments free_membind {OS B}.

Section Bind.
Context {OS B : Type} `{Libc OS} `{CpusetOps B}.
Context (topo : topology B) (h : hooks OS B).

(** [errno = e; return r] *)
Definition error {A} (e : Z) (r : A) : M OS A := do! _ := set_errno e in mret r.

(** ** CPU binding *)

(** The inner [None] is a NULL pointer; reading a NULL complete set is undefined. *)
Definition hwloc_fix_cpubind (set : B) : M OS (option B) :=
  do! topology_set := mget (hwloc_topology_get_topology_cpuset topo) in
  do! complete_set := mget (hwloc_topology_get_complete_cpuset topo) in
  match topology_set with
  | None => error EXDEV None
  | Some topology_set =>
      if b_iszero set then error EINVAL None else
      do! complete_set := mget complete_set in
      if negb (b_isincluded set complete_set) then error EINVAL None
      else if b_isincluded topology_set set then mret (Some complete_set)
      else mret (Some set)
  end.

(** The hook that the flags [PROCESS] and [THREAD] select. *)
Definition by_flags {H} (flags process thread : Z) (proc thr : option H) : option H :=
  if has_flag flags process then proc
  else if has_flag flags thread then thr
  else match proc with Some f => Some f | None => thr end.

(** Runs a hook; without one, [ENOSYS] and the given result. *)
Definition call_hook {H A} (hook : option H) (k : H -> M OS A) (r : A) : M OS A :=
  match hook with Some f => k f | None => error ENOSYS r end.

Definition hwloc_set_cpubind (set : B) (flags : Z) : M OS Z :=
  do! set := hwloc_fix_cpubind set in
  match set with
  | None => mret (-1)
  | Some set =>
      call_hook (by_flags flags HWLOC_CPUBIND_PROCESS HWLOC_CPUBIND_THREAD
                   (set_thisproc_cpubind h) (set_thisthread_cpubind h))
        (fun f => f set flags) (-1)
  end.

Definition hwloc_get_cpubind (set : B) (flags : Z) : M OS (Z * B) :=
  call_hook (by_flags flags HWLOC_CPUBIND_PROCESS HWLOC_CPUBIND_THREAD
               (get_thisproc_cpubind h) (get_thisthread_cpubind h))
    (fun f => f set flags) (-1, set).

Definition hwloc_set_proc_cpubind (pid : Z) (set : B) (flags : Z) : M OS Z :=
  do! set := hwloc_fix_cpubind set in
  match set with
  | None => mret (-1)
  | Some set => call_hook (set_proc_cpubind h) (fun f => f pid set flags) (-1)
  end.

Definition hwloc_get_proc_cpubind (pid : Z) (set : B) (flags : Z) : M OS (Z * B) :=
  call_hook (get_proc_cpubind h) (fun f => f pid set flags) (-1, set).

Definition hwloc_set_thread_cpubind (tid : Z) (set : B) (flags : Z) : M OS Z :=
  do! set := hwloc_fix_cpubind set in
  match set with
  | None => mret (-1)
  | Some set => call_hook (set_thread_cpubind h) (fun f => f tid set flags) (-1)
  end.

Definition hwloc_get_thread_cpubind (tid : Z) (set : B) (flags : Z) : M OS (Z * B) :=
  call_hook (get_thread_cpubind h) (fun f => f tid set flags) (-1, set).

Definition hwloc_get_last_cpu_location (set : B) (flags : Z) : M OS (Z * B) :=
  call_hook (by_flags flags HWLOC_CPUBIND_PROCESS HWLOC_CPUBIND_THREAD
               (get_thisproc_last_cpu_location h) (get_thisthread_last_cpu_location h))
    (fun f => f set flags) (-1, set).

Definition hwloc_get_proc_last_cpu_location (pid : Z) (set : B) (flags : Z) : M OS (Z * B) :=
  call_hook (get_proc_last_cpu_location h) (fun f => f pid set flags) (-1, set).

(** ** Memory binding *)

Definition hwloc_fix_membind (nodeset : B) : M OS (option B) :=
  do! topology_nodeset := mget (hwloc_topology_get_topology_nodeset topo) in
  do! complete_nodeset := mget (hwloc_topology_get_complete_nodeset topo) in
  do! topology_cpuset := mget (hwloc_topology_get_topology_cpuset topo) in
  match topology_cpuset with
  | None => error EXDEV None
  | Some _ =>
      match complete_nodeset with
      | None => error ENODEV None
      | Some complete_nodeset =>
          if b_iszero nodeset then error EINVAL None else
          if negb (b_isincluded nodeset complete_nodeset) then error EINVAL None else
          do! topology_nodeset := mget topology_nodeset in
          if b_isincluded topology_nodeset nodeset then mret (Some complete_nodeset)
          else mret (Some nodeset)
      end
  end.

(** The return value and the nodeset written. *)
Definition hwloc_fix_membind_cpuset (nodeset cpuset : B) : M OS (Z * B) :=
  do! topology_set := mget (hwloc_topology_get_topology_cpuset topo) in
  do! complete_set := mget (hwloc_topology_get_complete_cpuset topo) in
  do! complete_nodeset := mget (hwloc_topology_get_complete_nodeset topo) in
  match topology_set with
  | None => error EXDEV (-1, nodeset)
  | Some topology_set =>
      match complete_nodeset with
      | None => error ENODEV (-1, nodeset)
      | Some complete_nodeset =>
          if b_iszero cpuset then error EINVAL (-1, nodeset) else
          do! complete_set := mget complete_set in
          if negb (b_isincluded cpuset complete_set) then error EINVAL (-1, nodeset)
          else if b_isincluded topology_set cpuset then mret (0, complete_nodeset)
          else do! nodeset := mget (hwloc_cpuset_to_nodeset topo cpuset) in mret (0, nodeset)
      end
  end.

Definition hwloc_set_membind_nodeset (nodeset : B) (policy : hwloc_membind_policy_t) (flags : Z) : M OS Z :=
  do! nodeset := hwloc_fix_membind nodeset in
  match nodeset with
  | None => mret (-1)
  | Some nodeset =>
      call_hook (by_flags flags HWLOC_MEMBIND_PROCESS HWLOC_MEMBIND_THREAD
                   (set_thisproc_membind h) (set_thisthread_membind h))
        (fun f => f nodeset policy flags) (-1)
  end.

(** The calls on cpusets convert theirs and go on with the call on nodesets. *)
Definition with_nodeset (cpuset : B) (k : B -> M OS Z) : M OS Z :=
  do! (e, nodeset) := hwloc_fix_membind_cpuset b_alloc cpuset in
  if negb (e =? 0) then mret (-1) else k nodeset.

Definition hwloc_set_membind (set : B) (policy : hwloc_membind_policy_t) (flags : Z) : M OS Z :=
  with_nodeset set (fun nodeset => hwloc_set_membind_nodeset nodeset policy flags).

Definition hwloc_get_membind_nodeset (nodeset : B) (policy : hwloc_membind_policy_t) (flags : Z)
  : M OS (Z * B * hwloc_membind_policy_t) :=
  call_hook (by_flags flags HWLOC_MEMBIND_PROCESS HWLOC_MEMBIND_THREAD
               (get_thisproc_membind h) (get_thisthread_membind h))
    (fun f => f nodeset policy flags) (-1, nodeset, policy).

(** Converts the nodeset back if the call succeeded. *)
Definition back_to_cpuset (set : B) (m : M OS (Z * B * hwloc_membind_policy_t))
  : M OS (Z * B * hwloc_membind_policy_t) :=
  do! (ret, nodeset, policy) := m in
  if ret =? 0 then do! set := mget (hwloc_cpuset_from_nodeset topo nodeset) in mret (ret, set, policy)
  else mret (ret, set, policy).

Definition hwloc_get_membind (set : B) (policy : hwloc_membind_policy_t) (flags : Z)
  : M OS (Z * B * hwloc_membind_policy_t) :=
  back_to_cpuset set (hwloc_get_membind_nodeset b_alloc policy flags).

Definition hwloc_set_proc_membind_nodeset (pid : Z) (nodeset : B) (policy : hwloc_membind_policy_t) (flags : Z)
  : M OS Z :=
  do! nodeset := hwloc_fix_membind nodeset in
  match nodeset with
  | None => mret (-1)
  | Some nodeset => call_hook (set_proc_membind h) (fun f => f pid nodeset policy flags) (-1)
  end.

Definition hwloc_set_proc_membind (pid : Z) (set : B) (policy : hwloc_membind_policy_t) (flags : Z) : M OS Z :=
  with_nodeset set (fun nodeset => hwloc_set_proc_membind_nodeset pid nodeset policy flags).

Definition hwloc_get_proc_membind_nodeset (pid : Z) (nodeset : B) (policy : hwloc_membind_policy_t) (flags : Z)
  : M OS (Z * B * hwloc_membind_policy_t) :=
  call_hook (get_proc_membind h) (fun f => f pid nodeset policy flags) (-1, nodeset, policy).

Definition hwloc_get_proc_membind (pid : Z) (set : B) (policy : hwloc_membind_policy_t) (flags : Z)
  : M OS (Z * B * hwloc_membind_policy_t) :=
  back_to_cpuset set (hwloc_get_proc_membind_nodeset pid b_alloc policy flags).

Definition hwloc_set_area_membind_nodeset (addr len : Z) (nodeset : B) (policy : hwloc_membind_policy_t) (flags : Z)
  : M OS Z :=
  do! nodeset := hwloc_fix_membind nodeset in
  match nodeset with
  | None => mret (-1)
  | Some nodeset => call_hook (set_area_membind h) (fun f => f addr len nodeset policy flags) (-1)
  end.

Definition hwloc_set_area_membind (addr len : Z) (set : B) (policy : hwloc_membind_policy_t) (flags : Z) : M OS Z :=
  with_nodeset set (fun nodeset => hwloc_set_area_membind_nodeset addr len nodeset policy flags).

Definition hwloc_get_area_membind_nodeset (addr len : Z) (nodeset : B) (policy : hwloc_membind_policy_t) (flags : Z)
  : M OS (Z * B * hwloc_membind_policy_t) :=
  call_hook (get_area_membind h) (fun f => f addr len nodeset policy flags) (-1, nodeset, policy).

Definition hwloc_get_area_membind (addr len : Z) (set : B) (policy : hwloc_membind_policy_t) (flags : Z)
  : M OS (Z * B * hwloc_membind_policy_t) :=
  back_to_cpuset set (hwloc_get_area_membind_nodeset addr len b_alloc policy flags).

(** ** Allocation *)

Definition hwloc_alloc_heap (len : Z) : M OS Z :=
  do! (e, p) := posix_memalign len in
  do! _ := set_errno e in
  mret (if e =? 0 then p else NULL).

Definition hwloc_alloc_mmap (len : Z) : M OS Z := mmap len.

Definition hwloc_free_heap (addr len : Z) : M OS Z := do! _ := free addr in mret 0.

Definition hwloc_free_mmap (addr len : Z) : M OS Z :=
  if addr =? NULL then mret 0 else munmap addr len.

Definition hwloc_alloc (len : Z) : M OS Z :=
  match alloc h with Some f => f len | None => hwloc_alloc_heap len end.

Definition hwloc_alloc_or_fail (len flags : Z) : M OS Z :=
  if has_flag flags HWLOC_MEMBIND_STRICT then mret NULL else hwloc_alloc len.

(** The label [fallback]. *)
Definition alloc_fallback (len flags : Z) : M OS Z :=
  if has_flag flags HWLOC_MEMBIND_STRICT then mret NULL else hwloc_alloc len.

Definition hwloc_alloc_membind_nodeset (len : Z) (nodeset : B) (policy : hwloc_membind_policy_t) (flags : Z) : M OS Z :=
  do! nodeset := hwloc_fix_membind nodeset in
  match nodeset with
  | None => alloc_fallback len flags
  | Some nodeset =>
      if has_flag flags HWLOC_MEMBIND_MIGRATE then do! _ := set_errno EINVAL in alloc_fallback len flags else
      match alloc_membind h, set_area_membind h with
      | Some f, _ => f len nodeset policy flags
      | None, Some f =>
          do! p := hwloc_alloc len in
          if p =? NULL then mret NULL else
          do! r := f p len nodeset policy flags in
          if negb (r =? 0) && has_flag flags HWLOC_MEMBIND_STRICT then
            do! error := get_errno in
            do! _ := free p in
            do! _ := set_errno error in
            mret NULL
          else mret p
      | None, None => do! _ := set_errno ENOSYS in alloc_fallback len flags
      end
  end.

Definition hwloc_alloc_membind (len : Z) (set : B) (policy : hwloc_membind_policy_t) (flags : Z) : M OS Z :=
  do! (e, nodeset) := hwloc_fix_membind_cpuset b_alloc set in
  if negb (e =? 0) then
    if has_flag flags HWLOC_MEMBIND_STRICT then mret NULL else hwloc_alloc len
  else hwloc_alloc_membind_nodeset len nodeset policy flags.

Definition hwloc_free (addr len : Z) : M OS Z :=
  match free_membind h with Some f => f addr len | None => hwloc_free_heap addr len end.

(** [hwloc_alloc_membind_policy_nodeset] and [hwloc_alloc_membind_policy] ([helper.h]). *)
Definition touch_new (p : Z) (policy : hwloc_membind_policy_t) : M OS Z :=
  if negb (p =? NULL) && negb (bool_decide (policy = HWLOC_MEMBIND_FIRSTTOUCH))
  then do! _ := touch p in mret p
  else mret p.

Definition hwloc_alloc_membind_policy_nodeset (len : Z) (nodeset : B) (policy : hwloc_membind_policy_t) (flags : Z)
  : M OS Z :=
  do! p := hwloc_alloc_membind_nodeset len nodeset policy flags in
  if negb (p =? NULL) then mret p else
  do! _ := hwloc_set_membind_nodeset nodeset policy flags in
  do! p := hwloc_alloc len in
  touch_new p policy.

Definition hwloc_alloc_membind_policy (len : Z) (set : B) (policy : hwloc_membind_policy_t) (flags : Z) : M OS Z :=
  do! p := hwloc_alloc_membind len set policy flags in
  if negb (p =? NULL) then mret p else
  do! _ := hwloc_set_membind set policy flags in
  do! p := hwloc_alloc len in
  touch_new p policy.

(** ** The dummy hooks ([src/topology.c]) *)

Definition dontset_return_complete_cpuset (set : B) : M OS (Z * B) :=
  do! cpuset := mget (hwloc_topology_get_complete_cpuset topo) in
  mret (match cpuset with Some c => (0, c) | None => (-1, set) end).

Definition dontset_thisthread_cpubind (set : B) (flags : Z) : M OS Z := mret 0.
Definition dontget_thisthread_cpubind (set : B) (flags : Z) : M OS (Z * B) := dontset_return_complete_cpuset set.
Definition dontset_thisproc_cpubind (set : B) (flags : Z) : M OS Z := mret 0.
Definition dontget_thisproc_cpubind (set : B) (flags : Z) : M OS (Z * B) := dontset_return_complete_cpuset set.
Definition dontset_proc_cpubind (pid : Z) (set : B) (flags : Z) : M OS Z := mret 0.
Definition dontget_proc_cpubind (pid : Z) (set : B) (flags : Z) : M OS (Z * B) := dontset_return_complete_cpuset set.
Definition dontset_thread_cpubind (tid : Z) (set : B) (flags : Z) : M OS Z := mret 0.
Definition dontget_thread_cpubind (tid : Z) (set : B) (flags : Z) : M OS (Z * B) := dontset_return_complete_cpuset set.

Definition dontset_return_complete_nodeset (set : B) (policy : hwloc_membind_policy_t)
  : M OS (Z * B * hwloc_membind_policy_t) :=
  do! nodeset := mget (hwloc_topology_get_complete_nodeset topo) in
  mret (match nodeset with Some c => (0, c, HWLOC_MEMBIND_DEFAULT) | None => (-1, set, policy) end).

Definition dontset_thisproc_membind (set : B) (policy : hwloc_membind_policy_t) (flags : Z) : M OS Z := mret 0.
Definition dontget_thisproc_membind (set : B) (policy : hwloc_membind_policy_t) (flags : Z) := dontset_return_complete_nodeset set policy.
Definition dontset_thisthread_membind (set : B) (policy : hwloc_membind_policy_t) (flags : Z) : M OS Z := mret 0.
Definition dontget_thisthread_membind (set : B) (policy : hwloc_membind_policy_t) (flags : Z) := dontset_return_complete_nodeset set policy.
Definition dontset_proc_membind (pid : Z) (set : B) (policy : hwloc_membind_policy_t) (flags : Z) : M OS Z := mret 0.
Definition dontget_proc_membind (pid : Z) (set : B) (policy : hwloc_membind_policy_t) (flags : Z) := dontset_return_complete_nodeset set policy.
Definition dontset_area_membind (addr len : Z) (set : B) (policy : hwloc_membind_policy_t) (flags : Z) : M OS Z := mret 0.
Definition dontget_area_membind (addr len : Z) (set : B) (policy : hwloc_membind_policy_t) (flags : Z) := dontset_return_complete_nodeset set policy.

Definition dontalloc_membind (len : Z) (set : B) (policy : hwloc_membind_policy_t) (flags : Z) : M OS Z := malloc len.
Definition dontfree_membind (addr len : Z) : M OS Z := do! _ := free addr in mret 0.

(** The end of [hwloc_discover]: [os_hooks] is what the function of the operating
    system ([hwloc_set_linuxfs_hooks], ...) installs on top of the present hooks. *)
Definition install_hooks (is_thissystem : bool) (os_hooks : hooks OS B -> hooks OS B) : hooks OS B :=
  if is_thissystem then os_hooks h else
  mk_hooks (Some dontset_thisproc_cpubind) (Some dontget_thisproc_cpubind)
    (Some dontset_thisthread_cpubind) (Some dontget_thisthread_cpubind)
    (Some dontset_proc_cpubind) (Some dontget_proc_cpubind)
    (Some dontset_thread_cpubind) (Some dontget_thread_cpubind)
    (Some dontget_thisproc_cpubind) (Some dontget_thisthread_cpubind) (Some dontget_proc_cpubind)
    (Some dontset_thisproc_membind) (Some dontget_thisproc_membind)
    (Some dontset_thisthread_membind) (Some dontget_thisthread_membind)
    (Some dontset_proc_membind) (Some dontget_proc_membind)
    (Some dontset_area_membind) (Some dontget_area_membind)
    (alloc h) (Some dontalloc_membind) (Some dontfree_membind).

End Bind.
