(* ===== verification/BindThms.v ===== *)
(** * BindThms: what reaches the binding hooks, and what allocations leave *)

From stdpp Require Import gmap.
From S2P Require Import Prelude Misc Bitmap Cpuset Obj Levels Traversal Bind Samples.

Section Calls.
Context {OS B : Type} `{Libc OS} `{Cpuset B}.
Implicit Types topo : topology B.
Implicit Types h : hooks OS B.

(** The calls of the binding interface, with the content of their output arguments. *)
Inductive bind_call :=
  | SetCpubind (set : B) (flags : Z)
  | GetCpubind (set : B) (flags : Z)
  | SetProcCpubind (pid : Z) (set : B) (flags : Z)
  | GetProcCpubind (pid : Z) (set : B) (flags : Z)
  | SetThreadCpubind (tid : Z) (set : B) (flags : Z)
  | GetThreadCpubind (tid : Z) (set : B) (flags : Z)
  | GetLastCpuLocation (set : B) (flags : Z)
  | GetProcLastCpuLocation (pid : Z) (set : B) (flags : Z)
  | SetMembindNodeset (set : B) (policy : hwloc_membind_policy_t) (flags : Z)
  | SetMembind (set : B) (policy : hwloc_membind_policy_t) (flags : Z)
  | GetMembindNodeset (set : B) (policy : hwloc_membind_policy_t) (flags : Z)
  | GetMembind (set : B) (policy : hwloc_membind_policy_t) (flags : Z)
  | SetProcMembindNodeset (pid : Z) (set : B) (policy : hwloc_membind_policy_t) (flags : Z)
  | SetProcMembind (pid : Z) (set : B) (policy : hwloc_membind_policy_t) (flags : Z)
  | GetProcMembindNodeset (pid : Z) (set : B) (policy : hwloc_membind_policy_t) (flags : Z)
  | GetProcMembind (pid : Z) (set : B) (policy : hwloc_membind_policy_t) (flags : Z)
  | SetAreaMembindNodeset (addr len : Z) (set : B) (policy : hwloc_membind_policy_t) (flags : Z)
  | SetAreaMembind (addr len : Z) (set : B) (policy : hwloc_membind_policy_t) (flags : Z)
  | GetAreaMembindNodeset (addr len : Z) (set : B) (policy : hwloc_membind_policy_t) (flags : Z)
  | GetAreaMembind (addr len : Z) (set : B) (policy : hwloc_membind_policy_t) (flags : Z)
  | Alloc (len : Z)
  | AllocMembindNodeset (len : Z) (set : B) (policy : hwloc_membind_policy_t) (flags : Z)
  | AllocMembind (len : Z) (set : B) (policy : hwloc_membind_policy_t) (flags : Z).

Definition ignore {A} (m : M OS A) : M OS unit := do! _ := m in mret tt.

Definition run_call topo h (c : bind_call) : M OS unit :=
  match c with
  | SetCpubind s f => ignore (hwloc_set_cpubind topo h s f)
  | GetCpubind s f => ignore (hwloc_get_cpubind h s f)
  | SetProcCpubind p s f => ignore (hwloc_set_proc_cpubind topo h p s f)
  | GetProcCpubind p s f => ignore (hwloc_get_proc_cpubind h p s f)
  | SetThreadCpubind t s f => ignore (hwloc_set_thread_cpubind topo h t s f)
  | GetThreadCpubind t s f => ignore (hwloc_get_thread_cpubind h t s f)
  | GetLastCpuLocation s f => ignore (hwloc_get_last_cpu_location h s f)
  | GetProcLastCpuLocation p s f => ignore (hwloc_get_proc_last_cpu_location h p s f)
  | SetMembindNodeset s po f => ignore (hwloc_set_membind_nodeset topo h s po f)
  | SetMembind s po f => ignore (hwloc_set_membind topo h s po f)
  | GetMembindNodeset s po f => ignore (hwloc_get_membind_nodeset h s po f)
  | GetMembind s po f => ignore (hwloc_get_membind topo h s po f)
  | SetProcMembindNodeset p s po f => ignore (hwloc_set_proc_membind_nodeset topo h p s po f)
  | SetProcMembind p s po f => ignore (hwloc_set_proc_membind topo h p s po f)
  | GetProcMembindNodeset p s po f => ignore (hwloc_get_proc_membind_nodeset h p s po f)
  | GetProcMembind p s po f => ignore (hwloc_get_proc_membind topo h p s po f)
  | SetAreaMembindNodeset a l s po f => ignore (hwloc_set_area_membind_nodeset topo h a l s po f)
  | SetAreaMembind a l s po f => ignore (hwloc_set_area_membind topo h a l s po f)
  | GetAreaMembindNodeset a l s po f => ignore (hwloc_get_area_membind_nodeset h a l s po f)
  | GetAreaMembind a l s po f => ignore (hwloc_get_area_membind topo h a l s po f)
  | Alloc l => ignore (hwloc_alloc h l)
  | AllocMembindNodeset l s po f => ignore (hwloc_alloc_membind_nodeset topo h l s po f)
  | AllocMembind l s po f => ignore (hwloc_alloc_membind topo h l s po f)
  end.

Fixpoint run_calls topo h (cs : list bind_call) : M OS unit :=
  match cs with
  | [] => mret tt
  | c :: cs => do! _ := run_call topo h c in run_calls topo h cs
  end.

(** ** What hooks may rely on *)

(** [m] runs to completion with a result that satisfies [Q]. *)
Definition runs {A} (m : M OS A) (Q : A -> Prop) : Prop := forall w, exists r w', m w = Some (r, w') /\ Q r.

Lemma runs_ret {A} (x : A) (Q : A -> Prop) : Q x -> runs (mret x) Q.
Proof. intros HQ w. by exists x, w. Qed.

Lemma runs_then {A C} (m : M OS A) (f : A -> M OS C) (P : A -> Prop) (Q : C -> Prop) :
  runs m P -> (forall x, P x -> runs (f x) Q) -> runs (mthen m f) Q.
Proof.
  intros Hm Hf w. destruct (Hm w) as (x & w' & Heq & HP). destruct (Hf x HP w') as (r & w'' & Heq' & HQ).
  exists r, w''. split; [|done]. unfold mthen. rewrite Heq. exact Heq'.
Qed.

Lemma runs_error {A} e (x : A) (Q : A -> Prop) : Q x -> runs (error e x) Q.
Proof. intros HQ w. by exists x, (mk_world e (blocks w) (system w)). Qed.

Lemma runs_get {A} (x : option A) (Q : A -> Prop) y : x = Some y -> Q y -> runs (mget x) Q.
Proof. intros -> HQ w. by exists y, w. Qed.

Lemma runs_mono {A} (m : M OS A) (P Q : A -> Prop) : (forall x, P x -> Q x) -> runs m P -> runs m Q.
Proof. intros HPQ Hm w. destruct (Hm w) as (x & w' & ? & ?). exists x, w'. auto. Qed.

(** The sets of the root. *)
Record root_sets_ok topo (r : hwloc_obj B) : Prop := {
  rs_root : root_obj topo = Some r;
  rs_complete : is_Some (ocpuset r) -> exists c, complete_cpuset (sets r) = Some c /\ bfin c = true /\ ~ bempty c;
  rs_nodeset : forall c, complete_nodeset (sets r) = Some c -> bfin c = true /\ ~ bempty c /\ is_Some (onodeset r);
}.

(** What a hook is given: a non-empty set that passes the test of inclusion in
    the complete set of the root, and the complete set itself if it covers the set
    of the topology. *)
Definition legal (topology_set complete_set : option B) (s : B) : Prop :=
  exists t c, topology_set = Some t /\ complete_set = Some c /\
    ~ bempty s /\ b_isincluded s c = true /\ (s = c \/ b_isincluded t s = false).

Definition legal_cpus (r : hwloc_obj B) : B -> Prop := legal (ocpuset r) (complete_cpuset (sets r)).
Definition legal_nodes (r : hwloc_obj B) : B -> Prop := legal (onodeset r) (complete_nodeset (sets r)).

Definition any {A} (_ : A) : Prop := True.

(** Hooks that complete whenever their argument is legal. *)
Record hooks_safe h (r : hwloc_obj B) : Prop := {
  hs_cpu : forall f s fl, set_thisproc_cpubind h = Some f \/ set_thisthread_cpubind h = Some f ->
    legal_cpus r s -> runs (f s fl) any;
  hs_cpu_id : forall f i s fl, set_proc_cpubind h = Some f \/ set_thread_cpubind h = Some f ->
    legal_cpus r s -> runs (f i s fl) any;
  hs_cpu_get : forall f s fl, (get_thisproc_cpubind h = Some f \/ get_thisthread_cpubind h = Some f) \/
    (get_thisproc_last_cpu_location h = Some f \/ get_thisthread_last_cpu_location h = Some f) -> runs (f s fl) any;
  hs_cpu_get_id : forall f i s fl, get_proc_cpubind h = Some f \/ get_thread_cpubind h = Some f \/
    get_proc_last_cpu_location h = Some f -> runs (f i s fl) any;
  hs_mem : forall f s po fl, set_thisproc_membind h = Some f \/ set_thisthread_membind h = Some f ->
    legal_nodes r s -> runs (f s po fl) any;
  hs_mem_proc : forall f i s po fl, set_proc_membind h = Some f -> legal_nodes r s -> runs (f i s po fl) any;
  hs_mem_area : forall f a l s po fl, set_area_membind h = Some f -> legal_nodes r s -> runs (f a l s po fl) any;
  hs_mem_get : forall f s po fl, get_thisproc_membind h = Some f \/ get_thisthread_membind h = Some f ->
    runs (f s po fl) any;
  hs_mem_get_proc : forall f i s po fl, get_proc_membind h = Some f -> runs (f i s po fl) any;
  hs_mem_get_area : forall f a l s po fl, get_area_membind h = Some f -> runs (f a l s po fl) any;
  hs_alloc : forall f l, alloc h = Some f -> runs (f l) any;
  hs_alloc_membind : forall f l s po fl, alloc_membind h = Some f -> legal_nodes r s -> runs (f l s po fl) any;
  (** what [hwloc_alloc] gives can be freed when binding it fails *)
  hs_strict : is_Some (alloc_membind h) \/ set_area_membind h = None \/
    (alloc h = None /\ forall f a l s po fl w r' w', set_area_membind h = Some f ->
       f a l s po fl w = Some (r', w') -> blocks w' = blocks w);
}.

(** ** The checks *)

Section Checks.
Context topo (r : hwloc_obj B) (Hr : root_sets_ok topo r).

Lemma root_get (proj : hwloc_obj B -> option B) : (let! x := root_obj topo in Some (proj x)) = Some (proj r).
Proof. by rewrite (rs_root _ _ Hr). Qed.

Lemma runs_root (proj : hwloc_obj B -> option B) {C} (f : option B -> M OS C) (Q : C -> Prop) :
  runs (f (proj r)) Q -> runs (mthen (mget (let! x := root_obj topo in Some (proj x))) f) Q.
Proof.
  intros Hf. apply (runs_then _ _ (fun x => x = proj r)); [|by intros x ->].
  apply (runs_get _ _ (proj r)); [apply root_get|done].
Qed.

Lemma runs_known {A C} (x : A) (f : A -> M OS C) (Q : C -> Prop) :
  runs (f x) Q -> runs (mthen (mget (Some x)) f) Q.
Proof. intros Hf w. apply (Hf w). Qed.

Lemma included_self (c : B) : bfin c = true -> b_isincluded c c = true.
Proof. intros Hf. by apply b_isincluded_spec. Qed.

Lemma fix_cpubind_runs set :
  runs (hwloc_fix_cpubind (OS := OS) topo set) (fun s => match s with Some s => legal_cpus r s | None => True end).
Proof.
  unfold hwloc_fix_cpubind.
  apply (runs_root ocpuset), (runs_root (fun r => complete_cpuset (sets r))).
  destruct (ocpuset r) as [t|] eqn:Ht; [|by apply runs_error].
  destruct (b_iszero set) eqn:Hz; [by apply runs_error|].
  destruct (rs_complete _ _ Hr) as (c & Hc & Hf & Hne); [by rewrite Ht|]. rewrite Hc.
  apply runs_known.
  destruct (b_isincluded set c) eqn:Hi; [|by apply runs_error]. cbn [negb].
  destruct (b_isincluded t set) eqn:Hti; apply runs_ret; exists t, c; rewrite Ht, Hc.
  - split_and!; [done..|by apply included_self|by left].
  - split_and!; [done..| |done|by right]. rewrite <- b_iszero_spec. by rewrite Hz.
Qed.

Lemma fix_membind_runs nodes :
  runs (hwloc_fix_membind (OS := OS) topo nodes) (fun s => match s with Some s => legal_nodes r s | None => True end).
Proof.
  unfold hwloc_fix_membind.
  apply (runs_root onodeset), (runs_root (fun r => complete_nodeset (sets r))), (runs_root ocpuset).
  destruct (ocpuset r) as [t|]; [|by apply runs_error].
  destruct (complete_nodeset (sets r)) as [c|] eqn:Hc; [|by apply runs_error].
  destruct (b_iszero nodes) eqn:Hz; [by apply runs_error|].
  destruct (b_isincluded nodes c) eqn:Hi; [|by apply runs_error]. cbn [negb].
  destruct (rs_nodeset _ _ Hr c Hc) as (Hf & Hne & [n Hn]). rewrite Hn.
  apply runs_known.
  destruct (b_isincluded n nodes) eqn:Hti; apply runs_ret; exists n, c; rewrite Hn, Hc.
  - split_and!; [done..|by apply included_self|by left].
  - split_and!; [done..| |done|by right]. rewrite <- b_iszero_spec. by rewrite Hz.
Qed.

Context (Hto : forall s, is_Some (hwloc_cpuset_to_nodeset topo s)).
Context (Hfrom : forall s, is_Some (hwloc_cpuset_from_nodeset topo s)).

Lemma fix_membind_cpuset_runs nodes cpus : runs (hwloc_fix_membind_cpuset (OS := OS) topo nodes cpus) any.
Proof.
  unfold hwloc_fix_membind_cpuset.
  apply (runs_root ocpuset), (runs_root (fun r => complete_cpuset (sets r))), (runs_root (fun r => complete_nodeset (sets r))).
  destruct (ocpuset r) as [t|] eqn:Ht; [|by apply runs_error].
  destruct (complete_nodeset (sets r)) as [cn|]; [|by apply runs_error].
  destruct (b_iszero cpus); [by apply runs_error|].
  destruct (rs_complete _ _ Hr) as (c & Hc & _); [by rewrite Ht|]. rewrite Hc.
  apply runs_known.
  destruct (b_isincluded cpus c); [|by apply runs_error]. cbn [negb].
  destruct (b_isincluded t cpus); [by apply runs_ret|]. destruct (Hto cpus) as [n ->].
  apply runs_known. by apply runs_ret.
Qed.

Lemma call_hook_runs {F A} (hook : option F) (k : F -> M OS A) x :
  (forall f, hook = Some f -> runs (k f) any) -> runs (call_hook hook k x) any.
Proof. intros Hk. destruct hook as [f|]; [by apply Hk|by apply runs_error]. Qed.

Lemma by_flags_some {F} fl p t (proc thr : option F) f :
  by_flags fl p t proc thr = Some f -> proc = Some f \/ thr = Some f.
Proof. unfold by_flags. destruct (has_flag fl p), (has_flag fl t), proc; auto. Qed.

(** A setter that checks its set first. *)
Lemma checked_runs (P : B -> Prop) (fixed : M OS (option B)) (k : B -> M OS Z) :
  runs fixed (fun s => match s with Some s => P s | None => True end) ->
  (forall s, P s -> runs (k s) any) ->
  runs (do! s := fixed in match s with Some s => k s | None => mret (-1) end) any.
Proof.
  intros Hf Hk. eapply runs_then; [exact Hf|]. intros [s|] Hs; [by apply Hk|by apply runs_ret].
Qed.

Lemma with_nodeset_runs cpus (k : B -> M OS Z) : (forall s, runs (k s) any) -> runs (with_nodeset topo cpus k) any.
Proof.
  intros Hk. eapply runs_then; [apply fix_membind_cpuset_runs|]. intros [e n] _.
  destruct (negb (e =? 0)); [by apply runs_ret|apply Hk].
Qed.

Lemma back_to_cpuset_runs set m : runs m any -> runs (back_to_cpuset (OS := OS) topo set m) any.
Proof.
  intros Hm. eapply runs_then; [exact Hm|]. intros [[ret n] po] _. destruct (ret =? 0); [|by apply runs_ret].
  destruct (Hfrom n) as [c ->]. apply runs_known. by apply runs_ret.
Qed.

End Checks.

(** ** Allocations *)

Lemma heap_runs len : runs (hwloc_alloc_heap len) any.
Proof.
  intros w. unfold hwloc_alloc_heap, posix_memalign, mthen. destruct (place w len); eexists _, _; done.
Qed.

Lemma alloc_runs h len : (forall f l, alloc h = Some f -> runs (f l) any) -> runs (hwloc_alloc h len) any.
Proof. intros Hf. unfold hwloc_alloc. destruct (alloc h) as [f|]; [by apply Hf|apply heap_runs]. Qed.

Lemma fallback_runs h len flags :
  (forall f l, alloc h = Some f -> runs (f l) any) -> runs (alloc_fallback h len flags) any.
Proof.
  intros Hf. unfold alloc_fallback. destruct (has_flag flags HWLOC_MEMBIND_STRICT); [by apply runs_ret|by apply alloc_runs].
Qed.

Lemma set_errno_runs e : runs (set_errno e : M OS unit) any.
Proof. intros w. by eexists _, _. Qed.

(** The block of [hwloc_alloc_heap] can be freed while no one else frees it. *)
Lemma heap_block len w p w' :
  hwloc_alloc_heap len w = Some (p, w') -> p <> NULL -> blocks w' = <[p := Heap]> (blocks w).
Proof.
  unfold hwloc_alloc_heap, posix_memalign, mthen. destruct (place w len) as [q|]; cbn; [|by intros [= <- _]].
  by intros [= <- <-].
Qed.

Lemma free_heap_runs p (w : world OS) : blocks w !! p = Some Heap ->
  p <> NULL -> free p w = Some (tt, mk_world (errno w) (delete p (blocks w)) (system w)).
Proof.
  intros Hb Hp. unfold free. destruct (Z.eqb_spec p NULL); [done|]. unfold mthen, get_blocks. simpl.
  by rewrite Hb.
Qed.

Lemma alloc_membind_nodeset_runs topo h r len nodes po flags :
  root_sets_ok topo r -> hooks_safe h r -> runs (hwloc_alloc_membind_nodeset topo h len nodes po flags) any.
Proof.
  intros Hr Hh. unfold hwloc_alloc_membind_nodeset. assert (Hfall := fallback_runs h len flags (hs_alloc _ _ Hh)).
  eapply runs_then; [by apply (fix_membind_runs topo r)|]. intros [s|] Hs; [|done].
  destruct (has_flag flags HWLOC_MEMBIND_MIGRATE); [eapply runs_then; [apply set_errno_runs|done]|].
  destruct (alloc_membind h) as [f|] eqn:Hf; [by apply (hs_alloc_membind _ _ Hh)|].
  destruct (set_area_membind h) as [f|] eqn:Hf'; [|eapply runs_then; [apply set_errno_runs|done]].
  destruct (hs_strict _ _ Hh) as [[? ?]|[?|[Ha Hkeep]]]; [congruence..|].
  intros w. unfold mthen. unfold hwloc_alloc. rewrite Ha.
  destruct (heap_runs len w) as (p & w1 & Hp & _). rewrite Hp. cbn [mbind option_bind].
  destruct (Z.eqb_spec p NULL) as [|Hnz]; [by eexists _, _|].
  destruct (hs_mem_area _ _ Hh f p len s po flags Hf' Hs w1) as (e & w2 & He & _). rewrite He. cbn [mbind option_bind].
  destruct (negb (e =? 0) && has_flag flags HWLOC_MEMBIND_STRICT); [|by eexists _, _].
  cbn [get_errno mbind option_bind]. rewrite (free_heap_runs p w2); [by eexists _, _| |done].
  rewrite (Hkeep _ _ _ _ _ _ _ _ _ Hf' He), (heap_block _ _ _ _ Hp Hnz). by rewrite lookup_insert_eq.
Qed.

Lemma ignore_runs {A} (m : M OS A) : runs m any -> runs (ignore m) any.
Proof. intros Hm. eapply runs_then; [exact Hm|]. intros. by apply runs_ret. Qed.

(** C26. Whatever sets and flags the calls of the binding interface are given, in
    any order, what reaches a hook is legal: the sets are not empty, pass the test
    of inclusion in the complete set of the root, and are that set itself when they
    cover the set of the topology. So hooks that complete on legal arguments are
    never run on others, and every call completes. Conversions between cpusets and
    nodesets must succeed, and what [hwloc_alloc] gives must be memory that [free]
    takes when a strict allocation goes through [set_area_membind]. *)
Theorem binding_calls_are_legal topo h r (cs : list bind_call) w :
  root_sets_ok topo r -> hooks_safe h r ->
  (forall s, is_Some (hwloc_cpuset_to_nodeset topo s)) ->
  (forall s, is_Some (hwloc_cpuset_from_nodeset topo s)) ->
  exists w', run_calls topo h cs w = Some (tt, w').
Proof.
  intros Hr Hh Hto Hfrom. assert (Hcall : forall c, runs (run_call topo h c) any).
  { intros c. assert (Hcpu := fix_cpubind_runs topo r Hr). assert (Hmem := fix_membind_runs topo r Hr).
    destruct c; apply ignore_runs; cbn [run_call];
      try (apply call_hook_runs; intros f Hf; try apply by_flags_some in Hf);
      try (by apply (hs_cpu_get _ _ Hh); auto); try (by apply (hs_cpu_get_id _ _ Hh); auto);
      try (by apply (hs_mem_get _ _ Hh)); try (by apply (hs_mem_get_proc _ _ Hh));
      try (by apply (hs_mem_get_area _ _ Hh)); try (apply back_to_cpuset_runs; [done|]);
      try (apply with_nodeset_runs with (r := r); [done..|]; intros s');
      try (apply call_hook_runs; intros f Hf; try apply by_flags_some in Hf);
      try (by apply (hs_mem_get _ _ Hh)); try (by apply (hs_mem_get_proc _ _ Hh));
      try (by apply (hs_mem_get_area _ _ Hh));
      try (eapply checked_runs; [first [apply Hcpu | apply Hmem]|]; intros s'' Hs'';
           apply call_hook_runs; intros f Hf; try apply by_flags_some in Hf);
      try (by apply (hs_cpu _ _ Hh)); try (by apply (hs_cpu_id _ _ Hh); auto);
      try (by apply (hs_mem _ _ Hh)); try (by apply (hs_mem_proc _ _ Hh)); try (by apply (hs_mem_area _ _ Hh)).
    - apply alloc_runs, (hs_alloc _ _ Hh).
    - by apply (alloc_membind_nodeset_runs topo h r).
    - eapply runs_then; [by apply (fix_membind_cpuset_runs topo r)|]. intros [e n] _.
      destruct (negb (e =? 0)); [apply fallback_runs, (hs_alloc _ _ Hh)|by apply (alloc_membind_nodeset_runs topo h r)]. }
  revert w. induction cs as [|c cs IH]; intros w; [by exists w|]. cbn [run_calls].
  destruct (Hcall c w) as ([] & w1 & Hc & _). unfold mthen. rewrite Hc. apply IH.
Qed.

(** ** What allocations leave *)

Lemma munmap_runs p len (w : world OS) : blocks w !! p = Some (Mapped len) -> p <> MAP_FAILED ->
  munmap p len w = Some (0, mk_world (errno w) (delete p (blocks w)) (system w)).
Proof.
  intros Hb Hp. unfold munmap. destruct (Z.eqb_spec p MAP_FAILED); [done|].
  unfold mthen, get_blocks. simpl. by rewrite Hb, Z.eqb_refl.
Qed.

Definition with_errno (e : Z) (w : world OS) : world OS := mk_world e (blocks w) (system w).

(** The result of [hwloc_fix_membind]: an error and its number, or a set and no change. *)
Lemma fix_membind_result topo nodes w s w1 :
  hwloc_fix_membind topo nodes w = Some (s, w1) ->
  match s with
  | Some _ => w1 = w
  | None => exists e, e ∈ [EXDEV; ENODEV; EINVAL] /\ w1 = with_errno e w
  end.
Proof.
  unfold hwloc_fix_membind, mthen, mget, error.
  destruct (hwloc_topology_get_topology_nodeset topo) as [tn|]; [|done]. cbn [mbind option_bind].
  destruct (hwloc_topology_get_complete_nodeset topo) as [cn|]; [|done]. cbn [mbind option_bind].
  destruct (hwloc_topology_get_topology_cpuset topo) as [[t|]|]; [|by intros [= <- <-]; eexists; split; [by left|]|done].
  cbn [mbind option_bind].
  destruct cn as [c|]; [|by intros [= <- <-]; eexists; split; [by right; left|]].
  destruct (b_iszero nodes); [by intros [= <- <-]; eexists; split; [by right; right; left|]|].
  destruct (negb (b_isincluded nodes c)); [by intros [= <- <-]; eexists; split; [by right; right; left|]|].
  destruct tn as [n|]; [|done]. cbn [mbind option_bind].
  destruct (b_isincluded n nodes); by intros [= <- <-].
Qed.

(** The two ways the libraries allocate, with the function that frees. *)
Definition alloc_pair h : Prop :=
  (alloc h = None /\ free_membind h = None) \/
  (alloc h = Some hwloc_alloc_mmap /\ free_membind h = Some hwloc_free_mmap).

(** C38. Without [alloc_membind] hook: a bad nodeset, [HWLOC_MEMBIND_MIGRATE] or no hook
    at all make [hwloc_alloc_membind_nodeset] return NULL if strict and plain memory
    otherwise, with [errno] telling why. If the binding of new heap memory fails, the
    strict call frees it and keeps the [errno] of the hook, the other one returns it;
    but memory that [hwloc_alloc_mmap] gave is passed to [free]. Memory from
    [hwloc_alloc] goes away with [hwloc_free], and a call to
    [hwloc_alloc_membind_policy_nodeset] that gets memory at once never changes the
    policy. *)
Theorem alloc_membind_outcomes topo h len nodes policy flags w fixed w1 :
  hwloc_fix_membind topo nodes w = Some (fixed, w1) -> alloc_membind h = None ->
  let strict := has_flag flags HWLOC_MEMBIND_STRICT in
  let call := hwloc_alloc_membind_nodeset topo h len nodes policy flags w in
  (fixed = None \/ has_flag flags HWLOC_MEMBIND_MIGRATE = true \/ set_area_membind h = None ->
     exists e, e ∈ [EXDEV; ENODEV; EINVAL; ENOSYS] /\
       call = if strict then Some (NULL, with_errno e w) else hwloc_alloc h len (with_errno e w)) /\
  (forall s f p w2 r w3, fixed = Some s -> has_flag flags HWLOC_MEMBIND_MIGRATE = false ->
     set_area_membind h = Some f -> hwloc_alloc h len w = Some (p, w2) -> p <> NULL -> blocks w !! p = None ->
     f p len s policy flags w2 = Some (r, w3) -> blocks w3 = blocks w2 ->
     (r = 0 \/ strict = false -> call = Some (p, w3)) /\
     (r <> 0 -> strict = true -> alloc h = None ->
        call = Some (NULL, mk_world (errno w3) (blocks w) (system w3))) /\
     (r <> 0 -> strict = true -> alloc h = Some hwloc_alloc_mmap -> p <> MAP_FAILED -> call = None)) /\
  (alloc_pair h -> forall p, place w len = Some p -> p <> NULL -> p <> MAP_FAILED -> blocks w !! p = None -> len <> 0 ->
     exists w', (do! q := hwloc_alloc h len in hwloc_free h q len) w = Some (0, w') /\ blocks w' = blocks w) /\
  (forall p w', call = Some (p, w') -> p <> NULL ->
     hwloc_alloc_membind_policy_nodeset topo h len nodes policy flags w = Some (p, w')).
Proof.
  intros Hfix Hnone strict call. assert (Hres := fix_membind_result _ _ _ _ _ Hfix). subst call.
  assert (Hcall : forall k : option B -> M OS Z, (do! nodeset := hwloc_fix_membind topo nodes in k nodeset) w = k fixed w1).
  { intros k. unfold mthen. by rewrite Hfix. }
  split_and!.
  - intros Hwhy. unfold hwloc_alloc_membind_nodeset. rewrite Hcall, Hnone.
    assert (Hfb : forall e, alloc_fallback h len flags (with_errno e w) =
      if strict then Some (NULL, with_errno e w) else hwloc_alloc h len (with_errno e w)).
    { intros e. unfold alloc_fallback, strict. by destruct (has_flag flags HWLOC_MEMBIND_STRICT). }
    destruct fixed as [s|].
    + subst w1. destruct (has_flag flags HWLOC_MEMBIND_MIGRATE).
      * exists EINVAL. split; [set_solver|]. apply Hfb.
      * destruct Hwhy as [|[|Hw]]; [done..|]. rewrite Hw. exists ENOSYS. split; [set_solver|]. apply Hfb.
    + destruct Hres as (e & He & ->). exists e. split; [set_solver|]. apply Hfb.
  - intros s f p w2 r w3 -> Hmig Hf Ha Hp Hfresh Hr Hb. simpl in Hres. subst w1.
    assert (Hrun : hwloc_alloc_membind_nodeset topo h len nodes policy flags w =
      (if negb (r =? 0) && strict then
         do! error := get_errno in do! _ := free p in do! _ := set_errno error in mret NULL
       else mret p) w3).
    { unfold hwloc_alloc_membind_nodeset. rewrite Hcall, Hmig, Hnone, Hf. unfold mthen at 1. rewrite Ha.
      cbn [mbind option_bind]. destruct (Z.eqb_spec p NULL); [done|]. unfold mthen at 1. by rewrite Hr. }
    rewrite Hrun. split_and!.
    + intros [->| ->]; [done|]. by rewrite andb_false_r.
    + intros Hr0 -> Hn. destruct (Z.eqb_spec r 0); [done|]. cbn [negb andb]. unfold hwloc_alloc in Ha.
      rewrite Hn in Ha. assert (Hblk := heap_block _ _ _ _ Ha Hp). unfold mthen at 1, get_errno. cbn [mbind option_bind].
      unfold mthen at 1. rewrite free_heap_runs; [|by rewrite Hb, Hblk, lookup_insert_eq|done].
      cbn. rewrite Hb, Hblk. unfold mret. by rewrite delete_insert_id.
    + intros Hr0 -> Hn Hmf. destruct (Z.eqb_spec r 0); [done|]. cbn [negb andb]. unfold hwloc_alloc in Ha.
      rewrite Hn in Ha. unfold hwloc_alloc_mmap, mmap, mthen in Ha. destruct (len =? 0); [by injection Ha as <- _|].
      destruct (place w len) as [q|]; [|by injection Ha as <- _]. injection Ha as -> <-. simpl in Hb.
      unfold mthen, get_errno, free. cbn [mbind option_bind]. destruct (Z.eqb_spec p NULL); [done|].
      unfold mthen, get_blocks. cbn [mbind option_bind]. by rewrite Hb, lookup_insert_eq.
  - intros Hpair p Hpl Hnz Hmf Hfresh Hlen. destruct Hpair as [[Ha Hf]|[Ha Hf]].
    + unfold hwloc_alloc, hwloc_free. rewrite Ha, Hf. unfold hwloc_alloc_heap, posix_memalign, mthen. rewrite Hpl. cbn.
      unfold hwloc_free_heap, mthen. rewrite free_heap_runs; [|apply lookup_insert_eq|done].
      eexists. split; [done|]. simpl. by apply delete_insert_id.
    + unfold hwloc_alloc, hwloc_free. rewrite Ha, Hf. unfold hwloc_alloc_mmap, hwloc_free_mmap, mmap, mthen.
      destruct (Z.eqb_spec len 0); [done|]. rewrite Hpl. cbn.
      destruct (Z.eqb_spec p NULL); [done|]. rewrite munmap_runs; [|apply lookup_insert_eq|done].
      eexists. split; [done|]. simpl. by apply delete_insert_id.
  - intros p w' Hc Hp. unfold hwloc_alloc_membind_policy_nodeset. unfold mthen at 1. rewrite Hc.
    cbn [mbind option_bind]. by destruct (Z.eqb_spec p NULL).
Qed.

End Calls.

(** ** The dummy hooks *)

Section Dummy.
Context {OS B : Type} `{Libc OS} `{Cpuset B} (topo : topology B) (r : hwloc_obj B).

(** No hook at all. *)
Definition no_hooks : hooks OS B :=
  mk_hooks None None None None None None None None None None None None None None None None None None None None None None.

(** The hooks of a topology that is not this system's are safe. *)
Lemma dummy_hooks_safe os_hooks : root_sets_ok topo r -> hooks_safe (install_hooks topo no_hooks false os_hooks) r.
Proof.
  intros Hr. assert (Hcpu : forall s, runs (dontset_return_complete_cpuset (OS := OS) topo s) any).
  { intros s. apply (runs_root topo r Hr (fun r => complete_cpuset (sets r))). by apply runs_ret. }
  assert (Hmem : forall s po, runs (dontset_return_complete_nodeset (OS := OS) topo s po) any).
  { intros s po. apply (runs_root topo r Hr (fun r => complete_nodeset (sets r))). by apply runs_ret. }
  constructor; simpl; intros; repeat match goal with Hf : _ \/ _ |- _ => destruct Hf end; simplify_eq;
    try (by apply runs_ret); try apply Hcpu; try apply Hmem.
  - intros w. unfold dontalloc_membind, malloc, posix_memalign, mthen.
    match goal with |- context [place w ?len] => destruct (place w len) end; by eexists _, _.
  - left. by eexists.
Qed.

End Dummy.

(** ** Witnesses *)

#[local] Instance sample_libc : Libc unit := fun w len => Some 4096.

Definition sample_root : hwloc_obj wbitmap :=
  with_sets (hwloc_alloc_setup_object 1 HWLOC_OBJ_MACHINE 0) (sample_sets (Some (cset [0; 1])) (Some (cset [0]))).

Definition sample_topo : topology wbitmap :=
  mk_topology {[1 := sample_root]} ∅ [[1]] (fun _ => HWLOC_TYPE_DEPTH_UNKNOWN) [] [] [].

Definition sample_world : world unit := mk_world 0 ∅ tt.

Lemma sample_nonempty (s : wbitmap) : b_iszero s = false -> ~ bempty s.
Proof. intros Hz. rewrite <- b_iszero_spec. by rewrite Hz. Qed.

Lemma sample_root_ok : root_sets_ok sample_topo sample_root.
Proof.
  constructor.
  - reflexivity.
  - intros _. exists (cset [0; 1]). split; [reflexivity|]. split; [by_eval|]. apply sample_nonempty. by_eval.
  - intros c [= <-]. split; [by_eval|]. split; [apply sample_nonempty; by_eval|]. by eexists.
Qed.

Lemma sample_to_nodeset s : is_Some (hwloc_cpuset_to_nodeset sample_topo s).
Proof. by eexists. Qed.

Lemma sample_from_nodeset s : is_Some (hwloc_cpuset_from_nodeset sample_topo s).
Proof. by eexists. Qed.

Lemma binding_calls_are_legal_witness :
  exists w', run_calls sample_topo (install_hooks sample_topo no_hooks false id)
    [SetCpubind (cset [1]) 0; SetMembind (cset [0; 1]) HWLOC_MEMBIND_BIND 4;
     AllocMembind 64 b_alloc HWLOC_MEMBIND_BIND 0] sample_world = Some (tt, w').
Proof.
  exact (binding_calls_are_legal sample_topo (install_hooks sample_topo no_hooks false id) sample_root
    [SetCpubind (cset [1]) 0; SetMembind (cset [0; 1]) HWLOC_MEMBIND_BIND 4;
     AllocMembind 64 b_alloc HWLOC_MEMBIND_BIND 0] sample_world sample_root_ok
    (dummy_hooks_safe sample_topo sample_root id sample_root_ok) sample_to_nodeset sample_from_nodeset).
Defined.

(** A strict allocation on a system whose [set_area_membind] always fails with [EXDEV]. *)
Definition failing_area : hooks unit wbitmap :=
  mk_hooks None None None None None None None None None None None None None None None None None
    (Some (fun _ _ _ _ _ => error EXDEV (-1))) None None None None.

Lemma alloc_membind_outcomes_witness :
  hwloc_alloc_membind_nodeset sample_topo failing_area 64 (cset [0]) HWLOC_MEMBIND_BIND HWLOC_MEMBIND_STRICT sample_world =
  Some (NULL, mk_world EXDEV ∅ tt).
Proof.
  assert (Hsome : match hwloc_fix_membind sample_topo (cset [0]) sample_world with Some (Some _, _) => true | _ => false end
    = true) by by_eval.
  revert Hsome. generalize sample_topo (cset [0]). intros topo c Hsome.
  destruct (hwloc_fix_membind topo c sample_world) as [[[s|] w1]|] eqn:Hfix; [|discriminate..].
  pose proof (fix_membind_result _ _ _ _ _ Hfix) as Hw. simpl in Hw. subst w1.
  destruct (alloc_membind_outcomes topo failing_area 64 c HWLOC_MEMBIND_BIND HWLOC_MEMBIND_STRICT
    sample_world _ _ Hfix eq_refl) as (_ & Hs & _).
  destruct (Hs s (fun _ _ _ _ _ => error EXDEV (-1)) 4096 (mk_world 0 {[4096 := Heap]} tt) (-1)
    (mk_world EXDEV {[4096 := Heap]} tt) eq_refl eq_refl eq_refl) as (_ & Hn & _); [reflexivity|discriminate|reflexivity..|].
  exact (Hn ltac:(discriminate) eq_refl eq_refl).
Defined.
