(* ===== verification/Shape.v ===== *)
(** * Shape: trees that differ by the sets and the memory of their objects

    The passes on sets do not move objects: they are maps on the objects, or leave
    the tree equal to the former one up to the parts they work on.  When all objects
    at one distance from the root have one type (and one attribute depth), the loop of
    [hwloc_connect_levels] makes one level of each layer. *)

From stdpp Require Import gmap functions.
From S2P Require Import Prelude Cpuset Obj ObjCmp CleanOk Levels LevelsOk LevelsLoop Connected Sets.

Section Shape.
Context {B : Type}.
Implicit Types t : obj_tree B.
Implicit Types o : hwloc_obj B.

Fixpoint tmap (f : hwloc_obj B -> hwloc_obj B) t : obj_tree B :=
  let 'Node o ch := t in Node (f o) (map (tmap f) ch).

Lemma t_obj_tmap f t : t_obj (tmap f t) = f (t_obj t).
Proof. by destruct t. Qed.

Lemma t_children_tmap f t : t_children (tmap f t) = map (tmap f) (t_children t).
Proof. by destruct t. Qed.

Lemma map_lookup {X Y} (f : X -> Y) (xs : list X) i : map f xs !! i = f <$> xs !! i.
Proof. apply list_lookup_fmap. Qed.

Lemma map_forall {X Y} (f g : X -> Y) (xs : list X) : Forall (fun x => f x = g x) xs -> map f xs = map g xs.
Proof. induction 1 as [|x xs Hx _ IH]; [done|]. cbn [map]. by rewrite Hx, IH. Qed.

Lemma tmap_tmap f g t : tmap f (tmap g t) = tmap (fun o => f (g o)) t.
Proof.
  induction t as [o ch IH] using obj_tree_ind'. cbn [tmap]. f_equal. rewrite map_map. by apply map_forall.
Qed.

Lemma tree_objs_tmap f t : tree_objs (tmap f t) = map f (tree_objs t).
Proof.
  induction t as [o ch IH] using obj_tree_ind'. cbn [tmap]. rewrite !tree_objs_node. cbn [map]. f_equal.
  unfold forest_objs. rewrite concat_map, !map_map. f_equal. by apply map_forall.
Qed.

Lemma forest_objs_tmap f ts : forest_objs (map (tmap f) ts) = map f (forest_objs ts).
Proof.
  unfold forest_objs. rewrite concat_map, !map_map. f_equal. apply map_ext. intros t. apply tree_objs_tmap.
Qed.

Lemma tmap_ext_in f g t : Forall (fun o => f o = g o) (tree_objs t) -> tmap f t = tmap g t.
Proof.
  induction t as [o ch IH] using obj_tree_ind'. rewrite tree_objs_node. intros [Ho Hch]%Forall_cons. cbn [tmap].
  rewrite Ho. f_equal. apply map_forall. clear Ho. induction IH as [|c ch Hc _ IHch]; constructor;
    rewrite forest_objs_cons in Hch; apply Forall_app in Hch as [H1 H2]; auto.
Qed.

Lemma tmap_id_in f t : Forall (fun o => f o = o) (tree_objs t) -> tmap f t = t.
Proof.
  intros Hf. rewrite (tmap_ext_in f (fun o => o)) by done. clear Hf. induction t as [o ch IH] using obj_tree_ind'.
  cbn [tmap]. f_equal. rewrite <- (map_id ch) at 2. by apply map_forall.
Qed.

Lemma tree_size_tmap f t : tree_size (tmap f t) = tree_size t.
Proof.
  induction t as [o ch IH] using obj_tree_ind'. cbn [tmap tree_size]. f_equal.
  induction IH as [|c ch Hc _ IHch]; [done|]. cbn [map foldr]. by rewrite Hc, IHch.
Qed.

(** ** What the passes keep *)

(** An object without sets and memory; with its cpusets only. *)
Definition core o : hwloc_obj B := with_memory (with_sets o no_sets) (mk_memory 0 0 []).
Definition cpu_core o : hwloc_obj B :=
  with_memory (with_sets o (mk_sets (cpuset (sets o)) (complete_cpuset (sets o)) (online_cpuset (sets o))
    (allowed_cpuset (sets o)) None None None)) (mk_memory 0 0 []).

Lemma core_cpu_core o : core (cpu_core o) = core o.
Proof. done. Qed.

Definition same_core t t' : Prop := tmap core t = tmap core t'.
Definition same_cpus t t' : Prop := tmap cpu_core t = tmap cpu_core t'.

#[export] Instance same_core_equiv : Equivalence same_core.
Proof. split; unfold same_core; red; congruence. Qed.
#[export] Instance same_cpus_equiv : Equivalence same_cpus.
Proof. split; unfold same_cpus; red; congruence. Qed.

Lemma same_cpus_core t t' : same_cpus t t' -> same_core t t'.
Proof.
  unfold same_cpus, same_core. intros Heq. apply (f_equal (tmap core)) in Heq. by rewrite !tmap_tmap in Heq.
Qed.

Lemma core_facts o o' : core o = core o' ->
  o_addr o = o_addr o' /\ o_type o = o_type o' /\ os_index o = os_index o' /\ attr o = attr o' /\ o_name o = o_name o'.
Proof. destruct o, o'. unfold core, with_memory, with_sets. simpl. by intros [=]; subst. Qed.

Lemma cpu_core_facts o o' : cpu_core o = cpu_core o' ->
  core o = core o' /\ ocpuset o = ocpuset o' /\ complete_cpuset (sets o) = complete_cpuset (sets o') /\
  online_cpuset (sets o) = online_cpuset (sets o') /\ allowed_cpuset (sets o) = allowed_cpuset (sets o').
Proof.
  intros Heq. split; [by rewrite <- core_cpu_core, Heq|]. destruct o, o'.
  unfold cpu_core, with_memory, with_sets in Heq. unfold ocpuset. simpl in *. by injection Heq; intros; subst.
Qed.

(** A fact on objects that only looks at the kept part. *)
Lemma map_via {X Y Z} (f : X -> Y) (g : Y -> Z) (h : X -> Z) (xs ys : list X) :
  (forall x, h x = g (f x)) -> map f xs = map f ys -> map h xs = map h ys.
Proof.
  intros Hh Heq. rewrite !(map_ext h (fun x => g (f x))) by done. rewrite <- !(map_map f g). by rewrite Heq.
Qed.

Lemma same_core_objs t t' : same_core t t' -> map core (tree_objs t) = map core (tree_objs t').
Proof. intros Heq. by rewrite <- !tree_objs_tmap, Heq. Qed.

Lemma same_cpus_objs t t' : same_cpus t t' -> map cpu_core (tree_objs t) = map cpu_core (tree_objs t').
Proof. intros Heq. by rewrite <- !tree_objs_tmap, Heq. Qed.

Lemma same_core_addrs t t' : same_core t t' -> map o_addr (tree_objs t) = map o_addr (tree_objs t').
Proof. intros Heq. apply (map_via core o_addr); [done|by apply same_core_objs]. Qed.

Lemma same_core_types t t' : same_core t t' -> map o_type (tree_objs t) = map o_type (tree_objs t').
Proof. intros Heq. apply (map_via core o_type); [done|by apply same_core_objs]. Qed.

Lemma same_core_distinct t t' : same_core t t' -> distinct (tree_objs t) -> distinct (tree_objs t').
Proof. intros Heq. unfold distinct. by rewrite (same_core_addrs t t'). Qed.

Lemma Forall_same_types (P : hwloc_obj_type_t -> Prop) t t' :
  same_core t t' -> Forall (fun o => P (o_type o)) (tree_objs t) -> Forall (fun o => P (o_type o)) (tree_objs t').
Proof.
  intros Heq. rewrite <- !(Forall_map o_type P). by rewrite (same_core_types t t').
Qed.

Lemma Forall_same_cpus (P : hwloc_obj B -> Prop) t t' :
  (forall o o', cpu_core o = cpu_core o' -> P o -> P o') -> same_cpus t t' ->
  Forall P (tree_objs t) -> Forall P (tree_objs t').
Proof.
  intros HP Heq Hall. apply same_cpus_objs in Heq. revert Heq. generalize (tree_objs t').
  induction Hall as [|o os Ho _ IH]; intros [|o' os'] Heq; try done. apply cons_eq_inj in Heq as [Ho' Heq].
  constructor; [by apply (HP o)|auto].
Qed.

(** ** Passes that map the children from one to the next *)

Lemma thread_same {S} (f : S -> obj_tree B -> option (S * obj_tree B)) (g : hwloc_obj B -> hwloc_obj B) s ts s' ts' :
  (forall s t s' t', t ∈ ts -> f s t = Some (s', t') -> tmap g t' = tmap g t) ->
  thread f s ts = Some (s', ts') -> map (tmap g) ts' = map (tmap g) ts.
Proof.
  intros Hf. revert s ts'. induction ts as [|t ts IH]; intros s ts' Hth.
  { by injection Hth as <- <-. }
  rewrite thread_cons in Hth. destruct (f s t) as [[s1 t']|] eqn:Ht; [|done]. cbn [mbind option_bind] in Hth.
  destruct (thread f s1 ts) as [[s2 ts1]|] eqn:Hts; [|done]. cbn [mbind option_bind] in Hth. injection Hth as <- <-.
  cbn [map]. f_equal; [by eapply Hf; [left|]|]. eapply IH; [|exact Hts]. intros ? ? ? ? ?. apply Hf. by right.
Qed.

Lemma thread_map {S} (f : S -> obj_tree B -> option (S * obj_tree B)) (g : obj_tree B -> obj_tree B) s ts :
  Forall (fun t => f s t = Some (s, g t)) ts -> thread f s ts = Some (s, map g ts).
Proof.
  induction 1 as [|t ts Ht _ IH]; [done|]. rewrite thread_cons, Ht. cbn [mbind option_bind]. by rewrite IH.
Qed.

End Shape.

Section Uniform.
Context {B : Type} `{CpusetOps B}.
Implicit Types t : obj_tree B.
Implicit Types ts : list (obj_tree B).

Definition next_layer ts : list (obj_tree B) := concat (map t_children ts).

(** The layers of [ts] are of the kinds [ks]. *)
Fixpoint uniform (ks : list (hwloc_obj_type_t * Z)) ts : Prop :=
  match ks with
  | [] => ts = []
  | k :: ks => ts <> [] /\ Forall (fun t => placed t /\ level_kind t = k) ts /\ uniform ks (next_layer ts)
  end.

Fixpoint layers (n : nat) ts : list (list (obj_tree B)) :=
  match n with O => [] | S n => ts :: layers n (next_layer ts) end.

Lemma length_layers n ts : length (layers n ts) = n.
Proof. revert ts. induction n as [|n IH]; intros ts; [done|]. cbn [layers length]. by rewrite IH. Qed.

Lemma next_layer_cons t ts : next_layer (t :: ts) = t_children t ++ next_layer ts.
Proof. done. Qed.

Lemma forest_objs_next ts : length (forest_objs ts) = (length ts + length (forest_objs (next_layer ts)))%nat.
Proof.
  induction ts as [|[o ch] ts IH]; [done|].
  rewrite next_layer_cons, forest_objs_app, forest_objs_cons, tree_objs_node, !length_app, IH. simpl. lia.
Qed.

Lemma uniform_size ks ts : uniform ks ts -> (length ks <= length (forest_objs ts))%nat.
Proof.
  revert ts. induction ks as [|k ks IH]; intros ts; [simpl; lia|]. intros (Hne & _ & Hu). specialize (IH _ Hu).
  rewrite forest_objs_next. destruct ts; [done|]. simpl in *. lia.
Qed.

(** ** One turn of the loop *)

Lemma topmost_uniform k ts : ts <> [] -> Forall (fun t => placed t /\ level_kind t = k) ts ->
  exists top, topmost_object ts = Some top /\ placed top /\ level_kind top = k.
Proof.
  intros Hne Hts. destruct (topmost_object_in ts Hne) as (top & Htop & Hin). exists top. split; [done|].
  rewrite Forall_forall in Hts. by apply Hts.
Qed.

Lemma take_uniform k top ts : placed top -> level_kind top = k ->
  Forall (fun t => placed t /\ level_kind t = k) ts -> hwloc_level_take_objects top ts = (ts, next_layer ts).
Proof.
  intros Hp Hk. induction 1 as [|t ts [Ht Hkt] _ IH]; [done|]. cbn [hwloc_level_take_objects]. rewrite IH.
  by rewrite (proj2 (same_type_kind top t Hp Ht)) by congruence.
Qed.

Lemma filter_placed ts s : Forall placed ts -> hwloc_level_filter_objects ts s = Some (ts, s).
Proof.
  intros Hts. unfold hwloc_level_filter_objects.
  assert (existsb filtered_out ts = false) as ->; [|done].
  induction Hts as [|t ts Ht _ IH]; [done|]. cbn [existsb]. unfold placed in Ht. by rewrite Ht, IH.
Qed.

Lemma uniform_placed ks ts : uniform ks ts -> Forall placed ts.
Proof.
  destruct ks as [|k ks]; [by intros ->|]. intros (_ & Hts & _). eapply Forall_impl; [exact Hts|]. by intros t [? _].
Qed.

Lemma build_level_uniform k ks ts ls : uniform (k :: ks) ts -> nb_levels ls < HWLOC_DEPTH_MAX ->
  exists ls', build_level ts ls = Some (next_layer ts, ls') /\ levels ls' = levels ls ++ [ts] /\
    io_ends (ls_io ls') = io_ends (ls_io ls).
Proof.
  intros (Hne & Hts & Hu) Hlt. destruct (topmost_uniform k ts Hne Hts) as (top & Htop & Hp & Hk).
  unfold build_level. rewrite Htop. cbn [mbind option_bind]. rewrite (take_uniform k) by done.
  destruct (Z.ltb_spec (nb_levels ls) HWLOC_DEPTH_MAX); [|lia].
  rewrite filter_placed by (by eapply uniform_placed). cbn [mbind option_bind]. by eexists.
Qed.

Lemma build_uniform ks ts ls fuel : uniform ks ts -> (length ks <= fuel)%nat ->
  nb_levels ls + Z.of_nat (length ks) <= HWLOC_DEPTH_MAX ->
  exists ls', build_levels fuel ts ls = Some ls' /\ levels ls' = levels ls ++ layers (length ks) ts /\
    io_ends (ls_io ls') = io_ends (ls_io ls).
Proof.
  revert ts ls fuel. induction ks as [|k ks IH]; intros ts ls fuel Hu Hfuel Hmax.
  { rewrite Hu. exists ls. by destruct fuel; rewrite app_nil_r. }
  destruct fuel as [|fuel]; [simpl in Hfuel; lia|]. cbn [length] in *.
  destruct (build_level_uniform k ks ts ls Hu) as (ls1 & Hb & Hl1 & He1); [lia|].
  destruct Hu as (Hne & Hts & Hu). destruct ts as [|t ts]; [done|]. cbn [build_levels]. rewrite Hb. cbn [mbind option_bind].
  destruct (IH (next_layer (t :: ts)) ls1 fuel Hu) as (ls2 & Hb2 & Hl2 & He2); [lia| |].
  { unfold nb_levels in *. rewrite Hl1, length_app. simpl. lia. }
  exists ls2. split; [done|]. split; [|congruence]. rewrite Hl2, Hl1, <- app_assoc. done.
Qed.

(** ** The whole of [hwloc_connect_levels] *)

Lemma connect_levels_uniform ks root st :
  distinct (tree_objs root) -> uniform ks (t_children root) -> Z.of_nat (length ks) < HWLOC_DEPTH_MAX ->
  exists tl, hwloc_connect_levels root st = Some tl /\
    levels (tl_levels tl) = [root] :: layers (length ks) (t_children root).
Proof.
  intros Hd Hu Hmax. unfold hwloc_connect_levels. rewrite filter_placed by by eapply uniform_placed.
  cbn [mbind option_bind].
  set (ls := mk_levels _ _ _).
  destruct (build_uniform ks (t_children root) ls (tree_size root) Hu) as (ls' & -> & Hl & He).
  { rewrite <- objs_size. pose proof (uniform_size _ _ Hu). destruct root as [o ch]. rewrite tree_objs_node. simpl in *. lia. }
  { unfold nb_levels, ls. simpl. lia. }
  cbn [mbind option_bind]. rewrite He. cbn [ls ls_io io_ends fmap option_fmap option_map hwloc_build_level_from_list mbind option_bind].
  destruct (propagate_tree root (io_links (ls_io ls')) Hd) as (st' & -> & _). cbn [mbind option_bind]. by eexists.
Qed.

(** ** Trees of one shape *)

Lemma next_layer_tmap f ts : next_layer (map (tmap f) ts) = map (tmap f) (next_layer ts).
Proof.
  unfold next_layer. rewrite concat_map, !map_map. f_equal. apply map_ext. intros t. apply t_children_tmap.
Qed.

Lemma layers_tmap f n ts : layers n (map (tmap f) ts) = map (map (tmap f)) (layers n ts).
Proof.
  revert ts. induction n as [|n IH]; intros ts; [done|]. cbn [layers map]. by rewrite next_layer_tmap, IH.
Qed.

Lemma uniform_tmap f ks ts : (forall o, o_type (f o) = o_type o /\ attr (f o) = attr o) ->
  uniform ks (map (tmap f) ts) <-> uniform ks ts.
Proof.
  intros Hf. revert ts. induction ks as [|k ks IH]; intros ts; cbn [uniform].
  { by destruct ts. }
  rewrite next_layer_tmap, IH, Forall_map.
  assert (forall t, placed (tmap f t) /\ level_kind (tmap f t) = k <-> placed t /\ level_kind t = k) as Heq.
  { intros [o ch]. unfold placed, filtered_out, level_kind, t_type. cbn [tmap t_obj]. destruct (Hf o) as [-> ->]. done. }
  split; intros (Hne & Hts & Hu); (split; [by destruct ts|split; [|done]]);
    (eapply Forall_impl; [exact Hts|]); intros t; by apply Heq.
Qed.

Lemma uniform_same ks ts ts' : map (tmap core) ts = map (tmap core) ts' -> uniform ks ts -> uniform ks ts'.
Proof.
  intros Heq Hu. apply (uniform_tmap core); [done|]. rewrite <- Heq. by apply uniform_tmap.
Qed.

End Uniform.
