(* ===== verification/Discover.v ===== *)
(** * Discover: from a backend to a loaded topology ([src/topology.c])

    [hwloc_discover] and the calls that create, configure and load a topology.  The
    passes are those of Sets.v, Clean.v and Levels.v; here they are composed in the
    order of the code.

    The backend of the operating system is a parameter: what it inserts below the
    root.  The XML backend, the environment variables, distance matrices (without
    any, [hwloc_group_by_distances] and the [hwloc_distances_*] calls do nothing),
    libpci, the support flags and failures of malloc are not modelled; the binding
    hooks are in Bind.v. *)

From stdpp Require Import gmap.
From Stdlib Require Import String.
From S2P Require Import Prelude Misc Bitmap CString Cpuset Obj Clean Levels Sets Traversal Synthetic.

Section Discover.
Context {B : Type} `{CpusetOps B}.
Implicit Types root : obj_tree B.

(** [qsort] of the C library. *)
Context (qsort : (Z * Z -> Z * Z -> Z) -> list (Z * Z) -> list (Z * Z)).

(** What the pointer to the root leads to after a visit; without an object the
    code aborts. *)
Definition root_of (v : visit B) : option (obj_tree B) :=
  match visited v with [t] => Some t | _ => None end.

Definition on_root (f : hwloc_obj B -> hwloc_obj B) root : obj_tree B := let 'Node o ch := root in Node (f o) ch.

(** From "tweak a bit to clean the topology" on: the sets. *)
Definition tweak_sets (flags : Z) root : option (obj_tree B) :=
  let! (_, root) := collect_proc_cpuset root None in
  let! (_, root) := propagate_unused_cpuset root None in
  let root := on_root drop_empty_nodesets root in
  let! root := propagate_nodeset root (t_obj root) false in
  let! root := propagate_nodesets root (t_obj root) in
  if negb (has_flag flags HWLOC_TOPOLOGY_FLAG_WHOLE_SYSTEM) then
    let! root := remove_unused_cpusets root in
    Some (apply_nodeset root None)
  else Some root.

(** From "Removing ignored objects" on: the objects. *)
Definition clean_objects (ign : ignored_types) root : option (obj_tree B) :=
  let! v := remove_ignored (tree_size root) ign true root in
  let! root := root_of v in
  let! v := remove_empty (tree_size root) root in
  let! root := root_of v in
  let! v := merge_useless_child (tree_size root) ign root in
  let! root := root_of v in
  add_default_object_sets root false.

(** The links of the objects of [root]: the other ones were freed. *)
Definition live_links root (st : links_store) : links_store :=
  filter (fun '(a, _) => a ∈ map o_addr (tree_objs root)) st.

(** [hwloc_connect_children] and [hwloc_connect_levels] on the root. *)
Definition connect root (st : links_store) : option (topology_levels (B := B)) :=
  hwloc_connect_levels root (hwloc_connect_children root (live_links root st)).

Definition links_of (tl : topology_levels (B := B)) : links_store := io_links (ls_io (tl_levels tl)).

(** The part of [hwloc_discover] that follows the backend.  [gotsomeio] starts
    with 1, so the second connection always happens. *)
Definition finish_discovery (flags : Z) (ign : ignored_types) root
  : option (obj_tree B * topology_levels (B := B)) :=
  let! root := tweak_sets flags root in
  let! root := clean_objects ign root in
  let! tl := connect root ∅ in
  let 'Node o ch := propagate_total_memory qsort root in
  let! ch := hwloc_drop_useless_io (S (forest_size ch)) flags ch in
  let root := Node o ch in
  let! tl := connect root (links_of tl) in
  Some (hwloc_propagate_bridge_depth root 0, tl).

(** ** [struct hwloc_topology] *)

Inductive hwloc_backend_t :=
  | HWLOC_BACKEND_NONE
  | HWLOC_BACKEND_SYNTHETIC (params : list synthetic_level) (description : string)
  | HWLOC_BACKEND_CUSTOM.

Record hwloc_topology := mk_hwloc_topology {
  is_loaded : bool;
  topology_flags : Z;
  ignored : ignored_types;
  is_thissystem : bool;
  backend_type : hwloc_backend_t;
  top : obj_tree B;                               (** [levels[0][0]] *)
  connected_levels : option (topology_levels (B := B));  (** links and levels, once loaded *)
  next_addr : Z;                                  (** the next free address *)
}.

(** The state consulted once loaded. *)
Definition topology_view (g : hwloc_topology) : option (topology B) :=
  let! tl := connected_levels g in Some (topology_of (top g) tl).

(** [hwloc_topology_clear] frees the former objects; the new root object has the
    links of [null_links]. *)
Definition hwloc_topology_setup_defaults (g : hwloc_topology) : hwloc_topology :=
  mk_hwloc_topology (is_loaded g) (topology_flags g) (ignored g) (is_thissystem g) (backend_type g)
    (Node (hwloc_alloc_setup_object (next_addr g) HWLOC_OBJ_MACHINE 0) []) None (next_addr g + 1).

Definition with_backend (g : hwloc_topology) (b : hwloc_backend_t) : hwloc_topology :=
  mk_hwloc_topology (is_loaded g) (topology_flags g) (ignored g) (is_thissystem g) b (top g)
    (connected_levels g) (next_addr g).
Definition with_is_loaded (g : hwloc_topology) (l : bool) : hwloc_topology :=
  mk_hwloc_topology l (topology_flags g) (ignored g) (is_thissystem g) (backend_type g) (top g)
    (connected_levels g) (next_addr g).
Definition with_is_thissystem (g : hwloc_topology) (i : bool) : hwloc_topology :=
  mk_hwloc_topology (is_loaded g) (topology_flags g) (ignored g) i (backend_type g) (top g)
    (connected_levels g) (next_addr g).
Definition with_top (g : hwloc_topology) root (next : Z) : hwloc_topology :=
  mk_hwloc_topology (is_loaded g) (topology_flags g) (ignored g) (is_thissystem g) (backend_type g) root
    (connected_levels g) next.

Definition hwloc_topology_init (addr : Z) : hwloc_topology :=
  hwloc_topology_setup_defaults
    (mk_hwloc_topology false 0 default_ignored true HWLOC_BACKEND_NONE
       (Node (hwloc_alloc_setup_object addr HWLOC_OBJ_MACHINE 0) []) None addr).

Definition hwloc_topology_set_flags (g : hwloc_topology) (flags : Z) : hwloc_topology :=
  mk_hwloc_topology (is_loaded g) flags (ignored g) (is_thissystem g) (backend_type g) (top g)
    (connected_levels g) (next_addr g).

(** The three calls that set [topology->ignored_types]. *)
Definition configure_ignored (g : hwloc_topology) (op : ignore_op) : hwloc_topology :=
  mk_hwloc_topology (is_loaded g) (topology_flags g) (ignore_step (ignored g) op) (is_thissystem g)
    (backend_type g) (top g) (connected_levels g) (next_addr g).

(** [hwloc_backend_custom_exit] resets the tree, loaded or not. *)
Definition hwloc_backend_exit (g : hwloc_topology) : hwloc_topology :=
  let g := match backend_type g with
           | HWLOC_BACKEND_CUSTOM => with_backend (hwloc_topology_setup_defaults g) HWLOC_BACKEND_NONE
           | HWLOC_BACKEND_SYNTHETIC _ _ => with_backend g HWLOC_BACKEND_NONE
           | HWLOC_BACKEND_NONE => g
           end in
  if is_loaded g then with_is_loaded (hwloc_topology_setup_defaults g) false else g.

(** The int returned and the new state; -1 comes with EINVAL. *)
Definition hwloc_topology_set_synthetic (g : hwloc_topology) (description : string) : option (Z * hwloc_topology) :=
  let g := hwloc_backend_exit g in
  let! r := hwloc_backend_synthetic_init (txt description) in
  match r with
  | inl _ => Some (-1, g)
  | inr levels => Some (0, with_is_thissystem (with_backend g (HWLOC_BACKEND_SYNTHETIC levels description)) false)
  end.

Definition hwloc_topology_set_custom (g : hwloc_topology) : hwloc_topology :=
  let g := hwloc_backend_exit g in
  let g := with_top g (on_root (fun o => with_type o HWLOC_OBJ_SYSTEM) (top g)) (next_addr g) in
  with_backend (with_is_thissystem g false) HWLOC_BACKEND_CUSTOM.

(** ** Loading *)

(** The objects that the backend of the operating system adds below the root, and
    the next free address. *)
Context (look_os : obj_tree B -> Z -> option (obj_tree B * Z)).

Definition HWLOC_TOPOLOGY_FLAG_IS_THISSYSTEM : Z := 2.

(** The backend's part of [hwloc_discover]. *)
Definition look (g : hwloc_topology) : option (obj_tree B * Z) :=
  match backend_type g with
  | HWLOC_BACKEND_SYNTHETIC levels description =>
      hwloc_look_synthetic levels description (on_root alloc_cpusets (top g)) (next_addr g)
  | HWLOC_BACKEND_CUSTOM => Some (top g, next_addr g)
  | HWLOC_BACKEND_NONE => look_os (on_root alloc_cpusets (top g)) (next_addr g)
  end.

Definition hwloc_discover (g : hwloc_topology) : option hwloc_topology :=
  let! (root, next) := look g in
  let! (root, tl) := finish_discovery (topology_flags g) (ignored g) root in
  let thissystem := is_thissystem g || has_flag (topology_flags g) HWLOC_TOPOLOGY_FLAG_IS_THISSYSTEM in
  Some (mk_hwloc_topology (is_loaded g) (topology_flags g) (ignored g) thissystem (backend_type g) root (Some tl) next).

Definition hwloc_topology_load (g : hwloc_topology) : option hwloc_topology :=
  let g := if is_loaded g then with_is_loaded (hwloc_topology_setup_defaults g) false else g in
  let! g := hwloc_discover g in
  Some (with_is_loaded g true).

(** ** Restricting a loaded topology *)

(** The int returned and the new state; -1 comes with EINVAL.  The links of the
    objects that were not freed are still there. *)
Definition restrict_topology (g : hwloc_topology) (cpuset : B) (flags : Z) : option (Z * hwloc_topology) :=
  let! tl := connected_levels g in
  let! r := Clean.hwloc_topology_restrict (top g) cpuset flags in
  match r with
  | None => Some (-1, g)
  | Some v =>
      let! root := root_of v in
      let! tl := connect root (links_of tl) in
      let root := propagate_total_memory qsort root in
      Some (0, mk_hwloc_topology (is_loaded g) (topology_flags g) (ignored g) (is_thissystem g) (backend_type g)
                 root (Some tl) (next_addr g))
  end.

End Discover.

Arguments hwloc_topology B : clear implicits.
