(* ===== verification/DiscoverOk.v ===== *)
(** * DiscoverOk: the passes of a discovery, one after the other *)

From stdpp Require Import gmap.
From S2P Require Import Prelude Cpuset Obj ObjCmp Insert Clean CleanOk LevelsOk Sets Shape Discover.

Section DiscoverOk.
Context {B : Type} `{Cpuset B}.
Implicit Types t : obj_tree B.
Implicit Types o : hwloc_obj B.

(** ** CPU sets *)

(** An object as backends insert them: a cpuset, and no other set of CPUs. *)
Definition bare o : Prop :=
  is_Some (ocpuset o) /\ complete_cpuset (sets o) = None /\ online_cpuset (sets o) = None /\
  allowed_cpuset (sets o) = None.

(** What [propagate_unused_cpuset] makes of it. *)
Definition unused_in (s : sys_sets (B := B)) o : hwloc_obj B :=
  let c := b_and (cs o) (sys_cpuset s) in
  set_cpusets o c (b_and (sys_complete s) c) (b_and (sys_online s) c) (b_and (sys_allowed s) c).

Lemma unused_bare s t : Forall bare (tree_objs t) ->
  propagate_unused_cpuset t (Some s) = Some (Some s, tmap (unused_in s) t).
Proof.
  induction t as [o ch IH] using obj_tree_ind'. rewrite tree_objs_node. intros [Ho Hch]%Forall_cons.
  destruct Ho as ([c Hc] & Hm & Hon & Hal). cbn [propagate_unused_cpuset]. rewrite Hc, Hm, Hon, Hal.
  cbn [update_unused]. destruct s as [sc sm son sal]. cbn [sys_cpuset sys_complete sys_online sys_allowed].
  rewrite (thread_map _ (tmap (unused_in (mk_sys sc sm son sal)))).
  - cbn [mbind option_bind tmap]. unfold unused_in, cs. by rewrite Hc.
  - clear -IH Hch. induction IH as [|t ts Ht _ IHts]; [done|]. rewrite forest_objs_cons in Hch.
    apply Forall_app in Hch as [H1 H2]. constructor; [by apply Ht|by apply IHts].
Qed.

Definition use o : hwloc_obj B :=
  match ocpuset o, online_cpuset (sets o), allowed_cpuset (sets o) with
  | Some c, Some on, Some al => with_cpuset o (Some (b_and (b_and c on) al))
  | _, _, _ => o
  end.

(** The four sets of CPUs are there. *)
Definition four_cpusets o : Prop :=
  is_Some (ocpuset o) /\ is_Some (complete_cpuset (sets o)) /\ is_Some (online_cpuset (sets o)) /\
  is_Some (allowed_cpuset (sets o)).

Lemma remove_unused_four t : Forall four_cpusets (tree_objs t) -> remove_unused_cpusets t = Some (tmap use t).
Proof.
  induction t as [o ch IH] using obj_tree_ind'. rewrite tree_objs_node. intros [Ho Hch]%Forall_cons.
  destruct Ho as ([c Hc] & _ & [on Hon] & [al Hal]). cbn [remove_unused_cpusets tmap]. unfold use at 1.
  rewrite Hc, Hon, Hal. cbn [mbind option_bind].
  rewrite (thread_map _ (tmap use)); [done|].
  clear -IH Hch. induction IH as [|t ts Ht _ IHts]; [done|]. rewrite forest_objs_cons in Hch.
  apply Forall_app in Hch as [H1 H2]. constructor; [by rewrite Ht|by apply IHts].
Qed.

(** ** Node sets: the passes leave the cpusets alone *)

Lemma cpu_core_nodeset o n : cpu_core (with_nodeset o n) = cpu_core o.
Proof. done. Qed.

Lemma start_nodeset_core o h : forall h' w o', start_nodeset o h = (h', w, o') -> cpu_core o' = cpu_core o.
Proof.
  unfold start_nodeset. intros h' w o'.
  destruct h, (onodeset o) as [n|] eqn:Hn; unfold onodeset in *; simpl; rewrite ?Hn; intros Heq; by inversion Heq.
Qed.

Lemma singleton_down_core n o o' : singleton_down n o = Some o' -> cpu_core o' = cpu_core o.
Proof.
  unfold singleton_down. destruct n as [p|]; [|done]. cbn [mbind option_bind].
  destruct (onodeset o); [destruct (b_isequal _ _)|]; by intros [= <-].
Qed.

Lemma propagate_nodeset_core t o h t' :
  propagate_nodeset t o h = Some t' -> tmap cpu_core t' = Node (cpu_core o) (map (tmap cpu_core) (t_children t)).
Proof.
  revert o h t'. induction t as [ot ch IH] using obj_tree_ind'. intros o h t'. cbn [propagate_nodeset t_children].
  destruct (start_nodeset o h) as [[h1 w] o1] eqn:Hst. apply start_nodeset_core in Hst.
  destruct (thread _ (onodeset o1, false) ch) as [[[n st] ch']|] eqn:Hth; [|done]. cbn [mbind option_bind].
  intros [= <-]. cbn [tmap]. rewrite cpu_core_nodeset, Hst. f_equal. revert Hth. apply thread_same.
  intros [n1 s1] c [n2 s2] c' Hin. destruct (s1 || _); [by intros [= _ _ <-]|].
  destruct (if w =? 1 then singleton_down n1 (t_obj c) else Some (t_obj c)) as [co|] eqn:Hco; [|done].
  cbn [mbind option_bind].
  assert (cpu_core co = cpu_core (t_obj c)) as Hcc.
  { destruct (w =? 1); [by eapply singleton_down_core|by injection Hco as <-]. }
  destruct (propagate_nodeset c co h1) as [c1|] eqn:Hc1; [|done]. cbn [mbind option_bind].
  rewrite Forall_forall in IH. apply (IH c Hin) in Hc1.
  intros Heq. assert (c' = c1) as ->.
  { destruct h1, (onodeset (t_obj c1)), n1; cbn [mbind option_bind] in Heq; try done; by injection Heq. }
  rewrite Hc1, Hcc. by destruct c.
Qed.

Lemma propagate_nodesets_core t o t' :
  propagate_nodesets t o = Some t' -> tmap cpu_core t' = Node (cpu_core o) (map (tmap cpu_core) (t_children t)).
Proof.
  revert o t'. induction t as [ot ch IH] using obj_tree_ind'. intros o t'. cbn [propagate_nodesets t_children].
  destruct (thread _ (allowed_nodeset (sets o)) ch) as [[a ch']|] eqn:Hth; [|done]. cbn [mbind option_bind].
  intros [= <-]. cbn [tmap]. f_equal.
  { unfold apply_complete_nodeset. destruct (onodeset _); [|done]. simpl. by destruct (complete_nodeset (sets o)). }
  revert Hth. apply thread_same. intros a1 c a2 c' Hin.
  destruct (hwloc_obj_type_is_io _); [by intros [= _ <-]|].
  match goal with |- (let! _ := ?m in _) = _ -> _ => destruct m as [co|] eqn:Hco; [|done] end.
  assert (cpu_core co = cpu_core (t_obj c)) as Hcc.
  { destruct (onodeset o); [|by injection Hco as <-].
    destruct (nodeset_down (complete_nodeset _) _ _) as [x|]; cbn [mbind option_bind] in Hco; [|done].
    destruct (nodeset_down _ _ _) as [y|]; cbn [mbind option_bind] in Hco; [|done]. by injection Hco as <-. }
  cbn [mbind option_bind]. destruct (propagate_nodesets c co) as [c1|] eqn:Hc1; [|done]. cbn [mbind option_bind].
  rewrite Forall_forall in IH. apply (IH c Hin) in Hc1. intros Heq. assert (c' = c1) as ->.
  { destruct (onodeset o); [destruct (allowed_up a1 (t_obj c1)); [|done]|]; cbn [mbind option_bind] in Heq; by injection Heq. }
  rewrite Hc1, Hcc. by destruct c.
Qed.

Lemma apply_nodeset_core t s : same_cpus (apply_nodeset t s) t.
Proof.
  unfold same_cpus. revert s. induction t as [o ch IH] using obj_tree_ind'. intros s. cbn [apply_nodeset].
  destruct s as [a|]; cbn [tmap]; f_equal.
  - by destruct (_ && _).
  - rewrite map_map. apply map_forall. eapply Forall_impl; [exact IH|]. intros c Hc. apply Hc.
  - rewrite map_map. apply map_forall. eapply Forall_impl; [exact IH|]. intros c Hc. apply Hc.
Qed.

(** Without nodesets the passes have nothing to do. *)
Definition no_nodesets o : Prop := onodeset o = None /\ complete_nodeset (sets o) = None /\ allowed_nodeset (sets o) = None.

Lemma with_same_nodeset o : with_nodeset o (onodeset o) = o.
Proof. by destruct o as [? ? ? ? ? ? ? [] ? ?]. Qed.

Lemma with_same_allowed o : with_allowed_nodeset o (allowed_nodeset (sets o)) = o.
Proof. by destruct o as [? ? ? ? ? ? ? [] ? ?]. Qed.

Lemma thread_stays {N X} (f : N * bool -> X -> option ((N * bool) * X)) n s xs :
  (forall s x, x ∈ xs -> exists s', f (n, s) x = Some ((n, s'), x)) ->
  exists s', thread f (n, s) xs = Some ((n, s'), xs).
Proof.
  revert s. induction xs as [|x xs IH]; intros s Hf; [by exists s|].
  destruct (Hf s x) as [s1 Hs1]; [by left|]. rewrite thread_cons, Hs1. cbn [mbind option_bind].
  destruct (IH s1) as [s2 ->]; [intros ? ? ?; apply Hf; by right|]. by exists s2.
Qed.

Lemma propagate_nodeset_none t : Forall (fun o => onodeset o = None) (tree_objs t) ->
  propagate_nodeset t (t_obj t) false = Some t.
Proof.
  induction t as [o ch IH] using obj_tree_ind'. rewrite tree_objs_node. intros [Ho Hch]%Forall_cons.
  cbn [propagate_nodeset t_obj]. unfold start_nodeset. rewrite Ho.
  match goal with |- context [thread ?f ?s ch] => destruct (thread_stays f (onodeset o) false ch) as [s' ->] end.
  - intros s c Hc. destruct s; [by exists true|]. cbn [orb].
    destruct (hwloc_obj_type_is_io _); [by exists true|]. exists false. cbn [Z.eqb mbind option_bind].
    rewrite Forall_forall in IH. rewrite Forall_forall in Hch. rewrite (IH c Hc); [done|].
    apply Forall_forall. intros p Hp. apply Hch. apply elem_of_forest_objs. by exists c.
  - cbn [mbind option_bind]. by rewrite with_same_nodeset.
Qed.

Lemma propagate_nodesets_none t : Forall (fun o => onodeset o = None) (tree_objs t) ->
  propagate_nodesets t (t_obj t) = Some t.
Proof.
  induction t as [o ch IH] using obj_tree_ind'. rewrite tree_objs_node. intros [Ho Hch]%Forall_cons.
  cbn [propagate_nodesets t_obj]. rewrite Ho.
  rewrite (thread_map _ (fun c => c)).
  - cbn [mbind option_bind]. rewrite map_id, with_same_allowed. unfold apply_complete_nodeset. by rewrite Ho.
  - clear Ho. induction IH as [|c ch Hc _ IHch]; [done|]. rewrite forest_objs_cons in Hch.
    apply Forall_app in Hch as [H1 H2]. constructor; [|by apply IHch].
    destruct (hwloc_obj_type_is_io _); [done|]. cbn [mbind option_bind]. by rewrite (Hc H1).
Qed.

(** ** The sets, altogether *)

(** The CPUs that stay, from the sets [s] of the root. *)
Definition usable (whole : bool) (s : sys_sets (B := B)) (i : Z) : bool :=
  bm (sys_cpuset s) i && (whole || bm (sys_online s) i && bm (sys_allowed s) i).

(** What becomes of the cpusets of an object below the root. *)
Definition settle (whole : bool) (s : sys_sets (B := B)) o : hwloc_obj B :=
  if whole then unused_in s o else use (unused_in s o).

Lemma settle_cs whole s o i : 0 <= i -> bm (cs (settle whole s o)) i = bm (cs o) i && usable whole s i.
Proof.
  intros Hi. unfold settle, usable, cs. destruct whole; unfold unused_in, use, cs; cbn -[b_and]; rewrite ?bm_and by done.
  - by rewrite andb_true_r.
  - cbn [orb]. destruct (bm (default b_alloc (ocpuset o)) i), (bm (sys_cpuset s) i), (bm (sys_online s) i), (bm (sys_allowed s) i); done.
Qed.

Lemma settle_core whole s o : core (settle whole s o) = core o.
Proof. by destruct whole. Qed.

Lemma settle_four whole s o : four_cpusets (settle whole s o).
Proof. destruct whole; repeat split; by eexists. Qed.

Lemma settle_fin whole s o : bfin (cs o) = true -> bfin (cs (settle whole s o)) = true.
Proof.
  intros Hf. destruct whole; unfold settle, unused_in, use, cs; cbn -[b_and]; rewrite !bfin_and; unfold cs in Hf; by rewrite Hf.
Qed.

Lemma cpu_core_use o : cpu_core (use o) = use (cpu_core o).
Proof. by destruct o as [? ? ? ? ? ? ? [[] ? [] [] ? ? ?] ? ?]. Qed.

Lemma same_cpus_use t t' : same_cpus t t' -> same_cpus (tmap use t) (tmap use t').
Proof.
  unfold same_cpus. intros Heq. rewrite !tmap_tmap.
  rewrite !(tmap_ext_in (fun o => cpu_core (use o)) (fun o => use (cpu_core o)))
    by (apply Forall_forall; intros; apply cpu_core_use).
  by rewrite <- !(tmap_tmap use cpu_core), Heq.
Qed.

Lemma four_cpu_core o o' : cpu_core o = cpu_core o' -> four_cpusets o -> four_cpusets o'.
Proof. intros (_ & H1 & H2 & H3 & H4)%cpu_core_facts. unfold four_cpusets. by rewrite H1, H2, H3, H4. Qed.

Definition not_io o : Prop := hwloc_obj_type_is_io (o_type o) = false.

Lemma no_io_last t : Forall not_io (tree_objs t) -> io_last t.
Proof.
  induction t as [o ch IH] using obj_tree_ind'. rewrite tree_objs_node. intros [_ Hch]%Forall_cons.
  unfold io_last. rewrite tree_nodes_node. constructor.
  - cbn [t_children]. clear IH. induction ch as [|c ch IHch]; [done|]. rewrite forest_objs_cons in Hch.
    apply Forall_app in Hch as [Hc Hch]. cbn [io_children_last]. unfold io_child. destruct c as [oc cc].
    rewrite tree_objs_node in Hc. apply Forall_cons in Hc as [Hc _]. cbn [t_obj]. rewrite Hc. by apply IHch.
  - induction IH as [|c ch Hc _ IHch]; [constructor|]. rewrite forest_objs_cons in Hch.
    apply Forall_app in Hch as [H1 H2]. rewrite forest_nodes_cons. apply Forall_app. split; [by apply Hc|by apply IHch].
Qed.

(** The root and the objects a backend leaves. *)
Record built (ro : hwloc_obj B) (ch : list (obj_tree B)) : Prop := {
  bl_cpus : four_cpusets ro;
  bl_nodes : is_Some (onodeset ro) /\ exists cn, complete_nodeset (sets ro) = Some cn /\
    (bempty cn -> Forall (fun o => onodeset o = None) (forest_objs ch));
  bl_bare : Forall bare (forest_objs ch);
  bl_types : Forall not_io (tree_objs (Node ro ch));
}.

(** The sets of the root during the visit of its descendants. *)
Definition root_sets (ro : hwloc_obj B) (ch : list (obj_tree B)) (s : sys_sets (B := B)) : Prop :=
  forall m on al i, complete_cpuset (sets ro) = Some m -> online_cpuset (sets ro) = Some on ->
    allowed_cpuset (sets ro) = Some al -> 0 <= i ->
    bm (sys_cpuset s) i = pu_member i (forest_objs ch) && bm m i /\
    bm (sys_online s) i = bm on i && bm m i /\ bm (sys_allowed s) i = bm al i && bm m i.

Definition settle_root (whole : bool) (s : sys_sets (B := B)) o : hwloc_obj B :=
  let o := set_cpusets o (sys_cpuset s) (sys_complete s) (sys_online s) (sys_allowed s) in
  if whole then o else use o.

Lemma settle_root_cs whole s o i : 0 <= i -> bm (cs (settle_root whole s o)) i = usable whole s i.
Proof.
  intros Hi. unfold settle_root, usable. destruct whole; unfold cs; cbn -[b_and]; [by rewrite andb_true_r|].
  rewrite !bm_and by done. by rewrite andb_assoc.
Qed.

Lemma collect_root ro ch : is_Some (ocpuset ro) -> Forall bare (forest_objs ch) ->
  exists u, collect_proc_cpuset (Node ro ch) None = Some (None, Node (with_cpuset ro (Some u)) ch) /\
    forall i, 0 <= i -> bm u i = pu_member i (forest_objs ch).
Proof.
  intros [c Hc] Hbare. cbn [collect_proc_cpuset]. rewrite Hc. rewrite Forall_forall in Hbare.
  destruct (collect_thread ch b_alloc) as (u & -> & Hu).
  { apply Forall_forall. intros t _ s. apply collect_ok. }
  { intros o Ho _. by apply Hbare. }
  cbn [mbind option_bind]. exists u. split; [done|]. intros i Hi. by rewrite Hu, bm_alloc.
Qed.

Lemma unused_children s ch : Forall bare (forest_objs ch) ->
  thread (fun sys c => propagate_unused_cpuset c sys) (Some s) ch = Some (Some s, map (tmap (unused_in s)) ch).
Proof.
  intros Hch. apply thread_map. apply Forall_forall. intros t Ht. apply unused_bare.
  rewrite Forall_forall in Hch |- *. intros o Ho. apply Hch. apply elem_of_forest_objs. by exists t.
Qed.

(** The passes on nodesets complete; they leave the cpusets. *)
Lemma nodeset_passes root :
  Forall not_io (tree_objs root) ->
  is_Some (onodeset (t_obj root)) \/ Forall (fun o => onodeset o = None) (tree_objs root) ->
  exists t1 t2, propagate_nodeset root (t_obj root) false = Some t1 /\ propagate_nodesets t1 (t_obj t1) = Some t2 /\
    same_cpus t2 root.
Proof.
  intros Hio [Hn|Hn].
  - destruct root as [o ch]. cbn [t_obj] in *.
    destruct (propagate_nodeset_ok (Node o ch) o false (or_intror Hn) (no_io_last _ Hio))
      as (o' & t1 & Heq & (Hobj & He & _ & n' & Hn' & _) & Hc & Ha).
    destruct (propagate_nodesets_ok t1 o' n' (default (default b_alloc (onodeset o)) (complete_nodeset (sets o)))
      (default (default b_alloc (first_complete o)) (allowed_nodeset (sets o)))) as (t2 & Heq2 & _);
      [by subst o'; destruct t1|done|exact Hc|exact Ha|].
    exists t1, t2. rewrite Hobj. split; [done|]. split; [done|]. unfold same_cpus.
    rewrite (propagate_nodesets_core _ _ _ Heq2). pose proof (propagate_nodeset_core _ _ _ _ Heq) as H1.
    cbn [t_children tmap] in *. destruct t1 as [o1 ch1]. cbn [t_obj t_children] in *. subst o'. exact H1.
  - exists root, root. split; [by apply propagate_nodeset_none|]. split; [by apply propagate_nodesets_none|done].
Qed.

Lemma tweak_sets_ok flags ro ch :
  built ro ch ->
  let whole := has_flag flags HWLOC_TOPOLOGY_FLAG_WHOLE_SYSTEM in
  exists s root', tweak_sets flags (Node ro ch) = Some root' /\ root_sets ro ch s /\
    same_cpus root' (Node (settle_root whole s ro) (map (tmap (settle whole s)) ch)).
Proof.
  intros [Hcpus ([n Hn] & cn & Hcn & Hempty) Hbare Htypes] whole.
  destruct Hcpus as (Hc & [m Hm] & [on Hon] & [al Hal]).
  destruct (collect_root ro ch Hc Hbare) as (u & Hcol & Hu).
  unfold tweak_sets. rewrite Hcol. cbn [mbind option_bind].
  set (s := mk_sys (b_and u m) m (b_and on m) (b_and al m)).
  assert (propagate_unused_cpuset (Node (with_cpuset ro (Some u)) ch) None
    = Some (None, Node (set_cpusets ro (sys_cpuset s) m (sys_online s) (sys_allowed s)) (map (tmap (unused_in s)) ch))) as ->.
  { cbn [propagate_unused_cpuset ocpuset with_cpuset with_sets sets cpuset complete_cpuset online_cpuset allowed_cpuset].
    rewrite Hm, Hon, Hal. cbn [default]. unfold ocpuset. cbn [cpuset sets with_sets].
    fold s. rewrite unused_children by done. cbn [mbind option_bind]. done. }
  cbn [mbind option_bind on_root].
  set (r1 := set_cpusets ro _ _ _ _). set (ch1 := map (tmap (unused_in s)) ch).
  assert (Forall not_io (tree_objs (Node (drop_empty_nodesets r1) ch1))) as Hio1.
  { apply (Forall_same_types (fun ty => hwloc_obj_type_is_io ty = false) (Node ro ch)); [|done].
    unfold same_core. cbn [tmap]. f_equal.
    - unfold drop_empty_nodesets. by destruct (complete_nodeset (sets r1)) as [x|]; [destruct (b_iszero x)|].
    - unfold ch1. rewrite map_map. apply map_ext. intros t. rewrite tmap_tmap. by apply tmap_ext_in, Forall_forall. }
  destruct (nodeset_passes (Node (drop_empty_nodesets r1) ch1) Hio1) as (t1 & t2 & H1 & H2 & Hsame).
  { cbn [t_obj]. unfold drop_empty_nodesets. change (complete_nodeset (sets r1)) with (complete_nodeset (sets ro)).
    rewrite Hcn. destruct (b_iszero cn) eqn:Hz; [right|left; by exists n].
    rewrite tree_objs_node. constructor; [done|]. apply b_iszero_spec in Hz. unfold ch1.
    rewrite forest_objs_tmap, Forall_map. by apply Hempty. }
  rewrite H1. cbn [mbind option_bind]. rewrite H2. cbn [mbind option_bind]. fold whole.
  assert (same_cpus t2 (Node r1 ch1)) as Hsame'.
  { rewrite Hsame. unfold same_cpus. cbn [tmap]. f_equal. unfold drop_empty_nodesets.
    by destruct (complete_nodeset (sets r1)) as [x|]; [destruct (b_iszero x)|]. }
  assert (root_sets ro ch s) as Hs.
  { intros m' on' al' i Hm' Hon' Hal' Hi. rewrite Hm in Hm'. rewrite Hon in Hon'. rewrite Hal in Hal'.
    injection Hm' as <-. injection Hon' as <-. injection Hal' as <-. unfold s. cbn. by rewrite !bm_and, Hu. }
  exists s. unfold settle_root, settle. destruct whole; cbn [negb]; [exists t2; exact (conj eq_refl (conj Hs Hsame'))|].
  rewrite (remove_unused_four t2).
  - cbn [mbind option_bind]. eexists. split; [done|]. split; [done|]. rewrite apply_nodeset_core.
    rewrite (same_cpus_use _ _ Hsame'). unfold ch1. cbn [tmap]. rewrite map_map.
    unfold same_cpus. cbn [tmap]. f_equal. rewrite !map_map. apply map_ext. intros t. by rewrite !tmap_tmap.
  - apply (Forall_same_cpus four_cpusets (Node r1 ch1)); [apply four_cpu_core|by symmetry|].
    rewrite tree_objs_node. constructor; [repeat split; by eexists|]. unfold ch1.
    rewrite forest_objs_tmap, Forall_map. apply Forall_forall. intros o _. repeat split; by eexists.
Qed.

End DiscoverOk.
