(* ===== verification/CleanSets.v ===== *)
(** * CleanSets: the removal passes on nested cpusets *)

From Stdlib Require Import Sorted.
From S2P Require Import Prelude Cpuset Obj ObjCmp Insert InsertOk Clean CleanOk Sets Shape HelperOk Discover DiscoverOk.

Section CleanSets.
Context {B : Type} `{Cpuset B}.
Implicit Types t : obj_tree B.
Implicit Types o : hwloc_obj B.

(** ** Nested cpusets, every object having one *)

Inductive plain_nested : obj_tree B -> Prop :=
  | plain_nested_node o ch :
      Forall (fun c => bfin (cs (t_obj c)) = true /\ bsub (cs (t_obj c)) (cs o) /\ plain_nested c) ch ->
      ForallOrdPairs (fun c d => bdisj (cs (t_obj c)) (cs (t_obj d))) ch ->
      plain_nested (Node o ch).

Lemma plain_nested_inv o ch : plain_nested (Node o ch) ->
  Forall (fun c => bfin (cs (t_obj c)) = true /\ bsub (cs (t_obj c)) (cs o) /\ plain_nested c) ch /\
  ForallOrdPairs (fun c d => bdisj (cs (t_obj c)) (cs (t_obj d))) ch.
Proof. by inversion 1. Qed.

Definition has_cpuset o : Prop := is_Some (ocpuset o).

Lemma child_has (P : hwloc_obj B -> Prop) o ch : Forall P (tree_objs (Node o ch)) ->
  P o /\ Forall (fun c => P (t_obj c) /\ Forall P (tree_objs c)) ch.
Proof.
  rewrite tree_objs_node. intros [Ho Hch]%Forall_cons. split; [done|].
  induction ch as [|c ch IH]; [done|]. rewrite forest_objs_cons in Hch. apply Forall_app in Hch as [Hc Hch].
  constructor; [|by apply IH]. split; [|done]. destruct c. rewrite tree_objs_node in Hc. by apply Forall_cons in Hc as [? _].
Qed.

Lemma nested_plain t : Forall has_cpuset (tree_objs t) -> cpus_nested t <-> plain_nested t.
Proof.
  induction t as [o ch IH] using obj_tree_ind'. intros [Ho Hch]%child_has. rewrite Forall_forall in IH, Hch.
  split; intros Hn; [apply cpus_nested_inv in Hn|apply plain_nested_inv in Hn]; destruct Hn as [Hn Hd];
    rewrite Forall_forall in Hn; constructor; try done; apply Forall_forall; intros c Hc;
    destruct (Hch c Hc) as [[s Hs] Hcc]; specialize (Hn c Hc).
  - destruct Hn as [Hl|(s' & Hs' & Hf & Hsub & Hn)].
    + by rewrite (cpuless_head _ Hl) in Hs.
    + unfold cs at 1 2. rewrite Hs'. split; [done|]. split; [done|]. by apply (IH c Hc).
  - right. exists s. unfold cs in Hn at 1 2. rewrite Hs in Hn. destruct Hn as (Hf & Hsub & Hn).
    split; [done|]. split; [done|]. split; [done|]. by apply (IH c Hc).
Qed.

(** Cutting all cpusets by the same set keeps them nested. *)
Lemma FOP_map {X Y} (R : X -> X -> Prop) (R' : Y -> Y -> Prop) (f : X -> Y) (xs : list X) :
  (forall x y, R x y -> R' (f x) (f y)) -> ForallOrdPairs R xs -> ForallOrdPairs R' (map f xs).
Proof.
  intros HR. induction 1 as [|x xs Hx Hxs IH]; constructor; [|done]. change (Forall (R' (f x)) (map f xs)). rewrite Forall_map. eapply Forall_impl; [exact Hx|]. intros y. apply HR.
Qed.

Lemma plain_nested_cut (U : Z -> bool) (f : hwloc_obj B -> hwloc_obj B) o o' ch :
  (forall p, bfin (cs p) = true -> bfin (cs (f p)) = true) ->
  (forall p i, 0 <= i -> bm (cs (f p)) i = bm (cs p) i && U i) ->
  (forall i, 0 <= i -> bm (cs o) i && U i = true -> bm (cs o') i = true) ->
  plain_nested (Node o ch) -> plain_nested (Node o' (map (tmap f) ch)).
Proof.
  intros Hf Hm. revert o o'.
  assert (forall t, forall o', (forall i, 0 <= i -> bm (cs (t_obj t)) i && U i = true -> bm (cs o') i = true) ->
    plain_nested t -> plain_nested (Node o' (map (tmap f) (t_children t)))) as Hgen.
  { intros t. induction t as [o ch' IH] using obj_tree_ind'. intros o' Ho [Hch Hd]%plain_nested_inv.
    cbn [t_obj t_children] in *. constructor.
    - rewrite Forall_map. rewrite Forall_forall in IH, Hch |- *. intros c Hc. destruct (Hch c Hc) as (Hfc & Hsub & Hn).
      rewrite t_obj_tmap. split; [by apply Hf|]. split.
      + intros i Hi. rewrite Hm by done. intros [Hci HU]%andb_true_iff. apply Ho; [done|].
        by rewrite (Hsub i Hi Hci), HU.
      + destruct c as [oc cc]. cbn [tmap]. apply (IH (Node oc cc) Hc); [|done]. cbn [t_obj]. intros i Hi. by rewrite Hm.
    - revert Hd. apply FOP_map. intros c d Hdis i Hi. rewrite !t_obj_tmap, !Hm by done.
      intros [Hc _]%andb_true_iff [Hd' _]%andb_true_iff. by apply (Hdis i Hi). }
  intros o o' Ho. apply (Hgen (Node o ch) o' Ho).
Qed.

Lemma plain_nested_same t t' : same_cpus t t' -> plain_nested t -> plain_nested t'.
Proof.
  unfold same_cpus. revert t'. induction t as [o ch IH] using obj_tree_ind'. intros [o' ch'] Heq [Hch Hd]%plain_nested_inv.
  cbn [tmap] in Heq. assert (cpu_core o = cpu_core o' /\ map (tmap cpu_core) ch = map (tmap cpu_core) ch') as [Ho Hcc]
    by (split; [exact (f_equal t_obj Heq)|exact (f_equal t_children Heq)]).
  assert (forall p p', cpu_core p = cpu_core p' -> cs p = cs p') as Hcs
    by (intros p p' (_ & Hp & _)%cpu_core_facts; unfold cs; by rewrite Hp).
  assert (forall c c', tmap cpu_core c = tmap cpu_core c' -> cs (t_obj c) = cs (t_obj c')) as Hcs'
    by (intros c c' Hc; apply Hcs; rewrite <- !t_obj_tmap; by rewrite Hc).
  clear Heq. constructor.
  - rewrite <- (Hcs _ _ Ho). clear Hd Ho. revert ch' Hcc.
    induction IH as [|c ch Hc _ IHch]; intros [|c' ch'] Hcc; try done.
    apply cons_eq_inj in Hcc as [Hcc1 Hcc2]. apply Forall_cons in Hch as [(H1 & H2 & H3) Hch].
    constructor; [|by apply IHch]. rewrite <- (Hcs' _ _ Hcc1). split; [done|]. split; [done|by apply Hc].
  - clear IH Hch Ho. revert ch' Hcc. induction Hd as [|c ch Hc _ IHd]; intros [|c' ch'] Hcc; try done; [constructor|].
    apply cons_eq_inj in Hcc as [Hcc1 Hcc2]. constructor; [|by apply IHd]. clear IHd. revert ch' Hcc2.
    induction Hc as [|d ch Hd _ IHc]; intros [|d' ch'] Hcc2; try done.
    apply cons_eq_inj in Hcc2 as [Hdd Hcc2]. constructor; [|by apply IHc].
    by rewrite <- (Hcs' _ _ Hcc1), <- (Hcs' _ _ Hdd).
Qed.

(** ** Removing objects *)

Definition apart (ts : list (obj_tree B)) : Prop := ForallOrdPairs (fun c d => bdisj (cs (t_obj c)) (cs (t_obj d))) ts.

Definition inside_of (s : B) (c : obj_tree B) : Prop :=
  bfin (cs (t_obj c)) = true /\ bsub (cs (t_obj c)) s /\ plain_nested c.

Lemma apart_app ts us : apart ts -> apart us ->
  (forall c d, c ∈ ts -> d ∈ us -> bdisj (cs (t_obj c)) (cs (t_obj d))) -> apart (ts ++ us).
Proof.
  unfold apart. intros Hts Hus. induction Hts as [|t ts Ht Hts IH]; intros Hc; [done|]. cbn [app]. constructor.
  - apply Forall_app. split; [done|]. apply Forall_forall. intros d Hd. apply Hc; [by left|done].
  - apply IH. intros c d Hcin. apply Hc. by right.
Qed.

(** Each child gives way to objects inside it. *)
Lemma apart_concat (g : obj_tree B -> list (obj_tree B)) s ch :
  Forall (inside_of s) ch -> apart ch ->
  Forall (fun c => Forall (inside_of (cs (t_obj c))) (g c) /\ apart (g c)) ch ->
  Forall (inside_of s) (concat (map g ch)) /\ apart (concat (map g ch)).
Proof.
  intros Hin Hap Hg. induction Hap as [|c ch Hc Hap IH]; [split; constructor|].
  apply Forall_cons in Hin as [(Hf & Hs & Hn) Hin]. apply Forall_cons in Hg as [[Hgi Hga] Hg].
  destruct (IH Hin Hg) as [IH1 IH2]. cbn [map concat]. split.
  - apply Forall_app. split; [|done]. eapply Forall_impl; [exact Hgi|]. intros d (Hd1 & Hd2 & Hd3).
    split; [done|]. split; [by etrans|done].
  - apply apart_app; [done|done|]. intros d e Hd He. rewrite Forall_forall in Hgi.
    destruct (Hgi d Hd) as (_ & Hdc & _).
    apply list_elem_of_In, in_concat in He as (l & (c' & <- & Hc')%in_map_iff & He).
    apply list_elem_of_In in Hc', He. rewrite Forall_forall in Hc, Hg. destruct (Hg c' Hc') as [Hgi' _].
    rewrite Forall_forall in Hgi'. destruct (Hgi' e He) as (_ & Hec & _). specialize (Hc c' Hc').
    intros i Hi Hdi Hei. by apply (Hc i Hi); [apply Hdc|apply Hec].
Qed.

Lemma inside_self t s : inside_of s t -> inside_of (cs (t_obj t)) t.
Proof. intros (Hf & _ & Hn). split; [done|]. split; [done|done]. Qed.

Lemma strip_nested drop t : bfin (cs (t_obj t)) = true -> plain_nested t ->
  Forall (inside_of (cs (t_obj t))) (strip drop t) /\ apart (strip drop t).
Proof.
  induction t as [o ch IH] using obj_tree_ind'. intros Hf [Hch Hd]%plain_nested_inv. cbn [t_obj strip] in *.
  destruct (apart_concat (strip drop) (cs o) ch Hch Hd) as [H1 H2].
  { rewrite Forall_forall in IH, Hch |- *. intros c Hc. destruct (Hch c Hc) as (Hfc & _ & Hn). by apply IH. }
  destruct (drop o _); [done|]. split; [|repeat constructor]. apply Forall_singleton.
  split; [done|]. split; [done|]. by constructor.
Qed.

(** Stripping the children of a root. *)
Lemma strip_root_nested drop o ch : plain_nested (Node o ch) -> plain_nested (Node o (concat (map (strip drop) ch))).
Proof.
  intros [Hch Hd]%plain_nested_inv. destruct (apart_concat (strip drop) (cs o) ch Hch Hd) as [H1 H2]; [|by constructor].
  rewrite Forall_forall in Hch |- *. intros c Hc. destruct (Hch c Hc) as (Hfc & _ & Hn). by apply strip_nested.
Qed.

Lemma merge_nested ign t : plain_nested t ->
  plain_nested (merge ign t) /\ bsub (cs (t_obj (merge ign t))) (cs (t_obj t)) /\
  (bfin (cs (t_obj t)) = true -> bfin (cs (t_obj (merge ign t))) = true).
Proof.
  induction t as [o ch IH] using obj_tree_ind'. intros [Hch Hd]%plain_nested_inv. cbn [merge t_obj].
  assert (Forall (inside_of (cs o)) (map (merge ign) ch) /\ apart (map (merge ign) ch)) as [H1 H2].
  { assert (map (merge ign) ch = concat (map (fun c => [merge ign c]) ch)) as ->
      by (clear; induction ch as [|c ch IH]; [done|cbn [map concat app]; by rewrite IH]).
    apply apart_concat; [done|done|]. rewrite Forall_forall in IH, Hch |- *. intros c Hc.
    destruct (Hch c Hc) as (Hf & _ & Hn). destruct (IH c Hc Hn) as (Hn' & Hs & Hf').
    split; [|repeat constructor]. apply Forall_singleton. split; [by apply Hf'|by split]. }
  destruct (map (merge ign) ch) as [|c [|d l]].
  - split; [by constructor|done].
  - apply Forall_cons in H1 as [(Hf & Hs & Hn) _]. destruct (keeps_structure ign o); [by split|].
    destruct (keeps_structure ign (t_obj c)).
    + destruct c as [oc cc]. cbn [t_obj t_children] in *. split; [|done]. apply plain_nested_inv in Hn as [Hcc Hdc].
      constructor; [|done]. eapply Forall_impl; [exact Hcc|]. intros e (He1 & He2 & He3).
      split; [done|]. split; [by etrans|done].
    + split; [|done]. constructor; [by constructor|repeat constructor].
  - split; [by constructor|done].
Qed.

End CleanSets.
