(* ===== verification/DiscoverLoad.v ===== *)
(** * DiscoverLoad: from the objects of a backend to a topology that can be consulted *)

From stdpp Require Import gmap.
From S2P Require Import Prelude Cpuset Obj ObjCmp Insert InsertOk Clean CleanOk Levels LevelsOk LevelsLoop Connected Sets Traversal Loaded HelperOk Shape Discover DiscoverOk CleanSets.

Section DiscoverLoad.
Context {B : Type} `{Cpuset B}.
Implicit Types t : obj_tree B.
Implicit Types o : hwloc_obj B.

(** ** Default sets *)

Definition default_sets o : hwloc_obj B :=
  let s := sets o in
  with_sets o (mk_sets (cpuset s) (complete_cpuset s) (online_cpuset s) (allowed_cpuset s)
    (Some (default b_alloc_full (nodeset s))) (Some (default b_alloc_full (complete_nodeset s)))
    (Some (default b_alloc_full (allowed_nodeset s)))).

Lemma add_default_ok t p : Forall not_io (tree_objs t) -> Forall four_cpusets (tree_objs t) ->
  add_default_object_sets t p = Some (tmap default_sets t).
Proof.
  revert p. induction t as [o ch IH] using obj_tree_ind'. intros p [Ho Hio]%child_has [Hf Hfour]%child_has.
  cbn [add_default_object_sets tmap]. rewrite Ho. destruct Hf as ([c Hc] & [m Hm] & [on Hon] & [al Hal]).
  unfold ocpuset in Hc. unfold default_sets at 1. rewrite Hc, Hm, Hon, Hal. cbn [is_Some_b orb andb].
  rewrite orb_true_r. cbn [mbind option_bind].
  rewrite (thread_map _ (tmap default_sets)); [done|]. rewrite Forall_forall in IH, Hio, Hfour. apply Forall_forall.
  intros d Hd. destruct (Hio d Hd) as [_ H1], (Hfour d Hd) as [_ H2]. by rewrite (IH d Hd).
Qed.

(** ** The removal passes *)

(** What they leave of a tree. *)
Definition without_ignored (ign : ignored_types) t : obj_tree B :=
  let 'Node o ch := t in Node o (concat (map (strip (drop_ignored ign)) ch)).
Definition without_empty t : obj_tree B :=
  let 'Node o ch := t in Node o (concat (map (strip drop_empty) ch)).
Definition cleaned (ign : ignored_types) t : obj_tree B := merge ign (without_empty (without_ignored ign t)).

Lemma strip_children_sublist drop (ch : list (obj_tree B)) :
  sublist (forest_objs (concat (map (strip drop) ch))) (forest_objs ch).
Proof.
  induction ch as [|c ch IH]; [done|]. cbn [map concat]. rewrite forest_objs_app, forest_objs_cons.
  apply sublist_app; [|done]. by apply (strip_keeps drop (fun _ => false)).
Qed.

Lemma strip_children_keeps drop (ch : list (obj_tree B)) o :
  (forall ch, drop o ch = false) -> o ∈ forest_objs ch -> o ∈ forest_objs (concat (map (strip drop) ch)).
Proof.
  intros Hd. assert (forall t, o ∈ tree_objs t -> o ∈ forest_objs (strip drop t)) as Hone.
  { intros t. induction t as [p ch' IH] using obj_tree_ind'. cbn [strip]. rewrite tree_objs_node.
    assert (o ∈ forest_objs ch' -> o ∈ forest_objs (concat (map (strip drop) ch'))) as Hrec.
    { clear -IH. induction IH as [|c ch' Hc _ IHch]; [done|]. rewrite forest_objs_cons. cbn [map concat].
      rewrite forest_objs_app. set_solver. }
    intros [->|Hin]%elem_of_cons.
    - rewrite Hd. rewrite forest_objs_cons, tree_objs_node. by left.
    - destruct (drop p _); [by apply Hrec|]. rewrite forest_objs_cons, tree_objs_node, app_nil_r. right. by apply Hrec. }
  induction ch as [|c ch IH]; [done|]. cbn [map concat]. rewrite forest_objs_app, forest_objs_cons. set_solver.
Qed.

Lemma cleaned_sublist ign t : sublist (tree_objs (cleaned ign t)) (tree_objs t).
Proof.
  unfold cleaned. etrans; [apply merge_keeps|]. destruct t as [o ch]. cbn [without_ignored without_empty].
  rewrite !tree_objs_node. apply sublist_skip. etrans; [apply strip_children_sublist|apply strip_children_sublist].
Qed.

Lemma cleaned_keeps ign t o : o ∈ tree_objs t -> ign (o_type o) = HWLOC_IGNORE_TYPE_NEVER -> removable o = false ->
  o ∈ tree_objs (cleaned ign t).
Proof.
  intros Ho Hign Hrem. unfold cleaned.
  assert (o ∈ tree_objs (without_empty (without_ignored ign t))) as Hin.
  { destruct t as [p ch]. cbn [without_ignored without_empty]. rewrite tree_objs_node in *.
    apply elem_of_cons in Ho as [->|Ho]; [by left|]. right.
    apply strip_children_keeps; [by intros []|]. apply strip_children_keeps; [|done].
    intros ?. unfold drop_ignored. by rewrite Hign. }
  destruct (merge_keeps ign (without_empty (without_ignored ign t))) as [Hf _].
  assert (o ∈ filter (fun o => keeps_structure ign o = false) (tree_objs (without_empty (without_ignored ign t)))) as Hfi.
  { apply list_elem_of_filter. split; [|done]. unfold keeps_structure. by rewrite Hign. }
  rewrite <- Hf in Hfi. by apply list_elem_of_filter in Hfi as [_ ?].
Qed.

Lemma cleaned_nested ign t : plain_nested t -> plain_nested (cleaned ign t).
Proof.
  intros Hn. apply merge_nested. destruct t as [o ch]. by apply strip_root_nested, strip_root_nested.
Qed.

Lemma clean_objects_ok ign t :
  Forall not_io (tree_objs t) -> Forall four_cpusets (tree_objs t) -> removable (t_obj t) = false ->
  clean_objects ign t = Some (tmap default_sets (cleaned ign t)).
Proof.
  intros Hio Hfour Hroot. unfold clean_objects. destruct t as [o ch].
  rewrite remove_ignored_root by done. cbn [mbind option_bind].
  set (t1 := Node o (concat (map (strip (drop_ignored ign)) ch))).
  assert (root_of (Kept t1) = Some t1) as -> by done. cbn [mbind option_bind].
  destruct (remove_empty_ok (tree_size t1) t1 (Nat.le_refl _)) as (v & -> & Hv & _). cbn [mbind option_bind].
  assert (visited v = [without_empty t1]) as Hv'.
  { rewrite Hv. subst t1. cbn [strip without_empty]. cbn [t_obj] in Hroot.
    assert (forall l, drop_empty o l = false) as -> by (by intros []). done. }
  assert (root_of v = Some (without_empty t1)) as -> by (unfold root_of; by rewrite Hv'). cbn [mbind option_bind].
  destruct (merge_computes ign (tree_size (without_empty t1)) (without_empty t1) (Nat.le_refl _)) as (w & -> & Hw & _).
  cbn [mbind option_bind]. assert (root_of w = Some (cleaned ign (Node o ch))) as -> by (unfold root_of; by rewrite Hw).
  cbn [mbind option_bind].
  assert (forall P : hwloc_obj B -> Prop, Forall P (tree_objs (Node o ch)) -> Forall P (tree_objs (cleaned ign (Node o ch)))) as Hall.
  { intros P HP. rewrite Forall_forall in HP |- *. intros p Hp. apply HP. eapply elem_of_sublist; [exact Hp|apply cleaned_sublist]. }
  by apply (add_default_ok (cleaned ign (Node o ch)) false); apply Hall.
Qed.

(** ** Connecting, once or again *)

Definition out_of_levels t : Prop := exists lv rest, levels_partial t lv rest /\
  HWLOC_DEPTH_MAX <= Z.of_nat (length lv) /\ rest <> [].

Lemma live_links_at t st a : a ∈ map o_addr (tree_objs t) -> links (live_links t st) a = links st a.
Proof.
  intros Ha. unfold links, live_links. destruct (st !! a) as [k|] eqn:Hk.
  - by rewrite (map_lookup_filter_Some_2 _ st a k).
  - by rewrite (map_lookup_filter_None_2 _ st a (or_introl Hk)).
Qed.

Lemma connect_ok t st :
  placed t -> distinct (tree_objs t) -> Forall not_io (tree_objs t) ->
  level_linked st 0 [t] -> parent (links st (t_addr t)) = None ->
  match connect t st with
  | Some tl => connected t tl /\ consultable (topology_of t tl) /\ hierarchy (topology_of t tl) t
  | None => out_of_levels t
  end.
Proof.
  intros Hr Hd Hio Hlink Hpar. unfold connect.
  assert (links (live_links t st) (t_addr t) = links st (t_addr t)) as Hroot.
  { apply live_links_at. apply list_elem_of_fmap. exists (t_obj t). split; [done|]. destruct t. by left. }
  set (st0 := live_links t st) in *. set (st1 := hwloc_connect_children t st0).
  destruct (connect_tree t st0 Hd) as (_ & Hsame & Hplace & Hch). fold st1 in Hsame, Hplace, Hch.
  pose proof (connect_levels_ok t st1 Hr Hd) as Hok.
  destruct (hwloc_connect_levels t st1) as [tl|] eqn:Htl.
  - assert (Hcon : connected t tl).
    { apply Hok.
      - intros o Ho Hiso. rewrite Forall_forall in Hio. specialize (Hio o Ho). unfold is_io in Hiso. unfold not_io in Hio. congruence.
      - intros i u Hi. apply list_lookup_singleton_Some in Hi as [-> <-].
        destruct (Hsame (t_addr t)) as (H1 & H2 & H3 & H4 & _). cbv zeta. rewrite H1, H2, H3, H4, Hroot.
        by apply (Hlink 0%nat t). }
    assert (Hk := connect_levels_keeps t st1 tl Htl). split; [done|]. split; [by apply connected_consultable|]. constructor.
    + by apply topology_obj.
    + apply topology_dom.
    + intros n Hn. eapply children_linked_keeps; [exact Hk|by apply Hch].
    + by apply connected_root.
    + specialize (Hk (t_addr t)). unfold places in Hk. injection Hk as Hp _.
      cbn [tlinks topology_of]. rewrite Hp. destruct (Hplace t) as (-> & _); [by left|]. by rewrite Hroot.
  - apply Hok.
    + intros o Ho Hiso. rewrite Forall_forall in Hio. specialize (Hio o Ho). unfold is_io in Hiso. unfold not_io in Hio. congruence.
    + intros i u Hi. apply list_lookup_singleton_Some in Hi as [-> <-].
      destruct (Hsame (t_addr t)) as (H1 & H2 & H3 & H4 & _). cbv zeta. rewrite H1, H2, H3, H4, Hroot.
      by apply (Hlink 0%nat t).
Qed.

(** ** Without I/O objects *)

Lemma drop_no_io fuel flags (ch : list (obj_tree B)) : (forest_size ch < fuel)%nat -> Forall not_io (forest_objs ch) ->
  hwloc_drop_useless_io fuel flags ch = Some ch.
Proof.
  intros Hfuel Hio. rewrite drop_useless_io_ok by done. f_equal. destruct (has_flag _ _).
  - assert (forall t, Forall not_io (tree_objs t) -> io_strip flags t = [t]) as Hone.
    { intros t. induction t as [o ch' IH] using obj_tree_ind'. intros [Ho Hch]%child_has. rewrite io_strip_node.
      assert (io_children flags ch' = ch') as ->.
      { induction IH as [|c ch'' Hc _ IHch]; [done|]. rewrite io_children_cons. apply Forall_cons in Hch as [[H1 H2] Hch].
        rewrite (Hc H2), IHch by done. unfold io_dropped, uninteresting. unfold not_io in H1.
        destruct (o_type (t_obj c)); try done; by rewrite andb_false_r. }
      unfold drop_bridge. unfold not_io in Ho. by destruct (o_type o). }
    clear Hfuel. induction ch as [|c ch IH]; [done|]. rewrite forest_objs_cons in Hio. apply Forall_app in Hio as [Hc Hch].
    rewrite io_children_cons, IH, Hone by done. unfold io_dropped, uninteresting.
    destruct c as [o cc]. rewrite tree_objs_node in Hc. apply Forall_cons in Hc as [Ho _]. unfold not_io in Ho. cbn [t_obj].
    destruct (o_type o); try done; by rewrite andb_false_r.
  - clear Hfuel. induction ch as [|c ch IH]; [done|]. rewrite forest_objs_cons in Hio. apply Forall_app in Hio as [Hc Hch].
    rewrite filter_cons, decide_True; [by rewrite IH|]. destruct c as [o cc]. rewrite tree_objs_node in Hc.
    by apply Forall_cons in Hc as [Ho _].
Qed.

Lemma no_bridges t d : Forall not_io (tree_objs t) -> hwloc_propagate_bridge_depth t d = t.
Proof.
  destruct t as [o ch]. intros [_ Hch]%child_has. cbn [hwloc_propagate_bridge_depth]. f_equal.
  rewrite <- (map_id ch) at 2. apply map_forall. eapply Forall_impl; [exact Hch|]. intros c [Hc _].
  rewrite bool_decide_false; [done|]. unfold not_io in Hc. by destruct (o_type (t_obj c)).
Qed.

Lemma total_memory_core qsort t : same_cpus (propagate_total_memory qsort t) t.
Proof.
  unfold same_cpus. induction t as [o ch IH] using obj_tree_ind'. cbn [propagate_total_memory tmap]. f_equal.
  rewrite map_map. by apply map_forall.
Qed.

(** ** The removal passes only look at types and cpusets *)

Lemma strip_tmap drop (f : hwloc_obj B -> hwloc_obj B) t :
  (forall o ch, drop (f o) (map (tmap f) ch) = drop o ch) -> strip drop (tmap f t) = map (tmap f) (strip drop t).
Proof.
  intros Hd. induction t as [o ch IH] using obj_tree_ind'. cbn [tmap strip]. rewrite map_map.
  assert (concat (map (fun c => strip drop (tmap f c)) ch) = map (tmap f) (concat (map (strip drop) ch))) as ->.
  { rewrite concat_map, map_map. f_equal. by apply map_forall. }
  rewrite Hd. by destruct (drop o _).
Qed.

Lemma strip_children_tmap drop (f : hwloc_obj B -> hwloc_obj B) (ch : list (obj_tree B)) :
  (forall o ch, drop (f o) (map (tmap f) ch) = drop o ch) ->
  concat (map (strip drop) (map (tmap f) ch)) = map (tmap f) (concat (map (strip drop) ch)).
Proof.
  intros Hd. rewrite concat_map, !map_map. f_equal. apply map_ext. intros t. by apply strip_tmap.
Qed.

Lemma merge_tmap ign (f : hwloc_obj B -> hwloc_obj B) t :
  (forall o, o_type (f o) = o_type o) -> merge ign (tmap f t) = tmap f (merge ign t).
Proof.
  intros Hf. assert (forall o, keeps_structure ign (f o) = keeps_structure ign o) as Hk
    by (intros o; unfold keeps_structure; by rewrite Hf).
  induction t as [o ch IH] using obj_tree_ind'. cbn [tmap merge]. rewrite map_map.
  rewrite (map_forall _ _ ch IH), <- (map_map (merge ign) (tmap f)).
  destruct (map (merge ign) ch) as [|c [|d l]]; [done| |done].
  cbn [map]. rewrite Hk, t_obj_tmap, Hk, t_children_tmap. by destruct (keeps_structure ign o), (keeps_structure ign (t_obj c)).
Qed.

Lemma cleaned_tmap ign t : cleaned ign (tmap cpu_core t) = tmap cpu_core (cleaned ign t).
Proof.
  unfold cleaned. destruct t as [o ch]. cbn [tmap without_ignored without_empty].
  rewrite strip_children_tmap by done. rewrite strip_children_tmap.
  - by rewrite <- merge_tmap.
  - intros p ch'. unfold drop_empty. by destruct ch'.
Qed.

Lemma cleaned_same ign t t' : same_cpus t t' -> same_cpus (cleaned ign t) (cleaned ign t').
Proof. unfold same_cpus. rewrite <- !cleaned_tmap. by intros ->. Qed.

(** ** The whole *)

(** Every object has its seven sets. *)
Definition all_sets o : Prop :=
  four_cpusets o /\ is_Some (onodeset o) /\ is_Some (complete_nodeset (sets o)) /\ is_Some (allowed_nodeset (sets o)).

Lemma default_sets_all t : Forall four_cpusets (tree_objs t) -> Forall all_sets (tree_objs (tmap default_sets t)).
Proof.
  intros Hf. rewrite tree_objs_tmap, Forall_map. eapply Forall_impl; [exact Hf|]. intros o Ho.
  split; [done|]. repeat split; by eexists.
Qed.

Lemma total_memory_sets qsort (P : hwloc_obj B -> Prop) t :
  (forall o m, P o -> P (with_memory o m)) -> Forall P (tree_objs t) ->
  Forall P (tree_objs (propagate_total_memory qsort t)).
Proof.
  intros HP Hall. pose proof (memory_done_ok qsort t) as Hm. revert Hall. induction Hm as [|o o' os os' Ho _ IH]; [done|].
  intros [Hp Hall]%Forall_cons. constructor; [|by apply IH]. rewrite Ho. by apply HP.
Qed.

(** The root and its objects before the removal passes. *)
Definition settled_tree (whole : bool) (s : sys_sets (B := B)) (ro : hwloc_obj B) (ch : list (obj_tree B)) : obj_tree B :=
  Node (settle_root whole s ro) (map (tmap (settle whole s)) ch).

Lemma settled_core whole s ro ch : same_core (settled_tree whole s ro ch) (Node ro ch).
Proof.
  unfold same_core, settled_tree. cbn [tmap]. f_equal; [by destruct whole|].
  rewrite map_map. apply map_ext. intros t. rewrite tmap_tmap. apply tmap_ext_in, Forall_forall. intros. apply settle_core.
Qed.

Lemma settled_four whole s ro ch : Forall four_cpusets (tree_objs (settled_tree whole s ro ch)).
Proof.
  unfold settled_tree. rewrite tree_objs_node. constructor; [destruct whole; repeat split; by eexists|].
  rewrite forest_objs_tmap, Forall_map. apply Forall_forall. intros o _. apply settle_four.
Qed.

Definition normal o : Prop := not_io o /\ o_type o <> HWLOC_OBJ_MISC.

Lemma normal_placed t : Forall normal (tree_objs t) -> placed t.
Proof.
  destruct t as [o ch]. rewrite tree_objs_node. intros [[Hio Hm] _]%Forall_cons. unfold placed, filtered_out, t_type.
  cbn [t_obj]. unfold not_io in Hio. rewrite Hio. by rewrite bool_decide_false.
Qed.

Lemma sublist_forall (P : hwloc_obj B -> Prop) os os' : sublist os' os -> Forall P os -> Forall P os'.
Proof. intros Hs HP. rewrite Forall_forall in HP |- *. intros o Ho. apply HP. by eapply elem_of_sublist. Qed.

Lemma normal_not_io t : Forall normal (tree_objs t) -> Forall not_io (tree_objs t).
Proof. intros Ht. eapply Forall_impl; [exact Ht|]. by intros o [? _]. Qed.

Lemma normal_same t t' : same_core t t' -> Forall normal (tree_objs t) -> Forall normal (tree_objs t').
Proof. apply (Forall_same_types (fun ty => hwloc_obj_type_is_io ty = false /\ ty <> HWLOC_OBJ_MISC)). Qed.

(** A root that keeps a CPU is not removed. *)
Lemma root_stays whole s ro ch t i :
  same_cpus t (settled_tree whole s ro ch) -> 0 <= i -> usable whole s i = true -> removable (t_obj t) = false.
Proof.
  intros Hsame Hi Hu. apply same_cpus_objs in Hsame. destruct t as [o1 ch1]. cbn [t_obj]. unfold settled_tree in Hsame.
  rewrite !tree_objs_node in Hsame. apply cons_eq_inj in Hsame as [Ho _]. apply cpu_core_facts in Ho as (_ & Ho & _).
  unfold removable. rewrite Ho. pose proof (settle_root_cs whole s ro i Hi) as Hc. rewrite Hu in Hc. unfold cs in Hc.
  destruct (ocpuset (settle_root whole s ro)) as [c|]; [|by rewrite bm_alloc in Hc]. cbn [default] in Hc. cbn [null_or].
  destruct (b_iszero c) eqn:Hz; [|by rewrite andb_false_r]. apply b_iszero_spec in Hz. by rewrite Hz in Hc.
Qed.

(** The objects left, with all their sets. *)
Record tidy t : Prop := {
  td_normal : Forall normal (tree_objs t);
  td_distinct : distinct (tree_objs t);
  td_sets : Forall all_sets (tree_objs t);
}.

Lemma tidy_default ign t :
  Forall normal (tree_objs t) -> distinct (tree_objs t) -> Forall four_cpusets (tree_objs t) ->
  tidy (tmap default_sets (cleaned ign t)).
Proof.
  intros Hn Hd Hf. pose proof (cleaned_sublist ign t) as Hsub. split.
  - apply (normal_same (cleaned ign t)); [|by eapply sublist_forall].
    unfold same_core. rewrite tmap_tmap. by apply tmap_ext_in, Forall_forall.
  - unfold distinct. rewrite tree_objs_tmap, map_map. by apply (distinct_sublist _ _ Hsub).
  - apply default_sets_all. by eapply sublist_forall.
Qed.

Lemma tidy_memory qsort t : tidy t -> tidy (propagate_total_memory qsort t).
Proof.
  intros [Hn Hd Hs]. pose proof (same_cpus_core _ _ (total_memory_core qsort t)) as Hsame. split.
  - apply (normal_same t); [by symmetry|done].
  - apply (same_core_distinct t); [by symmetry|done].
  - by apply total_memory_sets.
Qed.

(** The passes on sets and objects. *)
Lemma tidied_ok flags ign ro ch :
  built ro ch -> distinct (tree_objs (Node ro ch)) -> Forall normal (tree_objs (Node ro ch)) ->
  let whole := has_flag flags HWLOC_TOPOLOGY_FLAG_WHOLE_SYSTEM in
  exists s t1, tweak_sets flags (Node ro ch) = Some t1 /\ root_sets ro ch s /\
  ((exists i, 0 <= i /\ usable whole s i = true) ->
   exists t2, clean_objects ign t1 = Some t2 /\ tidy t2 /\ same_cpus t2 (cleaned ign (settled_tree whole s ro ch))).
Proof.
  intros Hb Hd Hn whole. destruct (tweak_sets_ok flags ro ch Hb) as (s & t1 & Htw & Hs & Hsame). fold whole in Hsame.
  exists s, t1. split; [done|]. split; [done|]. intros (i & Hi & Hu). change (same_cpus t1 (settled_tree whole s ro ch)) in Hsame.
  assert (same_core (Node ro ch) t1) as Hcore by (symmetry; etrans; [by apply same_cpus_core|apply settled_core]).
  assert (Forall normal (tree_objs t1)) as Hn1 by by apply (normal_same (Node ro ch)).
  assert (distinct (tree_objs t1)) as Hd1 by by apply (same_core_distinct (Node ro ch)).
  assert (Forall four_cpusets (tree_objs t1)) as Hf1
    by (apply (Forall_same_cpus four_cpusets (settled_tree whole s ro ch)); [apply four_cpu_core|by symmetry|apply settled_four]).
  eexists. split; [apply clean_objects_ok; [by apply normal_not_io|done|by eapply root_stays]|].
  split; [by apply tidy_default|]. transitivity (cleaned ign t1); [|by apply cleaned_same].
  unfold same_cpus. rewrite tmap_tmap. apply tmap_ext_in, Forall_forall. by intros o _.
Qed.

(** The links of a freshly allocated root, and of one that was connected. *)
Lemma fresh_linked t : level_linked ∅ 0 [t].
Proof. intros j u Hj. by apply list_lookup_singleton_Some in Hj as [-> <-]. Qed.

Lemma connected_linked t t' tl : t_addr t' = t_addr t -> connected t tl -> level_linked (links_of tl) 0 [t'].
Proof.
  intros Haddr Hcon j u Hj. apply list_lookup_singleton_Some in Hj as [-> <-]. rewrite Haddr.
  pose proof (con_root _ _ Hcon) as Hroot. destruct (Levels.levels (tl_levels tl)) as [|l lv] eqn:Hlv; [done|].
  injection Hroot as ->. apply (con_links _ _ Hcon 0%nat [t]); [by rewrite Hlv|done].
Qed.

Lemma same_core_root t t' : same_core t t' -> t_addr t = t_addr t'.
Proof.
  intros Heq%same_core_objs. destruct t as [o ch], t' as [o' ch']. rewrite !tree_objs_node in Heq.
  apply cons_eq_inj in Heq as [Ho _]. by apply core_facts in Ho as [? _].
Qed.

(** The two connections, and what happens in between. *)
Lemma connections_ok qsort flags t : tidy t ->
  match (let! tl := connect t ∅ in
         let 'Node o ch := propagate_total_memory qsort t in
         let! ch := hwloc_drop_useless_io (S (forest_size ch)) flags ch in
         let root := Node o ch in
         let! tl := connect root (links_of tl) in
         Some (hwloc_propagate_bridge_depth root 0, tl)) with
  | Some (root, tl) => root = propagate_total_memory qsort t /\ connected root tl /\
      consultable (topology_of root tl) /\ hierarchy (topology_of root tl) root /\
      exists st, hwloc_connect_levels root st = Some tl
  | None => exists r, same_cpus r t /\ out_of_levels r /\ exists st, hwloc_connect_levels r st = None
  end.
Proof.
  intros Ht. pose proof Ht as [Hn Hd _].
  pose proof (connect_ok t ∅ (normal_placed _ Hn) Hd (normal_not_io _ Hn) (fresh_linked t) eq_refl) as Hcon.
  destruct (connect t ∅) as [tl1|] eqn:H1; cbn [mbind option_bind];
    [|exists t; split; [done|]; split; [done|]; by eexists]. destruct Hcon as (Hcon1 & _ & Hh1).
  pose proof (total_memory_core qsort t) as Hsame. apply (tidy_memory qsort) in Ht.
  destruct (propagate_total_memory qsort t) as [o3 ch3]. destruct Ht as [Hn3 Hd3 _].
  pose proof (normal_not_io _ Hn3) as Hio3. pose proof (same_core_root _ _ (same_cpus_core _ _ Hsame)) as Haddr.
  rewrite drop_no_io; [|lia|rewrite tree_objs_node in Hio3; by apply Forall_cons in Hio3 as [_ ?]].
  cbn [mbind option_bind].
  pose proof (connect_ok (Node o3 ch3) (links_of tl1) (normal_placed _ Hn3) Hd3 Hio3
    (connected_linked _ _ _ Haddr Hcon1)) as Hcon.
  rewrite Haddr in Hcon. specialize (Hcon (h_parent _ _ Hh1)).
  destruct (connect (Node o3 ch3) (links_of tl1)) as [tl2|] eqn:H2; cbn [mbind option_bind];
    [|exists (Node o3 ch3); split; [done|]; split; [done|]; by eexists].
  rewrite no_bridges by done. destruct Hcon as (H3 & H4 & H5). repeat (split; [done|]). by eexists.
Qed.

(** The rest of [hwloc_discover]. *)
Lemma finish_ok qsort flags ign ro ch :
  built ro ch -> distinct (tree_objs (Node ro ch)) -> Forall normal (tree_objs (Node ro ch)) ->
  let whole := has_flag flags HWLOC_TOPOLOGY_FLAG_WHOLE_SYSTEM in
  exists s, root_sets ro ch s /\
  ((exists i, 0 <= i /\ usable whole s i = true) ->
   match finish_discovery qsort flags ign (Node ro ch) with
   | Some (root, tl) => same_cpus root (cleaned ign (settled_tree whole s ro ch)) /\ tidy root /\ connected root tl /\
       consultable (topology_of root tl) /\ hierarchy (topology_of root tl) root /\
       exists st, hwloc_connect_levels root st = Some tl
   | None => exists r, same_cpus r (cleaned ign (settled_tree whole s ro ch)) /\ out_of_levels r /\
       exists st, hwloc_connect_levels r st = None
   end).
Proof.
  intros Hb Hd Hn whole. destruct (tidied_ok flags ign ro ch Hb Hd Hn) as (s & t1 & Htw & Hs & Hclean).
  exists s. split; [done|]. intros Hu. destruct (Hclean Hu) as (t2 & Hcl & Htidy & Hsame).
  unfold finish_discovery. rewrite Htw. cbn [mbind option_bind]. rewrite Hcl. cbn [mbind option_bind].
  pose proof (connections_ok qsort flags t2 Htidy) as Hc. revert Hc.
  match goal with |- match ?m with _ => _ end -> match ?m' with _ => _ end => change m' with m; destruct m as [[root tl]|] end.
  - intros (-> & Hrest). split; [etrans; [apply total_memory_core|done]|]. split; [by apply tidy_memory|done].
  - intros (r & Hr & Hout). exists r. split; [by etrans|done].
Qed.

End DiscoverLoad.
