(* ===== verification/SyntheticLoad.v ===== *)
(** * SyntheticLoad: the objects of the synthetic backend through a discovery *)

From stdpp Require Import gmap.
From Stdlib Require Import Ascii String.
From S2P Require Import Prelude CString Cpuset Obj ObjCmp Insert InsertOk Clean CleanOk Levels LevelsOk LevelsLoop Connected Sets Traversal Loaded HelperOk Synthetic SyntheticOk SyntheticParse SyntheticThms Shape Discover DiscoverOk CleanSets DiscoverLoad.

Section SyntheticLoad.
Context {B : Type} `{Cpuset B}.
Implicit Types t : obj_tree B.
Implicit Types ts : list (obj_tree B).
Implicit Types o : hwloc_obj B.

(** ** The layers of a regular tree *)

(** [ts] are the objects of the first level from object [k] on. *)
Definition numbered (lvs : list synthetic_level) (k : Z) ts : Prop :=
  forall j t, ts !! j = Some t -> is_subtree lvs (k + Z.of_nat j) t.

Lemma numbered_cons lvs k t ts : numbered lvs k (t :: ts) <-> is_subtree lvs k t /\ numbered lvs (k + 1) ts.
Proof.
  split.
  - intros Hn. split; [specialize (Hn O t eq_refl); by rewrite Z.add_0_r in Hn|].
    intros j u Hj. specialize (Hn (S j) u Hj). by replace (k + 1 + Z.of_nat j) with (k + Z.of_nat (S j)) by lia.
  - intros [Ht Hn] [|j] u Hj; [injection Hj as <-; by rewrite Z.add_0_r|].
    specialize (Hn j u Hj). by replace (k + Z.of_nat (S j)) with (k + 1 + Z.of_nat j) by lia.
Qed.

Lemma numbered_app lvs k ts us : numbered lvs k ts -> numbered lvs (k + Z.of_nat (length ts)) us ->
  numbered lvs k (ts ++ us).
Proof.
  intros Ht Hu j t [Hj|[Hle Hj]]%lookup_app_Some; [by apply Ht|].
  specialize (Hu _ _ Hj). by replace (k + Z.of_nat j) with (k + Z.of_nat (length ts) + Z.of_nat (j - length ts)) by lia.
Qed.

Lemma numbered_next lv lvs k ts : numbered (lv :: lvs) k ts ->
  numbered lvs (k * l_arity lv) (next_layer ts) /\
  Z.of_nat (length (next_layer ts)) = Z.of_nat (length ts) * l_arity lv.
Proof.
  revert k. induction ts as [|[o ch] ts IH]; intros k; [by split|].
  intros [(_ & Hlen & Hch) Hts]%numbered_cons. destruct (IH (k + 1) Hts) as [Hn Hl].
  rewrite next_layer_cons. cbn [t_children length]. split.
  - apply numbered_app; [exact Hch|]. rewrite Hlen. by replace (k * l_arity lv + l_arity lv) with ((k + 1) * l_arity lv) by lia.
  - rewrite length_app. cbn [length]. lia.
Qed.

Definition lv_kind (lv : synthetic_level) : hwloc_obj_type_t * Z :=
  (l_type lv, default 0 (attr_depth (l_type lv) <$> level_attr lv)).

Lemma buildable_type lv : buildable lv = true ->
  hwloc_obj_type_is_io (l_type lv) = false /\ l_type lv <> HWLOC_OBJ_MISC.
Proof. unfold buildable. by destruct (l_type lv). Qed.

Lemma object_kind lv k w o ch : is_object lv k w o -> buildable lv = true ->
  placed (Node o ch) /\ level_kind (Node o ch) = lv_kind lv.
Proof.
  intros [Ht _ _ _ _ Ha _ _] (Hio & Hm)%buildable_type. unfold placed, filtered_out, level_kind, lv_kind, t_type.
  cbn [t_obj]. rewrite <- Ha, Ht, Hio. by rewrite bool_decide_false.
Qed.

Lemma regular_uniform lvs k ts : regular lvs = true -> ts <> [] -> numbered lvs k ts -> uniform (map lv_kind lvs) ts.
Proof.
  revert k ts. induction lvs as [|lv lvs IH]; intros k ts; [done|]. intros (Hb & Hr)%regular_inv Hne Hn.
  destruct (numbered_next lv lvs k ts Hn) as [Hnext Hlen]. cbn [map uniform]. split; [done|]. split.
  - apply Forall_forall. intros [o ch] (j & Hj)%list_elem_of_lookup. destruct (Hn j _ Hj) as (Hobj & _).
    by eapply object_kind.
  - destruct lvs as [|lv' lvs].
    + cbn [map uniform]. destruct (next_layer ts); [done|]. rewrite Hr in Hlen. simpl in Hlen. lia.
    + destruct Hr as (Ha & _ & Hreg). apply (IH (k * l_arity lv)); [done| |done].
      destruct ts; [done|]. intros Hnil. rewrite Hnil in Hlen. simpl in Hlen. nia.
Qed.

(** How many objects the level at distance [d] has, when the first has [n]. *)
Fixpoint objects_at (n : Z) (lvs : list synthetic_level) (d : nat) : Z :=
  match d, lvs with
  | S d, lv :: lvs => objects_at (n * l_arity lv) lvs d
  | _, _ => n
  end.

Lemma layers_numbered lvs ts d l : numbered lvs 0 ts -> layers (length lvs) ts !! d = Some l ->
  numbered (drop d lvs) 0 l /\ Z.of_nat (length l) = objects_at (Z.of_nat (length ts)) lvs d.
Proof.
  revert ts d. induction lvs as [|lv lvs IH]; intros ts d Hn; [done|]. destruct (numbered_next lv lvs 0 ts Hn) as [Hnext Hlen].
  destruct d as [|d]; cbn [length layers lookup list_lookup drop objects_at]; [intros [= <-]; done|].
  rewrite Z.mul_0_l in Hnext. intros Hl. destruct (IH _ d Hnext Hl) as [H1 H2]. by rewrite <- Hlen.
Qed.

(** ** All objects of a regular tree *)

(** An object of one of the levels. *)
Definition described (lvs : list synthetic_level) o : Prop :=
  exists lv k w, lv ∈ lvs /\ buildable lv = true /\ 0 <= k /\ 1 <= w /\ is_object lv k w o.

Lemma described_below lv lvs o : described lvs o -> described (lv :: lvs) o.
Proof. intros (lv' & k & w & Hin & Hrest). exists lv', k, w. split; [by right|done]. Qed.

Lemma subtree_described lvs k t : regular lvs = true -> 0 <= k -> is_subtree lvs k t -> Forall (described lvs) (tree_objs t).
Proof.
  revert k t. induction lvs as [|lv lvs IH]; intros k [o ch]; [done|]. intros Hreg Hk (Hobj & Hlen & Hch).
  pose proof (width_pos _ Hreg) as Hw. apply regular_inv in Hreg as [Hb Hr].
  rewrite tree_objs_node. constructor; [exists lv, k, (width (lv :: lvs)); split; [by left|done]|].
  destruct lvs as [|lv' lvs].
  - rewrite Hr in Hlen. destruct ch; [constructor|simpl in Hlen; lia].
  - destruct Hr as (Ha & _ & Hreg). apply Forall_forall. intros p (c & Hc & Hp)%elem_of_forest_objs.
    apply list_elem_of_lookup in Hc as [j Hj]. apply described_below.
    refine (proj1 (Forall_forall _ _) (IH (k * l_arity lv + Z.of_nat j) c Hreg _ (Hch j c Hj)) p Hp). nia.
Qed.

Lemma forest_described lvs ts : regular lvs = true -> numbered lvs 0 ts -> Forall (described lvs) (forest_objs ts).
Proof.
  intros Hreg Hn. apply Forall_forall. intros o (t & Ht & Ho)%elem_of_forest_objs.
  apply list_elem_of_lookup in Ht as [j Hj].
  refine (proj1 (Forall_forall _ _) (subtree_described lvs _ t Hreg _ (Hn j t Hj)) o Ho). lia.
Qed.

Lemma described_cpu lvs o : described lvs o -> exists i, 0 <= i /\ bm (cs o) i = true.
Proof.
  intros (lv & k & w & _ & _ & Hk & Hw & Hobj). apply object_cs in Hobj as [_ Hr]. exists (k * w).
  split; [nia|]. rewrite Hr by nia. apply andb_true_iff. split; [apply Z.leb_refl|apply Z.ltb_lt; nia].
Qed.

Lemma described_bare lvs o : described lvs o -> bare o.
Proof.
  intros (lv & k & w & _ & _ & _ & _ & [_ _ _ (c & Hc & _) _ _ Hb _]). split; [by exists c|done].
Qed.

Lemma described_normal lvs o : described lvs o -> normal o.
Proof. intros (lv & k & w & _ & Hb & _ & _ & [Ht]). unfold normal, not_io. rewrite Ht. by apply buildable_type. Qed.

Lemma leaves_in t o : o ∈ leaf_objs t -> o ∈ tree_objs t.
Proof.
  induction t as [p ch IH] using obj_tree_ind'. rewrite tree_objs_node. destruct ch as [|c ch].
  - by intros ->%list_elem_of_singleton; left.
  - change (leaf_objs (Node p (c :: ch))) with (flat_map leaf_objs (c :: ch)).
    intros Ho. right. apply list_elem_of_In, in_flat_map in Ho as (d & Hd & Ho).
    apply list_elem_of_In in Hd, Ho. apply elem_of_forest_objs. exists d. split; [done|].
    rewrite Forall_forall in IH. by apply IH.
Qed.

(** ** What the backend hands over *)

(** The root of a backend that has built [n] CPUs. *)
Record synthetic_root (ro : hwloc_obj B) (ts : list (obj_tree B)) (n : Z) : Prop := {
  sr_full : exists u on al, ocpuset ro = Some u /\ online_cpuset (sets ro) = Some on /\ allowed_cpuset (sets ro) = Some al /\
    (forall i, 0 <= i -> bm u i = true) /\ (forall i, 0 <= i -> bm on i = true) /\ (forall i, 0 <= i -> bm al i = true);
  sr_complete : exists cc, complete_cpuset (sets ro) = Some cc /\ is_range cc 0 n;
  sr_nodeset : is_Some (onodeset ro);
  sr_nodes : exists cn, complete_nodeset (sets ro) = Some cn /\
    forall i, 0 <= i -> bm cn i = true <-> exists o, o ∈ forest_objs ts /\ in_nodeset i o;
  sr_type : normal ro;
}.

Lemma node_index lvs o n : described lvs o -> onodeset o = Some n -> exists i, 0 <= i /\ bm n i = true.
Proof.
  intros (lv & k & w & _ & _ & Hk & _ & Hobj) Hn. pose proof (io_nodeset _ _ _ _ Hobj) as Hns.
  destruct (bool_decide _); [|congruence]. destruct Hns as (n' & Hn' & _ & Hr). assert (n' = n) as -> by congruence.
  exists k. split; [done|]. rewrite Hr by done. apply andb_true_iff. split; [apply Z.leb_refl|apply Z.ltb_lt; lia].
Qed.

Lemma synthetic_built lvs ro ts n :
  regular lvs = true -> numbered lvs 0 ts -> synthetic_root ro ts n -> built ro ts.
Proof.
  intros Hreg Hn [(u & on & al & Hu & Hon & Hal & _) (cc & Hcc & _) Hns (cn & Hcn & Hnodes) Hty].
  pose proof (forest_described lvs ts Hreg Hn) as Hdesc. split.
  - repeat split; by eexists.
  - split; [done|]. exists cn. split; [done|]. intros Hempty. rewrite Forall_forall in Hdesc. apply Forall_forall.
    intros o Ho. destruct (onodeset o) as [m|] eqn:Hm; [|done]. destruct (node_index lvs o m (Hdesc o Ho) Hm) as (i & Hi & Hb).
    assert (bm cn i = true) as Hc by (apply Hnodes; [done|]; exists o; split; [done|]; by exists m).
    by rewrite Hempty in Hc.
  - eapply Forall_impl; [exact Hdesc|]. intros o. apply described_bare.
  - rewrite tree_objs_node. constructor; [apply Hty|]. eapply Forall_impl; [exact Hdesc|].
    intros o Ho. by apply described_normal in Ho as [? _].
Qed.

(** ** No object is removed *)

(** An only child, and the parent of one, are not of types that may be merged. *)
Fixpoint separate (ign : ignored_types) (levels : list synthetic_level) : bool :=
  let keep lv := bool_decide (ign (l_type lv) = HWLOC_IGNORE_TYPE_KEEP_STRUCTURE) in
  match levels with
  | lv :: below =>
      match below with
      | lv' :: _ => (negb (l_arity lv =? 1) || negb (keep lv) && negb (keep lv')) && separate ign below
      | [] => true
      end
  | [] => true
  end.

Lemma strip_id drop t : Forall (fun o => forall ch, drop o ch = false) (tree_objs t) -> strip drop t = [t].
Proof.
  induction t as [o ch IH] using obj_tree_ind'. rewrite tree_objs_node. intros [Ho Hch]%Forall_cons. cbn [strip].
  assert (concat (map (strip drop) ch) = ch) as ->; [|by rewrite Ho].
  clear Ho. induction IH as [|c ch Hc _ IHch]; [done|]. rewrite forest_objs_cons in Hch. apply Forall_app in Hch as [H1 H2].
  cbn [map concat]. by rewrite Hc, IHch.
Qed.

Lemma strip_forest_id drop ts : Forall (fun o => forall ch, drop o ch = false) (forest_objs ts) ->
  concat (map (strip drop) ts) = ts.
Proof.
  induction ts as [|t ts IH]; [done|]. rewrite forest_objs_cons. intros [H1 H2]%Forall_app. cbn [map concat].
  by rewrite strip_id, IH.
Qed.

Lemma cleaned_id ign o ts :
  Forall (fun o => ign (o_type o) <> HWLOC_IGNORE_TYPE_ALWAYS /\ removable o = false) (forest_objs ts) ->
  Forall (useful ign) (tree_nodes (Node o ts)) -> cleaned ign (Node o ts) = Node o ts.
Proof.
  intros Hts Hu. unfold cleaned. cbn [without_ignored].
  rewrite (strip_forest_id (drop_ignored ign)).
  - cbn [without_empty]. rewrite (strip_forest_id drop_empty); [by apply merge_id|].
    eapply Forall_impl; [exact Hts|]. by intros p [_ Hp] [|? ?].
  - eapply Forall_impl; [exact Hts|]. intros p [Hp _] ch. unfold drop_ignored. by rewrite bool_decide_false.
Qed.

Lemma tree_nodes_tmap f t : tree_nodes (tmap f t) = map (tmap f) (tree_nodes t).
Proof.
  induction t as [o ch IH] using obj_tree_ind'. cbn [tmap]. rewrite !tree_nodes_node. cbn [map tmap]. f_equal.
  unfold forest_nodes. rewrite concat_map, !map_map. f_equal. by apply map_forall.
Qed.

Lemma useful_same ign t t' : o_type (t_obj t) = o_type (t_obj t') ->
  map t_type (t_children t) = map t_type (t_children t') -> useful ign t -> useful ign t'.
Proof.
  unfold useful, keeps_structure. intros <-. destruct (t_children t) as [|c [|]], (t_children t') as [|c' [|]]; try done.
  unfold t_type. by intros [= ->].
Qed.

Lemma useful_tmap ign f t : (forall o, o_type (f o) = o_type o) -> useful ign t -> useful ign (tmap f t).
Proof.
  intros Hf. destruct t as [o ch]. apply useful_same; cbn [tmap t_obj t_children]; [done|].
  rewrite map_map. apply map_ext. intros [p cp]. unfold t_type. cbn [tmap t_obj]. done.
Qed.

Lemma subtree_type lv lvs k t : is_subtree (lv :: lvs) k t -> o_type (t_obj t) = l_type lv.
Proof. intros Ht. apply (io_type _ _ _ _ (subtree_head _ _ _ _ Ht)). Qed.

(** A parent of a numbered list. *)
Lemma parent_useful ign lv lvs o ts : separate ign (lv :: lvs) = true -> o_type o = l_type lv ->
  Z.of_nat (length ts) = l_arity lv -> (exists k, numbered lvs k ts) -> useful ign (Node o ts).
Proof.
  intros Hs Ho Hlen [k Hn]. unfold useful. cbn [t_children t_obj]. destruct ts as [|c [|]]; try done.
  apply numbered_cons in Hn as [Hc _]. destruct lvs as [|lv' lvs]; [done|]. apply subtree_type in Hc.
  unfold keeps_structure. rewrite Ho, Hc. cbn [separate] in Hs. apply andb_true_iff in Hs as [Hs _].
  assert (l_arity lv =? 1 = true) as Ha by (apply Z.eqb_eq; simpl in Hlen; lia). rewrite Ha in Hs. cbn [negb orb] in Hs.
  apply andb_true_iff in Hs as [H1 H2]. by rewrite negb_true_iff in H1, H2.
Qed.

Lemma separate_below ign lv lvs : separate ign (lv :: lvs) = true -> separate ign lvs = true.
Proof. cbn [separate]. destruct lvs; [done|]. by intros [_ ?]%andb_true_iff. Qed.

Lemma subtree_useful ign lvs k t : separate ign lvs = true -> is_subtree lvs k t -> Forall (useful ign) (tree_nodes t).
Proof.
  revert k t. induction lvs as [|lv lvs IH]; intros k [o ch]; [done|]. intros Hs (Hobj & Hlen & Hch).
  rewrite tree_nodes_node. constructor.
  - eapply parent_useful; [exact Hs|by apply Hobj|done|by exists (k * l_arity lv)].
  - apply Forall_concat, Forall_map, Forall_forall. intros c (j & Hj)%list_elem_of_lookup.
    eapply IH; [by eapply separate_below|by apply Hch].
Qed.

Lemma forest_useful ign top lvs o ts : separate ign (top :: lvs) = true -> o_type o = l_type top ->
  Z.of_nat (length ts) = l_arity top -> numbered lvs 0 ts -> Forall (useful ign) (tree_nodes (Node o ts)).
Proof.
  intros Hs Ho Hlen Hn. rewrite tree_nodes_node. constructor.
  - eapply parent_useful; [exact Hs|done|done|by exists 0].
  - apply Forall_concat, Forall_map, Forall_forall. intros c (j & Hj)%list_elem_of_lookup.
    eapply subtree_useful; [by eapply separate_below|by apply Hn].
Qed.

(** ** The CPUs that stay *)

Lemma subtree_bound lvs k t : regular lvs = true -> 0 <= k -> is_subtree lvs k t ->
  Forall (fun o => forall i, 0 <= i -> bm (cs o) i = true -> i < (k + 1) * width lvs) (tree_objs t).
Proof.
  revert k t. induction lvs as [|lv lvs IH]; intros k [o ch]; [done|]. intros Hreg Hk (Hobj & Hlen & Hch).
  rewrite tree_objs_node. constructor.
  - intros i Hi. apply object_cs in Hobj as [_ Hr]. rewrite Hr by done. intros [_ Hlt%Z.ltb_lt]%andb_true_iff. done.
  - destruct lvs as [|lv' lvs].
    + apply regular_inv in Hreg as [_ Hr]. rewrite Hr in Hlen. destruct ch; [constructor|simpl in Hlen; lia].
    + rewrite (width_cons _ _ _ Hreg). apply regular_inv in Hreg as (_ & Ha & _ & Hreg). pose proof (width_pos _ Hreg) as Hw.
      apply Forall_forall. intros p (c & Hc & Hp)%elem_of_forest_objs i Hi Hm. apply list_elem_of_lookup in Hc as [j Hj].
      pose proof (lookup_lt_Some _ _ _ Hj) as Hlt.
      pose proof (proj1 (Forall_forall _ _) (IH (k * l_arity lv + Z.of_nat j) c Hreg ltac:(nia) (Hch j c Hj)) p Hp i Hi Hm) as Hb.
      rewrite Z.mul_assoc. eapply Z.lt_le_trans; [exact Hb|]. apply Z.mul_le_mono_nonneg_r; nia.
Qed.

Lemma forest_bound lvs ts : regular lvs = true -> numbered lvs 0 ts ->
  Forall (fun o => forall i, 0 <= i -> bm (cs o) i = true -> i < Z.of_nat (length ts) * width lvs) (forest_objs ts).
Proof.
  intros Hreg Hn. pose proof (width_pos _ Hreg). apply Forall_forall. intros o (t & Ht & Ho)%elem_of_forest_objs i Hi Hm.
  apply list_elem_of_lookup in Ht as [j Hj]. pose proof (lookup_lt_Some _ _ _ Hj).
  pose proof (proj1 (Forall_forall _ _) (subtree_bound lvs (0 + Z.of_nat j) t Hreg ltac:(lia) (Hn j t Hj)) o Ho i Hi Hm) as Hb.
  eapply Z.lt_le_trans; [exact Hb|]. apply Z.mul_le_mono_nonneg_r; lia.
Qed.

Lemma pu_everywhere lvs ts i : regular lvs = true -> numbered lvs 0 ts -> leaf_type lvs = Some HWLOC_OBJ_PU ->
  0 <= i < Z.of_nat (length ts) * width lvs -> pu_member i (forest_objs ts) = true.
Proof.
  intros Hreg Hn Hleaf Hi. destruct (forest_leaves lvs ts Hreg Hn) as [Hidx Hall].
  assert (i ∈ map os_index (flat_map leaf_objs ts)) as Hin by (rewrite Hidx; apply elem_of_seqZ; lia).
  apply list_elem_of_fmap in Hin as (o & Ho & Hin). rewrite Forall_forall in Hall. destruct (Hall o Hin) as [Hty (c & Hc & _ & Hr)].
  apply list_elem_of_In, in_flat_map in Hin as (t & Ht & Hin). apply list_elem_of_In in Ht, Hin.
  unfold pu_member. apply existsb_exists. exists o. split.
  - apply list_elem_of_In, elem_of_forest_objs. exists t. split; [done|by apply leaves_in].
  - unfold is_pu_obj, in_set. assert (o_type o = HWLOC_OBJ_PU) as -> by congruence. rewrite Hc, Hr by lia.
    apply andb_true_iff. split; [done|]. apply andb_true_iff. split; [apply Z.leb_le; lia|apply Z.ltb_lt; lia].
Qed.

Lemma usable_synthetic whole lvs ro ts s i :
  regular lvs = true -> numbered lvs 0 ts -> leaf_type lvs = Some HWLOC_OBJ_PU ->
  synthetic_root ro ts (Z.of_nat (length ts) * width lvs) -> root_sets ro ts s -> 0 <= i ->
  usable whole s i = (i <? Z.of_nat (length ts) * width lvs).
Proof.
  intros Hreg Hn Hleaf [(u & on & al & _ & Hon & Hal & _ & Hon1 & Hal1) (cc & Hcc & _ & Hr) _ _ _] Hs Hi.
  destruct (Hs cc on al i Hcc Hon Hal Hi) as (H1 & H2 & H3). unfold usable. rewrite H1, H2, H3, Hon1, Hal1, Hr by done.
  destruct (Z.leb_spec 0 i); [|lia]. destruct (Z.ltb_spec i (Z.of_nat (length ts) * width lvs)) as [Hlt|Hge].
  - rewrite (pu_everywhere lvs) by done. cbn [andb]. apply orb_true_r.
  - cbn [andb]. by rewrite andb_false_r.
Qed.

(** ** The whole *)

Lemma layers_from (f g : hwloc_obj B -> hwloc_obj B) n ts ts' d l :
  map (tmap f) ts = map (tmap g) ts' -> layers n ts !! d = Some l ->
  exists l', layers n ts' !! d = Some l' /\ map (tmap f) l = map (tmap g) l'.
Proof.
  intros Heq Hl. apply (f_equal (layers n)) in Heq. rewrite !layers_tmap in Heq.
  assert (map (map (tmap f)) (layers n ts) !! d = Some (map (tmap f) l)) as Hm
    by (by rewrite map_lookup, Hl).
  rewrite Heq in Hm. rewrite map_lookup in Hm.
  destruct (layers n ts' !! d) as [l'|]; [|done]. exists l'. split; [done|]. by injection Hm.
Qed.

Lemma objects_at_total n lvs d : regular lvs = true -> (d < length lvs)%nat ->
  objects_at n lvs d * width (drop d lvs) = n * width lvs.
Proof.
  revert n d. induction lvs as [|lv lvs IH]; intros n d Hreg Hd; [done|]. destruct d as [|d]; [done|].
  cbn [drop objects_at length] in *. destruct lvs as [|lv' lvs]; [simpl in Hd; lia|].
  rewrite (width_cons _ _ _ Hreg). apply regular_inv in Hreg as (_ & _ & _ & Hreg). rewrite IH by (done || lia). lia.
Qed.

Lemma regular_drop lvs d : regular lvs = true -> (d < length lvs)%nat -> regular (drop d lvs) = true.
Proof.
  revert d. induction lvs as [|lv lvs IH]; intros [|d] Hreg Hd; try done. cbn [drop].
  destruct lvs as [|lv' lvs]; [simpl in Hd; lia|]. apply regular_inv in Hreg as (_ & _ & _ & Hreg).
  apply IH; [done|]. simpl in *. lia.
Qed.

(** Object [j] of a level of width [w], once loaded. *)
Definition level_object (lv : synthetic_level) (j w : Z) o : Prop :=
  o_type o = l_type lv /\ os_index o = j /\ Some (attr o) = level_attr lv /\
  forall i, 0 <= i -> bm (cs o) i = (j * w <=? i) && (i <? (j + 1) * w).

(** The tree [root] as loaded: what each of its layers holds. *)
Definition loaded_layers (lvs : list synthetic_level) (n : Z) (root : obj_tree B) : Prop :=
  forall d lv, lvs !! d = Some lv -> exists l, layers (length lvs) (t_children root) !! d = Some l /\
    Z.of_nat (length l) = objects_at n lvs d /\
    forall j t, l !! j = Some t -> level_object lv (Z.of_nat j) (width (drop d lvs)) (t_obj t).

Lemma settled_layers whole s lvs ro ts root :
  regular lvs = true -> numbered lvs 0 ts ->
  (forall i, 0 <= i -> usable whole s i = (i <? Z.of_nat (length ts) * width lvs)) ->
  same_cpus root (settled_tree whole s ro ts) -> loaded_layers lvs (Z.of_nat (length ts)) root.
Proof.
  intros Hreg Hn Huse Hsame d lv Hlv. destruct root as [o ch]. unfold same_cpus, settled_tree in Hsame. cbn [tmap] in Hsame.
  apply (f_equal t_children) in Hsame as Hch. cbn [t_children] in Hch. rewrite map_map in Hch.
  rewrite (map_ext (fun t => tmap cpu_core (tmap (settle whole s) t)) (tmap (fun p => cpu_core (settle whole s p)))) in Hch
    by (intros; apply tmap_tmap).
  pose proof (lookup_lt_Some _ _ _ Hlv) as Hd. cbn [t_children].
  destruct (lookup_lt_is_Some_2 (layers (length lvs) ch) d) as [l Hl]; [by rewrite length_layers|].
  exists l. split; [done|]. destruct (layers_from _ _ _ _ _ _ _ Hch Hl) as (l' & Hl' & Heq).
  destruct (layers_numbered lvs ts d l' Hn Hl') as [Hnum Hlen].
  split; [rewrite <- Hlen; apply (f_equal length) in Heq; rewrite !length_map in Heq; lia|].
  intros j t Hj. assert (map (tmap cpu_core) l !! j = Some (tmap cpu_core t)) as Hm
    by (by rewrite map_lookup, Hj).
  rewrite Heq in Hm. rewrite map_lookup in Hm.
  destruct (l' !! j) as [t'|] eqn:Hj'; [|done]. injection Hm as Hm. apply (f_equal t_obj) in Hm. rewrite !t_obj_tmap in Hm.
  specialize (Hnum j t' Hj'). rewrite (drop_S _ lv) in Hnum by done. apply subtree_head in Hnum.
  rewrite <- (drop_S _ lv) in Hnum by done. symmetry in Hm.
  apply cpu_core_facts in Hm as (Hc & Hcs & _). apply core_facts in Hc as (_ & Hty & Hidx & Hat & _).
  pose proof (object_cs _ _ _ _ Hnum) as [_ Hr]. destruct Hnum as [Ht Hi _ _ _ Ha _ _].
  destruct (core_facts _ _ (settle_core whole s (t_obj t'))) as (_ & S1 & S2 & S3 & _).
  split; [congruence|]. split; [rewrite Hidx, S2, Hi; lia|]. split; [congruence|]. intros i Hi0.
  unfold cs. rewrite Hcs. fold (cs (settle whole s (t_obj t'))). rewrite settle_cs, Hr, Huse by done.
  pose proof (objects_at_total (Z.of_nat (length ts)) lvs d Hreg Hd) as Htot. rewrite <- Hlen in Htot.
  apply lookup_lt_Some in Hj'. pose proof (width_pos _ (regular_drop lvs d Hreg Hd)) as Hw.
  rewrite Z.add_0_l. set (w := width (drop d lvs)) in *. assert ((Z.of_nat j + 1) * w <= Z.of_nat (length l') * w) by nia.
  destruct (Z.leb_spec (Z.of_nat j * w) i), (Z.ltb_spec i ((Z.of_nat j + 1) * w)); cbn [andb]; try done.
  apply Z.ltb_lt. lia.
Qed.

(** What the levels must be for a discovery to keep them all. *)
Record loadable (ign : ignored_types) (top : synthetic_level) (lvs : list synthetic_level) : Prop := {
  ld_arity : 1 <= l_arity top;
  ld_regular : regular lvs = true;
  ld_pus : leaf_type lvs = Some HWLOC_OBJ_PU;
  ld_separate : separate ign (top :: lvs) = true;
  ld_kept : Forall (fun lv => ign (l_type lv) <> HWLOC_IGNORE_TYPE_ALWAYS) lvs;
  ld_depth : Z.of_nat (length lvs) < HWLOC_DEPTH_MAX;
}.

Definition total (top : synthetic_level) (lvs : list synthetic_level) : Z := l_arity top * width lvs.

Lemma removable_settled whole lvs s o : described lvs o ->
  (forall i, 0 <= i -> bm (cs o) i = true -> usable whole s i = true) -> removable (settle whole s o) = false.
Proof.
  intros Hd Huse. destruct (described_cpu lvs o Hd) as (i & Hi & Hm). pose proof (settle_cs whole s o i Hi) as Hc.
  rewrite Hm, (Huse i Hi Hm) in Hc. unfold removable, cs in *. destruct (ocpuset (settle whole s o)) as [c|];
    [|by rewrite bm_alloc in Hc]. cbn [default null_or] in *. destruct (b_iszero c) eqn:Hz; [|by rewrite andb_false_r].
  apply b_iszero_spec in Hz. by rewrite Hz in Hc.
Qed.

Lemma settled_kept ign top lvs whole s ro ts :
  loadable ign top lvs -> numbered lvs 0 ts -> Z.of_nat (length ts) = l_arity top -> o_type ro = l_type top ->
  (forall i, 0 <= i -> usable whole s i = (i <? Z.of_nat (length ts) * width lvs)) ->
  cleaned ign (settled_tree whole s ro ts) = settled_tree whole s ro ts.
Proof.
  intros [Ha Hreg Hpu Hsep Hign _] Hn Hlen Hty Huse. unfold settled_tree. apply cleaned_id.
  - rewrite forest_objs_tmap, Forall_map. pose proof (forest_described lvs ts Hreg Hn) as Hd.
    pose proof (forest_bound lvs ts Hreg Hn) as Hb. rewrite Forall_forall in Hd. rewrite Forall_forall in Hign. rewrite Forall_forall in Hb.
    apply Forall_forall. intros o Ho. destruct (core_facts _ _ (settle_core whole s o)) as (_ & -> & _). split.
    + destruct (Hd o Ho) as (lv & k & w & Hin & _ & _ & _ & [Ht]). rewrite Ht. by apply Hign.
    + apply (removable_settled whole lvs); [by apply Hd|]. intros i Hi Hm. rewrite Huse by done. apply Z.ltb_lt.
      by apply (Hb o Ho).
  - pose proof (forest_useful ign top lvs ro ts Hsep Hty Hlen Hn) as Hu. rewrite tree_nodes_node in Hu |- *.
    apply Forall_cons in Hu as [Hu Hus]. constructor.
    + revert Hu. apply useful_same; cbn [t_obj t_children]; [by destruct whole|].
      rewrite map_map. apply map_ext. intros [p cp]. unfold t_type. cbn [tmap t_obj].
      destruct (core_facts _ _ (settle_core whole s p)) as (_ & -> & _). done.
    + unfold forest_nodes in *. rewrite map_map. apply Forall_concat. apply Forall_concat in Hus.
      rewrite Forall_map in Hus |- *. eapply Forall_impl; [exact Hus|]. intros t Ht. cbv beta in Ht |- *.
      rewrite tree_nodes_tmap, Forall_map. eapply Forall_impl; [exact Ht|]. intros u. apply useful_tmap.
      intros p. by destruct (core_facts _ _ (settle_core whole s p)) as (_ & -> & _).
Qed.

Lemma settled_uniform whole s lvs ro ts root :
  regular lvs = true -> ts <> [] -> numbered lvs 0 ts -> same_cpus root (settled_tree whole s ro ts) ->
  uniform (map lv_kind lvs) (t_children root).
Proof.
  intros Hreg Hne Hn Hsame. apply (uniform_same _ ts); [|by eapply regular_uniform].
  pose proof (settled_core whole s ro ts) as Hcore. apply same_cpus_core in Hsame. rewrite Hcore in Hsame.
  destruct root as [o ch]. apply (f_equal t_children) in Hsame. cbn [tmap t_children] in *. done.
Qed.

(** What the backend makes of the object of [hwloc_topology_setup_defaults]. *)
Lemma look_fresh top lvs description a next :
  1 <= l_arity top -> regular lvs = true -> total top lvs <= CPU_MAX ->
  l_type top = HWLOC_OBJ_MACHINE \/ l_type top = HWLOC_OBJ_SYSTEM -> a < next ->
  exists ro ts next', hwloc_look_synthetic (top :: lvs) description (Node (new_root a) []) next = Some (Node ro ts, next') /\
    numbered lvs 0 ts /\ Z.of_nat (length ts) = l_arity top /\ o_type ro = l_type top /\ os_index ro = 0 /\
    synthetic_root ro ts (total top lvs) /\ distinct (tree_objs (Node ro ts)) /\ tree_wf (Node ro ts).
Proof.
  intros Ha Hreg Hmax Hnormal Hlt.
  destruct (look_synthetic_ok top lvs description (new_root a) next Ha Hreg Hmax (alloc_cpusets_fresh _))
    as (ro & ts & next' & Hrun & Hwf & Hlen & Hts & (Hnd & Haddr) & Hty & (Hoa & Hidx) & (Hu & Hon & Hal & Hns) & Hcc & Hcn).
  exists ro, ts, next'. split; [done|]. split; [done|]. split; [done|]. split; [done|]. split; [done|]. split.
  - split.
    + exists b_alloc_full, b_alloc_full, b_alloc_full. rewrite Hu, Hon, Hal. do 3 (split; [done|]).
      by repeat split; intros i Hi; apply bm_alloc_full.
    + done.
    + rewrite Hns. by eexists.
    + done.
    + unfold normal, not_io. rewrite Hty. by destruct Hnormal as [-> | ->].
  - split; [|done]. unfold distinct. rewrite tree_objs_node. cbn [map]. constructor; [|done]. rewrite Hoa.
    intros (o & Heq & Ho)%list_elem_of_fmap. rewrite Forall_forall in Haddr. specialize (Haddr o Ho).
    cbn in Heq. lia.
Qed.

(** The rest of [hwloc_discover] completes: one level for each level of the description. *)
Lemma finish_synthetic qsort flags ign top lvs ro ts :
  loadable ign top lvs -> numbered lvs 0 ts -> Z.of_nat (length ts) = l_arity top -> o_type ro = l_type top ->
  synthetic_root ro ts (total top lvs) -> distinct (tree_objs (Node ro ts)) ->
  exists root tl, finish_discovery qsort flags ign (Node ro ts) = Some (root, tl) /\
    consultable (topology_of root tl) /\ hierarchy (topology_of root tl) root /\
    distinct (tree_objs root) /\ connected root tl /\
    core (t_obj root) = core ro /\ (forall i, 0 <= i -> bm (cs (t_obj root)) i = (i <? total top lvs)) /\
    Levels.levels (tl_levels tl) = [root] :: layers (length lvs) (t_children root) /\
    loaded_layers lvs (l_arity top) root.
Proof.
  intros Hld Hn Hlen Hty Hroot Hd. pose proof Hld as [Ha Hreg Hpu _ _ Hdepth].
  assert (Forall normal (tree_objs (Node ro ts))) as Hnormal.
  { rewrite tree_objs_node. constructor; [apply Hroot|]. eapply Forall_impl; [by apply (forest_described lvs)|].
    intros o. apply described_normal. }
  destruct (finish_ok qsort flags ign ro ts (synthetic_built lvs ro ts _ Hreg Hn Hroot) Hd Hnormal) as (s & Hs & Hfin).
  set (whole := has_flag flags HWLOC_TOPOLOGY_FLAG_WHOLE_SYSTEM) in *. unfold total in Hroot. rewrite <- Hlen in Hroot.
  assert (forall i, 0 <= i -> usable whole s i = (i <? Z.of_nat (length ts) * width lvs)) as Huse
    by (intros; by eapply usable_synthetic).
  pose proof (width_pos _ Hreg) as Hw. rewrite (settled_kept ign top lvs) in Hfin by done.
  assert (usable whole s 0 = true) as H0' by (rewrite Huse by done; apply Z.ltb_lt; nia).
  specialize (Hfin (ex_intro _ 0 (conj (Z.le_refl 0) H0'))).
  assert (ts <> []) as Hne by (destruct ts; [simpl in Hlen; lia|done]).
  destruct (finish_discovery qsort flags ign (Node ro ts)) as [[root tl]|].
  - destruct Hfin as (Hsame & Htidy & Hcon & Hcs & Hh & st & Hst). exists root, tl.
    assert (cpu_core (t_obj root) = cpu_core (settle_root whole s ro)) as Hr0.
    { apply (f_equal t_obj) in Hsame. by rewrite !t_obj_tmap in Hsame. }
    apply cpu_core_facts in Hr0 as (Hcore & Hcpu & _).
    split; [done|]. split; [done|]. split; [done|]. split; [apply Htidy|]. split; [done|]. split; [by rewrite Hcore; destruct whole|].
    split; [intros i Hi; unfold cs; rewrite Hcpu; fold (cs (settle_root whole s ro));
      rewrite settle_root_cs, Huse by done; by unfold total; rewrite Hlen|].
    split; [|rewrite <- Hlen; by eapply settled_layers].
    destruct (connect_levels_uniform (map lv_kind lvs) root st (td_distinct _ Htidy)) as (tl' & Htl & Hlv);
      [by eapply settled_uniform|by rewrite length_map|]. rewrite length_map in Hlv. congruence.
  - destruct Hfin as (r & Hsame & _ & st & Hst). exfalso.
    destruct (connect_levels_uniform (map lv_kind lvs) r st) as (tl' & Htl & _);
      [|by eapply settled_uniform|by rewrite length_map|congruence].
    eapply same_core_distinct; [symmetry; apply same_cpus_core; exact Hsame|].
    eapply same_core_distinct; [symmetry; apply settled_core|done].
Qed.

End SyntheticLoad.
