(* ===== verification/DiscoverThms.v ===== *)
(** * DiscoverThms: what a discovery makes of the objects of a backend *)

From stdpp Require Import gmap.
From Stdlib Require Import Ascii String.
From S2P Require Import Prelude CString Cpuset Obj ObjCmp Insert InsertOk Clean CleanOk Levels LevelsOk LevelsLoop Connected Sets Traversal Loaded HelperOk Synthetic SyntheticOk SyntheticParse Shape Discover DiscoverOk CleanSets DiscoverLoad SyntheticLoad SyntheticThms Samples.

Section Claims.
Context {B : Type} `{Cpuset B}.
Implicit Types t : obj_tree B.
Implicit Types o : hwloc_obj B.

(** CPU [i] is in a PU, known to be complete and, unless the whole system was asked
    for, online and allowed. *)
Definition usable_cpu (flags : Z) (ro : hwloc_obj B) (ch : list (obj_tree B)) (i : Z) : bool :=
  pu_member i (forest_objs ch) && in_set (complete_cpuset (sets ro)) i &&
  (has_flag flags HWLOC_TOPOLOGY_FLAG_WHOLE_SYSTEM ||
   in_set (online_cpuset (sets ro)) i && in_set (allowed_cpuset (sets ro)) i).

Lemma usable_root flags ro ch s i : four_cpusets ro -> root_sets ro ch s -> 0 <= i ->
  usable (has_flag flags HWLOC_TOPOLOGY_FLAG_WHOLE_SYSTEM) s i = usable_cpu flags ro ch i.
Proof.
  intros (_ & [m Hm] & [on Hon] & [al Hal]) Hs Hi. destruct (Hs m on al i Hm Hon Hal Hi) as (H1 & H2 & H3).
  unfold usable, usable_cpu, in_set. rewrite H1, H2, H3, Hm, Hon, Hal.
  by destruct (pu_member i _), (bm m i), (bm on i), (bm al i), (has_flag _ _).
Qed.

Lemma plain_nested_objs t o : plain_nested t -> o ∈ tree_objs t -> bsub (cs o) (cs (t_obj t)).
Proof.
  induction t as [p ch IH] using obj_tree_ind'. intros [Hch _]%plain_nested_inv. rewrite tree_objs_node.
  intros [->|(c & Hc & Ho)%elem_of_forest_objs]%elem_of_cons; [done|]. rewrite Forall_forall in IH, Hch.
  destruct (Hch c Hc) as (_ & Hs & Hn). etrans; [by apply (IH c Hc)|exact Hs].
Qed.

Lemma usable_in_root flags ro ch i : plain_nested (Node ro ch) -> 0 <= i ->
  usable_cpu flags ro ch i = true -> bm (cs ro) i = true.
Proof.
  intros Hn Hi. unfold usable_cpu. rewrite !andb_true_iff. intros [[Hpu _] _]. unfold pu_member in Hpu.
  apply existsb_exists in Hpu as (o & Ho & Hp). apply andb_true_iff in Hp as [_ Hp].
  apply list_elem_of_In in Ho. assert (bm (cs o) i = true) as Hm.
  { unfold in_set in Hp. unfold cs. by destruct (ocpuset o). }
  apply (plain_nested_objs (Node ro ch) o Hn); [by right|done|done].
Qed.

(** An object before the removal passes comes from one of the backend. *)
Lemma settled_from whole s ro ch o' :
  (forall i, 0 <= i -> usable whole s i = true -> bm (cs ro) i = true) ->
  o' ∈ tree_objs (settled_tree whole s ro ch) ->
  exists o, o ∈ tree_objs (Node ro ch) /\ core o' = core o /\ forall i, 0 <= i -> bm (cs o') i = bm (cs o) i && usable whole s i.
Proof.
  intros Hroot. unfold settled_tree. rewrite !tree_objs_node. intros [->|Hin]%elem_of_cons.
  - exists ro. split; [by left|]. split; [by destruct whole|]. intros i Hi. rewrite settle_root_cs by done.
    specialize (Hroot i Hi). destruct (usable whole s i); [by rewrite Hroot|by rewrite andb_false_r].
  - rewrite forest_objs_tmap in Hin. apply list_elem_of_fmap in Hin as (o & -> & Ho). exists o.
    split; [by right|]. split; [apply settle_core|]. intros i Hi. by apply settle_cs.
Qed.

Lemma settled_to whole s ro ch o :
  (forall i, 0 <= i -> usable whole s i = true -> bm (cs ro) i = true) ->
  o ∈ tree_objs (Node ro ch) ->
  exists o', o' ∈ tree_objs (settled_tree whole s ro ch) /\ core o' = core o /\
    forall i, 0 <= i -> bm (cs o') i = bm (cs o) i && usable whole s i.
Proof.
  intros Hroot. unfold settled_tree. rewrite !tree_objs_node. intros [->|Hin]%elem_of_cons.
  - exists (settle_root whole s ro). split; [by left|]. split; [by destruct whole|]. intros i Hi.
    rewrite settle_root_cs by done. specialize (Hroot i Hi).
    destruct (usable whole s i); [by rewrite Hroot|by rewrite andb_false_r].
  - exists (settle whole s o). split.
    + right. rewrite forest_objs_tmap. by apply list_elem_of_fmap_2.
    + split; [apply settle_core|]. intros i Hi. by apply settle_cs.
Qed.

Lemma same_cpus_in t t' o : same_cpus t t' -> o ∈ tree_objs t -> exists o', o' ∈ tree_objs t' /\ cpu_core o' = cpu_core o.
Proof.
  intros Heq%same_cpus_objs Ho. apply (list_elem_of_fmap_2 cpu_core) in Ho.
  change (cpu_core <$> tree_objs t) with (map cpu_core (tree_objs t)) in Ho. rewrite Heq in Ho.
  apply list_elem_of_fmap in Ho as (o' & Ho' & Hin). by exists o'.
Qed.

(** The result against the tree before the removal passes. *)
Lemma kept_objects ign whole s ro ch root :
  (forall i, 0 <= i -> usable whole s i = true -> bm (cs ro) i = true) ->
  same_cpus root (cleaned ign (settled_tree whole s ro ch)) ->
  sublist (map core (tree_objs root)) (map core (tree_objs (Node ro ch))) /\
  Forall (fun o' => exists o, o ∈ tree_objs (Node ro ch) /\ core o' = core o /\
    forall i, 0 <= i -> bm (cs o') i = bm (cs o) i && usable whole s i) (tree_objs root) /\
  Forall (fun o => ign (o_type o) = HWLOC_IGNORE_TYPE_NEVER ->
    o_type o = HWLOC_OBJ_NODE \/ (exists i, 0 <= i /\ bm (cs o) i = true /\ usable whole s i = true) ->
    exists o', o' ∈ tree_objs root /\ core o' = core o) (tree_objs (Node ro ch)).
Proof.
  intros Hroot Hsame. split; [|split].
  - rewrite (same_core_objs _ _ (same_cpus_core _ _ Hsame)).
    rewrite <- (same_core_objs _ _ (settled_core whole s ro ch)). apply (fmap_sublist core), cleaned_sublist.
  - apply Forall_forall. intros o' Ho'. destruct (same_cpus_in _ _ _ Hsame Ho') as (p & Hp & Heq).
    destruct (settled_from whole s ro ch p Hroot) as (o & Ho & Hc & Hm).
    { eapply elem_of_sublist; [exact Hp|apply cleaned_sublist]. }
    apply cpu_core_facts in Heq as (Hcore & Hcs & _). exists o. split; [done|]. split; [by rewrite <- Hcore|].
    intros i Hi. rewrite <- Hm by done. unfold cs. by rewrite Hcs.
  - apply Forall_forall. intros o Ho Hign Hkeep. destruct (settled_to whole s ro ch o Hroot Ho) as (p & Hp & Hc & Hm).
    destruct (core_facts _ _ Hc) as (_ & Hty & _).
    assert (p ∈ tree_objs (cleaned ign (settled_tree whole s ro ch))) as Hin.
    { apply cleaned_keeps; [done|by rewrite Hty|]. unfold removable. rewrite Hty. destruct Hkeep as [->|(i & Hi & Hb & Hu)]; [done|].
      specialize (Hm i Hi). rewrite Hb, Hu in Hm. unfold cs in Hm. destruct (ocpuset p) as [c|]; [|by rewrite bm_alloc in Hm].
      cbn [default] in Hm. cbn [null_or]. destruct (b_iszero c) eqn:Hz; [|by rewrite andb_false_r].
      apply b_iszero_spec in Hz. by rewrite Hz in Hm. }
    symmetry in Hsame. destruct (same_cpus_in _ _ _ Hsame Hin) as (o' & Ho' & Heq).
    exists o'. split; [done|]. apply cpu_core_facts in Heq as [Heq _]. by rewrite Heq.
Qed.

(** What the objects of a backend become. *)
Record loaded_from flags ign ro ch root tl : Prop := {
  lf_consultable : consultable (topology_of root tl);
  lf_hierarchy : hierarchy (topology_of root tl) root;
  lf_distinct : distinct (tree_objs root);
  lf_nested : cpus_nested root;
  lf_sets : Forall all_sets (tree_objs root);
  lf_sublist : sublist (map core (tree_objs root)) (map core (tree_objs (Node ro ch)));
  lf_from : Forall (fun o' => exists o, o ∈ tree_objs (Node ro ch) /\ core o' = core o /\
    forall i, 0 <= i -> bm (cs o') i = bm (cs o) i && usable_cpu flags ro ch i) (tree_objs root);
  lf_kept : Forall (fun o => ign (o_type o) = HWLOC_IGNORE_TYPE_NEVER ->
    o_type o = HWLOC_OBJ_NODE \/ (exists i, 0 <= i /\ bm (cs o) i = true /\ usable_cpu flags ro ch i = true) ->
    exists o', o' ∈ tree_objs root /\ core o' = core o) (tree_objs (Node ro ch));
}.

Lemma discovery_ok qsort flags ign ro ch :
  built ro ch -> tree_wf (Node ro ch) -> distinct (tree_objs (Node ro ch)) -> Forall normal (tree_objs (Node ro ch)) ->
  (exists i, 0 <= i /\ usable_cpu flags ro ch i = true) ->
  match finish_discovery qsort flags ign (Node ro ch) with
  | Some (root, tl) => loaded_from flags ign ro ch root tl
  | None => exists r, sublist (map core (tree_objs r)) (map core (tree_objs (Node ro ch))) /\ out_of_levels r
  end.
Proof.
  intros Hb Hwf Hd Hn (i & Hi & Hu). destruct (finish_ok qsort flags ign ro ch Hb Hd Hn) as (s & Hs & Hfin).
  set (whole := has_flag flags HWLOC_TOPOLOGY_FLAG_WHOLE_SYSTEM) in *. pose proof (bl_cpus _ _ Hb) as Hfour.
  assert (forall j, 0 <= j -> usable whole s j = usable_cpu flags ro ch j) as Huse by (intros; by apply usable_root).
  assert (Forall has_cpuset (tree_objs (Node ro ch))) as Hhas.
  { rewrite tree_objs_node. constructor; [by destruct Hfour|]. eapply Forall_impl; [apply (bl_bare _ _ Hb)|]. by intros o [? _]. }
  assert (plain_nested (Node ro ch)) as Hpn by by apply nested_plain, tree_wf_nested.
  assert (forall j, 0 <= j -> usable whole s j = true -> bm (cs ro) j = true) as Hroot
    by (intros j Hj Huj; rewrite Huse in Huj by done; by eapply usable_in_root).
  specialize (Hfin (ex_intro _ i (conj Hi (eq_trans (Huse i Hi) Hu)))).
  destruct (finish_discovery qsort flags ign (Node ro ch)) as [[root tl]|].
  - destruct Hfin as (Hsame & Htidy & _ & Hcons & Hh & _). destruct (kept_objects ign whole s ro ch root Hroot Hsame) as (H1 & H2 & H3).
    split; [done|done|apply Htidy| |apply Htidy|done| |].
    + apply nested_plain; [eapply Forall_impl; [apply (td_sets _ Htidy)|]; by intros o [[? _] _]|].
      eapply plain_nested_same; [symmetry; exact Hsame|]. apply cleaned_nested.
      apply (plain_nested_cut (usable whole s) _ ro); [intros p; apply settle_fin|intros; by apply settle_cs| |done].
      intros j Hj [_ Huj]%andb_true_iff. by rewrite settle_root_cs.
    + eapply Forall_impl; [exact H2|]. intros o' (o & Ho & Hc & Hm). exists o. split; [done|]. split; [done|].
      intros j Hj. by rewrite <- Huse by done; apply Hm.
    + eapply Forall_impl; [exact H3|]. intros o Ho Hign Hk. apply Ho; [done|]. destruct Hk as [|(j & Hj & Hbj & Huj)]; [by left|right].
      exists j. by rewrite Huse.
  - destruct Hfin as (r & Hsame & Hout & _). exists r. split; [|done]. by apply (kept_objects ign whole s ro ch r Hroot Hsame).
Qed.

(** C2. [hwloc_discover], after the backend: when the objects inserted below the root
    form a well-formed tree of normal objects with a cpuset, and some CPU stays,
    the passes complete without a failed assertion, and the topology can be
    consulted.  Objects are those of the backend, in the same order, each with its
    cpuset cut to the usable CPUs, nested, and with all their sets; those of types
    that are never ignored are all there if a CPU of theirs stays, and so are all
    NUMA nodes.  Otherwise what remains needs more than [HWLOC_DEPTH_MAX] levels. *)
Theorem discovery_loads qsort flags ign ro ch :
  built ro ch -> tree_wf (Node ro ch) -> distinct (tree_objs (Node ro ch)) -> Forall normal (tree_objs (Node ro ch)) ->
  (exists i, 0 <= i /\ usable_cpu flags ro ch i = true) ->
  match finish_discovery qsort flags ign (Node ro ch) with
  | Some (root, tl) =>
      consultable (topology_of root tl) /\ hierarchy (topology_of root tl) root /\
      distinct (tree_objs root) /\ cpus_nested root /\ Forall all_sets (tree_objs root) /\
      sublist (map core (tree_objs root)) (map core (tree_objs (Node ro ch))) /\
      Forall (fun o' => exists o, o ∈ tree_objs (Node ro ch) /\ core o' = core o /\
        forall i, 0 <= i -> bm (cs o') i = bm (cs o) i && usable_cpu flags ro ch i) (tree_objs root) /\
      Forall (fun o => ign (o_type o) = HWLOC_IGNORE_TYPE_NEVER ->
        o_type o = HWLOC_OBJ_NODE \/ (exists i, 0 <= i /\ bm (cs o) i = true /\ usable_cpu flags ro ch i = true) ->
        exists o', o' ∈ tree_objs root /\ core o' = core o) (tree_objs (Node ro ch))
  | None => exists r, sublist (map core (tree_objs r)) (map core (tree_objs (Node ro ch))) /\ out_of_levels r
  end.
Proof.
  intros Hb Hwf Hd Hn Hu. pose proof (discovery_ok qsort flags ign ro ch Hb Hwf Hd Hn Hu) as Hok.
  destruct (finish_discovery qsort flags ign (Node ro ch)) as [[root tl]|]; [|done]. destruct Hok. by split_and!.
Qed.

End Claims.

(** ** Witness *)

(** The topology "node:2 core:2 pu:2". *)
Lemma discovery_loads_witness :
  let keep_order (cmp : Z * Z -> Z * Z -> Z) (l : list (Z * Z)) := l in
  exists (ro : hwloc_obj wbitmap) ts next' root tl,
    hwloc_look_synthetic sample_levels "node:2 core:2 pu:2" (Node (new_root 0) []) 1 = Some (Node ro ts, next') /\
    finish_discovery keep_order 0 default_ignored (Node ro ts) = Some (root, tl) /\
    consultable (topology_of root tl) /\ cpus_nested root /\ Forall all_sets (tree_objs root).
Proof.
  intros keep_order. set (top := mk_level HWLOC_OBJ_MACHINE 2 None). set (lvs := List.tl sample_levels).
  assert (loadable default_ignored top lvs) as Hld
    by (split; [simpl; lia|by_eval|by_eval|by_eval|repeat constructor; discriminate|vm_compute; reflexivity]).
  destruct (look_fresh (B := wbitmap) top lvs "node:2 core:2 pu:2" 0 1) as (ro & ts & next' & Hrun & Hn & Hlen & Hty & _ & Hroot & Hd & Hwf);
    [simpl; lia|by_eval|unfold CPU_MAX; vm_compute; congruence|by left|lia|].
  destruct (finish_synthetic keep_order 0 default_ignored top lvs ro ts Hld Hn Hlen Hty Hroot Hd) as (root & tl & Hfin & _).
  pose proof (synthetic_built lvs ro ts _ eq_refl Hn Hroot) as Hb.
  assert (Forall normal (tree_objs (Node ro ts))) as Hnormal.
  { rewrite tree_objs_node. constructor; [apply Hroot|]. eapply Forall_impl; [by apply (forest_described lvs)|].
    intros o. apply described_normal. }
  assert (usable_cpu 0 ro ts 0 = true) as Hu.
  { destruct Hroot as [(u & on & al & _ & Hon & Hal & _ & Hon1 & Hal1) (cc & Hcc & _ & Hr) _ _ _].
    assert (pu_member 0 (forest_objs ts) = true) as Hpu.
    { apply (pu_everywhere lvs); [by_eval|exact Hn|by_eval|]. rewrite Hlen. split; [lia|by_eval]. }
    unfold usable_cpu. rewrite Hpu, Hcc, Hon, Hal. cbn [in_set default andb]. unfold in_set.
    rewrite (Hr 0 (Z.le_refl 0)), (Hon1 0 (Z.le_refl 0)), (Hal1 0 (Z.le_refl 0)). by_eval. }
  pose proof (discovery_loads keep_order 0 default_ignored ro ts Hb Hwf Hd Hnormal (ex_intro _ 0 (conj (Z.le_refl 0) Hu))) as Hc.
  rewrite Hfin in Hc. destruct Hc as (Hcons & _ & _ & Hnest & Hsets & _).
  exists ro, ts, next', root, tl. split; [exact Hrun|]. split; [exact Hfin|]. split; [exact Hcons|]. split; [exact Hnest|exact Hsets].
Defined.
