(* ===== verification/LifeOk.v ===== *)
(** * LifeOk: what loading and restricting keep of any objects

    Nothing is assumed of the sets of the objects: the passes only remove objects, and
    the insertion only adds the one it is given, so addresses stay distinct and types
    normal; the links that a connection leaves are those the next one needs. *)

From stdpp Require Import gmap.
From S2P Require Import Prelude Cpuset Obj ObjCmp Insert InsertOk Clean CleanOk Levels LevelsOk LevelsLoop Connected Sets Traversal Loaded Shape Synthetic Discover DiscoverOk DiscoverLoad SyntheticLoad.

Section LifeOk.
Context {B : Type} `{Cpuset B}.
Implicit Types t root : obj_tree B.
Implicit Types ts ch : list (obj_tree B).
Implicit Types o obj : hwloc_obj B.

(** ** The objects of a forest, without their contents *)

Definition key o : Z * hwloc_obj_type_t := (o_addr o, o_type o).
Definition keys ts : list (Z * hwloc_obj_type_t) := map key (forest_objs ts).

(** Distinct objects, none of them for I/O. *)
Record plain ts : Prop := {
  pl_distinct : NoDup (map fst (keys ts));
  pl_types : Forall (fun k => hwloc_obj_type_is_io (snd k) = false) (keys ts);
}.

Lemma keys_app ts us : keys (ts ++ us) = keys ts ++ keys us.
Proof. unfold keys. by rewrite forest_objs_app, map_app. Qed.

Lemma keys_cons t ts : keys (t :: ts) = keys [t] ++ keys ts.
Proof. by rewrite <- keys_app. Qed.

Lemma keys_node o ch : keys [Node o ch] = key o :: keys ch.
Proof. unfold keys. by rewrite forest_objs_cons, tree_objs_node, app_nil_r. Qed.

Lemma keys_tree t : keys [t] = map key (tree_objs t).
Proof. unfold keys. by rewrite forest_objs_cons, app_nil_r. Qed.

Lemma keys_less ts us : keys us ⊆+ keys ts -> plain ts -> plain us.
Proof.
  intros Hsub [Hd Ht]. split.
  - apply (fmap_submseteq fst) in Hsub. apply submseteq_Permutation in Hsub as (k & Hk).
    change (map fst (keys ts)) with (fst <$> keys ts) in Hd. rewrite Hk in Hd. by apply NoDup_app in Hd as [? _].
  - rewrite Forall_forall in Ht |- *. intros k Hk. apply Ht. by eapply elem_of_submseteq.
Qed.

Lemma plain_tree t : plain [t] -> distinct (tree_objs t) /\ Forall not_io (tree_objs t).
Proof.
  intros [Hd Ht]. rewrite keys_tree in Hd, Ht. rewrite map_map in Hd. split; [exact Hd|]. by rewrite Forall_map in Ht.
Qed.

Lemma tree_plain t : distinct (tree_objs t) -> Forall not_io (tree_objs t) -> plain [t].
Proof. intros Hd Ht. split; rewrite keys_tree; [by rewrite map_map|by rewrite Forall_map]. Qed.

Lemma same_core_keys t t' : same_core t t' -> keys [t'] = keys [t].
Proof. intros Hs. rewrite !keys_tree. symmetry. apply (map_via core key); [done|by apply same_core_objs]. Qed.

Lemma sublist_keys t ts : sublist (forest_objs ts) (tree_objs t) -> keys ts ⊆+ keys [t].
Proof. intros Hs. rewrite keys_tree. apply (fmap_submseteq key), sublist_submseteq, Hs. Qed.

(** ** Walking the children *)

Lemma for_each_child_keys {S} n (body : S -> obj_tree B -> option (S * visit B)) s ch s' ch' :
  (forall s c s' v, body s c = Some (s', v) -> keys (visited v) ⊆+ keys [c]) ->
  for_each_child_safe n body s ch = Some (s', ch') -> keys ch' ⊆+ keys ch.
Proof.
  intros Hbody. revert s ch ch'. induction n as [|n IH]; intros s [|c ch] ch'; cbn [for_each_child_safe]; try done;
    [intros [= _ <-]; reflexivity..|].
  destruct (body s c) as [[s1 v]|] eqn:Hv; [|done]. cbn [mbind option_bind]. apply Hbody in Hv.
  rewrite (keys_cons c ch). destruct v as [c'|us]; cbn [visited] in Hv.
  - destruct (for_each_child_safe n body s1 ch) as [[s2 ch2]|] eqn:Hch; [|done]. cbn [mbind option_bind].
    intros [= -> <-]. rewrite keys_cons. apply submseteq_app; [done|]. by apply (IH s1).
  - intros Hch. apply IH in Hch. etrans; [exact Hch|]. rewrite keys_app. by apply submseteq_app.
Qed.

Lemma restrict_object_keys flags dropped fuel dp (s : B) t s' v :
  restrict_object fuel flags dropped dp s t = Some (s', v) -> keys (visited v) ⊆+ keys [t].
Proof.
  revert dp s t s' v. induction fuel as [|fuel IH]; intros dp s [o ch] s' v; [done|]. cbn [restrict_object].
  set (dropping := if bool_decide (o_type (drop_cpus o dropped) = HWLOC_OBJ_MISC) then _ else _).
  destruct (if null_or _ _ then _ else _) as [[s1 ch1]|] eqn:Hch; [|done]. cbn [mbind option_bind].
  assert (keys ch1 ⊆+ keys ch) as Hsub.
  { destruct (null_or _ _) in Hch; [|injection Hch as _ <-; reflexivity]. eapply for_each_child_keys; [|exact Hch]. intros ? ? ? ?. apply IH. }
  rewrite keys_node. destruct dropping.
  - intros [= _ <-]. cbn [visited unlink_and_free_single_object t_children]. by apply submseteq_cons.
  - intros [= _ <-]. cbn [visited]. rewrite keys_node. by apply submseteq_skip.
Qed.

Lemma restrict_nodeset_core (nodes : B) t : same_core t (restrict_object_nodeset nodes t).
Proof.
  induction t as [o ch IH] using obj_tree_ind'. cbn [restrict_object_nodeset]. destruct (match _ with Some _ => _ | None => _ end); [done|].
  unfold same_core. cbn [tmap]. f_equal. rewrite map_map. apply map_forall. exact IH.
Qed.

(** The root of a restricted topology is the same object. *)
Lemma restrict_topology_ok root (set : B) flags v :
  Clean.hwloc_topology_restrict root set flags = Some (Some v) ->
  exists root', v = Kept root' /\ key (t_obj root') = key (t_obj root) /\ keys [root'] ⊆+ keys [root].
Proof.
  unfold Clean.hwloc_topology_restrict. destruct (ocpuset (t_obj root)) as [rc|] eqn:Hrc; [|done]. cbn [mbind option_bind].
  destruct (b_intersects set rc) eqn:Hin; [|done]. cbn [negb].
  destruct (restrict_object _ _ _ _ _ root) as [[s w]|] eqn:Hw; [|done]. cbn [mbind option_bind].
  pose proof (restrict_object_keys _ _ _ _ _ _ _ _ Hw) as Hkeys.
  destruct root as [o ch]. cbn [t_obj restrict_object] in Hrc, Hw.
  set (dropping := if bool_decide (o_type (drop_cpus o (b_not set)) = HWLOC_OBJ_MISC) then _ else _) in Hw.
  assert (dropping = false) as Hdrop.
  { unfold dropping. destruct (bool_decide _); [done|]. destruct (hwloc_obj_type_is_io _); [done|]. cbn [orb].
    assert (ocpuset (drop_cpus o (b_not set)) = Some (b_andnot rc (b_not set))) as ->.
    { unfold ocpuset, drop_cpus in *. cbn. by rewrite Hrc. }
    cbn [null_or]. destruct (b_iszero _) eqn:Hz; [|done]. apply b_iszero_spec in Hz.
    pose proof (bfin_empty _ Hz) as Hfin. rewrite bfin_andnot, bfin_not, negb_involutive, orb_comm in Hfin.
    enough (b_intersects set rc = false) by congruence. apply b_intersects_spec; [by apply orb_prop|].
    intros i Hi H1 H2. specialize (Hz i Hi). by rewrite bm_andnot, bm_not, H1, H2 in Hz by done. }
  rewrite Hdrop in Hw. destruct (if null_or _ _ then _ else _) as [[s1 ch1]|]; [|done]. cbn [mbind option_bind] in Hw.
  injection Hw as <- <-. intros [= <-].
  exists (restrict_object_nodeset s1 (Node (drop_cpus o (b_not set)) ch1)). split; [done|].
  pose proof (restrict_nodeset_core s1 (Node (drop_cpus o (b_not set)) ch1)) as Hc.
  destruct (restrict_object_nodeset s1 _) as [o' ch']. split.
  - apply same_core_objs in Hc. rewrite !tree_objs_node in Hc.
    apply cons_eq_inj in Hc as [Ho _]. cbn [t_obj]. apply core_facts in Ho as (H1 & H2 & _). unfold key. cbn in H1, H2. by rewrite H1, H2.
  - by rewrite (same_core_keys _ _ Hc).
Qed.

(** ** The passes of the discovery *)

Lemma collect_core t (sys : option B) s' t' : collect_proc_cpuset t sys = Some (s', t') -> same_core t' t.
Proof.
  unfold same_core. revert sys s' t'. induction t as [o ch IH] using obj_tree_ind'. intros sys s' t'. rewrite Forall_forall in IH.
  assert (forall sys s2 ch', thread (fun sys c => collect_proc_cpuset c sys) sys ch = Some (s2, ch') ->
    map (tmap core) ch' = map (tmap core) ch) as Hch.
  { intros sys1 s2 ch'. apply thread_same. intros ? c ? c' Hin. by apply IH. }
  cbn [collect_proc_cpuset]. destruct sys as [s|].
  - destruct (if bool_decide _ then _ else _) as [s1|]; [|done]. cbn [mbind option_bind].
    destruct (thread _ _ ch) as [[s2 ch']|] eqn:Ht; [|done]. cbn [mbind option_bind]. intros [= _ <-].
    cbn [tmap]. by rewrite (Hch _ _ _ Ht).
  - destruct (ocpuset o); destruct (thread _ _ ch) as [[s2 ch']|] eqn:Ht; try done; cbn [mbind option_bind]; intros [= _ <-];
      cbn [tmap]; by rewrite (Hch _ _ _ Ht).
Qed.

Lemma unused_core t (sys : option sys_sets) s' t' : propagate_unused_cpuset t sys = Some (s', t') -> same_core t' t.
Proof.
  unfold same_core. revert sys s' t'. induction t as [o ch IH] using obj_tree_ind'. intros sys s' t'. rewrite Forall_forall in IH.
  assert (forall sys s2 ch', thread (fun sys c => propagate_unused_cpuset c sys) sys ch = Some (s2, ch') ->
    map (tmap core) ch' = map (tmap core) ch) as Hch.
  { intros sys1 s2 ch'. apply thread_same. intros ? c ? c' Hin. by apply IH. }
  cbn [propagate_unused_cpuset]. destruct (ocpuset o) as [c|]; [destruct sys as [s|]|].
  - destruct (update_unused (online_cpuset _) _ _) as [on s1], (update_unused (allowed_cpuset _) _ _) as [al s2].
    destruct (thread _ _ ch) as [[s3 ch']|] eqn:Ht; [|done]. cbn [mbind option_bind]. intros [= _ <-].
    cbn [tmap]. by rewrite (Hch _ _ _ Ht).
  - destruct (thread _ _ ch) as [[[s3|] ch']|] eqn:Ht; [|done..]. cbn [mbind option_bind]. intros [= _ <-].
    cbn [tmap]. by rewrite (Hch _ _ _ Ht).
  - destruct (thread _ _ ch) as [[s3 ch']|] eqn:Ht; [|done]. cbn [mbind option_bind]. intros [= _ <-].
    cbn [tmap]. by rewrite (Hch _ _ _ Ht).
Qed.

(** A pass on each object. *)
Lemma each_core (f : obj_tree B -> option (obj_tree B)) ch u ch' :
  (forall c c', c ∈ ch -> f c = Some c' -> same_core c' c) ->
  thread (fun _ c => let! c := f c in Some (tt, c)) tt ch = Some (u, ch') -> map (tmap core) ch' = map (tmap core) ch.
Proof.
  intros Hf. apply thread_same. intros s1 c s2 c' Hin. destruct (f c) as [c1|] eqn:Hc; [|done]. cbn [mbind option_bind].
  intros [= _ <-]. by apply Hf.
Qed.

Lemma remove_unused_core t t' : remove_unused_cpusets t = Some t' -> same_core t' t.
Proof.
  revert t'. induction t as [o ch IH] using obj_tree_ind'. intros t'. cbn [remove_unused_cpusets]. rewrite Forall_forall in IH.
  destruct (match ocpuset o with Some _ => _ | None => _ end) as [o1|] eqn:Ho; [|done]. cbn [mbind option_bind].
  destruct (thread _ _ ch) as [[u ch']|] eqn:Ht; [|done]. cbn [mbind option_bind]. intros [= <-].
  unfold same_core. cbn [tmap]. rewrite (each_core _ _ _ _ (fun c c' Hin => IH c Hin c') Ht). f_equal.
  destruct (ocpuset o); [|by injection Ho as <-]. destruct (online_cpuset _), (allowed_cpuset _); try done. by injection Ho as <-.
Qed.

Lemma add_default_core t p t' : add_default_object_sets t p = Some t' -> same_core t' t.
Proof.
  revert p t'. induction t as [o ch IH] using obj_tree_ind'. intros p t'. cbn [add_default_object_sets]. rewrite Forall_forall in IH.
  destruct (hwloc_obj_type_is_io _); [by intros [= <-]|].
  match goal with |- (let! _ := ?m in _) = _ -> _ => destruct m as [o1|] eqn:Ho; [|done] end. cbn [mbind option_bind].
  destruct (thread _ _ ch) as [[u ch']|] eqn:Ht; [|done]. cbn [mbind option_bind]. intros [= <-].
  unfold same_core. cbn [tmap]. rewrite (each_core _ _ _ _ (fun c c' Hin => IH c Hin _ c') Ht). f_equal.
  destruct (p || _); [destruct (_ && _ && _ && _)|destruct (_ && _ && _)]; try done; by injection Ho as <-.
Qed.

Lemma tweak_sets_core flags root root' : tweak_sets flags root = Some root' -> same_core root' root.
Proof.
  unfold tweak_sets.
  destruct (collect_proc_cpuset root None) as [[s1 r1]|] eqn:H1; [|done]. apply collect_core in H1. cbn [mbind option_bind].
  destruct (propagate_unused_cpuset r1 None) as [[s2 r2]|] eqn:H2; [|done]. apply unused_core in H2. cbn [mbind option_bind].
  set (r3 := on_root drop_empty_nodesets r2).
  assert (same_core r3 r2) as H3.
  { unfold r3, same_core. destruct r2 as [o ch]. cbn [on_root tmap]. f_equal. unfold drop_empty_nodesets.
    destruct (complete_nodeset _) as [x|]; [|done]. by destruct (b_iszero x). }
  assert (forall t1 t2, tmap cpu_core t2 = Node (cpu_core (t_obj t1)) (map (tmap cpu_core) (t_children t1)) -> same_core t2 t1) as Hsame.
  { intros [o1 ch1] t2 Heq. by apply same_cpus_core. }
  destruct (propagate_nodeset r3 _ false) as [r4|] eqn:H4; [|done]. apply propagate_nodeset_core, Hsame in H4. cbn [mbind option_bind].
  destruct (propagate_nodesets r4 _) as [r5|] eqn:H5; [|done]. apply propagate_nodesets_core, Hsame in H5. cbn [mbind option_bind].
  assert (same_core r5 root) as Hall by (by rewrite H5, H4, H3, H2).
  destruct (negb _); [|by intros [= <-]].
  destruct (remove_unused_cpusets r5) as [r6|] eqn:H6; [|done]. apply remove_unused_core in H6. cbn [mbind option_bind].
  intros [= <-]. rewrite (same_cpus_core _ _ (apply_nodeset_core r6 None)). by rewrite H6.
Qed.

Lemma root_of_visited (v : visit B) t : root_of v = Some t -> visited v = [t].
Proof. unfold root_of. destruct (visited v) as [|u [|]]; try done. by intros [= <-]. Qed.

Lemma clean_objects_keys ign root root' : clean_objects ign root = Some root' -> keys [root'] ⊆+ keys [root].
Proof.
  unfold clean_objects. destruct root as [o ch]. rewrite remove_ignored_root by done. cbn [mbind option_bind].
  set (t1 := Node o (concat (map (strip (drop_ignored ign)) ch))).
  assert (root_of (Kept t1) = Some t1) as -> by done. cbn [mbind option_bind].
  assert (keys [t1] ⊆+ keys [Node o ch]) as H1.
  { apply sublist_keys. unfold t1. rewrite forest_objs_cons, app_nil_r, !tree_objs_node. apply sublist_skip, strip_children_sublist. }
  destruct (remove_empty_ok (tree_size t1) t1 (Nat.le_refl _)) as (v & -> & Hv & _). cbn [mbind option_bind].
  destruct (root_of v) as [t2|] eqn:H2; [|done]. apply root_of_visited in H2. cbn [mbind option_bind].
  assert (keys [t2] ⊆+ keys [t1]) as H2k.
  { apply sublist_keys. rewrite <- H2, Hv. pose proof (strip_children_sublist drop_empty [t1]) as Hs. cbn [map concat] in Hs.
    by rewrite forest_objs_cons, !app_nil_r in Hs. }
  destruct (merge_computes ign (tree_size t2) t2 (Nat.le_refl _)) as (w & -> & Hw & _). cbn [mbind option_bind].
  destruct (root_of w) as [t3|] eqn:H3; [|done]. apply root_of_visited in H3. cbn [mbind option_bind].
  assert (keys [t3] ⊆+ keys [t2]) as H3k.
  { apply sublist_keys. rewrite <- H3, Hw. rewrite forest_objs_cons, app_nil_r. apply merge_keeps. }
  intros H4%add_default_core. rewrite <- (same_core_keys _ _ H4). by rewrite H3k, H2k.
Qed.

(** ** What the links and the levels of a loaded topology are for *)

Lemma children_linked_tmap (st : links_store) t : children_linked st (tmap core t) <-> children_linked st t.
Proof.
  assert (map t_addr (t_children (tmap core t)) = map t_addr (t_children t)) as Hc.
  { rewrite t_children_tmap, map_map. apply map_ext. intros c. unfold t_addr. by rewrite t_obj_tmap. }
  assert (t_addr (tmap core t) = t_addr t) as Ha by (unfold t_addr; by rewrite t_obj_tmap).
  unfold children_linked. by rewrite Hc, Ha.
Qed.

Lemma same_core_root_key t t' : same_core t t' -> key (t_obj t) = key (t_obj t').
Proof.
  intros Heq%same_core_objs. destruct t as [o ch], t' as [o' ch']. rewrite !tree_objs_node in Heq.
  apply cons_eq_inj in Heq as [Ho _]. apply core_facts in Ho as (H1 & H2 & _). unfold key. cbn [t_obj]. by rewrite H1, H2.
Qed.

Lemma key_placed t t' : key (t_obj t) = key (t_obj t') -> placed t -> placed t'.
Proof. unfold placed, filtered_out, t_type. by intros [= _ ->]. Qed.

(** The contents of the objects may change after the connection. *)
Lemma reload_same t root tl : same_core t root -> distinct (tree_objs t) ->
  consultable (topology_of t tl) -> hierarchy (topology_of t tl) t ->
  consultable (topology_of root tl) /\ hierarchy (topology_of root tl) root.
Proof.
  intros Hsame Hd Hc Hh. pose proof (same_core_distinct _ _ Hsame Hd) as Hd'.
  assert (forall a o, obj_at (topology_of t tl) a = Some o ->
    exists o', obj_at (topology_of root tl) a = Some o' /\ o_type o' = o_type o) as Hat.
  { intros a o Ho. assert (In (core o) (map core (tree_objs root)) /\ o_addr o = a) as [Hin <-].
    { unfold obj_at in Ho. cbn [objects topology_of] in Ho. apply elem_of_list_to_map_2 in Ho.
      apply list_elem_of_fmap in Ho as (p & [= -> ->] & Hp). split; [|done]. rewrite <- (same_core_objs _ _ Hsame).
      by apply in_map, list_elem_of_In. }
    apply in_map_iff in Hin as (o' & Heq & Hin%list_elem_of_In). apply core_facts in Heq as (<- & Hty & _).
    exists o'. split; [by apply topology_obj|done]. }
  split.
  - destruct Hc as [H1 H2 H3 H4 H5]. split; [|exact H2|exact H3|exact H4|].
    + intros d a Hr Ha. destruct (H1 d a Hr Ha) as [o Ho]. destruct (Hat a o Ho) as (o' & Ho' & _). by exists o'.
    + intros d l o p a b Hl Ha Hb Ho Hp.
      assert (forall c q, c ∈ l -> obj_at (topology_of root tl) c = Some q ->
        exists q0, obj_at (topology_of t tl) c = Some q0 /\ o_type q = o_type q0) as Hback.
      { intros c q Hcl Hq. pose proof (topology_dom root tl c (ex_intro _ q Hq)) as Hin.
        rewrite <- (same_core_addrs _ _ Hsame) in Hin. apply list_elem_of_fmap in Hin as (q0 & -> & Hq0).
        pose proof (topology_obj t tl Hd q0 Hq0) as Hq0'. destruct (Hat _ _ Hq0') as (q' & Hq' & Hty).
        exists q0. split; [done|]. congruence. }
      destruct (Hback a o Ha Ho) as (o0 & Ho0 & ->). destruct (Hback b p Hb Hp) as (p0 & Hp0 & ->).
      exact (H5 d l o0 p0 a b Hl Ha Hb Ho0 Hp0).
  - pose proof (same_core_root _ _ Hsame) as Haddr. destruct Hh as [_ _ H3 H4 H5]. split.
    + by apply topology_obj.
    + apply topology_dom.
    + intros n Hn. apply children_linked_tmap.
      assert (In (tmap core n) (tree_nodes (tmap core t))) as Hin.
      { rewrite Hsame, tree_nodes_tmap. by apply in_map, list_elem_of_In. }
      rewrite tree_nodes_tmap in Hin. apply in_map_iff in Hin as (m & <- & Hm%list_elem_of_In).
      apply children_linked_tmap. exact (H3 m Hm).
    + rewrite <- Haddr. exact H4.
    + rewrite <- Haddr. exact H5.
Qed.

(** The objects of a loaded topology, and the tree that was connected: it has the same
    objects but for what they contain. *)
Record linked root (tl : topology_levels (B := B)) : Prop := {
  lk_plain : plain [root];
  lk_connected : placed root -> exists t, same_core t root /\ connected t tl /\
    consultable (topology_of t tl) /\ hierarchy (topology_of t tl) t;
}.

Lemma linked_consultable root tl : linked root tl -> placed root ->
  consultable (topology_of root tl) /\ hierarchy (topology_of root tl) root.
Proof.
  intros [Hp Hc] (t & Hs & _ & Ht & Hh)%Hc. apply (reload_same t); [done| |done|done].
  apply (same_core_distinct root); [by symmetry|]. by apply plain_tree.
Qed.

(** A connection after which only the contents of objects change. *)
Lemma connect_linked t root st tl : same_core t root -> plain [t] ->
  (placed t -> level_linked st 0 [t] /\ parent (links st (t_addr t)) = None) ->
  connect t st = Some tl -> linked root tl.
Proof.
  intros Hs Hp Hst Htl. split; [eapply keys_less; [|exact Hp]; by rewrite (same_core_keys _ _ Hs)|].
  intros Hr. assert (placed t) as Hpt by (eapply key_placed; [|exact Hr]; symmetry; by apply same_core_root_key).
  destruct (plain_tree _ Hp) as [Hd Hio]. destruct (Hst Hpt) as [Hl Hpar].
  pose proof (connect_ok t st Hpt Hd Hio Hl Hpar) as Hok. rewrite Htl in Hok. by exists t.
Qed.

Lemma discovery_linked qsort flags ign root root' tl : plain [root] ->
  finish_discovery qsort flags ign root = Some (root', tl) -> linked root' tl.
Proof.
  intros Hp. unfold finish_discovery.
  destruct (tweak_sets flags root) as [r1|] eqn:H1; [|done]. apply tweak_sets_core in H1. cbn [mbind option_bind].
  destruct (clean_objects ign r1) as [r2|] eqn:H2; [|done]. apply clean_objects_keys in H2. cbn [mbind option_bind].
  assert (plain [r2]) as Hp2.
  { eapply keys_less; [|exact Hp]. rewrite H2. by rewrite (same_core_keys _ _ H1). }
  destruct (connect r2 ∅) as [tl1|] eqn:Htl1; [|done]. cbn [mbind option_bind].
  pose proof (same_cpus_core _ _ (total_memory_core qsort r2)) as Hmem.
  destruct (propagate_total_memory qsort r2) as [o3 ch3] eqn:Hr3.
  assert (plain [Node o3 ch3]) as Hp3 by (eapply keys_less; [|exact Hp2]; by rewrite (same_core_keys _ _ Hmem)).
  destruct (plain_tree _ Hp3) as [_ Hio3]. rewrite drop_no_io; [|lia|by rewrite tree_objs_node in Hio3; apply Forall_cons in Hio3 as [_ ?]].
  cbn [mbind option_bind]. destruct (connect (Node o3 ch3) _) as [tl2|] eqn:Htl2; [|done]. cbn [mbind option_bind].
  rewrite no_bridges by done. intros [= <- <-]. eapply connect_linked; [reflexivity|exact Hp3| |exact Htl2]. intros Hr.
  assert (placed r2) as Hr2 by (eapply key_placed; [|exact Hr]; by apply same_core_root_key).
  destruct (plain_tree _ Hp2) as [Hd2 Hio2].
  pose proof (connect_ok r2 ∅ Hr2 Hd2 Hio2 (fresh_linked r2) eq_refl) as Hok. rewrite Htl1 in Hok. destruct Hok as (Hcon & _ & Hh).
  pose proof (same_core_root _ _ Hmem) as Haddr. split; [by apply (connected_linked r2)|]. rewrite Haddr. by apply h_parent in Hh.
Qed.

Lemma restriction_linked qsort root (set : B) flags tl v root' tl' : linked root tl ->
  Clean.hwloc_topology_restrict root set flags = Some (Some v) -> root_of v = Some root' ->
  connect root' (links_of tl) = Some tl' -> linked (propagate_total_memory qsort root') tl'.
Proof.
  intros [Hp Hc] Hv Hr Htl. destruct (restrict_topology_ok _ _ _ _ Hv) as (r & -> & Hk & Hkeys).
  apply root_of_visited in Hr. injection Hr as ->.
  assert (plain [root']) as Hp' by by eapply keys_less.
  eapply connect_linked; [symmetry; apply same_cpus_core, total_memory_core|exact Hp'| |exact Htl]. intros Hpl.
  destruct Hc as (t & Hs & Hcon & _ & Hh); [by eapply key_placed|].
  assert (t_addr root' = t_addr t) as Haddr.
  { rewrite (same_core_root _ _ Hs). unfold t_addr. by injection Hk. }
  split; [by apply (connected_linked t)|]. rewrite Haddr. by apply h_parent in Hh.
Qed.

(** ** What the backends add *)

(** Objects of addresses in [lo .. hi - 1] were added. *)
Definition adds (lo hi : Z) ts us : Prop := lo <= hi /\ exists new, keys us ⊆+ new ++ keys ts /\
  NoDup (map fst new) /\ Forall (fun k => lo <= fst k < hi /\ hwloc_obj_type_is_io (snd k) = false) new.

Lemma adds_refl lo ts : adds lo lo ts ts.
Proof. split; [lia|]. exists []. split; [done|]. by split; constructor. Qed.

Lemma adds_trans lo mid hi ts us vs : adds lo mid ts us -> adds mid hi us vs -> adds lo hi ts vs.
Proof.
  intros [Hl1 (n1 & H1 & Hd1 & Hn1)] [Hl2 (n2 & H2 & Hd2 & Hn2)]. split; [lia|]. exists (n2 ++ n1). split; [|split].
  - rewrite H2, <- (assoc_L (++)). by apply submseteq_app.
  - rewrite map_app. apply NoDup_app. split; [done|]. split; [|done]. intros a Ha Hb.
    apply list_elem_of_fmap in Ha as (k & -> & Hk). apply list_elem_of_fmap in Hb as (k' & Heq & Hk').
    rewrite Forall_forall in Hn1, Hn2. specialize (Hn1 _ Hk'). specialize (Hn2 _ Hk). lia.
  - apply Forall_app. split; (eapply Forall_impl; [eassumption|]); intros k [? ?]; (split; [lia|done]).
Qed.

Lemma adds_plain lo hi ts us : adds lo hi ts us -> plain ts -> Forall (fun k => fst k < lo) (keys ts) -> plain us.
Proof.
  intros [_ (new & Hsub & Hd & Hn)] [Hdt Ht] Hlo.
  assert (NoDup (map fst (new ++ keys ts)) /\ Forall (fun k => hwloc_obj_type_is_io (snd k) = false) (new ++ keys ts)) as [H1 H2].
  { split.
    - rewrite map_app. apply NoDup_app. split; [done|]. split; [|done]. intros a Ha Hb.
      apply list_elem_of_fmap in Ha as (k & -> & Hk). apply list_elem_of_fmap in Hb as (k' & Heq & Hk').
      rewrite Forall_forall in Hlo, Hn. specialize (Hn _ Hk). specialize (Hlo _ Hk'). lia.
    - apply Forall_app. split; [|done]. eapply Forall_impl; [exact Hn|]. by intros k [_ ?]. }
  split.
  - apply (fmap_submseteq fst) in Hsub. apply submseteq_Permutation in Hsub as (k & Hk).
    change (map fst (new ++ keys ts)) with (fst <$> new ++ keys ts) in H1. rewrite Hk in H1. by apply NoDup_app in H1 as [? _].
  - rewrite Forall_forall in H2 |- *. intros k Hk. apply H2. by eapply elem_of_submseteq.
Qed.

Lemma keys_middle ts c us : keys (ts ++ c :: us) ≡ₚ keys [c] ++ keys (ts ++ us).
Proof. rewrite !keys_app, (keys_cons c us). by rewrite Permutation_app_swap_app. Qed.

Lemma place_keys obj (ocs : B) put ch l r b :
  place_children obj ocs put ch = Some (l, r, b) -> keys (l ++ b ++ r) ≡ₚ keys ch.
Proof.
  revert put l r b. induction ch as [|c ch IH]; intros put l r b; cbn [place_children]; [by intros [= <- <- <-]|].
  destruct (hwloc_obj_cmp obj (t_obj c)) as [[]|]; try done; cbn [mbind option_bind];
    destruct (place_children _ _ _ ch) as [[[l1 r1] b1]|] eqn:Hp; try done; cbn [mbind option_bind];
    apply IH in Hp; rewrite (keys_cons c ch), <- Hp.
  - intros [= <- <- <-]. apply (keys_middle l1 c (b1 ++ r1)).
  - destruct (put || _); intros [= <- <- <-].
    + rewrite (assoc_L (++) l1 b1 (c :: r1)), (assoc_L (++) l1 b1 r1). apply keys_middle.
    + cbn [app]. by rewrite (keys_cons c (l1 ++ _)).
Qed.

Lemma merge_equal_key obj o why o' : merge_equal obj o = Some (why, o') -> key o' = key o.
Proof.
  unfold merge_equal. destruct (negb _); [by intros [= _ <-]|]. destruct (negb _); [by intros [= _ <-]|].
  destruct (merge_array _ _) as [d|]; [|done]. cbn [mbind option_bind].
  destruct (merge_array _ _) as [l|]; [|done]. cbn [mbind option_bind]. intros [= _ <-].
  by destruct (o_type obj), (o_name obj).
Qed.

Lemma scan_merged_key obj ch i0 cont i why o' : scan_children obj i0 cont ch = Some (ScanMerged i why o') ->
  exists k c, i = (i0 + k)%nat /\ ch !! k = Some c /\ key o' = key (t_obj c).
Proof.
  revert i0 cont. induction ch as [|c ch IH]; intros i0 cont; [done|]. cbn [scan_children].
  assert (forall i1 cont1, i1 = S i0 -> scan_children obj i1 cont1 ch = Some (ScanMerged i why o') ->
    exists k d, i = (i0 + k)%nat /\ (c :: ch) !! k = Some d /\ key o' = key (t_obj d)) as Hnext.
  { intros i1 cont1 -> (k & d & -> & Hk & Hd)%IH. exists (S k), d. split; [lia|done]. }
  destruct (hwloc_obj_cmp obj (t_obj c)) as [[]|]; try done; cbn [mbind option_bind]; try (by apply Hnext).
  - destruct (merge_equal obj (t_obj c)) as [[w c']|] eqn:Hm; [|done]. cbn [mbind option_bind].
    intros [= <- _ <-]. exists O, c. split; [lia|]. split; [done|]. by apply (merge_equal_key obj _ w).
  - destruct cont; [done|]. by apply Hnext.
Qed.

Lemma insert_at_keys ch i c c' : ch !! i = Some c ->
  keys (<[i := c']> ch) ≡ₚ keys [c'] ++ keys (take i ch ++ drop (S i) ch) /\
  keys ch ≡ₚ keys [c] ++ keys (take i ch ++ drop (S i) ch).
Proof.
  intros Hi. rewrite insert_take_drop by by eapply lookup_lt_Some. split; [apply keys_middle|].
  rewrite <- (take_drop_middle ch i c Hi) at 1. apply keys_middle.
Qed.

Lemma insert_keys fuel cur obj r cur' :
  hwloc___insert_object_by_cpuset fuel cur obj = Some (r, cur') -> keys [cur'] ⊆+ key obj :: keys [cur].
Proof.
  revert cur r cur'. induction fuel as [|fuel IH]; intros [o ch] r cur'; [done|]. cbn [hwloc___insert_object_by_cpuset].
  destruct (ocpuset obj) as [ocs|]; [|done]. cbn [mbind option_bind].
  destruct (ocpuset o) as [ccs|]; [|done]. cbn [mbind option_bind].
  destruct (negb _); [intros [= _ <-]; by apply submseteq_cons|].
  destruct (scan_children obj 0 None ch) as [[i why c'|why|[i|]]|] eqn:Hscan; try done; cbn [mbind option_bind].
  - destruct (ch !! i) as [c|] eqn:Hi; [|done]. cbn [mbind option_bind]. intros [= _ <-].
    destruct (scan_merged_key _ _ _ _ _ _ _ Hscan) as (k & d & -> & Hk & Hkey). cbn [Nat.add] in Hi.
    rewrite Hi in Hk. injection Hk as <-.
    rewrite !keys_node. destruct (insert_at_keys ch k c (Node c' (t_children c)) Hi) as [-> ->].
    destruct c as [oc cc]. rewrite !keys_node, Hkey. by apply submseteq_cons.
  - intros [= _ <-]. by apply submseteq_cons.
  - destruct (ch !! i) as [c|] eqn:Hi; [|done]. cbn [mbind option_bind].
    destruct (hwloc___insert_object_by_cpuset fuel c obj) as [[r1 c1]|] eqn:Hc; [|done]. cbn [mbind option_bind].
    intros [= _ <-]. apply IH in Hc. rewrite !keys_node. destruct (insert_at_keys ch i c c1 Hi) as [-> ->].
    etrans; [apply submseteq_skip, submseteq_app; [exact Hc|reflexivity]|]. cbn [app].
    apply Permutation_submseteq, Permutation_swap.
  - destruct (place_children obj ocs false ch) as [[[l rt] b]|] eqn:Hp; [|done]. cbn [mbind option_bind].
    intros [= _ <-]. apply place_keys in Hp. rewrite !keys_node. apply Permutation_submseteq.
    rewrite keys_middle, keys_node, <- Hp, !keys_app. cbn [app]. rewrite (Permutation_app_swap_app (keys l)).
    apply Permutation_swap.
Qed.

Lemma repeat_adds {S} (n : nat) (f : S -> option S) (tree : S -> obj_tree B) (next : S -> Z) s s' :
  (forall s s', f s = Some s' -> adds (next s) (next s') [tree s] [tree s']) ->
  repeat_times n f s = Some s' -> adds (next s) (next s') [tree s] [tree s'].
Proof.
  intros Hf. revert s. induction n as [|n IH]; intros s; cbn [repeat_times]; [intros [= <-]; apply adds_refl|].
  destruct (f s) as [s1|] eqn:H1; [|done]. cbn [mbind option_bind]. intros H2%IH. eapply adds_trans; [by apply Hf|done].
Qed.

Lemma insert_root_keys root obj r root' :
  hwloc__insert_object_by_cpuset root obj = Some (r, root') -> keys [root'] ⊆+ key obj :: keys [root].
Proof.
  destruct root as [ro ch]. cbn [hwloc__insert_object_by_cpuset].
  destruct (or_into _ _) as [cc|]; [|done]. cbn [mbind option_bind].
  match goal with |- (let! _ := ?m in _) = _ -> _ => destruct m as [ro'|] eqn:Hro; [|done] end. cbn [mbind option_bind].
  intros Hi%insert_keys. rewrite keys_node in *. assert (key ro' = key ro) as Hk; [|by rewrite Hk in Hi].
  destruct (onodeset obj); [|by injection Hro as <-]. destruct (or_into _ _); [|done]. by injection Hro as <-.
Qed.

Lemma pre_hook_not_io ty : pre_hook ty = true -> hwloc_obj_type_is_io ty = false.
Proof. by destruct ty. Qed.

Lemma look_levels_adds fuel levels level s s' : hwloc__look_synthetic (B := B) fuel levels level s = Some s' ->
  adds (k_next s.1.1) (k_next s'.1.1) [k_root s.1.1] [k_root s'.1.1].
Proof.
  revert level s s'. induction fuel as [|fuel IH]; intros level [[st first] pc] s'; [done|]. cbn [hwloc__look_synthetic fst].
  destruct (levels !! level) as [lv|]; [|done]. cbn [mbind option_bind].
  destruct (pre_hook (l_type lv)) eqn:Hpre; [|done]. apply pre_hook_not_io in Hpre.
  destruct (k_ids st !! level) as [id|]; [|done]. cbn [mbind option_bind].
  set (st1 := mk_look (k_root st) _ (k_next st + 1)).
  match goal with |- (let! _ := ?m in _) = _ -> _ => destruct m as [[[st2 first2] c]|] eqn:Hsub; [|done] end.
  cbn [mbind option_bind].
  assert (adds (k_next st + 1) (k_next st2) [k_root st] [k_root st2]) as Hadds.
  { destruct (l_arity lv =? 0); [injection Hsub as <- _ _; apply adds_refl|].
    apply (repeat_adds _ _ (fun s => k_root s.1.1) (fun s => k_next s.1.1)) in Hsub; [done|]. intros ? ?. apply IH. }
  clear Hsub. set (obj := if bool_decide _ then _ else _).
  destruct (post_hook lv obj) as [obj'|] eqn:Hpost; [|done]. cbn [mbind option_bind].
  assert (key obj' = (k_next st, l_type lv)) as Hkey.
  { transitivity (key obj); [|unfold obj; by destruct (bool_decide _)]. unfold post_hook in Hpost.
    destruct (l_type lv); try done; try (by injection Hpost as <-); destruct (l_depth lv) as [d|]; try done; cbn [mbind option_bind] in Hpost;
      try (by injection Hpost as <-). destruct (synthetic_cache d); [|done]. by injection Hpost as <-. }
  destruct (hwloc__insert_object_by_cpuset (k_root st2) obj') as [[r root]|] eqn:Hins; [|done]. cbn [mbind option_bind].
  intros [= <-]. cbn [fst k_root k_next]. apply insert_root_keys in Hins. rewrite Hkey in Hins.
  destruct Hadds as [Hl (new & Hsub & Hd & Hn)]. split; [lia|]. exists ((k_next st, l_type lv) :: new). split; [|split].
  - etrans; [exact Hins|]. cbn [app]. by apply submseteq_skip.
  - cbn [map fst]. apply NoDup_cons. split; [|done]. intros Hin. apply list_elem_of_fmap in Hin as (k & Heq & Hk).
    rewrite Forall_forall in Hn. specialize (Hn _ Hk). lia.
  - constructor; [split; [cbn [fst]; lia|done]|]. eapply Forall_impl; [exact Hn|]. intros k [? ?]. split; [lia|done].
Qed.

(** From the fresh root of a topology. *)
Lemma look_synthetic_plain levels text ro next root next' : o_addr ro < next ->
  hwloc_look_synthetic levels text (Node ro []) next = Some (root, next') ->
  hwloc_obj_type_is_io (default HWLOC_OBJ_MACHINE (l_type <$> levels !! 0%nat)) = false -> plain [root].
Proof.
  intros Hlt. unfold hwloc_look_synthetic. destruct (zero_ids levels) as [ids|]; [|done]. cbn [mbind option_bind].
  destruct (levels !! 0%nat) as [top|]; [|done]. cbn [mbind option_bind fmap option_fmap option_map default].
  destruct (repeat_times _ _ _) as [[[st first] pc]|] eqn:Hrep; [|done]. cbn [mbind option_bind].
  apply (repeat_adds _ _ (fun s => k_root s.1.1) (fun s => k_next s.1.1)) in Hrep; [|intros ? ?; apply look_levels_adds].
  cbn [fst k_root k_next] in Hrep. intros Hroot Hty.
  assert (plain [k_root st]) as Hp.
  { eapply adds_plain; [exact Hrep| |].
    - split; rewrite keys_node; repeat constructor; [apply not_elem_of_nil|done].
    - rewrite keys_node. repeat constructor. done. }
  destruct (k_root st) as [ro' ch']. injection Hroot as <- _. eapply keys_less; [|exact Hp]. by rewrite !keys_node.
Qed.

End LifeOk.
