(* ===== verification/LifeThms.v ===== *)
(** * LifeThms: the states of a topology, from its creation to its use *)

From stdpp Require Import gmap.
From Stdlib Require Import Ascii String.
From S2P Require Import Prelude CString Cpuset Obj ObjCmp Insert Clean CleanOk Levels LevelsOk LevelsLoop Connected Sets Traversal Loaded Synthetic SyntheticOk SyntheticParse SyntheticThms Shape Discover DiscoverOk CleanSets DiscoverLoad SyntheticLoad LifeOk Samples.

Section Life.
Context {B : Type} `{Cpuset B}.
Context (qsort : (Z * Z -> Z * Z -> Z) -> list (Z * Z) -> list (Z * Z)).
Context (look_os : obj_tree B -> Z -> option (obj_tree B * Z)).
Implicit Types g : hwloc_topology B.
Implicit Types root : obj_tree B.
Implicit Types tl : topology_levels (B := B).
Implicit Types l : list (obj_tree B).

(** ** The calls on a topology *)

Inductive call_made : hwloc_topology B -> hwloc_topology B -> Prop :=
  | made_set_flags g flags : call_made g (hwloc_topology_set_flags g flags)
  | made_ignore g op : call_made g (configure_ignored g op)
  | made_set_synthetic g description r g' :
      hwloc_topology_set_synthetic g description = Some (r, g') -> call_made g g'
  | made_set_custom g : call_made g (hwloc_topology_set_custom g)
  | made_load g g' : hwloc_topology_load qsort look_os g = Some g' -> call_made g g'
  | made_restrict g cpuset flags r g' :
      restrict_topology qsort g cpuset flags = Some (r, g') -> call_made g g'.

Inductive reachable (addr : Z) : hwloc_topology B -> Prop :=
  | reached_init : reachable addr (hwloc_topology_init addr)
  | reached_call g g' : reachable addr g -> call_made g g' -> reachable addr g'.

(** The object that [hwloc_topology_setup_defaults] allocates, and what
    [hwloc_backend_custom_init] makes of it. *)
Definition fresh_top g : Prop := exists a, a < next_addr g /\
  let o := hwloc_alloc_setup_object a HWLOC_OBJ_MACHINE 0 in
  top g = Node (match backend_type g with HWLOC_BACKEND_CUSTOM => with_type o HWLOC_OBJ_SYSTEM | _ => o end) [].

Record state_ok g : Prop := {
  so_links : is_loaded g = true <-> is_Some (connected_levels g);
  so_fresh : is_loaded g = false -> fresh_top g;
  so_ignored : forall ty, essential ty -> ignored g ty = HWLOC_IGNORE_TYPE_NEVER;
}.

Lemma essential_kept ign op ty : essential ty -> ignore_step ign op ty = ign ty.
Proof. intros Hty. exact (ignore_steps_essential [op] ign ty Hty). Qed.

Lemma init_ok addr : state_ok (hwloc_topology_init addr).
Proof.
  split; [by split; [|intros []]|intros _; exists addr; split; [simpl; lia|done]|].
  intros ty [->|Hio]; [done|]. by destruct ty.
Qed.

Lemma setup_fresh g b : let g' := with_backend (hwloc_topology_setup_defaults g) b in
  b <> HWLOC_BACKEND_CUSTOM -> fresh_top g' /\ connected_levels g' = None.
Proof. intros g' Hb. split; [|done]. exists (next_addr g). split; [simpl; lia|]. by destruct b. Qed.

(** Between two backends. *)
Lemma exit_ok g : state_ok g ->
  let g' := hwloc_backend_exit g in
  is_loaded g' = false /\ connected_levels g' = None /\ backend_type g' = HWLOC_BACKEND_NONE /\ fresh_top g' /\
  ignored g' = ignored g /\ topology_flags g' = topology_flags g.
Proof.
  intros [Hl Hf Hi]. unfold hwloc_backend_exit. destruct (is_loaded g) eqn:Hload.
  - assert (forall g1, is_loaded g1 = true -> (if is_loaded g1 then with_is_loaded (hwloc_topology_setup_defaults g1) false else g1)
      = with_is_loaded (hwloc_topology_setup_defaults g1) false) as Hif by (by intros g1 ->).
    destruct (backend_type g) eqn:Hb; rewrite Hif by done; cbn; rewrite ?Hb; (do 3 (split; [done|]));
      (split; [|done]); eexists; (split; [|cbn; rewrite ?Hb; done]); simpl; lia.
  - assert (connected_levels g = None) as Hn by (destruct (connected_levels g); [|done]; destruct Hl as [_ Hl]; discriminate Hl; by eexists).
    specialize (Hf eq_refl). assert (forall g1, is_loaded g1 = false -> (if is_loaded g1 then with_is_loaded (hwloc_topology_setup_defaults g1) false else g1)
      = g1) as Hif by (by intros g1 ->).
    destruct (backend_type g) eqn:Hb; rewrite Hif by done; cbn.
    + by rewrite Hload, Hn, Hb.
    + rewrite Hload, Hn. do 3 (split; [done|]). split; [|done]. destruct Hf as (a & Ha & Htop). rewrite Hb in Htop.
      by exists a.
    + rewrite Hload. do 3 (split; [done|]). split; [|done]. exists (next_addr g). split; [simpl; lia|done].
Qed.

Lemma load_inv g g' : hwloc_topology_load qsort look_os g = Some g' ->
  is_loaded g' = true /\ is_Some (connected_levels g') /\ ignored g' = ignored g.
Proof.
  unfold hwloc_topology_load. set (g0 := if is_loaded g then _ else g).
  assert (ignored g0 = ignored g) as Hi by (unfold g0; by destruct (is_loaded g)).
  unfold hwloc_discover. destruct (look look_os g0) as [[root next]|]; [|done]. cbn [mbind option_bind].
  destruct (finish_discovery qsort (topology_flags g0) (ignored g0) root) as [[root' tl]|]; [|done].
  cbn [mbind option_bind]. intros [= <-]. split; [done|]. split; [by eexists|done].
Qed.

Lemma restrict_inv g c flags r g' : restrict_topology qsort g c flags = Some (r, g') ->
  is_Some (connected_levels g) /\ is_loaded g' = is_loaded g /\ is_Some (connected_levels g') /\ ignored g' = ignored g.
Proof.
  unfold restrict_topology. destruct (connected_levels g) as [tl|] eqn:Htl; [|done]. cbn [mbind option_bind].
  destruct (Clean.hwloc_topology_restrict (top g) c flags) as [[v|]|]; [|intros [= <- <-]; by rewrite Htl|done].
  cbn [mbind option_bind]. destruct (root_of v) as [root|]; [|done]. cbn [mbind option_bind].
  destruct (connect root _) as [tl'|]; [|done]. cbn [mbind option_bind]. intros [= <- <-].
  split; [by eexists|]. split; [done|]. split; [by eexists|done].
Qed.

Lemma loaded_ok g : is_loaded g = true -> is_Some (connected_levels g) ->
  (forall ty, essential ty -> ignored g ty = HWLOC_IGNORE_TYPE_NEVER) -> state_ok g.
Proof. intros Hl Hc Hi. split; [by rewrite Hl|congruence|done]. Qed.

Lemma call_ok g g' : state_ok g -> call_made g g' -> state_ok g'.
Proof.
  intros Hok Hcall. destruct Hcall as [g flags|g op|g description r g' Hset|g|g g' Hload|g c flags r g' Hr].
  - destruct Hok. by split.
  - destruct Hok as [? ? Hi]. split; [done|done|]. intros ty Hty. cbn. rewrite essential_kept by done. by apply Hi.
  - destruct (exit_ok g Hok) as (Hl & Hc & Hb & Hf & Hi & _). unfold hwloc_topology_set_synthetic in Hset.
    set (g0 := hwloc_backend_exit g) in *. destruct (hwloc_backend_synthetic_init _) as [[e|levels]|]; [| |done];
      cbn [mbind option_bind] in Hset; injection Hset as _ <-.
    + split; [rewrite Hl, Hc; by split; [|intros []]|done|]. intros ty Hty. rewrite Hi. by apply Hok.
    + split; cbn; [rewrite Hl, Hc; by split; [|intros []]| |intros ty Hty; rewrite Hi; by apply Hok].
      intros _. destruct Hf as (a & Ha & Htop). rewrite Hb in Htop. by exists a.
  - destruct (exit_ok g Hok) as (Hl & Hc & Hb & (a & Ha & Htop) & Hi & _). unfold hwloc_topology_set_custom.
    set (g0 := hwloc_backend_exit g) in *. split; cbn; [rewrite Hl, Hc; by split; [|intros []]| |intros ty Hty; rewrite Hi; by apply Hok].
    intros _. exists a. split; [done|]. cbn. rewrite Htop, Hb. done.
  - destruct (load_inv g g' Hload) as (Hl & Hc & Hi). apply loaded_ok; [done|done|]. intros ty Hty. rewrite Hi. by apply Hok.
  - destruct (restrict_inv g c flags r g' Hr) as (H1 & H2 & H3 & Hi). apply loaded_ok; [|done|].
    + rewrite H2. by apply Hok.
    + intros ty Hty. rewrite Hi. by apply Hok.
Qed.

Lemma reachable_ok addr g : reachable addr g -> state_ok g.
Proof. induction 1 as [|g g' _ IH Hc]; [apply init_ok|by eapply call_ok]. Qed.

(** ** Loaded states *)

(** The backend of the operating system gives distinct objects, none of them for I/O. *)
Definition plain_backend : Prop := forall a next root next', a < next ->
  look_os (Node (new_root a) []) next = Some (root, next') ->
  distinct (tree_objs root) /\ Forall not_io (tree_objs root).

Record state_linked g : Prop := {
  sl_levels : forall levels text, backend_type g = HWLOC_BACKEND_SYNTHETIC levels text ->
    hwloc_obj_type_is_io (default HWLOC_OBJ_MACHINE (l_type <$> levels !! 0%nat)) = false;
  sl_linked : forall tl, connected_levels g = Some tl -> linked (top g) tl;
}.

Lemma exit_linked g : state_ok g -> state_linked (hwloc_backend_exit g).
Proof.
  intros Hok. destruct (exit_ok g Hok) as (_ & Hc & Hb & _). by split; [rewrite Hb|rewrite Hc].
Qed.

Lemma root_level_type description levels : hwloc_backend_synthetic_init (txt description) = Some (inr levels) ->
  hwloc_obj_type_is_io (default HWLOC_OBJ_MACHINE (l_type <$> levels !! 0%nat)) = false.
Proof.
  intros Hinit. destruct (synthetic_init_ok (txt description)) as (r & Hr & Hacc). rewrite Hinit in Hr. injection Hr as <-.
  destruct (ac_levels _ Hacc) as (top & lvs & -> & _ & Htop & _). cbn. rewrite Htop. by destruct (_ =? 0).
Qed.

(** A root without children, from which the backend starts. *)
Definition bare_top g : Prop := exists a ty, a < next_addr g /\ hwloc_obj_type_is_io ty = false /\
  top g = Node (with_type (hwloc_alloc_setup_object a HWLOC_OBJ_MACHINE 0) ty) [] /\
  (backend_type g <> HWLOC_BACKEND_CUSTOM -> ty = HWLOC_OBJ_MACHINE).

Lemma fresh_bare g : fresh_top g -> bare_top g.
Proof.
  intros (a & Ha & Htop). destruct (backend_type g) as [|levels text|] eqn:Hb; cbv zeta in Htop; rewrite ?Hb in Htop.
  1,2: exists a, HWLOC_OBJ_MACHINE; by repeat split.
  exists a, HWLOC_OBJ_SYSTEM. rewrite Hb. by repeat split.
Qed.

Lemma look_plain g root next : plain_backend -> state_linked g -> bare_top g ->
  look look_os g = Some (root, next) -> plain [root].
Proof.
  intros Hos [Hlv _] (a & ty & Ha & Hty & Htop & Hm). unfold look. destruct (backend_type g) as [|levels text|] eqn:Hb; rewrite Htop.
  - rewrite Hm by done. intros Hl. destruct (Hos a _ _ _ Ha Hl) as [Hd Hn]. by apply tree_plain.
  - cbn [on_root]. intros Hl. eapply look_synthetic_plain; [|exact Hl|by eapply Hlv]. done.
  - intros [= <- <-]. split; rewrite keys_node; repeat constructor; try done. apply not_elem_of_nil.
Qed.

Lemma load_linked g g' : plain_backend -> state_ok g -> state_linked g ->
  hwloc_topology_load qsort look_os g = Some g' -> state_linked g'.
Proof.
  intros Hos Hok Hlk. unfold hwloc_topology_load. set (g0 := if is_loaded g then _ else g).
  assert (state_linked g0 /\ bare_top g0) as [Hlk0 Hf0].
  { unfold g0. destruct (is_loaded g) eqn:Hl; [|split; [done|by apply fresh_bare, Hok]]. split.
    - split; [exact (sl_levels _ Hlk)|done].
    - exists (next_addr g), HWLOC_OBJ_MACHINE. split_and!; [simpl; lia|done..]. }
  unfold hwloc_discover. destruct (look look_os g0) as [[root next]|] eqn:Hlook; [|done]. cbn [mbind option_bind].
  pose proof (look_plain g0 root next Hos Hlk0 Hf0 Hlook) as Hp.
  destruct (finish_discovery qsort (topology_flags g0) (ignored g0) root) as [[root' tl]|] eqn:Hfin; [|done].
  cbn [mbind option_bind]. intros [= <-]. split; [exact (sl_levels _ Hlk0)|]. intros tl' [= <-].
  by eapply discovery_linked.
Qed.

Lemma call_linked g g' : plain_backend -> state_ok g -> state_linked g -> call_made g g' -> state_linked g'.
Proof.
  intros Hos Hok Hlk Hcall. destruct Hcall as [g flags|g op|g description r g' Hset|g|g g' Hload|g c flags r g' Hr].
  - destruct Hlk. by split.
  - destruct Hlk. by split.
  - pose proof (exit_linked g Hok) as Hlk'. unfold hwloc_topology_set_synthetic in Hset.
    destruct (hwloc_backend_synthetic_init _) as [[e|levels]|] eqn:Hinit; [| |done]; cbn [mbind option_bind] in Hset; injection Hset as _ <-;
      [done|]. split; [|exact (sl_linked _ Hlk')]. intros lv text [= <- <-]. by eapply root_level_type.
  - destruct (exit_ok g Hok) as (_ & Hc & _). split; [done|]. unfold hwloc_topology_set_custom. cbn. by rewrite Hc.
  - by eapply load_linked.
  - unfold restrict_topology in Hr. destruct (connected_levels g) as [tl|] eqn:Htl; [|done]. cbn [mbind option_bind] in Hr.
    destruct (Clean.hwloc_topology_restrict (top g) c flags) as [[v|]|] eqn:Hv; [|by injection Hr as _ <-|done].
    cbn [mbind option_bind] in Hr. destruct (root_of v) as [root|] eqn:Hroot; [|done]. cbn [mbind option_bind] in Hr.
    destruct (connect root (links_of tl)) as [tl'|] eqn:Htl'; [|done]. cbn [mbind option_bind] in Hr. injection Hr as _ <-.
    split; [exact (sl_levels _ Hlk)|]. intros tl2 [= <-]. eapply restriction_linked; [by apply (sl_linked _ Hlk)|exact Hv|done|done].
Qed.

Lemma reachable_linked addr g : plain_backend -> reachable addr g -> state_linked g.
Proof.
  intros Hos. induction 1 as [|g g' Hr IH Hc]; [by split|]. eapply call_linked; [done|by eapply reachable_ok|done|done].
Qed.

(** ** A synthetic topology, level by level *)

(** [topo] has the levels of the description: as many objects each, in the order of
    the CPUs, numbered from 0, each with its range of CPUs. *)
Definition describes (levels : list synthetic_level) (topo : topology B) : Prop :=
  tnb_levels topo = Z.of_nat (length levels) /\
  forall d lv, levels !! d = Some lv -> let n := objects_at 1 levels d in let w := width (drop d levels) in
    hwloc_get_depth_type topo (Z.of_nat d) = Some (Some (l_type lv)) /\
    hwloc_get_nbobjs_by_depth topo (Z.of_nat d) = Some n /\
    forall k, 0 <= k < n -> exists a o, hwloc_get_obj_by_depth topo (Z.of_nat d) k = Some (Some a) /\
      obj_at topo a = Some o /\ o_type o = l_type lv /\ os_index o = k /\
      forall i, 0 <= i -> bm (cs o) i = (k * w <=? i) && (i <? (k + 1) * w).

Lemma level_consulted root tl d l : Levels.levels (tl_levels tl) !! d = Some l ->
  hwloc_get_nbobjs_by_depth (topology_of root tl) (Z.of_nat d) = Some (Z.of_nat (length l)) /\
  level_at (topology_of root tl) (Z.of_nat d) = Some (map t_addr l) /\
  (tnb_levels (topology_of root tl) <=? Z.of_nat d) = false /\
  forall k t, l !! k = Some t ->
    hwloc_get_obj_by_depth (topology_of root tl) (Z.of_nat d) (Z.of_nat k) = Some (Some (t_addr t)).
Proof.
  intros Hl. pose proof (lookup_lt_Some _ _ _ Hl) as Hd.
  assert (level_at (topology_of root tl) (Z.of_nat d) = Some (map t_addr l)) as Hat.
  { unfold level_at. cbn [tlevels topology_of]. rewrite Nat2Z.id. by rewrite map_lookup, Hl. }
  assert ((tnb_levels (topology_of root tl) <=? Z.of_nat d) = false) as Hlt.
  { unfold tnb_levels. cbn [tlevels topology_of]. rewrite length_map. apply Z.leb_gt. lia. }
  unfold hwloc_get_nbobjs_by_depth, hwloc_get_obj_by_depth. rewrite Hlt, Hat. cbn [mbind option_bind].
  split; [by rewrite length_map|]. split; [done|]. split; [done|]. intros k t Hk. unfold nth_obj. rewrite length_map.
  pose proof (lookup_lt_Some _ _ _ Hk). destruct (Z.leb_spec (Z.of_nat (length l)) (Z.of_nat k)); [lia|].
  rewrite Nat2Z.id. by rewrite map_lookup, Hk.
Qed.

Lemma level_live root tl d l t : distinct (tree_objs root) -> connected root tl -> hierarchy (topology_of root tl) root ->
  Levels.levels (tl_levels tl) !! d = Some l -> t ∈ l -> obj_at (topology_of root tl) (t_addr t) = Some (t_obj t).
Proof.
  intros Hd Hcon Hh Hl Ht. apply (h_live _ _ Hh). pose proof (part_order _ _ _ (con_levels _ _ Hcon)) as Ho.
  rewrite Forall_forall in Ho. eapply level_nodes_in; [exact Hd|]. eapply elem_of_sublist; [exact Ht|].
  apply Ho. by eapply list_elem_of_lookup_2.
Qed.

(** One level of [n] objects like [lv]. *)
Lemma level_described root tl d l lv w :
  distinct (tree_objs root) -> connected root tl -> hierarchy (topology_of root tl) root ->
  Levels.levels (tl_levels tl) !! d = Some l -> l <> [] ->
  (forall j t, l !! j = Some t -> o_type (t_obj t) = l_type lv /\ os_index (t_obj t) = Z.of_nat j /\
     forall i, 0 <= i -> bm (cs (t_obj t)) i = (Z.of_nat j * w <=? i) && (i <? (Z.of_nat j + 1) * w)) ->
  let topo := topology_of root tl in
  hwloc_get_depth_type topo (Z.of_nat d) = Some (Some (l_type lv)) /\
  forall k, 0 <= k < Z.of_nat (length l) -> exists a o, hwloc_get_obj_by_depth topo (Z.of_nat d) k = Some (Some a) /\
    obj_at topo a = Some o /\ o_type o = l_type lv /\ os_index o = k /\
    forall i, 0 <= i -> bm (cs o) i = (k * w <=? i) && (i <? (k + 1) * w).
Proof.
  intros Hd Hcon Hh Hl Hne Hobjs topo. destruct (level_consulted root tl d l Hl) as (_ & Hat & Hlt & Hget). split.
  - unfold hwloc_get_depth_type, topo. rewrite Hlt, Hat. cbn [mbind option_bind]. destruct l as [|t l]; [done|].
    cbn [map head mbind option_bind]. rewrite (level_live root tl d (t :: l) t) by (done || left). cbn [mbind option_bind].
    by destruct (Hobjs 0%nat t eq_refl) as [-> _].
  - intros k Hk. destruct (lookup_lt_is_Some_2 l (Z.to_nat k)) as [t Ht]; [lia|].
    destruct (Hobjs _ t Ht) as (H1 & H2 & H3). specialize (Hget _ t Ht). rewrite Z2Nat.id in * by lia.
    exists (t_addr t), (t_obj t). split; [done|]. split; [|done].
    eapply level_live; [done|done|done|done|by eapply list_elem_of_lookup_2].
Qed.

Lemma objects_pos n lvs d : 1 <= n -> regular lvs = true -> (d < length lvs)%nat -> 1 <= objects_at n lvs d.
Proof.
  revert n d. induction lvs as [|lv lvs IH]; intros n d Hn Hreg Hd; [done|]. destruct d as [|d]; [done|].
  destruct lvs as [|lv' lvs]; [simpl in Hd; lia|]. apply regular_inv in Hreg as (_ & Ha & _ & Hreg).
  cbn [objects_at]. apply IH; [nia|done|simpl in *; lia].
Qed.

Lemma loaded_describes ign top lvs root tl :
  loadable ign top lvs -> distinct (tree_objs root) -> connected root tl -> hierarchy (topology_of root tl) root ->
  o_type (t_obj root) = l_type top -> os_index (t_obj root) = 0 ->
  (forall i, 0 <= i -> bm (cs (t_obj root)) i = (i <? total top lvs)) ->
  Levels.levels (tl_levels tl) = [root] :: layers (length lvs) (t_children root) ->
  loaded_layers lvs (l_arity top) root -> describes (top :: lvs) (topology_of root tl).
Proof.
  intros [Ha Hreg _ _ _ _] Hdist Hcon Hh Hty Hidx Hcs Hlv Hlay. split.
  { unfold tnb_levels. cbn [tlevels topology_of]. rewrite length_map, Hlv. cbn [length]. by rewrite length_layers. }
  intros [|d] lv Hd n w.
  - injection Hd as <-. assert (Levels.levels (tl_levels tl) !! 0%nat = Some [root]) as H0l by by rewrite Hlv.
    destruct (level_described root tl 0 [root] top w Hdist Hcon Hh H0l) as [H1 H2]; [done| |].
    + intros [|j] t Ht; [|done]. injection Ht as <-. split; [done|]. split; [done|]. intros i Hi. rewrite Hcs by done.
      unfold w, total. cbn [drop width]. destruct (Z.eqb_spec (l_arity top) 0); [lia|]. rewrite Z.mul_0_l, Z.add_0_l, Z.mul_1_l.
      by destruct (Z.leb_spec 0 i); [|lia].
    + split; [done|]. split; [|done]. by destruct (level_consulted root tl 0 [root] H0l) as [-> _].
  - cbn [lookup list_lookup] in Hd. destruct (Hlay d lv Hd) as (l & Hl & Hlen & Hobjs).
    assert (Levels.levels (tl_levels tl) !! S d = Some l) as H0l by by rewrite Hlv.
    pose proof (objects_pos (l_arity top) lvs d Ha Hreg (lookup_lt_Some _ _ _ Hd)) as Hpos.
    assert (n = Z.of_nat (length l)) as Hn by (unfold n; cbn [objects_at]; rewrite Z.mul_1_l; lia).
    destruct (level_described root tl (S d) l lv w Hdist Hcon Hh H0l) as [H1 H2].
    + destruct l; [simpl in Hlen; lia|done].
    + intros j t Ht. destruct (Hobjs j t Ht) as (? & ? & _ & ?). done.
    + split; [done|]. rewrite Hn. split; [|done]. by destruct (level_consulted root tl (S d) l H0l) as [-> _].
Qed.

(** Loading, for the first time or again. *)
Lemma load_synthetic g top lvs description :
  state_ok g -> backend_type g = HWLOC_BACKEND_SYNTHETIC (top :: lvs) description ->
  loadable (ignored g) top lvs -> total top lvs <= CPU_MAX ->
  l_type top = HWLOC_OBJ_MACHINE \/ l_type top = HWLOC_OBJ_SYSTEM ->
  exists g' topo, hwloc_topology_load qsort look_os g = Some g' /\
    is_loaded g' = true /\ backend_type g' = backend_type g /\ ignored g' = ignored g /\
    is_thissystem g' = is_thissystem g || has_flag (topology_flags g) HWLOC_TOPOLOGY_FLAG_IS_THISSYSTEM /\
    topology_view g' = Some topo /\ consultable topo /\ hierarchy topo (Discover.top g') /\ describes (top :: lvs) topo.
Proof.
  intros Hok Hb Hld Hmax Hnormal. unfold hwloc_topology_load.
  set (g0 := if is_loaded g then with_is_loaded (hwloc_topology_setup_defaults g) false else g).
  assert (backend_type g0 = backend_type g /\ ignored g0 = ignored g /\ is_thissystem g0 = is_thissystem g /\
    topology_flags g0 = topology_flags g) as (Hb0 & Hi0 & Ht0 & Hf0) by (unfold g0; by destruct (is_loaded g)).
  assert (exists a, a < next_addr g0 /\ Discover.top g0 = Node (hwloc_alloc_setup_object a HWLOC_OBJ_MACHINE 0) [])
    as (a & Hlt & Htop).
  { unfold g0. destruct (is_loaded g) eqn:Hl; [exists (next_addr g); split; [simpl; lia|done]|].
    destruct (so_fresh _ Hok Hl) as (a & Ha & Htop). rewrite Hb in Htop. by exists a. }
  destruct (look_fresh top lvs description a (next_addr g0)) as (ro & ts & next' & Hrun & Hn & Hlen & Hty & Hidx & Hroot & Hd & _);
    [apply Hld|apply Hld|done|done|done|].
  destruct (finish_synthetic qsort (topology_flags g0) (ignored g0) top lvs ro ts) as (root & tl & Hfin & Hc & Hh & Hdist & Hcon & Hcore & Hcs & Hlv & Hlay);
    [by rewrite Hi0|done|done|done|done|done|].
  unfold hwloc_discover, look. rewrite Hb0, Hb, Htop. cbn [on_root]. fold (new_root (B := B) a). rewrite Hrun.
  cbn [mbind option_bind]. rewrite Hfin. cbn [mbind option_bind]. eexists _, (topology_of root tl).
  apply core_facts in Hcore as (_ & Hrt & Hri & _).
  split; [done|]. split; [done|]. split; [cbn; congruence|]. split; [done|]. split; [cbn; by rewrite Ht0, Hf0|].
  split; [done|]. split; [done|]. split; [done|].
  apply (loaded_describes (ignored g) top lvs root tl); [done|done|done|done|congruence|congruence|done|done|done].
Qed.

Lemma set_synthetic_ok g description : state_ok g ->
  exists r g', hwloc_topology_set_synthetic g description = Some (r, g') /\ is_loaded g' = false /\
    ignored g' = ignored g /\ topology_flags g' = topology_flags g /\
    match hwloc_backend_synthetic_init (txt description) with
    | Some (inr levels) => r = 0 /\ backend_type g' = HWLOC_BACKEND_SYNTHETIC levels description /\ is_thissystem g' = false
    | _ => r = -1 /\ backend_type g' = HWLOC_BACKEND_NONE
    end.
Proof.
  intros Hok. destruct (exit_ok g Hok) as (Hl & _ & Hb & _ & Hi & Hf). unfold hwloc_topology_set_synthetic.
  set (g0 := hwloc_backend_exit g) in *. destruct (synthetic_init_ok (txt description)) as ([e|levels] & -> & _);
    cbn [mbind option_bind]; eexists _, _; (split; [reflexivity|]); cbn; by repeat split.
Qed.

(** C9. Whatever the calls made since [hwloc_topology_init], loads and failures
    included, when the backend of the operating system gives distinct objects without
    I/O.  A loaded topology has levels and links, its objects are distinct, and it can
    be consulted: every array of a level holds live objects of one type, whose depth,
    logical index and cousins agree with the array, and parents, children and ranks are
    those of the tree, also after restrictions and reloads (unless its root is a Misc
    object, which [merge_useless_child] may leave when the types of the root are
    ignored).  One that is not loaded has none of this: it is one fresh object, a
    Machine, or a System for the custom backend.  PU and I/O types are never ignored.
    From such a state a synthetic backend can always be asked for: the former one is
    released, the topology is no longer loaded, and it is -1 without any backend when
    the description is refused. *)
Theorem reachable_states addr g description :
  plain_backend -> reachable addr g ->
  (if is_loaded g
   then exists topo, topology_view g = Some topo /\ distinct (tree_objs (top g)) /\
     (t_type (top g) <> HWLOC_OBJ_MISC -> consultable topo /\ hierarchy topo (top g))
   else topology_view g = None /\ fresh_top g) /\
  (forall ty, essential ty -> ignored g ty = HWLOC_IGNORE_TYPE_NEVER) /\
  exists r g', hwloc_topology_set_synthetic g description = Some (r, g') /\ is_loaded g' = false /\
    match hwloc_backend_synthetic_init (txt description) with
    | Some (inr levels) => r = 0 /\ backend_type g' = HWLOC_BACKEND_SYNTHETIC levels description /\ is_thissystem g' = false
    | _ => r = -1 /\ backend_type g' = HWLOC_BACKEND_NONE
    end.
Proof.
  intros Hos Hr. pose proof (reachable_linked _ _ Hos Hr) as Hlk. apply reachable_ok in Hr.
  pose proof Hr as [Hl Hf Hi]. split; [|split; [done|]].
  - unfold topology_view. destruct (connected_levels g) as [tl|] eqn:Htl; cbn [mbind option_bind].
    + rewrite (proj2 Hl) by by eexists. eexists. split; [done|]. pose proof (sl_linked _ Hlk tl Htl) as Hlt.
      destruct (plain_tree _ (lk_plain _ _ Hlt)) as [Hd Hio]. split; [done|]. intros Hty. apply linked_consultable; [done|].
      unfold placed, filtered_out. rewrite (bool_decide_eq_false_2 _ Hty), orb_false_r.
      unfold t_type. destruct (top g) as [o ch]. by apply Forall_cons in Hio as [? _].
    + destruct (is_loaded g) eqn:Hload; [|by split; [|apply Hf]]. by destruct (proj1 Hl eq_refl).
  - destruct (set_synthetic_ok g description Hr) as (r & g' & H1 & H2 & _ & _ & H3). by exists r, g'.
Qed.

(** C1. From any state that calls can reach, a description whose levels are
    regular, end with PUs, and are not to be ignored or merged, is loaded as it
    reads, and again when loaded a second time: the topology has exactly the
    described levels, of the described types, with as many objects as the arities
    make; object [k] of a level has index [k] and the CPUs of the [k]-th part. *)
Theorem synthetic_topology_loads addr g description top lvs :
  reachable addr g -> hwloc_backend_synthetic_init (txt description) = Some (inr (top :: lvs)) ->
  loadable (ignored g) top lvs -> total top lvs <= CPU_MAX ->
  exists g1 g2 g3 topo2 topo3,
    hwloc_topology_set_synthetic g description = Some (0, g1) /\
    hwloc_topology_load qsort look_os g1 = Some g2 /\ hwloc_topology_load qsort look_os g2 = Some g3 /\
    is_thissystem g2 = has_flag (topology_flags g) HWLOC_TOPOLOGY_FLAG_IS_THISSYSTEM /\
    topology_view g2 = Some topo2 /\ consultable topo2 /\ hierarchy topo2 (Discover.top g2) /\ describes (top :: lvs) topo2 /\
    topology_view g3 = Some topo3 /\ consultable topo3 /\ hierarchy topo3 (Discover.top g3) /\ describes (top :: lvs) topo3.
Proof.
  intros Hr%reachable_ok Hinit Hld Hmax. destruct (set_synthetic_ok g description Hr) as (r & g1 & Hset & _ & Hi & Hf & Hres).
  rewrite Hinit in Hres. destruct Hres as (-> & Hb & Ht). pose proof (call_ok _ _ Hr (made_set_synthetic _ _ _ _ Hset)) as Hok1.
  assert (l_type top = HWLOC_OBJ_MACHINE \/ l_type top = HWLOC_OBJ_SYSTEM) as Hnormal.
  { destruct (synthetic_init_ok (txt description)) as (r & Hr' & Hacc). rewrite Hinit in Hr'. injection Hr' as <-.
    destruct (ac_levels _ Hacc) as (top' & lvs' & [= <- <-] & _ & -> & _).
    destruct (_ =? 0); auto. }
  rewrite <- Hi in Hld. destruct (load_synthetic g1 top lvs description) as (g2 & topo2 & Hl2 & _ & Hb2 & Hi2 & Ht2 & H2); [done..|].
  pose proof (call_ok _ _ Hok1 (made_load _ _ Hl2)) as Hok2. rewrite <- Hi2 in Hld.
  destruct (load_synthetic g2 top lvs description) as (g3 & topo3 & Hl3 & _ & _ & _ & _ & H3); [done|congruence|done..|].
  exists g1, g2, g3, topo2, topo3. split; [done|]. split; [done|]. split; [done|]. split; [by rewrite Ht2, Ht, Hf|].
  destruct H2 as (? & ? & ? & ?). by repeat (split; [done|]).
Qed.

End Life.

(** ** Witnesses *)

Definition keep_order (cmp : Z * Z -> Z * Z -> Z) (l : list (Z * Z)) : list (Z * Z) := l.
Definition no_os (root : obj_tree wbitmap) (next : Z) : option (obj_tree wbitmap * Z) := None.

(** "2 4 2": two caches of four cores of two PUs. *)
Definition numbers_levels : list synthetic_level :=
  [mk_level HWLOC_OBJ_MACHINE 2 None; mk_level HWLOC_OBJ_CACHE 4 (Some 2); mk_level HWLOC_OBJ_CORE 2 None;
   mk_level HWLOC_OBJ_PU 0 None].

(** A system with one PU. *)
Definition one_pu (root : obj_tree wbitmap) (next : Z) : option (obj_tree wbitmap * Z) :=
  let 'Node o ch := root in
  let pu := with_cpuset (hwloc_alloc_setup_object next HWLOC_OBJ_PU 0) (Some (b_only 0)) in
  Some (Node (with_complete_cpuset o (Some (b_only 0))) (ch ++ [Node pu []]), next + 1).

Lemma one_pu_plain : plain_backend one_pu.
Proof.
  intros a next root next' Ha [= <- _]. split; [|by repeat constructor].
  unfold distinct. cbn. constructor; [|constructor; [apply not_elem_of_nil|constructor]].
  intros ->%list_elem_of_singleton. lia.
Qed.

Lemma reachable_states_witness : exists (g : hwloc_topology wbitmap) topo,
  reachable keep_order one_pu 0 g /\ is_loaded g = true /\ topology_view g = Some topo /\
  consultable topo /\ hierarchy topo (top g).
Proof.
  set (g0 := hwloc_topology_set_flags (hwloc_topology_init (B := wbitmap) 0) 1).
  assert (match hwloc_topology_load keep_order one_pu g0 with
    | Some g => is_loaded g && negb (bool_decide (t_type (top g) = HWLOC_OBJ_MISC))
    | None => false end = true) as Hload by (vm_compute; reflexivity).
  destruct (hwloc_topology_load keep_order one_pu g0) as [g|] eqn:Hg; [|discriminate Hload].
  apply andb_true_iff in Hload as [Hl Hty]. apply negb_true_iff, bool_decide_eq_false in Hty.
  assert (reachable keep_order one_pu 0 g) as Hr
    by (apply (reached_call _ _ _ g0); [eapply reached_call; [apply reached_init|apply made_set_flags]|by constructor]).
  clear Hg. clearbody g0.
  destruct (reachable_states keep_order one_pu 0 g EmptyString one_pu_plain Hr) as [Hv _]. rewrite Hl in Hv.
  destruct Hv as (topo & Hv & _ & Hc). destruct (Hc Hty) as [Hcon Hh].
  exists g, topo. exact (conj Hr (conj Hl (conj Hv (conj Hcon Hh)))).
Defined.

Lemma synthetic_topology_loads_witness :
  exists (g1 g2 : hwloc_topology wbitmap) topo,
    hwloc_topology_set_synthetic (hwloc_topology_init 0) "2 4 2" = Some (0, g1) /\
    hwloc_topology_load keep_order no_os g1 = Some g2 /\ topology_view g2 = Some topo /\ is_thissystem g2 = false /\
    tnb_levels topo = 4 /\ hwloc_get_nbobjs_by_depth topo 3 = Some 16 /\ hwloc_get_depth_type topo 3 = Some (Some HWLOC_OBJ_PU).
Proof.
  destruct (synthetic_topology_loads keep_order no_os 0 (hwloc_topology_init (B := wbitmap) 0) "2 4 2"
    (mk_level HWLOC_OBJ_MACHINE 2 None) (tl numbers_levels)) as (g1 & g2 & g3 & topo & _ & Hset & Hload & _ & Hthis & Hview & _ & _ & (Hnb & Hlv) & _);
    [apply reached_init|by_eval| |unfold CPU_MAX; vm_compute; congruence|].
  - split; [simpl; lia|by_eval|by_eval|by_eval|repeat constructor; discriminate|vm_compute; reflexivity].
  - exists g1, g2, topo. destruct (Hlv 3%nat _ eq_refl) as (Hty & Hn & _).
    split; [exact Hset|]. split; [exact Hload|]. split; [exact Hview|]. split; [exact Hthis|]. split; [exact Hnb|].
    split; [exact Hn|exact Hty].
Defined.
