(* ===== verification/Check.v ===== *)
(** * Check: [hwloc_topology_check] ([src/topology.c])

    The assertions on a loaded topology; [None] is a failed one.  [first_child] and
    [next_sibling] are the tree [root] itself; the other links, the arrays of
    children among them, are those of the topology. *)

From stdpp Require Import gmap.
From S2P Require Import Prelude Cpuset Obj Clean CleanOk Levels Traversal Helper.

(** All of [xs] pass. *)
Fixpoint each {X} (f : X -> option unit) (xs : list X) : option unit :=
  match xs with
  | [] => Some tt
  | x :: xs => let! _ := f x in each f xs
  end.

Definition assert (b : bool) : option unit := require! b in Some tt.

(** The element after the first [a]. *)
Fixpoint after (a : Z) (l : list Z) : option Z :=
  match l with
  | [] => None
  | x :: l => if x =? a then head l else after a l
  end.

Section Check.
Context {B : Type} `{CpusetOps B}.
Context (topo : topology B) (root : obj_tree B).

(** [obj->next_sibling]. *)
Definition tree_next (a : Z) : option Z :=
  head (omap (fun n => after a (map t_addr (t_children n))) (tree_nodes root)).

(** The object allocated at [a] and what is below. *)
Definition node_at (a : Z) : option (obj_tree B) := find (fun n => t_addr n =? a) (tree_nodes root).

(** [children[0]] to [children[n - 1]]; an access past the array is undefined. *)
Definition array_prefix (n : Z) (l : list Z) : option (list Z) :=
  require! (n <=? Z.of_nat (length l)) in Some (take (Z.to_nat n) l).

(** The loop on the cpusets of the children; [remaining_parent_set] at the end. *)
Fixpoint check_cpusets (cs : list Z) (remaining : B) : option B :=
  match cs with
  | [] => Some remaining
  | c :: cs =>
      let! o := obj_at topo c in
      match ocpuset o with
      | None => check_cpusets cs remaining
      | Some s =>
          let! _ := assert (b_isincluded s remaining) in
          let! _ := assert (b_iszero s || (b_first s =? b_first remaining)) in
          check_cpusets cs (b_andnot remaining s)
      end
  end.

(** The loop on the siblings, from index [j] on; [prev] is the child before. *)
Fixpoint check_siblings (j : Z) (prev : Z) (cs : list Z) : option unit :=
  match cs with
  | [] => Some tt
  | c :: cs =>
      let! k := links_at topo c in
      let! _ := assert (sibling_rank k =? j) in
      let! _ := assert (bool_decide (tree_next prev = Some c)) in
      let! _ := assert (bool_decide (prev_sibling k = Some prev)) in
      check_siblings (j + 1) c cs
  end.

Definition hwloc__check_children (parent : obj_tree B) : option unit :=
  let! k := links_at topo (t_addr parent) in
  let first_child := t_addr <$> head (t_children parent) in
  if arity k =? 0 then
    let! _ := assert (bool_decide (children k = [])) in
    let! _ := assert (bool_decide (first_child = None)) in
    assert (bool_decide (last_child k = None))
  else
    let! _ := assert (negb (bool_decide (children k = []))) in
    let! first := first_child in
    let! last := last_child k in
    let! cs := array_prefix (arity k) (children k) in
    let! kf := links_at topo first in
    let! _ := assert (sibling_rank kf =? 0) in
    let! _ := assert (bool_decide (Some first = head cs)) in
    let! _ := assert (bool_decide (prev_sibling kf = None)) in
    let! kl := links_at topo last in
    let! _ := assert (sibling_rank kl =? u32 (arity k - 1)) in
    let! _ := assert (bool_decide (Some last = cs !! Z.to_nat (u32 (arity k - 1)))) in
    let! _ := assert (bool_decide (tree_next last = None)) in
    let! _ := match ocpuset (t_obj parent) with
              | None => Some tt
              | Some s => let! remaining := check_cpusets cs s in assert (b_iszero remaining)
              end in
    check_siblings 1 first (tl cs).

(** The loop of [hwloc_get_next_child] stops at a child that has another parent. *)
Fixpoint hwloc__check_children_depth (t : obj_tree B) : option unit :=
  let 'Node o ch := t in
  let! kp := links_at topo (o_addr o) in
  (fix check (ch : list (obj_tree B)) : option unit :=
     match ch with
     | [] => Some tt
     | c :: ch =>
         let! k := links_at topo (t_addr c) in
         let! _ := match t_type c with
                   | HWLOC_OBJ_BRIDGE => assert (depth k =? u32 HWLOC_TYPE_DEPTH_BRIDGE)
                   | HWLOC_OBJ_PCI_DEVICE => assert (depth k =? u32 HWLOC_TYPE_DEPTH_PCI_DEVICE)
                   | HWLOC_OBJ_OS_DEVICE => assert (depth k =? u32 HWLOC_TYPE_DEPTH_OS_DEVICE)
                   | HWLOC_OBJ_MISC => assert (depth k =? u32 (-1))
                   | _ => if negb (depth kp =? u32 (-1)) then assert (depth kp <? depth k) else Some tt
                   end in
         let! _ := hwloc__check_children_depth c in
         if negb (bool_decide (parent k = Some (o_addr o))) then Some tt else check ch
     end) ch.

(** [s] is NULL or lies in [c]. *)
Definition within (s : option B) (c : B) : bool :=
  match s with Some s => b_isincluded s c | None => true end.

Definition sets_within (o : hwloc_obj B) : bool :=
  match complete_cpuset (sets o) with
  | Some c => within (ocpuset o) c && within (online_cpuset (sets o)) c && within (allowed_cpuset (sets o)) c
  | None => true
  end &&
  match complete_nodeset (sets o) with
  | Some c => within (onodeset o) c && within (allowed_nodeset (sets o)) c
  | None => true
  end.

(** The [n] objects of level [i] from [j] on. *)
Fixpoint check_objects (n : nat) (i j : Z) (prev : option Z) : option unit :=
  match n with
  | O => Some tt
  | S n =>
      let! p := hwloc_get_obj_by_depth topo i j in
      let! a := p in
      let! o := obj_at topo a in
      let! k := links_at topo a in
      let! _ := assert (depth k =? i) in
      let! _ := assert (logical_index k =? j) in
      let! _ := match prev with
                | Some b =>
                    let! ob := obj_at topo b in
                    let! kb := links_at topo b in
                    let! _ := assert (bool_decide (hwloc_type_cmp o ob = HWLOC_TYPE_EQUAL)) in
                    let! _ := assert (bool_decide (next_cousin kb = Some a)) in
                    assert (bool_decide (prev_cousin k = Some b))
                | None => Some tt
                end in
      let! _ := assert (sets_within o) in
      let! node := node_at a in
      let! _ := hwloc__check_children node in
      check_objects n i (j + 1) (Some a)
  end.

Definition check_level (i : Z) : option unit :=
  let! width := hwloc_get_nbobjs_by_depth topo i in
  let! _ := check_objects (Z.to_nat width) i 0 None in
  let! p := hwloc_get_obj_by_depth topo i 0 in
  let! a := p in
  let! o := obj_at topo a in
  let! k := links_at topo a in
  let! _ := assert (bool_decide (prev_cousin k = None)) in
  let! t := hwloc_get_depth_type topo i in
  let! _ := assert (bool_decide (t = Some (o_type o))) in
  let d := hwloc_get_type_depth topo (o_type o) in
  let! _ := assert ((i =? u32 d) || (HWLOC_TYPE_DEPTH_MULTIPLE =? d)) in
  let! p := hwloc_get_obj_by_depth topo i (u32 (width - 1)) in
  let! a := p in
  let! k := links_at topo a in
  let! _ := assert (bool_decide (next_cousin k = None)) in
  let! p := hwloc_get_obj_by_depth topo i width in
  assert (bool_decide (p = None)).

Definition check_type_orders : option unit :=
  let! _ := each (fun type => assert (bool_decide (hwloc_get_order_type (hwloc_get_type_order type) = Some type))) obj_types in
  each (fun i => assert (bool_decide (option_map hwloc_get_type_order (hwloc_get_order_type i) = Some i)))
    (seqZ (hwloc_get_type_order HWLOC_OBJ_SYSTEM)
       (hwloc_get_type_order HWLOC_OBJ_CORE - hwloc_get_type_order HWLOC_OBJ_SYSTEM + 1)).

Definition is_pu_level (i : Z) : option bool :=
  let! t := hwloc_get_depth_type topo i in Some (bool_decide (t = Some HWLOC_OBJ_PU)).

Definition hwloc_topology_get_depth : Z := tnb_levels topo.

Definition hwloc_topology_check : option unit :=
  let depth := hwloc_topology_get_depth in
  let! _ := check_type_orders in
  let! last := is_pu_level (u32 (depth - 1)) in
  let! _ := assert last in
  let! _ := each (fun i => let! pu := is_pu_level i in assert (negb pu)) (seqZ 1 (u32 (depth - 1) - 1)) in
  let! n := hwloc_get_nbobjs_by_depth topo 0 in
  let! _ := assert (n =? 1) in
  let! obj := hwloc_get_root_obj topo in
  let! obj := obj in
  let! _ := each check_level (seqZ 0 depth) in
  let! n := hwloc_get_nbobjs_by_depth topo (u32 (depth - 1)) in
  let! _ := assert (0 <? n) in
  let! _ := each (fun j => let! p := hwloc_get_obj_by_depth topo (u32 (depth - 1)) j in
                           let! a := p in
                           let! o := obj_at topo a in
                           assert (bool_decide (o_type o = HWLOC_OBJ_PU))) (seqZ 0 n) in
  let! k := links_at topo obj in
  let! _ := assert (Levels.depth k =? 0) in
  let! node := node_at obj in
  hwloc__check_children_depth node.

End Check.
