(* ===== verification/CheckOk.v ===== *)
(** * CheckOk: what the assertions of [hwloc_topology_check] ask of a topology

    PUs make the last level of [hwloc_connect_levels]: [topmost_object] takes a PU only
    when nothing else is left, and the PUs have no children.  Then when each assertion
    passes. *)

From stdpp Require Import gmap functions.
From S2P Require Import Prelude Cpuset Obj ObjCmp Insert Clean CleanOk Levels LevelsOk LevelsLoop Connected Sets Traversal Loaded Helper HelperOk Shape Discover DiscoverOk DiscoverLoad Check.

Section PuLevel.
Context {B : Type} `{CpusetOps B}.
Implicit Types t u n top : obj_tree B.
Implicit Types ts objs : list (obj_tree B).

(** No I/O and no Misc objects, and the PUs have no children. *)
Definition pu_ended n : Prop := placed n /\ (t_type n = HWLOC_OBJ_PU -> t_children n = []).
Definition pus_ended t : Prop := Forall pu_ended (tree_nodes t).

Lemma pus_ended_inv t : pus_ended t -> pu_ended t /\ Forall pus_ended (t_children t).
Proof.
  unfold pus_ended. destruct t as [o ch]. rewrite tree_nodes_node. intros [Ht Hch]%Forall_cons. split; [done|].
  unfold forest_nodes in Hch. apply Forall_concat in Hch. exact (proj1 (List.Forall_map _ _ _) Hch).
Qed.

Lemma pu_kind t u : t_type t = HWLOC_OBJ_PU -> t_type u = HWLOC_OBJ_PU -> level_kind t = level_kind u.
Proof. unfold level_kind. by intros -> ->. Qed.

(** Whether the level [top] makes is that of the PUs. *)
Lemma topmost_pu objs top : Forall pus_ended objs -> topmost_object objs = Some top -> t_type top = HWLOC_OBJ_PU ->
  Forall (fun t => t_type t = HWLOC_OBJ_PU) objs.
Proof.
  intros Hobjs. unfold topmost_object. destruct (find _ objs) as [t|] eqn:Hf.
  - apply find_some in Hf as [Hin Ht]. apply list_elem_of_In in Hin. apply negb_true_iff, bool_decide_eq_false in Ht.
    cbn [mbind option_bind]. intros [= <-] Hpu. exfalso. revert Hpu.
    assert (placed t) as Hp by (rewrite Forall_forall in Hobjs; apply pus_ended_inv, Hobjs, Hin). clear Hin. revert t Ht Hp.
    induction Hobjs as [|u us [[Hu Hch] _]%pus_ended_inv _ IH]; intros t Ht Hp; [done|]. cbn [foldl].
    destruct (negb (same_type t u)) eqn:Hsame; [|by apply IH].
    destruct (find_same_type u (t_obj t)) eqn:Hfind; [|by apply IH]. apply IH; [|done].
    intros Hpu. specialize (Hch Hpu). destruct u as [ou cu]. cbn [t_children] in Hch. subst cu. cbn [find_same_type existsb] in Hfind.
    destruct (bool_decide (hwloc_type_cmp ou (t_obj t) = HWLOC_TYPE_EQUAL)) eqn:Heq; [|done].
    pose proof (proj1 (same_type_kind (Node ou []) t Hu Hp) Heq) as Hk. unfold level_kind in Hk. apply (f_equal fst) in Hk.
    cbn [fst] in Hk. congruence.
  - intros _ _. apply Forall_forall. intros t Ht. apply list_elem_of_In in Ht.
    pose proof (find_none _ _ Hf t Ht) as Hn. cbv beta in Hn. by apply negb_false_iff, bool_decide_eq_true in Hn.
Qed.

Lemma take_pus objs top : Forall pus_ended objs -> Forall (fun t => t_type t = HWLOC_OBJ_PU) objs -> placed top ->
  t_type top = HWLOC_OBJ_PU -> hwloc_level_take_objects top objs = (objs, []).
Proof.
  intros Hobjs Hpu Hp Ht. rewrite (take_uniform (level_kind top)); [|done|done|].
  - f_equal. revert Hpu. induction Hobjs as [|u us [[_ Hu] _]%pus_ended_inv _ IH]; intros Hpu; [done|].
    apply Forall_cons in Hpu as [Hpu Hpus]. rewrite next_layer_cons, Hu, IH by done. done.
  - apply Forall_forall. rewrite Forall_forall in Hobjs, Hpu. intros t Hin. split; [by apply pus_ended_inv, Hobjs|].
    apply pu_kind; [by apply Hpu|done].
Qed.

Lemma take_rest_ended top objs : Forall pus_ended objs -> Forall pus_ended (hwloc_level_take_objects top objs).2.
Proof.
  induction 1 as [|t ts Ht _ IH]; [constructor|]. cbn [hwloc_level_take_objects].
  destruct (hwloc_level_take_objects top ts) as [taken rest]. cbn [snd] in *.
  destruct (same_type top t); cbn [snd]; [|by constructor]. apply Forall_app. split; [exact (proj2 (pus_ended_inv _ Ht))|done].
Qed.

(** Only the last of the levels built so far may be that of the PUs, and then nothing is left. *)
Definition pu_at_end objs (ls : level_state (B := B)) : Prop :=
  Forall pus_ended objs /\
  forall d l, levels ls !! d = Some l -> level_is HWLOC_OBJ_PU l = true -> objs = [] /\ length (levels ls) = S d.

Lemma ended_placed objs : Forall pus_ended objs -> Forall placed objs.
Proof. intros Hobjs. eapply Forall_impl; [exact Hobjs|]. cbv beta. intros t Ht. by apply pus_ended_inv in Ht as [[? _] _]. Qed.

Lemma build_level_pu objs ls objs' ls' : objs <> [] -> pu_at_end objs ls ->
  build_level objs ls = Some (objs', ls') -> pu_at_end objs' ls'.
Proof.
  intros Hne [Hobjs Hls]. unfold build_level. destruct (topmost_object_in objs Hne) as (top & Htop & Hin).
  pose proof (topmost_pu objs top Hobjs Htop) as Hall. rewrite Htop. cbn [mbind option_bind].
  pose proof (ended_placed _ Hobjs) as Hpl. assert (placed top) as Hp by (rewrite Forall_forall in Hpl; auto).
  pose proof (take_ok top objs Hpl Hp) as Htake. pose proof (take_rest_ended top objs Hobjs) as Hrest.
  pose proof (take_pus objs top Hobjs) as Hpus.
  destruct (hwloc_level_take_objects top objs) as [taken rest]. destruct Htake as [Htk _]. cbn [snd] in Hrest.
  destruct (_ <? _); [|done]. cbn [mbind option_bind]. rewrite filter_placed by by apply ended_placed.
  cbn [mbind option_bind]. intros [= <- <-]. split; [done|]. cbn [levels]. intros d l Hl Hpu.
  apply lookup_app_Some in Hl as [Hl|[Hle Hl]].
  - by destruct (Hls d l Hl Hpu).
  - apply list_lookup_singleton_Some in Hl as [Hd <-]. split; [|rewrite length_app; cbn [length]; lia].
    destruct taken as [|t taken]; [done|]. cbn [level_is] in Hpu. apply bool_decide_eq_true in Hpu.
    destruct (proj1 (Htk t) (list_elem_of_here _ _)) as [_ Hk]. unfold level_kind in Hk. apply (f_equal fst) in Hk. cbn [fst] in Hk.
    specialize (Hpus (Hall ltac:(congruence)) Hp ltac:(congruence)). by injection Hpus.
Qed.

Lemma build_levels_pu fuel objs ls ls' : pu_at_end objs ls -> build_levels fuel objs ls = Some ls' -> pu_at_end [] ls'.
Proof.
  revert objs ls. induction fuel as [|fuel IH]; intros [|t objs] ls Hinv; cbn [build_levels]; [by intros [= <-]|done|by intros [= <-]|].
  destruct (build_level (t :: objs) ls) as [[objs' ls'']|] eqn:Hb; [|done]. cbn [mbind option_bind]. apply IH.
  eapply build_level_pu; [|exact Hinv|exact Hb]. done.
Qed.

Lemma pu_level_last root st tl : pus_ended root -> hwloc_connect_levels root st = Some tl ->
  forall d l, levels (tl_levels tl) !! d = Some l -> level_is HWLOC_OBJ_PU l = true ->
    length (levels (tl_levels tl)) = S d.
Proof.
  intros Hroot. apply pus_ended_inv in Hroot as Hr. destruct Hr as [[Hp Hch] Hended]. unfold hwloc_connect_levels.
  rewrite filter_placed by by apply ended_placed. cbn [mbind option_bind].
  destruct (build_levels _ _ _) as [ls|] eqn:Hb; [|done]. apply build_levels_pu in Hb as [_ Hls].
  - cbn [mbind option_bind]. intros Htl.
    assert (levels (tl_levels tl) = levels ls) as ->; [|by intros d l Hl Hpu; apply Hls with l].
    revert Htl. repeat (destruct (hwloc_build_level_from_list _ _ _ _) as [[? ?]|]; [|done]; cbn [mbind option_bind]).
    destruct (hwloc_propagate_symmetric_subtree _ _); [|done]. cbn [mbind option_bind]. by intros [= <-].
  - split; [done|]. cbn [levels]. intros d l Hl Hpu. apply list_lookup_singleton_Some in Hl as [-> <-]. split; [|done].
    cbn [level_is] in Hpu. apply bool_decide_eq_true in Hpu. auto.
Qed.

End PuLevel.

(** ** Passing *)

Lemma assert_ok b : assert b = Some tt <-> b = true.
Proof. by destruct b. Qed.

Lemma bind_ok {R} (m : option unit) (k : option R) r : (let! _ := m in k) = Some r <-> m = Some tt /\ k = Some r.
Proof. destruct m as [[]|]; cbn [mbind option_bind]; [tauto|]. split; [done|]. by intros [? _]. Qed.

Lemma each_ok {X} (f : X -> option unit) (xs : list X) : each f xs = Some tt <-> Forall (fun x => f x = Some tt) xs.
Proof.
  induction xs as [|x xs IH]; cbn [each]; [done|]. by rewrite bind_ok, IH, Forall_cons.
Qed.

Lemma after_lookup a l i : NoDup l -> l !! i = Some a -> after a l = l !! S i.
Proof.
  revert i. induction l as [|x l IH]; intros i; [done|]. intros [Hx Hnd]%NoDup_cons. cbn [after].
  destruct i as [|i]; cbn [lookup list_lookup].
  - intros [= ->]. rewrite Z.eqb_refl. by destruct l.
  - intros Hi. destruct (Z.eqb_spec x a) as [->|_]; [by destruct Hx; eapply list_elem_of_lookup_2|]. by apply IH.
Qed.

Lemma after_in a l b : after a l = Some b -> a ∈ l.
Proof.
  induction l as [|x l IH]; cbn [after]; [done|]. destruct (Z.eqb_spec x a) as [->|_]; [left|right; auto].
Qed.

Lemma head_omap_unique {X Y} (f : X -> option Y) (xs : list X) x :
  x ∈ xs -> (forall x', x' ∈ xs -> is_Some (f x') -> x' = x) -> head (omap f xs) = f x.
Proof.
  intros Hx Hu. destruct (f x) as [y|] eqn:Hy.
  - induction Hx as [x xs|x x' xs Hx IH]; cbn [omap list_omap]; [by rewrite Hy|].
    destruct (f x') as [y'|] eqn:Hy'; [|apply IH; [intros; apply Hu; [by right|done]|done]].
    assert (x' = x) as -> by (apply Hu; [left|by rewrite Hy']). rewrite Hy' in Hy. by injection Hy as ->.
  - assert (omap f xs = []) as ->; [|done]. clear Hx. induction xs as [|x' xs IH]; [done|]. cbn [omap list_omap].
    destruct (f x') as [y'|] eqn:Hy'.
    + assert (x' = x) as -> by (apply Hu; [left|by rewrite Hy']). congruence.
    + apply IH. intros x0 H0. apply Hu. by right.
Qed.

(** ** The cpusets of the children of an object *)

Section Parts.
Context {B : Type} `{Cpuset B}.

(** The sets cover [r], and those that are not empty are in the order of their first members. *)
Definition covering (r : B) (ss : list B) : Prop :=
  forall i, 0 <= i -> bm r i = true -> exists s, s ∈ ss /\ bm s i = true.
Definition in_order (ss : list B) : Prop :=
  ForallOrdPairs (fun s s' => bempty s \/ bempty s' \/ bbefore s s') ss.

Fixpoint check_sets (ss : list B) (r : B) : option B :=
  match ss with
  | [] => Some r
  | s :: ss =>
      let! _ := assert (b_isincluded s r) in
      let! _ := assert (b_iszero s || (b_first s =? b_first r)) in
      check_sets ss (b_andnot r s)
  end.

Lemma first_same s r : ~ bempty s -> bsub s r ->
  b_first s = b_first r <-> forall j, 0 <= j -> bm r j = true -> exists f, 0 <= f <= j /\ bm s f = true.
Proof.
  intros Hne Hsub. destruct (b_first_spec s) as [[_ Hnone]|(Hf & Hs & Hlow)]; [by destruct Hne; intros i Hi; apply Hnone|].
  destruct (b_first_spec r) as [[_ Hnone]|(Hfr & Hr & Hlowr)].
  { specialize (Hsub _ Hf Hs). by rewrite Hnone in Hsub. }
  split.
  - intros Heq j Hj Hm. exists (b_first s). split; [|done]. split; [done|].
    destruct (Z.le_gt_cases (b_first s) j) as [|Hlt]; [done|]. by rewrite Hlowr in Hm by lia.
  - intros Hall. destruct (Hall _ Hfr Hr) as (f & Hle & Hsf).
    assert (b_first r <= b_first s) by (destruct (Z.le_gt_cases (b_first r) (b_first s)); [done|];
      specialize (Hsub _ Hf Hs); by rewrite Hlowr in Hsub by lia).
    assert (b_first s <= f) by (destruct (Z.le_gt_cases (b_first s) f); [done|]; by rewrite Hlow in Hsf by lia). lia.
Qed.

Lemma check_sets_ok ss r :
  Forall (fun s => bfin s = true /\ bsub s r) ss -> ForallOrdPairs bdisj ss ->
  (exists r', check_sets ss r = Some r' /\ b_iszero r' = true) <-> covering r ss /\ in_order ss.
Proof.
  revert r. induction ss as [|s ss IH]; intros r Hss Hdis; cbn [check_sets].
  - split.
    + intros (r' & [= <-] & Hz). apply b_iszero_spec in Hz. split; [|constructor]. intros i Hi Hm. by rewrite Hz in Hm.
    + intros [Hc _]. exists r. split; [done|]. apply b_iszero_spec. intros i Hi. apply not_true_iff_false. intros Hm.
      destruct (Hc i Hi Hm) as (s & Hs & _). by apply not_elem_of_nil in Hs.
  - apply Forall_cons in Hss as [[Hfin Hsub] Hss]. inversion Hdis as [|? ? Hds Hdis']; subst.
    assert (b_isincluded s r = true) as -> by by apply b_isincluded_spec. cbn [assert mbind option_bind].
    specialize (IH (b_andnot r s)).
    assert (Forall (fun s' => bfin s' = true /\ bsub s' (b_andnot r s)) ss) as Hss'.
    { rewrite Forall_forall in Hss, Hds |- *. intros s' Hs'. destruct (Hss s' Hs') as [? Hsub']. split; [done|].
      intros i Hi Hm. rewrite bm_andnot by done. rewrite Hsub' by done. apply negb_true_iff, not_true_iff_false.
      intros Hms. by apply (Hds s' Hs' i). }
    specialize (IH Hss' Hdis').
    assert (covering r (s :: ss) <-> covering (b_andnot r s) ss) as Hcov.
    { split; intros Hc i Hi Hm.
      - rewrite bm_andnot in Hm by done. apply andb_true_iff in Hm as [Hm Hns]. apply negb_true_iff in Hns.
        destruct (Hc i Hi Hm) as (s' & [->|Hs']%elem_of_cons & Hm'); [congruence|]. by exists s'.
      - destruct (bm s i) eqn:Hms; [exists s; by split; [left|]|]. destruct (Hc i Hi) as (s' & Hs' & Hm').
        + rewrite bm_andnot by done. by rewrite Hm, Hms.
        + exists s'. by split; [right|]. }
    destruct (b_iszero s) eqn:Hz.
    + apply b_iszero_spec in Hz. cbn [orb assert mbind option_bind]. rewrite IH, Hcov. split; intros [Hc Ho]; (split; [done|]).
      * constructor; [|done]. apply Forall_forall. intros; by left.
      * by inversion Ho.
    + assert (~ bempty s) as Hne by (rewrite <- b_iszero_spec; congruence). cbn [orb].
      destruct (Z.eqb_spec (b_first s) (b_first r)) as [Heq|Hneq].
      * cbn [assert mbind option_bind]. rewrite IH, Hcov. split; intros [Hc Ho]; (split; [done|]); [|by inversion Ho].
        constructor; [|done]. pose proof (proj1 (first_same s r Hne Hsub) Heq) as Hlt. rewrite Forall_forall in Hss.
        apply Forall_forall. intros s' Hs'. destruct (Hss s' Hs') as [_ Hsub'].
        destruct (b_iszero s') eqn:Hz'; [right; left; by apply b_iszero_spec|]. right. right.
        destruct (b_first_spec s) as [[_ Hnone]|(Hf & Hs & Hlow)]; [by destruct Hne; intros i Hi; apply Hnone|].
        exists (b_first s). split; [done|]. split; [done|]. intros j Hj. apply not_true_iff_false. intros Hm.
        destruct (Hlt j ltac:(lia) (Hsub' j ltac:(lia) Hm)) as (f & Hle & Hsf).
        assert (f = b_first s) as -> by (destruct (Z.le_gt_cases (b_first s) f); [lia|]; by rewrite Hlow in Hsf by lia).
        rewrite Forall_forall in Hds. assert (j = b_first s) as -> by lia. by apply (Hds s' Hs' (b_first s)).
      * cbn [assert mbind option_bind]. split; [by intros (? & ? & _)|]. intros [Hc Ho]. exfalso. apply Hneq.
        apply (proj2 (first_same s r Hne Hsub)). intros j Hj Hm. destruct (Hc j Hj Hm) as (s' & [->|Hs']%elem_of_cons & Hm').
        { exists j. split; [lia|done]. }
        inversion Ho as [|? ? Hso _]; subst. rewrite Forall_forall in Hso. destruct (Hso s' Hs') as [|[He|(i & Hi & Hsi & Hlow)]]; [done| |].
        { by rewrite He in Hm'. }
        exists i. split; [|done]. split; [done|]. destruct (Z.le_gt_cases i j); [done|]. by rewrite Hlow in Hm' by lia.
Qed.

End Parts.

(** ** Reading a connected topology *)

Section Topology.
Context {B : Type} `{Cpuset B}.
Implicit Types n t : obj_tree B.

Lemma normal_nodes t : Forall normal (tree_objs t) -> level_nodes t = tree_nodes t.
Proof.
  induction t as [o ch IH] using obj_tree_ind'. rewrite tree_objs_node. intros [[Hio Hm] Hch]%Forall_cons.
  cbn [level_nodes tree_nodes]. unfold not_io in Hio. rewrite Hio, bool_decide_false by done. cbn [app]. f_equal.
  apply concat_map_ext. clear Hio Hm. induction IH as [|c ch Hc _ IHch]; [constructor|].
  rewrite forest_objs_cons in Hch. apply Forall_app in Hch as [H1 H2]. constructor; auto.
Qed.

(** What loading gives (see Discover.v); the number of objects fits in an unsigned. *)
Record loaded (root : obj_tree B) (tl : topology_levels (B := B)) : Prop := {
  lo_distinct : distinct (tree_objs root);
  lo_connected : connected root tl;
  lo_hierarchy : hierarchy (topology_of root tl) root;
  lo_consultable : consultable (topology_of root tl);
  lo_nested : cpus_nested root;
  lo_normal : Forall normal (tree_objs root);
  lo_cpusets : Forall (fun o => is_Some (ocpuset o)) (tree_objs root);
  lo_size : Z.of_nat (tree_size root) < 2 ^ 32;
}.

Context (root : obj_tree B) (tl : topology_levels (B := B)) (Hl : loaded root tl).
Notation topo := (topology_of root tl).

Lemma node_inj n n' : n ∈ tree_nodes root -> n' ∈ tree_nodes root -> t_addr n = t_addr n' -> n = n'.
Proof.
  rewrite <- (normal_nodes root (lo_normal _ _ Hl)). intros Hn Hn'. apply (level_addr_inj root); [apply Hl|done|done].
Qed.

Lemma node_at_ok n : n ∈ tree_nodes root -> node_at root (t_addr n) = Some n.
Proof.
  intros Hn. unfold node_at. destruct (find _ _) as [n'|] eqn:Hf.
  - apply find_some in Hf as [Hin Heq]. apply list_elem_of_In in Hin. apply Z.eqb_eq in Heq. f_equal. by apply node_inj.
  - apply list_elem_of_In in Hn. pose proof (find_none _ _ Hf n Hn) as Hne. cbv beta in Hne. by rewrite Z.eqb_refl in Hne.
Qed.

Lemma node_link n : n ∈ tree_nodes root -> links_at topo (t_addr n) = Some (links (tlinks topo) (t_addr n)).
Proof.
  intros Hn. unfold links_at. rewrite bool_decide_true; [done|]. exists (t_obj n).
  apply (node_obj_at topo root (lo_hierarchy _ _ Hl)). done.
Qed.

Lemma child_in n c : n ∈ tree_nodes root -> c ∈ t_children n -> c ∈ tree_nodes root.
Proof. apply children_nodes. Qed.

Lemma children_nodup n : n ∈ tree_nodes root -> NoDup (map t_addr (t_children n)).
Proof.
  intros Hn. pose proof (node_objs n root Hn) as Hsub. pose proof (distinct_sublist _ _ Hsub (lo_distinct _ _ Hl)) as Hd.
  destruct n as [o ch]. unfold distinct in Hd. rewrite tree_objs_node in Hd. cbn [map t_children] in *.
  apply NoDup_cons in Hd as [_ Hd]. change t_addr with (fun t => o_addr (B := B) (t_obj t)).
  rewrite <- (map_map t_obj o_addr). eapply sublist_NoDup; [exact Hd|]. apply (fmap_sublist o_addr).
  clear. induction ch as [|c ch IH]; [done|]. rewrite forest_objs_cons. destruct c as [oc cc]. rewrite tree_objs_node.
  cbn [map t_obj app]. apply sublist_skip. by apply sublist_inserts_l.
Qed.

Lemma tree_next_ok n i a : n ∈ tree_nodes root -> map t_addr (t_children n) !! i = Some a ->
  tree_next root a = map t_addr (t_children n) !! S i.
Proof.
  intros Hn Hi. unfold tree_next. rewrite (head_omap_unique _ _ n Hn).
  - apply after_lookup; [by apply children_nodup|done].
  - intros n' Hn' [b Hb%after_in]. apply node_inj; [done|done|].
    apply list_elem_of_lookup in Hb as [j Hj].
    destruct (h_links _ _ (lo_hierarchy _ _ Hl) n Hn) as (_ & _ & _ & H1).
    destruct (h_links _ _ (lo_hierarchy _ _ Hl) n' Hn') as (_ & _ & _ & H2).
    destruct (H1 i a Hi) as (P1 & _). destruct (H2 j a Hj) as (P2 & _). congruence.
Qed.

(** The cpusets of the children. *)
Definition child_sets n : list B := map (fun c => cs (t_obj c)) (t_children n).

Lemma node_cpuset n : n ∈ tree_nodes root -> ocpuset (t_obj n) = Some (cs (t_obj n)).
Proof.
  intros Hn. pose proof (lo_cpusets _ _ Hl) as Hs. rewrite Forall_forall in Hs.
  destruct (Hs (t_obj n)) as [s Hs']; [by apply node_obj_in|]. unfold cs. by rewrite Hs'.
Qed.

Lemma check_cpusets_ok cs0 r : Forall (fun c => c ∈ tree_nodes root) cs0 ->
  check_cpusets topo (map t_addr cs0) r = check_sets (map (fun c => cs (t_obj c)) cs0) r.
Proof.
  intros Hcs. revert r. induction Hcs as [|c cs0 Hc _ IH]; intros r; [done|]. cbn [map check_cpusets check_sets].
  rewrite (node_obj_at topo root (lo_hierarchy _ _ Hl)) by done. cbn [mbind option_bind]. rewrite node_cpuset by done.
  destruct (assert _) as [[]|]; [|done]. cbn [mbind option_bind]. destruct (assert _) as [[]|]; [|done].
  cbn [mbind option_bind]. apply IH.
Qed.

Lemma child_links n i a : n ∈ tree_nodes root -> map t_addr (t_children n) !! i = Some a ->
  exists k, links_at topo a = Some k /\ parent k = Some (t_addr n) /\ sibling_rank k = Z.of_nat i /\
    prev_sibling k = (if decide (i = 0%nat) then None else map t_addr (t_children n) !! (i - 1)%nat).
Proof.
  intros Hn Hi. destruct (h_links _ _ (lo_hierarchy _ _ Hl) n Hn) as (_ & _ & _ & Hk).
  exists (links (tlinks topo) a). split; [|by apply Hk]. rewrite map_lookup in Hi.
  destruct (t_children n !! i) as [c|] eqn:Hc; [|done]. injection Hi as <-. apply node_link.
  apply (child_in n); [exact Hn|by eapply list_elem_of_lookup_2].
Qed.

Lemma check_siblings_ok n i prev : n ∈ tree_nodes root -> map t_addr (t_children n) !! i = Some prev ->
  check_siblings topo root (Z.of_nat i + 1) prev (drop (S i) (map t_addr (t_children n))) = Some tt.
Proof.
  intros Hn. remember (drop (S i) (map t_addr (t_children n))) as cs0 eqn:Hcs. revert i prev Hcs.
  induction cs0 as [|c cs0 IH]; intros i prev Hcs Hi; [done|]. cbn [check_siblings].
  assert (map t_addr (t_children n) !! S i = Some c) as Hc.
  { rewrite <- (Nat.add_0_r (S i)), <- lookup_drop, <- Hcs. done. }
  destruct (child_links n (S i) c Hn Hc) as (k & -> & _ & Hr & Hp). cbn [mbind option_bind].
  rewrite Hr, Hp, (tree_next_ok n i prev Hn Hi), Hc. cbn [Nat.sub]. rewrite Nat.sub_0_r, Hi.
  rewrite !bool_decide_true by done. replace (Z.of_nat (S i) =? Z.of_nat i + 1) with true by (symmetry; apply Z.eqb_eq; lia).
  cbn [assert mbind option_bind]. replace (Z.of_nat i + 1 + 1) with (Z.of_nat (S i) + 1) by lia. apply IH; [|done].
  symmetry. change (drop (S (S i)) (map t_addr (t_children n))) with (drop (1 + S i) (map t_addr (t_children n))).
  rewrite Nat.add_comm, <- drop_drop, <- Hcs. done.
Qed.

Lemma children_few n : n ∈ tree_nodes root -> Z.of_nat (length (t_children n)) < 2 ^ 32.
Proof.
  intros Hn. pose proof (lo_size _ _ Hl) as Hs. pose proof (sublist_length _ _ (node_objs n root Hn)) as Hle.
  rewrite (objs_size root) in Hle. destruct n as [o ch]. rewrite objs_size, tree_size_node in Hle. cbn [t_children].
  assert (length ch <= forest_size ch)%nat.
  { clear. induction ch as [|c ch IH]; [done|]. rewrite forest_size_cons. pose proof (tree_size_pos c). simpl. lia. }
  lia.
Qed.

(** The children of an object pass when their cpusets share out its own, in order. *)
Definition shared_out n : Prop := t_children n <> [] -> covering (cs (t_obj n)) (child_sets n) /\ in_order (child_sets n).

Lemma child_sets_nested n : n ∈ tree_nodes root ->
  Forall (fun s => bfin s = true /\ bsub s (cs (t_obj n))) (child_sets n) /\ ForallOrdPairs bdisj (child_sets n).
Proof.
  intros Hn. assert (cpus_nested n) as Hw.
  { pose proof (lo_nested _ _ Hl) as Hr. pose proof (lo_cpusets _ _ Hl) as Hs. clear -Hn Hr Hs.
    induction root as [o ch IH] using obj_tree_ind'. rewrite tree_nodes_node in Hn.
    apply elem_of_cons in Hn as [->|Hn]; [done|]. unfold forest_nodes in Hn.
    apply list_elem_of_In, in_concat in Hn as (l & (c & <- & Hc)%in_map_iff & Hn). apply list_elem_of_In in Hc, Hn.
    rewrite Forall_forall in IH. rewrite Forall_forall in Hs.
    assert (forall p, p ∈ tree_objs c -> p ∈ tree_objs (Node o ch)) as Hin.
    { intros p Hp. rewrite tree_objs_node. right. apply elem_of_forest_objs. by exists c. }
    apply (IH c Hc Hn); [|apply Forall_forall; auto].
    destruct (nested_child _ _ _ Hr Hc) as [Hcl|(s & _ & _ & _ & Hwc)]; [|done].
    apply cpuless_head in Hcl. destruct (Hs (t_obj c)) as [? ?]; [|congruence].
    apply Hin. destruct c. by left. }
  destruct n as [o ch]. split.
  - unfold child_sets. cbn [t_children t_obj]. rewrite List.Forall_map. apply Forall_forall. intros c Hc.
    destruct (nested_child _ _ _ Hw Hc) as [Hcl|(s & Hs & Hfin & Hsub & _)].
    + apply cpuless_head in Hcl. pose proof (node_cpuset c (child_in _ c Hn Hc)). congruence.
    + unfold cs at 1 2. by rewrite Hs.
  - apply cpus_nested_inv in Hw as [_ Hp]. unfold child_sets. cbn [t_children].
    clear -Hp. induction Hp as [|c ch Hc _ IH]; constructor; [by apply List.Forall_map|done].
Qed.

(** The links of an object with children: those of the first, of the last, the array. *)
Lemma parts_linked n c0 ch : n ∈ tree_nodes root -> t_children n = c0 :: ch ->
  let addrs := map t_addr (t_children n) in
  exists l kf kl, last addrs = Some l /\ addrs !! length ch = Some l /\
    links_at topo (t_addr c0) = Some kf /\ sibling_rank kf = 0 /\ prev_sibling kf = None /\
    links_at topo l = Some kl /\ sibling_rank kl = Z.of_nat (length ch) /\ tree_next root l = None.
Proof.
  intros Hn Hch addrs. assert (length addrs = S (length ch)) as Hlen by (unfold addrs; by rewrite length_map, Hch).
  destruct (lookup_lt_is_Some_2 addrs (length ch) ltac:(lia)) as [l Hl'].
  destruct (child_links n 0 (t_addr c0) Hn) as (kf & Hkf & _ & Hr & Hp); [by rewrite Hch|].
  destruct (child_links n _ l Hn Hl') as (kl & Hkl & _ & Hrl & _).
  exists l, kf, kl. split; [rewrite last_lookup, Hlen; done|]. do 5 (split; [done|]).
  split; [done|]. rewrite (tree_next_ok n _ l Hn Hl'). apply lookup_ge_None. fold addrs. lia.
Qed.

Lemma array_prefix_all l : array_prefix (Z.of_nat (length l)) l = Some l.
Proof.
  unfold array_prefix. replace (_ <=? _) with true by (symmetry; apply Z.leb_le; lia).
  cbn [mbind option_bind]. by rewrite Nat2Z.id, firstn_all.
Qed.

Lemma check_children_ok n : n ∈ tree_nodes root -> hwloc__check_children topo root n = Some tt <-> shared_out n.
Proof.
  intros Hn. unfold hwloc__check_children, shared_out. rewrite node_link by done. cbn [mbind option_bind].
  destruct (h_links _ _ (lo_hierarchy _ _ Hl) n Hn) as (Ha & Hc & Hlast & _). rewrite Hc, Hlast, Ha.
  pose proof (children_few n Hn) as Hfew. destruct (t_children n) as [|c0 ch] eqn:Hch.
  { split; [intros _ Hne; by destruct Hne|done]. }
  destruct (parts_linked n c0 ch Hn Hch) as (l & kf & kl & Hlst & Hll & Hkf & Hrf & Hpf & Hkl & Hrl & Hnl).
  rewrite Hch in Hlst, Hll. rewrite Hlst.
  replace (Z.of_nat (length (c0 :: ch))) with (Z.of_nat (length (map t_addr (c0 :: ch)))) by by rewrite length_map.
  rewrite array_prefix_all. rewrite length_map.
  destruct (Z.eqb_spec (Z.of_nat (length (c0 :: ch))) 0) as [Hz|_]; [simpl in Hz; lia|].
  assert (u32 (Z.of_nat (length (c0 :: ch)) - 1) = Z.of_nat (length ch)) as Hu.
  { unfold u32. cbn [length] in *. rewrite Z.mod_small; lia. }
  rewrite bool_decide_false by done. cbn [negb assert head fmap option_fmap option_map mbind option_bind].
  rewrite Hu, Nat2Z.id, Hll.
  rewrite Hkf, Hkl. cbn [mbind option_bind]. rewrite Hrf, Hpf, Hrl, Hnl, Z.eqb_refl, !bool_decide_true by done.
  cbn [Z.eqb assert mbind option_bind]. rewrite node_cpuset by done.
  rewrite <- Hch.
  rewrite check_cpusets_ok by (apply Forall_forall; intros c Hc'; by apply (child_in n)). fold (child_sets n).
  destruct (child_sets_nested n Hn) as [Hsub Hdis]. rewrite <- (check_sets_ok _ _ Hsub Hdis), bind_ok.
  assert (check_siblings topo root 1 (t_addr c0) (tail (map t_addr (t_children n))) = Some tt) as ->.
  { rewrite <- (check_siblings_ok n 0 (t_addr c0) Hn) by by rewrite Hch. by rewrite Hch. }
  destruct (check_sets (child_sets n) (cs (t_obj n))) as [r|]; cbn [mbind option_bind].
  - rewrite assert_ok. split; [intros [Hz _] _; by exists r|].
    intros Hall. destruct Hall as (r' & [= <-] & Hz); [by rewrite Hch|done].
  - split; [by intros [? _]|]. intros Hall. destruct Hall as (r' & ? & _); [by rewrite Hch|done].
Qed.

End Topology.

(** ** Depths *)

Section Depths.
Context {B : Type} `{Cpuset B}.
Implicit Types n c t : obj_tree B.
Context (root : obj_tree B) (tl : topology_levels (B := B)) (Hl : loaded root tl).
Notation topo := (topology_of root tl).
Notation lv := (Levels.levels (tl_levels tl)).
Notation st := (tlinks topo).

Lemma level_of_node n : n ∈ tree_nodes root ->
  exists d l i, lv !! d = Some l /\ l !! i = Some n /\ depth (links st (t_addr n)) = Z.of_nat d.
Proof.
  pose proof (lo_connected _ _ Hl) as Hc. rewrite <- (normal_nodes root (lo_normal _ _ Hl)). intros Hn.
  rewrite <- (part_perm _ _ _ (con_levels _ _ Hc)), app_nil_r in Hn.
  apply list_elem_of_In, in_concat in Hn as (l & Hlv & Hn). apply list_elem_of_In, list_elem_of_lookup in Hlv as [d Hd].
  apply list_elem_of_In, list_elem_of_lookup in Hn as [i Hi]. exists d, l, i. split; [done|]. split; [done|].
  by destruct (con_links _ _ Hc d l Hd i n Hi) as [? _].
Qed.

Lemma level_node d l n : lv !! d = Some l -> n ∈ l -> n ∈ tree_nodes root.
Proof.
  intros Hd Hn. rewrite <- (normal_nodes root (lo_normal _ _ Hl)).
  eapply (partial_in root); [apply (con_levels _ _ (lo_connected _ _ Hl))|by eapply list_elem_of_lookup_2|done].
Qed.

Lemma child_deeper n c : n ∈ tree_nodes root -> c ∈ t_children n ->
  depth (links st (t_addr n)) < depth (links st (t_addr c)).
Proof.
  intros Hn Hc. pose proof (lo_connected _ _ Hl) as Hcon.
  destruct (level_of_node n Hn) as (d & l & i & Hd & Hi & ->).
  destruct (part_below _ _ _ (con_levels _ _ Hcon) d l n c Hd) as [Hin|(d' & l' & Hlt & Hd' & Hin)].
  - by eapply list_elem_of_lookup_2.
  - apply list_elem_of_In, in_concat. exists (level_nodes c). split; [by apply in_map, list_elem_of_In|].
    apply list_elem_of_In. rewrite level_nodes_root; [by left|]. apply normal_placed.
    pose proof (lo_normal _ _ Hl) as Hnorm. rewrite Forall_forall in Hnorm |- *. intros o Ho. apply Hnorm.
    eapply elem_of_sublist; [exact Ho|]. apply node_objs. by apply (children_nodes root n).
  - by apply not_elem_of_nil in Hin.
  - apply list_elem_of_lookup in Hin as [j Hj]. pose proof (proj1 (con_links _ _ Hcon d' l' Hd' j c Hj)) as Hdc. cbn [tlinks topology_of]. rewrite Hdc. lia.
Qed.

Lemma node_normal n : n ∈ tree_nodes root -> not_io (t_obj n) /\ t_type n <> HWLOC_OBJ_MISC.
Proof.
  intros Hn. pose proof (lo_normal _ _ Hl) as Hnorm. rewrite Forall_forall in Hnorm. apply Hnorm. by apply node_obj_in.
Qed.

Lemma check_children_depth_ok n : n ∈ tree_nodes root -> hwloc__check_children_depth topo n = Some tt.
Proof.
  induction n as [o ch IH] using obj_tree_ind'. intros Hn. cbn [hwloc__check_children_depth].
  rewrite (node_link root tl Hl (Node o ch) Hn : links_at topo (o_addr o) = _). cbn [mbind option_bind].
  change (t_addr (Node o ch)) with (o_addr o).
  match goal with |- ?f ch = Some tt =>
    enough (Hgen : forall xs, (forall c, c ∈ xs -> c ∈ ch) -> f xs = Some tt) by by apply Hgen end.
  induction xs as [|c xs IHxs]; intros Hxs; [done|].
  assert (Hc : c ∈ ch) by (apply Hxs; left). assert (Hcn : c ∈ tree_nodes root) by by apply (child_in root (Node o ch)).
  rewrite (node_link root tl Hl c Hcn). cbn [mbind option_bind]. destruct (node_normal c Hcn) as [Hio Hm].
  rewrite Forall_forall in IH. rewrite (IH c Hc Hcn).
  assert (Hdeep := child_deeper (Node o ch) c Hn Hc). cbn [t_addr t_obj] in Hdeep.
  assert (parent (links st (t_addr c)) = Some (o_addr o)) as ->.
  { apply list_elem_of_lookup in Hc as [i Hi]. destruct (child_links root tl Hl (Node o ch) i (t_addr c) Hn) as (k & Hk & Hp & _).
    - cbn [t_children]. by rewrite map_lookup, Hi.
    - pose proof (node_link root tl Hl c Hcn) as Heq. rewrite Hk in Heq. apply (inj Some) in Heq. by rewrite <- Heq. }
  rewrite bool_decide_true by done. cbn [negb].
  assert (Hpass : (if negb (depth (links st (o_addr o)) =? u32 (-1))
    then assert (depth (links st (o_addr o)) <? depth (links st (t_addr c))) else Some tt) = Some tt).
  { destruct (negb _); [|done]. apply assert_ok. by apply Z.ltb_lt. }
  unfold not_io, t_type in *. destruct (o_type (t_obj c)); try done; rewrite Hpass; cbn [mbind option_bind];
    apply IHxs; intros c' Hc'; apply Hxs; by right.
Qed.

End Depths.
