(* ===== verification/CheckThms.v ===== *)
(** * CheckThms: which topologies pass [hwloc_topology_check] *)

From stdpp Require Import gmap.
From S2P Require Import Prelude Cpuset Obj ObjCmp Insert Clean CleanOk Levels LevelsOk LevelsLoop Connected Sets Traversal Loaded Helper HelperOk Shape Discover DiscoverOk DiscoverLoad CheckOk Check BitmapSpec Samples TravThms.

Section Levels.
Context {B : Type} `{Cpuset B}.
Implicit Types n c t : obj_tree B.
Context (root : obj_tree B) (tl : topology_levels (B := B)) (Hl : loaded root tl).
Notation topo := (topology_of root tl).
Notation lv := (Levels.levels (tl_levels tl)).

(** What the check asks of an object: its sets within the complete ones, the children sharing
    out its cpuset in order. *)
Definition passes n : Prop := sets_within (t_obj n) = true /\ shared_out n.

Lemma nb_levels_few : Z.of_nat (length lv) < 2 ^ 32.
Proof.
  pose proof (con_levels _ _ (lo_connected _ _ Hl)) as Hp. pose proof (lo_size _ _ Hl) as Hs.
  assert (forall l, l ∈ lv -> l <> []) as Hne.
  { intros l Hin ->. pose proof (part_homogeneous _ _ _ Hp) as Hh. rewrite Forall_forall in Hh. by destruct (Hh [] Hin). }
  pose proof (level_nodes_size [root]) as Hls. unfold forest_level_nodes in Hls. cbn [map concat] in Hls. rewrite app_nil_r in Hls.
  rewrite <- (part_perm _ _ _ Hp), app_nil_r in Hls. rewrite forest_size_cons in Hls. change (forest_size []) with 0%nat in Hls.
  enough (length lv <= length (concat lv))%nat by lia. clear -Hne. induction lv as [|l ls IH]; [done|]. cbn [concat length].
  rewrite length_app. assert (l <> []) by (apply Hne; left). destruct l; [done|]. cbn [length].
  assert (length ls <= length (concat ls))%nat; [|lia]. apply IH. intros l' Hl'. apply Hne. by right.
Qed.

Lemma level_of_array d l : lv !! d = Some l -> level_of topo (Z.of_nat d) = map t_addr l.
Proof.
  intros Hd. apply lookup_lt_Some in Hd as Hlt. unfold level_of, tnb_levels, level_at. cbn [tlevels topology_of].
  rewrite length_map. destruct (Z.leb_spec (Z.of_nat (length lv)) (Z.of_nat d)); [lia|].
  by rewrite Nat2Z.id, map_lookup, Hd.
Qed.

Lemma array_obj d l j n : lv !! d = Some l -> l !! j = Some n ->
  hwloc_get_obj_by_depth topo (Z.of_nat d) (Z.of_nat j) = Some (Some (t_addr n)).
Proof.
  intros Hd Hj. rewrite obj_by_depth by lia. by rewrite (level_of_array d l Hd), Nat2Z.id, map_lookup, Hj.
Qed.

Lemma level_links d l j n : lv !! d = Some l -> l !! j = Some n ->
  exists k, links_at topo (t_addr n) = Some k /\ depth k = Z.of_nat d /\ logical_index k = Z.of_nat j /\
    next_cousin k = t_addr <$> l !! S j /\ prev_cousin k = (if decide (j = 0%nat) then None else t_addr <$> l !! (j - 1)%nat).
Proof.
  intros Hd Hj. eexists. split; [|exact (con_links _ _ (lo_connected _ _ Hl) d l Hd j n Hj)].
  apply (node_link root tl Hl). eapply (level_node root tl Hl); [exact Hd|by eapply list_elem_of_lookup_2].
Qed.

Lemma array_read d l n : lv !! d = Some l -> n ∈ l -> obj_at topo (t_addr n) = Some (t_obj n) /\ n ∈ tree_nodes root.
Proof.
  intros Hd Hn. assert (n ∈ tree_nodes root) as Hin by by eapply (level_node root tl Hl).
  split; [|done]. by apply (node_obj_at topo root (lo_hierarchy _ _ Hl)).
Qed.

Lemma level_same d l n n' : lv !! d = Some l -> n ∈ l -> n' ∈ l -> level_kind n = level_kind n' /\
  hwloc_type_cmp (t_obj n) (t_obj n') = HWLOC_TYPE_EQUAL.
Proof.
  intros Hd Hn Hn'. pose proof (part_homogeneous _ _ _ (con_levels _ _ (lo_connected _ _ Hl))) as Hh.
  rewrite Forall_forall in Hh. destruct (Hh l) as [_ Hk]; [by eapply list_elem_of_lookup_2|].
  split; [by apply Hk|].
  assert (forall u, u ∈ l -> placed u) as Hp.
  { intros u Hu. apply (level_nodes_in root (lo_distinct _ _ Hl) root). rewrite (normal_nodes root (lo_normal _ _ Hl)).
    by eapply (level_node root tl Hl). }
  pose proof (proj2 (same_type_kind n n' (Hp n Hn) (Hp n' Hn')) (Hk n n' Hn Hn')) as Hs.
  unfold same_type in Hs. by apply bool_decide_eq_true in Hs.
Qed.

Lemma check_objects_ok d l m j : lv !! d = Some l -> (m + j)%nat = length l ->
  check_objects topo root m (Z.of_nat d) (Z.of_nat j) (if decide (j = 0%nat) then None else t_addr <$> l !! (j - 1)%nat)
    = Some tt <-> Forall passes (drop j l).
Proof.
  intros Hd. revert j. induction m as [|m IH]; intros j Hm; cbn [check_objects].
  { rewrite drop_ge by lia. done. }
  destruct (lookup_lt_is_Some_2 l j ltac:(lia)) as [n Hj]. rewrite (array_obj d l j n Hd Hj). cbn [mbind option_bind].
  assert (n ∈ l) as Hn by by eapply list_elem_of_lookup_2. destruct (array_read d l n Hd Hn) as [Ho Hin]. rewrite Ho.
  destruct (level_links d l j n Hd Hj) as (k & -> & Hdk & Hik & Hnext & Hprev). cbn [mbind option_bind].
  rewrite Hdk, Hik, !Z.eqb_refl. cbn [assert mbind option_bind].
  assert (forall R (r : option R), (let! _ := match (if decide (j = 0%nat) then None else t_addr <$> l !! (j - 1)%nat) with
                | Some b =>
                    let! ob := obj_at topo b in
                    let! kb := links_at topo b in
                    let! _ := assert (bool_decide (hwloc_type_cmp (t_obj n) ob = HWLOC_TYPE_EQUAL)) in
                    let! _ := assert (bool_decide (next_cousin kb = Some (t_addr n))) in
                    assert (bool_decide (prev_cousin k = Some b))
                | None => Some tt
                end in r) = r) as ->.
  { intros R r. rewrite Hprev. destruct (decide (j = 0%nat)) as [|Hj0]; [done|].
    destruct (lookup_lt_is_Some_2 l (j - 1) ltac:(lia)) as [b Hb]. rewrite Hb. cbn [fmap option_fmap option_map].
    assert (b ∈ l) as Hbin by by eapply list_elem_of_lookup_2. destruct (array_read d l b Hd Hbin) as [-> _].
    destruct (level_links d l _ b Hd Hb) as (kb & -> & _ & _ & Hnb & _). cbn [mbind option_bind]. rewrite Hnb.
    destruct (level_same d l n b Hd Hn Hbin) as [_ ->]. replace (S (j - 1)) with j by lia. rewrite Hj.
    by rewrite !bool_decide_true. }
  rewrite bind_ok, assert_ok, (node_at_ok root tl Hl) by done. cbn [mbind option_bind].
  rewrite bind_ok, (check_children_ok root tl Hl n Hin).
  specialize (IH (S j)). cbn [decide] in IH. replace (Z.of_nat j + 1) with (Z.of_nat (S j)) by lia.
  rewrite (drop_S l n j Hj), Forall_cons. unfold passes at 1. rewrite <- (and_assoc (sets_within _ = _)).
  rewrite <- IH by lia. rewrite decide_False by lia. replace (S j - 1)%nat with j by lia. by rewrite Hj.
Qed.

Lemma level_depth_type d l n : lv !! d = Some l -> n ∈ l ->
  hwloc_get_depth_type topo (Z.of_nat d) = Some (Some (t_type n)).
Proof.
  intros Hd Hn. apply lookup_lt_Some in Hd as Hlt. unfold hwloc_get_depth_type, tnb_levels, level_at. cbn [tlevels topology_of].
  rewrite length_map, Nat2Z.id, map_lookup, Hd. destruct (Z.leb_spec (Z.of_nat (length lv)) (Z.of_nat d)); [lia|].
  cbn [fmap option_fmap option_map mbind option_bind]. destruct l as [|n0 l]; [by apply not_elem_of_nil in Hn|].
  cbn [map head mbind option_bind]. destruct (array_read d _ n0 Hd) as [-> _]; [left|]. cbn [mbind option_bind].
  destruct (level_same d _ n0 n Hd) as [Hk _]; [left|done|]. unfold level_kind in Hk. apply (f_equal fst) in Hk.
  cbn [fst] in Hk. by rewrite <- Hk.
Qed.

Lemma depths_from_in i d ty (ls : list (list (obj_tree B))) l : ls !! d = Some l -> level_is ty l = true -> (i + Z.of_nat d) ∈ depths_from i ty ls.
Proof.
  revert i d. induction ls as [|l' ls IH]; intros i d; [done|]. destruct d as [|d]; cbn [lookup list_lookup depths_from].
  - intros [= ->] ->. rewrite Z.add_0_r. left.
  - intros Hd Hty. apply elem_of_app. right. replace (i + Z.of_nat (S d)) with (i + 1 + Z.of_nat d) by lia. by apply IH.
Qed.

Lemma level_type_depth d l n : lv !! d = Some l -> n ∈ l ->
  hwloc_get_type_depth topo (t_type n) = Z.of_nat d \/ hwloc_get_type_depth topo (t_type n) = HWLOC_TYPE_DEPTH_MULTIPLE.
Proof.
  intros Hd Hn. unfold hwloc_get_type_depth. cbn [ttype_depth topology_of]. rewrite (con_types _ _ (lo_connected _ _ Hl)).
  destruct (array_read d l n Hd Hn) as [_ Hin]. destruct (node_normal root tl Hl n Hin) as [Hio _].
  assert (io_depth (t_type n) = None) as ->. { unfold not_io, t_type in *. by destruct (o_type (t_obj n)). }
  cbn [default]. assert (level_is (t_type n) l = true) as Hty.
  { destruct l as [|n0 l]; [by apply not_elem_of_nil in Hn|]. cbn [level_is]. apply bool_decide_eq_true.
    destruct (level_same d _ n0 n Hd) as [Hk _]; [left|done|]. unfold level_kind in Hk. by apply (f_equal fst) in Hk. }
  pose proof (depths_from_in 0 d (t_type n) lv l Hd Hty) as Hdep. unfold type_depth_spec.
  destruct (depths_from 0 (t_type n) lv) as [|x [|y ds]]; [by apply not_elem_of_nil in Hdep| |by right].
  apply list_elem_of_singleton in Hdep. left. lia.
Qed.

Lemma level_no_obj d l : lv !! d = Some l -> hwloc_get_obj_by_depth topo (Z.of_nat d) (Z.of_nat (length l)) = Some None.
Proof.
  intros Hd. rewrite obj_by_depth by lia. rewrite (level_of_array d l Hd), Nat2Z.id. f_equal. apply lookup_ge_None.
  by rewrite length_map.
Qed.

Lemma level_not_nil d l : lv !! d = Some l -> (0 < length l)%nat /\ Z.of_nat (length l) < 2 ^ 32.
Proof.
  intros Hd. pose proof (con_levels _ _ (lo_connected _ _ Hl)) as Hp. split.
  - pose proof (part_homogeneous _ _ _ Hp) as Hh. rewrite Forall_forall in Hh.
    destruct (Hh l) as [Hne _]; [by eapply list_elem_of_lookup_2|]. destruct l; [done|]. simpl. lia.
  - pose proof (part_order _ _ _ Hp) as Ho. rewrite Forall_forall in Ho.
    pose proof (sublist_length _ _ (Ho l (list_elem_of_lookup_2 _ _ _ Hd))) as Hle.
    pose proof (level_nodes_size [root]) as Hls. unfold forest_level_nodes in Hls. cbn [map concat] in Hls.
    rewrite app_nil_r, forest_size_cons in Hls. change (forest_size []) with 0%nat in Hls.
    pose proof (lo_size _ _ Hl). lia.
Qed.

Lemma check_level_ok d l : lv !! d = Some l -> check_level topo root (Z.of_nat d) = Some tt <-> Forall passes l.
Proof.
  intros Hd. unfold check_level. rewrite nbobjs_by_depth, (level_of_array d l Hd), length_map by lia.
  cbn [mbind option_bind]. rewrite Nat2Z.id.
  rewrite bind_ok, (check_objects_ok d l (length l) 0 Hd) by lia. rewrite drop_0.
  destruct (level_not_nil d l Hd) as [Hpos Hfew]. destruct (lookup_lt_is_Some_2 l 0 Hpos) as [n0 Hn0].
  destruct (lookup_lt_is_Some_2 l (length l - 1) ltac:(lia)) as [n1 Hn1].
  assert (n0 ∈ l) as Hin0 by by eapply list_elem_of_lookup_2.
  assert (u32 (Z.of_nat (length l) - 1) = Z.of_nat (length l - 1)) as -> by (unfold u32; rewrite Z.mod_small; lia).
  rewrite (array_obj d l 0 n0 Hd Hn0 : hwloc_get_obj_by_depth topo _ 0 = _).
  rewrite (array_obj d l _ n1 Hd Hn1), (level_no_obj d l Hd). cbn [mbind option_bind].
  destruct (array_read d l n0 Hd Hin0) as [-> _]. cbn [mbind option_bind].
  destruct (level_links d l _ n0 Hd Hn0) as (k0 & -> & _ & _ & _ & Hp). destruct (level_links d l _ n1 Hd Hn1) as (k1 & -> & _ & _ & Hn & _).
  cbn [mbind option_bind]. rewrite Hp, Hn, (level_depth_type d l n0 Hd Hin0). cbn [decide mbind option_bind].
  rewrite (lookup_ge_None_2 l (S (length l - 1))) by lia. rewrite !bool_decide_true by done. cbn [assert mbind option_bind].
  replace ((Z.of_nat d =? u32 (hwloc_get_type_depth topo (o_type (t_obj n0))))
    || (HWLOC_TYPE_DEPTH_MULTIPLE =? hwloc_get_type_depth topo (o_type (t_obj n0)))) with true; [tauto|]. symmetry.
  apply orb_true_iff. destruct (level_type_depth d l n0 Hd Hin0) as [E|E]; unfold t_type in E; rewrite E.
  - left. apply Z.eqb_eq. unfold u32. apply lookup_lt_Some in Hd. pose proof nb_levels_few. rewrite Z.mod_small; lia.
  - right. apply Z.eqb_refl.
Qed.

(** ** The whole check *)

Lemma is_pu_level_ok d l : lv !! d = Some l -> is_pu_level topo (Z.of_nat d) = Some (level_is HWLOC_OBJ_PU l).
Proof.
  intros Hd. unfold is_pu_level. destruct (level_not_nil d l Hd) as [Hpos _]. destruct l as [|n l]; [simpl in Hpos; lia|].
  rewrite (level_depth_type d _ n Hd) by left. cbn [mbind option_bind level_is]. f_equal. apply bool_decide_ext. split; [by intros [= ->]|by intros ->].
Qed.

Lemma pu_levels n : n ∈ tree_nodes root -> t_type n = HWLOC_OBJ_PU ->
  exists d l, lv !! d = Some l /\ n ∈ l /\ level_is HWLOC_OBJ_PU l = true.
Proof.
  intros Hn Ht. destruct (level_of_node root tl Hl n Hn) as (d & l & i & Hd & Hi & _).
  assert (n ∈ l) as Hin by by eapply list_elem_of_lookup_2. exists d, l. split; [done|]. split; [done|].
  destruct l as [|n0 l]; [by apply not_elem_of_nil in Hin|]. cbn [level_is]. apply bool_decide_eq_true.
  destruct (level_same d _ n0 n Hd) as [Hk _]; [left|done|]. unfold level_kind in Hk. apply (f_equal fst) in Hk.
  cbn [fst] in Hk. congruence.
Qed.

Lemma check_levels_ok :
  each (check_level topo root) (seqZ 0 (Z.of_nat (length lv))) = Some tt <-> Forall passes (tree_nodes root).
Proof.
  rewrite each_ok, !Forall_forall. split.
  - intros Hall n Hn. destruct (level_of_node root tl Hl n Hn) as (d & l & i & Hd & Hi & _).
    pose proof (lookup_lt_Some _ _ _ Hd). specialize (Hall (Z.of_nat d) ltac:(apply elem_of_seqZ; lia)).
    apply (check_level_ok d l Hd) in Hall. rewrite Forall_forall in Hall. apply Hall. by eapply list_elem_of_lookup_2.
  - intros Hall i Hi. apply elem_of_seqZ in Hi. destruct (lookup_lt_is_Some_2 lv (Z.to_nat i) ltac:(lia)) as [l Hd].
    replace i with (Z.of_nat (Z.to_nat i)) by lia. apply (check_level_ok _ l Hd), Forall_forall. intros n Hn.
    apply Hall. by eapply (level_node root tl Hl).
Qed.

Context (Hlast : forall d l, lv !! d = Some l -> level_is HWLOC_OBJ_PU l = true -> length lv = S d).

Lemma other_levels_ok last : (length lv - 1)%nat = last ->
  each (fun i => let! pu := is_pu_level topo i in assert (negb pu)) (seqZ 1 (Z.of_nat last - 1)) = Some tt.
Proof.
  intros Hlen. apply each_ok, Forall_forall. intros i Hi. apply elem_of_seqZ in Hi.
  destruct (lookup_lt_is_Some_2 lv (Z.to_nat i) ltac:(lia)) as [l Hd].
  replace i with (Z.of_nat (Z.to_nat i)) by lia. rewrite (is_pu_level_ok _ l Hd). cbn [mbind option_bind].
  destruct (level_is HWLOC_OBJ_PU l) eqn:Hpu; [|done]. pose proof (Hlast _ l Hd Hpu). lia.
Qed.

Lemma bottom_objects_ok d l : lv !! d = Some l -> level_is HWLOC_OBJ_PU l = true ->
  each (fun j => let! p := hwloc_get_obj_by_depth topo (Z.of_nat d) j in
                 let! a := p in
                 let! o := obj_at topo a in
                 assert (bool_decide (o_type o = HWLOC_OBJ_PU))) (seqZ 0 (Z.of_nat (length l))) = Some tt.
Proof.
  intros Hd Hpu. apply each_ok, Forall_forall. intros j Hj. apply elem_of_seqZ in Hj.
  destruct (lookup_lt_is_Some_2 l (Z.to_nat j) ltac:(lia)) as [n Hn]. replace j with (Z.of_nat (Z.to_nat j)) by lia.
  rewrite (array_obj d l _ n Hd Hn). cbn [mbind option_bind]. assert (n ∈ l) as Hin by by eapply list_elem_of_lookup_2.
  destruct (array_read d l n Hd Hin) as [-> _]. cbn [mbind option_bind].
  destruct l as [|n0 l]; [done|]. cbn [level_is] in Hpu. apply bool_decide_eq_true in Hpu.
  destruct (level_same d _ n0 n Hd) as [Hk _]; [left|done|]. unfold level_kind in Hk. apply (f_equal fst) in Hk.
  cbn [fst] in Hk. rewrite bool_decide_true; [done|]. unfold t_type in *. congruence.
Qed.

Lemma topology_check_ok : hwloc_topology_check topo root = Some tt <->
  (exists n, n ∈ tree_nodes root /\ t_type n = HWLOC_OBJ_PU) /\ Forall passes (tree_nodes root).
Proof.
  pose proof (con_root _ _ (lo_connected _ _ Hl)) as Hroot. pose proof nb_levels_few as Hfew.
  assert (lv !! 0%nat = Some [root]) as Hd0 by (destruct lv; [done|by injection Hroot as ->]).
  pose proof (lookup_lt_Some _ _ _ Hd0) as Hpos. destruct (lookup_lt_is_Some_2 lv (length lv - 1) ltac:(lia)) as [l Hd].
  unfold hwloc_topology_check, hwloc_topology_get_depth, tnb_levels. cbn [tlevels topology_of]. rewrite length_map.
  assert (check_type_orders = Some tt) as -> by reflexivity. cbn [mbind option_bind].
  assert (u32 (Z.of_nat (length lv) - 1) = Z.of_nat (length lv - 1)) as -> by (unfold u32; rewrite Z.mod_small; lia).
  rewrite (is_pu_level_ok _ l Hd), (other_levels_ok _ eq_refl). cbn [mbind option_bind].
  rewrite !nbobjs_by_depth by lia. rewrite (level_of_array _ l Hd), (level_of_array 0 _ Hd0 : level_of topo 0 = _), !length_map.
  cbn [length mbind option_bind]. rewrite (h_root _ _ (lo_hierarchy _ _ Hl)). cbn [mbind option_bind].
  destruct (level_is HWLOC_OBJ_PU l) eqn:Hpu; cbn [assert mbind option_bind].
  - change (Z.of_nat 1 =? 1) with true. cbn [assert mbind option_bind]. rewrite bind_ok, check_levels_ok.
    destruct (level_not_nil _ l Hd) as [Hne _]. replace (0 <? Z.of_nat (length l)) with true by (symmetry; apply Z.ltb_lt; lia).
    cbn [assert mbind option_bind]. rewrite (bottom_objects_ok _ l Hd Hpu). cbn [mbind option_bind].
    assert (root ∈ tree_nodes root) as Hr by (destruct root; left).
    destruct (level_links 0 [root] 0 root Hd0 eq_refl) as (k & -> & Hk & _). cbn [mbind option_bind]. rewrite Hk.
    cbn [Z.of_nat Z.eqb assert mbind option_bind]. rewrite (node_at_ok root tl Hl) by done. cbn [mbind option_bind].
    rewrite (check_children_depth_ok root tl Hl) by done.
    destruct l as [|n l]; [done|]. cbn [level_is] in Hpu. apply bool_decide_eq_true in Hpu.
    split; [intros [Hp _]; split; [|done]|intros [_ Hp]; done]. exists n. split; [|done].
    eapply (level_node root tl Hl); [exact Hd|left].
  - split; [done|]. intros [(n & Hn & Ht) _]. destruct (pu_levels n Hn Ht) as (d & l' & Hd' & _ & Hpu').
    pose proof (Hlast d l' Hd' Hpu'). assert (d = (length lv - 1)%nat) as -> by lia. congruence.
Qed.

End Levels.

Section Claim.
Context {B : Type} `{Cpuset B}.
Implicit Types n t : obj_tree B.

(** A hierarchy ready to be connected: objects of a tree that takes less than 2^32 of them, all with
    a cpuset, nested as the insertions and the removals leave them; PUs have no children. *)
Record checkable (root : obj_tree B) : Prop := {
  ck_distinct : distinct (tree_objs root);
  ck_normal : Forall normal (tree_objs root);
  ck_cpusets : Forall (fun o => is_Some (ocpuset o)) (tree_objs root);
  ck_nested : cpus_nested root;
  ck_pus : forall n, n ∈ tree_nodes root -> t_type n = HWLOC_OBJ_PU -> t_children n = [];
  ck_size : Z.of_nat (tree_size root) < 2 ^ 32;
}.

Lemma checkable_loaded root tl : checkable root ->
  hwloc_connect_levels root (hwloc_connect_children root ∅) = Some tl -> loaded root tl.
Proof.
  intros [Hd Hn Hc Hne Hpu Hsz] Htl. destruct (load_ok root tl (normal_placed root Hn) Hd Htl) as (Hcon & Hcs & Hh).
  by constructor.
Qed.

Lemma checkable_ended root : checkable root -> pus_ended root.
Proof.
  intros Hk. unfold pus_ended. apply Forall_forall. intros n Hin. split; [|by apply (ck_pus _ Hk)].
  apply normal_placed. pose proof (ck_normal _ Hk) as Hn. rewrite Forall_forall in Hn. apply Forall_forall. intros o Ho.
  apply Hn. eapply elem_of_sublist; [exact Ho|by apply node_objs].
Qed.

(** C12. [hwloc_topology_check] on a topology that has just been connected: of all its assertions,
    those on links, levels, depths and types always hold; it passes exactly when the hierarchy has a
    PU, the sets of every object lie in its complete sets, and the cpusets of the children of every
    object cover its own and come in the order of their first CPUs. *)
Theorem topology_check_decides root tl : checkable root ->
  hwloc_connect_levels root (hwloc_connect_children root ∅) = Some tl ->
  hwloc_topology_check (topology_of root tl) root = Some tt <->
  (exists n, n ∈ tree_nodes root /\ t_type n = HWLOC_OBJ_PU) /\
  Forall (fun n => sets_within (t_obj n) = true /\
    (t_children n <> [] -> covering (cs (t_obj n)) (child_sets n) /\ in_order (child_sets n))) (tree_nodes root).
Proof.
  intros Hk Htl. pose proof (checkable_loaded root tl Hk Htl) as Hl.
  rewrite (topology_check_ok root tl Hl); [done|]. eapply pu_level_last; [by apply checkable_ended|exact Htl].
Qed.

End Claim.

(** ** Witness *)

Definition pu_leaf (addr cpu : Z) : obj_tree wbitmap := Node (sample_obj addr HWLOC_OBJ_PU cpu (Some (cset [cpu]))) [].

(** Two NUMA nodes whose CPUs are interleaved. *)
Definition interleaved : obj_tree wbitmap :=
  Node (sample_obj 1 HWLOC_OBJ_MACHINE 0 (Some (cset [0; 1; 2; 3])))
    [numa_node 2 0 [0; 3] [pu_leaf 4 0; pu_leaf 5 3]; numa_node 3 1 [1; 2] [pu_leaf 6 1; pu_leaf 7 2]].

Lemma interleaved_checkable : checkable interleaved.
Proof.
  constructor.
  - apply (bool_decide_unpack _). by_eval.
  - repeat constructor; discriminate.
  - repeat constructor; by eexists.
  - apply nested_sample. by_eval.
  - intros n Hn. apply list_elem_of_In in Hn. cbn in Hn. intuition (subst; done).
  - by_eval.
Qed.

Lemma topology_check_decides_witness :
  exists tl, hwloc_connect_levels interleaved (hwloc_connect_children interleaved ∅) = Some tl /\
    covering (cset [0; 1; 2; 3]) [cset [0; 3]; cset [1; 2]] /\ in_order [cset [0; 3]; cset [1; 2]].
Proof.
  assert (Hc : match hwloc_connect_levels interleaved (hwloc_connect_children interleaved ∅) with
               | Some tl => hwloc_topology_check (topology_of interleaved tl) interleaved = Some tt | None => False end)
    by by_eval.
  destruct (hwloc_connect_levels _ _) as [tl|] eqn:Htl; [|destruct Hc]. exists tl. split; [done|].
  destruct (proj1 (topology_check_decides interleaved tl interleaved_checkable Htl) Hc) as [_ Hall].
  rewrite Forall_forall in Hall. exact (proj2 (Hall interleaved (list_elem_of_here _ _)) ltac:(discriminate)).
Defined.

(** Restricting can leave siblings out of the order that the check asks for: without CPU 0 the
    first CPU of the first node comes after those of the second one. *)
Lemma restricted_fails_check :
  match hwloc_connect_levels interleaved (hwloc_connect_children interleaved ∅),
        hwloc_topology_restrict interleaved (cset [1; 2; 3]) 0 with
  | Some tl, Some (Some (Kept root)) =>
      hwloc_topology_check (topology_of interleaved tl) interleaved = Some tt /\
      match connect root (links_of tl) with
      | Some tl => hwloc_topology_check (topology_of root tl) root = None
      | None => False
      end
  | _, _ => False
  end.
Proof. vm_compute. split; reflexivity. Qed.
