(* ===== verification/Float.v ===== *)
(** * Float: single precision numbers and their text

    A [float] is its 32 bits.  This is what the code uses of the C language and
    library: comparisons, [printf] of ["%f"], and [atof] whose double is stored in a
    float; both round to nearest, ties to even. *)

From Stdlib Require Import Ascii String.
From S2P Require Import Prelude CString Obj.

(** ** Bits and comparisons *)

Definition f_sign (x : Z) : bool := Z.testbit x 31.
Definition f_exponent (x : Z) : Z := Z.land (Z.shiftr x 23) 0xff.
Definition f_fraction (x : Z) : Z := Z.land x 0x7fffff.

(** A finite number is [f_mantissa x * 2 ^ f_scale x] and its sign. *)
Definition f_mantissa (x : Z) : Z := if f_exponent x =? 0 then f_fraction x else f_fraction x + 2 ^ 23.
Definition f_scale (x : Z) : Z := Z.max 1 (f_exponent x) - 150.

(** NaN is unordered, the zeros are equal. *)
Definition f_nan (x : Z) : bool := 0x7f800000 <? Z.land x 0x7fffffff.
Definition f_key (x : Z) : Z := if f_sign x then - Z.land x 0x7fffffff else Z.land x 0x7fffffff.
Definition f_lt (x y : Z) : bool := negb (f_nan x) && negb (f_nan y) && (f_key x <? f_key y).
(** [x] as a condition. *)
Definition f_nonzero (x : Z) : bool := negb (Z.land x 0x7fffffff =? 0).

(** The integer nearest to [n / d], an even one of two. *)
Definition round_div (n d : Z) : Z :=
  let q := n / d in
  let r := 2 * (n mod d) in
  if (d <? r) || ((r =? d) && Z.odd q) then q + 1 else q.

(** [x * base ^ e] as a fraction. *)
Definition scale_up (base x e : Z) : Z := if 0 <=? e then x * base ^ e else x.
Definition scale_down (base e : Z) : Z := if 0 <=? e then 1 else base ^ (- e).

(** ** Printing *)

(** ["%f"] *)
Definition fmt_f (x : Z) : chars :=
  (if f_sign x then txt "-" else []) ++
  if f_exponent x =? 255 then (if f_fraction x =? 0 then txt "inf" else txt "nan") else
  let millionths := round_div (scale_up 2 (f_mantissa x * 10 ^ 6) (f_scale x)) (scale_down 2 (f_scale x)) in
  let d := print_num 10 (millionths mod 10 ^ 6) in
  print_num 10 (millionths / 10 ^ 6) ++ txt "." ++ replicate (6 - length d) "0"%char ++ d.

(** ** Reading *)

(** The number of [p] bits, of the form [m * 2 ^ e] with [emin <= e], nearest to
    [n / d > 0]. *)
Definition round_bits (p emin n d : Z) : Z * Z :=
  let q := Z.log2 n - Z.log2 d in
  let q := if scale_up 2 d q <=? n * scale_down 2 q then q else q - 1 in
  let e := Z.max (q - (p - 1)) emin in
  (round_div (n * scale_down 2 e) (scale_up 2 d e), e).

(** The float nearest to [n / d], neither negative. *)
Definition round_float (n d : Z) : Z :=
  if n =? 0 then 0 else
  let '(m, e) := round_bits 24 (-149) n d in
  if 2 ^ 128 <=? scale_up 2 m e then 0x7f800000 else
  if m <? 2 ^ 23 then m else
  let '(m, e) := if m =? 2 ^ 24 then (2 ^ 23, e + 1) else (m, e) in
  (e + 150) * 2 ^ 23 + (m - 2 ^ 23).

(** The float nearest to the double nearest to [n / d]. *)
Definition float_of (n d : Z) : Z :=
  if n =? 0 then 0 else
  let '(m, e) := round_bits 53 (-1074) n d in
  if 2 ^ 1024 <=? scale_up 2 m e then 0x7f800000 else round_float (scale_up 2 m e) (scale_down 2 e).

(** ** Arithmetic *)

Definition f_eq (x y : Z) : bool := negb (f_nan x) && negb (f_nan y) && (f_key x =? f_key y).
Definition f_abs (x : Z) : Z := Z.land x 0x7fffffff.
Definition f_opp (x : Z) : Z := Z.lxor x 0x80000000.
Definition f_inf (x : Z) : bool := f_abs x =? 0x7f800000.
Definition f_signed (x : Z) : Z := if f_sign x then - f_mantissa x else f_mantissa x.
Definition f_with_sign (s : bool) (x : Z) : Z := if s then x + 0x80000000 else x.

(** Which NaN is not specified. *)
Definition NAN : Z := 0x7fc00000.
Definition FLT_MAX : Z := 0x7f7fffff.
Definition FLT_MIN : Z := 0x00800000.

Definition f_add (x y : Z) : Z :=
  if f_nan x || f_nan y then NAN else
  if f_inf x then (if f_inf y && negb (x =? y) then NAN else x) else
  if f_inf y then y else
  let e := Z.min (f_scale x) (f_scale y) in
  let n := f_signed x * 2 ^ (f_scale x - e) + f_signed y * 2 ^ (f_scale y - e) in
  if n =? 0 then f_with_sign (f_sign x && f_sign y) 0 else
  f_with_sign (n <? 0) (round_float (scale_up 2 (Z.abs n) e) (scale_down 2 e)).

Definition f_sub (x y : Z) : Z := f_add x (f_opp y).

Definition f_mul (x y : Z) : Z :=
  let s := xorb (f_sign x) (f_sign y) in
  if f_nan x || f_nan y then NAN else
  if f_inf x || f_inf y then (if f_nonzero x && f_nonzero y then f_with_sign s 0x7f800000 else NAN) else
  let e := f_scale x + f_scale y in
  f_with_sign s (round_float (scale_up 2 (f_mantissa x * f_mantissa y) e) (scale_down 2 e)).

Definition f_div (x y : Z) : Z :=
  let s := xorb (f_sign x) (f_sign y) in
  if f_nan x || f_nan y || (f_inf x && f_inf y) || negb (f_nonzero x || f_nonzero y) then NAN else
  if f_inf x || negb (f_nonzero y) then f_with_sign s 0x7f800000 else
  if f_inf y then f_with_sign s 0 else
  let e := f_scale x - f_scale y in
  f_with_sign s (round_float (scale_up 2 (f_mantissa x) e) (f_mantissa y * scale_down 2 e)).

(** [(float) n] for an unsigned. *)
Definition f_of_unsigned (n : Z) : Z := round_float n 1.

(** [Some] of the rest after [word], whatever the case of its letters. *)
Fixpoint after_word (word s : chars) : option chars :=
  match word, s with
  | [], _ => Some s
  | c :: word, d :: s => if (c =? tolower d)%char then after_word word s else None
  | _, [] => None
  end.

(** The exponent after the letter [e] or [p]; 0 when it has no digit. *)
Definition read_exponent (letter : ascii) (s : chars) : Z :=
  match s with
  | c :: s =>
      if negb (tolower c =? letter)%char then 0 else
      let '(neg, s) := match s with
                       | "-"%char :: s => (true, s)
                       | "+"%char :: s => (false, s)
                       | _ => (false, s)
                       end in
      let e := fst (read_digits 10 0 s) in
      if neg : bool then - e else e
  | [] => 0
  end.

(** The digits of [s] with or without a point: their value, how many are after the
    point, and the rest. *)
Definition read_point (base : Z) (s : chars) : Z * Z * chars :=
  let '(v, rest) := read_digits base 0 s in
  match rest with
  | "."%char :: s' => let '(v, rest') := read_digits base v s' in (v, Z.of_nat (length s' - length rest'), rest')
  | _ => (v, 0, rest)
  end.

(** No number at all is 0. *)
Definition atof (s : chars) : Z :=
  let s := skip_spaces s in
  let '(sign, s) := match s with
                    | "-"%char :: s => (0x80000000, s)
                    | "+"%char :: s => (0, s)
                    | _ => (0, s)
                    end in
  sign +
  match after_word (txt "inf") s, after_word (txt "nan") s, after_word (txt "0x") s with
  | Some _, _, _ => 0x7f800000
  | _, Some _, _ => 0x7fc00000
  | _, _, Some s =>
      let '(v, n, rest) := read_point 16 s in
      let e := read_exponent "p" rest - 4 * n in
      float_of (scale_up 2 v e) (scale_down 2 e)
  | _, _, _ =>
      let '(v, n, rest) := read_point 10 s in
      let e := read_exponent "e" rest - n in
      float_of (scale_up 10 v e) (scale_down 10 e)
  end.

Example prints_one : fmt_f 0x3f800000 = txt "1.000000".
Proof. reflexivity. Qed.
Example prints_small : fmt_f 0xbe4ccccd = txt "-0.200000".
Proof. reflexivity. Qed.
Example reads_tenth : atof (txt " 0.1") = 0x3dcccccd.
Proof. vm_compute. reflexivity. Qed.
Example reads_big : atof (txt "-1.5e3x") = 0xc4bb8000.
Proof. vm_compute. reflexivity. Qed.
Example reads_hex : atof (txt "0x1.8p1") = 0x40400000.
Proof. vm_compute. reflexivity. Qed.
Example reads_limits : map atof [txt "3.4028236e38"; txt "1e-46"; txt "1.4e-45"; txt "1e400"; txt "abc"; txt "inf"] =
  [0x7f800000; 0; 1; 0x7f800000; 0; 0x7f800000].
Proof. vm_compute. reflexivity. Qed.
Example sums : map (fun '(x, y) => f_add (atof (txt x)) (atof (txt y)))
    [("1", "2"); ("16777216", "1"); ("16777216", "3"); ("1", "-1"); ("3e38", "3e38"); ("0.1", "0.2"); ("inf", "-inf")]%string =
  map (fun x => atof (txt x)) ["3"; "16777216"; "16777220"; "0"; "inf"; "0.3"; "nan"]%string.
Proof. vm_compute. reflexivity. Qed.
Example products : map (fun '(x, y) => f_mul (atof (txt x)) (atof (txt y)))
    [("1.5", "-2"); ("0.1", "10"); ("1e-30", "1e-30"); ("1e30", "1e30"); ("0", "inf")]%string =
  map (fun x => atof (txt x)) ["-3"; "1"; "0"; "inf"; "nan"]%string.
Proof. vm_compute. reflexivity. Qed.
Example quotients : map (fun '(x, y) => f_div (atof (txt x)) (atof (txt y)))
    [("1", "3"); ("64", "16"); ("-1", "0"); ("0", "0"); ("1", "inf")]%string =
  map (fun x => atof (txt x)) ["0.333333333"; "4"; "-inf"; "nan"; "0"]%string.
Proof. vm_compute. reflexivity. Qed.
