(* ===== verification/Scan.v ===== *)
(** * Scan: what the code reads with [sscanf]

    Each conversion takes the text that is left and gives the value with what follows
    it, or [None] when it does not match; the numbers that are printed are read back. *)

From Stdlib Require Import Ascii String.
From S2P Require Import Prelude Misc CString BitmapString CStringOk Synthetic.

(** ["%u"] of [printf]. *)
Definition fmt_u (n : Z) : chars := print_num 10 n.

Definition number (value : chars) : Z := fst (strtoul value 10).
Definition u16 (x : Z) : Z := x mod 2 ^ 16.
Definition u8 (x : Z) : Z := x mod 2 ^ 8.

Definition after_sign (s : chars) : chars :=
  match s with "-"%char :: s | "+"%char :: s => s | _ => s end.

(** A lone [0x]: [strtoul] stops before the [x], [sscanf] finds no number. *)
Definition lone_prefix (field rest : chars) : bool :=
  match after_sign field with
  | "0"%char :: c :: r => is_x c && (length rest =? S (length r))%nat
  | _ => false
  end.

(** ["%0<width>x"] of [sscanf]: at most [width] characters after spaces. *)
Definition scan_hex (width : nat) (s : chars) : option (Z * chars) :=
  let s := skip_spaces s in
  let field := take width s in
  let '(v, rest) := strtoul field 16 in
  if (length rest =? length field)%nat then None
  else if lone_prefix field rest then None
  else Some (u32 v, rest ++ drop width s).

(** ["%lx"] of [sscanf]. *)
Definition scan_lx (s : chars) : option (Z * chars) :=
  let s := skip_spaces s in
  let '(v, rest) := strtoul s 16 in
  if (length rest =? length s)%nat || lone_prefix s rest then None else Some (v, rest).

(** ["%u"] of [sscanf]. *)
Definition scan_u (s : chars) : option (Z * chars) :=
  let s := skip_spaces s in
  let '(v, rest) := strtoul s 10 in
  if (length rest =? length s)%nat then None else Some (u32 v, rest).

(** A character of the format; a space matches any spaces. *)
Definition scan_char (c : ascii) (s : chars) : option chars :=
  if (c =? " ")%char then Some (skip_spaces s)
  else match s with d :: s => if (c =? d)%char then Some s else None | [] => None end.

Fixpoint scan_text (t s : chars) : option chars :=
  match t with [] => Some s | c :: t => let! s := scan_char c s in scan_text t s end.

(** [strchr]: what comes before [c], and what comes after. *)
Fixpoint char_split (c : ascii) (s : chars) : option (chars * chars) :=
  match s with
  | [] => None
  | d :: s => if (d =? c)%char then Some ([], s) else let! (p, rest) := char_split c s in Some (d :: p, rest)
  end.

Lemma strchr_app c p rest : c ∉ p -> char_split c (p ++ c :: rest) = Some (p, rest).
Proof.
  induction p as [|d p IH]; intros Hc; cbn [app char_split].
  - by rewrite Ascii.eqb_refl.
  - destruct (Ascii.eqb_spec d c) as [->|_]; [destruct Hc; left|].
    rewrite IH; [done|]. intros Hin. apply Hc. by right.
Qed.

(** ** Decimal numbers *)

Lemma number_base_10 s : number_base 10 s = (10, s).
Proof.
  destruct s as [|c s]; [done|]. destruct (ascii_dec c "0") as [->|Hc]; [|by rewrite number_base_other].
  by destruct s.
Qed.

Lemma isspace_digit base c : is_Some (is_digit base c) -> isspace c = false.
Proof. intros Hc. unfold isspace. apply digit_code in Hc. apply orb_false_intro; [|apply andb_false_iff]; lia. Qed.

Lemma digit_not_space base c s : is_Some (is_digit base c) -> skip_spaces (c :: s) = c :: s.
Proof. intros Hc. cbn [skip_spaces]. by rewrite (isspace_digit base c Hc). Qed.

Lemma decimal_front n : 0 <= n < 2 ^ 64 -> exists c ds, print_num 10 n = c :: ds /\ is_Some (is_digit 10 c).
Proof.
  intros Hn. destruct (print_num_text 10 n ltac:(lia) Hn) as [H1 _ H3 _ _]. destruct (print_num 10 n) as [|c ds]; [done|].
  apply Forall_cons in H1 as [Hc _]. by exists c, ds.
Qed.

Lemma strtoul_decimal n rest : 0 <= n < 2 ^ 64 -> item_end rest -> strtoul (print_num 10 n ++ rest) 10 = (n, rest).
Proof.
  intros Hn Hr. destruct (print_num_text 10 n ltac:(lia) Hn) as [H1 H2 H3 _ _].
  destruct (print_num 10 n) as [|c ds] eqn:Hds; [done|]. cbn [app].
  eapply strtoul_digit; [|apply number_base_10| |by apply (read_number 10 n (c :: ds)); [|apply item_end_digit]|done].
  - apply Forall_cons in H1 as [[d Hd] _]. exists d. by apply (digit_mono 10).
  - by apply (starts_digits 10 (c :: ds)).
Qed.

Lemma number_u n : 0 <= n < 2 ^ 64 -> number (fmt_u n) = n.
Proof. intros Hn. unfold number, fmt_u. rewrite <- (app_nil_r (print_num 10 n)). by rewrite strtoul_decimal. Qed.

Lemma strtoul_negative n : 0 < n < 2 ^ 64 -> strtoul ("-"%char :: print_num 10 n) 10 = (u64 (- n), []).
Proof.
  intros Hn. unfold strtoul. change (skip_spaces ("-"%char :: print_num 10 n)) with ("-"%char :: print_num 10 n). cbn match.
  rewrite number_base_10. destruct (print_num_text 10 n ltac:(lia) ltac:(lia)) as [H1 H2 H3 _ _].
  rewrite <- (app_nil_r (print_num 10 n)), starts_digits by done.
  rewrite (read_number 10 n (print_num 10 n)) by done. unfold ULONG_MAX. by destruct (Z.ltb_spec (2 ^ 64 - 1) n); [lia|].
Qed.

Lemma number_d n : - 2 ^ 31 <= n < 2 ^ 31 -> s32 (number (fmt_d n)) = n.
Proof.
  intros Hn. unfold fmt_d. destruct (Z.ltb_spec n 0) as [Hneg|Hpos].
  - unfold number. rewrite strtoul_negative by lia. cbn [fst]. unfold u64, s32.
    replace (- - n) with n by lia. rewrite <- Zplus_mod_idemp_l.
    replace ((n mod 2 ^ 64) mod 2 ^ 32) with (n mod 2 ^ 32).
    + rewrite Zplus_mod_idemp_l, Z.mod_small; lia.
    + change (2 ^ 64) with (2 ^ 32 * 2 ^ 32). rewrite <- Znumtheory.Zmod_div_mod; [done|lia|lia|]. by exists (2 ^ 32).
  - fold (fmt_u n). rewrite number_u by lia. by apply s32_small.
Qed.

Lemma number_u32 n : 0 <= n < 2 ^ 32 -> u32 (number (fmt_u n)) = n.
Proof. intros Hn. rewrite number_u by lia. by apply u32_small. Qed.

(** ** The formats of [sscanf] *)

Lemma scan_u_ok n rest : 0 <= n < 2 ^ 32 -> item_end rest -> scan_u (fmt_u n ++ rest) = Some (n, rest).
Proof.
  intros Hn Hr. unfold scan_u, fmt_u. destruct (decimal_front n ltac:(lia)) as (c & ds & Hds & Hc).
  assert (skip_spaces (print_num 10 n ++ rest) = print_num 10 n ++ rest) as ->
    by (rewrite Hds; cbn [app]; by apply (digit_not_space 10)).
  rewrite strtoul_decimal by (done || lia). rewrite length_app, Hds.
  destruct (Nat.eqb_spec (length rest) (length (c :: ds) + length rest)) as [He|_]; [simpl in He; lia|].
  by rewrite u32_small by lia.
Qed.

Definition hex_value (width : nat) (n : Z) : Prop := (1 <= width <= 8)%nat /\ 0 <= n < 16 ^ Z.of_nat width.

Lemma hex_small width n : hex_value width n -> 0 <= n < 2 ^ 32.
Proof.
  intros [Hw Hn]. split; [lia|]. apply Z.lt_le_trans with (16 ^ Z.of_nat width); [lia|].
  change (2 ^ 32) with (16 ^ 8). apply Z.pow_le_mono_r; lia.
Qed.

Lemma lone_prefix_nil field : lone_prefix field [] = false.
Proof. unfold lone_prefix. destruct (after_sign field) as [|[[] [] [] [] [] [] [] []] [|d r]]; try done; by rewrite andb_false_r. Qed.

Lemma scan_hex_ok width n rest : hex_value width n -> scan_hex width (fmt_0lx width n ++ rest) = Some (n, rest).
Proof.
  intros Hv. pose proof (hex_small _ _ Hv) as Hs. destruct Hv as [Hw Hn].
  destruct (fmt_0lx_text width n ltac:(lia) ltac:(lia) ltac:(lia)) as (H1 & H2 & H3). unfold scan_hex.
  destruct (fmt_0lx width n) as [|c ds] eqn:Hds; [simpl in H3; lia|]. rewrite <- Hds in *.
  assert (skip_spaces (fmt_0lx width n ++ rest) = fmt_0lx width n ++ rest) as ->.
  { rewrite Hds in *. apply Forall_cons in H1 as [Hc _]. by apply (digit_not_space 16). }
  assert (take width (fmt_0lx width n ++ rest) = fmt_0lx width n) as -> by (rewrite take_app_le, firstn_all2; lia || done).
  rewrite (strtoul_hex n) by (done || lia || by rewrite Hds). rewrite H3. cbn [length].
  destruct (Nat.eqb_spec 0 width) as [|_]; [lia|]. rewrite lone_prefix_nil, u32_small by lia.
  rewrite drop_app_ge by lia. by rewrite H3, Nat.sub_diag.
Qed.

Definition no_space (s : chars) : Prop := match s with c :: _ => isspace c = false | [] => True end.

(** A text of the format: its spaces are single. *)
Fixpoint spaced (t rest : chars) : Prop :=
  match t with
  | [] => True
  | c :: t => (isspace c = false \/ (c = " "%char /\ no_space (t ++ rest))) /\ spaced t rest
  end.

Lemma scan_text_ok t rest : spaced t rest -> scan_text t (t ++ rest) = Some rest.
Proof.
  induction t as [|c t IH]; [done|]. cbn [spaced app scan_text]. intros [Hc Ht]. unfold scan_char.
  destruct Hc as [Hc|[-> Hn]].
  - destruct (Ascii.eqb_spec c " ") as [->|_]; [done|]. rewrite Ascii.eqb_refl. by apply IH.
  - rewrite Ascii.eqb_refl. cbn [skip_spaces mbind option_bind]. change (isspace " ") with true. cbn match.
    replace (skip_spaces (t ++ rest)) with (t ++ rest); [by apply IH|]. unfold no_space in Hn.
    destruct (t ++ rest) as [|d s]; [done|]. cbn [skip_spaces]. by rewrite Hn.
Qed.
