(* ===== verification/CpusetText.v ===== *)
(** * CpusetText: what the XML code relies on of the text of bitmaps

    [CpusetText] has the calls of [src/cpuset.c] that the export and the import of
    objects make; [CpusetTextOk] their laws, which the bitmaps keep. *)

From Stdlib Require Import Ascii String.
From S2P Require Import Prelude Bitmap BitmapSpec BitmapOps BitmapTests CString BitmapString CStringOk MaskTextOk Cpuset.

Class CpusetText (B : Type) := {
  b_asprintf : B -> option chars;       (** [hwloc_bitmap_asprintf] *)
  b_sscanf : chars -> option B;         (** [hwloc_bitmap_sscanf] into a new bitmap *)
  b_isfull : B -> bool;
}.

Definition checked_wbitmap (set : hwloc_bitmap_s) : option wbitmap :=
  match decide (cpuset_ok set = true) with left H => Some (exist _ set H) | right _ => None end.

#[export] Instance bitmap_cpuset_text `{Malloc} : CpusetText wbitmap := {
  b_asprintf a := let! (len, text) := hwloc_bitmap_asprintf (w a) in Some (take (Z.to_nat len) text);
  b_sscanf s :=
    let! set := hwloc_bitmap_alloc in
    let! (_, set) := hwloc_bitmap_sscanf set s in
    checked_wbitmap set;
  b_isfull a := default false (hwloc_bitmap_isfull (w a));
}.
