(* ===== verification/XmlExport.v ===== *)
(** * XmlExport: topologies as XML, without libxml2 ([src/topology-xml.c])

    The buffer fills as in CString.v. *)

From Stdlib Require Import Ascii String.
From S2P Require Import Prelude Bitmap CString Cpuset CpusetText Obj Float Scan.

(** ** The output *)

Record hwloc__xml_export_output_s := mk_output {
  x_buffer : chars;
  x_at : Z;               (** where [buffer] points to *)
  x_written : Z;
  x_remaining : Z;
  x_indent : Z;
}.

Definition hwloc__xml_export_update_buffer (output : hwloc__xml_export_output_s) (buffer : chars) (res : Z)
  : hwloc__xml_export_output_s :=
  let indent := x_indent output in
  let remaining := x_remaining output in
  if 0 <=? res then
    let adv := if s32 remaining <=? res then (if 0 <? remaining then remaining - 1 else 0) else res in
    mk_output buffer (x_at output + adv) (x_written output + res) (remaining - adv) indent
  else mk_output buffer (x_at output) (x_written output) remaining indent.

Definition with_indent (output : hwloc__xml_export_output_s) (indent : Z) : hwloc__xml_export_output_s :=
  mk_output (x_buffer output) (x_at output) (x_written output) (x_remaining output) indent.

(** The characters that are replaced. *)
Definition escape_char (c : ascii) : option chars :=
  if (c =? "010")%char then Some (txt "&#10;")
  else if (c =? "013")%char then Some (txt "&#13;")
  else if (c =? "009")%char then Some (txt "&#9;")
  else if (c =? "034")%char then Some (txt "&quot;")
  else if (c =? "<")%char then Some (txt "&lt;")
  else if (c =? ">")%char then Some (txt "&gt;")
  else if (c =? "&")%char then Some (txt "&amp;")
  else None.

(** The [strcspn]: what comes before the first of them, and the rest. *)
Fixpoint plain_prefix (src : chars) : chars * chars :=
  match src with
  | [] => ([], [])
  | c :: s =>
      match escape_char c with
      | Some _ => ([], src)
      | None => let '(p, rest) := plain_prefix s in (c :: p, rest)
      end
  end.

(** The loop, from the first character that is replaced on. *)
Fixpoint escape_loop (fuel : nat) (src : chars) : option chars :=
  match src with
  | [] => Some []
  | c :: src =>
      match fuel with
      | O => None
      | S fuel =>
          let rep := default [] (escape_char c) in
          let '(sub, src) := plain_prefix src in
          let! dst := escape_loop fuel src in
          Some (rep ++ sub ++ dst)
      end
  end.

(** [None] inside is NULL: nothing to escape. *)
Definition hwloc__xml_export_escape_string (src : chars) : option (option chars) :=
  let '(sub, rest) := plain_prefix src in
  if (length sub =? length src)%nat then Some None else
  let! dst := escape_loop (length src) rest in
  Some (Some (sub ++ dst)).

Section Exporting.
Context `{Malloc}.

Definition emit (text : chars) (output : hwloc__xml_export_output_s) : option hwloc__xml_export_output_s :=
  let! (res, buffer) := hwloc_snprintf (x_buffer output) (x_at output) (x_remaining output) text in
  Some (hwloc__xml_export_update_buffer output buffer res).

(** ["%*s"] of an empty string. *)
Definition pad (indent : Z) : chars := replicate (Z.to_nat indent) " "%char.

Definition hwloc__xml_export_new_child (name : string) (output : hwloc__xml_export_output_s) :=
  let! output := emit (pad (x_indent output) ++ txt "<" ++ txt name) output in
  Some (with_indent output (u32 (x_indent output + 2))).

Definition QUOTE : chars := ["034"%char].

Definition hwloc__xml_export_new_prop (name : string) (value : chars) (output : hwloc__xml_export_output_s) :=
  let! escaped := hwloc__xml_export_escape_string value in
  emit (txt " " ++ txt name ++ txt "=" ++ QUOTE ++ default value escaped ++ QUOTE) output.

Definition LF : chars := ["010"%char].

Definition hwloc__xml_export_end_props (nr_children : Z) (output : hwloc__xml_export_output_s) :=
  emit (txt (if nr_children =? 0 then "/>" else ">") ++ LF) output.

Definition hwloc__xml_export_end_child (name : string) (nr_children : Z) (output : hwloc__xml_export_output_s) :=
  let output := with_indent output (u32 (x_indent output - 2)) in
  if nr_children =? 0 then Some output
  else emit (pad (x_indent output) ++ txt "</" ++ txt name ++ txt ">" ++ LF) output.

(** [for(i=0; i<len; i++) body(array[i])] *)
Section Loop.
Context {A : Type} (body : A -> hwloc__xml_export_output_s -> option hwloc__xml_export_output_s).

Fixpoint for_each (array : list A) (output : hwloc__xml_export_output_s) : option hwloc__xml_export_output_s :=
  match array with
  | [] => Some output
  | a :: array => let! output := body a output in for_each array output
  end.

End Loop.

(** ** Objects *)

Section Object.
Context {B : Type} `{CpusetText B}.

(** A set that is not NULL. *)
Definition export_set (name : string) (set : option B) (output : hwloc__xml_export_output_s) :=
  match set with
  | None => Some output
  | Some set => let! text := b_asprintf set in hwloc__xml_export_new_prop name text output
  end.

(** A nodeset that is neither NULL nor full. *)
Definition export_nodeset (name : string) (set : option B) (output : hwloc__xml_export_output_s) :=
  match set with
  | None => Some output
  | Some set => if b_isfull set then Some output else export_set name (Some set) output
  end.

Definition busid_text (p : hwloc_pcidev_attr_s) : chars :=
  fmt_0lx 4 (domain p) ++ txt ":" ++ fmt_0lx 2 (bus p) ++ txt ":" ++ fmt_0lx 2 (dev p) ++ txt "." ++ fmt_0lx 1 (func p).
Definition pci_type_text (p : hwloc_pcidev_attr_s) : chars :=
  fmt_0lx 4 (class_id p) ++ txt " [" ++ fmt_0lx 4 (vendor_id p) ++ txt ":" ++ fmt_0lx 4 (device_id p)
  ++ txt "] [" ++ fmt_0lx 4 (subvendor_id p) ++ txt ":" ++ fmt_0lx 4 (subdevice_id p) ++ txt "] " ++ fmt_0lx 2 (revision p).
Definition bridge_type_text (b : hwloc_bridge_attr_s) : chars :=
  fmt_u (upstream_type b) ++ txt "-" ++ fmt_u (downstream_type b).
Definition bridge_pci_text (b : hwloc_bridge_attr_s) : chars :=
  fmt_0lx 4 (downstream_domain b) ++ txt ":[" ++ fmt_0lx 2 (secondary_bus b) ++ txt "-" ++ fmt_0lx 2 (subordinate_bus b) ++ txt "]".

Definition export_pci (p : hwloc_pcidev_attr_s) (output : hwloc__xml_export_output_s) :=
  let! output := hwloc__xml_export_new_prop "pci_busid" (busid_text p) output in
  let! output := hwloc__xml_export_new_prop "pci_type" (pci_type_text p) output in
  hwloc__xml_export_new_prop "pci_link_speed" (fmt_f (linkspeed p)) output.

(** The switch on the type; reading another member of the union is undefined here. *)
Definition export_attr (o : hwloc_obj B) (output : hwloc__xml_export_output_s) :=
  match o_type o, attr o with
  | HWLOC_OBJ_CACHE, AttrCache size depth linesize associativity =>
      let! output := hwloc__xml_export_new_prop "cache_size" (fmt_u size) output in
      let! output := hwloc__xml_export_new_prop "depth" (fmt_u depth) output in
      let! output := hwloc__xml_export_new_prop "cache_linesize" (fmt_u linesize) output in
      hwloc__xml_export_new_prop "cache_associativity" (fmt_d associativity) output
  | HWLOC_OBJ_GROUP, AttrGroup depth => hwloc__xml_export_new_prop "depth" (fmt_u depth) output
  | HWLOC_OBJ_BRIDGE, AttrBridge b =>
      let! output := hwloc__xml_export_new_prop "bridge_type" (bridge_type_text b) output in
      let! output := hwloc__xml_export_new_prop "depth" (fmt_u (b_depth b)) output in
      let! output :=
        if downstream_type b =? HWLOC_OBJ_BRIDGE_PCI then
          hwloc__xml_export_new_prop "bridge_pci" (bridge_pci_text b) output
        else Some output in
      if negb (upstream_type b =? HWLOC_OBJ_BRIDGE_PCI) then Some output else export_pci (upstream b) output
  | HWLOC_OBJ_PCI_DEVICE, AttrPcidev p => export_pci p output
  | HWLOC_OBJ_OS_DEVICE, AttrOsdev type => hwloc__xml_export_new_prop "osdev_type" (fmt_u type) output
  | (HWLOC_OBJ_CACHE | HWLOC_OBJ_GROUP | HWLOC_OBJ_BRIDGE | HWLOC_OBJ_PCI_DEVICE | HWLOC_OBJ_OS_DEVICE), _ => None
  | _, _ => Some output
  end.

Definition export_page_type (p : Z * Z) (output : hwloc__xml_export_output_s) :=
  let! output := hwloc__xml_export_new_child "page_type" output in
  let! output := hwloc__xml_export_new_prop "size" (fmt_u (fst p)) output in
  let! output := hwloc__xml_export_new_prop "count" (fmt_u (snd p)) output in
  let! output := hwloc__xml_export_end_props 0 output in
  hwloc__xml_export_end_child "page_type" 0 output.

(** An uninitialised slot is undefined. *)
Definition export_info (i : option (string * string)) (output : hwloc__xml_export_output_s) :=
  let! (name, value) := i in
  let! output := hwloc__xml_export_new_child "info" output in
  let! output := hwloc__xml_export_new_prop "name" (txt name) output in
  let! output := hwloc__xml_export_new_prop "value" (txt value) output in
  let! output := hwloc__xml_export_end_props 0 output in
  hwloc__xml_export_end_child "info" 0 output.

Definition export_latency (x : Z) (output : hwloc__xml_export_output_s) :=
  let! output := hwloc__xml_export_new_child "latency" output in
  let! output := hwloc__xml_export_new_prop "value" (fmt_f x) output in
  let! output := hwloc__xml_export_end_props 0 output in
  hwloc__xml_export_end_child "latency" 0 output.

Definition export_distances (d : option hwloc_distances_s) (output : hwloc__xml_export_output_s) :=
  let! d := d in
  let n := u32 (nbobjs d * nbobjs d) in
  let! output := hwloc__xml_export_new_child "distances" output in
  let! output := hwloc__xml_export_new_prop "nbobjs" (fmt_u (nbobjs d)) output in
  let! output := hwloc__xml_export_new_prop "relative_depth" (fmt_u (relative_depth d)) output in
  let! output := hwloc__xml_export_new_prop "latency_base" (fmt_f (latency_base d)) output in
  let! output := hwloc__xml_export_end_props n output in
  require! (n <=? Z.of_nat (length (latency d))) in
  let! output := for_each export_latency (take (Z.to_nat n) (latency d)) output in
  hwloc__xml_export_end_child "distances" n output.

Definition nr_children (t : obj_tree B) : Z :=
  let 'Node o ch := t in
  u32 (Z.of_nat (length (page_types (memory o)) + length (infos o) + length (distances o) + length ch)).

(** The properties, from [type] to [local_memory]. *)
Definition export_object_props (o : hwloc_obj B) (output : hwloc__xml_export_output_s) :=
  let! output := hwloc__xml_export_new_prop "type" (txt (hwloc_obj_type_string (o_type o))) output in
  let! output := if negb (os_level o =? -1)
                 then hwloc__xml_export_new_prop "os_level" (fmt_d (os_level o)) output else Some output in
  let! output := if negb (os_index o =? UNSET)
                 then hwloc__xml_export_new_prop "os_index" (fmt_u (os_index o)) output else Some output in
  let! output := export_set "cpuset" (cpuset (sets o)) output in
  let! output := export_set "complete_cpuset" (complete_cpuset (sets o)) output in
  let! output := export_set "online_cpuset" (online_cpuset (sets o)) output in
  let! output := export_set "allowed_cpuset" (allowed_cpuset (sets o)) output in
  let! output := export_nodeset "nodeset" (nodeset (sets o)) output in
  let! output := export_nodeset "complete_nodeset" (complete_nodeset (sets o)) output in
  let! output := export_nodeset "allowed_nodeset" (allowed_nodeset (sets o)) output in
  let! output := match o_name o with
                 | Some name => hwloc__xml_export_new_prop "name" (txt name) output
                 | None => Some output
                 end in
  let! output := export_attr o output in
  if negb (local_memory (memory o) =? 0)
  then hwloc__xml_export_new_prop "local_memory" (fmt_u (local_memory (memory o))) output else Some output.

Fixpoint hwloc__xml_export_object (t : obj_tree B) (output : hwloc__xml_export_output_s)
  : option hwloc__xml_export_output_s :=
  let 'Node o ch := t in
  let n := nr_children t in
  let! output := hwloc__xml_export_new_child "object" output in
  let! output := export_object_props o output in
  let! output := hwloc__xml_export_end_props n output in
  let! output := for_each export_page_type (page_types (memory o)) output in
  let! output := for_each export_info (infos o) output in
  let! output := for_each export_distances (distances o) output in
  let! output := for_each hwloc__xml_export_object ch output in
  hwloc__xml_export_end_child "object" n output.

(** ** The whole text *)

Definition xml_header : chars :=
  txt "<?xml version=" ++ QUOTE ++ txt "1.0" ++ QUOTE ++ txt " encoding=" ++ QUOTE ++ txt "UTF-8" ++ QUOTE ++ txt "?>" ++ LF
  ++ txt "<!DOCTYPE topology SYSTEM " ++ QUOTE ++ txt "hwloc.dtd" ++ QUOTE ++ txt ">" ++ LF.

(** The size with the NUL, and the buffer. *)
Definition hwloc___nolibxml_prepare_export (root : obj_tree B) (xmlbuffer : chars) (buflen : Z) : option (Z * chars) :=
  let! output := emit xml_header (mk_output xmlbuffer 0 0 buflen 0) in
  let! output := hwloc__xml_export_new_child "topology" output in
  let! output := hwloc__xml_export_end_props 1 output in
  let! output := hwloc__xml_export_object root output in
  let! output := hwloc__xml_export_end_child "topology" 1 output in
  Some (x_written output + 1, x_buffer output).

Definition default_buflen : Z := 16384.

(** [*buflenp] and [*bufferp]; [res] and [buflen] are int there. *)
Definition hwloc__nolibxml_prepare_export (root : obj_tree B) : option (Z * chars) :=
  let buffer := replicate (Z.to_nat default_buflen) NUL in
  let! (res, buffer) := hwloc___nolibxml_prepare_export root buffer default_buflen in
  if default_buflen <? res then
    let! (_, buffer) := hwloc___nolibxml_prepare_export root (buffer ++ replicate (Z.to_nat (res - default_buflen)) NUL) (s32 res) in
    Some (s32 res, buffer)
  else Some (s32 res, buffer).

(** What [hwloc_topology_export_xml] writes to the file: all but the ending NUL. *)
Definition export_xml_file (root : obj_tree B) : option chars :=
  let! (bufferlen, buffer) := hwloc__nolibxml_prepare_export root in
  Some (take (Z.to_nat (bufferlen - 1)) buffer).

End Object.
End Exporting.
