(* ===== verification/XmlExportOk.v ===== *)
(** * XmlExportOk: the text that the export writes *)

From Stdlib Require Import Ascii String.
From S2P Require Import Prelude Misc Bitmap BitmapSpec CString CStringOk Cpuset CpusetText Obj Float Scan XmlExport.

(** ** Escaping *)

Definition plain_char (c : ascii) : bool := match escape_char c with None => true | Some _ => false end.
Definition plain (s : chars) : Prop := Forall (fun c => plain_char c = true) s.

Definition esc (s : chars) : chars := concat (map (fun c => default [c] (escape_char c)) s).

Lemma esc_plain s : plain s -> esc s = s.
Proof.
  induction 1 as [|c s Hc _ IH]; [done|]. unfold esc. cbn [map concat]. fold (esc s). rewrite IH.
  unfold plain_char in Hc. by destruct (escape_char c).
Qed.

Lemma esc_cons c s : esc (c :: s) = default [c] (escape_char c) ++ esc s.
Proof. done. Qed.

Lemma plain_prefix_ok s : let '(p, rest) := plain_prefix s in
  s = p ++ rest /\ plain p /\ match rest with [] => True | c :: _ => plain_char c = false end.
Proof.
  induction s as [|c s IH]; cbn [plain_prefix]; [split_and!; [done|constructor|done]|].
  destruct (escape_char c) as [e|] eqn:He.
  - split_and!; [done|constructor|]. unfold plain_char. by rewrite He.
  - destruct (plain_prefix s) as [p rest]. destruct IH as (-> & Hp & Hr). split_and!; [done| |done].
    constructor; [unfold plain_char; by rewrite He|done].
Qed.

Lemma escape_loop_ok fuel s :
  (length s <= fuel)%nat -> match s with [] => True | c :: _ => plain_char c = false end ->
  escape_loop fuel s = Some (esc s).
Proof.
  revert s. induction fuel as [|fuel IH]; intros [|c s] Hlen Hc; cbn [escape_loop]; try done; [simpl in Hlen; lia|].
  pose proof (plain_prefix_ok s) as Hp. destruct (plain_prefix s) as [p rest]. destruct Hp as (-> & Hp & Hr).
  simpl in Hlen. rewrite length_app in Hlen. rewrite IH by (done || lia). cbn [mbind option_bind]. f_equal.
  rewrite esc_cons. unfold plain_char in Hc. destruct (escape_char c) as [e|]; [|done]. cbn [default]. f_equal.
  unfold esc at 2. rewrite List.map_app, List.concat_app. fold (esc p) (esc rest). by rewrite (esc_plain p).
Qed.

Lemma escape_string_ok s : hwloc__xml_export_escape_string s = Some (if bool_decide (plain s) then None else Some (esc s)).
Proof.
  unfold hwloc__xml_export_escape_string. pose proof (plain_prefix_ok s) as Hp.
  destruct (plain_prefix s) as [p rest]. destruct Hp as (-> & Hp & Hr). rewrite length_app.
  destruct rest as [|c rest].
  - rewrite app_nil_r, Nat.add_0_r, Nat.eqb_refl, bool_decide_true; done.
  - destruct (Nat.eqb_spec (length p) (length p + length (c :: rest))) as [He|_]; [simpl in He; lia|].
    rewrite escape_loop_ok by (done || (simpl; lia)). cbn [mbind option_bind]. rewrite bool_decide_false.
    + unfold esc at 2. rewrite List.map_app, List.concat_app. fold (esc p) (esc (c :: rest)). by rewrite (esc_plain p).
    + intros Hall. apply Forall_app in Hall as [_ Hall]. apply Forall_cons in Hall as [Hc _]. congruence.
Qed.

Lemma escaped_text s : default s (if bool_decide (plain s) then None else Some (esc s)) = esc s.
Proof. case_bool_decide as Hp; [by rewrite esc_plain|done]. Qed.

(** ** Emission *)

Section Emit.
Context `{MallocTotal}.
Notation output := hwloc__xml_export_output_s.

(** The output after [text], in a buffer of [size] characters that held [buf]. *)
Definition out_at (buf : chars) (size : nat) (text : chars) (indent : Z) : output :=
  mk_output (stored buf size text) (Z.of_nat (reached size text)) (Z.of_nat (length text))
    (Z.of_nat (size - reached size text)) indent.

Definition emits (f : output -> option output) (text : chars) (i j : Z) : Prop :=
  forall buf size t, (size <= length buf)%nat -> Z.of_nat size < 2 ^ 31 ->
    f (out_at buf size t i) = Some (out_at buf size (t ++ text) j).

Lemma reached_app size t text : (size <> 0)%nat -> reached size (t ++ text) =
  (reached size t + (if (size - reached size t <=? length text) then size - reached size t - 1 else length text))%nat.
Proof.
  intros Hs. unfold reached. rewrite length_app. destruct (Nat.leb_spec (size - length t `min` (size - 1)) (length text)); lia.
Qed.

Lemma emit_ok text i : emits (emit text) text i i.
Proof.
  intros buf size t Hlen Hsize. unfold emit, out_at. cbn [x_buffer x_at x_remaining].
  assert (reached size t <= size)%nat as Hr by (unfold reached; lia).
  rewrite hwloc_snprintf_ok by (rewrite ?stored_length by done; lia). cbn [mbind option_bind]. f_equal.
  unfold hwloc__xml_export_update_buffer. cbn [x_remaining x_indent x_at x_written].
  destruct (Z.leb_spec 0 (Z.of_nat (length text))) as [_|]; [|lia]. rewrite s32_small by lia.
  destruct (Nat.eq_dec size 0) as [->|Hne].
  - assert (forall x, reached 0 x = 0%nat) as Hr0 by (intros x; unfold reached; lia). rewrite !Hr0.
    change (stored buf 0 (t ++ text)) with buf. change (Z.of_nat (0 - 0)) with 0.
    destruct (Z.leb_spec 0 (Z.of_nat (length text))) as [_|]; [|lia]. change (0 <? 0) with false.
    rewrite length_app. change (0 =? 0) with true. cbn match. f_equal; lia.
  - assert (0 < size - reached size t)%nat as Hpos by (unfold reached; lia).
    destruct (Z.eqb_spec (Z.of_nat (size - reached size t)) 0) as [|_]; [lia|].
    rewrite Nat2Z.id. replace (Z.to_nat (Z.of_nat (size - reached size t) - 1)) with (size - reached size t - 1)%nat by lia.
    rewrite stored_app by done. pose proof (reached_app size t text Hne) as Hre.
    destruct (Nat.leb_spec (size - reached size t) (length text)).
    + destruct (Z.leb_spec (Z.of_nat (size - reached size t)) (Z.of_nat (length text))) as [_|]; [|lia].
      destruct (Z.ltb_spec 0 (Z.of_nat (size - reached size t))) as [_|]; [|lia].
      f_equal; [lia|rewrite length_app; lia|lia].
    + destruct (Z.leb_spec (Z.of_nat (size - reached size t)) (Z.of_nat (length text))) as [|_]; [lia|].
      f_equal; [lia|rewrite length_app; lia|lia].
Qed.

Lemma emits_bind f g t1 t2 i j k : emits f t1 i j -> emits g t2 j k ->
  emits (fun o => let! o := f o in g o) (t1 ++ t2) i k.
Proof. intros Hf Hg buf size t Hl Hs. rewrite Hf by done. cbn [mbind option_bind]. by rewrite Hg, app_assoc by done. Qed.

Lemma emits_nil i : emits Some [] i i.
Proof. intros buf size t _ _. by rewrite app_nil_r. Qed.

Lemma emits_text f t t' i j : emits f t i j -> t = t' -> emits f t' i j.
Proof. by intros ? <-. Qed.

Lemma emits_ext f g t i j : (forall o, f o = g o) -> emits g t i j -> emits f t i j.
Proof. intros Hfg Hg buf size t' Hl Hs. rewrite Hfg. by apply Hg. Qed.

Lemma for_each_ok {A} (body : A -> output -> option output) (text : A -> chars) i xs :
  (forall x, x ∈ xs -> emits (body x) (text x) i i) -> emits (for_each body xs) (concat (map text xs)) i i.
Proof.
  induction xs as [|x xs IH]; intros Hb; cbn [for_each map concat]; [apply emits_nil|].
  apply (emits_bind (body x) (for_each body xs) _ _ i i i); [apply Hb; left|apply IH; intros; apply Hb; by right].
Qed.

(** ** Tags *)

Definition prop_text (p : string * chars) : chars := txt " " ++ txt (fst p) ++ txt "=" ++ QUOTE ++ esc (snd p) ++ QUOTE.
Definition props_text (ps : list (string * chars)) : chars := concat (map prop_text ps).
Definition end_props_text (n : Z) : chars := txt (if n =? 0 then "/>" else ">") ++ LF.
Definition open_text (i : Z) (name : string) (ps : list (string * chars)) (n : Z) : chars :=
  pad i ++ txt "<" ++ txt name ++ props_text ps ++ end_props_text n.
Definition close_text (i : Z) (name : string) (n : Z) : chars :=
  if n =? 0 then [] else pad i ++ txt "</" ++ txt name ++ txt ">" ++ LF.
Definition leaf_text (i : Z) (name : string) (ps : list (string * chars)) : chars := open_text i name ps 0.

Lemma new_child_ok name i : 0 <= i < 2 ^ 32 - 2 ->
  emits (hwloc__xml_export_new_child name) (pad i ++ txt "<" ++ txt name) i (i + 2).
Proof.
  intros Hi buf size t Hl Hs. unfold hwloc__xml_export_new_child. cbn [x_indent out_at].
  rewrite (emit_ok _ i) by done. cbn [mbind option_bind]. unfold with_indent. cbn [x_indent out_at x_buffer x_at x_written x_remaining].
  by rewrite u32_small by lia.
Qed.

Lemma new_prop_ok name value i : emits (hwloc__xml_export_new_prop name value) (prop_text (name, value)) i i.
Proof.
  intros buf size t Hl Hs. unfold hwloc__xml_export_new_prop. rewrite escape_string_ok. cbn [mbind option_bind].
  rewrite escaped_text. by apply emit_ok.
Qed.

Lemma end_props_ok n i : emits (hwloc__xml_export_end_props n) (end_props_text n) i i.
Proof. apply emit_ok. Qed.

Lemma end_child_ok name n i : 0 <= i < 2 ^ 32 - 2 ->
  emits (hwloc__xml_export_end_child name n) (close_text i name n) (i + 2) i.
Proof.
  intros Hi buf size t Hl Hs. unfold hwloc__xml_export_end_child, close_text, with_indent.
  cbn [x_indent out_at x_buffer x_at x_written x_remaining]. replace (i + 2 - 2) with i by lia. rewrite u32_small by lia.
  destruct (n =? 0); [by rewrite app_nil_r|]. by apply emit_ok.
Qed.

Lemma props_app ps qs : props_text (ps ++ qs) = props_text ps ++ props_text qs.
Proof. unfold props_text. by rewrite List.map_app, List.concat_app. Qed.

End Emit.

(** ** Objects *)

Section Object.
Context `{MallocTotal} {B : Type} `{CpusetText B}.
Implicit Types o : hwloc_obj B.
Implicit Types t c : obj_tree B.

Definition set_text (s : B) : chars := default [] (b_asprintf s).

Definition prop (name : string) (value : chars) : string * chars := (name, value).

Definition set_props (name : string) (s : option B) : list (string * chars) :=
  match s with Some s => [prop name (set_text s)] | None => [] end.
Definition nodeset_props (name : string) (s : option B) : list (string * chars) :=
  match s with Some s => if b_isfull s then [] else [prop name (set_text s)] | None => [] end.

Definition pci_props (p : hwloc_pcidev_attr_s) : list (string * chars) :=
  [prop "pci_busid" (busid_text p); prop "pci_type" (pci_type_text p); prop "pci_link_speed" (fmt_f (linkspeed p))].

Definition attr_props (a : hwloc_obj_attr_u) : list (string * chars) :=
  match a with
  | AttrNone => []
  | AttrCache size depth linesize associativity =>
      [prop "cache_size" (fmt_u size); prop "depth" (fmt_u depth); prop "cache_linesize" (fmt_u linesize);
       prop "cache_associativity" (fmt_d associativity)]
  | AttrGroup depth => [prop "depth" (fmt_u depth)]
  | AttrPcidev p => pci_props p
  | AttrBridge b =>
      [prop "bridge_type" (bridge_type_text b); prop "depth" (fmt_u (b_depth b))]
      ++ (if downstream_type b =? HWLOC_OBJ_BRIDGE_PCI then [prop "bridge_pci" (bridge_pci_text b)] else [])
      ++ (if upstream_type b =? HWLOC_OBJ_BRIDGE_PCI then pci_props (upstream b) else [])
  | AttrOsdev type => [prop "osdev_type" (fmt_u type)]
  end.

Definition object_props o : list (string * chars) :=
  ([prop "type" (txt (hwloc_obj_type_string (o_type o)))]
  ++ (if negb (os_level o =? -1) then [prop "os_level" (fmt_d (os_level o))] else [])
  ++ (if negb (os_index o =? UNSET) then [prop "os_index" (fmt_u (os_index o))] else [])
  ++ set_props "cpuset" (cpuset (sets o)) ++ set_props "complete_cpuset" (complete_cpuset (sets o))
  ++ set_props "online_cpuset" (online_cpuset (sets o)) ++ set_props "allowed_cpuset" (allowed_cpuset (sets o))
  ++ nodeset_props "nodeset" (nodeset (sets o)) ++ nodeset_props "complete_nodeset" (complete_nodeset (sets o))
  ++ nodeset_props "allowed_nodeset" (allowed_nodeset (sets o))
  ++ (match o_name o with Some name => [prop "name" (txt name)] | None => [] end)
  ++ attr_props (attr o)
  ++ (if negb (local_memory (memory o) =? 0) then [prop "local_memory" (fmt_u (local_memory (memory o)))] else [])).

Definition page_props (p : Z * Z) : list (string * chars) := [prop "size" (fmt_u (fst p)); prop "count" (fmt_u (snd p))].
Definition info_props (i : option (string * string)) : list (string * chars) :=
  match i with Some (n, v) => [prop "name" (txt n); prop "value" (txt v)] | None => [] end.
Definition latency_props (x : Z) : list (string * chars) := [prop "value" (fmt_f x)].
Definition distances_props (d : hwloc_distances_s) : list (string * chars) :=
  [prop "nbobjs" (fmt_u (nbobjs d)); prop "relative_depth" (fmt_u (relative_depth d)); prop "latency_base" (fmt_f (latency_base d))].

Definition distances_text (i : Z) (d : option hwloc_distances_s) : chars :=
  match d with
  | None => []
  | Some d =>
      let n := u32 (nbobjs d * nbobjs d) in
      open_text i "distances" (distances_props d) n
      ++ concat (map (fun x => leaf_text (i + 2) "latency" (latency_props x)) (take (Z.to_nat n) (latency d)))
      ++ close_text i "distances" n
  end.

Fixpoint object_text (i : Z) t : chars :=
  let 'Node o ch := t in
  let n := nr_children t in
  open_text i "object" (object_props o) n
  ++ concat (map (fun p => leaf_text (i + 2) "page_type" (page_props p)) (page_types (memory o)))
  ++ concat (map (fun x => leaf_text (i + 2) "info" (info_props x)) (infos o))
  ++ concat (map (distances_text (i + 2)) (distances o))
  ++ concat (map (object_text (i + 2)) ch)
  ++ close_text i "object" n.

(** The attributes are those of the type; arrays are initialised; every set has a text. *)
Definition attr_member (ty : hwloc_obj_type_t) (a : hwloc_obj_attr_u) : bool :=
  match ty, a with
  | HWLOC_OBJ_CACHE, AttrCache _ _ _ _ | HWLOC_OBJ_GROUP, AttrGroup _ | HWLOC_OBJ_BRIDGE, AttrBridge _
  | HWLOC_OBJ_PCI_DEVICE, AttrPcidev _ | HWLOC_OBJ_OS_DEVICE, AttrOsdev _ => true
  | (HWLOC_OBJ_CACHE | HWLOC_OBJ_GROUP | HWLOC_OBJ_BRIDGE | HWLOC_OBJ_PCI_DEVICE | HWLOC_OBJ_OS_DEVICE), _ => false
  | _, AttrNone => true
  | _, _ => false
  end.

Definition set_list o : list (option B) :=
  [cpuset (sets o); complete_cpuset (sets o); online_cpuset (sets o); allowed_cpuset (sets o);
   nodeset (sets o); complete_nodeset (sets o); allowed_nodeset (sets o)].

Definition has_text (s : option B) : Prop := match s with Some s => is_Some (b_asprintf s) | None => True end.

Definition whole_matrix (d : option hwloc_distances_s) : Prop :=
  match d with Some d => u32 (nbobjs d * nbobjs d) <= Z.of_nat (length (latency d)) | None => False end.

Record exportable o : Prop := {
  ex_attr : attr_member (o_type o) (attr o) = true;
  ex_sets : Forall has_text (set_list o);
  ex_infos : Forall is_Some (infos o);
  ex_distances : Forall whole_matrix (distances o);
}.

Lemma prop_ok name value i : emits (hwloc__xml_export_new_prop name value) (props_text [prop name value]) i i.
Proof. eapply emits_text; [apply new_prop_ok|]. unfold props_text. cbn [map concat]. by rewrite app_nil_r. Qed.

(** Two steps that print properties. *)
Lemma props_bind f g ps qs i : emits f (props_text ps) i i -> emits g (props_text qs) i i ->
  emits (fun out => let! out := f out in g out) (props_text (ps ++ qs)) i i.
Proof. intros Hf Hg. rewrite props_app. by apply (emits_bind f g _ _ i i i). Qed.

Lemma no_props i : emits Some (props_text []) i i.
Proof. apply emits_nil. Qed.

Lemma props_if (b : bool) f ps i : emits f (props_text ps) i i ->
  emits (fun out => if b then f out else Some out) (props_text (if b then ps else [])) i i.
Proof. intros Hf. destruct b; [exact Hf|apply no_props]. Qed.

Lemma export_set_ok name s i : has_text s -> emits (export_set name s) (props_text (set_props name s)) i i.
Proof.
  destruct s as [s|]; cbn [has_text set_props export_set]; [|intros _; apply no_props].
  intros [t Ht]. unfold set_text. rewrite Ht. eapply emits_ext; [|apply prop_ok].
  intros out. unfold export_set. by rewrite Ht.
Qed.

Lemma export_nodeset_ok name s i : has_text s -> emits (export_nodeset name s) (props_text (nodeset_props name s)) i i.
Proof.
  destruct s as [s|]; cbn [has_text nodeset_props export_nodeset]; [|intros _; apply no_props].
  intros Ht. destruct (b_isfull s) eqn:Hf.
  - eapply emits_ext; [|apply no_props]. intros out. unfold export_nodeset. by rewrite Hf.
  - eapply emits_ext; [|by apply (export_set_ok name (Some s))]. intros out. unfold export_nodeset. by rewrite Hf.
Qed.

Lemma export_pci_ok p i : emits (export_pci p) (props_text (pci_props p)) i i.
Proof.
  unfold export_pci, pci_props. change [?a; ?b; ?c] with ([a] ++ [b] ++ [c]).
  repeat (apply props_bind; [apply prop_ok|]). apply prop_ok.
Qed.

Lemma export_attr_ok o i : attr_member (o_type o) (attr o) = true -> emits (export_attr o) (props_text (attr_props (attr o))) i i.
Proof.
  intros Hm. eapply emits_ext; [intros out; unfold export_attr; reflexivity|]. destruct (o_type o), (attr o) as [|z d l s|d|p|b|ty]; try done; cbn [attr_props]; try apply no_props.
  - change [?a; ?b; ?c; ?d] with ([a] ++ [b] ++ [c] ++ [d]). repeat (apply props_bind; [apply prop_ok|]). apply prop_ok.
  - apply prop_ok.
  - change [?a; ?b] with ([a] ++ [b]). rewrite <- app_assoc. do 2 (apply props_bind; [apply prop_ok|]).
    apply props_bind; [apply props_if, prop_ok|]. destruct (upstream_type b =? HWLOC_OBJ_BRIDGE_PCI); [apply export_pci_ok|apply no_props].
  - apply export_pci_ok.
  - apply prop_ok.
Qed.

(** A tag without children. *)
Lemma leaf_ok name ps f i : 0 <= i < 2 ^ 32 - 2 -> emits f (props_text ps) (i + 2) (i + 2) ->
  emits (fun out => let! out := hwloc__xml_export_new_child name out in
                    let! out := f out in
                    let! out := hwloc__xml_export_end_props 0 out in
                    hwloc__xml_export_end_child name 0 out) (leaf_text i name ps) i i.
Proof.
  intros Hi Hf. eapply emits_text.
  - eapply emits_bind; [by apply new_child_ok|]. eapply emits_bind; [exact Hf|].
    eapply emits_bind; [apply end_props_ok|by apply end_child_ok].
  - unfold leaf_text, open_text, close_text. change (0 =? 0) with true. cbn match. by rewrite app_nil_r, <- !app_assoc.
Qed.

Lemma export_page_type_ok p i : 0 <= i < 2 ^ 32 - 2 ->
  emits (export_page_type p) (leaf_text i "page_type" (page_props p)) i i.
Proof.
  intros Hi. eapply emits_ext; [|apply (leaf_ok "page_type" (page_props p) (fun out =>
    let! out := hwloc__xml_export_new_prop "size" (fmt_u (fst p)) out in
    hwloc__xml_export_new_prop "count" (fmt_u (snd p)) out) _ Hi)]; cycle 1.
  - unfold page_props. change [?a; ?b] with ([a] ++ [b]). apply props_bind; apply prop_ok.
  - intros out. unfold export_page_type. destruct (hwloc__xml_export_new_child _ _) as [out1|]; [|done].
    cbn [mbind option_bind]. by destruct (hwloc__xml_export_new_prop "size" _ _).
Qed.

Lemma export_info_ok x i : is_Some x -> 0 <= i < 2 ^ 32 - 2 ->
  emits (export_info x) (leaf_text i "info" (info_props x)) i i.
Proof.
  intros [[n v] ->] Hi. eapply emits_ext; [|apply (leaf_ok "info" (info_props (Some (n, v))) (fun out =>
    let! out := hwloc__xml_export_new_prop "name" (txt n) out in
    hwloc__xml_export_new_prop "value" (txt v) out) _ Hi)]; cycle 1.
  - unfold info_props. change [?a; ?b] with ([a] ++ [b]). apply props_bind; apply prop_ok.
  - intros out. unfold export_info. cbn [mbind option_bind].
    destruct (hwloc__xml_export_new_child _ _) as [out1|]; [|done].
    cbn [mbind option_bind]. by destruct (hwloc__xml_export_new_prop "name" _ _).
Qed.

Lemma export_distances_ok d i : whole_matrix d -> 0 <= i < 2 ^ 32 - 4 ->
  emits (export_distances d) (distances_text i d) i i.
Proof.
  destruct d as [d|]; cbn [whole_matrix]; [|done]. intros Hw Hi. set (n := u32 (nbobjs d * nbobjs d)) in *.
  eapply emits_ext; cycle 1.
  - eapply emits_text.
    + eapply emits_bind; [apply (new_child_ok "distances" i); lia|].
      eapply emits_bind; [apply (prop_ok "nbobjs" (fmt_u (nbobjs d)))|].
      eapply emits_bind; [apply (prop_ok "relative_depth" (fmt_u (relative_depth d)))|].
      eapply emits_bind; [apply (prop_ok "latency_base" (fmt_f (latency_base d)))|].
      eapply emits_bind; [apply (end_props_ok n)|].
      eapply emits_bind; [apply (for_each_ok export_latency (fun x => leaf_text (i + 2) "latency" (latency_props x)) (i + 2)
                                   (take (Z.to_nat n) (latency d)))|apply (end_child_ok "distances" n i); lia].
      intros x _. apply (leaf_ok "latency" _ (hwloc__xml_export_new_prop "value" (fmt_f x))); [lia|apply prop_ok].
    + unfold distances_text, open_text, distances_props, props_text. fold n. cbn [map concat].
      rewrite !app_nil_r, <- !app_assoc. done.
  - intros out. unfold export_distances. cbn [mbind option_bind]. fold n.
    destruct (Z.leb_spec n (Z.of_nat (length (latency d)))) as [_|]; [|lia]. done.
Qed.

Lemma height_node o ch : tree_height (Node o ch) = S (foldr (fun c n => Nat.max (tree_height c) n) 0%nat ch).
Proof. done. Qed.

Lemma export_object_props_ok o i : exportable o -> emits (export_object_props o) (props_text (object_props o)) i i.
Proof.
  intros [Hat Hsets _ _]. unfold set_list in Hsets. repeat (apply Forall_cons in Hsets as [? Hsets]).
  unfold object_props. apply (props_bind _ _ [prop "type" (txt (hwloc_obj_type_string (o_type o)))]); [apply prop_ok|].
  apply props_bind; [apply props_if, prop_ok|]. apply props_bind; [apply props_if, prop_ok|].
  do 4 (apply props_bind; [by apply export_set_ok|]). do 3 (apply props_bind; [by apply export_nodeset_ok|]).
  apply props_bind; [destruct (o_name o); [apply prop_ok|apply no_props]|].
  apply props_bind; [by apply export_attr_ok|apply props_if, prop_ok].
Qed.

Lemma export_object_ok t i : Forall exportable (tree_objs t) -> 0 <= i -> i + 2 * Z.of_nat (tree_height t) < 2 ^ 32 - 4 ->
  emits (hwloc__xml_export_object t) (object_text i t) i i.
Proof.
  revert i. induction t as [o ch IH] using obj_tree_ind'. intros i Hex Hi Hh. rewrite tree_objs_node in Hex.
  apply Forall_cons in Hex as [Ho Hex]. destruct (Ho) as [_ _ Hinfos Hdist]. cbn [object_text hwloc__xml_export_object].
  set (n := nr_children (Node o ch)). rewrite Forall_forall in Hinfos. rewrite Forall_forall in Hdist.
  rewrite Forall_forall in IH. rewrite Forall_forall in Hex.
  assert (Z.of_nat (tree_height (Node o ch)) >= 1) as Hh1 by (rewrite height_node; lia).
  eapply emits_text.
  - eapply emits_bind; [apply (new_child_ok "object" i); lia|]. eapply emits_bind; [by apply export_object_props_ok|].
    eapply emits_bind; [apply (end_props_ok n)|].
    eapply emits_bind; [apply (for_each_ok export_page_type); intros; apply export_page_type_ok; lia|].
    eapply emits_bind; [apply (for_each_ok export_info); intros; apply export_info_ok; [by apply Hinfos|lia]|].
    eapply emits_bind; [apply (for_each_ok export_distances); intros; apply export_distances_ok; [by apply Hdist|lia]|].
    eapply emits_bind; [|apply (end_child_ok "object" n i); lia].
    apply (for_each_ok hwloc__xml_export_object). intros c Hc. apply IH; [done| |lia|].
    + apply Forall_forall. intros o' Ho'. apply Hex, elem_of_forest_objs. by exists c.
    + pose proof (height_child o ch c Hc). lia.
  - unfold open_text. by rewrite <- !app_assoc.
Qed.

(** ** The document *)

Definition document t : chars :=
  xml_header ++ open_text 0 "topology" [] 1 ++ object_text 2 t ++ close_text 0 "topology" 1.

(** The first text goes to a buffer without a NUL yet. *)
Lemma emit_first text buf size : (size <= length buf)%nat -> Z.of_nat size < 2 ^ 31 ->
  emit text (mk_output buf 0 0 (Z.of_nat size) 0) = Some (out_at buf size text 0).
Proof.
  intros Hl Hs. unfold emit. cbn [x_buffer x_at x_remaining]. rewrite hwloc_snprintf_ok by lia. cbn [mbind option_bind]. f_equal.
  unfold hwloc__xml_export_update_buffer, out_at. cbn [x_remaining x_indent x_at x_written].
  destruct (Z.leb_spec 0 (Z.of_nat (length text))) as [_|]; [|lia]. rewrite s32_small by lia. unfold stored, reached.
  destruct (Nat.eqb_spec size 0) as [->|Hne].
  - change (Z.of_nat 0 =? 0) with true. cbn match. change (0 <? Z.of_nat 0) with false.
    destruct (Z.leb_spec (Z.of_nat 0) (Z.of_nat (length text))) as [_|]; [|lia]. f_equal; lia.
  - destruct (Z.eqb_spec (Z.of_nat size) 0) as [|_]; [lia|]. replace (Z.to_nat (Z.of_nat size - 1)) with (size - 1)%nat by lia.
    change (Z.to_nat 0) with 0%nat. destruct (Z.ltb_spec 0 (Z.of_nat size)) as [_|]; [|lia].
    destruct (Z.leb_spec (Z.of_nat size) (Z.of_nat (length text))); f_equal; lia.
Qed.

Lemma prepare_ok t buf size : Forall exportable (tree_objs t) -> 2 * Z.of_nat (tree_height t) < 2 ^ 32 - 6 ->
  (size <= length buf)%nat -> Z.of_nat size < 2 ^ 31 ->
  hwloc___nolibxml_prepare_export t buf (Z.of_nat size) = Some (Z.of_nat (length (document t)) + 1, stored buf size (document t)).
Proof.
  intros Hex Hh Hl Hs. unfold hwloc___nolibxml_prepare_export. rewrite emit_first by done. cbn [mbind option_bind].
  assert (Hrest : emits (fun out => let! out := hwloc__xml_export_new_child "topology" out in
      let! out := hwloc__xml_export_end_props 1 out in
      let! out := hwloc__xml_export_object t out in
      hwloc__xml_export_end_child "topology" 1 out)
    (open_text 0 "topology" [] 1 ++ object_text 2 t ++ close_text 0 "topology" 1) 0 0).
  { eapply emits_text.
    - eapply emits_bind; [apply (new_child_ok "topology" 0); lia|]. eapply emits_bind; [apply (end_props_ok 1)|].
      eapply emits_bind; [apply export_object_ok; [done|lia|lia]|apply (end_child_ok "topology" 1 0); lia].
    - unfold open_text, props_text. cbn [map concat]. by rewrite <- !app_assoc. }
  specialize (Hrest buf size xml_header Hl Hs). cbv beta in Hrest. revert Hrest.
  destruct (hwloc__xml_export_new_child _ _) as [o1|]; cbn [mbind option_bind]; [|by intros].
  destruct (hwloc__xml_export_end_props _ _) as [o2|]; cbn [mbind option_bind]; [|by intros].
  destruct (hwloc__xml_export_object _ _) as [o3|]; cbn [mbind option_bind]; [|by intros].
  intros ->. cbn [mbind option_bind x_written x_buffer out_at]. done.
Qed.

Lemma stored_whole buf size text : (length text < size)%nat -> (size <= length buf)%nat ->
  take (S (length text)) (stored buf size text) = text ++ [NUL].
Proof.
  intros Ht Hs. unfold stored. destruct (Nat.eqb_spec size 0) as [|_]; [lia|]. rewrite overwrite_0.
  assert (take (size - 1) text = text) as -> by (apply firstn_all2; lia).
  rewrite take_app_le by (rewrite length_app; simpl; lia).
  apply firstn_all2. rewrite length_app. simpl. lia.
Qed.

Lemma whole_export_ok t : Forall exportable (tree_objs t) -> 2 * Z.of_nat (tree_height t) < 2 ^ 32 - 6 ->
  Z.of_nat (length (document t)) < 2 ^ 31 - 1 ->
  exists buffer, hwloc__nolibxml_prepare_export t = Some (Z.of_nat (length (document t)) + 1, buffer) /\
    take (S (length (document t))) buffer = document t ++ [NUL].
Proof.
  intros Hex Hh Hlen. set (L := length (document t)) in *. unfold hwloc__nolibxml_prepare_export.
  change default_buflen with (Z.of_nat (Z.to_nat 16384)). set (d := Z.to_nat 16384). assert (Z.of_nat d = 16384) as Hd by done.
  rewrite (prepare_ok t _ d Hex Hh) by (rewrite ?length_replicate; lia). cbn [mbind option_bind]. fold L.
  rewrite s32_small by lia. destruct (Z.ltb_spec (Z.of_nat d) (Z.of_nat L + 1)) as [Hlt|Hle].
  - replace (Z.of_nat L + 1) with (Z.of_nat (S L)) by lia.
    rewrite (prepare_ok t _ (S L) Hex Hh) by (rewrite ?length_app, ?stored_length, ?length_replicate by (rewrite length_replicate; lia); lia).
    cbn [mbind option_bind]. eexists. split; [done|]. apply stored_whole; [fold L; lia|].
    rewrite length_app, stored_length, !length_replicate by (rewrite length_replicate; lia). lia.
  - eexists. split; [done|]. apply stored_whole; [fold L; lia|]. rewrite length_replicate. lia.
Qed.

Lemma export_file_ok t : Forall exportable (tree_objs t) -> 2 * Z.of_nat (tree_height t) < 2 ^ 32 - 6 ->
  Z.of_nat (length (document t)) < 2 ^ 31 - 1 -> export_xml_file t = Some (document t).
Proof.
  intros Hex Hh Hlen. destruct (whole_export_ok t Hex Hh Hlen) as (buffer & Heq & Htake). unfold export_xml_file.
  rewrite Heq. cbn [mbind option_bind]. f_equal. replace (Z.to_nat (Z.of_nat (length (document t)) + 1 - 1)) with (length (document t)) by lia.
  replace (take (length (document t)) buffer) with (take (length (document t)) (take (S (length (document t))) buffer))
    by (rewrite take_take; f_equal; lia).
  rewrite Htake, take_app_le by lia. by apply firstn_all2.
Qed.

End Object.
