(* ===== verification/XmlImport.v ===== *)
(** * XmlImport: XML read back, without libxml2 ([src/topology-xml.c])

    The parser works in place: it puts NULs in the buffer where names, values and
    tags end, and moves on.  What it may still read is the rest of the text, which
    the model keeps instead of a position: [tagbuffer] from the next tag on,
    [attrbuffer] the rest of the current tag, up to the NUL put at its end.  The
    inner [option] is the code's result: [None] there is -1, outside it is undefined
    behaviour, a failed [assert] or an exhausted fuel. *)

From Stdlib Require Import Ascii String.
From S2P Require Import Prelude Bitmap CString BitmapString Cpuset CpusetText Obj Synthetic Insert Float Scan XmlExport.

#[export] Instance pcidev_eq_dec : EqDecision hwloc_pcidev_attr_s.
Proof. solve_decision. Defined.
#[export] Instance bridge_eq_dec : EqDecision hwloc_bridge_attr_s.
Proof. solve_decision. Defined.
#[export] Instance obj_attr_eq_dec : EqDecision hwloc_obj_attr_u.
Proof. solve_decision. Defined.

(** ** Scanning *)

(** [strspn(s, set)]: what is skipped, and the rest. *)
Fixpoint strspn (set : ascii -> bool) (s : chars) : chars * chars :=
  match s with
  | [] => ([], [])
  | c :: s' => if set c then let '(p, rest) := strspn set s' in (c :: p, rest) else ([], s)
  end.

Definition blank (c : ascii) : bool := (c =? " ")%char || (c =? "009")%char || (c =? "010")%char.
Definition name_char (c : ascii) : bool :=
  ((97 <=? char_code c) && (char_code c <=? 122)) || (c =? "_")%char.

Definition hwloc__nolibxml_import_ignore_spaces (buffer : chars) : chars := snd (strspn blank buffer).

(** [s[i]]: past the NUL that ends the text nothing is known. *)
Definition char_at (s : chars) (i : nat) : option ascii :=
  if (i =? length s)%nat then Some NUL else s !! i.
(** The character at the front. *)
Definition front (s : chars) : ascii := default NUL (head s).

(** ** State *)

Record hwloc__xml_import_state_s := mk_import {
  tagbuffer : chars;
  attrbuffer : chars;
  tagname : chars;
  closed : bool;
}.
Notation import_state := hwloc__xml_import_state_s.

Definition with_tagbuffer (s : import_state) (b : chars) : import_state :=
  mk_import b (attrbuffer s) (tagname s) (closed s).
Definition with_attrbuffer (s : import_state) (b : chars) : import_state :=
  mk_import (tagbuffer s) b (tagname s) (closed s).

(** The replacement of what starts at [&]: how much shorter it is, and the character. *)
Definition unescape (rest : chars) : option (nat * ascii) :=
  if bool_decide (rest = txt "#10;") then Some (4%nat, "010"%char)
  else if bool_decide (rest = txt "#13;") then Some (4%nat, "013"%char)
  else if bool_decide (rest = txt "#9;") then Some (3%nat, "009"%char)
  else if bool_decide (rest = txt "quot;") then Some (5%nat, "034"%char)
  else if bool_decide (rest = txt "lt;") then Some (3%nat, "<"%char)
  else if bool_decide (rest = txt "gt;") then Some (3%nat, ">"%char)
  else if bool_decide (rest = txt "amp;") then Some (4%nat, "&"%char)
  else None.

(** The loop on the value, in place; the result is [len], [escaped] and the memory. *)
Fixpoint read_value (fuel : nat) (value : chars) (len escaped : nat) : option (option (nat * nat * chars)) :=
  let! c := char_at value (len + escaped) in
  if (c =? "034")%char then Some (Some (len, escaped, value)) else
  match fuel with
  | O => None
  | S fuel =>
      let continue value escaped :=
        let len := S len in
        let! c := char_at value (len + escaped) in
        if (c =? NUL)%char then Some None else read_value fuel value len escaped in
      if (c =? "&")%char then
        match unescape (drop (1 + len + escaped) value) with
        | None => Some None
        | Some (n, c) =>
            let escaped := (escaped + n)%nat in
            let value := <[(1 + len)%nat := c]> value in
            let! c := char_at value (len + escaped) in
            continue (<[len := c]> value) escaped
        end
      else continue value escaped
  end.

(** The name, the value and the new state. *)
Definition hwloc__xml_import_next_attr (state : import_state) : option (option (chars * chars * import_state)) :=
  let buffer := hwloc__nolibxml_import_ignore_spaces (attrbuffer state) in
  let '(name, rest) := strspn name_char buffer in
  if negb ((front rest =? "=")%char && (front (drop 1 rest) =? "034")%char) then Some None else
  let value := drop 2 rest in
  let! r := read_value (length value) value 0 0 in
  match r with
  | None => Some None
  | Some (len, escaped, value) =>
      let next := hwloc__nolibxml_import_ignore_spaces (drop (len + escaped + 1) value) in
      Some (Some (name, take len value, with_attrbuffer state next))
  end.

(** A child of the current tag, none, or an error. *)
Inductive found_child := NoChild | BadChild | Child (tag : chars) (childstate : import_state).

Definition hwloc__xml_import_find_child (state : import_state) : option found_child :=
  if closed state then Some NoChild else
  match hwloc__nolibxml_import_ignore_spaces (tagbuffer state) with
  | "<"%char :: buffer =>
      if (front buffer =? "/")%char then Some NoChild else
      match char_split ">" buffer with
      | None => Some BadChild
      | Some (tag, rest) =>
          let '(tag, closed) :=
            match last tag with
            | Some "/"%char => (take (length tag - 1) tag, true)
            | _ => (tag, false)
            end in
          let '(name, attrs) := strspn name_char tag in
          require! negb (bool_decide (attrs = [])) in      (* assert *)
          if negb (front attrs =? " ")%char then Some BadChild
          else Some (Child name (mk_import rest (drop 1 attrs) name closed))
      end
  | _ => Some BadChild
  end.

(** The state after the closing tag. *)
Definition hwloc__xml_import_close_tag (state : import_state) : option import_state :=
  if closed state then Some state else
  match hwloc__nolibxml_import_ignore_spaces (tagbuffer state) with
  | "<"%char :: buffer =>
      match char_split ">" buffer with
      | None => None
      | Some (tag, rest) =>
          if negb (front tag =? "/")%char || negb (bool_decide (drop 1 tag = tagname state)) then None
          else Some (with_tagbuffer state rest)
      end
  | _ => None
  end.

(** The parent's state. *)
Definition hwloc__xml_import_close_child (state parent : import_state) : import_state :=
  with_tagbuffer parent (tagbuffer state).

(** All the attributes, until there is no other one: [body] may refuse one. *)
Section Attributes.
Context {A : Type} (body : A -> chars -> chars -> option (option A)).

Fixpoint each_attr (fuel : nat) (a : A) (state : import_state) : option (option (A * import_state)) :=
  let! r := hwloc__xml_import_next_attr state in
  match r with
  | None => Some (Some (a, state))
  | Some (name, value, state) =>
      match fuel with
      | O => None
      | S fuel =>
          let! r := body a name value in
          match r with
          | None => Some None
          | Some a => each_attr fuel a state
          end
      end
  end.

End Attributes.

(** ** Formats of attributes *)

(** ["%04x:%02x:%02x.%01x"] *)
Definition scan_busid (s : chars) : option (Z * Z * Z * Z) :=
  let! (a, s) := scan_hex 4 s in let! s := scan_text (txt ":") s in
  let! (b, s) := scan_hex 2 s in let! s := scan_text (txt ":") s in
  let! (c, s) := scan_hex 2 s in let! s := scan_text (txt ".") s in
  let! (d, s) := scan_hex 1 s in Some (a, b, c, d).

(** ["%04x [%04x:%04x] [%04x:%04x] %02x"] *)
Definition scan_pci_type (s : chars) : option (Z * Z * Z * Z * Z * Z) :=
  let! (a, s) := scan_hex 4 s in let! s := scan_text (txt " [") s in
  let! (b, s) := scan_hex 4 s in let! s := scan_text (txt ":") s in
  let! (c, s) := scan_hex 4 s in let! s := scan_text (txt "] [") s in
  let! (d, s) := scan_hex 4 s in let! s := scan_text (txt ":") s in
  let! (e, s) := scan_hex 4 s in let! s := scan_text (txt "] ") s in
  let! (f, s) := scan_hex 2 s in Some (a, b, c, d, e, f).

(** ["%u-%u"] *)
Definition scan_bridge_type (s : chars) : option (Z * Z) :=
  let! (a, s) := scan_u s in let! s := scan_text (txt "-") s in
  let! (b, s) := scan_u s in Some (a, b).

(** ["%04x:[%02x-%02x]"] *)
Definition scan_bridge_pci (s : chars) : option (Z * Z * Z) :=
  let! (a, s) := scan_hex 4 s in let! s := scan_text (txt ":[") s in
  let! (b, s) := scan_hex 2 s in let! s := scan_text (txt "-") s in
  let! (c, s) := scan_hex 2 s in Some (a, b, c).

(** ** Attributes of objects *)

Section Importing.
Context `{Malloc} {B : Type} `{CpusetText B}.

(** An object whose type may not be known yet: [HWLOC_OBJ_TYPE_MAX]. *)
Record importing := mk_importing { im_type : option hwloc_obj_type_t; im_obj : hwloc_obj B }.

Definition on_obj (im : importing) (f : hwloc_obj B -> hwloc_obj B) : importing :=
  mk_importing (im_type im) (f (im_obj im)).

(** [obj->attr->pcidev], which is where [bridge.upstream.pci] is. *)
Definition with_pcidev (a : hwloc_obj_attr_u) (f : hwloc_pcidev_attr_s -> hwloc_pcidev_attr_s) : hwloc_obj_attr_u :=
  match a with
  | AttrPcidev p => AttrPcidev (f p)
  | AttrBridge b => AttrBridge (mk_bridge (f (upstream b)) (upstream_type b) (downstream_domain b)
      (secondary_bus b) (subordinate_bus b) (downstream_type b) (b_depth b))
  | _ => a
  end.

Definition with_bridge (a : hwloc_obj_attr_u) (f : hwloc_bridge_attr_s -> hwloc_bridge_attr_s) : hwloc_obj_attr_u :=
  match a with AttrBridge b => AttrBridge (f b) | _ => a end.

Definition with_attr_depth (a : hwloc_obj_attr_u) (d : Z) : hwloc_obj_attr_u :=
  match a with
  | AttrCache size _ linesize associativity => AttrCache size d linesize associativity
  | AttrGroup _ => AttrGroup d
  | AttrBridge b => AttrBridge (with_b_depth b d)
  | _ => a
  end.

Definition with_local_memory (m : hwloc_obj_memory_s) (x : Z) : hwloc_obj_memory_s :=
  mk_memory (total_memory m) x (page_types m).
Definition with_page_types (m : hwloc_obj_memory_s) (l : list (Z * Z)) : hwloc_obj_memory_s :=
  mk_memory (total_memory m) (local_memory m) l.

(** [page_types[0]], allocated first if there is none: its memory is not initialised. *)
Definition on_first_page (m : hwloc_obj_memory_s) (f : Z * Z -> Z * Z) : hwloc_obj_memory_s :=
  let pages := match page_types m with [] => [(fresh_word 2 0, fresh_word 2 1)] | l => l end in
  with_page_types m (match pages with p :: l => f p :: l | [] => [] end).

(** A set read into a new bitmap; the int result is ignored. *)
Definition import_set (im : importing) (put : hwloc_obj B -> option B -> hwloc_obj B) (value : chars) : option importing :=
  let! set := b_sscanf value in Some (on_obj im (fun o => put o (Some set))).

Definition is_cache_type (t : option hwloc_obj_type_t) : bool := bool_decide (t = Some HWLOC_OBJ_CACHE).
Definition has_pci (t : option hwloc_obj_type_t) : bool :=
  bool_decide (t = Some HWLOC_OBJ_PCI_DEVICE) || bool_decide (t = Some HWLOC_OBJ_BRIDGE).
Definition has_memory (t : option hwloc_obj_type_t) : bool :=
  bool_decide (t = Some HWLOC_OBJ_NODE) || bool_decide (t = Some HWLOC_OBJ_MACHINE) || bool_decide (t = Some HWLOC_OBJ_SYSTEM).

(** [if (cond) obj->attr->... = ...] *)
Definition change_attr (im : importing) (cond : bool) (f : hwloc_obj_attr_u -> hwloc_obj_attr_u) : option importing :=
  Some (if cond then on_obj im (fun o => with_attr o (f (attr o))) else im).
Definition change_memory (im : importing) (cond : bool) (f : hwloc_obj_memory_s -> hwloc_obj_memory_s) : option importing :=
  Some (if cond then on_obj im (fun o => with_memory o (f (memory o))) else im).

Definition hwloc__xml_import_object_attr (im : importing) (name value : chars) : option importing :=
  let named (s : string) := bool_decide (name = txt s) in
  let type := im_type im in
  let str := string_of_list_ascii value in
  if named "type" then Some im
  else if named "os_level" then Some (on_obj im (fun o => with_os_level o (s32 (number value))))
  else if named "os_index" then Some (on_obj im (fun o => with_os_index o (u32 (number value))))
  else if named "cpuset" then import_set im with_cpuset value
  else if named "complete_cpuset" then import_set im with_complete_cpuset value
  else if named "online_cpuset" then import_set im with_online_cpuset value
  else if named "allowed_cpuset" then import_set im with_allowed_cpuset value
  else if named "nodeset" then import_set im with_nodeset value
  else if named "complete_nodeset" then import_set im with_complete_nodeset value
  else if named "allowed_nodeset" then import_set im with_allowed_nodeset value
  else if named "name" then Some (on_obj im (fun o => with_name o (Some str)))
  else if named "cache_size" then
    change_attr im (is_cache_type type) (fun a => match a with AttrCache _ d l s => AttrCache (number value) d l s | _ => a end)
  else if named "cache_linesize" then
    change_attr im (is_cache_type type) (fun a => match a with AttrCache z d _ s => AttrCache z d (u32 (number value)) s | _ => a end)
  else if named "cache_associativity" then
    change_attr im (is_cache_type type) (fun a => match a with AttrCache z d l _ => AttrCache z d l (s32 (number value)) | _ => a end)
  else if named "local_memory" then change_memory im true (fun m => with_local_memory m (number value))
  else if named "depth" then change_attr im true (fun a => with_attr_depth a (u32 (number value)))
  else if named "pci_busid" then
    match scan_busid value with
    | Some (a, b, c, d) => change_attr im (has_pci type) (fun at_ => with_pcidev at_ (fun p =>
        mk_pcidev (u16 a) (u8 b) (u8 c) (u8 d) (class_id p) (vendor_id p) (device_id p) (subvendor_id p)
          (subdevice_id p) (revision p) (linkspeed p)))
    | None => Some im
    end
  else if named "pci_type" then
    match scan_pci_type value with
    | Some (a, b, c, d, e, f) => change_attr im (has_pci type) (fun at_ => with_pcidev at_ (fun p =>
        mk_pcidev (domain p) (bus p) (dev p) (func p) (u16 a) (u16 b) (u16 c) (u16 d) (u16 e) (u8 f) (linkspeed p)))
    | None => Some im
    end
  else if named "pci_link_speed" then
    change_attr im (has_pci type) (fun at_ => with_pcidev at_ (fun p =>
        mk_pcidev (domain p) (bus p) (dev p) (func p) (class_id p) (vendor_id p) (device_id p) (subvendor_id p)
          (subdevice_id p) (revision p) (atof value)))
  else if named "bridge_type" then
    match scan_bridge_type value with
    | Some (u, d) => change_attr im true (fun at_ => with_bridge at_ (fun b =>
        mk_bridge (upstream b) u (downstream_domain b) (secondary_bus b) (subordinate_bus b) d (b_depth b)))
    | None => Some im
    end
  else if named "bridge_pci" then
    match scan_bridge_pci value with
    | Some (d, s, t) => change_attr im true (fun at_ => with_bridge at_ (fun b =>
        mk_bridge (upstream b) (upstream_type b) (u16 d) (u8 s) (u8 t) (downstream_type b) (b_depth b)))
    | None => Some im
    end
  else if named "osdev_type" then
    match scan_u value with
    | Some (t, _) => change_attr im true (fun a => match a with AttrOsdev _ => AttrOsdev t | _ => a end)
    | None => Some im
    end
  else if named "dmi_board_vendor" then Some (on_obj im (fun o => hwloc_obj_add_info o "DMIBoardVendor" str))
  else if named "dmi_board_name" then Some (on_obj im (fun o => hwloc_obj_add_info o "DMIBoardName" str))
  else if named "memory_kB" then
    let bytes := u64 (Z.shiftl (number value) 10) in
    if is_cache_type type then
      change_attr im true (fun a => match a with AttrCache _ d l s => AttrCache bytes d l s | _ => a end)
    else change_memory im (has_memory type) (fun m => with_local_memory m bytes)
  else if named "huge_page_size_kB" then
    change_memory im (has_memory type) (fun m => on_first_page m (fun p => (u64 (Z.shiftl (number value) 10), snd p)))
  else if named "huge_page_free" then
    change_memory im (has_memory type) (fun m => on_first_page m (fun p => (fst p, number value)))
  else Some im.

(** Setting the type: the union starts as zeros, of any member.  A type set over
    another member's bytes is not followed. *)
Definition set_type (im : importing) (type : hwloc_obj_type_t) : option importing :=
  let o := im_obj im in
  let zero := match im_type im with
              | None => true
              | Some old => bool_decide (attr o = empty_attr old)
              end in
  if zero then Some (mk_importing (Some type) (with_attr (with_type o type) (empty_attr type)))
  else if bool_decide (im_type im = Some type) then Some im
  else None.

(** An attribute of an object: the tests on [(hwloc_obj_type_t) -1] never hold here,
    a type not read yet is [HWLOC_OBJ_TYPE_MAX]. *)
Definition import_attr (im : importing) (name value : chars) : option (option importing) :=
  if bool_decide (name = txt "type") then
    match hwloc_obj_type_of_string (string_of_list_ascii value) with
    | None => Some None
    | Some type => let! im := set_type im type in Some (Some im)
    end
  else let! im := hwloc__xml_import_object_attr im name value in Some (Some im).

(** ** What objects contain *)

(** The int returned is 0 with the state, or -1. *)
Definition import_end {A} (a : A) (state : import_state) : option (option (A * import_state)) :=
  match hwloc__xml_import_close_tag state with
  | Some state => Some (Some (a, state))
  | None => Some None
  end.

Definition attr_fuel (state : import_state) : nat := S (length (attrbuffer state)).

Definition hwloc__xml_import_info (o : hwloc_obj B) (state : import_state) : option (option (hwloc_obj B * import_state)) :=
  let! r := each_attr (fun '(infoname, infovalue) name value =>
      if bool_decide (name = txt "name") then Some (Some (Some value, infovalue))
      else if bool_decide (name = txt "value") then Some (Some (infoname, Some value))
      else Some None) (attr_fuel state) (None, None) state in
  match r with
  | None => Some None
  | Some ((infoname, infovalue), state) =>
      let o := match infoname with
               | Some n => hwloc_obj_add_info o (string_of_list_ascii n) (string_of_list_ascii (default [] infovalue))
               | None => o
               end in
      import_end o state
  end.

Definition hwloc__xml_import_pagetype (o : hwloc_obj B) (state : import_state) : option (option (hwloc_obj B * import_state)) :=
  let! r := each_attr (fun '(size, count) name value =>
      if bool_decide (name = txt "size") then Some (Some (number value, count))
      else if bool_decide (name = txt "count") then Some (Some (size, number value))
      else Some None) (attr_fuel state) (0, 0) state in
  match r with
  | None => Some None
  | Some ((size, count), state) =>
      let o := if size =? 0 then o
               else with_memory o (with_page_types (memory o) (page_types (memory o) ++ [(size, count)])) in
      import_end o state
  end.

(** The loop on the latencies, into an array of [room] floats from index [i] on;
    [n] more to read. *)
Fixpoint import_latencies (n : nat) (room i : Z) (state : import_state) (matrix : list Z) (latmax : Z)
  : option (option (list Z * Z * import_state)) :=
  match n with
  | O => Some (Some (matrix, latmax, state))
  | S n =>
      let! c := hwloc__xml_import_find_child state in
      match c with
      | NoChild | BadChild => Some None
      | Child tag childstate =>
          if negb (bool_decide (tag = txt "latency")) then Some None else
          let! r := hwloc__xml_import_next_attr childstate in
          match r with
          | None => Some None
          | Some (name, value, childstate) =>
              if negb (bool_decide (name = txt "value")) then Some None else
              let val := atof value in
              require! (i <? room) in
              let latmax := if f_lt latmax val then val else latmax in
              match hwloc__xml_import_close_tag childstate with
              | None => Some None
              | Some childstate =>
                  import_latencies n room (i + 1) (hwloc__xml_import_close_child childstate state)
                    (matrix ++ [val]) latmax
              end
          end
      end
  end.

(** [first_distances]; [last_distances] is never set, so that each matrix takes the
    place of the one before. *)
Definition imported_distances : Type := option (Z * hwloc_distances_s).

Definition hwloc__xml_import_distances (first : imported_distances) (addr : Z) (state : import_state)
  : option (option (imported_distances * import_state)) :=
  let! r := each_attr (fun '(nbobjs, reldepth, latbase) name value =>
      if bool_decide (name = txt "nbobjs") then Some (Some (number value, reldepth, latbase))
      else if bool_decide (name = txt "relative_depth") then Some (Some (nbobjs, number value, latbase))
      else if bool_decide (name = txt "latency_base") then Some (Some (nbobjs, reldepth, atof value))
      else Some None) (attr_fuel state) (0, 0, 0) state in
  match r with
  | None => Some None
  | Some ((nbobjs, reldepth, latbase), state) =>
      if negb (nbobjs =? 0) && negb (reldepth =? 0) && f_nonzero latbase then
        let room := u64 (nbobjs * nbobjs * 4) / 4 in
        (* more turns than there are tags end with an error *)
        let turns := u64 (nbobjs * nbobjs) in
        let n := Z.to_nat (Z.min turns (Z.of_nat (S (length (tagbuffer state))))) in
        let! r := import_latencies n room 0 state [] 0 in
        match r with
        | None => Some None
        | Some (matrix, latmax, state) =>
            import_end (Some (addr, mk_distances (u32 reldepth) (u32 nbobjs) matrix latmax latbase)) state
        end
      else import_end first state
  end.

(** ** Objects *)

(** The loop on the subnodes; [object] imports a child object, which was appended to
    the children when it was empty. *)
Section Subnodes.
Context (object : Z -> imported_distances -> import_state
  -> option (option (obj_tree B * Z * imported_distances * import_state))).

Fixpoint import_subnodes (fuel : nat) (o : hwloc_obj B) (ch : list (obj_tree B)) (next : Z)
    (first : imported_distances) (state : import_state)
  : option (option (obj_tree B * Z * imported_distances * import_state)) :=
  match fuel with
  | O => None
  | S fuel =>
      let! c := hwloc__xml_import_find_child state in
      match c with
      | BadChild => Some None
      | NoChild => import_end (Node o ch, next, first) state
      | Child tag childstate =>
          let close childstate := hwloc__xml_import_close_child childstate state in
          if bool_decide (tag = txt "object") then
            let! r := object next first childstate in
            match r with
            | None => Some None
            | Some (c, next, first, childstate) =>
                import_subnodes fuel o (ch ++ [c]) next first (close childstate)
            end
          else if bool_decide (tag = txt "page_type") then
            let! r := hwloc__xml_import_pagetype o childstate in
            match r with
            | None => Some None
            | Some (o, childstate) => import_subnodes fuel o ch next first (close childstate)
            end
          else if bool_decide (tag = txt "info") then
            let! r := hwloc__xml_import_info o childstate in
            match r with
            | None => Some None
            | Some (o, childstate) => import_subnodes fuel o ch next first (close childstate)
            end
          else if bool_decide (tag = txt "distances") then
            let! r := hwloc__xml_import_distances first (o_addr o) childstate in
            match r with
            | None => Some None
            | Some (first, childstate) => import_subnodes fuel o ch next first (close childstate)
            end
          else Some None
      end
  end.

End Subnodes.

(** [im] has just been allocated and linked below its parent.  An object that has no
    type after its attributes is not followed. *)
Fixpoint hwloc__xml_import_object (fuel : nat) (im : importing) (next : Z) (first : imported_distances)
    (state : import_state) : option (option (obj_tree B * Z * imported_distances * import_state)) :=
  match fuel with
  | O => None
  | S fuel =>
      let! r := each_attr import_attr (attr_fuel state) im state in
      match r with
      | None => Some None
      | Some (im, state) =>
          let! _ := im_type im in
          import_subnodes
            (fun next first state =>
               hwloc__xml_import_object fuel
                 (mk_importing None (hwloc_alloc_setup_object next HWLOC_OBJ_SYSTEM (-1))) (next + 1) first state)
            (S (length (tagbuffer state))) (im_obj im) [] next first state
      end
  end.

(** The loop on the headers. *)
Fixpoint skip_headers (fuel : nat) (buffer : chars) : option (option chars) :=
  match fuel with
  | O => None
  | S fuel =>
      if bool_decide (is_Some (after (txt "<?xml ") buffer)) || bool_decide (is_Some (after (txt "<!DOCTYPE ") buffer)) then
        match char_split "010" buffer with
        | None => Some None
        | Some (_, buffer) => skip_headers fuel buffer
        end
      else Some (Some buffer)
  end.

(** [hwloc_look_xml] on the text, up to [hwloc_xml__handle_distances]: from the root
    object to the new hierarchy, the next address and the distances to handle. *)
Definition import_document (root : hwloc_obj B) (next : Z) (buffer : chars)
  : option (option (obj_tree B * Z * imported_distances)) :=
  let! r := skip_headers (S (length buffer)) buffer in
  match r with
  | None => Some None
  | Some buffer =>
      match after (txt "<topology>") buffer with
      | None => Some None
      | Some rest =>
          let state := mk_import rest [] (txt "topology") false in
          let! c := hwloc__xml_import_find_child state in
          match c with
          | Child tag childstate =>
              if negb (bool_decide (tag = txt "object")) then Some None else
              let! r := hwloc__xml_import_object (S (length buffer)) (mk_importing (Some (o_type root)) root) next None childstate in
              match r with
              | None => Some None
              | Some (t, next, first, childstate) =>
                  (* the result of this is not read *)
                  let _ := hwloc__xml_import_close_tag (hwloc__xml_import_close_child childstate state) in
                  Some (Some (t, next, first))
              end
          | _ => Some None
          end
      end
  end.

End Importing.
