(* ===== verification/XmlTokens.v ===== *)
(** * XmlTokens: the parser on the tags, attributes and numbers that the export writes *)

From Stdlib Require Import Ascii String.
From S2P Require Import Prelude Misc Bitmap CString BitmapString CStringOk Cpuset Obj Synthetic Float Scan CpusetText XmlExport XmlExportOk XmlImport.

(** ** Scanning *)

Lemma strspn_app (set : ascii -> bool) p rest :
  Forall (fun c => set c = true) p -> match rest with c :: _ => set c = false | [] => True end ->
  strspn set (p ++ rest) = (p, rest).
Proof.
  intros Hp Hr. induction Hp as [|c p Hc _ IH]; cbn [app strspn].
  - destruct rest as [|d rest]; [done|]. cbn [strspn]. by rewrite Hr.
  - by rewrite Hc, IH.
Qed.

Notation ignore_spaces := hwloc__nolibxml_import_ignore_spaces.

Lemma ignore_blank c s : blank c = true -> ignore_spaces (c :: s) = ignore_spaces s.
Proof. intros Hc. unfold ignore_spaces. cbn [strspn]. rewrite Hc. by destruct (strspn blank s). Qed.

Lemma ignore_front c s : blank c = false -> ignore_spaces (c :: s) = c :: s.
Proof. intros Hc. unfold ignore_spaces. cbn [strspn]. by rewrite Hc. Qed.

Lemma ignore_twice s : ignore_spaces (ignore_spaces s) = ignore_spaces s.
Proof.
  induction s as [|c s IH]; [done|]. destruct (blank c) eqn:Hc; [by rewrite ignore_blank|by rewrite !ignore_front].
Qed.

Lemma ignore_pad i s : ignore_spaces (pad i ++ s) = ignore_spaces s.
Proof. unfold pad. induction (Z.to_nat i) as [|n IH]; [done|]. cbn [replicate app]. by rewrite ignore_blank. Qed.

Lemma ignore_LF s : ignore_spaces (LF ++ s) = ignore_spaces s.
Proof. by apply ignore_blank. Qed.

(** ** Attributes *)

(** A value that reads back: nothing to escape, no NUL. *)
Definition clean_char (c : ascii) : bool := plain_char c && negb (c =? NUL)%char.
Definition clean_value (v : chars) : Prop := Forall (fun c => clean_char c = true) v.

Lemma clean_plain v : clean_value v -> plain v.
Proof. intros Hv. eapply Forall_impl; [exact Hv|]. cbv beta. intros c Hc. by apply andb_prop in Hc as [? _]. Qed.

Lemma plain_char_not c d : plain_char c = true -> plain_char d = false -> c <> d.
Proof. intros Hc Hd ->. congruence. Qed.

Lemma char_at_quote v rest : char_at (v ++ QUOTE ++ rest) (length v) = Some "034"%char.
Proof.
  unfold char_at. rewrite length_app. destruct (Nat.eqb_spec (length v) (length v + length (QUOTE ++ rest))) as [He|_];
    [simpl in He; lia|]. change (QUOTE ++ rest) with ("034"%char :: rest). by apply list_lookup_middle.
Qed.

Lemma char_at_in (v u : chars) k : (k < length v)%nat -> char_at (v ++ u) k = v !! k.
Proof.
  intros Hk. unfold char_at. rewrite length_app. destruct (Nat.eqb_spec k (length v + length u)) as [He|_]; [lia|].
  by apply lookup_app_l.
Qed.

Lemma read_value_ok v rest k fuel : clean_value v -> (k <= length v)%nat -> (length v - k <= fuel)%nat ->
  read_value fuel (v ++ QUOTE ++ rest) k 0 = Some (Some (length v, 0%nat, v ++ QUOTE ++ rest)).
Proof.
  intros Hv. revert k. induction fuel as [|fuel IH]; intros k Hk Hf; cbn [read_value]; rewrite (Nat.add_0_r k);
    (destruct (decide (k = length v)) as [->|Hne]; [by rewrite char_at_quote|]); [lia|].
  rewrite (char_at_in v (QUOTE ++ rest) k) by lia. destruct (lookup_lt_is_Some_2 v k ltac:(lia)) as [c Hc]. rewrite Hc. cbn [mbind option_bind].
  assert (clean_char c = true) as Hcl by (eapply Forall_lookup_1 in Hv; [exact Hv|exact Hc]).
  apply andb_prop in Hcl as [Hcp _].
  destruct (Ascii.eqb_spec c "034") as [Hq|_]; [by subst|]. destruct (Ascii.eqb_spec c "&") as [Hq|_]; [by subst|].
  rewrite (Nat.add_0_r (S k)). assert (exists d, char_at (v ++ QUOTE ++ rest) (S k) = Some d /\ d <> NUL) as (d & -> & Hdn).
  { destruct (decide (S k = length v)) as [Heq|Hlt].
    - exists "034"%char. split; [rewrite Heq; apply char_at_quote|done].
    - rewrite (char_at_in v (QUOTE ++ rest) (S k)) by lia. destruct (lookup_lt_is_Some_2 v (S k) ltac:(lia)) as [d Hd]. exists d. split; [done|].
      assert (clean_char d = true) as Hcd by (eapply Forall_lookup_1 in Hv; [exact Hv|exact Hd]).
      apply andb_prop in Hcd as [_ Hn]. by intros ->. }
  cbn [mbind option_bind]. destruct (Ascii.eqb_spec d NUL) as [|_]; [done|]. apply IH; lia.
Qed.

Definition good_name (s : string) : Prop := Forall (fun c => name_char c = true) (txt s) /\ s <> EmptyString.
Definition good_prop (p : string * chars) : Prop := good_name (fst p) /\ clean_value (snd p).

Ltac name_is_good := split; [by repeat constructor|done].

(** An attribute without the space in front. *)
Definition bare_text (p : string * chars) : chars := txt (fst p) ++ txt "=" ++ QUOTE ++ snd p ++ QUOTE.

Lemma prop_text_bare p : good_prop p -> prop_text p = " "%char :: bare_text p.
Proof. intros [_ Hv]. unfold prop_text. by rewrite esc_plain by by apply clean_plain. Qed.

Lemma name_not_blank c : name_char c = true -> blank c = false.
Proof.
  unfold name_char, blank. intros Hc. destruct (Ascii.eqb_spec c " ") as [->|_]; [done|].
  destruct (Ascii.eqb_spec c "009") as [->|_]; [done|]. by destruct (Ascii.eqb_spec c "010") as [->|_].
Qed.

Lemma ignore_bare p rest : good_prop p -> ignore_spaces (bare_text p ++ rest) = bare_text p ++ rest.
Proof.
  intros [[Hn Hne] _]. unfold bare_text. destruct (fst p) as [|c s]; [done|]. cbn [txt list_ascii_of_string] in *.
  apply Forall_cons in Hn as [Hc _]. apply ignore_front. by apply name_not_blank.
Qed.

Lemma ignore_props p ps rest : good_prop p ->
  ignore_spaces (props_text (p :: ps) ++ rest) = bare_text p ++ props_text ps ++ rest.
Proof.
  intros Hp. unfold props_text. cbn [map concat]. rewrite prop_text_bare by done. rewrite <- app_assoc.
  cbn [app]. rewrite ignore_blank by done. by apply ignore_bare.
Qed.

Lemma next_attr_ok p rest state : good_prop p -> ignore_spaces (attrbuffer state) = bare_text p ++ rest ->
  hwloc__xml_import_next_attr state = Some (Some (txt (fst p), snd p, with_attrbuffer state (ignore_spaces rest))).
Proof.
  intros [[Hn _] Hv] Hb. unfold hwloc__xml_import_next_attr. rewrite Hb. unfold bare_text. rewrite <- !app_assoc.
  rewrite (strspn_app _ (txt (fst p))) by done.
  change (drop 2 (txt "=" ++ QUOTE ++ snd p ++ QUOTE ++ rest)) with (snd p ++ QUOTE ++ rest).
  match goal with |- context [negb ?b] => change (negb b) with false end. cbn match.
  rewrite read_value_ok by (try done; rewrite ?length_app; lia). cbn [mbind option_bind].
  rewrite take_app_le, firstn_all2 by lia. do 3 f_equal.
  rewrite drop_app_ge by lia. by replace (length (snd p) + 0 + 1 - length (snd p))%nat with 1%nat by lia.
Qed.

Lemma next_attr_end state : ignore_spaces (attrbuffer state) = [] -> hwloc__xml_import_next_attr state = Some None.
Proof. intros Hb. unfold hwloc__xml_import_next_attr. by rewrite Hb. Qed.

(** The attributes one after the other. *)
Section Run.
Context {A : Type} (body : A -> chars -> chars -> option (option A)).

Fixpoint run_attrs (ps : list (string * chars)) (a : A) : option (option A) :=
  match ps with
  | [] => Some (Some a)
  | p :: ps =>
      let! r := body a (txt (fst p)) (snd p) in
      match r with None => Some None | Some a => run_attrs ps a end
  end.

Lemma run_app ps qs a b : run_attrs ps a = Some (Some b) -> run_attrs (ps ++ qs) a = run_attrs qs b.
Proof.
  revert a. induction ps as [|p ps IH]; intros a; cbn [run_attrs app]; [by intros [= ->]|].
  destruct (body _ _ _) as [[a'|]|]; cbn [mbind option_bind]; [apply IH|done|done].
Qed.

(** Attributes that are read, up to [rest] where there is no other one. *)
Lemma each_attr_ok ps rest fuel a b state : Forall good_prop ps -> (length ps < fuel)%nat ->
  (forall state, ignore_spaces (attrbuffer state) = ignore_spaces rest -> hwloc__xml_import_next_attr state = Some None) ->
  ignore_spaces (attrbuffer state) = ignore_spaces (props_text ps ++ rest) -> run_attrs ps a = Some (Some b) ->
  each_attr body fuel a state = Some (Some (b, with_attrbuffer state (ignore_spaces rest))) \/
  (ps = [] /\ each_attr body fuel a state = Some (Some (b, state))).
Proof.
  intros Hps. revert fuel a state. induction Hps as [|p ps Hp Hps IH]; intros fuel a state Hf Hend Hb Hrun.
  - right. split; [done|]. destruct fuel as [|fuel]; [simpl in Hf; lia|]. cbn [each_attr].
    rewrite Hend by done. cbn [mbind option_bind]. by injection Hrun as ->.
  - left. destruct fuel as [|fuel]; [simpl in Hf; lia|]. cbn [each_attr].
    rewrite (next_attr_ok p (props_text ps ++ rest) state Hp) by (rewrite Hb; by apply ignore_props).
    cbn [mbind option_bind]. cbn [run_attrs] in Hrun.
    destruct (body a (txt (fst p)) (snd p)) as [[a'|]|]; cbn [mbind option_bind] in *; [|done|done].
    destruct (IH fuel a' (with_attrbuffer state (ignore_spaces (props_text ps ++ rest)))) as [->|[-> ->]];
      [simpl in Hf; lia|done| |done|done|done].
    cbn [attrbuffer with_attrbuffer]. by rewrite ignore_twice.
Qed.

End Run.

(** A value with a character reference is refused. *)
Lemma unescape_quoted s : "034"%char ∈ s -> unescape s = None.
Proof.
  intros Hin. unfold unescape.
  repeat (rewrite bool_decide_false by (intros ->; revert Hin; rewrite list_elem_of_In; vm_compute; intuition discriminate)).
  done.
Qed.

Lemma read_value_amp p s rest k fuel : clean_value p -> (k <= length p)%nat -> (length p - k < fuel)%nat ->
  read_value fuel ((p ++ "&"%char :: s) ++ QUOTE ++ rest) k 0 = Some None.
Proof.
  intros Hp. set (v := p ++ "&"%char :: s). assert (length p < length v)%nat as Hlen by (unfold v; rewrite length_app; simpl; lia).
  revert k. induction fuel as [|fuel IH]; intros k Hk Hf; [lia|]. cbn [read_value]. rewrite (Nat.add_0_r k).
  rewrite (char_at_in v (QUOTE ++ rest) k) by lia.
  destruct (decide (k = length p)) as [->|Hne].
  - assert (v !! length p = Some "&"%char) as -> by by apply list_lookup_middle. cbn [mbind option_bind].
    change ("&"%char =? "034")%char with false. change ("&"%char =? "&")%char with true. cbn match.
    rewrite unescape_quoted; [done|]. rewrite Nat.add_0_r, drop_app_le by lia. apply elem_of_app. right. left.
  - destruct (lookup_lt_is_Some_2 p k ltac:(lia)) as [c Hc].
    assert (v !! k = Some c) as -> by by apply lookup_app_l_Some.
    cbn [mbind option_bind]. assert (forall j d, p !! j = Some d -> clean_char d = true) as Hall
      by (intros j d Hd; eapply Forall_lookup_1 in Hp; [exact Hp|exact Hd]).
    pose proof (Hall k c Hc) as Hcl. apply andb_prop in Hcl as [Hcp _].
    destruct (Ascii.eqb_spec c "034") as [Hq|_]; [by subst|]. destruct (Ascii.eqb_spec c "&") as [Hq|_]; [by subst|].
    rewrite (Nat.add_0_r (S k)), (char_at_in v (QUOTE ++ rest) (S k)) by lia.
    assert (exists d, v !! S k = Some d /\ d <> NUL) as (d & -> & Hd).
    { destruct (decide (S k = length p)) as [Heq|Hlt].
      - exists "&"%char. split; [rewrite Heq; by apply list_lookup_middle|done].
      - unfold v. rewrite lookup_app_l by lia. destruct (lookup_lt_is_Some_2 p (S k) ltac:(lia)) as [d Hd]. exists d.
        split; [done|]. pose proof (Hall _ _ Hd) as Hcd. apply andb_prop in Hcd as [_ Hn]. by intros ->. }
    cbn [mbind option_bind]. destruct (Ascii.eqb_spec d NUL) as [|_]; [done|]. apply IH; lia.
Qed.

Lemma next_attr_escaped name value rest state : good_name name -> ~ plain value -> NUL ∉ value ->
  ignore_spaces (attrbuffer state) = txt name ++ txt "=" ++ QUOTE ++ esc value ++ QUOTE ++ rest ->
  hwloc__xml_import_next_attr state = Some None.
Proof.
  intros [Hn _] Hv Hnul Hb. unfold hwloc__xml_import_next_attr. rewrite Hb.
  rewrite (strspn_app _ (txt name)) by done.
  change (drop 2 (txt "=" ++ QUOTE ++ esc value ++ QUOTE ++ rest)) with (esc value ++ QUOTE ++ rest).
  match goal with |- context [negb ?b] => change (negb b) with false end. cbn match.
  pose proof (plain_prefix_ok value) as Hp. destruct (plain_prefix value) as [p [|c s]].
  { destruct Hp as (Heq & Hp & _). destruct Hv. by rewrite Heq, app_nil_r. }
  destruct Hp as (-> & Hp & Hc).
  assert (exists s', esc (p ++ c :: s) = p ++ "&"%char :: s') as [s' ->].
  { unfold esc. rewrite List.map_app, List.concat_app. fold (esc p) (esc (c :: s)). rewrite (esc_plain p Hp), esc_cons.
    unfold plain_char in Hc. destruct (escape_char c) as [e|] eqn:He; [|done]. cbn [default].
    assert (exists e', e = "&"%char :: e') as [e' ->]; [|by eexists].
    unfold escape_char in He. repeat (case_match; [simplify_eq; by eexists|]). done. }
  assert (clean_value p) as Hclean.
  { apply Forall_forall. intros d Hd. unfold plain in Hp. rewrite Forall_forall in Hp. unfold clean_char. rewrite Hp by done.
    destruct (Ascii.eqb_spec d NUL) as [->|_]; [|done]. destruct Hnul. apply elem_of_app. by left. }
  rewrite read_value_amp; [done|done|lia|]. rewrite !length_app. simpl. lia.
Qed.

(** ** Tags *)

Lemma name_not_gt c : name_char c = true -> c <> ">"%char.
Proof. by intros Hc ->. Qed.

Lemma prop_no_gt p : good_prop p -> ">"%char ∉ prop_text p.
Proof.
  intros Hp. rewrite prop_text_bare by done. destruct Hp as [[Hn _] Hv]. unfold bare_text, QUOTE. rewrite Forall_forall in Hn.
  rewrite elem_of_cons, !elem_of_app, !list_elem_of_singleton. intros [|[Hin|[Hin|[Hin|[Hin|Hin]]]]]; try done.
  - by specialize (Hn _ Hin).
  - by apply list_elem_of_singleton in Hin.
  - apply clean_plain in Hv. unfold plain in Hv. rewrite Forall_forall in Hv. by specialize (Hv _ Hin).
Qed.

Lemma props_no_gt ps : Forall good_prop ps -> ">"%char ∉ props_text ps.
Proof.
  induction 1 as [|p ps Hp _ IH]; [by intros ?%not_elem_of_nil|]. unfold props_text. cbn [map concat].
  rewrite elem_of_app. intros [Hin|Hin]; [by apply (prop_no_gt p)|done].
Qed.

Lemma last_props p ps : last (props_text (p :: ps)) = Some "034"%char.
Proof.
  revert p. induction ps as [|q ps IH]; intros p.
  - unfold props_text, prop_text. cbn [map concat]. by rewrite app_nil_r, !app_assoc, last_app.
  - change (props_text (p :: q :: ps)) with (prop_text p ++ props_text (q :: ps)). by rewrite last_app, IH.
Qed.

(** The state in which a tag that was exported is left. *)
Definition child_state (name : string) (ps : list (string * chars)) (n : Z) (rest : chars) : import_state :=
  mk_import (LF ++ rest) (tail (props_text ps)) (txt name) (n =? 0).

Lemma find_child_ok state i name p ps n rest :
  closed state = false -> good_name name -> Forall good_prop (p :: ps) ->
  tagbuffer state = LF ++ open_text i name (p :: ps) n ++ rest ->
  hwloc__xml_import_find_child state = Some (Child (txt name) (child_state name (p :: ps) n rest)).
Proof.
  intros Hc [Hn Hne] Hps Ht. unfold hwloc__xml_import_find_child. rewrite Hc, Ht, ignore_LF. unfold open_text.
  rewrite <- !app_assoc, ignore_pad. change (txt "<" ++ ?s) with ("<"%char :: s). rewrite ignore_front by done.
  assert (front (txt name ++ props_text (p :: ps) ++ end_props_text n ++ rest) <> "/"%char) as Hfront.
  { destruct name as [|c s]; [done|]. cbn. apply Forall_cons in Hn as [Hc' _]. by intros ->. }
  destruct (Ascii.eqb_spec (front (txt name ++ props_text (p :: ps) ++ end_props_text n ++ rest)) "/") as [|_]; [done|].
  set (tag := txt name ++ props_text (p :: ps)).
  assert (">"%char ∉ tag) as Hgt.
  { unfold tag. rewrite elem_of_app. intros [Hin|Hin]; [|by apply (props_no_gt (p :: ps))].
    rewrite Forall_forall in Hn. by apply (name_not_gt _ (Hn _ Hin)). }
  assert (last tag = Some "034"%char) as Hlast by (unfold tag; by rewrite last_app, last_props).
  assert (Hspan : strspn name_char tag = (txt name, props_text (p :: ps))).
  { apply strspn_app; [done|]. unfold props_text, prop_text. done. }
  assert (Hfin : forall closed, (let '(name0, attrs) := strspn name_char tag in
      require! negb (bool_decide (attrs = [])) in
      if negb (front attrs =? " ")%char then Some BadChild
      else Some (Child name0 (mk_import (LF ++ rest) (drop 1 attrs) name0 closed))) =
      Some (Child (txt name) (mk_import (LF ++ rest) (tail (props_text (p :: ps))) (txt name) closed))).
  { intros closed0. rewrite Hspan. unfold props_text, prop_text. cbn [map concat]. by rewrite bool_decide_false. }
  unfold child_state, end_props_text. destruct (n =? 0).
  - change ((txt "/>" ++ LF) ++ rest) with (["/"%char] ++ ">"%char :: LF ++ rest).
    rewrite (app_assoc (txt name)), app_assoc. fold tag.
    rewrite strchr_app by (rewrite elem_of_app, list_elem_of_singleton; intros [|]; done).
    rewrite last_snoc, length_app. replace (take _ (tag ++ ["/"%char])) with tag; [apply Hfin|].
    rewrite take_app_le by (simpl; lia). symmetry. apply firstn_all2. simpl. lia.
  - change ((txt ">" ++ LF) ++ rest) with (">"%char :: LF ++ rest). rewrite app_assoc. fold tag.
    rewrite strchr_app by done. rewrite Hlast. apply Hfin.
Qed.

Lemma no_child_closed state : closed state = true -> hwloc__xml_import_find_child state = Some NoChild.
Proof. intros Hc. unfold hwloc__xml_import_find_child. by rewrite Hc. Qed.

Lemma no_child_end state i name rest : closed state = false ->
  tagbuffer state = LF ++ close_text i name 1 ++ rest -> hwloc__xml_import_find_child state = Some NoChild.
Proof.
  intros Hc Ht. unfold hwloc__xml_import_find_child. rewrite Hc, Ht, ignore_LF. unfold close_text.
  change (1 =? 0) with false. cbn match. rewrite <- !app_assoc, ignore_pad. done.
Qed.

Lemma close_tag_closed state : closed state = true -> hwloc__xml_import_close_tag state = Some state.
Proof. intros Hc. unfold hwloc__xml_import_close_tag. by rewrite Hc. Qed.

Lemma close_tag_ok state i name rest : closed state = false -> good_name name -> tagname state = txt name ->
  tagbuffer state = LF ++ close_text i name 1 ++ rest ->
  hwloc__xml_import_close_tag state = Some (with_tagbuffer state (LF ++ rest)).
Proof.
  intros Hc [Hn _] Hname Ht. unfold hwloc__xml_import_close_tag. rewrite Hc, Ht, ignore_LF. unfold close_text.
  change (1 =? 0) with false. cbn match. rewrite <- !app_assoc, ignore_pad.
  change (txt "</" ++ ?s) with ("<"%char :: "/"%char :: s). rewrite ignore_front by done.
  change (txt ">" ++ LF ++ rest) with (">"%char :: LF ++ rest). rewrite app_comm_cons.
  rewrite strchr_app.
  - cbn [front head default drop]. rewrite Hname, bool_decide_true by done. done.
  - rewrite elem_of_cons. intros [|Hin]; [done|]. rewrite Forall_forall in Hn. by apply (name_not_gt _ (Hn _ Hin)).
Qed.

(** Their characters need no escape. *)
Lemma digit_clean base c : is_Some (is_digit base c) -> clean_char c = true.
Proof.
  intros Hc. assert (forall d, is_digit base d = None -> c <> d) as Hne by (intros d; by apply digit_not).
  unfold clean_char, plain_char, escape_char.
  repeat match goal with |- context [(c =? ?d)%char] => destruct (Ascii.eqb_spec c d) as [Hd|_]; [by destruct (Hne d)|] end.
  done.
Qed.

Lemma digits_clean base ds : is_digits base ds -> clean_value ds.
Proof. intros Hds. eapply Forall_impl; [exact Hds|]. intros c Hc. by apply (digit_clean base). Qed.

Lemma fmt_u_clean n : 0 <= n < 2 ^ 64 -> clean_value (fmt_u n).
Proof. intros Hn. destruct (print_num_text 10 n ltac:(lia) Hn) as [H1 _ _ _ _]. by apply (digits_clean 10). Qed.

Lemma fmt_d_clean n : - 2 ^ 31 <= n < 2 ^ 31 -> clean_value (fmt_d n).
Proof.
  intros Hn. unfold fmt_d. destruct (Z.ltb_spec n 0); [constructor; [done|]|]; apply fmt_u_clean; lia.
Qed.

Lemma clean_app v v' : clean_value (v ++ v') <-> clean_value v /\ clean_value v'.
Proof. apply Forall_app. Qed.

(** ** The formats of [sscanf] *)

Lemma fmt_0lx_clean width n : hex_value width n -> clean_value (fmt_0lx width n).
Proof.
  intros Hv. pose proof (hex_small _ _ Hv). destruct Hv as [Hw Hn].
  destruct (fmt_0lx_text width n ltac:(lia) ltac:(lia) ltac:(lia)) as (H1 & _ & _). by apply (digits_clean 16).
Qed.

Lemma hex_no_space width n rest : hex_value width n -> no_space (fmt_0lx width n ++ rest).
Proof.
  intros Hv. pose proof (hex_small _ _ Hv). destruct Hv as [Hw Hn].
  destruct (fmt_0lx_text width n ltac:(lia) ltac:(lia) ltac:(lia)) as (H1 & _ & H3).
  destruct (fmt_0lx width n) as [|c ds]; [simpl in H3; lia|]. apply Forall_cons in H1 as [Hc _].
  by apply (isspace_digit 16).
Qed.

Record pci_ranges (p : hwloc_pcidev_attr_s) : Prop := {
  pr_domain : hex_value 4 (domain p); pr_bus : hex_value 2 (bus p); pr_dev : hex_value 2 (dev p);
  pr_func : hex_value 1 (func p); pr_class : hex_value 4 (class_id p); pr_vendor : hex_value 4 (vendor_id p);
  pr_device : hex_value 4 (device_id p); pr_subvendor : hex_value 4 (subvendor_id p);
  pr_subdevice : hex_value 4 (subdevice_id p); pr_revision : hex_value 2 (revision p);
}.

(** One number of a format and the text after it. *)
Ltac scan_number tac :=
  rewrite scan_hex_ok by tac; cbn [mbind option_bind];
  rewrite scan_text_ok by (repeat split; first [by left|right; split; [done|]; first [done|by apply hex_no_space; tac]]);
  cbn [mbind option_bind].

Lemma scan_busid_ok p : pci_ranges p -> scan_busid (busid_text p) = Some (domain p, bus p, dev p, func p).
Proof.
  intros Hp. unfold scan_busid, busid_text. rewrite <- (app_nil_r (fmt_0lx 1 (func p))).
  do 3 (scan_number ltac:(apply Hp)). by rewrite scan_hex_ok by apply Hp.
Qed.

Lemma scan_pci_type_ok p : pci_ranges p ->
  scan_pci_type (pci_type_text p) =
    Some (class_id p, vendor_id p, device_id p, subvendor_id p, subdevice_id p, revision p).
Proof.
  intros Hp. unfold scan_pci_type, pci_type_text. rewrite <- (app_nil_r (fmt_0lx 2 (revision p))).
  do 5 (scan_number ltac:(apply Hp)). by rewrite scan_hex_ok by apply Hp.
Qed.

Record bridge_ranges (b : hwloc_bridge_attr_s) : Prop := {
  br_up : 0 <= upstream_type b < 2 ^ 32; br_down : 0 <= downstream_type b < 2 ^ 32;
  br_depth : 0 <= b_depth b < 2 ^ 32;
  br_domain : hex_value 4 (downstream_domain b);
  br_bus : hex_value 2 (secondary_bus b); br_subbus : hex_value 2 (subordinate_bus b);
}.

Lemma scan_bridge_type_ok b : bridge_ranges b ->
  scan_bridge_type (bridge_type_text b) = Some (upstream_type b, downstream_type b).
Proof.
  intros Hb. unfold scan_bridge_type, bridge_type_text. rewrite scan_u_ok by (done || apply Hb). cbn [mbind option_bind].
  rewrite scan_text_ok by (repeat split; by left). cbn [mbind option_bind].
  rewrite <- (app_nil_r (fmt_u (downstream_type b))). by rewrite scan_u_ok by (done || apply Hb).
Qed.

Lemma scan_bridge_pci_ok b : bridge_ranges b ->
  scan_bridge_pci (bridge_pci_text b) = Some (downstream_domain b, secondary_bus b, subordinate_bus b).
Proof.
  intros Hb. unfold scan_bridge_pci, bridge_pci_text. do 2 (scan_number ltac:(apply Hb)).
  rewrite scan_hex_ok by apply Hb. done.
Qed.

(** No escapes in these. *)
Lemma hex_text_clean width n rest : hex_value width n -> clean_value rest -> clean_value (fmt_0lx width n ++ rest).
Proof. intros Hv Hr. apply clean_app. split; [by apply fmt_0lx_clean|done]. Qed.

Ltac clean_number tac := apply hex_text_clean; [tac|]; try (apply clean_app; split; [by repeat constructor|]).

Lemma busid_clean p : pci_ranges p -> clean_value (busid_text p).
Proof.
  intros Hp. unfold busid_text. do 3 (clean_number ltac:(apply Hp)). apply fmt_0lx_clean, Hp.
Qed.

Lemma pci_type_clean p : pci_ranges p -> clean_value (pci_type_text p).
Proof.
  intros Hp. unfold pci_type_text. do 5 (clean_number ltac:(apply Hp)). apply fmt_0lx_clean, Hp.
Qed.

Lemma bridge_type_clean b : bridge_ranges b -> clean_value (bridge_type_text b).
Proof.
  intros [? ? _ _ _ _]. unfold bridge_type_text. apply clean_app. split; [apply fmt_u_clean; lia|].
  apply clean_app. split; [by repeat constructor|apply fmt_u_clean; lia].
Qed.

Lemma bridge_pci_clean b : bridge_ranges b -> clean_value (bridge_pci_text b).
Proof.
  intros Hb. unfold bridge_pci_text. do 2 (clean_number ltac:(apply Hb)). apply hex_text_clean; [apply Hb|by repeat constructor].
Qed.
