(* ===== verification/CpusetTextOk.v ===== *)
(** * CpusetTextOk: the texts of sets are read back from XML

    [CpusetTextOk] is what the import relies on; the bitmaps of at most 2^20 words
    keep it. *)

From Stdlib Require Import Ascii String.
From S2P Require Import Prelude Misc Bitmap BitmapSpec BitmapOps BitmapTests BitmapModel CString CStringOk BitmapString MaskTextOk Cpuset CpusetText Float Scan XmlExport XmlExportOk XmlImport XmlTokens.

Class CpusetTextOk (B : Type) `{CpusetOps B} `{CpusetText B} := {
  b_printable : B -> Prop;
  b_text : forall s, b_printable s -> exists text s',
    b_asprintf s = Some text /\ clean_value text /\ b_sscanf text = Some s' /\ beq s' s;
  b_full : forall s, b_isfull s = true <-> forall i, 0 <= i -> bm s i = true;
}.

Lemma mask_item_clean m last : 0 <= m < 2 ^ 32 -> clean_value (mask_item m last).
Proof.
  intros Hm. unfold mask_item. destruct (_ || _); [|constructor]. apply clean_app. split; [by repeat constructor|].
  destruct (mask_digits_ok m Hm) as (H1 & _). by apply (digits_clean 16).
Qed.

Lemma mask_text_clean nc l : Forall (fun m => 0 <= m < 2 ^ 32) l -> clean_value (mask_text nc l).
Proof.
  intros Hl. revert nc. induction Hl as [|m l Hm Hl IH]; intros nc; [constructor|]. cbn [mask_text].
  apply clean_app. split; [|apply IH]. unfold mask_piece. destruct (_ || _); [|constructor].
  pose proof (mask_item_clean m (bool_decide (l = [])) Hm). destruct nc; [by constructor|done].
Qed.

Lemma bitmap_text_clean set : wf set -> clean_value (bitmap_text set).
Proof.
  intros Hs. pose proof (set_masks_range set Hs). unfold bitmap_text.
  destruct (infinite set); [|by apply mask_text_clean].
  apply clean_app. split; [by repeat constructor|]. destruct (all_full set); [constructor|by apply mask_text_clean].
Qed.

Lemma checked_ok s : wf s -> int_sized s -> exists a, checked_wbitmap s = Some a /\ w a = s.
Proof.
  intros Hs Hsz. unfold checked_wbitmap. destruct (decide (cpuset_ok s = true)) as [Hok|Hno]; [by eexists|].
  destruct Hno. by apply cpuset_ok_spec.
Qed.

Section Bitmaps.
Context `{MallocTotal}.

Lemma bitmap_text_reads (a : wbitmap) : printable (w a) -> exists text s',
  b_asprintf a = Some text /\ clean_value text /\ b_sscanf text = Some s' /\ beq s' a.
Proof.
  intros [Hwf Hc]. cbn [b_asprintf b_sscanf bitmap_cpuset_text].
  rewrite hwloc_bitmap_asprintf_ok by done. cbn [mbind option_bind].
  rewrite Nat2Z.id, take_app_le, firstn_all by lia.
  destruct alloc_ok as (e & He & Hewf & _). rewrite He. cbn [mbind option_bind].
  destruct (hwloc_bitmap_sscanf_ok e (w a) Hewf Hwf) as (r & Hr & Hrwf & Hsame & Hsz).
  destruct (checked_ok r Hrwf) as (s' & Hs' & Hws); [unfold int_sized; lia|].
  exists (bitmap_text (w a)), s'. split_and!; [done|by apply bitmap_text_clean| |].
  - rewrite Hr. cbn [mbind option_bind]. exact Hs'.
  - intros i Hi. change (bm s' i) with (mem (w s') i). rewrite Hws. by apply Hsame.
Qed.

Lemma bitmap_isfull_ok (a : wbitmap) : b_isfull a = true <-> forall i, 0 <= i -> bm a i = true.
Proof.
  cbn [b_isfull bitmap_cpuset_text].
  destruct (isfull_ok (w a)) as (b & -> & Hb); [apply cpuset_ok_spec, (proj2_sig a)|].
  exact Hb.
Qed.

#[export] Instance bitmap_cpuset_text_ok : CpusetTextOk wbitmap := {
  b_printable a := printable (w a);
  b_text := bitmap_text_reads;
  b_full := bitmap_isfull_ok;
}.

End Bitmaps.
