(* ===== verification/XmlImportOk.v ===== *)
(** * XmlImportOk: the objects of an exported text are imported

    What [hwloc__xml_import_object_attr] makes of each property that the export
    prints for an object, and of all of them together; [reread_tree] is what the
    importer makes of a hierarchy that was exported. *)

From Stdlib Require Import Ascii String.
From S2P Require Import Prelude Misc Bitmap CString BitmapString CStringOk Cpuset Obj Insert Synthetic Float Scan CpusetText XmlExport XmlExportOk XmlImport XmlTokens CpusetTextOk.

(** The printed floats need no escape. *)
Lemma print_num_clean n : 0 <= n < 10 ^ 64 -> clean_value (print_num 10 n).
Proof. intros Hn. destruct (print_digits_text 64 10 n ltac:(lia) Hn ltac:(done)) as [H1 _ _ _ _]. by apply (digits_clean 10). Qed.

Lemma round_div_small n d k : 0 <= n < k * d -> 0 < d -> 0 <= round_div n d <= k.
Proof.
  intros Hn Hd. unfold round_div. assert (0 <= n / d < k) by (split; [apply Z.div_pos; lia|apply Z.div_lt_upper_bound; lia]).
  destruct (_ || _); lia.
Qed.

Lemma fmt_f_clean x : clean_value (fmt_f x).
Proof.
  unfold fmt_f. apply clean_app. split; [destruct (f_sign x); by repeat constructor|].
  destruct (Z.eqb_spec (f_exponent x) 255) as [|_]; [destruct (_ =? 0); by repeat constructor|].
  set (n := round_div _ _).
  assert (0 <= f_exponent x < 2 ^ 8) as He by (unfold f_exponent; rewrite (Z.land_ones _ 8) by lia; apply Z.mod_pos_bound; lia).
  assert (0 <= f_fraction x < 2 ^ 23) as Hf by (unfold f_fraction; rewrite (Z.land_ones _ 23) by lia; apply Z.mod_pos_bound; lia).
  assert (0 <= f_mantissa x < 2 ^ 24) as Hm by (unfold f_mantissa; destruct (_ =? 0); lia).
  assert (0 <= n <= 2 ^ 130 * 10 ^ 6) as Hn.
  { unfold n, scale_up, scale_down. destruct (Z.leb_spec 0 (f_scale x)) as [Hs|Hs].
    - assert (1 <= 2 ^ f_scale x <= 2 ^ 105).
      { split; [|apply Z.pow_le_mono_r; unfold f_scale in *; lia]. apply (Z.pow_le_mono_r 2 0); lia. }
      apply round_div_small; [|lia]. split; [lia|]. rewrite Z.mul_1_r. nia.
    - assert (1 <= 2 ^ (- f_scale x)) by (apply (Z.pow_le_mono_r 2 0); lia).
      apply round_div_small; [|lia]. nia. }
  apply clean_app. split; [|apply clean_app; split; [by repeat constructor|apply clean_app; split]].
  - apply print_num_clean. split; [apply Z.div_pos; lia|]. apply Z.div_lt_upper_bound; lia.
  - apply Forall_replicate. done.
  - apply print_num_clean. pose proof (Z.mod_pos_bound n (10 ^ 6) ltac:(lia)). lia.
Qed.

(** What a printed float is read as. *)
Definition reread_float (x : Z) : Z := atof (fmt_f x).

Section Attrs.
Context `{Malloc} {B : Type} `{CpusetOps B} `{CpusetText B} `{!CpusetTextOk B}.
Implicit Types o : hwloc_obj B.
Implicit Types im : importing (B := B).

(** ** Each property *)

Definition gives (ps : list (string * chars)) im (f : hwloc_obj B -> hwloc_obj B) : Prop :=
  run_attrs import_attr ps im = Some (Some (on_obj im f)).

Lemma gives_app ps qs im f g : gives ps im f -> gives qs (on_obj im f) g -> gives (ps ++ qs) im (fun o => g (f o)).
Proof. intros Hf Hg. unfold gives. rewrite (run_app _ _ _ _ _ Hf). exact Hg. Qed.

Lemma gives_nil im : gives [] im (fun o => o).
Proof. unfold gives, on_obj. by destruct im. Qed.

Lemma gives_if (b : bool) ps im f : (b = true -> gives ps im f) ->
  gives (if b then ps else []) im (fun o => if b then f o else o).
Proof. intros Hf. destruct b; [by apply Hf|apply gives_nil]. Qed.

Lemma gives_one name v im f : txt name <> txt "type" ->
  hwloc__xml_import_object_attr im (txt name) v = Some (on_obj im f) -> gives [prop name v] im f.
Proof.
  intros Hn Hv. unfold gives. cbn [run_attrs prop fst snd]. unfold import_attr.
  rewrite bool_decide_false by done. by rewrite Hv.
Qed.

Lemma gives_ext ps im f g : f (im_obj im) = g (im_obj im) -> gives ps im g -> gives ps im f.
Proof. intros Hfg Hg. unfold gives, on_obj in *. by rewrite Hg, Hfg. Qed.

(** One step, to an object that is computed. *)
Lemma gives_step ps qs ty o o' f g : gives ps (mk_importing ty o) f -> f o = o' -> gives qs (mk_importing ty o') g ->
  gives (ps ++ qs) (mk_importing ty o) (fun _ => g o').
Proof.
  intros Hf <- Hg. eapply gives_ext; [|by apply (gives_app _ _ _ f g)]. done.
Qed.

Lemma gives_level l im : - 2 ^ 31 <= l < 2 ^ 31 -> gives [prop "os_level" (fmt_d l)] im (fun o => with_os_level o l).
Proof. intros Hl. apply gives_one; [done|]. transitivity (Some (on_obj im (fun o => with_os_level o (s32 (number (fmt_d l)))))); [reflexivity|by rewrite number_d]. Qed.

Lemma gives_index i im : 0 <= i < 2 ^ 32 -> gives [prop "os_index" (fmt_u i)] im (fun o => with_os_index o i).
Proof. intros Hi. apply gives_one; [done|]. transitivity (Some (on_obj im (fun o => with_os_index o (u32 (number (fmt_u i)))))); [reflexivity|by rewrite number_u32]. Qed.

Lemma gives_name s im : gives [prop "name" (txt s)] im (fun o => with_name o (Some s)).
Proof. apply gives_one; [done|]. transitivity (Some (on_obj im (fun o => with_name o (Some (string_of_list_ascii (txt s)))))); [reflexivity|by rewrite string_of_list_ascii_of_string]. Qed.

Lemma gives_memory n im : 0 <= n < 2 ^ 64 ->
  gives [prop "local_memory" (fmt_u n)] im (fun o => with_memory o (with_local_memory (memory o) n)).
Proof. intros Hn. apply gives_one; [done|]. transitivity (Some (on_obj im (fun o => with_memory o (with_local_memory (memory o) (number (fmt_u n)))))); [reflexivity|by rewrite number_u]. Qed.

(** ** Sets *)

(** A set printed and read. *)
Definition reread_set (s : option B) : option B :=
  match s with Some s => Some (default s (let! text := b_asprintf s in b_sscanf text)) | None => None end.
(** Full nodesets are not printed. *)
Definition reread_nodeset (s : option B) : option B :=
  match s with Some s => if b_isfull s then None else reread_set (Some s) | None => None end.

Definition readable (s : option B) : Prop := match s with Some s => b_printable s | None => True end.

Lemma reread_set_ok s : b_printable s -> exists s', reread_set (Some s) = Some s' /\ b_sscanf (set_text s) = Some s' /\ beq s' s.
Proof.
  intros Hs. destruct (b_text s Hs) as (text & s' & Htext & _ & Hread & Heq). exists s'.
  unfold reread_set, set_text. rewrite Htext. cbn [mbind option_bind default]. by rewrite Hread.
Qed.

Lemma readable_text s : readable s -> has_text s.
Proof. destruct s as [s|]; [|done]. intros Hs. destruct (b_text s Hs) as (text & _ & Htext & _). by exists text. Qed.

(** Which set each property is put in. *)
Lemma puts_cpuset im v : hwloc__xml_import_object_attr im (txt "cpuset") v = import_set im with_cpuset v.
Proof. reflexivity. Qed.
Lemma puts_complete_cpuset im v : hwloc__xml_import_object_attr im (txt "complete_cpuset") v = import_set im with_complete_cpuset v.
Proof. reflexivity. Qed.
Lemma puts_online_cpuset im v : hwloc__xml_import_object_attr im (txt "online_cpuset") v = import_set im with_online_cpuset v.
Proof. reflexivity. Qed.
Lemma puts_allowed_cpuset im v : hwloc__xml_import_object_attr im (txt "allowed_cpuset") v = import_set im with_allowed_cpuset v.
Proof. reflexivity. Qed.
Lemma puts_nodeset im v : hwloc__xml_import_object_attr im (txt "nodeset") v = import_set im with_nodeset v.
Proof. reflexivity. Qed.
Lemma puts_complete_nodeset im v : hwloc__xml_import_object_attr im (txt "complete_nodeset") v = import_set im with_complete_nodeset v.
Proof. reflexivity. Qed.
Lemma puts_allowed_nodeset im v : hwloc__xml_import_object_attr im (txt "allowed_nodeset") v = import_set im with_allowed_nodeset v.
Proof. reflexivity. Qed.

(** In each of these the object has nothing yet where the property goes. *)
Lemma gives_set name put s r im : r = reread_set s -> readable s -> txt name <> txt "type" ->
  (forall v, hwloc__xml_import_object_attr im (txt name) v = import_set im put v) ->
  put (im_obj im) None = im_obj im -> gives (set_props name s) im (fun o => put o r).
Proof.
  intros ->. destruct s as [s|]; intros Hs Hn Hput Hnone; [|by apply (gives_ext _ _ _ (fun o => o)), gives_nil].
  destruct (reread_set_ok s Hs) as (s' & -> & Hr & _).
  cbn [set_props]. apply gives_one; [done|]. rewrite Hput. unfold import_set. by rewrite Hr.
Qed.

Lemma gives_nodeset name put s r im : r = reread_nodeset s -> readable s -> txt name <> txt "type" ->
  (forall v, hwloc__xml_import_object_attr im (txt name) v = import_set im put v) ->
  put (im_obj im) None = im_obj im -> gives (nodeset_props name s) im (fun o => put o r).
Proof.
  intros ->. destruct s as [s|]; intros Hs Hn Hput Hnone; cbn [nodeset_props reread_nodeset];
    [|by apply (gives_ext _ _ _ (fun o => o)), gives_nil].
  destruct (b_isfull s); [by apply (gives_ext _ _ _ (fun o => o)), gives_nil|]. by apply (gives_set name put (Some s)).
Qed.

Lemma gives_level_if l im : - 2 ^ 31 <= l < 2 ^ 31 -> os_level (im_obj im) = -1 ->
  gives (if negb (l =? -1) then [prop "os_level" (fmt_d l)] else []) im (fun o => with_os_level o l).
Proof.
  intros Hl Hb. eapply gives_ext; [|apply gives_if; intros _; by apply gives_level]. cbv beta.
  destruct (Z.eqb_spec l (-1)) as [->|_]; [|done]. destruct (im_obj im). cbn in Hb |- *. by subst.
Qed.

Lemma gives_index_if i im : 0 <= i < 2 ^ 32 ->
  gives (if negb (i =? UNSET) then [prop "os_index" (fmt_u i)] else []) im
    (fun o => with_os_index o (if i =? UNSET then os_index o else i)).
Proof.
  intros Hl. eapply gives_ext; [|apply gives_if; intros _; by apply gives_index]. cbv beta.
  destruct (Z.eqb_spec i UNSET) as [->|_]; [|done]. by destruct (im_obj im).
Qed.

Lemma gives_name_if n im : o_name (im_obj im) = None ->
  gives (match n with Some name => [prop "name" (txt name)] | None => [] end) im (fun o => with_name o n).
Proof.
  destruct n as [n|]; [intros _; apply gives_name|]. intros Hb. apply (gives_ext _ _ _ (fun o => o)), gives_nil.
  destruct (im_obj im). cbn in Hb |- *. by subst.
Qed.

Lemma gives_memory_if n im : 0 <= n < 2 ^ 64 -> local_memory (memory (im_obj im)) = 0 ->
  gives (if negb (n =? 0) then [prop "local_memory" (fmt_u n)] else []) im
    (fun o => with_memory o (with_local_memory (memory o) n)).
Proof.
  intros Hn Hb. eapply gives_ext; [|apply gives_if; intros _; by apply gives_memory]. cbv beta.
  destruct (Z.eqb_spec n 0) as [->|_]; [|done]. destruct (im_obj im) as [? ? ? ? ? [? ? ?] ? ? ? ?]. cbn in Hb |- *. by subst.
Qed.

(** ** Attributes of a type *)

Definition cache_ranges (size depth linesize associativity : Z) : Prop :=
  0 <= size < 2 ^ 64 /\ 0 <= depth < 2 ^ 32 /\ 0 <= linesize < 2 ^ 32 /\ - 2 ^ 31 <= associativity < 2 ^ 31.

Definition attr_ranges (a : hwloc_obj_attr_u) : Prop :=
  match a with
  | AttrNone => True
  | AttrCache size depth linesize associativity => cache_ranges size depth linesize associativity
  | AttrGroup depth => 0 <= depth < 2 ^ 32
  | AttrPcidev p => pci_ranges p
  | AttrBridge b => bridge_ranges b /\ (upstream_type b = HWLOC_OBJ_BRIDGE_PCI -> pci_ranges (upstream b))
  | AttrOsdev type => 0 <= type < 2 ^ 32
  end.

Definition reread_pci (p : hwloc_pcidev_attr_s) : hwloc_pcidev_attr_s :=
  mk_pcidev (domain p) (bus p) (dev p) (func p) (class_id p) (vendor_id p) (device_id p) (subvendor_id p)
    (subdevice_id p) (revision p) (reread_float (linkspeed p)).

(** The sides of a bridge that are not PCI are not printed. *)
Definition reread_bridge (b : hwloc_bridge_attr_s) : hwloc_bridge_attr_s :=
  let down := downstream_type b =? HWLOC_OBJ_BRIDGE_PCI in
  mk_bridge (if upstream_type b =? HWLOC_OBJ_BRIDGE_PCI then reread_pci (upstream b) else zero_pcidev) (upstream_type b)
    (if down then downstream_domain b else 0) (if down then secondary_bus b else 0)
    (if down then subordinate_bus b else 0) (downstream_type b) (b_depth b).

Definition reread_attr (a : hwloc_obj_attr_u) : hwloc_obj_attr_u :=
  match a with
  | AttrPcidev p => AttrPcidev (reread_pci p)
  | AttrBridge b => AttrBridge (reread_bridge b)
  | _ => a
  end.

Lemma u16_small x : hex_value 4 x -> u16 x = x.
Proof. intros [_ Hx]. apply Z.mod_small. change (16 ^ Z.of_nat 4) with (2 ^ 16) in Hx. lia. Qed.
Lemma u8_small w x : hex_value w x -> (w <= 2)%nat -> u8 x = x.
Proof.
  intros [_ Hx] Hw. apply Z.mod_small. split; [lia|]. apply Z.lt_le_trans with (16 ^ Z.of_nat w); [lia|].
  change (2 ^ 8) with (16 ^ 2). apply Z.pow_le_mono_r; lia.
Qed.

Definition pci_step (p : hwloc_pcidev_attr_s) o : hwloc_obj B := with_attr o (with_pcidev (attr o) (fun _ => reread_pci p)).

Lemma gives_pci p im : pci_ranges p -> has_pci (im_type im) = true -> gives (pci_props p) im (pci_step p).
Proof.
  intros Hp Hpci.
  set (f1 o := with_attr o (with_pcidev (attr o) (fun q => mk_pcidev (domain p) (bus p) (dev p) (func p) (class_id q)
    (vendor_id q) (device_id q) (subvendor_id q) (subdevice_id q) (revision q) (linkspeed q)))).
  set (f2 o := with_attr o (with_pcidev (attr o) (fun q => mk_pcidev (domain q) (bus q) (dev q) (func q) (class_id p)
    (vendor_id p) (device_id p) (subvendor_id p) (subdevice_id p) (revision p) (linkspeed q)))).
  set (f3 o := with_attr o (with_pcidev (attr o) (fun q => mk_pcidev (domain q) (bus q) (dev q) (func q) (class_id q)
    (vendor_id q) (device_id q) (subvendor_id q) (subdevice_id q) (revision q) (reread_float (linkspeed p))))).
  eapply (gives_ext _ _ _ (fun o => f3 (f2 (f1 o)))).
  { unfold pci_step, f1, f2, f3, with_attr. cbn [attr]. by destruct (attr (im_obj im)). }
  unfold pci_props. change [?a; ?b; ?c] with ([a] ++ [b] ++ [c]).
  apply (gives_app [_] _ _ f1 (fun o => f3 (f2 o))); [|apply (gives_app [_] _ _ f2 f3)].
  - apply gives_one; [done|].
    transitivity (match scan_busid (busid_text p) with
      | Some (a, b, c, d) => change_attr im (has_pci (im_type im)) (fun at_ => with_pcidev at_ (fun p =>
          mk_pcidev (u16 a) (u8 b) (u8 c) (u8 d) (class_id p) (vendor_id p) (device_id p) (subvendor_id p)
            (subdevice_id p) (revision p) (linkspeed p)))
      | None => Some im
      end); [reflexivity|].
    destruct Hp. rewrite scan_busid_ok by done. unfold change_attr. rewrite Hpci.
    by rewrite u16_small, (u8_small 2 (bus p)), (u8_small 2 (dev p)), (u8_small 1 (func p)) by (done || lia).
  - apply gives_one; [done|].
    transitivity (match scan_pci_type (pci_type_text p) with
      | Some (a, b, c, d, e, f) => change_attr (on_obj im f1) (has_pci (im_type im)) (fun at_ => with_pcidev at_ (fun p =>
          mk_pcidev (domain p) (bus p) (dev p) (func p) (u16 a) (u16 b) (u16 c) (u16 d) (u16 e) (u8 f) (linkspeed p)))
      | None => Some (on_obj im f1)
      end); [reflexivity|].
    destruct Hp. rewrite scan_pci_type_ok by done. unfold change_attr. rewrite Hpci.
    by rewrite !u16_small, (u8_small 2 (revision p)) by (done || lia).
  - apply gives_one; [done|].
    transitivity (change_attr (on_obj (on_obj im f1) f2) (has_pci (im_type im)) (fun at_ => with_pcidev at_ (fun q =>
        mk_pcidev (domain q) (bus q) (dev q) (func q) (class_id q) (vendor_id q) (device_id q) (subvendor_id q)
          (subdevice_id q) (revision q) (atof (fmt_f (linkspeed p)))))); [reflexivity|].
    unfold change_attr. by rewrite Hpci.
Qed.
Lemma gives_depth d im : 0 <= d < 2 ^ 32 ->
  gives [prop "depth" (fmt_u d)] im (fun o => with_attr o (with_attr_depth (attr o) d)).
Proof.
  intros Hd. apply gives_one; [done|].
  transitivity (Some (on_obj im (fun o => with_attr o (with_attr_depth (attr o) (u32 (number (fmt_u d)))))));
    [reflexivity|by rewrite number_u32].
Qed.

Lemma gives_cache size depth linesize associativity im : cache_ranges size depth linesize associativity ->
  im_type im = Some HWLOC_OBJ_CACHE -> attr (im_obj im) = AttrCache 0 0 0 0 ->
  gives (attr_props (AttrCache size depth linesize associativity)) im
    (fun o => with_attr o (AttrCache size depth linesize associativity)).
Proof.
  intros (Hs & Hd & Hl & Ha) Hty Hat. destruct im as [ty o]. cbn [im_type im_obj] in *. subst ty.
  unfold gives. cbn [attr_props run_attrs prop fst snd].
  transitivity (Some (Some (mk_importing (Some HWLOC_OBJ_CACHE) (with_attr o (match attr o with
      | AttrCache _ _ _ _ => AttrCache (number (fmt_u size)) (u32 (number (fmt_u depth))) (u32 (number (fmt_u linesize)))
          (s32 (number (fmt_d associativity)))
      | a => a end))))).
  - unfold with_attr. cbn [attr]. rewrite Hat. destruct o as [? ? ? ? ? ? a ? ? ?]. cbn [attr] in Hat. subst a. reflexivity.
  - rewrite Hat, !number_u32, number_u, number_d by done. done.
Qed.

Lemma gives_group depth im : 0 <= depth < 2 ^ 32 -> attr (im_obj im) = AttrGroup 0 ->
  gives (attr_props (AttrGroup depth)) im (fun o => with_attr o (AttrGroup depth)).
Proof. intros Hd Hat. eapply gives_ext; [|by apply gives_depth]. cbv beta. by rewrite Hat. Qed.

Lemma gives_osdev type im : 0 <= type < 2 ^ 32 -> attr (im_obj im) = AttrOsdev 0 ->
  gives (attr_props (AttrOsdev type)) im (fun o => with_attr o (AttrOsdev type)).
Proof.
  intros Ht Hat. apply gives_one; [done|].
  transitivity (match scan_u (fmt_u type) with
    | Some (t, _) => change_attr im true (fun a => match a with AttrOsdev _ => AttrOsdev t | _ => a end)
    | None => Some im
    end); [reflexivity|].
  rewrite <- (app_nil_r (fmt_u type)), scan_u_ok by done. unfold change_attr, on_obj. by rewrite Hat.
Qed.

Lemma gives_bridge b im : bridge_ranges b -> (upstream_type b = HWLOC_OBJ_BRIDGE_PCI -> pci_ranges (upstream b)) ->
  im_type im = Some HWLOC_OBJ_BRIDGE -> attr (im_obj im) = AttrBridge zero_bridge ->
  gives (attr_props (AttrBridge b)) im (fun o => with_attr o (AttrBridge (reread_bridge b))).
Proof.
  intros Hb Hp Hty Hat. pose proof Hb as [Hup Hdown Hdep Hdom Hbus Hsub].
  set (f1 o := with_attr o (with_bridge (attr o) (fun q =>
        mk_bridge (upstream q) (upstream_type b) (downstream_domain q) (secondary_bus q) (subordinate_bus q)
          (downstream_type b) (b_depth q)))).
  set (f2 o := with_attr o (with_attr_depth (attr o) (b_depth b))).
  set (f3 o := if downstream_type b =? HWLOC_OBJ_BRIDGE_PCI then with_attr o (with_bridge (attr o) (fun q =>
        mk_bridge (upstream q) (upstream_type q) (downstream_domain b) (secondary_bus b) (subordinate_bus b)
          (downstream_type q) (b_depth q))) else o).
  set (f4 o := if upstream_type b =? HWLOC_OBJ_BRIDGE_PCI then pci_step (upstream b) o else o).
  eapply (gives_ext _ _ _ (fun o => f4 (f3 (f2 (f1 o))))).
  { unfold f1, f2, f3, f4, pci_step, reread_bridge, with_attr. cbn [attr]. rewrite Hat.
    destruct (downstream_type b =? _), (upstream_type b =? _); reflexivity. }
  cbn [attr_props]. change [?a; ?b] with ([a] ++ [b]). rewrite <- app_assoc.
  apply (gives_app [_] _ _ f1 (fun o => f4 (f3 (f2 o)))); [|apply (gives_app [_] _ _ f2 (fun o => f4 (f3 o)));
    [by apply gives_depth|apply (gives_app _ _ _ f3 f4); [|apply gives_if]]].
  - apply gives_one; [done|].
    transitivity (match scan_bridge_type (bridge_type_text b) with
      | Some (u, d) => change_attr im true (fun at_ => with_bridge at_ (fun b =>
          mk_bridge (upstream b) u (downstream_domain b) (secondary_bus b) (subordinate_bus b) d (b_depth b)))
      | None => Some im
      end); [reflexivity|]. by rewrite scan_bridge_type_ok.
  - apply gives_if. intros _. apply gives_one; [done|].
    transitivity (match scan_bridge_pci (bridge_pci_text b) with
      | Some (d, s, t) => change_attr (on_obj (on_obj im f1) f2) true (fun at_ => with_bridge at_ (fun b =>
          mk_bridge (upstream b) (upstream_type b) (u16 d) (u8 s) (u8 t) (downstream_type b) (b_depth b)))
      | None => Some (on_obj (on_obj im f1) f2)
      end); [reflexivity|].
    rewrite scan_bridge_pci_ok by done. by rewrite u16_small, (u8_small 2 (secondary_bus b)), (u8_small 2 (subordinate_bus b)) by (done || lia).
  - intros Hu%Z.eqb_eq. apply gives_pci; [by apply Hp|]. unfold on_obj. cbn [im_type]. by rewrite Hty.
Qed.

Lemma gives_attr a ty im : attr_member ty a = true -> attr_ranges a -> im_type im = Some ty ->
  attr (im_obj im) = empty_attr ty -> gives (attr_props a) im (fun o => with_attr o (reread_attr a)).
Proof.
  intros Hm Hr Hty Hat. destruct a as [|size depth linesize associativity|depth|p|b|type].
  - eapply gives_ext; [|apply gives_nil]. cbv beta. cbn [reread_attr].
    assert (attr (im_obj im) = AttrNone) as <- by (rewrite Hat; by destruct ty). unfold with_attr. by destruct (im_obj im).
  - apply gives_cache; [done| |]; destruct ty; done.
  - apply gives_group; [done|]. by destruct ty.
  - assert (ty = HWLOC_OBJ_PCI_DEVICE) as -> by by destruct ty. eapply gives_ext; [|apply gives_pci; [done|by rewrite Hty]].
    unfold pci_step. by rewrite Hat.
  - assert (ty = HWLOC_OBJ_BRIDGE) as -> by by destruct ty. destruct Hr. by apply gives_bridge.
  - apply gives_osdev; [done|]. by destruct ty.
Qed.

(** ** All of them *)

(** What the importer may find in the root object, and always finds in a new one. *)
Record blank_object (base : hwloc_obj B) : Prop := {
  bl_attr : attr base = empty_attr (o_type base);
  bl_zero : empty_attr (o_type base) = AttrNone;
  bl_sets : sets base = no_sets;
  bl_memory : memory base = mk_memory 0 0 [];
  bl_level : os_level base = -1;
  bl_name : o_name base = None;
  bl_distances : distances base = [];
  bl_infos : infos base = [];
}.

(** The object after its attributes; its pages, infos and distances come later. *)
Definition reread_object (base o : hwloc_obj B) : hwloc_obj B :=
  mk_obj (o_addr base) (o_type o) (if os_index o =? UNSET then os_index base else os_index o) (os_level o) (o_name o)
    (mk_memory 0 (local_memory (memory o)) []) (reread_attr (attr o))
    (mk_sets (reread_set (cpuset (sets o))) (reread_set (complete_cpuset (sets o)))
       (reread_set (online_cpuset (sets o))) (reread_set (allowed_cpuset (sets o)))
       (reread_nodeset (nodeset (sets o))) (reread_nodeset (complete_nodeset (sets o)))
       (reread_nodeset (allowed_nodeset (sets o)))) [] [].

Record object_ranges o : Prop := {
  or_attr : attr_member (o_type o) (attr o) = true;
  or_attr_ranges : attr_ranges (attr o);
  or_sets : Forall readable (set_list o);
  or_index : 0 <= os_index o < 2 ^ 32;
  or_level : - 2 ^ 31 <= os_level o < 2 ^ 31;
  or_memory : 0 <= local_memory (memory o) < 2 ^ 64;
}.

Lemma type_round ty : hwloc_obj_type_of_string (string_of_list_ascii (txt (hwloc_obj_type_string ty))) = Some ty.
Proof. by destruct ty. Qed.

(** The object once its type is known. *)
Definition typed (base : hwloc_obj B) (ty : hwloc_obj_type_t) : hwloc_obj B :=
  mk_obj (o_addr base) ty (os_index base) (-1) None (mk_memory 0 0 []) (empty_attr ty) no_sets [] [].

Lemma run_type im ty : blank_object (im_obj im) -> im_type im = None \/ im_type im = Some (o_type (im_obj im)) ->
  run_attrs import_attr [prop "type" (txt (hwloc_obj_type_string ty))] im
    = Some (Some (mk_importing (Some ty) (typed (im_obj im) ty))).
Proof.
  intros [Hat Hz Hs Hm Hl Hn Hd Hi] Hty. cbn [run_attrs prop fst snd]. unfold import_attr.
  rewrite bool_decide_true, type_round by done. unfold set_type.
  assert (match im_type im with None => true | Some old => bool_decide (attr (im_obj im) = empty_attr old) end = true) as ->
    by (destruct Hty as [->| ->]; [done|by apply bool_decide_true]).
  cbn [mbind option_bind]. do 3 f_equal. unfold typed, with_attr, with_type. cbn. by rewrite Hs, Hm, Hl, Hn, Hd, Hi.
Qed.

(** The new object, its fields computed. *)
Ltac computed :=
  unfold with_os_level, with_os_index, with_cpuset, with_complete_cpuset, with_online_cpuset, with_allowed_cpuset,
    with_nodeset, with_complete_nodeset, with_allowed_nodeset, with_name, with_attr, with_sets;
  cbn [o_addr o_type os_index os_level o_name memory attr sets distances infos cpuset complete_cpuset online_cpuset
    allowed_cpuset nodeset complete_nodeset allowed_nodeset]; reflexivity.

Lemma run_object_props im o : blank_object (im_obj im) -> object_ranges o ->
  im_type im = None \/ im_type im = Some (o_type (im_obj im)) ->
  run_attrs import_attr (object_props o) im = Some (Some (mk_importing (Some (o_type o)) (reread_object (im_obj im) o))).
Proof.
  intros Hb [Hm Har Hsets Hi Hl Hmem] Hty. unfold set_list in Hsets. repeat (apply Forall_cons in Hsets as [? Hsets]).
  unfold object_props. rewrite (run_app _ _ _ _ _ (run_type im (o_type o) Hb Hty)).
  match goal with |- run_attrs _ ?ps ?im = _ => enough (gives ps im (fun _ => reread_object (im_obj im) o)) as Hg; [exact Hg|] end.
  unfold reread_object.
  remember (reread_set (cpuset (sets o))) as r1 eqn:E1. remember (reread_set (complete_cpuset (sets o))) as r2 eqn:E2.
  remember (reread_set (online_cpuset (sets o))) as r3 eqn:E3. remember (reread_set (allowed_cpuset (sets o))) as r4 eqn:E4.
  remember (reread_nodeset (nodeset (sets o))) as r5 eqn:E5. remember (reread_nodeset (complete_nodeset (sets o))) as r6 eqn:E6.
  remember (reread_nodeset (allowed_nodeset (sets o))) as r7 eqn:E7.
  eapply gives_ext; cycle 1.
  - unfold typed. eapply gives_step; [by apply gives_level_if|computed|].
    eapply gives_step; [by apply gives_index_if|computed|].
    eapply gives_step; [eapply gives_set; [exact E1|done|done|exact (puts_cpuset _)|done]|computed|].
    eapply gives_step; [eapply gives_set; [exact E2|done|done|exact (puts_complete_cpuset _)|done]|computed|].
    eapply gives_step; [eapply gives_set; [exact E3|done|done|exact (puts_online_cpuset _)|done]|computed|].
    eapply gives_step; [eapply gives_set; [exact E4|done|done|exact (puts_allowed_cpuset _)|done]|computed|].
    eapply gives_step; [eapply gives_nodeset; [exact E5|done|done|exact (puts_nodeset _)|done]|computed|].
    eapply gives_step; [eapply gives_nodeset; [exact E6|done|done|exact (puts_complete_nodeset _)|done]|computed|].
    eapply gives_step; [eapply gives_nodeset; [exact E7|done|done|exact (puts_allowed_nodeset _)|done]|computed|].
    eapply gives_step; [by apply gives_name_if|computed|].
    eapply gives_step; [by eapply gives_attr|computed|].
    by apply gives_memory_if.
  - done.
Qed.

(** ** Clean properties *)

Definition clean_string (s : string) : Prop := clean_value (txt s).

Definition good_text (ps : list (string * chars)) : Prop := Forall good_prop ps.

Lemma good_one name v : good_name name -> clean_value v -> good_text [prop name v].
Proof. intros Hn Hv. by apply Forall_singleton. Qed.

Lemma good_if (b : bool) ps : (b = true -> good_text ps) -> good_text (if b then ps else []).
Proof. intros Hps. destruct b; [by apply Hps|constructor]. Qed.

Lemma good_set name s : good_name name -> readable s -> good_text (set_props name s).
Proof.
  intros Hn Hs. destruct s as [s|]; [|constructor]. destruct (b_text s Hs) as (text & _ & Htext & Hc & _).
  apply good_one; [done|]. unfold set_text. by rewrite Htext.
Qed.

Lemma good_nodeset name s : good_name name -> readable s -> good_text (nodeset_props name s).
Proof.
  intros Hn Hs. destruct s as [s|]; [|constructor]. cbn [nodeset_props]. destruct (b_isfull s); [constructor|].
  by apply (good_set name (Some s)).
Qed.

Lemma good_pci p : pci_ranges p -> good_text (pci_props p).
Proof.
  intros Hp. repeat apply Forall_cons_2; [..|constructor]; (split; [name_is_good|]); cbn [snd prop];
    [by apply busid_clean|by apply pci_type_clean|apply fmt_f_clean].
Qed.

Lemma good_attr a : attr_ranges a -> good_text (attr_props a).
Proof.
  destruct a as [|size depth linesize associativity|depth|p|b|type]; intros Hr; cbn [attr_props].
  - constructor.
  - destruct Hr as (Hs & Hd & Hl & Ha). repeat apply Forall_cons_2; [..|constructor]; (split; [name_is_good|]); cbn [snd prop];
      first [by apply fmt_d_clean|apply fmt_u_clean; lia].
  - apply good_one; [name_is_good|]. apply fmt_u_clean. cbn in Hr. lia.
  - by apply good_pci.
  - destruct Hr as [Hb Hp]. pose proof (br_depth _ Hb). apply Forall_app. split; [|apply Forall_app; split].
    + repeat apply Forall_cons_2; [..|constructor]; (split; [name_is_good|]); cbn [snd prop];
        [by apply bridge_type_clean|apply fmt_u_clean; lia].
    + apply good_if. intros _. apply good_one; [name_is_good|]. by apply bridge_pci_clean.
    + apply good_if. intros Hu%Z.eqb_eq. by apply good_pci, Hp.
  - apply good_one; [name_is_good|]. apply fmt_u_clean. cbn in Hr. lia.
Qed.

Lemma good_object o : object_ranges o -> (forall n, o_name o = Some n -> clean_string n) -> good_text (object_props o).
Proof.
  intros [Hm Har Hsets Hi Hl Hmem] Hn. unfold set_list in Hsets. repeat (apply Forall_cons in Hsets as [? Hsets]).
  unfold object_props. repeat apply Forall_app_2.
  - apply good_one; [name_is_good|]. destruct (o_type o); by repeat constructor.
  - apply good_if. intros _. apply good_one; [name_is_good|by apply fmt_d_clean].
  - apply good_if. intros _. apply good_one; [name_is_good|apply fmt_u_clean; lia].
  - apply good_set; [name_is_good|done].
  - apply good_set; [name_is_good|done].
  - apply good_set; [name_is_good|done].
  - apply good_set; [name_is_good|done].
  - apply good_nodeset; [name_is_good|done].
  - apply good_nodeset; [name_is_good|done].
  - apply good_nodeset; [name_is_good|done].
  - destruct (o_name o) as [n|]; [|constructor]. apply good_one; [name_is_good|by apply Hn].
  - by apply good_attr.
  - apply good_if. intros _. apply good_one; [name_is_good|by apply fmt_u_clean].
Qed.

End Attrs.

Section ImportOk.
Context `{Malloc} {B : Type} `{CpusetOps B} `{CpusetText B} `{!CpusetTextOk B}.
Implicit Types o base : hwloc_obj B.
Implicit Types t c : obj_tree B.

(** ** Attributes of a tag *)

Definition after_attrs (name : string) (n : Z) (rest : chars) : import_state :=
  mk_import (LF ++ rest) [] (txt name) (n =? 0).

Lemma prop_text_length p : (4 <= length (prop_text p))%nat.
Proof. unfold prop_text, QUOTE. rewrite !length_app. cbn -[Nat.add]. lia. Qed.

Lemma props_text_length ps : (4 * length ps <= length (props_text ps))%nat.
Proof.
  induction ps as [|p ps IH]; [done|]. change (props_text (p :: ps)) with (prop_text p ++ props_text ps).
  rewrite length_app. pose proof (prop_text_length p). cbn [length]. lia.
Qed.

Lemma ignore_child p ps : ignore_spaces (tail (props_text (p :: ps))) = ignore_spaces (props_text (p :: ps)).
Proof.
  assert (props_text (p :: ps) = " "%char :: tail (props_text (p :: ps))) as Heq by done.
  rewrite Heq at 2. by rewrite ignore_blank.
Qed.

Lemma read_child {A} (body : A -> chars -> chars -> option (option A)) name p ps n rest a b :
  good_text (p :: ps) -> run_attrs body (p :: ps) a = Some (Some b) ->
  let st := child_state name (p :: ps) n rest in
  each_attr body (attr_fuel st) a st = Some (Some (b, after_attrs name n rest)).
Proof.
  intros Hps Hrun st. destruct (each_attr_ok body (p :: ps) [] (attr_fuel st) a b st Hps) as [Heq|[? _]]; [..|done|done].
  - unfold attr_fuel, st, child_state. cbn [attrbuffer]. pose proof (props_text_length (p :: ps)) as Hl.
    destruct (props_text (p :: ps)) as [|c s]; simpl in Hl |- *; lia.
  - intros st'. apply next_attr_end.
  - rewrite app_nil_r. apply ignore_child.
  - done.
Qed.

Lemma end_leaf {A} name rest (a : A) : import_end a (after_attrs name 0 rest) = Some (Some (a, after_attrs name 0 rest)).
Proof. unfold import_end. by rewrite close_tag_closed. Qed.

(** ** Pages, infos, matrices *)

Definition page_ranges (p : Z * Z) : Prop := 0 <= fst p < 2 ^ 64 /\ 0 <= snd p < 2 ^ 64.

Definition add_page o (p : Z * Z) : hwloc_obj B :=
  if fst p =? 0 then o else with_memory o (with_page_types (memory o) (page_types (memory o) ++ [p])).

Lemma good_page p : page_ranges p -> good_text (page_props p).
Proof.
  intros [Hs Hc]. repeat apply Forall_cons_2; [..|constructor]; (split; [name_is_good|]); by apply fmt_u_clean.
Qed.

Lemma import_page_ok o p rest : page_ranges p ->
  hwloc__xml_import_pagetype o (child_state "page_type" (page_props p) 0 rest)
    = Some (Some (add_page o p, after_attrs "page_type" 0 rest)).
Proof.
  intros Hp. unfold hwloc__xml_import_pagetype.
  rewrite (read_child _ "page_type" _ _ 0 rest (0, 0) (number (fmt_u (fst p)), number (fmt_u (snd p))) (good_page p Hp));
    [|reflexivity].
  destruct Hp as [Hs Hc]. rewrite !number_u by done. cbn [mbind option_bind]. rewrite <- surjective_pairing. apply end_leaf.
Qed.

Definition info_clean (i : option (string * string)) : Prop :=
  match i with Some (n, v) => clean_string n /\ clean_string v | None => False end.

Definition add_info o (i : option (string * string)) : hwloc_obj B := with_infos o (infos o ++ [i]).

Lemma import_info_ok o i rest : info_clean i ->
  hwloc__xml_import_info o (child_state "info" (info_props i) 0 rest)
    = Some (Some (add_info o i, after_attrs "info" 0 rest)).
Proof.
  destruct i as [[n v]|]; [|done]. intros [Hn Hv]. unfold hwloc__xml_import_info, info_props.
  rewrite (read_child _ "info" _ _ 0 rest (None, None) (Some (txt n), Some (txt v))); [| |reflexivity].
  - cbn [mbind option_bind from_option]. unfold txt, id. rewrite !string_of_list_ascii_of_string. apply end_leaf.
  - repeat apply Forall_cons_2; [..|constructor]; (split; [name_is_good|done]).
Qed.

(** The greatest of the latencies, from 0 up. *)
Definition latency_top (l : list Z) : Z := foldl (fun m x => if f_lt m x then x else m) 0 l.

Definition matrix_ranges (d : option hwloc_distances_s) : Prop :=
  match d with
  | Some d => 0 < nbobjs d < 2 ^ 16 /\ 0 < relative_depth d < 2 ^ 32 /\
      Z.of_nat (length (latency d)) = nbobjs d * nbobjs d /\ f_nonzero (reread_float (latency_base d)) = true
  | None => False
  end.

(** A matrix printed and read, [d] being initialised. *)
Definition reread_matrix (d : hwloc_distances_s) : hwloc_distances_s :=
  let l := map reread_float (latency d) in
  mk_distances (relative_depth d) (nbobjs d) l (latency_top l) (reread_float (latency_base d)).

Definition keep_matrix (addr : Z) (first : imported_distances) (d : option hwloc_distances_s) : imported_distances :=
  match d with Some d => Some (addr, reread_matrix d) | None => first end.

Lemma import_latencies_ok xs room i ind rest matrix latmax st : Z.of_nat (length xs) + i <= room -> closed st = false ->
  tagbuffer st = LF ++ concat (map (fun x => leaf_text ind "latency" (latency_props x)) xs) ++ rest ->
  import_latencies (length xs) room i st matrix latmax
  = Some (Some (matrix ++ map reread_float xs, foldl (fun m x => if f_lt m x then x else m) latmax (map reread_float xs),
      with_tagbuffer st (LF ++ rest))).
Proof.
  revert i matrix latmax st. induction xs as [|x xs IH]; intros i matrix latmax st Hroom Hc Ht.
  - cbn [import_latencies length map foldl]. rewrite app_nil_r. do 3 f_equal. destruct st. unfold with_tagbuffer. cbn in Ht |- *. by subst.
  - cbn [length import_latencies map foldl]. cbn [map concat] in Ht. rewrite <- app_assoc in Ht.
    assert (good_text (latency_props x)) as Hgood by (apply good_one; [name_is_good|apply fmt_f_clean]).
    unfold leaf_text in Ht at 1. rewrite (find_child_ok st ind "latency" _ _ 0 _ Hc ltac:(name_is_good) Hgood Ht). cbn [mbind option_bind].
    rewrite bool_decide_true by done. cbn [negb].
    set (rest1 := concat _ ++ rest) in *.
    rewrite (next_attr_ok (prop "value" (fmt_f x)) []); [|by apply Forall_inv in Hgood|].
    2:{ etransitivity; [apply ignore_child|]. rewrite <- (app_nil_r (props_text [prop "value" (fmt_f x)])).
        apply ignore_props. by apply Forall_inv in Hgood. }
    cbn [mbind option_bind fst snd prop]. rewrite bool_decide_true by done. cbn [negb].
    destruct (Z.ltb_spec i room) as [_|]; [|simpl in Hroom; lia].
    rewrite close_tag_closed by done. rewrite IH.
    + by rewrite <- app_assoc.
    + simpl in Hroom. lia.
    + done.
    + done.
Qed.

Lemma distances_text_ok i d : matrix_ranges (Some d) ->
  distances_text i (Some d) = open_text i "distances" (distances_props d) 1
    ++ concat (map (fun x => leaf_text (i + 2) "latency" (latency_props x)) (latency d)) ++ close_text i "distances" 1.
Proof.
  intros (Hn & Hr & Hl & _). unfold distances_text.
  assert (u32 (nbobjs d * nbobjs d) = nbobjs d * nbobjs d) as -> by (apply u32_small; nia).
  rewrite firstn_all2 by lia. unfold open_text, close_text, end_props_text.
  destruct (Z.eqb_spec (nbobjs d * nbobjs d) 0) as [|_]; [nia|]. done.
Qed.

Lemma leaves_length {A} (text : A -> chars) (xs : list A) : (forall x, text x <> []) ->
  (length xs <= length (concat (map text xs)))%nat.
Proof.
  intros Ht. induction xs as [|x xs IH]; [done|]. cbn [map concat length]. rewrite length_app.
  specialize (Ht x). destruct (text x); [done|]. simpl. lia.
Qed.

Lemma leaf_nonempty i name ps : leaf_text i name ps <> [].
Proof. unfold leaf_text, open_text. by destruct (pad i). Qed.

Lemma import_distances_ok first addr i d rest : matrix_ranges (Some d) ->
  exists st, hwloc__xml_import_distances first addr (child_state "distances" (distances_props d) 1
      (concat (map (fun x => leaf_text (i + 2) "latency" (latency_props x)) (latency d)) ++ close_text i "distances" 1 ++ rest))
    = Some (Some (keep_matrix addr first (Some d), st)) /\ tagbuffer st = LF ++ rest.
Proof.
  intros (Hn & Hr & Hl & Hb). set (texts := concat _). eexists. unfold hwloc__xml_import_distances, distances_props.
  rewrite (read_child _ "distances" _ _ 1 (texts ++ close_text i "distances" 1 ++ rest) (0, 0, 0)
    (number (fmt_u (nbobjs d)), number (fmt_u (relative_depth d)), reread_float (latency_base d))); [| |reflexivity].
  - cbn [mbind option_bind]. rewrite !number_u by lia. rewrite Hb.
    destruct (Z.eqb_spec (nbobjs d) 0) as [|_]; [lia|]. destruct (Z.eqb_spec (relative_depth d) 0) as [|_]; [lia|]. cbn [negb andb].
    rewrite !u64_small by nia. rewrite Z.div_mul by lia.
    assert (length (latency d) <= length texts)%nat as Hlen by (apply leaves_length; intros; apply leaf_nonempty).
    rewrite Z.min_l by (unfold after_attrs; cbn [tagbuffer]; rewrite !length_app; lia).
    replace (Z.to_nat (nbobjs d * nbobjs d)) with (length (latency d)) by lia.
    rewrite (import_latencies_ok (latency d) _ 0 (i + 2) (close_text i "distances" 1 ++ rest)); [|lia|done|done].
    cbn [mbind option_bind app]. unfold import_end.
    rewrite (close_tag_ok _ i "distances" rest); [|done|name_is_good|done|done]. rewrite !u32_small by lia. done.
  - repeat apply Forall_cons_2; [..|constructor]; (split; [name_is_good|]); cbn [snd prop];
      first [apply fmt_f_clean|apply fmt_u_clean; lia].
Qed.

(** ** Subnodes *)

(** Where the importer is within an object: the object, its children, the next address
    and the distances to handle. *)
Definition progress : Type := hwloc_obj B * list (obj_tree B) * Z * imported_distances.

Definition put_page (p : progress) (x : Z * Z) : progress := let '(o, ch, next, first) := p in (add_page o x, ch, next, first).
Definition put_info (p : progress) (x : option (string * string)) : progress :=
  let '(o, ch, next, first) := p in (add_info o x, ch, next, first).
Definition put_matrix (p : progress) (d : option hwloc_distances_s) : progress :=
  let '(o, ch, next, first) := p in (o, ch, next, keep_matrix (o_addr o) first d).

Section Steps.
Context (object : Z -> imported_distances -> import_state
  -> option (option (obj_tree B * Z * imported_distances * import_state))).
Context (parent : import_state) (open : closed parent = false).

Definition subnodes (fuel : nat) (p : progress) (text : chars) :=
  let '(o, ch, next, first) := p in import_subnodes object fuel o ch next first (with_tagbuffer parent (LF ++ text)).

Definition reads_sub (text : chars) (f : progress -> progress) : Prop :=
  forall fuel p rest, subnodes (S fuel) p (text ++ rest) = subnodes fuel (f p) rest.

Lemma sub_fold {A} (text : A -> chars) (put : progress -> A -> progress) xs fuel p rest :
  (forall x, x ∈ xs -> reads_sub (text x) (fun p => put p x)) ->
  subnodes (length xs + fuel) p (concat (map text xs) ++ rest) = subnodes fuel (foldl put p xs) rest.
Proof.
  revert p. induction xs as [|x xs IH]; intros p Hx; [done|]. cbn [length map concat foldl Nat.add].
  rewrite <- app_assoc, (Hx x) by left. apply IH. intros y Hy. apply Hx. by right.
Qed.

Lemma find_sub i name p ps n rest : good_name name -> good_text (p :: ps) ->
  hwloc__xml_import_find_child (with_tagbuffer parent (LF ++ open_text i name (p :: ps) n ++ rest))
    = Some (Child (txt name) (child_state name (p :: ps) n rest)).
Proof. intros Hn Hps. by apply (find_child_ok _ i). Qed.

Lemma close_sub st rest : tagbuffer st = LF ++ rest ->
  forall text, hwloc__xml_import_close_child st (with_tagbuffer parent text) = with_tagbuffer parent (LF ++ rest).
Proof. intros Ht text. unfold hwloc__xml_import_close_child, with_tagbuffer. by rewrite Ht. Qed.

Lemma sub_page i x : page_ranges x -> reads_sub (leaf_text i "page_type" (page_props x)) (fun p => put_page p x).
Proof.
  intros Hx fuel [[[o ch] next] first] rest. unfold subnodes, put_page, leaf_text. cbn [import_subnodes].
  pose proof (import_page_ok o x rest Hx) as Hp. unfold page_props in *.
  rewrite find_sub; [|name_is_good|by apply good_page]. cbn [mbind option_bind].
  rewrite bool_decide_false, bool_decide_true by done. rewrite Hp. cbn [mbind option_bind].
  by rewrite (close_sub _ rest).
Qed.

Lemma sub_info i x : info_clean x -> reads_sub (leaf_text i "info" (info_props x)) (fun p => put_info p x).
Proof.
  intros Hx fuel [[[o ch] next] first] rest. unfold subnodes, put_info, leaf_text. cbn [import_subnodes].
  pose proof (import_info_ok o x rest Hx) as Hi. destruct x as [[n v]|]; [|done]. unfold info_props in *.
  destruct Hx as [Hn Hv].
  rewrite find_sub; [|name_is_good|by repeat apply Forall_cons_2; [..|constructor]; (split; [name_is_good|])].
  cbn [mbind option_bind]. rewrite !(bool_decide_false (txt "info" = _)), bool_decide_true by done. rewrite Hi. cbn [mbind option_bind].
  by rewrite (close_sub _ rest).
Qed.

Lemma sub_matrix i d : matrix_ranges d -> reads_sub (distances_text i d) (fun p => put_matrix p d).
Proof.
  destruct d as [d|]; [|done]. intros Hd fuel [[[o ch] next] first] rest. rewrite distances_text_ok by done.
  unfold subnodes, put_matrix. cbn [import_subnodes]. rewrite <- !app_assoc.
  destruct (import_distances_ok first (o_addr o) i d rest Hd) as (st & Hst & Ht). destruct Hd as (Hn & Hr & _).
  unfold distances_props in *. rewrite find_sub; [|name_is_good|].
  - cbn [mbind option_bind]. rewrite !(bool_decide_false (txt "distances" = _)), bool_decide_true by done.
    rewrite Hst. cbn [mbind option_bind]. by rewrite (close_sub _ rest).
  - repeat apply Forall_cons_2; [..|constructor]; (split; [name_is_good|]); cbn [snd prop];
      first [apply fmt_f_clean|apply fmt_u_clean; lia].
Qed.

Lemma sub_end i name fuel p rest : good_name name -> tagname parent = txt name ->
  subnodes (S fuel) p (close_text i name 1 ++ rest) =
    let '(o, ch, next, first) := p in
    Some (Some (Node o ch, next, first, with_tagbuffer parent (LF ++ rest))).
Proof.
  intros Hn Hname. destruct p as [[[o ch] next] first]. unfold subnodes. cbn [import_subnodes].
  rewrite (no_child_end _ i name rest) by done. cbn [mbind option_bind]. unfold import_end.
  by rewrite (close_tag_ok _ i name rest).
Qed.

End Steps.

(** ** Objects *)

(** What an exported object must be to be read back whole. *)
Record importable o : Prop := {
  im_ranges : object_ranges o;
  im_name : forall n, o_name o = Some n -> clean_string n;
  im_pages : Forall page_ranges (page_types (memory o));
  im_infos : Forall info_clean (infos o);
  im_distances : Forall matrix_ranges (distances o);
}.

Definition blank_child (next : Z) : hwloc_obj B := hwloc_alloc_setup_object next HWLOC_OBJ_SYSTEM (-1).

Fixpoint reread_tree base t (next : Z) (first : imported_distances) : obj_tree B * Z * imported_distances :=
  let 'Node o ch := t in
  let p := (reread_object base o, [], next, first) in
  let p := foldl put_page p (page_types (memory o)) in
  let p := foldl put_info p (infos o) in
  let p := foldl put_matrix p (distances o) in
  let '(o, ch, next, first) := foldl (fun p c =>
    let '(o, ch, next, first) := p in
    let '(c, next, first) := reread_tree (blank_child next) c (next + 1) first in (o, ch ++ [c], next, first)) p ch in
  (Node o ch, next, first).

Definition put_child (p : progress) c : progress :=
  let '(o, ch, next, first) := p in
  let '(c, next, first) := reread_tree (blank_child next) c (next + 1) first in (o, ch ++ [c], next, first).

Lemma reread_node base o ch next first : reread_tree base (Node o ch) next first =
  let '(o, ch, next, first) := foldl put_child (foldl put_matrix (foldl put_info (foldl put_page
    (reread_object base o, [], next, first) (page_types (memory o))) (infos o)) (distances o)) ch in
  (Node o ch, next, first).
Proof. reflexivity. Qed.

(** What follows the opening tag. *)
Definition inner_text (i : Z) t : chars :=
  let 'Node o ch := t in
  concat (map (fun p => leaf_text (i + 2) "page_type" (page_props p)) (page_types (memory o)))
  ++ concat (map (fun x => leaf_text (i + 2) "info" (info_props x)) (infos o))
  ++ concat (map (distances_text (i + 2)) (distances o))
  ++ concat (map (object_text (i + 2)) ch)
  ++ close_text i "object" (nr_children t).

Lemma object_text_inner i o ch :
  object_text i (Node o ch) = open_text i "object" (object_props o) (nr_children (Node o ch)) ++ inner_text i (Node o ch).
Proof. done. Qed.

Lemma open_nonempty i name ps n : open_text i name ps n <> [].
Proof. unfold open_text. by destruct (pad i). Qed.

Lemma object_nonempty i t : object_text i t <> [].
Proof. destruct t as [o ch]. rewrite object_text_inner. pose proof (open_nonempty i "object" (object_props o) (nr_children (Node o ch))). by destruct (open_text _ _ _ _). Qed.

Definition subnode_count t : nat :=
  let 'Node o ch := t in (length (page_types (memory o)) + length (infos o) + length (distances o) + length ch)%nat.

Lemma subnodes_in_text i o ch : importable o -> (subnode_count (Node o ch) <= length (inner_text i (Node o ch)))%nat.
Proof.
  intros Ho. unfold inner_text, subnode_count. rewrite !length_app.
  pose proof (leaves_length (fun p => leaf_text (i + 2) "page_type" (page_props p)) (page_types (memory o)) (fun p => leaf_nonempty _ _ _)).
  pose proof (leaves_length (fun x => leaf_text (i + 2) "info" (info_props x)) (infos o) (fun x => leaf_nonempty _ _ _)).
  pose proof (leaves_length (object_text (i + 2)) ch (object_nonempty _)).
  assert (length (distances o) <= length (concat (map (distances_text (i + 2)) (distances o))))%nat; [|lia].
  destruct Ho as [_ _ _ _ Hd]. induction Hd as [|d ds Hd _ IH]; [done|]. cbn [map concat length]. rewrite length_app.
  destruct d as [d|]; [|done]. rewrite distances_text_ok by done. rewrite length_app.
  pose proof (open_nonempty (i + 2) "distances" (distances_props d) 1). destruct (open_text _ _ _ _); [done|]. simpl. lia.
Qed.

Lemma nr_children_small i t : Forall importable (tree_objs t) -> Z.of_nat (length (object_text i t)) < 2 ^ 32 ->
  nr_children t = Z.of_nat (subnode_count t).
Proof.
  destruct t as [o ch]. rewrite tree_objs_node, object_text_inner, length_app. intros [Ho _]%Forall_cons Hl.
  pose proof (subnodes_in_text i o ch Ho). unfold nr_children, subnode_count in *. apply u32_small. lia.
Qed.

Lemma child_text_length i t c : (exists o ch, t = Node o ch /\ c ∈ ch) ->
  (length (object_text (i + 2) c) <= length (object_text i t))%nat.
Proof.
  intros (o & ch & -> & Hc). rewrite object_text_inner. unfold inner_text. rewrite !length_app.
  apply list_elem_of_split in Hc as (l1 & l2 & ->). rewrite List.map_app, List.concat_app. cbn [map concat].
  rewrite !length_app. lia.
Qed.

Lemma object_props_cons o : exists p ps, object_props o = p :: ps.
Proof. unfold object_props. cbn [app]. by eexists _, _. Qed.

Definition known_type (t : option hwloc_obj_type_t) base : Prop := t = None \/ t = Some (o_type base).

Lemma blank_new next : blank_object (blank_child next).
Proof. by split. Qed.

(** A child, which [object] imports. *)
Lemma sub_child object parent i c : closed parent = false -> importable (t_obj c) ->
  (forall next first rest, exists st, object next first
      (let 'Node o _ := c in child_state "object" (object_props o) (nr_children c) (inner_text i c ++ rest))
    = Some (Some (reread_tree (blank_child next) c (next + 1) first, st)) /\ tagbuffer st = LF ++ rest) ->
  reads_sub object parent (object_text i c) (fun p => put_child p c).
Proof.
  destruct c as [o ch]. cbn [t_obj]. intros Hopen Ho Hobj fuel [[[o1 ch1] next] first] rest.
  rewrite object_text_inner, <- app_assoc. unfold subnodes, put_child. cbn [import_subnodes].
  destruct (Hobj next first rest) as (st & Heq & Ht). destruct (object_props_cons o) as (p & ps & Hps).
  pose proof (good_object o (im_ranges o Ho) (im_name o Ho)) as Hgood. rewrite Hps in *.
  rewrite find_sub; [|done|name_is_good|done]. cbn [mbind option_bind]. rewrite bool_decide_true by done. rewrite Heq.
  cbn [mbind option_bind]. destruct (reread_tree _ _ _ _) as [[c' next'] first']. by rewrite (close_sub _ _ rest).
Qed.

(** The subnodes, [object] importing children. *)
Lemma import_inner object parent i o ch p rest fuel : closed parent = false -> tagname parent = txt "object" ->
  importable o -> nr_children (Node o ch) = Z.of_nat (subnode_count (Node o ch)) -> (0 < subnode_count (Node o ch))%nat ->
  (forall c, c ∈ ch -> reads_sub object parent (object_text (i + 2) c) (fun p => put_child p c)) ->
  (subnode_count (Node o ch) < fuel)%nat ->
  let '(o', ch', next, first) :=
    foldl put_child (foldl put_matrix (foldl put_info (foldl put_page p (page_types (memory o))) (infos o)) (distances o)) ch in
  subnodes object parent fuel p (inner_text i (Node o ch) ++ rest)
    = Some (Some (Node o' ch', next, first, with_tagbuffer parent (LF ++ rest))).
Proof.
  intros Hopen Htag [_ _ Hpages Hinfos Hdist] Hn Hpos Hc Hfuel. unfold inner_text. rewrite Hn. rewrite <- !app_assoc.
  assert (close_text i "object" (Z.of_nat (subnode_count (Node o ch))) = close_text i "object" 1) as ->
    by (unfold close_text; by destruct (Z.eqb_spec (Z.of_nat (subnode_count (Node o ch))) 0) as [|_]; [lia|]).
  rewrite Forall_forall in Hpages. rewrite Forall_forall in Hinfos. rewrite Forall_forall in Hdist.
  unfold subnode_count in Hfuel. set (a := length (page_types (memory o))) in *. set (b := length (infos o)) in *.
  set (c := length (distances o)) in *. set (d := length ch) in *.
  replace fuel with (a + (b + (c + (d + S (fuel - S (a + b + c + d))))))%nat by lia.
  unfold a. rewrite (sub_fold object parent _ put_page) by (intros x Hx; apply sub_page; [done|by apply Hpages]).
  unfold b. rewrite (sub_fold object parent _ put_info) by (intros x Hx; apply sub_info; [done|by apply Hinfos]).
  unfold c. rewrite (sub_fold object parent _ put_matrix) by (intros x Hx; apply sub_matrix; [done|by apply Hdist]).
  unfold d. rewrite (sub_fold object parent _ put_child) by done.
  rewrite sub_end by (done || name_is_good).
  by destruct (foldl put_child _ ch) as [[[? ?] ?] ?].
Qed.

Lemma import_object_ok t : forall fuel ty base next first i rest,
  Forall importable (tree_objs t) -> blank_object base -> known_type ty base ->
  (tree_height t <= fuel)%nat -> Z.of_nat (length (object_text i t)) < 2 ^ 32 ->
  exists st, hwloc__xml_import_object fuel (mk_importing ty base) next first
      (let 'Node o _ := t in child_state "object" (object_props o) (nr_children t) (inner_text i t ++ rest))
    = Some (Some (reread_tree base t next first, st)) /\ tagbuffer st = LF ++ rest.
Proof.
  induction t as [o ch IH] using obj_tree_ind'. intros fuel ty base next first i rest Himp Hb Hty Hfuel Hlen.
  pose proof (nr_children_small i _ Himp Hlen) as Hn. rewrite tree_objs_node in Himp. apply Forall_cons in Himp as [Ho Hch].
  destruct fuel as [|fuel]; [rewrite height_node in Hfuel; lia|]. cbn [hwloc__xml_import_object].
  destruct (object_props_cons o) as (p & ps & Hps).
  pose proof (good_object o (im_ranges o Ho) (im_name o Ho)) as Hgood.
  pose proof (run_object_props (mk_importing ty base) o Hb (im_ranges o Ho) Hty) as Hrun. rewrite Hps in Hgood, Hrun |- *.
  rewrite (read_child _ "object" _ _ _ _ _ _ Hgood Hrun). cbn [mbind option_bind im_type im_obj].
  set (n := nr_children (Node o ch)) in *. set (parent := after_attrs "object" n _).
  set (object := fun next first state => hwloc__xml_import_object fuel _ (next + 1) first state).
  set (p0 := (reread_object base o, [], next, first) : progress).
  rewrite reread_node. fold p0.
  destruct (decide (subnode_count (Node o ch) = O)) as [Hz|Hnz].
  - unfold subnode_count in Hz. destruct o as [ad ty' ix lv nm [tm lm pages] at' ss ds ins]. cbn [memory page_types infos distances] in *.
    destruct pages, ins, ds, ch; simpl in Hz; try lia. cbn [foldl]. unfold p0. cbn [import_subnodes].
    rewrite no_child_closed by done. cbn [mbind option_bind]. unfold import_end. rewrite close_tag_closed by done.
    eexists. split; [done|]. done.
  - pose proof (import_inner object parent i o ch p0 rest (S (length (tagbuffer parent)))) as Hin.
    destruct (foldl put_child _ ch) as [[[o' ch'] next'] first'].
    exists (with_tagbuffer parent (LF ++ rest)). split; [|done]. apply Hin; clear Hin; try done.
    + unfold parent, after_attrs. cbn [closed]. apply Z.eqb_neq. lia.
    + lia.
    + intros c Hc. apply sub_child.
      * unfold parent, after_attrs. cbn [closed]. apply Z.eqb_neq. lia.
      * rewrite Forall_forall in Hch. apply Hch, elem_of_forest_objs. exists c. split; [done|]. destruct c. rewrite tree_objs_node. left.
      * intros nx fs rs. rewrite Forall_forall in IH. apply (IH c Hc fuel None (blank_child nx) (nx + 1) fs (i + 2) rs).
        -- apply Forall_forall. intros oc Hoc. rewrite Forall_forall in Hch. apply Hch, elem_of_forest_objs. by exists c.
        -- apply blank_new.
        -- by left.
        -- pose proof (height_child o ch c Hc). lia.
        -- pose proof (child_text_length i (Node o ch) c) as Hcl. specialize (Hcl ltac:(by exists o, ch)). lia.
    + pose proof (subnodes_in_text i o ch Ho). unfold parent, after_attrs. cbn [tagbuffer]. rewrite !length_app. lia.
Qed.

End ImportOk.
