(* ===== verification/XmlRound.v ===== *)
(** * XmlRound: what an exported hierarchy becomes once it is imported *)

From Stdlib Require Import Ascii String.
From S2P Require Import Prelude Misc Bitmap CString CStringOk BitmapString MaskTextOk Cpuset CpusetText Obj Insert Synthetic Float Scan XmlExport XmlExportOk XmlImport XmlTokens CpusetTextOk XmlImportOk.

(** Two hierarchies of the same shape, their objects related one by one. *)
Inductive tree_rel {B} (R : hwloc_obj B -> hwloc_obj B -> Prop) : obj_tree B -> obj_tree B -> Prop :=
  | tree_rel_node o o' ch ch' : R o o' -> Forall2 (tree_rel R) ch ch' -> tree_rel R (Node o ch) (Node o' ch').

Section Round.
Context `{Malloc} {B : Type} `{CpusetOps B} `{CpusetText B} `{!CpusetTextOk B}.
Implicit Types o base : hwloc_obj B.
Implicit Types t c : obj_tree B.

(** ** The document *)

Lemma skip_xml_header fuel rest :
  skip_headers (S (S (S fuel))) (xml_header ++ txt "<topology>" ++ rest) = Some (Some (txt "<topology>" ++ rest)).
Proof. reflexivity. Qed.

Lemma header_long : (3 <= length xml_header)%nat.
Proof. vm_compute. lia. Qed.

Lemma text_height i t : (tree_height t <= length (object_text i t))%nat.
Proof.
  revert i. induction t as [o ch IH] using obj_tree_ind'. intros i. rewrite height_node, object_text_inner. unfold inner_text.
  rewrite !length_app.
  assert (1 <= length (open_text i "object" (object_props o) (nr_children (Node o ch))))%nat as Hone
    by (pose proof (open_nonempty i "object" (object_props o) (nr_children (Node o ch))); destruct (open_text _ _ _ _); [done|simpl; lia]).
  assert (foldr (fun c n => Nat.max (tree_height c) n) 0 ch <= length (concat (map (object_text (i + 2)) ch)))%nat as Hch; [|lia].
  clear Hone. induction IH as [|c ch Hc _ IHch]; [done|]. cbn [foldr map concat]. rewrite length_app. specialize (Hc (i + 2)).
  lia.
Qed.

Lemma document_text t : document t =
  xml_header ++ txt "<topology>" ++ LF ++ object_text 2 t ++ close_text 0 "topology" 1.
Proof. done. Qed.

Lemma look_document base t next :
  Forall importable (tree_objs t) -> blank_object base -> Z.of_nat (length (document t)) < 2 ^ 32 ->
  import_document base next (document t) = Some (Some (reread_tree base t next None)).
Proof.
  intros Himp Hb Hlen. unfold import_document. pose proof (text_height 2 t) as Hh. rewrite document_text in *.
  set (text := object_text 2 t) in *. set (fin := close_text 0 "topology" 1) in *. rewrite !length_app in Hlen.
  replace (S (length (xml_header ++ txt "<topology>" ++ LF ++ text ++ fin)))
    with (S (S (S (length (xml_header ++ txt "<topology>" ++ LF ++ text ++ fin) - 2))))
    by (rewrite length_app; pose proof header_long; lia).
  rewrite skip_xml_header. cbn [mbind option_bind]. rewrite after_app.
  destruct t as [o ch]. destruct (object_props_cons o) as (p & ps & Hps). unfold text in *. rewrite object_text_inner, <- app_assoc in *.
  assert (importable o) as Ho by (rewrite tree_objs_node in Himp; by apply Forall_cons in Himp as [? _]).
  pose proof (good_object o (im_ranges o Ho) (im_name o Ho)) as Hgood. rewrite Hps in *.
  rewrite (find_child_ok _ 2 "object" p ps (nr_children (Node o ch)) (inner_text 2 (Node o ch) ++ fin)); [|done|name_is_good|done|done].
  cbn [mbind option_bind]. rewrite bool_decide_true by done. cbn [negb].
  match goal with |- context [hwloc__xml_import_object ?f _ _ _ _] => set (fuel := f) end.
  destruct (import_object_ok (Node o ch) fuel (Some (o_type base)) base next None 2 fin) as (st & Heq & _);
    [done|done|by right| | |].
  - unfold fuel. rewrite !length_app in *. lia.
  - rewrite object_text_inner, Hps, length_app in *. lia.
  - rewrite Hps in Heq. rewrite Heq. cbn [mbind option_bind]. by destruct (reread_tree _ _ _ _) as [[? ?] ?].
Qed.

(** ** The objects that are read back *)

Definition same_cpuset (s s' : option B) : Prop :=
  match s, s' with Some s, Some s' => beq s' s | None, None => True | _, _ => False end.
(** Full nodesets are dropped. *)
Definition same_nodeset (s s' : option B) : Prop :=
  match s with
  | Some s => if b_isfull s then s' = None else same_cpuset (Some s) s'
  | None => s' = None
  end.

Record same_sets (s s' : obj_sets B) : Prop := {
  ss_cpuset : same_cpuset (cpuset s) (cpuset s');
  ss_complete_cpuset : same_cpuset (complete_cpuset s) (complete_cpuset s');
  ss_online_cpuset : same_cpuset (online_cpuset s) (online_cpuset s');
  ss_allowed_cpuset : same_cpuset (allowed_cpuset s) (allowed_cpuset s');
  ss_nodeset : same_nodeset (nodeset s) (nodeset s');
  ss_complete_nodeset : same_nodeset (complete_nodeset s) (complete_nodeset s');
  ss_allowed_nodeset : same_nodeset (allowed_nodeset s) (allowed_nodeset s');
}.

(** [o'] is what is read of [o]: pages of size 0 are dropped, matrices are set aside. *)
Record reread_as o o' : Prop := {
  ra_type : o_type o' = o_type o;
  ra_index : os_index o' = os_index o;
  ra_level : os_level o' = os_level o;
  ra_name : o_name o' = o_name o;
  ra_memory : memory o' = mk_memory 0 (local_memory (memory o)) (filter (fun p => fst p <> 0) (page_types (memory o)));
  ra_attr : attr o' = reread_attr (attr o);
  ra_sets : same_sets (sets o) (sets o');
  ra_infos : infos o' = infos o;
  ra_distances : distances o' = [];
}.

Lemma reread_cpuset s : readable s -> same_cpuset s (reread_set s).
Proof. destruct s as [s|]; [|done]. intros Hs. by destruct (reread_set_ok s Hs) as (s' & -> & _ & Heq). Qed.

Lemma reread_nodeset_ok s : readable s -> same_nodeset s (reread_nodeset s).
Proof.
  destruct s as [s|]; [|done]. intros Hs. cbn [same_nodeset reread_nodeset]. destruct (b_isfull s); [done|].
  by apply (reread_cpuset (Some s)).
Qed.

(** The object with its pages and infos. *)
Definition reread_whole base o : hwloc_obj B :=
  let r := reread_object base o in
  with_infos (with_memory r (mk_memory 0 (local_memory (memory o)) (filter (fun p => fst p <> 0) (page_types (memory o))))) (infos o).

Lemma fold_pages o ch next first l : foldl put_page (o, ch, next, first) l =
  (with_memory o (with_page_types (memory o) (page_types (memory o) ++ filter (fun p => fst p <> 0) l)), ch, next, first).
Proof.
  revert o. induction l as [|x l IH]; intros o; cbn [foldl put_page].
  - rewrite filter_nil, app_nil_r. destruct o as [? ? ? ? ? [? ? ?] ? ? ? ?]. done.
  - rewrite IH, filter_cons. unfold add_page. destruct (Z.eqb_spec (fst x) 0) as [Hz|Hz].
    + by rewrite decide_False by lia.
    + rewrite decide_True by done. destruct o as [? ? ? ? ? [? ? ?] ? ? ? ?]. cbn. by rewrite <- app_assoc.
Qed.

Lemma fold_infos o ch next first l : foldl put_info (o, ch, next, first) l = (with_infos o (infos o ++ l), ch, next, first).
Proof.
  revert o. induction l as [|x l IH]; intros o; cbn [foldl put_info].
  - rewrite app_nil_r. by destruct o.
  - rewrite IH. unfold add_info, with_infos. cbn. by rewrite <- app_assoc.
Qed.

Lemma fold_matrices o ch next first l :
  foldl put_matrix (o, ch, next, first) l = (o, ch, next, foldl (keep_matrix (o_addr o)) first l).
Proof. revert first. induction l as [|x l IH]; intros first; cbn [foldl put_matrix]; [done|apply IH]. Qed.

Fixpoint reread_forest (ch : list (obj_tree B)) (next : Z) (first : imported_distances)
  : list (obj_tree B) * Z * imported_distances :=
  match ch with
  | [] => ([], next, first)
  | c :: ch =>
      let '(c, next, first) := reread_tree (blank_child next) c (next + 1) first in
      let '(ch, next, first) := reread_forest ch next first in
      (c :: ch, next, first)
  end.

Lemma fold_children o l ch next first : foldl put_child (o, l, next, first) ch =
  let '(ch, next, first) := reread_forest ch next first in (o, l ++ ch, next, first).
Proof.
  revert l next first. induction ch as [|c ch IH]; intros l next first; cbn [foldl put_child reread_forest].
  - by rewrite app_nil_r.
  - destruct (reread_tree _ _ _ _) as [[c' next'] first']. rewrite IH. destruct (reread_forest _ _ _) as [[? ?] ?].
    by rewrite <- app_assoc.
Qed.

Lemma reread_tree_node base o ch next first : reread_tree base (Node o ch) next first =
  let '(ch, next, first) := reread_forest ch next (foldl (keep_matrix (o_addr base)) first (distances o)) in
  (Node (reread_whole base o) ch, next, first).
Proof.
  rewrite reread_node, fold_pages, fold_infos, fold_matrices, fold_children. cbn [app o_addr with_infos with_memory reread_object].
  by destruct (reread_forest _ _ _) as [[? ?] ?].
Qed.

(** The matrices of a hierarchy, with the addresses of the new objects. *)
Definition matrices_at o o' : list (Z * hwloc_distances_s) :=
  map (fun d => (o_addr o', reread_matrix d)) (omap id (distances o)).
Definition matrices (os os' : list (hwloc_obj B)) : list (Z * hwloc_distances_s) := concat (zip_with matrices_at os os').
Definition last_of {A} (l : list A) (first : option A) : option A := match last l with Some x => Some x | None => first end.

Lemma last_of_app {A} (l k : list A) first : last_of (l ++ k) first = last_of k (last_of l first).
Proof. unfold last_of. rewrite last_app. by destruct (last k). Qed.

Lemma keep_matrices addr first (l : list (option hwloc_distances_s)) :
  foldl (keep_matrix addr) first l = last_of (map (fun d => (addr, reread_matrix d)) (omap id l)) first.
Proof.
  revert first. induction l as [|[d|] l IH]; intros first; cbn [foldl]; [done| |].
  - rewrite IH. change (omap id (Some d :: l)) with (d :: omap id l). cbn [map]. unfold last_of. by destruct (last _) eqn:Hl; rewrite last_cons, Hl.
  - by rewrite IH.
Qed.

Lemma rel_lengths R t t' : tree_rel R t t' -> length (tree_objs t) = length (tree_objs t').
Proof.
  revert t'. induction t as [o ch IH] using obj_tree_ind'. intros t' Hr. inversion Hr as [? o' ? ch' _ Hch]; subst.
  rewrite !tree_objs_node. simpl. f_equal. clear Hr. induction Hch as [|c c' ch ch' Hc _ IHch]; [done|].
  apply Forall_cons in IH as [IHc IH]. rewrite !forest_objs_cons, !length_app. rewrite (IHc c') by done. by rewrite IHch.
Qed.

Lemma matrices_app a b a' b' : length a = length a' -> matrices (a ++ b) (a' ++ b') = matrices a a' ++ matrices b b'.
Proof. intros Hl. unfold matrices. by rewrite zip_with_app, List.concat_app by done. Qed.
Lemma whole_ok base o : object_ranges o -> os_index base = UNSET \/ os_index o <> UNSET -> reread_as o (reread_whole base o).
Proof.
  intros [_ _ Hsets _ _ _] Hi. unfold set_list in Hsets. repeat (apply Forall_cons in Hsets as [? Hsets]).
  split; try done.
  - cbn. destruct (Z.eqb_spec (os_index o) UNSET); [|done]. destruct Hi; [congruence|done].
  - split; cbn; by first [apply reread_cpuset|apply reread_nodeset_ok].
Qed.

(** A new hierarchy: its objects, addresses, the next address, the last matrix. *)
Definition read_from base t (next : Z) (first : imported_distances) (r : obj_tree B * Z * imported_distances) : Prop :=
  let '(t', next', first') := r in
  let n := Z.of_nat (length (tree_objs t)) in
  tree_rel reread_as t t' /\ map o_addr (tree_objs t') = o_addr base :: seqZ next (n - 1) /\ next' = next + n - 1 /\
  first' = last_of (matrices (tree_objs t) (tree_objs t')) first.

Lemma forest_read ch next first :
  Forall (fun c => forall next first, read_from (blank_child next) c (next + 1) first (reread_tree (blank_child next) c (next + 1) first)) ch ->
  let '(ch', next', first') := reread_forest ch next first in
  let n := Z.of_nat (length (forest_objs ch)) in
  Forall2 (tree_rel reread_as) ch ch' /\ map o_addr (forest_objs ch') = seqZ next n /\ next' = next + n /\
  first' = last_of (matrices (forest_objs ch) (forest_objs ch')) first.
Proof.
  intros Hch. revert next first. induction Hch as [|c ch Hc Hch IH]; intros next first; cbn [reread_forest].
  - split_and!; [constructor|done|simpl; lia|done].
  - specialize (Hc next first). destruct (reread_tree _ _ _ _) as [[c' next1] first1].
    destruct Hc as (Hrel & Haddr & -> & ->).
    specialize (IH (next + 1 + Z.of_nat (length (tree_objs c)) - 1) (last_of (matrices (tree_objs c) (tree_objs c')) first)).
    destruct (reread_forest ch _ _) as [[ch' next2] first2]. destruct IH as (Hrels & Haddrs & -> & ->).
    rewrite !forest_objs_cons, !length_app, map_app, Haddr, Haddrs. split_and!.
    + by constructor.
    + rewrite Nat2Z.inj_add, seqZ_app by lia. f_equal; [|f_equal; lia]. assert (0 < length (tree_objs c))%nat as Hpos by (destruct c; rewrite tree_objs_node; simpl; lia).
      rewrite (seqZ_cons next) by lia. cbn [o_addr blank_child hwloc_alloc_setup_object]. done.
    + lia.
    + by rewrite matrices_app, last_of_app by (by eapply rel_lengths).
Qed.

Lemma reread_ok t : Forall importable (tree_objs t) -> forall base next first,
  os_index base = UNSET \/ os_index (t_obj t) <> UNSET -> read_from base t next first (reread_tree base t next first).
Proof.
  induction t as [o ch IH] using obj_tree_ind'. rewrite tree_objs_node. intros [Ho Hch]%Forall_cons base next first Hi.
  rewrite reread_tree_node.
  pose proof (forest_read ch next (foldl (keep_matrix (o_addr base)) first (distances o))) as Hf.
  destruct (reread_forest _ _ _) as [[ch' next'] first']. destruct Hf as (Hrel & Haddr & -> & ->).
  { rewrite Forall_forall in IH. apply Forall_forall. intros c Hc nx fs. apply (IH c Hc); [|by left].
    rewrite Forall_forall in Hch. apply Forall_forall. intros o' Ho'. apply Hch, elem_of_forest_objs. by exists c. }
  unfold read_from. rewrite !tree_objs_node. cbn [length map]. rewrite Haddr. split_and!.
  - constructor; [|done]. apply whole_ok; [apply im_ranges, Ho|done].
  - cbn [o_addr reread_whole reread_object with_infos with_memory]. do 2 f_equal. lia.
  - lia.
  - change (matrices (o :: forest_objs ch) (reread_whole base o :: forest_objs ch'))
      with (matrices_at o (reread_whole base o) ++ matrices (forest_objs ch) (forest_objs ch')).
    by rewrite last_of_app, keep_matrices.
Qed.

End Round.
