(* ===== verification/XmlThms.v ===== *)
(** * XmlThms: claims on the XML export and import of [src/topology-xml.c] *)

From Stdlib Require Import Ascii String.
From S2P Require Import Prelude Misc Bitmap CString CStringOk Cpuset CpusetText Obj Synthetic Float Scan XmlExport XmlExportOk XmlImport XmlTokens CpusetTextOk XmlImportOk XmlRound Samples.

Section Claims.
Context `{MallocTotal} {B : Type} `{CpusetOps B} `{CpusetText B} `{!CpusetTextOk B}.
Implicit Types o : hwloc_obj B.
Implicit Types t : obj_tree B.

Lemma importable_exportable o : importable o -> exportable o.
Proof.
  intros [[Hm _ Hsets _ _ _] _ _ Hinfos Hd]. split; [done| | |].
  - eapply Forall_impl; [exact Hsets|]. intros s. apply readable_text.
  - eapply Forall_impl; [exact Hinfos|]. by intros [i|].
  - eapply Forall_impl; [exact Hd|]. intros [d|]; [|done]. intros (Hn & _ & Hl & _). cbn [whole_matrix].
    rewrite u32_small by nia. lia.
Qed.

(** C25. The XML text of a hierarchy is [document]: [hwloc___nolibxml_prepare_export]
    writes as much of it as fits the buffer, with a NUL, never outside of it, and
    returns its size; [hwloc__nolibxml_prepare_export] therefore gives all of it with
    at most one other pass, and [hwloc_topology_export_xml] writes it to the file. *)
Theorem xml_export_writes t :
  Forall exportable (tree_objs t) -> 2 * Z.of_nat (tree_height t) < 2 ^ 32 - 6 ->
  (forall buf size, (size <= length buf)%nat -> Z.of_nat size < 2 ^ 31 ->
     hwloc___nolibxml_prepare_export t buf (Z.of_nat size)
     = Some (Z.of_nat (length (document t)) + 1, stored buf size (document t))) /\
  (Z.of_nat (length (document t)) < 2 ^ 31 - 1 ->
     (exists buffer, hwloc__nolibxml_prepare_export t = Some (Z.of_nat (length (document t)) + 1, buffer) /\
        take (S (length (document t))) buffer = document t ++ [NUL]) /\
     export_xml_file t = Some (document t)).
Proof.
  intros Hex Hh. split; [intros; by apply prepare_ok|]. intros Hlen.
  split; [by apply whole_export_ok|by apply export_file_ok].
Qed.

(** C13. Round trip: the XML text of a hierarchy whose strings need no escape is
    imported as a hierarchy of the same shape, at new addresses.  Type, indexes, OS
    level, name, local memory and infos of each object are read back equal, and its sets
    as equal sets.  The differences are those that [reread_as] lists: full nodesets become
    NULL, the total memory is 0 (it is not in the text), page types of size 0 are
    dropped, the sides of a bridge that are not PCI become 0, and the link speeds of PCI
    devices are what [atof] reads of their ["%f"].  The distance matrices leave the
    objects: only the last one of the text is kept, with its values read of ["%f"] too. *)
Theorem xml_round_trip t addr next :
  Forall importable (tree_objs t) -> os_index (t_obj t) <> UNSET ->
  Z.of_nat (length (document t)) < 2 ^ 31 - 1 ->
  exists text t' next' first,
    export_xml_file t = Some text /\
    import_document (hwloc_alloc_setup_object addr HWLOC_OBJ_MACHINE 0) next text = Some (Some (t', next', first)) /\
    tree_rel reread_as t t' /\
    map o_addr (tree_objs t') = addr :: seqZ next (Z.of_nat (length (tree_objs t)) - 1) /\
    next' = next + Z.of_nat (length (tree_objs t)) - 1 /\
    first = last (matrices (tree_objs t) (tree_objs t')).
Proof.
  intros Himp Hroot Hlen. set (root := hwloc_alloc_setup_object addr HWLOC_OBJ_MACHINE 0 : hwloc_obj B).
  pose proof (reread_ok t Himp root next None (or_intror Hroot)) as Hr.
  pose proof (look_document root t next Himp ltac:(by split) ltac:(lia)) as Hlook.
  destruct (reread_tree root t next None) as [[t' next'] first]. destruct Hr as (Hrel & Haddr & Hnext & Hfirst).
  exists (document t), t', next', first. split; [|split_and!; [exact Hlook|done|exact Haddr|done|]].
  - apply export_file_ok; [|pose proof (text_height 2 t); pose proof header_long; rewrite document_text, !length_app in Hlen; lia|done].
    eapply Forall_impl; [exact Himp|]. apply importable_exportable.
  - rewrite Hfirst. unfold last_of. by destruct (last _).
Qed.

(** Escapes are not read back: the import of a tag whose attributes were
    exported stops, without an error, at the first value with an escaped character:
    that attribute and the ones after it are dropped. *)
Theorem escaped_values_dropped {A} (body : A -> chars -> chars -> option (option A)) tag ps name value qs n rest a b :
  Forall good_prop ps -> good_name name -> ~ plain value -> NUL ∉ value -> run_attrs body ps a = Some (Some b) ->
  exists st, each_attr body (attr_fuel (child_state tag (ps ++ (name, value) :: qs) n rest)) a
      (child_state tag (ps ++ (name, value) :: qs) n rest) = Some (Some (b, st)) /\ tagbuffer st = LF ++ rest.
Proof.
  intros Hps Hn Hv Hnul Hrun. set (qs0 := ps ++ (name, value) :: qs). set (st := child_state tag qs0 n rest).
  set (stop := prop_text (name, value) ++ props_text qs).
  assert (Hin : ignore_spaces stop = txt name ++ txt "=" ++ QUOTE ++ esc value ++ QUOTE ++ props_text qs).
  { unfold stop, prop_text. cbn [fst snd]. rewrite <- !app_assoc. cbn [txt list_ascii_of_string app].
    rewrite ignore_blank by done. destruct Hn as [Hn Hne]. destruct name as [|c s]; [done|].
    apply Forall_cons in Hn as [Hc _]. apply ignore_front. by apply name_not_blank. }
  assert (props_text qs0 = props_text ps ++ stop) as Htext by (unfold qs0; by rewrite props_app).
  destruct (each_attr_ok body ps stop (attr_fuel st) a b st Hps) as [Heq|[_ Heq]]; [| | |done|by eexists|by eexists].
  - unfold attr_fuel, st, child_state. cbn [attrbuffer]. pose proof (props_text_length ps). rewrite Htext.
    rewrite length_tl. cbn [length] in *. rewrite length_app. lia.
  - intros st' Ht. apply (next_attr_escaped name value (props_text qs)); try done. by rewrite Ht.
  - unfold st, child_state. cbn [attrbuffer]. rewrite <- Htext.
    destruct qs0 as [|p0 ps0] eqn:Hqs; [by destruct ps|]. apply ignore_child.
Qed.

End Claims.

(** ** Witnesses *)

Definition sample_pci : hwloc_pcidev_attr_s := mk_pcidev 1 2 3 4 0x200 0x8086 0x1234 0x55 0x66 0x7 0x3f800000.
Definition sample_hostbridge : hwloc_bridge_attr_s := mk_bridge zero_pcidev HWLOC_OBJ_BRIDGE_HOST 1 0 5 HWLOC_OBJ_BRIDGE_PCI 0.
Definition sample_matrix : hwloc_distances_s :=
  mk_distances 1 2 [0x3f800000; 0x40000000; 0x40000000; 0x3f800000] 0x40000000 0x41200000.

(** A machine with memory, a matrix, a cache above two PUs and a bridge above a device. *)
Definition sample_box : hwloc_obj wbitmap :=
  with_distances (with_memory (with_infos (with_name (sample_obj 1 HWLOC_OBJ_MACHINE 0 (Some (cset [0; 1]))) (Some "box"%string))
    [Some ("Backend", "Linux")%string]) (mk_memory 0 1048576 [(4096, 256); (0, 5)])) [Some sample_matrix].
Definition sample_cache : hwloc_obj wbitmap :=
  with_attr (with_os_level (sample_obj 2 HWLOC_OBJ_CACHE UNSET (Some (cset [0; 1]))) 2) (AttrCache 32768 1 64 (-1)).
Definition sample_xml : obj_tree wbitmap :=
  Node sample_box
    [Node sample_cache [Node (sample_obj 3 HWLOC_OBJ_PU 0 (Some (cset [0]))) []; Node (sample_obj 4 HWLOC_OBJ_PU 1 (Some (cset [1]))) []];
     Node (with_attr (sample_obj 5 HWLOC_OBJ_BRIDGE 0 None) (AttrBridge sample_hostbridge))
       [Node (with_attr (sample_obj 6 HWLOC_OBJ_PCI_DEVICE 4144 None) (AttrPcidev sample_pci)) []]].

Lemma bitmap_prints (a : wbitmap) : (ulongs_count (w a) <=? 2 ^ 20) = true -> b_printable a.
Proof. intros Hc%Z.leb_le. split; [apply cpuset_ok_spec, (proj2_sig a)|done]. Qed.

Lemma sample_pci_ranges : pci_ranges sample_pci.
Proof. split; (split; [lia|split; [discriminate|reflexivity]]). Qed.

Lemma sample_bridge_ranges : bridge_ranges sample_hostbridge.
Proof. split; (split; [try discriminate; lia|first [reflexivity|split; [discriminate|reflexivity]]]). Qed.

Lemma sample_bridge_attr : attr_ranges (AttrBridge sample_hostbridge).
Proof. split; [exact sample_bridge_ranges|intros; discriminate]. Qed.

Ltac in_range := repeat split; first [exact I|vm_compute; congruence].
Ltac each_one tac := repeat (apply Forall_cons_2; [tac|]); apply Forall_nil_2.
Ltac is_clean := unfold clean_string, clean_value; each_one ltac:(by_eval).

Ltac importable_sample :=
  split;
  [split; [by_eval
          |first [exact sample_bridge_attr|exact sample_pci_ranges|in_range]
          |each_one ltac:(first [exact I|apply bitmap_prints; by_eval])|in_range|in_range|in_range]
  |cbn; intros ? Hn; first [discriminate Hn|injection Hn as <-; is_clean]
  |each_one in_range
  |each_one ltac:(split; is_clean)
  |each_one in_range].

Lemma importable_xml : Forall importable (tree_objs sample_xml).
Proof. unfold sample_xml. cbn [tree_objs map concat app]. each_one importable_sample. Qed.

Lemma xml_export_writes_witness :
  hwloc___nolibxml_prepare_export sample_xml (replicate 50 NUL) 40
  = Some (Z.of_nat (length (document sample_xml)) + 1, stored (replicate 50 NUL) 40 (document sample_xml)) /\
  export_xml_file sample_xml = Some (document sample_xml).
Proof.
  destruct (xml_export_writes sample_xml) as [Hbuf Hfile].
  - eapply Forall_impl; [exact importable_xml|]. apply importable_exportable.
  - vm_compute. reflexivity.
  - split; [apply (Hbuf (replicate 50 NUL) 40%nat); [vm_compute; lia|lia]|]. apply Hfile. vm_compute. reflexivity.
Defined.

Lemma xml_round_trip_witness : exists text t' next' first,
  export_xml_file sample_xml = Some text /\
  import_document (hwloc_alloc_setup_object 100 HWLOC_OBJ_MACHINE 0) 101 text = Some (Some (t', next', first)) /\
  tree_rel reread_as sample_xml t' /\
  map o_addr (tree_objs t') = [100; 101; 102; 103; 104; 105] /\ next' = 106 /\
  first = last (matrices (tree_objs sample_xml) (tree_objs t')).
Proof.
  exact (xml_round_trip sample_xml 100 101 importable_xml ltac:(discriminate) ltac:(vm_compute; reflexivity)).
Defined.

(** The importer on that text: the matrix is the one exported. *)
Example sample_xml_first :
  match import_document (hwloc_alloc_setup_object 100 HWLOC_OBJ_MACHINE 0) 101 (document sample_xml) with
  | Some (Some (_, _, first)) => first = Some (100, sample_matrix)
  | _ => False
  end.
Proof. vm_compute. reflexivity. Qed.

(** A socket named [a&b]: its name and what follows are lost. *)
Lemma escaped_values_dropped_witness :
  let ps := [prop "type" (txt "Socket"); prop "os_index" (txt "1")] in
  let qs := [prop "local_memory" (txt "5")] in
  let tag := child_state "object" (ps ++ ("name"%string, txt "a&b") :: qs) 0 [] in
  exists st, each_attr (import_attr (B := wbitmap)) (attr_fuel tag) (mk_importing None (blank_child 7)) tag
      = Some (Some (mk_importing (Some HWLOC_OBJ_SOCKET) (with_os_index (hwloc_alloc_setup_object 7 HWLOC_OBJ_SOCKET 0) 1), st))
    /\ tagbuffer st = LF ++ [].
Proof.
  intros ps qs tag. apply (escaped_values_dropped import_attr "object" ps "name" (txt "a&b") qs 0 []).
  - each_one ltac:(split; [name_is_good|unfold clean_value; each_one ltac:(by_eval)]).
  - name_is_good.
  - intros Hp. apply Forall_cons in Hp as [_ [Hp _]%Forall_cons]. discriminate Hp.
  - rewrite list_elem_of_In. vm_compute. intuition discriminate.
  - reflexivity.
Defined.
