(* ===== verification/Distances.v ===== *)
(** * Distances: matrices given to the topology ([src/distances.c])

    The list of [struct hwloc_os_distances_s] of a topology, from its first to its
    last element; matrices are arrays of floats, by lines.  Objects are the addresses
    of nodes of the hierarchy. *)

From Stdlib Require Import Ascii String.
From S2P Require Import Prelude Bitmap CString Cpuset Obj Synthetic Float Scan.

Record hwloc_os_distances_s := mk_osdist {
  od_type : hwloc_obj_type_t;
  od_nbobjs : Z;
  od_indexes : option (list Z);
  od_objs : option (list Z);
  od_distances : list Z;
  od_forced : bool;
}.
Notation osdist := hwloc_os_distances_s.

Definition with_objs (d : osdist) (objs : option (list Z)) : osdist :=
  mk_osdist (od_type d) (od_nbobjs d) (od_indexes d) objs (od_distances d) (od_forced d).

(** ** The list *)

Definition hwloc_distances_init : list osdist := [].
Definition hwloc_distances_destroy (l : list osdist) : list osdist := [].

(** Objects are found again from the indexes when loading. *)
Definition hwloc_distances_clear (l : list osdist) : list osdist := map (fun d => with_objs d None) l.
Definition hwloc_distances_restrict_os (l : list osdist) : list osdist := map (fun d => with_objs d None) l.

Definition HWLOC_RESTRICT_FLAG_ADAPT_DISTANCES : Z := 1.

Definition hwloc_distances_restrict (l : list osdist) (flags : Z) : list osdist :=
  if negb (Z.land flags HWLOC_RESTRICT_FLAG_ADAPT_DISTANCES =? 0) then hwloc_distances_restrict_os l
  else hwloc_distances_destroy l.

(** The loop on the elements of the type: [None] when one was forced and the new one
    is not. *)
Fixpoint make_room (l : list osdist) (type : hwloc_obj_type_t) (force : bool) : option (list osdist) :=
  match l with
  | [] => Some []
  | d :: l' =>
      if bool_decide (od_type d = type) then
        if od_forced d && negb force then None
        else if force then make_room l' type force
        else let! l' := make_room l' type force in Some (d :: l')
      else let! l' := make_room l' type force in Some (d :: l')
  end.

Definition hwloc_distances_set (l : list osdist) (type : hwloc_obj_type_t) (nbobjs : Z)
    (indexes : option (list Z)) (objs : option (list Z)) (distances : list Z) (force : bool) : list osdist :=
  match make_room l type force with
  | None => l
  | Some l => if nbobjs =? 0 then l else l ++ [mk_osdist type nbobjs indexes objs distances force]
  end.

(** -1 (with EINVAL) when an index comes twice. *)
Fixpoint hwloc_distances__check_matrix (indexes : list Z) : Z :=
  match indexes with
  | [] => 0
  | x :: indexes => if existsb (Z.eqb x) indexes then -1 else hwloc_distances__check_matrix indexes
  end.

(** The int returned and the list; the arrays of [indexes] and [distances] are the
    caller's. *)
Definition hwloc_topology_set_distance_matrix (l : list osdist) (type : hwloc_obj_type_t) (nbobjs : Z)
    (indexes distances : option (list Z)) : option (Z * list osdist) :=
  match indexes, distances with
  | None, None => if nbobjs =? 0 then Some (0, hwloc_distances_set l type 0 None None [] true) else Some (-1, l)
  | Some indexes, Some distances =>
      if nbobjs =? 0 then Some (-1, l) else
      let n := Z.to_nat nbobjs in
      require! (n <=? length indexes)%nat in
      if hwloc_distances__check_matrix (take n indexes) <? 0 then Some (-1, l) else
      let m := Z.to_nat (u32 (nbobjs * nbobjs)) in
      require! (m <=? length distances)%nat in
      Some (0, hwloc_distances_set l type nbobjs (Some (take n indexes)) None (take m distances) true)
  | _, _ => Some (-1, l)
  end.

(** ** Descriptions in the environment *)

Section Describe.
Context `{Malloc}.

(** How many indexes, and the text after the last digit. *)
Fixpoint count_indexes (s : chars) : Z * chars :=
  match s with
  | c :: s' =>
      if (48 <=? char_code c) && (char_code c <=? 57) then count_indexes s'
      else if (c =? ",")%char then let '(n, rest) := count_indexes s' in (n + 1, rest)
      else (1, s)
  | [] => (1, [])
  end.

(** [strtoul] of each index; one more character is skipped after it. *)
Fixpoint parse_indexes (n : nat) (s : chars) : option (list Z * chars) :=
  match n with
  | O => Some ([], s)
  | S n =>
      let '(i, next) := strtoul s 0 in
      require! negb (bool_decide (next = [])) in
      let! (indexes, s) := parse_indexes n (tl next) in
      Some (u32 i :: indexes, s)
  end.

(** ["%u*%u*%u"]: what was read. *)
Definition scan_groups (s : chars) : option (Z * Z * option Z) :=
  let! (x, s) := scan_u s in let! s := scan_text (txt "*") s in
  let! (y, s) := scan_u s in
  Some (x, y, let! s := scan_text (txt "*") s in let! (z, _) := scan_u s in Some z).

Definition F1 : Z := 0x3f800000.
Definition F2 : Z := 0x40000000.
Definition F4 : Z := 0x40800000.
Definition F8 : Z := 0x41000000.

Definition group_distance (y z i j : Z) : Z :=
  if i =? j then F1
  else if i / z =? j / z then F2
  else if i / z / y =? j / z / y then F4
  else F8.

Definition group_matrix (nbobjs y z : Z) : list Z :=
  concat (map (fun i => map (fun j => group_distance y z i j) (seqZ 0 nbobjs)) (seqZ 0 nbobjs)).

(** [atof] up to each comma; [None] for not enough values. *)
Fixpoint parse_distances (n : nat) (s : chars) : option (list Z) :=
  match n with
  | O => Some []
  | S n =>
      let d := atof s in
      match strchr s "," with
      | Some next => let s := tl next in let! l := parse_distances n s in Some (d :: l)
      | None => if (n =? 0)%nat then Some [d] else None
      end
  end.

(** ["%u-%u:"]: two numbers are enough, the colon is not checked. *)
Definition scan_range (s : chars) : option (Z * Z) :=
  let! (i, s) := scan_u s in let! s := scan_text (txt "-") s in
  let! (j, _) := scan_u s in Some (i, j).

(** The indexes and the text of the distances; inside, [None] when the text is ignored. *)
Definition read_indexes (string : chars) : option (option (list Z * chars)) :=
  match scan_range string with
  | Some (i, j) =>
      let nbobjs := u32 (j - i + 1) in
      if negb (malloc_ok (nbobjs * 4)) || negb (malloc_ok (u32 (nbobjs * nbobjs) * 4)) then Some None else
      let! rest := strchr string ":" in
      Some (Some (map (fun j => u32 (j + i)) (seqZ 0 nbobjs), tl rest))
  | None =>
      let '(nbobjs, rest) := count_indexes string in
      if negb (bool_decide (head rest = Some ":"%char)) then Some None else
      require! (malloc_ok (nbobjs * 4) && malloc_ok (u32 (nbobjs * nbobjs) * 4)) in
      let! r := parse_indexes (Z.to_nat nbobjs) string in
      Some (Some r)
  end.

Definition hwloc_distances__set_from_string (l : list osdist) (type : hwloc_obj_type_t) (string : chars)
  : option (list osdist) :=
  if bool_decide (string = txt "none") then Some (hwloc_distances_set l type 0 None None [] true) else
  let! r := read_indexes string in
  match r with
  | None => Some l
  | Some (indexes, tmp) =>
      let nbobjs := Z.of_nat (length indexes) in
      let! distances :=
        match scan_groups tmp with
        | Some (x, y, z) =>
            let z := default 1 z in
            if negb (u32 (x * y * z) =? nbobjs) then Some None else
            (* the arrays of more objects are too short *)
            require! (nbobjs <? 2 ^ 16) in
            Some (Some (group_matrix nbobjs y z))
        | None => Some (parse_distances (Z.to_nat (u32 (nbobjs * nbobjs))) tmp)
        end in
      match distances with
      | None => Some l
      | Some distances =>
          if hwloc_distances__check_matrix indexes <? 0 then Some l
          else Some (hwloc_distances_set l type nbobjs (Some indexes) None distances true)
      end
  end.

(** [getenv] for each type, in their order. *)
Definition hwloc_distances_set_from_env (getenv : string -> option string) (l : list osdist) : option (list osdist) :=
  foldl (fun l type =>
    let! l := l in
    match getenv ("HWLOC_" ++ hwloc_obj_type_string type ++ "_DISTANCES")%string with
    | None => Some l
    | Some env => hwloc_distances__set_from_string l type (txt env)
    end) (Some l) obj_types.

End Describe.

(** ** From indexes to objects *)

(** On the array at [arr]; out of it is undefined. *)
Definition memmove {A} (arr : list A) (dst src n : Z) : option (list A) :=
  require! (0 <=? dst) && (0 <=? src) && (0 <=? n) && (dst + n <=? Z.of_nat (length arr))
    && (src + n <=? Z.of_nat (length arr)) in
  let d := Z.to_nat dst in
  let s := Z.to_nat src in
  let n := Z.to_nat n in
  Some (take d arr ++ take n (drop s arr) ++ drop (d + n) arr).

(** [for(j=from; n more turns; j++)] *)
Fixpoint for_from {A} (n : nat) (j : Z) (body : Z -> A -> option A) (a : A) : option A :=
  match n with
  | O => Some a
  | S n => let! a := body j a in for_from n (j + 1) body a
  end.

Definition OLDPOS (nbobjs i j : Z) : Z := u32 (i * nbobjs) + j.
Definition NEWPOS (nbobjs i j : Z) : Z := u32 (i * (nbobjs - 1)) + j.

(** The ends of the lines before [i], each with the beginning of the next line. *)
Definition shift_before (distances : list Z) (nbobjs i : Z) : option (list Z) :=
  if 0 <? i then
    let! distances := for_from (Z.to_nat (i - 1)) 0
      (fun j distances => memmove distances (NEWPOS nbobjs j i) (OLDPOS nbobjs j (i + 1)) (nbobjs - 1)) distances in
    memmove distances (NEWPOS nbobjs (i - 1) i) (OLDPOS nbobjs (i - 1) (i + 1)) (nbobjs - i - 1)
  else Some distances.

(** The lines after [i]. *)
Definition shift_after (distances : list Z) (nbobjs i : Z) : option (list Z) :=
  if i <? nbobjs - 1 then
    let! distances := memmove distances (NEWPOS nbobjs i 0) (OLDPOS nbobjs (i + 1) 0) i in
    let! distances := for_from (Z.to_nat (nbobjs - 2 - i)) i
      (fun j distances => memmove distances (NEWPOS nbobjs j i) (OLDPOS nbobjs (j + 1) (i + 1)) (nbobjs - 1)) distances in
    memmove distances (NEWPOS nbobjs (nbobjs - 2) i) (OLDPOS nbobjs (nbobjs - 1) (i + 1)) (nbobjs - i - 1)
  else Some distances.

(** The line and the column [i] are removed, in place. *)
Definition shift_matrix (distances : list Z) (nbobjs i : Z) : option (list Z) :=
  let! distances := shift_before distances nbobjs i in shift_after distances nbobjs i.

Section Finalize.
Context {B : Type}.

Fixpoint hwloc_find_obj_by_type_and_os_index (root : obj_tree B) (type : hwloc_obj_type_t) (os_index : Z)
  : option (hwloc_obj B) :=
  let 'Node o ch := root in
  if bool_decide (o_type o = type) && (Obj.os_index o =? os_index) then Some o
  else
    (fix children (ch : list (obj_tree B)) : option (hwloc_obj B) :=
       match ch with
       | [] => None
       | c :: ch =>
           match hwloc_find_obj_by_type_and_os_index c type os_index with
           | Some found => Some found
           | None => children ch
           end
       end) ch.

(** The loop from [i] on; each turn leaves one object less to look for. *)
Fixpoint find_objects (turns : nat) (root : obj_tree B) (type : hwloc_obj_type_t) (i nbobjs : Z)
    (indexes distances : list Z) (objs : list Z) : option (Z * list Z * list Z * list Z) :=
  match turns with
  | O => Some (nbobjs, indexes, distances, objs)
  | S turns =>
      let! index := indexes !! Z.to_nat i in
      match hwloc_find_obj_by_type_and_os_index root type index with
      | None =>
          let! distances := shift_matrix distances nbobjs i in
          let! indexes := memmove indexes i (i + 1) (nbobjs - i - 1) in
          find_objects turns root type i (nbobjs - 1) indexes distances objs
      | Some obj => find_objects turns root type (i + 1) nbobjs indexes distances (objs ++ [o_addr obj])
      end
  end.

(** The int returned and the element. *)
Definition hwloc_distances__finalize_os (root : obj_tree B) (d : osdist) : option (Z * osdist) :=
  require! bool_decide (od_objs d = None) in      (* assert *)
  let! indexes := if od_nbobjs d =? 0 then Some [] else od_indexes d in
  let! (nbobjs, indexes, distances, objs) :=
    find_objects (Z.to_nat (od_nbobjs d)) root (od_type d) 0 (od_nbobjs d) indexes (od_distances d) [] in
  let d := mk_osdist (od_type d) nbobjs (Some indexes) (od_objs d) distances (od_forced d) in
  if nbobjs =? 0 then Some (-1, d) else Some (0, with_objs d (Some objs)).

Fixpoint finalize_each (root : obj_tree B) (dropall : bool) (l : list osdist) : option (list osdist) :=
  match l with
  | [] => Some []
  | d :: l =>
      if dropall then finalize_each root dropall l
      else if bool_decide (is_Some (od_objs d)) then let! l := finalize_each root dropall l in Some (d :: l)
      else
        let! (err, d) := hwloc_distances__finalize_os root d in
        let! l := finalize_each root dropall l in
        Some (if err =? 0 then d :: l else l)
  end.

Definition hwloc_distances_finalize_os (root : obj_tree B) (l : list osdist) : option (list osdist) :=
  let 'Node o _ := root in finalize_each root (bool_decide (ocpuset o = None)) l.

End Finalize.

(** ** Moves *)

(** [arr] starts with [out], what is already moved, and ends with [rest], what is not. *)
Definition compacted {A} (arr out rest : list A) : Prop := exists junk, arr = out ++ junk ++ rest.

(** The next segment of [rest] moves to the end of [out]. *)
Lemma memmove_compacted {A} (arr out skip seg rest : list A) dst src n :
  compacted arr out (skip ++ seg ++ rest) ->
  dst = Z.of_nat (length out) -> n = Z.of_nat (length seg) ->
  src = Z.of_nat (length arr) - Z.of_nat (length (seg ++ rest)) ->
  exists arr', memmove arr dst src n = Some arr' /\ length arr' = length arr /\ compacted arr' (out ++ seg) rest.
Proof.
  intros [junk Harr] -> -> ->. pose proof (f_equal length Harr) as Hlen. rewrite !length_app in *. unfold memmove.
  match goal with |- context [if ?b then _ else _] => replace b with true by (symmetry; rewrite !andb_true_iff; lia) end.
  rewrite !Nat2Z.id.
  replace (Z.to_nat _) with (length (out ++ junk ++ skip)) by (rewrite !length_app; lia).
  assert (take (length out) arr = out) as -> by (subst arr; by rewrite take_app_length).
  assert (drop (length (out ++ junk ++ skip)) arr = seg ++ rest) as ->
    by (subst arr; rewrite !app_assoc, <- (app_assoc _ seg); by rewrite drop_app_length).
  rewrite take_app_length. eexists. split; [done|]. split.
  - rewrite !length_app, length_drop. lia.
  - exists (take (length junk + length skip) (drop (length out + length seg) arr)). rewrite <- app_assoc. do 2 f_equal.
    rewrite <- (take_drop (length junk + length skip) (drop (length out + length seg) arr)) at 1. f_equal.
    rewrite drop_drop. replace (length out + length seg + (length junk + length skip))%nat
      with (length (out ++ junk ++ skip ++ seg)) by (rewrite !length_app; lia).
    subst arr. by rewrite !app_assoc, drop_app_length.
Qed.

(** ** A square matrix *)

Section Shift.
Context (n i : nat).

Definition line (r : list Z) : Prop := length r = n.
Local Abbreviation newp := (NEWPOS (Z.of_nat n)).
Local Abbreviation oldp := (OLDPOS (Z.of_nat n)).

Context (Hi : (i < n)%nat) (Hn : Z.of_nat n < 2 ^ 16).

Lemma newp_ok j k : 0 <= j < Z.of_nat n -> newp j k = j * (Z.of_nat n - 1) + k.
Proof. intros Hj. unfold NEWPOS. rewrite u32_small; [done|nia]. Qed.
Lemma oldp_ok j k : 0 <= j < Z.of_nat n -> oldp j k = j * Z.of_nat n + k.
Proof. intros Hj. unfold OLDPOS. rewrite u32_small; [done|nia]. Qed.

Lemma line_split r : line r -> exists y, drop i r = y :: drop (S i) r /\ length (take i r) = i /\
  length (drop (S i) r) = (n - i - 1)%nat /\ delete i r = take i r ++ drop (S i) r /\ length (delete i r) = (n - 1)%nat.
Proof.
  intros Hr. unfold line in Hr. destruct (lookup_lt_is_Some_2 r i ltac:(lia)) as [y Hy]. exists y.
  rewrite delete_take_drop, length_app, length_take, length_drop. split_and!; [|lia|lia|done|lia].
  by apply drop_S.
Qed.

Lemma lines_length rs : Forall line rs -> length (concat rs) = (length rs * n)%nat.
Proof. clear Hi Hn. induction 1 as [|r rs Hr _ IH]; [done|]. cbn [concat length]. rewrite length_app, IH, Hr. lia. Qed.

Lemma deleted_length rs : Forall line rs -> length (concat (map (delete i) rs)) = (length rs * (n - 1))%nat.
Proof.
  induction 1 as [|r rs Hr _ IH]; [done|]. cbn [map concat length]. rewrite length_app, IH.
  destruct (line_split r Hr) as (_ & _ & _ & _ & _ & ->). lia.
Qed.

(** The loop that moves the end of a line with the beginning of the next one; [s] lines
    were removed before. *)
Lemma shift_lines k (s : Z) rs r out tail_ j arr :
  Forall line (r :: rs) -> (k <= length rs)%nat -> 0 <= j -> 0 <= s -> j + s + Z.of_nat k < Z.of_nat n ->
  Z.of_nat (length out) = j * (Z.of_nat n - 1) ->
  Z.of_nat (length arr) = (j + s) * Z.of_nat n + Z.of_nat (length (r ++ concat rs ++ tail_)) ->
  compacted arr (out ++ take i r) (drop i r ++ concat rs ++ tail_) ->
  exists arr' r' rs', drop k (r :: rs) = r' :: rs' /\
    for_from k j (fun j a => memmove a (newp j (Z.of_nat i)) (oldp (j + s) (Z.of_nat i + 1)) (Z.of_nat n - 1)) arr = Some arr' /\
    length arr' = length arr /\
    compacted arr' ((out ++ concat (map (delete i) (take k (r :: rs)))) ++ take i r') (drop i r' ++ concat rs' ++ tail_).
Proof.
  revert r rs out j arr. induction k as [|k IH]; intros r rs out j arr Hrs Hk Hj Hs Hbound Hout Harr Hc.
  - exists arr, r, rs. cbn [take map concat]. rewrite app_nil_r. by split_and!.
  - destruct rs as [|r1 rs]; [simpl in Hk; lia|]. apply Forall_cons in Hrs as [Hr Hrs]. pose proof Hrs as Hrs1.
    apply Forall_cons in Hrs as [Hr1 Hrs]. cbn [for_from].
    destruct (line_split r Hr) as (y & Hy & Ht & Hd & Hdel & Hdl). destruct (line_split r1 Hr1) as (y1 & Hy1 & Ht1 & Hd1 & _ & _).
    destruct (memmove_compacted arr (out ++ take i r) [y] (drop (S i) r ++ take i r1) (drop i r1 ++ concat rs ++ tail_)
      (newp j (Z.of_nat i)) (oldp (j + s) (Z.of_nat i + 1)) (Z.of_nat n - 1)) as (arr1 & -> & Hlen1 & Hc1).
    + rewrite Hy in Hc. cbn [concat] in Hc. rewrite <- (take_drop i r1) in Hc at 1. rewrite <- !app_assoc in *. exact Hc.
    + rewrite newp_ok, length_app by lia. lia.
    + rewrite length_app. lia.
    + rewrite oldp_ok by lia. cbn [concat] in Harr. rewrite !length_app in *. unfold line in *.
      pose proof (length_drop r1 i). lia.
    + cbn [mbind option_bind]. destruct (IH r1 rs (out ++ delete i r) (j + 1) arr1) as (arr' & r' & rs' & Hdrop & Hfor & Hlen' & Hc').
      * done.
      * simpl in Hk. lia.
      * lia.
      * done.
      * lia.
      * rewrite length_app, Hdl. lia.
      * cbn [concat] in Harr. rewrite !length_app in *. unfold line in *. lia.
      * rewrite Hdel. rewrite <- !app_assoc in *. exact Hc1.
      * exists arr', r', rs'. split_and!; [done| |lia|].
        -- replace (j + s + 1) with (j + 1 + s) in Hfor by lia. exact Hfor.
        -- cbn [take map concat]. rewrite (app_assoc out (delete i r)). exact Hc'.
Qed.

Lemma for_from_ext {A} (f g : Z -> A -> option A) k j a :
  (forall j a, f j a = g j a) -> for_from k j f a = for_from k j g a.
Proof.
  intros Hfg. revert j a. induction k as [|k IH]; intros j a; [done|]. cbn [for_from]. rewrite Hfg.
  destruct (g j a); [apply IH|done].
Qed.

(** The end of the last line of a block. *)
Lemma shift_end r out tail_ j s arr : line r -> 0 <= j -> 0 <= s -> j + s < Z.of_nat n ->
  Z.of_nat (length out) = j * (Z.of_nat n - 1) ->
  Z.of_nat (length arr) = (j + s) * Z.of_nat n + Z.of_nat (length (r ++ tail_)) ->
  compacted arr (out ++ take i r) (drop i r ++ tail_) ->
  exists arr', memmove arr (newp j (Z.of_nat i)) (oldp (j + s) (Z.of_nat i + 1)) (Z.of_nat n - Z.of_nat i - 1) = Some arr' /\
    length arr' = length arr /\ compacted arr' (out ++ delete i r) tail_.
Proof.
  intros Hr Hj Hs Hb Hout Harr Hc. destruct (line_split r Hr) as (y & Hy & Ht & Hd & Hdel & _).
  destruct (memmove_compacted arr (out ++ take i r) [y] (drop (S i) r) tail_
    (newp j (Z.of_nat i)) (oldp (j + s) (Z.of_nat i + 1)) (Z.of_nat n - Z.of_nat i - 1)) as (arr1 & -> & Hlen & Hc1).
  - by rewrite Hy in Hc.
  - rewrite newp_ok, length_app by lia. lia.
  - lia.
  - rewrite oldp_ok by lia. rewrite !length_app in *. unfold line in *. lia.
  - exists arr1. split; [done|]. split; [done|]. by rewrite Hdel, app_assoc.
Qed.

(** The lines before [i]. *)
Lemma shift_before_ok rows tail_ arr : length rows = n -> Forall line rows -> arr = concat rows ++ tail_ ->
  exists arr', shift_before arr (Z.of_nat n) (Z.of_nat i) = Some arr' /\ length arr' = length arr /\
    compacted arr' (concat (map (delete i) (take i rows))) (concat (drop i rows) ++ tail_).
Proof.
  intros Hrows Hl ->. unfold shift_before. destruct (Z.ltb_spec 0 (Z.of_nat i)) as [Hpos|Hz].
  - destruct rows as [|r rs]; [simpl in Hrows; lia|]. pose proof (lines_length _ Hl) as Hcl.
    destruct (shift_lines (i - 1) 0 rs r [] tail_ 0 (concat (r :: rs) ++ tail_)) as (a1 & r' & rs' & Hdrop & Hfor & Hlen & Hc);
      [done|simpl in Hrows; lia|lia|lia|lia|simpl; lia|cbn [concat]; rewrite <- !app_assoc; lia| |].
    { exists []. cbn [app concat]. by rewrite <- !app_assoc, (app_assoc (take i r)), take_drop. }
    rewrite (for_from_ext _ (fun j a => memmove a (newp j (Z.of_nat i)) (oldp (j + 0) (Z.of_nat i + 1)) (Z.of_nat n - 1)))
      by (intros j a; by rewrite Z.add_0_r).
    replace (Z.to_nat (Z.of_nat i - 1)) with (i - 1)%nat by lia. rewrite Hfor. cbn [mbind option_bind].
    assert (line r' /\ Forall line rs') as [Hr' Hrs'].
    { apply Forall_cons. rewrite <- Hdrop. by apply Forall_drop. }
    pose proof (f_equal length Hdrop) as Hdl. rewrite length_drop in Hdl. cbn [length] in *.
    assert (Forall line (take (i - 1) (r :: rs))) as Htl by by apply Forall_take.
    destruct (shift_end r' (concat (map (delete i) (take (i - 1) (r :: rs)))) (concat rs' ++ tail_) (Z.of_nat i - 1) 0 a1)
      as (a2 & Ha2 & Hlen2 & Hc2); [done|lia|lia|lia| | |exact Hc|].
    + rewrite deleted_length by done. rewrite length_take. cbn [length]. nia.
    + rewrite Hlen. unfold line in Hr'. rewrite !length_app, Hcl, (lines_length rs') by done. rewrite Hr'. nia.
    + exists a2. rewrite Z.add_0_r in Ha2. split; [done|]. split; [lia|].
      assert (drop i (r :: rs) = rs' /\ take i (r :: rs) = take (i - 1) (r :: rs) ++ [r']) as [-> ->].
      { assert ((r :: rs) !! (i - 1)%nat = Some r') as Hlk
          by (by rewrite <- (Nat.add_0_r (i - 1)), <- lookup_drop, Hdrop).
        rewrite (drop_S _ _ _ Hlk) in Hdrop. apply take_S_r in Hlk.
        replace (S (i - 1)) with i in * by lia. by injection Hdrop. }
      rewrite List.map_app, List.concat_app. cbn [map concat]. by rewrite app_nil_r.
  - assert (i = O) as -> by lia. eexists. split; [done|]. split; [done|]. exists []. done.
Qed.

Lemma shift_after_ok r rs out tail_ arr : length rs = (n - 1 - i)%nat -> Forall line (r :: rs) ->
  length out = (i * (n - 1))%nat -> length arr = (i * n + length (concat (r :: rs) ++ tail_))%nat ->
  compacted arr out (concat (r :: rs) ++ tail_) ->
  exists arr' tail', shift_after arr (Z.of_nat n) (Z.of_nat i) = Some arr' /\ length arr' = length arr /\
    arr' = out ++ concat (map (delete i) rs) ++ tail'.
Proof.
  intros Hrs Hl Hout Harr Hc. unfold shift_after. apply Forall_cons in Hl as [Hr Hl].
  destruct (Z.ltb_spec (Z.of_nat i) (Z.of_nat n - 1)) as [Hlt|Hge].
  - destruct rs as [|r1 rs]; [simpl in Hrs; lia|]. pose proof Hl as Hl1. apply Forall_cons in Hl as [Hr1 Hl].
    destruct (line_split r1 Hr1) as (_ & _ & Ht1 & _). unfold line in Hr, Hr1. cbn [length concat] in *.
    assert (length (take i r1 ++ drop i r1) = n) as Hsp by (by rewrite take_drop).
    rewrite !length_app in *.
    destruct (memmove_compacted arr out r (take i r1) (drop i r1 ++ concat rs ++ tail_)
      (newp (Z.of_nat i) 0) (oldp (Z.of_nat i + 1) 0) (Z.of_nat i)) as (a1 & -> & Hlen1 & Hc1).
    + rewrite (app_assoc (take i r1)), take_drop. by rewrite <- !app_assoc in Hc.
    + rewrite newp_ok by lia. nia.
    + lia.
    + rewrite oldp_ok, !length_app by lia. lia.
    + cbn [mbind option_bind].
      destruct (shift_lines (n - 2 - i) 1 rs r1 out tail_ (Z.of_nat i) a1) as (a2 & r' & rs' & Hdrop & Hfor & Hlen2 & Hc2);
        [done|lia|lia|lia|lia|nia| |exact Hc1|].
      { rewrite Hlen1, !length_app. lia. }
      replace (Z.to_nat (Z.of_nat n - 2 - Z.of_nat i)) with (n - 2 - i)%nat by lia. rewrite Hfor. cbn [mbind option_bind].
      pose proof (f_equal length Hdrop) as Hdl. rewrite length_drop in Hdl. cbn [length] in Hdl.
      destruct rs' as [|? ?]; [|simpl in Hdl; lia].
      assert (line r') as Hr' by (assert (Forall line [r']) as H1 by (rewrite <- Hdrop; by apply Forall_drop); by apply Forall_cons in H1 as [H1 _]).
      destruct (shift_end r' (out ++ concat (map (delete i) (take (n - 2 - i) (r1 :: rs)))) tail_ (Z.of_nat n - 2) 1 a2)
        as (a3 & Ha3 & Hlen3 & Hc3); [done|lia|lia|lia| | |exact Hc2|].
      * rewrite length_app, deleted_length by (by apply Forall_take). rewrite length_take. cbn [length]. nia.
      * pose proof (lines_length rs Hl) as Hcl. replace (length rs) with (n - 2 - i)%nat in Hcl by lia.
        unfold line in Hr'. rewrite Hlen2, Hlen1, length_app. nia.
      * replace (Z.of_nat n - 2 + 1) with (Z.of_nat n - 1) in Ha3 by lia. destruct Hc3 as [junk Hc3].
        exists a3, (junk ++ tail_). split; [done|]. split; [lia|]. rewrite Hc3.
        rewrite <- (take_drop (n - 2 - i) (r1 :: rs)) at 2. rewrite Hdrop, List.map_app, List.concat_app. cbn [map concat].
        by rewrite app_nil_r, <- !app_assoc.
  - destruct rs as [|? ?]; [|simpl in Hrs; lia]. destruct Hc as [junk Hc].
    exists arr, (junk ++ concat [r] ++ tail_). split_and!; [done|done|]. by rewrite Hc.
Qed.

Lemma shift_matrix_ok rows tail_ arr : length rows = n -> Forall line rows -> arr = concat rows ++ tail_ ->
  exists arr' tail', shift_matrix arr (Z.of_nat n) (Z.of_nat i) = Some arr' /\ length arr' = length arr /\
    arr' = concat (map (delete i) (delete i rows)) ++ tail'.
Proof.
  intros Hrows Hl Harr. destruct (shift_before_ok rows tail_ arr Hrows Hl Harr) as (a1 & Ha1 & Hlen1 & Hc1).
  unfold shift_matrix. rewrite Ha1. cbn [mbind option_bind].
  destruct (lookup_lt_is_Some_2 rows i ltac:(lia)) as [r Hr]. pose proof (drop_S _ _ _ Hr) as Hd.
  assert (Forall line (r :: drop (S i) rows)) as Hl1 by (rewrite <- Hd; by apply Forall_drop).
  rewrite Hd in Hc1.
  destruct (shift_after_ok r (drop (S i) rows) (concat (map (delete i) (take i rows))) tail_ a1)
    as (a2 & tail2 & Ha2 & Hlen2 & Heq); [rewrite length_drop; lia|done| | |exact Hc1|].
  - rewrite deleted_length by (by apply Forall_take). rewrite length_take. nia.
  - rewrite Hlen1, Harr, length_app, (lines_length rows) by done. rewrite length_app, lines_length by done.
    cbn [length]. rewrite length_drop. nia.
  - exists a2, tail2. split; [done|]. split; [lia|]. rewrite Heq, delete_take_drop, List.map_app, List.concat_app.
    by rewrite <- app_assoc.
Qed.

End Shift.

(** ** Indexes without an object *)

(** The elements that are kept. *)
Fixpoint keep {A} (mask : list bool) (l : list A) : list A :=
  match mask, l with
  | b :: mask, x :: l => if b then x :: keep mask l else keep mask l
  | _, _ => []
  end.

Lemma keep_all {A} k (l : list A) : length l = k -> keep (repeat true k) l = l.
Proof. intros <-. induction l as [|x l IH]; [done|]. cbn. by rewrite IH. Qed.

Lemma keep_map {A B} (f : A -> B) m l : keep m (map f l) = map f (keep m l).
Proof. revert l. induction m as [|b m IH]; intros [|x l]; try done. cbn. destruct b; cbn; by rewrite IH. Qed.

Lemma keep_Forall {A} (P : A -> Prop) m l : Forall P l -> Forall P (keep m l).
Proof.
  intros Hl. revert m. induction Hl as [|x l Hx _ IH]; intros [|[] m]; cbn; auto.
Qed.

(** Removing the first element that is not kept. *)
Lemma keep_delete {A} i m (l : list A) : (length (repeat true i ++ false :: m) = length l)%nat ->
  keep (repeat true i ++ false :: m) l = keep (repeat true i ++ m) (delete i l).
Proof.
  revert l. induction i as [|i IH]; intros [|x l] Hlen; try done. cbn. f_equal. apply IH. cbn in Hlen. lia.
Qed.

(** The same for the lines and the columns. *)
Lemma keep_square i m rows : let n := length (repeat true i ++ false :: m) in
  length rows = n -> Forall (line n) rows ->
  map (keep (repeat true i ++ false :: m)) (keep (repeat true i ++ false :: m) rows) =
  map (keep (repeat true i ++ m)) (keep (repeat true i ++ m) (map (delete i) (delete i rows))).
Proof.
  intros n Hrows Hl. rewrite (keep_delete i m rows) by done. rewrite keep_map, map_map.
  assert (Forall (line n) (keep (repeat true i ++ m) (delete i rows))) as Hk
    by (apply keep_Forall; rewrite delete_take_drop; apply Forall_app; split; [by apply Forall_take|by apply Forall_drop]).
  apply map_ext_in. intros r Hr. apply keep_delete. rewrite Forall_forall in Hk. symmetry. by apply Hk, list_elem_of_In.
Qed.

Section Find.
Context {B : Type} (root : obj_tree B) (type : hwloc_obj_type_t).
Local Abbreviation find_obj := (hwloc_find_obj_by_type_and_os_index root type).

Definition found (index : Z) : bool := bool_decide (is_Some (find_obj index)).
Definition found_addrs (indexes : list Z) : list Z := omap (fun x => o_addr <$> find_obj x) indexes.

Lemma find_objects_ok todo : forall done_ rows junk tail_ indexes distances objs,
  indexes = done_ ++ todo ++ junk -> Z.of_nat (length (done_ ++ todo)) < 2 ^ 16 ->
  length rows = length (done_ ++ todo) -> Forall (line (length (done_ ++ todo))) rows -> distances = concat rows ++ tail_ ->
  let mask := repeat true (length done_) ++ map found todo in
  exists junk' tail', find_objects (length todo) root type (Z.of_nat (length done_)) (Z.of_nat (length (done_ ++ todo)))
      indexes distances objs =
    Some (Z.of_nat (length (done_ ++ List.filter found todo)), (done_ ++ List.filter found todo) ++ junk',
      concat (map (keep mask) (keep mask rows)) ++ tail', objs ++ found_addrs todo).
Proof.
  induction todo as [|x todo IH]; intros done_ rows junk tail_ indexes distances objs -> Hn Hrows Hl -> mask; subst mask.
  - cbn [length find_objects map List.filter found_addrs omap list_omap]. exists junk, tail_. rewrite !app_nil_r in *.
    rewrite keep_all by done. do 3 f_equal. f_equal. f_equal. rewrite <- (map_id rows) at 1. apply map_ext_in.
    intros r Hr. symmetry. apply keep_all. rewrite Forall_forall in Hl. by apply Hl, list_elem_of_In.
  - cbn [length find_objects]. rewrite !length_app in Hn. cbn [length] in Hn.
    rewrite Nat2Z.id, lookup_app_r, Nat.sub_diag by lia. cbn [mbind option_bind lookup list_lookup app].
    cbn [map List.filter]. unfold found_addrs, found. cbn [omap list_omap]. fold found (found_addrs todo). 
    destruct (find_obj x) as [o|] eqn:Ho; cbn [fmap option_fmap option_map].
    + rewrite bool_decide_eq_true_2 by done.
      replace (done_ ++ x :: todo ++ junk) with ((done_ ++ [x]) ++ todo ++ junk) by (by rewrite <- app_assoc).
      replace (done_ ++ x :: todo) with ((done_ ++ [x]) ++ todo) in * by (by rewrite <- app_assoc).
      destruct (IH (done_ ++ [x]) rows junk tail_ _ _ (objs ++ [o_addr o]) eq_refl ltac:(rewrite !length_app; cbn [length]; lia)
        Hrows Hl eq_refl) as (junk' & tail' & Heq).
      replace (Z.of_nat (length done_) + 1) with (Z.of_nat (length (done_ ++ [x]))) by (rewrite length_app; cbn [length]; lia).
      rewrite Heq. exists junk', tail'.
      rewrite (length_app done_ [x]), Nat.add_comm. cbn [length Nat.add repeat].
      rewrite repeat_cons, <- !app_assoc. done.
    + rewrite bool_decide_eq_false_2 by (by intros [? ?]).
      rewrite length_app in Hrows, Hl. cbn [length] in Hrows, Hl.
      destruct (shift_matrix_ok (length (done_ ++ x :: todo)) (length done_)) with (rows := rows) (tail_ := tail_)
        (arr := concat rows ++ tail_) as (d' & tail1 & -> & _ & ->); try (rewrite ?length_app; cbn [length]; done || lia).
      destruct (memmove_compacted (done_ ++ x :: todo ++ junk) done_ [x] todo junk (Z.of_nat (length done_))
        (Z.of_nat (length done_) + 1) (Z.of_nat (length (done_ ++ x :: todo)) - Z.of_nat (length done_) - 1))
        as (indexes' & -> & _ & [junk1 ->]); [by exists []|done| | |];
        [rewrite length_app; cbn [length]; lia|rewrite !length_app; cbn [length]; rewrite !length_app; lia|].
      cbn [mbind option_bind]. rewrite <- app_assoc.
      replace (Z.of_nat (length (done_ ++ x :: todo)) - 1) with (Z.of_nat (length (done_ ++ todo)))
        by (rewrite !length_app; cbn [length]; lia).
      edestruct (IH done_ (map (delete (length done_)) (delete (length done_) rows)) (junk1 ++ junk) tail1) as (junk' & tail' & Heq);
        [done|rewrite length_app; lia| | |done|].
      * rewrite length_map, delete_take_drop, !length_app, length_take, length_drop. lia.
      * apply Forall_map, Forall_delete. eapply Forall_impl; [exact Hl|]. intros r Hr. unfold line in *.
        rewrite delete_take_drop, !length_app, length_take, length_drop, Hr. lia.
      * rewrite Heq. exists junk', tail'. rewrite keep_square; [done| |];
        rewrite length_app, repeat_length; cbn [length]; rewrite length_map; done.
Qed.

(** What [hwloc_distances__finalize_os] leaves of an element. *)
Definition finalized (d d' : osdist) : Prop := exists indexes rows junk tail,
  let n := length indexes in let mask := map found indexes in
  od_type d' = od_type d /\ od_forced d' = od_forced d /\
  od_nbobjs d' = Z.of_nat (length (List.filter found indexes)) /\
  od_indexes d = Some indexes /\ od_distances d = concat rows /\ length rows = n /\ Forall (line n) rows /\
  od_indexes d' = Some (List.filter found indexes ++ junk) /\ od_objs d' = Some (found_addrs indexes) /\
  od_distances d' = concat (map (keep mask) (keep mask rows)) ++ tail.
End Find.

(** A matrix of [od_nbobjs] lines, with its indexes, without its objects. *)
Definition loaded (d : osdist) : Prop := exists indexes,
  od_indexes d = Some indexes /\ od_nbobjs d = Z.of_nat (length indexes) /\ 0 < od_nbobjs d < 2 ^ 16 /\ NoDup indexes /\
  Z.of_nat (length (od_distances d)) = od_nbobjs d * od_nbobjs d /\ od_objs d = None.

Lemma cut_rows k n (l : list Z) : length l = (k * n)%nat ->
  exists rows, l = concat rows /\ length rows = k /\ Forall (line n) rows.
Proof.
  revert l. induction k as [|k IH]; intros l Hlen.
  - exists []. destruct l; [|done]. by split_and!.
  - destruct (IH (drop n l)) as (rows & Hrows & Hk & Hl); [rewrite length_drop; lia|].
    exists (take n l :: rows). cbn [concat length]. rewrite <- Hrows, take_drop. split_and!; [done|lia|].
    constructor; [|done]. unfold line. rewrite length_take. lia.
Qed.

Lemma found_addrs_length {B} (root : obj_tree B) type indexes :
  length (found_addrs root type indexes) = length (List.filter (found root type) indexes).
Proof.
  induction indexes as [|x l IH]; [done|]. unfold found_addrs, found in *. cbn [omap list_omap List.filter].
  destruct (hwloc_find_obj_by_type_and_os_index root type x); cbn; by rewrite IH.
Qed.

Definition has_objs {B} (root : obj_tree B) (d : osdist) : bool := existsb (found root (od_type d)) (default [] (od_indexes d)).

Lemma finalize_element {B} (root : obj_tree B) d : loaded d ->
  exists err d', hwloc_distances__finalize_os root d = Some (err, d') /\
    if has_objs root d then err = 0 /\ finalized root (od_type d) d d' else err = -1.
Proof.
  intros (indexes & Hi & Hn & Hb & _ & Hlen & Ho). unfold hwloc_distances__finalize_os. rewrite Ho, Hi, Hn in *.
  rewrite bool_decide_eq_true_2 by done. rewrite (proj2 (Z.eqb_neq _ _)) by lia. cbn [mbind option_bind].
  destruct (cut_rows (length indexes) (length indexes) (od_distances d)) as (rows & Hd & Hk & Hl); [lia|].
  destruct (find_objects_ok root (od_type d) indexes [] rows [] [] indexes (od_distances d) []) as (junk & tail & Heq);
    [by rewrite app_nil_r|simpl; lia|done|done|by rewrite app_nil_r|].
  cbn [app length repeat] in Heq. change (Z.of_nat 0) with 0 in Heq. rewrite Nat2Z.id, Heq. cbn [mbind option_bind].
  unfold has_objs. rewrite Hi. cbn [default id].
  assert (existsb (found root (od_type d)) indexes = negb (Z.of_nat (length (List.filter (found root (od_type d)) indexes)) =? 0)) as ->.
  { clear. induction indexes as [|x l IH]; [done|]. cbn [existsb List.filter]. destruct (found _ _ x); [done|apply IH]. }
  destruct (Z.eqb_spec (Z.of_nat (length (List.filter (found root (od_type d)) indexes))) 0); cbn [negb].
  - by eexists _, _.
  - eexists _, _. split; [done|]. split; [done|]. exists indexes, rows, junk, tail. by split_and!.
Qed.

Lemma finalize_os_ok {B} (o : hwloc_obj B) ch l : Forall loaded l ->
  exists l', hwloc_distances_finalize_os (Node o ch) l = Some l' /\
    if bool_decide (ocpuset o = None) then l' = []
    else Forall2 (fun d d' => finalized (Node o ch) (od_type d) d d') (List.filter (has_objs (Node o ch)) l) l'.
Proof.
  intros Hl. unfold hwloc_distances_finalize_os. destruct (bool_decide (ocpuset o = None)).
  - exists []. split; [|done]. by induction Hl.
  - induction Hl as [|d l Hd _ (l' & Heq & IH)]; [by exists []|]. cbn [finalize_each List.filter].
    pose proof Hd as (_ & _ & _ & _ & _ & _ & ->). rewrite bool_decide_eq_false_2 by (by intros [? ?]).
    destruct (finalize_element (Node o ch) d Hd) as (err & d' & -> & Hfin). cbn [mbind option_bind]. rewrite Heq.
    cbn [mbind option_bind]. eexists. split; [done|]. destruct (has_objs (Node o ch) d).
    + destruct Hfin as [-> Hfin]. by constructor.
    + by rewrite Hfin.
Qed.

(** ** The list *)

Lemma filter_loaded l (f : osdist -> bool) : Forall loaded l -> Forall loaded (List.filter f l).
Proof.
  rewrite !Forall_forall. intros Hl d Hd%list_elem_of_In%filter_In. apply Hl, list_elem_of_In. tauto.
Qed.

Lemma filter_twice {A} (f : A -> bool) l : List.filter f (List.filter f l) = List.filter f l.
Proof.
  induction l as [|x l IH]; [done|]. cbn. destruct (f x) eqn:Hx; cbn; [rewrite Hx|]; by rewrite IH.
Qed.
