(* ===== verification/Grouping.v ===== *)
(** * Grouping: groups of objects that are close to each other ([src/distances.c])

    The second half of the file: objects at the minimal distance are put in groups,
    group objects are inserted in the hierarchy, and the distances between groups are
    grouped again.  Pointers to objects are the addresses of nodes of the hierarchy:
    reading an object that is not there any more is undefined.

    Messages are not modelled, nor are failures of [malloc] in
    [hwloc__groups_by_distances], which give up in the same way as small matrices. *)

From Stdlib Require Import Ascii String.
From S2P Require Import Prelude CString Cpuset Obj Insert Float Scan Distances.

(** ** Distances *)

Definition hwloc_compare_distances (a b accuracy : Z) : Z :=
  if negb (f_eq accuracy 0) && f_lt (f_abs (f_sub a b)) (f_mul a accuracy) then 0
  else if f_lt a b then -1
  else if f_eq a b then 0 else 1.

Section Matrix.
Context (nbobjs : Z) (_distances : list Z) (accuracy : Z).

Definition DISTANCE (i j : Z) : option Z := _distances !! Z.to_nat (u32 (i * nbobjs + j)).

Definition turns : nat := Z.to_nat nbobjs.

(** The first loop of the search. *)
Definition minimal_distance : option Z :=
  for_from turns 0 (fun i m => for_from turns 0 (fun j m =>
    if i =? j then Some m else
    let! d := DISTANCE i j in
    Some (if f_lt d m then d else m)) m) FLT_MAX.

(** [groupids], [size] and [newfirstfound]. *)
Definition scanning : Type := (list Z * Z * Z)%type.

(** The loop on [k]: the objects that are not in a group and are close to [j]. *)
Definition scan_connections (min groupid j : Z) (st : scanning) : option scanning :=
  for_from turns 0 (fun k '(groupids, size, newfirstfound) =>
    let! g := groupids !! Z.to_nat k in
    if negb (g =? 0) then Some (groupids, size, newfirstfound) else
    let! d := DISTANCE j k in
    if negb (hwloc_compare_distances d min accuracy =? 0) then Some (groupids, size, newfirstfound) else
    Some (<[Z.to_nat k := groupid]> groupids, size + 1, if newfirstfound =? -1 then k else newfirstfound)) st.

(** The loop on [j], from the first object found. *)
Definition rescan (min groupid firstfound : Z) (st : scanning) : option scanning :=
  for_from (Z.to_nat (nbobjs - firstfound)) firstfound (fun j '(groupids, size, newfirstfound) =>
    let! g := groupids !! Z.to_nat j in
    if g =? groupid then scan_connections min groupid j (groupids, size, newfirstfound)
    else Some (groupids, size, newfirstfound)) st.

(** The [while] loop. *)
Fixpoint grow_group (fuel : nat) (min groupid firstfound : Z) (groupids : list Z) (size : Z) : option (list Z * Z) :=
  if firstfound =? -1 then Some (groupids, size) else
  match fuel with
  | O => None
  | S fuel =>
      let! (groupids, size, newfirstfound) := rescan min groupid firstfound (groupids, size, -1) in
      grow_group fuel min groupid newfirstfound groupids size
  end.

(** A turn of the loop on [i]; the state is [groupids], [groupid] and [skipped]. *)
Definition start_group (min i : Z) (st : list Z * Z * Z) : option (list Z * Z * Z) :=
  let '(groupids, groupid, skipped) := st in
  let! g := groupids !! Z.to_nat i in
  if negb (g =? 0) then Some (groupids, groupid, skipped) else
  let! (groupids, size) := grow_group (S turns) min groupid i (<[Z.to_nat i := groupid]> groupids) 1 in
  if size =? 1 then Some (<[Z.to_nat i := 0]> groupids, groupid, skipped + 1)
  else Some (groupids, groupid + 1, skipped).

(** How many groups, and the array [groupids]. *)
Definition hwloc__find_groups_by_min_distance : option (Z * list Z) :=
  let groupids := replicate turns 0 in
  let! min := minimal_distance in
  if f_eq min FLT_MAX then Some (0, groupids) else
  let! (groupids, groupid, skipped) := for_from turns 0 (start_group min) (groupids, 1, 0) in
  if (groupid =? 2) && (skipped =? 0) then Some (0, groupids) else Some (groupid - 1, groupids).

(** The pairs in the order of the loops. *)
Definition upper_pairs : list (Z * Z) :=
  concat (map (fun i => map (fun j => (i, j)) (seqZ (i + 1) (nbobjs - 1 - i))) (seqZ 0 nbobjs)).

Fixpoint check_pairs (pairs : list (Z * Z)) : option Z :=
  match pairs with
  | [] => Some 0
  | (i, j) :: pairs =>
      let! ij := DISTANCE i j in
      let! ji := DISTANCE j i in
      if negb (hwloc_compare_distances ij ji accuracy =? 0) then Some (-1) else
      let! ii := DISTANCE i i in
      if hwloc_compare_distances ij ii accuracy <=? 0 then Some (-1) else check_pairs pairs
  end.

Definition hwloc__check_grouping_matrix : option Z := check_pairs upper_pairs.

End Matrix.

(** ** Group objects *)

(** The distances between groups: sums, then means. *)
Definition sum_distances (nbobjs nbgroups : Z) (_distances groupids : list Z) : option (list Z) :=
  for_from (turns nbobjs) 0 (fun i groupdistances =>
    let! gi := groupids !! Z.to_nat i in
    if gi =? 0 then Some groupdistances else
    for_from (turns nbobjs) 0 (fun j groupdistances =>
      let! gj := groupids !! Z.to_nat j in
      if gj =? 0 then Some groupdistances else
      let! d := DISTANCE nbobjs _distances i j in
      let pos := Z.to_nat (u32 ((gi - 1) * nbgroups + (gj - 1))) in
      let! sum := groupdistances !! pos in
      Some (<[pos := f_add sum d]> groupdistances)) groupdistances)
    (replicate (Z.to_nat (nbgroups * nbgroups)) 0).

Definition mean_distances (nbgroups : Z) (groupsizes groupdistances : list Z) : option (list Z) :=
  for_from (turns nbgroups) 0 (fun i groupdistances =>
    for_from (turns nbgroups) 0 (fun j groupdistances =>
      let! si := groupsizes !! Z.to_nat i in
      let! sj := groupsizes !! Z.to_nat j in
      let pos := Z.to_nat (u32 (i * nbgroups + j)) in
      let! d := groupdistances !! pos in
      Some (<[pos := f_div d (f_of_unsigned (u32 (si * sj)))]> groupdistances)) groupdistances)
    groupdistances.

Section Groups.
Context {B : Type} `{CpusetOps B}.

(** [levels[0][0]], [next_group_depth] and the next free address. *)
Record grouping := mk_grouping {
  g_root : obj_tree B;
  g_depth : Z;
  g_next : Z;
}.

(** What the address points to. *)
Definition object_at (root : obj_tree B) (addr : Z) : option (hwloc_obj B) :=
  find (fun o => o_addr o =? addr) (tree_objs root).

(** The sets of an object are added to those of the group object. *)
Definition add_sets (group_obj obj : hwloc_obj B) : option (hwloc_obj B) :=
  let! c := or_into (ocpuset group_obj) (ocpuset obj) in
  let group_obj := with_cpuset group_obj c in
  match onodeset obj with
  | Some n => Some (with_nodeset group_obj (Some (b_or (default b_alloc (onodeset group_obj)) n)))
  | None => Some group_obj
  end.

(** The objects at the addresses are assembled in a group object. *)
Definition assemble_group (g : grouping) (objs : list Z) : option (hwloc_obj B) :=
  let group_obj := hwloc_alloc_setup_object (g_next g) HWLOC_OBJ_GROUP (-1) in
  let group_obj := with_attr (with_cpuset group_obj (Some b_alloc)) (AttrGroup (g_depth g)) in
  foldl (fun group_obj addr =>
    let! group_obj := group_obj in
    let! obj := object_at (g_root g) addr in
    add_sets group_obj obj) (Some group_obj) objs.

(** When it cannot be inserted the group object is freed. *)
Definition insert_group (g : grouping) (group_obj : hwloc_obj B) : option grouping :=
  let! (_, root) := hwloc__insert_object_by_cpuset (g_root g) group_obj in
  Some (mk_grouping root (g_depth g) (g_next g + 1)).

(** The elements of [objs] in group [i]. *)
Definition members {A} (groupids : list Z) (objs : list A) (i : Z) : list A :=
  map snd (filter (fun p => fst p = i) (zip groupids objs)).

(** The loop that creates the groups from the [i]th on: the addresses of the group
    objects and the sizes of the groups. *)
Fixpoint create_groups (n : nat) (i : Z) (groupids objs : list Z) (g : grouping)
  : option (list Z * list Z * grouping) :=
  match n with
  | O => Some ([], [], g)
  | S n =>
      let group := members groupids objs (i + 1) in
      let! group_obj := assemble_group g group in
      let! g' := insert_group g group_obj in
      let! (groupobjs, groupsizes, g') := create_groups n (i + 1) groupids objs g' in
      Some (o_addr group_obj :: groupobjs, Z.of_nat (length group) :: groupsizes, g')
  end.

(** The loop on the accuracies. *)
Fixpoint try_accuracies (nbobjs : Z) (_distances : list Z) (needcheck : bool) (groupids accuracies : list Z)
  : option (Z * list Z) :=
  match accuracies with
  | [] => Some (0, groupids)
  | accuracy :: accuracies =>
      let! err := if needcheck then hwloc__check_grouping_matrix nbobjs _distances accuracy else Some 0 in
      if err <? 0 then try_accuracies nbobjs _distances needcheck groupids accuracies else
      let! (nbgroups, groupids) := hwloc__find_groups_by_min_distance nbobjs _distances accuracy in
      if negb (nbgroups =? 0) then Some (nbgroups, groupids)
      else try_accuracies nbobjs _distances needcheck groupids accuracies
  end.

(** [fuel] bounds the recursion: there are less groups than objects. *)
Fixpoint hwloc__groups_by_distances (fuel : nat) (g : grouping) (nbobjs : Z) (objs _distances accuracies : list Z)
    (needcheck : bool) : option grouping :=
  match fuel with
  | O => None
  | S fuel =>
      if nbobjs <=? 2 then Some g else
      let! (nbgroups, groupids) := try_accuracies nbobjs _distances needcheck [] accuracies in
      if nbgroups =? 0 then Some g else
      let! (groupobjs, groupsizes, g) := create_groups (Z.to_nat nbgroups) 0 groupids objs g in
      let! groupdistances := sum_distances nbobjs nbgroups _distances groupids in
      let! groupdistances := mean_distances nbgroups groupsizes groupdistances in
      let g := mk_grouping (g_root g) (u32 (g_depth g + 1)) (g_next g) in
      hwloc__groups_by_distances fuel g nbgroups groupobjs groupdistances accuracies false
  end.

(** The environment: is grouping disabled, and the accuracies. *)
Definition grouping_disabled (getenv : string -> option string) : bool :=
  match getenv "HWLOC_GROUPING"%string with
  | Some env => s32 (number (txt env)) =? 0
  | None => false
  end || bool_decide (is_Some (getenv "HWLOC_IGNORE_DISTANCES"%string)).

Definition all_accuracies : list Z := [0; 0x3c23d70a; 0x3ca3d70a; 0x3d4ccccd; 0x3dcccccd].

Definition grouping_accuracies (getenv : string -> option string) : list Z :=
  match getenv "HWLOC_GROUPING_ACCURACY"%string with
  | None => [0]
  | Some env => if bool_decide (env = "try"%string) then all_accuracies else [atof (txt env)]
  end.

(** The groups of a matrix, then a group of all its objects. *)
Definition group_matrix_objects (g : grouping) (accuracies : list Z) (d : osdist) : option grouping :=
  if od_nbobjs d =? 0 then Some g else
  match od_objs d with
  | None => Some g
  | Some objs =>
      let! g := hwloc__groups_by_distances (Z.to_nat (od_nbobjs d)) g (od_nbobjs d) objs (od_distances d) accuracies true in
      let! group_obj := assemble_group g (take (Z.to_nat (od_nbobjs d)) objs) in
      insert_group (mk_grouping (g_root g) (u32 (g_depth g + 1)) (g_next g)) group_obj
  end.

Definition hwloc_group_by_distances (getenv : string -> option string) (g : grouping) (l : list osdist) : option grouping :=
  if grouping_disabled getenv then Some g else
  foldl (fun g d => let! g := g in group_matrix_objects g (grouping_accuracies getenv) d) (Some g) l.

End Groups.
