(* ===== verification/GroupsOk.v ===== *)
(** * GroupsOk: the search of groups in a matrix of distances, and the arrays of the
    recursion on groups *)

From stdpp Require Import relations.
From Stdlib Require Import Ascii String.
From S2P Require Import Prelude CString Cpuset Obj Insert Float Scan Distances Grouping.

(** ** Loops *)

Lemma for_from_inv {A} (P : Z -> A -> Prop) k j (body : Z -> A -> option A) a :
  P j a ->
  (forall i a, j <= i < j + Z.of_nat k -> P i a -> returns (body i a) (P (i + 1))) ->
  returns (for_from k j body a) (P (j + Z.of_nat k)).
Proof.
  revert j a. induction k as [|k IH]; intros j a Ha Hbody; cbn [for_from].
  - apply returns_ret. by rewrite Z.add_0_r.
  - eapply returns_bind; [apply Hbody; [lia|done]|]. intros a' Ha'.
    replace (j + Z.of_nat (S k)) with (j + 1 + Z.of_nat k) by lia. apply IH; [done|].
    intros i b Hi. apply Hbody. lia.
Qed.

(** Array cells. *)
Definition get (l : list Z) (k : Z) : Z := l !!! Z.to_nat k.

Lemma get_lookup l k : 0 <= k < Z.of_nat (length l) -> l !! Z.to_nat k = Some (get l k).
Proof. intros Hk. apply list_lookup_lookup_total_lt. lia. Qed.

Lemma get_insert l i v k : 0 <= i < Z.of_nat (length l) -> 0 <= k ->
  get (<[Z.to_nat i := v]> l) k = if k =? i then v else get l k.
Proof.
  intros Hi Hk. unfold get. destruct (Z.eqb_spec k i) as [->|Hne].
  - apply list_lookup_total_insert_eq. lia.
  - apply list_lookup_total_insert_ne. lia.
Qed.

(** How many cells are 0. *)
Definition zeros (l : list Z) : nat := length (List.filter (Z.eqb 0) l).

Lemma zeros_insert l i v : (i < length l)%nat -> l !!! i = 0 -> v <> 0 -> zeros l = S (zeros (<[i := v]> l)).
Proof.
  unfold zeros. revert i. induction l as [|x l IH]; intros [|i] Hi Hx Hv; cbn [length] in Hi; try lia.
  - cbn in Hx. subst x. cbn [insert list_insert List.filter length]. by rewrite (proj2 (Z.eqb_neq 0 v)) by lia.
  - cbn [insert list_insert List.filter]. fold (insert (M := list Z) i v l).
    destruct (0 =? x); cbn [length]; rewrite (IH i); done || lia.
Qed.

Lemma f_lt_trans x y z : f_lt x y = true -> f_lt y z = true -> f_lt x z = true.
Proof. unfold f_lt. rewrite !andb_true_iff, !Z.ltb_lt. intros [[-> _] ?] [[_ ->] ?]. split; [done|lia]. Qed.

(** ** Close objects *)

Section Search.
Context (n : nat) (dist : list Z) (accuracy : Z).
Context (Hn : Z.of_nat n < 2 ^ 16) (Hlen : (n * n <= length dist)%nat).
Local Abbreviation N := (Z.of_nat n).

Definition index (k : Z) : Prop := 0 <= k < N.
Definition distance (i j : Z) : Z := get dist (i * N + j).

Lemma DISTANCE_ok i j : index i -> index j -> DISTANCE N dist i j = Some (distance i j).
Proof.
  intros Hi Hj. unfold index, DISTANCE, distance in *. rewrite u32_small by nia. apply get_lookup. nia.
Qed.

Definition close (min j k : Z) : Prop := hwloc_compare_distances (distance j k) min accuracy = 0.

(** Members of [i]'s group are found from [i] by steps between close objects. *)
Definition step min j k : Prop := index j /\ index k /\ close min j k.
Definition linked min : Z -> Z -> Prop := rtc (step min).

(** [st] is reached from [base] when object [i] starts the group [g]. *)
Record growing (min g i : Z) (base ids : list Z) (size : Z) : Prop := {
  gr_length : length ids = n;
  gr_base : forall k, index k -> get base k <> 0 -> get ids k = get base k;
  gr_new : forall k, index k -> get ids k = get base k \/ (get base k = 0 /\ get ids k = g /\ linked min i k);
  gr_first : get ids i = g;
  gr_size : (size = 1 /\ forall k, index k -> k <> i -> get ids k = get base k) \/
            (1 < size /\ exists k, index k /\ k <> i /\ get ids k = g);
}.

Section Grow.
Context (min g i : Z) (base : list Z).
Context (Hg : 0 < g) (Hi : index i) (Hbase : forall k, index k -> 0 <= get base k < g).

Local Abbreviation growing := (growing min g i base).

Lemma in_group_linked ids size k : growing ids size -> index k -> get ids k = g -> linked min i k.
Proof.
  intros Hgr Hk Hgk. destruct (gr_new _ _ _ _ _ _ Hgr k Hk) as [Heq|(_ & _ & Hl)]; [|done].
  pose proof (Hbase k Hk). lia.
Qed.

(** One more object. *)
Lemma growing_insert ids size j k : growing ids size -> index j -> get ids j = g -> index k -> get ids k = 0 ->
  close min j k -> growing (<[Z.to_nat k := g]> ids) (size + 1) /\ (zeros (<[Z.to_nat k := g]> ids) < zeros ids)%nat.
Proof.
  intros Hgr Hj Hgj Hk Hk0 Hc. pose proof (in_group_linked _ _ _ Hgr Hj Hgj) as Hlj.
  destruct Hgr as [Hl Hb Hnew Hf Hs]. assert (k <> i) as Hki by (intros ->; lia).
  assert (forall k', index k' -> get (<[Z.to_nat k := g]> ids) k' = if k' =? k then g else get ids k') as Hget.
  { intros k' [Hk' _]. apply get_insert; unfold index in *; lia. }
  assert (get base k = 0) as Hbk by (destruct (Hnew k Hk) as [Heq|[? _]]; [congruence|done]).
  split.
  - split.
    + by rewrite length_insert.
    + intros k' Hk' Hnz. rewrite Hget by done. destruct (Z.eqb_spec k' k) as [->|_]; [congruence|auto].
    + intros k' Hk'. rewrite Hget by done. destruct (Z.eqb_spec k' k) as [->|_]; [|auto].
      right. split; [done|]. split; [done|]. eapply rtc_r; [exact Hlj|]. by split_and!.
    + rewrite Hget by done. by destruct (Z.eqb_spec i k).
    + right. split; [lia|]. exists k. rewrite Hget, Z.eqb_refl by done. by split_and!.
  - unfold index in *. rewrite (zeros_insert ids (Z.to_nat k) g); [lia|lia|done|lia].
Qed.

(** During a loop that starts with [ids0]. *)
Definition scanning_ok (ids0 : list Z) (st : scanning) : Prop := let '(ids, size, nf) := st in
  growing ids size /\ (forall k, index k -> get ids k = 0 -> get ids0 k = 0) /\
  ((nf = -1 /\ ids = ids0) \/ (index nf /\ get ids nf = g /\ (zeros ids < zeros ids0)%nat)).

Definition scanned (j upto : Z) (ids : list Z) : Prop :=
  forall k, index k -> k < upto -> get ids k = 0 -> ~ close min j k.

Lemma scan_connections_ok ids0 st j : scanning_ok ids0 st -> index j -> get (fst (fst st)) j = g ->
  returns (scan_connections N dist accuracy min g j st) (fun st' => scanning_ok ids0 st' /\
    (forall k, index k -> get (fst (fst st')) k = 0 -> get (fst (fst st)) k = 0) /\ scanned j N (fst (fst st'))).
Proof.
  intros Hst Hj Hgj. unfold scan_connections.
  eapply returns_mono; [apply (for_from_inv (fun k st' => scanning_ok ids0 st' /\ get (fst (fst st')) j = g /\
    (forall k, index k -> get (fst (fst st')) k = 0 -> get (fst (fst st)) k = 0) /\ scanned j k (fst (fst st'))))|].
  - split_and!; [done|done|auto|]. intros k Hk. unfold index in Hk. lia.
  - intros k [[ids size] nf] Hk (Hok & Hgj' & Hmono & Hsc). assert (index k) as Hik by (unfold index, turns in *; lia).
    destruct Hok as (Hgr & Hz & Hnf). cbn [fst] in *.
    rewrite get_lookup by (unfold index in *; rewrite (gr_length _ _ _ _ _ _ Hgr); lia). cbn [mbind option_bind].
    assert (forall ids', (forall k', index k' -> get ids' k' = 0 -> get ids k' = 0) -> (get ids' k = 0 -> ~ close min j k) ->
      scanned j (k + 1) ids') as Hnext.
    { intros ids' Hm Hk0 k' Hk' Hlt H0. destruct (Z.eq_dec k' k) as [->|]; [auto|]. apply Hsc; [done|lia|auto]. }
    destruct (Z.eqb_spec (get ids k) 0) as [Hk0|Hk0]; cbn [negb].
    + rewrite DISTANCE_ok by done. cbn [mbind option_bind].
      destruct (Z.eqb_spec (hwloc_compare_distances (distance j k) min accuracy) 0) as [Hc|Hc]; cbn [negb].
      * destruct (growing_insert ids size j k Hgr Hj Hgj' Hik Hk0 Hc) as [Hgr' Hzs].
        assert (forall k', index k' -> get (<[Z.to_nat k := g]> ids) k' = if k' =? k then g else get ids k') as Hget.
        { intros k' [Hk' _]. apply get_insert; unfold index in *; rewrite ?(gr_length _ _ _ _ _ _ Hgr); lia. }
        assert (forall k', index k' -> get (<[Z.to_nat k := g]> ids) k' = 0 -> get ids k' = 0) as Hm.
        { intros k' Hk'. rewrite Hget by done. destruct (Z.eqb_spec k' k); [lia|done]. }
        apply returns_ret. cbn [fst]. split_and!.
        -- split; [done|]. split; [auto|]. right. destruct Hnf as [[-> ->]|(Hnf1 & Hnf2 & Hnf3)].
           ++ cbn. rewrite Hget, Z.eqb_refl by done. by split_and!.
           ++ rewrite (proj2 (Z.eqb_neq _ _)) by (unfold index in Hnf1; lia). split_and!; [done| |lia].
              rewrite Hget by done. by destruct (nf =? k).
        -- rewrite Hget by done. by destruct (j =? k).
        -- auto.
        -- apply Hnext; [done|]. rewrite Hget, Z.eqb_refl by done. lia.
      * apply returns_ret. cbn [fst]. split_and!; [done|done|done|]. apply Hnext; auto.
    + apply returns_ret. cbn [fst]. split_and!; [done|done|done|]. apply Hnext; auto.
  - intros st' (Hok & _ & Hmono & Hsc). split_and!; [done|done|].
    unfold turns in Hsc. by rewrite Nat2Z.id in Hsc.
Qed.

Lemma rescan_ok ids size f : growing ids size -> index f -> get ids f = g -> f = i \/ scanned i N ids ->
  returns (rescan N dist accuracy min g f (ids, size, -1)) (fun '(ids', size', nf) =>
    scanning_ok ids (ids', size', nf) /\ scanned i N ids').
Proof.
  intros Hgr Hf Hgf Hcase. unfold rescan.
  eapply returns_mono; [apply (for_from_inv (fun j st' => scanning_ok ids st' /\
    (f < j \/ scanned i N ids -> scanned i N (fst (fst st')))))|].
  - split; [|intros [?|?]; [lia|done]]. split; [done|]. split; [auto|]. by left.
  - intros j [[ids' size'] nf] Hj (Hok & Hsc). assert (index j) as Hij by (unfold index in *; lia). cbn [fst] in Hsc.
    destruct (Hok) as (Hgr' & Hz & _). rewrite get_lookup by (unfold index in *; rewrite (gr_length _ _ _ _ _ _ Hgr'); lia).
    cbn [mbind option_bind]. destruct (Z.eqb_spec (get ids' j) g) as [Hgj|Hgj].
    + eapply returns_mono; [by apply (scan_connections_ok ids)|]. cbn [fst]. intros st' (Hok' & Hmono & Hscj).
      split; [done|]. intros Hcase'. destruct (Z.eq_dec j i) as [->|Hne]; [done|].
      assert (scanned i N ids') as Hsci.
      { apply Hsc. destruct Hcase'; [|auto]. destruct Hcase as [->|?]; [left; lia|auto]. }
      intros k Hk Hlt H0. apply Hsci; auto.
    + apply returns_ret. split; [done|]. cbn [fst]. intros Hcase'. apply Hsc.
      destruct Hcase' as [?|?]; [|auto]. destruct Hcase as [->|?]; [|auto]. left.
      assert (j <> i); [|lia]. intros ->. by rewrite (gr_first _ _ _ _ _ _ Hgr') in Hgj.
  - intros [[ids' size'] nf] [Hok Hsc]. split; [done|]. apply Hsc. destruct Hcase; [left|auto]. unfold index in Hf. lia.
Qed.

Lemma grow_group_ok fuel ids size f : (zeros ids < fuel)%nat -> growing ids size ->
  f = -1 \/ (index f /\ get ids f = g) -> f = i \/ scanned i N ids ->
  returns (grow_group N dist accuracy fuel min g f ids size) (fun '(ids', size') =>
    growing ids' size' /\ scanned i N ids').
Proof.
  revert ids size f. induction fuel as [|fuel IH]; intros ids size f Hfuel Hgr Hf Hcase; [lia|]. cbn [grow_group].
  destruct (Z.eqb_spec f (-1)) as [->|Hne].
  - apply returns_ret. split; [done|]. destruct Hcase as [<-|?]; [unfold index in Hi; lia|done].
  - destruct Hf as [?|[Hf Hgf]]; [done|]. eapply returns_bind; [by apply rescan_ok|].
    intros [[ids' size'] nf] [(Hgr' & _ & Hnf) Hsc]. destruct Hnf as [[-> ->]|(Hnf & Hgnf & Hz)].
    + destruct fuel; cbn [grow_group]; by apply returns_ret.
    + apply IH; [lia|done|auto|auto].
Qed.

(** A group starts with [i] alone. *)
Lemma growing_start : length base = n -> get base i = 0 -> growing (<[Z.to_nat i := g]> base) 1.
Proof.
  intros Hl H0. assert (forall k, index k -> get (<[Z.to_nat i := g]> base) k = if k =? i then g else get base k) as Hget.
  { intros k [Hk _]. apply get_insert; unfold index in *; lia. }
  split.
  - by rewrite length_insert.
  - intros k Hk Hnz. rewrite Hget by done. destruct (Z.eqb_spec k i); [congruence|done].
  - intros k Hk. rewrite Hget by done. destruct (Z.eqb_spec k i) as [->|]; [right|by left]. by split_and!.
  - by rewrite Hget, Z.eqb_refl.
  - left. split; [done|]. intros k Hk Hne. rewrite Hget by done. by rewrite (proj2 (Z.eqb_neq _ _)).
Qed.

Lemma start_ok : length base = n -> get base i = 0 ->
  returns (grow_group N dist accuracy (S (turns N)) min g i (<[Z.to_nat i := g]> base) 1) (fun '(ids', size') =>
    growing ids' size' /\ scanned i N ids').
Proof.
  intros Hl H0. apply grow_group_ok; [|by apply growing_start| |by left].
  - unfold zeros, turns. rewrite Nat2Z.id, <- Hl, <- (length_insert base (Z.to_nat i) g).
    pose proof (List.filter_length_le (Z.eqb 0) (<[Z.to_nat i:=g]> base)). lia.
  - right. split; [done|]. by apply growing_start.
Qed.

End Grow.

(** ** All groups *)

(** The groups [1] to [g - 1] of the objects before [i]; [skipped] objects were alone. *)
Record groups_sound (min i : Z) (ids : list Z) (g skipped : Z) : Prop := {
  so_length : length ids = n;
  so_number : 1 <= g /\ 0 <= skipped;
  so_range : forall k, index k -> 0 <= get ids k < g;
  so_group : forall h, 1 <= h < g -> exists l, index l /\ l < i /\ get ids l = h /\
    (exists k, index k /\ k <> l /\ get ids k = h) /\ forall k, index k -> get ids k = h -> linked min l k;
  so_skipped : skipped = 0 -> forall k, index k -> k < i -> get ids k <> 0;
}.

(** The groups are the classes of the objects that are close to another one. *)
Record groups_exact (min i : Z) (ids : list Z) (skipped : Z) : Prop := {
  ex_class : forall j k, index j -> index k -> j <> k -> get ids j <> 0 -> (get ids k = get ids j <-> close min j k);
  ex_alone : forall j k, index j -> j < i -> get ids j = 0 -> index k -> k <> j -> ~ close min j k;
  ex_order : forall j h, index j -> 0 < h < get ids j -> exists j', 0 <= j' < j /\ get ids j' = h;
  ex_skipped : 0 < skipped -> exists k, index k /\ k < i /\ get ids k = 0;
}.

(** Among distinct objects, being close is symmetric and transitive. *)
Definition classes (min : Z) : Prop :=
  (forall j k, index j -> index k -> j <> k -> close min j k -> close min k j) /\
  (forall i j k, index i -> index j -> index k -> i <> k -> close min i j -> close min j k -> close min i k).

Lemma linked_close min l k : classes min -> linked min l k -> k = l \/ close min l k.
Proof.
  intros [_ Htrans]. induction 1 as [x|x y z (Hx & Hy & Hxy) Hyz IH]; [by left|].
  destruct (Z.eq_dec z x) as [->|Hne]; [by left|right]. destruct IH as [->|Hc]; [done|].
  apply (Htrans x y z); try done. clear -Hyz Hy. induction Hyz as [|? ? ? (_ & ? & _)]; auto.
Qed.

Definition groups_ok (min i : Z) (st : list Z * Z * Z) : Prop :=
  let '(ids, g, skipped) := st in
  groups_sound min i ids g skipped /\ (classes min -> groups_exact min i ids skipped).

Section Turn.
Context (min i g skipped : Z) (base : list Z).
Context (Hi : index i) (Hso : groups_sound min i base g skipped).

(** [i] is in a group already. *)
Lemma turn_grouped : get base i <> 0 -> (classes min -> groups_exact min i base skipped) ->
  groups_ok min (i + 1) (base, g, skipped).
Proof.
  intros Hgi Hex. destruct Hso as [Hl Hg Hr Hgr Hs]. split.
  - split; [done|done|done| |].
    + intros h Hh. destruct (Hgr h Hh) as (l & ? & ? & ?). exists l. split_and!; [done|lia|by destruct_and?..].
    + intros Hs0 k Hk Hlt. destruct (Z.eq_dec k i) as [->|]; [done|]. apply Hs; [done|done|lia].
  - intros Hcl. destruct (Hex Hcl) as [Hc Ha Ho Hsk]. split; [done| |done|].
    + intros j k Hj Hlt H0. destruct (Z.eq_dec j i) as [->|]; [done|]. apply Ha; [done|lia|done].
    + intros Hp. destruct (Hsk Hp) as (k & ? & ? & ?). exists k. split_and!; [done|lia|done].
Qed.

(** [i] is alone. *)
Lemma turn_alone ids : get base i = 0 -> growing min g i base ids 1 -> scanned min i N ids ->
  (classes min -> groups_exact min i base skipped) -> groups_ok min (i + 1) (<[Z.to_nat i := 0]> ids, g, skipped + 1).
Proof.
  intros Hgi Hgr Hsc Hex. assert (forall k, index k -> get (<[Z.to_nat i := 0]> ids) k = get base k) as Hget.
  { intros k Hk. pose proof (gr_length _ _ _ _ _ _ Hgr) as Hlen1. unfold index in *.
    rewrite get_insert by lia. destruct (Z.eqb_spec k i) as [->|Hne]; [done|].
    destruct (gr_size _ _ _ _ _ _ Hgr) as [[_ Hs]|[? _]]; [by apply Hs|lia]. }
  destruct Hso as [Hl Hg Hr Hgrp Hs]. split.
  - split.
    + rewrite length_insert. apply (gr_length _ _ _ _ _ _ Hgr).
    + lia.
    + intros k Hk. rewrite Hget by done. auto.
    + intros h Hh. destruct (Hgrp h Hh) as (l & Hil & Hlt & Hlh & (k & Hk & Hne & Hkh) & Hlk).
      exists l. rewrite !Hget by done. split_and!; [done|lia|done| |].
      * exists k. by rewrite Hget.
      * intros k' Hk'. rewrite Hget by done. auto.
    + lia.
  - intros Hcl. destruct (Hex Hcl) as [Hc Ha Ho Hsk]. split.
    + intros j k Hj Hk. rewrite !Hget by done. auto.
    + intros j k Hj Hlt. rewrite Hget by done. intros Hj0 Hk Hne.
      destruct (Z.eq_dec j i) as [->|Hji]; [|apply Ha; [done|lia|done..]].
      intros Hck. destruct (Z.eq_dec (get base k) 0) as [Hk0|Hk0].
      * apply (Hsc k); [done|unfold index in Hk; lia| |done].
        destruct (gr_size _ _ _ _ _ _ Hgr) as [[_ Hz]|[? _]]; [|lia]. by rewrite Hz.
      * apply Hk0. rewrite <- Hgi. symmetry. apply (Hc k i); try done. destruct Hcl as [Hsym _]. by apply Hsym.
    + intros j h Hj. rewrite Hget by done. intros Hh. destruct (Ho j h Hj Hh) as (j' & Hj' & Hjh).
      exists j'. rewrite Hget by (unfold index in *; lia). done.
    + intros _. exists i. rewrite Hget by done. split_and!; [done|lia|done].
Qed.

(** [i] starts a group. *)
Lemma turn_group ids size : size <> 1 -> get base i = 0 -> growing min g i base ids size -> scanned min i N ids ->
  (classes min -> groups_exact min i base skipped) -> groups_ok min (i + 1) (ids, g + 1, skipped).
Proof.
  intros Hsize Hgi Hgr Hsc Hex. destruct Hgr as [Hl Hb Hnew Hf Hs]. destruct Hso as [_ Hg Hr Hgrp Hsk].
  assert (forall k, index k -> (get base k = 0 /\ get ids k = g /\ linked min i k) \/ get ids k = get base k) as Hcase
    by (intros k Hk; destruct (Hnew k Hk); auto).
  split.
  - split; [done|lia| | |].
    + intros k Hk. pose proof (Hr k Hk). destruct (Hcase k Hk) as [(_ & -> & _)| ->]; lia.
    + intros h Hh. destruct (Z.eq_dec h g) as [->|Hne].
      * exists i. split_and!; [done|lia|done| |].
        -- destruct Hs as [[? _]|[_ (k & ? & ? & ?)]]; [done|by exists k].
        -- intros k Hk Hkg. destruct (Hcase k Hk) as [(_ & _ & ?)|Heq]; [done|]. pose proof (Hr k Hk). lia.
      * destruct (Hgrp h ltac:(lia)) as (l & Hil & Hlt & Hlh & (k & Hk & Hkl & Hkh) & Hlk).
        exists l. split_and!; [done|lia| | |].
        -- rewrite Hb; [done|done|lia].
        -- exists k. rewrite Hb; [done|done|lia].
        -- intros k' Hk' Hkh'. destruct (Hcase k' Hk') as [(_ & ? & _)|Heq]; [lia|]. apply Hlk; congruence.
    + intros H0 k Hk Hlt. destruct (Z.eq_dec k i) as [->|]; [lia|].
      destruct (Hcase k Hk) as [(_ & -> & _)| ->]; [lia|]. apply Hsk; [done|done|lia].
  - intros Hcl. destruct (Hex Hcl) as [Hc Ha Ho Hskip]. pose proof Hcl as [Hsym Htrans].
    assert (forall k, index k -> get ids k = g -> get base k = 0 /\ (k = i \/ close min i k)) as Hin.
    { intros k Hk Hkg. pose proof (Hr k Hk). destruct (Hcase k Hk) as [(? & _ & Hlk)|?]; [|lia].
      split; [done|by apply linked_close]. }
    assert (forall k, index k -> k <> i -> close min i k -> get base k = 0) as Hfree.
    { intros k Hk Hne Hck. destruct (Z.eq_dec (get base k) 0) as [|Hk0]; [done|]. exfalso. apply Hk0. rewrite <- Hgi.
      symmetry. apply (Hc k i); try done. by apply Hsym. }
    assert (forall k, index k -> k <> i -> close min i k -> get ids k = g) as Hall.
    { intros k Hk Hne Hck. destruct (Hcase k Hk) as [(_ & ? & _)|Heq]; [done|]. exfalso.
      apply (Hsc k); [done|unfold index in Hk; lia| |done]. rewrite Heq. by apply Hfree. }
    split.
    + intros j k Hj Hk Hjk Hj0. destruct (Z.eq_dec (get ids j) g) as [Hjg|Hjg].
      * rewrite Hjg. destruct (Hin j Hj Hjg) as [_ Hji]. split.
        -- intros Hkg. destruct (Hin k Hk Hkg) as [_ Hki].
           destruct Hji as [->|Hij]; destruct Hki as [->|Hik]; try done; [by apply Hsym|].
           destruct (Z.eq_dec j i) as [->|]; [done|]. apply (Htrans j i k); auto.
        -- intros Hck. destruct (Z.eq_dec k i) as [->|Hki]; [done|]. apply Hall; [done|done|].
           destruct Hji as [->|Hij]; [done|]. apply (Htrans i j k); auto.
      * destruct (Hcase j Hj) as [(_ & ? & _)|Hjb]; [done|]. rewrite Hjb in *.
        rewrite <- (Hc j k) by done. destruct (Hcase k Hk) as [(Hk0 & Hkg & _)| ->]; [|done]. split; [|congruence].
        rewrite Hkg. intros Heq. by rewrite Heq in Hjg.
    + intros j k Hj Hlt Hj0 Hk Hne. destruct (Hcase j Hj) as [(_ & ? & _)|Hjb]; [lia|]. rewrite Hjb in Hj0.
      destruct (Z.eq_dec j i) as [->|]; [|apply Ha; [done|lia|done..]]. lia.
    + intros j h Hj Hh. destruct (Hcase j Hj) as [(Hj0 & Hjg & Hlk)|Hjb].
      * destruct (Hgrp h ltac:(lia)) as (l & Hil & Hlt & Hlh & _). exists l. rewrite Hb by (done || lia).
        split; [|done]. assert (i <= j); [|unfold index in Hil; lia].
        destruct (Hin j Hj Hjg) as [_ [->|Hij]]; [lia|]. destruct (Z.lt_ge_cases j i); [|done]. exfalso.
        apply (Ha j i Hj ltac:(done) Hj0 Hi); [lia|]. apply Hsym; [done|done|lia|done].
      * rewrite Hjb in Hh. destruct (Ho j h Hj Hh) as (j' & Hj' & Hjh). exists j'.
        rewrite Hb; [done|unfold index in *; lia|lia].
    + intros Hp. destruct (Hskip Hp) as (k & Hk & Hlt & Hk0). exists k. split_and!; [done|lia|].
      destruct (Hcase k Hk) as [(_ & Hkg & _)| ->]; [|done]. exfalso.
      destruct (Hin k Hk Hkg) as [_ [->|Hck]]; [lia|]. apply (Ha k i Hk Hlt Hk0 Hi); [lia|]. apply Hsym; [done|done|lia|done].
Qed.

Lemma start_group_ok : (classes min -> groups_exact min i base skipped) ->
  returns (start_group N dist accuracy min i (base, g, skipped)) (groups_ok min (i + 1)).
Proof.
  intros Hex. unfold start_group. pose proof (so_length _ _ _ _ _ Hso) as Hl.
  rewrite get_lookup by (unfold index in *; lia). cbn [mbind option_bind].
  destruct (Z.eqb_spec (get base i) 0) as [Hgi|Hgi]; cbn [negb].
  - eapply returns_bind.
    + apply start_ok; [|done| |done|done]; pose proof (so_number _ _ _ _ _ Hso); [lia|apply (so_range _ _ _ _ _ Hso)].
    + intros [ids size] [Hgr Hsc]. destruct (Z.eqb_spec size 1) as [->|Hs]; apply returns_ret;
        [by apply turn_alone|by eapply turn_group].
  - apply returns_ret. by apply turn_grouped.
Qed.
End Turn.


(** ** The minimal distance *)

Definition nearest (min : Z) : Prop :=
  (forall j k, index j -> index k -> j <> k -> f_lt (distance j k) min = false) /\
  (min = FLT_MAX \/ exists j k, index j /\ index k /\ j <> k /\ distance j k = min).

(** After the first lines, and the first columns of the next one. *)
Definition nearest_upto (i j' min : Z) : Prop :=
  (forall j k, index j -> index k -> j <> k -> j < i \/ (j = i /\ k < j') -> f_lt (distance j k) min = false) /\
  (min = FLT_MAX \/ exists j k, index j /\ index k /\ j <> k /\ distance j k = min).

Lemma minimal_distance_ok : returns (minimal_distance N dist) nearest.
Proof.
  unfold minimal_distance. eapply returns_mono; [apply (for_from_inv (fun i => nearest_upto i 0))|].
  - split; [|by left]. intros j k Hj Hk _ [?|?]; unfold index in *; lia.
  - intros i m Hi Hm. assert (index i) as Hii by (unfold index, turns in *; lia).
    eapply returns_mono; [apply (for_from_inv (fun j => nearest_upto i j)); [done|]|].
    + intros j m' Hj [Hlt Hat]. assert (index j) as Hij by (unfold index, turns in *; lia).
      destruct (Z.eqb_spec i j) as [->|Hne].
      { apply returns_ret. split; [|done]. intros a b Ha Hb Hab [?|[-> ?]]; apply Hlt; try done; [by left|right; lia]. }
      rewrite DISTANCE_ok by done. cbn [mbind option_bind]. apply returns_ret.
      destruct (f_lt (distance i j) m') eqn:Hd.
      * split; [|right; by exists i, j]. intros a b Ha Hb Hab Hin.
        destruct (Z.eq_dec a i) as [->|]; [destruct (Z.eq_dec b j) as [->|]|].
        -- unfold f_lt. rewrite Z.ltb_irrefl. apply andb_false_r.
        -- apply not_true_is_false. intros Hlt'. pose proof (f_lt_trans _ _ _ Hlt' Hd) as Hf.
           rewrite Hlt in Hf; [done|done|done|done|right; lia].
        -- apply not_true_is_false. intros Hlt'. pose proof (f_lt_trans _ _ _ Hlt' Hd) as Hf.
           rewrite Hlt in Hf; [done|done|done|done|left; lia].
      * split; [|done]. intros a b Ha Hb Hab Hin. destruct (decide (a = i /\ b = j)) as [[-> ->]|Hn']; [done|].
        apply Hlt; [done|done|done|lia].
    + intros m' [Hlt Hat]. split; [|done]. intros a b Ha Hb Hab Hin. apply Hlt; [done|done|done|].
      unfold index, turns in *. lia.
  - intros m [Hlt Hat]. split; [|done]. intros a b Ha Hb Hab. apply Hlt; [done|done|done|]. unfold index, turns in *. lia.
Qed.

(** ** The result *)

Definition search_result (min nb : Z) (ids : list Z) : Prop :=
  if f_eq min FLT_MAX then nb = 0 /\ ids = replicate n 0 else
  exists g skipped, groups_sound min N ids (g + 1) skipped /\ (classes min -> groups_exact min N ids skipped) /\
    nb = if (g =? 1) && (skipped =? 0) then 0 else g.

Lemma find_groups_ok : returns (hwloc__find_groups_by_min_distance N dist accuracy) (fun '(nb, ids) =>
  exists min, nearest min /\ search_result min nb ids).
Proof.
  unfold hwloc__find_groups_by_min_distance. eapply returns_bind; [apply minimal_distance_ok|]. intros min Hmin.
  unfold turns at 1 3. rewrite Nat2Z.id. destruct (f_eq min FLT_MAX) eqn:Hmax.
  - apply returns_ret. exists min. split; [done|]. unfold search_result. by rewrite Hmax.
  - eapply returns_bind; [apply (for_from_inv (groups_ok min))|].
    + assert (forall k, index k -> get (replicate n 0) k = 0) as Hget.
      { intros k Hk. unfold get, index in *. apply lookup_total_replicate_2. lia. }
      split; [split|intros _; split].
      * apply length_replicate.
      * lia.
      * intros k Hk. rewrite Hget by done. lia.
      * intros h Hh. lia.
      * intros _ k Hk. unfold index in Hk. lia.
      * intros j k Hj Hk _. rewrite Hget by done. lia.
      * intros j k Hj. unfold index in Hj. lia.
      * intros j h Hj. rewrite Hget by done. lia.
      * lia.
    + intros i [[ids g] skipped] Hi [Hso Hex]. apply start_group_ok; [|done|done]. unfold index, turns in *. lia.
    + intros [[ids g] skipped] [Hso Hex]. unfold turns in *. rewrite Nat2Z.id, Z.add_0_l in *.
      assert (exists min, nearest min /\ search_result min (if (g =? 2) && (skipped =? 0) then 0 else g - 1) ids) as Hres.
      { exists min. split; [done|]. unfold search_result. rewrite Hmax. exists (g - 1), skipped.
        replace (g - 1 + 1) with g by lia. split_and!; [done|done|].
        replace (g - 1 =? 1) with (g =? 2); [done|]. destruct (Z.eqb_spec g 2), (Z.eqb_spec (g - 1) 1); lia. }
      destruct ((g =? 2) && (skipped =? 0)); by apply returns_ret.
Qed.

End Search.

(** Numbers of groups that are usable: each group has a member and there are less
    groups than objects. *)
Record numbering (n : nat) (nb : Z) (ids : list Z) : Prop := {
  nu_length : length ids = n;
  nu_number : 1 <= nb /\ nb + 1 <= Z.of_nat n;
  nu_range : forall k, index n k -> 0 <= get ids k <= nb;
  nu_member : forall h, 1 <= h <= nb -> exists k, index n k /\ get ids k = h;
}.

(** ** Less groups than objects *)

Lemma distinct_below n (l : list Z) : NoDup l -> Forall (index n) l -> (length l <= n)%nat.
Proof.
  intros Hd Hl. rewrite <- (Nat2Z.id n), <- (length_seqZ 0 (Z.of_nat n)). apply submseteq_length, NoDup_submseteq; [done|].
  intros x Hx. rewrite Forall_forall in Hl. apply elem_of_seqZ. specialize (Hl x Hx). unfold index in Hl. lia.
Qed.

Lemma choose_leaders n (ids : list Z) m : (forall h, 1 <= h <= Z.of_nat m -> exists k, index n k /\ get ids k = h) ->
  exists l, length l = m /\ Forall (index n) l /\ NoDup l /\ Forall (fun k => 1 <= get ids k <= Z.of_nat m) l.
Proof.
  induction m as [|m IH]; intros Hall.
  - exists []. split_and!; [done|done|by apply NoDup_nil|done].
  - destruct IH as (l & Hl & Hi & Hd & Hr); [intros h Hh; apply Hall; lia|].
    destruct (Hall (Z.of_nat (S m)) ltac:(lia)) as (k & Hk & Hkm). exists (k :: l). cbn [length]. split_and!.
    + lia.
    + by constructor.
    + apply NoDup_cons. split; [|done]. intros Hin. rewrite Forall_forall in Hr. pose proof (Hr k Hin). lia.
    + constructor; [lia|]. eapply Forall_impl; [exact Hr|]. intros x Hx. cbn beta in *. lia.
Qed.

Lemma sound_numbering n dist acc min ids g skipped : 1 <= g ->
  groups_sound n dist acc min (Z.of_nat n) ids (g + 1) skipped -> numbering n g ids.
Proof.
  intros Hg [Hl _ Hr Hgrp _]. split; [done| |intros k Hk; pose proof (Hr k Hk); lia|].
  - split; [done|]. destruct (choose_leaders n ids (Z.to_nat (g - 1))) as (l & Hll & Hi & Hd & Hlr).
    { intros h Hh. destruct (Hgrp h ltac:(lia)) as (k & Hk & _ & Hkh & _). by exists k. }
    destruct (Hgrp g ltac:(lia)) as (a & Ha & _ & Hag & (b & Hb & Hne & Hbg) & _).
    rewrite Forall_forall in Hlr.
    assert (length (a :: b :: l) <= n)%nat as Hle.
    { apply distinct_below; [|by apply Forall_cons; split; [|apply Forall_cons]]. apply NoDup_cons. split.
      - rewrite elem_of_cons. intros [?|Hin]; [done|]. pose proof (Hlr a Hin). lia.
      - apply NoDup_cons. split; [|done]. intros Hin. pose proof (Hlr b Hin). lia. }
    cbn [length] in Hle. lia.
  - intros h Hh. destruct (Hgrp h ltac:(lia)) as (k & Hk & _ & Hkh & _). by exists k.
Qed.

Section Arrays.
Context (n : nat) (dist : list Z) (Hn : Z.of_nat n < 2 ^ 16) (Hlen : (n * n <= length dist)%nat).
Local Abbreviation N := (Z.of_nat n).

Lemma find_groups_numbering acc : returns (hwloc__find_groups_by_min_distance N dist acc) (fun '(nb, ids) =>
  nb = 0 \/ numbering n nb ids).
Proof.
  eapply returns_mono; [by apply find_groups_ok|]. intros [nb ids] (min & _ & Hres). unfold search_result in Hres.
  destruct (f_eq min FLT_MAX); [left; tauto|]. destruct Hres as (g & skipped & Hso & _ & ->).
  destruct ((g =? 1) && (skipped =? 0)); [by left|]. destruct (Z.eq_dec g 0) as [->|Hg]; [by left|right].
  eapply sound_numbering; [|exact Hso]. destruct (so_number _ _ _ _ _ _ _ _ Hso). lia.
Qed.

Lemma upper_pairs_index i j : In (i, j) (upper_pairs N) -> index n i /\ index n j.
Proof.
  clear Hn dist Hlen. unfold upper_pairs, index. intros (l & (i' & <- & Hi)%in_map_iff & (j' & [= <- <-] & Hj)%in_map_iff)%in_concat.
  apply list_elem_of_In, elem_of_seqZ in Hi, Hj. lia.
Qed.

Lemma check_pairs_ok acc pairs : (forall i j, In (i, j) pairs -> index n i /\ index n j) ->
  returns (check_pairs N dist acc pairs) (fun _ => True).
Proof.
  induction pairs as [|[i j] pairs IH]; intros Hp; cbn [check_pairs]; [by apply returns_ret|].
  destruct (Hp i j ltac:(by left)) as [Hi Hj]. rewrite !(DISTANCE_ok n dist) by done. cbn [mbind option_bind].
  destruct (negb _); [by apply returns_ret|]. destruct (_ <=? 0); [by apply returns_ret|].
  apply IH. intros a b Hab. apply Hp. by right.
Qed.

Lemma try_accuracies_ok needcheck ids accuracies : returns (try_accuracies N dist needcheck ids accuracies) (fun '(nb, ids) =>
  nb = 0 \/ numbering n nb ids).
Proof.
  revert ids. induction accuracies as [|acc accuracies IH]; intros ids; cbn [try_accuracies]; [apply returns_ret; by left|].
  eapply returns_bind with (P := fun _ => True).
  { destruct needcheck; [apply check_pairs_ok, upper_pairs_index|by apply returns_ret]. }
  intros err _. destruct (err <? 0); [apply IH|]. eapply returns_bind; [apply find_groups_numbering|].
  intros [nb ids'] Hnb. destruct (Z.eqb_spec nb 0) as [->|Hne]; cbn [negb]; [apply IH|]. apply returns_ret.
  destruct Hnb; [done|by right].
Qed.

(** ** Sums and means *)

Context (nb : Z) (ids : list Z) (Hids : numbering n nb ids).

Lemma sum_distances_ok : returns (sum_distances N nb dist ids) (fun l => length l = Z.to_nat (nb * nb)).
Proof.
  destruct Hids as [Hl Hnb Hr _]. unfold sum_distances.
  assert (forall k, index n k -> ids !! Z.to_nat k = Some (get ids k)) as Hget
    by (intros k Hk; apply get_lookup; unfold index in Hk; lia).
  apply (for_from_inv (fun _ l => length l = Z.to_nat (nb * nb))); [apply length_replicate|].
  intros i l Hi Hll. assert (index n i) as Hii by (unfold index, turns in *; lia). rewrite Hget by done. cbn [mbind option_bind].
  destruct (Z.eqb_spec (get ids i) 0); [by apply returns_ret|].
  apply (for_from_inv (fun _ l => length l = Z.to_nat (nb * nb))); [done|].
  intros j l' Hj Hll'. assert (index n j) as Hij by (unfold index, turns in *; lia). rewrite Hget by done. cbn [mbind option_bind].
  destruct (Z.eqb_spec (get ids j) 0); [by apply returns_ret|]. rewrite (DISTANCE_ok n dist) by done. cbn [mbind option_bind].
  pose proof (Hr i Hii). pose proof (Hr j Hij). rewrite u32_small by nia.
  destruct (lookup_lt_is_Some_2 l' (Z.to_nat ((get ids i - 1) * nb + (get ids j - 1)))) as [v ->]; [nia|].
  cbn [mbind option_bind]. apply returns_ret. by rewrite length_insert.
Qed.

Lemma mean_distances_ok sizes l : length sizes = Z.to_nat nb -> length l = Z.to_nat (nb * nb) ->
  returns (mean_distances nb sizes l) (fun l => length l = Z.to_nat (nb * nb)).
Proof.
  destruct Hids as [_ Hnb _ _]. intros Hs Hl. unfold mean_distances.
  apply (for_from_inv (fun _ l => length l = Z.to_nat (nb * nb))); [done|]. intros i l1 Hi Hl1.
  apply (for_from_inv (fun _ l => length l = Z.to_nat (nb * nb))); [done|]. intros j l2 Hj Hl2. unfold turns in *.
  destruct (lookup_lt_is_Some_2 sizes (Z.to_nat i)) as [si ->]; [lia|].
  destruct (lookup_lt_is_Some_2 sizes (Z.to_nat j)) as [sj ->]; [lia|]. cbn [mbind option_bind].
  rewrite u32_small by nia. destruct (lookup_lt_is_Some_2 l2 (Z.to_nat (i * nb + j))) as [v ->]; [nia|].
  cbn [mbind option_bind]. apply returns_ret. by rewrite length_insert.
Qed.
End Arrays.
