(* ===== verification/Described.v ===== *)
(** * Described: a hierarchy described in the environment is found again *)

From stdpp Require Import relations.
From Stdlib Require Import Ascii String.
From S2P Require Import Prelude Misc Bitmap CString CStringOk Cpuset Obj Insert Synthetic SyntheticParse Float Scan Distances Grouping GroupsOk.

(** ** The matrix of a description *)

Lemma concat_get n (rows : list (list Z)) i j : Forall (fun r => length r = n) rows -> (i < length rows)%nat -> (j < n)%nat ->
  concat rows !! (i * n + j)%nat = (rows !! i) ≫= (.!! j).
Proof.
  intros Hl. revert i. induction Hl as [|r rows Hr _ IH]; intros i Hi Hj; cbn in Hi; [lia|].
  destruct i as [|i]; cbn [concat].
  - rewrite lookup_app_l by lia. done.
  - rewrite lookup_app_r by lia. replace (S i * n + j - length r)%nat with (i * n + j)%nat by lia. rewrite IH by lia. done.
Qed.

Section Hierarchy.
Context (x y z : Z) (Hx : 1 <= x) (Hy : 1 <= y) (Hz : 2 <= z) (Hn : x * y * z < 2 ^ 16).
Local Abbreviation n := (Z.to_nat (x * y * z)).
Local Abbreviation N := (Z.of_nat n).

Lemma n_ok : N = x * y * z.
Proof. lia. Qed.

Lemma block_lt k : index n k -> 0 <= k / z < x * y.
Proof.
  unfold index. rewrite n_ok. intros Hk. split; [by apply Z.div_pos; lia|]. apply Z.div_lt_upper_bound; [lia|].
  replace (z * (x * y)) with (x * y * z) by ring. lia.
Qed.

Lemma group_matrix_length : length (group_matrix N y z) = (n * n)%nat.
Proof.
  unfold group_matrix. rewrite (lines_length n).
  - rewrite length_map, length_seqZ. lia.
  - apply Forall_map, Forall_forall. intros k _. unfold line. rewrite length_map, length_seqZ. lia.
Qed.

Lemma matrix_distance i j : index n i -> index n j -> distance n (group_matrix N y z) i j = group_distance y z i j.
Proof.
  unfold index, distance, get. intros Hi Hj. apply list_lookup_total_correct.
  replace (Z.to_nat (i * N + j)) with (Z.to_nat i * n + Z.to_nat j)%nat by nia.
  unfold group_matrix. rewrite concat_get.
  - rewrite list_lookup_fmap, lookup_seqZ_lt by lia. cbn [mbind option_bind fmap option_fmap option_map].
    rewrite list_lookup_fmap, lookup_seqZ_lt by lia. cbn. f_equal. f_equal; lia.
  - apply Forall_map, Forall_forall. intros k _. rewrite length_map, length_seqZ. lia.
  - rewrite length_map, length_seqZ. lia.
  - lia.
Qed.

Lemma distance_cases i j : i <> j -> In (group_distance y z i j) [F2; F4; F8].
Proof.
  intros Hne. unfold group_distance. rewrite (proj2 (Z.eqb_neq i j)) by done.
  destruct (i / z =? j / z); [cbn; auto|]. destruct (i / z / y =? j / z / y); cbn; auto.
Qed.

Lemma nearest_F2 min : nearest n (group_matrix N y z) min -> min = F2.
Proof.
  intros [Hlt Hat]. assert (index n 0 /\ index n 1) as [H0 H1] by (unfold index; split; nia).
  specialize (Hlt 0 1 H0 H1 ltac:(lia)). rewrite matrix_distance in Hlt by done.
  assert (group_distance y z 0 1 = F2) as Hd.
  { unfold group_distance. rewrite (Z.div_small 0), (Z.div_small 1) by lia. done. }
  rewrite Hd in Hlt. destruct Hat as [->|(j & k & Hj & Hk & Hne & <-)]; [done|].
  rewrite matrix_distance in * by done. destruct (distance_cases j k Hne) as [<-|[Heq|[Heq|[]]]]; [done| |];
    by rewrite <- Heq in Hlt.
Qed.

Lemma close_block j k : index n j -> index n k -> j <> k ->
  close n (group_matrix N y z) 0 F2 j k <-> j / z = k / z.
Proof.
  intros Hj Hk Hne. unfold close. rewrite matrix_distance by done. unfold group_distance.
  rewrite (proj2 (Z.eqb_neq j k)) by done. destruct (Z.eqb_spec (j / z) (k / z)); [done|].
  destruct (j / z / y =? k / z / y); done.
Qed.

Lemma blocks_classes : classes n (group_matrix N y z) 0 F2.
Proof.
  split.
  - intros j k Hj Hk Hne. rewrite !close_block by done. done.
  - intros i j k Hi Hj Hk Hne Hij Hjk. rewrite close_block by done.
    destruct (Z.eq_dec i j) as [->|]; [by rewrite close_block in Hjk|].
    destruct (Z.eq_dec j k) as [->|]; [by rewrite close_block in Hij|].
    rewrite close_block in * by done. congruence.
Qed.

(** The number of a group is that of its block. *)
Lemma blocks_numbered ids g skipped : groups_sound n (group_matrix N y z) 0 F2 N ids (g + 1) skipped ->
  groups_exact n (group_matrix N y z) 0 F2 N ids skipped ->
  forall j, 0 <= j -> index n j -> get ids j = j / z + 1.
Proof.
  intros Hso [Hc Ha Ho Hs]. pose proof (so_range _ _ _ _ _ _ _ _ Hso) as Hr.
  assert (forall j, index n j -> get ids j <> 0) as Hnz.
  { intros j Hj H0. assert (exists k, index n k /\ k <> j /\ j / z = k / z) as (k & Hk & Hne & Hb).
    { destruct (Z.eq_dec (j mod z) 0) as [H|H].
      - exists (j + 1). split; [|split; [lia|]].
        + pose proof (block_lt j Hj). pose proof (Z.div_mod j z ltac:(lia)). unfold index in *. rewrite n_ok in *.
          assert (z * (j / z + 1) <= z * (x * y)) by (apply Z.mul_le_mono_nonneg_l; lia). lia.
        + apply (Z.div_unique (j + 1) z (j / z) 1); [lia|]. pose proof (Z.div_mod j z ltac:(lia)). lia.
      - exists (j - 1). unfold index in *. pose proof (Z.mod_pos_bound j z ltac:(lia)). pose proof (Z.div_mod j z ltac:(lia)).
        split; [|split; [lia|]].
        + assert (j <> 0) by (intros ->; by rewrite Z.mod_0_l in H by lia). lia.
        + apply (Z.div_unique (j - 1) z (j / z) (j mod z - 1)); lia. }
    apply (Ha j k Hj); [unfold index in Hj; lia|done|done|done|]. by apply close_block. }
  intros j Hj0. pattern j. apply Zlt_0_ind; [|done]. clear j Hj0. intros j IH Hj0 Hj.
  assert (forall j', 0 <= j' < j -> get ids j' = j' / z + 1) as IH'
    by (intros j' Hj'; apply IH; [done|unfold index in *; lia]).
  destruct (Z.eq_dec (j mod z) 0) as [H|H]; pose proof (Z.div_mod j z ltac:(lia)) as Hdm.
  - destruct (Z.lt_trichotomy (get ids j) (j / z + 1)) as [Hlt|[Heq|Hgt]]; [|done|]; exfalso.
    + (* an earlier object is in this group *)
      pose proof (Hr j Hj). pose proof (Hnz j Hj).
      assert (0 <= (get ids j - 1) * z <= (j / z - 1) * z) as Hle
        by (split; [apply Z.mul_nonneg_nonneg|apply Z.mul_le_mono_nonneg_r]; lia).
      assert ((get ids j - 1) * z < j) as Hlt' by lia.
      assert (index n ((get ids j - 1) * z)) as Hik by (unfold index in *; lia).
      assert (get ids ((get ids j - 1) * z) = get ids j) as Heq
        by (rewrite IH' by (unfold index in Hik; lia); rewrite Z.div_mul by lia; lia).
      apply (Hc j) in Heq; [|done|done|lia|by apply Hnz]. apply close_block in Heq; [|done|done|lia].
      rewrite Z.div_mul in Heq by lia. lia.
    + destruct (Ho j (j / z + 1) Hj ltac:(pose proof (Z.div_pos j z); lia)) as (j' & Hj' & Heq).
      rewrite IH' in Heq by done. assert (j' / z < j / z) by (apply Z.div_lt_upper_bound; lia). lia.
  - pose proof (Z.mod_pos_bound j z ltac:(lia)).
    assert (j / z = (j - 1) / z) as Hb by (apply (Z.div_unique (j - 1) z (j / z) (j mod z - 1)); lia).
    assert (index n (j - 1)) as Hj1.
    { unfold index in *. assert (j <> 0) by (intros ->; by rewrite Z.mod_0_l in H by lia). lia. }
    rewrite Hb, <- IH' by (unfold index in Hj1; lia). symmetry. apply Hc; [done|done|lia|by apply Hnz|].
    apply close_block; [done|done|lia|done].
Qed.

(** The blocks of [z] objects are found, unless there is only one. *)
Lemma described_groups : returns (hwloc__find_groups_by_min_distance N (group_matrix N y z) 0) (fun '(nb, ids) =>
  nb = (if x * y =? 1 then 0 else x * y) /\ ids = map (fun j => j / z + 1) (seqZ 0 N)).
Proof.
  eapply returns_mono; [apply find_groups_ok; [lia|by rewrite group_matrix_length]|]. intros [nb ids] (min & Hmin & Hres).
  apply nearest_F2 in Hmin as ->. destruct Hres as (g & skipped & Hso & Hex & ->). specialize (Hex blocks_classes).
  pose proof (blocks_numbered ids g skipped Hso Hex) as Hids. pose proof (so_length _ _ _ _ _ _ _ _ Hso) as Hl.
  assert (g = x * y) as ->.
  { assert (index n (N - 1)) as Hlast by (unfold index; nia). pose proof (so_range _ _ _ _ _ _ _ _ Hso _ Hlast) as Hr.
    rewrite Hids in Hr by (done || (unfold index in Hlast; lia)).
    assert ((N - 1) / z = x * y - 1) as Hq by (symmetry; apply (Z.div_unique (N - 1) z (x * y - 1) (z - 1)); nia).
    destruct (so_group _ _ _ _ _ _ _ _ Hso g) as (l & Hil & _ & Hg & _); [nia|].
    rewrite Hids in Hg by (done || (unfold index in Hil; lia)).
    pose proof (block_lt l Hil). lia. }
  assert (skipped = 0) as ->.
  { destruct (so_number _ _ _ _ _ _ _ _ Hso) as [_ Hs]. destruct (Z.eq_dec skipped 0) as [|Hne]; [done|].
    destruct (ex_skipped _ _ _ _ _ _ _ Hex ltac:(lia)) as (k & Hk & _ & H0).
    rewrite Hids in H0 by (done || (unfold index in Hk; lia)). pose proof (Z.div_pos k z). unfold index in Hk. lia. }
  split; [by rewrite andb_true_r|]. apply list_eq. intros i.
  rewrite list_lookup_fmap. destruct (Nat.lt_ge_cases i n) as [Hin|Hin].
  - rewrite lookup_seqZ_lt by lia. rewrite <- (Nat2Z.id i) at 1. rewrite get_lookup by lia.
    rewrite Hids by (unfold index; lia). done.
  - rewrite lookup_ge_None_2, lookup_seqZ_ge by lia. done.
Qed.

End Hierarchy.

(** ** The text of a description *)

Lemma check_matrix_ok l : hwloc_distances__check_matrix l = if bool_decide (NoDup l) then 0 else -1.
Proof.
  induction l as [|a l IH]; [done|]. cbn [hwloc_distances__check_matrix].
  destruct (existsb (Z.eqb a) l) eqn:He.
  - rewrite bool_decide_eq_false_2; [done|]. intros [Ha _]%NoDup_cons. apply Ha, list_elem_of_In.
    apply existsb_exists in He as (b & Hb & ->%Z.eqb_eq). done.
  - rewrite IH. apply eq_trans with (if bool_decide (NoDup (a :: l)) then 0 else -1); [|done].
    assert (a ∉ l) as Ha.
    { intros Ha%list_elem_of_In. assert (existsb (Z.eqb a) l = true); [|congruence]. apply existsb_exists.
      exists a. by rewrite Z.eqb_refl. }
    rewrite (bool_decide_ext (NoDup (a :: l)) (NoDup l)); [done|]. rewrite NoDup_cons. naive_solver.
Qed.

(** A forced element replaces those of its type. *)
Definition set_element (l : list osdist) (d : osdist) : list osdist :=
  List.filter (fun e => negb (bool_decide (od_type e = od_type d))) l ++ [d].

Lemma make_room_force l type :
  make_room l type true = Some (List.filter (fun e => negb (bool_decide (od_type e = type))) l).
Proof.
  induction l as [|d l IH]; [done|]. cbn [make_room List.filter]. rewrite andb_false_r, IH.
  by destruct (bool_decide (od_type d = type)).
Qed.

Lemma distances_set_force l type n indexes objs distances : n <> 0 ->
  hwloc_distances_set l type n indexes objs distances true = set_element l (mk_osdist type n indexes objs distances true).
Proof.
  intros Hn. unfold hwloc_distances_set. rewrite make_room_force. by rewrite (proj2 (Z.eqb_neq n 0)).
Qed.

Lemma fmt_u_not n c : 0 <= n < 2 ^ 32 -> is_digit 10 c = None -> Forall (fun d => d <> c) (fmt_u n).
Proof.
  intros Hn Hc. destruct (print_num_text 10 n ltac:(lia) ltac:(lia)) as [H1 _ _ _ _].
  eapply Forall_impl; [exact H1|]. intros d Hd. by apply (digit_not 10).
Qed.

(** The values between commas, each with the text it begins. *)
Fixpoint comma_list (l : list chars) : chars :=
  match l with [] => [] | [v] => v | v :: l => v ++ ","%char :: comma_list l end.

Fixpoint values_from (l : list chars) : list chars :=
  match l with [] => [] | v :: l' => comma_list l :: values_from l' end.

(** A list of distances is read value by value, and refused when it is too short. *)
Lemma parse_distances_list l n : l <> [] -> Forall (Forall (fun d => d <> ","%char)) l ->
  parse_distances n (comma_list l) =
    if (n <=? length l)%nat then Some (map atof (take n (values_from l))) else None.
Proof.
  intros Hne Hl. revert n Hne. induction Hl as [|v l Hv Hl IH]; intros [|n] Hne; try done.
  destruct l as [|v' l].
  - cbn [parse_distances comma_list values_from length Nat.leb].
    assert (strchr v "," = None) as ->.
    { clear -Hv. induction Hv as [|d v Hd _ IH]; [done|]. cbn [strchr]. by rewrite (proj2 (Ascii.eqb_neq _ _) Hd). }
    by destruct n as [|n].
  - change (comma_list (v :: v' :: l)) with (v ++ ","%char :: comma_list (v' :: l)).
    cbn [parse_distances]. rewrite strchr_skip by done. cbn [tl]. rewrite IH by done.
    change (values_from (v :: v' :: l)) with ((v ++ ","%char :: comma_list (v' :: l)) :: values_from (v' :: l)).
    change (length (v :: v' :: l)) with (S (length (v' :: l))). cbn [Nat.leb take map].
    by destruct (n <=? length (v' :: l))%nat.
Qed.

Section Text.
Context `{Malloc} (Hm : forall k, 0 <= k < 2 ^ 34 -> malloc_ok k = true).
Context (i x y z : Z) (Hi : 0 <= i) (Hx : 1 <= x) (Hy : 1 <= y) (Hz : 1 <= z).
Context (Hn : x * y * z < 2 ^ 16) (Hlast : i + x * y * z < 2 ^ 32).

(** [i-j:x*y*z] *)
Definition description : chars :=
  fmt_u i ++ "-"%char :: fmt_u (i + x * y * z - 1) ++ ":"%char :: fmt_u x ++ "*"%char :: fmt_u y ++ "*"%char :: fmt_u z.

Lemma factors_small : x < 2 ^ 16 /\ y < 2 ^ 16 /\ z < 2 ^ 16 /\ 1 <= x * y < 2 ^ 16 /\ 1 <= x * y * z.
Proof. nia. Qed.

Lemma scan_description : scan_range description = Some (i, i + x * y * z - 1).
Proof.
  pose proof factors_small. unfold scan_range, description. rewrite scan_u_ok by (done || lia). cbn [mbind option_bind].
  change (scan_text (txt "-") ("-"%char :: ?s)) with (Some s). cbn [mbind option_bind].
  by rewrite scan_u_ok by (done || lia).
Qed.

Lemma scan_factors : scan_groups (fmt_u x ++ "*"%char :: fmt_u y ++ "*"%char :: fmt_u z) = Some (x, y, Some z).
Proof.
  pose proof factors_small. unfold scan_groups. rewrite scan_u_ok by (done || lia). cbn [mbind option_bind].
  change (scan_text (txt "*") ("*"%char :: ?s)) with (Some s). cbn [mbind option_bind].
  rewrite scan_u_ok by (done || lia). cbn [mbind option_bind].
  change (scan_text (txt "*") ("*"%char :: ?s)) with (Some s). cbn [mbind option_bind].
  rewrite <- (app_nil_r (fmt_u z)). by rewrite scan_u_ok by (done || lia).
Qed.

Lemma described_element l type : hwloc_distances__set_from_string l type description =
  Some (set_element l (mk_osdist type (x * y * z) (Some (seqZ i (x * y * z))) None (group_matrix (x * y * z) y z) true)).
Proof.
  pose proof factors_small. unfold hwloc_distances__set_from_string.
  rewrite bool_decide_eq_false_2.
  2: { unfold description. destruct (decimal_front i ltac:(lia)) as (c & ds & Hds & Hc). unfold fmt_u at 1. rewrite Hds.
       intros [= -> _]. by destruct Hc. }
  unfold read_indexes. rewrite scan_description. set (n := x * y * z) in *.
  assert (u32 (i + n - 1 - i + 1) = n) as -> by (rewrite u32_small; lia).
  assert (u32 (n * n) = n * n) as -> by (apply u32_small; nia).
  rewrite !Hm by nia. cbn [negb orb].
  assert (strchr description ":" = Some (":"%char :: fmt_u x ++ "*"%char :: fmt_u y ++ "*"%char :: fmt_u z)) as ->.
  { unfold description. fold n.
    change ("-"%char :: fmt_u (i + n - 1) ++ ?s) with (["-"%char] ++ fmt_u (i + n - 1) ++ s). rewrite !app_assoc, strchr_skip; [done|].
    repeat (apply Forall_app; split); try (apply fmt_u_not; done || lia). by constructor. }
  cbn [mbind option_bind tl]. rewrite length_map, length_seqZ, Z2Nat.id, scan_factors by lia.
  cbn [default id]. fold n. assert (u32 n = n) as -> by (apply u32_small; lia). rewrite Z.eqb_refl. cbn [negb].
  destruct (Z.ltb_spec n (2 ^ 16)); [|lia]. cbn [mbind option_bind].
  assert (map (fun j => u32 (j + i)) (seqZ 0 n) = seqZ i n) as ->.
  { replace (seqZ i n) with (Z.add i <$> seqZ 0 n) by (rewrite fmap_add_seqZ; f_equal; lia). apply map_ext_in. intros j Hj%list_elem_of_In%elem_of_seqZ.
    rewrite u32_small by lia. lia. }
  rewrite check_matrix_ok, bool_decide_eq_true_2 by apply NoDup_seqZ. cbn [Z.ltb Z.compare].
  rewrite distances_set_force by lia. done.
Qed.

End Text.

(** ** Sets of elements *)

Lemma set_element_loaded l d : Forall loaded l -> loaded d -> Forall loaded (set_element l d).
Proof. intros Hl Hd. apply Forall_app. split; [by apply filter_loaded|by constructor]. Qed.

Lemma set_element_others l d :
  List.filter (fun e => negb (bool_decide (od_type e = od_type d))) (set_element l d) =
  List.filter (fun e => negb (bool_decide (od_type e = od_type d))) l.
Proof.
  unfold set_element. rewrite List.filter_app, filter_twice. cbn. rewrite bool_decide_eq_true_2 by done. by rewrite app_nil_r.
Qed.

Lemma set_element_own l d : List.filter (fun e => bool_decide (od_type e = od_type d)) (set_element l d) = [d].
Proof.
  unfold set_element. rewrite List.filter_app. cbn. rewrite bool_decide_eq_true_2 by done.
  replace (List.filter _ (List.filter _ l)) with (@nil osdist); [done|]. symmetry.
  induction l as [|e l IH]; [done|]. cbn. destruct (bool_decide (od_type e = od_type d)) eqn:He; cbn; [done|by rewrite He].
Qed.

(** ** The search on a described matrix *)

Section Try.
Context (x y z : Z) (Hx : 1 <= x) (Hy : 1 <= y) (Hz : 2 <= z) (Hn : x * y * z < 2 ^ 16).
Local Abbreviation n := (Z.to_nat (x * y * z)).
Local Abbreviation N := (Z.of_nat n).

Lemma group_distance_sym i j : group_distance y z i j = group_distance y z j i.
Proof.
  unfold group_distance. rewrite (Z.eqb_sym j i), (Z.eqb_sym (j / z) (i / z)), (Z.eqb_sym (j / z / y) (i / z / y)). done.
Qed.

Lemma described_pairs pairs : Forall (fun p => index n (fst p) /\ index n (snd p) /\ fst p <> snd p) pairs ->
  check_pairs N (group_matrix N y z) 0 pairs = Some 0.
Proof.
  assert ((n * n <= length (group_matrix N y z))%nat) as Hl by (by rewrite group_matrix_length).
  induction 1 as [|[i j] pairs (Hi & Hj & Hne) _ IH]; [done|]. cbn [fst snd] in *. cbn [check_pairs].
  rewrite !(DISTANCE_ok n) by (done || lia). cbn [mbind option_bind]. rewrite !matrix_distance by done.
  rewrite (group_distance_sym j i). pose proof (distance_cases y z i j Hne) as Hd.
  assert (group_distance y z i i = F1) as -> by (unfold group_distance; by rewrite Z.eqb_refl).
  destruct Hd as [<-|[<-|[<-|[]]]]; exact IH.
Qed.

Lemma described_search : returns (try_accuracies N (group_matrix N y z) true [] [0]) (fun '(nb, ids) =>
  nb = (if x * y =? 1 then 0 else x * y) /\ ids = map (fun j => j / z + 1) (seqZ 0 N)).
Proof.
  cbn [try_accuracies]. unfold hwloc__check_grouping_matrix. rewrite described_pairs.
  2: { apply Forall_forall. intros [i j] Hp%list_elem_of_In. destruct (upper_pairs_index n i j Hp) as [? ?].
       split_and!; try done. cbn [fst snd]. unfold upper_pairs in Hp.
       apply in_concat in Hp as (l & (i' & <- & _)%in_map_iff & (j' & [= <- <-] & Hj)%in_map_iff).
       apply list_elem_of_In, elem_of_seqZ in Hj. lia. }
  cbn [mbind option_bind Z.ltb Z.compare]. eapply returns_bind; [by apply described_groups|].
  intros [nb ids] [-> ->]. destruct (Z.eqb_spec (x * y) 1); cbn [negb Z.eqb]; [by apply returns_ret|].
  destruct (Z.eqb_spec (x * y) 0); [lia|]. by apply returns_ret.
Qed.
End Try.
