(* ===== verification/GroupRecOk.v ===== *)
(** * GroupRecOk: group objects in the hierarchy, and the groups of groups *)

From stdpp Require Import relations.
From Stdlib Require Import Ascii String.
From S2P Require Import Prelude CString Cpuset Obj ObjCmp Insert InsertOk Float Scan Distances Grouping GroupsOk.

Section GroupTree.
Context {B : Type} `{Cpuset B}.
Implicit Types o obj : hwloc_obj B.
Implicit Types g : grouping (B := B).

Definition g_objs g : list (hwloc_obj B) := forest_objs (t_children (g_root g)).
Definition g_top g : hwloc_obj B := t_obj (g_root g).

(** A hierarchy in which objects can be inserted. *)
Record ready g : Prop := {
  rd_wf : tree_wf (g_root g);
  rd_cpuset : is_Some (ocpuset (g_top g));
  rd_complete : is_Some (complete_cpuset (sets (g_top g)));
  rd_complete_nodes : is_Some (complete_nodeset (sets (g_top g)));
  rd_order : hwloc_get_type_order (o_type (g_top g)) < hwloc_get_type_order HWLOC_OBJ_GROUP;
  rd_distinct : NoDup (map o_addr (tree_objs (g_root g)));
  rd_fresh : Forall (fun o => o_addr o < g_next g) (tree_objs (g_root g));
}.

Lemma tree_objs_split (t : obj_tree B) : tree_objs t = t_obj t :: forest_objs (t_children t).
Proof. destruct t. apply tree_objs_node. Qed.

(** ** Inserting what conflicts with nothing *)

Lemma insert_free g obj : ready g -> obj_ok obj -> no_arrays obj -> o_addr obj = g_next g ->
  bsub (cs obj) (cs (g_top g)) -> o_type obj = HWLOC_OBJ_GROUP -> Forall (no_conflict obj) (g_objs g) ->
  exists g', insert_group g obj = Some g' /\ ready g' /\ g_depth g' = g_depth g /\
    cs (g_top g') = cs (g_top g) /\ g_objs g' ≡ₚ obj :: g_objs g.
Proof.
  intros [Hwf [rc Hrc] [cc Hcc] [cn Hcn] Hord Hdis Hfresh] Hok Harr Haddr Hsub Hty Hfree.
  destruct (g_root g) as [ro ch] eqn:Hg. unfold g_top, g_objs in *. rewrite Hg in *. cbn [t_obj t_children] in *.
  destruct (ok_cs obj Hok) as (Hoc & _ & _).
  assert (exists ro', rank_eq ro ro' /\ o_addr ro' = o_addr ro /\ is_Some (complete_cpuset (sets ro')) /\
    is_Some (complete_nodeset (sets ro')) /\
    hwloc__insert_object_by_cpuset (Node ro ch) obj =
      hwloc___insert_object_by_cpuset (tree_height (Node ro ch)) (Node ro' ch) obj) as (ro' & Hrank & Ha & Hcc' & Hcn' & Heq).
  { unfold hwloc__insert_object_by_cpuset. rewrite Hcc, Hoc. cbn [or_into mbind option_bind].
    set (ro1 := with_complete_cpuset ro (Some (b_or cc (cs obj)))).
    destruct (onodeset obj) as [nd|].
    - exists (with_complete_nodeset ro1 (Some (b_or cn nd))). change (complete_nodeset (sets ro1)) with (complete_nodeset (sets ro)).
      rewrite Hcn. by split_and!; try (by eexists).
    - exists ro1. by split_and!; try (by eexists). }
  destruct (insert_ok (tree_height (Node ro ch)) (Node ro' ch) obj) as ([r root'] & Hins & Hpost).
  - done.
  - by eapply update_root_wf.
  - cbn [t_obj]. destruct Hrank as (-> & _). by exists rc.
  - done.
  - done.
  - cbn [t_obj]. eapply rank_cmp; [exact Hrank|]. split; [done|]. intros _. unfold obj_key. rewrite Hty.
    cbn [okey_compare]. by rewrite (proj2 (Z.compare_lt_iff _ _)).
  - pose proof (insert_post_iff obj (Node ro' ch) r root' Hpost) as Hiff. cbn [t_children] in Hiff.
    assert (r = Inserted) as -> by (by apply Hiff).
    destruct Hpost as (Hwf' & Htop & Hperm & _). exists (mk_grouping root' (g_depth g) (g_next g + 1)).
    unfold insert_group. rewrite Hg, Heq, Hins. cbn [mbind option_bind]. split; [done|]. cbn [g_root g_depth g_next].
    rewrite !(tree_objs_split root'), Htop, tree_objs_node in Hperm. cbn [t_obj] in *.
    assert (forest_objs (t_children root') ≡ₚ obj :: forest_objs ch) as Hp.
    { apply (Permutation_cons_inv (a := ro')). rewrite Hperm. apply perm_swap. }
    destruct Hrank as (Hrcs & _ & Hrty & _). split; [|split; [done|split; [|done]]].
    + split; unfold g_top; cbn [g_root g_next]; rewrite ?Htop; [done|by rewrite Hrcs; exists rc|done|done| | |].
      * by rewrite Hrty.
      * rewrite tree_objs_split, Htop. cbn [map]. rewrite Hp, Ha. cbn [map].
        rewrite tree_objs_node in Hdis, Hfresh. cbn [map] in Hdis. apply NoDup_cons in Hdis as [Hn1 Hn2].
        apply Forall_cons in Hfresh as [Hf1 Hf2]. rewrite Forall_forall in Hf2.
        apply NoDup_cons. split.
        -- rewrite elem_of_cons, Haddr. intros [?|?]; [lia|done].
        -- apply NoDup_cons. split; [|done]. rewrite Haddr. intros (o & Hoo & Ho)%list_elem_of_fmap. pose proof (Hf2 o Ho). lia.
      * rewrite tree_objs_split, Htop. constructor; [|rewrite Hp; constructor].
        -- rewrite Ha. rewrite tree_objs_node in Hfresh. apply Forall_cons in Hfresh as [Hf1 _]. lia.
        -- lia.
        -- rewrite tree_objs_node in Hfresh. apply Forall_cons in Hfresh as [_ Hf2]. eapply Forall_impl; [exact Hf2|].
           intros o Ho. cbn beta in *. lia.
    + unfold g_top, cs. cbn [g_root]. by rewrite Htop, Hrcs.
Qed.

(** ** Assembling a group *)

(** The cpuset is the union of those of the members. *)
Definition union_of (ms : list (hwloc_obj B)) (c : B) : Prop :=
  forall i, 0 <= i -> bm c i = true <-> exists m, m ∈ ms /\ bm (cs m) i = true.

Record group_of (depth : Z) (ms : list (hwloc_obj B)) (G : hwloc_obj B) : Prop := {
  go_ok : obj_ok G;
  go_type : o_type G = HWLOC_OBJ_GROUP;
  go_attr : attr G = AttrGroup depth;
  go_arrays : no_arrays G;
  go_union : union_of ms (cs G);
}.

Lemma object_at_found g o : NoDup (map o_addr (tree_objs (g_root g))) -> o ∈ tree_objs (g_root g) ->
  object_at (g_root g) (o_addr o) = Some o.
Proof.
  unfold object_at. generalize (tree_objs (g_root g)). intros l. induction l as [|x l IH]; intros Hd Ho; [by apply elem_of_nil in Ho|].
  cbn [map] in Hd. apply NoDup_cons in Hd as [Hx Hd]. cbn [find]. apply elem_of_cons in Ho as [->|Ho].
  - by rewrite Z.eqb_refl.
  - destruct (Z.eqb_spec (o_addr x) (o_addr o)) as [Heq|_]; [|auto]. destruct Hx. rewrite Heq. by apply list_elem_of_fmap_2.
Qed.

Lemma assemble_ok g ms : ready g -> ms <> [] -> Forall (fun m => m ∈ g_objs g /\ obj_ok m) ms ->
  exists G, assemble_group g (map o_addr ms) = Some G /\ group_of (g_depth g) ms G /\ o_addr G = g_next g.
Proof.
  intros Hr Hne Hms. unfold assemble_group.
  set (G0 := with_attr (with_cpuset (hwloc_alloc_setup_object (g_next g) HWLOC_OBJ_GROUP (-1)) (Some b_alloc)) (AttrGroup (g_depth g))).
  set (start := fun (done_ : list (hwloc_obj B)) (G : hwloc_obj B) => o_type G = HWLOC_OBJ_GROUP /\ attr G = AttrGroup (g_depth g) /\
    no_arrays G /\ o_addr G = g_next g /\ exists c, ocpuset G = Some c /\ bfin c = true /\ union_of done_ c).
  assert (start [] G0) as Hstart.
  { split_and!; try done. exists b_alloc. split_and!; [done|apply bfin_alloc|]. intros i Hi. rewrite bm_alloc by done.
    split; [done|]. by intros (m & Hm%elem_of_nil & _). }
  assert (forall done_ G ms, start done_ G -> Forall (fun m => m ∈ g_objs g /\ obj_ok m) ms ->
    exists G', foldl (fun group_obj addr =>
      let! group_obj := group_obj in
      let! obj := object_at (g_root g) addr in
      add_sets group_obj obj) (Some G) (map o_addr ms) = Some G' /\ start (done_ ++ ms) G') as Hfold.
  { clear -Hr H0. intros done_ G ms. revert done_ G. induction ms as [|m ms IH]; intros done_ G HG Hms; cbn [map foldl].
    - exists G. by rewrite app_nil_r.
    - apply Forall_cons in Hms as [[Hm Hok] Hms]. cbn [mbind option_bind].
      rewrite (object_at_found g m) by (apply Hr || (rewrite tree_objs_split; by right)). cbn [mbind option_bind].
      destruct HG as (Ht & Hat & Harr & Had & c & Hc & Hf & Hu). destruct (ok_cs m Hok) as (Hmc & Hmf & _).
      assert (exists G1, add_sets G m = Some G1 /\ start (done_ ++ [m]) G1) as (G1 & -> & HG1).
      { unfold add_sets. rewrite Hc, Hmc. cbn [or_into mbind option_bind].
        assert (bfin (b_or c (cs m)) = true) as Hf' by (by rewrite bfin_or, Hf).
        assert (union_of (done_ ++ [m]) (b_or c (cs m))) as Hu'.
        { intros i Hi. rewrite bm_or, orb_true_iff, (Hu i) by done. setoid_rewrite elem_of_app. setoid_rewrite list_elem_of_singleton.
          naive_solver. }
        destruct (onodeset m); eexists; (split; [reflexivity|]); split_and!; try done; by exists (b_or c (cs m)). }
      destruct (IH (done_ ++ [m]) G1 HG1 Hms) as (G' & HG' & Hs). exists G'. by rewrite <- app_assoc in Hs. }
  destruct (Hfold [] G0 ms Hstart Hms) as (G & HG & Ht & Hat & Harr & Had & c & Hc & Hf & Hu). exists G.
  split; [exact HG|]. split; [|done]. cbn [app] in Hu. assert (cs G = c) as Hcs by (unfold cs; by rewrite Hc).
  split; [|done|done|done|by rewrite Hcs]. split; [|by rewrite Ht|by rewrite Ht].
  exists c. split_and!; [done|done|]. destruct ms as [|m ms]; [done|]. apply Forall_cons in Hms as [[_ Hok] _].
  destruct (ok_cs m Hok) as (_ & Hfm & Hnm). intros He. apply Hnm. intros i Hi. destruct (bm (cs m) i) eqn:Hb; [|done].
  specialize (He i Hi). assert (bm c i = true); [|congruence]. apply Hu; [done|]. exists m. split; [by left|done].
Qed.

End GroupTree.

(** ** Members *)

Lemma members_map {A C} (f : A -> C) ids (os : list A) h : members ids (map f os) h = map f (members ids os h).
Proof.
  unfold members. revert os. induction ids as [|i ids IH]; intros [|o os]; try done. cbn [map zip zip_with].
  rewrite !filter_cons. cbn [fst]. destruct (decide (i = h)); cbn [map snd]; by rewrite IH.
Qed.

Lemma members_elem {A} ids (os : list A) h m :
  m ∈ members ids os h <-> exists k, ids !! k = Some h /\ os !! k = Some m.
Proof.
  unfold members. rewrite list_elem_of_fmap. setoid_rewrite list_elem_of_filter. setoid_rewrite list_elem_of_lookup.
  setoid_rewrite lookup_zip_with_Some. split.
  - intros ([a b] & -> & Ha & k & a' & b' & [= -> ->] & Hk & Hk'). exists k. cbn in *. by subst.
  - intros (k & Hk & Hk'). exists (h, m). split; [done|]. split; [done|]. by exists k, h, m.
Qed.

Section GroupRec.
Context {B : Type} `{Cpuset B}.
Implicit Types o obj : hwloc_obj B.
Implicit Types g : grouping (B := B).

(** ** Objects that can be grouped *)

Definition separate (os : list (hwloc_obj B)) : Prop :=
  forall i j x y, i <> j -> os !! i = Some x -> os !! j = Some y -> bdisj (cs x) (cs y).

(** [o] lies in one of the objects, or contains them, or lies beside them. *)
Definition aligned (os : list (hwloc_obj B)) o : Prop :=
  setless o \/ (exists x, x ∈ os /\ bsub (cs o) (cs x)) \/ (forall x, x ∈ os -> bsub (cs x) (cs o)) \/
  (forall x, x ∈ os -> bdisj (cs o) (cs x)).

(** Groups of the tree have been given smaller depths. *)
Definition below_depth (d : Z) o : Prop := o_type o = HWLOC_OBJ_GROUP -> group_depth (attr o) < d.

Record arranged g (os : list (hwloc_obj B)) : Prop := {
  ar_objs : Forall (fun m => m ∈ g_objs g /\ obj_ok m) os;
  ar_separate : separate os;
  ar_aligned : Forall (aligned os) (g_objs g);
  ar_depth : Forall (below_depth (g_depth g)) (g_objs g);
}.

(** What is in the tree lies below its root. *)
Lemma g_below g o : ready g -> o ∈ g_objs g -> setless o \/ (obj_ok o /\ bsub (cs o) (cs (g_top g))).
Proof.
  intros Hr Ho. pose proof (tree_wf_below _ (rd_wf _ Hr)) as Hb. rewrite Forall_forall in Hb.
  destruct (Hb o Ho) as [Hs|[Hok [Hsub _]]]; [by left|by right].
Qed.

(** [G] can be inserted beside [o]. *)
Lemma no_conflict_sets G o : obj_ok G -> obj_ok o ->
  bdisj (cs G) (cs o) \/ (obj_key G <> obj_key o /\ (bsub (cs G) (cs o) \/ bsub (cs o) (cs G))) -> no_conflict G o.
Proof.
  intros HG Ho Hc. destruct (cmp_ok G o HG Ho) as (r & Hr & Hspec). unfold no_conflict. rewrite Hr.
  destruct (ok_cs G HG) as (_ & _ & Hne). 
  split; intros [= ->]; cbn [cmp_spec] in Hspec.
  - destruct Hspec as [Heq Hk]. destruct Hc as [Hd|[Hk' _]]; [|done]. apply Hne.
    apply (bsub_disj_empty _ (cs G) (cs o)); [done| |done]. intros i Hi. by rewrite (Heq i Hi).
  - destruct Hspec as (Hnd & Hn1 & Hn2). tauto.
Qed.

Section Create.
Context (g0 : grouping (B := B)) (os : list (hwloc_obj B)) (ids : list Z) (nb : Z).
Context (Har : arranged g0 os) (Hnum : numbering (length os) nb ids).
Local Abbreviation D := (g_depth g0).
Local Abbreviation mem h := (members ids os h).

Lemma mem_objs h m : m ∈ mem h -> m ∈ os.
Proof. intros (k & _ & Hk)%members_elem. by eapply list_elem_of_lookup_2. Qed.

Lemma mem_nonempty h : 1 <= h <= nb -> mem h <> [].
Proof.
  intros Hh. destruct (nu_member _ _ _ Hnum h Hh) as (k & Hk & Hkh). unfold index in Hk.
  destruct (lookup_lt_is_Some_2 os (Z.to_nat k)) as [m Hm]; [lia|].
  assert (m ∈ mem h) as Hin.
  { apply members_elem. exists (Z.to_nat k). split; [|done]. rewrite get_lookup; [by rewrite Hkh|]. rewrite (nu_length _ _ _ Hnum). lia. }
  intros He. rewrite He in Hin. by apply elem_of_nil in Hin.
Qed.

Lemma mem_disjoint h h' m m' : h <> h' -> m ∈ mem h -> m' ∈ mem h' -> bdisj (cs m) (cs m').
Proof.
  intros Hne (k & Hk & Hm)%members_elem (k' & Hk' & Hm')%members_elem.
  apply (ar_separate _ _ Har k k'); [congruence|done|done].
Qed.

Lemma group_disjoint h h' G G' : h <> h' -> group_of D (mem h) G -> group_of D (mem h') G' -> bdisj (cs G) (cs G').
Proof.
  intros Hne HG HG' i Hi Hb Hb'. apply (go_union _ _ _ HG) in Hb as (m & Hm & Hb); [|done].
  apply (go_union _ _ _ HG') in Hb' as (m' & Hm' & Hb'); [|done]. by apply (mem_disjoint h h' m m' Hne Hm Hm' i).
Qed.

(** What lies in an object lies in its group and beside the others. *)
Lemma inside_group h G k x o : group_of D (mem h) G -> os !! k = Some x -> ids !! k = Some h -> bsub (cs o) (cs x) ->
  bsub (cs o) (cs G).
Proof.
  intros HG Hx Hk Hsub i Hi Hb. apply (go_union _ _ _ HG); [done|]. exists x. split; [|auto]. apply members_elem. by exists k.
Qed.

Lemma outside_group h G k x o : group_of D (mem h) G -> os !! k = Some x -> ids !! k <> Some h -> bsub (cs o) (cs x) ->
  bdisj (cs o) (cs G).
Proof.
  intros HG Hx Hk Hsub i Hi Hb Hb'. apply (go_union _ _ _ HG) in Hb' as (m & (k' & Hk' & Hm)%members_elem & Hb'); [|done].
  apply (ar_separate _ _ Har k k' x m) with i; auto. congruence.
Qed.

Lemma around_group h G o : group_of D (mem h) G -> (forall x, x ∈ os -> bsub (cs x) (cs o)) -> bsub (cs G) (cs o).
Proof.
  intros HG Hall i Hi Hb. apply (go_union _ _ _ HG) in Hb as (m & Hm & Hb); [|done]. by apply (Hall m); [eapply mem_objs|..].
Qed.

Lemma beside_group h G o : group_of D (mem h) G -> (forall x, x ∈ os -> bdisj (cs o) (cs x)) -> bdisj (cs o) (cs G).
Proof.
  intros HG Hall i Hi Hb Hb'. apply (go_union _ _ _ HG) in Hb' as (m & Hm & Hb'); [|done].
  by apply (Hall m (mem_objs _ _ Hm) i).
Qed.

(** The new groups lie well in the former hierarchy. *)
Lemma group_aligned h G o : group_of D (mem h) G -> aligned os o ->
  setless o \/ bsub (cs o) (cs G) \/ bsub (cs G) (cs o) \/ bdisj (cs o) (cs G).
Proof.
  intros HG [Hs|[(x & Hx & Hsub)|[Hall|Hall]]]; [by left|right..].
  - apply list_elem_of_lookup in Hx as [k Hk].
    destruct (decide (ids !! k = Some h)); [left; by eapply inside_group|right; right; by eapply outside_group].
  - right; left. by eapply around_group.
  - right; right. by eapply beside_group.
Qed.

Lemma group_key h G o : group_of D (mem h) G -> below_depth D o -> obj_key G <> obj_key o.
Proof.
  intros HG Hd Heq. unfold obj_key in Heq. rewrite (go_type _ _ _ HG), (go_attr _ _ _ HG) in Heq.
  injection Heq as Ht Ha _. apply type_order_inj in Ht. cbn in Ha. specialize (Hd (eq_sym Ht)). rewrite <- Ht in Ha.
  cbn in Ha. lia.
Qed.

Lemma group_below_top h G g : ready g -> (forall m, m ∈ os -> m ∈ g_objs g /\ obj_ok m) -> group_of D (mem h) G ->
  bsub (cs G) (cs (g_top g)).
Proof.
  intros Hr Hos HG i Hi Hb. apply (go_union _ _ _ HG) in Hb as (m & Hm & Hb); [|done].
  destruct (Hos m (mem_objs _ _ Hm)) as [Hin Hok]. destruct (g_below g m Hr Hin) as [Hs|[_ Hsub]]; [|auto].
  by apply ok_not_setless in Hok.
Qed.

(** The loop that creates the groups from number [i + 1] on. *)
Lemma create_groups_ok k : forall i g news, 0 <= i -> i + Z.of_nat k <= nb ->
  ready g -> g_depth g = D -> cs (g_top g) = cs (g_top g0) -> g_objs g ≡ₚ news ++ g_objs g0 ->
  Forall (fun G => exists h, h <= i /\ group_of D (mem h) G) news ->
  exists Gs sizes g', create_groups k i ids (map o_addr os) g = Some (map o_addr Gs, sizes, g') /\
    length Gs = k /\ length sizes = k /\ ready g' /\ g_depth g' = D /\ cs (g_top g') = cs (g_top g0) /\
    g_objs g' ≡ₚ Gs ++ g_objs g /\
    forall j G, Gs !! j = Some G -> group_of D (mem (i + 1 + Z.of_nat j)) G.
Proof.
  induction k as [|k IH]; intros i g news Hi Hk Hr Hd Htop Hobjs Hnews; cbn [create_groups].
  { exists [], [], g. by split_and!. }
  assert (forall o, o ∈ g_objs g <-> o ∈ news \/ o ∈ g_objs g0) as Helem by (intros o; by rewrite Hobjs, elem_of_app).
  assert (forall m, m ∈ os -> m ∈ g_objs g /\ obj_ok m) as Hos.
  { intros m Hm. pose proof (ar_objs _ _ Har) as Ho. rewrite Forall_forall in Ho. destruct (Ho m Hm) as [? ?].
    split; [apply Helem; by right|done]. }
  destruct (assemble_ok g (mem (i + 1)) Hr) as (G & HG & Hgo & Hga); [apply mem_nonempty; lia| |].
  { apply Forall_forall. intros m Hm. apply Hos. by eapply mem_objs. }
  rewrite members_map, HG. cbn [mbind option_bind]. rewrite Hd in Hgo.
  destruct (insert_free g G Hr) as (g1 & Hins & Hr1 & Hd1 & Htop1 & Hobjs1); try apply Hgo; [done|by eapply group_below_top| |].
  { apply Forall_forall. intros o Ho. destruct (g_below g o Hr Ho) as [Hs|[Hok _]].
    { unfold no_conflict. by rewrite cmp_setless. }
    apply no_conflict_sets; [apply Hgo|done|]. apply Helem in Ho as [Ho|Ho].
    - rewrite Forall_forall in Hnews. destruct (Hnews o Ho) as (h & Hh & Hgo'). left.
      apply (group_disjoint (i + 1) h); [lia|done|done].
    - pose proof (ar_aligned _ _ Har) as Hal. pose proof (ar_depth _ _ Har) as Hdp. rewrite Forall_forall in Hal, Hdp.
      pose proof (group_key _ _ _ Hgo (Hdp o Ho)) as Hkey.
      destruct (group_aligned _ _ _ Hgo (Hal o Ho)) as [Hs|[?|[?|?]]]; [by apply ok_not_setless in Hok|auto|auto|].
      left. by symmetry. }
  rewrite Hins. cbn [mbind option_bind].
  destruct (IH (i + 1) g1 (G :: news)) as (Gs & sizes & g' & Hcr & Hl & Hls & Hr' & Hd' & Htop' & Hobjs' & HGs);
    [lia|lia|done|congruence|congruence|by rewrite Hobjs1, Hobjs| |].
  { constructor; [by exists (i + 1)|]. eapply Forall_impl; [exact Hnews|]. intros G' (h & Hh & ?). exists h. split; [lia|done]. }
  rewrite Hcr. cbn [mbind option_bind]. exists (G :: Gs), (Z.of_nat (length (map o_addr (mem (i + 1)))) :: sizes), g'.
  split; [done|]. cbn [length]. split_and!; try done; try lia.
  - rewrite Hobjs', Hobjs1. by rewrite <- Permutation_middle.
  - intros [|j] G' HG'; cbn in HG'; [injection HG' as <-; by rewrite Z.add_0_r|].
    replace (i + 1 + Z.of_nat (S j)) with (i + 1 + 1 + Z.of_nat j) by lia. by apply HGs.
Qed.

(** Groups can be grouped in turn. *)
Lemma groups_arranged g Gs next : ready g -> length Gs = Z.to_nat nb -> g_objs g ≡ₚ Gs ++ g_objs g0 ->
  (forall j G, Gs !! j = Some G -> group_of D (mem (1 + Z.of_nat j)) G) ->
  arranged (mk_grouping (g_root g) (D + 1) next) Gs.
Proof.
  intros Hr Hl Hobjs HGs. assert (forall G, G ∈ Gs -> exists h, group_of D (mem h) G) as HG.
  { intros G (j & Hj)%list_elem_of_lookup. eexists. by apply HGs. }
  pose proof (ar_aligned _ _ Har) as Hal. pose proof (ar_depth _ _ Har) as Hdp. rewrite Forall_forall in Hal, Hdp.
  assert (forall o, o ∈ g_objs g <-> o ∈ Gs \/ o ∈ g_objs g0) as Helem by (intros o; by rewrite Hobjs, elem_of_app).
  split; unfold g_objs in *; cbn [g_root g_depth].
  - apply Forall_forall. intros G Hin. split; [apply Helem; by left|]. destruct (HG G Hin) as [h Hgo]. apply Hgo.
  - intros i j x y Hne Hx Hy. apply (group_disjoint (1 + Z.of_nat i) (1 + Z.of_nat j)); [lia|auto|auto].
  - apply Forall_forall. intros o Ho. apply Helem in Ho as [Ho|Ho]; [right; left; by exists o|].
    destruct (Hal o Ho) as [Hs|[(x & Hx & Hsub)|[Hall|Hall]]]; [by left| |right; right; left|right; right; right].
    + apply list_elem_of_lookup in Hx as [k Hk]. assert (k < length ids)%nat as Hlt
        by (rewrite (nu_length _ _ _ Hnum); by eapply lookup_lt_Some).
      destruct (lookup_lt_is_Some_2 ids k Hlt) as [h Hh].
      destruct (decide (1 <= h <= nb)) as [Hin|Hout].
      * destruct (lookup_lt_is_Some_2 Gs (Z.to_nat (h - 1))) as [G HGk]; [lia|]. right; left. exists G.
        split; [by eapply list_elem_of_lookup_2|]. apply (inside_group h G k x o); [|done|done|done].
        replace h with (1 + Z.of_nat (Z.to_nat (h - 1))) by lia. by apply HGs.
      * right; right; right. intros G (j & Hj)%list_elem_of_lookup. eapply outside_group; [by apply HGs|exact Hk| |done].
        rewrite Hh. intros [= ->]. apply lookup_lt_Some in Hj. lia.
    + intros G Hin. destruct (HG G Hin) as [h Hgo]. by eapply around_group.
    + intros G Hin. destruct (HG G Hin) as [h Hgo]. by eapply beside_group.
  - apply Forall_forall. intros o Ho Ht. apply Helem in Ho as [Ho|Ho].
    + destruct (HG o Ho) as [h Hgo]. rewrite (go_attr _ _ _ Hgo). cbn. lia.
    + specialize (Hdp o Ho Ht). lia.
Qed.

End Create.
(** ** The recursion *)

(** Members of [c] are members of one of the objects. *)
Definition within (os : list (hwloc_obj B)) (c : B) : Prop :=
  forall i, 0 <= i -> bm c i = true -> exists x, x ∈ os /\ bm (cs x) i = true.

(** A group of depth [lo .. hi - 1]. *)
Definition new_group (lo hi : Z) (os : list (hwloc_obj B)) G : Prop :=
  o_type G = HWLOC_OBJ_GROUP /\ obj_ok G /\ within os (cs G) /\ exists d, attr G = AttrGroup d /\ lo <= d < hi.

Lemma new_group_mono lo lo' hi hi' os os' G : lo' <= lo -> hi <= hi' -> (forall x, x ∈ os -> within os' (cs x)) ->
  new_group lo hi os G -> new_group lo' hi' os' G.
Proof.
  intros Hlo Hhi Hos (Ht & Hok & Hw & d & Hd & Hr). split_and!; [done|done| |exists d; split; [done|lia]].
  intros i Hi Hb. destruct (Hw i Hi Hb) as (x & Hx & Hbx). by apply (Hos x Hx).
Qed.

Lemma within_self os (x : hwloc_obj B) : x ∈ os -> within os (cs x).
Proof. intros Hx i Hi Hb. by exists x. Qed.

(** What grouping makes of [g]. *)
Record grouped g (os : list (hwloc_obj B)) (n : nat) g' : Prop := {
  gd_ready : ready g';
  gd_top : cs (g_top g') = cs (g_top g);
  gd_objs : exists new, g_objs g' ≡ₚ new ++ g_objs g /\ Forall (new_group (g_depth g) (g_depth g') os) new;
  gd_depth : g_depth g <= g_depth g' <= g_depth g + Z.of_nat n;
  gd_below : Forall (below_depth (g_depth g')) (g_objs g');
}.

Lemma grouped_refl g os n : ready g -> Forall (below_depth (g_depth g)) (g_objs g) -> grouped g os n g.
Proof. intros Hr Hb. split; [done|done|by exists []|lia|done]. Qed.

Lemma groups_by_distances_ok fuel : forall g os dist accuracies needcheck,
  (1 <= fuel)%nat -> (length os <= fuel)%nat -> Z.of_nat (length os) < 2 ^ 16 -> (length os * length os <= length dist)%nat ->
  ready g -> arranged g os -> 0 <= g_depth g -> g_depth g + Z.of_nat (length os) < 2 ^ 32 ->
  exists g', hwloc__groups_by_distances fuel g (Z.of_nat (length os)) (map o_addr os) dist accuracies needcheck = Some g' /\
    grouped g os (length os) g'.
Proof.
  induction fuel as [|fuel IH]; intros g os dist accuracies needcheck Hf Hle Hn Hlen Hr Har Hd0 Hd; [lia|].
  cbn [hwloc__groups_by_distances]. pose proof (ar_depth _ _ Har) as Hdp.
  assert (grouped g os (length os) g) as Hsame by (by apply grouped_refl).
  destruct (Z.of_nat (length os) <=? 2); [by exists g|].
  destruct (try_accuracies_ok (length os) dist Hn Hlen needcheck [] accuracies) as ([nb ids] & -> & Hnum). cbn [mbind option_bind].
  destruct (Z.eqb_spec nb 0) as [Hz|Hz]; [by exists g|]. destruct Hnum as [|Hnum]; [done|].
  pose proof (nu_number _ _ _ Hnum) as [Hnb1 Hnb2].
  destruct (create_groups_ok g os ids nb Har Hnum (Z.to_nat nb) 0 g []) as
    (Gs & sizes & g1 & -> & HlG & Hls & Hr1 & Hd1 & Htop1 & Hobjs1 & HGs); [lia|lia|done|done|done|done|done|].
  cbn [mbind option_bind].
  destruct (sum_distances_ok (length os) dist Hn Hlen nb ids Hnum) as (sums & -> & Hsums). cbn [mbind option_bind].
  destruct (mean_distances_ok (length os) dist Hn Hlen nb ids Hnum sizes sums Hls Hsums) as (means & -> & Hmeans). cbn [mbind option_bind].
  rewrite u32_small, Hd1 by lia. set (g2 := mk_grouping (g_root g1) (g_depth g + 1) (g_next g1)).
  assert (arranged g2 Gs) as Har2 by (by apply (groups_arranged g os ids nb)).
  assert (ready g2) as Hr2 by (destruct Hr1; by split).
  destruct (IH g2 Gs means accuracies false) as (g' & Hg' & [Hr' Htop' (new & Hobjs' & Hnew) Hdep Hbel]); try done; try lia.
  { cbn [g_depth g2]. lia. }
  { cbn [g_depth g2]. lia. }
  replace nb with (Z.of_nat (length Gs)) by lia. exists g'. split; [exact Hg'|]. split; [done| | | |done].
  - rewrite Htop'. exact Htop1.
  - exists (new ++ Gs). split; [rewrite Hobjs'; unfold g2, g_objs in *; cbn [g_root]; by rewrite Hobjs1, app_assoc|].
    cbn [g_depth g2] in Hdep, Hnew.
    assert (Forall (new_group (g_depth g) (g_depth g') os) Gs) as HGn.
    { apply Forall_forall. intros G (j & Hj)%list_elem_of_lookup. pose proof (HGs j G Hj) as Hgo.
      split_and!; [apply Hgo|apply Hgo| |exists (g_depth g); split; [apply Hgo|lia]].
      intros i Hi Hb. apply (go_union _ _ _ Hgo) in Hb as (m & Hm & Hb); [|done].
      exists m. split; [by eapply mem_objs|done]. }
    apply Forall_app. split; [|done]. eapply Forall_impl; [exact Hnew|]. intros G. apply new_group_mono; [lia|lia|].
    intros G' HG'. rewrite Forall_forall in HGn. by destruct (HGn G' HG') as (_ & _ & Hw' & _).
  - cbn [g_depth g2] in Hdep. lia.
Qed.

(** ** A matrix *)

Lemma group_matrix_ok g accuracies d os : od_objs d = Some (map o_addr os) -> od_nbobjs d = Z.of_nat (length os) ->
  os <> [] -> Z.of_nat (length os) < 2 ^ 16 -> (length os * length os <= length (od_distances d))%nat ->
  ready g -> arranged g os -> 0 <= g_depth g -> g_depth g + Z.of_nat (length os) + 1 < 2 ^ 32 ->
  exists g', group_matrix_objects g accuracies d = Some g' /\ grouped g os (S (length os)) g'.
Proof.
  intros Hobjs Hnb Hne Hn Hlen Hr Har Hd0 Hd. assert (1 <= length os)%nat as Hpos by (destruct os; [done|simpl; lia]).
  unfold group_matrix_objects. rewrite Hobjs, Hnb, (proj2 (Z.eqb_neq _ _)), Nat2Z.id by lia.
  destruct (groups_by_distances_ok (length os) g os (od_distances d) accuracies true) as (g1 & -> & Hg1); try done; try lia.
  destruct Hg1 as [Hr1 Htop1 (new & Hobjs1 & Hnew) Hdep Hbel]. cbn [mbind option_bind].
  assert (forall o, o ∈ g_objs g1 <-> o ∈ new \/ o ∈ g_objs g) as Helem by (intros o; by rewrite Hobjs1, elem_of_app).
  pose proof (ar_objs _ _ Har) as Hos. rewrite Forall_forall in Hos.
  rewrite take_ge by (rewrite length_map; lia).
  destruct (assemble_ok g1 os Hr1 Hne) as (G & -> & Hgo & Hga).
  { apply Forall_forall. intros m Hm. destruct (Hos m Hm). split; [apply Helem; by right|done]. }
  cbn [mbind option_bind]. rewrite u32_small by lia. set (g2 := mk_grouping (g_root g1) (g_depth g1 + 1) (g_next g1)).
  assert (ready g2) as Hr2 by (destruct Hr1; by split).
  destruct (insert_free g2 G Hr2) as (g' & Hins & Hr' & Hd' & Htop' & Hobjs'); try apply Hgo; [done| | |].
  - intros i Hi Hb. apply (go_union _ _ _ Hgo) in Hb as (m & Hm & Hb); [|done]. destruct (Hos m Hm) as [Hin Hok].
    change (g_top g2) with (g_top g1). rewrite Htop1. destruct (g_below g m Hr Hin) as [Hs|[_ Hsub]]; [|auto].
    by apply ok_not_setless in Hok.
  - change (g_objs g2) with (g_objs g1). apply Forall_forall. intros o Ho.
    destruct (g_below g1 o Hr1 Ho) as [Hs|[Hok _]]; [unfold no_conflict; by rewrite cmp_setless|].
    rewrite Forall_forall in Hbel. assert (obj_key G <> obj_key o) as Hkey.
    { intros Heq. unfold obj_key in Heq. rewrite (go_type _ _ _ Hgo), (go_attr _ _ _ Hgo) in Heq. injection Heq as Ht Ha _.
      apply type_order_inj in Ht. specialize (Hbel o Ho (eq_sym Ht)). rewrite <- Ht in Ha. cbn in Ha. lia. }
    apply no_conflict_sets; [apply Hgo|done|]. apply Helem in Ho as [Ho|Ho].
    + rewrite Forall_forall in Hnew. destruct (Hnew o Ho) as (_ & _ & Hw & _). right. split; [done|]. right. intros i Hi Hb.
      apply (go_union _ _ _ Hgo); auto.
    + pose proof (ar_aligned _ _ Har) as Hal. rewrite Forall_forall in Hal.
      destruct (Hal o Ho) as [Hs|[(x & Hx & Hsub)|[Hall|Hall]]].
      * by apply ok_not_setless in Hok.
      * right. split; [done|]. right. intros i Hi Hb. apply (go_union _ _ _ Hgo); [done|]. exists x. auto.
      * right. split; [done|]. left. intros i Hi Hb. apply (go_union _ _ _ Hgo) in Hb as (m & Hm & Hb); [|done].
        by apply (Hall m).
      * left. intros i Hi Hb Hb'. apply (go_union _ _ _ Hgo) in Hb as (m & Hm & Hb); [|done]. by apply (Hall m Hm i).
  - exists g'. split; [exact Hins|]. cbn [g_depth g2] in Hd'. split; [done|by rewrite Htop'| |lia|].
    + exists (G :: new). split; [rewrite Hobjs'; by change (g_objs g2) with (g_objs g1); rewrite Hobjs1|].
      constructor.
      * split_and!; [apply Hgo|apply Hgo| |exists (g_depth g1); split; [apply Hgo|lia]]. intros i Hi Hb. by apply (go_union _ _ _ Hgo) in Hb.
      * eapply Forall_impl; [exact Hnew|]. intros G'. apply new_group_mono; [lia|lia|by apply within_self].
    + rewrite Hd', Hobjs'. change (g_objs g2) with (g_objs g1). constructor.
      * intros _. rewrite (go_attr _ _ _ Hgo). cbn. lia.
      * eapply Forall_impl; [exact Hbel|]. intros o Ho Ht. specialize (Ho Ht). lia.
Qed.

End GroupRec.
