(* ===== verification/Latency.v ===== *)
(** * Latency: matrices attached to the objects of a topology ([src/distances.c])

    [hwloc_distances_finalize_logical]: each matrix whose objects are known is put in
    logical order, normalised by its minimum and stored in the lowest object that
    covers its objects.  Its memory comes from [malloc] uninitialised; a write out of
    it is undefined.  Failures of [malloc] are not modelled, and the message of
    [hwloc_distances__finalize_logical] is for a NULL that the search never returns. *)

From stdpp Require Import gmap.
From S2P Require Import Prelude Misc Bitmap Cpuset Obj ObjCmp Insert CleanOk Levels LevelsOk Connected Traversal Loaded Helper HelperOk Float Distances Grouping GroupsOk.

Section Latency.
Context {B : Type} `{CpusetOps B} `{Malloc}.
Implicit Types topo : topology B.

Definition covers_both (cpuset nodeset : B) (o : hwloc_obj B) : bool :=
  match ocpuset o with
  | Some c => b_isincluded cpuset c && match onodeset o with Some n => b_isincluded nodeset n | None => true end
  | None => false
  end.

(** [goto trychildren] *)
Fixpoint trychildren topo (fuel : nat) (cpuset nodeset : B) (parent : Z) : option Z :=
  match fuel with
  | O => None
  | S fuel =>
      let! k := links_at topo parent in
      let! child := find_child topo (covers_both cpuset nodeset) (children k) in
      match child with
      | Some c => trychildren topo fuel cpuset nodeset c
      | None => Some parent
      end
  end.

Definition hwloc_get_obj_covering_cpuset_nodeset topo (cpuset nodeset : B) : option Z :=
  let! r := hwloc_get_root_obj topo in
  let! r := r in
  let! o := obj_at topo r in
  let! c := ocpuset o in
  let! n := onodeset o in
  require! b_isincluded cpuset c && b_isincluded nodeset n in      (* assert *)
  trychildren topo (walk_fuel topo) cpuset nodeset r.

(** The union of the cpusets and that of the nodesets. *)
Definition union_sets topo (objs : list Z) : option (B * B) :=
  foldl (fun sets a =>
    let! (cpuset, nodeset) := sets in
    let! o := obj_at topo a in
    let! c := ocpuset o in
    Some (b_or cpuset c, match onodeset o with Some n => b_or nodeset n | None => nodeset end))
    (Some (b_alloc, b_alloc)) objs.

(** The logical indexes of the objects. *)
Fixpoint logical_indexes topo (objs : list Z) : option (list Z) :=
  match objs with
  | [] => Some []
  | a :: objs => let! k := links_at topo a in let! l := logical_indexes topo objs in Some (logical_index k :: l)
  end.

Definition smallest_index (indexes : list Z) : Z :=
  foldl (fun minl x => if x <? minl then x else minl) UINT_MAX indexes.

(** The loop that computes [min] and [max]. *)
Definition extreme_values (nbobjs : Z) (osmatrix : list Z) : option (Z * Z) :=
  for_from (turns nbobjs) 0 (fun i mm => for_from (turns nbobjs) 0 (fun j '(min, max) =>
    let! val := DISTANCE nbobjs osmatrix i j in
    Some (if f_lt val min then val else min, if f_lt max val then val else max)) mm) (FLT_MAX, FLT_MIN).

(** [matrix[li*nbobjs+lj] = v] *)
Definition write_cell (nbobjs li lj v : Z) (matrix : list Z) : option (list Z) :=
  let pos := Z.to_nat (u32 (li * nbobjs + lj)) in
  require! (pos <? length matrix)%nat in Some (<[pos := v]> matrix).

(** The loop that fills the matrix; [logical] are the [li]. *)
Definition fill_matrix (nbobjs min : Z) (logical osmatrix matrix : list Z) : option (list Z) :=
  for_from (turns nbobjs) 0 (fun i matrix =>
    let! li := logical !! Z.to_nat i in
    let! d := DISTANCE nbobjs osmatrix i i in
    let! matrix := write_cell nbobjs li li (f_div d min) matrix in
    for_from (Z.to_nat (nbobjs - 1 - i)) (i + 1) (fun j matrix =>
      let! lj := logical !! Z.to_nat j in
      let! d := DISTANCE nbobjs osmatrix i j in
      let! matrix := write_cell nbobjs li lj (f_div d min) matrix in
      let! d := DISTANCE nbobjs osmatrix j i in
      write_cell nbobjs lj li (f_div d min) matrix) matrix) matrix.

(** One more matrix in the object at [a]. *)
Definition add_distances topo (a : Z) (d : hwloc_distances_s) : option (topology B) :=
  let! o := obj_at topo a in
  Some (mk_topology (<[a := with_distances o (distances o ++ [Some d])]> (objects topo)) (tlinks topo) (tlevels topo)
    (ttype_depth topo) (tbridge_level topo) (tpcidev_level topo) (tosdev_level topo)).

Definition hwloc_distances__finalize_logical topo (nbobjs : Z) (objs osmatrix : list Z) : option (topology B) :=
  let objs := take (turns nbobjs) objs in
  let! (cpuset, nodeset) := union_sets topo objs in
  let! root := hwloc_get_obj_covering_cpuset_nodeset topo cpuset nodeset in
  let! ro := obj_at topo root in
  let! c := ocpuset ro in
  let! n := onodeset ro in
  require! b_isincluded cpuset c && b_isincluded nodeset n in      (* asserts *)
  let! rk := links_at topo root in
  let! first := head objs in
  let! fk := links_at topo first in
  if depth fk <=? depth rk then Some topo else
  let relative_depth := depth fk - depth rk in
  let! indexes := logical_indexes topo objs in
  let minl := smallest_index indexes in
  let! (min, max) := extreme_values nbobjs osmatrix in
  if negb (f_nonzero min) then Some topo else
  let size := u32 (nbobjs * nbobjs) in
  let matrix := map (fresh_word size) (seqZ 0 size) in
  let! matrix := fill_matrix nbobjs min (map (fun x => u32 (x - minl)) indexes) osmatrix matrix in
  add_distances topo root (mk_distances relative_depth nbobjs matrix (f_div max min) min).

Definition hwloc_distances_finalize_logical topo (l : list osdist) : option (topology B) :=
  foldl (fun acc d =>
    let! topo := acc in
    if od_nbobjs d =? 0 then Some topo else
    let depth := hwloc_get_type_depth topo (od_type d) in
    if (depth =? HWLOC_TYPE_DEPTH_UNKNOWN) || (depth =? HWLOC_TYPE_DEPTH_MULTIPLE) then Some topo else
    match od_objs d with
    | None => Some topo
    | Some objs => hwloc_distances__finalize_logical topo (od_nbobjs d) objs (od_distances d)
    end) (Some topo) l.

(** [hwloc_clear_object_distances] *)
Definition hwloc_clear_object_distances (o : hwloc_obj B) : hwloc_obj B := with_distances o [].

End Latency.

(** ** Filling a matrix *)

Section Fill.
Context (n : nat) (os logical : list Z) (min : Z).
Context (Hn : Z.of_nat n < 2 ^ 16) (Hos : (n * n <= length os)%nat) (Hlen : length logical = n).
Local Abbreviation N := (Z.of_nat n).
Local Abbreviation li := (get logical).
Local Abbreviation index := (index n).

(** The logical indexes are those of a matrix, each once. *)
Context (Hin : forall i, index i -> index (li i)) (Hinj : forall i j, index i -> index j -> li i = li j -> i = j).

Definition cell (matrix : list Z) (a b : Z) : Z := get matrix (a * N + b).

Lemma logical_lookup i : index i -> logical !! Z.to_nat i = Some (li i).
Proof. intros Hi. apply get_lookup. unfold GroupsOk.index in Hi. lia. Qed.

Lemma write_cell_ok a b v matrix : index a -> index b -> length matrix = (n * n)%nat ->
  exists matrix', write_cell N a b v matrix = Some matrix' /\ length matrix' = (n * n)%nat /\
    forall c d, index c -> index d -> cell matrix' c d = if (c =? a) && (d =? b) then v else cell matrix c d.
Proof.
  unfold GroupsOk.index. intros Ha Hb Hl. unfold write_cell. rewrite u32_small by nia.
  destruct (Nat.ltb_spec (Z.to_nat (a * N + b)) (length matrix)) as [_|Hge]; [|nia].
  eexists. split; [done|]. rewrite length_insert. split; [done|]. intros c d Hc Hd. unfold cell.
  rewrite get_insert by nia. destruct (Z.eqb_spec c a) as [->|Hne]; cbn [andb].
  - destruct (Z.eqb_spec d b) as [->|Hne]; [by rewrite Z.eqb_refl|]. by rewrite (proj2 (Z.eqb_neq _ _)) by lia.
  - rewrite (proj2 (Z.eqb_neq _ _)); [done|]. nia.
Qed.

Lemma li_eqb i j : index i -> index j -> (li i =? li j) = (i =? j).
Proof.
  intros Hi Hj. destruct (Z.eqb_spec i j) as [->|Hne]; [apply Z.eqb_refl|]. apply Z.eqb_neq. auto.
Qed.

(** The cells of the lines and columns before [i], and those of the first [j] cells of
    line and column [i]. *)
Definition filled (i j : Z) (matrix : list Z) : Prop := length matrix = (n * n)%nat /\
  forall a b, index a -> index b -> a < i \/ b < i \/ (a = i /\ b < j) \/ (b = i /\ a < j) ->
    cell matrix (li a) (li b) = f_div (distance n os a b) min.

Lemma filled_write i j a b matrix : filled i j matrix -> index a -> index b ->
  exists matrix', write_cell N (li a) (li b) (f_div (distance n os a b) min) matrix = Some matrix' /\ filled i j matrix' /\
    cell matrix' (li a) (li b) = f_div (distance n os a b) min /\
    (forall c d, index c -> index d -> ~ (c = a /\ d = b) -> cell matrix' (li c) (li d) = cell matrix (li c) (li d)).
Proof.
  intros [Hl Hc] Ha Hb. destruct (write_cell_ok (li a) (li b) (f_div (distance n os a b) min) matrix) as (m' & -> & Hl' & Hc');
    [auto..|done|]. exists m'.
  assert (forall c d, index c -> index d -> cell m' (li c) (li d) =
    if (c =? a) && (d =? b) then f_div (distance n os a b) min else cell matrix (li c) (li d)) as Hcell.
  { intros c d Hic Hid. rewrite Hc' by auto. by rewrite !li_eqb. }
  split; [done|]. split; [split; [done|]|split].
  - intros c d Hic Hid Hcd. rewrite Hcell by done.
    destruct (Z.eqb_spec c a) as [->|]; [destruct (Z.eqb_spec d b) as [->|]|]; cbn [andb]; auto.
  - rewrite Hcell, !Z.eqb_refl by done. done.
  - intros c d Hic Hid Hne. rewrite Hcell by done.
    destruct (Z.eqb_spec c a) as [->|]; [destruct (Z.eqb_spec d b) as [->|]|]; cbn [andb]; try done. by destruct Hne.
Qed.

Lemma fill_matrix_ok matrix : length matrix = (n * n)%nat ->
  returns (fill_matrix N min logical os matrix) (filled N 0).
Proof.
  intros Hl. unfold fill_matrix. eapply returns_mono; [apply (for_from_inv (fun i => filled i 0))|].
  - split; [done|]. unfold GroupsOk.index. intros a b Ha Hb. lia.
  - intros i m Hi Hm. assert (index i) as Hii by (unfold GroupsOk.index, turns in *; lia).
    rewrite logical_lookup by done. cbn [mbind option_bind]. rewrite DISTANCE_ok by done. cbn [mbind option_bind].
    destruct (filled_write i 0 i i m Hm Hii Hii) as (m1 & -> & Hm1 & Hd1 & _). cbn [mbind option_bind].
    eapply returns_mono; [apply (for_from_inv (fun j m => filled i 0 m /\
      forall k, index k -> i <= k < j -> cell m (li i) (li k) = f_div (distance n os i k) min /\
        cell m (li k) (li i) = f_div (distance n os k i) min))|].
    + split; [done|]. intros k Hk Hle. by replace k with i by lia.
    + intros j m2 Hj [Hm2 Hrow]. assert (index j) as Hij by (unfold GroupsOk.index, turns in *; lia).
      rewrite logical_lookup by done. cbn [mbind option_bind]. rewrite !DISTANCE_ok by done. cbn [mbind option_bind].
      destruct (filled_write i 0 i j m2 Hm2 Hii Hij) as (m3 & -> & Hm3 & Hd3 & Hk3). cbn [mbind option_bind].
      destruct (filled_write i 0 j i m3 Hm3 Hij Hii) as (m4 & -> & Hm4 & Hd4 & Hk4).
      apply returns_ret. split; [done|]. intros k Hk Hle. destruct (Z.eq_dec k j) as [->|Hne].
      * split; [|done]. rewrite Hk4; [done|done|done|lia].
      * destruct (Hrow k Hk ltac:(lia)) as [H1 H2]. rewrite Hk4, Hk4, Hk3, Hk3 by (done || lia). done.
    + intros m2 [Hm2 Hrow]. destruct Hm2 as [Hl2 Hc2]. split; [done|]. intros a b Ha Hb Hab.
      unfold GroupsOk.index, turns in *.
      destruct (Z.eq_dec a i) as [->|Ha']; [destruct (Z.lt_ge_cases b i); [apply Hc2; lia|apply Hrow; lia]|].
      destruct (Z.eq_dec b i) as [->|Hb']; [destruct (Z.lt_ge_cases a i); [apply Hc2; lia|apply Hrow; lia]|].
      apply Hc2; lia.
  - intros m Hm. unfold turns in Hm. by rewrite Nat2Z.id in Hm.
Qed.

End Fill.

(** ** The values *)

Section Extremes.
Context (n : nat) (os : list Z) (Hn : Z.of_nat n < 2 ^ 16) (Hos : (n * n <= length os)%nat).
Local Abbreviation N := (Z.of_nat n).

(** [min] is one of the values, none is below. *)
Definition least (min : Z) : Prop :=
  (forall i j, index n i -> index n j -> f_lt (distance n os i j) min = false) /\
  (min = FLT_MAX \/ exists i j, index n i /\ index n j /\ distance n os i j = min).

(** After the first lines and the first columns of line [i]. *)
Definition least_upto (i j : Z) (mm : Z * Z) : Prop :=
  (forall a b, index n a -> index n b -> a < i \/ (a = i /\ b < j) -> f_lt (distance n os a b) mm.1 = false) /\
  (mm.1 = FLT_MAX \/ exists a b, index n a /\ index n b /\ distance n os a b = mm.1).

Lemma extreme_values_ok : returns (extreme_values N os) (fun mm => least mm.1).
Proof.
  unfold extreme_values. eapply returns_mono; [apply (for_from_inv (fun i => least_upto i 0))|].
  - split; [|by left]. unfold index. intros a b Ha Hb. lia.
  - intros i mm Hi Hmm. assert (index n i) as Hii by (unfold index, turns in *; lia).
    eapply returns_mono; [apply (for_from_inv (fun j => least_upto i j)); [done|]|].
    + intros j [min max] Hj [Hlt Hat]. cbn [fst] in *. assert (index n j) as Hij by (unfold index, turns in *; lia).
      rewrite DISTANCE_ok by done. cbn [mbind option_bind]. apply returns_ret. unfold least_upto. cbn [fst].
      destruct (f_lt (distance n os i j) min) eqn:Hd.
      * split; [|right; by exists i, j]. intros a b Ha Hb Hab.
        destruct (decide (a = i /\ b = j)) as [[-> ->]|Hne].
        -- unfold f_lt. rewrite Z.ltb_irrefl. apply andb_false_r.
        -- apply not_true_is_false. intros Hlt'. pose proof (f_lt_trans _ _ _ Hlt' Hd) as Hf.
           rewrite Hlt in Hf; [done|done|done|lia].
      * split; [|done]. intros a b Ha Hb Hab. destruct (decide (a = i /\ b = j)) as [[-> ->]|Hne]; [done|].
        apply Hlt; [done|done|lia].
    + intros mm' [Hlt Hat]. split; [|done]. intros a b Ha Hb Hab. apply Hlt; [done|done|]. unfold index, turns in *. lia.
  - intros mm [Hlt Hat]. split; [|done]. intros a b Ha Hb. apply Hlt; [done|done|]. unfold index, turns in *. lia.
Qed.
End Extremes.

Lemma smallest_index_ok l x : x ∈ l -> Forall (fun x => 0 <= x < 2 ^ 32) l ->
  smallest_index l ∈ l /\ Forall (fun x => smallest_index l <= x) l.
Proof.
  unfold smallest_index. intros Hx Hl.
  assert (forall l m, Forall (fun x => 0 <= x < 2 ^ 32) l -> let r := foldl (fun minl x => if x <? minl then x else minl) m l in
    (r = m \/ r ∈ l) /\ r <= m /\ Forall (fun x => r <= x) l) as Hfold.
  { clear. intros l. induction l as [|x l IH]; intros m Hl; cbn [foldl]; [split_and!; [by left|lia|done]|].
    apply Forall_cons in Hl as [Hx Hl]. destruct (Z.ltb_spec x m).
    - destruct (IH x Hl) as (Hr & Hle & Hall). split; [|split; [lia|by constructor]]. right.
      destruct Hr as [->|Hr]; [by left|by right].
    - destruct (IH m Hl) as (Hr & Hle & Hall). split; [|split; [lia|constructor; [lia|done]]].
      destruct Hr as [Hr|Hr]; [by left|right; by right]. }
  destruct (Hfold l UINT_MAX Hl) as ([Hr|Hr] & Hle & Hall); [|done].
  split; [|done]. rewrite Forall_forall in Hall, Hl. pose proof (Hall x Hx). pose proof (Hl x Hx).
  unfold UINT_MAX in *. rewrite Hr in *. by replace (2 ^ 32 - 1) with x by lia.
Qed.

(** ** The object that covers *)

Section Cover.
Context {B : Type} `{Cpuset B} `{Malloc} (topo : topology B) (root : obj_tree B).
Context (Hh : hierarchy topo root) (Hdist : distinct (tree_objs root)).

(** Objects with a cpuset have a nodeset. *)
Definition sets_together : Prop := Forall (fun o => is_Some (ocpuset o) -> is_Some (onodeset o)) (tree_objs root).

Definition covering_both (c nd : B) (m : obj_tree B) : Prop :=
  exists c' nd', ocpuset (t_obj m) = Some c' /\ onodeset (t_obj m) = Some nd' /\ bsub c c' /\ bsub nd nd'.

Lemma node_in_objs m : m ∈ tree_nodes root -> t_obj m ∈ tree_objs root.
Proof. apply node_obj_in. Qed.

Lemma covers_both_spec c nd m : sets_together -> m ∈ tree_nodes root -> bfin c = true -> bfin nd = true ->
  covers_both c nd (t_obj m) = true -> covering_both c nd m.
Proof.
  intros Ht Hm Hc Hnd. unfold covers_both, covering_both. unfold sets_together in Ht. rewrite Forall_forall in Ht.
  specialize (Ht _ (node_in_objs m Hm)). destruct (ocpuset (t_obj m)) as [c'|]; [|done].
  destruct Ht as [nd' ->]; [by eexists|]. rewrite andb_true_iff, !b_isincluded_spec by done. intros [? ?]. by exists c', nd'.
Qed.

Lemma trychildren_ok c nd fuel m : sets_together -> bfin c = true -> bfin nd = true -> m ∈ tree_nodes root ->
  covering_both c nd m -> (tree_size m <= fuel)%nat ->
  exists r, trychildren topo fuel c nd (t_addr m) = Some (t_addr r) /\ r ∈ tree_nodes root /\ covering_both c nd r.
Proof.
  intros Ht Hc Hnd. revert m. induction fuel as [|fuel IH]; intros m Hm Hcov Hsz.
  { pose proof (tree_size_pos m). lia. }
  cbn [trychildren]. destruct (node_links topo root Hh m Hm) as (k & -> & Hch & _). cbn [mbind option_bind]. rewrite Hch.
  rewrite (find_child_tree topo root Hh) by (intros; by eapply children_nodes). cbn [mbind option_bind].
  destruct (find _ (t_children m)) as [d|] eqn:Hf; cbn [fmap option_fmap option_map].
  - apply find_some in Hf as [Hd Hcd]. apply list_elem_of_In in Hd. assert (d ∈ tree_nodes root) as Hdn by (by eapply children_nodes).
    apply IH; [done|by apply covers_both_spec|]. pose proof (node_size m d Hd). lia.
  - by exists m.
Qed.

(** The objects at the addresses lie below the root. *)
Definition below_root (a : Z) : Prop := exists o c, o ∈ tree_objs root /\ o_addr o = a /\ ocpuset o = Some c /\
  bfin c = true /\ bsub c (cs (t_obj root)) /\
  match onodeset o, onodeset (t_obj root) with
  | Some nd, Some rn => bfin nd = true /\ bsub nd rn
  | None, Some _ => True
  | _, None => False
  end.

Lemma union_sets_ok objs : Forall below_root objs ->
  exists c nd, union_sets topo objs = Some (c, nd) /\ bfin c = true /\ bfin nd = true /\ bsub c (cs (t_obj root)) /\
    match onodeset (t_obj root) with Some rn => bsub nd rn | None => objs = [] end.
Proof.
  unfold union_sets. assert (forall c0 nd0, bfin c0 = true -> bfin nd0 = true -> bsub c0 (cs (t_obj root)) ->
    match onodeset (t_obj root) with Some rn => bsub nd0 rn | None => True end -> Forall below_root objs ->
    exists c nd, foldl (fun sets a =>
      let! (cpuset, nodeset) := sets in
      let! o := obj_at topo a in
      let! c := ocpuset o in
      Some (b_or cpuset c, match onodeset o with Some n => b_or nodeset n | None => nodeset end))
      (Some (c0, nd0)) objs = Some (c, nd) /\ bfin c = true /\ bfin nd = true /\ bsub c (cs (t_obj root)) /\
      match onodeset (t_obj root) with Some rn => bsub nd rn | None => objs = [] end) as Hfold.
  { induction objs as [|a objs IH]; intros c0 nd0 Hc0 Hnd0 Hs0 Hsn0 Hall; cbn [foldl].
    - exists c0, nd0. split_and!; try done. by destruct (onodeset (t_obj root)).
    - apply Forall_cons in Hall as [(o & c & Ho & <- & Hc & Hf & Hsub & Hnd) Hall].
      rewrite (h_live _ _ Hh o Ho). cbn [mbind option_bind]. rewrite Hc. cbn [mbind option_bind].
      destruct (onodeset (t_obj root)) as [rn|]; [|by destruct (onodeset o)].
      destruct (IH (b_or c0 c) (match onodeset o with Some n => b_or nd0 n | None => nd0 end)) as (c1 & nd1 & Heq & Hrest).
      + by rewrite bfin_or, Hc0.
      + destruct (onodeset o) as [nd|]; [|done]. rewrite bfin_or, Hnd0. by destruct Hnd.
      + intros i Hi. rewrite bm_or by done. intros [?|?]%orb_true_iff; auto.
      + destruct (onodeset o) as [nd|]; [|done]. intros i Hi. rewrite bm_or by done. destruct Hnd. intros [?|?]%orb_true_iff; auto.
      + done.
      + exists c1, nd1. by split. }
  intros Hall. apply Hfold; [apply bfin_alloc..| | |done].
  - intros i Hi. by rewrite bm_alloc.
  - destruct (onodeset (t_obj root)); [|done]. intros i Hi. by rewrite bm_alloc.
Qed.

Lemma covering_ok objs : sets_together -> is_Some (ocpuset (t_obj root)) -> Forall below_root objs -> objs <> [] ->
  exists c nd r, union_sets topo objs = Some (c, nd) /\ bfin c = true /\ bfin nd = true /\
    hwloc_get_obj_covering_cpuset_nodeset topo c nd = Some (t_addr r) /\
    r ∈ tree_nodes root /\ covering_both c nd r.
Proof.
  intros Ht [rc Hrc] Hall Hne. destruct (union_sets_ok objs Hall) as (c & nd & Hu & Hc & Hnd & Hsub & Hsubn).
  destruct (onodeset (t_obj root)) as [rn|] eqn:Hrn; [|done].
  unfold cs in Hsub. rewrite Hrc in Hsub.
  destruct (trychildren_ok c nd (walk_fuel topo) root Ht Hc Hnd (Connected.root_node root)) as (r & Hr & Hrin & Hcov).
  - by exists rc, rn.
  - pose proof (tree_fuel topo root Hh Hdist). lia.
  - exists c, nd, r. split_and!; try done. unfold hwloc_get_obj_covering_cpuset_nodeset. rewrite (h_root _ _ Hh).
    cbn [mbind option_bind]. rewrite (node_obj_at topo root Hh) by apply Connected.root_node. cbn [mbind option_bind].
    rewrite Hrc. cbn [mbind option_bind]. rewrite Hrn. cbn [mbind option_bind].
    rewrite (proj2 (b_isincluded_spec c rc Hc) Hsub), (proj2 (b_isincluded_spec nd rn Hnd) Hsubn). done.
Qed.

(** ** The matrix that is stored *)

Definition logical (a : Z) : Z := logical_index (links (tlinks topo) a).

(** The objects have consecutive logical indexes, in any order. *)
Record consecutive (objs : list Z) : Prop := {
  co_below : Forall below_root objs;
  co_range : Forall (fun x => 0 <= x < 2 ^ 32) (map logical objs);
  co_span : forall a b, a ∈ objs -> b ∈ objs -> logical a - logical b < Z.of_nat (length objs);
  co_distinct : NoDup (map logical objs);
}.

Lemma below_links a : below_root a -> links_at topo a = Some (links (tlinks topo) a).
Proof.
  intros (o & c & Ho & <- & _). unfold links_at. rewrite bool_decide_eq_true_2; [done|]. exists o. by apply (h_live _ _ Hh).
Qed.

Lemma logical_indexes_ok objs : Forall below_root objs -> logical_indexes topo objs = Some (map logical objs).
Proof.
  induction 1 as [|a objs Ha _ IH]; [done|]. cbn [logical_indexes map]. rewrite below_links by done.
  cbn [mbind option_bind]. by rewrite IH.
Qed.

Definition first_index (objs : list Z) : Z := smallest_index (map logical objs).

(** What is stored for the objects [objs] and the values [os]. *)
Definition normalised (objs os : list Z) (min : Z) (d : hwloc_distances_s) : Prop :=
  nbobjs d = Z.of_nat (length objs) /\ latency_base d = min /\
  forall i j a b, objs !! i = Some a -> objs !! j = Some b ->
    cell (length objs) (latency d) (logical a - first_index objs) (logical b - first_index objs) =
      f_div (distance (length objs) os (Z.of_nat i) (Z.of_nat j)) min.

Lemma logical_cell objs i : consecutive objs -> index (length objs) i ->
  exists a, objs !! Z.to_nat i = Some a /\
    get (map (fun x => u32 (x - first_index objs)) (map logical objs)) i = logical a - first_index objs /\
    index (length objs) (logical a - first_index objs).
Proof.
  intros [_ Hrange Hspan _] Hi. unfold index in *. destruct (lookup_lt_is_Some_2 objs (Z.to_nat i)) as [a Ha]; [lia|].
  exists a. assert (a ∈ objs) as Hin by (by eapply list_elem_of_lookup_2).
  destruct (smallest_index_ok (map logical objs) (logical a)) as [Hm Hle]; [by apply list_elem_of_fmap_2|done|].
  fold (first_index objs) in *. apply list_elem_of_fmap in Hm as (b & Hb & Hbin).
  rewrite Forall_forall in Hle, Hrange. assert (logical a ∈ map logical objs) as Hla by (by apply list_elem_of_fmap_2).
  pose proof (Hle _ Hla). pose proof (Hrange _ Hla). pose proof (Hspan a b Hin Hbin). rewrite <- Hb in *.
  assert (0 <= first_index objs) as Hf0 by (rewrite Hb; apply (Hrange (logical b)); by apply list_elem_of_fmap_2).
  split; [done|]. split; [|lia]. unfold get. apply list_lookup_total_correct. rewrite !list_lookup_fmap, Ha. cbn.
  by rewrite u32_small by lia.
Qed.

Lemma finalize_logical_ok objs os a : sets_together -> is_Some (ocpuset (t_obj root)) -> consecutive objs ->
  head objs = Some a -> Z.of_nat (length objs) < 2 ^ 16 -> (length objs * length objs <= length os)%nat ->
  exists c nd r min, union_sets topo objs = Some (c, nd) /\ r ∈ tree_nodes root /\ covering_both c nd r /\
    least (length objs) os min /\
    let up := depth (links (tlinks topo) a) - depth (links (tlinks topo) (t_addr r)) in
    if (up <=? 0) || negb (f_nonzero min)
    then hwloc_distances__finalize_logical topo (Z.of_nat (length objs)) objs os = Some topo
    else exists d, hwloc_distances__finalize_logical topo (Z.of_nat (length objs)) objs os = add_distances topo (t_addr r) d /\
      relative_depth d = up /\ normalised objs os min d.
Proof.
  intros Ht Hroot [Hbelow Hrange Hspan Hdistinct] Ha Hn Hos. assert (objs <> []) as Hne by (by intros ->).
  destruct (covering_ok objs Ht Hroot Hbelow Hne) as (c & nd & r & Hu & Hc & Hnd & Hcover & Hr & Hcov).
  pose proof (extreme_values_ok (length objs) os Hn Hos) as (mm & Hmm & Hleast). exists c, nd, r, mm.1.
  split_and!; [done..|]. intros up. unfold hwloc_distances__finalize_logical.
  unfold turns. rewrite Nat2Z.id, firstn_all, Hu. cbn [mbind option_bind]. rewrite Hcover. cbn [mbind option_bind].
  rewrite (node_obj_at topo root Hh) by done. cbn [mbind option_bind]. destruct Hcov as (c' & nd' & Hc' & Hnd' & Hsc & Hsn).
  rewrite Hc'. cbn [mbind option_bind]. rewrite Hnd'. cbn [mbind option_bind].
  rewrite (proj2 (b_isincluded_spec c c' Hc) Hsc), (proj2 (b_isincluded_spec nd nd' Hnd) Hsn). cbn [andb].
  destruct (node_links topo root Hh r Hr) as (rk & Hrk & _). rewrite Hrk. cbn [mbind option_bind]. rewrite Ha. cbn [mbind option_bind].
  assert (below_root a) as Hba by (rewrite Forall_forall in Hbelow; apply Hbelow; destruct objs; [done|injection Ha as ->; by left]).
  rewrite below_links by done. cbn [mbind option_bind].
  assert (rk = links (tlinks topo) (t_addr r)) as ->
    by (unfold links_at in Hrk; destruct (bool_decide _); [by injection Hrk|done]).
  cbv zeta. replace (depth (links (tlinks topo) a) <=? depth (links (tlinks topo) (t_addr r))) with (up <=? 0)
    by (unfold up; destruct (Z.leb_spec (depth (links (tlinks topo) a)) (depth (links (tlinks topo) (t_addr r)))); lia).
  destruct (up <=? 0); cbn [orb]; [done|]. rewrite logical_indexes_ok by done. cbn [mbind option_bind]. rewrite Hmm.
  destruct mm as [min max]. cbn [mbind option_bind fst] in *. destruct (f_nonzero min); cbn [negb]; [|done].
  fold (first_index objs).
  destruct (fill_matrix_ok (length objs) os (map (fun x => u32 (x - first_index objs)) (map logical objs)) min Hn Hos)
    with (matrix := map (fresh_word (u32 (Z.of_nat (length objs) * Z.of_nat (length objs))))
      (seqZ 0 (u32 (Z.of_nat (length objs) * Z.of_nat (length objs))))) as (matrix & Hfill & _ & Hcells).
  - by rewrite !length_map.
  - intros i Hi. destruct (logical_cell objs i) as (b & _ & -> & ?); [by split|done|done].
  - intros i j Hi Hj. destruct (logical_cell objs i) as (b & Hb & -> & _); [by split|done|].
    destruct (logical_cell objs j) as (b' & Hb' & -> & _); [by split|done|]. intros Heq.
    assert (Z.to_nat i = Z.to_nat j); [|unfold index in *; lia].
    apply (NoDup_lookup _ _ _ (logical b) Hdistinct); rewrite list_lookup_fmap; [by rewrite Hb|rewrite Hb'; cbn; f_equal; lia].
  - rewrite length_map, length_seqZ, u32_small by nia. lia.
  - rewrite Hfill. cbn [mbind option_bind]. eexists. split; [done|]. split; [done|]. split; [done|]. split; [done|].
    intros i j b b' Hb Hb'. cbn [latency]. apply lookup_lt_Some in Hb as Hi, Hb' as Hj.
    destruct (logical_cell objs (Z.of_nat i)) as (x & Hx & Hlx & _); [by split|unfold index; lia|].
    destruct (logical_cell objs (Z.of_nat j)) as (y & Hy & Hly & _); [by split|unfold index; lia|].
    rewrite Nat2Z.id in Hx, Hy. simplify_eq. rewrite <- Hlx, <- Hly. apply Hcells; unfold index; lia.
Qed.

End Cover.
