(* ===== verification/DistThms.v ===== *)
(** * DistThms: the properties of distances

    Claims about the matrices of users and the environment (Distances.v), the groups
    made of them (Grouping.v) and the normalised matrices (Latency.v), each with its
    witness, and examples of what goes wrong outside of them. *)

From stdpp Require Import gmap relations.
From Stdlib Require Import Ascii String Sorted.
From S2P Require Import Prelude Misc Bitmap BitmapSpec CString CStringOk Cpuset Obj ObjCmp Insert InsertOk CleanOk Levels LevelsOk Connected Traversal Loaded Helper HelperOk Synthetic Float Scan Distances Grouping GroupsOk Described GroupRecOk Latency Samples TravThms.

(** ** Matrices *)

(** [hwloc_topology_set_distance_matrix] on arrays of at least [nbobjs] indexes and
    [nbobjs] squared distances, for less than 65536 objects: it returns 0 exactly for
    nothing at all, which removes the matrices of the type, and for two arrays whose
    indexes are distinct, whose copies then are the only matrix of the type; otherwise
    it returns -1 and changes nothing.  Matrices stay square, with distinct indexes. *)
Theorem distance_matrix_accepted (l : list osdist) type nbobjs indexes distances :
  0 <= nbobjs < 2 ^ 16 -> Forall loaded l ->
  (forall ids, indexes = Some ids -> (Z.to_nat nbobjs <= length ids)%nat) ->
  (forall ds, distances = Some ds -> (Z.to_nat (nbobjs * nbobjs) <= length ds)%nat) ->
  let n := Z.to_nat nbobjs in
  exists r l', hwloc_topology_set_distance_matrix l type nbobjs indexes distances = Some (r, l') /\
    Forall loaded l' /\
    ((r = -1 /\ l' = l /\ ~ (nbobjs = 0 /\ indexes = None /\ distances = None) /\
      forall ids ds, nbobjs <> 0 -> indexes = Some ids -> distances = Some ds -> ~ NoDup (take n ids)) \/
     (r = 0 /\ List.filter (fun d => negb (bool_decide (od_type d = type))) l' =
               List.filter (fun d => negb (bool_decide (od_type d = type))) l /\
      ((nbobjs = 0 /\ indexes = None /\ distances = None /\ Forall (fun d => od_type d <> type) l') \/
       exists ids ds, indexes = Some ids /\ distances = Some ds /\ NoDup (take n ids) /\
         List.filter (fun d => bool_decide (od_type d = type)) l' =
           [mk_osdist type nbobjs (Some (take n ids)) None (take (n * n) ds) true]))).
Proof.
  intros Hn Hl Hi Hd n. unfold hwloc_topology_set_distance_matrix.
  destruct indexes as [ids|], distances as [ds|]; [| | |].
  - specialize (Hi ids eq_refl). specialize (Hd ds eq_refl). destruct (Z.eqb_spec nbobjs 0) as [->|Hne].
    + exists (-1), l. split_and!; try done. left. split_and!; try done. by intros (_ & ? & _).
    + destruct (Nat.leb_spec (Z.to_nat nbobjs) (length ids)); [|lia]. rewrite check_matrix_ok.
      destruct (bool_decide (NoDup (take (Z.to_nat nbobjs) ids))) eqn:Hdup.
      * apply bool_decide_eq_true in Hdup. cbn [Z.ltb Z.compare]. rewrite u32_small by nia.
        destruct (Nat.leb_spec (Z.to_nat (nbobjs * nbobjs)) (length ds)); [|lia].
        rewrite distances_set_force by done. eexists _, _. split; [done|].
        replace (Z.to_nat (nbobjs * nbobjs)) with (n * n)%nat by (unfold n; nia).
        split; [apply set_element_loaded; [done|]|right; split; [done|]].
        -- exists (take n ids). unfold n. cbn. rewrite !length_take. split_and!; try done; lia.
        -- split; [exact (set_element_others l _)|]. right. exists ids, ds. split_and!; try done. exact (set_element_own l _).
      * apply bool_decide_eq_false in Hdup. cbn [Z.ltb Z.compare]. exists (-1), l. split_and!; try done. left.
        split_and!; try done; [by intros (_ & ? & _)|]. intros ids' ds' _ [= <-] _. done.
  - exists (-1), l. split_and!; try done. left. split_and!; try done. by intros (_ & ? & _).
  - exists (-1), l. split_and!; try done. left. split_and!; try done. by intros (_ & _ & ?).
  - destruct (Z.eqb_spec nbobjs 0) as [->|Hne].
    + unfold hwloc_distances_set. rewrite make_room_force, Z.eqb_refl. eexists _, _. split; [done|].
      split; [by apply filter_loaded|]. right. split; [done|]. split; [by rewrite filter_twice|left; split_and!; try done].
      apply Forall_forall. intros d Hd'%list_elem_of_In%filter_In. destruct Hd' as [_ Hd'].
      by apply negb_true_iff, bool_decide_eq_false in Hd'.
    + exists (-1), l. split_and!; try done. left. split_and!; try done. by intros (? & _).
Qed.

(** C21. [hwloc_distances_finalize_os] on square matrices with distinct indexes: it
    completes without leaving an array.  When the root has a cpuset, the matrices
    without any object go; in the other ones the lines, columns and indexes of missing
    objects are removed, in place, and the objects are those of the indexes left, in
    the same order.  Without cpusets (several machines) all matrices go. *)
Theorem indexes_become_objects {B} (o : hwloc_obj B) ch (l : list osdist) : Forall loaded l ->
  exists l', hwloc_distances_finalize_os (Node o ch) l = Some l' /\
    if bool_decide (ocpuset o = None) then l' = []
    else Forall2 (fun d d' => finalized (Node o ch) (od_type d) d d') (List.filter (has_objs (Node o ch)) l) l'.
Proof. apply finalize_os_ok. Qed.

(** C23. The text ["i-j:x*y*z"] for [x * y * z] objects (less than 65536) whose indexes
    follow [i]: it becomes the only matrix of the type, over these indexes, and when
    [z] is at least 2 the search of groups accepts the matrix and finds the [x * y]
    blocks of [z] consecutive objects, in order (none when there is only one block). *)
Theorem described_hierarchy_found `{Malloc} (l : list osdist) type i x y z :
  (forall k, 0 <= k < 2 ^ 34 -> malloc_ok k = true) -> 0 <= i -> 1 <= x -> 1 <= y -> 2 <= z ->
  x * y * z < 2 ^ 16 -> i + x * y * z < 2 ^ 32 ->
  let n := x * y * z in
  exists d, hwloc_distances__set_from_string l type (description i x y z) = Some (set_element l d) /\
    od_type d = type /\ od_nbobjs d = n /\ od_indexes d = Some (seqZ i n) /\
    returns (try_accuracies n (od_distances d) true [] [0]) (fun '(nb, ids) =>
      nb = (if x * y =? 1 then 0 else x * y) /\ ids = map (fun j => j / z + 1) (seqZ 0 n)).
Proof.
  intros Hm Hi Hx Hy Hz Hn Hlast n. eexists.
  split; [apply described_element; (done || lia)|]. split_and!; [done|done|done|].
  cbn [od_distances]. pose proof (described_search x y z Hx Hy Hz Hn) as Hs. by rewrite (n_ok x y z) in Hs by lia.
Qed.

(** C20. [hwloc__find_groups_by_min_distance] on a square matrix of less than 65536 lines:
    it terminates without leaving an array.  Without finite distances there is no
    group; otherwise groups are numbered from 1 and have two members or more, all of
    them linked to the first by steps between objects at the minimal distance (up to
    the accuracy); 0 is returned for a single group without any object left alone.
    When being close is symmetric and transitive the groups are exactly the classes of
    the objects close to another one, numbered in the order of their first members. *)
Theorem close_objects_grouped n dist accuracy : Z.of_nat n < 2 ^ 16 -> (n * n <= length dist)%nat ->
  returns (hwloc__find_groups_by_min_distance (Z.of_nat n) dist accuracy) (fun '(nb, ids) =>
    exists min, nearest n dist min /\ search_result n dist accuracy min nb ids).
Proof. apply find_groups_ok. Qed.

Section Claims.
Context {B : Type} `{Cpuset B}.

(** C19. [hwloc_group_by_distances] with a matrix of disjoint objects [os] of a
    well-formed hierarchy whose other objects lie inside one of [os], around all of them
    or beside them: whatever the distances and the accuracies, it completes at all
    levels of grouping and never reads a group object that was freed; all former
    objects are kept, the hierarchy stays well formed, and what is added are groups
    whose CPUs are CPUs of [os], of depths from [g_depth g] on: all groups that were
    there have smaller depths, all groups are below [g_depth] afterwards. *)
Theorem grouping_keeps_hierarchy getenv (g : grouping (B := B)) d os :
  od_objs d = Some (map o_addr os) -> od_nbobjs d = Z.of_nat (length os) -> os <> [] ->
  Z.of_nat (length os) < 2 ^ 16 -> (length os * length os <= length (od_distances d))%nat ->
  ready g -> arranged g os -> 0 <= g_depth g -> g_depth g + Z.of_nat (length os) + 1 < 2 ^ 32 ->
  exists g', hwloc_group_by_distances getenv g [d] = Some g' /\
    if grouping_disabled getenv then g' = g else grouped g os (S (length os)) g'.
Proof.
  intros Hobjs Hnb Hne Hn Hlen Hr Har Hd0 Hd. unfold hwloc_group_by_distances.
  destruct (grouping_disabled getenv); [by exists g|]. cbn [foldl mbind option_bind].
  by apply group_matrix_ok.
Qed.

(** C22. [hwloc_distances__finalize_logical] for less than 65536 objects with
    consecutive logical indexes, in any order, of a loaded hierarchy with nodesets: it
    completes without leaving an array and stores, in an object that covers the
    cpusets and nodesets of them all, the matrix in logical order, each distance
    divided by the smallest one; nothing is stored when that is 0 or when the object
    is not above them. *)
Theorem latencies_normalised `{Malloc} (topo : topology B) root objs os a :
  hierarchy topo root -> distinct (tree_objs root) -> sets_together root -> is_Some (ocpuset (t_obj root)) ->
  consecutive topo root objs -> head objs = Some a ->
  Z.of_nat (length objs) < 2 ^ 16 -> (length objs * length objs <= length os)%nat ->
  exists c nd r min, union_sets topo objs = Some (c, nd) /\ r ∈ tree_nodes root /\ covering_both c nd r /\
    least (length objs) os min /\
    let up := depth (links (tlinks topo) a) - depth (links (tlinks topo) (t_addr r)) in
    if (up <=? 0) || negb (f_nonzero min)
    then hwloc_distances__finalize_logical topo (Z.of_nat (length objs)) objs os = Some topo
    else exists d, hwloc_distances__finalize_logical topo (Z.of_nat (length objs)) objs os = add_distances topo (t_addr r) d /\
      relative_depth d = up /\ normalised topo objs os min d.
Proof. intros Hh Hd Ht Hc Hco Ha Hn Hos. by apply finalize_logical_ok. Qed.

End Claims.

(** ** A sample: eight PUs below a machine *)

Definition flat_pu (i : Z) : obj_tree wbitmap :=
  Node (with_sets (hwloc_alloc_setup_object (10 + i) HWLOC_OBJ_PU i) (sample_sets (Some (cset [i])) (Some (cset [0])))) [].
Definition flat_machine (ch : list (obj_tree wbitmap)) : obj_tree wbitmap :=
  Node (with_sets (hwloc_alloc_setup_object 1 HWLOC_OBJ_MACHINE 0)
    (sample_sets (Some (cset (seqZ 0 8))) (Some (cset [0])))) ch.
Definition flat : obj_tree wbitmap := flat_machine (map flat_pu (seqZ 0 8)).
Definition flat_grouping : grouping := mk_grouping flat 0 100.
Definition flat_matrix (addrs : list Z) : osdist :=
  mk_osdist HWLOC_OBJ_PU 8 (Some (seqZ 0 8)) (Some addrs) (group_matrix 8 2 2) true.

Lemma disjoint_sample (a b : wbitmap) : bfin a && negb (b_intersects a b) = true -> bdisj a b.
Proof. rewrite andb_true_iff, negb_true_iff. intros [Hf Hi]. by apply b_intersects_spec; [left|]. Qed.

Lemma before_sample (a b : wbitmap) : bool_decide (bfin a = bfin b) && (b_compare_first a b <? 0) = true -> bbefore a b.
Proof. rewrite andb_true_iff, bool_decide_eq_true, Z.ltb_lt. intros [Hf Hc]. by apply (proj1 (b_compare_first_spec a b Hf)). Qed.

(** Well-formedness of a machine with leaves, by evaluation. *)
Definition leaves_ok (ro : hwloc_obj wbitmap) (l : list (hwloc_obj wbitmap)) : bool :=
  forallb (fun o => match ocpuset o with Some c => bfin c && negb (b_iszero c) | None => false end
    && negb (hwloc_obj_type_is_io (o_type o))
    && negb (bool_decide (o_type o = HWLOC_OBJ_MISC))
    && b_isincluded (cs o) (cs ro) && negb (b_isequal (cs ro) (cs o))) l.

Fixpoint pairs_ok (l : list (hwloc_obj wbitmap)) : bool :=
  match l with
  | [] => true
  | o :: l => forallb (fun o' => bfin (cs o) && negb (b_intersects (cs o) (cs o'))
      && bool_decide (bfin (cs o) = bfin (cs o')) && (b_compare_first (cs o) (cs o') <? 0)) l && pairs_ok l
  end.

Lemma flat_leaf_ok ro l : leaves_ok ro l = true -> Forall (fun o => obj_ok o /\ cmp_spec ro o HWLOC_OBJ_CONTAINS) l.
Proof.
  unfold leaves_ok. rewrite forallb_forall. intros Hall. apply Forall_forall. intros o Ho%list_elem_of_In.
  specialize (Hall o Ho). rewrite !andb_true_iff in Hall. destruct Hall as [[[[Hc Hio] Hm] Hs] He].
  assert (obj_ok o) as Hok by (apply ok_sample; by rewrite Hc, Hio, Hm).
  split; [done|]. split; [apply sub_sample; [apply (ok_cs o Hok)|done]|]. intros Hb. exfalso. revert Hb.
  apply not_eq_sample. by apply negb_true_iff.
Qed.

Lemma pairs_sorted l : Forall obj_ok l -> pairs_ok l = true ->
  StronglySorted sib_before (map (fun o => Node o []) l) /\ separate l.
Proof.
  induction 1 as [|o l Ho Hl IH]; intros Hp; [split; [constructor|intros i j x y _ Hx; done]|].
  cbn [pairs_ok] in Hp. apply andb_true_iff in Hp as [Hall Hp]. destruct (IH Hp) as [Hs Hsep].
  rewrite forallb_forall in Hall.
  assert (forall o', o' ∈ l -> bdisj (cs o) (cs o') /\ bbefore (cs o) (cs o')) as Ho'.
  { intros o' Hin%list_elem_of_In. specialize (Hall o' Hin). rewrite <- !andb_assoc, andb_assoc in Hall.
    apply andb_true_iff in Hall as [H1 H2]. split; [by apply disjoint_sample|by apply before_sample]. }
  split.
  - cbn [map]. constructor; [done|]. apply Forall_map, Forall_forall. intros o' Hin. right. cbn [t_obj].
    split; [by apply ok_not_setless|]. by apply Ho'.
  - intros [|i] [|j] x y Hne Hx Hy; cbn in *; try done; simplify_eq.
    + apply Ho'. by eapply list_elem_of_lookup_2.
    + symmetry. apply Ho'. by eapply list_elem_of_lookup_2.
    + apply (Hsep i j); [congruence|done|done].
Qed.

Lemma flat_leaves : leaves_ok (t_obj flat) (map t_obj (t_children flat)) && pairs_ok (map t_obj (t_children flat)) = true.
Proof. by_eval. Qed.

Lemma flat_wf : tree_wf flat /\ Forall obj_ok (map t_obj (t_children flat)) /\ separate (map t_obj (t_children flat)).
Proof.
  pose proof flat_leaves as Hl. apply andb_true_iff in Hl as [Hl Hp]. apply flat_leaf_ok in Hl.
  assert (Forall obj_ok (map t_obj (t_children flat))) as Hok by (eapply Forall_impl; [exact Hl|]; by intros ? [? _]).
  destruct (pairs_sorted _ Hok Hp) as [Hs Hsep]. split; [|exact (conj Hok Hsep)].
  assert (map (fun o => Node o []) (map t_obj (t_children flat)) = t_children flat) as Heq by done. rewrite Heq in Hs.
  unfold flat, flat_machine in *. cbn [t_children t_obj] in *. constructor; [|exact Hs].
  apply Forall_map. apply Forall_map in Hl. apply Forall_map in Hl. eapply Forall_impl; [exact Hl|]. intros i [Ho Hc]. right.
  split; [exact Ho|]. split; [exact Hc|]. constructor; constructor.
Qed.

Lemma flat_distinct : distinct (tree_objs flat).
Proof. apply (bool_decide_unpack _). by_eval. Qed.

Lemma flat_ready : ready flat_grouping.
Proof.
  split; [apply flat_wf|by eexists|by eexists|by eexists|done|exact flat_distinct|].
  apply Forall_forall. intros o Ho%list_elem_of_In. 
  assert (forallb (fun o => o_addr o <? 100) (tree_objs flat) = true) as Hall by by_eval.
  rewrite forallb_forall in Hall. apply Z.ltb_lt. by apply Hall.
Qed.

Lemma flat_objs : g_objs flat_grouping = map t_obj (t_children flat).
Proof. reflexivity. Qed.

Lemma flat_arranged : arranged flat_grouping (map t_obj (t_children flat)).
Proof.
  destruct flat_wf as (_ & Hok & Hsep). split; rewrite ?flat_objs.
  - apply Forall_forall. intros o Ho. split; [done|]. rewrite Forall_forall in Hok. by apply Hok.
  - done.
  - apply Forall_forall. intros o Ho. right; left. by exists o.
  - apply Forall_forall. intros o Ho%list_elem_of_In Ht. exfalso.
    assert (forallb (fun o => negb (bool_decide (o_type o = HWLOC_OBJ_GROUP))) (map t_obj (t_children flat)) = true) as Hall by by_eval.
    rewrite forallb_forall in Hall. specialize (Hall o Ho). by rewrite Ht in Hall.
Qed.

(** ** Witnesses *)

Definition no_env : string -> option string := fun _ => None.

Lemma grouping_keeps_hierarchy_witness :
  exists g', hwloc_group_by_distances no_env flat_grouping [flat_matrix (seqZ 10 8)] = Some g' /\
    grouped flat_grouping (map t_obj (t_children flat)) 9 g'.
Proof.
  exact (grouping_keeps_hierarchy no_env flat_grouping (flat_matrix (seqZ 10 8)) (map t_obj (t_children flat))
    eq_refl eq_refl ltac:(done) ltac:(done) ltac:(by_eval) flat_ready flat_arranged ltac:(done) ltac:(done)).
Defined.

Lemma distance_matrix_accepted_witness :
  exists r l', hwloc_topology_set_distance_matrix [] HWLOC_OBJ_PU 2 (Some [4; 5]) (Some [F1; F2; F2; F1]) = Some (r, l') /\
    Forall loaded l'.
Proof.
  destruct (distance_matrix_accepted [] HWLOC_OBJ_PU 2 (Some [4; 5]) (Some [F1; F2; F2; F1]) ltac:(lia) ltac:(constructor)
    ltac:(intros ? [= <-]; cbn; lia) ltac:(intros ? [= <-]; cbn; lia)) as (r & l' & Heq & Hl & _).
  by exists r, l'.
Defined.

Definition three_pus : osdist := mk_osdist HWLOC_OBJ_PU 3 (Some [2; 9; 5]) None [F1; F2; F4; F2; F1; F8; F4; F8; F1] true.

Lemma indexes_become_objects_witness :
  exists l', hwloc_distances_finalize_os flat [three_pus] = Some l' /\
    Forall2 (fun d d' => finalized flat (od_type d) d d') [three_pus] l'.
Proof.
  assert (Forall loaded [three_pus]) as Hl.
  { constructor; [|constructor]. exists [2; 9; 5]. split_and!; try done. apply (bool_decide_unpack _). by_eval. }
  exact (indexes_become_objects (t_obj flat) (t_children flat) [three_pus] Hl).
Defined.

Example three_pus_left : option_map (map (fun d => (od_nbobjs d, od_objs d, take 4 (od_distances d))))
  (hwloc_distances_finalize_os flat [three_pus]) = Some [(2, Some [12; 15], [F1; F4; F4; F1])].
Proof. by_eval. Qed.

Lemma described_hierarchy_found_witness : description 0 2 2 2 = txt "0-7:2*2*2" /\
  exists d, hwloc_distances__set_from_string [] HWLOC_OBJ_PU (description 0 2 2 2) = Some (set_element [] d).
Proof.
  split; [reflexivity|].
  destruct (described_hierarchy_found [] HWLOC_OBJ_PU 0 2 2 2 ltac:(done) ltac:(lia) ltac:(lia) ltac:(lia) ltac:(lia)
    ltac:(lia) ltac:(lia)) as (d & Hd & _). by exists d.
Defined.

(** A list of values; one value less, and the text is ignored. *)
Example described_values : map (fun text => option_map (map (fun d => (od_indexes d, od_distances d)))
    (hwloc_distances__set_from_string [] HWLOC_OBJ_PU (txt text)))
  ["3,5:1,2,4,1"; "3,5:1,2,4"; "3-4:1.0,2,4,1,8"]%string =
  [Some [(Some [3; 5], [F1; F2; F4; F1])]; Some []; Some [(Some [3; 4], [F1; F2; F4; F1])]].
Proof. by_eval. Qed.

(** Six objects along the path 0, 5, 3, 4. *)
Definition path_matrix : list Z :=
  map (fun p => if existsb (fun q => (fst p =? fst q) && (snd p =? snd q)) [(0, 5); (5, 0); (5, 3); (3, 5); (3, 4); (4, 3)]
    then F2 else if fst p =? snd p then F1 else F4)
  (concat (map (fun i => map (fun j => (i, j)) (seqZ 0 6)) (seqZ 0 6))).

Lemma close_objects_grouped_witness : returns (hwloc__find_groups_by_min_distance 6 path_matrix 0) (fun '(nb, ids) =>
    exists min, nearest 6 path_matrix min /\ search_result 6 path_matrix 0 min nb ids).
Proof. exact (close_objects_grouped 6 path_matrix 0 ltac:(done) ltac:(by_eval)). Defined.

Lemma flat_topology_loads : match sample_load flat with
  | Some topo => hierarchy topo flat /\
      forallb (fun a => bool_decide (logical_index (links (tlinks topo) a) = a - 10)) [13; 11; 12] = true
  | None => False
  end.
Proof.
  assert (match sample_load flat with
    | Some topo => forallb (fun a => bool_decide (logical_index (links (tlinks topo) a) = a - 10)) [13; 11; 12]
    | None => false end = true) as Hs by by_eval.
  destruct (sample_load flat) as [topo|] eqn:Hl; [|discriminate Hs]. split; [|exact Hs].
  destruct (sample_load_some _ _ Hl) as (tl & -> & Htl).
  by destruct (load_ok flat tl eq_refl flat_distinct Htl) as (_ & _ & Hh).
Qed.

Lemma flat_sets_together : sets_together flat.
Proof.
  apply Forall_forall. intros o Ho%list_elem_of_In _.
  assert (forallb (fun o => match onodeset o with Some _ => true | None => false end) (tree_objs flat) = true) as Hall by by_eval.
  rewrite forallb_forall in Hall. specialize (Hall o Ho). destruct (onodeset o); [by eexists|discriminate Hall].
Qed.

(** An address of an object below the root, by evaluation. *)
Definition below_b (root : obj_tree wbitmap) (a : Z) : bool :=
  existsb (fun o => (o_addr o =? a) && match ocpuset o, onodeset o, onodeset (t_obj root) with
    | Some c, Some nd, Some rn => bfin c && b_isincluded c (cs (t_obj root)) && bfin nd && b_isincluded nd rn
    | _, _, _ => false end) (tree_objs root).

Lemma below_sample root a : below_b root a = true -> below_root root a.
Proof.
  unfold below_b. rewrite existsb_exists. intros (o & Ho%list_elem_of_In & [Ha%Z.eqb_eq Hb]%andb_true_iff).
  destruct (ocpuset o) as [c|] eqn:Hc; [|done]. destruct (onodeset o) as [nd|] eqn:Hnd; [|done].
  destruct (onodeset (t_obj root)) as [rn|] eqn:Hrn; [|done]. rewrite !andb_true_iff in Hb. destruct Hb as [[[Hf Hs] Hfn] Hsn].
  exists o, c. rewrite Hnd, Hrn. split_and!; try done; by apply sub_sample.
Qed.

Lemma latencies_normalised_witness :
  match sample_load flat with
  | Some topo => exists c nd, union_sets topo [13; 11; 12] = Some (c, nd)
  | None => False
  end.
Proof.
  pose proof flat_topology_loads as Hs. destruct (sample_load flat) as [topo|]; [|exact Hs]. destruct Hs as [Hh Hlog].
  assert (consecutive topo flat [13; 11; 12]) as Hco.
  { cbn [forallb] in Hlog. rewrite !andb_true_iff, !bool_decide_eq_true in Hlog. destruct Hlog as (H1 & H2 & H3 & _).
    split.
    - repeat constructor; apply below_sample; by_eval.
    - unfold logical. cbn [map]. rewrite H1, H2, H3. repeat constructor; lia.
    - assert (forall a, a ∈ [13; 11; 12] -> 1 <= logical topo a <= 3) as Hr.
      { unfold logical. intros a [->|[->|[->|Ha%elem_of_nil]%elem_of_cons]%elem_of_cons]%elem_of_cons; [lia|lia|lia|done]. }
      intros a b Ha%Hr Hb%Hr. cbn [length]. lia.
    - unfold logical. cbn [map]. rewrite H1, H2, H3. apply (bool_decide_unpack _). by_eval. }
  destruct (latencies_normalised topo flat [13; 11; 12] [F1; F2; F4; F2; F1; F8; F4; F8; F1] 13 Hh flat_distinct
    flat_sets_together ltac:(by eexists) Hco eq_refl ltac:(done) ltac:(cbn; lia)) as (c & nd & _ & _ & Hu & _).
  by exists c, nd.
Defined.

(** ** What goes wrong *)

(** The matrix is accepted, 4 is at the minimal distance of 3, which is in the group of
    0, and 4 is in no group: 3 was found after 5, and it is not scanned again. *)
Example group_not_closed :
  hwloc__check_grouping_matrix 6 path_matrix 0 = Some 0 /\
  hwloc__find_groups_by_min_distance 6 path_matrix 0 = Some (1, [1; 0; 0; 1; 0; 1]).
Proof. split; by_eval. Qed.

(** Four cores with two PUs each, and groups of PUs that cut them: the groups are
    freed, then read at the next level. *)
Definition flat_cores : obj_tree wbitmap := flat_machine (map (fun i =>
  Node (with_sets (hwloc_alloc_setup_object (2 + i) HWLOC_OBJ_CORE i)
    (sample_sets (Some (cset [2 * i; 2 * i + 1])) (Some (cset [0])))) [flat_pu (2 * i); flat_pu (2 * i + 1)]) (seqZ 0 4)).

Example freed_groups_read :
  bool_decide (is_Some (group_matrix_objects (mk_grouping flat_cores 0 100) [0] (flat_matrix (seqZ 10 8)))) = true /\
  bool_decide (is_Some (group_matrix_objects (mk_grouping flat_cores 0 100) [0]
    (flat_matrix (map (fun i => 10 + (i + 1) mod 8) (seqZ 0 8))))) = false.
Proof. split; by_eval. Qed.

Definition flat_topology : option (topology wbitmap) := sample_load flat.

(** The first and the last PU: the logical indexes are not consecutive. *)
Example latency_overflow :
  match flat_topology with
  | Some topo => bool_decide (is_Some (hwloc_distances__finalize_logical topo 2 [10; 11] [F1; F2; F2; F1])) = true /\
      bool_decide (is_Some (hwloc_distances__finalize_logical topo 2 [10; 17] [F1; F2; F2; F1])) = false
  | None => False
  end.
Proof. vm_compute. by split. Qed.
