(* ===== verification/LinuxFiles.v ===== *)
(** * LinuxFiles: the files that the Linux backend reads ([src/topology-linux.c])

    The system is a parameter: the contents of files, the entries of directories and
    what [access] and [stat] answer, under the root directory that [root_fd] is open
    on.  It does not change during a discovery.  A failed open is [None], as is NULL.
    Then what the code reads of a file: lines, numbers and masks of CPUs. *)

From Stdlib Require Import Ascii String Sorted.
From S2P Require Import Prelude Misc Bitmap BitmapSpec BitmapOps BitmapTests CString BitmapString CStringOk Cpuset Obj Synthetic SyntheticParse Scan.

(** ** The system *)

Record file_system := mk_file_system {
  fs_content : chars -> option chars;         (** [open] for reading, and [read] *)
  fs_entries : chars -> option (list chars);  (** [opendir] and [readdir] *)
  fs_readable : chars -> bool;                (** [access(R_OK)] gives 0 *)
  fs_missing : chars -> bool;                 (** [access(X_OK)] gives -1 with ENOENT *)
  fs_nlink : chars -> option Z;               (** [stat], [st_nlink] *)
  fs_isdir : chars -> bool;                   (** [stat], [S_ISDIR] *)
}.

(** Paths are relative to the root directory. *)
Fixpoint hwloc_checkat (path : chars) : chars :=
  match path with
  | c :: rest => if (c =? "/")%char then hwloc_checkat rest else path
  | [] => []
  end.

Section Files.
Context (fs : file_system).

Definition hwloc_fopen (path : chars) : option chars := fs_content fs (hwloc_checkat path).
Definition hwloc_opendir (path : chars) : option (list chars) := fs_entries fs (hwloc_checkat path).
Definition hwloc_access_R (path : chars) : bool := fs_readable fs (hwloc_checkat path).
Definition hwloc_access_missing (path : chars) : bool := fs_missing fs (hwloc_checkat path).
Definition hwloc_stat_nlink (path : chars) : option Z := fs_nlink fs (hwloc_checkat path).
Definition hwloc_stat_isdir (path : chars) : bool := fs_isdir fs (hwloc_checkat path).

(** ** Lines *)

(** At most [n] characters, up to the end of the line. *)
Fixpoint line_of (n : nat) (s : chars) : chars * chars :=
  match n, s with
  | S n, c :: s =>
      if (c =? "010")%char then ([c], s) else let '(l, rest) := line_of n s in (c :: l, rest)
  | _, _ => ([], s)
  end.

(** The string that an array of characters holds. *)
Fixpoint cstring (s : chars) : chars :=
  match s with
  | [] => []
  | c :: s => if (c =? NUL)%char then [] else c :: cstring s
  end.

(** [fgets] in an array of [size] characters: the string and what is left. *)
Definition fgets (size : nat) (s : chars) : option (chars * chars) :=
  match s with
  | [] => None
  | _ => let '(l, rest) := line_of (size - 1) s in Some (cstring l, rest)
  end.

(** [fopen] and the first [fgets]. *)
Definition first_line (size : nat) (path : chars) : option chars :=
  let! s := hwloc_fopen path in
  let! (l, _) := fgets size s in
  Some l.

(** [tmp = strchr(s, '\n'); if (tmp) *tmp = '\0';] *)
Fixpoint cut_line (s : chars) : chars :=
  match s with
  | [] => []
  | c :: s => if (c =? "010")%char then [] else c :: cut_line s
  end.

(** [sprintf] into an array of [size] characters. *)
Definition sprintf (size : nat) (text : chars) : option chars :=
  require! (length text <? size)%nat in Some text.

(** [!strncmp(s, t, length t)]: what follows [t]. *)
Definition starts_with (t : string) (s : chars) : option chars := after (txt t) s.

(** ** Numbers *)

(** The value of [strtol] in base 10. *)
Definition atol (s : chars) : Z :=
  let s := skip_spaces s in
  let '(neg, s) := match s with
                   | "-"%char :: s => (true, s) | "+"%char :: s => (false, s) | _ => (false, s)
                   end in
  let '(v, _) := read_digits 10 0 s in
  Z.max (- 2 ^ 63) (Z.min (if neg : bool then - v else v) (2 ^ 63 - 1)).

Definition atoi (s : chars) : Z := s32 (atol s).

(** The int returned and [*value]. *)
Definition hwloc_parse_sysfs_unsigned (mappath : chars) : Z * Z :=
  match first_line 11 mappath with
  | None => (-1, UNSET)
  | Some string => (0, u32 (number string))
  end.

End Files.

(** ** Masks of CPUs *)

(** What the Linux backend asks of bitmaps beside [CpusetOps]. *)
Class CpumapOps (B : Type) := {
  b_set_ith_ulong : B -> Z -> Z -> B;
  b_set_range : B -> Z -> Z -> B;
  b_clr_range : B -> Z -> Z -> B;
}.

Definition between (b e i : Z) : bool := (b <=? i) && (i <=? e).

Class Cpumap (B : Type) `{CpusetOps B} `{!CpumapOps B} : Prop := {
  bm_set_ith : forall a x m, 0 <= x < CPU_MAX / 64 -> 0 <= m < 2 ^ 64 -> forall i, 0 <= i ->
    bm (b_set_ith_ulong a x m) i = if i / 64 =? x then Z.testbit m (i mod 64) else bm a i;
  bfin_set_ith : forall a x m, 0 <= x < CPU_MAX / 64 -> 0 <= m < 2 ^ 64 ->
    bfin (b_set_ith_ulong a x m) = bfin a;
  bm_set_range : forall a b e, 0 <= b < CPU_MAX -> 0 <= e < CPU_MAX -> forall i, 0 <= i ->
    bm (b_set_range a b e) i = between b e i || bm a i;
  bfin_set_range : forall a b e, 0 <= b < CPU_MAX -> 0 <= e < CPU_MAX -> bfin (b_set_range a b e) = bfin a;
  bm_clr_range : forall a b e, 0 <= b < CPU_MAX -> 0 <= e < CPU_MAX -> forall i, 0 <= i ->
    bm (b_clr_range a b e) i = negb (between b e i) && bm a i;
  bfin_clr_range : forall a b e, 0 <= b < CPU_MAX -> 0 <= e < CPU_MAX -> bfin (b_clr_range a b e) = bfin a;
}.

Definition KERNEL_CPU_MASK_BITS : Z := 32.

(** The loop on [fscanf(file, "%lx,", &map)]: the masks, the last one first.  Each turn
    reads a character at least. *)
Fixpoint read_maps (fuel : nat) (file : chars) (maps : list Z) : option (list Z) :=
  match scan_lx file with
  | None => Some maps
  | Some (map, rest) =>
      match fuel with
      | O => None
      | S fuel =>
          let rest := match rest with ","%char :: rest => rest | _ => rest end in
          read_maps fuel rest (if (map =? 0) && (length maps =? 0)%nat then maps else map :: maps)
      end
  end.

Section Cpumaps.
Context {B : Type} `{CpusetOps B} `{!CpumapOps B}.

(** Two masks make a long. *)
Fixpoint set_maps (set : B) (i : Z) (maps : list Z) : B :=
  match maps with
  | [] => set
  | [m0] => b_set_ith_ulong set i m0
  | m0 :: m1 :: maps =>
      set_maps (b_set_ith_ulong set i (Z.lor m0 (u64 (Z.shiftl m1 KERNEL_CPU_MASK_BITS)))) (i + 1) maps
  end.

Definition hwloc_linux_parse_cpumap_file (file : chars) : option B :=
  let! maps := read_maps (length file) file [] in
  Some (set_maps b_alloc 0 maps).

(** The outer [None] is undefined behaviour, the inner one NULL. *)
Definition hwloc_parse_cpumap (fs : file_system) (mappath : chars) : option (option B) :=
  match hwloc_fopen fs mappath with
  | None => Some None
  | Some file => let! set := hwloc_linux_parse_cpumap_file file in Some (Some set)
  end.

(** [hwloc_bitmap_foreach_begin]: the ids visited. *)
Fixpoint each_from (fuel : nat) (set : B) (id : Z) : option (list Z) :=
  if u32 id =? UINT_MAX then Some [] else
  match fuel with
  | O => None
  | S fuel => let! ids := each_from fuel set (b_next set id) in Some (id :: ids)
  end.

Definition each_member (set : B) : option (list Z) :=
  require! negb (b_weight set =? -1) in each_from (Z.to_nat (b_weight set)) set (b_first set).

End Cpumaps.

(** ** What is read of a file *)

Section Reading.
Context {B : Type} `{Cpuset B} `{!CpumapOps B} `{!Cpumap B}.
Implicit Types a set : B.

(** The members fit the arrays. *)
Definition small a : Prop := forall i, 0 <= i -> bm a i = true -> i < CPU_MAX.

Lemma each_from_ok a fuel id lo (l : list Z) :
  small a -> 0 <= lo -> bfirst_from a lo id -> NoDup l -> (forall i, i ∈ l <-> lo <= i /\ bm a i = true) ->
  (length l <= fuel)%nat ->
  exists ids, each_from fuel a id = Some ids /\ StronglySorted Z.lt ids /\ forall i, i ∈ ids <-> lo <= i /\ bm a i = true.
Proof.
  intros Hsm. revert id lo l. induction fuel as [|fuel IH]; intros id lo l Hlo [[-> Hno]|(Hid & Hin & Hfirst)] Hnd Hl Hlen.
  1, 3: exists []; split; [done|]; split; [constructor|]; intros i; rewrite elem_of_nil; split; [done|]; intros [Hi Hb]; by rewrite Hno in Hb.
  - assert (id ∈ l) as Hidl by (by apply Hl). destruct l; [by apply not_elem_of_nil in Hidl|simpl in Hlen; lia].
  - pose proof (Hsm id ltac:(lia) Hin) as Hmax. unfold CPU_MAX in Hmax. cbn [each_from].
    rewrite u32_small, (proj2 (Z.eqb_neq _ _)) by (unfold UINT_MAX; lia).
    assert (id ∈ l) as Hidl by (by apply Hl). apply list_elem_of_split in Hidl as (l1 & l2 & ->).
    apply NoDup_app in Hnd as (Hnd1 & Hnd12 & Hnd2). apply NoDup_cons in Hnd2 as [Hni Hnd2].
    destruct (IH (b_next a id) (id + 1) (l1 ++ l2)) as (ids & -> & Hs & Hids); [lia|apply b_next_spec; unfold INT_MAX; lia| | | |].
    + apply NoDup_app. split; [done|]. split; [|done]. intros x Hx Hx2. apply (Hnd12 x Hx). by right.
    + intros i. rewrite elem_of_app. specialize (Hl i). rewrite elem_of_app, elem_of_cons in Hl. split.
      * intros Hi. destruct Hl as [Hl _]. destruct (Hl ltac:(tauto)) as [Hi1 Hb]. split; [|done].
        destruct (Z.le_gt_cases (id + 1) i); [done|]. destruct (Z.eq_dec i id) as [->|Hne].
        -- destruct Hi as [Hi|Hi]; [|done]. destruct (Hnd12 id Hi). by left.
        -- rewrite Hfirst in Hb by lia. done.
      * intros [Hi Hb]. destruct Hl as [_ Hl]. destruct (Hl ltac:(split; [lia|done])) as [?|[->|?]]; [tauto|lia|tauto].
    + rewrite length_app in *. simpl in Hlen. lia.
    + exists (id :: ids). split; [done|]. split.
      * constructor; [done|]. apply Forall_forall. intros i Hi. apply Hids in Hi. lia.
      * intros i. rewrite elem_of_cons, Hids. split.
        -- intros [->|[? ?]]; [done|split; [lia|done]].
        -- intros [Hi Hb]. destruct (Z.eq_dec i id) as [->|]; [by left|right]. split; [|done].
           destruct (Z.le_gt_cases (id + 1) i); [done|]. by rewrite Hfirst in Hb by lia.
Qed.

(** The members in increasing order. *)
Lemma each_member_ok a : bfin a = true -> small a ->
  exists ids, each_member a = Some ids /\ StronglySorted Z.lt ids /\ forall i, i ∈ ids <-> 0 <= i /\ bm a i = true.
Proof.
  intros Hfin Hsm. destruct (b_weight_spec a Hfin) as (l & Hw & Hnd & Hl). unfold each_member.
  rewrite Hw, (proj2 (Z.eqb_neq _ _)), Nat2Z.id by lia. cbn [negb].
  apply (each_from_ok a (length l) (b_first a) 0 l); [done|lia|apply b_first_spec|done|done|lia].
Qed.

(** ** Masks *)

Lemma strtoul_range s base : 0 <= base -> 0 <= fst (strtoul s base) < 2 ^ 64.
Proof.
  intros Hb. split; [by apply strtoul_nonneg|]. unfold strtoul.
  match goal with |- context [let '(neg, s2) := ?m in _] => destruct m as [neg s2] end.
  destruct (number_base base s2) as [b s3]. destruct (starts_digit b s3); [|done].
  destruct (read_digits b 0 s3) as [v r]. cbn [fst]. unfold ULONG_MAX. destruct (Z.ltb_spec (2 ^ 64 - 1) v); [lia|].
  destruct neg; [apply u64_range|lia].
Qed.

Lemma scan_lx_ok s v rest : scan_lx s = Some (v, rest) -> 0 <= v < 2 ^ 64 /\ (length rest < length s)%nat.
Proof.
  unfold scan_lx. pose proof (strtoul_range (skip_spaces s) 16 ltac:(lia)) as Hv. pose proof (strtoul_rest (skip_spaces s) 16) as Hr.
  pose proof (skip_spaces_length s). destruct (strtoul (skip_spaces s) 16) as [x r]. cbn [fst snd] in *.
  destruct (Nat.eqb_spec (length r) (length (skip_spaces s))); [done|]. cbn [orb]. destruct (lone_prefix _ _); [done|].
  intros [= <- <-]. split; [done|]. destruct Hr as [->|]; [done|lia].
Qed.

Definition masks_ok (maps : list Z) : Prop := Forall (fun m => 0 <= m < 2 ^ 64) maps.

Lemma read_maps_ok fuel file maps : (length file <= fuel)%nat -> masks_ok maps ->
  exists maps', read_maps fuel file maps = Some maps' /\ masks_ok maps' /\ (length maps' <= length maps + length file)%nat.
Proof.
  revert file maps. induction fuel as [|fuel IH]; intros file maps Hlen Hm.
  - destruct file; [|simpl in Hlen; lia]. exists maps. split; [done|]. split; [done|lia].
  - cbn [read_maps]. destruct (scan_lx file) as [[map rest]|] eqn:Hs; [|exists maps; split; [done|]; split; [done|lia]].
    apply scan_lx_ok in Hs as [Hv Hr].
    set (rest' := match rest with ","%char :: rest => rest | _ => rest end).
    assert (length rest' <= length rest)%nat as Hr' by (subst rest'; destruct rest as [|[[] [] [] [] [] [] [] []] r]; simpl; lia).
    destruct (IH rest' (if (map =? 0) && (length maps =? 0)%nat then maps else map :: maps)) as (maps' & -> & Hm' & Hl); [lia| |].
    + case_match; [done|]. by constructor.
    + exists maps'. split; [done|]. split; [done|]. case_match; cbn [length] in Hl; lia.
Qed.

Lemma pair_range m0 m1 : 0 <= m0 < 2 ^ 64 -> 0 <= Z.lor m0 (u64 (Z.shiftl m1 32)) < 2 ^ 64.
Proof.
  intros Hm. pose proof (u64_range (Z.shiftl m1 32)).
  apply (range_of_high_bits _ 64); [lia|apply Z.lor_nonneg; lia|]. intros k Hk.
  rewrite Z.lor_spec, !(testbit_high _ 64) by lia. done.
Qed.

Lemma set_maps_fin maps set i : masks_ok maps -> 0 <= i -> i + Z.of_nat (length maps) < CPU_MAX / 64 ->
  bfin (set_maps set i maps) = bfin set /\
  (small set -> small (set_maps set i maps)).
Proof.
  assert (forall set i m, 0 <= m < 2 ^ 64 -> 0 <= i < CPU_MAX / 64 -> small set -> small (b_set_ith_ulong set i m)) as Hone.
  { intros s i0 m Hm Hi Hsm k Hk. rewrite bm_set_ith by done. destruct (Z.eqb_spec (k / 64) i0) as [<-|]; [|by apply Hsm].
    intros _. unfold CPU_MAX in *. change (64 * (2 ^ 25 - 2) / 64) with (2 ^ 25 - 2) in Hi. pose proof (Z.mod_pos_bound k 64 ltac:(lia)).
    rewrite (Z.div_mod k 64) by lia. lia. }
  revert set i. induction maps as [|m|m0 m1 maps IH] using list_ind_pairs; intros set i Hm Hi Hlen; cbn [set_maps].
  - done.
  - apply Forall_cons in Hm as [Hm _]. cbn [length] in Hlen. rewrite bfin_set_ith by (done || lia). split; [done|].
    intros. apply Hone; [done|lia|done].
  - apply Forall_cons in Hm as [Hm0 Hm]. apply Forall_cons in Hm as [Hm1 Hm]. cbn [length] in Hlen.
    pose proof (pair_range m0 m1 Hm0) as Hp. unfold KERNEL_CPU_MASK_BITS.
    destruct (IH (b_set_ith_ulong set i (Z.lor m0 (u64 (Z.shiftl m1 32)))) (i + 1) Hm ltac:(lia) ltac:(lia)) as [-> Hs].
    rewrite bfin_set_ith by (done || lia). split; [done|]. intros. apply Hs, Hone; [done|lia|done].
Qed.

(** Contents that the arrays of a set can hold. *)
Definition file_max : Z := 2 ^ 25 - 3.

Lemma parse_cpumap_total file : Z.of_nat (length file) <= file_max ->
  exists set, hwloc_linux_parse_cpumap_file (B := B) file = Some set /\ bfin set = true /\ small set.
Proof.
  intros Hlen. unfold hwloc_linux_parse_cpumap_file, file_max in *.
  destruct (read_maps_ok (length file) file [] ltac:(lia) ltac:(constructor)) as (maps & -> & Hm & Hl). cbn [mbind option_bind length] in *.
  destruct (set_maps_fin maps b_alloc 0 Hm ltac:(lia)) as [Hf Hs]; [change (CPU_MAX / 64) with (2 ^ 25 - 2); lia|].
  eexists. split; [done|]. rewrite Hf, bfin_alloc. split; [done|]. apply Hs. intros i Hi. by rewrite bm_alloc.
Qed.

(** CPU [i] is in the masks, the lowest one first. *)
Definition in_masks (maps : list Z) (i : Z) : bool :=
  match maps !! Z.to_nat (i / 32) with Some m => Z.testbit m (i mod 32) | None => false end.

Definition masks32 (maps : list Z) : Prop := Forall (fun m => 0 <= m < 2 ^ 32) maps.

Lemma in_masks_cons m maps i : 0 <= i -> in_masks (m :: maps) i = if i <? 32 then Z.testbit m i else in_masks maps (i - 32).
Proof.
  intros Hi. unfold in_masks. destruct (Z.ltb_spec i 32).
  - rewrite Z.div_small, Z.mod_small by lia. done.
  - assert (i / 32 = (i - 32) / 32 + 1 /\ i mod 32 = (i - 32) mod 32) as [-> ->].
    { pose proof (Z.div_add (i - 32) 1 32 ltac:(lia)) as Hd. pose proof (Z.mod_add (i - 32) 1 32 ltac:(lia)) as Hm.
      replace (i - 32 + 1 * 32) with i in * by lia. done. }
    pose proof (Z.div_pos (i - 32) 32 ltac:(lia) ltac:(lia)). rewrite Z2Nat.inj_add by lia.
    change (Z.to_nat 1) with 1%nat. rewrite Nat.add_1_r. done.
Qed.

Lemma set_maps_bits maps set i : masks32 maps -> 0 <= i -> i + Z.of_nat (length maps) < CPU_MAX / 64 ->
  (forall k, 64 * i <= k -> bm set k = false) ->
  forall k, 0 <= k -> bm (set_maps set i maps) k = if k <? 64 * i then bm set k else in_masks maps (k - 64 * i).
Proof.
  revert set i. induction maps as [|m|m0 m1 maps IH] using list_ind_pairs; intros set i Hm Hi Hlen Hno k Hk; cbn [set_maps].
  - destruct (Z.ltb_spec k (64 * i)); [done|]. rewrite Hno by done. done.
  - apply Forall_cons in Hm as [Hm _]. cbn [length] in Hlen. rewrite bm_set_ith by lia.
    divmod64 k. destruct (Z.eqb_spec (k / 64) i) as [He|Hne]; destruct (Z.ltb_spec k (64 * i)); try lia.
    + rewrite in_masks_cons by lia. replace (k - 64 * i) with (k mod 64) by lia. destruct (Z.ltb_spec (k mod 64) 32); [done|].
      rewrite (testbit_high m 32) by lia. done.
    + rewrite Hno by lia. rewrite in_masks_cons by lia. rewrite (proj2 (Z.ltb_ge _ _)) by lia. done.
  - apply Forall_cons in Hm as [Hm0 Hm]. apply Forall_cons in Hm as [Hm1 Hm]. cbn [length] in Hlen. unfold KERNEL_CPU_MASK_BITS.
    set (word := Z.lor m0 (u64 (Z.shiftl m1 32))). assert (0 <= word < 2 ^ 64) as Hw by (apply pair_range; lia).
    assert (forall j, 0 <= j < 64 -> Z.testbit word j = if j <? 32 then Z.testbit m0 j else Z.testbit m1 (j - 32)) as Hbits.
    { intros j Hj. unfold word. rewrite Z.lor_spec, testbit_u64, Z.shiftl_spec, (proj2 (Z.ltb_lt j 64)) by lia. cbn [andb].
      destruct (Z.ltb_spec j 32).
      - rewrite (Z.testbit_neg_r m1) by lia. apply orb_false_r.
      - by rewrite (testbit_high m0 32) by lia. }
    rewrite IH; [|done|lia|lia| |done].
    + divmod64 k. rewrite bm_set_ith by lia. destruct (Z.ltb_spec k (64 * (i + 1))), (Z.ltb_spec k (64 * i)); try lia.
      * by rewrite (proj2 (Z.eqb_neq (k / 64) i)) by lia.
      * rewrite (proj2 (Z.eqb_eq (k / 64) i)), Hbits by lia. rewrite in_masks_cons by lia. replace (k - 64 * i) with (k mod 64) by lia.
        destruct (Z.ltb_spec (k mod 64) 32); [done|]. rewrite in_masks_cons by lia.
        by rewrite (proj2 (Z.ltb_lt (k mod 64 - 32) 32)) by lia.
      * rewrite !in_masks_cons by lia. rewrite (proj2 (Z.ltb_ge (k - 64 * i) 32)), (proj2 (Z.ltb_ge (k - 64 * i - 32) 32)) by lia. f_equal. lia.
    + intros j Hj. divmod64 j. rewrite bm_set_ith by lia. rewrite (proj2 (Z.eqb_neq _ _)) by lia. apply Hno. lia.
Qed.

End Reading.

(** ** The bitmaps implement it *)

#[export] Instance bitmap_cpumap_ops `{Malloc} : CpumapOps wbitmap := {
  b_set_ith_ulong a x m := as_wbitmap (hwloc_bitmap_set_ith_ulong (w a) x m);
  b_set_range a b e := as_wbitmap (hwloc_bitmap_set_range (w a) b e);
  b_clr_range a b e := as_wbitmap (hwloc_bitmap_clr_range (w a) b e);
}.

Section Implementation.
Context `{MallocTotal}.
Implicit Types a : wbitmap.

Lemma set_ith_count s x m r : wf s -> 0 <= x < 2 ^ 25 - 2 -> hwloc_bitmap_set_ith_ulong s x m = Some r ->
  ulongs_count r = Z.max (ulongs_count s) (x + 1).
Proof.
  intros Hs Hx. unfold hwloc_bitmap_set_ith_ulong. rewrite u32_small by lia.
  destruct (realloc_ok s (x + 1) Hs ltac:(unfold MAX_COUNT; lia)) as (s1 & -> & Hs1 & Hc & _). cbn [mbind option_bind].
  destruct (ulongs_set_ok s1 x m (wf_array _ Hs1)) as (r' & -> & Hsh & _); [destruct (wf_array _ Hs1); lia|].
  intros [= <-]. destruct Hsh as (-> & _). done.
Qed.

Lemma range_words_count s b e mid upd r : wf s -> 0 <= b <= e -> e / 64 < ulongs_count s ->
  range_words s b e mid upd = Some r -> ulongs_count r = ulongs_count s.
Proof.
  intros Hs Hbe He Hr. destruct (range_words_nthw s b e mid upd) as (r' & Hr' & Hsh & _);
    [apply Hs|lia|destruct (wf_array _ Hs); lia|].
  rewrite Hr' in Hr. injection Hr as <-. by destruct Hsh as (-> & _).
Qed.

(** Both operations on ranges grow the array up to the end of the range at most. *)
Lemma range_count (inf : bool) s b e mid upd r : wf s -> int_sized s -> 0 <= b -> 0 <= e < CPU_MAX ->
  (let endcpu := if inf && (count_bits s <=? e) then u32 (count_bits s - 1) else e in
   if inf && (count_bits s <=? b) then Some s else
   if endcpu <? b then Some s else
   let! s := hwloc_bitmap_realloc_by_cpu_index s endcpu in range_words s b endcpu mid upd) = Some r ->
  int_sized r.
Proof.
  intros Hs Hsz Hb He. cbv zeta. destruct (small_cpu e He) as [He1 He2]. pose proof (wf_count s Hs).
  unfold int_sized in *. rewrite count_bits_small by done.
  set (endcpu := if inf && (64 * ulongs_count s <=? e) then u32 (64 * ulongs_count s - 1) else e).
  assert (0 <= endcpu <= e) as Hend.
  { subst endcpu. destruct inf; cbn [andb]; [|lia]. destruct (Z.leb_spec (64 * ulongs_count s) e); [|lia].
    rewrite u32_small by (unfold CPU_MAX in *; lia). lia. }
  clearbody endcpu. case_match; [intros Hr; injection Hr as <-; done|].
  destruct (Z.ltb_spec endcpu b); [intros Hr; injection Hr as <-; done|].
  destruct (realloc_cpu_ok s endcpu Hs ltac:(lia)) as (s1 & -> & Hs1 & Hidx & _ & Hc & _). cbn [mbind option_bind].
  intros Hr%range_words_count; [|done|lia|lia]. rewrite Hr, Hc.
  assert (endcpu / 64 <= e / 64) by (apply Z.div_le_mono; lia). lia.
Qed.

Lemma cpumap_ith_law a x m : 0 <= x < CPU_MAX / 64 -> 0 <= m < 2 ^ 64 ->
  let r := w (b_set_ith_ulong a x m) in
  infinite r = infinite (w a) /\ forall i, 0 <= i -> mem r i = if i / 64 =? x then Z.testbit m (i mod 64) else mem (w a) i.
Proof.
  intros Hx Hm. destruct (w_ok a) as [Hw Hsz]. change (CPU_MAX / 64) with (2 ^ 25 - 2) in Hx.
  apply (as_wbitmap_ok _ (fun r => infinite r = infinite (w a) /\
    forall i, 0 <= i -> mem r i = if i / 64 =? x then Z.testbit m (i mod 64) else mem (w a) i)).
  destruct (set_ith_ulong_ok (w a) x m Hw) as (r & Hr & Hwf & Hi & Hmem); [unfold MAX_COUNT; lia|done|].
  exists r. split; [done|]. split_and!; [done| |done|done]. unfold int_sized in *.
  rewrite (set_ith_count _ _ _ _ Hw Hx Hr). lia.
Qed.

Lemma set_range_law a b e : 0 <= b < CPU_MAX -> 0 <= e < CPU_MAX ->
  let r := w (b_set_range a b e) in
  infinite r = infinite (w a) /\ forall i, 0 <= i -> mem r i = between b e i || mem (w a) i.
Proof.
  intros Hb He. destruct (w_ok a) as [Hw Hsz]. destruct (small_cpu b Hb), (small_cpu e He).
  apply (as_wbitmap_ok _ (fun r => infinite r = infinite (w a) /\ forall i, 0 <= i -> mem r i = between b e i || mem (w a) i)).
  destruct (set_range_ok (w a) b e Hw) as (r & Hr & Hwf & Hi & Hmem); [done..|].
  exists r. split; [done|]. split_and!; [done| |done|done].
  unfold hwloc_bitmap_set_range in Hr. cbv zeta in Hr. rewrite (proj2 (Z.eqb_neq e (-1))), u32_small in Hr by (unfold CPU_MAX in *; lia).
  eapply range_count; [exact Hw|done|apply Hb|exact He|exact Hr].
Qed.

Lemma clr_range_law a b e : 0 <= b < CPU_MAX -> 0 <= e < CPU_MAX ->
  let r := w (b_clr_range a b e) in
  infinite r = infinite (w a) /\ forall i, 0 <= i -> mem r i = negb (between b e i) && mem (w a) i.
Proof.
  intros Hb He. destruct (w_ok a) as [Hw Hsz]. destruct (small_cpu b Hb), (small_cpu e He).
  apply (as_wbitmap_ok _ (fun r => infinite r = infinite (w a) /\ forall i, 0 <= i -> mem r i = negb (between b e i) && mem (w a) i)).
  destruct (clr_range_ok (w a) b e Hw) as (r & Hr & Hwf & Hi & Hmem); [done..|].
  exists r. split; [done|]. split_and!; [done| |done|done].
  unfold hwloc_bitmap_clr_range in Hr. cbv zeta in Hr. rewrite (proj2 (Z.eqb_neq e (-1))), u32_small in Hr by (unfold CPU_MAX in *; lia).
  eapply range_count; [exact Hw|done|apply Hb|exact He|exact Hr].
Qed.

#[export] Instance bitmap_cpumap : Cpumap wbitmap.
Proof.
  split; intros; cbn [bm bfin bitmap_cpuset_ops].
  - by apply cpumap_ith_law.
  - f_equal. by apply cpumap_ith_law.
  - by apply set_range_law.
  - f_equal. by apply set_range_law.
  - by apply clr_range_law.
  - f_equal. by apply clr_range_law.
Qed.

End Implementation.
