(* ===== verification/LinuxCpus.v ===== *)
(** * LinuxCpus: CPUs, cores, sockets and caches of Linux ([src/topology-linux.c])

    [look_sysfscpu] (the topology and cache files of each CPU), the device tree of
    PowerPC machines, and [/proc/cpuinfo].  A division by 0, a pointer to an object or
    a set that was freed, and an access out of an array are [None]. *)

From Stdlib Require Import Ascii String.
From S2P Require Import Prelude Misc Bitmap CString BitmapString Cpuset Obj Insert Shape Synthetic Scan Distances LinuxFiles.

(** A [long] from its unsigned value. *)
Definition s64 (x : Z) : Z := (x + 2 ^ 63) mod 2 ^ 64 - 2 ^ 63.

Record hwloc_linux_cpuinfo_proc := mk_proc {
  Pproc : Z;
  Pcore : Z;
  Psock : Z;
  Lcore : Z;
  Lsock : Z;
  cpumodel : option chars;
}.

Section Cpus.
Context {B : Type} `{CpusetOps B} `{!CpumapOps B}.
Context (fs : file_system).

(** ** What the backend updates *)

Record linux_state := mk_linux {
  x_root : obj_tree B;                         (** [levels[0][0]] *)
  x_next : Z;                                  (** the next address *)
  x_distances : list hwloc_os_distances_s;
}.

Definition on_top (f : hwloc_obj B -> hwloc_obj B) (st : linux_state) : linux_state :=
  let 'Node o ch := x_root st in mk_linux (Node (f o) ch) (x_next st) (x_distances st).

(** [hwloc_alloc_setup_object] with a cpuset. *)
Definition alloc_with_cpuset (st : linux_state) (type : hwloc_obj_type_t) (os_index : Z) (cpuset : B) : hwloc_obj B :=
  with_cpuset (hwloc_alloc_setup_object (x_next st) type os_index) (Some cpuset).

(** [hwloc_insert_object_by_cpuset]: whether the object was inserted; otherwise it was
    freed. *)
Definition insert_object (st : linux_state) (obj : hwloc_obj B) : option (bool * linux_state) :=
  let! (r, root) := hwloc__insert_object_by_cpuset (x_root st) obj in
  Some (match r with Inserted => true | NotInserted _ => false end, mk_linux root (x_next st + 1) (x_distances st)).

Definition put_infos (l : list (string * chars)) (o : hwloc_obj B) : hwloc_obj B :=
  foldl (fun o '(name, value) => hwloc_obj_add_info o name (string_of_list_ascii value)) o l.

(** The infos added to the object at an address after its insertion. *)
Definition add_infos (st : linux_state) (addr : Z) (inserted : bool) (l : list (string * chars)) : option linux_state :=
  match l with
  | [] => Some st
  | _ =>
      require! inserted in
      Some (mk_linux (tmap (fun o => if o_addr o =? addr then put_infos l o else o) (x_root st)) (x_next st) (x_distances st))
  end.

(** ** Caches of the device tree *)

Definition hwloc_read_raw (p p1 : chars) : option chars := hwloc_fopen fs (p ++ "/"%char :: p1).

(** The outer [None] reads an empty block as a string, the inner one is NULL. *)
Definition hwloc_read_str (p p1 : chars) : option (option chars) :=
  match hwloc_read_raw p p1 with
  | None => Some None
  | Some [] => None
  | Some s => Some (Some (cstring s))
  end.

Definition be32 (a b c d : ascii) : Z :=
  ((char_code a * 256 + char_code b) * 256 + char_code c) * 256 + char_code d.

(** What is written at [buf] when the property has 4 bytes. *)
Definition hwloc_read_unit32be (p p1 : chars) : option Z :=
  match hwloc_read_raw p p1 with
  | Some [a; b; c; d] => Some (be32 a b c d)
  | _ => None
  end.

Fixpoint read_threads (s : chars) : list Z :=
  match s with
  | a :: b :: c :: d :: s => be32 a b c d :: read_threads s
  | _ => []
  end.

Record device_tree_cpu := mk_dt {
  dt_cpuset : option B;
  dt_phandle : Z;
  dt_l2_cache : Z;
  dt_name : chars;
}.

(** An entry of the loop; [below] looks at the caches below it. *)
Definition discover_entry (below : Z -> Z -> B -> option (bool * Z * B)) (phandle : Z) (acc : option (bool * Z * B)) (c : device_tree_cpu)
  : option (bool * Z * B) :=
  let! (found, level, cpuset) := acc in
  if negb (phandle =? dt_l2_cache c) then Some (found, level, cpuset) else
  match dt_cpuset c with
  | Some s => Some (true, level, b_or cpuset s)
  | None =>
      let! (found_below, level, cpuset) := below (dt_phandle c) (u32 (level + 1)) cpuset in
      Some (found || found_below, level, cpuset)
  end.

(** [fuel] bounds the recursion: caches that lead back to themselves never end. *)
Fixpoint look_powerpc_device_tree_discover_cache (fuel : nat) (cpus : list device_tree_cpu) (phandle level : Z) (cpuset : B)
  : option (bool * Z * B) :=
  match fuel with
  | O => None
  | S fuel =>
      if phandle =? UINT_MAX then Some (false, level, cpuset) else
      foldl (discover_entry (look_powerpc_device_tree_discover_cache fuel cpus) phandle) (Some (false, level, cpuset)) cpus
  end.

Definition try_add_cache_from_device_tree_cpu (st : linux_state) (cpu : chars) (level : Z) (cpuset : B)
  : option linux_state :=
  let property name := default 0 (hwloc_read_unit32be cpu (txt name)) in
  let d_cache_line_size := property "d-cache-line-size" in
  let d_cache_size := property "d-cache-size" in
  let d_cache_sets := property "d-cache-sets" in
  if (d_cache_line_size =? 0) && (d_cache_size =? 0) then Some st else
  let d_cache_sets := if d_cache_sets =? 1 then 0 else d_cache_sets in
  let! associativity :=
    if d_cache_sets =? 0 then Some 0 else
    let line := u32 (d_cache_sets * d_cache_line_size) in
    require! negb (line =? 0) in Some (s32 (d_cache_size / line)) in
  let c := with_attr (alloc_with_cpuset st HWLOC_OBJ_CACHE (-1) cpuset) (AttrCache d_cache_size level d_cache_line_size associativity) in
  let! (_, st) := insert_object st c in
  Some st.

Definition ofroot : chars := txt "/proc/device-tree/cpus".

(** [(unsigned) -1] when none of the properties is there. *)
Fixpoint first_property (cpu : chars) (names : list string) : Z :=
  match names with
  | [] => UINT_MAX
  | name :: names =>
      match hwloc_read_unit32be cpu (txt name) with
      | Some v => v
      | None => first_property cpu names
      end
  end.

(** The CPUs of an entry: the known ones among its threads, or its register. *)
Definition entry_cpuset (complete : B) (cpu : chars) (reg : Z) : option B :=
  match hwloc_read_raw cpu (txt "ibm,ppc-interrupt-server#s") with
  | Some s => Some (foldl (fun set t => if b_isset complete t then b_set set t else set) b_alloc (read_threads s))
  | None => if negb (reg =? UINT_MAX) then Some (b_set b_alloc reg) else None
  end.

(** One entry of the directory. *)
Definition look_device (name : chars) (acc : linux_state * list device_tree_cpu)
  : option (linux_state * list device_tree_cpu) :=
  let '(st, cpus) := acc in
  if match name with "."%char :: _ => true | _ => false end then Some acc else
  let cpu := ofroot ++ "/"%char :: name in
  if negb (hwloc_stat_isdir fs cpu) then Some acc else
  let! device_type := hwloc_read_str cpu (txt "device_type") in
  match device_type with
  | None => Some acc
  | Some device_type =>
      let reg := first_property cpu ["reg"] in
      let l2_cache := first_property cpu ["next-level-cache"; "l2-cache"] in
      let phandle := first_property cpu ["phandle"; "ibm,phandle"; "linux,phandle"] in
      if bool_decide (device_type = txt "cache") then
        Some (st, cpus ++ [mk_dt None phandle l2_cache name])
      else if bool_decide (device_type = txt "cpu") then
        let! complete := complete_cpuset (sets (t_obj (x_root st))) in
        match entry_cpuset complete cpu reg with
        | None => Some acc
        | Some cpuset =>
            let! (_, st) := insert_object st (alloc_with_cpuset st HWLOC_OBJ_CORE reg cpuset) in
            let! st := try_add_cache_from_device_tree_cpu st cpu 1 cpuset in
            Some (st, cpus ++ [mk_dt (Some cpuset) phandle l2_cache name])
        end
      else Some acc
  end.

Fixpoint each_entry {S} (f : chars -> S -> option S) (l : list chars) (s : S) : option S :=
  match l with [] => Some s | x :: l => let! s := f x s in each_entry f l s end.

(** The caches of the levels above. *)
Definition look_upper_cache (cpus : list device_tree_cpu) (st : linux_state) (c : device_tree_cpu) : option linux_state :=
  match dt_cpuset c with
  | Some _ => Some st
  | None =>
      let! (found, level, cpuset) :=
        look_powerpc_device_tree_discover_cache (S (length cpus)) cpus (dt_phandle c) 2 b_alloc in
      if found : bool then try_add_cache_from_device_tree_cpu st (ofroot ++ "/"%char :: dt_name c) level cpuset
      else Some st
  end.

Definition look_powerpc_device_tree (st : linux_state) : option linux_state :=
  match hwloc_opendir fs ofroot with
  | None => Some st
  | Some entries =>
      let! (st, cpus) := each_entry look_device entries (st, []) in
      foldl (fun st c => let! st := st in look_upper_cache cpus st c) (Some st) cpus
  end.

(** ** The topology files of each CPU *)

Section Sysfs.
Context (path : chars).                             (** the directory of the CPUs *)
Context (Lprocs : list hwloc_linux_cpuinfo_proc).   (** what [/proc/cpuinfo] told *)
Context (machine : chars).                          (** [utsname.machine] *)

Definition cpu_path (cpu : Z) (file : string) : option chars :=
  sprintf 128 (path ++ txt "/cpu" ++ fmt_d cpu ++ txt file).

(** The CPU may be offline. *)
Definition look_online (cpu : Z) (str : chars) (st : linux_state) : option linux_state :=
  match first_line fs 2 str with
  | Some online =>
      if atoi online =? 0 then
        let! on := online_cpuset (sets (t_obj (x_root st))) in
        Some (on_top (fun o => with_online_cpuset o (Some (b_clr on (u32 cpu)))) st)
      else Some st
  | None => Some st
  end.

(** An entry of the directory: the CPU is known to exist, may be offline, and has
    topology files or not. *)
Definition list_cpu (name : chars) (acc : linux_state * B) : option (linux_state * B) :=
  let '(st, cpuset) := acc in
  match starts_with "cpu" name with
  | None => Some acc
  | Some number =>
      let cpu := fst (strtoul number 0) in
      let! complete := complete_cpuset (sets (t_obj (x_root st))) in
      let st := on_top (fun o => with_complete_cpuset o (Some (b_set complete (u32 cpu)))) st in
      let! str := cpu_path cpu "/online" in
      let! st := look_online cpu str st in
      let! str := cpu_path cpu "/topology" in
      if hwloc_access_missing fs str then Some (st, cpuset) else Some (st, b_set cpuset (u32 cpu))
  end.

Definition cpu_models (i : Z) : list (string * chars) :=
  omap (fun p => if s32 (Pproc p) =? i then (fun m => ("CPUModel"%string, m)) <$> cpumodel p else None) Lprocs.

Definition cpu_type : list (string * chars) :=
  match machine with [] => [] | _ => [("CPUType"%string, machine)] end.

Definition look_socket (i : Z) (st : linux_state) : option linux_state :=
  let! str := cpu_path i "/topology/physical_package_id" in
  let '(_, mysocketid) := hwloc_parse_sysfs_unsigned fs str in
  let! str := cpu_path i "/topology/core_siblings" in
  let! socketset := hwloc_parse_cpumap fs str in
  match socketset with
  | Some set =>
      if b_first set =? i then
        let sock := alloc_with_cpuset st HWLOC_OBJ_SOCKET mysocketid set in
        let! (inserted, st) := insert_object st sock in
        add_infos st (o_addr sock) inserted (cpu_models i ++ cpu_type)
      else Some st
  | None => Some st
  end.

(** Whether the CPU shares the core of another one but not its number. *)
Definition thread_with_core_id (i : Z) (coreset : option B) (mycoreid : Z) : option bool :=
  match coreset with
  | Some set =>
      if 1 <? b_weight set then
        let siblingid := b_first (b_clr set i) in
        let! str := cpu_path siblingid "/topology/core_id" in
        let '(_, siblingcoreid) := hwloc_parse_sysfs_unsigned fs str in
        Some (negb (siblingcoreid =? mycoreid))
      else Some false
  | None => Some false
  end.

(** Also [savedcoreset], and whether it was freed with the core. *)
Definition look_core (i : Z) (st : linux_state) : option (option B * bool * linux_state) :=
  let! str := cpu_path i "/topology/core_id" in
  let '(_, mycoreid) := hwloc_parse_sysfs_unsigned fs str in
  let! str := cpu_path i "/topology/thread_siblings" in
  let! coreset := hwloc_parse_cpumap fs str in
  let! threadwithcoreid := thread_with_core_id i coreset mycoreid in
  match coreset with
  | Some set =>
      if (b_first set =? i) || threadwithcoreid then
        let core := alloc_with_cpuset st HWLOC_OBJ_CORE mycoreid (if threadwithcoreid then b_set b_alloc i else set) in
        let! (inserted, st) := insert_object st core in
        Some (coreset, negb threadwithcoreid && negb inserted, st)
      else Some (coreset, false, st)
  | None => Some (None, false, st)
  end.

Definition look_book (i : Z) (st : linux_state) : option linux_state :=
  let! str := cpu_path i "/topology/book_id" in
  let '(err, mybookid) := hwloc_parse_sysfs_unsigned fs str in
  if negb (err =? 0) then Some st else
  let! str := cpu_path i "/topology/book_siblings" in
  let! bookset := hwloc_parse_cpumap fs str in
  match bookset with
  | Some set =>
      if b_first set =? i then
        let! (_, st) := insert_object st (alloc_with_cpuset st HWLOC_OBJ_GROUP mybookid set) in
        Some st
      else Some st
  | None => Some st
  end.

Definition look_thread (i : Z) (st : linux_state) : option linux_state :=
  let! (_, st) := insert_object st (alloc_with_cpuset st HWLOC_OBJ_PU i (b_only i)) in
  Some st.

Definition cache_path (i j : Z) (file : string) : option chars :=
  cpu_path i ("/cache/index" ++ string_of_list_ascii (fmt_d j) ++ file).

(** [if (fgets(...)) x = atol(...)]: [d] when there is nothing to read. *)
Definition cache_number (i j : Z) (file : string) (d : Z) : option Z :=
  let! mappath := cache_path i j file in
  Some match first_line fs 20 mappath with Some str2 => atol str2 | None => d end.

(** The attributes: the associativity comes from the number of sets. *)
Definition cache_attr (i j depth : Z) : option hwloc_obj_attr_u :=
  let! kB := cache_number i j "/size" 0 in
  let! linesize := cache_number i j "/coherency_line_size" 0 in
  let! nsets := cache_number i j "/number_of_sets" 0 in
  let! lines_per_tag := cache_number i j "/physical_line_partition" 1 in
  let size := u64 (Z.shiftl (u64 kB) 10) in
  let linesize := u32 linesize in
  let nsets := u32 nsets in
  let lines_per_tag := u32 lines_per_tag in
  require! (depth <? INT_MAX) in
  let! associativity :=
    if (nsets =? 0) || (nsets =? 1) then Some 0 else
    require! negb (linesize =? 0) && negb (lines_per_tag =? 0) in
    Some (s32 (size / linesize / lines_per_tag / nsets)) in
  Some (AttrCache size (u32 (depth + 1)) linesize associativity).

(** The depth, unless the cache is for instructions or has no files. *)
Definition cache_depth_of (i j : Z) : option (option Z) :=
  let! mappath := cache_path i j "/level" in
  match first_line fs 20 mappath with
  | None => Some None
  | Some str2 =>
      let! mappath := cache_path i j "/type" in
      match first_line fs 20 mappath with
      | None => Some None
      | Some type =>
          if bool_decide (is_Some (starts_with "Instruction" type)) then Some None
          else Some (Some (s32 (u64 (number str2 - 1))))
      end
  end.

Definition look_cache (saved : option B) (freed : bool) (i j : Z) (acc : linux_state * Z) : option (linux_state * Z) :=
  let '(st, caches_added) := acc in
  let! depth := cache_depth_of i j in
  match depth with
  | None => Some acc
  | Some depth =>
      let! mappath := cache_path i j "/shared_cpu_map" in
      let! cacheset := hwloc_parse_cpumap fs mappath in
      match cacheset with
      | None => Some acc
      | Some set =>
          let! set :=
            if b_weight set <? 1 then
              match saved with
              | Some s => require! negb freed in Some s
              | None => Some (b_only i)
              end
            else Some set in
          if b_first set =? i then
            let! attr := cache_attr i j depth in
            let! (_, st) := insert_object st (with_attr (alloc_with_cpuset st HWLOC_OBJ_CACHE (-1) set) attr) in
            Some (st, u32 (caches_added + 1))
          else Some acc
      end
  end.

(** A CPU that has topology files. *)
Definition look_cpu (i : Z) (acc : linux_state * Z) : option (linux_state * Z) :=
  let '(st, caches_added) := acc in
  let! st := look_socket i st in
  let! (saved, freed, st) := look_core i st in
  let! st := look_book i st in
  let! st := look_thread i st in
  for_up 0 10 (look_cache saved freed i) (st, caches_added).

Fixpoint each_cpu (l : list Z) (acc : linux_state * Z) : option (linux_state * Z) :=
  match l with
  | [] => Some acc
  | i :: l => let! acc := look_cpu i acc in each_cpu l acc
  end.

(** The int returned. *)
Definition look_sysfscpu (st : linux_state) : option (Z * linux_state) :=
  match hwloc_opendir fs path with
  | None => Some (-1, st)
  | Some entries =>
      let! (st, cpuset) := each_entry list_cpu entries (st, b_alloc) in
      let! cpus := each_member cpuset in
      let! (st, caches_added) := each_cpu cpus (st, 0) in
      let! st := if caches_added =? 0 then look_powerpc_device_tree st else Some st in
      Some (0, st)
  end.

End Sysfs.

(** ** [/proc/cpuinfo] *)

Definition letter (s : chars) : bool :=
  match s with c :: _ => (97 <=? char_code c) && (char_code c <=? 122) | [] => false end.

Definition blank_char (c : ascii) : bool := (c =? " ")%char || (c =? "009")%char.

Fixpoint skip_blank (s : chars) : chars :=
  match s with c :: s' => if blank_char c then skip_blank s' else s | [] => [] end.

(** The prefix before the colon, without its last blanks. *)
Definition trim (s : chars) : chars := rev (skip_blank (rev s)).

Definition model_field (prefix : chars) : bool :=
  bool_decide (prefix = txt "model name") || bool_decide (prefix = txt "Processor") ||
  bool_decide (prefix = txt "chip type") || bool_decide (prefix = txt "cpu model") ||
  strcaseeq "cpu" (string_of_list_ascii prefix).

Definition hwloc_linux_parse_cpuinfo_model (prefix value : chars) (model : option chars) : option chars :=
  if model_field prefix then Some (default value model) else model.

(** The lines read: the processors, the last one first, and the global model. *)
Definition cpuinfo : Type := list hwloc_linux_cpuinfo_proc * option chars.

(** [getprocnb_begin]: -1 is returned without a number or with ULONG_MAX. *)
Definition getprocnb (value : chars) : option Z :=
  let '(var, endptr) := strtoul value 0 in
  if (length endptr =? length value)%nat || (var =? ULONG_MAX) then None else Some var.

Definition with_Psock (p : hwloc_linux_cpuinfo_proc) (v : Z) := mk_proc (Pproc p) (Pcore p) v (Lcore p) (Lsock p) (cpumodel p).
Definition with_Pcore (p : hwloc_linux_cpuinfo_proc) (v : Z) := mk_proc (Pproc p) v (Psock p) (Lcore p) (Lsock p) (cpumodel p).
Definition with_Lsock (p : hwloc_linux_cpuinfo_proc) (v : Z) := mk_proc (Pproc p) (Pcore p) (Psock p) (Lcore p) v (cpumodel p).
Definition with_Lcore (p : hwloc_linux_cpuinfo_proc) (v : Z) := mk_proc (Pproc p) (Pcore p) (Psock p) v (Lsock p) (cpumodel p).
Definition with_cpumodel (p : hwloc_linux_cpuinfo_proc) (v : option chars) := mk_proc (Pproc p) (Pcore p) (Psock p) (Lcore p) (Lsock p) v.

(** [Lprocs[numprocs-1]]: out of the array before the first processor. *)
Definition on_last (f : hwloc_linux_cpuinfo_proc -> hwloc_linux_cpuinfo_proc) (c : cpuinfo) : option cpuinfo :=
  match c with (p :: procs, global) => Some (f p :: procs, global) | ([], _) => None end.

(** A field: [Some None] returns -1. *)
Definition cpuinfo_field (prefix value : chars) (c : cpuinfo) : option (option cpuinfo) :=
  let numbered (k : Z -> option cpuinfo) :=
    match getprocnb value with Some v => let! c := k v in Some (Some c) | None => Some None end in
  let '(procs, global) := c in
  if bool_decide (prefix = txt "processor") then
    numbered (fun v => Some (mk_proc v (-1) (-1) (-1) (-1) global :: procs, global))
  else if bool_decide (prefix = txt "physical id") then numbered (fun v => on_last (fun p => with_Psock p (s64 v)) c)
  else if bool_decide (prefix = txt "core id") then numbered (fun v => on_last (fun p => with_Pcore p (s64 v)) c)
  else
    match procs with
    | p :: procs =>
        Some (Some (with_cpumodel p (hwloc_linux_parse_cpuinfo_model prefix value (cpumodel p)) :: procs, global))
    | [] => Some (Some ([], hwloc_linux_parse_cpuinfo_model prefix value global))
    end.

(** The loop on the lines, which have a character at least: [Some None] returns -1.
    The end of a line that is too long is dropped when its start was used. *)
Fixpoint parse_cpuinfo_lines (fuel : nat) (fd : chars) (c : cpuinfo) : option (option cpuinfo) :=
  match fgets 128 fd with
  | None => Some (Some c)
  | Some (str, fd) =>
      match fuel with
      | O => None
      | S fuel =>
          let noend := negb (existsb (fun d => (d =? "010")%char) str) in
          let str := cut_line str in
          match char_split ":" str with
          | None => parse_cpuinfo_lines fuel fd c
          | Some (before, rest) =>
              if negb (letter str) then parse_cpuinfo_lines fuel fd c else
              let! r := cpuinfo_field (trim before) (skip_blank rest) c in
              match r with
              | None => Some None
              | Some c =>
                  if noend then
                    match fd with
                    | [] => Some (Some c)
                    | _ => parse_cpuinfo_lines fuel (match char_split "010" fd with Some (_, fd) => fd | None => [] end) c
                    end
                  else parse_cpuinfo_lines fuel fd c
              end
          end
      end
  end.

(** The processors in order; [Some None] is -1. *)
Definition hwloc_linux_parse_cpuinfo (path : chars) : option (option (list hwloc_linux_cpuinfo_proc)) :=
  match hwloc_fopen fs path with
  | None => Some None
  | Some fd =>
      let! r := parse_cpuinfo_lines (length fd) fd ([], None) in
      Some (match r with Some (procs, _) => Some (rev procs) | None => None end)
  end.

(** [allocated_Lprocs] *)
Fixpoint allocated (fuel : nat) (n a : Z) : Z :=
  match fuel with O => a | S fuel => if n <=? a then a else allocated fuel n (2 * a) end.
Definition allocated_Lprocs (n : Z) : Z := allocated (Z.to_nat n) n 8.

(** The first index of [x] from [i] on. *)
Fixpoint index_of {A} (eqb : A -> bool) (l : list A) (i : Z) : Z :=
  match l with [] => i | x :: l => if eqb x then i else index_of eqb l (i + 1) end.

(** The numbering of the sockets (of the cores): each processor that has a number gets
    the index [i] of it in the array [known] of the numbers met so far. *)
Fixpoint number_procs {A} (has : hwloc_linux_cpuinfo_proc -> option A) (eqb : A -> A -> bool)
    (put : hwloc_linux_cpuinfo_proc -> Z -> hwloc_linux_cpuinfo_proc)
    (procs : list hwloc_linux_cpuinfo_proc) (known : list A) (i : Z)
  : list hwloc_linux_cpuinfo_proc * list A * Z :=
  match procs with
  | [] => ([], known, i)
  | p :: procs =>
      match has p with
      | None => let '(procs, known, i) := number_procs has eqb put procs known i in (p :: procs, known, i)
      | Some x =>
          let k := index_of (eqb x) known 0 in
          let known := if k =? Z.of_nat (length known) then known ++ [x] else known in
          let '(procs, known, i) := number_procs has eqb put procs known k in (put p k :: procs, known, i)
      end
  end.

(** The numbers that the file gives: of a socket, of a core in its socket. *)
Definition socket_number (p : hwloc_linux_cpuinfo_proc) : option Z := if Psock p =? -1 then None else Some (u32 (Psock p)).
Definition core_number (p : hwloc_linux_cpuinfo_proc) : option (Z * Z) :=
  if Pcore p =? -1 then None else Some (u32 (Pcore p), u32 (Psock p)).
Definition same_core (c d : Z * Z) : bool := (fst c =? fst d) && (snd c =? snd d).

(** [Lprocs[i].Psock == -1] as the code has it, with the [i] that the loops before leave:
    behind the processors it is not initialised, and no socket was found then. *)
Definition missing_at (procs : list hwloc_linux_cpuinfo_proc) (number : hwloc_linux_cpuinfo_proc -> Z) (i : Z) : option bool :=
  match procs !! Z.to_nat i with
  | Some p => Some (number p =? -1)
  | None => require! (i <? allocated_Lprocs (Z.of_nat (length procs))) in Some true
  end.

Definition procs_cpuset (procs : list hwloc_linux_cpuinfo_proc) : B :=
  foldl (fun set p => b_set set (u32 (Pproc p))) b_alloc procs.

(** The PU objects. *)
Fixpoint insert_pus (procs : list hwloc_linux_cpuinfo_proc) (st : linux_state) : option linux_state :=
  match procs with
  | [] => Some st
  | p :: procs =>
      let! (_, st) := insert_object st (alloc_with_cpuset st HWLOC_OBJ_PU (Pproc p) (b_only (u32 (Pproc p)))) in
      insert_pus procs st
  end.

(** The socket (core) objects, from the [i]th number on. *)
Fixpoint insert_numbered (type : hwloc_obj_type_t) (logical : hwloc_linux_cpuinfo_proc -> Z)
    (infos : list hwloc_linux_cpuinfo_proc -> list (string * chars))
    (procs : list hwloc_linux_cpuinfo_proc) (known : list Z) (i : Z) (st : linux_state) : option linux_state :=
  match known with
  | [] => Some st
  | x :: known =>
      let members := filter (fun p => u32 (logical p) = i) procs in
      let obj := alloc_with_cpuset st type x (procs_cpuset members) in
      let! (_, st) := insert_object st (put_infos (infos members) obj) in
      insert_numbered type logical infos procs known (i + 1) st
  end.

Definition first_model (procs : list hwloc_linux_cpuinfo_proc) : list (string * chars) :=
  match omap cpumodel procs with m :: _ => [("CPUModel"%string, m)] | [] => [] end.

(** The int returned, and [online_cpuset] when it is written. *)
Definition look_cpuinfo (machine : chars) (path : chars) (st : linux_state) : option (Z * option B * linux_state) :=
  let! r := hwloc_linux_parse_cpuinfo path in
  match r with
  | None | Some [] => Some (-1, None, st)
  | Some procs =>
      let numprocs := Z.of_nat (length procs) in
      let! st := insert_pus procs st in
      let online := procs_cpuset procs in
      let '(procs, socks, i) := number_procs socket_number Z.eqb with_Lsock procs [] numprocs in
      let! missingsocket := missing_at procs Psock i in
      let make_sockets := negb missingsocket && (0 <? Z.of_nat (length socks)) in
      let! st :=
        if make_sockets then
          insert_numbered HWLOC_OBJ_SOCKET Lsock (fun ps => first_model ps ++ cpu_type machine) procs socks 0 st
        else Some st in
      let i := if make_sockets then Z.of_nat (length socks) else i in
      let '(procs, cores, i) := number_procs core_number same_core with_Lcore procs [] i in
      let! missingcore := missing_at procs Pcore i in
      let! st :=
        if negb missingcore && (0 <? Z.of_nat (length cores)) then
          insert_numbered HWLOC_OBJ_CORE Lcore (fun _ => []) procs (map fst cores) 0 st
        else Some st in
      let! st := look_powerpc_device_tree st in
      Some (0, Some online, st)
  end.

End Cpus.
