(* ===== verification/LinuxNodes.v ===== *)
(** * LinuxNodes: memory, NUMA nodes, administrative restrictions, and the whole
    Linux backend ([src/topology-linux.c])

    [page_types] of an object holds the slots of its array that [page_types_len]
    counts; the array of the machine, whose size of huge pages is read again for each
    node, is kept whole.  [_SC_LARGE_PAGESIZE] is not defined on Linux. *)

From Stdlib Require Import Ascii String.
From S2P Require Import Prelude Misc Bitmap CString BitmapString Cpuset Obj Insert Shape Synthetic Float Scan Distances LinuxFiles LinuxCpus.

(** ["%llu"] of [sscanf]. *)
Definition scan_llu (s : chars) : option (Z * chars) :=
  let s := skip_spaces s in
  let '(v, rest) := strtoul s 10 in
  if (length rest =? length s)%nat then None else Some (v, rest).

(** [sscanf(s, "<text> %llu", &number) == 1] *)
Definition scan_field (text : string) (s : chars) : option Z :=
  let! s := scan_text (txt text) s in
  let! (v, _) := scan_llu s in
  Some v.

Section Nodes.
Context {B : Type} `{CpusetOps B} `{!CpumapOps B}.
Context (fs : file_system).

(** What the process and its environment tell. *)
Record process := mk_process {
  p_thissystem : bool;                      (** [topology->is_thissystem] *)
  p_pagesize : Z;                           (** [getpagesize()] *)
  p_getenv : string -> option string;
  p_pid : Z;                                (** [topology->pid] *)
  p_machine : chars;                        (** [uname] *)
  p_nbprocessors : Z;                       (** [hwloc_fallback_nbprocessors] *)
  p_uname : list (string * string);         (** what [hwloc_add_uname_info] adds *)
}.
Context (proc : process).

(** ** Memory *)

(** [mi_count] is not initialised at first in some callers; [mi_size] is [None] when
    the pointer is NULL. *)
Record meminfo := mk_meminfo {
  mi_local : Z;
  mi_count : option Z;
  mi_size : option Z;
}.

Definition meminfo_line (onlytotal : bool) (s : chars) (m : meminfo) : option (meminfo * bool) :=
  match scan_field "MemTotal: " s with
  | Some number => Some (mk_meminfo (u64 (Z.shiftl number 10)) (mi_count m) (mi_size m), onlytotal)
  | None =>
      if onlytotal then Some (m, false) else
      match scan_field "Hugepagesize: " s with
      | Some number => let! _ := mi_size m in Some (mk_meminfo (mi_local m) (mi_count m) (Some (u64 (Z.shiftl number 10))), false)
      | None =>
          match scan_field "HugePages_Free: " s with
          | Some number => Some (mk_meminfo (mi_local m) (Some number) (mi_size m), false)
          | None => Some (m, false)
          end
      end
  end.

(** The loop on the lines, which have a character at least. *)
Fixpoint meminfo_lines (fuel : nat) (prefixlength : nat) (onlytotal : bool) (fd : chars) (m : meminfo) : option meminfo :=
  match fgets 64 fd with
  | None => Some m
  | Some ([], _) => Some m
  | Some (string, fd) =>
      match fuel with
      | O => None
      | S fuel =>
          if (length string <? prefixlength)%nat then meminfo_lines fuel prefixlength onlytotal fd m else
          let! (m, stop) := meminfo_line onlytotal (drop prefixlength string) m in
          if stop : bool then Some m else meminfo_lines fuel prefixlength onlytotal fd m
      end
  end.

Definition hwloc_parse_meminfo_info (path : chars) (prefixlength : nat) (onlytotal : bool) (m : meminfo) : option meminfo :=
  match hwloc_fopen fs path with
  | None => Some m
  | Some fd => meminfo_lines (length fd) prefixlength onlytotal fd m
  end.

(** An entry of the directory of huge pages: [index_], the array and the memory left. *)
Definition hugepages_entry (dirpath name : chars) (acc : Z * list (Z * Z) * Z) : option (Z * list (Z * Z) * Z) :=
  let '(index_, pages, remaining) := acc in
  match starts_with "hugepages-" name with
  | None => Some acc
  | Some number =>
      let! (_, count) := pages !! Z.to_nat index_ in
      let size := u64 (fst (strtoul number 0) * 1024) in
      let pages := <[Z.to_nat index_ := (size, count)]> pages in
      let! path := sprintf 128 (dirpath ++ "/"%char :: name ++ txt "/nr_hugepages") in
      match first_line fs 64 path with
      | None => Some (index_, pages, remaining)
      | Some line =>
          let count := fst (strtoul line 0) in
          Some (index_ + 1, <[Z.to_nat index_ := (size, count)]> pages, u64 (remaining - u64 (count * size)))
      end
  end.

(** The array, how many of its slots count, and the memory left. *)
Definition hwloc_parse_hugepages_info (dirpath : chars) (pages : list (Z * Z)) (len remaining : Z)
  : option (list (Z * Z) * Z * Z) :=
  match hwloc_opendir fs dirpath with
  | None => Some (pages, len, remaining)
  | Some entries =>
      let! (index_, pages, remaining) := each_entry (hugepages_entry dirpath) entries (1, pages, remaining) in
      Some (pages, index_, remaining)
  end.

(** [calloc(types, ...)]; a negative size is never given. *)
Definition new_pages (types : Z) : option (list (Z * Z)) :=
  require! (0 <=? types) in Some (replicate (Z.to_nat types) (0, 0)).

Definition set_page_size (pages : list (Z * Z)) (i : nat) (size : Z) : option (list (Z * Z)) :=
  let! (_, count) := pages !! i in Some (<[i := (size, count)]> pages).
Definition set_page_count (pages : list (Z * Z)) (i : nat) (count : Z) : option (list (Z * Z)) :=
  let! (size, _) := pages !! i in Some (<[i := (size, count)]> pages).

(** Huge pages as one size for all: the array, [page_types_len], the memory left. *)
Definition meminfo_hugepages (pages : list (Z * Z)) (len : Z) (size : Z) (count : option Z) (remaining : Z)
  : option (list (Z * Z) * Z * Z) :=
  if size =? 0 then Some (pages, 1, remaining) else
  let! count := count in
  let! pages := set_page_size pages 1 size in
  let! pages := set_page_count pages 1 count in
  Some (pages, len, u64 (remaining - u64 (count * size))).

(** [page_types[0].count = remaining / page_types[0].size] *)
Definition normal_pages (pages : list (Z * Z)) (remaining : Z) : option (list (Z * Z)) :=
  let! (size, _) := pages !! 0%nat in
  require! (0 <? size) in
  set_page_count pages 0 (remaining / size).

(** The memory of the object and the whole array. *)
Definition paged_memory (memory : hwloc_obj_memory_s) (local : Z) (pages : list (Z * Z)) (len : Z)
  : hwloc_obj_memory_s * list (Z * Z) :=
  (mk_memory (total_memory memory) local (take (Z.to_nat len) pages), pages).

(** [1 + st_nlink - 2] *)
Definition hugepage_types (path : chars) : Z * bool :=
  match hwloc_stat_nlink fs path with Some n => (s32 (1 + n - 2), true) | None => (2, false) end.

Definition hwloc_get_kerrighed_node_meminfo_info (node : Z) (memory : hwloc_obj_memory_s) : option hwloc_obj_memory_s :=
  let path := txt "/proc/nodes/node" ++ fmt_u node ++ txt "/meminfo" in
  if p_thissystem proc then
    let! pages := set_page_size [(0, 0); (0, 0)] 0 (p_pagesize proc) in
    let! m := hwloc_parse_meminfo_info path 0 false (mk_meminfo (local_memory memory) None (Some 0)) in
    let! size := mi_size m in
    let! (pages, len, remaining) := meminfo_hugepages pages 2 size (mi_count m) (mi_local m) in
    let! pages := normal_pages pages remaining in
    Some (fst (paged_memory memory (mi_local m) pages len))
  else
    let! m := hwloc_parse_meminfo_info path 0 true (mk_meminfo (local_memory memory) None (Some 0)) in
    Some (mk_memory (total_memory memory) (mi_local m) (page_types memory)).

(** The memory of the machine, and its array of page types. *)
Definition hwloc_get_procfs_meminfo_info (memory : hwloc_obj_memory_s) : option (hwloc_obj_memory_s * list (Z * Z)) :=
  let '(types, has_sysfs_hugepages) := hugepage_types (txt "/sys/kernel/mm/hugepages") in
  let pagesize_env := p_getenv proc "HWLOC_DEBUG_PAGESIZE" in
  let paged := p_thissystem proc || bool_decide (is_Some pagesize_env) in
  let! pages := if paged then new_pages types else Some [] in
  let! pages := if p_thissystem proc then set_page_size pages 0 (p_pagesize proc) else Some pages in
  let! m := hwloc_parse_meminfo_info (txt "/proc/meminfo") 0 (negb paged) (mk_meminfo (local_memory memory) None (Some 0)) in
  if negb paged then Some (mk_memory (total_memory memory) (mi_local m) (page_types memory), []) else
  let! (pages, len, remaining) :=
    if has_sysfs_hugepages then
      hwloc_parse_hugepages_info (txt "/sys/kernel/mm/hugepages") pages types (mi_local m)
    else let! size := mi_size m in meminfo_hugepages pages types size (mi_count m) (mi_local m) in
  let! pages :=
    match pagesize_env with
    | Some env =>
        let size := number (txt env) in set_page_size pages 0 (if size =? 0 then 4096 else size)
    | None => Some pages
    end in
  let! pages := normal_pages pages remaining in
  Some (paged_memory memory (mi_local m) pages len).

(** [pages0] is the array of the machine. *)
Definition hwloc_sysfs_node_meminfo_info (pages0 : list (Z * Z)) (syspath : chars) (node : Z) (memory : hwloc_obj_memory_s)
  : option hwloc_obj_memory_s :=
  let! path := sprintf 128 (syspath ++ txt "/node" ++ fmt_d node ++ txt "/hugepages") in
  let '(types, has_sysfs_hugepages) := hugepage_types path in
  let! meminfopath := sprintf 128 (syspath ++ txt "/node" ++ fmt_d node ++ txt "/meminfo") in
  let prefixlength := length (txt "Node " ++ fmt_d node ++ txt " ") in
  if p_thissystem proc then
    let! pages := new_pages types in
    let! m := hwloc_parse_meminfo_info meminfopath prefixlength false (mk_meminfo (local_memory memory) (Some 0) None) in
    let! (pages, len, remaining) :=
      if has_sysfs_hugepages then hwloc_parse_hugepages_info path pages types (mi_local m)
      else
        let! (size, _) := pages0 !! 1%nat in
        meminfo_hugepages pages types size (mi_count m) (mi_local m) in
    let! pages := set_page_size pages 0 (p_pagesize proc) in
    let! pages := normal_pages pages remaining in
    Some (fst (paged_memory memory (mi_local m) pages len))
  else
    let! m := hwloc_parse_meminfo_info meminfopath prefixlength true (mk_meminfo (local_memory memory) (Some 0) None) in
    Some (mk_memory (total_memory memory) (mi_local m) (page_types memory)).

(** ** NUMA nodes *)

(** The distances at the front of [room] slots: after the last number of a text without
    an end of line, the code reads behind it. *)
Fixpoint node_distances (room : nat) (s : chars) : option (list Z) :=
  let '(distance, next) := strtoul s 0 in
  if (length next =? length s)%nat then Some [] else
  match room with
  | O => None
  | S O => Some [float_of (u32 distance) 1]
  | S room =>
      match next with
      | [] => None
      | _ :: s => let! l := node_distances room s in Some (float_of (u32 distance) 1 :: l)
      end
  end.

(** The row of [nbnodes] distances, 0 where the file tells nothing. *)
Definition hwloc_parse_node_distance (distancepath : chars) (nbnodes : nat) : option (list Z) :=
  match first_line fs 4096 distancepath with
  | None => Some (replicate nbnodes 0)
  | Some string =>
      let! l := node_distances nbnodes string in
      Some (l ++ replicate (nbnodes - length l) 0)
  end.

Definition list_node (name : chars) (acc : B * Z) : option (B * Z) :=
  let '(nodeset, nbnodes) := acc in
  match starts_with "node" name with
  | None => Some acc
  | Some number => Some (b_set nodeset (u32 (fst (strtoul number 0))), u32 (nbnodes + 1))
  end.

(** A node and its row of distances: its address, 0 (NULL) without a map. *)
Definition look_node (pages0 : list (Z * Z)) (path : chars) (nbnodes : nat) (osnode : Z) (st : linux_state (B := B))
  : option (Z * list Z * linux_state (B := B)) :=
  let! nodepath := sprintf 128 (path ++ txt "/node" ++ fmt_u osnode ++ txt "/cpumap") in
  let! cpuset := hwloc_parse_cpumap fs nodepath in
  match cpuset with
  | None => Some (0, replicate nbnodes 0, st)
  | Some cpuset =>
      let node := alloc_with_cpuset st HWLOC_OBJ_NODE osnode cpuset in
      let node := with_nodeset node (Some (b_set b_alloc osnode)) in
      let! m := hwloc_sysfs_node_meminfo_info pages0 path (s32 osnode) (memory node) in
      let node := with_memory node m in
      let! (_, st) := insert_object st node in
      let! nodepath := sprintf 128 (path ++ txt "/node" ++ fmt_u osnode ++ txt "/distance") in
      let! row := hwloc_parse_node_distance nodepath nbnodes in
      Some (o_addr node, row, st)
  end.

Fixpoint look_nodes (pages0 : list (Z * Z)) (path : chars) (nbnodes : nat) (indexes : list Z) (st : linux_state (B := B))
  : option (list Z * list Z * linux_state (B := B)) :=
  match indexes with
  | [] => Some ([], [], st)
  | osnode :: indexes =>
      let! (node, row, st) := look_node pages0 path nbnodes osnode st in
      let! (nodes, distances, st) := look_nodes pages0 path nbnodes indexes st in
      Some (node :: nodes, row ++ distances, st)
  end.

(** The int returned and [*found]. *)
Definition look_sysfsnode (pages0 : list (Z * Z)) (path : chars) (st : linux_state (B := B))
  : option (Z * Z * linux_state (B := B)) :=
  match hwloc_opendir fs path with
  | None => Some (-1, 0, st)
  | Some entries =>
      let! (nodeset, nbnodes) := each_entry list_node entries (b_alloc, 0) in
      if nbnodes <=? 1 then Some (0, 0, st) else
      require! (nbnodes * nbnodes <? 2 ^ 32) in
      let n := Z.to_nat nbnodes in
      let! ids := each_member nodeset in
      require! (length ids <=? n)%nat in
      let indexes := ids ++ replicate (n - length ids) 0 in
      let! (nodes, distances, st) := look_nodes pages0 path n indexes st in
      let l := hwloc_distances_set (x_distances st) HWLOC_OBJ_NODE nbnodes (Some indexes) (Some nodes) distances false in
      Some (0, nbnodes, mk_linux (x_root st) (x_next st) l)
  end.

(** ** CPUs and nodes that the administrator allows *)

(** The characters of an octal escape are skipped whether they are known or not.  After an
    escape that is cut short, which the kernel does not write, the code goes on behind
    the path: [None]. *)
Fixpoint unescape_mntpath (fuel : nat) (src : chars) : option chars :=
  match char_split "\" src with
  | None => Some src
  | Some (before, tmp) =>
      match fuel with
      | O => None
      | S fuel =>
          let c := if bool_decide (is_Some (starts_with "040" tmp)) then " "%char
                   else if bool_decide (is_Some (starts_with "011" tmp)) then "009"%char
                   else if bool_decide (is_Some (starts_with "012" tmp)) then "010"%char
                   else "\"%char in
          require! (3 <=? length tmp)%nat in
          let! rest := unescape_mntpath fuel (drop 3 tmp) in
          Some (before ++ c :: rest)
      end
  end.

(** The block has [length + 1] bytes. *)
Definition hwloc_strdup_mntpath (escapedpath : chars) (room : nat) : option chars :=
  let! path := unescape_mntpath (length escapedpath) escapedpath in
  require! (length path <=? room)%nat in Some path.

(** The mount points of cgroups and of cpusets. *)
Definition mntpnts : Type := option chars * option chars.

(** The line without its end [" 0 0\n"]. *)
Definition remove_end (line : chars) : chars :=
  let n := (length line - 5)%nat in
  if (5 <=? length line)%nat && bool_decide (drop n line = txt " 0 0" ++ ["010"%char]) then take n line else line.

(** [strsep(&opts, ",")] until the end: the options. *)
Fixpoint split_commas (fuel : nat) (opts : chars) : list chars :=
  match char_split "," opts, fuel with
  | Some (opt, opts), S fuel => opt :: split_commas fuel opts
  | _, _ => [opts]
  end.

(** A line: [Some (Some m)] ends the search. *)
Definition mount_line (line : chars) : option (option mntpnts) :=
  let line := remove_end line in
  match char_split " " line with
  | None => Some None
  | Some (_, path) =>
      match char_split " " path with
      | None => Some None
      | Some (path, type) =>
          let room := S (length path) in
          if bool_decide (is_Some (starts_with "cpuset " type)) then
            let! p := hwloc_strdup_mntpath path room in Some (Some (None, Some p))
          else if bool_decide (is_Some (starts_with "cgroup " type)) then
            match char_split " " type with
            | None => Some None
            | Some (_, opts) =>
                let l := split_commas (length opts) opts in
                if negb (bool_decide (txt "cpuset" ∈ l)) then Some None else
                let! p := hwloc_strdup_mntpath path room in
                if bool_decide (txt "noprefix" ∈ l) then Some (Some (None, Some p)) else Some (Some (Some p, None))
            end
          else Some None
      end
  end.

Fixpoint mount_lines (fuel : nat) (fd : chars) : option mntpnts :=
  match fgets 512 fd with
  | None => Some (None, None)
  | Some (line, fd) =>
      match fuel with
      | O => None
      | S fuel =>
          let! r := mount_line line in
          match r with Some m => Some m | None => mount_lines fuel fd end
      end
  end.

Definition hwloc_find_linux_cpuset_mntpnt : option mntpnts :=
  match hwloc_fopen fs (txt "/proc/mounts") with
  | None => Some (None, None)
  | Some fd => mount_lines (length fd) fd
  end.

(** The name after [:cpuset:] in the lines of a cgroup file. *)
Fixpoint cgroup_name (fuel : nat) (fd : chars) : option (option chars) :=
  match fgets 256 fd with
  | None => Some None
  | Some (line, fd) =>
      match fuel with
      | O => None
      | S fuel =>
          match strchr line ":" with
          | None => cgroup_name fuel fd
          | Some colon =>
              match starts_with ":cpuset:" colon with
              | None => cgroup_name fuel fd
              | Some name => Some (Some (cut_line name))
              end
          end
      end
  end.

Definition proc_path (pid : Z) (file : string) : chars :=
  if pid =? 0 then txt "/proc/self/" ++ txt file else txt "/proc/" ++ fmt_d pid ++ txt "/" ++ txt file.

(** [snprintf] into the 24 bytes of ["/proc/XXXXXXXXXX/cgroup"] cuts the path. *)
Definition hwloc_read_linux_cpuset_name (pid : Z) : option (option chars) :=
  let cut path := if pid =? 0 then path else take 23 path in
  let! name :=
    match hwloc_fopen fs (cut (proc_path pid "cgroup")) with
    | Some fd => cgroup_name (length fd) fd
    | None => Some None
    end in
  match name with
  | Some name => Some (Some name)
  | None => Some (cut_line <$> first_line fs 128 (cut (proc_path pid "cpuset")))
  end.

(** The first line of the file, without its end; a mount point of cgroups is preferred.
    For an empty file the block that [getline] allocates is returned as it is: [None]. *)
Definition hwloc_read_linux_cpuset_mask (m : mntpnts) (cpuset_name : chars) (attr_name : string) : option (option chars) :=
  let read path := match hwloc_fopen fs (take 255 path) with
                   | None => Some None
                   | Some [] => None
                   | Some s => Some (Some (cut_line (cstring s)))
                   end in
  match m with
  | (Some cgroup, _) => read (cgroup ++ cpuset_name ++ txt "/cpuset." ++ txt attr_name)
  | (None, Some cpuset) => read (cpuset ++ cpuset_name ++ txt "/" ++ txt attr_name)
  | (None, None) => Some None
  end.

Definition INT_MIN : Z := - 2 ^ 31.

(** The ranges of the list: what is before each one is removed. *)
Fixpoint disable_ranges (fuel : nat) (current : chars) (prevlast : Z) (set : B) : option (Z * B) :=
  match fuel with
  | O => None
  | S fuel =>
      let '(item, next) := match char_split "," current with Some (i, n) => (i, Some n) | None => (current, None) end in
      let '(first, tmp) := strtoul item 0 in
      let nextfirst := s32 first in
      let nextlast := match tmp with "-"%char :: tmp => s32 (fst (strtoul tmp 0)) | _ => nextfirst end in
      require! (prevlast <? INT_MAX) && (INT_MIN <? nextfirst) in
      let set := if prevlast + 1 <=? nextfirst - 1 then b_clr_range set (u32 (prevlast + 1)) (nextfirst - 1) else set in
      match next with
      | Some current => disable_ranges fuel current nextlast set
      | None => Some (nextlast, set)
      end
  end.

Definition hwloc_admin_disable_set_from_cpuset (m : mntpnts) (cpuset_name : chars) (attr_name : string) (set : B) : option B :=
  let! cpuset_mask := hwloc_read_linux_cpuset_mask m cpuset_name attr_name in
  match cpuset_mask with
  | None => Some set
  | Some cpuset_mask =>
      let! (prevlast, set) := disable_ranges (S (length cpuset_mask)) cpuset_mask (-1) set in
      Some (b_and set (b_set_range b_alloc 0 prevlast))
  end.

(** ** DMI *)

Definition hwloc__get_dmi_one_info (sysfs_name hwloc_name : string) (o : hwloc_obj B) : hwloc_obj B :=
  match first_line fs 64 (take 127 (txt "/sys/class/dmi/id/" ++ txt sysfs_name)) with
  | None | Some [] => o
  | Some line => hwloc_obj_add_info o hwloc_name (string_of_list_ascii (cut_line line))
  end.

Definition dmi_infos : list (string * string) :=
  [("product_name", "DMIProductName"); ("product_version", "DMIProductVersion"); ("product_serial", "DMIProductSerial");
   ("product_uuid", "DMIProductUUID"); ("board_vendor", "DMIBoardVendor"); ("board_name", "DMIBoardName");
   ("board_version", "DMIBoardVersion"); ("board_serial", "DMIBoardSerial"); ("board_asset_tag", "DMIBoardAssetTag");
   ("chassis_vendor", "DMIChassisVendor"); ("chassis_type", "DMIChassisType"); ("chassis_version", "DMIChassisVersion");
   ("chassis_serial", "DMIChassisSerial"); ("chassis_asset_tag", "DMIChassisAssetTag"); ("bios_vendor", "DMIBIOSVendor");
   ("bios_version", "DMIBIOSVersion"); ("bios_date", "DMIBIOSDate"); ("sys_vendor", "DMISysVendor")]%string.

Definition hwloc__get_dmi_info (o : hwloc_obj B) : hwloc_obj B :=
  foldl (fun o '(sysfs_name, hwloc_name) => hwloc__get_dmi_one_info sysfs_name hwloc_name o) o dmi_infos.

(** ** The whole backend *)

(** [hwloc_setup_pu_level] of [topology.c]. *)
Fixpoint hwloc_setup_pu_level (n : nat) (oscpu : Z) (st : linux_state (B := B)) : option (linux_state (B := B)) :=
  match n with
  | O => Some st
  | S n =>
      let! (_, st) := insert_object st (alloc_with_cpuset st HWLOC_OBJ_PU oscpu (b_only oscpu)) in
      hwloc_setup_pu_level n (oscpu + 1) st
  end.

Definition disable_sets (st : linux_state (B := B)) : option (option chars * linux_state (B := B)) :=
  let! m := hwloc_find_linux_cpuset_mntpnt in
  match m with
  | (None, None) => Some (None, st)
  | _ =>
      let! name := hwloc_read_linux_cpuset_name (p_pid proc) in
      match name with
      | None => Some (None, st)
      | Some name =>
          let top := t_obj (x_root st) in
          let! cpus := allowed_cpuset (sets top) in
          let! cpus := hwloc_admin_disable_set_from_cpuset m name "cpus" cpus in
          let! mems := allowed_nodeset (sets top) in
          let! mems := hwloc_admin_disable_set_from_cpuset m name "mems" mems in
          Some (Some name, on_top (fun o => with_allowed_nodeset (with_allowed_cpuset o (Some cpus)) (Some mems)) st)
      end
  end.

(** [utsname.machine] *)
Definition machine_name : chars := if p_thissystem proc then p_machine proc else [].

(** A node of a Kerrighed cluster; the memory and infos are set once inserted. *)
Definition kerrighed_node (name : chars) (st : linux_state (B := B)) : option (linux_state (B := B)) :=
  match starts_with "node" name with
  | None => Some st
  | Some number =>
      let node := fst (strtoul number 0) in
      let! (err, online, st) := look_cpuinfo fs machine_name (txt "/proc/nodes/node" ++ fmt_u node ++ txt "/cpuinfo") st in
      if err <? 0 then Some st else
      let machine_online_set := default b_alloc online in
      let! on := online_cpuset (sets (t_obj (x_root st))) in
      let st := on_top (fun o => with_online_cpuset o (Some (b_or on machine_online_set))) st in
      let machine := alloc_with_cpuset st HWLOC_OBJ_MACHINE node machine_online_set in
      let! (inserted, st) := insert_object st machine in
      require! (inserted : bool) in
      let! m := hwloc_get_kerrighed_node_meminfo_info node (memory machine) in
      let update o := if o_addr o =? o_addr machine then hwloc__get_dmi_info (with_memory o m) else o in
      Some (mk_linux (tmap update (x_root st)) (x_next st) (x_distances st))
  end.

(** Without local memory once there are nodes. *)
Definition no_local_memory (m : hwloc_obj_memory_s) : hwloc_obj_memory_s :=
  mk_memory (total_memory m) 0 (map (fun p => (fst p, 0)) (page_types m)).

Definition sysfs_cpus : bool :=
  negb (bool_decide (is_Some (p_getenv proc "HWLOC_LINUX_USE_CPUINFO"))) &&
  existsb (fun path => hwloc_access_R fs (txt path))
    ["/sys/devices/system/cpu/cpu0/topology/core_siblings"; "/sys/devices/system/cpu/cpu0/topology/thread_siblings";
     "/sys/bus/cpu/devices/cpu0/topology/thread_siblings"; "/sys/bus/cpu/devices/cpu0/topology/core_siblings"]%string.

Definition look_cpus (st : linux_state (B := B)) : option (linux_state (B := B)) :=
  if sysfs_cpus then
    let! r := hwloc_linux_parse_cpuinfo fs (txt "/proc/cpuinfo") in
    let Lprocs := default [] r in
    let! (err, st) := look_sysfscpu fs (txt "/sys/bus/cpu/devices") Lprocs machine_name st in
    if err <? 0 then
      let! (_, st) := look_sysfscpu fs (txt "/sys/devices/system/cpu") Lprocs machine_name st in Some st
    else Some st
  else
    let! (err, online, st) := look_cpuinfo fs machine_name (txt "/proc/cpuinfo") st in
    let st := match online with Some s => on_top (fun o => with_online_cpuset o (Some s)) st | None => st end in
    if err <? 0 then
      hwloc_setup_pu_level (if p_thissystem proc then Z.to_nat (p_nbprocessors proc) else 1%nat) 0 st
    else Some st.

Definition hwloc_look_linuxfs (st : linux_state (B := B)) : option (linux_state (B := B)) :=
  let! (cpuset_name, st) := disable_sets st in
  let! st :=
    match hwloc_opendir fs (txt "/proc/nodes") with
    | Some entries =>
        let st := on_top (fun o => with_name (with_type o HWLOC_OBJ_SYSTEM) (Some "Kerrighed"%string)) st in
        each_entry kerrighed_node entries st
    | None =>
        let! (m, pages0) := hwloc_get_procfs_meminfo_info (memory (t_obj (x_root st))) in
        let st := on_top (fun o => with_memory o m) st in
        let! (err, nbnodes, st) := look_sysfsnode pages0 (txt "/sys/bus/node/devices") st in
        let! (nbnodes, st) :=
          if err <? 0 then
            let! (_, nbnodes, st) := look_sysfsnode pages0 (txt "/sys/devices/system/node") st in Some (nbnodes, st)
          else Some (nbnodes, st) in
        let st := if negb (nbnodes =? 0) then on_top (fun o => with_memory o (no_local_memory (memory o))) st else st in
        let! st := look_cpus st in
        Some (on_top hwloc__get_dmi_info st)
    end in
  let add name value := on_top (fun o => hwloc_obj_add_info o name value) in
  let st := add "Backend"%string "Linux"%string st in
  let st := match cpuset_name with Some name => add "LinuxCgroup"%string (string_of_list_ascii name) st | None => st end in
  Some (if p_thissystem proc then foldl (fun st '(name, value) => add name value st) st (p_uname proc) else st).

End Nodes.
