(* ===== verification/LinuxCpusOk.v ===== *)
(** * LinuxCpusOk: the hierarchy while the Linux backend inserts objects *)

From Stdlib Require Import Ascii String Sorted.
From S2P Require Import Prelude Misc Bitmap CString Cpuset Obj ObjCmp Insert InsertOk CleanOk LevelsOk Sets Shape Synthetic Scan Discover DiscoverOk DiscoverLoad Distances LinuxFiles LinuxCpus.

Section Standing.
Context {B : Type} `{Cpuset B} `{!CpumapOps B} `{!Cpumap B}.
Implicit Types o obj : hwloc_obj B.
Implicit Types t : obj_tree B.
Implicit Types st : linux_state (B := B).

(** ** Objects that merge with an equal one *)

(** What merging an equal object into an object leaves. *)
Definition same_place o o' : Prop :=
  o_addr o' = o_addr o /\ o_type o' = o_type o /\ sets o' = sets o /\
  attr_depth (o_type o) (attr o') = attr_depth (o_type o) (attr o) /\ (os_index o <> UNSET -> os_index o' = os_index o).

#[export] Instance same_place_preorder : PreOrder same_place.
Proof.
  split; [done|]. intros o1 o2 o3 (Ha & H1 & Hs & H2 & Hi) (Ha' & H3 & Hs' & H4 & Hi'). rewrite H1 in H4. unfold same_place.
  split_and!; try congruence. intros Hne. rewrite Hi'; [by apply Hi|]. by rewrite Hi.
Qed.

Lemma same_place_cs o o' : same_place o o' -> cs o' = cs o.
Proof. intros (_ & _ & Hs & _). unfold cs, ocpuset. by rewrite Hs. Qed.

Lemma merge_cache_depth a b ty : attr_depth ty (merge_cache a b) = attr_depth ty b.
Proof. destruct a, b; try done; by destruct ty. Qed.

Lemma merge_equal_place obj o why o' : merge_equal obj o = Some (why, o') -> same_place o o'.
Proof.
  assert (forall i, os_index o <> UNSET -> (if os_index o =? UNSET then i else os_index o) = os_index o) as Hidx
    by (intros i Hne; by rewrite (proj2 (Z.eqb_neq _ _))).
  unfold merge_equal. destruct (negb _); [by intros [= <- <-]|].
  destruct (negb _); [intros [= <- <-]; split_and!; [done..|apply Hidx]|].
  destruct (merge_array (distances obj) _) as [d|]; [|done]. cbn [mbind option_bind].
  destruct (merge_array (infos obj) _) as [l|]; [|done]. cbn [mbind option_bind]. intros Heq. simplify_eq.
  destruct o as [a ty oi ol nm mem at_ st di inf]. unfold same_place.
  destruct (o_name obj); destruct (o_type obj); split_and!; try done; first [apply merge_cache_depth|apply Hidx].
Qed.

Lemma forall2_insert_same {A} (R : A -> A -> Prop) l i x y : (forall x, R x x) -> l !! i = Some x -> R x y ->
  Forall2 R l (<[i := y]> l).
Proof.
  intros Hrefl Hi Hxy. apply Forall2_same_length_lookup. split; [by rewrite length_insert|]. intros j a b Ha Hb.
  destruct (decide (j = i)) as [->|Hne].
  - rewrite list_lookup_insert_eq in Hb by (by apply lookup_lt_Some in Ha). by simplify_eq.
  - rewrite list_lookup_insert_ne in Hb by done. simplify_eq. apply Hrefl.
Qed.

Lemma forall2_forest (R : hwloc_obj B -> hwloc_obj B -> Prop) (ts us : list (obj_tree B)) :
  Forall2 (fun t u => Forall2 R (tree_objs t) (tree_objs u)) ts us -> Forall2 R (forest_objs ts) (forest_objs us).
Proof.
  induction 1 as [|t u ts us Ht _ IH]; [by constructor|]. rewrite !forest_objs_cons. by apply Forall2_app.
Qed.

Lemma forall2_refl {A} (R : A -> A -> Prop) (l : list A) : (forall x, R x x) -> Forall2 R l l.
Proof. intros Hr. induction l; by constructor. Qed.

(** The child that the scan merges. *)
Lemma scan_merged obj n cont l i why o' : scan_children obj n cont l = Some (ScanMerged i why o') ->
  exists k c, i = (n + k)%nat /\ l !! k = Some c /\ merge_equal obj (t_obj c) = Some (why, o').
Proof.
  revert n cont. induction l as [|c l IH]; intros n cont; [done|]. cbn [scan_children].
  assert (forall cont, scan_children obj (S n) cont l = Some (ScanMerged i why o') ->
    exists k d, i = (n + k)%nat /\ (c :: l) !! k = Some d /\ merge_equal obj (t_obj d) = Some (why, o')) as Hnext.
  { intros cont' (k & d & -> & Hk & Hm)%IH. exists (S k), d. split; [lia|]. by split. }
  destruct (hwloc_obj_cmp obj (t_obj c)) as [[]|]; cbn [mbind option_bind]; try done; try apply Hnext.
  - destruct (merge_equal obj (t_obj c)) as [[w o]|] eqn:Hm; [|done]. cbn [mbind option_bind]. intros Heq. simplify_eq.
    exists 0%nat, c. split; [lia|]. by split.
  - destruct cont; [done|]. apply Hnext.
Qed.

(** Without insertion the objects stay where they are. *)
Lemma not_inserted_places fuel t obj why t' :
  hwloc___insert_object_by_cpuset fuel t obj = Some (NotInserted why, t') ->
  Forall2 same_place (tree_objs t) (tree_objs t').
Proof.
  assert (forall l : list (hwloc_obj B), Forall2 same_place l l) as Hrefl by (intros; by apply forall2_refl).
  revert t t'. induction fuel as [|fuel IH]; intros [o ch] t'; [done|]. cbn [hwloc___insert_object_by_cpuset].
  destruct (ocpuset obj) as [oc|]; [|done]. destruct (ocpuset o) as [cc|]; [|done]. cbn [mbind option_bind].
  destruct (negb _); [intros Heq; by simplify_eq|].
  assert (forall i c c', ch !! i = Some c -> Forall2 same_place (tree_objs c) (tree_objs c') ->
    Forall2 same_place (tree_objs (Node o ch)) (tree_objs (Node o (<[i := c']> ch)))) as Hput.
  { intros i c c' Hi Hc. rewrite !tree_objs_node. constructor; [done|]. apply forall2_forest.
    apply forall2_insert_same with c; [intros; apply Hrefl|done|done]. }
  destruct (scan_children obj 0 None ch) as [s|] eqn:Hscan; [|done]. cbn [mbind option_bind].
  destruct s as [i w child'|w|[i|]].
  - destruct (ch !! i) as [[co cch]|] eqn:Hi; [|done]. cbn [mbind option_bind t_children]. intros Heq. simplify_eq.
    apply (Hput i (Node co cch)); [done|]. rewrite !tree_objs_node. constructor; [|done].
    apply scan_merged in Hscan as (k & c & -> & Hk & Hm). rewrite Nat.add_0_l, Hk in Hi. injection Hi as ->.
    by apply merge_equal_place in Hm.
  - intros Heq. by simplify_eq.
  - destruct (ch !! i) as [c|] eqn:Hi; [|done]. cbn [mbind option_bind].
    destruct (hwloc___insert_object_by_cpuset fuel c obj) as [[r c']|] eqn:Hrec; [|done]. cbn [mbind option_bind].
    intros Heq. simplify_eq. apply (Hput i c c' Hi). by apply (IH c c').
  - destruct (place_children obj oc false ch) as [[[l r] below]|]; done.
Qed.

(** ** The hierarchy under construction *)

Definition x_top st : hwloc_obj B := t_obj (x_root st).
Definition x_objs st : list (hwloc_obj B) := forest_objs (t_children (x_root st)).

Lemma objs_of_tree t : tree_objs t = t_obj t :: forest_objs (t_children t).
Proof. destruct t. apply tree_objs_node. Qed.

Lemma x_root_objs st : tree_objs (x_root st) = x_top st :: x_objs st.
Proof. apply objs_of_tree. Qed.

(** Below a root that has all the CPUs, bare objects. *)
Record standing st : Prop := {
  sd_wf : tree_wf (x_root st);
  sd_full : forall i, 0 <= i -> bm (cs (x_top st)) i = true;
  sd_cpus : four_cpusets (x_top st);
  sd_nodes : is_Some (onodeset (x_top st)) /\ exists cn, complete_nodeset (sets (x_top st)) = Some cn /\
    (bempty cn -> Forall (fun o => onodeset o = None) (x_objs st));
  sd_bare : Forall bare (x_objs st);
  sd_normal : Forall normal (tree_objs (x_root st));
  sd_distinct : distinct (tree_objs (x_root st));
  sd_fresh : Forall (fun o => o_addr o < x_next st) (tree_objs (x_root st));
}.

Record insertable st obj : Prop := {
  in_ok : obj_ok obj;
  in_arrays : no_arrays obj;
  in_addr : o_addr obj = x_next st;
  in_small : small (cs obj);
  in_bare : bare obj;
  in_type : o_type obj <> HWLOC_OBJ_MISC;
  in_nodes : forall n, onodeset obj = Some n -> ~ bempty n;
}.

(** What an insertion makes of the root: its complete sets grow. *)
Definition grown_top obj o o' : Prop :=
  exists cc cn, complete_cpuset (sets o) = Some cc /\ complete_nodeset (sets o) = Some cn /\
  o' = with_complete_nodeset (with_complete_cpuset o (Some (b_or cc (cs obj))))
         (Some (match onodeset obj with Some n => b_or cn n | None => cn end)).

Lemma with_complete_nodeset_id o n : complete_nodeset (sets o) = Some n -> with_complete_nodeset o (Some n) = o.
Proof. intros Hn. destruct o as [a ty oi ol nm mem at_ st di inf]. destruct st. simpl in Hn. subst. done. Qed.

Lemma insert_grows root obj oc : ocpuset obj = Some oc -> is_Some (complete_cpuset (sets (t_obj root))) ->
  is_Some (complete_nodeset (sets (t_obj root))) ->
  exists ro', grown_top obj (t_obj root) ro' /\
    hwloc__insert_object_by_cpuset root obj =
      hwloc___insert_object_by_cpuset (tree_height root) (Node ro' (t_children root)) obj.
Proof.
  intros Hoc [cc Hcc] [cn Hcn]. destruct root as [ro ch]. cbn [t_obj t_children] in *.
  eexists. split; [exists cc, cn; split; [done|]; split; [done|]; reflexivity|].
  unfold hwloc__insert_object_by_cpuset. rewrite Hcc, Hoc. cbn [or_into mbind option_bind].
  assert (cs obj = oc) as -> by (unfold cs; by rewrite Hoc). destruct (onodeset obj) as [n|].
  - cbn [mbind option_bind]. replace (complete_nodeset (sets (with_complete_cpuset ro (Some (b_or cc oc))))) with (Some cn) by done. done.
  - rewrite with_complete_nodeset_id by done. done.
Qed.

Lemma grown_rank obj o o' : grown_top obj o o' -> rank_eq o o'.
Proof. intros (cc & cn & _ & _ & ->). done. Qed.

(** The root contains every object that fits. *)
Lemma full_contains o obj : (forall i, 0 <= i -> bm (cs o) i = true) -> small (cs obj) -> cmp_spec o obj HWLOC_OBJ_CONTAINS.
Proof.
  intros Hf Hs. split; [intros i Hi _; by apply Hf|]. intros Heq. exfalso.
  pose proof (Hs CPU_MAX ltac:(unfold CPU_MAX; lia)) as Hn. rewrite <- (Heq CPU_MAX), Hf in Hn by (unfold CPU_MAX; lia). lia.
Qed.

Lemma same_place_normal o o' : same_place o o' -> normal o -> normal o'.
Proof. intros (_ & Ht & _) [? ?]. unfold normal, not_io. by rewrite Ht. Qed.

Lemma same_place_bare o o' : same_place o o' -> bare o -> bare o'.
Proof. intros (_ & _ & Hs & _) Hb. unfold bare, ocpuset in *. by rewrite Hs. Qed.

Lemma forall_same_place (P : hwloc_obj B -> Prop) l l' : (forall o o', same_place o o' -> P o -> P o') ->
  Forall2 same_place l l' -> Forall P l -> Forall P l'.
Proof. intros HP. induction 1 as [|o o' l l' Ho _ IH]; [done|]. intros [? ?]%Forall_cons. constructor; [by eapply HP|by apply IH]. Qed.

Lemma same_place_addrs l l' : Forall2 same_place l l' -> map o_addr l' = map o_addr l.
Proof. induction 1 as [|o o' l l' (Ha & _) _ IH]; [done|]. cbn [map]. by rewrite Ha, IH. Qed.

(** What becomes of a state whose root has grown and whose objects are these. *)
Lemma standing_changed st obj root :
  standing st -> insertable st obj -> tree_wf root -> grown_top obj (x_top st) (t_obj root) ->
  (forest_objs (t_children root) ≡ₚ obj :: x_objs st \/ Forall2 same_place (x_objs st) (forest_objs (t_children root))) ->
  standing (mk_linux root (x_next st + 1) (x_distances st)).
Proof.
  intros [Hwf Hfull (Hc & Hcc & Hon & Hal) (Hn & cn & Hcn & Hempty) Hbare Hnor Hdis Hfr] [Hok Harr Haddr Hsm Hob Hty Hon'] Hwf' Hgr Hobjs.
  destruct Hgr as (cc & cn' & Hcc' & Hcn' & Hroot). rewrite Hcn in Hcn'. injection Hcn' as <-.
  rewrite x_root_objs in Hnor, Hdis, Hfr. apply Forall_cons in Hnor as [Hnt Hno]. apply Forall_cons in Hfr as [Hft Hfo].
  unfold distinct in *. cbn [map] in Hdis. apply NoDup_cons in Hdis as [Hnew Hnd].
  assert (o_addr (t_obj root) = o_addr (x_top st)) as Ha by (by rewrite Hroot).
  split; unfold x_top, x_objs; cbn [x_root x_next].
  - done.
  - intros i Hi. unfold cs. rewrite Hroot. by apply Hfull.
  - rewrite Hroot. by split_and!.
  - split; [by rewrite Hroot|]. rewrite Hroot. exists (match onodeset obj with Some n => b_or cn n | None => cn end).
    split; [done|]. intros He. assert (bempty cn /\ onodeset obj = None) as [Hec Hnone].
    { destruct (onodeset obj) as [n|]; [|done]. exfalso. apply (Hon' n eq_refl). intros i Hi. specialize (He i Hi).
      rewrite bm_or in He by done. by apply orb_false_iff in He as [_ He]. }
    specialize (Hempty Hec). destruct Hobjs as [->|Hsame]; [by constructor|].
    eapply forall_same_place; [|exact Hsame|exact Hempty]. intros o o' (_ & _ & Hs & _). unfold onodeset. by rewrite Hs.
  - destruct Hobjs as [->|Hsame]; [by constructor|]. eapply forall_same_place; [apply same_place_bare|exact Hsame|done].
  - rewrite objs_of_tree. constructor; [by rewrite Hroot|].
    destruct Hobjs as [->|Hsame]; [|eapply forall_same_place; [apply same_place_normal|exact Hsame|done]].
    constructor; [|done]. split; [apply Hok|done].
  - unfold distinct. rewrite objs_of_tree. cbn [map]. rewrite Ha.
    destruct Hobjs as [->|Hsame]; [|rewrite (same_place_addrs _ _ Hsame); by constructor].
    cbn [map]. rewrite Forall_forall in Hfo. apply NoDup_cons. split.
    + rewrite elem_of_cons, Haddr. intros [?|?]; [lia|done].
    + apply NoDup_cons. split; [|done]. rewrite Haddr. intros (o & Hoo & Ho)%list_elem_of_fmap. specialize (Hfo o Ho). lia.
  - rewrite objs_of_tree. constructor; [rewrite Ha; lia|].
    destruct Hobjs as [->|Hsame].
    + constructor; [lia|]. eapply Forall_impl; [exact Hfo|]. intros o Ho. cbn beta in *. lia.
    + eapply forall_same_place; [|exact Hsame|]; [intros o o' (-> & _); done|].
      eapply Forall_impl; [exact Hfo|]. intros o Ho. cbn beta in *. lia.
Qed.

(** An insertion never fails: the object is inserted unless one of the objects conflicts
    with it, and the hierarchy stands. *)
Lemma insert_standing st obj : standing st -> insertable st obj ->
  exists b st', insert_object st obj = Some (b, st') /\ standing st' /\ x_next st' = x_next st + 1 /\
    x_distances st' = x_distances st /\ grown_top obj (x_top st) (x_top st') /\
    (if b : bool then x_objs st' ≡ₚ obj :: x_objs st /\ Forall (no_conflict obj) (x_objs st)
     else Forall2 same_place (x_objs st) (x_objs st') /\ exists o, o ∈ x_objs st /\
       (hwloc_obj_cmp obj o = Some HWLOC_OBJ_EQUAL \/ hwloc_obj_cmp obj o = Some HWLOC_OBJ_INTERSECTS)).
Proof.
  intros Hst Hin. pose proof Hst as [Hwf Hfull (Hc & Hcc & Hon & Hal) (Hn & cn & Hcn & Hempty) _ _ _ _].
  pose proof Hin as [Hok Harr Haddr Hsm _ _ _]. destruct (ok_cs obj Hok) as (Hoc & _ & _).
  destruct (insert_grows (x_root st) obj (cs obj) Hoc Hcc) as (ro' & Hgr & Heq); [by exists cn|].
  assert (x_root st = Node (x_top st) (t_children (x_root st))) as Hrt by (unfold x_top; by destruct (x_root st)).
  destruct (insert_ok (tree_height (x_root st)) (Node ro' (t_children (x_root st))) obj) as ([r root'] & Hins & Hpost).
  - rewrite Hrt at 2. done.
  - apply (update_root_wf (x_top st)); [by eapply grown_rank|by rewrite <- Hrt].
  - cbn [t_obj]. destruct (grown_rank _ _ _ Hgr) as (-> & _). exact Hc.
  - done.
  - done.
  - cbn [t_obj]. eapply rank_cmp; [by eapply grown_rank|]. by apply full_contains.
  - unfold insert_object. rewrite Heq, Hins. cbn [mbind option_bind].
    destruct Hpost as (Hwf' & Htop & Hpost). cbn [t_obj t_children] in *. unfold x_objs.
    assert (forall root, x_top (mk_linux root (x_next st + 1) (x_distances st)) = t_obj root) as Hxt by done.
    destruct r as [|why].
    + destruct Hpost as [Hperm Hfree]. rewrite tree_objs_node in Hperm.
      rewrite (objs_of_tree root'), Htop in Hperm.
      assert (forest_objs (t_children root') ≡ₚ obj :: forest_objs (t_children (x_root st))) as Hp.
      { apply (Permutation_cons_inv (a := ro')). rewrite Hperm. apply perm_swap. }
      exists true. eexists. split; [done|]. cbn [x_root x_next x_distances]. rewrite Hxt, Htop.
      split; [apply (standing_changed st obj); [done|done|done|by rewrite Htop|by left]|]. by split_and!.
    + pose proof (not_inserted_places _ _ _ _ _ Hins) as Hsame.
      rewrite tree_objs_node, (objs_of_tree root') in Hsame.
      apply Forall2_cons in Hsame as [_ Hsame].
      exists false. eexists. split; [done|]. cbn [x_root x_next x_distances]. rewrite Hxt, Htop.
      split; [apply (standing_changed st obj); [done|done|done|by rewrite Htop|by right]|]. split; [done|]. split; [done|]. split; [done|].
      split; [done|]. destruct why; try done.
      1-3: destruct Hpost as (o & _ & Hcmp & Ho & _); exists o; split; [done|by left].
      destruct Hpost as (_ & o & Ho & Hcmp). exists o. split; [done|by right].
Qed.

(** ** Other changes *)

Lemma tree_wf_tmap f t : (forall o, rank_eq o (f o)) -> tree_wf t -> tree_wf (tmap f t).
Proof.
  intros Hf. induction t as [o ch IH] using obj_tree_ind'. intros [Hch Hs]%tree_wf_inv. cbn [tmap]. constructor.
  - apply Forall_map. rewrite Forall_forall in IH, Hch. apply Forall_forall. intros c Hc.
    destruct (Hch c Hc) as [Hsl|(Hok & Hcon & Hwf)].
    + left. rewrite tree_objs_tmap. apply Forall_map. eapply Forall_impl; [exact Hsl|]. intros x Hx. by apply (rank_setless x (f x)).
    + right. rewrite t_obj_tmap. split; [by eapply rank_ok|]. split; [|by apply IH].
      eapply rank_cmp; [apply Hf|]. by eapply rank_cmp_r.
  - clear -Hs Hf. induction Hs as [|c ch _ IH Hall]; [constructor|]. cbn [map]. constructor; [done|].
    apply Forall_map. eapply Forall_impl; [exact Hall|]. intros d Hd. unfold sib_before in *. rewrite !t_obj_tmap.
    rewrite <- (rank_setless _ _ (Hf (t_obj c))), <- (rank_setless _ _ (Hf (t_obj d))), (rank_cs _ _ (Hf (t_obj c))), (rank_cs _ _ (Hf (t_obj d))). done.
Qed.

Lemma tmap_standing f st : (forall o, rank_eq o (f o) /\ same_place o (f o)) -> standing st ->
  standing (mk_linux (tmap f (x_root st)) (x_next st) (x_distances st)).
Proof.
  intros Hf [Hwf Hfull (Hc & Hcc & Hon & Hal) (Hn & cn & Hcn & Hempty) Hbare Hnor Hdis Hfr].
  assert (forall l, Forall2 same_place l (map f l)) as Hsame by (intros l; induction l; cbn [map]; constructor; [apply Hf|done]).
  destruct (Hf (x_top st)) as [_ Htop]. pose proof Htop as (Hta & Htt & Hts & _).
  assert (t_obj (tmap f (x_root st)) = f (x_top st)) as Heq by apply t_obj_tmap.
  assert (forest_objs (t_children (tmap f (x_root st))) = map f (x_objs st)) as Hobjs
    by (rewrite t_children_tmap; apply forest_objs_tmap).
  split; unfold x_top; cbn [x_root x_next].
  - apply tree_wf_tmap; [intros; apply Hf|done].
  - intros i Hi. rewrite Heq, (same_place_cs _ _ Htop). by apply Hfull.
  - unfold four_cpusets, ocpuset in *. by rewrite Heq, Hts.
  - unfold onodeset in *. rewrite Heq, Hts. split; [done|]. exists cn. split; [done|]. intros He. unfold x_objs. cbn [x_root]. rewrite Hobjs.
    eapply forall_same_place; [|apply Hsame|by apply Hempty]. intros o o' (_ & _ & Hs & _). unfold onodeset. by rewrite Hs.
  - unfold x_objs. cbn [x_root]. rewrite Hobjs. eapply forall_same_place; [apply same_place_bare|apply Hsame|done].
  - rewrite tree_objs_tmap. eapply forall_same_place; [apply same_place_normal|apply Hsame|done].
  - unfold distinct. rewrite tree_objs_tmap, (same_place_addrs (tree_objs (x_root st))) by apply Hsame. done.
  - rewrite tree_objs_tmap. eapply forall_same_place; [|apply Hsame|done]. by intros o o' (-> & _).
Qed.

Lemma on_top_parts f st : x_top (on_top f st) = f (x_top st) /\ x_objs (on_top f st) = x_objs st /\
  x_next (on_top f st) = x_next st /\ x_distances (on_top f st) = x_distances st.
Proof. unfold x_top, x_objs, on_top. by destruct (x_root st). Qed.

(** Only the sets of CPUs of the root that are not its cpuset change. *)
Lemma on_top_standing f st : standing st -> rank_eq (x_top st) (f (x_top st)) -> o_addr (f (x_top st)) = o_addr (x_top st) ->
  four_cpusets (f (x_top st)) -> complete_nodeset (sets (f (x_top st))) = complete_nodeset (sets (x_top st)) ->
  standing (on_top f st).
Proof.
  intros [Hwf Hfull Hc Hn Hbare Hnor Hdis Hfr] Hrank Haddr Hfour Hcn.
  destruct (on_top_parts f st) as (Htop & Hobjs & Hnext & _). rewrite x_root_objs in Hnor, Hdis, Hfr.
  apply Forall_cons in Hnor as [Hnt Hno]. apply Forall_cons in Hfr as [Hft Hfo].
  assert (tree_objs (x_root (on_top f st)) = f (x_top st) :: x_objs st) as Hroot by (by rewrite x_root_objs, Htop, Hobjs).
  split; rewrite ?Hroot, ?Htop, ?Hobjs, ?Hnext.
  - unfold on_top, x_top in *. destruct (x_root st) as [ro ch]. cbn [x_root t_obj] in *. by eapply update_root_wf.
  - intros i Hi. rewrite (rank_cs _ _ Hrank). by apply Hfull.
  - done.
  - destruct Hrank as (_ & -> & _). by rewrite Hcn.
  - done.
  - constructor; [|done]. destruct Hrank as (_ & _ & Hty & _). destruct Hnt. unfold normal, not_io. by rewrite Hty.
  - unfold distinct in *. cbn [map] in *. by rewrite Haddr.
  - constructor; [by rewrite Haddr|done].
Qed.

(** ** Progress *)

(** The hierarchy stands, the objects keep their places, and the sets of the root that the
    insertions do not touch are the same. *)
Record progress st st' : Prop := {
  pg_standing : standing st';
  pg_next : x_next st <= x_next st';
  pg_distances : x_distances st' = x_distances st;
  pg_kept : forall o, o ∈ x_objs st -> exists o', o' ∈ x_objs st' /\ same_place o o';
  pg_online : online_cpuset (sets (x_top st')) = online_cpuset (sets (x_top st));
  pg_allowed : allowed_cpuset (sets (x_top st')) = allowed_cpuset (sets (x_top st));
  pg_complete : forall cc, complete_cpuset (sets (x_top st)) = Some cc ->
    exists cc', complete_cpuset (sets (x_top st')) = Some cc' /\ bsub cc cc';
}.

Lemma progress_refl st : standing st -> progress st st.
Proof. intros Hs. split; [done|lia|done|by intros o; exists o|done|done|]. intros cc Hcc. by exists cc. Qed.

Lemma progress_trans st1 st2 st3 : progress st1 st2 -> progress st2 st3 -> progress st1 st3.
Proof.
  intros [_ Hn1 Hd1 Hk1 Ho1 Ha1 Hc1] [Hs Hn2 Hd2 Hk2 Ho2 Ha2 Hc2]. split; [done|lia|congruence| |congruence|congruence|].
  - intros o (o' & Ho' & H1)%Hk1. destruct (Hk2 o' Ho') as (o'' & Ho'' & H2). exists o''. split; [done|]. by transitivity o'.
  - intros cc Hcc. destruct (Hc1 cc Hcc) as (cc1 & Hcc1 & Hs1). destruct (Hc2 cc1 Hcc1) as (cc2 & Hcc2 & Hs2).
    exists cc2. split; [done|]. by transitivity cc1.
Qed.

Definition has st (P : hwloc_obj B -> Prop) : Prop := exists o, o ∈ x_objs st /\ P o.

Lemma has_progress st st' P : (forall o o', same_place o o' -> P o -> P o') -> progress st st' -> has st P -> has st' P.
Proof. intros HP Hpg (o & Ho & Hp). destruct (pg_kept _ _ Hpg o Ho) as (o' & Ho' & Hsame). exists o'. split; [done|by eapply HP]. Qed.

(** An object of this kind with these CPUs. *)
Definition is_kind (type : hwloc_obj_type_t) (depth : Z) (set : B) o : Prop :=
  o_type o = type /\ attr_depth type (attr o) = depth /\ beq (cs o) set.

Lemma is_kind_place type depth set o o' : same_place o o' -> is_kind type depth set o -> is_kind type depth set o'.
Proof.
  intros Hs (Ht & Hd & Hb). pose proof (same_place_cs _ _ Hs) as Hcs. destruct Hs as (_ & Ht' & _ & Hd' & _).
  unfold is_kind. rewrite Ht', Hcs. split; [done|]. split; [|done]. rewrite Ht in Hd'. congruence.
Qed.

Lemma standing_ok st o : standing st -> o ∈ x_objs st -> obj_ok o.
Proof.
  intros Hst Ho. pose proof (tree_wf_below _ (sd_wf _ Hst)) as Hb. rewrite Forall_forall in Hb.
  destruct (Hb o Ho) as [[Hn _]|[Hok _]]; [|done]. pose proof (sd_bare _ Hst) as Hbare. rewrite Forall_forall in Hbare.
  destruct (Hbare o Ho) as [[c Hc] _]. congruence.
Qed.

Lemma obj_key_kind o1 o2 : obj_key o1 = obj_key o2 -> o_type o1 = o_type o2 /\ attr_depth (o_type o1) (attr o1) = attr_depth (o_type o1) (attr o2).
Proof.
  unfold obj_key. intros Heq. assert (o_type o1 = o_type o2) as Ht by (apply type_order_inj; congruence).
  split; [done|]. rewrite <- Ht in Heq. congruence.
Qed.

Definition conflict (r : hwloc_obj_cmp_e) obj st : Prop := exists o, o ∈ x_objs st /\ hwloc_obj_cmp obj o = Some r.

Lemma insert_progress st obj : standing st -> insertable st obj ->
  exists b st', insert_object st obj = Some (b, st') /\ progress st st' /\
    (~ conflict HWLOC_OBJ_INTERSECTS obj st ->
      has st' (is_kind (o_type obj) (attr_depth (o_type obj) (attr obj)) (cs obj))) /\
    (b = true \/ conflict HWLOC_OBJ_EQUAL obj st \/ conflict HWLOC_OBJ_INTERSECTS obj st) /\
    (b = true -> obj ∈ x_objs st') /\
    (forall o', o' ∈ x_objs st' -> o' = obj \/ exists o, o ∈ x_objs st /\ same_place o o').
Proof.
  intros Hst Hin. destruct (insert_standing st obj Hst Hin) as (b & st' & Hrun & Hst' & Hnext & Hd & Hgr & Hb).
  exists b, st'. split; [done|].
  assert (forall o, o ∈ x_objs st -> exists o', o' ∈ x_objs st' /\ same_place o o') as Hkept.
  { intros o Ho. destruct b.
    - exists o. split; [|done]. destruct Hb as [-> _]. by right.
    - destruct Hb as [Hb _]. apply list_elem_of_lookup in Ho as [i Hi]. destruct (Forall2_lookup_l _ _ _ _ _ Hb Hi) as (o' & Ho' & Hs).
      exists o'. split; [by eapply list_elem_of_lookup_2|done]. }
  split; [|split; [|split; [|split]]].
  - destruct Hgr as (cc & cn & Hcc & Hcn & Htop). split; [done|lia|done|done| | |]; rewrite ?Htop; [done..|].
    intros c Hc. rewrite Hcc in Hc. injection Hc as <-. eexists. split; [done|]. intros i Hi Hm. by rewrite bm_or, Hm by done.
  - intros Hno. destruct b.
    + exists obj. split; [destruct Hb as [-> _]; by left|]. by split_and!.
    + destruct Hb as [_ (o & Ho & [Hcmp|Hcmp])]; [|destruct Hno; by exists o].
      destruct (Hkept o Ho) as (o' & Ho' & Hs). exists o'. split; [done|]. eapply is_kind_place; [exact Hs|].
      apply cmp_iff in Hcmp as [Hbeq Hkey]; [|apply Hin|by apply (standing_ok st)]. apply obj_key_kind in Hkey as [Ht Hdep].
      unfold is_kind. rewrite <- Ht. split; [done|]. split; [done|]. by symmetry.
  - destruct b; [by left|right]. destruct Hb as [_ (o & Ho & [Hcmp|Hcmp])]; [left|right]; by exists o.
  - intros ->. destruct Hb as [-> _]. by left.
  - intros o' Ho'. destruct b.
    + destruct Hb as [Hp _]. rewrite Hp in Ho'. apply elem_of_cons in Ho' as [->|Ho']; [by left|right]. by exists o'.
    + right. destruct Hb as [Hb _]. apply list_elem_of_lookup in Ho' as [i Hi]. destruct (Forall2_lookup_r _ _ _ _ _ Hb Hi) as (o & Ho & Hs).
      exists o. split; [by eapply list_elem_of_lookup_2|done].
Qed.

End Standing.
