(* ===== verification/LinuxSysfs.v ===== *)
(** * LinuxSysfs: what the topology files of the CPUs become

    The steps of [look_sysfscpu] keep the hierarchy also when the sets in the files cross,
    as long as freed objects are not used; when these sets are nested or disjoint, every
    object they describe is inserted. *)

From Stdlib Require Import Ascii String Sorted.
From S2P Require Import Prelude Misc Bitmap CString CStringOk Cpuset Obj ObjCmp Insert InsertOk LevelsOk Sets Shape Synthetic Scan DiscoverOk DiscoverLoad Distances LinuxFiles LinuxCpus LinuxCpusOk.

Section Sysfs.
Context {B : Type} `{Cpuset B} `{!CpumapOps B} `{!Cpumap B}.
Implicit Types o obj : hwloc_obj B.
Implicit Types st : linux_state (B := B).
Implicit Types set : B.

(** ** Objects with a cpuset *)

Lemma first_nonempty set i : 0 <= i -> bfirst_from set 0 i -> ~ bempty set.
Proof. intros Hi [[-> _]|(_ & Hb & _)] He; [lia|]. by rewrite He in Hb. Qed.

Lemma first_unique set i j : bfirst_from set 0 i -> bfirst_from set 0 j -> i = j.
Proof.
  intros [[-> Hi]|(Hi & Hib & Hif)] [[-> Hj]|(Hj & Hjb & Hjf)]; [done| | |].
  - by rewrite Hi in Hjb by lia.
  - by rewrite Hj in Hib by lia.
  - destruct (Z.lt_trichotomy i j) as [?|[?|?]]; [|done|]; [by rewrite Hjf in Hib by lia|by rewrite Hif in Hjb by lia].
Qed.

Lemma first_beq a b i : beq a b -> bfirst_from a 0 i -> bfirst_from b 0 i.
Proof.
  intros Hab [[-> Hi]|(Hi & Hib & Hif)]; [left; split; [done|]|right; split; [done|split]].
  - intros j Hj. rewrite <- Hab by lia. by apply Hi.
  - by rewrite <- Hab by lia.
  - intros j Hj. rewrite <- Hab by lia. by apply Hif.
Qed.

(** Usable as the set of an object. *)
Record set_ok set : Prop := { so_fin : bfin set = true; so_small : small set; so_some : ~ bempty set }.

Lemma alloc_insertable st type idx set a :
  hwloc_obj_type_is_io type = false -> type <> HWLOC_OBJ_MISC -> set_ok set ->
  insertable st (with_attr (alloc_with_cpuset st type idx set) a).
Proof.
  intros Hio Hm [Hf Hs Hn]. split; try done.
  split; [by exists set|done|done].
Qed.

Lemma alloc_attr st type idx set : alloc_with_cpuset st type idx set = with_attr (alloc_with_cpuset st type idx set) (empty_attr type).
Proof. done. Qed.

Lemma single_ok i : 0 <= i < CPU_MAX -> set_ok (b_only i) /\ bfirst_from (b_only i) 0 i.
Proof.
  intros Hi. split.
  - split; [by apply bfin_only|intros j Hj; rewrite bm_only by done; lia|]. intros He. specialize (He i ltac:(lia)).
    rewrite bm_only in He by (done || lia). lia.
  - right. split; [lia|]. split; [rewrite bm_only by (done || lia); lia|]. intros j Hj. rewrite bm_only by (done || lia). lia.
Qed.

Lemma only_beq i : 0 <= i < CPU_MAX -> beq (b_set b_alloc i) (b_only i).
Proof. intros Hi j Hj. rewrite bm_set, bm_only, bm_alloc by done. by rewrite orb_false_r. Qed.

Lemma one_ok i : 0 <= i < CPU_MAX -> set_ok (b_set b_alloc i) /\ bfirst_from (b_set b_alloc i) 0 i.
Proof.
  intros Hi. pose proof (only_beq i Hi) as Heq. destruct (single_ok i Hi) as [[_ Hs Hn] Hf]. split; [split|].
  - rewrite bfin_set by done. apply bfin_alloc.
  - intros j Hj. rewrite Heq by done. by apply Hs.
  - intros He. apply Hn. intros j Hj. rewrite <- Heq by done. by apply He.
  - by apply (first_beq (b_only i)).
Qed.

(** ** Nested or disjoint sets *)

Definition laminar a b : Prop := bsub a b \/ bsub b a \/ bdisj a b.

Lemma laminar_sym a b : laminar a b -> laminar b a.
Proof. intros [?|[?|?]]; [right; by left|by left|right; right; by symmetry]. Qed.

Lemma laminar_beq a b c : beq a b -> laminar a c -> laminar b c.
Proof. intros Heq. unfold laminar. by rewrite Heq. Qed.

Lemma laminar_only a i : 0 <= i < CPU_MAX -> laminar a (b_only i).
Proof.
  intros Hi. destruct (bm a i) eqn:Ha; [right; left|right; right].
  - intros j Hj. rewrite bm_only by done. by intros ->%Z.eqb_eq.
  - intros j Hj Hja. rewrite bm_only by done. intros ->%Z.eqb_eq. congruence.
Qed.

Lemma laminar_no_conflict obj st : standing st -> obj_ok obj -> Forall (fun o => laminar (cs o) (cs obj)) (x_objs st) ->
  ~ conflict HWLOC_OBJ_INTERSECTS obj st.
Proof.
  intros Hst Hok Hl (o & Ho & Hcmp). rewrite Forall_forall in Hl. specialize (Hl o Ho).
  apply cmp_iff in Hcmp as (H1 & H2 & H3); [|done|by apply (standing_ok st)]. destruct Hl as [?|[?|?]]; [done|done|].
  apply H1. by symmetry.
Qed.

(** The objects of a type start before an index. *)
Definition starts_before (type : hwloc_obj_type_t) (n : Z) st : Prop :=
  Forall (fun o => o_type o = type -> exists j, j < n /\ bfirst_from (cs o) 0 j) (x_objs st).

Lemma starts_no_equal obj st i : standing st -> obj_ok obj -> bfirst_from (cs obj) 0 i -> starts_before (o_type obj) i st ->
  ~ conflict HWLOC_OBJ_EQUAL obj st.
Proof.
  intros Hst Hok Hf Hb (o & Ho & Hcmp). unfold starts_before in Hb. rewrite Forall_forall in Hb.
  apply cmp_iff in Hcmp as (Heq & Hkey); [|done|by apply (standing_ok st)]. apply obj_key_kind in Hkey as [Ht _].
  destruct (Hb o Ho ltac:(done)) as (j & Hj & Hjf). symmetry in Heq. apply (first_beq _ _ _ Heq) in Hjf.
  pose proof (first_unique _ _ _ Hf Hjf). lia.
Qed.

(** The types whose objects are only created for their first CPU. *)
Definition leading : list hwloc_obj_type_t := [HWLOC_OBJ_SOCKET; HWLOC_OBJ_CORE; HWLOC_OBJ_GROUP; HWLOC_OBJ_PU].

(** [fam]: the sets of the files. *)
Record tidy (fam : B -> Prop) (f : hwloc_obj_type_t -> Z) st : Prop := {
  td_laminar : Forall (fun o => forall s, fam s -> laminar (cs o) s) (x_objs st);
  td_leading : forall type, type ∈ leading -> starts_before type (f type) st;
}.

Definition upd_type (f : hwloc_obj_type_t -> Z) (type : hwloc_obj_type_t) (n : Z) : hwloc_obj_type_t -> Z :=
  fun t => if bool_decide (t = type) then n else f t.

(** An object with a set of the files, or a single CPU. *)
Definition family (fam : B -> Prop) set : Prop := fam set \/ exists i, 0 <= i < CPU_MAX /\ beq set (b_only i).

Lemma family_laminar fam a s : (forall s1 s2, fam s1 -> fam s2 -> laminar s1 s2) -> family fam a -> fam s -> laminar a s.
Proof.
  intros Hfam [Ha|(i & Hi & Heq)] Hs; [by apply Hfam|]. apply (laminar_beq (b_only i)); [by symmetry|].
  by apply laminar_sym, laminar_only.
Qed.

Lemma tidy_family fam f st set : tidy fam f st -> family fam set -> Forall (fun o => laminar (cs o) set) (x_objs st).
Proof.
  intros [Hl _] Hset. eapply Forall_impl; [exact Hl|]. intros o Ho. cbn beta in *. destruct Hset as [Hs|(i & Hi & Heq)]; [by apply Ho|].
  apply laminar_sym, (laminar_beq (b_only i)); [by symmetry|]. by apply laminar_sym, laminar_only.
Qed.

(** An insertion: into any hierarchy, and into a tidy one. *)
Lemma insert_step fam f st obj i :
  (forall s1 s2, fam s1 -> fam s2 -> laminar s1 s2) -> standing st -> insertable st obj -> bfirst_from (cs obj) 0 i ->
  exists b st', insert_object st obj = Some (b, st') /\ progress st st' /\
    (beq (cs obj) (b_only i) -> 0 <= i < CPU_MAX -> has st' (is_kind (o_type obj) (attr_depth (o_type obj) (attr obj)) (cs obj))) /\
    (tidy fam f st -> family fam (cs obj) ->
      has st' (is_kind (o_type obj) (attr_depth (o_type obj) (attr obj)) (cs obj)) /\
      (o_type obj ∉ leading -> tidy fam f st') /\
      (o_type obj ∈ leading -> f (o_type obj) <= i ->
        b = true /\ obj ∈ x_objs st' /\ tidy fam (upd_type f (o_type obj) (i + 1)) st')).
Proof.
  intros Hfam Hst Hin Hfirst. destruct (insert_progress st obj Hst Hin) as (b & st' & Hrun & Hpg & Hhas & Hb & Hobj & Hfrom).
  pose proof (in_ok _ _ Hin) as Hok. exists b, st'. split; [done|]. split; [done|]. split.
  { intros Heq Hi. apply Hhas, laminar_no_conflict; [done|done|]. apply Forall_forall. intros o _.
    apply laminar_sym, (laminar_beq (b_only i)); [by symmetry|]. by apply laminar_sym, laminar_only. }
  intros Htidy Hset. assert (~ conflict HWLOC_OBJ_INTERSECTS obj st) as Hni
    by (apply laminar_no_conflict; [done|done|by eapply tidy_family]).
  assert (Forall (fun o => forall s, fam s -> laminar (cs o) s) (x_objs st')) as Hlam.
  { apply Forall_forall. intros o' Ho' s Hs. destruct (Hfrom o' Ho') as [->|(o & Ho & Hsame)]; [by eapply family_laminar|].
    rewrite (same_place_cs _ _ Hsame). destruct Htidy as [Hl _]. rewrite Forall_forall in Hl. by apply Hl. }
  assert (forall g, (forall type, type ∈ leading -> f type <= g type) -> (o_type obj ∈ leading -> i < g (o_type obj)) ->
    forall type, type ∈ leading -> starts_before type (g type) st') as Hlead.
  { intros g Hg Hgi type Htype. apply Forall_forall. intros o' Ho' Hty. destruct (Hfrom o' Ho') as [->|(o & Ho & Hsame)].
    - exists i. rewrite <- Hty in *. split; [by apply Hgi|done].
    - rewrite (same_place_cs _ _ Hsame). destruct Htidy as [_ Hl]. specialize (Hl type Htype). unfold starts_before in Hl.
      rewrite Forall_forall in Hl. destruct Hsame as (_ & Ht & _). destruct (Hl o Ho ltac:(congruence)) as (j & Hj & Hjf).
      exists j. split; [|done]. specialize (Hg type Htype). lia. }
  split; [by apply Hhas|]. split.
  - intros Hnl. split; [done|]. apply Hlead; [done|tauto].
  - intros Hl Hfi. assert (b = true) as ->.
    { destruct Hb as [|[Hc|Hc]]; [done| |done]. exfalso. revert Hc. apply (starts_no_equal obj st i); [done..|].
      destruct Htidy as [_ Htl]. specialize (Htl _ Hl). eapply Forall_impl; [exact Htl|]. intros o Ho Hty.
      destruct (Ho Hty) as (j & Hj & Hjf). exists j. split; [lia|done]. }
    split; [done|]. split; [by apply Hobj|]. split; [done|]. apply Hlead.
    + intros type Htype. unfold upd_type. case_bool_decide as He; [|done]. rewrite He. lia.
    + intros _. unfold upd_type. rewrite bool_decide_true by done. lia.
Qed.

End Sysfs.

(** ** The steps *)

Section Steps.
Context {B : Type} `{Cpuset B} `{!CpumapOps B} `{!Cpumap B}.
Implicit Types o obj : hwloc_obj B.
Implicit Types st : linux_state (B := B).
Implicit Types set : B.
Context (fs : file_system) (path : chars) (Lprocs : list hwloc_linux_cpuinfo_proc) (machine : chars).

(** The contents can be held by the arrays of a set, and the paths by the buffers. *)
Definition files_fit : Prop := forall p c, fs_content fs p = Some c -> Z.of_nat (length c) <= file_max.
Context (Hfiles : files_fit) (Hpath : (length path <= 40)%nat).

Lemma cpu_path_ok cpu file : 0 <= cpu < 2 ^ 64 -> (length (txt file) <= 50)%nat -> is_Some (cpu_path path cpu file).
Proof.
  intros Hc Hf. unfold cpu_path, sprintf. rewrite !length_app. change (length (txt "/cpu")) with 4%nat.
  assert (length (fmt_d cpu) <= 20)%nat as Hd.
  { unfold fmt_d. destruct (Z.ltb_spec cpu 0); [lia|]. destruct (print_num_text 10 cpu ltac:(lia) Hc) as [_ _ _ H4 _].
    apply H4; [lia|]. change (Z.of_nat 20) with 20. assert (2 ^ 64 < 10 ^ 20) by done. lia. }
  destruct (Nat.ltb_spec (length path + (4 + (length (fmt_d cpu) + length (txt file)))) 128); [by eexists|lia].
Qed.

Lemma cache_path_ok i j file : 0 <= i < 2 ^ 64 -> 0 <= j < 10 -> (length (txt file) <= 30)%nat -> is_Some (cache_path path i j file).
Proof.
  intros Hi Hj Hf. apply cpu_path_ok; [done|].
  assert (forall a b, txt (String.append a b) = txt a ++ txt b) as Happ.
  { clear. unfold txt. intros a b. induction a as [|c a IH]; [done|]. simpl. by rewrite IH. }
  rewrite !Happ, !length_app. change (length (txt "/cache/index")) with 12%nat.
  assert (length (fmt_d j) <= 1)%nat as Hd.
  { unfold fmt_d. destruct (Z.ltb_spec j 0); [lia|]. destruct (print_num_text 10 j ltac:(lia) ltac:(lia)) as [_ _ _ H4 _].
    apply H4; simpl; lia. }
  assert (length (txt (string_of_list_ascii (fmt_d j))) = length (fmt_d j)) as ->
    by (unfold txt; by rewrite list_ascii_of_string_of_list_ascii).
  lia.
Qed.

Lemma parse_cpumap_ok str : exists r, hwloc_parse_cpumap (B := B) fs str = Some r /\
  forall set, r = Some set -> bfin set = true /\ small set.
Proof.
  unfold hwloc_parse_cpumap, hwloc_fopen. destruct (fs_content fs (hwloc_checkat str)) as [file|] eqn:Hf; [|by exists None].
  destruct (parse_cpumap_total (B := B) file (Hfiles _ _ Hf)) as (set & -> & Hfin & Hs). exists (Some set). split; [done|].
  intros s [= <-]. done.
Qed.

(** [set] is the map in a file of CPU [i]; the number in another one. *)
Definition map_in (str : option chars) set : Prop :=
  exists p, str = Some p /\ hwloc_parse_cpumap fs p = Some (Some set).
Definition number_in (i : Z) (file : string) : Z :=
  match cpu_path path i file with Some p => snd (hwloc_parse_sysfs_unsigned fs p) | None => UNSET end.

Definition set_files : list string := ["/topology/core_siblings"; "/topology/thread_siblings"; "/topology/book_siblings"]%string.

(** The sets that the files of the CPUs hold. *)
Definition file_set set : Prop :=
  exists i, 0 <= i < CPU_MAX /\
    ((exists file, file ∈ set_files /\ map_in (cpu_path path i file) set) \/
     (exists j, 0 <= j < 10 /\ map_in (cache_path path i j "/shared_cpu_map") set)).

Definition sets_nested : Prop := forall s1 s2, file_set s1 -> file_set s2 -> laminar s1 s2.

Definition is_obj (type : hwloc_obj_type_t) (depth idx : Z) set o : Prop :=
  is_kind type depth set o /\ (idx <> UNSET -> os_index o = idx).

Lemma is_obj_place type depth idx set o o' : same_place o o' -> is_obj type depth idx set o -> is_obj type depth idx set o'.
Proof.
  intros Hs [Hk Hi]. split; [by eapply is_kind_place|]. intros Hne. destruct Hs as (_ & _ & _ & _ & Hs).
  rewrite Hs; [by apply Hi|]. by rewrite Hi.
Qed.

(** The infos of an object do not move anything. *)
Lemma add_infos_progress st addr inserted l : standing st -> l = [] \/ inserted = true ->
  exists st', add_infos st addr inserted l = Some st' /\ progress st st' /\
    Forall2 same_place (x_objs st) (x_objs st') /\ map os_index (x_objs st') = map os_index (x_objs st).
Proof.
  intros Hst Hl. unfold add_infos.
  assert (forall l : list (hwloc_obj B), Forall2 same_place l l) as Hrefl by (intros; by apply forall2_refl).
  destruct l as [|x l]; [exists st; by split_and!; try apply progress_refl|]. destruct Hl as [| ->]; [done|].
  generalize dependent (x :: l). clear x l. intros l. set (f o := if o_addr o =? addr then put_infos l o else o).
  assert (forall o, exists i, f o = with_infos o i) as Hf.
  { intros o. unfold f. destruct (o_addr o =? addr); [|exists (infos o); by destruct o].
    revert o. induction l as [|[n v] l' IH]; intros o; [exists (infos o); by destruct o|].
    change (put_infos ((n, v) :: l') o) with (put_infos l' (hwloc_obj_add_info o n (string_of_list_ascii v))). destruct (IH (hwloc_obj_add_info o n (string_of_list_ascii v))) as (i & ->). by exists i. }
  assert (forall o, rank_eq o (f o) /\ same_place o (f o)) as Hsame by (intros o; destruct (Hf o) as [i ->]; done).
  eexists. split; [done|]. unfold x_objs. cbn [x_root]. rewrite t_children_tmap, forest_objs_tmap.
  assert (forall l : list (hwloc_obj B), Forall2 same_place l (map f l)) as Hmap
    by (intros l'; induction l' as [|o l' IH]; cbn [map]; constructor; [apply Hsame|done]).
  split; [|split; [done|]].
  - assert (x_top (mk_linux (tmap f (x_root st)) (x_next st) (x_distances st)) = f (x_top st)) as Htop by apply t_obj_tmap.
    split; [by apply tmap_standing|cbn; lia|done| | | |]; rewrite ?Htop.
    + intros o Ho. exists (f o). split; [|apply Hsame]. unfold x_objs. cbn [x_root]. rewrite t_children_tmap, forest_objs_tmap.
      by apply list_elem_of_fmap_2.
    + destruct (Hf (x_top st)) as [i ->]. done.
    + destruct (Hf (x_top st)) as [i ->]. done.
    + intros cc Hcc. exists cc. destruct (Hf (x_top st)) as [i ->]. done.
  - rewrite map_map. apply map_ext. intros o. by destruct (Hf o) as [i ->].
Qed.

Lemma tidy_same fam f st st' : Forall2 same_place (x_objs st) (x_objs st') -> tidy fam f st -> tidy fam f st'.
Proof.
  intros Hs [Hl Hlead]. split.
  - eapply forall_same_place; [|exact Hs|exact Hl]. intros o o' Ho. by rewrite (same_place_cs _ _ Ho).
  - intros type Ht. eapply forall_same_place; [|exact Hs|by apply Hlead]. intros o o' Ho.
    rewrite (same_place_cs _ _ Ho). destruct Ho as (_ & -> & _). done.
Qed.

Lemma first_is set i : 0 <= i -> b_first set = i -> bfirst_from set 0 i.
Proof. intros Hi <-. apply b_first_spec. Qed.

(** [fam] holds the sets of the files when they are nested or disjoint. *)
Context (fam : B -> Prop) (Hlaminar : forall s1 s2, fam s1 -> fam s2 -> laminar s1 s2).

Definition strict f st : Prop := (forall s, file_set s -> fam s) /\ tidy fam f st.

Lemma file_family i file set : 0 <= i < CPU_MAX -> file ∈ set_files -> map_in (cpu_path path i file) set ->
  (forall s, file_set s -> fam s) -> family fam set.
Proof. intros Hi Hf Hm Hall. left. apply Hall. exists i. split; [done|]. left. by exists file. Qed.

Lemma parsed_set str set i : 0 <= i -> hwloc_parse_cpumap (B := B) fs str = Some (Some set) -> b_first set = i ->
  set_ok set /\ bfirst_from set 0 i.
Proof.
  intros Hi Hp Hf. destruct (parse_cpumap_ok str) as (r & Hr & Hset). rewrite Hp in Hr. injection Hr as <-.
  destruct (Hset set eq_refl) as [Hfin Hs]. apply (first_is set i Hi) in Hf. split; [split; [done|done|]|done].
  by apply (first_nonempty set i).
Qed.

(** The insertion of an object for its first CPU. *)
Lemma lead_step st type idx set i : standing st -> 0 <= i < CPU_MAX -> set_ok set -> bfirst_from set 0 i -> type ∈ leading ->
  exists b st', insert_object st (alloc_with_cpuset st type idx set) = Some (b, st') /\ progress st st' /\
    (beq set (b_only i) -> has st' (is_kind type 0 set)) /\
    (forall f, strict f st -> family fam set -> f type <= i ->
      b = true /\ strict (upd_type f type (i + 1)) st' /\ has st' (is_obj type 0 (u32 idx) set)).
Proof.
  intros Hst Hi Hset Hfirst Htype. set (obj := alloc_with_cpuset st type idx set).
  assert (insertable st obj) as Hin.
  { unfold obj. rewrite alloc_attr. apply alloc_insertable; [|intros ->|done]; unfold leading in Htype; set_unfold; naive_solver. }
  assert (forall f, exists b st', insert_object st obj = Some (b, st') /\ progress st st' /\
    (beq set (b_only i) -> has st' (is_kind type 0 set)) /\
    (strict f st -> family fam set -> f type <= i ->
      b = true /\ strict (upd_type f type (i + 1)) st' /\ has st' (is_obj type 0 (u32 idx) set))) as Hstep.
  { intros f. destruct (insert_step fam f st obj i Hlaminar Hst Hin Hfirst) as (b & st' & Hrun & Hpg & Hone & Htidy).
    assert (attr_depth (o_type obj) (attr obj) = 0) as Hdep by (unfold leading in Htype; set_unfold; naive_solver).
    rewrite Hdep in *. exists b, st'. split; [done|]. split; [done|]. split; [by intros Heq; apply Hone|].
    intros [Hall Ht] Hfam Hf. destruct (Htidy Ht Hfam) as (_ & _ & Hlead). destruct (Hlead Htype Hf) as (-> & Hobj & Ht').
    split; [done|]. split; [by split|]. exists obj. split; [done|]. split; [by split_and!|done]. }
  destruct (Hstep (fun _ => 0)) as (b & st' & Hrun & Hpg & Hone & _). exists b, st'. split; [done|]. split; [done|]. split; [done|].
  intros f Hs Hfam Hf. destruct (Hstep f) as (b2 & st2 & Hrun2 & _ & _ & Hstr). rewrite Hrun in Hrun2. simplify_eq. by apply Hstr.
Qed.

Definition socket_there i st : Prop := forall set,
  map_in (cpu_path path i "/topology/core_siblings") set -> b_first set = i ->
  has st (is_obj HWLOC_OBJ_SOCKET 0 (number_in i "/topology/physical_package_id") set).

Lemma sysfs_unsigned_range p : 0 <= snd (hwloc_parse_sysfs_unsigned fs p) < 2 ^ 32.
Proof. unfold hwloc_parse_sysfs_unsigned. destruct (first_line fs 11 p); [apply u32_range|done]. Qed.

Lemma strict_weaken f g st : (forall t, t ∈ leading -> f t <= g t) -> strict f st -> strict g st.
Proof.
  intros Hle [Hall [Hl Hlead]]. split; [done|]. split; [done|]. intros t Ht. eapply Forall_impl; [by apply Hlead|].
  intros o Ho Hty. destruct (Ho Hty) as (j & Hj & Hjf). exists j. split; [|done]. specialize (Hle t Ht). lia.
Qed.

Lemma strict_upd f type i st : f type <= i -> strict f st -> strict (upd_type f type (i + 1)) st.
Proof. intros Hf. apply strict_weaken. intros t _. unfold upd_type. case_bool_decide as He; [rewrite He; lia|lia]. Qed.

Lemma strict_same f st st' : Forall2 same_place (x_objs st) (x_objs st') -> strict f st -> strict f st'.
Proof. intros Hs [Hall Ht]. split; [done|]. by eapply tidy_same. Qed.

Lemma small_path i : 0 <= i < CPU_MAX -> 0 <= i < 2 ^ 64.
Proof. unfold CPU_MAX. lia. Qed.

Lemma has_is_obj st st' type depth idx set : progress st st' -> has st (is_obj type depth idx set) -> has st' (is_obj type depth idx set).
Proof. apply has_progress. intros o o'. apply is_obj_place. Qed.

Lemma look_socket_ok st i : standing st -> 0 <= i < CPU_MAX ->
  (cpu_models Lprocs i ++ cpu_type machine = [] \/ exists f, strict f st /\ f HWLOC_OBJ_SOCKET <= i) ->
  exists st', look_socket fs path Lprocs machine i st = Some st' /\ progress st st' /\
    forall f, strict f st -> f HWLOC_OBJ_SOCKET <= i -> strict (upd_type f HWLOC_OBJ_SOCKET (i + 1)) st' /\ socket_there i st'.
Proof.
  intros Hst Hi Hmode. unfold look_socket, socket_there, number_in, map_in.
  destruct (cpu_path_ok i "/topology/physical_package_id" (small_path i Hi) ltac:(simpl; lia)) as [str Hstr].
  destruct (cpu_path_ok i "/topology/core_siblings" (small_path i Hi) ltac:(simpl; lia)) as [str' Hstr'].
  rewrite Hstr, Hstr'. cbn [mbind option_bind]. pose proof (sysfs_unsigned_range str) as Hid.
  destruct (hwloc_parse_sysfs_unsigned fs str) as [err id]. cbn [snd] in *.
  destruct (parse_cpumap_ok str') as (r & Hr & _). rewrite Hr. cbn [mbind option_bind].
  assert (forall set, r = Some set -> b_first set <> i -> forall f, strict f st -> f HWLOC_OBJ_SOCKET <= i ->
    strict (upd_type f HWLOC_OBJ_SOCKET (i + 1)) st /\ (forall set,
      (exists p, Some str' = Some p /\ hwloc_parse_cpumap fs p = Some (Some set)) -> b_first set = i ->
      has st (is_obj HWLOC_OBJ_SOCKET 0 id set))) as Hskip.
  { intros set -> Hne f Hs Hf. split; [by apply strict_upd|]. intros set' (p & [= <-] & Hp). rewrite Hr in Hp. by simplify_eq. }
  destruct r as [set|].
  - destruct (Z.eqb_spec (b_first set) i) as [Hf|Hne]; [|exists st; split; [done|split; [by apply progress_refl|by apply (Hskip set)]]].
    destruct (parsed_set str' set i ltac:(lia) Hr Hf) as [Hset Hfirst].
    destruct (lead_step st HWLOC_OBJ_SOCKET id set i Hst Hi Hset Hfirst ltac:(by left)) as (b & st1 & -> & Hpg & _ & Hstr1).
    cbn [mbind option_bind].
    assert ((forall s, file_set s -> fam s) -> family fam set) as Hfam.
    { apply (file_family i "/topology/core_siblings" set Hi); [by left|by exists str']. }
    destruct (add_infos_progress st1 (o_addr (alloc_with_cpuset st HWLOC_OBJ_SOCKET id set)) b (cpu_models Lprocs i ++ cpu_type machine))
      as (st2 & -> & Hpg2 & Hsame & Hidx); [apply Hpg| |].
    { destruct Hmode as [->|(f & Hs & Hle)]; [by left|right]. destruct (Hstr1 f Hs (Hfam (proj1 Hs)) Hle) as [-> _]. done. }
    exists st2. split; [done|]. split; [by eapply progress_trans|]. intros f Hs Hle.
    destruct (Hstr1 f Hs (Hfam (proj1 Hs)) Hle) as (_ & Hs1 & Hhas). split; [by eapply strict_same|].
    intros set' (p & [= <-] & Hp) _. rewrite Hr in Hp. simplify_eq. rewrite u32_small in Hhas by done. by eapply has_is_obj.
  - exists st. split; [done|]. split; [by apply progress_refl|]. intros f Hs Hf. split; [by apply strict_upd|].
    intros set (p & [= <-] & Hp). rewrite Hr in Hp. by simplify_eq.
Qed.

Lemma strict_family f st str i file set : 0 <= i < CPU_MAX -> file ∈ set_files -> cpu_path path i file = Some str ->
  hwloc_parse_cpumap fs str = Some (Some set) -> strict f st -> family fam set.
Proof. intros Hi Hf Hstr Hp [Hall _]. apply (file_family i file); [done|done|by exists str|done]. Qed.

(** *** Cores *)

Lemma second_member set i : bfin set = true -> 1 < b_weight set -> 0 <= i < CPU_MAX -> ~ bempty (b_clr set i).
Proof.
  intros Hfin Hw Hi He. destruct (b_weight_spec set Hfin) as (l & Hl & Hnd & Hin). destruct l as [|a [|b l]]; [simpl in *; lia..|].
  apply NoDup_cons in Hnd as [Hab _].
  assert (forall x, x ∈ a :: b :: l -> x = i) as Hall.
  { intros x Hx. apply Hin in Hx as [Hx Hb]. specialize (He x Hx). rewrite bm_clr, Hb, andb_true_r in He by done.
    apply negb_false_iff in He. lia. }
  assert (a = i) as -> by (apply Hall; by left). assert (b = i) as -> by (apply Hall; right; by left).
  apply Hab. by left.
Qed.

Lemma thread_with_core_id_ok i set id : bfin set = true -> small set -> 0 <= i < CPU_MAX ->
  is_Some (thread_with_core_id fs path i (Some set) id).
Proof.
  intros Hfin Hs Hi. unfold thread_with_core_id. destruct (Z.ltb_spec 1 (b_weight set)); [|by eexists].
  destruct (b_first_spec (b_clr set i)) as [[_ Hno]|(Hge & Hin & _)].
  - exfalso. by apply (second_member set i Hfin).
  - destruct (cpu_path_ok (b_first (b_clr set i)) "/topology/core_id") as [str ->]; [|simpl; lia|].
    + apply small_path. split; [done|]. rewrite bm_clr in Hin by done. apply andb_prop in Hin as [_ Hin]. by apply Hs.
    + cbn [mbind option_bind]. destruct (hwloc_parse_sysfs_unsigned fs str). by eexists.
Qed.

Definition core_there i st : Prop := forall set twc,
  map_in (cpu_path path i "/topology/thread_siblings") set ->
  let id := number_in i "/topology/core_id" in
  thread_with_core_id fs path i (Some set) id = Some twc ->
  if twc : bool then has st (is_obj HWLOC_OBJ_CORE 0 id (b_set b_alloc i))
  else b_first set = i -> has st (is_obj HWLOC_OBJ_CORE 0 id set).

Lemma look_core_ok st i : standing st -> 0 <= i < CPU_MAX ->
  exists saved freed st', look_core fs path i st = Some (saved, freed, st') /\ progress st st' /\
    (forall s, saved = Some s -> map_in (cpu_path path i "/topology/thread_siblings") s /\ bfin s = true /\ small s) /\
    forall f, strict f st -> f HWLOC_OBJ_CORE <= i ->
      freed = false /\ strict (upd_type f HWLOC_OBJ_CORE (i + 1)) st' /\ core_there i st'.
Proof.
  intros Hst Hi. unfold look_core, core_there, number_in, map_in.
  destruct (cpu_path_ok i "/topology/core_id" (small_path i Hi) ltac:(simpl; lia)) as [str Hstr].
  destruct (cpu_path_ok i "/topology/thread_siblings" (small_path i Hi) ltac:(simpl; lia)) as [str' Hstr'].
  rewrite Hstr, Hstr'. cbn [mbind option_bind]. pose proof (sysfs_unsigned_range str) as Hid.
  destruct (hwloc_parse_sysfs_unsigned fs str) as [err id]. cbn [snd] in *.
  destruct (parse_cpumap_ok str') as (r & Hr & Hset). rewrite Hr. cbn [mbind option_bind].
  destruct r as [set|].
  - destruct (Hset set eq_refl) as [Hfin Hsm].
    destruct (thread_with_core_id_ok i set id Hfin Hsm Hi) as [twc Htwc]. rewrite Htwc. cbn [mbind option_bind].
    assert (forall s, Some set = Some s -> (exists p, Some str' = Some p /\ hwloc_parse_cpumap fs p = Some (Some s)) /\ bfin s = true /\ small s) as Hsaved.
    { intros s [= <-]. split; [by exists str'|done]. }
    destruct ((b_first set =? i) || twc) eqn:Hor.
    + set (cset := if twc then b_set b_alloc i else set).
      assert (set_ok cset /\ bfirst_from cset 0 i) as [Hok Hfirst].
      { subst cset. destruct twc; [by apply one_ok|]. rewrite orb_false_r in Hor. apply Z.eqb_eq in Hor.
        by apply (parsed_set str' set i ltac:(lia)). }
      destruct (lead_step st HWLOC_OBJ_CORE id cset i Hst Hi Hok Hfirst ltac:(right; by left)) as (b & st1 & Hrun & Hpg & _ & Hstr1).
      rewrite Hrun. cbn [mbind option_bind]. do 3 eexists. split; [done|]. split; [done|]. split; [done|].
      intros f Hs Hle. assert (family fam cset) as Hfam.
      { subst cset. destruct twc; [right; exists i; split; [done|by apply only_beq]|].
        apply (strict_family f st str' i "/topology/thread_siblings"); [done|right; by left|done..]. }
      destruct (Hstr1 f Hs Hfam Hle) as (-> & Hs1 & Hhas). rewrite u32_small in Hhas by done.
      split; [by destruct twc|]. split; [done|]. intros set' twc' (p & [= <-] & Hp) Htwc'. rewrite Hr in Hp. simplify_eq.
      subst cset. by destruct twc.
    + apply orb_false_iff in Hor as [Hne ->]. apply Z.eqb_neq in Hne.
      exists (Some set), false, st. split; [done|]. split; [by apply progress_refl|]. split; [done|].
      intros f Hs Hle. split; [done|]. split; [by apply strict_upd|].
      intros set' twc' (p & [= <-] & Hp) Htwc'. rewrite Hr in Hp. by simplify_eq.
  - exists None, false, st. split; [done|]. split; [by apply progress_refl|]. split; [done|].
    intros f Hs Hle. split; [done|]. split; [by apply strict_upd|]. intros set' twc' (p & [= <-] & Hp). rewrite Hr in Hp. by simplify_eq.
Qed.

(** *** Books and threads *)

Definition book_there i st : Prop := forall set str,
  cpu_path path i "/topology/book_id" = Some str -> fst (hwloc_parse_sysfs_unsigned fs str) = 0 ->
  map_in (cpu_path path i "/topology/book_siblings") set -> b_first set = i ->
  has st (is_obj HWLOC_OBJ_GROUP 0 (number_in i "/topology/book_id") set).

Lemma look_book_ok st i : standing st -> 0 <= i < CPU_MAX ->
  exists st', look_book fs path i st = Some st' /\ progress st st' /\
    forall f, strict f st -> f HWLOC_OBJ_GROUP <= i -> strict (upd_type f HWLOC_OBJ_GROUP (i + 1)) st' /\ book_there i st'.
Proof.
  intros Hst Hi. unfold look_book, book_there, number_in, map_in.
  destruct (cpu_path_ok i "/topology/book_id" (small_path i Hi) ltac:(simpl; lia)) as [str Hstr].
  destruct (cpu_path_ok i "/topology/book_siblings" (small_path i Hi) ltac:(simpl; lia)) as [str' Hstr'].
  rewrite Hstr, Hstr'. cbn [mbind option_bind]. pose proof (sysfs_unsigned_range str) as Hid.
  destruct (hwloc_parse_sysfs_unsigned fs str) as [err id] eqn:Hnum. cbn [snd] in *.
  assert ((forall set p, Some str = Some p -> fst (hwloc_parse_sysfs_unsigned fs p) = 0 ->
      (exists p, Some str' = Some p /\ hwloc_parse_cpumap fs p = Some (Some set)) -> b_first set <> i) ->
    exists st', Some st = Some st' /\ progress st st' /\ forall f, strict f st -> f HWLOC_OBJ_GROUP <= i ->
      strict (upd_type f HWLOC_OBJ_GROUP (i + 1)) st' /\ forall set p, Some str = Some p ->
      fst (hwloc_parse_sysfs_unsigned fs p) = 0 -> (exists p, Some str' = Some p /\ hwloc_parse_cpumap fs p = Some (Some set)) ->
      b_first set = i -> has st' (is_obj HWLOC_OBJ_GROUP 0 id set)) as Hskip.
  { intros Hno. exists st. split; [done|]. split; [by apply progress_refl|]. intros f Hs Hf. split; [by apply strict_upd|].
    intros set p Hp H0' Hm Hfirst. by destruct (Hno set p Hp H0' Hm). }
  destruct (Z.eqb_spec err 0) as [->|Hne]; cbn [negb].
  2: { apply Hskip. intros set p [= <-]. rewrite Hnum. done. }
  destruct (parse_cpumap_ok str') as (r & Hr & Hset). rewrite Hr. cbn [mbind option_bind].
  destruct r as [set|]; [|apply Hskip; intros set p _ _ (p' & [= <-] & Hp); rewrite Hr in Hp; by simplify_eq].
  destruct (Z.eqb_spec (b_first set) i) as [Hf|Hne];
    [|apply Hskip; intros set' p _ _ (p' & [= <-] & Hp); rewrite Hr in Hp; by simplify_eq].
  destruct (parsed_set str' set i ltac:(lia) Hr Hf) as [Hok Hfirst].
  destruct (lead_step st HWLOC_OBJ_GROUP id set i Hst Hi Hok Hfirst ltac:(do 2 right; by left)) as (b & st1 & -> & Hpg & _ & Hstr1).
  cbn [mbind option_bind]. exists st1. split; [done|]. split; [done|]. intros f Hs Hle.
  assert (family fam set) as Hfam by (apply (strict_family f st str' i "/topology/book_siblings"); [done|do 2 right; by left|done..]).
  destruct (Hstr1 f Hs Hfam Hle) as (_ & Hs1 & Hhas). split; [done|]. rewrite u32_small in Hhas by done.
  intros set' p _ _ (p' & [= <-] & Hp) _. rewrite Hr in Hp. by simplify_eq.
Qed.

Lemma look_thread_ok st i : standing st -> 0 <= i < CPU_MAX ->
  exists st', look_thread i st = Some st' /\ progress st st' /\ has st' (is_kind HWLOC_OBJ_PU 0 (b_only i)) /\
    forall f, strict f st -> f HWLOC_OBJ_PU <= i ->
      strict (upd_type f HWLOC_OBJ_PU (i + 1)) st' /\ has st' (is_obj HWLOC_OBJ_PU 0 i (b_only i)).
Proof.
  intros Hst Hi. destruct (single_ok i Hi) as [Hok Hfirst]. unfold look_thread.
  destruct (lead_step st HWLOC_OBJ_PU i (b_only i) i Hst Hi Hok Hfirst ltac:(do 3 right; by left)) as (b & st1 & -> & Hpg & Hone & Hstr1).
  cbn [mbind option_bind]. exists st1. split; [done|]. split; [done|]. split; [by apply Hone|]. intros f Hs Hle.
  destruct (Hstr1 f Hs) as (_ & Hs1 & Hhas); [right; by exists i|done|]. rewrite u32_small in Hhas by (unfold CPU_MAX in *; lia). done.
Qed.

(** *** Caches *)

(** The attributes can be computed: no division by 0, no overflow. *)
Definition cache_fine i j : Prop := forall d, cache_depth_of fs path i j = Some (Some d) -> is_Some (cache_attr fs path i j d).

Definition cache_there i j st : Prop := forall d set,
  cache_depth_of fs path i j = Some (Some d) -> map_in (cache_path path i j "/shared_cpu_map") set ->
  1 <= b_weight set -> b_first set = i -> has st (is_kind HWLOC_OBJ_CACHE (u32 (d + 1)) set).

Lemma cache_depth_ok i j : 0 <= i < CPU_MAX -> 0 <= j < 10 -> is_Some (cache_depth_of fs path i j).
Proof.
  intros Hi Hj. unfold cache_depth_of.
  destruct (cache_path_ok i j "/level" (small_path i Hi) Hj ltac:(simpl; lia)) as [p ->]. cbn [mbind option_bind].
  destruct (first_line fs 20 p); [|by eexists].
  destruct (cache_path_ok i j "/type" (small_path i Hi) Hj ltac:(simpl; lia)) as [p' ->]. cbn [mbind option_bind].
  destruct (first_line fs 20 p'); [|by eexists]. case_match; by eexists.
Qed.

Lemma cache_attr_depth i j d a : cache_attr fs path i j d = Some a -> attr_depth HWLOC_OBJ_CACHE a = u32 (d + 1).
Proof.
  unfold cache_attr. repeat (match goal with |- context [mbind _ ?m] => destruct m end; cbn [mbind option_bind]; [|done]).
  cbv zeta. destruct (_ <? _); [|done]. destruct (_ || _); [by intros [= <-]|]. destruct (_ && _); [|done]. by intros [= <-].
Qed.

Lemma look_cache_ok st n saved freed i j : standing st -> 0 <= i < CPU_MAX -> 0 <= j < 10 -> cache_fine i j ->
  (forall s, saved = Some s -> map_in (cpu_path path i "/topology/thread_siblings") s /\ bfin s = true /\ small s) ->
  (freed = false \/ forall set, map_in (cache_path path i j "/shared_cpu_map") set -> 1 <= b_weight set) ->
  exists st' n', look_cache fs path saved freed i j (st, n) = Some (st', n') /\ progress st st' /\
    forall f, strict f st -> strict f st' /\ cache_there i j st'.
Proof.
  intros Hst Hi Hj Hfine Hsaved Hmode. unfold look_cache, cache_there.
  destruct (cache_depth_ok i j Hi Hj) as [depth Hdepth]. rewrite Hdepth. cbn [mbind option_bind].
  destruct depth as [depth|]; [|exists st, n; split; [done|]; split; [by apply progress_refl|]; by intros f Hs].
  destruct (cache_path_ok i j "/shared_cpu_map" (small_path i Hi) Hj ltac:(simpl; lia)) as [str Hstr].
  unfold map_in in *. rewrite Hstr in *. cbn [mbind option_bind].
  destruct (parse_cpumap_ok str) as (r & Hr & Hset). rewrite Hr. cbn [mbind option_bind].
  destruct r as [set|].
  2: { exists st, n. split; [done|]. split; [by apply progress_refl|]. intros f Hs. split; [done|].
       intros d s _ (p & [= <-] & Hp). rewrite Hr in Hp. by simplify_eq. }
  destruct (Hset set eq_refl) as [Hfin Hsm].
  assert (exists s, (if b_weight set <? 1 then
      match saved with Some s => require! negb freed in Some s | None => Some (b_only i) end else Some set) = Some s /\
    bfin s = true /\ small s /\ (1 <= b_weight set -> s = set) /\ ((forall s, file_set s -> fam s) -> family fam s)) as (s & Hs & Hsf & Hss & Hse & Hfam).
  { destruct (Z.ltb_spec (b_weight set) 1) as [Hw|Hw].
    - destruct saved as [s|].
      + destruct Hmode as [->|Hm]; [|specialize (Hm set (ex_intro _ str (conj eq_refl Hr))); lia]. exists s.
        destruct (Hsaved s eq_refl) as (Hm & Hf' & Hs'). split; [done|]. split; [done|]. split; [done|]. split; [lia|].
        intros Hall. apply (file_family i "/topology/thread_siblings"); [done|right; by left|done|done].
      + exists (b_only i). destruct (single_ok i Hi) as [[? ? ?] _]. split; [done|]. split; [done|]. split; [done|]. split; [lia|].
        intros _. right. by exists i.
    - exists set. split; [done|]. split; [done|]. split; [done|]. split; [done|]. intros Hall. left. apply Hall. exists i. split; [done|].
      right. exists j. split; [done|]. by exists str. }
  rewrite Hs. cbn [mbind option_bind].
  destruct (Z.eqb_spec (b_first s) i) as [Hf|Hne].
  2: { exists st, n. split; [done|]. split; [by apply progress_refl|]. intros f Hs'. split; [done|].
       intros d s' _ (p & [= <-] & Hp) Hw Hf. rewrite Hr in Hp. simplify_eq. specialize (Hse Hw). subst. done. }
  destruct (Hfine depth Hdepth) as [a Ha]. rewrite Ha. cbn [mbind option_bind].
  apply (first_is s i ltac:(lia)) in Hf as Hfirst. set (obj := with_attr _ _).
  assert (insertable st obj) as Hin.
  { apply alloc_insertable; [done|done|]. split; [done|done|]. apply (first_nonempty s i); [lia|done]. }
  assert (HWLOC_OBJ_CACHE ∉ leading) as Hnl by (unfold leading; set_solver).
  assert (forall f, exists b st', insert_object st obj = Some (b, st') /\ progress st st' /\
    (strict f st -> strict f st' /\ has st' (is_kind HWLOC_OBJ_CACHE (u32 (depth + 1)) s))) as Hstep.
  { intros f. destruct (insert_step fam f st obj i Hlaminar Hst Hin Hfirst) as (b & st' & Hrun & Hpg & _ & Htidy).
    exists b, st'. split; [done|]. split; [done|]. intros [Hall Ht]. destruct (Htidy Ht (Hfam Hall)) as (Hhas & Ht' & _).
    split; [split; [done|by apply Ht']|]. rewrite <- (cache_attr_depth i j depth a Ha). exact Hhas. }
  destruct (Hstep (fun _ => 0)) as (b & st' & Hrun & Hpg & _). rewrite Hrun. cbn [mbind option_bind].
  eexists st', _. split; [done|]. split; [done|]. intros f Hs'. destruct (Hstep f) as (b2 & st2 & Hrun2 & _ & Hstrict).
  rewrite Hrun in Hrun2. simplify_eq. destruct (Hstrict Hs') as [Hs2 Hhas]. split; [done|].
  intros d s' [= <-] (p & [= <-] & Hp) Hw _. rewrite Hr in Hp. injection Hp as <-. by rewrite <- Hse.
Qed.

End Steps.
