(* ===== verification/LinuxLoop.v ===== *)
(** * LinuxLoop: all the CPUs of the directory

    The loop on the entries of the directory and the loop on the CPUs that have topology
    files, from their steps. *)

From Stdlib Require Import Ascii String Sorted.
From S2P Require Import Prelude Misc Bitmap CString CStringOk Cpuset Obj ObjCmp Insert InsertOk LevelsOk Sets Shape Synthetic Scan DiscoverOk DiscoverLoad Distances LinuxFiles LinuxCpus LinuxCpusOk LinuxSysfs.

Section Loops.
Context {B : Type} `{Cpuset B} `{!CpumapOps B} `{!Cpumap B}.
Implicit Types o obj : hwloc_obj B.
Implicit Types st : linux_state (B := B).
Implicit Types set : B.
Context (fs : file_system) (path : chars) (Lprocs : list hwloc_linux_cpuinfo_proc) (machine : chars).
Context (Hfiles : files_fit fs) (Hpath : (length path <= 40)%nat).
Context (fam : B -> Prop) (Hlaminar : forall s1 s2, fam s1 -> fam s2 -> laminar s1 s2).

Notation strict := (strict fs path fam).

(** ** One CPU *)

(** What its files describe is there. *)
Record cpu_there (i : Z) st : Prop := {
  ct_socket : socket_there fs path i st;
  ct_core : core_there fs path i st;
  ct_book : book_there fs path i st;
  ct_pu : has st (is_obj HWLOC_OBJ_PU 0 i (b_only i));
  ct_cache : forall j, 0 <= j < 10 -> cache_there fs path i j st;
}.

Lemma socket_progress i st st' : progress st st' -> socket_there fs path i st -> socket_there fs path i st'.
Proof. intros Hpg Hs set Hm Hf. eapply has_is_obj; [exact Hpg|]. by apply Hs. Qed.

Lemma core_progress i st st' : progress st st' -> core_there fs path i st -> core_there fs path i st'.
Proof.
  intros Hpg Hs set twc Hm id Ht. specialize (Hs set twc Hm Ht). destruct twc; [by eapply has_is_obj|].
  intros Hf. eapply has_is_obj; [exact Hpg|]. by apply Hs.
Qed.

Lemma book_progress i st st' : progress st st' -> book_there fs path i st -> book_there fs path i st'.
Proof. intros Hpg Hs set str Hstr Hn Hm Hf. eapply has_is_obj; [exact Hpg|]. by apply (Hs set str). Qed.

Lemma cache_progress i j st st' : progress st st' -> cache_there fs path i j st -> cache_there fs path i j st'.
Proof.
  intros Hpg Hs d set Hd Hm Hw Hf. eapply has_progress; [|exact Hpg|by apply (Hs d set)]. intros o o'. apply is_kind_place.
Qed.

Lemma cpu_progress i st st' : progress st st' -> cpu_there i st -> cpu_there i st'.
Proof.
  intros Hpg [Hs Hc Hb Hp Hca]. split; [by eapply socket_progress|by eapply core_progress|by eapply book_progress|by eapply has_is_obj|].
  intros j Hj. eapply cache_progress; [exact Hpg|by apply Hca].
Qed.

Definition caches_fine i : Prop := forall j, 0 <= j < 10 -> cache_fine fs path i j.

(** Nothing is written to a socket, no set is used, once the object was dropped. *)
Definition no_late_use i : Prop :=
  cpu_models Lprocs i ++ cpu_type machine = [] /\
  forall j set, 0 <= j < 10 -> map_in fs (cache_path path i j "/shared_cpu_map") set -> 1 <= b_weight set.

Lemma look_caches_ok st n saved freed i : standing st -> 0 <= i < CPU_MAX -> caches_fine i ->
  (forall s, saved = Some s -> map_in fs (cpu_path path i "/topology/thread_siblings") s /\ bfin s = true /\ small s) ->
  (freed = false \/ no_late_use i) ->
  exists st' n', for_up 0 10 (look_cache fs path saved freed i) (st, n) = Some (st', n') /\ progress st st' /\
    forall f, strict f st -> strict f st' /\ forall j, 0 <= j < 10 -> cache_there fs path i j st'.
Proof.
  intros Hst Hi Hfine Hsaved Hmode.
  destruct (for_up_inv (fun k '(st1, _) => progress st st1 /\
    forall f, strict f st -> strict f st1 /\ forall j, 0 <= j < k -> cache_there fs path i j st1) 0 10
    (look_cache fs path saved freed i) (st, n)) as ([st' n'] & -> & Hpg & Hs).
  - split; [by apply progress_refl|]. intros f Hs. split; [done|]. intros j Hj. lia.
  - intros j [st1 n1] Hj [Hpg Hs].
    destruct (look_cache_ok fs path Hfiles Hpath fam Hlaminar st1 n1 saved freed i j) as (st2 & n2 & Hrun & Hpg2 & Hs2);
      [apply Hpg|done|lia|apply Hfine; lia|done| |].
    { destruct Hmode as [->|[_ Hm]]; [by left|right]. intros set. apply Hm. lia. }
    exists (st2, n2). split; [done|]. split; [by eapply progress_trans|]. intros f Hf. destruct (Hs f Hf) as [Hf1 Hc1].
    destruct (Hs2 f Hf1) as [Hf2 Hc2]. split; [done|]. intros k Hk. destruct (Z.eq_dec k j) as [->|]; [done|].
    eapply cache_progress; [exact Hpg2|]. apply Hc1. lia.
  - exists st', n'. split; [done|]. split; [done|]. exact Hs.
Qed.

(** The types whose objects start at a CPU were only met before it. *)
Definition met (i : Z) : hwloc_obj_type_t -> Z := fun _ => i.

Lemma upd_other f t n t' : t' <> t -> upd_type f t n t' = f t'.
Proof. intros Hne. unfold upd_type. by rewrite bool_decide_false. Qed.

Lemma look_cpu_ok st n i : standing st -> 0 <= i < CPU_MAX -> caches_fine i -> no_late_use i \/ strict (met i) st ->
  exists st' n', look_cpu fs path Lprocs machine i (st, n) = Some (st', n') /\ progress st st' /\
    has st' (is_kind HWLOC_OBJ_PU 0 (b_only i)) /\ (strict (met i) st -> strict (met (i + 1)) st' /\ cpu_there i st').
Proof.
  intros Hst Hi Hfine Hmode. unfold look_cpu.
  set (f1 := upd_type (met i) HWLOC_OBJ_SOCKET (i + 1)). set (f2 := upd_type f1 HWLOC_OBJ_CORE (i + 1)).
  set (f3 := upd_type f2 HWLOC_OBJ_GROUP (i + 1)). set (f4 := upd_type f3 HWLOC_OBJ_PU (i + 1)).
  destruct (look_socket_ok fs path Lprocs machine Hfiles Hpath fam Hlaminar st i Hst Hi) as (st1 & -> & Hpg1 & Hs1).
  { destruct Hmode as [[Hno _]|Hs]; [by left|right]. exists (met i). split; [done|unfold met; lia]. }
  cbn [mbind option_bind].
  destruct (look_core_ok fs path Hfiles Hpath fam Hlaminar st1 i (pg_standing _ _ Hpg1) Hi) as (saved & freed & st2 & -> & Hpg2 & Hsaved & Hs2).
  cbn [mbind option_bind].
  destruct (look_book_ok fs path Hfiles Hpath fam Hlaminar st2 i (pg_standing _ _ Hpg2) Hi) as (st3 & -> & Hpg3 & Hs3). cbn [mbind option_bind].
  destruct (look_thread_ok fs path Hfiles Hpath fam Hlaminar st3 i (pg_standing _ _ Hpg3) Hi) as (st4 & -> & Hpg4 & Hpu & Hs4). cbn [mbind option_bind].
  assert (strict (met i) st -> strict f1 st1 /\ socket_there fs path i st1) as Hstep1
    by (intros Hs; apply (Hs1 (met i)); [done|unfold met; lia]).
  assert (strict (met i) st -> freed = false /\ strict f2 st2 /\ core_there fs path i st2) as Hstep2.
  { intros [Hs _]%Hstep1. apply (Hs2 f1); [done|]. unfold f1. rewrite upd_other by done. unfold met. lia. }
  destruct (look_caches_ok st4 n saved freed i (pg_standing _ _ Hpg4) Hi Hfine Hsaved) as (st5 & n5 & Hrun & Hpg5 & Hs5).
  { destruct Hmode as [Hno|Hs]; [by right|left]. by destruct (Hstep2 Hs). }
  rewrite Hrun. exists st5, n5. split; [done|].
  assert (progress st1 st5) as Hp1 by (do 3 (eapply progress_trans; [eassumption|]); done).
  assert (progress st2 st5) as Hp2 by (do 2 (eapply progress_trans; [eassumption|]); done).
  assert (progress st3 st5) as Hp3 by (eapply progress_trans; [eassumption|]; done).
  split; [by eapply progress_trans|]. split.
  { eapply has_progress; [|exact Hpg5|exact Hpu]. intros o o'. apply is_kind_place. }
  intros Hs. destruct (Hstep1 Hs) as [_ Ht1]. destruct (Hstep2 Hs) as (_ & Hf2 & Ht2).
  destruct (Hs3 f2 Hf2) as [Hf3 Ht3]; [unfold f2, f1; rewrite !upd_other by done; unfold met; lia|].
  destruct (Hs4 f3 Hf3) as [Hf4 Ht4]; [unfold f3, f2, f1; rewrite !upd_other by done; unfold met; lia|].
  destruct (Hs5 f4 Hf4) as [Hf5 Ht5]. split.
  - apply (strict_weaken fs path Hpath fam f4); [|done]. intros t _. unfold f4, f3, f2, f1, upd_type, met. repeat case_bool_decide; lia.
  - split; [by apply (socket_progress i st1)|by apply (core_progress i st2)|by apply (book_progress i st3)|by apply (has_is_obj st4)|done].
Qed.

(** ** All of them *)

Lemma each_cpu_ok l st n : standing st -> Forall (fun i => 0 <= i < CPU_MAX /\ caches_fine i) l -> StronglySorted Z.lt l ->
  Forall no_late_use l \/ (exists k, strict (met k) st /\ Forall (fun i => k <= i) l) ->
  exists st' n', each_cpu fs path Lprocs machine l (st, n) = Some (st', n') /\ progress st st' /\
    Forall (fun i => has st' (is_kind HWLOC_OBJ_PU 0 (b_only i))) l /\
    ((exists k, strict (met k) st /\ Forall (fun i => k <= i) l) -> Forall (fun i => cpu_there i st') l).
Proof.
  revert st n. induction l as [|i l IH]; intros st n Hst Hl Hsort Hmode.
  { exists st, n. split; [done|]. split; [by apply progress_refl|]. split; [constructor|]. intros _. constructor. }
  apply Forall_cons in Hl as [[Hi Hfine] Hl]. apply StronglySorted_inv in Hsort as [Hsort Hlt].
  assert ((exists k, strict (met k) st /\ Forall (fun i => k <= i) (i :: l)) -> strict (met i) st) as Hcur.
  { intros (k & Hk & [Hki _]%Forall_cons). apply (strict_weaken fs path Hpath fam (met k)); [|done]. done. }
  destruct (look_cpu_ok st n i Hst Hi Hfine) as (st1 & n1 & Hrun & Hpg & Hpu & Hs).
  { destruct Hmode as [[Hno _]%Forall_cons|Hk]; [by left|right; by apply Hcur]. }
  cbn [each_cpu]. rewrite Hrun. cbn [mbind option_bind].
  assert ((exists k, strict (met k) st /\ Forall (fun i => k <= i) (i :: l)) ->
    cpu_there i st1 /\ exists k, strict (met k) st1 /\ Forall (fun i => k <= i) l) as Hnext.
  { intros Hk. destruct (Hs (Hcur Hk)) as [Hs1 Ht]. split; [done|]. exists (i + 1). split; [done|].
    eapply Forall_impl; [exact Hlt|]. intros x Hx. cbn in Hx. lia. }
  destruct (IH st1 n1) as (st2 & n2 & -> & Hpg2 & Hpus & Hthere); [apply Hpg|done|done| |].
  { destruct Hmode as [[_ Hno]%Forall_cons|Hk]; [by left|right]. by destruct (Hnext Hk). }
  exists st2, n2. split; [done|]. split; [by eapply progress_trans|]. split.
  - constructor; [|done]. eapply has_progress; [|exact Hpg2|exact Hpu]. intros o o'. apply is_kind_place.
  - intros Hk. destruct (Hnext Hk) as [Ht Hk']. constructor; [by eapply cpu_progress|by apply Hthere].
Qed.


(** ** The directory *)

(** The number in an entry [cpu<number>]. *)
Definition entry_cpu (name : chars) : option Z := (fun number => fst (strtoul number 0)) <$> starts_with "cpu" name.

Definition entries_fit (entries : list chars) : Prop :=
  Forall (fun name => forall cpu, entry_cpu name = Some cpu -> u32 cpu < CPU_MAX) entries.

Definition offline (cpu : Z) : Prop :=
  exists p line, cpu_path path cpu "/online" = Some p /\ first_line fs 2 p = Some line /\ atoi line = 0.

Definition with_topology (cpu : Z) : Prop :=
  exists p, cpu_path path cpu "/topology" = Some p /\ hwloc_access_missing fs p = false.

(** [i] is the CPU of an entry with the property [P]. *)
Definition entry_of (P : Z -> Prop) (entries : list chars) (i : Z) : Prop :=
  exists name cpu, name ∈ entries /\ entry_cpu name = Some cpu /\ u32 cpu = i /\ P cpu.

Lemma entry_of_cons P name entries i : entry_of P (name :: entries) i <-> entry_of P [name] i \/ entry_of P entries i.
Proof. unfold entry_of. setoid_rewrite elem_of_cons. setoid_rewrite elem_of_nil. naive_solver. Qed.

Lemma entry_of_one P name cpu i : entry_cpu name = Some cpu -> entry_of P [name] i <-> u32 cpu = i /\ P cpu.
Proof.
  intros Hn. unfold entry_of. setoid_rewrite list_elem_of_singleton. split; [|naive_solver].
  intros (n & c & -> & Hc & Hi & HP). rewrite Hn in Hc. simplify_eq. done.
Qed.

(** What the entries change: the sets of the machine and the CPUs to look at. *)
Record listed (entries : list chars) st st' (cpus cpus' : B) : Prop := {
  li_standing : standing st';
  li_objs : x_objs st' = x_objs st;
  li_distances : x_distances st' = x_distances st;
  li_cpus : bfin cpus' = bfin cpus;
  li_topology : forall i, 0 <= i -> bm cpus' i = true <-> bm cpus i = true \/ entry_of with_topology entries i;
  li_allowed : allowed_cpuset (sets (x_top st')) = allowed_cpuset (sets (x_top st));
  li_complete : exists c c', complete_cpuset (sets (x_top st)) = Some c /\ complete_cpuset (sets (x_top st')) = Some c' /\
    forall i, 0 <= i -> bm c' i = true <-> bm c i = true \/ entry_of (fun _ => True) entries i;
  li_online : exists c c', online_cpuset (sets (x_top st)) = Some c /\ online_cpuset (sets (x_top st')) = Some c' /\
    forall i, 0 <= i -> bm c' i = true <-> bm c i = true /\ ~ entry_of offline entries i;
}.

Lemma no_entry P i : ~ entry_of P [] i.
Proof. intros (n & c & Hn & _). by apply not_elem_of_nil in Hn. Qed.

Lemma listed_nil st cpus : standing st -> listed [] st st cpus cpus.
Proof.
  intros Hst. pose proof (sd_cpus _ Hst) as (_ & [cc Hcc] & [co Hco] & _). pose proof no_entry.
  split; try done; [naive_solver|exists cc, cc|exists co, co]; naive_solver.
Qed.

Lemma listed_cons name entries st st1 st2 cpus cpus1 cpus2 :
  listed [name] st st1 cpus cpus1 -> listed entries st1 st2 cpus1 cpus2 -> listed (name :: entries) st st2 cpus cpus2.
Proof.
  intros [Hs1 Ho1 Hd1 Hf1 Ht1 Ha1 (c & c1 & Hc & Hc1 & Hcc) (n & n1 & Hn & Hn1 & Hnn)]
    [Hs2 Ho2 Hd2 Hf2 Ht2 Ha2 (c1' & c2 & Hc1' & Hc2 & Hcc') (n1' & n2 & Hn1' & Hn2 & Hnn')]. simplify_eq.
  split; [done|congruence|congruence|congruence| |congruence| |].
  - intros i Hi. rewrite entry_of_cons, Ht2, Ht1 by done. tauto.
  - exists c, c2. split; [done|]. split; [done|]. intros i Hi. rewrite entry_of_cons, Hcc', Hcc by done. tauto.
  - exists n, n2. split; [done|]. split; [done|]. intros i Hi. rewrite entry_of_cons, Hnn', Hnn by done. tauto.
Qed.

Lemma top_sets_standing f st : standing st -> (forall o, rank_eq o (f o)) -> o_addr (f (x_top st)) = o_addr (x_top st) ->
  complete_nodeset (sets (f (x_top st))) = complete_nodeset (sets (x_top st)) -> four_cpusets (f (x_top st)) -> standing (on_top f st).
Proof. intros Hst Hr Ha Hc Hf. apply on_top_standing; [done|apply Hr|done|done|done]. Qed.

Lemma look_online_ok name cpu p st co : standing st -> entry_cpu name = Some cpu -> cpu_path path cpu "/online" = Some p ->
  u32 cpu < CPU_MAX -> online_cpuset (sets (x_top st)) = Some co ->
  exists st' con, look_online fs cpu p st = Some st' /\ standing st' /\ x_objs st' = x_objs st /\ x_distances st' = x_distances st /\
    allowed_cpuset (sets (x_top st')) = allowed_cpuset (sets (x_top st)) /\
    complete_cpuset (sets (x_top st')) = complete_cpuset (sets (x_top st)) /\
    online_cpuset (sets (x_top st')) = Some con /\
    forall i, 0 <= i -> bm con i = true <-> bm co i = true /\ ~ entry_of offline [name] i.
Proof.
  intros Hst Hcpu Hp Hmax Hco. unfold look_online. pose proof (u32_range cpu) as Hu.
  assert (~ offline cpu -> forall i, 0 <= i -> bm co i = true <-> bm co i = true /\ ~ entry_of offline [name] i) as Hskip.
  { intros Hno i Hi. rewrite (entry_of_one offline name cpu i Hcpu). tauto. }
  destruct (first_line fs 2 p) as [line|] eqn:Hl; [destruct (Z.eqb_spec (atoi line) 0) as [Hz|Hz]|].
  2, 3: exists st, co; split_and!; [done..|apply Hskip; intros (p' & l' & Hp' & Hl' & ?); congruence].
  unfold x_top in Hco. rewrite Hco. cbn [mbind option_bind]. eexists _, (b_clr co (u32 cpu)). split; [done|].
  destruct (on_top_parts (fun o => with_online_cpuset o (Some (b_clr co (u32 cpu)))) st) as (Ht & -> & _ & ->).
  rewrite Ht. split_and!; try done.
  - apply top_sets_standing; [done|by intros []|done|done|]. pose proof (sd_cpus _ Hst) as (? & ? & ? & ?). by split_and!.
  - intros i Hi. rewrite bm_clr by lia. rewrite (entry_of_one offline name cpu i Hcpu).
    destruct (Z.eqb_spec i (u32 cpu)) as [->|Hne]; cbn [negb andb].
    + split; [done|]. intros [_ Hno]. destruct Hno. split; [done|]. by exists p, line.
    + split; [|tauto]. intros Hb. split; [done|]. intros [? _]. lia.
Qed.

Lemma other_entry name st cpus : standing st -> starts_with "cpu" name = None -> listed [name] st st cpus cpus.
Proof.
  intros Hst Hname. destruct (listed_nil st cpus Hst) as [? ? ? ? Ht Ha Hc Ho].
  assert (forall P i, entry_of P [name] i <-> entry_of P [] i) as Heq.
  { intros P i. rewrite entry_of_cons. split; [|tauto]. intros [(n & c & Hn & He & _)|]; [|done].
    apply list_elem_of_singleton in Hn as ->. unfold entry_cpu in He. by rewrite Hname in He. }
  split; try done; by setoid_rewrite Heq.
Qed.

(** An entry. *)
Lemma list_cpu_ok name st cpus : standing st -> entries_fit [name] ->
  exists st' cpus', list_cpu fs path name (st, cpus) = Some (st', cpus') /\ listed [name] st st' cpus cpus'.
Proof.
  intros Hst Hfit. apply Forall_cons in Hfit as [Hfit _]. unfold list_cpu, entry_cpu in Hfit |- *.
  destruct (starts_with "cpu" name) as [number|] eqn:Hname; [|exists st, cpus; split; [done|by apply other_entry]].
  set (cpu := fst (strtoul number 0)) in *. specialize (Hfit cpu eq_refl).
  assert (entry_cpu name = Some cpu) as Hcpu by (unfold entry_cpu; by rewrite Hname).
  assert (0 <= cpu < 2 ^ 64) as Hr by (apply strtoul_range; lia). pose proof (u32_range cpu) as Hu.
  pose proof (sd_cpus _ Hst) as (Hfull & [cc Hcc] & [co Hco] & Hal).
  change (t_obj (x_root st)) with (x_top st). rewrite Hcc. cbn [mbind option_bind].
  set (st1 := on_top (fun o => with_complete_cpuset o (Some (b_set cc (u32 cpu)))) st).
  destruct (on_top_parts (fun o => with_complete_cpuset o (Some (b_set cc (u32 cpu)))) st) as (Htop1 & Hobjs1 & Hnext1 & Hdist1).
  fold st1 in Htop1, Hobjs1, Hnext1, Hdist1.
  assert (standing st1) as Hst1 by (apply top_sets_standing; [done|by intros []|done|done|by split_and!]).
  destruct (cpu_path_ok path Hpath cpu "/online" Hr ltac:(simpl; lia)) as [p Hp]. rewrite Hp. cbn [mbind option_bind].
  destruct (look_online_ok name cpu p st1 co) as (st2 & con & Hrun & Hst2 & Ho2 & Hd2 & Ha2 & Hc2 & Hon2 & Hon); [done..|by rewrite Htop1|].
  rewrite Hrun. cbn [mbind option_bind].
  destruct (cpu_path_ok path Hpath cpu "/topology" Hr ltac:(simpl; lia)) as [q Hq]. rewrite Hq. cbn [mbind option_bind].
  set (cpus' := if hwloc_access_missing fs q then cpus else b_set cpus (u32 cpu)).
  exists st2, cpus'. split; [subst cpus'; by destruct (hwloc_access_missing fs q)|].
  split; [done|congruence|congruence| | |by rewrite Ha2, Htop1| |by exists co, con].
  - subst cpus'. destruct (hwloc_access_missing fs q); [done|]. by rewrite bfin_set by lia.
  - intros i Hi. rewrite (entry_of_one with_topology name cpu i Hcpu). unfold with_topology. subst cpus'.
    destruct (hwloc_access_missing fs q) eqn:Hm.
    + split; [by left|]. intros [?|[_ (q' & Hq' & Hm')]]; [done|]. congruence.
    + rewrite bm_set by lia. rewrite orb_true_iff, Z.eqb_eq. split; [intros [->|?]; [right; split; [done|by exists q]|by left]|].
      intros [?|[<- _]]; [by right|by left].
  - exists cc, (b_set cc (u32 cpu)). split; [done|]. split; [by rewrite Hc2, Htop1|]. intros i Hi. rewrite bm_set by lia.
    rewrite (entry_of_one (fun _ => True) name cpu i Hcpu), orb_true_iff, Z.eqb_eq. naive_solver.
Qed.

Lemma list_cpus_ok entries st cpus : standing st -> entries_fit entries ->
  exists st' cpus', each_entry (list_cpu fs path) entries (st, cpus) = Some (st', cpus') /\ listed entries st st' cpus cpus'.
Proof.
  revert st cpus. induction entries as [|name entries IH]; intros st cpus Hst Hfit.
  - exists st, cpus. split; [done|]. by apply listed_nil.
  - apply Forall_cons in Hfit as [Hn Hfit]. destruct (list_cpu_ok name st cpus Hst) as (st1 & cpus1 & Hrun & Hl1); [by constructor|].
    cbn [each_entry]. rewrite Hrun. cbn [mbind option_bind].
    destruct (IH st1 cpus1 (li_standing _ _ _ _ _ Hl1) Hfit) as (st2 & cpus2 & -> & Hl2). exists st2, cpus2. split; [done|].
    by eapply listed_cons.
Qed.

End Loops.
