(* ===== verification/LinuxText.v ===== *)
(** * LinuxText: what the kernel writes, read by the Linux backend

    The masks of the [cpumap] files, the lists of the cpuset files, and the processors of
    [/proc/cpuinfo]: what is written is read back, and processors get the same logical
    number exactly when the file gives them the same numbers. *)
From Stdlib Require Import Ascii String Sorted.
From S2P Require Import Prelude Misc Bitmap CString BitmapString CStringOk MaskTextOk Cpuset Obj Synthetic Scan LinuxFiles LinuxCpus LinuxNodes.

(** ** Masks *)

(** The words of a mask, the highest one first in [width] digits, the others in 8. *)
Fixpoint mask_words (width : nat) (l : list Z) : chars :=
  match l with
  | [] => []
  | [m] => fmt_0lx width m
  | m :: l => fmt_0lx width m ++ ","%char :: mask_words 8 l
  end.

Definition cpumap_text (width : nat) (l : list Z) : chars := mask_words width l ++ ["010"%char].

(** The words fit their digits. *)
Definition words_fit (width : nat) (l : list Z) : Prop :=
  match l with [] => True | m :: l => hex_value width m /\ Forall (hex_value 8) l end.

Lemma item_not_x rest : item_end rest -> match rest with c :: _ => is_x c = false | [] => True end.
Proof. destruct rest as [|c rest]; [done|]. unfold item_end, is_x. intros Hc. destruct (Ascii.eqb_spec c "x"), (Ascii.eqb_spec c "X"); by subst. Qed.

Lemma hex_not_x c : is_Some (is_digit 16 c) -> is_x c = false.
Proof. intros Hc. unfold is_x. destruct (Ascii.eqb_spec c "x"), (Ascii.eqb_spec c "X"); try done; subst; by destruct Hc. Qed.

Lemma scan_lx_word width n rest : hex_value width n -> item_end rest -> scan_lx (fmt_0lx width n ++ rest) = Some (n, rest).
Proof.
  intros Hv Hrest. pose proof (hex_small _ _ Hv) as Hs. destruct Hv as [Hw Hn].
  destruct (fmt_0lx_text width n ltac:(lia) ltac:(lia) ltac:(lia)) as (H1 & H2 & H3). unfold scan_lx.
  destruct (fmt_0lx width n) as [|c ds] eqn:Hds; [simpl in H3; lia|]. pose proof H1 as H1'. apply Forall_cons in H1' as [Hc Hds'].
  cbn [app]. rewrite (digit_not_space 16) by done.
  assert (match ds ++ rest with d :: _ => is_x d = false | [] => True end) as Hx.
  { destruct ds as [|d ds]; [by apply item_not_x|]. apply Forall_cons in Hds' as [Hd _]. by apply hex_not_x. }
  assert (number_base 16 (c :: ds ++ rest) = (16, c :: ds ++ rest)) as Hb.
  { destruct (ascii_dec c "0") as [->|Hc0]; [|by rewrite number_base_other].
    apply number_base_no_x; destruct (ds ++ rest) as [|d r]; try done; intros [= ->]; done. }
  rewrite (strtoul_digit 16 c (ds ++ rest) 16 n (c :: ds ++ rest) rest); [|done|done| | |lia].
  - cbn [length]. rewrite length_app. destruct (Nat.eqb_spec (length rest) (S (length ds + length rest))); [lia|]. cbn [orb].
    assert (lone_prefix (c :: ds ++ rest) rest = false) as ->; [|done]. unfold lone_prefix, after_sign.
    rewrite strip_sign by (apply (digit_not 16); done). destruct c as [[] [] [] [] [] [] [] []]; try done.
    destruct (ds ++ rest) as [|d r]; [done|]. by rewrite Hx.
  - by apply (starts_digits 16 (c :: ds)).
  - apply (read_number 16 n (c :: ds)); [done|by apply item_end_digit].
Qed.

(** The masks that are kept, the lowest one first. *)
Definition keep_mask (maps : list Z) (m : Z) : list Z := if (m =? 0) && (length maps =? 0)%nat then maps else m :: maps.

Lemma read_maps_words fuel width l acc : l <> [] -> words_fit width l -> (length (cpumap_text width l) <= fuel)%nat ->
  read_maps fuel (cpumap_text width l) acc = Some (foldl keep_mask acc l).
Proof.
  unfold cpumap_text. revert fuel width acc. induction l as [|m l IH]; intros fuel width acc Hne Hfit Hlen; [done|]. destruct Hfit as [Hm Hl].
  assert (1 <= width)%nat as Hw by apply Hm.
  assert (length (fmt_0lx width m) = width) as Hlw.
  { pose proof (hex_small _ _ Hm). destruct Hm as [? ?]. by apply fmt_0lx_text; lia. }
  destruct l as [|m' l].
  - cbn [mask_words] in *. rewrite length_app in Hlen. destruct fuel as [|fuel]; [simpl in Hlen; lia|]. cbn [read_maps].
    rewrite scan_lx_word by done. cbn [foldl]. fold (keep_mask acc m). by destruct fuel.
  - change (mask_words width (m :: m' :: l)) with (fmt_0lx width m ++ ","%char :: mask_words 8 (m' :: l)) in *.
    rewrite <- app_assoc in *. cbn [app] in *. rewrite length_app in Hlen. cbn [length] in Hlen.
    destruct fuel as [|fuel]; [lia|]. cbn [read_maps]. rewrite scan_lx_word by done. fold (keep_mask acc m).
    apply Forall_cons in Hl as [Hm' Hl]. apply (IH fuel 8%nat (keep_mask acc m)); [done|by split|lia].
Qed.

Lemma in_masks_nil i : in_masks [] i = false.
Proof. done. Qed.

Lemma in_masks_zeros n i : in_masks (replicate n 0) i = false.
Proof.
  unfold in_masks. destruct (replicate n 0 !! Z.to_nat (i / 32)) as [m|] eqn:Hm; [|done].
  apply lookup_replicate in Hm as [-> _]. apply Z.bits_0.
Qed.

Lemma in_masks_ext a b i : (forall k, default 0 (a !! k) = default 0 (b !! k)) -> in_masks a i = in_masks b i.
Proof.
  intros Hk. unfold in_masks. specialize (Hk (Z.to_nat (i / 32))).
  destruct (a !! _), (b !! _); simpl in Hk; subst; try done; by rewrite Z.bits_0.
Qed.

Lemma keep_masks l acc : exists n, rev l ++ acc = foldl keep_mask acc l ++ replicate n 0.
Proof.
  revert acc. induction l as [|m l IH]; intros acc; [exists 0%nat; by rewrite app_nil_r|]. cbn [foldl rev]. rewrite <- app_assoc. cbn [app].
  unfold keep_mask at 2. destruct (Z.eqb_spec m 0) as [->|]; [|apply IH]. destruct acc as [|a acc]; [|apply IH]. cbn [andb length Nat.eqb].
  destruct (IH []) as [n Hn]. rewrite app_nil_r in Hn. exists (n + 1)%nat. rewrite Hn, replicate_add, <- app_assoc. done.
Qed.

Lemma keep_masks_in l i : in_masks (foldl keep_mask [] l) i = in_masks (rev l) i.
Proof.
  apply in_masks_ext. intros k. destruct (keep_masks l []) as [n Hn]. rewrite app_nil_r in Hn. rewrite Hn.
  destruct (decide (k < length (foldl keep_mask [] l))%nat).
  - by rewrite lookup_app_l.
  - rewrite lookup_app_r by lia. rewrite (lookup_ge_None_2 (foldl _ _ _)) by lia.
    destruct (replicate n 0 !! _) as [m|] eqn:Hm; [|done]. by apply lookup_replicate in Hm as [-> _].
Qed.

Lemma keep_masks_fit l : masks32 l -> masks32 (foldl keep_mask [] l) /\ (length (foldl keep_mask [] l) <= length l)%nat.
Proof.
  intros Hl. destruct (keep_masks l []) as [n Hn]. rewrite app_nil_r in Hn.
  assert (Forall (fun m => 0 <= m < 2 ^ 32) (rev l)) as Hr by (by apply Forall_rev).
  split; [|rewrite <- (length_rev l), Hn, length_app; lia]. rewrite Hn in Hr. by apply Forall_app in Hr as [? _].
Qed.

(** ** Lines *)

Lemma char_split_none c p : c ∉ p -> char_split c p = None.
Proof.
  induction p as [|d p IH]; intros Hc; [done|]. cbn [char_split]. destruct (Ascii.eqb_spec d c) as [->|_]; [destruct Hc; left|].
  rewrite IH; [done|]. intros Hin. apply Hc. by right.
Qed.

Lemma cstring_id s : NUL ∉ s -> cstring s = s.
Proof.
  induction s as [|c s IH]; intros Hs; [done|]. cbn [cstring]. destruct (Ascii.eqb_spec c NUL) as [->|_]; [destruct Hs; left|].
  f_equal. apply IH. intros Hin. apply Hs. by right.
Qed.

Lemma cut_line_app s rest : "010"%char ∉ s -> cut_line (s ++ "010"%char :: rest) = s.
Proof.
  induction s as [|c s IH]; intros Hs; cbn [app cut_line]; [by rewrite Ascii.eqb_refl|].
  destruct (Ascii.eqb_spec c "010") as [->|_]; [destruct Hs; left|]. f_equal. apply IH. intros Hin. apply Hs. by right.
Qed.

Section Texts.
Context {B : Type} `{Cpuset B} `{!CpumapOps B} `{!Cpumap B}.

Lemma cpumap_read_back width l : l <> [] -> words_fit width l -> Z.of_nat (length l) < CPU_MAX / 64 ->
  exists set, hwloc_linux_parse_cpumap_file (B := B) (cpumap_text width l) = Some set /\ bfin set = true /\
    forall i, 0 <= i -> bm set i = in_masks (rev l) i.
Proof.
  intros Hne Hfit Hlen. assert (masks32 l) as Hl.
  { destruct l as [|m l]; [done|]. destruct Hfit as [Hm Hl]. constructor; [by eapply hex_small|].
    eapply Forall_impl; [exact Hl|]. intros x. apply hex_small. }
  destruct (keep_masks_fit l Hl) as [Hk Hkl]. unfold hwloc_linux_parse_cpumap_file.
  rewrite (read_maps_words _ width l []) by done. cbn [mbind option_bind]. eexists. split; [done|]. split.
  - destruct (set_maps_fin (B := B) (foldl keep_mask [] l) b_alloc 0) as [-> _]; [|lia|lia|apply bfin_alloc].
    eapply Forall_impl; [exact Hk|]. intros x Hx. cbn beta in *. lia.
  - intros i Hi. rewrite set_maps_bits; [|done|lia|lia|intros; by apply bm_alloc; lia|done].
    rewrite (proj2 (Z.ltb_ge _ _)) by lia. rewrite Z.sub_0_r. apply keep_masks_in.
Qed.

(** ** Lists of ranges *)

Definition range_item (r : Z * Z) : chars :=
  if fst r =? snd r then fmt_d (fst r) else fmt_d (fst r) ++ "-"%char :: fmt_d (snd r).

Fixpoint ranges_list (l : list (Z * Z)) : chars :=
  match l with
  | [] => []
  | [r] => range_item r
  | r :: l => range_item r ++ ","%char :: ranges_list l
  end.

(** What the kernel writes in a cpuset file. *)
Definition cpuset_text (l : list (Z * Z)) : chars := ranges_list l ++ ["010"%char].

Definition in_ranges (l : list (Z * Z)) (i : Z) : bool := existsb (fun r => between (fst r) (snd r) i) l.

(** Increasing ranges of CPUs, from [lo] on. *)
Fixpoint ranges_from (lo : Z) (l : list (Z * Z)) : Prop :=
  match l with [] => True | (b, e) :: l => lo <= b <= e /\ e < CPU_MAX /\ ranges_from (e + 1) l end.

Lemma fmt_d_digits n : 0 <= n < 2 ^ 31 -> is_digits 10 (fmt_d n) /\ fmt_d n <> [].
Proof.
  intros Hn. pose proof (fmt_d_short n Hn) as Hl. split; [|intros He; rewrite He in Hl; simpl in Hl; lia].
  unfold fmt_d. destruct (Z.ltb_spec n 0); [lia|]. by destruct (print_num_text 10 n ltac:(lia) ltac:(lia)).
Qed.

Lemma range_item_chars b e c : 0 <= b < 2 ^ 31 -> 0 <= e < 2 ^ 31 -> is_digit 10 c = None -> c <> "-"%char -> c ∉ range_item (b, e).
Proof.
  intros Hb He Hc Hm. destruct (fmt_d_digits b Hb) as [Hdb _], (fmt_d_digits e He) as [Hde _].
  pose proof (digits_none 10 c _ Hc Hdb). pose proof (digits_none 10 c _ Hc Hde).
  unfold range_item. cbn [fst snd]. destruct (b =? e); [done|]. rewrite elem_of_app, elem_of_cons. naive_solver.
Qed.

Lemma range_small lo b e l : 0 <= lo -> ranges_from lo ((b, e) :: l) -> 0 <= b < CPU_MAX /\ 0 <= e < CPU_MAX /\ b <= e.
Proof. intros Hlo (Hb & He & _). lia. Qed.

Lemma cpu_int i : 0 <= i < CPU_MAX -> 0 <= i < 2 ^ 31 /\ s32 i = i /\ u32 i = i.
Proof. unfold CPU_MAX. intros Hi. rewrite s32_small, u32_small by lia. lia. Qed.

(** An item of the list is read as its range. *)
Lemma read_range b e : 0 <= b < CPU_MAX -> 0 <= e < CPU_MAX -> b <= e ->
  exists tmp, strtoul (range_item (b, e)) 0 = (b, tmp) /\
    match tmp with "-"%char :: tmp => s32 (fst (strtoul tmp 0)) | _ => s32 b end = e.
Proof.
  intros Hb He Hbe. destruct (cpu_int b Hb) as (Hb1 & Hb2 & _), (cpu_int e He) as (He1 & He2 & _).
  unfold range_item. cbn [fst snd]. destruct (Z.eqb_spec b e) as [<-|Hne].
  - exists []. rewrite <- (app_nil_r (fmt_d b)). rewrite fmt_d_reads by done. by rewrite Hb2.
  - eexists. rewrite fmt_d_reads by done. split; [done|]. cbn. rewrite <- (app_nil_r (fmt_d e)), fmt_d_reads by done. done.
Qed.

Lemma ranges_chars lo l c : 0 <= lo -> ranges_from lo l -> is_digit 10 c = None -> c <> "-"%char -> c <> ","%char -> c ∉ ranges_list l.
Proof.
  revert lo. induction l as [|[b e] l IH]; intros lo Hlo Hl Hc Hm Hcom; [by apply not_elem_of_nil|].
  destruct (range_small lo b e l Hlo Hl) as (Hb & He & Hbe). destruct Hl as (_ & _ & Hl).
  destruct (cpu_int b Hb) as (Hb1 & _ & _), (cpu_int e He) as (He1 & _ & _).
  pose proof (range_item_chars b e c Hb1 He1 Hc Hm) as Hi. specialize (IH (e + 1) ltac:(lia) Hl Hc Hm Hcom).
  destruct l as [|r l]; [done|]. change (ranges_list ((b, e) :: r :: l)) with (range_item (b, e) ++ ","%char :: ranges_list (r :: l)).
  rewrite elem_of_app, elem_of_cons. tauto.
Qed.

Lemma cpuset_line l : ranges_from 0 l -> cut_line (cstring (cpuset_text l)) = ranges_list l.
Proof.
  intros Hl. unfold cpuset_text. rewrite cstring_id.
  - apply cut_line_app. by apply (ranges_chars 0 l).
  - rewrite elem_of_app, list_elem_of_singleton. intros [Hin|]; [|done]. revert Hin. by apply (ranges_chars 0 l).
Qed.

(** What is before the ranges and between them is removed; the last CPU is the last one
    of the ranges. *)
Lemma disable_ranges_ok fuel l prev (set : B) : l <> [] -> (length (ranges_list l) < fuel)%nat -> -1 <= prev < CPU_MAX ->
  ranges_from (prev + 1) l ->
  exists last set', disable_ranges fuel (ranges_list l) prev set = Some (last, set') /\ bfin set' = bfin set /\
    prev <= last < CPU_MAX /\ (forall i, in_ranges l i = true -> prev < i <= last) /\
    forall i, 0 <= i -> i <= last -> bm set' i = bm set i && ((i <=? prev) || in_ranges l i).
Proof.
  revert fuel prev set. induction l as [|[b e] l IH]; intros fuel prev set Hne Hfuel Hprev Hl; [done|].
  destruct (range_small (prev + 1) b e l ltac:(lia) Hl) as (Hb & He & Hbe). destruct Hl as (Hlo & _ & Hl).
  destruct (cpu_int b Hb) as (Hb1 & Hb2 & _), (cpu_int e He) as (He1 & _ & _).
  destruct fuel as [|fuel]; [lia|]. cbn [disable_ranges].
  assert (match char_split "," (ranges_list ((b, e) :: l)) with Some (i, n) => (i, Some n) | None => (ranges_list ((b, e) :: l), None) end =
    (range_item (b, e), match l with [] => None | _ => Some (ranges_list l) end)) as Hsplit.
  { pose proof (range_item_chars b e "," Hb1 He1 eq_refl ltac:(done)) as Hc. destruct l as [|r l].
    - cbn [ranges_list]. by rewrite char_split_none.
    - change (ranges_list ((b, e) :: r :: l)) with (range_item (b, e) ++ ","%char :: ranges_list (r :: l)). by rewrite strchr_app. }
  rewrite Hsplit. destruct (read_range b e Hb He Hbe) as (tmp & -> & Htmp). rewrite Hb2 in *. rewrite Htmp.
  unfold INT_MAX, INT_MIN. unfold CPU_MAX in Hprev. rewrite !(proj2 (Z.ltb_lt _ _)) by lia. cbn [andb].
  set (set1 := if prev + 1 <=? b - 1 then b_clr_range set (u32 (prev + 1)) (b - 1) else set).
  assert (bfin set1 = bfin set /\ forall i, 0 <= i -> bm set1 i = bm set i && negb (between (prev + 1) (b - 1) i)) as [Hf1 Hb1s].
  { subst set1. destruct (Z.leb_spec (prev + 1) (b - 1)).
    - destruct (cpu_int (prev + 1) ltac:(unfold CPU_MAX in *; lia)) as (_ & _ & ->). split; [apply bfin_clr_range; lia|]. intros i Hi.
      rewrite bm_clr_range by lia. apply andb_comm.
    - split; [done|]. intros i Hi. assert (between (prev + 1) (b - 1) i = false) as -> by (unfold between; lia). by rewrite andb_true_r. }
  destruct l as [|r l].
  - exists e, set1. split; [done|]. split; [done|]. split; [lia|]. unfold in_ranges, between in *. cbn [existsb fst snd].
    split; [intros i; lia|]. intros i Hi Hie. rewrite Hb1s by done. f_equal. lia.
  - assert (length (ranges_list (r :: l)) < fuel)%nat as Hfuel'.
    { change (ranges_list ((b, e) :: r :: l)) with (range_item (b, e) ++ ","%char :: ranges_list (r :: l)) in Hfuel.
      rewrite length_app in Hfuel. cbn [length] in Hfuel. lia. }
    destruct (IH fuel e set1 ltac:(done) Hfuel' ltac:(lia) Hl) as (last & set' & -> & Hf & Hlast & Hin & Hbits).
    exists last, set'. split; [done|]. split; [congruence|]. split; [lia|].
    change (in_ranges ((b, e) :: r :: l)) with (fun i => between b e i || in_ranges (r :: l) i). cbn beta. unfold between in *. split.
    + intros i Hi. apply orb_true_iff in Hi as [Hi|Hi%Hin]; lia.
    + intros i Hi Hil. rewrite Hbits, Hb1s by lia. rewrite <- andb_assoc. f_equal.
      specialize (Hin i). destruct (in_ranges (r :: l) i); lia.
Qed.

(** The CPUs that a cpuset file does not list are removed. *)
Lemma disable_set_ok (fs : file_system) m name attr l set p :
  l <> [] -> ranges_from 0 l ->
  match m with
  | (Some cgroup, _) => p = cgroup ++ name ++ txt "/cpuset." ++ txt attr
  | (None, Some cpuset) => p = cpuset ++ name ++ txt "/" ++ txt attr
  | (None, None) => False
  end ->
  hwloc_fopen fs (take 255 p) = Some (cpuset_text l) ->
  exists set', hwloc_admin_disable_set_from_cpuset fs m name attr set = Some set' /\
    forall i, 0 <= i -> bm set' i = bm set i && in_ranges l i.
Proof.
  intros Hne Hl Hm Hf. unfold hwloc_admin_disable_set_from_cpuset.
  assert (hwloc_read_linux_cpuset_mask fs m name attr = Some (Some (ranges_list l))) as ->.
  { unfold hwloc_read_linux_cpuset_mask. destruct m as [[cgroup|] [cpuset|]]; subst; try done; rewrite Hf.
    all: destruct (cpuset_text l) as [|c s] eqn:Ht; [unfold cpuset_text in Ht; by destruct (ranges_list l)|]; rewrite <- Ht;
      by rewrite cpuset_line. }
  cbn [mbind option_bind].
  destruct (disable_ranges_ok (S (length (ranges_list l))) l (-1) set Hne ltac:(lia) ltac:(unfold CPU_MAX; lia) Hl)
    as (last & set' & -> & _ & Hlast & Hin & Hbits).
  cbn [mbind option_bind]. eexists. split; [done|]. intros i Hi. rewrite bm_and by done.
  assert (0 <= last) as Hlast0.
  { destruct l as [|[b e] l]; [done|]. destruct Hl as (Hb & _). specialize (Hin b). unfold in_ranges, between in Hin. cbn in Hin. lia. }
  rewrite bm_set_range, bm_alloc by lia. rewrite orb_false_r. unfold between.
  destruct (Z.leb_spec i last).
  - rewrite Hbits by done. rewrite (proj2 (Z.leb_gt i (-1))), (proj2 (Z.leb_le 0 i)) by lia. by rewrite andb_true_r.
  - rewrite andb_false_r, andb_false_r. destruct (in_ranges l i) eqn:Hr; [specialize (Hin i Hr); lia|]. by rewrite andb_false_r.
Qed.

End Texts.

(** ** The text *)

Definition info_line (name : chars) (pad value : chars) : chars :=
  (name ++ pad) ++ ":"%char :: " "%char :: value ++ ["010"%char].

Definition TAB : ascii := "009"%char.

(** A processor. *)
Definition proc_text (p : hwloc_linux_cpuinfo_proc) : chars :=
  info_line (txt "processor") [TAB] (fmt_d (Pproc p)) ++
  match cpumodel p with Some m => info_line (txt "model name") [TAB] m | None => [] end ++
  info_line (txt "physical id") [TAB] (fmt_d (Psock p)) ++
  info_line (txt "core id") [TAB; TAB] (fmt_d (Pcore p)) ++ ["010"%char].

Definition cpuinfo_text (procs : list hwloc_linux_cpuinfo_proc) : chars := concat (map proc_text procs).

(** A value that is read back. *)
Record info_value (value : chars) : Prop := {
  iv_line : "010"%char ∉ value;
  iv_nul : NUL ∉ value;
  iv_short : (length value <= 100)%nat;
  iv_blank : skip_blank value = value;
}.

Record proc_numbers (p : hwloc_linux_cpuinfo_proc) : Prop := {
  pn_proc : 0 <= Pproc p < 2 ^ 31;
  pn_sock : 0 <= Psock p < 2 ^ 31;
  pn_core : 0 <= Pcore p < 2 ^ 31;
  pn_logical : Lcore p = -1 /\ Lsock p = -1;
  pn_model : forall m, cpumodel p = Some m -> info_value m;
}.

Lemma line_of_app n s rest : "010"%char ∉ s -> (length s < n)%nat ->
  line_of n (s ++ "010"%char :: rest) = (s ++ ["010"%char], rest).
Proof.
  revert n. induction s as [|c s IH]; intros n Hs Hn; destruct n as [|n]; cbn [length] in *; try lia; cbn [app line_of].
  - by rewrite Ascii.eqb_refl.
  - destruct (Ascii.eqb_spec c "010") as [->|_]; [destruct Hs; left|]. rewrite IH; [done| |lia]. intros Hin. apply Hs. by right.
Qed.

Lemma fgets_line size s rest : "010"%char ∉ s -> NUL ∉ s -> (length s + 1 < size)%nat ->
  fgets size (s ++ "010"%char :: rest) = Some (s ++ ["010"%char], rest).
Proof.
  intros Hl Hn Hs. unfold fgets. destruct (s ++ "010"%char :: rest) as [|c r] eqn:Heq; [by destruct s|]. rewrite <- Heq, line_of_app by (done || lia).
  rewrite cstring_id; [done|]. rewrite elem_of_app, list_elem_of_singleton. by intros [?|?].
Qed.

(** What the lemma on lines asks of a name and the blanks after it. *)
Definition name_ok (name pad : chars) : bool :=
  letter (name ++ pad) && negb (existsb (fun c => (c =? ":")%char || (c =? "010")%char || (c =? NUL)%char) (name ++ pad)) &&
  bool_decide (trim (name ++ pad) = name) && (length (name ++ pad) <=? 20)%nat.

Lemma name_free name pad c : name_ok name pad = true -> c = ":"%char \/ c = "010"%char \/ c = NUL -> c ∉ name ++ pad.
Proof.
  unfold name_ok. rewrite !andb_true_iff. intros [[[_ Hno] _] _] Hc Hin. apply negb_true_iff in Hno.
  apply not_true_iff_false in Hno. apply Hno, existsb_exists. exists c. split; [by apply list_elem_of_In|].
  destruct Hc as [->|[->| ->]]; done.
Qed.

(** A line gives its field. *)
Lemma parse_info_line fuel name pad value rest c : name_ok name pad = true -> info_value value ->
  parse_cpuinfo_lines (S fuel) (info_line name pad value ++ rest) c =
  (let! r := cpuinfo_field name value c in
   match r with None => Some None | Some c => parse_cpuinfo_lines fuel rest c end).
Proof.
  intros Hname [Hvl Hvn Hvs Hvb]. unfold info_line. pose proof (name_free name pad ":" Hname ltac:(auto)) as Hc.
  pose proof (name_free name pad "010" Hname ltac:(auto)) as Hl. pose proof (name_free name pad NUL Hname ltac:(auto)) as Hn.
  unfold name_ok in Hname. rewrite !andb_true_iff in Hname. destruct Hname as [[[Hlet _] Htrim%bool_decide_eq_true] Hlen%Nat.leb_le].
  set (line := (name ++ pad) ++ ":"%char :: " "%char :: value).
  assert (((name ++ pad) ++ ":"%char :: " "%char :: value ++ ["010"%char]) ++ rest = line ++ "010"%char :: rest) as ->
    by (subst line; rewrite <- !app_assoc; cbn [app]; by rewrite <- !app_assoc).
  cbn [parse_cpuinfo_lines]. rewrite fgets_line.
  2, 3: subst line; rewrite elem_of_app, !elem_of_cons; intros [?|[?|[?|?]]]; done.
  2: subst line; rewrite length_app; cbn [length]; lia.
  rewrite cut_line_app by (subst line; rewrite elem_of_app, !elem_of_cons; intros [?|[?|[?|?]]]; done).
  assert (existsb (fun d => (d =? "010")%char) (line ++ ["010"%char]) = true) as -> by (rewrite existsb_app; by rewrite orb_true_r).
  subst line. rewrite strchr_app by done.
  assert (letter ((name ++ pad) ++ ":"%char :: " "%char :: value) = true) as -> by (revert Hlet; by destruct (name ++ pad)).
  cbn [negb skip_blank blank_char]. change (blank_char " ") with true. cbn match. rewrite Htrim, Hvb. done.
Qed.

Lemma digits_value n : 0 <= n < 2 ^ 31 -> info_value (fmt_d n).
Proof.
  intros Hn. destruct (fmt_d_digits n Hn) as [Hd _]. pose proof (fmt_d_short n Hn) as Hl.
  split; [by apply (digits_none 10)|by apply (digits_none 10)|lia|].
  destruct (fmt_d n) as [|c ds]; [done|]. cbn [skip_blank]. destruct (blank_char c) eqn:Hb; [|done].
  apply Forall_cons in Hd as [Hc _]. unfold blank_char in Hb. apply orb_true_iff in Hb as [->%Ascii.eqb_eq| ->%Ascii.eqb_eq]; by destruct Hc.
Qed.

Lemma getprocnb_digits n : 0 <= n < 2 ^ 31 -> getprocnb (fmt_d n) = Some n.
Proof.
  intros Hn. unfold getprocnb. rewrite <- (app_nil_r (fmt_d n)) at 1. rewrite fmt_d_reads by done. pose proof (fmt_d_short n Hn) as Hl.
  destruct (fmt_d n) as [|c ds]; [simpl in Hl; lia|]. cbn [length Nat.eqb orb]. unfold ULONG_MAX. by rewrite (proj2 (Z.eqb_neq _ _)) by lia.
Qed.

Lemma s64_small n : 0 <= n < 2 ^ 31 -> s64 n = n.
Proof. intros Hn. unfold s64. rewrite Z.mod_small by lia. lia. Qed.

(** The lines of a processor, after other ones. *)
Lemma parse_proc fuel p rest procs : proc_numbers p -> (5 <= fuel)%nat ->
  exists n, (n <= 5)%nat /\ parse_cpuinfo_lines fuel (proc_text p ++ rest) (procs, None) = parse_cpuinfo_lines (fuel - n) rest (p :: procs, None).
Proof.
  intros [Hp Hs Hc [Hlc Hls] Hm] Hfuel. unfold proc_text. rewrite <- !app_assoc.
  destruct fuel as [|[|[|[|[|fuel]]]]]; try lia.
  rewrite (parse_info_line _ (txt "processor")) by (done || by apply digits_value).
  unfold cpuinfo_field at 1. rewrite getprocnb_digits by done. cbn [mbind option_bind].
  rewrite bool_decide_true by done. cbn [mbind option_bind].
  set (p1 := mk_proc (Pproc p) (-1) (-1) (-1) (-1) None).
  assert (forall fuel model, parse_cpuinfo_lines (S (S (S fuel)))
      (info_line (txt "physical id") [TAB] (fmt_d (Psock p)) ++ info_line (txt "core id") [TAB; TAB] (fmt_d (Pcore p)) ++ ["010"%char] ++ rest)
      (mk_proc (Pproc p) (-1) (-1) (-1) (-1) model :: procs, None) =
    parse_cpuinfo_lines fuel rest (mk_proc (Pproc p) (Pcore p) (Psock p) (-1) (-1) model :: procs, None)) as Htail.
  { intros f model. rewrite (parse_info_line _ (txt "physical id")) by (done || by apply digits_value).
    unfold cpuinfo_field at 1. rewrite bool_decide_false, bool_decide_true, getprocnb_digits by done. cbn [mbind option_bind on_last].
    rewrite s64_small by done.
    rewrite (parse_info_line _ (txt "core id")) by (done || by apply digits_value).
    unfold cpuinfo_field at 1. rewrite bool_decide_false, bool_decide_false, bool_decide_true, getprocnb_digits by done. cbn [mbind option_bind on_last].
    rewrite s64_small by done. done. }
  destruct (cpumodel p) as [m|] eqn:Hmod.
  - rewrite (parse_info_line _ (txt "model name")) by (done || by apply Hm).
    exists 5%nat. split; [lia|]. unfold cpuinfo_field at 1. cbn [mbind option_bind].
    rewrite !bool_decide_false by done. cbn [mbind option_bind]. unfold p1, with_cpumodel. cbn [Pproc Pcore Psock Lcore Lsock cpumodel].
    change (hwloc_linux_parse_cpuinfo_model (txt "model name") m None) with (Some m). rewrite Htail.
    destruct p. cbn in *. subst. by rewrite Nat.sub_0_r.
  - exists 4%nat. split; [lia|]. rewrite app_nil_l. subst p1. rewrite Htail. destruct p. cbn in *. by subst.
Qed.

Lemma parse_procs fuel l procs : Forall proc_numbers l -> (5 * length l <= fuel)%nat ->
  parse_cpuinfo_lines fuel (cpuinfo_text l) (procs, None) = Some (Some (rev l ++ procs, None)).
Proof.
  revert fuel procs. induction l as [|p l IH]; intros fuel procs Hl Hfuel; [by destruct fuel|].
  apply Forall_cons in Hl as [Hp Hl]. cbn [length] in Hfuel. unfold cpuinfo_text. cbn [map concat].
  destruct (parse_proc fuel p (concat (map proc_text l)) procs Hp ltac:(lia)) as (n & Hn & ->).
  fold (cpuinfo_text l). rewrite IH by (done || lia). cbn [rev]. by rewrite <- app_assoc.
Qed.

Lemma cpuinfo_text_long l : (5 * length l <= length (cpuinfo_text l))%nat.
Proof.
  induction l as [|p l IH]; [done|]. unfold cpuinfo_text in *. cbn [map concat length]. rewrite length_app.
  assert (5 <= length (proc_text p))%nat; [|lia]. unfold proc_text, info_line. rewrite !length_app. cbn -[Nat.add]. lia.
Qed.

(** ** Logical numbers *)

Section Numbers.
Context {A : Type} (number : hwloc_linux_cpuinfo_proc -> option A) (eqb : A -> A -> bool) (put : hwloc_linux_cpuinfo_proc -> Z -> hwloc_linux_cpuinfo_proc).
Context (Heqb : forall x y, eqb x y = true <-> x = y).

Lemma index_of_ok x (known : list A) i : exists k, index_of (eqb x) known i = i + Z.of_nat k /\ (k <= length known)%nat /\
  ((k < length known)%nat -> known !! k = Some x) /\ (k = length known <-> x ∉ known).
Proof.
  revert i. induction known as [|y known IH]; intros i; cbn [index_of].
  - exists 0%nat. split; [lia|]. split; [done|]. split; [cbn [length]; lia|]. split; [intros _; apply not_elem_of_nil|done].
  - destruct (eqb x y) eqn:He.
    + apply Heqb in He as <-. exists 0%nat. split; [lia|]. split; [lia|]. split; [done|]. split; [done|]. intros Hn. destruct Hn. left.
    + assert (x <> y) as Hne by (intros ->; assert (eqb y y = true) by (by apply Heqb); congruence).
      destruct (IH (i + 1)) as (k & -> & Hk & Hin & Hiff). exists (S k). cbn [length]. split; [lia|]. split; [lia|].
      rewrite elem_of_cons. split; [intros Hx; apply Hin; lia|]. split.
      * intros Hl. assert (x ∉ known) by (apply Hiff; lia). tauto.
      * intros Hn. assert (k = length known) by (apply Hiff; tauto). lia.
Qed.

(** Each processor gets the position of its number among the distinct ones. *)
Lemma number_procs_ok procs known i : NoDup known ->
  exists procs' known' i', number_procs number eqb put procs known i = (procs', known ++ known', i') /\ NoDup (known ++ known') /\
    Forall2 (fun p p' => match number p with
                         | Some x => exists k, (known ++ known') !! k = Some x /\ p' = put p (Z.of_nat k)
                         | None => p' = p
                         end) procs procs' /\
    (forall x, x ∈ known' -> exists p, p ∈ procs /\ number p = Some x).
Proof.
  revert known i. induction procs as [|p procs IH]; intros known i Hnd; cbn [number_procs].
  - exists [], [], i. rewrite app_nil_r. split; [done|]. split; [done|]. split; [constructor|]. by intros x ?%not_elem_of_nil.
  - destruct (number p) as [x|] eqn:Hp.
    + destruct (index_of_ok x known 0) as (k & -> & Hk & Hin & Hiff). rewrite Z.add_0_l.
      set (known1 := if Z.of_nat k =? Z.of_nat (length known) then known ++ [x] else known).
      assert (exists l, known1 = known ++ l /\ NoDup known1 /\ known1 !! k = Some x /\ forall y, y ∈ l -> y = x) as (l & Hl & Hnd1 & Hkx & Hlx).
      { subst known1. destruct (Z.eqb_spec (Z.of_nat k) (Z.of_nat (length known))) as [He|Hne].
        - assert (x ∉ known) as Hn by (apply Hiff; lia). exists [x]. split; [done|]. split.
          + apply NoDup_app. split; [done|]. split; [|apply NoDup_singleton]. intros y Hy ->%list_elem_of_singleton. done.
          + split; [|by intros y ->%list_elem_of_singleton]. rewrite lookup_app_r by lia. by replace (k - length known)%nat with 0%nat by lia.
        - exists []. rewrite app_nil_r. split; [done|]. split; [done|]. split; [|by intros y ?%not_elem_of_nil]. apply Hin. lia. }
      destruct (IH known1 (Z.of_nat k) Hnd1) as (procs' & known' & i' & -> & Hnd' & Hall & Hfrom). rewrite Hl in *.
      exists (put p (Z.of_nat k) :: procs'), (l ++ known'), i'. rewrite app_assoc. split; [done|]. split; [done|]. split.
      * constructor; [rewrite Hp; exists k; split; [|done]; by apply lookup_app_l_Some|done].
      * intros y [Hy|Hy]%elem_of_app; [exists p; rewrite (Hlx y Hy); split; [left|done]|]. destruct (Hfrom y Hy) as (q & ? & ?). exists q. split; [by right|done].
    + destruct (IH known i Hnd) as (procs' & known' & i' & -> & Hnd' & Hall & Hfrom). exists (p :: procs'), known', i'.
      split; [done|]. split; [done|]. split; [constructor; [by rewrite Hp|done]|].
      intros y Hy. destruct (Hfrom y Hy) as (q & ? & ?). exists q. split; [by right|done].
Qed.

End Numbers.

Lemma same_core_iff c d : same_core c d = true <-> c = d.
Proof. unfold same_core. destruct c, d. cbn. rewrite andb_true_iff, !Z.eqb_eq. naive_solver. Qed.

(** Positions in a list without duplicates. *)
Lemma numbers_same {A} (number : hwloc_linux_cpuinfo_proc -> option A) put (logical : hwloc_linux_cpuinfo_proc -> Z) known procs procs' :
  (forall p k, logical (put p k) = k) -> NoDup known ->
  Forall2 (fun p p' => match number p with
                       | Some x => exists k, known !! k = Some x /\ p' = put p (Z.of_nat k)
                       | None => p' = p
                       end) procs procs' ->
  forall i j p q p' q' x y, procs !! i = Some p -> procs !! j = Some q -> procs' !! i = Some p' -> procs' !! j = Some q' ->
    number p = Some x -> number q = Some y -> (logical p' = logical q' <-> x = y) /\ known !! Z.to_nat (logical p') = Some x.
Proof.
  intros Hput Hnd Hall i j p q p' q' x y Hp Hq Hp' Hq' Hx Hy.
  pose proof (Forall2_lookup_lr _ _ _ _ _ _ Hall Hp Hp') as H1. pose proof (Forall2_lookup_lr _ _ _ _ _ _ Hall Hq Hq') as H2.
  cbn beta in *. rewrite Hx in H1. rewrite Hy in H2. destruct H1 as (k1 & Hk1 & ->), H2 as (k2 & Hk2 & ->). rewrite !Hput, Nat2Z.id.
  split; [|done]. split.
  - intros ->%Nat2Z.inj. congruence.
  - intros ->. f_equal. by eapply (NoDup_lookup known).
Qed.

(** ** The readers end *)

(** A line takes a character at least. *)
Lemma fgets_takes size s l rest : (2 <= size)%nat -> fgets size s = Some (l, rest) -> (length rest < length s)%nat.
Proof.
  assert (forall n s, (length (snd (line_of n s)) <= length s)%nat) as Hle.
  { clear. intros n. induction n as [|n IH]; intros s; [simpl; lia|]. destruct s as [|c s]; [simpl; lia|]. cbn [line_of].
    destruct (c =? "010")%char; [simpl; lia|]. specialize (IH s). destruct (line_of n s). cbn [snd length] in *. lia. }
  intros Hs. unfold fgets. destruct s as [|c s]; [done|]. destruct (line_of (size - 1) (c :: s)) as [l' r] eqn:Hl. intros [= _ <-].
  destruct (size - 1)%nat as [|n] eqn:Hn; [lia|]. cbn [line_of] in Hl. destruct (c =? "010")%char; [simplify_eq; simpl; lia|].
  specialize (Hle n s). destruct (line_of n s). simplify_eq. cbn [snd length] in *. lia.
Qed.

Lemma char_split_shorter c s a b : char_split c s = Some (a, b) -> (length a + length b < length s)%nat.
Proof.
  revert a b. induction s as [|d s IH]; intros a b; [done|]. cbn [char_split]. destruct (d =? c)%char; [intros [= <- <-]; simpl; lia|].
  destruct (char_split c s) as [[p r]|]; [|done]. intros [= <- <-]. specialize (IH p r eq_refl). cbn [length]. lia.
Qed.

(** More fuel than the characters of the text changes nothing. *)
Definition enough {A} (f : nat -> chars -> A) : Prop :=
  forall fuel s, (length s <= fuel)%nat -> f fuel s = f (length s) s.

(** One turn from two amounts of fuel. *)
Lemma enough_turn {A} (f : nat -> chars -> A) :
  (forall n m s, (length s <= n)%nat -> (length s <= m)%nat ->
    (forall r, (length r < length s)%nat -> f (pred n) r = f (pred m) r) -> f n s = f m s) -> enough f.
Proof.
  intros Hturn fuel s Hs. assert (forall k n m s, (length s < k)%nat -> (length s <= n)%nat -> (length s <= m)%nat -> f n s = f m s) as H.
  { intros k. induction k as [|k IH]; intros n m r Hk Hn Hm; [lia|]. apply Hturn; [done|done|]. intros r' Hr'. apply IH; lia. }
  apply (H (S (length s))); lia.
Qed.

Lemma cgroup_name_enough : enough cgroup_name.
Proof.
  apply enough_turn. intros n m s Hn Hm Hf. destruct n as [|n], m as [|m]; cbn [cgroup_name pred] in *; [done|..];
    destruct (fgets 256 s) as [[l r]|] eqn:Hg; try done; apply fgets_takes in Hg; try lia.
  destruct (strchr l ":"); [|by apply Hf]. destruct (starts_with ":cpuset:" _); [done|]. by apply Hf.
Qed.

Lemma mount_lines_enough : enough mount_lines.
Proof.
  apply enough_turn. intros n m s Hn Hm Hf. destruct n as [|n], m as [|m]; cbn [mount_lines pred] in *; [done|..];
    destruct (fgets 512 s) as [[l r]|] eqn:Hg; try done; apply fgets_takes in Hg; try lia.
  destruct (mount_line l) as [[?|]|]; [done| |done]. cbn [mbind option_bind]. by apply Hf.
Qed.

Lemma meminfo_lines_enough prefixlength onlytotal mi : enough (fun fuel s => meminfo_lines fuel prefixlength onlytotal s mi).
Proof.
  assert (forall k n m s mi, (length s < k)%nat -> (length s <= n)%nat -> (length s <= m)%nat ->
    meminfo_lines n prefixlength onlytotal s mi = meminfo_lines m prefixlength onlytotal s mi) as H.
  { clear mi. intros k. induction k as [|k IH]; intros n m s mi Hk Hn Hm; [lia|].
    destruct n as [|n], m as [|m]; cbn [meminfo_lines]; [done|..];
      destruct (fgets 64 s) as [[l r]|] eqn:Hg; try done; apply fgets_takes in Hg; try lia; destruct l; try done.
    destruct (length _ <? prefixlength)%nat; [apply IH; lia|]. destruct (meminfo_line _ _ _) as [[m' stop]|]; [|done]. cbn [mbind option_bind].
    destruct stop; [done|]. apply IH; lia. }
  intros fuel s Hs. apply (H (S (length s))); lia.
Qed.

Lemma parse_cpuinfo_lines_enough c : enough (fun fuel s => parse_cpuinfo_lines fuel s c).
Proof.
  assert (forall k n m s c, (length s < k)%nat -> (length s <= n)%nat -> (length s <= m)%nat ->
    parse_cpuinfo_lines n s c = parse_cpuinfo_lines m s c) as H.
  { clear c. intros k. induction k as [|k IH]; intros n m s c Hk Hn Hm; [lia|].
    destruct n as [|n], m as [|m]; cbn [parse_cpuinfo_lines]; [done|..];
      destruct (fgets 128 s) as [[l r]|] eqn:Hg; try done; apply fgets_takes in Hg; try lia.
    destruct (char_split ":" (cut_line l)) as [[before rest]|]; [|apply IH; lia].
    destruct (negb (letter (cut_line l))); [apply IH; lia|].
    destruct (cpuinfo_field _ _ c) as [[c'|]|]; [|done|done]. cbn [mbind option_bind].
    destruct (negb (existsb _ l)); [|apply IH; lia]. destruct r as [|d r]; [done|].
    destruct (char_split "010" (d :: r)) as [[a b]|] eqn:Hsp; apply IH; try (simpl; lia).
    all: apply char_split_shorter in Hsp; lia. }
  intros fuel s Hs. apply (H (S (length s))); lia.
Qed.

Lemma unescape_enough : enough unescape_mntpath.
Proof.
  apply enough_turn. intros n m s Hn Hm Hf. destruct n as [|n], m as [|m]; cbn [unescape_mntpath pred] in *; [done|..];
    destruct (char_split "\" s) as [[a b]|] eqn:Hsp; try done; apply char_split_shorter in Hsp; try lia.
  destruct (3 <=? length b)%nat; [|done]. rewrite Hf; [done|]. rewrite length_drop. lia.
Qed.

Lemma disable_ranges_enough {B : Type} `{CpusetOps B} `{!CpumapOps B} prev (set : B) fuel s : (length s < fuel)%nat ->
  disable_ranges fuel s prev set = disable_ranges (S (length s)) s prev set.
Proof.
  assert (forall k n m s prev (set : B), (length s < k)%nat -> (length s < n)%nat -> (length s < m)%nat ->
    disable_ranges n s prev set = disable_ranges m s prev set) as Hk; [|intros Hs; apply (Hk (S (length s))); lia].
  clear. intros k. induction k as [|k IH]; intros n m s prev set Hk Hn Hm; [lia|]. destruct n as [|n], m as [|m]; try lia. cbn [disable_ranges].
  destruct (char_split "," s) as [[a b]|] eqn:Hsp.
  - apply char_split_shorter in Hsp. destruct (strtoul a 0) as [x tmp]. destruct (_ && _); [|done]. apply IH; lia.
  - destruct (strtoul s 0) as [x tmp]. by destruct (_ && _).
Qed.
