(* ===== verification/LinuxThms.v ===== *)
(** * LinuxThms: what the Linux backend makes of the files of the system *)

From Stdlib Require Import Ascii String Sorted.
From S2P Require Import Prelude Misc Bitmap CString BitmapString CStringOk Cpuset Obj ObjCmp Insert InsertOk Clean CleanOk Levels LevelsOk Sets Traversal Loaded HelperOk Shape Synthetic Scan Discover DiscoverOk CleanSets DiscoverLoad SyntheticThms DiscoverThms Distances LinuxFiles LinuxCpus LinuxNodes LinuxCpusOk LinuxSysfs LinuxLoop LinuxText Samples.

Section Sysfs.
Context {B : Type} `{Cpuset B} `{!CpumapOps B} `{!Cpumap B}.
Implicit Types o obj : hwloc_obj B.
Implicit Types st : linux_state (B := B).
Context (fs : file_system) (path : chars) (Lprocs : list hwloc_linux_cpuinfo_proc) (machine : chars).

(** A directory of CPUs whose files fit the buffers, whose numbers of CPUs fit a set and
    in which no attribute of a cache divides by 0; no device tree. *)
Record cpus_directory (entries : list chars) : Prop := {
  cd_entries : hwloc_opendir fs path = Some entries;
  cd_path : (length path <= 40)%nat;
  cd_numbers : entries_fit entries;
  cd_files : files_fit fs;
  cd_caches : forall i, entry_of (with_topology fs path) entries i -> caches_fine fs path i;
  cd_tree : hwloc_opendir fs ofroot = None;
}.

(** The objects that are there before do not cross the sets of the files. *)
Definition apart st : Prop :=
  Forall (fun o => o_type o ∉ leading /\ forall s, file_set fs path s -> laminar (cs o) s) (x_objs st).

(** The sets of the machine say which CPUs the entries are for, and which are online. *)
Record cpus_known (entries : list chars) st st' : Prop := {
  ck_complete : exists c', complete_cpuset (sets (x_top st')) = Some c' /\
    forall i, 0 <= i -> entry_of (fun _ => True) entries i -> bm c' i = true;
  ck_online : exists c c', online_cpuset (sets (x_top st)) = Some c /\ online_cpuset (sets (x_top st')) = Some c' /\
    forall i, 0 <= i -> bm c' i = true <-> bm c i = true /\ ~ entry_of (offline fs path) entries i;
  ck_allowed : allowed_cpuset (sets (x_top st')) = allowed_cpuset (sets (x_top st));
  ck_kept : forall o, o ∈ x_objs st -> exists o', o' ∈ x_objs st' /\ same_place o o';
}.

Definition sets_clear entries : Prop := forall i, entry_of (with_topology fs path) entries i -> no_late_use (B := B) fs path Lprocs machine i.

Lemma entry_range P entries i : entries_fit entries -> entry_of P entries i -> 0 <= i < CPU_MAX.
Proof.
  intros Hfit (name & cpu & Hin & Hc & <- & _). split; [apply u32_range|].
  unfold entries_fit in Hfit. rewrite Forall_forall in Hfit. by apply (Hfit name).
Qed.

Lemma tidy_start fam st : (forall s, fam s -> file_set fs path s) -> apart st -> tidy fam (met 0) st.
Proof.
  intros Hfam Ha. split.
  - eapply Forall_impl; [exact Ha|]. intros o [_ Hs] s Hfs. by apply Hs, Hfam.
  - intros type Ht. eapply Forall_impl; [exact Ha|]. intros o [Hn _] Hty. by rewrite Hty in Hn.
Qed.

Lemma look_sysfscpu_ok entries st : cpus_directory entries -> standing st ->
  sets_clear entries \/ (sets_nested (B := B) fs path /\ apart st) ->
  exists st', look_sysfscpu fs path Lprocs machine st = Some (0, st') /\ standing st' /\ cpus_known entries st st' /\
    (forall i, entry_of (with_topology fs path) entries i -> has st' (is_kind HWLOC_OBJ_PU 0 (b_only i))) /\
    (sets_nested (B := B) fs path /\ apart st -> forall i, entry_of (with_topology fs path) entries i -> cpu_there fs path i st').
Proof.
  intros [Hdir Hpath Hnum Hfiles Hfine Htree] Hst Hmode. unfold look_sysfscpu. rewrite Hdir.
  destruct (list_cpus_ok fs path Hpath entries st b_alloc Hst Hnum) as (st1 & cpus & Hrun & [Hst1 Hobjs1 _ Hfin Htop Hal Hco Hon]).
  rewrite Hrun. cbn [mbind option_bind].
  assert (forall i, 0 <= i -> bm cpus i = true <-> entry_of (with_topology fs path) entries i) as Hmem
    by (intros i Hi; rewrite Htop, bm_alloc by done; naive_solver).
  destruct (each_member_ok cpus) as (ids & -> & Hsort & Hids); [by rewrite Hfin, bfin_alloc| |].
  { intros i Hi Hb. apply Hmem in Hb; [|done]. by eapply entry_range. }
  cbn [mbind option_bind].
  assert (forall i, i ∈ ids <-> entry_of (with_topology fs path) entries i) as Hids'.
  { intros i. rewrite Hids. split; [intros [Hi Hb]; by apply Hmem|]. intros He. pose proof (entry_range _ _ _ Hnum He).
    split; [lia|]. by apply Hmem; [lia|]. }
  set (fam s := sets_nested (B := B) fs path /\ file_set fs path s).
  assert (forall s1 s2, fam s1 -> fam s2 -> laminar s1 s2) as Hlaminar by (intros s1 s2 [Hn H1] [_ H2]; by apply Hn).
  assert (sets_nested (B := B) fs path /\ apart st -> exists k, strict fs path fam (met k) st1 /\ Forall (fun i => k <= i) ids) as Hstrict.
  { intros [Hn Ha]. exists 0. split; [split|].
    - intros s Hs. by split.
    - apply tidy_start; [by intros s [_ Hs]|]. unfold apart. by rewrite Hobjs1.
    - apply Forall_forall. intros i Hi. apply Hids in Hi. lia. }
  destruct (each_cpu_ok fs path Lprocs machine Hfiles Hpath fam Hlaminar ids st1 0 Hst1) as (st2 & n & -> & Hpg & Hpus & Hthere).
  { apply Forall_forall. intros i Hi%Hids'. split; [by eapply entry_range|by apply Hfine]. }
  { done. }
  { destruct Hmode as [Hc|Hn]; [left|right; by apply Hstrict]. apply Forall_forall. intros i Hi%Hids'. by apply Hc. }
  cbn [mbind option_bind]. unfold look_powerpc_device_tree. rewrite Htree. exists st2.
  split; [by destruct (n =? 0)|]. split; [apply Hpg|]. split; [|split].
  - destruct Hco as (c & c' & Hc & Hc' & Hcc). destruct (pg_complete _ _ Hpg c' Hc') as (c2 & Hc2 & Hsub).
    destruct Hon as (n1 & n2 & Hn1 & Hn2 & Hnn). split.
    + exists c2. split; [done|]. intros i Hi He. apply Hsub; [done|]. apply Hcc; [done|by right].
    + exists n1, n2. split; [done|]. split; [by rewrite (pg_online _ _ Hpg)|done].
    + by rewrite (pg_allowed _ _ Hpg).
    + rewrite <- Hobjs1. apply Hpg.
  - rewrite Forall_forall in Hpus. intros i Hi%Hids'. by apply Hpus.
  - intros Hn i Hi%Hids'. specialize (Hthere (Hstrict Hn)). rewrite Forall_forall in Hthere. by apply Hthere.
Qed.

(** C14. The sets in the topology files may cross, or disagree from CPU to CPU.  For a
    directory whose files fit the buffers, with CPU numbers that fit a set, without
    caches whose attributes divide by 0 and without a device tree ([cpus_directory]),
    when no socket gets a CPU model and no cache has an empty map ([sets_clear]: an
    object that the insertion freed is not used afterwards, which is undefined),
    [look_sysfscpu] completes, keeps the hierarchy well formed and the objects that were
    there, knows the CPUs of the directory and those that are offline, and each CPU with
    topology files has a PU. *)
Theorem sysfs_sets_may_cross entries st : cpus_directory entries -> standing st -> sets_clear entries ->
  exists st', look_sysfscpu fs path Lprocs machine st = Some (0, st') /\ standing st' /\ cpus_known entries st st' /\
    forall i, entry_of (with_topology fs path) entries i -> has st' (is_kind HWLOC_OBJ_PU 0 (b_only i)).
Proof.
  intros Hd Hst Hc. destruct (look_sysfscpu_ok entries st Hd Hst) as (st' & Hrun & Hst' & Hk & Hp & _); [by left|].
  by exists st'.
Qed.

(** C5. When the sets in the topology files are nested or disjoint, each CPU of the
    directory finds in the hierarchy its socket, core, book, caches and PU, with the
    sets and numbers of its files (an object is looked for at the first CPU of its set;
    a thread that has a core number of its own has a core of its own). *)
Theorem sysfs_objects_there entries st : cpus_directory entries -> standing st -> sets_nested (B := B) fs path -> apart st ->
  exists st', look_sysfscpu fs path Lprocs machine st = Some (0, st') /\ standing st' /\ cpus_known entries st st' /\
    forall i, entry_of (with_topology fs path) entries i -> cpu_there fs path i st'.
Proof.
  intros Hd Hst Hn Ha. destruct (look_sysfscpu_ok entries st Hd Hst) as (st' & Hrun & Hst' & Hk & _ & Ht); [by right|].
  exists st'. split; [done|]. split; [done|]. split; [done|]. by apply Ht.
Qed.

(** ** Loading *)

Lemma standing_built st : standing st -> built (x_top st) (t_children (x_root st)).
Proof.
  intros [Hwf Hfull Hc Hn Hbare Hnor Hdis Hfr]. split; [done|done|done|].
  assert (Node (x_top st) (t_children (x_root st)) = x_root st) as -> by (unfold x_top; by destruct (x_root st)).
  eapply Forall_impl; [exact Hnor|]. by intros o [? _].
Qed.

Lemma linux_root_node st : x_root st = Node (x_top st) (t_children (x_root st)).
Proof. unfold x_top. by destruct (x_root st). Qed.

(** A machine without objects. *)
Lemma fresh_standing addr : standing (mk_linux (Node (new_root addr) []) (addr + 1) [] : linux_state (B := B)).
Proof.
  split; unfold x_top, x_objs, forest_objs; cbn.
  - constructor; [constructor|constructor].
  - intros i Hi. unfold cs, new_root. cbn. by apply bm_alloc_full.
  - by split_and!.
  - split; [by eexists|]. eexists. split; [done|]. constructor.
  - constructor.
  - repeat constructor; discriminate.
  - repeat constructor. apply not_elem_of_nil.
  - repeat constructor. cbn. lia.
Qed.

(** An online CPU that the files tell about is usable. *)
Lemma entry_usable flags entries st st' i al : cpus_known entries st st' -> 0 <= i ->
  has st' (is_kind HWLOC_OBJ_PU 0 (b_only i)) -> entry_of (fun _ => True) entries i -> ~ entry_of (offline fs path) entries i ->
  (forall c, online_cpuset (sets (x_top st)) = Some c -> bm c i = true) ->
  allowed_cpuset (sets (x_top st)) = Some al -> bm al i = true -> i < CPU_MAX ->
  usable_cpu flags (x_top st') (t_children (x_root st')) i = true.
Proof.
  intros [(cc & Hcc & Hc) (n & n' & Hn & Hn' & Hon) Hal _] Hi (o & Ho & Hty & _ & Hset) He Hoff Hst Hal1 Hal2 Hmax.
  unfold usable_cpu. rewrite Hcc, Hn', Hal, Hal1. unfold in_set. cbn [default].
  assert (bm n' i = true) as Hon' by (apply Hon; [done|split; [by apply Hst|done]]).
  rewrite Hc, Hal2, Hon' by done. rewrite !andb_true_r, orb_true_r, andb_true_r.
  apply existsb_exists. exists o. split; [by apply list_elem_of_In|]. unfold is_pu_obj. rewrite bool_decide_true by done. cbn [andb].
  specialize (Hset i Hi). rewrite bm_only, Z.eqb_refl in Hset by lia. unfold cs in Hset. unfold in_set.
  destruct (ocpuset o); [done|]. cbn in Hset. by rewrite bm_alloc in Hset.
Qed.

(** C4. From a machine without objects, for a directory whose files fit the buffers, with
    CPU numbers that fit a set, without caches whose attributes divide by 0 and without a
    device tree ([cpus_directory]), in which a CPU with topology files is online.  Either
    no socket gets a CPU model and no cache has an empty map ([sets_clear]), and the sets
    may cross; or the sets of the files are nested or disjoint.  Then what
    [look_sysfscpu] builds is loaded into a topology that can be consulted, with nested
    cpusets and all the sets, in which each online CPU with topology files has a PU
    unless PUs are ignored; or else the objects that are left need more levels than
    [HWLOC_DEPTH_MAX] and the assertion on it fails ([out_of_levels]). *)
Theorem linux_topology_loads qsort flags ign entries st : cpus_directory entries -> standing st ->
  sets_clear entries \/ (sets_nested (B := B) fs path /\ apart st) ->
  (forall i, 0 <= i -> exists on al, online_cpuset (sets (x_top st)) = Some on /\ allowed_cpuset (sets (x_top st)) = Some al /\
    bm on i = true /\ bm al i = true) ->
  let online_entry i := entry_of (with_topology fs path) entries i /\ ~ entry_of (offline fs path) entries i in
  (exists i, online_entry i) ->
  exists st', look_sysfscpu fs path Lprocs machine st = Some (0, st') /\
    match finish_discovery qsort flags ign (x_root st') with
    | Some (root, tl) =>
        consultable (topology_of root tl) /\ hierarchy (topology_of root tl) root /\ distinct (tree_objs root) /\
        cpus_nested root /\ Forall all_sets (tree_objs root) /\
        (ign HWLOC_OBJ_PU = HWLOC_IGNORE_TYPE_NEVER -> forall i, online_entry i ->
          exists o, o ∈ tree_objs root /\ o_type o = HWLOC_OBJ_PU /\ bm (cs o) i = true)
    | None => exists r, sublist (map core (tree_objs r)) (map core (tree_objs (x_root st'))) /\ out_of_levels r
    end.
Proof.
  intros Hd Hst Hmode Hfull online_entry (i & Hi).
  destruct (look_sysfscpu_ok entries st Hd Hst Hmode) as (st' & Hrun & Hst' & Hk & Hp & _). exists st'. split; [done|].
  assert (forall i, online_entry i -> 0 <= i < CPU_MAX /\ usable_cpu flags (x_top st') (t_children (x_root st')) i = true) as Huse.
  { intros j [Hj Hoff]. assert (0 <= j < CPU_MAX) as Hr by (eapply entry_range; [apply Hd|exact Hj]). split; [done|].
    destruct (Hfull j ltac:(lia)) as (on & al & Hon & Hal & Hbo & Hba).
    apply (entry_usable flags entries st st' j al Hk); [lia|by apply Hp| |done| |done|done|lia].
    - destruct Hj as (name & cpu & ? & ? & ? & _). by exists name, cpu.
    - intros c Hc. congruence. }
  pose proof (discovery_ok qsort flags ign (x_top st') (t_children (x_root st')) (standing_built st' Hst')) as Hok.
  rewrite <- linux_root_node in Hok. specialize (Hok (sd_wf _ Hst') (sd_distinct _ Hst') (sd_normal _ Hst')).
  destruct (Huse i Hi) as [Hir Hiu]. specialize (Hok (ex_intro _ i (conj (proj1 Hir) Hiu))).
  destruct (finish_discovery qsort flags ign (x_root st')) as [[root tl]|]; [|exact Hok].
  destruct Hok as [H1 H2 H3 H4 H5 _ Hfrom Hkept]. split_and!; try done. intros Hign j Hj. destruct (Huse j Hj) as [Hjr Hju].
  destruct (Hp j) as (o & Ho & Hty & _ & Hset); [apply Hj|].
  assert (o ∈ tree_objs (x_root st')) as Hin by (rewrite x_root_objs; by right).
  assert (bm (cs o) j = true) as Hbj by (rewrite Hset, bm_only by lia; lia).
  rewrite <- linux_root_node in Hfrom, Hkept. rewrite Forall_forall in Hkept. destruct (Hkept o Hin) as (o' & Ho' & Hcore); [by rewrite Hty|right; exists j; split; [lia|done]|].
  exists o'. split; [done|]. destruct (core_facts _ _ Hcore) as (_ & Hty' & _). split; [congruence|].
  rewrite Forall_forall in Hfrom. destruct (Hfrom o' Ho') as (o2 & Ho2 & Hcore2 & Hm).
  assert (o2 = o) as ->.
  { rewrite Hcore2 in Hcore. apply (distinct_inj (tree_objs (x_root st'))); [apply Hst'|done|done|]. by destruct (core_facts _ _ Hcore). }
  rewrite Hm, Hbj, Hju by lia. done.
Qed.

End Sysfs.
(** ** Masks, lists and processors *)

Section Files.
Context {B : Type} `{Cpuset B} `{!CpumapOps B} `{!Cpumap B}.
Implicit Types set : B.
Context (fs : file_system).

(** C16. [hwloc_parse_cpumap] reads the mask that the kernel writes, words of 32 bits in
    hexadecimal, the highest first, separated by commas, back to exactly those CPUs:
    CPU [i] is bit [i mod 32] of word [i / 32] from the end, whatever the number of
    words, and even when the first ones are 0 and are dropped. *)
Theorem cpumap_text_read path width l : l <> [] -> words_fit width l -> Z.of_nat (length l) < CPU_MAX / 64 ->
  hwloc_fopen fs path = Some (cpumap_text width l) ->
  exists set, hwloc_parse_cpumap fs path = Some (Some set) /\ bfin set = true /\
    forall i, 0 <= i -> bm set i = in_masks (rev l) i.
Proof.
  intros Hne Hfit Hlen Hf. unfold hwloc_parse_cpumap. rewrite Hf.
  destruct (cpumap_read_back (B := B) width l Hne Hfit Hlen) as (set & -> & Hfin & Hset). by exists set.
Qed.

(** The file of a cpuset that lists CPUs or nodes: the mount point of cgroups is preferred. *)
Definition cpuset_file (m : mntpnts) (name : chars) (attr : string) : option chars :=
  match m with
  | (Some cgroup, _) => Some (cgroup ++ name ++ txt "/cpuset." ++ txt attr)
  | (None, Some cpuset) => Some (cpuset ++ name ++ txt "/" ++ txt attr)
  | (None, None) => None
  end.

(** [l] is the increasing list of ranges in that file. *)
Record cpuset_lists (m : mntpnts) (name : chars) (attr : string) (l : list (Z * Z)) : Prop := {
  cl_some : l <> [];
  cl_ranges : ranges_from 0 l;
  cl_file : exists p, cpuset_file m name attr = Some p /\ hwloc_fopen fs (take 255 p) = Some (cpuset_text l);
}.

Lemma listed_restricts m name attr l set : cpuset_lists m name attr l ->
  exists set', hwloc_admin_disable_set_from_cpuset fs m name attr set = Some set' /\
    forall i, 0 <= i -> bm set' i = bm set i && in_ranges l i.
Proof.
  intros [Hne Hl (p & Hp & Hf)]. apply (disable_set_ok fs m name attr l set p); [done|done| |done].
  unfold cpuset_file in Hp. by destruct m as [[?|] [?|]]; simplify_eq.
Qed.

(** C15. When the process is in a cpuset, the allowed CPUs and nodes of the machine
    become exactly those of them that the files of the cpuset list, its name is kept
    for the infos, and nothing else changes. *)
Theorem cpuset_restricts proc m name cpus mems (st : linux_state (B := B)) : standing st ->
  hwloc_find_linux_cpuset_mntpnt fs = Some m -> hwloc_read_linux_cpuset_name fs (p_pid proc) = Some (Some name) ->
  cpuset_lists m name "cpus" cpus -> cpuset_lists m name "mems" mems -> is_Some (allowed_nodeset (sets (x_top st))) ->
  exists st' al al' an an', disable_sets fs proc st = Some (Some name, st') /\ standing st' /\
    allowed_cpuset (sets (x_top st)) = Some al /\ allowed_cpuset (sets (x_top st')) = Some al' /\
    allowed_nodeset (sets (x_top st)) = Some an /\ allowed_nodeset (sets (x_top st')) = Some an' /\
    (forall i, 0 <= i -> bm al' i = bm al i && in_ranges cpus i) /\
    (forall i, 0 <= i -> bm an' i = bm an i && in_ranges mems i) /\
    x_objs st' = x_objs st /\ x_top st' = with_allowed_nodeset (with_allowed_cpuset (x_top st) (Some al')) (Some an').
Proof.
  intros Hst Hm Hname Hcpus Hmems [an Han]. pose proof (sd_cpus _ Hst) as (Hc & Hcc & Hon & [al Hal]).
  destruct (listed_restricts m name "cpus" cpus al Hcpus) as (al' & Hal' & Hbc).
  destruct (listed_restricts m name "mems" mems an Hmems) as (an' & Han' & Hbm).
  set (f o := with_allowed_nodeset (with_allowed_cpuset o (Some al')) (Some an')).
  destruct (on_top_parts f st) as (Htop & Hobjs & _). exists (on_top f st), al, al', an, an'.
  assert (disable_sets fs proc st = Some (Some name, on_top f st)) as ->.
  { unfold disable_sets. rewrite Hm, Hname. cbn [mbind option_bind]. change (t_obj (x_root st)) with (x_top st).
    rewrite Hal, Han. cbn [mbind option_bind]. rewrite Hal', Han'. cbn [mbind option_bind].
    destruct Hcpus as [_ _ (p & Hp & _)]. by destruct m as [[?|] [?|]]. }
  rewrite Htop, Hobjs. split; [done|]. split; [apply top_sets_standing; [done|by intros []|done|done|by split_and!]|]. by split_and!.
Qed.

(** C17. [hwloc_linux_parse_cpuinfo] reads the processors that the kernel writes in
    [/proc/cpuinfo] back with their numbers and models, in order.  Two of them then get the same logical
    socket exactly when their physical ids are the same, and the same logical core
    exactly when their core ids and physical ids are: the logical number is the
    position among the distinct numbers. *)
Theorem cpuinfo_read_and_numbered path procs n : Forall proc_numbers procs ->
  hwloc_fopen fs path = Some (cpuinfo_text procs) ->
  hwloc_linux_parse_cpuinfo fs path = Some (Some procs) /\
  exists ps qs socks cores i j, number_procs socket_number Z.eqb with_Lsock procs [] n = (ps, socks, i) /\
    number_procs core_number same_core with_Lcore procs [] n = (qs, cores, j) /\ NoDup socks /\ NoDup cores /\
    forall a b p q p1 q1 p2 q2, procs !! a = Some p -> procs !! b = Some q ->
      ps !! a = Some p1 -> ps !! b = Some q1 -> qs !! a = Some p2 -> qs !! b = Some q2 ->
      (Lsock p1 = Lsock q1 <-> Psock p = Psock q) /\ socks !! Z.to_nat (Lsock p1) = Some (Psock p) /\
      (Lcore p2 = Lcore q2 <-> Pcore p = Pcore q /\ Psock p = Psock q) /\
      cores !! Z.to_nat (Lcore p2) = Some (Pcore p, Psock p).
Proof.
  intros Hp Hf. split.
  { unfold hwloc_linux_parse_cpuinfo. rewrite Hf, (parse_procs _ procs []) by (done || apply cpuinfo_text_long).
    cbn [mbind option_bind]. by rewrite app_nil_r, rev_involutive. }
  destruct (number_procs_ok socket_number Z.eqb with_Lsock Z.eqb_eq procs [] n (NoDup_nil_2)) as (ps & socks & i & Hs & Hnd & Hall & _).
  destruct (number_procs_ok core_number same_core with_Lcore same_core_iff procs [] n (NoDup_nil_2)) as (qs & cores & j & Hc & Hnd2 & Hall2 & _).
  exists ps, qs, socks, cores, i, j. split; [done|]. split; [done|]. split; [done|]. split; [done|].
  assert (forall p, p ∈ procs -> socket_number p = Some (Psock p) /\ core_number p = Some (Pcore p, Psock p)) as Hnum.
  { intros p Hin. rewrite Forall_forall in Hp. destruct (Hp p Hin) as [_ H1 H2 _ _]. unfold socket_number, core_number.
    rewrite !(proj2 (Z.eqb_neq _ _)), !u32_small by lia. done. }
  intros a b p q p1 q1 p2 q2 Ha Hb Hp1 Hq1 Hp2 Hq2.
  destruct (Hnum p) as [Hps Hpc]; [by eapply list_elem_of_lookup_2|]. destruct (Hnum q) as [Hqs Hqc]; [by eapply list_elem_of_lookup_2|].
  destruct (numbers_same socket_number with_Lsock Lsock socks procs ps ltac:(done) Hnd Hall a b p q p1 q1 _ _ Ha Hb Hp1 Hq1 Hps Hqs) as [Hsame1 Hpos1].
  destruct (numbers_same core_number with_Lcore Lcore cores procs qs ltac:(done) Hnd2 Hall2 a b p q p2 q2 _ _ Ha Hb Hp2 Hq2 Hpc Hqc) as [Hsame2 Hpos2].
  split; [done|]. split; [done|]. split; [|done]. rewrite Hsame2. split; [by intros [= -> ->]|by intros [-> ->]].
Qed.

End Files.

(** ** Caches of the device tree *)

Section DeviceTree.
Context {B : Type} `{Cpuset B}.
Implicit Types set : B.
Implicit Types c d : device_tree_cpu (B := B).
Context (cpus : list (device_tree_cpu (B := B))).

(** CPU [d] is below the cache [phandle], in steps along [l2_cache]. *)
Inductive leads_to : Z -> device_tree_cpu -> Prop :=
  | leads_cpu phandle d : phandle <> UINT_MAX -> d ∈ cpus -> dt_l2_cache d = phandle -> is_Some (dt_cpuset d) -> leads_to phandle d
  | leads_cache phandle c d : phandle <> UINT_MAX -> c ∈ cpus -> dt_l2_cache c = phandle -> dt_cpuset c = None ->
      leads_to (dt_phandle c) d -> leads_to phandle d.

(** No cache leads back to itself: the caches can be ranked. *)
Definition caches_ranked (rank : Z -> nat) : Prop :=
  (forall p, (rank p <= length cpus)%nat) /\
  forall c, c ∈ cpus -> dt_cpuset c = None -> dt_l2_cache c <> UINT_MAX -> (rank (dt_phandle c) < rank (dt_l2_cache c))%nat.

(** What an entry gives to the cache [phandle]. *)
Definition gives phandle c d : Prop :=
  dt_l2_cache c = phandle /\ ((d = c /\ is_Some (dt_cpuset c)) \/ (dt_cpuset c = None /\ leads_to (dt_phandle c) d)).

Definition in_cpu d (i : Z) : bool := match dt_cpuset d with Some s => bm s i | None => false end.

(** The CPUs that are found: those of [P]. *)
Definition found_from (P : device_tree_cpu -> Prop) (found0 found : bool) set0 set : Prop :=
  (found = true <-> found0 = true \/ exists d, P d) /\
  forall i, 0 <= i -> bm set i = true <-> bm set0 i = true \/ exists d, P d /\ in_cpu d i = true.

Lemma found_trans P Q f0 f1 f2 s0 s1 s2 : found_from P f0 f1 s0 s1 -> found_from Q f1 f2 s1 s2 ->
  found_from (fun d => P d \/ Q d) f0 f2 s0 s2.
Proof.
  intros [Hf1 Hs1] [Hf2 Hs2]. split; [rewrite Hf2, Hf1; naive_solver|]. intros i Hi. rewrite Hs2, Hs1 by done. naive_solver.
Qed.

Lemma found_iff P Q f0 f1 s0 s1 : (forall d, P d <-> Q d) -> found_from P f0 f1 s0 s1 -> found_from Q f0 f1 s0 s1.
Proof. intros Hpq [Hf Hs]. split; [rewrite Hf; naive_solver|]. intros i Hi. rewrite Hs by done. naive_solver. Qed.

Lemma leads_gives phandle d : phandle <> UINT_MAX -> leads_to phandle d <-> exists c, c ∈ cpus /\ gives phandle c d.
Proof.
  intros Hp. split.
  - destruct 1 as [? ? _ Hin Hl Hs|? c ? _ Hin Hl Hs Hd]; [exists d|exists c]; (split; [done|]); split; auto.
  - intros (c & Hin & Hl & [[-> Hs]|[Hs Hd]]); [by apply leads_cpu|by apply (leads_cache phandle c)].
Qed.

(** The entries one after the other. *)
Lemma discover_entries rank fuel phandle : caches_ranked rank -> phandle <> UINT_MAX -> (rank phandle < S fuel)%nat ->
  (forall p level set, (rank p < fuel)%nat -> exists found level' set',
    look_powerpc_device_tree_discover_cache fuel cpus p level set = Some (found, level', set') /\ found_from (leads_to p) false found set set') ->
  forall l, Forall (fun c => c ∈ cpus) l -> forall found level set, exists found' level' set',
    foldl (discover_entry (look_powerpc_device_tree_discover_cache fuel cpus) phandle) (Some (found, level, set)) l = Some (found', level', set') /\
    found_from (fun d => exists c, c ∈ l /\ gives phandle c d) found found' set set'.
Proof.
  intros [_ Hrank] Hp Hfuel IH l. induction l as [|c l IHl]; intros Hl found level set.
  { exists found, level, set. split; [done|]. split; [|intros i Hi]; split; auto; intros [?|(d & Hd)]; try done;
      [destruct Hd as (c & Hc & _)|destruct Hd as ((c & Hc & _) & _)]; by apply not_elem_of_nil in Hc. }
  apply Forall_cons in Hl as [Hc Hl]. cbn [foldl discover_entry mbind option_bind].
  assert (forall found1 level1 set1, found_from (gives phandle c) found found1 set set1 -> exists found' level' set',
    foldl (discover_entry (look_powerpc_device_tree_discover_cache fuel cpus) phandle) (Some (found1, level1, set1)) l = Some (found', level', set') /\
    found_from (fun d => exists c', c' ∈ c :: l /\ gives phandle c' d) found found' set set') as Hnext.
  { intros found1 level1 set1 H1. destruct (IHl Hl found1 level1 set1) as (found' & level' & set' & Hrun & H2).
    exists found', level', set'. split; [exact Hrun|]. eapply found_iff; [|by eapply found_trans]. intros d. cbn beta.
    setoid_rewrite elem_of_cons. naive_solver. }
  destruct (Z.eqb_spec phandle (dt_l2_cache c)) as [Heq|Hne]; cbn [negb].
  2: { apply Hnext. split; [|intros i Hi]; split; auto; intros [?|(d & Hd)]; try done; destruct Hd as [Hd ?] || idtac; exfalso; apply Hne; symmetry; apply Hd. }
  destruct (dt_cpuset c) as [s|] eqn:Hs.
  - apply Hnext. assert (forall d, gives phandle c d <-> d = c) as Hg.
    { intros d. unfold gives. rewrite Hs. split; [intros [_ [[-> _]|[? _]]]; done|]. intros ->. split; [done|]. left. by split; [|eexists]. }
    split; [split; [right; exists c; by apply Hg|done]|]. intros i Hi. rewrite bm_or, orb_true_iff by done. unfold in_cpu.
    setoid_rewrite Hg. split; [intros [?|?]; [by left|right; exists c; by rewrite Hs]|]. intros [?|(d & -> & Hd)]; [by left|right; by rewrite Hs in Hd].
  - destruct (IH (dt_phandle c) (u32 (level + 1)) set) as (below & level1 & set1 & -> & [Hf1 Hs1]).
    { specialize (Hrank c Hc Hs). rewrite <- Heq in Hrank. specialize (Hrank Hp). lia. }
    cbn [mbind option_bind]. apply Hnext. assert (forall d, gives phandle c d <-> leads_to (dt_phandle c) d) as Hg.
    { intros d. unfold gives. rewrite Hs. split; [intros [_ [[_ [? ?]]|[_ ?]]]; done|]. intros Hd. split; [done|]. by right. }
    split; [rewrite orb_true_iff, Hf1|intros i Hi; rewrite Hs1 by done]; setoid_rewrite Hg; naive_solver.
Qed.

Lemma discover_cache_ok rank fuel phandle level set : caches_ranked rank -> (rank phandle < fuel)%nat ->
  exists found level' set', look_powerpc_device_tree_discover_cache fuel cpus phandle level set = Some (found, level', set') /\
    found_from (leads_to phandle) false found set set'.
Proof.
  intros Hrank. revert phandle level set. induction fuel as [|fuel IH]; intros phandle level set Hfuel; [lia|].
  cbn [look_powerpc_device_tree_discover_cache]. destruct (Z.eqb_spec phandle UINT_MAX) as [->|Hp].
  - exists false, level, set. split; [done|]. assert (forall d, ~ leads_to UINT_MAX d) as Hno by (intros d Hd; by inversion Hd).
    split; [|intros i Hi]; split; auto; intros [?|(d & Hd)]; try done; [by destruct (Hno d)|destruct (Hno d); apply Hd].
  - destruct (discover_entries rank fuel phandle Hrank Hp Hfuel IH cpus) with (found := false) (level := level) (set := set)
      as (found' & level' & set' & -> & Hf); [by apply Forall_forall|].
    exists found', level', set'. split; [done|]. eapply found_iff; [|exact Hf]. intros d. by rewrite leads_gives.
Qed.

(** C18. The walk along the caches of the device tree ends when none leads back to
    itself: it finds a cache exactly when a CPU is below it, and adds to the set
    exactly the CPUs below it, at any number of levels. *)
Theorem device_tree_walk_ends rank phandle level set : caches_ranked rank ->
  exists found level' set', look_powerpc_device_tree_discover_cache (S (length cpus)) cpus phandle level set = Some (found, level', set') /\
    (found = true <-> exists d, leads_to phandle d) /\
    forall i, 0 <= i -> bm set' i = true <-> bm set i = true \/ exists d, leads_to phandle d /\ in_cpu d i = true.
Proof.
  intros Hrank. destruct (discover_cache_ok rank (S (length cpus)) phandle level set Hrank) as (found & level' & set' & Hrun & Hf & Hs).
  { destruct Hrank as [Hr _]. specialize (Hr phandle). lia. }
  exists found, level', set'. split; [done|]. split; [|done]. rewrite Hf. naive_solver.
Qed.

End DeviceTree.

(** ** Witnesses *)

Definition LF : string := String "010" EmptyString.

(** A system whose files do not change. *)
Definition look_up {A} (l : list (string * A)) (p : chars) : option A :=
  snd <$> head (filter (fun x => txt (fst x) = p) l).
Definition files_of (files : list (string * string)) (dirs : list (string * list string)) : file_system := {|
  fs_content p := txt <$> look_up files p;
  fs_entries p := map txt <$> look_up dirs p;
  fs_readable p := bool_decide (is_Some (look_up files p));
  fs_missing p := negb (existsb (fun x => bool_decide (is_Some (starts_with (string_of_list_ascii p) (txt (fst x))))) files);
  fs_nlink p := None;
  fs_isdir p := bool_decide (is_Some (look_up dirs p));
|}.

Definition cpus_path : string := "/sys/devices/system/cpu".
Definition cpu_files (i socket core siblings threads cache : string) : list (string * string) :=
  let p := ("sys/devices/system/cpu/cpu" ++ i)%string in
  [(p ++ "/topology/physical_package_id", socket ++ LF); (p ++ "/topology/core_siblings", siblings ++ LF);
   (p ++ "/topology/core_id", core ++ LF); (p ++ "/topology/thread_siblings", threads ++ LF);
   (p ++ "/cache/index0/level", "2" ++ LF); (p ++ "/cache/index0/type", "Unified" ++ LF);
   (p ++ "/cache/index0/shared_cpu_map", cache ++ LF)]%string.

(** Two sockets of two cores with a cache each; CPU 3 is offline. *)
Definition sample_files : list (string * string) :=
  cpu_files "0" "0" "0" "3" "1" "3" ++ cpu_files "1" "0" "1" "3" "2" "3" ++
  cpu_files "2" "1" "0" "c" "4" "00000000,0000000c" ++ cpu_files "3" "1" "1" "0000000c" "8" "c" ++
  [("sys/devices/system/cpu/cpu3/online", "0" ++ LF)]%string.
Definition sample_entries : list string := ["cpu0"; "cpu1"; "cpu2"; "cpu3"; "kernel_max"]%string.
Definition sample_fs : file_system := files_of sample_files [("sys/devices/system/cpu", sample_entries)]%string.

Definition sample_start : linux_state (B := wbitmap) := mk_linux (Node (new_root 0) []) 1 [].

Lemma look_up_in {A} (l : list (string * A)) p a : look_up l p = Some a -> a ∈ map snd l.
Proof.
  unfold look_up. destruct (filter _ l) as [|x r] eqn:Hf; [done|]. intros [= <-].
  assert (x ∈ filter (fun x => txt (fst x) = p) l) as Hx by (rewrite Hf; left). apply list_elem_of_filter in Hx as [_ Hx].
  apply list_elem_of_fmap. by exists x.
Qed.

Lemma files_of_fit files dirs : Forall (fun x => Z.of_nat (length (txt (snd x))) <= file_max) files -> files_fit (files_of files dirs).
Proof.
  intros Hf p c Hc. cbn in Hc. destruct (look_up files p) as [s|] eqn:Hl; [|done]. injection Hc as <-. apply look_up_in in Hl.
  apply list_elem_of_fmap in Hl as (x & -> & Hx). rewrite Forall_forall in Hf. by apply Hf.
Qed.

(** The sets of the files are those of their contents. *)
Lemma file_set_content files dirs path (s : wbitmap) : file_set (files_of files dirs) path s ->
  exists c, c ∈ map snd files /\ hwloc_linux_parse_cpumap_file (txt c) = Some s.
Proof.
  assert (forall p, hwloc_parse_cpumap (files_of files dirs) p = Some (Some s) ->
    exists c, c ∈ map snd files /\ hwloc_linux_parse_cpumap_file (txt c) = Some s) as Hin.
  { intros p. unfold hwloc_parse_cpumap, hwloc_fopen. cbn [fs_content files_of].
    destruct (look_up files (hwloc_checkat p)) as [c|] eqn:Hl; [|done]. cbn [fmap option_fmap option_map].
    destruct (hwloc_linux_parse_cpumap_file (txt c)) as [t|] eqn:Hp; [|done]. intros [= ->].
    exists c. split; [by eapply look_up_in|done]. }
  intros (i & _ & [(f & _ & p & _ & Hp)|(j & _ & p & _ & Hp)]); by eapply Hin.
Qed.

Definition nested_b (a b : wbitmap) : bool :=
  bfin a && bfin b && (b_isincluded a b || b_isincluded b a || negb (b_intersects a b)).

Lemma nested_b_laminar a b : nested_b a b = true -> laminar a b.
Proof.
  unfold nested_b. rewrite !andb_true_iff, !orb_true_iff, negb_true_iff. intros [[Ha Hb] [[Hi|Hi]|Hi]].
  - left. by apply b_isincluded_spec.
  - right. left. by apply b_isincluded_spec.
  - right. right. apply b_intersects_spec; [by left|done].
Qed.

Definition contents_nested (files : list (string * string)) : bool :=
  let sets := map (fun c => hwloc_linux_parse_cpumap_file (B := wbitmap) (txt c)) (remove_dups (map snd files)) in
  forallb (fun a => forallb (fun b => match a, b with Some a, Some b => nested_b a b | _, _ => false end) sets) sets.

Lemma contents_nested_ok files dirs path : contents_nested files = true -> sets_nested (B := wbitmap) (files_of files dirs) path.
Proof.
  unfold contents_nested. rewrite forallb_forall. intros Hall s1 s2 (c1 & Hin1 & H1)%file_set_content (c2 & Hin2 & H2)%file_set_content.
  specialize (Hall (Some s1)). rewrite forallb_forall in Hall.
  assert (forall c s, c ∈ map snd files -> hwloc_linux_parse_cpumap_file (B := wbitmap) (txt c) = Some s ->
    In (Some s) (map (fun c => hwloc_linux_parse_cpumap_file (txt c)) (remove_dups (map snd files)))) as Hmem.
  { intros c s Hc Hs. rewrite <- Hs. apply in_map_iff. exists c. split; [done|]. apply list_elem_of_In. by apply elem_of_remove_dups. }
  apply nested_b_laminar. by apply (Hall (Hmem c1 s1 Hin1 H1) (Some s2)), (Hmem c2).
Qed.

(** The checks on the caches of some CPUs. *)
Definition caches_check (fs : file_system) (path : chars) (cpus : list Z) : bool :=
  forallb (fun i => forallb (fun j =>
    match cache_depth_of fs path i j with
    | Some (Some d) => bool_decide (is_Some (cache_attr fs path i j d))
    | _ => true
    end &&
    match cache_path path i j "/shared_cpu_map" with
    | Some p => match hwloc_parse_cpumap (B := wbitmap) fs p with Some (Some s) => 1 <=? b_weight s | _ => true end
    | None => true
    end) (seqZ 0 10)) cpus.

Lemma caches_check_ok fs path cpus i : caches_check fs path cpus = true -> i ∈ cpus ->
  caches_fine fs path i /\ no_late_use (B := wbitmap) fs path [] [] i.
Proof.
  unfold caches_check. rewrite forallb_forall. intros Hall Hi. specialize (Hall i). rewrite forallb_forall in Hall.
  assert (forall j, 0 <= j < 10 -> In j (seqZ 0 10)) as Hj by (intros j Hj; apply list_elem_of_In, elem_of_seqZ; lia).
  split; [intros j Hj' d Hd|split; [done|intros j s Hj' (p & Hp & Hs)]].
  - specialize (Hall ltac:(by apply list_elem_of_In) j (Hj j Hj')). rewrite Hd in Hall. apply andb_true_iff in Hall as [Hall _].
    by apply bool_decide_eq_true in Hall.
  - specialize (Hall ltac:(by apply list_elem_of_In) j (Hj j Hj')). rewrite Hp, Hs in Hall. apply andb_true_iff in Hall as [_ Hall]. lia.
Qed.

Lemma entries_fit_ok entries :
  forallb (fun name => match entry_cpu name with Some cpu => u32 cpu <? CPU_MAX | None => true end) entries = true -> entries_fit entries.
Proof.
  intros Hall. apply Forall_forall. intros name Hin%list_elem_of_In cpu Hcpu. rewrite forallb_forall in Hall. specialize (Hall name Hin).
  rewrite Hcpu in Hall. lia.
Qed.

Lemma sample_cpus P i : entry_of P (map txt sample_entries) i -> i ∈ [0; 1; 2; 3].
Proof.
  intros (name & cpu & Hin & Hc & <- & _). cbn [map sample_entries] in Hin. rewrite !elem_of_cons in Hin.
  destruct Hin as [->|[->|[->|[->|[->|Hin%not_elem_of_nil]]]]]; [..|done]; vm_compute in Hc; simplify_eq; vm_compute; set_solver.
Qed.

Lemma sample_directory : cpus_directory sample_fs (txt cpus_path) (map txt sample_entries).
Proof.
  assert (caches_check sample_fs (txt cpus_path) [0; 1; 2; 3] = true) as Hc by by_eval. split.
  - by_eval.
  - vm_compute. lia.
  - apply entries_fit_ok. by_eval.
  - apply files_of_fit. apply Forall_forall. intros x Hx.
    assert (forallb (fun x => Z.of_nat (length (txt (snd x))) <=? file_max) sample_files = true) as Hf by by_eval.
    rewrite forallb_forall in Hf. apply list_elem_of_In, Hf in Hx. lia.
  - intros i Hi%sample_cpus. by apply (caches_check_ok _ _ [0; 1; 2; 3]).
  - by_eval.
Qed.

Lemma sample_entry (i : nat) : (i < 4)%nat -> entry_of (with_topology sample_fs (txt cpus_path)) (map txt sample_entries) (Z.of_nat i).
Proof.
  intros Hi. assert (i = 0 \/ i = 1 \/ i = 2 \/ i = 3)%nat as Hc by lia.
  exists (txt ("cpu" ++ string_of_list_ascii (fmt_d (Z.of_nat i)))), (Z.of_nat i).
  destruct Hc as [->|[->|[->| ->]]]; (split; [vm_compute; set_solver|]; split; [by_eval|]; split; [by_eval|]);
    eexists; (split; [vm_compute; reflexivity|by_eval]).
Qed.

Lemma sysfs_sets_may_cross_witness :
  exists st', look_sysfscpu sample_fs (txt cpus_path) [] [] sample_start = Some (0, st') /\ standing st' /\
    has st' (is_kind HWLOC_OBJ_PU 0 (b_only 2)).
Proof.
  destruct (sysfs_sets_may_cross sample_fs (txt cpus_path) [] [] (map txt sample_entries) sample_start sample_directory (fresh_standing 0))
    as (st' & Hrun & Hst & _ & Hpu).
  - intros i Hi%sample_cpus. apply (caches_check_ok _ _ [0; 1; 2; 3]); [by_eval|exact Hi].
  - exists st'. split; [exact Hrun|]. split; [exact Hst|]. apply (Hpu 2), (sample_entry 2). lia.
Defined.

Lemma sample_apart : apart sample_fs (txt cpus_path) sample_start.
Proof. constructor. Qed.

Lemma sample_files_nested : sets_nested (B := wbitmap) sample_fs (txt cpus_path).
Proof. apply contents_nested_ok. by_eval. Qed.

Lemma sysfs_objects_there_witness :
  exists st', look_sysfscpu sample_fs (txt cpus_path) [] (txt "x86_64") sample_start = Some (0, st') /\
    cpu_there sample_fs (txt cpus_path) 2 st'.
Proof.
  destruct (sysfs_objects_there sample_fs (txt cpus_path) [] (txt "x86_64") (map txt sample_entries) sample_start sample_directory (fresh_standing 0)
    sample_files_nested sample_apart) as (st' & Hrun & _ & _ & Hthere).
  exists st'. split; [exact Hrun|]. apply (Hthere 2), (sample_entry 2). lia.
Defined.

Lemma sample_online i : entry_of (offline sample_fs (txt cpus_path)) (map txt sample_entries) i -> i = 3.
Proof.
  intros (name & cpu & Hin & Hc & <- & p & line & Hp & Hl & Hz). cbn [map sample_entries] in Hin. rewrite !elem_of_cons in Hin.
  destruct Hin as [->|[->|[->|[->|[->|Hin%not_elem_of_nil]]]]]; [..|done]; vm_compute in Hc; simplify_eq;
    vm_compute in Hp; simplify_eq; vm_compute in Hl; simplify_eq. by_eval.
Qed.

(** CPU 2 is in the topology that is loaded. *)
Lemma linux_topology_loads_witness :
  let keep_order (cmp : Z * Z -> Z * Z -> Z) (l : list (Z * Z)) := l in
  exists st' root tl, look_sysfscpu sample_fs (txt cpus_path) [] (txt "x86_64") sample_start = Some (0, st') /\
    finish_discovery keep_order 0 default_ignored (x_root st') = Some (root, tl) /\ consultable (topology_of root tl) /\
    exists o, o ∈ tree_objs root /\ o_type o = HWLOC_OBJ_PU /\ bm (cs o) 2 = true.
Proof.
  intros keep_order.
  assert (entry_of (with_topology sample_fs (txt cpus_path)) (map txt sample_entries) 2 /\
    ~ entry_of (offline sample_fs (txt cpus_path)) (map txt sample_entries) 2) as Hon
    by (split; [apply (sample_entry 2); lia|by intros ?%sample_online]).
  destruct (linux_topology_loads sample_fs (txt cpus_path) [] (txt "x86_64") keep_order 0 default_ignored (map txt sample_entries) sample_start
    sample_directory (fresh_standing 0) (or_intror (conj sample_files_nested sample_apart))) as (st' & Hrun & Hload).
  - intros i Hi. exists b_alloc_full, b_alloc_full. split; [reflexivity|]. split; [reflexivity|]. by rewrite !bm_alloc_full.
  - by exists 2.
  - assert (match look_sysfscpu sample_fs (txt cpus_path) [] (txt "x86_64") sample_start with
            | Some (_, st) => bool_decide (is_Some (finish_discovery keep_order 0 default_ignored (x_root st)))
            | None => false
            end = true) as Hsome by by_eval.
    rewrite Hrun in Hsome. apply bool_decide_eq_true in Hsome as [[root tl] Hfin]. rewrite Hfin in Hload.
    destruct Hload as (Hcons & _ & _ & _ & _ & Hpus). exists st', root, tl. split; [exact Hrun|]. split; [exact Hfin|].
    split; [exact Hcons|]. by apply Hpus.
Defined.

(** CPUs 0, 3 and 33. *)
Lemma cpumap_text_read_witness :
  let fs := files_of [("map", "2,00000009" ++ LF)]%string [] in
  exists set : wbitmap, hwloc_parse_cpumap fs (txt "/map") = Some (Some set) /\ bm set 33 = true /\ bm set 4 = false.
Proof.
  intros fs. destruct (cpumap_text_read (B := wbitmap) fs (txt "/map") 1 [2; 9]) as (set & Hset & _ & Hbits); [done| | |by_eval|].
  - split; [split; simpl; lia|]. constructor; [split; simpl; lia|constructor].
  - by_eval.
  - exists set. split; [exact Hset|]. split; rewrite Hbits by lia; by_eval.
Defined.

(** A job that may use CPUs 0, 1 and 5 and node 0. *)
Definition job_fs : file_system := files_of
  [("proc/mounts", "cpuset /dev/cpuset cpuset rw,relatime 0 0" ++ LF); ("proc/self/cgroup", "2:memory:/a" ++ LF ++ "1:cpuset:/jobs" ++ LF);
   ("dev/cpuset/jobs/cpus", "0-1,5" ++ LF); ("dev/cpuset/jobs/mems", "0" ++ LF)]%string [].
Definition sample_process : process := mk_process true 4096 (fun _ => None) 0 (txt "x86_64") 4 [].

Lemma cpuset_restricts_witness :
  exists (st' : linux_state (B := wbitmap)) al', disable_sets job_fs sample_process sample_start = Some (Some (txt "/jobs"), st') /\
    allowed_cpuset (sets (x_top st')) = Some al' /\ bm al' 1 = true /\ bm al' 3 = false /\ bm al' 1000 = false.
Proof.
  destruct (cpuset_restricts (B := wbitmap) job_fs sample_process (None, Some (txt "/dev/cpuset")) (txt "/jobs") [(0, 1); (5, 5)] [(0, 0)]
    sample_start (fresh_standing 0)) as (st' & al & al' & an & an' & Hrun & _ & Hal & Hal' & _ & _ & Hbc & _).
  - by_eval.
  - by_eval.
  - split; [done|cbn [ranges_from]; unfold CPU_MAX; lia|]. eexists. split; [reflexivity|by_eval].
  - split; [done|cbn [ranges_from]; unfold CPU_MAX; lia|]. eexists. split; [reflexivity|by_eval].
  - by eexists.
  - exists st', al'. split; [exact Hrun|]. split; [exact Hal'|]. injection Hal as <-. split_and!; rewrite Hbc by lia; by_eval.
Defined.

Definition sample_procs : list hwloc_linux_cpuinfo_proc :=
  [mk_proc 0 0 0 (-1) (-1) (Some (txt "Sample CPU: 2 cores")); mk_proc 1 0 3 (-1) (-1) None; mk_proc 2 1 0 (-1) (-1) None].

Lemma cpuinfo_read_and_numbered_witness :
  let fs := files_of [("proc/cpuinfo", string_of_list_ascii (cpuinfo_text sample_procs))]%string [] in
  hwloc_linux_parse_cpuinfo fs (txt "/proc/cpuinfo") = Some (Some sample_procs) /\
  exists ps socks i, number_procs socket_number Z.eqb with_Lsock sample_procs [] 3 = (ps, socks, i) /\ NoDup socks.
Proof.
  intros fs. destruct (cpuinfo_read_and_numbered fs (txt "/proc/cpuinfo") sample_procs 3) as (Hread & ps & qs & socks & cores & i & j & Hs & _ & Hnd & _).
  - assert (info_value (txt "Sample CPU: 2 cores")) as Hv
      by (split; [vm_compute; set_solver|vm_compute; set_solver|vm_compute; lia|by_eval]).
    repeat (apply Forall_cons; split); [..|by apply Forall_nil]; (split; [cbn; lia|cbn; lia|cbn; lia|done|]); cbn; intros m Hm; [|done|done].
    by injection Hm as <-.
  - by_eval.
  - split; [exact Hread|]. by exists ps, socks, i.
Defined.

(** Two L2 caches below an L3 cache. *)
Definition sample_tree : list (device_tree_cpu (B := wbitmap)) :=
  [mk_dt (Some (cset [0; 1])) 1 10 (txt "cpu@0"); mk_dt (Some (cset [2; 3])) 2 11 (txt "cpu@2");
   mk_dt None 10 20 (txt "l2@0"); mk_dt None 11 20 (txt "l2@2"); mk_dt None 20 UINT_MAX (txt "l3")].

Lemma device_tree_walk_ends_witness :
  exists found level' set', look_powerpc_device_tree_discover_cache 6 sample_tree 20 2 b_alloc = Some (found, level', set') /\ bm set' 3 = true.
Proof.
  destruct (device_tree_walk_ends sample_tree (fun p => if p =? 20 then 1%nat else 0%nat) 20 2 b_alloc) as (found & level' & set' & Hrun & _ & Hs).
  - split; [intros p; cbn; destruct (p =? 20); lia|]. intros c Hc. unfold sample_tree in Hc. rewrite !elem_of_cons in Hc.
    destruct Hc as [->|[->|[->|[->|[->|Hc%not_elem_of_nil]]]]]; cbn; try done; lia.
  - exists found, level', set'. split; [exact Hrun|]. apply Hs; [lia|]. right. exists (mk_dt (Some (cset [2; 3])) 2 11 (txt "cpu@2")).
    split; [|by_eval]. apply (leads_cache _ 20 (mk_dt None 11 20 (txt "l2@2"))); [done|unfold sample_tree; rewrite !elem_of_cons; tauto|done..|].
    apply leads_cpu; [done|unfold sample_tree; rewrite !elem_of_cons; tauto|done|by eexists].
Defined.

(** ** What goes wrong *)

(** The level of a cache counts all the caches below it: the L3 cache gets level 4. *)
Example cache_level_counts_siblings :
  match look_powerpc_device_tree_discover_cache 6 sample_tree 20 2 b_alloc with Some (_, level, _) => level | None => 0 end = 4.
Proof. by_eval. Qed.

(** Processor 1 has no physical id: the loop that should detect it looks at one processor
    only, and a socket of CPU 0 alone is made. *)
Definition half_numbered : string :=
  "processor : 0" ++ LF ++ "physical id : 5" ++ LF ++ "processor : 1" ++ LF.

Example missing_socket_not_seen :
  match look_cpuinfo (files_of [("proc/cpuinfo", half_numbered)]%string []) [] (txt "/proc/cpuinfo") sample_start with
  | Some (0, _, st) => existsb (fun o => bool_decide (o_type o = HWLOC_OBJ_SOCKET) && b_isequal (cs o) (cset [0])) (x_objs st)
  | _ => false
  end = true.
Proof. by_eval. Qed.

(** A number before the first processor is written before the array. *)
Example number_before_processor :
  hwloc_linux_parse_cpuinfo (files_of [("proc/cpuinfo", "physical id : 0" ++ LF)]%string []) (txt "/proc/cpuinfo") = None.
Proof. by_eval. Qed.

(** The socket of CPU 1 crosses that of CPU 0: it is freed by the insertion, and its infos
    are added to it afterwards. *)
Example info_of_freed_socket :
  let fs := files_of (cpu_files "0" "0" "0" "3" "1" "1" ++ cpu_files "1" "1" "0" "6" "2" "2")
    [("sys/devices/system/cpu", ["cpu0"; "cpu1"])]%string in
  match look_sysfscpu fs (txt cpus_path) [] (txt "x86_64") sample_start with None => true | Some _ => false end = true.
Proof. by_eval. Qed.

(** A cache whose line size is not known divides by 0. *)
Example cache_without_line_size :
  let fs := files_of (cpu_files "0" "0" "0" "1" "1" "1" ++ [("sys/devices/system/cpu/cpu0/cache/index0/number_of_sets", "64" ++ LF)]%string)
    [("sys/devices/system/cpu", ["cpu0"])]%string in
  match look_sysfscpu fs (txt cpus_path) [] [] sample_start with None => true | Some _ => false end = true.
Proof. by_eval. Qed.

(** An empty list leaves CPU 0. *)
Example empty_cpuset_list :
  match hwloc_admin_disable_set_from_cpuset (files_of [("dev/cpuset/jobs/cpus", LF)]%string []) (None, Some (txt "/dev/cpuset")) (txt "/jobs") "cpus"
          (b_alloc_full : wbitmap) with
  | Some set => b_isequal set (cset [0])
  | None => false
  end = true.
Proof. by_eval. Qed.

(** A cache that is its own next level is looked for forever. *)
Example cache_loop fuel (set : wbitmap) :
  look_powerpc_device_tree_discover_cache fuel [mk_dt None 7 7 (txt "l2-cache")] 7 2 set = None.
Proof.
  assert (forall fuel level, look_powerpc_device_tree_discover_cache fuel [mk_dt (B := wbitmap) None 7 7 (txt "l2-cache")] 7 level set = None) as Hloop; [|apply Hloop].
  clear fuel. intros fuel. induction fuel as [|fuel IH]; intros level; [done|]. cbn. by rewrite IH.
Qed.

(** Any entry that starts with [cpu] counts as a CPU: [cpuidle] is CPU 0. *)
Example cpuidle_is_cpu_0 :
  match list_cpu (files_of [] []) (txt cpus_path) (txt "cpuidle") (sample_start, b_alloc) with
  | Some (st, _) => match complete_cpuset (sets (x_top st)) with Some c => b_isequal c (cset [0]) | None => false end
  | None => false
  end = true.
Proof. by_eval. Qed.
